(* ===== verification/_CoqProject ===== *)
-Q . S2P
Prelude.v
Chain.v
Count.v
Bpf.v
BpfSafety.v
Proc.v
PidSafety.v
PgrpInv.v
PgrpLists.v
PgrpJobc.v
PgrpMove.v
PgrpSafety.v
Ncache.v
NcacheSpec.v
NcacheLinks.v
NcacheRel.v
NcacheOps.v
NcacheCalls.v
KLock.v
KLockSafety.v
Cred.v
CredSafety.v
Timers.v
TimersSafety.v
Rlimit.v
RlimitSafety.v
Descrip.v
DescripSafety.v
DescripInv.v
DescripOps.v
DescripFork.v
Lockf.v
LockfSpec.v
LockfHeap.v
LockfGrant.v
LockfLoops.v
LockfSafety.v
LockfCalls.v
Slcomp.v
SlcompSpec.v
SlcompTrip.v
SlcompRing.v
SlcompSafety.v
SlcompTypes.v
SlcompCalls.v
Ppp.v
PppSpec.v
PppNego.v
PppAgree.v
PppCalls.v
PppData.v
Mbuf.v
MbufSpec.v
MbufOps.v
MbufCopy.v
MbufClust.v
MbufCalls.v
Sockbuf.v
SockbufOps.v
SockbufCalls.v
Cksum.v
CksumSum.v
Ring.v
IpFrag.v
IpRing.v
IpSpec.v
IpView.v
IpHistory.v
IpHeader.v
IpLoops.v
IpJoin.v
IpInput.v
IpArrive.v
IpCalls.v
IpOut.v
IpWire.v
IpSplit.v
IpOutput.v
IpCross.v
IpExample.v
