(* ===== verification/Prelude.v ===== *)
(** * A verification library for the BSD/386 1.1 kernel

    The development models parts of the kernel under src/sys as Rocq functions on
    explicit states and proves what makes them correct.  This file is its root: the
    machine integers, pointers, kernel monad and lemmas that every other file uses.

    ** How the code is modelled

    A C integer is a [Z], cut to its width by [u8] ... [s32] wherever C stores or computes
    at a width; the machine is the i386 (32-bit [int], [long] and pointers, signed
    [char]).  A kernel object is an entry of a finite map from addresses ([loc]) and a
    pointer is an [option loc]; a [struct foo **], which the list code keeps, is a [pptr].
    A routine is a function of the monad [K S A]: it takes the state of its component and
    returns a result and a new state, or [None] when the kernel would not survive - a null
    or dangling pointer dereferenced, an access outside an object, a [panic].  An error
    number is an ordinary result.  Each modelled definition is preceded by a comment with
    the file and the lines it translates; names are those of the source.

    A loop over a kernel list runs on fuel.  The fuel is the size of the table that holds
    the objects of the list (the entries of a list without repetition are distinct keys,
    [NoDup_keys_size]), and the theorems show that it is never used up: their conclusions
    say that the call returns.  The other bounds: [bpf_filter] runs on the length of the
    program, since validated jumps go forward; [fork1]'s scan restarts at most 60001 times,
    because each restart passes a number in use; [fdalloc] enlarges a table at most 32 times,
    doubling it; the search of [sl_compress_tcp] takes at most MAX_STATES turns;
    [cache_purgevfs] takes at most (n + 1)^2 turns for n entries, n after each entry freed;
    [nchinit] doubles at most 32 times; the loops over the options of a control packet take at
    most as many turns as the packet has bytes, when no option says that it has none; the
    loop that makes fragments has one turn for every byte of the packet and one more;
    [sbdrop] and [sbflush] one for every mbuf and record of the buffer and one more.

    ** The parts

    - Prelude.v, Chain.v, Count.v: the shared library.  Chain.v has the kernel's singly
      linked lists: a record of how a component reads and writes its link field, a class of
      the laws this must satisfy ([LinkLaws], with one instance per list), and the loops,
      removal and insertion with their lemmas proved once against the class.  Count.v counts
      the entries of a table with a property, for reference counts.

    - Packet filter: net/bpf_filter.c and net/bpf.h in Bpf.v (data, [bpf_filter] on flat
      packets and mbuf chains, [bpf_validate]); BpfSafety.v shows that a validated program
      ends and, on a flat packet, fails only by the scratch index or the division the validator
      does not check, gives the bounds of the loads, and finds where chain loads differ.

    - Processes: kern/kern_proc.c, sys/proc.h and part of kern/kern_fork.c in Proc.v (the
      process table with its lists, hash tables and groups; [enterpgrp], [leavepgrp],
      [fixjobc], [setsid]; the choice of a process number).  PidSafety.v: [fork1]'s scan
      ends and picks an unused number, but for one shape of table.  PgrpInv.v, PgrpLists.v,
      PgrpJobc.v, PgrpMove.v, PgrpSafety.v: the invariant of the groups and sessions, kept
      by [enterpgrp] from any state, with the job control count of every group equal to the
      number of its qualifying members.

    - Name cache: kern/vfs_cache.c, with the component scan of kern/vfs_lookup.c and the
      queue routines of i386/i386/machdep.c, in Ncache.v.  NcacheSpec.v has the abstract
      cache (bindings, order of use, order of entry) and a theory of doubly linked lists
      with a tail pointer, of which both the LRU list and the circular hash chains are
      instances; NcacheLinks.v what each link edit does; NcacheRel.v and NcacheOps.v the
      simulation of the abstract operations; NcacheCalls.v the theorems: every call refines
      the abstract one, no answer of the cache is stale in any run in which the counter of
      capabilities does not wrap, and the ways the code breaks.

    - Locks of the VM system: vm/kern_lock.c in KLock.v, as a system of threads that take
      turns (a step is a run between two points where a thread sleeps), each within the rules
      of the package ([may_call]); KLockSafety.v: in every reachable state the counts are exact
      and a writer excludes all others, no wakeup is lost, and every sleeper on a lock that may
      sleep is woken in some run.

    - Credentials: kern/kern_prot.c in Cred.v, with shared reference-counted credentials;
      CredSafety.v: each identity call refines an update of a private identity, other
      processes see nothing, and no sequence of calls raises an unprivileged process.

    - Times: kern/kern_time.c in Timers.v, over a parameter for the callout queue and the
      clock (kern_clock.c is not in the repository) with the laws of timeout(9);
      TimersSafety.v: the interval timers and the arithmetic of times.

    - Resources: kern/kern_resource.c in Rlimit.v, on the process lists of Proc.v;
      RlimitSafety.v: limits shared copy-on-write refine private limits, and the rules of
      who may raise what.

    - Descriptors: kern/kern_descrip.c in Descrip.v, on Proc.v, Cred.v and Rlimit.v;
      DescripSafety.v, DescripInv.v, DescripOps.v, DescripFork.v: lowest descriptor, reference
      counts of open files, what [close], [dup2] and [fork] do to them.

    - Record locks: ufs/ufs_lockf.c in Lockf.v, on the heap of lock structures and sleeping
      processes; LockfSpec.v (the byte map and the list functions), LockfHeap.v, LockfGrant.v,
      LockfLoops.v (the loops compute the list functions), LockfSafety.v, LockfCalls.v: in
      every reachable state locks of two owners exclude each other, a call changes the
      byte map as it should, sleepers wait for a conflicting lock, the deadlock test finds
      a cycle; and a case in which a waiter's pointer dangles.

    - Header compression: net/slcompress.c in Slcomp.v; SlcompSpec.v, SlcompTrip.v,
      SlcompRing.v, SlcompSafety.v, SlcompTypes.v, SlcompCalls.v: what one end compresses
      the other end restores, in any session; the ring of states is an LRU list; widths are
      kept in every run inside the code's buffers; and where bounds are not checked.

    - Point-to-point protocol: net/ppp_fsm.c, ppp_lcp.c, ppp_ipcp.c and ppp_frame.c in Ppp.v,
      for one interface, with its two output queues, its timers and the queue of the IP input.
      PppSpec.v has the options of the line as a type and the answer to a request as a
      function of them, and shows that the loops over bytes compute it; PppNego.v what a
      request asks and what a refusal teaches; PppAgree.v that two ends that exchange frames
      come closer to agreement with every refusal; PppCalls.v the theorems on the automaton
      (answers, agreement, silence, and two ways it never goes on), PppData.v those on
      datagrams (carried unchanged, compressed or not, when frames keep their order; garbled
      when the priority queue changes it).

    - Memory buffers: kern/uipc_mbuf.c and the macros of sys/mbuf.h in Mbuf.v.  A chain is the
      list of its mbufs, a cluster is shared by number, and an owner of mbufs has the state of
      the allocator in its own (class [HasMbufs]).  MbufSpec.v has the bytes of a chain and the
      pool, that the free list and the counts account for the mbufs in use, with release and
      allocation; MbufOps.v, MbufCopy.v and MbufClust.v the routines on chains; MbufCalls.v the
      theorem on every call, and the cluster that 257 mbufs share.

    - Socket buffers: part of kern/uipc_socket2.c and sys/socketvar.h in Sockbuf.v.  The records
      of a buffer are a list of chains; its counts and limits are those of the structure.
      SockbufOps.v has what a record stands for (its bytes, each with the type of its mbuf, and
      whether it has ended) and what compression and dropping do to it; SockbufCalls.v that
      every call does to the records what it promises, with exact counts and no mbuf lost, that
      a stream comes out as it went in, and that what looks at the space stays in the limits.

    - Internet checksum: i386/i386/in_cksum.c, C and assembler, in Cksum.v; CksumSum.v: it is the
      ones' complement sum of the 16-bit words of the packet, however the mbufs divide and align
      it, and a packet that carries its checksum sums to 0.

    - Internet protocol: ip_input.c and ip_output.c of netinet, in three files.  IpHeader.v has
      the header as bytes and the checks of [ipintr]; IpFrag.v the queues of fragments, from the
      lookup of the queue to the delivery, with [ip_reass], [ip_slowtimo] and [ip_drain]; IpOut.v
      [ip_output] from [sendit] on, with the fragmentation.  A packet of the queues is known by
      the address of its header, its fields kept beside the mbufs that hold it; the links of a
      queued fragment lie over the two addresses of the header, as in the code, so that a header
      that is linked has no addresses.  Ring.v has the rings that both levels of queues are, with
      one record of how each keeps its links.  IpRing.v is the invariant (which packets and
      queues are linked, and the mbufs they hold), IpSpec.v the abstract queues and what they
      promise, IpView.v, IpLoops.v, IpJoin.v, IpInput.v and IpArrive.v the simulation, IpHistory.v
      queues over time, IpCalls.v the theorems: [ipintr] refines the functions on lists; the
      fragments of a datagram in any order, repeated or overlapping, deliver it once they are all
      there and not before; no queue outlives sixty timeouts; and a fragment beyond the largest
      datagram keeps a queue from completing.  IpWire.v: the checks of [ipintr] compute a
      function of the bytes.  IpSplit.v and IpOutput.v: [ip_output] sends the packet, or fragments
      that together are the packet, or nothing and an error.  IpCross.v: what one host sends in
      fragments another host delivers.  IpExample.v has the concrete packets of the witnesses.

    ** How the parts interact

    Rlimit.v and Descrip.v run on the process tables of Proc.v and take the privilege test
    and the credentials from Cred.v; Timers.v takes [suser] from Cred.v.  A routine of one
    component runs on its part of a larger state by [kzoom]: so does the compression of
    headers of Slcomp.v in the output and input of Ppp.v, whose theorems use that the two ends
    of Slcomp.v stay in step.  The locks of a file (Lockf.v) and the name cache have states of
    their own.  The queues of fragments hold the state of Mbuf.v in theirs; an mbuf that cannot
    be had makes Mbuf.v call the drain routines, which is a class there ([Drains]) and has
    [ip_drain] as its instance in IpFrag.v, so that a packet that needs an mbuf can lose the very
    queue it belongs to, as in the code.  The checks of a packet and the sealing of fragments call
    the checksum of Cksum.v.  IpCross.v joins output, wire and input.  The routines on socket
    buffers run on the pool of Mbuf.v and take the buffer as an argument.

    [ip_sendit] starts after the options have been inserted: what was put before the packet by
    then is an argument, since the mbufs that [ip_output] frees on an error are those it was
    called with.  Other arguments that stand for what is outside: the output routine of an
    interface, by the error it answers to each packet ([if_output]); [max_linkhdr] and [sb_max],
    kernel variables.

    ** What is not modelled

    - [malloc] with M_WAITOK may sleep and let other processes run.  The allocations are
      fresh addresses at once; the races this opens (in [cache_enter], [fdalloc],
      [lf_setlock]) are not in the models.
    - Sleeping: [tsleep] and [wakeup] are steps of the systems of KLock.v and Lockf.v.  In the
      reachable states of record locks a sleep ends by the wakeup that the code sends; a sleep
      ended by a signal is the case in which the pointers dangle, shown apart.
    - [lf_advlock] (ufs_vnops.c), signals, exit, the scheduler and the clock interrupt
      (kern_sig.c, kern_exit.c, kern_synch.c, kern_clock.c) and tty.c are not in the
      repository.  [NCPUS] is 1 and [SL_NOFASTQ] is not defined, as in the kernel's
      configuration.
    - Of the point-to-point protocol, the list of interfaces ([ppp_ifs], here one interface),
      the drivers behind [if_start] and [p2p_mdmctl], whose calls are counted, and
      [in_control], a parameter.  A packet is in one mbuf; whether the mbuf of a frame has room
      before and after it is a parameter ([rbuffer]).
    - An mbuf is in one chain and no routine is interrupted: the interrupt level at which the
      kernel runs them ([splimp]) is not in the models.
    - [fork1]'s copy of the address space and of the user area; the process file system,
      exec, accounting and tracing, which are copies to and from user space.
    - Of the internet protocol, the options of a packet ([ip_dooptions]), the search of the
      addresses of the host, forwarding, and [ip_output] before [sendit] (routes, multicasts,
      the options to insert); the protocols above it; what the output routine of an interface
      does with a packet, but for the error that it answers.
    - Of the sockets, the lock of a buffer, the processes that wait for data or space, [select],
      the states of a socket, [sosend] and [soreceive].
    - The allocator (kern/kern_malloc.c), the routing tree (net/radix.c) and the interfaces.
    - Drivers, machine-dependent code, virtual memory other than its locks, file systems
      other than their record locks and name cache, the other protocols, user programs and
      third-party software.  PROJECT.json lists them with reasons. *)

From stdpp Require Export base tactics option list list_numbers gmap.
From Stdlib Require Export ZArith Lia Bool.

#[global] Open Scope Z_scope.

(** ** Machine integers

    The kernel is built for the i386: [char] is 8 bits and signed, [short] 16,
    [int], [long] and pointers 32.  A C integer is a [Z]; the conversions below
    are applied wherever C stores or computes at a width. *)

Definition u8 (x : Z) : Z := x mod 256.
Definition u16 (x : Z) : Z := x mod 65536.
Definition u32 (x : Z) : Z := x mod 4294967296.
Definition s8 (x : Z) : Z := (x + 128) mod 256 - 128.
Definition s16 (x : Z) : Z := (x + 32768) mod 65536 - 32768.
Definition s32 (x : Z) : Z := (x + 2147483648) mod 4294967296 - 2147483648.

Definition is_u8 (x : Z) : Prop := 0 <= x < 256.
Definition is_u16 (x : Z) : Prop := 0 <= x < 65536.
Definition is_u32 (x : Z) : Prop := 0 <= x < 4294967296.
Definition is_s16 (x : Z) : Prop := -32768 <= x < 32768.
Definition is_s32 (x : Z) : Prop := -2147483648 <= x < 2147483648.

(** A C truth value tested by [if]: non-zero is true. *)
Definition ztrue (x : Z) : bool := negb (x =? 0).

(** [flag_set f b] is the C test [(f & b) != 0]. *)
Definition flag_set (f b : Z) : bool := ztrue (Z.land f b).

(** ** Pointers

    An object of the kernel heap is named by a [loc]; a C pointer is an
    [option loc], [None] being the null pointer.  [pptr] is a pointer to a
    pointer, the [struct foo **] the list code keeps: it designates either the
    list head or the link field of an object. *)

Abbreviation loc := positive (only parsing).
Abbreviation ptr := (option positive) (only parsing).

Inductive pptr : Type :=
| PHead
| PNext (l : loc).

#[export] Instance pptr_eq_dec : EqDecision pptr.
Proof. solve_decision. Defined.

(** ** Tactics and hints *)

(** Arithmetic through the width conversions. *)
Ltac mlia :=
  unfold u8, u16, u32, s8, s16, s32, is_u8, is_u16, is_u32, is_s16, is_s32 in *;
  Z.div_mod_to_equations; lia.

(** Split every boolean test and match of the goal, solving the dead cases. *)
Ltac case_all :=
  repeat (case_match; simplify_eq/=; try done).

(** Turn [(a && b) = true] and friends into propositions. *)
Ltac bool_hyps :=
  repeat match goal with
  | H : (_ && _) = true |- _ => apply andb_prop in H; destruct H
  | H : (_ || _) = false |- _ => apply orb_false_elim in H; destruct H
  | H : negb _ = true |- _ => apply negb_true_iff in H
  | H : negb _ = false |- _ => apply negb_false_iff in H
  end.

(** Evaluate closed sums, differences and comparisons of integer literals. *)
Ltac is_zlit x :=
  lazymatch x with
  | Z0 => idtac
  | Zpos ?p => lazymatch isPcst p with true => idtac end
  | Zneg ?p => lazymatch isPcst p with true => idtac end
  end.

Ltac zeval e := let v := eval vm_compute in e in change e with v.

Ltac zconst :=
  repeat match goal with
  | |- context [Z.add ?a ?b] => is_zlit a; is_zlit b; zeval (Z.add a b)
  | |- context [Z.sub ?a ?b] => is_zlit a; is_zlit b; zeval (Z.sub a b)
  | |- context [Z.eqb ?a ?b] => is_zlit a; is_zlit b; zeval (Z.eqb a b)
  | |- context [Z.leb ?a ?b] => is_zlit a; is_zlit b; zeval (Z.leb a b)
  | |- context [Z.ltb ?a ?b] => is_zlit a; is_zlit b; zeval (Z.ltb a b)
  end; cbv iota.

Create HintDb kern.

Lemma u8_range x : is_u8 (u8 x).
Proof. unfold is_u8, u8. apply Z.mod_pos_bound. lia. Qed.

Lemma u16_range x : is_u16 (u16 x).
Proof. unfold is_u16, u16. apply Z.mod_pos_bound. lia. Qed.

Lemma u32_range x : is_u32 (u32 x).
Proof. unfold is_u32, u32. apply Z.mod_pos_bound. lia. Qed.

Lemma s32_range x : is_s32 (s32 x).
Proof. mlia. Qed.

Lemma u32_id x : is_u32 x -> u32 x = x.
Proof. intros H. apply Z.mod_small. exact H. Qed.

Lemma u16_id x : is_u16 x -> u16 x = x.
Proof. intros H. apply Z.mod_small. exact H. Qed.

Lemma u8_id x : is_u8 x -> u8 x = x.
Proof. intros H. apply Z.mod_small. exact H. Qed.

Lemma s32_id x : is_s32 x -> s32 x = x.
Proof. intros H. mlia. Qed.

#[export] Hint Resolve u8_range u16_range u32_range s32_range : kern.

(** ** Lists indexed by C integers *)

(** [znth l i] reads [l[i]]; [None] is an access outside the array. *)
Definition znth {A} (l : list A) (i : Z) : option A :=
  if (0 <=? i) then l !! Z.to_nat i else None.

(** [zset l i x] is the array after [l[i] = x]; the writes of the modelled code
    are guarded, an index outside the array leaves it unchanged here and is
    reported by the operation that computes it. *)
Definition zset {A} (l : list A) (i : Z) (x : A) : list A :=
  if (0 <=? i) then <[Z.to_nat i := x]> l else l.

Definition zlen {A} (l : list A) : Z := Z.of_nat (length l).

Lemma zlen_nonneg {A} (l : list A) : 0 <= zlen l.
Proof. unfold zlen. lia. Qed.

Lemma zlen_app {A} (l1 l2 : list A) : zlen (l1 ++ l2) = zlen l1 + zlen l2.
Proof. unfold zlen. rewrite length_app. lia. Qed.

Lemma zlen_cons {A} (x : A) l : zlen (x :: l) = 1 + zlen l.
Proof. unfold zlen. simpl. lia. Qed.

Lemma znth_some {A} (l : list A) i x : znth l i = Some x -> 0 <= i < zlen l.
Proof.
  unfold znth, zlen. case_match; [|done]. intros H1%lookup_lt_Some. lia.
Qed.

Lemma znth_is_some {A} (l : list A) i : 0 <= i < zlen l <-> is_Some (znth l i).
Proof.
  split.
  - intros Hi. unfold znth, zlen in *. destruct (Z.leb_spec 0 i); [|lia].
    apply lookup_lt_is_Some. lia.
  - intros [x Hx]. by eapply znth_some.
Qed.

Lemma znth_none {A} (l : list A) i : znth l i = None <-> i < 0 \/ zlen l <= i.
Proof.
  pose proof (znth_is_some l i) as Hs. destruct (znth l i) eqn:E; split; intros H.
  - done.
  - assert (0 <= i < zlen l) by (apply Hs; eauto). lia.
  - destruct (Z.lt_ge_cases i 0); [by left|].
    destruct (Z.lt_ge_cases i (zlen l)); [|by right].
    destruct (proj1 Hs) as [? ?]; [lia|done].
  - done.
Qed.

Lemma zlen_zset {A} (l : list A) i x : zlen (zset l i x) = zlen l.
Proof. unfold zlen, zset. case_match; [|done]. by rewrite length_insert. Qed.

Lemma znth_zset {A} (l : list A) i j x :
  0 <= i < zlen l -> znth (zset l i x) j = if j =? i then Some x else znth l j.
Proof.
  intros Hi. unfold znth, zset, zlen in *.
  destruct (Z.leb_spec 0 i); [|lia]. destruct (Z.eqb_spec j i) as [->|Hne].
  - destruct (Z.leb_spec 0 i); [|lia]. apply list_lookup_insert_eq. lia.
  - destruct (Z.leb_spec 0 j); [|done]. apply list_lookup_insert_ne. lia.
Qed.

Lemma znth_zset_eq {A} (l : list A) i x : 0 <= i < zlen l -> znth (zset l i x) i = Some x.
Proof. intros Hi. rewrite znth_zset by done. by rewrite Z.eqb_refl. Qed.

Lemma znth_zset_ne {A} (l : list A) i j x : j <> i -> znth (zset l i x) j = znth l j.
Proof.
  intros Hne. unfold znth, zset. destruct (Z.leb_spec 0 i); [|done].
  destruct (Z.leb_spec 0 j); [|done]. apply list_lookup_insert_ne. lia.
Qed.

Lemma znth_app_l {A} (l1 l2 : list A) i :
  i < zlen l1 -> znth (l1 ++ l2) i = znth l1 i.
Proof.
  intros Hi. unfold znth, zlen in *. case_match; [|done].
  apply lookup_app_l. lia.
Qed.

Lemma znth_app_r {A} (l1 l2 : list A) i :
  zlen l1 <= i -> znth (l1 ++ l2) i = znth l2 (i - zlen l1).
Proof.
  intros Hi. unfold znth, zlen in *. destruct (Z.leb_spec 0 i); [|lia].
  destruct (Z.leb_spec 0 (i - Z.of_nat (length l1))); [|lia].
  rewrite lookup_app_r by lia. f_equal. lia.
Qed.

(** The elements [i .. i + n - 1] of an array; [None] when one is outside. *)
Definition slice {A} (b : list A) (i n : Z) : option (list A) :=
  if (0 <=? i) && (0 <=? n) && (i + n <=? zlen b) then Some (take (Z.to_nat n) (drop (Z.to_nat i) b)) else None.

Lemma slice_mid {A} (a b c : list A) i n : zlen a = i -> zlen b = n -> slice (a ++ b ++ c) i n = Some b.
Proof.
  intros Ha Hb. unfold slice. pose proof (zlen_nonneg a). pose proof (zlen_nonneg b). pose proof (zlen_nonneg c).
  rewrite !zlen_app. unfold zlen in *.
  destruct (Z.leb_spec 0 i); [|lia]. destruct (Z.leb_spec 0 n); [|lia].
  destruct (Z.leb_spec (i + n) (Z.of_nat (length a) + (Z.of_nat (length b) + Z.of_nat (length c)))); [|lia]. simpl.
  rewrite drop_app_length' by lia. by rewrite take_app_length' by lia.
Qed.

(** The beginning and the end of a list, by a C integer. *)
Lemma zlen_take {A} n (l : list A) : 0 <= n <= zlen l -> zlen (take (Z.to_nat n) l) = n.
Proof. unfold zlen. rewrite length_take. lia. Qed.
Lemma zlen_drop {A} n (l : list A) : 0 <= n <= zlen l -> zlen (drop (Z.to_nat n) l) = zlen l - n.
Proof. unfold zlen. rewrite length_drop. lia. Qed.

Lemma drop_app_Z {A} (l1 l2 : list A) n : zlen l1 <= n -> drop (Z.to_nat n) (l1 ++ l2) = drop (Z.to_nat (n - zlen l1)) l2.
Proof. unfold zlen. intros H. rewrite drop_app_ge by lia. f_equal. lia. Qed.
Lemma drop_app_lt {A} (l1 l2 : list A) n : n <= zlen l1 -> drop (Z.to_nat n) (l1 ++ l2) = drop (Z.to_nat n) l1 ++ l2.
Proof. unfold zlen. intros H. apply drop_app_le. lia. Qed.
Lemma take_app_Z {A} (l1 l2 : list A) n : zlen l1 <= n -> take (Z.to_nat n) (l1 ++ l2) = l1 ++ take (Z.to_nat (n - zlen l1)) l2.
Proof. unfold zlen. intros H. rewrite take_app_ge by lia. f_equal. f_equal. lia. Qed.
Lemma take_app_lt {A} (l1 l2 : list A) n : n <= zlen l1 -> take (Z.to_nat n) (l1 ++ l2) = take (Z.to_nat n) l1.
Proof. unfold zlen. intros H. apply take_app_le. lia. Qed.
Lemma drop_none {A} (l : list A) n : n <= 0 -> drop (Z.to_nat n) l = l.
Proof. intros H. by replace (Z.to_nat n) with 0%nat by lia. Qed.
Lemma take_all {A} (l : list A) n : zlen l <= n -> take (Z.to_nat n) l = l.
Proof. unfold zlen. intros H. apply take_ge. lia. Qed.

Lemma take_drop_app {A} (l1 l2 : list A) off n : 0 <= off <= zlen l1 -> zlen l1 - off <= n ->
  take (Z.to_nat n) (drop (Z.to_nat off) (l1 ++ l2)) = drop (Z.to_nat off) l1 ++ take (Z.to_nat (n - (zlen l1 - off))) l2.
Proof. intros H1 H2. rewrite drop_app_lt by lia. rewrite take_app_Z by (rewrite zlen_drop by lia; lia). by rewrite zlen_drop by lia. Qed.

(** A property of every element of an array. *)
Definition every {A} (P : A -> Prop) (l : list A) : Prop :=
  forall j q, znth l j = Some q -> P q.

Lemma every_Forall {A} (P : A -> Prop) (l : list A) : Forall P l -> every P l.
Proof.
  intros HF j q. unfold znth. case_match; [|done]. intros Hl.
  by eapply Forall_lookup_1 in Hl.
Qed.

Lemma filter_all {A} (P : A -> Prop) `{!forall x, Decision (P x)} (l : list A) :
  (forall x, x ∈ l -> P x) -> filter P l = l.
Proof.
  induction l as [|x l IH]; intros HP; [done|].
  rewrite filter_cons_True by (apply HP; set_solver). f_equal. apply IH. set_solver.
Qed.

Lemma filter_none {A} (P : A -> Prop) `{!forall x, Decision (P x)} (l : list A) :
  (forall x, x ∈ l -> ~ P x) -> filter P l = [].
Proof.
  induction l as [|x l IH]; intros HP; [done|].
  rewrite filter_cons_False by (apply HP; set_solver). apply IH. set_solver.
Qed.

Lemma filter_ext_in {A} (P Q : A -> Prop) `{!forall x, Decision (P x), !forall x, Decision (Q x)} (l : list A) :
  (forall x, x ∈ l -> P x <-> Q x) -> filter P l = filter Q l.
Proof.
  induction l as [|x l IH]; intros HPQ; [done|]. rewrite !filter_cons, IH by set_solver.
  specialize (HPQ x ltac:(set_solver)). repeat case_decide; tauto || done.
Qed.

(** Distinct keys of a table are at most as many as its entries. *)
Lemma NoDup_keys_size {A} (m : gmap positive A) (l : list positive) :
  NoDup l -> (forall x, x ∈ l -> is_Some (m !! x)) -> (length l <= size m)%nat.
Proof.
  intros Hnd Hin. rewrite <- size_dom. rewrite <- (size_list_to_set (C := gset positive)) by done.
  apply subseteq_size. intros x Hx%elem_of_list_to_set. by apply elem_of_dom, Hin.
Qed.

(** ** Error numbers (sys/sys/errno.h) *)

Definition EPERM := 1.
Definition ESRCH := 3.
Definition EINTR := 4.
Definition EBADF := 9.
Definition EDEADLK := 11.
Definition ENOMEM := 12.
Definition EACCES := 13.
Definition EFAULT := 14.
Definition ENODEV := 19.
Definition EINVAL := 22.
Definition ENFILE := 23.
Definition EMFILE := 24.
Definition EAGAIN := 35.
Definition EOPNOTSUPP := 45.

(** ** Kernel code as state passing

    [K S A] is a kernel routine over the state [S] that returns an [A].  [None]
    is a run the kernel does not survive: a dereference of a pointer to no
    object, or a [panic].  An error return is an ordinary result, an error
    number, as in the C code. *)

Definition K (S A : Type) : Type := S -> option (A * S).

Declare Scope kern_scope.
Delimit Scope kern_scope with kern.

Section Monad.
Context {S : Type}.

Definition kret {A} (a : A) : K S A := fun s => Some (a, s).
Definition kbind {A B} (m : K S A) (k : A -> K S B) : K S B :=
  fun s => match m s with Some (a, s') => k a s' | None => None end.
Definition kget : K S S := fun s => Some (s, s).
Definition kmod (f : S -> S) : K S unit := fun s => Some (tt, f s).
Definition kgets {A} (f : S -> A) : K S A := fun s => Some (f s, s).
Definition kpanic {A} : K S A := fun _ => None.
(** Use a pointer's target, which must exist. *)
Definition kderef {A} (f : S -> option A) : K S A :=
  fun s => match f s with Some a => Some (a, s) | None => None end.
(** A pointer known to the code to be non-null. *)
Definition knonnull {A} (o : option A) : K S A :=
  fun s => match o with Some a => Some (a, s) | None => None end.
End Monad.

Notation "'let!' x ':=' m 'in' k" := (kbind m (fun x => k))
  (at level 10, x pattern, m at level 100, k at level 200) : kern_scope.
Notation "'do!' m 'in' k" := (kbind m (fun _ => k))
  (at level 10, m at level 100, k at level 200) : kern_scope.

(** Run a routine of one component on its part of a larger state. *)
Definition kzoom {S T A} (get : S -> T) (put : T -> S -> S) (m : K T A) : K S A :=
  fun s => match m (get s) with Some (a, t) => Some (a, put t s) | None => None end.

(** Steps of the monad whose result is known. *)
Lemma bind_nonnull {S A B} (o : option A) (f : A -> K S B) s a : o = Some a -> kbind (knonnull o) f s = f a s.
Proof. by intros ->. Qed.
Lemma bind_run {S A B} (m : K S A) (f : A -> K S B) s a s' : m s = Some (a, s') -> kbind m f s = f a s'.
Proof. unfold kbind. by intros ->. Qed.
Lemma bind_get {S B} (f : S -> K S B) s : kbind kget f s = f s s.
Proof. done. Qed.
Lemma bind_mod {S B} g (f : unit -> K S B) s : kbind (kmod g) f s = f tt (g s).
Proof. done. Qed.
Lemma bind_gets {S A B} (g : S -> A) (f : A -> K S B) s : kbind (kgets g) f s = f (g s) s.
Proof. done. Qed.
Lemma bind_ret {S A B} (a : A) (f : A -> K S B) s : kbind (kret a) f s = f a s.
Proof. done. Qed.

Lemma kbind_Some {S A B} (m : K S A) (k : A -> K S B) s r :
  kbind m k s = Some r <-> exists a s', m s = Some (a, s') /\ k a s' = Some r.
Proof.
  unfold kbind. destruct (m s) as [[a s']|].
  - split; [eauto|]. intros (? & ? & ? & ?). by simplify_eq.
  - split; [done|]. by intros (? & ? & ? & ?).
Qed.

Lemma kderef_Some {S A} (f : S -> option A) s a s' :
  kderef f s = Some (a, s') <-> f s = Some a /\ s' = s.
Proof.
  unfold kderef. destruct (f s); split; [by intros [= -> ->]|by intros [[= ->] ->]|done|].
  by intros [? _].
Qed.

(** Decompose a hypothesis that a routine returned. *)
Ltac kinv1 H :=
  lazymatch type of H with
  | kbind _ _ _ = Some _ =>
      let a := fresh "a" in let s := fresh "s" in
      let H1 := fresh "Hk" in let H2 := fresh "Hk" in
      apply kbind_Some in H; destruct H as (a & s & H1 & H2)
  | kderef _ _ = Some _ =>
      let H1 := fresh "Hd" in let H2 := fresh "Hs" in
      apply kderef_Some in H; destruct H as [H1 H2]; subst
  | kret _ _ = Some _ => unfold kret in H; simplify_eq/=
  | kget _ = Some _ => unfold kget in H; simplify_eq/=
  | kmod _ _ = Some _ => unfold kmod in H; simplify_eq/=
  | kgets _ _ = Some _ => unfold kgets in H; simplify_eq/=
  | kpanic _ = Some _ => unfold kpanic in H; discriminate H
  end.
Ltac kinv := repeat match goal with H : _ = Some _ |- _ => progress kinv1 H end.

(** Equality of maps built by inserts and deletes, pointwise. *)
Ltac map_ext :=
  apply map_eq; intros ?k;
  repeat (rewrite ?lookup_insert, ?lookup_delete; repeat case_decide; simplify_eq; try done).

(** Case analysis on a lookup in a concrete map. *)
Ltac map_cases :=
  repeat match goal with
  | H : <[_ := _]> _ !! _ = Some _ |- _ =>
      apply lookup_insert_Some in H; destruct H as [[? ?]|[_ H]]
  | H : {[ _ := _ ]} !! _ = Some _ |- _ =>
      apply lookup_singleton_Some in H; destruct H as [? ?]
  | H : ∅ !! _ = Some _ |- _ => by rewrite lookup_empty in H
  end; simplify_eq/=.

(** Unfold the monad in the goal. *)
Ltac kunf := unfold kbind, kret, kget, kmod, kgets, kpanic, kderef, knonnull.
