(* ===== verification/Chain.v ===== *)
(** * Intrusive linked lists

    The kernel links its objects through a field of their own and edits the lists
    through a [struct foo **].  A [link] is such a field together with the list head:
    how a [pptr] is read and written in a component's state.  [LinkLaws] is what a
    component promises about its link fields; the loops below and their lemmas are
    written once against it. *)

From S2P Require Import Prelude.
Local Open Scope kern_scope.

Record link (S : Type) := Link {
  lk_get : pptr -> S -> option ptr;          (* *pp; None when the object is gone *)
  lk_set : pptr -> ptr -> S -> S }.          (* *pp = v *)
Arguments lk_get {S}.
Arguments lk_set {S}.

Class LinkLaws {S} (L : link S) := {
  lk_get_set : forall pp qq v s, is_Some (lk_get L pp s) ->
    lk_get L qq (lk_set L pp v s) = if decide (qq = pp) then Some v else lk_get L qq s }.

Section Loops.
Context {S : Type} (L : link S).

Definition lk_load (pp : pptr) : K S ptr := kderef (lk_get L pp).
Definition lk_store (pp : pptr) (v : ptr) : K S unit := kmod (lk_set L pp v).

(** [for (p = head; p; p = p->next) body]. *)
Fixpoint each (fuel : nat) (p : ptr) (body : loc -> K S unit) : K S unit :=
  match p, fuel with
  | None, _ => kret tt
  | Some _, O => kpanic
  | Some x, Datatypes.S f =>
    do! body x in
    let! n := lk_load (PNext x) in
    each f n body
  end.

(** The same loop with local variables [a], which the body updates. *)
Fixpoint each_acc {A} (fuel : nat) (p : ptr) (a : A) (body : A -> loc -> K S A) : K S A :=
  match p, fuel with
  | None, _ => kret a
  | Some _, O => kpanic
  | Some x, Datatypes.S f =>
    let! a := body a x in
    let! n := lk_load (PNext x) in
    each_acc f n a body
  end.

(** [for (p = head; p; p = p->next) if (test) return p; return 0]. *)
Fixpoint find_first (fuel : nat) (p : ptr) (test : loc -> K S bool) : K S ptr :=
  match p, fuel with
  | None, _ => kret None
  | Some _, O => kpanic
  | Some x, Datatypes.S f =>
    let! b := test x in
    if b then kret (Some x) else
    let! n := lk_load (PNext x) in
    find_first f n test
  end.

(** [for (pp = &head; *pp; pp = &( *pp)->next) if ( *pp == p) { *pp = p->next; goto done; }],
    the result saying whether [done] was reached. *)
Fixpoint unlink (fuel : nat) (pp : pptr) (p : loc) : K S bool :=
  let! q := lk_load pp in
  match q, fuel with
  | None, _ => kret false
  | Some _, O => kpanic
  | Some x, Datatypes.S f =>
    if decide (x = p) then
      let! n := lk_load (PNext p) in
      do! lk_store pp n in
      kret true
    else unlink f (PNext x) p
  end.

(** [p->next = head; head = p]. *)
Definition push (p : loc) : K S unit :=
  let! h := lk_load PHead in
  do! lk_store (PNext p) h in
  lk_store PHead (Some p).
End Loops.

(** ** The list a chain holds *)

Section Chains.
Context {S : Type} (L : link S).

Fixpoint chain (s : S) (pp : pptr) (l : list loc) : Prop :=
  match l with
  | [] => lk_get L pp s = Some None
  | x :: l' => lk_get L pp s = Some (Some x) /\ chain s (PNext x) l'
  end.

Lemma chain_get s pp l : chain s pp l -> lk_get L pp s = Some (head l).
Proof. destruct l; simpl; [done|]. by intros [? _]. Qed.

Lemma chain_fun s pp l1 l2 : chain s pp l1 -> chain s pp l2 -> l1 = l2.
Proof.
  revert pp l2. induction l1 as [|x l1 IH]; intros pp [|y l2]; simpl; try done.
  - intros ? [? _]. congruence.
  - intros [? _] ?. congruence.
  - intros [H1 C1] [H2 C2]. assert (x = y) as -> by congruence. f_equal. by eapply IH.
Qed.

(** A chain only depends on the links it goes through. *)
Lemma chain_frame s s' pp l :
  (forall qq, qq = pp \/ (exists x, x ∈ l /\ qq = PNext x) -> lk_get L qq s' = lk_get L qq s) ->
  chain s pp l -> chain s' pp l.
Proof.
  revert pp. induction l as [|x l IH]; intros pp Hf; simpl.
  - rewrite Hf; auto.
  - intros [Hg Hc]. rewrite Hf by auto. split; [done|]. apply IH; [|done].
    intros qq [->|(y & Hy & ->)]; apply Hf; right; [exists x|exists y]; set_solver.
Qed.

(** A loop whose body always returns and edits no link of the chain. *)
Lemma each_chain fuel s p l (body : loc -> K S unit) (f : loc -> S -> S) (I : S -> Prop) :
  (forall x s, x ∈ l -> I s -> body x s = Some (tt, f x s) /\ I (f x s)) ->
  (forall s, I s -> forall x n, x ∈ l -> lk_get L (PNext x) s = n ->
     forall y, y ∈ l -> lk_get L (PNext x) (f y s) = n) ->
  I s -> p = head l -> match l with [] => True | x :: l' => chain s (PNext x) l' end ->
  (length l <= fuel)%nat ->
  each L fuel p body s = Some (tt, foldl (fun s x => f x s) s l) /\
  I (foldl (fun s x => f x s) s l).
Proof.
  revert s p fuel. induction l as [|x l IH]; intros s p fuel Hb Hl HI -> Hc Hlen.
  - by destruct fuel.
  - destruct fuel as [|fuel]; [simpl in Hlen; lia|]. simpl.
    destruct (Hb x s) as [Hrun HI']; [set_solver|done|]. unfold kbind, lk_load, kderef.
    rewrite Hrun. pose proof (chain_get _ _ _ Hc) as Hg.
    rewrite (Hl s HI x _ ltac:(set_solver) Hg x ltac:(set_solver)).
    apply IH; try done; [| | |simpl in Hlen; lia].
    + intros y t Hy. apply Hb. set_solver.
    + intros t Ht y n Hy Hn z Hz. eapply Hl; eauto; set_solver.
    + destruct l as [|y l]; [done|]. destruct Hc as [_ Hc]. revert Hc. apply chain_frame.
      intros qq [->|(z & Hz & ->)]; eapply Hl; eauto; set_solver.
Qed.

(** A loop whose body always returns, keeping an invariant and the links of the chain. *)
Lemma each_acc_chain {A} fuel s p l a (body : A -> loc -> K S A) (I : A -> S -> list loc -> Prop) :
  (forall a x s done todo, l = done ++ x :: todo -> I a s done ->
     exists a' s', body a x s = Some (a', s') /\ I a' s' (done ++ [x]) /\
       forall y, y ∈ l -> lk_get L (PNext y) s' = lk_get L (PNext y) s) ->
  I a s [] -> p = head l -> match l with [] => True | x :: l' => chain s (PNext x) l' end ->
  (length l <= fuel)%nat ->
  exists a' s', each_acc L fuel p a body s = Some (a', s') /\ I a' s' l /\
    forall y, y ∈ l -> lk_get L (PNext y) s' = lk_get L (PNext y) s.
Proof.
  intros Hb. assert (forall todo done a s p fuel, l = done ++ todo -> I a s done -> p = head todo ->
    match todo with [] => True | x :: l' => chain s (PNext x) l' end -> (length todo <= fuel)%nat ->
    exists a' s', each_acc L fuel p a body s = Some (a', s') /\ I a' s' l /\
      forall y, y ∈ l -> lk_get L (PNext y) s' = lk_get L (PNext y) s) as Hgen;
    [|intros; by apply (Hgen l [])].
  induction todo as [|x todo IH]; intros pre b t q n Hl HI -> Hc Hlen.
  - rewrite app_nil_r in Hl. subst. exists b, t. split; [by destruct n|done].
  - destruct n as [|n]; [simpl in Hlen; lia|].
    destruct (Hb b x t pre todo Hl HI) as (b1 & t1 & Hrun & HI1 & Hsame).
    assert (Hin : forall y, y ∈ x :: todo -> y ∈ l) by (intros y Hy; rewrite Hl; set_solver).
    destruct (IH (pre ++ [x]) b1 t1 (head todo) n) as (b2 & t2 & Hrun2 & HI2 & Hsame2); try done.
    + by rewrite <- app_assoc.
    + destruct todo as [|y todo]; [done|]. destruct Hc as [_ Hc]. revert Hc. apply chain_frame.
      intros qq [->|(z & Hz & ->)]; apply Hsame, Hin; set_solver.
    + simpl in Hlen. lia.
    + exists b2, t2. split; [|split; [done|]].
      * simpl. unfold kbind, lk_load, kderef. rewrite Hrun, Hsame by (apply Hin; set_solver).
        by rewrite (chain_get _ _ _ Hc).
      * intros y Hy. rewrite Hsame2, Hsame by done. done.
Qed.

(** A search with a test that only reads. *)
Lemma find_first_chain fuel s p l (test : loc -> K S bool) (b : loc -> bool) :
  (forall x, x ∈ l -> test x s = Some (b x, s)) ->
  p = head l -> match l with [] => True | x :: l' => chain s (PNext x) l' end ->
  (length l <= fuel)%nat ->
  find_first L fuel p test s = Some (head (filter b l), s).
Proof.
  revert p fuel. induction l as [|x l IH]; intros p fuel Ht -> Hc Hlen.
  - by destruct fuel.
  - destruct fuel as [|fuel]; [simpl in Hlen; lia|]. simpl.
    unfold kbind, lk_load, kderef. rewrite Ht by set_solver. rewrite filter_cons.
    destruct (b x); [by rewrite decide_True by done|]. rewrite decide_False by auto.
    rewrite (chain_get _ _ _ Hc). apply IH; [|done| |simpl in Hlen; lia].
    + intros y Hy. apply Ht. set_solver.
    + destruct l as [|y l]; [done|]. by destruct Hc.
Qed.
(** In an acyclic chain from [pp], no node's link is [pp]. *)
Definition fresh_from (pp : pptr) (l : list loc) : Prop :=
  NoDup l /\ forall x, x ∈ l -> pp <> PNext x.

Lemma fresh_from_cons pp x l : fresh_from pp (x :: l) -> fresh_from (PNext x) l.
Proof.
  intros [Hnd _]. apply NoDup_cons in Hnd as [Hx Hnd]. split; [done|].
  intros y Hy [= <-]. done.
Qed.

(** The pointer at which the chain continues after [l]. *)
Definition endp (pp : pptr) (l : list loc) : pptr :=
  match last l with Some x => PNext x | None => pp end.

Lemma endp_cons pp x l : endp pp (x :: l) = endp (PNext x) l.
Proof. unfold endp. rewrite last_cons. by destruct (last l). Qed.

Lemma endp_in pp l : endp pp l = pp \/ exists x, x ∈ l /\ endp pp l = PNext x.
Proof.
  unfold endp. destruct (last l) as [x|] eqn:E; [|by left]. right. exists x.
  split; [by apply last_Some_elem_of|done].
Qed.

Lemma chain_end s pp l1 l2 : chain s pp (l1 ++ l2) -> chain s (endp pp l1) l2.
Proof.
  revert pp. induction l1 as [|x l1 IH]; intros pp; simpl; [done|].
  intros [_ H]. rewrite endp_cons. by apply IH.
Qed.

(** Replace the end of a chain, keeping the links before it. *)
Lemma chain_splice s s' pp l1 l2 l2' :
  chain s pp (l1 ++ l2) -> chain s' (endp pp l1) l2' ->
  (forall qq, (qq = pp \/ exists x, x ∈ l1 /\ qq = PNext x) -> qq <> endp pp l1 ->
     lk_get L qq s' = lk_get L qq s) ->
  fresh_from pp l1 -> chain s' pp (l1 ++ l2').
Proof.
  revert pp. induction l1 as [|x l1 IH]; intros pp; simpl; [done|].
  rewrite endp_cons. intros [Hg Hc] Hc' Hf Hfr. split.
  - rewrite Hf; [done|by left|]. destruct (endp_in (PNext x) l1) as [->|(y & Hy & ->)];
      apply (proj2 Hfr); set_solver.
  - apply IH; try done; [|by eapply fresh_from_cons].
    intros qq [->|(y & Hy & ->)]; apply Hf; right; [exists x|exists y]; set_solver.
Qed.

(** ** Edits *)

Context `{!LinkLaws L}.

Lemma chain_set_other s pp qq v l :
  is_Some (lk_get L qq s) -> qq <> pp -> (forall x, x ∈ l -> qq <> PNext x) ->
  chain s pp l -> chain (lk_set L qq v s) pp l.
Proof.
  intros Hq Hne Hl. apply chain_frame. intros rr [->|(x & Hx & ->)];
    rewrite lk_get_set by done; rewrite decide_False; auto.
  intros E. by apply (Hl x Hx).
Qed.

Lemma fresh_head l : NoDup l -> fresh_from PHead l.
Proof. by split. Qed.

(** Point [pp] at the start of a chain it is no link of. *)
Lemma chain_set_head s pp qq l :
  chain s qq l -> is_Some (lk_get L pp s) -> (forall x, x ∈ l -> pp <> PNext x) ->
  chain (lk_set L pp (head l) s) pp l.
Proof.
  intros Hc Hp Hne. destruct l as [|x l]; simpl.
  - by rewrite lk_get_set, decide_True by done.
  - destruct Hc as [_ Hc]. rewrite lk_get_set, decide_True by done. split; [done|].
    apply chain_set_other; [done|apply Hne; set_solver| |done]. intros y Hy. apply Hne. set_solver.
Qed.

(** [unlink] takes one occurrence out of the chain and edits nothing else. *)
Lemma unlink_spec fuel s pp l p :
  chain s pp l -> fresh_from pp l -> (length l <= fuel)%nat ->
  exists s', unlink L fuel pp p s = Some (bool_decide (p ∈ l), s') /\
    chain s' pp (filter (fun x => x <> p) l) /\
    (p ∉ l -> s' = s) /\
    (p ∈ l -> exists qq v, (qq = pp \/ exists x, x ∈ l /\ qq = PNext x) /\ s' = lk_set L qq v s /\
       is_Some (lk_get L qq s)).
Proof.
  revert s pp fuel. induction l as [|x l IH]; intros s pp fuel Hc Hf Hlen.
  - exists s. simpl in Hc. split_and!; try done; [|set_solver].
    destruct fuel; simpl; unfold lk_load; kunf; rewrite Hc; reflexivity.
  - destruct Hc as [Hg Hc]. destruct fuel as [|fuel]; [simpl in Hlen; lia|]. simpl.
    unfold lk_load at 1. kunf. rewrite Hg. destruct (decide (x = p)) as [->|Hne].
    + unfold lk_load, lk_store. kunf. rewrite (chain_get _ _ _ Hc).
      rewrite bool_decide_eq_true_2 by set_solver. eexists. split; [reflexivity|].
      destruct Hf as [Hnd Hpp]. apply NoDup_cons in Hnd as [Hp Hnd].
      assert (Hfil : filter (fun y => y <> p) (p :: l) = l).
      { rewrite filter_cons_False by auto. apply filter_all. intros y Hy ->. done. }
      split.
      * rewrite Hfil. destruct l as [|y l]; simpl.
        -- by rewrite lk_get_set, decide_True by eauto.
        -- destruct Hc as [Hg2 Hc2]. rewrite lk_get_set, decide_True by eauto. split; [done|].
           apply chain_set_other; [by eauto|apply Hpp; set_solver|set_solver|done].
      * split; [set_solver|]. intros _. exists pp, (head l). split; [by left|]. eauto.
    + destruct (IH s (PNext x) fuel Hc (fresh_from_cons _ _ _ Hf)) as (s' & Hs & Hc' & Hno & Hyes);
        [simpl in Hlen; lia|].
      exists s'. rewrite Hs. split.
      { do 3 f_equal. apply bool_decide_ext. set_solver. }
      rewrite filter_cons_True by auto. split.
      { simpl. split; [|done]. destruct (decide (p ∈ l)) as [Hin|Hin]; [|by rewrite Hno].
        destruct (Hyes Hin) as (qq & v & Hq & -> & Hsome). rewrite lk_get_set by done.
        rewrite decide_False; [done|]. intros <-.
        destruct Hq as [Hq|(y & Hy & Hq)]; [|eapply (proj2 Hf y); set_solver].
        apply (proj2 Hf x); [set_solver|done]. }
      split; [set_solver|]. intros Hin. destruct (Hyes ltac:(set_solver)) as (qq & v & Hq & -> & ?).
      exists qq, v. split; [|done]. right. destruct Hq as [->|(y & ? & ->)]; [exists x|exists y];
        set_solver.
Qed.

(** [push] adds in front. *)
Lemma push_spec s l p :
  chain s PHead l -> p ∉ l -> is_Some (lk_get L (PNext p) s) ->
  push L p s = Some (tt, lk_set L PHead (Some p) (lk_set L (PNext p) (head l) s)) /\
  chain (lk_set L PHead (Some p) (lk_set L (PNext p) (head l) s)) PHead (p :: l).
Proof.
  intros Hc Hp Hs. pose proof (chain_get _ _ _ Hc) as Hg. split.
  - unfold push, lk_load, lk_store. kunf. by rewrite Hg.
  - assert (H1 : is_Some (lk_get L PHead (lk_set L (PNext p) (head l) s))).
    { rewrite lk_get_set by done. case_decide; eauto. }
    simpl. rewrite lk_get_set, decide_True by done. split; [done|].
    apply chain_set_other; [done|done|done|]. destruct l as [|y l]; simpl.
    + by rewrite lk_get_set, decide_True by done.
    + destruct Hc as [_ Hc]. rewrite lk_get_set, decide_True by done. split; [done|].
      apply chain_set_other; [done|intros [= ->]; set_solver| |done].
      intros x Hx [= ->]. set_solver.
Qed.
End Chains.
