(* ===== verification/Count.v ===== *)
(** * Counting the objects of a table

    Reference counts and job-control counts are checked against the number of entries
    of a kernel table with some property. *)

From S2P Require Import Prelude.

(** The 0/1 value of a test. *)
Definition ind (b : bool) : Z := if b then 1 else 0.
Arguments ind !b /.

Lemma ind_range b : 0 <= ind b <= 1.
Proof. destruct b; simpl; lia. Qed.

Lemma ind_true P `{Decision P} : P -> ind (bool_decide P) = 1.
Proof. intros. by rewrite bool_decide_true. Qed.

Lemma ind_false P `{Decision P} : ~ P -> ind (bool_decide P) = 0.
Proof. intros. by rewrite bool_decide_false. Qed.

Section Count.
Context {A : Type}.
Implicit Types (f g : loc -> A -> bool) (m : gmap loc A).

(** The number of entries of [m] with [f]. *)
Definition count f m : Z := Z.of_nat (size (filter (fun kv => f kv.1 kv.2 = true) m)).

Lemma count_nonneg f m : 0 <= count f m.
Proof. unfold count. lia. Qed.

Lemma count_empty f : count f ∅ = 0.
Proof. reflexivity. Qed.

Lemma count_insert_new f m l x :
  m !! l = None -> count f (<[l := x]> m) = count f m + ind (f l x).
Proof.
  intros Hl. unfold count. rewrite map_filter_insert. simpl.
  destruct (f l x); simpl.
  - rewrite map_size_insert_None; [lia|].
    apply map_lookup_filter_None. by left.
  - rewrite delete_id by done. lia.
Qed.

Lemma count_delete f m l x :
  m !! l = Some x -> count f m = count f (delete l m) + ind (f l x).
Proof.
  intros Hl. rewrite <- (insert_id m l x) at 1 by done.
  rewrite <- insert_delete_eq. apply count_insert_new, lookup_delete_eq.
Qed.

Lemma count_insert f m l x y :
  m !! l = Some x -> count f (<[l := y]> m) = count f m - ind (f l x) + ind (f l y).
Proof.
  intros Hl. rewrite (count_delete f m l x) by done.
  rewrite <- insert_delete_eq, count_insert_new by apply lookup_delete_eq. lia.
Qed.

Lemma count_ext f g m : (forall l x, m !! l = Some x -> f l x = g l x) -> count f m = count g m.
Proof.
  intros H. unfold count. do 2 f_equal. apply map_eq. intros l.
  apply option_eq. intros x. rewrite !map_lookup_filter_Some. simpl.
  split; intros [Hl Hf]; (split; [done|]); [rewrite <- H by done|rewrite H by done]; done.
Qed.

Lemma count_zero f m : (forall l x, m !! l = Some x -> f l x = false) -> count f m = 0.
Proof.
  intros H. rewrite (count_ext f (fun _ _ => false)) by done. unfold count.
  replace (filter _ m) with (∅ : gmap loc A); [done|]. symmetry. apply map_empty_filter_2.
  by intros l x _ E.
Qed.

Lemma count_pos f m l x : m !! l = Some x -> f l x = true -> 1 <= count f m.
Proof.
  intros Hl Hf. rewrite (count_delete f m l x), Hf by done.
  pose proof (count_nonneg f (delete l m)). simpl. lia.
Qed.

Lemma count_two f m l1 l2 x1 x2 :
  m !! l1 = Some x1 -> m !! l2 = Some x2 -> l1 <> l2 -> f l1 x1 = true -> f l2 x2 = true ->
  2 <= count f m.
Proof.
  intros H1 H2 Hne F1 F2. rewrite (count_delete f m l1 x1), F1 by done.
  assert (1 <= count f (delete l1 m)); [|simpl; lia].
  eapply (count_pos _ _ l2); [|done]. by rewrite lookup_delete_ne.
Qed.

End Count.

(** A table with the same entries up to a change that [f] and [g] agree on. *)
Lemma count_agree {A B} (f : loc -> A -> bool) (g : loc -> B -> bool) (m : gmap loc A) (m' : gmap loc B) :
  (forall l, (f l <$> m !! l) = (g l <$> m' !! l)) -> count f m = count g m'.
Proof.
  revert m'. induction m as [|l x m Hl IH] using map_ind; intros m' H.
  - rewrite count_empty, count_zero; [done|]. intros l y Hy. specialize (H l).
    rewrite Hy, lookup_empty in H. done.
  - pose proof (H l) as Hll. rewrite lookup_insert_eq in Hll. simpl in Hll.
    destruct (m' !! l) as [y|] eqn:Hy; [|done]. simplify_eq/=.
    rewrite count_insert_new, (count_delete g m' l y) by done. rewrite <- Hll. f_equal.
    apply IH. intros k. specialize (H k). destruct (decide (l = k)) as [<-|Hne].
    + by rewrite Hl, lookup_delete_eq.
    + rewrite lookup_insert_ne in H by done. by rewrite lookup_delete_ne.
Qed.

(** Sums of a weight over the entries of a table. *)
Section Sum.
Context {A : Type}.
Implicit Types (w : loc -> A -> Z) (m : gmap loc A).

Definition msum w m : Z := map_fold (fun l x n => w l x + n) 0 m.

Lemma msum_empty w : msum w ∅ = 0.
Proof. apply map_fold_empty. Qed.

Lemma msum_insert_new w m l x : m !! l = None -> msum w (<[l := x]> m) = msum w m + w l x.
Proof.
  intros Hl. unfold msum. rewrite (map_fold_insert_L (fun l x n => w l x + n)); [lia| |done].
  intros. lia.
Qed.

Lemma msum_delete w m l x : m !! l = Some x -> msum w m = msum w (delete l m) + w l x.
Proof.
  intros Hl. rewrite <- (insert_id m l x) at 1 by done.
  rewrite <- insert_delete_eq. apply msum_insert_new, lookup_delete_eq.
Qed.

Lemma msum_insert w m l x y :
  m !! l = Some x -> msum w (<[l := y]> m) = msum w m - w l x + w l y.
Proof.
  intros Hl. rewrite (msum_delete w m l x) by done.
  rewrite <- insert_delete_eq, msum_insert_new by apply lookup_delete_eq. lia.
Qed.

Lemma msum_nonneg w m : (forall l x, 0 <= w l x) -> 0 <= msum w m.
Proof.
  intros Hw. induction m as [|l x m Hl IH] using map_ind; [by rewrite msum_empty|].
  rewrite msum_insert_new by done. specialize (Hw l x). lia.
Qed.

Lemma msum_ge w m l x : (forall l x, 0 <= w l x) -> m !! l = Some x -> w l x <= msum w m.
Proof.
  intros Hw Hl. rewrite (msum_delete w m l x) by done.
  pose proof (msum_nonneg w (delete l m) Hw). lia.
Qed.

Lemma msum_nonneg_in w m : (forall l x, m !! l = Some x -> 0 <= w l x) -> 0 <= msum w m.
Proof.
  induction m as [|l x m Hl IH] using map_ind; intros Hw; [by rewrite msum_empty|].
  rewrite msum_insert_new by done. pose proof (Hw l x (lookup_insert_eq m l x)).
  assert (0 <= msum w m); [|lia]. apply IH. intros k y Hk. apply Hw.
  rewrite lookup_insert_ne; [done|]. intros ->. by rewrite Hl in Hk.
Qed.

Lemma msum_zero_inv w m l x :
  (forall l x, m !! l = Some x -> 0 <= w l x) -> msum w m = 0 -> m !! l = Some x -> w l x = 0.
Proof.
  revert l x. induction m as [|k y m Hk IH] using map_ind; intros l x Hw Hs Hl;
    [by rewrite lookup_empty in Hl|].
  rewrite msum_insert_new in Hs by done. assert (Hm : 0 <= msum w m).
  { clear -Hw Hk. induction m as [|k' y' m Hk' IH] using map_ind; [by rewrite msum_empty|].
    apply lookup_insert_None in Hk as [Hk Hne]. rewrite msum_insert_new by done.
    assert (0 <= w k' y') by (apply Hw; rewrite lookup_insert_ne, lookup_insert_eq; done).
    assert (0 <= msum w m); [|lia]. apply IH; [done|]. intros l x Hl. apply Hw.
    apply lookup_insert_Some in Hl as [[<- <-]|[Hne' Hl]]; [by rewrite lookup_insert_eq|].
    rewrite lookup_insert_ne, lookup_insert_ne; try done. intros ->. congruence. }
  assert (0 <= w k y) by (apply Hw; by rewrite lookup_insert_eq).
  apply lookup_insert_Some in Hl as [[<- <-]|[Hne Hl]]; [lia|]. apply IH; [|lia|done].
  intros l' x' Hl'. apply Hw. rewrite lookup_insert_ne; [done|]. intros ->. congruence.
Qed.

Lemma msum_pos_ex w m : 0 < msum w m -> exists l x, m !! l = Some x /\ 0 < w l x.
Proof.
  induction m as [|k y m Hk IH] using map_ind; [rewrite msum_empty; lia|].
  rewrite msum_insert_new by done. intros Hs. destruct (Z.lt_ge_cases 0 (w k y)).
  - exists k, y. by rewrite lookup_insert_eq.
  - destruct IH as (l & x & Hl & Hx); [lia|]. exists l, x. rewrite lookup_insert_ne; [done|].
    intros ->. congruence.
Qed.

Lemma msum_zero w m : (forall l x, m !! l = Some x -> w l x = 0) -> msum w m = 0.
Proof.
  induction m as [|l x m Hl IH] using map_ind; intros Hw; [by rewrite msum_empty|].
  rewrite msum_insert_new, IH, (Hw l x); [done| | |done].
  - by rewrite lookup_insert_eq.
  - intros k y Hk. apply Hw. rewrite lookup_insert_ne; [done|]. intros ->. congruence.
Qed.
End Sum.

Lemma msum_fmap {A B} (g : A -> B) (w : loc -> B -> Z) (m : gmap loc A) :
  msum w (g <$> m) = msum (fun l x => w l (g x)) m.
Proof.
  induction m as [|k y m Hk IH] using map_ind; [by rewrite fmap_empty, !msum_empty|].
  rewrite fmap_insert, !msum_insert_new, IH by (done || by rewrite lookup_fmap, Hk). done.
Qed.

Lemma msum_ext {A} (w w' : loc -> A -> Z) (m : gmap loc A) :
  (forall l x, m !! l = Some x -> w l x = w' l x) -> msum w m = msum w' m.
Proof.
  induction m as [|k y m Hk IH] using map_ind; intros H; [by rewrite !msum_empty|].
  rewrite !msum_insert_new, (H k y), IH; try done; [|by rewrite lookup_insert_eq].
  intros l x Hl. apply H. rewrite lookup_insert_ne; [done|]. intros ->. congruence.
Qed.

(** Occurrences of a pointer in an array. *)
Definition occ (f : loc) (l : list (option loc)) : Z :=
  Z.of_nat (length (filter (fun o => o = Some f) l)).

Lemma occ_nonneg f l : 0 <= occ f l.
Proof. unfold occ. lia. Qed.

Lemma occ_cons f o l : occ f (o :: l) = ind (bool_decide (o = Some f)) + occ f l.
Proof.
  unfold occ. rewrite filter_cons. case_decide.
  - rewrite bool_decide_true by done. simpl. lia.
  - rewrite bool_decide_false by done. simpl. lia.
Qed.

Lemma occ_app f l1 l2 : occ f (l1 ++ l2) = occ f l1 + occ f l2.
Proof. unfold occ. rewrite filter_app, length_app. lia. Qed.

Lemma occ_none f n : occ f (replicate n None) = 0.
Proof. induction n as [|n IH]; [done|]. simpl. by rewrite occ_cons, IH. Qed.

Lemma occ_zset f l i o o' :
  znth l i = Some o ->
  occ f (zset l i o') = occ f l - ind (bool_decide (o = Some f)) + ind (bool_decide (o' = Some f)).
Proof.
  unfold znth, zset. destruct (Z.leb_spec 0 i); [|done]. generalize (Z.to_nat i). clear.
  induction l as [|x l IH]; intros [|n]; simpl; try done.
  - intros [= ->]. rewrite !occ_cons. lia.
  - intros Hn. rewrite !occ_cons, IH by done. lia.
Qed.

Lemma occ_pos f l i : znth l i = Some (Some f) -> 1 <= occ f l.
Proof.
  unfold znth. destruct (Z.leb_spec 0 i); [|done]. generalize (Z.to_nat i). clear.
  induction l as [|x l IH]; intros [|n]; simpl; try done; rewrite occ_cons.
  - intros [= ->]. rewrite ind_true by done. pose proof (occ_nonneg f l). lia.
  - intros Hn. specialize (IH _ Hn). pose proof (ind_range (bool_decide (x = Some f))). lia.
Qed.

#[export] Hint Resolve occ_nonneg count_nonneg ind_range : kern.
