(* ===== verification/Bpf.v ===== *)
(** * The BSD packet filter (sys/net/bpf_filter.c)

    Data, interpreter and validator.  A filter is a list of [bpf_insn]; a packet
    is either a contiguous buffer or an mbuf chain, as [bpf_tap] and [bpf_mtap]
    pass it.  An access outside the object it indexes is a [Crash]. *)

From S2P Require Import Prelude.

(** ** Instruction encoding *)

(** sys/net/bpf.h:165-173, [BPF_CLASS]: the instruction class field. *)
Definition BPF_CLASS (code : Z) : Z := Z.land code 0x07.

Definition BPF_LD := 0x00.
Definition BPF_LDX := 0x01.
Definition BPF_ST := 0x02.
Definition BPF_STX := 0x03.
Definition BPF_ALU := 0x04.
Definition BPF_JMP := 0x05.
Definition BPF_RET := 0x06.
Definition BPF_MISC := 0x07.

Definition BPF_W := 0x00.
Definition BPF_H := 0x08.
Definition BPF_B := 0x10.
Definition BPF_IMM := 0x00.
Definition BPF_ABS := 0x20.
Definition BPF_IND := 0x40.
Definition BPF_MEM := 0x60.
Definition BPF_LEN := 0x80.
Definition BPF_MSH := 0xa0.

(** sys/net/bpf.h:189-205, [BPF_OP]: the operation field of ALU and jump codes. *)
Definition BPF_OP (code : Z) : Z := Z.land code 0xf0.

Definition BPF_ADD := 0x00.
Definition BPF_SUB := 0x10.
Definition BPF_MUL := 0x20.
Definition BPF_DIV := 0x30.
Definition BPF_OR := 0x40.
Definition BPF_AND := 0x50.
Definition BPF_LSH := 0x60.
Definition BPF_RSH := 0x70.
Definition BPF_NEG := 0x80.
Definition BPF_JA := 0x00.
Definition BPF_JEQ := 0x10.
Definition BPF_JGT := 0x20.
Definition BPF_JGE := 0x30.
Definition BPF_JSET := 0x40.
Definition BPF_K := 0x00.
Definition BPF_X := 0x08.
Definition BPF_A := 0x10.
Definition BPF_TAX := 0x00.
Definition BPF_TXA := 0x80.
Definition BPF_MEMWORDS := 16.

(** The C expression [a | b] on codes. *)
Notation "a ||| b" := (Z.lor a b) (at level 50, left associativity) : Z_scope.

(** sys/net/bpf.h:220-225, [struct bpf_insn]: [u_short code; u_char jt, jf; long k]. *)
Record bpf_insn := BpfInsn { code : Z; jt : Z; jf : Z; ik : Z }.

(** The packet argument [u_char *p]: with [buflen <> 0] it points at a contiguous
    buffer, with [buflen = 0] it is a cast [struct mbuf *]. *)
Inductive bpf_pkt :=
| Flat (bytes : list Z)
| Chain (ms : list (list Z)).

Inductive crash := CrashPc | CrashScratch | CrashPacket | CrashDivide.

(** Result of a packet read: a value, the rejection [return 0], or an access
    outside the packet. *)
Inductive rd :=
| RVal (v : Z)
| RErr
| RFault.

Definition rd_of (o : option Z) : rd :=
  match o with Some v => RVal v | None => RFault end.

(** ** Packet reads *)

(** sys/net/bpf_filter.c:57-60, [EXTRACT_SHORT] and [EXTRACT_LONG] (the i386 is
    little endian and unaligned loads are allowed, so [ntohs]/[ntohl] of the
    memory word is the big-endian value of its bytes). *)
Definition EXTRACT_LONG (p : list Z) (k : Z) : option Z :=
  match znth p k, znth p (k + 1), znth p (k + 2), znth p (k + 3) with
  | Some b0, Some b1, Some b2, Some b3 =>
      Some (Z.shiftl b0 24 ||| Z.shiftl b1 16 ||| Z.shiftl b2 8 ||| b3)
  | _, _, _, _ => None
  end.

Definition EXTRACT_SHORT (p : list Z) (k : Z) : option Z :=
  match znth p k, znth p (k + 1) with
  | Some b0, Some b1 => Some (Z.shiftl b0 8 ||| b1)
  | _, _ => None
  end.

(** sys/net/bpf_filter.c:75-86, [MINDEX]: advance [m] and [k] to the mbuf that
    holds offset [k]; [None] when the chain ends first. *)
Fixpoint MINDEX (m : list Z) (next : list (list Z)) (k : Z)
  : option (Z * list Z * list (list Z)) :=
  if zlen m <=? k then
    match next with
    | [] => None
    | m' :: next' => MINDEX m' next' (k - zlen m)
    end
  else Some (k, m, next).

(** sys/net/bpf_filter.c:88-131, [m_xword]: a word at offset [k] of the chain.
    After [cp = mtod(m) + k] the split cases index [cp[k]], [cp[k + 1]], so the
    bytes read are those at [k + k], [k + k + 1], ... of the mbuf. *)
Definition m_xword (ms : list (list Z)) (k0 : Z) : rd :=
  match ms with
  | [] => RFault
  | m1 :: rest =>
    match MINDEX m1 rest k0 with
    | None => RErr
    | Some (k, m, next) =>
      let len := zlen m in
      if 4 <=? len - k then
        match EXTRACT_LONG m k with Some v => RVal (s32 v) | None => RFault end
      else
        match next with
        | [] => RErr
        | np :: _ =>
          if zlen np + len - k <? 4 then RErr else
          let cp i := znth m (k + i) in
          let w a b c d :=
            match a, b, c, d with
            | Some a, Some b, Some c, Some d =>
                RVal (s32 (Z.shiftl a 24 ||| Z.shiftl b 16 ||| Z.shiftl c 8 ||| d))
            | _, _, _, _ => RFault
            end in
          if len - k =? 1 then w (cp k) (znth np 0) (znth np 1) (znth np 2)
          else if len - k =? 2 then w (cp k) (cp (k + 1)) (znth np 0) (znth np 1)
          else w (cp k) (cp (k + 1)) (cp (k + 2)) (znth np 0)
        end
    end
  end.

(** sys/net/bpf_filter.c:133-163, [m_xhalf]. *)
Definition m_xhalf (ms : list (list Z)) (k0 : Z) : rd :=
  match ms with
  | [] => RFault
  | m1 :: rest =>
    match MINDEX m1 rest k0 with
    | None => RErr
    | Some (k, m, next) =>
      if 2 <=? zlen m - k then rd_of (EXTRACT_SHORT m k)
      else
        match next with
        | [] => RErr
        | m0 :: _ =>
          match znth m (k + k), znth m0 0 with
          | Some a, Some b => RVal (Z.shiftl a 8 ||| b)
          | _, _ => RFault
          end
        end
    end
  end.

(** [MINDEX(m, k); mtod(m, u_char * )[k]] as the byte loads use it. *)
Definition m_byte (ms : list (list Z)) (k0 : Z) : rd :=
  match ms with
  | [] => RFault
  | m1 :: rest =>
    match MINDEX m1 rest k0 with
    | None => RErr
    | Some (k, m, _) => rd_of (znth m k)
    end
  end.

(** The read at [p + k] once the length check has passed, and the mbuf path once
    it has failed. *)
Definition flat_read (get : list Z -> Z -> option Z) (p : bpf_pkt) (k : Z) : rd :=
  match p with Flat b => rd_of (get b k) | Chain _ => RFault end.

Definition chain_read (get : list (list Z) -> Z -> rd) (p : bpf_pkt) (k : Z) : rd :=
  match p with Chain ms => get ms k | Flat _ => RFault end.

(** sys/net/bpf_filter.c:210-232, [BPF_LD|BPF_W|BPF_ABS] (and the same code at
    278-300 for [BPF_IND], with [k = X + pc->k]): [k] is an [int] and the bound is
    computed in [u_int]. *)
Definition ld_word (p : bpf_pkt) (buflen k : Z) : rd :=
  if buflen <? u32 (k + 4) then
    if ztrue buflen then RErr else chain_read m_xword p k
  else flat_read EXTRACT_LONG p k.

(** sys/net/bpf_filter.c:302-319, [BPF_LD|BPF_H|BPF_IND]. *)
Definition ld_half_ind (p : bpf_pkt) (buflen k : Z) : rd :=
  if buflen <? u32 (k + 2) then
    if ztrue buflen then RErr else chain_read m_xhalf p k
  else flat_read EXTRACT_SHORT p k.

(** sys/net/bpf_filter.c:234-249, [BPF_LD|BPF_H|BPF_ABS]: as above, but [merr] is
    not tested, and [m_xhalf] returns 0 with it. *)
Definition ld_half_abs (p : bpf_pkt) (buflen k : Z) : rd :=
  if buflen <? u32 (k + 2) then
    if ztrue buflen then RErr else
    match chain_read m_xhalf p k with RErr => RVal 0 | r => r end
  else flat_read EXTRACT_SHORT p k.

(** sys/net/bpf_filter.c:251-268, [BPF_LD|BPF_B|BPF_ABS]: the mbuf byte is read
    through [u_char *]. *)
Definition ld_byte_abs (p : bpf_pkt) (buflen k : Z) : rd :=
  if buflen <=? u32 k then
    if ztrue buflen then RErr else chain_read m_byte p k
  else flat_read znth p k.

(** sys/net/bpf_filter.c:321-338, [BPF_LD|BPF_B|BPF_IND]: the mbuf byte is read
    through [char *], which sign-extends. *)
Definition ld_byte_ind (p : bpf_pkt) (buflen k : Z) : rd :=
  if buflen <=? u32 k then
    if ztrue buflen then RErr else
    match chain_read m_byte p k with RVal v => RVal (s8 v) | r => r end
  else flat_read znth p k.

(** sys/net/bpf_filter.c:340-357, [BPF_LDX|BPF_MSH|BPF_B]. *)
Definition ldx_msh (p : bpf_pkt) (buflen k : Z) : rd :=
  let nib r := match r with RVal v => RVal (Z.shiftl (Z.land v 0xf) 2) | r => r end in
  if buflen <=? u32 k then
    if ztrue buflen then RErr else nib (chain_read m_byte p k)
  else nib (flat_read znth p k).

(** ** The machine *)

(** sys/net/bpf_filter.c:180-182, the registers of [bpf_filter]: the program
    counter is the index of the instruction about to execute, [A] and [X] are
    [u_long]s, [mem] the scratch words (held as their unsigned patterns). *)
Record bpf_vm := Vm { vpc : Z; vA : Z; vX : Z; vmem : list Z }.

Inductive act :=
| Cont (s : bpf_vm)
| Return (v : Z)
| Crash (c : crash).

Definition next (s : bpf_vm) : bpf_vm := Vm (vpc s + 1) (vA s) (vX s) (vmem s).
Definition setA (s : bpf_vm) (v : Z) : bpf_vm := Vm (vpc s) (u32 v) (vX s) (vmem s).
Definition setX (s : bpf_vm) (v : Z) : bpf_vm := Vm (vpc s) (vA s) (u32 v) (vmem s).
Definition jump (s : bpf_vm) (off : Z) : act :=
  Cont (Vm (vpc s + off + 1) (vA s) (vX s) (vmem s)).

Definition load (s : bpf_vm) (set : bpf_vm -> Z -> bpf_vm) (r : rd) : act :=
  match r with
  | RVal v => Cont (next (set s v))
  | RErr => Return 0
  | RFault => Crash CrashPacket
  end.

Definition rdmem (s : bpf_vm) (set : bpf_vm -> Z -> bpf_vm) (k : Z) : act :=
  match znth (vmem s) k with
  | Some v => Cont (next (set s v))
  | None => Crash CrashScratch
  end.

Definition wrmem (s : bpf_vm) (k v : Z) : act :=
  match znth (vmem s) k with
  | Some _ => Cont (next (Vm (vpc s) (vA s) (vX s) (zset (vmem s) k v)))
  | None => Crash CrashScratch
  end.

Section Interp.
Context (p : bpf_pkt) (wirelen buflen : Z).

(** The [case]s of the switch on [pc->code], by class; [None] when the code is
    not one of the class's cases. *)

(** sys/net/bpf_filter.c:204-208, the [BPF_RET] cases. *)
Definition step_ret (s : bpf_vm) (i : bpf_insn) : option act :=
  if code i =? (BPF_RET ||| BPF_K) then Some (Return (u32 (ik i)))
  else if code i =? (BPF_RET ||| BPF_A) then Some (Return (vA s))
  else None.

(** sys/net/bpf_filter.c:210-357, the packet and length loads. *)
Definition step_ld (s : bpf_vm) (i : bpf_insn) : option act :=
  let k := ik i in
  let xk := s32 (vX s + ik i) in
  if code i =? (BPF_LD ||| BPF_W ||| BPF_ABS) then Some (load s setA (ld_word p buflen k))
  else if code i =? (BPF_LD ||| BPF_H ||| BPF_ABS) then
    Some (load s setA (ld_half_abs p buflen k))
  else if code i =? (BPF_LD ||| BPF_B ||| BPF_ABS) then
    Some (load s setA (ld_byte_abs p buflen k))
  else if code i =? (BPF_LD ||| BPF_W ||| BPF_LEN) then Some (Cont (next (setA s wirelen)))
  else if code i =? (BPF_LDX ||| BPF_W ||| BPF_LEN) then Some (Cont (next (setX s wirelen)))
  else if code i =? (BPF_LD ||| BPF_W ||| BPF_IND) then
    Some (load s setA (ld_word p buflen xk))
  else if code i =? (BPF_LD ||| BPF_H ||| BPF_IND) then
    Some (load s setA (ld_half_ind p buflen xk))
  else if code i =? (BPF_LD ||| BPF_B ||| BPF_IND) then
    Some (load s setA (ld_byte_ind p buflen xk))
  else if code i =? (BPF_LDX ||| BPF_MSH ||| BPF_B) then
    Some (load s setX (ldx_msh p buflen k))
  else None.

(** sys/net/bpf_filter.c:359-381, immediate and scratch-memory cases. *)
Definition step_mem (s : bpf_vm) (i : bpf_insn) : option act :=
  let k := ik i in
  if code i =? (BPF_LD ||| BPF_IMM) then Some (Cont (next (setA s k)))
  else if code i =? (BPF_LDX ||| BPF_IMM) then Some (Cont (next (setX s k)))
  else if code i =? (BPF_LD ||| BPF_MEM) then Some (rdmem s setA k)
  else if code i =? (BPF_LDX ||| BPF_MEM) then Some (rdmem s setX k)
  else if code i =? BPF_ST then Some (wrmem s k (vA s))
  else if code i =? BPF_STX then Some (wrmem s k (vX s))
  else None.

(** sys/net/bpf_filter.c:383-417, the jumps; comparisons with [pc->k] are done
    in [u_long]. *)
Definition step_jmp (s : bpf_vm) (i : bpf_insn) : option act :=
  let k := u32 (ik i) in
  let br (b : bool) := Some (jump s (if b then jt i else jf i)) in
  if code i =? (BPF_JMP ||| BPF_JA) then Some (jump s (ik i))
  else if code i =? (BPF_JMP ||| BPF_JGT ||| BPF_K) then br (k <? vA s)
  else if code i =? (BPF_JMP ||| BPF_JGE ||| BPF_K) then br (k <=? vA s)
  else if code i =? (BPF_JMP ||| BPF_JEQ ||| BPF_K) then br (vA s =? k)
  else if code i =? (BPF_JMP ||| BPF_JSET ||| BPF_K) then br (flag_set (vA s) k)
  else if code i =? (BPF_JMP ||| BPF_JGT ||| BPF_X) then br (vX s <? vA s)
  else if code i =? (BPF_JMP ||| BPF_JGE ||| BPF_X) then br (vX s <=? vA s)
  else if code i =? (BPF_JMP ||| BPF_JEQ ||| BPF_X) then br (vA s =? vX s)
  else if code i =? (BPF_JMP ||| BPF_JSET ||| BPF_X) then br (flag_set (vA s) (vX s))
  else None.

(** A shift count is taken modulo 32, as the i386 shift instructions do. *)
Definition shl (a n : Z) : Z := Z.shiftl a (Z.land n 31).
Definition shr (a n : Z) : Z := Z.shiftr a (Z.land n 31).

(** sys/net/bpf_filter.c:419-487, the ALU cases: [A op= X], [A op= pc->k] and the
    negation.  Division by a zero [X] returns 0, by a zero constant it traps. *)
Definition step_alu (s : bpf_vm) (i : bpf_insn) : option act :=
  let A := vA s in
  let X := vX s in
  let k := u32 (ik i) in
  let ok v := Some (Cont (next (setA s v))) in
  if code i =? (BPF_ALU ||| BPF_ADD ||| BPF_X) then ok (A + X)
  else if code i =? (BPF_ALU ||| BPF_SUB ||| BPF_X) then ok (A - X)
  else if code i =? (BPF_ALU ||| BPF_MUL ||| BPF_X) then ok (A * X)
  else if code i =? (BPF_ALU ||| BPF_DIV ||| BPF_X) then
    if X =? 0 then Some (Return 0) else ok (A / X)
  else if code i =? (BPF_ALU ||| BPF_AND ||| BPF_X) then ok (Z.land A X)
  else if code i =? (BPF_ALU ||| BPF_OR ||| BPF_X) then ok (Z.lor A X)
  else if code i =? (BPF_ALU ||| BPF_LSH ||| BPF_X) then ok (shl A X)
  else if code i =? (BPF_ALU ||| BPF_RSH ||| BPF_X) then ok (shr A X)
  else if code i =? (BPF_ALU ||| BPF_ADD ||| BPF_K) then ok (A + k)
  else if code i =? (BPF_ALU ||| BPF_SUB ||| BPF_K) then ok (A - k)
  else if code i =? (BPF_ALU ||| BPF_MUL ||| BPF_K) then ok (A * k)
  else if code i =? (BPF_ALU ||| BPF_DIV ||| BPF_K) then
    if k =? 0 then Some (Crash CrashDivide) else ok (A / k)
  else if code i =? (BPF_ALU ||| BPF_AND ||| BPF_K) then ok (Z.land A k)
  else if code i =? (BPF_ALU ||| BPF_OR ||| BPF_K) then ok (Z.lor A k)
  else if code i =? (BPF_ALU ||| BPF_LSH ||| BPF_K) then ok (shl A k)
  else if code i =? (BPF_ALU ||| BPF_RSH ||| BPF_K) then ok (shr A k)
  else if code i =? (BPF_ALU ||| BPF_NEG) then ok (- A)
  else None.

(** sys/net/bpf_filter.c:489-495, register transfers. *)
Definition step_misc (s : bpf_vm) (i : bpf_insn) : option act :=
  if code i =? (BPF_MISC ||| BPF_TAX) then Some (Cont (next (setX s (vA s))))
  else if code i =? (BPF_MISC ||| BPF_TXA) then Some (Cont (next (setA s (vX s))))
  else None.

(** sys/net/bpf_filter.c:195-202, one iteration of [while (1)]: fetch and switch;
    the kernel's [default] returns 0. *)
Definition exec_insn (s : bpf_vm) (i : bpf_insn) : act :=
  match step_ret s i with Some a => a | None =>
  match step_ld s i with Some a => a | None =>
  match step_mem s i with Some a => a | None =>
  match step_jmp s i with Some a => a | None =>
  match step_alu s i with Some a => a | None =>
  match step_misc s i with Some a => a | None => Return 0 end end end end end end.

Definition bpf_step (f : list bpf_insn) (s : bpf_vm) : act :=
  match znth f (vpc s) with
  | Some i => exec_insn s i
  | None => Crash CrashPc
  end.

(** [n] iterations at most; [None] when the loop is still running. *)
Fixpoint bpf_run (n : nat) (f : list bpf_insn) (s : bpf_vm) : option (Z + crash) :=
  match n with
  | O => None
  | S n' =>
    match bpf_step f s with
    | Cont s' => bpf_run n' f s'
    | Return v => Some (inl v)
    | Crash c => Some (inr c)
    end
  end.
End Interp.

(** sys/net/bpf_filter.c:173-202, [bpf_filter].  [A0], [X0] and [mem0] are the
    indeterminate initial values of the automatic variables. *)
Definition bpf_filter (fuel : nat) (pc : option (list bpf_insn)) (p : bpf_pkt)
    (wirelen buflen A0 X0 : Z) (mem0 : list Z) : option (Z + crash) :=
  match pc with
  | None => Some (inl (u32 (-1)))
  | Some f => bpf_run p wirelen buflen fuel f (Vm 0 A0 X0 mem0)
  end.

(** ** The validator *)

(** sys/net/bpf_filter.c:521-547, the checks made on instruction [i] of [len]. *)
Definition insn_ok (len i : Z) (q : bpf_insn) : bool :=
  let from := i + 1 in
  (if BPF_CLASS (code q) =? BPF_JMP then
     if BPF_OP (code q) =? BPF_JA then negb (len <=? s32 (from + ik q))
     else negb ((len <=? from + jt q) || (len <=? from + jf q))
   else true)
  && negb (((BPF_CLASS (code q) =? BPF_ST)
            || ((BPF_CLASS (code q) =? BPF_LD) && (Z.land (code q) 0xe0 =? BPF_MEM)))
           && ((BPF_MEMWORDS <=? ik q) || (ik q <? 0)))
  && negb ((code q =? (BPF_ALU ||| BPF_DIV ||| BPF_K)) && (ik q =? 0)).

(** The [for] loop from index [i], [n] iterations left, and the final test. *)
Fixpoint validate_from (f : list bpf_insn) (len i : Z) (n : nat) : option bool :=
  match n with
  | O =>
    match znth f (len - 1) with
    | Some q => Some (BPF_CLASS (code q) =? BPF_RET)
    | None => None
    end
  | S n' =>
    match znth f i with
    | Some q => if insn_ok len i q then validate_from f len (i + 1) n' else Some false
    | None => None
    end
  end.

(** sys/net/bpf_filter.c:501-550, [bpf_validate]; [None] is a read outside [f]. *)
Definition bpf_validate (f : list bpf_insn) (len : Z) : option bool :=
  validate_from f len 0 (Z.to_nat len).
