(* ===== verification/BpfSafety.v ===== *)
(** * Safety of the packet filter

    What [bpf_validate] guarantees about [bpf_filter], what it does not, and the
    bounds of the packet reads. *)

From S2P Require Import Prelude Bpf.

(** ** The validator, declaratively *)

(** The C field types of an instruction. *)
Definition insn_typed (q : bpf_insn) : Prop :=
  is_u16 (code q) /\ is_u8 (jt q) /\ is_u8 (jf q) /\ is_s32 (ik q).

Lemma validate_from_spec f len i n :
  validate_from f len i n = Some true <->
  (forall j, i <= j < i + Z.of_nat n -> exists q, znth f j = Some q /\ insn_ok len j q = true) /\
  (exists q, znth f (len - 1) = Some q /\ BPF_CLASS (code q) = BPF_RET).
Proof.
  revert i. induction n as [|n IH]; intros i; simpl.
  - split.
    + intros H. split; [lia|]. destruct (znth f (len - 1)) as [q|]; [|done].
      exists q. split; [done|]. simplify_eq. by apply Z.eqb_eq.
    + intros [_ (q & -> & Hq)]. rewrite Hq. done.
  - destruct (znth f i) as [q|] eqn:Hi.
    + destruct (insn_ok len i q) eqn:Hok.
      * rewrite IH. split; intros [Hall Hlast]; split; try done.
        -- intros j Hj. destruct (Z.eq_dec j i) as [->|]; [eauto|]. apply Hall. lia.
        -- intros j Hj. apply Hall. lia.
      * split; [done|]. intros [Hall _]. destruct (Hall i) as (q' & ? & ?); [lia|congruence].
    + split; [done|]. intros [Hall _]. destruct (Hall i) as (q' & ? & ?); [lia|congruence].
Qed.

Lemma validate_spec f :
  bpf_validate f (zlen f) = Some true <->
  (forall j q, znth f j = Some q -> insn_ok (zlen f) j q = true) /\
  (exists q, znth f (zlen f - 1) = Some q /\ BPF_CLASS (code q) = BPF_RET).
Proof.
  unfold bpf_validate. rewrite validate_from_spec. pose proof (zlen_nonneg f).
  split; intros [Hall Hlast]; split; try done.
  - intros j q Hq. pose proof (znth_some _ _ _ Hq).
    destruct (Hall j) as (q' & ? & ?); [lia|]. congruence.
  - intros j Hj. destruct (proj1 (znth_is_some f j)) as [q Hq]; [lia|]. eauto.
Qed.

(** ** One instruction *)

(** The switch dispatches on exact codes: split on them, closing the cases in
    which the action has another shape. *)
Ltac step_cases i :=
  unfold exec_insn, step_ret, step_ld, step_mem, step_jmp, step_alu, step_misc;
  repeat match goal with
  | |- context [code i =? ?c] => destruct (Z.eqb_spec (code i) c) as [?|_]; [intros|]
  end.

Ltac act_inv :=
  unfold load, rdmem, wrmem, jump in *;
  repeat case_match; simplify_eq; simpl.

(** How an instruction that continues moves the program counter. *)
Definition pc_moves (s s' : bpf_vm) (i : bpf_insn) : Prop :=
  BPF_CLASS (code i) <> BPF_RET /\
  ((BPF_CLASS (code i) <> BPF_JMP /\ vpc s' = vpc s + 1)
   \/ (BPF_CLASS (code i) = BPF_JMP /\ BPF_OP (code i) = BPF_JA /\ vpc s' = vpc s + 1 + ik i)
   \/ (BPF_CLASS (code i) = BPF_JMP /\ BPF_OP (code i) <> BPF_JA /\
       (vpc s' = vpc s + 1 + jt i \/ vpc s' = vpc s + 1 + jf i))).

Lemma exec_moves p w b s i s' :
  exec_insn p w b s i = Cont s' -> pc_moves s s' i.
Proof.
  unfold pc_moves. step_cases i; try done.
  all: match goal with H : code _ = _ |- _ => rewrite H end.
  all: act_inv.
  all: split; [done|].
  all: first [ left; split; [done|lia]
             | right; left; split; [done|split; [done|lia]]
             | right; right; split; [done|split; [done|]]; first [left; lia | right; lia] ].
Qed.

Lemma exec_mem_len p w b s i s' :
  exec_insn p w b s i = Cont s' -> zlen (vmem s') = zlen (vmem s).
Proof.
  step_cases i; try done; act_inv; rewrite ?zlen_zset; done.
Qed.

Lemma exec_crash_pc p w b s i : exec_insn p w b s i <> Crash CrashPc.
Proof.
  step_cases i; try done; act_inv; done.
Qed.

(** ** Runs *)

(** Progress: an invariant under which every step stays inside the program,
    moves forward and crashes only in the ways [okc] allows gives a result
    within one iteration per instruction. *)
Section Progress.
Context (p : bpf_pkt) (w b : Z) (f : list bpf_insn).
Context (Inv : bpf_vm -> Prop) (okc : crash -> Prop).
Hypothesis Inv_range : forall s, Inv s -> 0 <= vpc s < zlen f.
Hypothesis Inv_step : forall s, Inv s ->
  match bpf_step p w b f s with
  | Cont s' => Inv s' /\ vpc s < vpc s'
  | Return _ => True
  | Crash c => okc c
  end.

Lemma run_progress n s :
  Inv s -> zlen f - vpc s <= Z.of_nat n ->
  exists r, bpf_run p w b n f s = Some r /\ (forall c, r = inr c -> okc c).
Proof.
  revert s. induction n as [|n IH]; intros s Hinv Hn.
  - apply Inv_range in Hinv. lia.
  - simpl. pose proof (Inv_step s Hinv) as Hs.
    destruct (bpf_step p w b f s) as [s'|v|c].
    + destruct Hs as [Hinv' Hlt]. apply IH; [done|lia].
    + exists (inl v). split; [done|]. done.
    + exists (inr c). split; [done|]. by intros ? [= ->].
Qed.
End Progress.

(** Every unconditional jump is forward (and of a sane size): what the comment of
    [bpf_validate] says it checks. *)
Definition ja_forward (f : list bpf_insn) : Prop :=
  every (fun q =>
    BPF_CLASS (code q) = BPF_JMP -> BPF_OP (code q) = BPF_JA -> 0 <= ik q < 1073741824) f.

(** Every scratch-memory access is in range, for the four codes that make one. *)
Definition scratch_ok (f : list bpf_insn) : Prop :=
  every (fun q =>
    (code q = (BPF_LD ||| BPF_MEM) \/ code q = (BPF_LDX ||| BPF_MEM)
     \/ code q = BPF_ST \/ code q = BPF_STX) -> 0 <= ik q < BPF_MEMWORDS) f.

Definition prog_typed (f : list bpf_insn) : Prop :=
  zlen f <= 512 /\ every insn_typed f.

Lemma exec_crash_divide p w b s i :
  insn_typed i -> exec_insn p w b s i = Crash CrashDivide ->
  code i = (BPF_ALU ||| BPF_DIV ||| BPF_K) /\ ik i = 0.
Proof.
  intros Hty. step_cases i; try done; act_inv.
  split; [done|]. destruct Hty as (_ & _ & _ & Hk).
  match goal with H : (u32 _ =? 0) = true |- _ => apply Z.eqb_eq in H end. mlia.
Qed.

Lemma exec_crash_scratch p w b s i :
  exec_insn p w b s i = Crash CrashScratch ->
  (code i = (BPF_LD ||| BPF_MEM) \/ code i = (BPF_LDX ||| BPF_MEM)
   \/ code i = BPF_ST \/ code i = BPF_STX) /\ znth (vmem s) (ik i) = None.
Proof.
  step_cases i; try done; act_inv; auto.
Qed.

Lemma insn_ok_target len i q s s' :
  insn_typed q -> insn_ok len i q = true -> 0 <= i < len -> len <= 512 ->
  (BPF_CLASS (code q) = BPF_JMP -> BPF_OP (code q) = BPF_JA -> 0 <= ik q < 1073741824) ->
  (i = len - 1 -> BPF_CLASS (code q) = BPF_RET) ->
  vpc s = i -> pc_moves s s' q -> i < vpc s' < len.
Proof.
  intros (Hc & Hjt & Hjf & Hk) Hok Hi Hlen Hja Hlast Hpc (Hret & Hmv).
  unfold insn_ok in Hok. bool_hyps.
  destruct Hmv as [[Hcl Hmv]|[(Hcl & Hop & Hmv)|(Hcl & Hop & Hmv)]].
  - assert (i <> len - 1) by (intros E; by apply Hret, Hlast). lia.
  - rewrite Hcl, Hop in *. simpl in *. specialize (Hja eq_refl eq_refl). bool_hyps.
    match goal with H : (len <=? _) = false |- _ => apply Z.leb_gt in H end. mlia.
  - rewrite Hcl in *. simpl in *.
    destruct (Z.eqb_spec (BPF_OP (code q)) BPF_JA); [done|]. bool_hyps.
    repeat match goal with H : (len <=? _) = false |- _ => apply Z.leb_gt in H end.
    unfold is_u8 in *. destruct Hmv; lia.
Qed.

(** The state of a run of [f]: the counter is inside the program and the scratch
    memory has its size. *)
Definition vm_inv (f : list bpf_insn) (s : bpf_vm) : Prop :=
  0 <= vpc s < zlen f /\ zlen (vmem s) = BPF_MEMWORDS.

Lemma valid_step p w b f s :
  prog_typed f -> bpf_validate f (zlen f) = Some true -> ja_forward f -> vm_inv f s ->
  match bpf_step p w b f s with
  | Cont s' => vm_inv f s' /\ vpc s < vpc s'
  | Return _ => True
  | Crash c => c = CrashPacket \/ (c = CrashScratch /\ ~ scratch_ok f)
  end.
Proof.
  intros [Hlen Hty] [Hall (ql & Hql & Hlast)]%validate_spec Hja [Hr Hm].
  unfold bpf_step. destruct (proj1 (znth_is_some f (vpc s))) as [q Hq]; [done|]. rewrite Hq.
  specialize (Hall _ _ Hq) as Hok. specialize (Hty _ _ Hq) as Htq.
  destruct (exec_insn p w b s q) as [s'|v|c] eqn:He; [..|destruct c]; try done.
  - pose proof (exec_moves _ _ _ _ _ _ He) as Hmv.
    pose proof (exec_mem_len _ _ _ _ _ _ He) as Hml.
    assert (vpc s < vpc s' < zlen f); [|split; [split|]; [lia|congruence|lia]].
    eapply insn_ok_target; eauto. intros E. rewrite E in Hq. congruence.
  - by apply exec_crash_pc in He.
  - right. split; [done|]. intros Hsc.
    apply exec_crash_scratch in He as [Hcode Hnone].
    specialize (Hsc _ _ Hq Hcode). apply znth_none in Hnone. unfold BPF_MEMWORDS in *. lia.
  - by left.
  - apply exec_crash_divide in He as [Hcode Hk]; [|done].
    unfold insn_ok in Hok. bool_hyps. rewrite Hcode, Hk in *. done.
Qed.

(** ** Packet reads *)

(** A packet buffer: [buflen] is its length, an [int] that is not zero. *)
Definition flat_ok (b : list Z) (buflen : Z) : Prop :=
  buflen = zlen b /\ 0 < buflen < 2147483648.

Lemma EXTRACT_LONG_none b k :
  EXTRACT_LONG b k = None <-> k < 0 \/ zlen b < k + 4.
Proof.
  unfold EXTRACT_LONG.
  destruct (znth b k) eqn:E0, (znth b (k + 1)) eqn:E1, (znth b (k + 2)) eqn:E2,
    (znth b (k + 3)) eqn:E3;
  repeat match goal with
  | H : znth _ _ = Some _ |- _ => apply znth_some in H
  | H : znth _ _ = None |- _ => apply znth_none in H
  end; (split; [intros; first [done|lia] | intros; first [done|lia]]).
Qed.

Lemma EXTRACT_SHORT_none b k :
  EXTRACT_SHORT b k = None <-> k < 0 \/ zlen b < k + 2.
Proof.
  unfold EXTRACT_SHORT.
  destruct (znth b k) eqn:E0, (znth b (k + 1)) eqn:E1;
  repeat match goal with
  | H : znth _ _ = Some _ |- _ => apply znth_some in H
  | H : znth _ _ = None |- _ => apply znth_none in H
  end; (split; [intros; first [done|lia] | intros; first [done|lia]]).
Qed.

Lemma ld_word_flat_fault b buflen k :
  flat_ok b buflen -> is_s32 k ->
  ld_word (Flat b) buflen k = RFault <-> -4 <= k < 0 /\ k + 4 <= buflen.
Proof.
  intros [-> Hb] Hk. unfold ld_word. simpl. unfold ztrue.
  destruct (Z.eqb_spec (zlen b) 0); [lia|]. simpl.
  destruct (Z.ltb_spec (zlen b) (u32 (k + 4))) as [Hlt|Hge].
  - split; [done|]. mlia.
  - unfold rd_of. destruct (EXTRACT_LONG b k) eqn:E.
    + split; [done|]. intros. assert (EXTRACT_LONG b k = None) by (apply EXTRACT_LONG_none; lia).
      congruence.
    + apply EXTRACT_LONG_none in E. split; [intros _|done]. mlia.
Qed.

Lemma ld_half_flat_fault b buflen k :
  flat_ok b buflen -> is_s32 k ->
  (ld_half_ind (Flat b) buflen k = RFault <-> -2 <= k < 0 /\ k + 2 <= buflen) /\
  (ld_half_abs (Flat b) buflen k = RFault <-> -2 <= k < 0 /\ k + 2 <= buflen).
Proof.
  intros [-> Hb] Hk. unfold ld_half_ind, ld_half_abs. simpl. unfold ztrue.
  destruct (Z.eqb_spec (zlen b) 0); [lia|]. simpl.
  destruct (Z.ltb_spec (zlen b) (u32 (k + 2))) as [Hlt|Hge].
  - split; (split; [done|]); mlia.
  - unfold rd_of. destruct (EXTRACT_SHORT b k) eqn:E.
    + assert (~ (k < 0 \/ zlen b < k + 2)).
      { intros H. apply EXTRACT_SHORT_none in H. congruence. }
      split; (split; [done|]); lia.
    + apply EXTRACT_SHORT_none in E. split; (split; [intros _|done]); mlia.
Qed.

Lemma ld_byte_flat_no_fault b buflen k :
  flat_ok b buflen -> is_s32 k ->
  ld_byte_abs (Flat b) buflen k <> RFault /\ ld_byte_ind (Flat b) buflen k <> RFault /\
  ldx_msh (Flat b) buflen k <> RFault.
Proof.
  intros [-> Hb] Hk. unfold ld_byte_abs, ld_byte_ind, ldx_msh. simpl. unfold ztrue.
  destruct (Z.eqb_spec (zlen b) 0); [lia|]. simpl.
  destruct (Z.leb_spec (zlen b) (u32 k)) as [|Hlt]; [done|].
  destruct (proj1 (znth_is_some b k)) as [v Hv]; [mlia|]. unfold rd_of. by rewrite Hv.
Qed.

(** The word and half-word packet loads. *)
Definition wide_load (c : Z) : Prop :=
  c = (BPF_LD ||| BPF_W ||| BPF_ABS) \/ c = (BPF_LD ||| BPF_H ||| BPF_ABS) \/
  c = (BPF_LD ||| BPF_W ||| BPF_IND) \/ c = (BPF_LD ||| BPF_H ||| BPF_IND).

(** The offset a packet load uses. *)
Definition load_off (s : bpf_vm) (q : bpf_insn) : Z :=
  if Z.land (code q) 0xe0 =? BPF_IND then s32 (vX s + ik q) else ik q.

Lemma exec_crash_packet b buflen w s i :
  flat_ok b buflen -> insn_typed i ->
  exec_insn (Flat b) w buflen s i = Crash CrashPacket ->
  -4 <= load_off s i < 0 /\ wide_load (code i).
Proof.
  intros Hf (_ & _ & _ & Hk).
  pose proof (s32_range (vX s + ik i)) as Hx.
  unfold load_off, wide_load.
  step_cases i; try done.
  all: match goal with H : code _ = _ |- _ => rewrite H end.
  all: match goal with |- context [if ?c then _ else _] =>
         let v := eval vm_compute in c in change c with v end; cbv iota.
  all: act_inv; try done.
  all: match goal with
  | H : ld_word _ _ _ = RFault |- _ =>
      apply ld_word_flat_fault in H; [split; [lia|tauto]|done..]
  | H : ld_half_ind _ _ ?k = RFault |- _ =>
      apply (ld_half_flat_fault b buflen k) in H; [split; [lia|tauto]|done..]
  | H : ld_half_abs _ _ ?k = RFault |- _ =>
      apply (ld_half_flat_fault b buflen k) in H; [split; [lia|tauto]|done..]
  | H : ld_byte_abs _ _ ?k = RFault |- _ =>
      destruct (ld_byte_flat_no_fault b buflen k) as (? & ? & ?); done
  | H : ld_byte_ind _ _ ?k = RFault |- _ =>
      destruct (ld_byte_flat_no_fault b buflen k) as (? & ? & ?); done
  | H : ldx_msh _ _ ?k = RFault |- _ =>
      destruct (ld_byte_flat_no_fault b buflen k) as (? & ? & ?); done
  end.
Qed.

(** Every word and half-word load is at an absolute, non-negative packet offset
    (byte loads are unrestricted). *)
Definition abs_loads (f : list bpf_insn) : Prop :=
  every (fun q => wide_load (code q) ->
    (Z.land (code q) 0xe0 =? BPF_IND) = false /\ 0 <= ik q) f.

(** ** The mbuf chain *)

Lemma MINDEX_spec m next k :
  0 <= k ->
  match MINDEX m next k with
  | Some (k', m', next') =>
      exists pre, m ++ concat next = pre ++ m' ++ concat next' /\
        zlen pre = k - k' /\ 0 <= k' < zlen m'
  | None => zlen (m ++ concat next) <= k
  end.
Proof.
  revert m k. induction next as [|m1 next IH]; intros m k Hk; simpl.
  - destruct (Z.leb_spec (zlen m) k) as [|Hlt].
    + by rewrite app_nil_r.
    + exists []. simpl. unfold zlen at 1. simpl. split; [done|]. lia.
  - destruct (Z.leb_spec (zlen m) k) as [Hle|Hlt].
    + specialize (IH m1 (k - zlen m) ltac:(lia)).
      destruct (MINDEX m1 next (k - zlen m)) as [[[k' m'] next']|].
      * destruct IH as (pre & Heq & Hpre & Hk'). exists (m ++ pre).
        rewrite <- app_assoc, <- Heq, zlen_app. split; [done|]. lia.
      * rewrite zlen_app. lia.
    + exists []. simpl. split; [done|]. unfold zlen at 1. simpl. lia.
Qed.

Lemma znth_chain (pre m rest : list Z) k k' i :
  zlen pre = k - k' -> 0 <= k' -> 0 <= i -> k' + i < zlen m ->
  znth (pre ++ m ++ rest) (k + i) = znth m (k' + i).
Proof.
  intros Hpre Hk' Hi Hlt. rewrite znth_app_r by lia. rewrite znth_app_l by lia.
  f_equal. lia.
Qed.

Lemma EXTRACT_LONG_chain (pre m rest : list Z) k k' :
  zlen pre = k - k' -> 0 <= k' -> k' + 4 <= zlen m ->
  EXTRACT_LONG (pre ++ m ++ rest) k = EXTRACT_LONG m k'.
Proof.
  intros Hpre Hk' Hlt. unfold EXTRACT_LONG.
  rewrite !(znth_chain _ _ _ k k') by lia.
  pose proof (znth_chain pre m rest k k' 0) as H0. rewrite !Z.add_0_r in H0.
  rewrite H0 by lia. done.
Qed.

(** [m_xword] and friends start [MINDEX] at the first mbuf of the chain. *)
Definition seek (ms : list (list Z)) (k : Z) : option (Z * list Z * list (list Z)) :=
  match ms with [] => None | m1 :: rest => MINDEX m1 rest k end.

Lemma seek_at pre m nxt k :
  0 <= k < zlen m -> seek (pre ++ m :: nxt) (zlen (concat pre) + k) = Some (k, m, nxt).
Proof.
  intros Hk. induction pre as [|m1 pre IH]; simpl.
  - change (zlen []) with 0. rewrite Z.add_0_l.
    destruct nxt; simpl; (destruct (Z.leb_spec (zlen m) k); [lia|done]).
  - rewrite zlen_app. pose proof (zlen_nonneg (concat pre)).
    destruct (pre ++ m :: nxt) as [|m2 rest] eqn:E; [by destruct pre|].
    simpl in IH. simpl. destruct (Z.leb_spec (zlen m1) (zlen m1 + zlen (concat pre) + k)); [|lia].
    rewrite <- IH. f_equal. lia.
Qed.

Lemma m_xword_seek ms k0 k m nxt :
  seek ms k0 = Some (k, m, nxt) ->
  m_xword ms k0 = m_xword (m :: nxt) k /\ m_byte ms k0 = rd_of (znth m k).
Proof.
  destruct ms as [|m1 rest]; [done|]. simpl. intros H.
  assert (Hk : (zlen m <=? k) = false).
  { clear -H. revert m1 k0 H. induction rest as [|m2 rest IH]; intros m1 k0; simpl;
      case_match; intros; simplify_eq; eauto. }
  unfold m_byte. rewrite H. split; [|done].
  destruct nxt; simpl; rewrite ?H, ?Hk; done.
Qed.

(** *** Properties *)

(** C24. A filter that [bpf_validate] accepts and whose unconditional jumps are
    forward gives a result within one iteration of the interpreter loop per
    instruction, on every packet and from every initial register contents; it never
    leaves the program, never divides by zero, and if its scratch accesses are in
    range it can only fail on a packet access. *)
Theorem bpf_validated_terminates f p w b A0 X0 mem0 n :
  prog_typed f -> bpf_validate f (zlen f) = Some true -> ja_forward f ->
  zlen mem0 = BPF_MEMWORDS -> zlen f <= Z.of_nat n ->
  exists r, bpf_filter n (Some f) p w b A0 X0 mem0 = Some r /\
    (forall c, r = inr c -> c = CrashPacket \/ (c = CrashScratch /\ ~ scratch_ok f)).
Proof.
  intros Hty Hval Hja Hmem Hn. simpl.
  apply (run_progress p w b f (vm_inv f)
           (fun c => c = CrashPacket \/ (c = CrashScratch /\ ~ scratch_ok f))).
  - by intros s [? _].
  - intros s Hs. by apply valid_step.
  - split; [|done]. simpl. apply validate_spec in Hval as [_ (q & Hq%znth_some & _)]. lia.
  - simpl. lia.
Qed.

(** C25. A filter that passes [bpf_validate], jumps forward, keeps its scratch
    accesses in range and loads words at absolute non-negative offsets always returns a
    value on a packet in a contiguous buffer: no crash is reachable. *)
Theorem bpf_flat_safe f bytes w b A0 X0 mem0 n :
  prog_typed f -> bpf_validate f (zlen f) = Some true -> ja_forward f ->
  scratch_ok f -> abs_loads f -> flat_ok bytes b ->
  zlen mem0 = BPF_MEMWORDS -> zlen f <= Z.of_nat n ->
  exists v, bpf_filter n (Some f) (Flat bytes) w b A0 X0 mem0 = Some (inl v).
Proof.
  intros Hty Hval Hja Hsc Habs Hflat Hmem Hn.
  destruct (run_progress (Flat bytes) w b f (vm_inv f) (fun _ => False))
    with (n := n) (s := Vm 0 A0 X0 mem0) as (r & Hr & Hno).
  - by intros s [? _].
  - intros s Hs. pose proof (valid_step (Flat bytes) w b f s Hty Hval Hja Hs) as Hstep.
    destruct (bpf_step _ _ _ f s) as [s'|v|c] eqn:E; [done..|].
    destruct Hstep as [->|[-> ?]]; [|done].
    unfold bpf_step in E. destruct (znth f (vpc s)) as [q|] eqn:Hq; [|done].
    destruct Hty as [_ Hty]. specialize (Hty _ _ Hq).
    apply (exec_crash_packet bytes b w s q) in E as [E Hwide]; [|done..].
    destruct (Habs _ _ Hq Hwide) as [Hmode Hk]. unfold load_off in E. rewrite Hmode in E. lia.
  - split; [|done]. simpl. apply validate_spec in Hval as [_ (q & Hq%znth_some & _)]. lia.
  - simpl. lia.
  - exists (match r with inl v => v | inr _ => 0 end). simpl. rewrite Hr.
    destruct r as [v|c]; [done|]. by destruct (Hno c).
Qed.

(** C36. The exact bounds of the packet loads on a contiguous buffer, at any offset
    an [int] can hold: a word load reads outside the buffer if and only if the
    offset is in [-4, -1] (the [u_int] sum [k + sizeof(long)] wraps past the check)
    and the buffer is long enough for the wrapped sum, a half-word load if and only
    if it is in [-2, -1], a byte load never. *)
Theorem bpf_load_bounds bytes b k :
  flat_ok bytes b -> is_s32 k ->
  (ld_word (Flat bytes) b k = RFault <-> -4 <= k < 0 /\ k + 4 <= b) /\
  (ld_half_abs (Flat bytes) b k = RFault <-> -2 <= k < 0 /\ k + 2 <= b) /\
  (ld_half_ind (Flat bytes) b k = RFault <-> -2 <= k < 0 /\ k + 2 <= b) /\
  ld_byte_abs (Flat bytes) b k <> RFault /\ ld_byte_ind (Flat bytes) b k <> RFault.
Proof.
  intros Hf Hk. pose proof (ld_half_flat_fault bytes b k Hf Hk) as [? ?].
  pose proof (ld_byte_flat_no_fault bytes b k Hf Hk) as (? & ? & _).
  split; [by apply ld_word_flat_fault|done].
Qed.

(** Loads from an mbuf chain against the packet the chain holds.  For the byte
    at offset [k] of mbuf [m]: the absolute load gives it, the indirect load gives it
    sign-extended.  For the word starting there: inside one mbuf it is the big-endian
    word of the packet; continuing in the next mbuf it is read correctly only when
    [k = 0], for [k > 0] the code indexes past the end of [m]. *)
Theorem bpf_chain_loads pre m nxt k :
  0 <= k < zlen m ->
  let ms := pre ++ m :: nxt in
  let K := zlen (concat pre) + k in
  (exists v, znth (concat ms) K = Some v /\ ld_byte_abs (Chain ms) 0 K = RVal v /\
     ld_byte_ind (Chain ms) 0 K = RVal (s8 v)) /\
  (k + 4 <= zlen m ->
     exists v, EXTRACT_LONG (concat ms) K = Some v /\ m_xword ms K = RVal (s32 v)) /\
  (forall np nxt', zlen m < k + 4 -> nxt = np :: nxt' -> k + 4 <= zlen m + zlen np ->
     (0 < k -> m_xword ms K = RFault) /\
     (k = 0 -> exists v, EXTRACT_LONG (concat ms) K = Some v /\ m_xword ms K = RVal (s32 v))).
Proof.
  intros Hk ms K.
  destruct (m_xword_seek ms K k m nxt (seek_at pre m nxt k Hk)) as [Hw Hb].
  assert (Hc : concat ms = concat pre ++ m ++ concat nxt) by (unfold ms; by rewrite concat_app).
  assert (HK : zlen (concat pre) = K - k) by (unfold K; lia).
  rewrite Hw, Hc. split; [|split].
  - destruct (proj1 (znth_is_some m k)) as [v Hv]; [done|]. exists v.
    pose proof (znth_chain (concat pre) m (concat nxt) K k 0 HK) as Hz.
    rewrite !Z.add_0_r in Hz. rewrite Hz by lia. split; [done|].
    assert (0 <= u32 K) by (pose proof (u32_range K); unfold is_u32 in *; lia).
    unfold ld_byte_abs, ld_byte_ind, chain_read. destruct (Z.leb_spec 0 (u32 K)); [|lia].
    simpl. rewrite Hb, Hv. done.
  - intros H4. rewrite (EXTRACT_LONG_chain _ _ _ K k) by lia.
    destruct (EXTRACT_LONG m k) as [v|] eqn:E; [|apply EXTRACT_LONG_none in E; lia].
    exists v. split; [done|].
    destruct nxt; simpl; (destruct (Z.leb_spec (zlen m) k); [lia|]);
      (destruct (Z.leb_spec 4 (zlen m - k)); [|lia]); by rewrite E.
  - intros np nxt' Hs -> Hlen. simpl.
    destruct (Z.leb_spec (zlen m) k); [lia|].
    destruct (Z.leb_spec 4 (zlen m - k)); [lia|].
    destruct (Z.ltb_spec (zlen np + zlen m - k) 4); [lia|]. split.
    + intros Hpos.
      assert (Hout : forall i, zlen m <= i -> znth m i = None) by (intros; apply znth_none; lia).
      destruct (Z.eqb_spec (zlen m - k) 1); [by rewrite Hout by lia|].
      destruct (Z.eqb_spec (zlen m - k) 2).
      * rewrite (Hout (k + (k + 1))) by lia. by destruct (znth m (k + k)).
      * rewrite (Hout (k + (k + 2))) by lia.
        destruct (znth m (k + k)), (znth m (k + (k + 1))); done.
    + intros ->. unfold EXTRACT_LONG.
      assert (HL : forall i, 0 <= i < zlen m ->
                znth (concat pre ++ m ++ np ++ concat nxt') (K + i) = znth m i).
      { intros i Hi. rewrite (znth_chain _ _ _ K 0) by lia. done. }
      assert (HR : forall i, zlen m <= i < 4 ->
                znth (concat pre ++ m ++ np ++ concat nxt') (K + i) = znth np (i - zlen m)).
      { intros i Hi. rewrite !znth_app_r by lia. rewrite znth_app_l by lia. f_equal; lia. }
      pose proof (HL 0) as HL0. rewrite Z.add_0_r in HL0. rewrite HL0 by lia.
      assert (Hm : forall i, 0 <= i < zlen m -> exists v, znth m i = Some v)
        by (intros; by apply znth_is_some).
      assert (Hn : forall i, 0 <= i < zlen np -> exists v, znth np i = Some v)
        by (intros; by apply znth_is_some).
      assert (zlen m = 1 \/ zlen m = 2 \/ zlen m = 3) as [E|[E|E]] by lia; rewrite E in *.
      * rewrite !HR by lia. zconst.
        destruct (Hm 0) as [? ->]; [lia|]. destruct (Hn 0) as [? ->]; [lia|].
        destruct (Hn 1) as [? ->]; [lia|]. destruct (Hn 2) as [? ->]; [lia|]. eauto.
      * rewrite (HL 1), (HR 2), (HR 3) by lia. zconst.
        destruct (Hm 0) as [? ->]; [lia|]. destruct (Hm 1) as [? ->]; [lia|].
        destruct (Hn 0) as [? ->]; [lia|]. destruct (Hn 1) as [? ->]; [lia|]. eauto.
      * rewrite (HL 1), (HL 2), (HR 3) by lia. zconst.
        destruct (Hm 0) as [? ->]; [lia|]. destruct (Hm 1) as [? ->]; [lia|].
        destruct (Hm 2) as [? ->]; [lia|]. destruct (Hn 0) as [? ->]; [lia|]. eauto.
Qed.

(** The two-instruction programs of the next theorem. *)
Definition loop_prog : list bpf_insn :=
  [BpfInsn (BPF_JMP ||| BPF_JA) 0 0 (-1); BpfInsn (BPF_RET ||| BPF_K) 0 0 0].
Definition stx_prog (k : Z) : list bpf_insn :=
  [BpfInsn BPF_STX 0 0 k; BpfInsn (BPF_RET ||| BPF_K) 0 0 0].

(** The checks [bpf_validate] leaves out: it accepts a backward unconditional
    jump, and that program never returns; it accepts a [BPF_STX] at any scratch
    index, and the store outside the 16 words is executed. *)
Theorem bpf_validate_incomplete :
  (bpf_validate loop_prog 2 = Some true /\
   forall n p w b A0 X0 mem0, bpf_filter n (Some loop_prog) p w b A0 X0 mem0 = None) /\
  (forall k, bpf_validate (stx_prog k) 2 = Some true /\
   (~ 0 <= k < BPF_MEMWORDS -> forall n p w b A0 X0 mem0, zlen mem0 = BPF_MEMWORDS ->
    bpf_filter (S n) (Some (stx_prog k)) p w b A0 X0 mem0 = Some (inr CrashScratch))).
Proof.
  split; [split; [reflexivity|]|intros k; split; [reflexivity|]].
  - intros n p w b A0 X0 mem0. simpl. revert A0 X0 mem0.
    induction n as [|n IH]; intros; [done|]. apply IH.
  - intros Hk n p w b A0 X0 mem0 Hm. unfold bpf_filter. cbn [bpf_run].
    change (bpf_step p w b (stx_prog k) (Vm 0 A0 X0 mem0)) with (wrmem (Vm 0 A0 X0 mem0) k X0).
    unfold wrmem. cbn [vmem]. destruct (znth mem0 k) eqn:E; [|done].
    apply znth_some in E. unfold BPF_MEMWORDS in *. lia.
Qed.

(** ** Concrete instances *)

(** Accept IP packets: [ldh [12]; jeq #0x800, 0, 1; ret #-1; ret #0]. *)
Definition ip_filter : list bpf_insn :=
  [BpfInsn (BPF_LD ||| BPF_H ||| BPF_ABS) 0 0 12;
   BpfInsn (BPF_JMP ||| BPF_JEQ ||| BPF_K) 0 1 0x800;
   BpfInsn (BPF_RET ||| BPF_K) 0 0 (-1);
   BpfInsn (BPF_RET ||| BPF_K) 0 0 0].

Definition ether_hdr : list Z := replicate 12 255 ++ [8; 0].

Ltac check_insns :=
  apply every_Forall; repeat constructor; intros; vm_compute in *; intuition congruence.

Lemma bpf_validated_terminates_witness :
  exists r, bpf_filter 4 (Some ip_filter) (Chain [ether_hdr]) 14 0 7 7 (replicate 16 0) = Some r /\
    (forall c, r = inr c -> c = CrashPacket \/ (c = CrashScratch /\ ~ scratch_ok ip_filter)).
Proof.
  apply bpf_validated_terminates.
  - split; [vm_compute; congruence|]. check_insns.
  - reflexivity.
  - unfold ja_forward. check_insns.
  - reflexivity.
  - vm_compute. congruence.
Defined.

Lemma bpf_flat_safe_witness :
  exists v, bpf_filter 4 (Some ip_filter) (Flat ether_hdr) 14 14 7 7 (replicate 16 0) = Some (inl v).
Proof.
  apply bpf_flat_safe.
  - split; [vm_compute; congruence|]. check_insns.
  - reflexivity.
  - unfold ja_forward. check_insns.
  - unfold scratch_ok. check_insns.
  - unfold abs_loads. check_insns.
  - split; [reflexivity|lia].
  - reflexivity.
  - vm_compute. congruence.
Defined.

Lemma bpf_load_bounds_witness :
  ld_word (Flat ether_hdr) 14 (-1) = RFault /\ ld_byte_abs (Flat ether_hdr) 14 (-1) <> RFault.
Proof.
  destruct (bpf_load_bounds ether_hdr 14 (-1)) as (Hw & _ & _ & Hb & _).
  - split; [reflexivity|lia].
  - unfold is_s32. lia.
  - split; [apply Hw; lia|exact Hb].
Defined.

(** The word at offset 2 of a packet split 4 + 4. *)
Lemma bpf_chain_loads_witness : m_xword [[1; 2; 3; 200]; [5; 6; 7; 8]] 2 = RFault.
Proof.
  destruct (bpf_chain_loads [] [1; 2; 3; 200] [[5; 6; 7; 8]] 2) as (_ & _ & H).
  - vm_compute. split; congruence.
  - apply (H [5; 6; 7; 8] []); vm_compute; congruence.
Defined.
