(* ===== verification/Proc.v ===== *)
(** * Processes, process groups and sessions (sys/kern/kern_proc.c)

    The process table of the kernel as the code links it: the active and zombie lists,
    the two hash tables, the family links and the member list of every process group.
    The [setsid] and [setpgid] system calls (sys/kern/kern_prot.c) and the choice of a
    process number in [fork1] (sys/kern/kern_fork.c) run on the same state. *)

From S2P Require Import Prelude Chain.
Local Open Scope kern_scope.

(** ** Data *)

Definition SIDL := 4.
Definition SZOMB := 5.
Definition SSTOP := 6.
Definition SCTTY := 8.
Definition SEXEC := 32.
Definition SHUP := 1.       (* SIGHUP *)
Definition SCONT := 19.     (* SIGCONT *)

(** sys/sys/proc.h:81-163, [proc]: the links, the family and the group; [p_nice] is
    the [char] scheduling parameter. *)
Record proc := Proc {
  pr_nxt : ptr;          (* p_nxt *)
  pr_prev : pptr;        (* p_prev *)
  pr_flag : Z;           (* p_flag *)
  pr_stat : Z;           (* p_stat *)
  pr_pid : Z;            (* p_pid *)
  pr_hash : ptr;         (* p_hash *)
  pr_pgrpnxt : ptr;      (* p_pgrpnxt *)
  pr_pptr : ptr;         (* p_pptr *)
  pr_osptr : ptr;        (* p_osptr *)
  pr_ysptr : ptr;        (* p_ysptr *)
  pr_cptr : ptr;         (* p_cptr *)
  pr_nice : Z;           (* p_nice *)
  pr_pgrp : ptr }.       (* p_pgrp *)

(** sys/sys/proc.h:63-69, [pgrp]. *)
Record pgrp := Pgrp {
  pg_hforw : ptr;
  pg_mem : ptr;
  pg_session : loc;
  pg_id : Z;
  pg_jobc : Z }.

(** sys/sys/proc.h:52-58, [session]: [s_ttyvp] is represented by whether it is null. *)
Record session := Session {
  s_count : Z;
  s_leader : loc;
  s_ttyvp : bool;
  s_ttyp : ptr;
  s_login : list Z }.

(** The kernel's process tables; a null bucket of a hash table is absent, and a tty is
    represented by its [t_pgrp]. *)
Record pst := Pst {
  ps_procs : gmap loc proc;
  ps_pgrps : gmap loc pgrp;
  ps_sess : gmap loc session;
  ps_ttys : gmap loc ptr;
  ps_pidhash : gmap Z loc;
  ps_pgrphash : gmap Z loc;
  ps_allproc : ptr;
  ps_zombproc : ptr;
  ps_signals : list (loc * Z) }.      (* psignal calls, latest first *)

(** ** Reading and writing the tables *)

Definition upd_procs (f : gmap loc proc -> gmap loc proc) (s : pst) : pst :=
  Pst (f (ps_procs s)) (ps_pgrps s) (ps_sess s) (ps_ttys s) (ps_pidhash s) (ps_pgrphash s)
    (ps_allproc s) (ps_zombproc s) (ps_signals s).
Definition upd_pgrps (f : gmap loc pgrp -> gmap loc pgrp) (s : pst) : pst :=
  Pst (ps_procs s) (f (ps_pgrps s)) (ps_sess s) (ps_ttys s) (ps_pidhash s) (ps_pgrphash s)
    (ps_allproc s) (ps_zombproc s) (ps_signals s).
Definition upd_sess (f : gmap loc session -> gmap loc session) (s : pst) : pst :=
  Pst (ps_procs s) (ps_pgrps s) (f (ps_sess s)) (ps_ttys s) (ps_pidhash s) (ps_pgrphash s)
    (ps_allproc s) (ps_zombproc s) (ps_signals s).
Definition upd_ttys (f : gmap loc ptr -> gmap loc ptr) (s : pst) : pst :=
  Pst (ps_procs s) (ps_pgrps s) (ps_sess s) (f (ps_ttys s)) (ps_pidhash s) (ps_pgrphash s)
    (ps_allproc s) (ps_zombproc s) (ps_signals s).
Definition upd_pgrphash (f : gmap Z loc -> gmap Z loc) (s : pst) : pst :=
  Pst (ps_procs s) (ps_pgrps s) (ps_sess s) (ps_ttys s) (ps_pidhash s) (f (ps_pgrphash s))
    (ps_allproc s) (ps_zombproc s) (ps_signals s).
Definition psignal (p : loc) (sig : Z) (s : pst) : pst :=
  Pst (ps_procs s) (ps_pgrps s) (ps_sess s) (ps_ttys s) (ps_pidhash s) (ps_pgrphash s)
    (ps_allproc s) (ps_zombproc s) ((p, sig) :: ps_signals s).

Definition getp (p : loc) : K pst proc := kderef (fun s => ps_procs s !! p).
Definition getpg (g : loc) : K pst pgrp := kderef (fun s => ps_pgrps s !! g).
Definition getss (l : loc) : K pst session := kderef (fun s => ps_sess s !! l).
Definition setp (p : loc) (x : proc) : K pst unit := kmod (upd_procs (<[p := x]>)).
Definition setpg (g : loc) (x : pgrp) : K pst unit := kmod (upd_pgrps (<[g := x]>)).
Definition setss (l : loc) (x : session) : K pst unit := kmod (upd_sess (<[l := x]>)).

Definition p_with_prev (x : proc) (q : pptr) : proc :=
  Proc (pr_nxt x) q (pr_flag x) (pr_stat x) (pr_pid x) (pr_hash x)
    (pr_pgrpnxt x) (pr_pptr x) (pr_osptr x) (pr_ysptr x) (pr_cptr x) (pr_nice x) (pr_pgrp x).
Definition p_with_hash (x : proc) (h : ptr) : proc :=
  Proc (pr_nxt x) (pr_prev x) (pr_flag x) (pr_stat x) (pr_pid x) h
    (pr_pgrpnxt x) (pr_pptr x) (pr_osptr x) (pr_ysptr x) (pr_cptr x) (pr_nice x) (pr_pgrp x).
Definition p_with_pgrpnxt (x : proc) (n : ptr) : proc :=
  Proc (pr_nxt x) (pr_prev x) (pr_flag x) (pr_stat x) (pr_pid x) (pr_hash x)
    n (pr_pptr x) (pr_osptr x) (pr_ysptr x) (pr_cptr x) (pr_nice x) (pr_pgrp x).
Definition p_with_pgrp (x : proc) (g : ptr) : proc :=
  Proc (pr_nxt x) (pr_prev x) (pr_flag x) (pr_stat x) (pr_pid x) (pr_hash x)
    (pr_pgrpnxt x) (pr_pptr x) (pr_osptr x) (pr_ysptr x) (pr_cptr x) (pr_nice x) g.
Definition p_with_flag (x : proc) (f : Z) : proc :=
  Proc (pr_nxt x) (pr_prev x) f (pr_stat x) (pr_pid x) (pr_hash x)
    (pr_pgrpnxt x) (pr_pptr x) (pr_osptr x) (pr_ysptr x) (pr_cptr x) (pr_nice x) (pr_pgrp x).
Definition p_with_ysptr (x : proc) (y : ptr) : proc :=
  Proc (pr_nxt x) (pr_prev x) (pr_flag x) (pr_stat x) (pr_pid x) (pr_hash x)
    (pr_pgrpnxt x) (pr_pptr x) (pr_osptr x) y (pr_cptr x) (pr_nice x) (pr_pgrp x).
Definition p_with_cptr (x : proc) (c : ptr) : proc :=
  Proc (pr_nxt x) (pr_prev x) (pr_flag x) (pr_stat x) (pr_pid x) (pr_hash x)
    (pr_pgrpnxt x) (pr_pptr x) (pr_osptr x) (pr_ysptr x) c (pr_nice x) (pr_pgrp x).
Definition p_with_nice (x : proc) (n : Z) : proc :=
  Proc (pr_nxt x) (pr_prev x) (pr_flag x) (pr_stat x) (pr_pid x) (pr_hash x)
    (pr_pgrpnxt x) (pr_pptr x) (pr_osptr x) (pr_ysptr x) (pr_cptr x) n (pr_pgrp x).
Definition pg_with_hforw (g : pgrp) (h : ptr) : pgrp :=
  Pgrp h (pg_mem g) (pg_session g) (pg_id g) (pg_jobc g).
Definition pg_with_mem (g : pgrp) (m : ptr) : pgrp :=
  Pgrp (pg_hforw g) m (pg_session g) (pg_id g) (pg_jobc g).
Definition pg_with_jobc (g : pgrp) (j : Z) : pgrp :=
  Pgrp (pg_hforw g) (pg_mem g) (pg_session g) (pg_id g) j.
Definition s_with_count (x : session) (n : Z) : session :=
  Session n (s_leader x) (s_ttyvp x) (s_ttyp x) (s_login x).

(** The process numbers hash by their low bits. *)
Section PidHash.
Context (pidhashmask : Z).

(** sys/sys/proc.h:228-228, [PIDHASH]. *)
Definition PIDHASH (pid : Z) : Z := Z.land pid pidhashmask.

(** ** The lists *)

(** A bucket of [pidhash], linked by [p_hash]. *)
Definition pid_link (h : Z) : link pst := {|
  lk_get pp s := match pp with
    | PHead => Some (ps_pidhash s !! h)
    | PNext l => pr_hash <$> ps_procs s !! l
    end;
  lk_set pp v s := match pp with
    | PHead => Pst (ps_procs s) (ps_pgrps s) (ps_sess s) (ps_ttys s)
        (partial_alter (fun _ => v) h (ps_pidhash s)) (ps_pgrphash s) (ps_allproc s)
        (ps_zombproc s) (ps_signals s)
    | PNext l => upd_procs (alter (fun x => p_with_hash x v) l) s
    end |}.

(** A bucket of [pgrphash], linked by [pg_hforw]. *)
Definition pg_link (h : Z) : link pst := {|
  lk_get pp s := match pp with
    | PHead => Some (ps_pgrphash s !! h)
    | PNext l => pg_hforw <$> ps_pgrps s !! l
    end;
  lk_set pp v s := match pp with
    | PHead => upd_pgrphash (partial_alter (fun _ => v) h) s
    | PNext l => upd_pgrps (alter (fun x => pg_with_hforw x v) l) s
    end |}.

(** The members of the group [g], linked by [p_pgrpnxt]. *)
Definition mem_link (g : loc) : link pst := {|
  lk_get pp s := match pp with
    | PHead => pg_mem <$> ps_pgrps s !! g
    | PNext l => pr_pgrpnxt <$> ps_procs s !! l
    end;
  lk_set pp v s := match pp with
    | PHead => upd_pgrps (alter (fun x => pg_with_mem x v) g) s
    | PNext l => upd_procs (alter (fun x => p_with_pgrpnxt x v) l) s
    end |}.

(** The children of [p], youngest first, linked by [p_osptr]. *)
Definition child_link (p : loc) : link pst := {|
  lk_get pp s := match pp with
    | PHead => pr_cptr <$> ps_procs s !! p
    | PNext l => pr_osptr <$> ps_procs s !! l
    end;
  lk_set pp v s := s |}.

(** The list of active processes, linked by [p_nxt]. *)
Definition all_link : link pst := {|
  lk_get pp s := match pp with
    | PHead => Some (ps_allproc s)
    | PNext l => pr_nxt <$> ps_procs s !! l
    end;
  lk_set pp v s := s |}.

(** A bound on the length of any of these lists. *)
Definition nproc (s : pst) : nat := size (ps_procs s).
Definition npgrp (s : pst) : nat := size (ps_pgrps s).

(** sys/kern/kern_proc.c:66-79, [pfind]. *)
Definition pfind (pid : Z) : K pst ptr :=
  let! s := kget in
  find_first (pid_link (PIDHASH pid)) (nproc s) (ps_pidhash s !! PIDHASH pid)
    (fun l => let! x := getp l in kret (pr_pid x =? pid)).

(** sys/kern/kern_proc.c:81-94, [pgfind]: [pgid] is a [pid_t], an [int]. *)
Definition pgfind (pgid : Z) : K pst ptr :=
  let! s := kget in
  find_first (pg_link (PIDHASH pgid)) (npgrp s) (ps_pgrphash s !! PIDHASH pgid)
    (fun l => let! x := getpg l in kret (pg_id x =? pgid)).

(** sys/kern/kern_proc.c:53-64, [inferior]: follow the parents from [p] to [curproc]
    or to process 0. *)
Fixpoint inferior (fuel : nat) (curproc p : loc) : K pst bool :=
  if decide (p = curproc) then kret true else
  match fuel with
  | O => kpanic
  | S f =>
    let! x := getp p in
    if pr_pid x =? 0 then kret false else
    let! q := knonnull (pr_pptr x) in
    inferior f curproc q
  end.

(** ** Job control *)

(** sys/kern/kern_proc.c:276-296, [orphanpg]: the inner loop runs over the whole group
    as soon as one stopped member is found. *)
Definition orphanpg (g : loc) : K pst unit :=
  let! s := kget in
  let! pg := getpg g in
  let! stopped := find_first (mem_link g) (nproc s) (pg_mem pg)
    (fun l => let! x := getp l in kret (pr_stat x =? SSTOP)) in
  match stopped with
  | Some _ =>
    each (mem_link g) (nproc s) (pg_mem pg)
      (fun l => do! kmod (psignal l SHUP) in kmod (psignal l SCONT))
  | None => kret tt
  end.

(** sys/kern/kern_proc.c:253-256, [fixjobc]: [pg_jobc++], or [--pg_jobc == 0] and then
    [orphanpg]. *)
Definition bump_jobc (entering : bool) (g : loc) : K pst unit :=
  let! pg := getpg g in
  if entering then setpg g (pg_with_jobc pg (s32 (pg_jobc pg + 1))) else
  let j := s32 (pg_jobc pg - 1) in
  do! setpg g (pg_with_jobc pg j) in
  if j =? 0 then orphanpg g else kret tt.

(** [p_pgrp] of a process, which must have one, and its session. *)
Definition group_of (p : loc) : K pst loc := let! x := getp p in knonnull (pr_pgrp x).
Definition session_of (g : loc) : K pst loc := let! pg := getpg g in kret (pg_session pg).

(** sys/kern/kern_proc.c:232-274, [fixjobc]. *)
Definition fixjobc (p g : loc) (entering : bool) : K pst unit :=
  let! s := kget in
  let! mysession := session_of g in
  let! x := getp p in
  let! parent := knonnull (pr_pptr x) in
  let! hispgrp := group_of parent in
  let! hissession := session_of hispgrp in
  do! (if decide (hispgrp <> g /\ hissession = mysession)
       then bump_jobc entering g else kret tt) in
  each (child_link p) (nproc s) (pr_cptr x)
    (fun c =>
       let! y := getp c in
       let! hispgrp := knonnull (pr_pgrp y) in
       let! hissession := session_of hispgrp in
       if decide (hispgrp <> g /\ hissession = mysession /\ pr_stat y <> SZOMB)
       then bump_jobc entering hispgrp else kret tt).

(** ** Groups and sessions *)

(** sys/kern/kern_proc.c:207-228, [pgdelete]. *)
Definition pgdelete (g : loc) : K pst unit :=
  let! s := kget in
  let! pg := getpg g in
  let! ss := getss (pg_session pg) in
  do! match s_ttyp ss with
      | Some t =>
        let! tpg := kderef (fun s => ps_ttys s !! t) in
        if decide (tpg = Some g) then kmod (upd_ttys (<[t := None]>)) else kret tt
      | None => kret tt
      end in
  let! found := unlink (pg_link (PIDHASH (pg_id pg))) (npgrp s) PHead g in
  if negb found then kpanic else
  let n := s32 (s_count ss - 1) in
  do! setss (pg_session pg) (s_with_count ss n) in
  do! (if n =? 0 then kmod (upd_sess (delete (pg_session pg))) else kret tt) in
  kmod (upd_pgrps (delete g)).

(** sys/kern/kern_proc.c:113-150, [enterpgrp]: the new group, and its session when
    [mksess]. *)
Definition new_pgrp (p : loc) (pgid : Z) (mksess : bool) : K pst loc :=
  let! s := kget in
  let g := fresh (dom (ps_pgrps s)) in
  let! old := group_of p in
  let! oldsess := session_of old in
  let! oss := getss oldsess in
  let! sess :=
    if mksess then
      let l := fresh (dom (ps_sess s)) in
      do! setss l (Session 1 p false None (s_login oss)) in
      let! x := getp p in
      do! setp p (p_with_flag x (Z.land (pr_flag x) (Z.lnot SCTTY))) in
      kret l
    else
      do! setss oldsess (s_with_count oss (s32 (s_count oss + 1))) in
      kret oldsess in
  do! kmod (upd_pgrps (<[g := Pgrp None None sess pgid 0]>)) in
  do! push (pg_link (PIDHASH pgid)) g in
  kret g.

(** sys/kern/kern_proc.c:162-178, [enterpgrp]: take [p] off the member list of its
    group and delete the group when that empties it. *)
Definition leave_list (p g : loc) : K pst unit :=
  let! s := kget in
  let! found := unlink (mem_link g) (nproc s) PHead p in
  if negb found then kpanic else
  let! pg := getpg g in
  match pg_mem pg with None => pgdelete g | Some _ => kret tt end.

(** sys/kern/kern_proc.c:96-185, [enterpgrp]. *)
Definition enterpgrp (p : loc) (pgid : Z) (mksess : bool) : K pst unit :=
  let! g := pgfind pgid in
  let! old := group_of p in
  if decide (g = Some old) then kret tt else
  let! g := match g with Some g => kret g | None => new_pgrp p pgid mksess end in
  do! fixjobc p g true in
  do! fixjobc p old false in
  do! leave_list p old in
  let! x := getp p in
  do! setp p (p_with_pgrp x (Some g)) in
  push (mem_link g) p.

(** sys/kern/kern_proc.c:187-205, [leavepgrp]. *)
Definition leavepgrp (p : loc) : K pst unit :=
  let! g := group_of p in
  do! leave_list p g in
  let! x := getp p in
  setp p (p_with_pgrp x None).

(** sys/kern/kern_prot.c:82-91, [getpgrp]. *)
Definition getpgrp (p : loc) : K pst Z :=
  let! g := group_of p in let! pg := getpg g in kret (pg_id pg).

(** sys/kern/kern_prot.c:174-188, [setsid]: the error number and the value returned. *)
Definition setsid (p : loc) : K pst (Z * Z) :=
  let! x := getp p in
  let! g := group_of p in
  let! pg := getpg g in
  let! other := (if pg_id pg =? pr_pid x then kret None else pgfind (pr_pid x)) in
  if (pg_id pg =? pr_pid x) || negb (bool_decide (other = None)) then kret (EPERM, 0) else
  do! enterpgrp p (pr_pid x) true in
  kret (0, pr_pid x).

(** sys/sys/proc.h:230-230, [SESS_LEADER]. *)
Definition sess_leader (p : loc) : K pst bool :=
  let! g := group_of p in
  let! l := session_of g in
  let! ss := getss l in
  kret (bool_decide (s_leader ss = p)).

(** sys/kern/kern_prot.c:215-223, [setpgid]: the target or the error; it is the caller,
    or a descendant in its session that has not done an [exec]. *)
Definition setpgid_target (fuel : nat) (curp : loc) (pid : Z) : K pst (Z + loc) :=
  let! cur := getp curp in
  if (pid =? 0) || (pid =? pr_pid cur) then kret (inr curp) else
  let! targp := pfind pid in
  match targp with
  | None => kret (inl ESRCH)
  | Some targp =>
    let! inf := inferior fuel curp targp in
    if negb inf then kret (inl ESRCH) else
    let! tg := group_of targp in
    let! tsess := session_of tg in
    let! cg := group_of curp in
    let! csess := session_of cg in
    if decide (tsess <> csess) then kret (inl EPERM) else
    let! t := getp targp in
    if flag_set (pr_flag t) SEXEC then kret (inl EACCES) else kret (inr targp)
  end.

(** sys/kern/kern_prot.c:190-234, [setpgid]; [curp] is [curproc]. *)
Definition setpgid (fuel : nat) (curp : loc) (pid pgid : Z) : K pst Z :=
  let! target := setpgid_target fuel curp pid in
  match target with
  | inl e => kret e
  | inr targp =>
    let! leader := sess_leader targp in
    if leader then kret EPERM else
    let! t := getp targp in
    if pgid =? 0 then do! enterpgrp targp (pr_pid t) false in kret 0 else
    let! ok :=
      if pgid =? pr_pid t then kret true else
      let! g := pgfind pgid in
      match g with
      | None => kret false
      | Some g =>
        let! gs := session_of g in
        let! cg := group_of curp in
        let! csess := session_of cg in
        kret (bool_decide (gs = csess))
      end in
    if negb ok then kret EPERM else
    do! enterpgrp targp pgid false in
    kret 0
  end.

(** ** Process numbers *)

Definition PID_MAX := 30000.

(** The two static variables of [fork1]. *)
Record pids := Pids { nextpid : Z; pidchecked : Z }.

(** sys/kern/kern_fork.c:142-153, [fork1]: the body of the scan for one process of
    number [pid] in the group [pgid]; the new values, and whether to [goto retry]. *)
Definition pid_visit (pid pgid : Z) (v : pids) : pids * bool :=
  let n := nextpid v in let c := pidchecked v in
  let '(n, retry) := if (pid =? n) || (pgid =? n)
                     then (n + 1, c <=? n + 1) else (n, false) in
  if retry then (Pids n c, true) else
  let c := if (n <? pid) && (pid <? c) then pid else c in
  let c := if (n <? pgid) && (pgid <? c) then pgid else c in
  (Pids n c, false).

(** sys/kern/kern_fork.c:139-153, [fork1]: the scan of one list from [p]. *)
Fixpoint pid_scan (fuel : nat) (p : ptr) (v : pids) : K pst (pids * bool) :=
  match p, fuel with
  | None, _ => kret (v, false)
  | Some _, O => kpanic
  | Some l, S f =>
    let! x := getp l in
    let! g := knonnull (pr_pgrp x) in
    let! pg := getpg g in
    let '(v, retry) := pid_visit (pr_pid x) (pg_id pg) v in
    if retry then kret (v, true) else pid_scan f (pr_nxt x) v
  end.

(** sys/kern/kern_fork.c:119-160, [fork1]: the [retry:] loop. *)
Fixpoint pid_retry (fuel : nat) (v : pids) : K pst pids :=
  match fuel with
  | O => kpanic
  | S f =>
    let v := if PID_MAX <=? nextpid v then Pids 100 0 else v in
    if nextpid v <? pidchecked v then kret v else
    let! s := kget in
    let! r1 := pid_scan (nproc s) (ps_allproc s) (Pids (nextpid v) PID_MAX) in
    if snd r1 then pid_retry f (fst r1) else
    let! r2 := pid_scan (nproc s) (ps_zombproc s) (fst r1) in
    if snd r2 then pid_retry f (fst r2) else kret (fst r2)
  end.

(** sys/kern/kern_fork.c:114-160, [fork1]: find an unused process number. *)
Definition fork_pid (fuel : nat) (v : pids) : K pst pids :=
  pid_retry fuel (Pids (nextpid v + 1) (pidchecked v)).

Definition SLOAD := 1.
Definition SPPWAIT := 16.

(** sys/sys/proc.h:211-215, [SHPUX]: HPUXCOMPAT is not defined. *)
Definition SHPUX := 0.

(** sys/kern/kern_fork.c:213-217, [fork1]: the flags of the child. *)
Definition fork_flag (x : proc) (ss : session) (isvfork : bool) : Z :=
  Z.lor (Z.lor SLOAD (Z.land (pr_flag x) SHPUX)) (Z.lor (if s_ttyvp ss && flag_set (pr_flag x) SCTTY then SCTTY else 0)
                     (if isvfork then SPPWAIT else 0)).

(** sys/kern/kern_fork.c:162-232, [fork1]: enter the child [p2], a fresh [struct proc],
    into the lists, the hash table, the group and the family of [p1]. *)
Definition fork_enter (p1 p2 : loc) (pid : Z) (isvfork : bool) : K pst unit :=
  let! s := kget in
  let! x := getp p1 in
  let! g := group_of p1 in
  let! sl := session_of g in
  let! ss := getss sl in
  let! nxt := knonnull (ps_allproc s) in
  let! y := getp nxt in
  do! setp nxt (p_with_prev y (PNext p2)) in
  do! setp p2 (Proc (Some nxt) PHead (fork_flag x ss isvfork) SIDL pid None (pr_pgrpnxt x) (Some p1)
                 (pr_cptr x) None None (pr_nice x) (pr_pgrp x)) in
  do! kmod (fun s => Pst (ps_procs s) (ps_pgrps s) (ps_sess s) (ps_ttys s) (ps_pidhash s)
                       (ps_pgrphash s) (Some p2) (ps_zombproc s) (ps_signals s)) in
  do! push (pid_link (PIDHASH pid)) p2 in
  let! x := getp p1 in
  do! setp p1 (p_with_pgrpnxt x (Some p2)) in
  do! match pr_cptr x with
      | Some c => let! y := getp c in setp c (p_with_ysptr y (Some p2))
      | None => kret tt
      end in
  let! x := getp p1 in
  setp p1 (p_with_cptr x (Some p2)).
End PidHash.
