(* ===== verification/PidSafety.v ===== *)
(** * Process numbers

    What [fork1] guarantees about the number it picks: it terminates, it keeps the
    remembered range free, and the number is unused except in one shape of table, which
    the code misses. *)

From S2P Require Import Prelude Chain Proc.
Local Open Scope kern_scope.

(** ** The scan as a function of the ids met *)

Fixpoint visit_all (ents : list (Z * Z)) (v : pids) : pids * bool :=
  match ents with
  | [] => (v, false)
  | (a, b) :: ents =>
    let '(v, retry) := pid_visit a b v in
    if retry then (v, true) else visit_all ents v
  end.

(** The ids [e] does not hold a number of the range that is left, and is the number
    picked only if its other half is the preceding number. *)
Definition clear_of (v : pids) (e : Z * Z) : Prop :=
  ~ (nextpid v < fst e < pidchecked v) /\ ~ (nextpid v < snd e < pidchecked v) /\
  (fst e = nextpid v -> snd e = nextpid v - 1) /\ (snd e = nextpid v -> fst e = nextpid v - 1).

Lemma visit_spec a b v :
  nextpid v < pidchecked v ->
  let '(v', retry) := pid_visit a b v in
  nextpid v <= nextpid v' <= nextpid v + 1 /\ pidchecked v' <= pidchecked v /\
  (nextpid v' = nextpid v + 1 -> a = nextpid v \/ b = nextpid v) /\
  if retry then nextpid v' = nextpid v + 1 /\ pidchecked v' <= nextpid v'
  else nextpid v' < pidchecked v' /\ clear_of v' (a, b).
Proof.
  destruct v as [n c]. simpl. intros Hnc. unfold pid_visit. simpl.
  destruct ((a =? n) || (b =? n)) eqn:E.
  - apply orb_true_iff in E. destruct (Z.leb_spec c (n + 1)); simpl; [lia|].
    unfold clear_of. simpl.
    destruct (Z.ltb_spec (n + 1) a), (Z.ltb_spec a c); simpl;
      destruct (Z.ltb_spec (n + 1) b); simpl; try (destruct (Z.ltb_spec b a)); try (destruct (Z.ltb_spec b c));
      simpl; lia.
  - bool_hyps. unfold clear_of. simpl.
    destruct (Z.ltb_spec n a), (Z.ltb_spec a c); simpl;
      destruct (Z.ltb_spec n b); simpl; try (destruct (Z.ltb_spec b a)); try (destruct (Z.ltb_spec b c));
      simpl; lia.
Qed.

Lemma clear_of_step v v' e :
  clear_of v e -> nextpid v <= nextpid v' <= nextpid v + 1 -> pidchecked v' <= pidchecked v ->
  nextpid v' < pidchecked v' -> clear_of v' e.
Proof. unfold clear_of. lia. Qed.

(** A whole scan: it never passes over a number that no process holds. *)
Lemma visit_all_spec ents v f :
  nextpid v < pidchecked v -> (forall e, e ∈ ents -> fst e <> f /\ snd e <> f) ->
  let '(v', retry) := visit_all ents v in
  nextpid v <= nextpid v' /\ pidchecked v' <= pidchecked v /\ (nextpid v <= f -> nextpid v' <= f) /\
  if retry then nextpid v < nextpid v' /\ pidchecked v' <= nextpid v' /\ nextpid v' <= pidchecked v
  else nextpid v' < pidchecked v' /\ (forall e, clear_of v e -> clear_of v' e) /\
       forall e, e ∈ ents -> clear_of v' e.
Proof.
  revert v. induction ents as [|[a b] ents IH]; intros v Hnc Hf; simpl.
  - split_and!; try lia; [done|set_solver].
  - pose proof (visit_spec a b v Hnc) as Hv. destruct (pid_visit a b v) as [v1 [|]].
    + destruct Hv as (H1 & H2 & H3 & H4 & H5). destruct (Hf (a, b)) as [F1 F2]; [set_solver|].
      simpl in *. lia.
    + destruct Hv as (H1 & H2 & H3 & H4 & H5). specialize (IH v1 H4).
      destruct (Hf (a, b)) as [F1 F2]; [set_solver|]. simpl in F1, F2.
      destruct (visit_all ents v1) as [v2 r].
      destruct IH as (I1 & I2 & I3 & I4); [intros e He; apply Hf; set_solver|].
      split; [lia|]. split; [lia|]. split; [lia|]. destruct r.
      * lia.
      * destruct I4 as (I4 & I5 & I6). split; [done|]. split.
        -- intros e He. apply I5. by eapply clear_of_step.
        -- intros e [->|He]%elem_of_cons; auto.
Qed.

Lemma visit_all_app e1 e2 v :
  visit_all (e1 ++ e2) v =
    let '(v1, r) := visit_all e1 v in if r then (v1, true) else visit_all e2 v1.
Proof.
  revert v. induction e1 as [|[a b] e1 IH]; intros v; simpl; [done|].
  destruct (pid_visit a b v) as [v1 [|]]; [done|apply IH].
Qed.

(** ** The table *)

Definition zomb_link : link pst := {|
  lk_get pp s := match pp with
    | PHead => Some (ps_zombproc s)
    | PNext l => pr_nxt <$> ps_procs s !! l
    end;
  lk_set pp v s := s |}.

(** The ids of one process: its number and that of its group. *)
Definition ids_of (s : pst) (l : loc) (e : Z * Z) : Prop :=
  exists x g pg, ps_procs s !! l = Some x /\ pr_pgrp x = Some g /\ ps_pgrps s !! g = Some pg /\
    e = (pr_pid x, pg_id pg).

(** The active and zombie lists and the ids on them. *)
Record pid_table (s : pst) (ents : list (Z * Z)) : Prop := PidTable {
  pt_lists : exists la lz e1 e2,
    chain all_link s PHead la /\ chain zomb_link s PHead lz /\ NoDup la /\ NoDup lz /\
    Forall2 (ids_of s) la e1 /\ Forall2 (ids_of s) lz e2 /\ ents = e1 ++ e2 }.

Lemma pid_scan_spec n s l ents p v L :
  (forall x, lk_get L (PNext x) s = pr_nxt <$> ps_procs s !! x) ->
  Forall2 (ids_of s) l ents -> p = head l ->
  match l with [] => True | x :: l' => chain L s (PNext x) l' end -> (length l <= n)%nat ->
  pid_scan n p v s = Some (visit_all ents v, s).
Proof.
  intros HL Hl. revert n p v. induction Hl as [|x [a b] l ents Hx _ IH]; intros n p v -> Hc Hn.
  - by destruct n.
  - destruct n as [|n]; [simpl in Hn; lia|].
    destruct Hx as (y & g & pg & Hy & Hg & Hpg & [= -> ->]). simpl. unfold getp, getpg. kunf.
    rewrite Hy, Hg, Hpg. simpl. destruct (pid_visit _ _ v) as [v1 [|]]; [done|].
    apply IH; [| |simpl in Hn; lia].
    + pose proof (chain_get _ _ _ _ Hc) as Hh. rewrite HL, Hy in Hh. by simplify_eq/=.
    + destruct l as [|z l]; [done|]. by destruct Hc.
Qed.

Lemma ids_keys s l ents : Forall2 (ids_of s) l ents -> NoDup l -> (length l <= nproc s)%nat.
Proof.
  intros Hl Hnd. apply NoDup_keys_size; [done|]. intros x Hx.
  apply list_elem_of_lookup in Hx as [i Hi]. destruct (Forall2_lookup_l _ _ _ _ _ Hl Hi)
    as (e & _ & y & g & pg & Hy & _). eauto.
Qed.

(** One turn of the [retry:] loop. *)
Lemma pid_retry_step s ents f v :
  pid_table s ents ->
  pid_retry (S f) v s =
    let v := if PID_MAX <=? nextpid v then Pids 100 0 else v in
    if nextpid v <? pidchecked v then Some (v, s) else
    let '(v', retry) := visit_all ents (Pids (nextpid v) PID_MAX) in
    if retry then pid_retry f v' s else Some (v', s).
Proof.
  intros [(la & lz & e1 & e2 & Ha & Hz & Na & Nz & I1 & I2 & ->)].
  set (w := if PID_MAX <=? nextpid v then Pids 100 0 else v). simpl. fold w.
  destruct (nextpid w <? pidchecked w); [done|]. unfold kbind, kget.
  assert (Htail : forall (L : link pst) l, chain L s PHead l ->
    match l with [] => True | x :: l' => chain L s (PNext x) l' end) by
    (intros L [|x l]; [done|by intros [_ ?]]).
  pose proof (chain_get _ _ _ _ Ha) as Hha. pose proof (chain_get _ _ _ _ Hz) as Hhz.
  simpl in Hha, Hhz. simplify_eq.
  rewrite (pid_scan_spec _ s la e1 _ _ all_link); try done; [|by apply Htail|by eapply ids_keys].
  rewrite visit_all_app. destruct (visit_all e1 _) as [v1 [|]]; simpl; [done|].
  rewrite (pid_scan_spec _ s lz e2 _ _ zomb_link); try done; [|by apply Htail|by eapply ids_keys].
  by destruct (visit_all e2 v1) as [v2 [|]].
Qed.

(** The range remembered between forks holds no number in use. *)
Definition pids_inv (ents : list (Z * Z)) (v : pids) : Prop :=
  0 <= nextpid v /\ pidchecked v <= PID_MAX /\
  forall e, e ∈ ents -> ~ (nextpid v < fst e < pidchecked v) /\ ~ (nextpid v < snd e < pidchecked v).

(** How many turns the loop may still take, with [f] a free number. *)
Definition turns_left (f n : Z) : Z :=
  if n <=? f then f - n else Z.max 0 (PID_MAX - n) + (f - 100) + 1.

Definition picked (ents : list (Z * Z)) (v : pids) : Prop :=
  0 < nextpid v < PID_MAX /\ pids_inv ents v /\
  forall e, e ∈ ents -> (fst e = nextpid v -> snd e = nextpid v - 1) /\
                        (snd e = nextpid v -> fst e = nextpid v - 1).

Lemma pid_retry_spec s ents f fuel v :
  pid_table s ents -> 100 <= f < PID_MAX -> (forall e, e ∈ ents -> fst e <> f /\ snd e <> f) ->
  0 < nextpid v -> pidchecked v <= nextpid v -> turns_left f (nextpid v) < Z.of_nat fuel ->
  exists v', pid_retry fuel v s = Some (v', s) /\ picked ents v'.
Proof.
  intros Ht Hf Hfree. revert v. induction fuel as [|fuel IH]; intros v H0 Hc Hfuel.
  { unfold turns_left in Hfuel. destruct (Z.leb_spec (nextpid v) f); lia. }
  rewrite (pid_retry_step s ents) by done.
  set (w := if PID_MAX <=? nextpid v then Pids 100 0 else v).
  assert (Hw : 0 < nextpid w < PID_MAX /\ pidchecked w <= nextpid w /\
    (turns_left f (nextpid w) < turns_left f (nextpid v) /\ nextpid w <= f \/ w = v)).
  { unfold w, turns_left, PID_MAX in *. destruct (Z.leb_spec 30000 (nextpid v)); simpl; [|split; [lia|auto]].
    split; [lia|]. split; [lia|]. left. destruct (Z.leb_spec 100 f); [|lia].
    destruct (Z.leb_spec (nextpid v) f); lia. }
  clearbody w. destruct Hw as (Hw & Hwc & Hwt). cbv zeta.
  destruct (Z.ltb_spec (nextpid w) (pidchecked w)); [lia|].
  pose proof (visit_all_spec ents (Pids (nextpid w) PID_MAX) f) as Hv. simpl in Hv.
  specialize (Hv ltac:(lia) Hfree).
  destruct (visit_all ents (Pids (nextpid w) PID_MAX)) as [v' r]. destruct Hv as (V1 & V2 & V3 & V4).
  destruct r.
  - apply IH; [lia|lia|]. destruct V4 as (V4 & V5 & V6).
    assert (turns_left f (nextpid v') < turns_left f (nextpid v) \/
            turns_left f (nextpid v') < turns_left f (nextpid w)) as Hd; [right|].
    { unfold turns_left in *. destruct (Z.leb_spec (nextpid v') f), (Z.leb_spec (nextpid w) f); lia. }
    destruct Hwt as [[? _]| ->]; lia.
  - exists v'. split; [done|]. destruct V4 as (V4 & _ & V5). split; [lia|]. split.
    + split; [lia|]. split; [lia|]. intros e He. destruct (V5 e He) as (? & ? & _). done.
    + intros e He. by destruct (V5 e He) as (_ & _ & ?).
Qed.

(** *** Properties *)

(** C32. [fork1] always finds a process number when one is free between 100 and PID_MAX:
    the [retry:] loop ends within 60001 turns.  The number is positive and below
    PID_MAX, the range remembered for the next forks stays free of numbers in use, and
    the number itself is not that of any process or group - except that a process whose
    number and group number are consecutive, and straddle the number tried, hides the
    larger of the two from the scan. *)
Theorem fork_pid_picks s ents v f fuel :
  pid_table s ents -> pids_inv ents v -> 100 <= f < PID_MAX ->
  (forall e, e ∈ ents -> fst e <> f /\ snd e <> f) -> 60001 <= Z.of_nat fuel ->
  exists v', fork_pid fuel v s = Some (v', s) /\ 0 < nextpid v' < PID_MAX /\ pids_inv ents v' /\
    forall e, e ∈ ents -> (fst e = nextpid v' -> snd e = nextpid v' - 1) /\
                          (snd e = nextpid v' -> fst e = nextpid v' - 1).
Proof.
  intros Ht (H0 & Hc & Hfree) Hf Hff Hfuel. unfold fork_pid.
  destruct (Z.lt_ge_cases (nextpid v + 1) (pidchecked v)) as [Hlt|Hge].
  - exists (Pids (nextpid v + 1) (pidchecked v)). destruct fuel as [|fuel]; [lia|].
    rewrite (pid_retry_step s ents) by done. simpl.
    destruct (Z.leb_spec PID_MAX (nextpid v + 1)); [lia|]. simpl.
    destruct (Z.ltb_spec (nextpid v + 1) (pidchecked v)); [|lia].
    split; [done|]. split; [lia|]. split.
    + split; [simpl; lia|]. split; [done|]. intros e He. specialize (Hfree e He). simpl. lia.
    + intros e He. specialize (Hfree e He). lia.
  - apply (pid_retry_spec s ents f); try done; simpl; [lia|].
    unfold turns_left, PID_MAX in *. destruct (Z.leb_spec (nextpid v + 1) f); lia.
Qed.

(** ** Witness and counterexample *)

(** One active process of number [pid] in a group of number [pgid]. *)
Definition one_process (pid pgid : Z) : pst :=
  Pst {[ 1%positive := Proc None PHead 0 3 pid None None None None None None 0 (Some 2%positive) ]}
    {[ 2%positive := Pgrp None (Some 1%positive) 3 pgid 0 ]} ∅ ∅ ∅ ∅ (Some 1%positive) None [].

Lemma one_process_table pid pgid : pid_table (one_process pid pgid) [(pid, pgid)].
Proof.
  constructor. exists [1%positive], [], [(pid, pgid)], []. split_and!; try done.
  - apply NoDup_singleton.
  - constructor.
  - constructor; [|constructor]. eexists _, 2%positive, _. split_and!; try reflexivity.
Qed.

Lemma fork_pid_picks_witness :
  exists v', fork_pid (Z.to_nat 60001) (Pids 499 400) (one_process 500 500) = Some (v', one_process 500 500) /\
    0 < nextpid v' < PID_MAX /\ pids_inv [(500, 500)] v' /\
    forall e, e ∈ [(500, 500)] -> (fst e = nextpid v' -> snd e = nextpid v' - 1) /\
                                  (snd e = nextpid v' -> fst e = nextpid v' - 1).
Proof.
  apply (fork_pid_picks (one_process 500 500) [(500, 500)] (Pids 499 400) 700).
  - apply one_process_table.
  - split; [simpl; lia|]. split; [unfold PID_MAX; simpl; lia|].
    intros e ->%list_elem_of_singleton. simpl. lia.
  - unfold PID_MAX. lia.
  - intros e ->%list_elem_of_singleton. simpl. lia.
  - rewrite Z2Nat.id; lia.
Defined.

(** The shape the scan misses: the only process has number 501 in the group 500, whose
    leader is gone; the next number tried is 500 and [fork1] hands out 501 again. *)
Lemma fork_pid_duplicate :
  exists v', fork_pid 3 (Pids 499 400) (one_process 501 500) = Some (v', one_process 501 500) /\
    nextpid v' = 501.
Proof. eexists. split; [vm_compute; reflexivity|reflexivity]. Qed.
