(* ===== verification/PgrpInv.v ===== *)
(** * The process group tables

    What the tables of sys/kern/kern_proc.c hold: the members of every group, the hash
    chains of groups, the reference counts of sessions and the job control counts; and how
    a process is taken out of a group and put into one. *)

From S2P Require Import Prelude Chain Count Proc.
Local Open Scope kern_scope.

#[export] Instance mem_link_laws g : LinkLaws (mem_link g).
Proof.
  split. intros [|k] [|j] v s [x Hx]; simpl in *; try done.
  - destruct (ps_pgrps s !! g) as [G|] eqn:E; [|done]. by rewrite lookup_alter_eq, E.
  - destruct (ps_procs s !! k) as [y|] eqn:E; [|done]. destruct (decide (j = k)) as [->|Hne].
    + rewrite decide_True by done. by rewrite lookup_alter_eq, E.
    + rewrite decide_False by congruence. by rewrite lookup_alter_ne by done.
Qed.

#[export] Instance pg_link_laws h : LinkLaws (pg_link h).
Proof.
  split. intros [|k] [|j] v s [x Hx]; simpl in *; try done.
  - by rewrite lookup_partial_alter_eq.
  - destruct (ps_pgrps s !! k) as [y|] eqn:E; [|done]. destruct (decide (j = k)) as [->|Hne].
    + rewrite decide_True by done. by rewrite lookup_alter_eq, E.
    + rewrite decide_False by congruence. by rewrite lookup_alter_ne by done.
Qed.

(** ** What the tables mean *)

(** The group of a process, and the session of a group. *)
Definition grp_of (s : pst) (p : loc) : option loc := ps_procs s !! p ≫= pr_pgrp.
Definition ses_of (s : pst) (g : loc) : option loc := pg_session <$> ps_pgrps s !! g.

(** A process that is in group [g] qualifies it for job control: its parent is in another
    group of the same session. *)
Definition cond (ses : loc -> option loc) (g hg : loc) : bool := negb (bool_decide (hg = g)) && bool_decide (ses hg = ses g).
Definition qual (grp : loc -> option loc) (ses : loc -> option loc) (g : loc) (p : loc) (x : proc) : bool :=
  bool_decide (grp p = Some g) && negb (pr_stat x =? SZOMB) &&
  match pr_pptr x ≫= grp with Some hg => cond ses g hg | None => false end.

(** The number of processes that qualify the group. *)
Definition quals (s : pst) (grp : loc -> option loc) (g : loc) : Z := count (qual grp (ses_of s) g) (ps_procs s).

Section Inv.
Context (mask : Z).

(** The tables when the members of a group are those [grp] says, its job control count is
    [J], and only groups of [ex] may be empty. *)
Record pg_inv (grp : loc -> option loc) (J : loc -> Z) (ex : gset loc) (s : pst) : Prop := {
  pi_mem g G : ps_pgrps s !! g = Some G ->
    exists l, chain (mem_link g) s PHead l /\ NoDup l /\ forall q, q ∈ l <-> grp q = Some g;
  pi_dom q g : grp q = Some g -> is_Some (ps_procs s !! q) /\ is_Some (ps_pgrps s !! g);
  pi_ne g G : ps_pgrps s !! g = Some G -> g ∉ ex -> exists q, grp q = Some g;
  pi_hash h : exists l, chain (pg_link h) s PHead l /\ NoDup l /\
    forall g, g ∈ l <-> exists G, ps_pgrps s !! g = Some G /\ PIDHASH mask (pg_id G) = h;
  pi_ids g1 g2 G1 G2 : ps_pgrps s !! g1 = Some G1 -> ps_pgrps s !! g2 = Some G2 -> pg_id G1 = pg_id G2 -> g1 = g2;
  pi_sess g G : ps_pgrps s !! g = Some G -> is_Some (ps_sess s !! pg_session G);
  pi_scount l S : ps_sess s !! l = Some S ->
    s_count S = count (fun _ G => bool_decide (pg_session G = l)) (ps_pgrps s) /\ 0 < s_count S;
  pi_tty l S t : ps_sess s !! l = Some S -> s_ttyp S = Some t -> is_Some (ps_ttys s !! t);
  pi_jobc g G : ps_pgrps s !! g = Some G -> pg_jobc G = J g }.

(** The children of every process. *)
Definition kids_ok (s : pst) : Prop := forall p x, ps_procs s !! p = Some x ->
  exists l, chain (child_link p) s PHead l /\ NoDup l /\
    forall c, c ∈ l <-> exists y, ps_procs s !! c = Some y /\ pr_pptr y = Some p.

(** The invariant of the tables between two operations. *)
Record pg_ok (s : pst) : Prop := {
  ok_inv : pg_inv (grp_of s) (quals s (grp_of s)) ∅ s;
  ok_kids : kids_ok s;
  ok_grp p x : ps_procs s !! p = Some x -> is_Some (pr_pgrp x);
  ok_size : Z.of_nat (size (ps_procs s)) < 268435456 }.

(** ** Bounds *)

(** Every other group has a member: there are hardly more groups than processes. *)
Lemma pgrps_bound grp J ex s : pg_inv grp J ex s ->
  Z.of_nat (size (ps_pgrps s)) <= Z.of_nat (size (ps_procs s)) + Z.of_nat (size ex).
Proof.
  intros H. set (L := elements ex ++ omap grp (elements (dom (ps_procs s)))).
  assert (Hsub : elements (dom (ps_pgrps s)) ⊆+ L).
  { apply NoDup_submseteq; [apply NoDup_elements|]. intros g Hg%elem_of_elements%elem_of_dom. destruct Hg as [G HG].
    apply elem_of_app. destruct (decide (g ∈ ex)) as [Hin|Hne]; [left; by apply elem_of_elements|]. right.
    destruct (pi_ne _ _ _ _ H g G HG Hne) as [q Hq]. apply list_elem_of_omap. exists q. split; [|done].
    apply elem_of_elements, elem_of_dom. by apply (pi_dom _ _ _ _ H q g). }
  apply submseteq_length in Hsub. unfold L in Hsub. rewrite length_app in Hsub.
  change (length (elements (dom (ps_pgrps s)))) with (size (dom (ps_pgrps s))) in Hsub. rewrite size_dom in Hsub.
  rewrite <- (size_dom (ps_procs s)). change (size (dom (ps_procs s))) with (length (elements (dom (ps_procs s)))).
  change (size ex) with (length (elements ex)).
  assert (forall (f : loc -> option loc) l, (length (omap f l) <= length l)%nat) as Ho.
  { intros f l. induction l as [|x l IH]; csimpl; [done|]. destruct (f x); csimpl; lia. }
  specialize (Ho grp (elements (dom (ps_procs s)))). lia.
Qed.

Lemma count_le {A} (f : loc -> A -> bool) (m : gmap loc A) : count f m <= Z.of_nat (size m).
Proof. unfold count. apply inj_le. rewrite <- !size_dom. apply subseteq_size, dom_filter_subseteq. Qed.

(** ** Finding a group *)

Lemma pgfind_spec grp J ex s pgid : pg_inv grp J ex s ->
  exists r, pgfind mask pgid s = Some (r, s) /\
    match r with
    | Some g => exists G, ps_pgrps s !! g = Some G /\ pg_id G = pgid
    | None => forall g G, ps_pgrps s !! g = Some G -> pg_id G <> pgid
    end.
Proof.
  intros H. destruct (pi_hash _ _ _ _ H (PIDHASH mask pgid)) as (l & Hc & Hnd & Hl).
  set (b := fun g => match ps_pgrps s !! g with Some G => pg_id G =? pgid | None => false end).
  exists (head (filter b l)). split.
  - unfold pgfind. unfold kbind at 1, kget at 1.
    apply (find_first_chain (pg_link (PIDHASH mask pgid)) (npgrp s) s _ l _ b).
    + intros g Hg. apply Hl in Hg as (G & HG & _). unfold getpg, b. kunf. by rewrite HG.
    + pose proof (chain_get _ _ _ _ Hc) as E. simpl in E. by injection E.
    + destruct l as [|g l]; [done|]. by destruct Hc.
    + apply NoDup_keys_size; [done|]. intros g Hg. apply Hl in Hg as (G & HG & _). eauto.
  - destruct (filter _ l) as [|g r] eqn:E; simpl.
    + intros g G HG Hid. assert (Hin : g ∈ filter b l).
      { apply list_elem_of_filter. unfold b. rewrite HG. split; [by apply Is_true_true, Z.eqb_eq|]. apply Hl. exists G. by rewrite Hid. }
      rewrite E in Hin. by apply elem_of_nil in Hin.
    + assert (Hin : g ∈ filter b l) by (rewrite E; left). apply list_elem_of_filter in Hin as [Hb _].
      unfold b in Hb. destruct (ps_pgrps s !! g) as [G|] eqn:HG; [|done]. exists G. split; [done|]. by apply Z.eqb_eq, Is_true_true.
Qed.

(** ** Edits of the lists *)

(** The links and counts aside, the tables are the same. *)
Record same_core (s s' : pst) : Prop := {
  sc_procs q : (fun x => p_with_pgrpnxt x None) <$> ps_procs s' !! q = (fun x => p_with_pgrpnxt x None) <$> ps_procs s !! q;
  sc_pgrps g : (fun G => (pg_id G, pg_session G)) <$> ps_pgrps s' !! g = (fun G => (pg_id G, pg_session G)) <$> ps_pgrps s !! g;
  sc_sess : ps_sess s' = ps_sess s;
  sc_ttys : ps_ttys s' = ps_ttys s;
  sc_sigs : ps_signals s' = ps_signals s }.

Lemma same_core_refl s : same_core s s.
Proof. done. Qed.
Lemma same_core_trans s1 s2 s3 : same_core s1 s2 -> same_core s2 s3 -> same_core s1 s3.
Proof.
  intros [A1 A2 A3 A4 A5] [B1 B2 B3 B4 B5]. split; congruence.
Qed.

Lemma core_proc s s' q x : same_core s s' -> ps_procs s !! q = Some x ->
  exists n, ps_procs s' !! q = Some (p_with_pgrpnxt x n).
Proof.
  intros H Hx. pose proof (sc_procs _ _ H q) as E. rewrite Hx in E. destruct (ps_procs s' !! q) as [y|]; [|done].
  exists (pr_pgrpnxt y). simpl in E. injection E as E1 E2 E3 E4 E5 E6 E7 E8 E9 E10 E11 E12. destruct y; simpl in *. by rewrite E1, E2, E3, E4, E5, E6, E7, E8, E9, E10, E11, E12.
Qed.

Lemma core_sym s s' : same_core s s' -> same_core s' s.
Proof. intros [A1 A2 A3 A4 A5]. split; try congruence; intros q; symmetry; auto. Qed.

Lemma core_grp s s' q : same_core s s' -> grp_of s' q = grp_of s q.
Proof.
  intros H. unfold grp_of. destruct (ps_procs s !! q) as [x|] eqn:E.
  - destruct (core_proc _ _ _ _ H E) as [n ->]. done.
  - destruct (ps_procs s' !! q) as [x|] eqn:E2; [|done]. destruct (core_proc _ _ _ _ (core_sym _ _ H) E2) as [n E3]. congruence.
Qed.

Lemma core_ses s s' g : same_core s s' -> ses_of s' g = ses_of s g.
Proof.
  intros H. unfold ses_of. pose proof (sc_pgrps _ _ H g) as E.
  destruct (ps_pgrps s' !! g), (ps_pgrps s !! g); simpl in *; congruence.
Qed.

Lemma core_kids s s' : same_core s s' -> kids_ok s -> kids_ok s'.
Proof.
  intros H Hk p x Hx. destruct (core_proc _ _ _ _ (core_sym _ _ H) Hx) as [n Hx0].
  destruct (Hk p _ Hx0) as (l & Hc & Hnd & Hl). exists l. split; [|split; [done|]].
  - revert Hc. apply chain_frame. intros [|j] _; simpl.
    + by rewrite Hx, Hx0.
    + pose proof (f_equal (fmap pr_osptr) (sc_procs _ _ H j)) as E. by destruct (ps_procs s' !! j), (ps_procs s !! j).
  - intros c. rewrite Hl. split; intros (y & Hy & Hp).
    + destruct (core_proc _ _ _ _ H Hy) as [m Hm]. by eexists.
    + destruct (core_proc _ _ _ _ (core_sym _ _ H) Hy) as [m Hm]. by eexists.
Qed.

(** A change of the members' links of one group. *)
Lemma mem_set_core g qq v s : is_Some (ps_pgrps s !! g) -> same_core s (lk_set (mem_link g) qq v s) /\
  (forall h pp, lk_get (pg_link h) pp (lk_set (mem_link g) qq v s) = lk_get (pg_link h) pp s) /\
  (forall h, pg_jobc <$> ps_pgrps (lk_set (mem_link g) qq v s) !! h = pg_jobc <$> ps_pgrps s !! h).
Proof.
  intros [G HG]. destruct qq as [|k]; simpl; split_and!.
  - split; try done. intros h. simpl. destruct (decide (h = g)) as [->|Hne]; [by rewrite lookup_alter_eq, HG|by rewrite lookup_alter_ne by done].
  - intros h [|j]; [done|]. simpl. destruct (decide (j = g)) as [->|Hne]; [by rewrite lookup_alter_eq, HG|by rewrite lookup_alter_ne by done].
  - intros h. destruct (decide (h = g)) as [->|Hne]; [by rewrite lookup_alter_eq, HG|by rewrite lookup_alter_ne by done].
  - split; try done. intros q. simpl. destruct (decide (q = k)) as [->|Hne]; [|by rewrite lookup_alter_ne by done].
    rewrite lookup_alter_eq. by destruct (ps_procs s !! k).
  - intros h [|j]; done.
  - done.
Qed.

(** The tables with the list of the group [g] replaced by [l']. *)
Lemma inv_relist grp grp' J ex ex' s s' g l' :
  pg_inv grp J ex s -> same_core s s' ->
  (forall h pp, lk_get (pg_link h) pp s' = lk_get (pg_link h) pp s) ->
  (forall h, pg_jobc <$> ps_pgrps s' !! h = pg_jobc <$> ps_pgrps s !! h) ->
  (forall h l, h <> g -> chain (mem_link h) s PHead l -> (forall q, q ∈ l -> grp q = Some h) -> chain (mem_link h) s' PHead l) ->
  chain (mem_link g) s' PHead l' -> NoDup l' -> (forall q, q ∈ l' <-> grp' q = Some g) ->
  (forall q h, h <> g -> grp' q = Some h <-> grp q = Some h) ->
  (forall q, q ∈ l' -> is_Some (ps_procs s !! q)) -> is_Some (ps_pgrps s !! g) ->
  (g ∉ ex' -> l' <> []) -> (forall h, h <> g -> h ∉ ex' -> h ∉ ex) ->
  pg_inv grp' J ex' s'.
Proof.
  intros H Hco Hpg Hj Hoth Hc' Hnd' Hl' Hgrp Hdom [G0 HG0] Hne Hex.
  assert (Hg : forall h G, ps_pgrps s' !! h = Some G -> exists G1, ps_pgrps s !! h = Some G1 /\ pg_id G1 = pg_id G /\
    pg_session G1 = pg_session G /\ pg_jobc G1 = pg_jobc G).
  { intros h G HG. pose proof (sc_pgrps _ _ Hco h) as E. pose proof (Hj h) as Ej. rewrite HG in E, Ej.
    destruct (ps_pgrps s !! h) as [G1|]; [|done]. exists G1. simpl in *. by injection E; injection Ej. }
  assert (Hg2 : forall h G, ps_pgrps s !! h = Some G -> exists G1, ps_pgrps s' !! h = Some G1 /\ pg_id G1 = pg_id G).
  { intros h G HG. pose proof (sc_pgrps _ _ Hco h) as E. rewrite HG in E. destruct (ps_pgrps s' !! h) as [G1|]; [|done].
    exists G1. by injection E. }
  split.
  - intros h G HG. destruct (decide (h = g)) as [->|Hh]; [by exists l'|].
    destruct (Hg _ _ HG) as (G1 & HG1 & _). destruct (pi_mem _ _ _ _ H h G1 HG1) as (l & Hc & Hnd & Hl).
    exists l. split; [apply Hoth; try done; intros q; by apply Hl|]. split; [done|]. intros q. by rewrite Hl, Hgrp.
  - intros q h Hq. destruct (decide (h = g)) as [->|Hh].
    + apply Hl' in Hq. destruct (Hdom q Hq) as [x Hx]. destruct (core_proc _ _ _ _ Hco Hx) as [n ->].
      destruct (Hg2 g G0 HG0) as (G1 & -> & _). eauto.
    + apply Hgrp in Hq; [|done]. destruct (pi_dom _ _ _ _ H q h Hq) as [[x Hx] [G HG]].
      destruct (core_proc _ _ _ _ Hco Hx) as [n ->]. destruct (Hg2 h G HG) as (G1 & -> & _). eauto.
  - intros h G HG Hh. destruct (decide (h = g)) as [->|Hne2].
    + destruct l' as [|q l']; [by destruct (Hne Hh)|]. exists q. apply Hl'. left.
    + destruct (Hg _ _ HG) as (G1 & HG1 & _). destruct (pi_ne _ _ _ _ H h G1 HG1) as [q Hq]; [by apply Hex|].
      exists q. by apply Hgrp.
  - intros h. destruct (pi_hash _ _ _ _ H h) as (l & Hc & Hnd & Hl). exists l. split; [by apply (chain_frame _ s); [intros; apply Hpg|]|].
    split; [done|]. intros k. rewrite Hl. split; intros (G & HG & HP).
    + destruct (Hg2 _ _ HG) as (G1 & HG1 & E). exists G1. by rewrite E.
    + destruct (Hg _ _ HG) as (G1 & HG1 & E & _). exists G1. by rewrite E.
  - intros g1 g2 G1 G2 H1 H2 E. destruct (Hg _ _ H1) as (K1 & HK1 & E1 & _). destruct (Hg _ _ H2) as (K2 & HK2 & E2 & _).
    apply (pi_ids _ _ _ _ H g1 g2 K1 K2); congruence.
  - intros h G HG. destruct (Hg _ _ HG) as (G1 & HG1 & _ & E & _). rewrite (sc_sess _ _ Hco), <- E. by apply (pi_sess _ _ _ _ H h).
  - intros l S HS. rewrite (sc_sess _ _ Hco) in HS. destruct (pi_scount _ _ _ _ H l S HS) as [E Hp]. split; [|done].
    rewrite E. apply count_agree. intros h. pose proof (sc_pgrps _ _ Hco h) as Eh.
    destruct (ps_pgrps s' !! h), (ps_pgrps s !! h); simpl in *; try done. by injection Eh as _ ->.
  - intros l S t HS Ht. rewrite (sc_sess _ _ Hco) in HS. rewrite (sc_ttys _ _ Hco). by apply (pi_tty _ _ _ _ H l S).
  - intros h G HG. destruct (Hg _ _ HG) as (G1 & HG1 & _ & _ & E). rewrite <- E. by apply (pi_jobc _ _ _ _ H).
Qed.

(** ** Out of a group *)

Definition out (p : loc) (grp : loc -> option loc) (q : loc) : option loc := if decide (q = p) then None else grp q.
Definition into (p g : loc) (grp : loc -> option loc) (q : loc) : option loc := if decide (q = p) then Some g else grp q.

Lemma members_size grp J ex s g l : pg_inv grp J ex s -> NoDup l -> (forall q, q ∈ l <-> grp q = Some g) -> (length l <= nproc s)%nat.
Proof. intros H Hnd Hl. apply NoDup_keys_size; [done|]. intros q Hq. apply Hl in Hq. by apply (pi_dom _ _ _ _ H q g). Qed.

Lemma unlink_member grp J ex s p g : pg_inv grp J ex s -> grp p = Some g ->
  exists s', unlink (mem_link g) (nproc s) PHead p s = Some (true, s') /\ same_core s s' /\
    pg_inv (out p grp) J (ex ∪ {[g]}) s' /\ exists l, chain (mem_link g) s' PHead l /\ forall q, q ∈ l <-> out p grp q = Some g.
Proof.
  intros H Hp. destruct (pi_dom _ _ _ _ H p g Hp) as [_ [G HG]].
  destruct (pi_mem _ _ _ _ H g G HG) as (l & Hc & Hnd & Hl).
  destruct (unlink_spec (mem_link g) (nproc s) s PHead l p Hc (fresh_head _ Hnd)) as (s' & Hrun & Hc' & _ & Hyes).
  { by apply (members_size grp J ex s g). }
  assert (Hin : p ∈ l) by (by apply Hl). rewrite bool_decide_eq_true_2 in Hrun by done.
  destruct (Hyes Hin) as (qq & v & Hqq & -> & Hsome). destruct (mem_set_core g qq v s) as (Hco & Hpg & Hj); [eauto|].
  assert (Hl' : forall q, q ∈ filter (fun x => x <> p) l <-> out p grp q = Some g).
  { intros q. rewrite list_elem_of_filter, Hl. unfold out. case_decide; naive_solver. }
  eexists. split; [exact Hrun|]. split; [done|]. split; [|by exists (filter (fun x => x <> p) l)].
  apply (inv_relist grp _ J ex _ s _ g (filter (fun x => x <> p) l)); try done.
  - intros h l2 Hh Hc2 Hg2. revert Hc2. apply chain_frame. intros rr Hrr.
    destruct qq as [|k]; destruct rr as [|j]; simpl; try done.
    + by rewrite lookup_alter_ne by done.
    + destruct Hqq as [|(x & Hx & [= ->])]; [done|]. destruct Hrr as [|(y & Hy & [= ->])]; [done|].
      rewrite lookup_alter_ne; [done|]. intros ->. apply Hl in Hx. apply Hg2 in Hy. congruence.
  - by apply NoDup_filter.
  - intros q h Hh. unfold out. case_decide; [|done]. subst. naive_solver.
  - intros q Hq. apply list_elem_of_filter in Hq as [_ Hq]. apply Hl in Hq. by apply (pi_dom _ _ _ _ H q g).
  - intros Hx. exfalso. apply Hx. set_solver.
  - clear. set_solver.
Qed.

(** What deleting the group [g] leaves. *)
Record deleted (g : loc) (s s' : pst) : Prop := {
  dl_procs : ps_procs s' = ps_procs s;
  dl_pgrps h : (fun G => (pg_id G, pg_session G, pg_mem G, pg_jobc G)) <$> ps_pgrps s' !! h =
    if decide (h = g) then None else (fun G => (pg_id G, pg_session G, pg_mem G, pg_jobc G)) <$> ps_pgrps s !! h;
  dl_sess l : ps_sess s' !! l = match ps_sess s !! l with
    | Some e => if decide (ses_of s g = Some l) then if s_count e =? 1 then None else Some (s_with_count e (s_count e - 1)) else Some e
    | None => None end;
  dl_ttys t : is_Some (ps_ttys s !! t) -> is_Some (ps_ttys s' !! t);
  dl_sigs : ps_signals s' = ps_signals s }.

Lemma deleted_inv grp J ex s s' g : pg_inv grp J ex s -> deleted g s s' -> is_Some (ps_pgrps s !! g) ->
  (forall q, grp q <> Some g) ->
  (forall h, exists l, chain (pg_link h) s' PHead l /\ NoDup l /\
    forall k, k ∈ l <-> exists G, ps_pgrps s' !! k = Some G /\ PIDHASH mask (pg_id G) = h) ->
  pg_inv grp J (ex ∖ {[g]}) s'.
Proof.
  intros H [Dp Dg Ds Dt _] [G0 HG0] Hno Hhash.
  assert (Hg : forall h G, ps_pgrps s' !! h = Some G -> h <> g /\ exists G1, ps_pgrps s !! h = Some G1 /\ pg_id G1 = pg_id G /\
    pg_session G1 = pg_session G /\ pg_mem G1 = pg_mem G /\ pg_jobc G1 = pg_jobc G).
  { intros h G HG. pose proof (Dg h) as E. rewrite HG in E. case_decide; [done|]. split; [done|].
    destruct (ps_pgrps s !! h) as [G1|]; [|done]. exists G1. simpl in *. by injection E. }
  assert (Hg2 : forall h G, h <> g -> ps_pgrps s !! h = Some G -> is_Some (ps_pgrps s' !! h)).
  { intros h G Hh HG. pose proof (Dg h) as E. rewrite HG, decide_False in E by done. by destruct (ps_pgrps s' !! h). }
  assert (Hcnt : forall l, count (fun _ G => bool_decide (pg_session G = l)) (ps_pgrps s) =
    count (fun _ G => bool_decide (pg_session G = l)) (ps_pgrps s') + ind (bool_decide (pg_session G0 = l))).
  { intros l. rewrite (count_delete _ _ g G0) by done. f_equal. apply count_agree. intros h. pose proof (Dg h) as E.
    destruct (decide (h = g)) as [->|Hh]; [rewrite lookup_delete_eq; by destruct (ps_pgrps s' !! g)|].
    rewrite lookup_delete_ne by done. destruct (ps_pgrps s' !! h), (ps_pgrps s !! h); simpl in *; try done. by injection E as _ -> _ _. }
  assert (Hs0 : ses_of s g = Some (pg_session G0)) by (unfold ses_of; by rewrite HG0).
  split.
  - intros h G HG. destruct (Hg _ _ HG) as (Hh & G1 & HG1 & _ & _ & Em & _).
    destruct (pi_mem _ _ _ _ H h G1 HG1) as (l & Hc & Hnd & Hl). exists l. split; [|done]. revert Hc. apply chain_frame.
    intros [|j] _; simpl; [by rewrite HG, HG1; simpl; rewrite Em|by rewrite Dp].
  - intros q h Hq. destruct (pi_dom _ _ _ _ H q h Hq) as [Hx [G HG]]. rewrite Dp. split; [done|]. apply (Hg2 h G); [|done].
    intros ->. by apply (Hno q).
  - intros h G HG Hex. destruct (Hg _ _ HG) as (Hh & G1 & HG1 & _). apply (pi_ne _ _ _ _ H h G1 HG1). set_solver.
  - exact Hhash.
  - intros g1 g2 G1 G2 H1 H2 E. destruct (Hg _ _ H1) as (_ & K1 & HK1 & E1 & _). destruct (Hg _ _ H2) as (_ & K2 & HK2 & E2 & _).
    apply (pi_ids _ _ _ _ H g1 g2 K1 K2); congruence.
  - intros h G HG. destruct (Hg _ _ HG) as (Hh & G1 & HG1 & _ & Es & _). rewrite <- Es.
    destruct (pi_sess _ _ _ _ H h G1 HG1) as [S HS]. rewrite Ds, HS. case_decide as Hd; [|eauto].
    destruct (Z.eqb_spec (s_count S) 1) as [E1|]; [|eauto]. exfalso.
    destruct (pi_scount _ _ _ _ H _ S HS) as [Ec _]. rewrite Hcnt, E1 in Ec. rewrite Hs0 in Hd. injection Hd as Hd.
    rewrite ind_true in Ec by done.
    pose proof (count_pos (fun _ G => bool_decide (pg_session G = pg_session G1)) (ps_pgrps s') h G HG
      (bool_decide_eq_true_2 _ (eq_sym Es))) as Hp. lia.
  - intros l S. rewrite Ds. destruct (ps_sess s !! l) as [S0|] eqn:HS0; [|done].
    destruct (pi_scount _ _ _ _ H _ S0 HS0) as [Ec Hp]. rewrite Hcnt in Ec. rewrite Hs0.
    destruct (decide (Some (pg_session G0) = Some l)) as [Hd|Hd].
    + assert (pg_session G0 = l) by congruence. rewrite ind_true in Ec by done. destruct (Z.eqb_spec (s_count S0) 1); [done|].
      intros [= <-]. simpl. lia.
    + intros [= <-]. rewrite ind_false in Ec by congruence. lia.
  - intros l S t. rewrite Ds. destruct (ps_sess s !! l) as [S0|] eqn:HS0; [|done]. intros HS Ht. apply Dt.
    apply (pi_tty _ _ _ _ H l S0 t HS0). rewrite <- Ht. repeat case_match; by simplify_eq.
  - intros h G HG. destruct (Hg _ _ HG) as (_ & G1 & HG1 & _ & _ & _ & E). rewrite <- E. by apply (pi_jobc _ _ _ _ H).
Qed.
End Inv.
