(* ===== verification/PgrpLists.v ===== *)
(** * Leaving, entering, making and deleting process groups

    The list and count operations of sys/kern/kern_proc.c on tables that satisfy the
    invariant. *)

From S2P Require Import Prelude Chain Count Proc PgrpInv.
Local Open Scope kern_scope.

Section Lists.
Context (mask : Z).

(** ** Deleting a group *)

(** A change of a link of the hash chains. *)
Lemma hash_set_frame h qq v s :
  ps_procs (lk_set (pg_link h) qq v s) = ps_procs s /\ ps_sess (lk_set (pg_link h) qq v s) = ps_sess s /\
  ps_ttys (lk_set (pg_link h) qq v s) = ps_ttys s /\ ps_signals (lk_set (pg_link h) qq v s) = ps_signals s /\
  forall k, (fun G => (pg_id G, pg_session G, pg_mem G, pg_jobc G)) <$> ps_pgrps (lk_set (pg_link h) qq v s) !! k =
    (fun G => (pg_id G, pg_session G, pg_mem G, pg_jobc G)) <$> ps_pgrps s !! k.
Proof.
  destruct qq as [|j]; simpl; split_and!; try done. intros k. destruct (decide (k = j)) as [->|Hne].
  - rewrite lookup_alter_eq. by destruct (ps_pgrps s !! j).
  - by rewrite lookup_alter_ne by done.
Qed.

(** The hash chains do not meet. *)
Lemma hash_set_other h h2 qq v s l2 : h2 <> h -> chain (pg_link h2) s PHead l2 ->
  (forall k, qq = PNext k -> k ∉ l2) -> chain (pg_link h2) (lk_set (pg_link h) qq v s) PHead l2.
Proof.
  intros Hne Hc Hq. revert Hc. apply chain_frame. intros [|j] Hj.
  - destruct qq as [|k]; simpl; [by rewrite lookup_partial_alter_ne by done|done].
  - destruct Hj as [|(x & Hx & [= ->])]; [done|]. destruct qq as [|k]; simpl; [done|].
    rewrite lookup_alter_ne; [done|]. intros ->. by apply (Hq x).
Qed.

(** The terminal of the session forgets its group. *)
Definition forget_tty (g : loc) (e : session) : K pst unit :=
  match s_ttyp e with
  | Some t =>
    let! tpg := kderef (fun s => ps_ttys s !! t) in
    if decide (tpg = Some g) then kmod (upd_ttys (<[t := None]>)) else kret tt
  | None => kret tt
  end.

Lemma forget_tty_run g e s : (forall t, s_ttyp e = Some t -> is_Some (ps_ttys s !! t)) ->
  exists tt', forget_tty g e s = Some (tt, upd_ttys (fun _ => tt') s) /\ forall t, is_Some (ps_ttys s !! t) -> is_Some (tt' !! t).
Proof.
  intros Ht. unfold forget_tty. destruct (s_ttyp e) as [t|]; [|by exists (ps_ttys s); destruct s].
  destruct (Ht t eq_refl) as [tp Htp]. kunf. rewrite Htp. case_decide; [|by exists (ps_ttys s); destruct s].
  exists (<[t:=None]> (ps_ttys s)). split; [done|]. intros t2 Ht2. rewrite lookup_insert. case_decide; eauto.
Qed.

(** The tables when the session [k] loses the group [g]. *)
Definition drop_group (g k : loc) (e : session) (s : pst) : pst :=
  upd_pgrps (delete g) ((if s_count e - 1 =? 0 then upd_sess (delete k) else id)
    (upd_sess (<[k := s_with_count e (s_count e - 1)]>) s)).

Lemma drop_group_deleted g G e s s2 : ps_pgrps s !! g = Some G -> ps_sess s !! pg_session G = Some e ->
  ps_procs s2 = ps_procs s -> ps_sess s2 = ps_sess s -> (forall t, is_Some (ps_ttys s !! t) -> is_Some (ps_ttys s2 !! t)) -> ps_signals s2 = ps_signals s ->
  (forall k, (fun G => (pg_id G, pg_session G, pg_mem G, pg_jobc G)) <$> ps_pgrps s2 !! k =
    (fun G => (pg_id G, pg_session G, pg_mem G, pg_jobc G)) <$> ps_pgrps s !! k) ->
  deleted g s (drop_group g (pg_session G) e s2).
Proof.
  intros HG He Ep Es Ht Esg Eg. unfold drop_group. split.
  - destruct (s_count e - 1 =? 0); simpl; by rewrite Ep.
  - intros k. replace (ps_pgrps (upd_pgrps (delete g) _)) with (delete g (ps_pgrps s2)) by (by destruct (s_count e - 1 =? 0)).
    case_decide; [subst; by rewrite lookup_delete_eq|]. rewrite lookup_delete_ne by done. apply Eg.
  - intros k. replace (ps_sess (upd_pgrps (delete g) _)) with ((if s_count e - 1 =? 0 then delete (pg_session G) else id)
      (<[pg_session G := s_with_count e (s_count e - 1)]> (ps_sess s))) by (rewrite <- Es; by destruct (s_count e - 1 =? 0)).
    unfold ses_of. rewrite HG. simpl. destruct (decide (k = pg_session G)) as [->|Hne].
    + rewrite He. rewrite decide_True by done. destruct (Z.eqb_spec (s_count e - 1) 0), (Z.eqb_spec (s_count e) 1); try lia; simpl.
      * by rewrite lookup_delete_eq.
      * by rewrite lookup_insert_eq.
    + destruct (ps_sess s !! k) eqn:Ek; [rewrite decide_False by congruence|];
        (destruct (s_count e - 1 =? 0); simpl; [rewrite lookup_delete_ne by done|]; by rewrite lookup_insert_ne).
  - intros t Hti. destruct (s_count e - 1 =? 0); simpl; by apply Ht.
  - by destruct (s_count e - 1 =? 0).
Qed.

Lemma drop_group_link g k e s h pp : lk_get (pg_link h) pp (drop_group g k e s) =
  match pp with PNext j => if decide (j = g) then None else lk_get (pg_link h) pp s | PHead => lk_get (pg_link h) pp s end.
Proof.
  destruct pp as [|j]; unfold drop_group; destruct (s_count e - 1 =? 0); simpl; try done;
    (case_decide; [subst; by rewrite lookup_delete_eq|by rewrite lookup_delete_ne by done]).
Qed.

Lemma drop_group_chain g k e s h l : g ∉ l -> chain (pg_link h) s PHead l -> chain (pg_link h) (drop_group g k e s) PHead l.
Proof.
  intros Hg. apply chain_frame. intros pp Hpp. rewrite drop_group_link. destruct pp as [|j]; [done|].
  rewrite decide_False; [done|]. intros ->. by destruct Hpp as [|(x & Hx & [= ->])].
Qed.

Lemma pgdelete_run grp J ex s g : pg_inv mask grp J ex s -> is_Some (ps_pgrps s !! g) ->
  Z.of_nat (size (ps_pgrps s)) < 2147483648 ->
  exists s', pgdelete mask g s = Some (tt, s') /\ deleted g s s' /\
    forall h, exists l, chain (pg_link h) s' PHead l /\ NoDup l /\
      forall k, k ∈ l <-> k <> g /\ exists G, ps_pgrps s !! k = Some G /\ PIDHASH mask (pg_id G) = h.
Proof.
  intros H [G HG] Hsz. destruct (pi_sess _ _ _ _ _ H g G HG) as [e He].
  destruct (pi_scount _ _ _ _ _ H _ e He) as [Ec Hpos].
  pose proof (count_le (fun _ G0 => bool_decide (pg_session G0 = pg_session G)) (ps_pgrps s)) as Hle.
  set (h := PIDHASH mask (pg_id G)). destruct (pi_hash _ _ _ _ _ H h) as (l & Hc & Hnd & Hl).
  destruct (forget_tty_run g e s) as (tt' & Ht & Htt); [intros t; by apply (pi_tty _ _ _ _ _ H (pg_session G) e)|].
  set (s1 := upd_ttys (fun _ => tt') s) in *.
  assert (Hc1 : chain (pg_link h) s1 PHead l) by (revert Hc; by apply chain_frame; intros [|]).
  destruct (unlink_spec (pg_link h) (npgrp s) s1 PHead l g Hc1 (fresh_head _ Hnd)) as (s2 & Hrun & Hc2 & _ & Hyes).
  { apply NoDup_keys_size; [done|]. intros k Hk. apply Hl in Hk as (G1 & HG1 & _). eauto. }
  assert (Hin : g ∈ l) by (apply Hl; by exists G). rewrite bool_decide_eq_true_2 in Hrun by done.
  destruct (Hyes Hin) as (qq & v & Hqq & -> & _). destruct (hash_set_frame h qq v s1) as (Ep & Es & Ett & Esg & Eg).
  exists (drop_group g (pg_session G) e (lk_set (pg_link h) qq v s1)). split; [|split].
  - unfold pgdelete. unfold kbind at 1, kget at 1. unfold getpg at 1, getss at 1. unfold kbind at 1, kderef at 1. rewrite HG.
    unfold kbind at 1, kderef at 1. rewrite He. fold h. fold (forget_tty g e). unfold kbind at 1. rewrite Ht.
    unfold kbind at 1. rewrite Hrun. cbn [negb].
    assert (Hn : s32 (s_count e - 1) = s_count e - 1) by (apply s32_id; unfold is_s32; lia). rewrite Hn.
    unfold drop_group, setss. kunf. by destruct (s_count e - 1 =? 0).
  - apply drop_group_deleted; try done. intros t Hti. rewrite Ett. by apply Htt.
  - intros h2. destruct (decide (h2 = h)) as [->|Hne].
    + exists (filter (fun x => x <> g) l). split; [|split; [by apply NoDup_filter|]].
      * apply drop_group_chain; [|done]. rewrite list_elem_of_filter. tauto.
      * intros k. by rewrite list_elem_of_filter, Hl.
    + destruct (pi_hash _ _ _ _ _ H h2) as (l2 & Hc3 & Hnd2 & Hl2).
      assert (Hg2 : g ∉ l2). { intros Hg2. apply Hl2 in Hg2 as (G1 & HG1 & E1). apply Hne. rewrite <- E1. unfold h. congruence. }
      exists l2. split; [|split; [done|]].
      * apply drop_group_chain; [done|]. apply hash_set_other; [done|revert Hc3; by apply chain_frame; intros [|]|].
        intros k -> Hk2. destruct Hqq as [|(x & Hx & [= <-])]; [done|]. apply Hl in Hx as (G1 & HG1 & E1).
        apply Hl2 in Hk2 as (G2 & HG2 & E2). apply Hne. congruence.
      * intros k. rewrite Hl2. split; [|tauto]. intros HG1. split; [|done]. intros ->. by apply Hg2, Hl2.
Qed.

Lemma pgdelete_spec grp J ex s g : pg_inv mask grp J ex s -> is_Some (ps_pgrps s !! g) -> (forall q, grp q <> Some g) ->
  Z.of_nat (size (ps_pgrps s)) < 2147483648 ->
  exists s', pgdelete mask g s = Some (tt, s') /\ deleted g s s' /\ pg_inv mask grp J (ex ∖ {[g]}) s'.
Proof.
  intros H HG Hno Hsz. destruct (pgdelete_run grp J ex s g H HG Hsz) as (s' & Hrun & Hd & Hh).
  exists s'. split; [done|]. split; [done|]. apply deleted_inv with (s := s); try done.
  intros h. destruct (Hh h) as (l & Hc & Hnd & Hl). exists l. split; [done|]. split; [done|]. intros k. rewrite Hl.
  pose proof (dl_pgrps _ _ _ Hd k) as E. case_decide; [subst|].
  - split; [naive_solver|]. intros (G1 & HG1 & _). by rewrite HG1 in E.
  - destruct (ps_pgrps s' !! k) as [G1|], (ps_pgrps s !! k) as [G2|]; simpl in E; try done; [|naive_solver].
    injection E as E1 _ _ _. split.
    + intros (_ & K & [= <-] & <-). exists G1. by rewrite E1.
    + intros (K & [= <-] & <-). split; [done|]. exists G2. by rewrite E1.
Qed.

(** ** Leaving a group *)

(** The members' links aside, what a process leaving the group [g] changes: the group goes
    when the process was its last. *)
Definition left_group (grp : loc -> option loc) (p g : loc) (s s' : pst) : Prop :=
  (same_core s s' /\ exists q, q <> p /\ grp q = Some g) \/
  ((forall q, grp q = Some g -> q = p) /\ exists s1, same_core s s1 /\ deleted g s1 s').

Lemma leave_list_spec grp J ex s p g : pg_inv mask grp J ex s -> grp p = Some g -> g ∉ ex ->
  Z.of_nat (size (ps_pgrps s)) < 2147483648 ->
  exists s', leave_list mask p g s = Some (tt, s') /\ left_group grp p g s s' /\ pg_inv mask (out p grp) J ex s'.
Proof.
  intros H Hp Hex Hsz. destruct (unlink_member mask grp J ex s p g H Hp) as (s1 & Hrun & Hco & H1 & l & Hc & Hl).
  destruct (pi_dom _ _ _ _ _ H p g Hp) as [_ [G HG]].
  assert (HG1 : exists G1, ps_pgrps s1 !! g = Some G1).
  { pose proof (sc_pgrps _ _ Hco g) as E. rewrite HG in E. destruct (ps_pgrps s1 !! g); [eauto|done]. }
  destruct HG1 as [G1 HG1]. unfold leave_list. unfold kbind at 1, kget at 1. unfold kbind at 1. rewrite Hrun. cbn [negb].
  unfold getpg, kbind at 1, kderef at 1. rewrite HG1.
  pose proof (chain_get _ _ _ _ Hc) as E. simpl in E. rewrite HG1 in E. injection E as E.
  destruct l as [|q l]; simpl in E; rewrite E.
  - assert (Hno : forall q, out p grp q <> Some g) by (intros q Hq; apply Hl in Hq; by apply elem_of_nil in Hq).
    destruct (pgdelete_spec (out p grp) J (ex ∪ {[g]}) s1 g H1) as (s' & Hr2 & Hd & H2); [eauto|done| |].
    { assert (size (ps_pgrps s1) = size (ps_pgrps s)) as ->; [|done]. rewrite <- !size_dom. f_equal. apply set_eq. intros h.
      rewrite !elem_of_dom. pose proof (sc_pgrps _ _ Hco h) as Eh.
      destruct (ps_pgrps s1 !! h), (ps_pgrps s !! h); simpl in Eh; split; intros []; eauto; done. }
    exists s'. split; [exact Hr2|]. split.
    + right. split; [|by exists s1]. intros q Hq. destruct (decide (q = p)) as [|Hne]; [done|].
      destruct (Hno q). unfold out. by rewrite decide_False.
    + assert (E2 : (ex ∪ {[g]}) ∖ {[g]} = ex) by (clear -Hex; set_solver). by rewrite E2 in H2.
  - assert (Hq : out p grp q = Some g) by (apply Hl; left).
    exists s1. split; [done|]. split.
    + left. split; [done|]. exists q. unfold out in Hq. case_decide; [done|]. done.
    + destruct H1 as [P1 P2 P3 P4 P5 P6 P7 P8 P9]. split; try done. intros h Gh Hh Hx.
      destruct (decide (h = g)) as [->|Hne]; [eauto|]. apply (P3 h Gh Hh). set_solver.
Qed.

(** ** Entering a group *)

Lemma enter_spec grp J ex s p x g : pg_inv mask grp J ex s -> ps_procs s !! p = Some x -> grp p = None -> is_Some (ps_pgrps s !! g) ->
  exists s', push (mem_link g) p (upd_procs (<[p := p_with_pgrp x (Some g)]>) s) = Some (tt, s') /\
    same_core (upd_procs (<[p := p_with_pgrp x (Some g)]>) s) s' /\ pg_inv mask (into p g grp) J (ex ∖ {[g]}) s'.
Proof.
  intros H Hx Hp [G HG]. set (s0 := upd_procs _ s).
  assert (Hn0 : forall q, pr_pgrpnxt <$> ps_procs s0 !! q = pr_pgrpnxt <$> ps_procs s !! q).
  { intros q. unfold s0. simpl. rewrite lookup_insert. case_decide; [subst; by rewrite Hx|done]. }
  assert (Hl0 : forall h pp, lk_get (mem_link h) pp s0 = lk_get (mem_link h) pp s) by (intros h [|j]; [done|apply Hn0]).
  assert (H0 : pg_inv mask grp J ex s0).
  { destruct H as [P1 P2 P3 P4 P5 P6 P7 P8 P9]. split; try done.
    - intros h Gh Hh. destruct (P1 h Gh Hh) as (l & Hc & Hr). exists l. split; [|done]. revert Hc. apply chain_frame. intros; apply Hl0.
    - intros q h Hq. destruct (P2 q h Hq) as [Hq1 Hq2]. split; [|done]. unfold s0. simpl. rewrite lookup_insert. case_decide; eauto.
    - intros h. destruct (P4 h) as (l & Hc & Hr). exists l. split; [|done]. revert Hc. apply chain_frame. by intros [|]. }
  destruct (pi_mem _ _ _ _ _ H0 g G HG) as (l & Hc & Hnd & Hl).
  assert (Hpl : p ∉ l) by (rewrite Hl; congruence).
  destruct (push_spec (mem_link g) s0 l p Hc Hpl) as [Hrun Hc'].
  { change (lk_get (mem_link g) (PNext p) s0) with (pr_pgrpnxt <$> ps_procs s0 !! p). rewrite Hn0, Hx. eauto. }
  set (s1 := lk_set (mem_link g) (PNext p) (head l) s0) in *. set (s2 := lk_set (mem_link g) PHead (Some p) s1) in *.
  destruct (mem_set_core g (PNext p) (head l) s0) as (Hco1 & Hpg1 & Hj1); [by eexists|].
  destruct (mem_set_core g PHead (Some p) s1) as (Hco2 & Hpg2 & Hj2); [by eexists|].
  exists s2. split; [done|]. assert (Hco : same_core s0 s2) by (by apply (same_core_trans _ s1)). split; [done|].
  apply (inv_relist mask grp _ J ex _ s0 _ g (p :: l)); try done.
  - intros h l2 Hh Hc2 Hg2. revert Hc2. apply chain_frame. intros [|j] Hj; simpl.
    + by rewrite lookup_alter_ne by done.
    + destruct Hj as [|(y & Hy & [= ->])]; [done|]. rewrite lookup_alter_ne; [done|]. intros ->. apply Hg2 in Hy. congruence.
  - by constructor.
  - intros q. rewrite elem_of_cons, Hl. unfold into. case_decide; naive_solver.
  - intros q h Hh. unfold into. case_decide; [|done]. subst. naive_solver.
  - intros q [->|Hq]%elem_of_cons; [unfold s0; simpl; rewrite lookup_insert_eq; eauto|].
    apply Hl in Hq. by apply (pi_dom _ _ _ _ _ H0 q g).
  - clear. set_solver.
Qed.

(** ** Making a group *)

(** The tables of [s] and a new group [g], without members, in the session [k]. *)
Record added (g k : loc) (pgid : Z) (s s' : pst) : Prop := {
  ad_procs q : pr_pgrpnxt <$> ps_procs s' !! q = pr_pgrpnxt <$> ps_procs s !! q;
  ad_pgrps h : (fun G => (pg_id G, pg_session G, pg_mem G, pg_jobc G)) <$> ps_pgrps s' !! h =
    if decide (h = g) then Some (pgid, k, None, 0) else (fun G => (pg_id G, pg_session G, pg_mem G, pg_jobc G)) <$> ps_pgrps s !! h;
  ad_sess l : l <> k -> ps_sess s' !! l = ps_sess s !! l;
  ad_k : exists e, ps_sess s' !! k = Some e /\
    s_count e = count (fun _ G => bool_decide (pg_session G = k)) (ps_pgrps s) + 1 /\
    forall t, s_ttyp e = Some t -> is_Some (ps_ttys s !! t);
  ad_ttys : ps_ttys s' = ps_ttys s;
  ad_sigs : ps_signals s' = ps_signals s }.

Lemma added_inv grp J s s' g k pgid : pg_inv mask grp J ∅ s -> added g k pgid s s' -> ps_pgrps s !! g = None -> J g = 0 ->
  (forall h G, ps_pgrps s !! h = Some G -> pg_id G <> pgid) ->
  (forall h, exists l, chain (pg_link h) s' PHead l /\ NoDup l /\
    forall j, j ∈ l <-> (j = g /\ h = PIDHASH mask pgid) \/ exists G, ps_pgrps s !! j = Some G /\ PIDHASH mask (pg_id G) = h) ->
  pg_inv mask grp J {[g]} s'.
Proof.
  intros H [Ap Ag As Ak At _] Hg0 HJ Hid Hhash.
  assert (Hno : forall q, grp q <> Some g). { intros q Hq. destruct (pi_dom _ _ _ _ _ H q g Hq) as [_ [G HG]]. congruence. }
  assert (Hg : forall h G, ps_pgrps s' !! h = Some G -> (h = g /\ pg_id G = pgid /\ pg_session G = k /\ pg_mem G = None /\ pg_jobc G = 0) \/
    h <> g /\ exists G1, ps_pgrps s !! h = Some G1 /\ pg_id G1 = pg_id G /\ pg_session G1 = pg_session G /\ pg_mem G1 = pg_mem G /\ pg_jobc G1 = pg_jobc G).
  { intros h G HG. pose proof (Ag h) as E. rewrite HG in E. case_decide; simpl in E.
    - left. injection E as ? ? ? ?. done.
    - right. split; [done|]. destruct (ps_pgrps s !! h) as [G1|]; [|done]. exists G1. simpl in *. by injection E. }
  assert (Hg2 : forall h G, ps_pgrps s !! h = Some G -> exists G', ps_pgrps s' !! h = Some G' /\ pg_id G' = pg_id G).
  { intros h G HG. pose proof (Ag h) as E. rewrite decide_False, HG in E by congruence. destruct (ps_pgrps s' !! h) as [G'|]; [|done].
    exists G'. by injection E. }
  assert (Hgg : exists G, ps_pgrps s' !! g = Some G /\ pg_id G = pgid /\ pg_session G = k).
  { pose proof (Ag g) as E. rewrite decide_True in E by done. destruct (ps_pgrps s' !! g) as [G|]; [|done]. exists G. by injection E. }
  assert (Hcnt : forall l, count (fun _ G => bool_decide (pg_session G = l)) (ps_pgrps s') =
    count (fun _ G => bool_decide (pg_session G = l)) (ps_pgrps s) + ind (bool_decide (k = l))).
  { intros l. destruct Hgg as (Gg & HGg & _ & Ek). rewrite (count_delete _ _ g Gg) by done. rewrite Ek. f_equal. apply count_agree.
    intros h. pose proof (Ag h) as E. destruct (decide (h = g)) as [->|Hh]; [by rewrite lookup_delete_eq, Hg0|].
    rewrite lookup_delete_ne by done. destruct (ps_pgrps s' !! h), (ps_pgrps s !! h); simpl in *; try done. by injection E as _ -> _ _. }
  destruct Ak as (ek & Hek & Eck & Etk). split.
  - intros h G HG. destruct (Hg _ _ HG) as [(-> & _ & _ & Em & _)|(Hh & G1 & HG1 & _ & _ & Em & _)].
    + exists []. split; [simpl; by rewrite HG; simpl; rewrite Em|]. split; [constructor|]. intros q. split; [by intros ?%elem_of_nil|].
      intros Hq. by destruct (Hno q).
    + destruct (pi_mem _ _ _ _ _ H h G1 HG1) as (l & Hc & Hnd & Hl). exists l. split; [|done]. revert Hc. apply chain_frame.
      intros [|j] _; simpl; [by rewrite HG, HG1; simpl; rewrite Em|apply Ap].
  - intros q h Hq. destruct (pi_dom _ _ _ _ _ H q h Hq) as [[x Hx] [G HG]]. split.
    + pose proof (Ap q) as E. rewrite Hx in E. destruct (ps_procs s' !! q); [eauto|done].
    + destruct (Hg2 h G HG) as (G' & HG' & _). eauto.
  - intros h G HG Hex. destruct (Hg _ _ HG) as [(-> & _)|(Hh & G1 & HG1 & _)]; [set_solver|]. by apply (pi_ne _ _ _ _ _ H h G1 HG1).
  - intros h. destruct (Hhash h) as (l & Hc & Hnd & Hl). exists l. split; [done|]. split; [done|]. intros j. rewrite Hl. split.
    + intros [[-> ->]|(G & HG & E)]; [destruct Hgg as (Gg & HGg & <- & _); eauto|].
      destruct (Hg2 j G HG) as (G' & HG' & E'). exists G'. by rewrite E'.
    + intros (G & HG & E). destruct (Hg _ _ HG) as [(-> & Ei & _)|(_ & G1 & HG1 & Ei & _)].
      * left. by rewrite <- E, Ei.
      * right. exists G1. by rewrite Ei.
  - intros g1 g2 G1 G2 H1 H2 E.
    destruct (Hg _ _ H1) as [(-> & E1 & _)|(_ & K1 & HK1 & E1 & _)], (Hg _ _ H2) as [(-> & E2 & _)|(_ & K2 & HK2 & E2 & _)].
    + done.
    + destruct (Hid _ _ HK2). congruence.
    + destruct (Hid _ _ HK1). congruence.
    + apply (pi_ids _ _ _ _ _ H g1 g2 K1 K2); congruence.
  - intros h G HG. destruct (Hg _ _ HG) as [(-> & _ & -> & _)|(Hh & G1 & HG1 & _ & Es & _)]; [eauto|].
    rewrite <- Es. destruct (decide (pg_session G1 = k)) as [->|Hne]; [eauto|]. rewrite As by done. by apply (pi_sess _ _ _ _ _ H h).
  - intros l e He. rewrite Hcnt. destruct (decide (l = k)) as [->|Hne].
    + rewrite Hek in He. injection He as <-. rewrite ind_true by done. split; [done|].
      pose proof (count_nonneg (fun _ G => bool_decide (pg_session G = k)) (ps_pgrps s)). lia.
    + rewrite As in He by done. rewrite ind_false by done. rewrite Z.add_0_r. by apply (pi_scount _ _ _ _ _ H).
  - intros l e t He Ht. rewrite At. destruct (decide (l = k)) as [->|Hne].
    + rewrite Hek in He. injection He as <-. by apply Etk.
    + rewrite As in He by done. by apply (pi_tty _ _ _ _ _ H l e).
  - intros h G HG. destruct (Hg _ _ HG) as [(-> & _ & _ & _ & ->)|(Hh & G1 & HG1 & _ & _ & _ & E)]; [done|].
    rewrite <- E. by apply (pi_jobc _ _ _ _ _ H).
Qed.

(** The session part of [new_pgrp]: a new session led by [p], or one more group in [k]. *)
Definition enter_session (p k l : loc) (x : proc) (e : session) (mk : bool) (s : pst) : pst :=
  if mk then upd_procs (<[p := p_with_flag x (Z.land (pr_flag x) (Z.lnot SCTTY))]>) (upd_sess (<[l := Session 1 p false None (s_login e)]>) s)
  else upd_sess (<[k := s_with_count e (s_count e + 1)]>) s.

Definition new_session (k : loc) (mk : bool) (s : pst) : loc := if mk then fresh (dom (ps_sess s)) else k.

(** The new group at the head of its hash chain. *)
Definition chain_group (g l : loc) (pgid : Z) (s : pst) : pst :=
  let s1 := upd_pgrps (<[g := Pgrp None None l pgid 0]>) s in
  let h := PIDHASH mask pgid in
  lk_set (pg_link h) PHead (Some g) (lk_set (pg_link h) (PNext g) (ps_pgrphash s !! h) s1).

Lemma new_pgrp_run s p x old G e pgid mk : ps_procs s !! p = Some x -> pr_pgrp x = Some old ->
  ps_pgrps s !! old = Some G -> ps_sess s !! pg_session G = Some e -> is_s32 (s_count e + 1) ->
  let g := fresh (dom (ps_pgrps s)) in let l := new_session (pg_session G) mk s in
  new_pgrp mask p pgid mk s = Some (g, chain_group g l pgid (enter_session p (pg_session G) l x e mk s)).
Proof.
  intros Hx Hold HG He Hc g l. unfold new_pgrp, group_of, session_of, getp, getpg, getss, setss, setp, push, lk_load, lk_store.
  kunf. rewrite Hx, Hold, HG, He. unfold enter_session, new_session in *. destruct mk; simpl.
  - rewrite Hx. reflexivity.
  - by rewrite s32_id by done.
Qed.

Lemma chain_group_frame g l pgid s : ps_procs (chain_group g l pgid s) = ps_procs s /\ ps_sess (chain_group g l pgid s) = ps_sess s /\
  ps_ttys (chain_group g l pgid s) = ps_ttys s /\
  forall k, (fun G => (pg_id G, pg_session G, pg_mem G, pg_jobc G)) <$> ps_pgrps (chain_group g l pgid s) !! k =
    if decide (k = g) then Some (pgid, l, None, 0) else (fun G => (pg_id G, pg_session G, pg_mem G, pg_jobc G)) <$> ps_pgrps s !! k.
Proof.
  split_and!; try done. intros k. unfold chain_group. simpl. case_decide.
  - subst. by rewrite lookup_alter_eq, lookup_insert_eq.
  - by rewrite lookup_alter_ne, lookup_insert_ne by done.
Qed.

Lemma chain_group_hash grp J s0 g l pgid s : pg_inv mask grp J ∅ s0 -> ps_pgrps s = ps_pgrps s0 -> ps_pgrphash s = ps_pgrphash s0 ->
  ps_pgrps s0 !! g = None -> forall h, exists r, chain (pg_link h) (chain_group g l pgid s) PHead r /\ NoDup r /\
    forall j, j ∈ r <-> (j = g /\ h = PIDHASH mask pgid) \/ exists G, ps_pgrps s0 !! j = Some G /\ PIDHASH mask (pg_id G) = h.
Proof.
  intros H Eg Eh Hg0 h. destruct (pi_hash _ _ _ _ _ H h) as (r & Hc & Hnd & Hr).
  assert (Hgr : g ∉ r) by (intros (G & HG & _)%Hr; congruence).
  set (s1 := upd_pgrps (<[g := Pgrp None None l pgid 0]>) s).
  assert (Hc1 : chain (pg_link h) s1 PHead r).
  { revert Hc. apply chain_frame. intros [|j] Hj; simpl; [by rewrite Eh|]. rewrite Eg, lookup_insert_ne; [done|].
    intros <-. by destruct Hj as [|(y & Hy & [= ->])]. }
  unfold chain_group. fold s1. destruct (decide (h = PIDHASH mask pgid)) as [<-|Hne].
  - exists (g :: r). destruct (push_spec (pg_link h) s1 r g Hc1 Hgr) as [_ Hc2]; [simpl; rewrite lookup_insert_eq; eauto|].
    pose proof (chain_get _ _ _ _ Hc1) as Eh1. simpl in Eh1. injection Eh1 as Eh1. rewrite <- Eh1 in Hc2.
    split; [exact Hc2|]. split; [by constructor|]. intros j. rewrite elem_of_cons, Hr. naive_solver.
  - exists r. split; [|split; [done|]].
    + apply hash_set_other; [done| |done]. apply hash_set_other; [done|done|]. by intros k [= <-].
    + intros j. rewrite Hr. naive_solver.
Qed.

Lemma new_pgrp_spec grp J s p x old G e pgid mk : pg_inv mask grp J ∅ s -> ps_procs s !! p = Some x -> pr_pgrp x = Some old ->
  ps_pgrps s !! old = Some G -> ps_sess s !! pg_session G = Some e ->
  (forall h G, ps_pgrps s !! h = Some G -> pg_id G <> pgid) -> Z.of_nat (size (ps_pgrps s)) < 2147483647 ->
  let g := fresh (dom (ps_pgrps s)) in let l := new_session (pg_session G) mk s in
  let s' := chain_group g l pgid (enter_session p (pg_session G) l x e mk s) in
  J g = 0 -> new_pgrp mask p pgid mk s = Some (g, s') /\ ps_pgrps s !! g = None /\ added g l pgid s s' /\ pg_inv mask grp J {[g]} s'.
Proof.
  intros H Hx Hold HG He Hid Hsz g l s' HJ. assert (Hg0 : ps_pgrps s !! g = None) by apply not_elem_of_dom, is_fresh.
  destruct (pi_scount _ _ _ _ _ H _ e He) as [Ec Hpos].
  pose proof (count_le (fun _ G0 => bool_decide (pg_session G0 = pg_session G)) (ps_pgrps s)) as Hle.
  set (s0 := enter_session p (pg_session G) l x e mk s) in *. destruct (chain_group_frame g l pgid s0) as (Ep & Es & Et & Eg).
  assert (Eg0 : ps_pgrps s0 = ps_pgrps s) by (unfold s0; by destruct mk).
  assert (Had : added g l pgid s s').
  { unfold s'. split.
    - intros q. rewrite Ep. unfold s0. destruct mk; simpl; [|done]. rewrite lookup_insert. case_decide; [subst; by rewrite Hx|done].
    - intros h. by rewrite Eg, Eg0.
    - intros j Hj. rewrite Es. unfold s0, l, new_session in *. destruct mk; simpl; by rewrite lookup_insert_ne by done.
    - rewrite Es. unfold s0. destruct mk; simpl.
      + exists (Session 1 p false None (s_login e)). rewrite lookup_insert_eq. split; [done|]. split; [|done].
        rewrite count_zero; [done|]. intros h G1 HG1. apply bool_decide_eq_false_2. intros El.
        destruct (pi_sess _ _ _ _ _ H h G1 HG1) as [e1 He1]. rewrite El in He1.
        assert (Hn : ps_sess s !! l = None) by (apply not_elem_of_dom, is_fresh). congruence.
      + unfold l, new_session. exists (s_with_count e (s_count e + 1)). rewrite lookup_insert_eq. split; [done|]. simpl. rewrite Ec.
        split; [done|]. intros t Ht. by apply (pi_tty _ _ _ _ _ H _ e t He).
    - rewrite Et. unfold s0. by destruct mk.
    - unfold s0. by destruct mk. }
  split; [|split; [done|split; [done|]]].
  - apply (new_pgrp_run s p x old G e); try done. unfold is_s32. lia.
  - apply (added_inv grp J s s' g l pgid); try done. apply (chain_group_hash grp J s); try done. unfold s0. by destruct mk.
Qed.
End Lists.
