(* ===== verification/PgrpJobc.v ===== *)
(** * Job control counts

    What [fixjobc] does to the counts of the groups, and why the two calls of [enterpgrp]
    leave in every group the number of the processes that qualify it. *)

From S2P Require Import Prelude Chain Count Proc PgrpInv PgrpLists.
Local Open Scope kern_scope.

(** ** Counting *)

Definition times (g : loc) (l : list loc) : Z := Z.of_nat (length (filter (fun h => h = g) l)).

Lemma times_app g l1 l2 : times g (l1 ++ l2) = times g l1 + times g l2.
Proof. unfold times. rewrite filter_app, length_app. lia. Qed.
Lemma times_nonneg g l : 0 <= times g l.
Proof. unfold times. lia. Qed.
Lemma times_le g l : times g l <= zlen l.
Proof. unfold times, zlen. pose proof (length_filter (fun h => h = g) l). lia. Qed.
Lemma times_one g h : times g [h] = ind (bool_decide (h = g)).
Proof.
  unfold times. rewrite filter_cons, filter_nil. case_decide as E; [by rewrite bool_decide_eq_true_2|by rewrite bool_decide_eq_false_2].
Qed.
Lemma times_in g l : 0 < times g l <-> g ∈ l.
Proof.
  unfold times. split.
  - intros H. destruct (filter _ l) as [|k r] eqn:E; [simpl in H; lia|]. assert (Hk : k ∈ filter (fun h => h = g) l) by (rewrite E; left).
    by apply list_elem_of_filter in Hk as [-> ?].
  - intros H. destruct (filter _ l) as [|k r] eqn:E; [|simpl; lia]. exfalso.
    assert (Hg : g ∈ filter (fun h => h = g) l) by (by apply list_elem_of_filter). rewrite E in Hg. by apply elem_of_nil in Hg.
Qed.

Fixpoint lsum (w : loc -> Z) (l : list loc) : Z := match l with [] => 0 | x :: r => w x + lsum w r end.

Lemma lsum_ext w w' l : (forall x, x ∈ l -> w x = w' x) -> lsum w l = lsum w' l.
Proof. induction l as [|x l IH]; intros H; simpl; [done|]. rewrite (H x), IH; set_solver. Qed.

Section Diff.
Context {A : Type} (f f' : loc -> A -> bool).

Definition ind_at (f : loc -> A -> bool) (m : gmap loc A) (l : loc) : Z := match m !! l with Some x => ind (f l x) | None => 0 end.

(** Two counts that agree outside a list. *)
Lemma count_diff m L : NoDup L -> (forall l, l ∈ L -> is_Some (m !! l)) ->
  (forall l x, m !! l = Some x -> l ∉ L -> f l x = f' l x) ->
  count f' m = count f m + lsum (fun l => ind_at f' m l - ind_at f m l) L.
Proof.
  intros Hnd. revert m. induction Hnd as [|a L Ha Hnd IH]; intros m Hin Heq; simpl.
  - rewrite Z.add_0_r. symmetry. apply count_ext. intros l x Hl. apply Heq; [done|]. apply not_elem_of_nil.
  - destruct (Hin a) as [x Hx]; [left|]. rewrite (count_delete f m a x), (count_delete f' m a x) by done.
    rewrite (IH (delete a m)).
    + unfold ind_at at 3 4. rewrite Hx. rewrite (lsum_ext (fun l => ind_at f' (delete a m) l - ind_at f (delete a m) l) (fun l => ind_at f' m l - ind_at f m l)); [lia|].
      intros l Hl. unfold ind_at. rewrite lookup_delete_ne; [done|]. intros ->. done.
    + intros l Hl. rewrite lookup_delete_ne; [apply Hin; by right|]. intros ->. done.
    + intros l y Hy Hl. apply lookup_delete_Some in Hy as [Hne Hy]. apply Heq; [done|]. intros [->|?]%elem_of_cons; done.
Qed.
End Diff.

(** A loop with a body that returns nothing. *)
Lemma each_as_acc {S} (L : link S) fuel p (body : loc -> K S unit) s :
  each L fuel p body s = each_acc L fuel p tt (fun _ => body) s.
Proof.
  revert p s. induction fuel as [|fuel IH]; intros [x|] s; try done. simpl. unfold kbind.
  destruct (body x s) as [[[] s1]|]; [|done]. destruct (lk_load L (PNext x) s1) as [[n s2]|]; [|done]. apply IH.
Qed.

(** ** The groups a call visits *)

Definition own_target (grp ses : loc -> option loc) (g : loc) (x : proc) : list loc :=
  match pr_pptr x ≫= grp with Some hg => if cond ses g hg then [g] else [] | None => [] end.
Definition kid_target (m : gmap loc proc) (grp ses : loc -> option loc) (g c : loc) : list loc :=
  match m !! c, grp c with
  | Some y, Some hg => if cond ses g hg && negb (pr_stat y =? SZOMB) then [hg] else []
  | _, _ => []
  end.
Fixpoint kid_targets (m : gmap loc proc) (grp ses : loc -> option loc) (g : loc) (l : list loc) : list loc :=
  match l with [] => [] | c :: r => kid_target m grp ses g c ++ kid_targets m grp ses g r end.

(** The groups whose count [fixjobc] changes, once for each time, when a process moves. *)
Definition targets (m : gmap loc proc) (grp ses : loc -> option loc) (g : loc) (x : proc) (kids : list loc) : list loc :=
  own_target grp ses g x ++ kid_targets m grp ses g kids.

Lemma kid_targets_app m grp ses g l1 l2 : kid_targets m grp ses g (l1 ++ l2) = kid_targets m grp ses g l1 ++ kid_targets m grp ses g l2.
Proof. induction l1 as [|c l1 IH]; simpl; [done|]. by rewrite IH, app_assoc. Qed.

Lemma times_kids m grp ses g h l : times h (kid_targets m grp ses g l) = lsum (fun c => times h (kid_target m grp ses g c)) l.
Proof. induction l as [|c l IH]; simpl; [done|]. by rewrite times_app, IH. Qed.

Lemma targets_len m grp ses g x kids : zlen (targets m grp ses g x kids) <= 1 + zlen kids.
Proof.
  unfold targets. rewrite zlen_app. assert (H1 : zlen (own_target grp ses g x) <= 1).
  { unfold own_target. destruct (_ ≫= _); [|done]. by destruct (cond _ _ _). }
  assert (H2 : zlen (kid_targets m grp ses g kids) <= zlen kids); [|lia].
  induction kids as [|c kids IH]; [done|]. simpl. rewrite zlen_app, zlen_cons.
  assert (zlen (kid_target m grp ses g c) <= 1); [|lia]. unfold kid_target. destruct (m !! c); [|done]. destruct (grp c); [|done]. by destruct (_ && _).
Qed.

(** ** The balance *)

Lemma cond_sym ses g h : cond ses g h = cond ses h g.
Proof. unfold cond. f_equal; [f_equal|]; apply bool_decide_ext; split; congruence. Qed.

(** The process [p], with children [kids], goes from [old] to [new]: the number of the
    processes that qualify a group changes by the visits of the two calls. *)
Lemma quals_move m grp ses p x old new kids g :
  m !! p = Some x -> pr_stat x <> SZOMB -> pr_pptr x <> Some p -> grp p = Some old ->
  NoDup kids -> (forall c, c ∈ kids <-> exists y, m !! c = Some y /\ pr_pptr y = Some p) ->
  count (qual (into p new grp) ses g) m = count (qual grp ses g) m +
    times g (targets m grp ses new x kids) - times g (targets m grp ses old x kids).
Proof.
  intros Hx Hz Hpp Hold Hnd Hk. assert (Hpk : p ∉ kids). { intros (y & Hy & Hyp)%Hk. congruence. }
  assert (Hi : forall q, q <> p -> into p new grp q = grp q) by (intros q Hq; unfold into; by rewrite decide_False).
  assert (Hip : into p new grp p = Some new) by (unfold into; by rewrite decide_True).
  rewrite (count_diff (qual grp ses g) (qual (into p new grp) ses g) m (p :: kids)).
  - simpl. unfold targets. rewrite !times_app, !times_kids.
    assert (E1 : ind_at (qual (into p new grp) ses g) m p - ind_at (qual grp ses g) m p =
      times g (own_target grp ses new x) - times g (own_target grp ses old x)).
    { unfold ind_at, qual, own_target. rewrite Hx, Hip, Hold. destruct (Z.eqb_spec (pr_stat x) SZOMB); [done|]. cbn [negb]. rewrite !andb_true_r.
      destruct (pr_pptr x) as [q|]; simpl; [|by rewrite !andb_false_r]. rewrite Hi by congruence. destruct (grp q) as [hg|]; [|by rewrite !andb_false_r].
      assert (Ho : forall o, ind (bool_decide (Some o = Some g) && cond ses g hg) = times g (if cond ses o hg then [o] else [])).
      { intros o. destruct (decide (o = g)) as [->|Hne].
        - rewrite bool_decide_eq_true_2 by done. destruct (cond ses g hg); [|done]. rewrite times_one. by rewrite bool_decide_eq_true_2.
        - rewrite bool_decide_eq_false_2 by congruence. destruct (cond ses o hg); [|done]. rewrite times_one. by rewrite bool_decide_eq_false_2. }
      by rewrite !Ho. }
    assert (E2 : lsum (fun l => ind_at (qual (into p new grp) ses g) m l - ind_at (qual grp ses g) m l) kids =
      lsum (fun c => times g (kid_target m grp ses new c)) kids - lsum (fun c => times g (kid_target m grp ses old c)) kids); [|lia].
    { assert (Hs : forall w1 w2 l, lsum (fun c => w1 c - w2 c) l = lsum w1 l - lsum w2 l).
      { intros w1 w2 l. induction l as [|c l IH]; simpl; lia. }
      rewrite <- Hs. apply lsum_ext. intros c Hc. assert (Hcp : c <> p) by congruence. apply Hk in Hc as (y & Hy & Hyp).
      unfold ind_at, qual, kid_target. rewrite Hy, Hyp, Hi by done. simpl. rewrite Hip, Hold. destruct (grp c) as [hc|]; [|done].
      assert (Ho : forall o, ind (bool_decide (Some hc = Some g) && negb (pr_stat y =? SZOMB) && cond ses g o) =
        times g (if cond ses o hc && negb (pr_stat y =? SZOMB) then [hc] else [])).
      { intros o. destruct (decide (hc = g)) as [->|Hne].
        - rewrite bool_decide_eq_true_2 by done. rewrite (cond_sym ses g o). destruct (cond ses o g), (pr_stat y =? SZOMB); simpl; try done.
          rewrite times_one. by rewrite bool_decide_eq_true_2.
        - rewrite bool_decide_eq_false_2 by congruence. destruct (cond ses o hc && _); [|done]. rewrite times_one. by rewrite bool_decide_eq_false_2. }
      by rewrite !Ho. }
  - by constructor.
  - intros l [->|Hl]%elem_of_cons; [eauto|]. apply Hk in Hl as (y & Hy & _). eauto.
  - intros l y Hy Hl. apply not_elem_of_cons in Hl as [Hlp Hlk]. unfold qual. rewrite Hi by done. f_equal.
    destruct (pr_pptr y) as [q|] eqn:Eq; [|done]. simpl. rewrite Hi; [done|]. intros ->. apply Hlk, Hk. eauto.
Qed.

(** ** The run of [fixjobc] *)

Section Run.
Context (mask : Z) (grp : loc -> option loc) (J : loc -> Z) (ex : gset loc).

(** The signal [ev] that [orphanpg] sends for the group [g]. *)
Definition hangup (m : gmap loc proc) (g : loc) (ev : loc * Z) : Prop :=
  grp ev.1 = Some g /\ (ev.2 = SHUP \/ ev.2 = SCONT) /\
  exists r y, grp r = Some g /\ m !! r = Some y /\ pr_stat y = SSTOP.

(** The state after the visits [T] from [s0]. *)
Record fixed (e : bool) (T : list loc) (s0 s : pst) : Prop := {
  fx_procs : ps_procs s = ps_procs s0;
  fx_pgrps g : (fun G => pg_with_jobc G 0) <$> ps_pgrps s !! g = (fun G => pg_with_jobc G 0) <$> ps_pgrps s0 !! g;
  fx_sess : ps_sess s = ps_sess s0;
  fx_ttys : ps_ttys s = ps_ttys s0;
  fx_hash : ps_pgrphash s = ps_pgrphash s0;
  fx_jobc g G : ps_pgrps s !! g = Some G -> pg_jobc G = J g + (if e then 1 else -1) * times g T;
  fx_sigs ev : ev ∈ ps_signals s <-> ev ∈ ps_signals s0 \/
    exists g, e = false /\ g ∈ T /\ J g - times g T = 0 /\ hangup (ps_procs s0) g ev }.

Lemma pg_eta G : pg_with_jobc (pg_with_jobc G 0) (pg_jobc G) = G.
Proof. by destruct G. Qed.

Lemma fixed_lookup e T s0 s g G : fixed e T s0 s -> ps_pgrps s !! g = Some G ->
  exists G0 j, ps_pgrps s0 !! g = Some G0 /\ G = pg_with_jobc G0 j.
Proof.
  intros H HG. pose proof (fx_pgrps _ _ _ _ H g) as E. rewrite HG in E. destruct (ps_pgrps s0 !! g) as [G0|]; [|done].
  exists G0, (pg_jobc G). split; [done|]. simpl in E. injection E as E1 E2 E3 E4. destruct G, G0. simpl in *. by subst.
Qed.

Lemma fixed_lookup2 e T s0 s g G : fixed e T s0 s -> ps_pgrps s0 !! g = Some G ->
  exists j, ps_pgrps s !! g = Some (pg_with_jobc G j).
Proof.
  intros H HG. pose proof (fx_pgrps _ _ _ _ H g) as E. rewrite HG in E. destruct (ps_pgrps s !! g) as [G0|] eqn:E0; [|done].
  destruct (fixed_lookup _ _ _ _ _ _ H E0) as (G1 & j & HG1 & ->). rewrite HG in HG1. injection HG1 as <-. by eexists.
Qed.

Lemma fixed_ses e T s0 s g : fixed e T s0 s -> ses_of s g = ses_of s0 g.
Proof.
  intros H. unfold ses_of. pose proof (fx_pgrps _ _ _ _ H g) as E.
  destruct (ps_pgrps s !! g), (ps_pgrps s0 !! g); simpl in *; try done. by injection E as _ _ -> _.
Qed.

(** The counts aside, the invariant is kept. *)
Lemma fixed_inv e T s0 s J' : pg_inv mask grp J ex s0 -> fixed e T s0 s ->
  (forall g, J' g = J g + (if e then 1 else -1) * times g T) -> pg_inv mask grp J' ex s.
Proof.
  intros H HF HJ. pose proof H as [P1 P2 P3 P4 P5 P6 P7 P8 P9]. split.
  - intros g G HG. destruct (fixed_lookup _ _ _ _ _ _ HF HG) as (G0 & j & HG0 & ->). destruct (P1 g G0 HG0) as (l & Hc & Hr).
    exists l. split; [|done]. revert Hc. apply chain_frame. intros [|k] _; simpl; [by rewrite HG, HG0|by rewrite (fx_procs _ _ _ _ HF)].
  - intros q g Hq. destruct (P2 q g Hq) as [Hx [G HG]]. rewrite (fx_procs _ _ _ _ HF). split; [done|].
    destruct (fixed_lookup2 _ _ _ _ _ _ HF HG) as [j ->]. eauto.
  - intros g G HG Hg. destruct (fixed_lookup _ _ _ _ _ _ HF HG) as (G0 & j & HG0 & _). by apply (P3 g G0).
  - intros h. destruct (P4 h) as (l & Hc & Hnd & Hl). exists l. split; [|split; [done|]].
    + revert Hc. apply chain_frame. intros [|j] _; simpl; [by rewrite (fx_hash _ _ _ _ HF)|].
      pose proof (fx_pgrps _ _ _ _ HF j) as E. destruct (ps_pgrps s !! j), (ps_pgrps s0 !! j); simpl in *; try done. by injection E as -> _ _ _.
    + intros g. rewrite Hl. split; intros (G & HG & E).
      * destruct (fixed_lookup2 _ _ _ _ _ _ HF HG) as [j Hj]. by eexists.
      * destruct (fixed_lookup _ _ _ _ _ _ HF HG) as (G0 & j & HG0 & ->). by exists G0.
  - intros g1 g2 G1 G2 H1 H2 E. destruct (fixed_lookup _ _ _ _ _ _ HF H1) as (K1 & j1 & HK1 & ->).
    destruct (fixed_lookup _ _ _ _ _ _ HF H2) as (K2 & j2 & HK2 & ->). by apply (P5 g1 g2 K1 K2).
  - intros g G HG. destruct (fixed_lookup _ _ _ _ _ _ HF HG) as (G0 & j & HG0 & ->). rewrite (fx_sess _ _ _ _ HF). by apply (P6 g G0).
  - intros l e0 He. rewrite (fx_sess _ _ _ _ HF) in He. destruct (P7 l e0 He) as [E Hp]. split; [|done]. rewrite E. apply count_agree.
    intros g. pose proof (fx_pgrps _ _ _ _ HF g) as Eg. destruct (ps_pgrps s !! g), (ps_pgrps s0 !! g); simpl in *; try done. by injection Eg as _ _ -> _.
  - intros l e0 t He Ht. rewrite (fx_sess _ _ _ _ HF) in He. rewrite (fx_ttys _ _ _ _ HF). by apply (P8 l e0).
  - intros g G HG. by rewrite HJ, (fx_jobc _ _ _ _ HF g G).
Qed.

(** ** Hanging up an orphaned group *)

Definition hup (sigs : list (loc * Z)) (q : loc) : list (loc * Z) := (q, SCONT) :: (q, SHUP) :: sigs.
Definition with_signals (s : pst) (v : list (loc * Z)) : pst :=
  Pst (ps_procs s) (ps_pgrps s) (ps_sess s) (ps_ttys s) (ps_pidhash s) (ps_pgrphash s) (ps_allproc s) (ps_zombproc s) v.

Lemma elem_hups l : forall sigs ev, ev ∈ foldl hup sigs l <-> ev ∈ sigs \/ (ev.1 ∈ l /\ (ev.2 = SHUP \/ ev.2 = SCONT)).
Proof.
  induction l as [|q l IH]; intros sigs [q' sg]; simpl.
  - rewrite elem_of_nil. tauto.
  - rewrite IH. unfold hup. rewrite !elem_of_cons. simpl. split.
    + intros [[E|[E|?]]|?]; [injection E as -> ->|injection E as -> ->|..]; tauto.
    + intros [?|[[->|?] [->| ->]]]; tauto.
Qed.

Lemma orphanpg_run s g G l : ps_pgrps s !! g = Some G -> chain (mem_link g) s PHead l -> NoDup l ->
  (forall q, q ∈ l -> is_Some (ps_procs s !! q)) ->
  exists v, orphanpg g s = Some (tt, with_signals s v) /\ forall ev, ev ∈ v <-> ev ∈ ps_signals s \/
    (ev.1 ∈ l /\ (ev.2 = SHUP \/ ev.2 = SCONT) /\ exists r y, r ∈ l /\ ps_procs s !! r = Some y /\ pr_stat y = SSTOP).
Proof.
  intros HG Hc Hnd Hdom. pose proof (chain_get _ _ _ _ Hc) as Eh. simpl in Eh. rewrite HG in Eh. injection Eh as Eh.
  assert (Hlen : (length l <= nproc s)%nat) by (by apply NoDup_keys_size).
  assert (Htl : match l with [] => True | x :: l' => chain (mem_link g) s (PNext x) l' end) by (destruct l; [done|by destruct Hc]).
  set (b := fun q => match ps_procs s !! q with Some y => pr_stat y =? SSTOP | None => false end).
  unfold orphanpg. unfold kbind at 1, kget at 1. unfold getpg, kbind at 1, kderef at 1. rewrite HG. unfold kbind at 1.
  rewrite (find_first_chain (mem_link g) (nproc s) s (pg_mem G) l _ b).
  2:{ intros q Hq. destruct (Hdom q Hq) as [y Hy]. unfold getp, b. kunf. by rewrite Hy. }
  2-4: done.
  destruct (filter b l) as [|q0 r] eqn:Ef; simpl.
  - exists (ps_signals s). split; [by destruct s|]. intros ev. split; [tauto|]. intros [?|(_ & _ & r & y & Hr & Hy & Hst)]; [done|].
    assert (Hin : r ∈ filter b l). { apply list_elem_of_filter. split; [|done]. unfold b. rewrite Hy, Hst. done. }
    rewrite Ef in Hin. by apply elem_of_nil in Hin.
  - exists (foldl hup (ps_signals s) l).
    destruct (each_chain (mem_link g) (nproc s) s (pg_mem G) l (fun l => do! kmod (psignal l SHUP) in kmod (psignal l SCONT))
      (fun q s => with_signals s (hup (ps_signals s) q)) (fun _ => True)) as [Hrun _]; try done.
    rewrite Hrun. split.
    + do 2 f_equal. clear. revert s. induction l as [|q l IH]; intros s; [by destruct s|]. simpl. by rewrite IH.
    + intros ev. rewrite elem_hups. assert (Hq0 : q0 ∈ filter b l) by (rewrite Ef; left). apply list_elem_of_filter in Hq0 as [Hb Hq0].
      unfold b in Hb. destruct (ps_procs s !! q0) as [y|] eqn:Hy; [|done]. apply Is_true_true, Z.eqb_eq in Hb. naive_solver.
Qed.

(** ** One visit *)

Lemma bump_step e T s0 s g : pg_inv mask grp J ex s0 -> fixed e T s0 s -> is_Some (ps_pgrps s0 !! g) ->
  0 <= J g < 1073741823 -> times g T < 1073741823 -> (e = false -> times g T + 1 <= J g) ->
  exists s', bump_jobc e g s = Some (tt, s') /\ fixed e (T ++ [g]) s0 s'.
Proof.
  intros H HF [G0 HG0] HJ HT He. destruct (fixed_lookup2 _ _ _ _ _ _ HF HG0) as [j Hj].
  pose proof (fx_jobc _ _ _ _ HF g _ Hj) as Ej. simpl in Ej. pose proof (times_nonneg g T) as Hn.
  set (j' := j + if e then 1 else -1). set (s1 := upd_pgrps (<[g := pg_with_jobc G0 j']>) s).
  assert (HF1 : forall h G, ps_pgrps s1 !! h = Some G -> pg_jobc G = J h + (if e then 1 else -1) * times h (T ++ [g])).
  { intros h G. unfold s1. simpl. rewrite times_app, times_one, lookup_insert. case_decide as Eh.
    - subst h. intros [= <-]. simpl. rewrite ind_true by done. unfold j'. rewrite Ej. destruct e; lia.
    - intros HG. rewrite (fx_jobc _ _ _ _ HF h G HG), ind_false by done. by rewrite Z.add_0_r. }
  assert (Hpg : forall h, (fun G => pg_with_jobc G 0) <$> ps_pgrps s1 !! h = (fun G => pg_with_jobc G 0) <$> ps_pgrps s0 !! h).
  { intros h. rewrite <- (fx_pgrps _ _ _ _ HF h). unfold s1. simpl. rewrite lookup_insert. case_decide; [subst; by rewrite Hj|done]. }
  assert (Hsigs : forall v, (forall ev, ev ∈ v <-> ev ∈ ps_signals s \/ (e = false /\ j' = 0 /\ hangup (ps_procs s0) g ev)) ->
    fixed e (T ++ [g]) s0 (with_signals s1 v)).
  { intros v Hv. destruct HF as [F1 F2 F3 F4 F5 F6 F7]. split; try done. intros ev. cbn [with_signals ps_signals]. rewrite Hv, F7. split.
    - intros [[?|(h & Ee & Hh & Hz & Hup)]|(Ee & Hz & Hup)]; [by left|right; exists h|right; exists g]; (split; [done|]).
      + split; [apply elem_of_app; by left|]. split; [|done]. rewrite times_app, times_one, ind_false; [lia|].
        intros ->. specialize (He Ee). lia.
      + split; [apply elem_of_app; right; left|]. split; [|done]. rewrite times_app, times_one, ind_true by done.
        unfold j' in Hz. rewrite Ee in Hz, Ej. lia.
    - intros [?|(h & Ee & Hh & Hz & Hup)]; [by left; left|]. rewrite times_app, times_one in Hz.
      destruct (decide (g = h)) as [->|Hne].
      + right. split; [done|]. split; [|done]. rewrite ind_true in Hz by done. unfold j'. rewrite Ee in Ej |- *. lia.
      + left. right. exists h. split; [done|]. rewrite ind_false in Hz by done. split; [|split; [lia|done]].
        apply elem_of_app in Hh as [?|Hh]; [done|]. apply list_elem_of_singleton in Hh. congruence. }
  unfold bump_jobc, getpg, setpg, kbind at 1, kderef at 1. rewrite Hj. destruct e.
  - exists s1. cbn [pg_jobc pg_with_jobc]. rewrite s32_id by (unfold is_s32; lia). split; [done|].
    replace s1 with (with_signals s1 (ps_signals s)) by done. apply Hsigs. intros ev. split; [by left|]. by intros [?|[? _]].
  - cbn [pg_jobc pg_with_jobc]. rewrite s32_id by (unfold is_s32; specialize (He eq_refl); lia).
    change (pg_with_jobc (pg_with_jobc G0 j) (j - 1)) with (pg_with_jobc G0 j'). unfold kbind at 1, kmod at 1. fold s1. fold j'.
    change (j - 1) with j'. destruct (Z.eqb_spec j' 0) as [Ez|Hnz].
    + destruct (pi_mem _ _ _ _ _ H g G0 HG0) as (l & Hc & Hnd & Hl).
      assert (Hp1 : ps_procs s1 = ps_procs s0) by apply (fx_procs _ _ _ _ HF).
      destruct (orphanpg_run s1 g (pg_with_jobc G0 j') l) as (v & Hrun & Hv).
      * unfold s1. simpl. by rewrite lookup_insert_eq.
      * revert Hc. apply chain_frame. intros [|k] _; [|cbn [lk_get mem_link]; by rewrite Hp1].
        unfold s1. simpl. by rewrite lookup_insert_eq, HG0.
      * done.
      * intros q Hq. rewrite Hp1. apply Hl in Hq. by apply (pi_dom _ _ _ _ _ H q g).
      * exists (with_signals s1 v). split; [done|]. apply Hsigs. intros ev. rewrite Hv, Hp1, Hl. unfold hangup.
        assert (Hst : (exists r y, r ∈ l /\ ps_procs s0 !! r = Some y /\ pr_stat y = SSTOP) <->
          exists r y, grp r = Some g /\ ps_procs s0 !! r = Some y /\ pr_stat y = SSTOP) by (split; intros (r & y & Hr & ?); exists r, y; by rewrite Hl in *).
        rewrite Hst. tauto.
    + exists s1. split; [done|]. replace s1 with (with_signals s1 (ps_signals s)) by done. apply Hsigs. intros ev. split; [by left|].
      by intros [?|(_ & ? & _)].
Qed.

(** ** The call *)

Lemma fixed_nil e s : pg_inv mask grp J ex s -> fixed e [] s s.
Proof.
  intros H. split; try done.
  - intros g G HG. rewrite (pi_jobc _ _ _ _ _ H g G HG). unfold times. simpl. lia.
  - intros ev. split; [by left|]. intros [?|(g & _ & Hg & _)]; [done|]. by apply elem_of_nil in Hg.
Qed.

Lemma grp_pgrps s q g : pg_inv mask grp J ex s -> grp q = Some g -> exists G, ps_pgrps s !! g = Some G.
Proof. intros H Hq. by destruct (pi_dom _ _ _ _ _ H q g Hq) as [_ [G HG]]; eauto. Qed.

Lemma decide_cond ses g hg : (hg <> g /\ ses hg = ses g) <-> cond ses g hg = true.
Proof. unfold cond. rewrite andb_true_iff, negb_true_iff, bool_decide_eq_false, bool_decide_eq_true. done. Qed.

Section Call.
Context (e : bool) (s0 : pst) (p g : loc) (x : proc) (kids : list loc).
Hypothesis H : pg_inv mask grp J ex s0.
Hypothesis Hgrp : forall q y, ps_procs s0 !! q = Some y -> pr_pgrp y = grp q.
Hypothesis Hx : ps_procs s0 !! p = Some x.
Hypothesis Hpar : exists q hg, pr_pptr x = Some q /\ grp q = Some hg.
Hypothesis Hkids : chain (child_link p) s0 PHead kids.
Hypothesis Hnd : NoDup kids.
Hypothesis Hkg : forall c, c ∈ kids -> exists y hg, ps_procs s0 !! c = Some y /\ grp c = Some hg.
Hypothesis Hg : is_Some (ps_pgrps s0 !! g).
Hypothesis HJ : forall h, 0 <= J h < 1073741823.
Hypothesis Hlen : 1 + zlen kids < 1073741823.
Let T := targets (ps_procs s0) grp (ses_of s0) g x kids.
Hypothesis He : e = false -> forall h, times h T <= J h.

Lemma visit_step pre h post s : T = pre ++ h :: post -> fixed e pre s0 s -> is_Some (ps_pgrps s0 !! h) ->
  exists s', bump_jobc e h s = Some (tt, s') /\ fixed e (pre ++ [h]) s0 s'.
Proof.
  intros E HF Hh. pose proof (targets_len (ps_procs s0) grp (ses_of s0) g x kids) as Hl. fold T in Hl.
  assert (Ht : times h T = times h pre + 1 + times h post).
  { rewrite E, times_app. change (h :: post) with ([h] ++ post). rewrite times_app, times_one, ind_true by done. lia. }
  pose proof (times_le h T). pose proof (times_nonneg h post). pose proof HJ as HJ0.
  apply (bump_step e pre s0 s h H HF Hh); [apply HJ0|lia|]. intros Ee. pose proof (He Ee h). lia.
Qed.

(** The group of a process of the tables, read in any state of the loop. *)
Lemma read_group s T0 q hg y : fixed e T0 s0 s -> ps_procs s0 !! q = Some y -> grp q = Some hg ->
  group_of q s = Some (hg, s) /\ session_of hg s = (match ses_of s0 hg with Some l => Some (l, s) | None => None end).
Proof.
  intros HF Hy Hq. split.
  - unfold group_of, getp. kunf. rewrite (fx_procs _ _ _ _ HF), Hy. by rewrite (Hgrp q y Hy), Hq.
  - unfold session_of, getpg. kunf. rewrite <- (fixed_ses _ _ _ _ hg HF). unfold ses_of. by destruct (ps_pgrps s !! hg).
Qed.

Lemma kid_visit c pre post s l : kids = pre ++ c :: post -> ses_of s0 g = Some l ->
  fixed e (own_target grp (ses_of s0) g x ++ kid_targets (ps_procs s0) grp (ses_of s0) g pre) s0 s ->
  exists s', (let! y := getp c in
       let! hispgrp := knonnull (pr_pgrp y) in
       let! hissession := session_of hispgrp in
       if decide (hispgrp <> g /\ hissession = l /\ pr_stat y <> SZOMB) then bump_jobc e hispgrp else kret tt) s = Some (tt, s') /\
    fixed e (own_target grp (ses_of s0) g x ++ kid_targets (ps_procs s0) grp (ses_of s0) g (pre ++ [c])) s0 s'.
Proof.
  intros Ek Hl HF. destruct (Hkg c) as (y & hg & Hy & Hc); [rewrite Ek; apply elem_of_app; right; left|].
  destruct (grp_pgrps s0 c hg H Hc) as [G HG].
  assert (Hsh : ses_of s0 hg = Some (pg_session G)) by (unfold ses_of; by rewrite HG).
  destruct (read_group s _ c hg y HF Hy Hc) as [_ Rs]. rewrite Hsh in Rs.
  unfold getp. unfold kbind at 1, kderef at 1. rewrite (fx_procs _ _ _ _ HF), Hy, (Hgrp c y Hy), Hc. unfold kbind at 1, knonnull at 1.
  unfold kbind at 1. rewrite Rs. rewrite kid_targets_app. simpl. rewrite app_nil_r.
  assert (Hkt : kid_target (ps_procs s0) grp (ses_of s0) g c = if cond (ses_of s0) g hg && negb (pr_stat y =? SZOMB) then [hg] else []).
  { unfold kid_target. by rewrite Hy, Hc. }
  rewrite Hkt, app_assoc.
  assert (Hd : (hg <> g /\ pg_session G = l /\ pr_stat y <> SZOMB) <-> cond (ses_of s0) g hg && negb (pr_stat y =? SZOMB) = true).
  { rewrite andb_true_iff, <- decide_cond, Hsh, Hl, negb_true_iff, Z.eqb_neq. split; [intros (? & -> & ?); done|intros [[? [= ->]] ?]; done]. }
  case_decide as Hdec.
  - apply Hd in Hdec. rewrite Hdec in *. apply (visit_step _ hg (kid_targets (ps_procs s0) grp (ses_of s0) g post)); [|done|by exists G].
    unfold T, targets. rewrite Ek, kid_targets_app. simpl. rewrite Hkt. by rewrite <- app_assoc.
  - destruct (cond _ _ _ && _); [by destruct Hdec; apply Hd|]. exists s. rewrite app_nil_r. done.
Qed.

Lemma fixjobc_run : exists s', fixjobc p g e s0 = Some (tt, s') /\ fixed e T s0 s'.
Proof.
  destruct Hpar as (q & hg & Hq & Hhg). pose proof (fixed_nil e s0 H) as HF0. destruct Hg as [G HG].
  assert (Hsg : ses_of s0 g = Some (pg_session G)) by (unfold ses_of; by rewrite HG).
  destruct (pi_dom _ _ _ _ _ H q hg Hhg) as [[y Hy] [Gh HGh]].
  assert (Hsh : ses_of s0 hg = Some (pg_session Gh)) by (unfold ses_of; by rewrite HGh).
  destruct (read_group s0 [] q hg y HF0 Hy Hhg) as [Rg Rs]. rewrite Hsh in Rs.
  unfold fixjobc. unfold kbind at 1, kget at 1. unfold session_of at 1, getpg at 1. unfold kbind at 1, kbind at 1, kderef at 1. rewrite HG.
  unfold kret at 1. unfold getp at 1. unfold kbind at 1, kderef at 1. rewrite Hx. unfold kbind at 1, knonnull at 1. rewrite Hq.
  unfold kbind at 1. rewrite Rg. unfold kbind at 1. rewrite Rs.
  assert (Ho : own_target grp (ses_of s0) g x = if cond (ses_of s0) g hg then [g] else []) by (unfold own_target; by rewrite Hq; simpl; rewrite Hhg).
  assert (Hd : (hg <> g /\ pg_session Gh = pg_session G) <-> cond (ses_of s0) g hg = true).
  { rewrite <- decide_cond, Hsh, Hsg. split; [intros (? & ->); done|intros [? [= ->]]; done]. }
  assert (H1 : exists s1, (if decide (hg <> g /\ pg_session Gh = pg_session G) then bump_jobc e g else kret tt) s0 = Some (tt, s1) /\
    fixed e (own_target grp (ses_of s0) g x ++ kid_targets (ps_procs s0) grp (ses_of s0) g []) s0 s1).
  { simpl. rewrite app_nil_r. case_decide as Hdec.
    - apply Hd in Hdec. rewrite Ho, Hdec. apply (visit_step [] g (kid_targets (ps_procs s0) grp (ses_of s0) g kids)); [|done|by exists G].
      unfold T, targets. by rewrite Ho, Hdec.
    - rewrite Ho. destruct (cond _ _ _); [by destruct Hdec; apply Hd|]. by exists s0. }
  destruct H1 as (s1 & Hr1 & HF1). unfold kbind at 1. rewrite Hr1. rewrite each_as_acc.
  pose proof (chain_get _ _ _ _ Hkids) as Ekc. simpl in Ekc. rewrite Hx in Ekc. injection Ekc as Ekc.
  edestruct (each_acc_chain (child_link p) (nproc s0) s1 (pr_cptr x) kids tt) with (I := fun (_ : unit) s pre =>
    fixed e (own_target grp (ses_of s0) g x ++ kid_targets (ps_procs s0) grp (ses_of s0) g pre) s0 s) as (u & s' & Hrun & HF' & _).
  - intros u c s pre post Ek HF. destruct (kid_visit c pre post s _ Ek Hsg HF) as (s' & Hr & HF').
    exists tt, s'. split; [exact Hr|]. split; [done|]. intros k _. simpl. by rewrite (fx_procs _ _ _ _ HF'), (fx_procs _ _ _ _ HF).
  - exact HF1.
  - done.
  - pose proof Hkids as Hc0. destruct kids as [|c r]; [done|]. destruct Hc0 as [_ Hc]. revert Hc. apply chain_frame.
    intros [|k] _; simpl; by rewrite (fx_procs _ _ _ _ HF1).
  - apply NoDup_keys_size; [done|]. intros c Hc. destruct (Hkg c Hc) as (z & ? & Hz & _). eauto.
  - destruct u. exists s'. split; [exact Hrun|]. exact HF'.
Qed.
End Call.
End Run.
