(* ===== verification/PgrpMove.v ===== *)
(** * From one process group to another

    The part of [enterpgrp] that moves a process, on tables that satisfy the invariant. *)

From S2P Require Import Prelude Chain Count Proc PgrpInv PgrpLists PgrpJobc.
Local Open Scope kern_scope.

(** ** Equal views *)

Lemma qual_ext grp grp' ses ses' g q x : (forall k, grp' k = grp k) -> (forall k h, grp k = Some h -> ses' h = ses h) ->
  qual grp' ses' g q x = qual grp ses g q x.
Proof.
  intros Hg Hs. unfold qual. rewrite Hg. destruct (decide (grp q = Some g)) as [Hq|Hq]; [|by rewrite !bool_decide_eq_false_2].
  f_equal. destruct (pr_pptr x) as [k|]; [|done]. simpl. rewrite Hg.
  destruct (grp k) as [h|] eqn:E; [|done]. unfold cond. by rewrite (Hs q g Hq), (Hs k h E).
Qed.

Lemma quals_ext grp grp' ses ses' g (m m' : gmap loc proc) :
  (forall q, (fun x => (pr_stat x, pr_pptr x)) <$> m' !! q = (fun x => (pr_stat x, pr_pptr x)) <$> m !! q) ->
  (forall k, grp' k = grp k) -> (forall k h, grp k = Some h -> ses' h = ses h) ->
  count (qual grp' ses' g) m' = count (qual grp ses g) m.
Proof.
  intros Hm Hg Hs. apply count_agree. intros q. pose proof (Hm q) as E.
  destruct (m' !! q) as [y|], (m !! q) as [x|]; simpl in *; try done. injection E as E1 E2. f_equal.
  rewrite <- (qual_ext grp grp' ses ses' g q x) by done. unfold qual. by rewrite E1, E2.
Qed.

Lemma targets_ext m grp ses ses' g x kids : (forall h, ses' h = ses h) -> targets m grp ses' g x kids = targets m grp ses g x kids.
Proof.
  intros H. assert (Hc : forall a b, cond ses' a b = cond ses a b) by (intros; unfold cond; by rewrite !H).
  unfold targets. f_equal.
  - unfold own_target. destruct (_ ≫= _); [|done]. by rewrite Hc.
  - induction kids as [|c r IH]; simpl; [done|]. f_equal; [|done]. unfold kid_target. destruct (m !! c), (grp c); try done. by rewrite Hc.
Qed.

Lemma pg_inv_ext mask grp grp' J J' ex s : (forall q, grp' q = grp q) -> (forall g, is_Some (ps_pgrps s !! g) -> J' g = J g) ->
  pg_inv mask grp J ex s -> pg_inv mask grp' J' ex s.
Proof.
  intros Hg HJ [P1 P2 P3 P4 P5 P6 P7 P8 P9]. split; try done.
  - intros g G HG. destruct (P1 g G HG) as (l & Hc & Hnd & Hl). exists l. split; [done|]. split; [done|]. intros q. by rewrite Hg.
  - intros q g. rewrite Hg. apply P2.
  - intros g G HG Hx. destruct (P3 g G HG Hx) as [q Hq]. exists q. by rewrite Hg.
  - intros g G HG. rewrite HJ by eauto. by apply P9.
Qed.

(** What a process is apart from its group, flags and links. *)
Definition ident_fields (x : proc) := (pr_stat x, pr_pid x, pr_pptr x, pr_osptr x, pr_ysptr x, pr_cptr x).

Lemma ident_kids s s' : (forall q, ident_fields <$> ps_procs s' !! q = ident_fields <$> ps_procs s !! q) -> kids_ok s -> kids_ok s'.
Proof.
  intros H Hk p x Hx. pose proof (H p) as E. rewrite Hx in E. destruct (ps_procs s !! p) as [x0|] eqn:Hx0; [|done].
  destruct (Hk p x0 Hx0) as (l & Hc & Hnd & Hl). exists l. split; [|split; [done|]].
  - revert Hc. apply chain_frame. intros [|j] _; simpl.
    + rewrite Hx, Hx0. simpl. by injection E as _ _ _ _ _ ->.
    + pose proof (H j) as Ej. destruct (ps_procs s' !! j), (ps_procs s !! j); simpl in *; try done. by injection Ej as _ _ _ -> _ _.
  - intros c. rewrite Hl. pose proof (H c) as Ec.
    split; intros (y & Hy & Hp); rewrite Hy in Ec; [destruct (ps_procs s' !! c) as [z|]|destruct (ps_procs s !! c) as [z|]]; try done;
      exists z; (split; [done|]); injection Ec as _ _ Ep _ _ _; congruence.
Qed.

(** ** Leaving *)

Section Left.
Context (grp : loc -> option loc) (p g : loc) (s s' : pst).
Hypothesis H : left_group grp p g s s'.

Lemma left_procs q : (fun x => p_with_pgrpnxt x None) <$> ps_procs s' !! q = (fun x => p_with_pgrpnxt x None) <$> ps_procs s !! q.
Proof. destruct H as [[Hc _]|(_ & s1 & Hc & Hd)]; [apply Hc|]. rewrite (dl_procs _ _ _ Hd). apply Hc. Qed.

Lemma left_sigs : ps_signals s' = ps_signals s.
Proof. destruct H as [[Hc _]|(_ & s1 & Hc & Hd)]; [apply Hc|]. rewrite (dl_sigs _ _ _ Hd). apply Hc. Qed.

Lemma left_pgrps h : h <> g \/ (exists q, q <> p /\ grp q = Some g) ->
  (fun G => (pg_id G, pg_session G)) <$> ps_pgrps s' !! h = (fun G => (pg_id G, pg_session G)) <$> ps_pgrps s !! h.
Proof.
  intros Hh. destruct H as [[Hc _]|(Hall & s1 & Hc & Hd)]; [apply Hc|]. destruct Hh as [Hh|(q & Hq & Hg)]; [|by destruct Hq; apply Hall].
  rewrite <- (sc_pgrps _ _ Hc). pose proof (dl_pgrps _ _ _ Hd h) as E. rewrite decide_False in E by done.
  destruct (ps_pgrps s' !! h), (ps_pgrps s1 !! h); simpl in *; try done. by injection E as -> -> _ _.
Qed.

Lemma left_gone : (forall q, grp q = Some g -> q = p) -> ps_pgrps s' !! g = None.
Proof.
  intros Hall. destruct H as [[_ (q & Hq & Hg)]|(_ & s1 & Hc & Hd)]; [by destruct Hq; apply Hall|].
  pose proof (dl_pgrps _ _ _ Hd g) as E. rewrite decide_True in E by done. by destruct (ps_pgrps s' !! g).
Qed.

Lemma left_sess l : ses_of s g <> Some l \/ (exists q, q <> p /\ grp q = Some g) -> ps_sess s' !! l = ps_sess s !! l.
Proof.
  intros Hh. destruct H as [[Hc _]|(Hall & s1 & Hc & Hd)]; [by rewrite (sc_sess _ _ Hc)|].
  destruct Hh as [Hh|(q & Hq & Hg)]; [|by destruct Hq; apply Hall].
  rewrite (dl_sess _ _ _ Hd), (sc_sess _ _ Hc), (core_ses _ _ _ Hc). destruct (ps_sess s !! l); [by rewrite decide_False|done].
Qed.

Lemma left_sgone l e : (forall q, grp q = Some g -> q = p) -> ses_of s g = Some l -> ps_sess s !! l = Some e ->
  ps_sess s' !! l = if s_count e =? 1 then None else Some (s_with_count e (s_count e - 1)).
Proof.
  intros Hall Hs He. destruct H as [[_ (q & Hq & Hg)]|(_ & s1 & Hc & Hd)]; [by destruct Hq; apply Hall|].
  rewrite (dl_sess _ _ _ Hd), (sc_sess _ _ Hc), (core_ses _ _ _ Hc), He. by rewrite decide_True.
Qed.
End Left.

(** ** The move *)

(** The body of [enterpgrp] once the new group is there. *)
Definition move (mask : Z) (p g old : loc) : K pst unit :=
  do! fixjobc p g true in
  do! fixjobc p old false in
  do! leave_list mask p old in
  let! x := getp p in
  do! setp p (p_with_pgrp x (Some g)) in
  push (mem_link g) p.

(** What the move of [p] from [old] to [new] leaves. *)
Record moved (p new old : loc) (s s' : pst) : Prop := {
  mv_procs q : ident_fields <$> ps_procs s' !! q = ident_fields <$> ps_procs s !! q;
  mv_flag q : pr_flag <$> ps_procs s' !! q = pr_flag <$> ps_procs s !! q;
  mv_grp q : grp_of s' q = into p new (grp_of s) q;
  mv_pgrps g : g <> old \/ (exists q, q <> p /\ grp_of s q = Some old) ->
    (fun G => (pg_id G, pg_session G)) <$> ps_pgrps s' !! g = (fun G => (pg_id G, pg_session G)) <$> ps_pgrps s !! g;
  mv_gone : (forall q, grp_of s q = Some old -> q = p) -> ps_pgrps s' !! old = None;
  mv_sess l : ses_of s old <> Some l \/ (exists q, q <> p /\ grp_of s q = Some old) -> ps_sess s' !! l = ps_sess s !! l;
  mv_sgone l e : (forall q, grp_of s q = Some old -> q = p) -> ses_of s old = Some l -> ps_sess s !! l = Some e ->
    ps_sess s' !! l = if s_count e =? 1 then None else Some (s_with_count e (s_count e - 1));
  mv_sigs ev : ev ∈ ps_signals s' <-> ev ∈ ps_signals s \/ exists g, 0 < quals s (grp_of s) g /\
    count (qual (into p new (grp_of s)) (ses_of s) g) (ps_procs s) = 0 /\ hangup (grp_of s) (ps_procs s) g ev }.

Section Move.
Context (mask : Z) (s : pst) (p new old par : loc) (x : proc) (ex : gset loc).
Let grp := grp_of s.
Hypothesis H : pg_inv mask grp (quals s grp) ex s.
Hypothesis Hk : kids_ok s.
Hypothesis Hgr : forall q y, ps_procs s !! q = Some y -> is_Some (pr_pgrp y).
Hypothesis Hsz : Z.of_nat (size (ps_procs s)) < 268435456.
Hypothesis Hx : ps_procs s !! p = Some x.
Hypothesis Hz : pr_stat x <> SZOMB.
Hypothesis Hold : pr_pgrp x = Some old.
Hypothesis Hpar : pr_pptr x = Some par.
Hypothesis Hpp : par <> p.
Hypothesis Hpe : is_Some (ps_procs s !! par).
Hypothesis Hnew : is_Some (ps_pgrps s !! new).
Hypothesis Hne : new <> old.
Hypothesis Hex : old ∉ ex.
Hypothesis Hes : Z.of_nat (size ex) <= 1.
Hypothesis Hsub : ex ⊆ {[new]}.

Lemma grp_pr q y : ps_procs s !! q = Some y -> pr_pgrp y = grp q.
Proof. intros Hy. unfold grp, grp_of. by rewrite Hy. Qed.

Lemma grp_some q y : ps_procs s !! q = Some y -> exists h, grp q = Some h.
Proof. intros Hy. destruct (Hgr q y Hy) as [h Hh]. exists h. by rewrite <- (grp_pr q y). Qed.

Lemma grp_p : grp p = Some old.
Proof. by rewrite <- (grp_pr p x). Qed.


Lemma quals_bound g : 0 <= quals s grp g <= Z.of_nat (size (ps_procs s)).
Proof. split; [apply count_nonneg|apply count_le]. Qed.

(** The number of processes that will qualify a group. *)
Let Q' (g : loc) : Z := count (qual (into p new grp) (ses_of s) g) (ps_procs s).

(** A visit on leaving is a visit of a group that a process qualifies. *)
Lemma visited_old kids g : (forall c, c ∈ kids -> exists y, ps_procs s !! c = Some y /\ pr_pptr y = Some p) ->
  g ∈ targets (ps_procs s) grp (ses_of s) old x kids -> 0 < quals s grp g.
Proof.
  intros Hc. unfold targets. rewrite elem_of_app. intros [Ho|Hkid].
  - unfold own_target in Ho. rewrite Hpar in Ho. simpl in Ho. destruct (grp par) as [hg|] eqn:Eg; [|by apply elem_of_nil in Ho].
    destruct (cond (ses_of s) old hg) eqn:Ec; [|by apply elem_of_nil in Ho]. apply list_elem_of_singleton in Ho as ->.
    apply Z.lt_le_trans with 1; [lia|]. apply (count_pos _ _ p x Hx). unfold qual. rewrite grp_p, bool_decide_eq_true_2 by done.
    rewrite Hpar. simpl. rewrite Eg, Ec. by destruct (Z.eqb_spec (pr_stat x) SZOMB).
  - induction kids as [|c r IH]; [by apply elem_of_nil in Hkid|]. simpl in Hkid. apply elem_of_app in Hkid as [Hkid|Hkid].
    + destruct (Hc c) as (y & Hy & Hyp); [left|]. unfold kid_target in Hkid. rewrite Hy in Hkid.
      destruct (grp c) as [h|] eqn:Eg; [|by apply elem_of_nil in Hkid].
      destruct (cond (ses_of s) old h && _) eqn:Ec; [|by apply elem_of_nil in Hkid]. apply list_elem_of_singleton in Hkid as ->.
      apply andb_true_iff in Ec as [Ec En].
      apply Z.lt_le_trans with 1; [lia|]. apply (count_pos _ _ c y Hy). unfold qual. rewrite Eg, bool_decide_eq_true_2 by done.
      rewrite Hyp. simpl. rewrite grp_p, cond_sym, Ec. by rewrite En.
    + apply IH; [|done]. intros k Hk'. apply Hc. by right.
Qed.

(** The two calls of [fixjobc]. *)
Lemma counts_run : exists s3, (do! fixjobc p new true in fixjobc p old false) s = Some (tt, s3) /\
  pg_inv mask grp Q' ex s3 /\ ps_procs s3 = ps_procs s /\ ps_sess s3 = ps_sess s /\
  (forall g, (fun G => pg_with_jobc G 0) <$> ps_pgrps s3 !! g = (fun G => pg_with_jobc G 0) <$> ps_pgrps s !! g) /\
  forall ev, ev ∈ ps_signals s3 <-> ev ∈ ps_signals s \/ exists g, 0 < quals s grp g /\ Q' g = 0 /\ hangup grp (ps_procs s) g ev.
Proof.
  destruct (Hk p x Hx) as (kids & Hc & Hnd & Hkl).
  assert (Hkg : forall c, c ∈ kids -> exists y hg, ps_procs s !! c = Some y /\ grp c = Some hg).
  { intros c (y & Hy & _)%Hkl. destruct (grp_some c y Hy) as [hg Hhg]. eauto. }
  assert (Hlen : zlen kids < 268435456).
  { assert (length kids <= nproc s)%nat; [|unfold zlen, nproc in *; lia]. apply NoDup_keys_size; [done|]. intros c (y & Hy & _)%Hkl. eauto. }
  assert (Hpg : exists q hg, pr_pptr x = Some q /\ grp q = Some hg).
  { destruct Hpe as [y Hy]. destruct (grp_some par y Hy) as [hg Hhg]. eauto. }
  set (T1 := targets (ps_procs s) grp (ses_of s) new x kids). set (T2 := targets (ps_procs s) grp (ses_of s) old x kids).
  assert (Hb : forall g, Q' g = quals s grp g + times g T1 - times g T2).
  { intros g. apply quals_move; try done. - congruence. - apply grp_p. }
  destruct (fixjobc_run mask grp (quals s grp) ex true s p new x kids) as (s2 & Hr1 & F1); try done.
  { intros q y. apply grp_pr. } { intros h. pose proof (quals_bound h). lia. } { lia. }
  fold T1 in F1. set (J1 := fun g => quals s grp g + 1 * times g T1).
  assert (H2 : pg_inv mask grp J1 ex s2) by (by apply (fixed_inv mask grp (quals s grp) ex true T1 s)).
  assert (Hses : forall g, ses_of s2 g = ses_of s g) by (intros g; by apply (fixed_ses _ _ _ _ _ _ _ F1)).
  assert (E2 : targets (ps_procs s2) grp (ses_of s2) old x kids = T2).
  { unfold T2. rewrite (fx_procs _ _ _ _ _ _ F1). by apply targets_ext. }
  destruct (fixjobc_run mask grp J1 ex false s2 p old x kids) as (s3 & Hr2 & F2); try done.
  { intros q y. rewrite (fx_procs _ _ _ _ _ _ F1). apply grp_pr. }
  { by rewrite (fx_procs _ _ _ _ _ _ F1). }
  { revert Hc. apply chain_frame. intros [|j] _; simpl; by rewrite (fx_procs _ _ _ _ _ _ F1). }
  { intros c Hc'. rewrite (fx_procs _ _ _ _ _ _ F1). by apply Hkg. }
  { destruct (pi_dom _ _ _ _ _ H2 p old grp_p) as [_ ?]. done. }
  { intros h. unfold J1. pose proof (quals_bound h). pose proof (times_le h T1). pose proof (times_nonneg h T1).
    pose proof (targets_len (ps_procs s) grp (ses_of s) new x kids). fold T1 in H4. lia. }
  { lia. }
  { intros _ h. rewrite E2. unfold J1. pose proof (count_nonneg (qual (into p new grp) (ses_of s) h) (ps_procs s)) as Hn.
    fold (Q' h) in Hn. rewrite Hb in Hn. lia. }
  rewrite E2 in F2. exists s3. split; [unfold kbind; by rewrite Hr1|]. split.
  { apply (fixed_inv mask grp J1 ex false T2 s2); try done. intros g. rewrite Hb. unfold J1. lia. }
  split; [by rewrite (fx_procs _ _ _ _ _ _ F2), (fx_procs _ _ _ _ _ _ F1)|].
  split; [by rewrite (fx_sess _ _ _ _ _ _ F2), (fx_sess _ _ _ _ _ _ F1)|].
  split; [intros g; by rewrite (fx_pgrps _ _ _ _ _ _ F2), (fx_pgrps _ _ _ _ _ _ F1)|].
  intros ev. rewrite (fx_sigs _ _ _ _ _ _ F2), (fx_sigs _ _ _ _ _ _ F1), (fx_procs _ _ _ _ _ _ F1). split.
  - intros [[?|(g & ? & _)]|(g & _ & Hg & Hz0 & Hup)]; [by left|done|]. right. exists g.
    split; [apply (visited_old kids); [intros c; by apply Hkl|done]|]. split; [|done]. rewrite Hb. unfold J1 in Hz0. lia.
  - intros [?|(g & Hp0 & Hz0 & Hup)]; [by left; left|]. right. exists g. split; [done|]. rewrite Hb in Hz0.
    pose proof (times_nonneg g T1). split; [apply times_in; lia|]. split; [unfold J1; lia|done].
Qed.

Lemma move_run : exists s', move mask p new old s = Some (tt, s') /\ moved p new old s s' /\
  pg_inv mask (into p new grp) Q' ∅ s'.
Proof.
  destruct counts_run as (s3 & Hr3 & H3 & Ep3 & Es3 & Eg3 & Hsig).
  assert (Hcg : forall g, (fun G => (pg_id G, pg_session G)) <$> ps_pgrps s3 !! g = (fun G => (pg_id G, pg_session G)) <$> ps_pgrps s !! g).
  { intros g. pose proof (Eg3 g) as E. destruct (ps_pgrps s3 !! g), (ps_pgrps s !! g); simpl in *; try done. by injection E as _ _ -> ->. }
  assert (Hs3 : forall g, ses_of s3 g = ses_of s g).
  { intros g. unfold ses_of. pose proof (Hcg g) as E. destruct (ps_pgrps s3 !! g), (ps_pgrps s !! g); simpl in *; try done. by injection E as _ ->. }
  destruct (leave_list_spec mask grp Q' ex s3 p old H3 grp_p Hex) as (s4 & Hr4 & Hl & H4).
  { pose proof (pgrps_bound mask grp Q' ex s3 H3) as Hb. rewrite Ep3 in Hb. lia. }
  assert (Hx4 : exists n, ps_procs s4 !! p = Some (p_with_pgrpnxt x n)).
  { pose proof (left_procs _ _ _ _ _ Hl p) as E. rewrite Ep3, Hx in E. destruct (ps_procs s4 !! p) as [y|]; [|done].
    exists (pr_pgrpnxt y). simpl in E. injection E as E1 E2 E3 E4 E5 E6 E7 E8 E9 E10 E11 E12. destruct y; simpl in *. by rewrite E1, E2, E3, E4, E5, E6, E7, E8, E9, E10, E11, E12. }
  destruct Hx4 as [n Hx4].
  assert (Hn4 : is_Some (ps_pgrps s4 !! new)).
  { pose proof (left_pgrps _ _ _ _ _ Hl new (or_introl Hne)) as E. rewrite Hcg in E. destruct Hnew as [G HG]. rewrite HG in E.
    destruct (ps_pgrps s4 !! new); [eauto|done]. }
  destruct (enter_spec mask (out p grp) Q' ex s4 p _ new H4 Hx4) as (s5 & Hr5 & Hc5 & H5); [unfold out; by rewrite decide_True|done|].
  exists s5. split; [|split].
  - unfold move. unfold kbind in Hr3 |- *. destruct (fixjobc p new true s) as [[[] s2]|]; [|done]. rewrite Hr3, Hr4.
    unfold getp, kderef, setp, kmod. rewrite Hx4. exact Hr5.
  - assert (Hp5 : forall q y, ps_procs s !! q = Some y -> exists m, ps_procs s5 !! q =
        Some (p_with_pgrpnxt (if decide (q = p) then p_with_pgrp y (Some new) else y) m)).
    { intros q y Hy. pose proof (left_procs _ _ _ _ _ Hl q) as E4. rewrite Ep3, Hy in E4. destruct (ps_procs s4 !! q) as [y4|] eqn:Hy4; [|done].
      destruct (core_proc _ _ q (if decide (q = p) then p_with_pgrp y4 (Some new) else y4) Hc5) as [m Hm].
      { simpl. rewrite lookup_insert. repeat case_decide; subst; try done. by simplify_eq. }
      exists m. rewrite Hm. f_equal. simpl in E4. injection E4 as E1 E2 E3 E4' E5 E6 E7 E8 E9 E10 E11 E12.
      destruct y4, y; case_decide; simpl in *; by subst. }
    assert (Hp6 : forall q, ps_procs s !! q = None -> ps_procs s5 !! q = None).
    { intros q Hq. pose proof (sc_procs _ _ Hc5 q) as E5. pose proof (left_procs _ _ _ _ _ Hl q) as E4. rewrite Ep3, Hq in E4. simpl in E5.
      rewrite lookup_insert_ne in E5 by congruence. destruct (ps_procs s4 !! q), (ps_procs s5 !! q); done. }
    split.
    + intros q. destruct (ps_procs s !! q) as [y|] eqn:Hy; [destruct (Hp5 q y Hy) as [m ->]; by case_decide|by rewrite Hp6].
    + intros q. destruct (ps_procs s !! q) as [y|] eqn:Hy; [destruct (Hp5 q y Hy) as [m ->]; by case_decide|by rewrite Hp6].
    + intros q. unfold grp_of at 1, into. destruct (ps_procs s !! q) as [y|] eqn:Hy.
      * destruct (Hp5 q y Hy) as [m ->]. case_decide; [done|]. unfold grp_of. by rewrite Hy.
      * rewrite Hp6 by done. case_decide; [congruence|]. unfold grp_of. by rewrite Hy.
    + intros g Hg. etrans; [apply (sc_pgrps _ _ Hc5)|]. etrans; [by apply (left_pgrps _ _ _ _ _ Hl)|apply Hcg].
    + intros Hall. pose proof (sc_pgrps _ _ Hc5 old) as E. simpl in E. rewrite (left_gone _ _ _ _ _ Hl Hall) in E. by destruct (ps_pgrps s5 !! old).
    + intros l Hg. rewrite (sc_sess _ _ Hc5). simpl. rewrite <- Es3. apply (left_sess _ _ _ _ _ Hl). by rewrite Hs3.
    + intros l e Hall Hg He. rewrite (sc_sess _ _ Hc5). simpl. apply (left_sgone _ _ _ _ _ Hl); [done|by rewrite Hs3|by rewrite Es3].
    + intros ev. rewrite (sc_sigs _ _ Hc5). simpl. by rewrite (left_sigs _ _ _ _ _ Hl).
  - assert (E : ex ∖ {[new]} = ∅) by (clear -Hsub; set_solver). rewrite E in H5.
    revert H5. apply pg_inv_ext; [|done]. intros q. unfold into, out. by case_decide.
Qed.
End Move.
