(* ===== verification/PgrpSafety.v ===== *)
(** * Process groups and sessions

    The properties of [enterpgrp], [leavepgrp] and [setsid]: the tables stay consistent,
    the job control counts are exact, and a group is hung up when it is orphaned. *)

From S2P Require Import Prelude Chain Count Proc PgrpInv PgrpLists PgrpJobc PgrpMove.
Local Open Scope kern_scope.

Section Ops.
Context (mask : Z).

Lemma procs_size s s' : (forall q, ident_fields <$> ps_procs s' !! q = ident_fields <$> ps_procs s !! q) ->
  size (ps_procs s') = size (ps_procs s).
Proof.
  intros H. rewrite <- !size_dom. f_equal. apply set_eq. intros q. rewrite !elem_of_dom. pose proof (H q) as E.
  destruct (ps_procs s' !! q), (ps_procs s !! q); simpl in E; split; intros []; eauto; done.
Qed.

Lemma ident_stat s s' : (forall q, ident_fields <$> ps_procs s' !! q = ident_fields <$> ps_procs s !! q) ->
  forall q, (fun x => (pr_stat x, pr_pptr x)) <$> ps_procs s' !! q = (fun x => (pr_stat x, pr_pptr x)) <$> ps_procs s !! q.
Proof.
  intros H q. pose proof (H q) as E. destruct (ps_procs s' !! q), (ps_procs s !! q); simpl in *; try done.
  by injection E as -> _ -> _ _ _.
Qed.

Lemma quals_empty m grp ses g : (forall q, grp q <> Some g) -> count (qual grp ses g) m = 0.
Proof. intros H. apply count_zero. intros q x _. unfold qual. by rewrite bool_decide_eq_false_2. Qed.

(** After the move the counts are those of the new state. *)
Lemma moved_quals p new old s s' g : new <> old -> moved p new old s s' ->
  quals s' (grp_of s') g = count (qual (into p new (grp_of s)) (ses_of s) g) (ps_procs s).
Proof.
  intros Hne Hm. apply quals_ext; [apply ident_stat, Hm|apply (mv_grp _ _ _ _ _ Hm)|].
  intros k h Hk. assert (E : h <> old \/ exists q, q <> p /\ grp_of s q = Some old).
  { destruct (decide (h = old)) as [->|]; [right; exists k|by left]. unfold into in Hk. case_decide; [congruence|done]. }
  pose proof (mv_pgrps _ _ _ _ _ Hm h E) as Eg. unfold ses_of.
  destruct (ps_pgrps s' !! h), (ps_pgrps s !! h); simpl in *; try done. by injection Eg as _ ->.
Qed.

Lemma moved_ok p new old s s' : new <> old -> moved p new old s s' -> kids_ok s ->
  (forall q y, ps_procs s !! q = Some y -> is_Some (pr_pgrp y)) -> Z.of_nat (size (ps_procs s)) < 268435456 ->
  pg_inv mask (into p new (grp_of s)) (fun g => count (qual (into p new (grp_of s)) (ses_of s) g) (ps_procs s)) ∅ s' -> pg_ok mask s'.
Proof.
  intros Hne Hm Hk Hg Hs H. split.
  - revert H. apply pg_inv_ext; [apply (mv_grp _ _ _ _ _ Hm)|]. intros g _. by apply moved_quals with (p := p) (new := new) (old := old).
  - apply (ident_kids s); [apply Hm|done].
  - intros q y Hy. pose proof (mv_grp _ _ _ _ _ Hm q) as E. unfold grp_of, into in E. rewrite Hy in E. simpl in E. rewrite E.
    case_decide; [eauto|]. pose proof (mv_procs _ _ _ _ _ Hm q) as Ei. rewrite Hy in Ei.
    destruct (ps_procs s !! q) as [z|] eqn:Hz; [|done]. simpl. by apply (Hg q z).
  - by rewrite (procs_size s s') by apply Hm.
Qed.

(** ** The call *)

(** What [enterpgrp] needs of the process. *)
Record movable (s : pst) (p : loc) (x : proc) (par old : loc) (G : pgrp) : Prop := {
  mb_proc : ps_procs s !! p = Some x;
  mb_live : pr_stat x <> SZOMB;
  mb_par : pr_pptr x = Some par;
  mb_other : par <> p;
  mb_parent : is_Some (ps_procs s !! par);
  mb_old : pr_pgrp x = Some old;
  mb_group : ps_pgrps s !! old = Some G }.

(** Into a group there is. *)
Lemma enter_old s p x par old G g K : pg_ok mask s -> movable s p x par old G -> g <> old -> ps_pgrps s !! g = Some K ->
  exists s', move mask p g old s = Some (tt, s') /\ moved p g old s s' /\ pg_ok mask s'.
Proof.
  intros [H Hk Hg Hs] [M1 M2 M3 M4 M5 M6 M7] Hne HK.
  destruct (move_run mask s p g old par x ∅) as (s' & Hr & Hm & Hi); try done; [done..|].
  exists s'. split; [done|]. split; [done|]. by apply (moved_ok p g old s).
Qed.

(** Into a new group: the state with the group, and the move from there. *)
Lemma enter_new s p x par old G e pgid mk : pg_ok mask s -> movable s p x par old G -> ps_sess s !! pg_session G = Some e ->
  (forall h K, ps_pgrps s !! h = Some K -> pg_id K <> pgid) ->
  let g := fresh (dom (ps_pgrps s)) in let l := new_session (pg_session G) mk s in
  let s1 := chain_group mask g l pgid (enter_session p (pg_session G) l x e mk s) in
  exists s', new_pgrp mask p pgid mk s = Some (g, s1) /\ ps_pgrps s !! g = None /\ added g l pgid s s1 /\
    (forall q, grp_of s1 q = grp_of s q) /\ (forall h, quals s1 (grp_of s1) h = quals s (grp_of s) h) /\
    move mask p g old s1 = Some (tt, s') /\ moved p g old s1 s' /\ pg_ok mask s'.
Proof.
  intros [H Hk Hg Hs] [M1 M2 M3 M4 M5 M6 M7] He Hid g l s1.
  assert (Hg0 : ps_pgrps s !! g = None) by apply not_elem_of_dom, is_fresh.
  pose proof (pgrps_bound mask _ _ _ _ H) as Hb. rewrite size_empty in Hb.
  assert (Hno : forall q, grp_of s q <> Some g). { intros q Hq. destruct (pi_dom _ _ _ _ _ H q g Hq) as [_ [K HK]]. congruence. }
  destruct (new_pgrp_spec mask (grp_of s) (quals s (grp_of s)) s p x old G e pgid mk) as (Hr & _ & Had & H1); try done; [lia|by apply quals_empty|].
  fold g l s1 in Hr, Had, H1.
  set (x1 := if mk then p_with_flag x (Z.land (pr_flag x) (Z.lnot SCTTY)) else x).
  assert (Hp1 : forall q, ps_procs s1 !! q = if decide (q = p) then Some x1 else ps_procs s !! q).
  { intros q. change (ps_procs s1) with (ps_procs (enter_session p (pg_session G) l x e mk s)). unfold enter_session, x1.
    destruct mk; simpl; [rewrite lookup_insert; repeat case_decide; congruence|case_decide; congruence]. }
  assert (Hx1 : pr_pgrp x1 = Some old /\ pr_stat x1 = pr_stat x /\ pr_pptr x1 = pr_pptr x /\ ident_fields x1 = ident_fields x) by (unfold x1; by destruct mk).
  destruct Hx1 as (X1 & X2 & X3 & X4).
  assert (Hid1 : forall q, ident_fields <$> ps_procs s1 !! q = ident_fields <$> ps_procs s !! q).
  { intros q. rewrite Hp1. case_decide; [subst; rewrite M1; simpl; by rewrite X4|done]. }
  assert (Hgr : forall q, grp_of s1 q = grp_of s q).
  { intros q. unfold grp_of. rewrite Hp1. case_decide; [subst; rewrite M1; simpl; congruence|done]. }
  assert (Hq : forall h, quals s1 (grp_of s1) h = quals s (grp_of s) h).
  { intros h. apply quals_ext; [by apply ident_stat|done|]. intros k j Hj. unfold ses_of. pose proof (ad_pgrps _ _ _ _ _ Had j) as E.
    rewrite decide_False in E by (intros ->; by apply (Hno k)). destruct (ps_pgrps s1 !! j), (ps_pgrps s !! j); simpl in *; try done. by injection E as _ -> _ _. }
  assert (Hgd : g <> old) by congruence.
  destruct (move_run mask s1 p g old par x1 {[g]}) as (s' & Hr2 & Hm & Hi).
  - revert H1. apply pg_inv_ext; [done|]. intros h _. apply Hq.
  - by apply (ident_kids s).
  - intros q y. rewrite Hp1. case_decide; [intros [= <-]; rewrite X1; eauto|apply Hg].
  - by rewrite (procs_size s s1).
  - rewrite Hp1. by rewrite decide_True.
  - congruence.
  - done.
  - congruence.
  - done.
  - rewrite Hp1. by rewrite decide_False.
  - pose proof (ad_pgrps _ _ _ _ _ Had g) as E. rewrite decide_True in E by done. destruct (ps_pgrps s1 !! g); [eauto|done].
  - done.
  - clear -Hgd. set_solver.
  - rewrite size_singleton. lia.
  - set_solver.
  - exists s'. split; [done|]. split; [done|]. split; [done|]. split; [done|]. split; [done|]. split; [done|]. split; [done|].
    apply (moved_ok p g old s1); try done.
    + by apply (ident_kids s).
    + intros q y. rewrite Hp1. case_decide; [intros [= <-]; rewrite X1; eauto|apply Hg].
    + by rewrite (procs_size s s1).
Qed.

(** The state in which the new group is there. *)
Definition with_group (p g : loc) (x : proc) (G : pgrp) (e : session) (pgid : Z) (mk : bool) (s s1 : pst) : Prop :=
  (s1 = s /\ exists K, ps_pgrps s !! g = Some K /\ pg_id K = pgid) \/
  let l := new_session (pg_session G) mk s in
  (forall h K, ps_pgrps s !! h = Some K -> pg_id K <> pgid) /\ ps_pgrps s !! g = None /\ added g l pgid s s1 /\
  s1 = chain_group mask g l pgid (enter_session p (pg_session G) l x e mk s).

Lemma enterpgrp_run s p x par old G e pgid mk : pg_ok mask s -> movable s p x par old G -> ps_sess s !! pg_session G = Some e ->
  pg_id G <> pgid ->
  exists s1 s' g, enterpgrp mask p pgid mk s = Some (tt, s') /\ pg_ok mask s' /\ g <> old /\ with_group p g x G e pgid mk s s1 /\
    (forall q, grp_of s1 q = grp_of s q) /\ (forall h, quals s1 (grp_of s1) h = quals s (grp_of s) h) /\ moved p g old s1 s'.
Proof.
  intros Hok M He Hid. destruct (pgfind_spec mask _ _ _ s pgid (ok_inv _ _ Hok)) as (r & Hf & Hr).
  assert (Hgo : group_of p s = Some (old, s)) by (unfold group_of, getp; kunf; by rewrite (mb_proc _ _ _ _ _ _ M), (mb_old _ _ _ _ _ _ M)).
  unfold enterpgrp. unfold kbind at 1. rewrite Hf. unfold kbind at 1. rewrite Hgo. destruct r as [g|].
  - destruct Hr as (K & HK & HKi). assert (Hne : g <> old) by (intros ->; pose proof (mb_group _ _ _ _ _ _ M); congruence).
    rewrite decide_False by congruence.
    destruct (enter_old s p x par old G g K Hok M Hne HK) as (s' & Hm & Hmv & Hok').
    exists s, s', g. split; [exact Hm|]. split; [done|]. split; [done|]. split; [left; eauto|]. done.
  - rewrite decide_False by done.
    destruct (enter_new s p x par old G e pgid mk Hok M He Hr) as (s' & Hn & Hg0 & Had & Hgr & Hq & Hm & Hmv & Hok').
    eexists _, s', _. unfold kbind at 1. rewrite Hn. split; [exact Hm|]. split; [done|].
    split; [intros E; rewrite E in Hg0; pose proof (mb_group _ _ _ _ _ _ M); congruence|]. split; [right; eauto|]. done.
Qed.

(** C30. Moving a process to another process group, made for it if there is none of that
    number, keeps the tables consistent: [enterpgrp] returns, and afterwards every group is
    on its hash chain and has a distinct number, its list holds its members without
    repetition and is not empty, the reference count of every session is the number of its
    groups, and [pg_jobc] of every group is exactly the number of its live members whose
    parent is in another group of the same session.  The process is in the group with the
    number asked for, the others where they were, families and process numbers are
    unchanged; a new group is in the session of the old one, or with [mksess] in a new
    session that the process leads; a group that is left without members is gone. *)
Theorem enterpgrp_keeps s p x par old G pgid mk :
  pg_ok mask s -> movable s p x par old G -> pg_id G <> pgid -> (mk = true -> forall h K, ps_pgrps s !! h = Some K -> pg_id K <> pgid) ->
  exists s' g K, enterpgrp mask p pgid mk s = Some (tt, s') /\ pg_ok mask s' /\
    grp_of s' p = Some g /\ ps_pgrps s' !! g = Some K /\ pg_id K = pgid /\
    (forall q, q <> p -> grp_of s' q = grp_of s q) /\
    (forall q, ident_fields <$> ps_procs s' !! q = ident_fields <$> ps_procs s !! q) /\
    (forall h, is_Some (ps_pgrps s !! h) -> (exists q, grp_of s' q = Some h) -> ses_of s' h = ses_of s h) /\
    (ps_pgrps s !! g = None -> if mk then ps_sess s !! pg_session K = None /\ s_leader <$> ps_sess s' !! pg_session K = Some p
      else pg_session K = pg_session G) /\
    ((forall q, grp_of s q = Some old -> q = p) -> ps_pgrps s' !! old = None).
Proof.
  intros Hok M Hid Hmk. destruct (pi_sess _ _ _ _ _ (ok_inv _ _ Hok) old G (mb_group _ _ _ _ _ _ M)) as [e He].
  destruct (enterpgrp_run s p x par old G e pgid mk Hok M He Hid) as (s1 & s' & g & Hrun & Hok' & Hgo & Hw & Hgr & Hq & Hm).
  assert (Hold : grp_of s p = Some old) by (unfold grp_of; rewrite (mb_proc _ _ _ _ _ _ M); apply M).
  assert (Hid1 : forall q, ident_fields <$> ps_procs s1 !! q = ident_fields <$> ps_procs s !! q).
  { intros q. destruct Hw as [[-> _]|(_ & _ & _ & ->)]; [done|].
    change (ps_procs (chain_group _ _ _ _ ?s)) with (ps_procs s). unfold enter_session. destruct mk; [|done]. simpl.
    rewrite lookup_insert. case_decide; [subst; by rewrite (mb_proc _ _ _ _ _ _ M)|done]. }
  assert (Hg1 : exists K1, ps_pgrps s1 !! g = Some K1 /\ pg_id K1 = pgid /\ (ps_pgrps s !! g = None -> pg_session K1 = new_session (pg_session G) mk s)).
  { destruct Hw as [[-> (K & HK & HKi)]|(_ & Hg0 & Had & _)]; [exists K; split; [done|]; split; [done|congruence]|].
    pose proof (ad_pgrps _ _ _ _ _ Had g) as E. rewrite decide_True in E by done. destruct (ps_pgrps s1 !! g) as [K|]; [|done].
    exists K. by injection E as -> -> _ _. }
  destruct Hg1 as (K1 & HK1 & HKi & HKs). pose proof (mv_pgrps _ _ _ _ _ Hm g (or_introl Hgo)) as Eg. rewrite HK1 in Eg.
  destruct (ps_pgrps s' !! g) as [K|] eqn:HK; [|done]. injection Eg as Ei Es.
  exists s', g, K. split; [done|]. split; [done|]. split; [rewrite (mv_grp _ _ _ _ _ Hm); unfold into; by rewrite decide_True|].
  split; [done|]. split; [congruence|]. split; [intros q Hqp; rewrite (mv_grp _ _ _ _ _ Hm); unfold into; rewrite decide_False by done; apply Hgr|].
  split; [intros q; by rewrite (mv_procs _ _ _ _ _ Hm)|]. split; [|split].
  - intros h [Gh HGh] (q & Hqh). rewrite (mv_grp _ _ _ _ _ Hm) in Hqh.
    assert (E : h <> old \/ exists q, q <> p /\ grp_of s1 q = Some old).
    { destruct (decide (h = old)) as [->|]; [right; exists q|by left]. unfold into in Hqh. case_decide; [congruence|done]. }
    apply (mv_pgrps _ _ _ _ _ Hm) in E. assert (E1 : ses_of s1 h = ses_of s h).
    { destruct Hw as [[-> _]|(_ & Hg0 & Had & _)]; [done|]. pose proof (ad_pgrps _ _ _ _ _ Had h) as Ea. rewrite decide_False in Ea by congruence.
      unfold ses_of. destruct (ps_pgrps s1 !! h), (ps_pgrps s !! h); simpl in *; try done. by injection Ea as _ -> _ _. }
    rewrite <- E1. unfold ses_of. destruct (ps_pgrps s' !! h), (ps_pgrps s1 !! h); simpl in *; try done. by injection E as _ ->.
  - intros Hg0. rewrite Es, (HKs Hg0). unfold new_session. destruct mk; [|done]. split; [apply not_elem_of_dom, is_fresh|].
    destruct Hw as [[_ (K0 & HK0 & _)]|(_ & _ & Had & E1)]; [congruence|]. rewrite (mv_sess _ _ _ _ _ Hm).
    + rewrite E1. simpl. by rewrite lookup_insert_eq.
    + left. intros E. assert (E0 : ses_of s1 old = Some (pg_session G)).
      { pose proof (ad_pgrps _ _ _ _ _ Had old) as Ea. rewrite decide_False, (mb_group _ _ _ _ _ _ M) in Ea by done.
        unfold ses_of. destruct (ps_pgrps s1 !! old); [|done]. simpl in *. by injection Ea as _ -> _ _. }
      rewrite E0 in E. injection E as E. pose proof (is_fresh (dom (ps_sess s))) as Hf. apply Hf. rewrite <- E. apply elem_of_dom. eauto.
  - intros Hall. apply (mv_gone _ _ _ _ _ Hm). intros q. rewrite Hgr. apply Hall.
Qed.

(** C31. Orphaned groups: [enterpgrp] sends SIGHUP and SIGCONT to all the processes of a
    group exactly when the move takes away the last process that qualified it and one of
    its processes is stopped.  No other process is sent a signal, in particular none of a
    group whose count the move changes without bringing it to 0, whatever the order in
    which the process and its children are visited. *)
Theorem enterpgrp_orphans s p x par old G pgid mk s' :
  pg_ok mask s -> movable s p x par old G -> pg_id G <> pgid -> enterpgrp mask p pgid mk s = Some (tt, s') ->
  forall ev, ev ∈ ps_signals s' <-> ev ∈ ps_signals s \/
    exists g, 0 < quals s (grp_of s) g /\ quals s' (grp_of s') g = 0 /\ hangup (grp_of s) (ps_procs s) g ev.
Proof.
  intros Hok M Hid Hr. destruct (pi_sess _ _ _ _ _ (ok_inv _ _ Hok) old G (mb_group _ _ _ _ _ _ M)) as [e He].
  destruct (enterpgrp_run s p x par old G e pgid mk Hok M He Hid) as (s1 & s2 & g & Hrun & _ & Hgo & Hw & Hgr & Hq & Hm).
  rewrite Hr in Hrun. injection Hrun as <-. intros ev. rewrite (mv_sigs _ _ _ _ _ Hm).
  assert (Es : ps_signals s1 = ps_signals s) by (destruct Hw as [[-> _]|(_ & _ & Had & _)]; [done|apply Had]).
  assert (Hh : forall h, hangup (grp_of s1) (ps_procs s1) h ev <-> hangup (grp_of s) (ps_procs s) h ev).
  { intros h. unfold hangup. rewrite Hgr. destruct Hw as [[-> _]|(_ & _ & _ & ->)]; [done|].
    change (ps_procs (chain_group _ _ _ _ ?s)) with (ps_procs s). unfold enter_session. destruct mk; [|done]. simpl.
    assert (Hst : forall r, (exists y, <[p := p_with_flag x (Z.land (pr_flag x) (Z.lnot SCTTY))]> (ps_procs s) !! r = Some y /\ pr_stat y = SSTOP) <->
      exists y, ps_procs s !! r = Some y /\ pr_stat y = SSTOP).
    { intros r. rewrite lookup_insert. case_decide; [subst|done]. rewrite (mb_proc _ _ _ _ _ _ M). split; intros (y & [= <-] & ?); eauto. }
    split; intros (? & ? & r & y & Hr0 & Hy); (split; [done|]; split; [done|]; exists r).
    - destruct (proj1 (Hst r)) as (z & ? & ?); [eauto|]. exists z. rewrite <- Hgr. done.
    - destruct (proj2 (Hst r)) as (z & ? & ?); [eauto|]. exists z. rewrite Hgr. done. }
  rewrite Es. split; (intros [?|(h & H1 & H2 & H3)]; [by left|right; exists h]).
  - rewrite (moved_quals p g old s1 s' h Hgo Hm), <- Hq. split; [done|]. split; [done|]. by apply Hh.
  - rewrite (moved_quals p g old s1 s' h Hgo Hm) in H2. rewrite Hq. split; [done|]. split; [done|]. by apply Hh.
Qed.

(** [setsid]: a process whose number is that of a process group, its own or another,
    gets EPERM and nothing changes.  Any other process becomes the leader of a new session
    and the only member of a new group, both with its number, and the session has one group
    and no controlling terminal; the process loses its own (SCTTY is cleared), and the
    login name is that of the old session.  The tables stay consistent. *)
Theorem setsid_leads s p x par old G e : pg_ok mask s -> movable s p x par old G -> ps_sess s !! pg_session G = Some e ->
  ((exists h K, ps_pgrps s !! h = Some K /\ pg_id K = pr_pid x) -> setsid mask p s = Some ((EPERM, 0), s)) /\
  ((forall h K, ps_pgrps s !! h = Some K -> pg_id K <> pr_pid x) ->
    exists s' g K y, setsid mask p s = Some ((0, pr_pid x), s') /\ pg_ok mask s' /\
      ps_pgrps s !! g = None /\ ps_pgrps s' !! g = Some K /\ pg_id K = pr_pid x /\ (forall q, grp_of s' q = Some g <-> q = p) /\
      ps_sess s !! pg_session K = None /\ ps_sess s' !! pg_session K = Some (Session 1 p false None (s_login e)) /\
      ps_procs s' !! p = Some y /\ flag_set (pr_flag y) SCTTY = false).
Proof.
  intros Hok M He. destruct (pgfind_spec mask _ _ _ s (pr_pid x) (ok_inv _ _ Hok)) as (r & Hf & Hr).
  assert (Hgo : group_of p s = Some (old, s)) by (unfold group_of, getp; kunf; by rewrite (mb_proc _ _ _ _ _ _ M), (mb_old _ _ _ _ _ _ M)).
  assert (Hstart : forall k, setsid mask p s = k <->
    (let! other := (if pg_id G =? pr_pid x then kret None else pgfind mask (pr_pid x)) in
     if (pg_id G =? pr_pid x) || negb (bool_decide (other = None)) then kret (EPERM, 0) else
     do! enterpgrp mask p (pr_pid x) true in kret (0, pr_pid x)) s = k).
  { intros k. unfold setsid, getp, getpg. unfold kbind at 1, kderef at 1. rewrite (mb_proc _ _ _ _ _ _ M). unfold kbind at 1. rewrite Hgo.
    unfold kbind at 1, kderef at 1. by rewrite (mb_group _ _ _ _ _ _ M). }
  split.
  - intros (h & K & HK & HKi). apply Hstart. destruct (Z.eqb_spec (pg_id G) (pr_pid x)); [done|].
    unfold kbind at 1. rewrite Hf. destruct r as [g|]; [done|]. by destruct (Hr h K HK).
  - intros Hno. assert (Hid : pg_id G <> pr_pid x) by (apply (Hno old), M).
    destruct r as [g|]; [destruct Hr as (K & HK & HKi); by destruct (Hno g K HK)|].
    destruct (enterpgrp_run s p x par old G e (pr_pid x) true Hok M He Hid) as (s1 & s' & g & Hrun & Hok' & Hgo' & Hw & Hgr & Hq & Hm).
    destruct Hw as [[_ (K & HK & HKi)]|(_ & Hg0 & Had & E1)]; [by destruct (Hno g K HK)|].
    set (l := new_session (pg_session G) true s) in *. assert (Hl : ps_sess s !! l = None) by (apply not_elem_of_dom, is_fresh).
    pose proof (mv_pgrps _ _ _ _ _ Hm g (or_introl Hgo')) as Eg. pose proof (ad_pgrps _ _ _ _ _ Had g) as Ea. rewrite decide_True in Ea by done.
    destruct (ps_pgrps s1 !! g) as [K1|]; [|done]. destruct (ps_pgrps s' !! g) as [K|] eqn:HK; [|done].
    injection Ea as Ea1 Ea2 _ _. injection Eg as Eg1 Eg2. assert (El : pg_session K = l) by congruence.
    assert (Hx1 : ps_procs s1 !! p = Some (p_with_flag x (Z.land (pr_flag x) (Z.lnot SCTTY)))).
    { rewrite E1. change (ps_procs (chain_group _ _ _ _ ?s)) with (ps_procs s). simpl. by rewrite lookup_insert_eq. }
    pose proof (mv_flag _ _ _ _ _ Hm p) as Ef. rewrite Hx1 in Ef. destruct (ps_procs s' !! p) as [y|] eqn:Hy; [|done]. injection Ef as Ef.
    exists s', g, K, y. split; [|split; [done|split; [done|split; [done|split; [congruence|split; [|split; [|split; [|split; [done|]]]]]]]]].
    + apply Hstart. destruct (Z.eqb_spec (pg_id G) (pr_pid x)); [done|]. unfold kbind at 1. rewrite Hf. simpl. unfold kbind. by rewrite Hrun.
    + intros q. rewrite (mv_grp _ _ _ _ _ Hm). unfold into. case_decide as Ed; [by subst|]. rewrite Hgr. split; [|done]. intros Hqg. exfalso.
      destruct (pi_dom _ _ _ _ _ (ok_inv _ _ Hok) q g Hqg) as [_ [? ?]]. congruence.
    + by rewrite El.
    + rewrite El, (mv_sess _ _ _ _ _ Hm).
      * rewrite E1. simpl. by rewrite lookup_insert_eq.
      * left. intros E. pose proof (ad_pgrps _ _ _ _ _ Had old) as Eo. rewrite decide_False, (mb_group _ _ _ _ _ _ M) in Eo by done.
        unfold ses_of in E. destruct (ps_pgrps s1 !! old); [|done]. simpl in *. injection Eo as _ Eo _ _. congruence.
    + rewrite Ef. unfold flag_set. change (Z.lnot SCTTY) with (Z.lnot (2 ^ 3)). rewrite <- Z.ldiff_land. apply negb_false_iff, Z.eqb_eq.
      apply Z.bits_inj'. intros n Hn. rewrite Z.land_spec, Z.ldiff_spec, Z.bits_0. change SCTTY with (2 ^ 3).
      destruct (Z.testbit (2 ^ 3) n); simpl; [by rewrite andb_false_r|by rewrite andb_false_r].
Qed.
End Ops.

(** ** A shell and its job *)

(** Process 1 is [init], in group 1 of its own session; its child 2, a shell, leads group 2
    of another session, and the shell's child 3 is stopped in group 3 of that session. *)
Definition demo_proc (pid : Z) (stat : Z) (par kid : ptr) (g : loc) : proc :=
  Proc None PHead 0 stat pid None None par None None kid 0 (Some g).
Definition demo_pgrps : pst := Pst
  (<[1%positive := demo_proc 1 3 None (Some 2%positive) 1%positive]>
    (<[2%positive := demo_proc 2 3 (Some 1%positive) (Some 3%positive) 2%positive]>
      {[3%positive := demo_proc 3 SSTOP (Some 2%positive) None 3%positive]}))
  (<[1%positive := Pgrp None (Some 1%positive) 1%positive 1 0]>
    (<[2%positive := Pgrp None (Some 2%positive) 2%positive 2 0]> {[3%positive := Pgrp None (Some 3%positive) 2%positive 3 1]}))
  (<[1%positive := Session 1 1%positive false None []]> {[2%positive := Session 2 2%positive true None []]})
  ∅ ∅ (<[1 := 1%positive]> (<[2 := 2%positive]> {[3 := 3%positive]})) None None [].

Lemma demo_grp q : grp_of demo_pgrps q =
  if decide (q = 1%positive) then Some 1%positive else if decide (q = 2%positive) then Some 2%positive
  else if decide (q = 3%positive) then Some 3%positive else None.
Proof. unfold grp_of. simpl. repeat (rewrite ?lookup_insert, ?lookup_singleton; repeat case_decide; subst; try done). Qed.

Lemma demo_groups g G : ps_pgrps demo_pgrps !! g = Some G ->
  (g = 1%positive /\ G = Pgrp None (Some 1%positive) 1%positive 1 0) \/ (g = 2%positive /\ G = Pgrp None (Some 2%positive) 2%positive 2 0) \/
  (g = 3%positive /\ G = Pgrp None (Some 3%positive) 2%positive 3 1).
Proof. simpl. intros H. map_cases; naive_solver. Qed.

Lemma demo_procs q x : ps_procs demo_pgrps !! q = Some x ->
  (q = 1%positive /\ x = demo_proc 1 3 None (Some 2%positive) 1%positive) \/
  (q = 2%positive /\ x = demo_proc 2 3 (Some 1%positive) (Some 3%positive) 2%positive) \/
  (q = 3%positive /\ x = demo_proc 3 SSTOP (Some 2%positive) None 3%positive).
Proof. simpl. intros H. map_cases; naive_solver. Qed.

Lemma demo_pgrps_ok : pg_ok 63 demo_pgrps.
Proof.
  split.
  - split.
    + intros g G HG. exists [g]. apply demo_groups in HG as [[-> ->]|[[-> ->]|[-> ->]]]; (split; [done|]; split; [apply NoDup_singleton|]);
        intros q; rewrite list_elem_of_singleton, demo_grp; repeat case_decide; naive_solver.
    + intros q g. rewrite demo_grp. repeat case_decide; intros [= <-]; subst; split; vm_compute; eauto.
    + intros g G HG _. exists g. rewrite demo_grp. by apply demo_groups in HG as [[-> _]|[[-> _]|[-> _]]].
    + intros h. exists (if decide (h = 1) then [1%positive] else if decide (h = 2) then [2%positive] else if decide (h = 3) then [3%positive] else []).
      split; [|split].
      * simpl. repeat case_decide; subst; simpl; try (split; reflexivity). by rewrite !lookup_insert_ne, lookup_singleton_ne by congruence.
      * repeat case_decide; try apply NoDup_singleton; apply NoDup_nil_2.
      * intros g. split.
        -- intros Hg. repeat case_decide; subst; try (apply list_elem_of_singleton in Hg as ->; eexists; split; [reflexivity|reflexivity]). by apply elem_of_nil in Hg.
        -- intros (G & HG & <-). apply demo_groups in HG as [[-> ->]|[[-> ->]|[-> ->]]]; vm_compute; left.
    + intros g1 g2 G1 G2 H1 H2. apply demo_groups in H1 as [[-> ->]|[[-> ->]|[-> ->]]], H2 as [[-> ->]|[[-> ->]|[-> ->]]]; by simpl.
    + intros g G HG. apply demo_groups in HG as [[-> ->]|[[-> ->]|[-> ->]]]; eexists; reflexivity.
    + intros l e He. simpl in He. map_cases; by vm_compute.
    + intros l e t He Ht. simpl in He. map_cases; done.
    + intros g G HG. apply demo_groups in HG as [[-> ->]|[[-> ->]|[-> ->]]]; by vm_compute.
  - intros p x Hx. exists (match pr_cptr x with Some c => [c] | None => [] end).
    apply demo_procs in Hx as [[-> ->]|[[-> ->]|[-> ->]]]; (split; [done|]; split; [first [apply NoDup_singleton|apply NoDup_nil_2]|]);
      intros c; simpl; (split; [intros Hc; first [apply list_elem_of_singleton in Hc as ->; eexists; split; reflexivity|by apply elem_of_nil in Hc]|]);
      intros (y & Hy & Hp); apply demo_procs in Hy as [[-> ->]|[[-> ->]|[-> ->]]]; try done; left.
  - intros p x Hx. apply demo_procs in Hx as [[-> ->]|[[-> ->]|[-> ->]]]; eexists; reflexivity.
  - by vm_compute.
Qed.

Lemma demo_movable : movable demo_pgrps 2%positive (demo_proc 2 3 (Some 1%positive) (Some 3%positive) 2%positive) 1%positive 2%positive
  (Pgrp None (Some 2%positive) 2%positive 2 0).
Proof. by split. Qed.

Lemma demo_ids h K : ps_pgrps demo_pgrps !! h = Some K -> pg_id K = 1 \/ pg_id K = 2 \/ pg_id K = 3.
Proof. intros HK. apply demo_groups in HK as [[_ ->]|[[_ ->]|[_ ->]]]; simpl; auto. Qed.

(** The shell joins the group of its job, and its own group is gone. *)
Lemma enterpgrp_keeps_witness : exists s', enterpgrp 63 2%positive 3 false demo_pgrps = Some (tt, s') /\ pg_ok 63 s' /\
  grp_of s' 2%positive = Some 3%positive /\ ps_pgrps s' !! 2%positive = None.
Proof.
  destruct (enterpgrp_keeps 63 demo_pgrps 2%positive _ 1%positive 2%positive _ 3 false demo_pgrps_ok demo_movable ltac:(done) ltac:(done))
    as (s' & g & K & Hr & Hok & Hg & _ & _ & _ & _ & _ & _ & Hgone).
  exists s'. split; [exact Hr|]. split; [exact Hok|]. split.
  - rewrite Hg. clear -Hr Hg. assert (E : (fun r => grp_of r.2 2%positive) <$> Some (tt, s') = Some (Some 3%positive)) by (rewrite <- Hr; by vm_compute).
    simpl in E. rewrite Hg in E. by injection E as ->.
  - apply Hgone. intros q. rewrite demo_grp. repeat case_decide; congruence.
Defined.

(** That orphans the job, which is stopped and hung up. *)
Lemma enterpgrp_orphans_witness : exists s', enterpgrp 63 2%positive 3 false demo_pgrps = Some (tt, s') /\
  ((3%positive, SHUP) ∈ ps_signals s' <-> (3%positive, SHUP) ∈ ps_signals demo_pgrps \/
    exists g, 0 < quals demo_pgrps (grp_of demo_pgrps) g /\ quals s' (grp_of s') g = 0 /\
      hangup (grp_of demo_pgrps) (ps_procs demo_pgrps) g (3%positive, SHUP)) /\
  ps_signals s' = [(3%positive, SCONT); (3%positive, SHUP)].
Proof.
  destruct (enterpgrp 63 2%positive 3 false demo_pgrps) as [[[] s']|] eqn:Hr; [|vm_compute in Hr; discriminate Hr].
  exists s'. split; [reflexivity|]. split.
  - exact (enterpgrp_orphans 63 demo_pgrps 2%positive _ 1%positive 2%positive _ 3 false s' demo_pgrps_ok demo_movable ltac:(done) Hr _).
  - vm_compute in Hr. by injection Hr as <-.
Defined.

(** The state in which the shell is in the group of its job. *)
Definition demo_joined : pst := match enterpgrp 63 2%positive 3 false demo_pgrps with Some (_, s) => s | None => demo_pgrps end.

Lemma demo_joined_ok : pg_ok 63 demo_joined.
Proof.
  destruct (enterpgrp_run 63 demo_pgrps 2%positive _ 1%positive 2%positive _ (Session 2 2%positive true None []) 3 false demo_pgrps_ok demo_movable)
    as (s1 & s' & g & Hr & Hok & _); [reflexivity|done|]. unfold demo_joined. by rewrite Hr.
Qed.

(** It leads no group there, and can start a session. *)
Lemma setsid_leads_witness : exists s' y, setsid 63 2%positive demo_joined = Some ((0, 2), s') /\ pg_ok 63 s' /\
  ps_procs s' !! 2%positive = Some y /\ flag_set (pr_flag y) SCTTY = false.
Proof.
  assert (M : exists x G e, movable demo_joined 2%positive x 1%positive 3%positive G /\ ps_sess demo_joined !! pg_session G = Some e /\ pr_pid x = 2).
  { eexists _, _, _. split; [split|split]; vm_compute; try reflexivity; [done|done|by eexists]. }
  destruct M as (x & G & e & M & He & Hp).
  assert (Hno : forall h K, ps_pgrps demo_joined !! h = Some K -> pg_id K <> 2).
  { apply (bool_decide_eq_true_1 (map_Forall (fun _ K => pg_id K <> 2) (ps_pgrps demo_joined))). by vm_compute. }
  rewrite <- Hp in Hno. destruct (proj2 (setsid_leads 63 demo_joined 2%positive x 1%positive 3%positive G e demo_joined_ok M He) Hno)
    as (s' & g & K & y & Hr & Hok & _ & _ & _ & _ & _ & _ & Hy & Hf).
  exists s', y. rewrite Hp in Hr. done.
Defined.
