(* ===== verification/Ncache.v ===== *)
(** * The name cache (sys/kern/vfs_cache.c)

    The cache of names found in directories: entries on a least-recently-used list and on
    hash chains, linked as the code links them.  [insque] and [remque] are those of
    sys/i386/i386/machdep.c; the name and its hash are what [lookup] of
    sys/kern/vfs_lookup.c makes of a path. *)

From S2P Require Import Prelude.
Local Open Scope kern_scope.

(** ** Data *)

Definition NCHNAMLEN := 31.
Definition NAME_MAX := 255.
Definition ENOENT := 2.
Definition ENAMETOOLONG := 63.
Definition CREATE := 1.
Definition DELETE := 2.
Definition OPMASK := 3.
Definition LOCKPARENT := 8.
Definition WANTPARENT := 16.
Definition NOCACHE := 32.

(** sys/kern/vfs_cache.c:66-69, [union nchash]: a node of a hash chain, the bucket itself or
    an entry of the cache. *)
Inductive qptr : Type :=
| QHead (i : Z)
| QEnt (l : loc).

#[export] Instance qptr_eq_dec : EqDecision qptr.
Proof. solve_decision. Defined.

(** The links of a bucket, [None] being the null pointer [remque] leaves. *)
Record nchash_head := NchashHead { nch_forw : option qptr; nch_back : option qptr }.

(** sys/sys/namei.h:135-146, [struct namecache]: [nc_name] is the array of 31 bytes. *)
Record namecache := Namecache {
  nc_forw : option qptr; nc_back : option qptr;
  nc_nxt : ptr; nc_prev : option pptr;
  nc_dvp : ptr; nc_dvpid : Z;
  nc_vp : ptr; nc_vpid : Z;
  nc_nlen : Z; nc_name : list Z }.

(** sys/sys/vnode.h:69-95, [struct vnode]: the fields the cache reads. *)
Record vnode := Vnode { v_id : Z; v_mount : ptr }.

(** sys/sys/namei.h:157-166, [struct nchstats]. *)
Record nchstats := Nchstats {
  ncs_goodhits : Z; ncs_neghits : Z; ncs_badhits : Z; ncs_falsehits : Z; ncs_miss : Z; ncs_long : Z }.

(** sys/sys/namei.h:42-83, [struct nameidata]: the fields that go through the cache;
    [ni_ptr] is the rest of the path, as unsigned bytes. *)
Record nameidata := Nameidata {
  ni_nameiop : Z; ni_vp : ptr; ni_dvp : loc; ni_ptr : list Z;
  ni_namelen : Z; ni_hash : Z; ni_makeentry : Z }.

(** sys/kern/vfs_cache.c:73-78, [nchhead]: the variables of the file, the entries, the vnodes
    and the number of the next capability. *)
Record ncst := Ncst {
  nc_heap : gmap loc namecache; nchashtbl : gmap Z nchash_head; nchash : Z; numcache : Z;
  nchhead : ptr; nchtail : pptr; stats : nchstats; doingcache : bool;
  nextvnodeid : Z; vnodes : gmap loc vnode; desiredvnodes : Z }.

(** ** Assignments *)

Definition with_heap h s := Ncst h (nchashtbl s) (nchash s) (numcache s) (nchhead s) (nchtail s) (stats s)
  (doingcache s) (nextvnodeid s) (vnodes s) (desiredvnodes s).
Definition with_tbl t s := Ncst (nc_heap s) t (nchash s) (numcache s) (nchhead s) (nchtail s) (stats s)
  (doingcache s) (nextvnodeid s) (vnodes s) (desiredvnodes s).
Definition with_hash k s := Ncst (nc_heap s) (nchashtbl s) k (numcache s) (nchhead s) (nchtail s) (stats s)
  (doingcache s) (nextvnodeid s) (vnodes s) (desiredvnodes s).
Definition with_num n s := Ncst (nc_heap s) (nchashtbl s) (nchash s) n (nchhead s) (nchtail s) (stats s)
  (doingcache s) (nextvnodeid s) (vnodes s) (desiredvnodes s).
Definition with_head p s := Ncst (nc_heap s) (nchashtbl s) (nchash s) (numcache s) p (nchtail s) (stats s)
  (doingcache s) (nextvnodeid s) (vnodes s) (desiredvnodes s).
Definition with_tail p s := Ncst (nc_heap s) (nchashtbl s) (nchash s) (numcache s) (nchhead s) p (stats s)
  (doingcache s) (nextvnodeid s) (vnodes s) (desiredvnodes s).
Definition with_stats c s := Ncst (nc_heap s) (nchashtbl s) (nchash s) (numcache s) (nchhead s) (nchtail s) c
  (doingcache s) (nextvnodeid s) (vnodes s) (desiredvnodes s).
Definition with_ids n v s := Ncst (nc_heap s) (nchashtbl s) (nchash s) (numcache s) (nchhead s) (nchtail s)
  (stats s) (doingcache s) n v (desiredvnodes s).

Definition set_forw v e := Namecache v (nc_back e) (nc_nxt e) (nc_prev e) (nc_dvp e) (nc_dvpid e)
  (nc_vp e) (nc_vpid e) (nc_nlen e) (nc_name e).
Definition set_back v e := Namecache (nc_forw e) v (nc_nxt e) (nc_prev e) (nc_dvp e) (nc_dvpid e)
  (nc_vp e) (nc_vpid e) (nc_nlen e) (nc_name e).
Definition set_nxt v e := Namecache (nc_forw e) (nc_back e) v (nc_prev e) (nc_dvp e) (nc_dvpid e)
  (nc_vp e) (nc_vpid e) (nc_nlen e) (nc_name e).
Definition set_prev v e := Namecache (nc_forw e) (nc_back e) (nc_nxt e) v (nc_dvp e) (nc_dvpid e)
  (nc_vp e) (nc_vpid e) (nc_nlen e) (nc_name e).
Definition set_vps d v e := Namecache (nc_forw e) (nc_back e) (nc_nxt e) (nc_prev e) d (nc_dvpid e)
  v (nc_vpid e) (nc_nlen e) (nc_name e).
Definition set_vpids d v e := Namecache (nc_forw e) (nc_back e) (nc_nxt e) (nc_prev e) (nc_dvp e) d
  (nc_vp e) v (nc_nlen e) (nc_name e).
(** The information [cache_enter] fills in. *)
Definition set_info dvp dvpid vp vpid n nm e :=
  Namecache (nc_forw e) (nc_back e) (nc_nxt e) (nc_prev e) dvp dvpid vp vpid n nm.

Definition entry (x : loc) : K ncst namecache := kderef (fun s => nc_heap s !! x).
Definition assign (x : loc) (f : namecache -> namecache) : K ncst unit :=
  let! e := entry x in kmod (fun s => with_heap (<[x := f e]> (nc_heap s)) s).

(** [*pp] and [*pp = v] on the LRU list. *)
Definition lru_get (pp : pptr) (s : ncst) : option ptr :=
  match pp with PHead => Some (nchhead s) | PNext x => nc_nxt <$> nc_heap s !! x end.
Definition lru_store (pp : pptr) (v : ptr) : K ncst unit :=
  match pp with PHead => kmod (with_head v) | PNext x => assign x (set_nxt v) end.

(** The links of a node of a hash chain. *)
Definition q_forw (q : qptr) (s : ncst) : option (option qptr) :=
  match q with QHead i => nch_forw <$> nchashtbl s !! i | QEnt x => nc_forw <$> nc_heap s !! x end.
Definition q_back (q : qptr) (s : ncst) : option (option qptr) :=
  match q with QHead i => nch_back <$> nchashtbl s !! i | QEnt x => nc_back <$> nc_heap s !! x end.
Definition q_set_forw (q : qptr) (v : option qptr) : K ncst unit :=
  match q with
  | QHead i => let! h := kderef (fun s => nchashtbl s !! i) in
               kmod (fun s => with_tbl (<[i := NchashHead v (nch_back h)]> (nchashtbl s)) s)
  | QEnt x => assign x (set_forw v)
  end.
Definition q_set_back (q : qptr) (v : option qptr) : K ncst unit :=
  match q with
  | QHead i => let! h := kderef (fun s => nchashtbl s !! i) in
               kmod (fun s => with_tbl (<[i := NchashHead (nch_forw h) v]> (nchashtbl s)) s)
  | QEnt x => assign x (set_back v)
  end.

(** sys/i386/i386/machdep.c:1282-1289, [_insque]. *)
Definition insque (element head : qptr) : K ncst unit :=
  let! f := kderef (q_forw head) in
  do! q_set_forw element f in
  do! q_set_forw head (Some element) in
  do! q_set_back element (Some head) in
  let! n := kderef (q_forw element) in
  let! n := knonnull n in
  q_set_back n (Some element).

(** sys/i386/i386/machdep.c:1295-1302, [_remque]. *)
Definition remque (element : qptr) : K ncst unit :=
  let! n := kderef (q_forw element) in
  let! n := knonnull n in
  let! b := kderef (q_back element) in
  do! q_set_back n b in
  let! b := kderef (q_back element) in
  let! b := knonnull b in
  let! n := kderef (q_forw element) in
  do! q_set_forw b n in
  q_set_back element None.

(** ** The LRU list *)

(** sys/kern/vfs_cache.c:169-174, [cache_lookup]: remove from the LRU chain; [nxt] is [nc_nxt]. *)
Definition lru_unlink (ncp : loc) (nxt : ptr) : K ncst unit :=
  let! e := entry ncp in
  let! prev := knonnull (nc_prev e) in
  do! lru_store prev nxt in
  match nxt with
  | Some n => assign n (set_prev (Some prev))
  | None => kmod (with_tail prev)
  end.

(** sys/kern/vfs_cache.c:177-181, [cache_lookup]: insert at the head of the list, whose first
    entry is dereferenced. *)
Definition lru_push (ncp : loc) (nxt : ptr) : K ncst unit :=
  do! assign ncp (set_nxt nxt) in
  do! assign ncp (set_prev (Some PHead)) in
  let! n := knonnull nxt in
  do! assign n (set_prev (Some (PNext ncp))) in
  kmod (with_head (Some ncp)).

(** sys/kern/vfs_cache.c:229-233, [cache_enter]: link at the end of the list. *)
Definition lru_append (ncp : loc) : K ncst unit :=
  do! assign ncp (set_nxt None) in
  let! t := kgets nchtail in
  do! assign ncp (set_prev (Some t)) in
  do! lru_store t (Some ncp) in
  kmod (with_tail (PNext ncp)).

(** sys/kern/vfs_cache.c:131-140, [cache_lookup]: move to the end, if not already there. *)
Definition lru_move_end (ncp : loc) : K ncst unit :=
  let! e := entry ncp in
  match nc_nxt e with
  | None => kret tt
  | Some n =>
    let! prev := knonnull (nc_prev e) in
    do! lru_store prev (Some n) in
    do! assign n (set_prev (Some prev)) in
    lru_append ncp
  end.

(** sys/kern/vfs_cache.c:182-184, [cache_lookup]: make a dummy hash chain. *)
Definition dummy_chain (ncp : loc) : K ncst unit :=
  do! assign ncp (set_forw (Some (QEnt ncp))) in
  assign ncp (set_back (Some (QEnt ncp))).

(** ** Names *)

(** The [n] bytes at a pointer into a buffer. *)
Definition at_ptr (p : list Z) (n : Z) : option (list Z) :=
  if (0 <=? n) && (n <=? zlen p) then Some (take (Z.to_nat n) p) else None.

(** sys/kern/vfs_lookup.c:281-284, [lookup]: the next component of the path and its hash. *)
Fixpoint name_scan (path : list Z) (len hash : Z) : option (Z * Z) :=
  match path with
  | [] => None
  | c :: path => if (c =? 0) || (c =? 47) then Some (len, hash) else name_scan path (len + 1) (u32 (hash + c))
  end.

(** sys/kern/vfs_lookup.c:255-259, [lookup]: may the last component be left in the cache. *)
Definition lookup_docache (nameiop : Z) : bool :=
  let flag := Z.land nameiop OPMASK in
  let wantparent := flag_set nameiop (Z.lor LOCKPARENT WANTPARENT) in
  if (flag =? DELETE) || (wantparent && negb (flag =? CREATE)) then false
  else negb (flag_set nameiop NOCACHE).

(** sys/kern/vfs_lookup.c:281-299, [lookup]: a component of the path, searched for in [dvp]; the
    error is [ENAMETOOLONG]. *)
Definition lookup_component (nameiop : Z) (dvp : loc) (path : list Z) : option (Z + nameidata) :=
  match name_scan path 0 0 with
  | None => None
  | Some (len, hash) =>
    if NAME_MAX <=? len then Some (inl ENAMETOOLONG) else
    match znth path len with
    | None => None
    | Some c =>
      let make := if (c =? 0) && negb (lookup_docache nameiop) then 0 else 1 in
      Some (inr (Nameidata nameiop None dvp path len hash make))
    end
  end.

(** ** Operations *)

Definition bump (f : nchstats -> nchstats) : K ncst unit := kmod (fun s => with_stats (f (stats s)) s).
Definition add_good c := Nchstats (ncs_goodhits c + 1) (ncs_neghits c) (ncs_badhits c) (ncs_falsehits c) (ncs_miss c) (ncs_long c).
Definition add_neg c := Nchstats (ncs_goodhits c) (ncs_neghits c + 1) (ncs_badhits c) (ncs_falsehits c) (ncs_miss c) (ncs_long c).
Definition add_bad c := Nchstats (ncs_goodhits c) (ncs_neghits c) (ncs_badhits c + 1) (ncs_falsehits c) (ncs_miss c) (ncs_long c).
Definition add_false c := Nchstats (ncs_goodhits c) (ncs_neghits c) (ncs_badhits c) (ncs_falsehits c + 1) (ncs_miss c) (ncs_long c).
Definition add_miss c := Nchstats (ncs_goodhits c) (ncs_neghits c) (ncs_badhits c) (ncs_falsehits c) (ncs_miss c + 1) (ncs_long c).
Definition add_long c := Nchstats (ncs_goodhits c) (ncs_neghits c) (ncs_badhits c) (ncs_falsehits c) (ncs_miss c) (ncs_long c + 1).

Definition vnode_id (vp : loc) : K ncst Z := let! v := kderef (fun s => vnodes s !! vp) in kret (v_id v).

Definition with_make m ndp := Nameidata (ni_nameiop ndp) (ni_vp ndp) (ni_dvp ndp) (ni_ptr ndp)
  (ni_namelen ndp) (ni_hash ndp) m.
Definition with_vp v ndp := Nameidata (ni_nameiop ndp) v (ni_dvp ndp) (ni_ptr ndp)
  (ni_namelen ndp) (ni_hash ndp) (ni_makeentry ndp).

(** sys/kern/vfs_cache.c:112-115, [cache_lookup]: is this the entry. *)
Definition nc_matches (ndp : nameidata) (ncp : loc) : K ncst bool :=
  let! e := entry ncp in
  if negb (bool_decide (nc_dvp e = Some (ni_dvp ndp))) then kret false else
  let! id := vnode_id (ni_dvp ndp) in
  if negb (nc_dvpid e =? id) || negb (nc_nlen e =? ni_namelen ndp) then kret false else
  let! a := knonnull (at_ptr (nc_name e) (nc_nlen e)) in
  let! b := knonnull (at_ptr (ni_ptr ndp) (nc_nlen e)) in
  kret (bool_decide (a = b)).

(** sys/kern/vfs_cache.c:110-117, [cache_lookup]: the search along the hash chain [i]. *)
Fixpoint nc_find (fuel : nat) (ndp : nameidata) (i : Z) (q : qptr) : K ncst ptr :=
  match q, fuel with
  | QHead j, _ => if j =? i then kret None else kpanic
  | QEnt _, O => kpanic
  | QEnt x, S f =>
    let! b := nc_matches ndp x in
    if b then kret (Some x) else
    let! n := kderef (q_forw (QEnt x)) in
    let! n := knonnull n in
    nc_find f ndp i n
  end.

(** sys/kern/vfs_cache.c:164-185, [cache_lookup]: the entry is not wanted any more. *)
Definition nc_drop (ncp : loc) : K ncst unit :=
  let! e := entry ncp in
  do! lru_unlink ncp (nc_nxt e) in
  do! remque (QEnt ncp) in
  let! h := kgets nchhead in
  do! lru_push ncp h in
  dummy_chain ncp.

(** sys/kern/vfs_cache.c:94-186, [cache_lookup]: -1 is a hit, [ni_vp] being set. *)
Definition cache_lookup (ndp : nameidata) : K ncst (Z * nameidata) :=
  let! on := kgets doingcache in
  if negb on then kret (0, ndp) else
  if NCHNAMLEN <? ni_namelen ndp then
    do! bump add_long in
    kret (0, with_make 0 ndp)
  else
  let! mask := kgets nchash in
  let i := Z.land (ni_hash ndp) mask in
  let! first := kderef (q_forw (QHead i)) in
  let! first := knonnull first in
  let! fuel := kgets (fun s => size (nc_heap s)) in
  let! ncp := nc_find fuel ndp i first in
  match ncp with
  | None => do! bump add_miss in kret (0, ndp)
  | Some ncp =>
    let! e := entry ncp in
    if ni_makeentry ndp =? 0 then
      do! bump add_bad in
      do! nc_drop ncp in
      kret (0, ndp)
    else
    match nc_vp e with
    | None =>
      if negb (Z.land (ni_nameiop ndp) OPMASK =? CREATE) then
        do! bump add_neg in
        do! lru_move_end ncp in
        kret (ENOENT, ndp)
      else
        do! nc_drop ncp in
        kret (0, ndp)
    | Some vp =>
      let! id := vnode_id vp in
      if negb (nc_vpid e =? id) then
        do! bump add_false in
        do! nc_drop ncp in
        kret (0, ndp)
      else
        do! bump add_good in
        do! lru_move_end ncp in
        kret (-1, with_vp (Some vp) ndp)
    end
  end.

(** What [malloc] and [bzero] give. *)
Definition new_entry : namecache := Namecache None None None None None 0 None 0 0 (replicate 31 0).

(** sys/kern/vfs_cache.c:199-217, [cache_enter]: a new entry, or that at the head of the LRU
    list; [None] when there is none. *)
Definition nc_slot : K ncst ptr :=
  let! s := kget in
  if numcache s <? desiredvnodes s then
    let x := fresh (dom (nc_heap s)) in
    do! kmod (fun s => with_heap (<[x := new_entry]> (nc_heap s)) s) in
    do! kmod (with_num (numcache s + 1)) in
    kret (Some x)
  else
    match nchhead s with
    | Some ncp =>
      let! e := entry ncp in
      do! lru_unlink ncp (nc_nxt e) in
      do! remque (QEnt ncp) in
      kret (Some ncp)
    | None => kret None
    end.

(** sys/kern/vfs_cache.c:218-228, [cache_enter]: fill in the entry; [nc_nlen] is a [char], and a
    copy over the end of [nc_name] is a fault. *)
Definition nc_fill (ndp : nameidata) (ncp : loc) : K ncst unit :=
  let! vpid := match ni_vp ndp with Some vp => vnode_id vp | None => kret 0 end in
  let! dvpid := vnode_id (ni_dvp ndp) in
  let n := s8 (ni_namelen ndp) in
  let! nm := knonnull (at_ptr (ni_ptr ndp) n) in
  let! e := entry ncp in
  if NCHNAMLEN <? n then kpanic else
  assign ncp (set_info (Some (ni_dvp ndp)) dvpid (ni_vp ndp) vpid n (nm ++ drop (Z.to_nat n) (nc_name e))).

(** sys/kern/vfs_cache.c:191-237, [cache_enter]. *)
Definition cache_enter (ndp : nameidata) : K ncst unit :=
  let! on := kgets doingcache in
  if negb on then kret tt else
  let! slot := nc_slot in
  match slot with
  | None => kret tt
  | Some ncp =>
    do! nc_fill ndp ncp in
    do! lru_append ncp in
    let! mask := kgets nchash in
    insque (QEnt ncp) (QHead (Z.land (ni_hash ndp) mask))
  end.

(** sys/kern/vfs_cache.c:253-255, [nchinit]: the power of two above the number of buckets the
    allocation holds, then the mask. *)
Fixpoint nchash_double (fuel : nat) (h n : Z) : option Z :=
  if h <=? n then match fuel with O => None | S f => nchash_double f (u32 (h * 2)) n end
  else Some (u32 (Z.shiftr h 1 - 1)).

(** sys/kern/vfs_cache.c:249-250, [nchinit]: the bytes of the table, in pages of 4096. *)
Definition nchashsize (desired : Z) : Z := (u32 ((desired + 1) * 8) / 2 + 4095) / 4096 * 4096.

(** sys/kern/vfs_cache.c:242-260, [nchinit]: the buckets 0 to [nchash] are empty rings. *)
Definition nchinit : K ncst unit :=
  do! kmod (with_head None) in
  do! kmod (with_tail PHead) in
  let! d := kgets desiredvnodes in
  let! h := knonnull (nchash_double 32 1 (nchashsize d / 8)) in
  do! kmod (with_hash h) in
  kmod (with_tbl (list_to_map ((fun i => (i, NchashHead (Some (QHead i)) (Some (QHead i)))) <$> seqZ 0 (h + 1)))).

(** sys/kern/vfs_cache.c:276-280, [cache_purge]: along one hash chain. *)
Fixpoint purge_chain (fuel : nat) (i : Z) (q : qptr) : K ncst unit :=
  match q, fuel with
  | QHead j, _ => if j =? i then kret tt else kpanic
  | QEnt _, O => kpanic
  | QEnt x, S f =>
    do! assign x (set_vpids 0 0) in
    let! n := kderef (q_forw (QEnt x)) in
    let! n := knonnull n in
    purge_chain f i n
  end.

(** sys/kern/vfs_cache.c:275-281, [cache_purge]: the buckets [n - 1] to 0. *)
Fixpoint purge_table (n : nat) : K ncst unit :=
  match n with
  | O => kret tt
  | S n =>
    let i := Z.of_nat n in
    let! first := kderef (q_forw (QHead i)) in
    let! first := knonnull first in
    let! fuel := kgets (fun s => size (nc_heap s)) in
    do! purge_chain fuel i first in
    purge_table n
  end.

(** [vp->v_id = ++nextvnodeid]. *)
Definition next_id (vp : loc) : K ncst Z :=
  let! v := kderef (fun s => vnodes s !! vp) in
  let! n := kgets nextvnodeid in
  let n := u32 (n + 1) in
  do! kmod (fun s => with_ids n (<[vp := Vnode n (v_mount v)]> (vnodes s)) s) in
  kret n.

(** sys/kern/vfs_cache.c:266-283, [cache_purge]. *)
Definition cache_purge (vp : loc) : K ncst unit :=
  let! n := next_id vp in
  if negb (n =? 0) then kret tt else
  let! mask := kgets nchash in
  do! purge_table (Z.to_nat (mask + 1)) in
  let! n := next_id vp in
  kret tt.

(** sys/kern/vfs_cache.c:300-301, [cache_purgevfs]: is the entry of a directory of [mp]. *)
Definition nc_on_mount (mp : loc) (ncp : loc) : K ncst bool :=
  let! e := entry ncp in
  match nc_dvp e with
  | None => kret false
  | Some d => let! v := kderef (fun s => vnodes s !! d) in kret (bool_decide (v_mount v = Some mp))
  end.

(** sys/kern/vfs_cache.c:302-320, [cache_purgevfs]: free one entry; the result is the next to look at. *)
Definition nc_release (ncp : loc) (nxtcp : ptr) : K ncst ptr :=
  do! assign ncp (set_vps None None) in
  do! remque (QEnt ncp) in
  do! dummy_chain ncp in
  do! lru_unlink ncp nxtcp in
  let! nxtcp := kgets nchhead in
  do! lru_push ncp nxtcp in
  kret nxtcp.

(** sys/kern/vfs_cache.c:298-321, [cache_purgevfs]: the scan, restarted after every entry freed. *)
Fixpoint purgevfs_loop (fuel : nat) (mp : loc) (p : ptr) : K ncst unit :=
  match p, fuel with
  | None, _ => kret tt
  | Some _, O => kpanic
  | Some ncp, S f =>
    let! e := entry ncp in
    let! b := nc_on_mount mp ncp in
    if negb b then purgevfs_loop f mp (nc_nxt e) else
    let! n := nc_release ncp (nc_nxt e) in
    purgevfs_loop f mp n
  end.

(** sys/kern/vfs_cache.c:293-322, [cache_purgevfs]: each entry is freed at most once, and the list
    is scanned once after each. *)
Definition cache_purgevfs (mp : loc) : K ncst unit :=
  let! s := kget in
  let n := size (nc_heap s) in
  purgevfs_loop ((n + 1) * (n + 1)) mp (nchhead s).
