(* ===== verification/NcacheSpec.v ===== *)
(** * What the name cache is

    Doubly linked lists with a tail pointer, the shape of both the LRU list and the hash
    chains; and the cache without its links: the entries from the least to the most
    recently used, those that can be found from the last to the first entered. *)

From S2P Require Import Prelude Ncache.

(** ** Doubly linked lists

    [N] is what a position holds, [B] the back pointer of an entry; the list goes from the
    position [p] to the value [v]. *)
Section Seg.
Context {P V : Type} (node : loc -> P) (val : loc -> V) {Hinj : Inj eq eq node}.
Implicit Types (N : P -> option V) (B : loc -> option P).

Fixpoint seg N B (p : P) (l : list loc) (v : V) : Prop :=
  match l with
  | [] => N p = Some v
  | x :: l => N p = Some (val x) /\ B x = Some p /\ seg N B (node x) l v
  end.

(** The last position of the list, and the value that leads to it. *)
Definition endn (p : P) (l : list loc) : P := match last l with Some x => node x | None => p end.
Definition hdv (l : list loc) (v : V) : V := match l with [] => v | x :: _ => val x end.

Definition apart (p : P) (l : list loc) : Prop := NoDup l /\ forall x, x ∈ l -> p <> node x.

Lemma endn_cons p x l : endn p (x :: l) = endn (node x) l.
Proof. unfold endn. rewrite last_cons. by destruct (last l). Qed.

Lemma endn_app p a x b : endn p (a ++ x :: b) = endn (node x) b.
Proof. unfold endn. rewrite last_app_cons, last_cons. by destruct (last b). Qed.

Lemma endn_snoc p a x : endn p (a ++ [x]) = node x.
Proof. by rewrite endn_app. Qed.

Lemma endn_in p l : endn p l = p \/ exists x, x ∈ l /\ endn p l = node x.
Proof.
  unfold endn. destruct (last l) as [x|] eqn:E; [|by left]. right. exists x.
  split; [by apply last_Some_elem_of|done].
Qed.

Lemma apart_cons p x l : apart p (x :: l) -> apart (node x) l.
Proof.
  intros [[Hx Hnd]%NoDup_cons _]. split; [done|]. intros y Hy E%Hinj. by subst.
Qed.

Lemma apart_app p a b : apart p (a ++ b) -> apart p a /\ apart p b /\ (forall x, x ∈ a -> x ∉ b).
Proof.
  intros [Hnd Hp]. apply NoDup_app in Hnd as (Ha & Hd & Hb).
  split_and!; [split; [done|]; intros; apply Hp; set_solver..|done].
Qed.

(** The last position of the front part is no position of the rest. *)
Lemma endn_apart p a b x : apart p (a ++ b) -> x ∈ b -> endn p a <> node x.
Proof.
  intros (Ha & Hb & Hd)%apart_app Hx. destruct (endn_in p a) as [->|(y & Hy & ->)].
  - by apply (proj2 Hb).
  - intros <-%Hinj. by eapply Hd.
Qed.

Lemma seg_ext N B N' B' p l v :
  N' p = N p -> (forall x, x ∈ l -> N' (node x) = N (node x)) -> (forall x, x ∈ l -> B' x = B x) ->
  seg N B p l v -> seg N' B' p l v.
Proof.
  revert p. induction l as [|x l IH]; intros p Hp HN HB; simpl.
  - by rewrite Hp.
  - intros (H1 & H2 & H3). rewrite Hp, HB by set_solver. split_and!; [done..|].
    apply IH; [apply HN|intros y Hy; apply HN|intros y Hy; apply HB|done]; set_solver.
Qed.

Lemma seg_app N B p a x b v :
  seg N B p (a ++ x :: b) v <-> seg N B p a (val x) /\ B x = Some (endn p a) /\ seg N B (node x) b v.
Proof.
  revert p. induction a as [|y a IH]; intros p; simpl; [done|].
  rewrite IH, endn_cons. tauto.
Qed.

Lemma seg_get N B p l v : seg N B p l v -> N p = Some (hdv l v).
Proof. destruct l; [done|]. by intros [? _]. Qed.

Lemma seg_end N B p l v : seg N B p l v -> N (endn p l) = Some v.
Proof.
  revert p. induction l as [|x l IH]; intros p; simpl; [done|].
  rewrite endn_cons. intros (_ & _ & ?). by apply IH.
Qed.

(** Another value at the end. *)
Lemma seg_repoint N B N' B' p l v w :
  apart p l -> N' (endn p l) = Some w ->
  (forall q, q <> endn p l -> q = p \/ (exists x, x ∈ l /\ q = node x) -> N' q = N q) ->
  (forall x, x ∈ l -> B' x = B x) -> seg N B p l v -> seg N' B' p l w.
Proof.
  revert p. induction l as [|x l IH]; intros p Hap He HN HB; [done|].
  rewrite endn_cons in *. intros (H1 & H2 & H3).
  assert (Hne : p <> endn (node x) l).
  { destruct (endn_in (node x) l) as [->|(y & ? & ->)]; apply (proj2 Hap); set_solver. }
  simpl. rewrite HN by auto. rewrite HB by set_solver. split_and!; [done..|].
  apply IH; [by eapply apart_cons|done| |intros y Hy; apply HB; set_solver|done].
  intros q Hq Hin. apply HN; [done|]. right. set_solver.
Qed.

(** A list with its tail pointer [t]. *)
Definition dlist N B (t p : P) (l : list loc) (v : V) : Prop :=
  seg N B p l v /\ t = endn p l /\ apart p l.

Lemma dlist_ext N B N' B' t p l v :
  N' p = N p -> (forall x, x ∈ l -> N' (node x) = N (node x)) -> (forall x, x ∈ l -> B' x = B x) ->
  dlist N B t p l v -> dlist N' B' t p l v.
Proof. intros ? ? ? (Hs & ? & ?). split; [by eapply seg_ext|done]. Qed.

Lemma dlist_remove N B N' B' t t' p a x b v :
  dlist N B t p (a ++ x :: b) v ->
  N' (endn p a) = Some (hdv b v) -> (forall q, q <> endn p a -> q <> node x -> N' q = N q) ->
  (forall y, y ∈ a -> B' y = B y) ->
  match b with
  | [] => t' = endn p a
  | y :: b' => B' y = Some (endn p a) /\ t' = t /\ forall z, z ∈ b' -> B' z = B z
  end ->
  dlist N' B' t' p (a ++ b) v.
Proof.
  intros (Hs & -> & Hap) He HN HBa Hb.
  apply seg_app in Hs as (Hsa & HBx & Hsb).
  destruct (apart_app _ _ _ Hap) as (Hapa & Hapb & Hd).
  assert (Hap' : apart p (a ++ b)).
  { split; [|intros y Hy; apply (proj2 Hap); set_solver]. destruct Hap as [Hnd _].
    apply NoDup_app in Hnd as (? & ? & Hnd). apply NoDup_cons in Hnd as [_ Hnd].
    apply NoDup_app. split_and!; [done|set_solver|done]. }
  assert (Hx : x ∉ a) by (intros Hx; apply (Hd x Hx); set_solver).
  assert (Ha : forall w, N' (endn p a) = Some w -> seg N' B' p a w).
  { intros w Hw. eapply seg_repoint; [done|exact Hw| |done|exact Hsa].
    intros q Hq Hin. apply HN; [done|]. intros ->. destruct Hin as [E|(y & Hy & E%Hinj)].
    - apply (proj2 Hapb x); [set_solver|done].
    - by subst. }
  destruct b as [|y b].
  - rewrite app_nil_r in *. subst t'. split; [by apply Ha|done].
  - destruct Hb as (HBy & -> & HBb). split; [|split; [by rewrite !endn_app, endn_cons|done]].
    rewrite seg_app. simpl in He. split_and!; [by apply Ha|done|].
    destruct Hsb as (HNx & _ & Hsb).
    assert (Hne : forall z, z ∈ y :: b -> N' (node z) = N (node z)).
    { intros z Hz. apply HN.
      - intros E. eapply (endn_apart p a (x :: y :: b) z Hap); [set_solver|done].
      - intros E%Hinj. destruct Hapb as [[? _]%NoDup_cons _]. by subst. }
    eapply seg_ext; [apply Hne; set_solver|intros z Hz; apply Hne; set_solver|exact HBb|done].
Qed.

Lemma dlist_append N B N' B' t t' p l y v :
  dlist N B t p l v -> y ∉ l -> p <> node y ->
  N' (endn p l) = Some (val y) -> N' (node y) = Some v ->
  (forall q, q <> endn p l -> q <> node y -> N' q = N q) ->
  B' y = Some (endn p l) -> (forall z, z ∈ l -> B' z = B z) -> t' = node y ->
  dlist N' B' t' p (l ++ [y]) v.
Proof.
  intros (Hs & -> & Hap) Hy Hp H1 H2 HN HBy HB ->. split_and!.
  - rewrite seg_app. split_and!; [|done|done].
    eapply seg_repoint; [done|exact H1| |done|exact Hs].
    intros q Hq Hin. apply HN; [done|]. intros ->. destruct Hin as [?|(z & ? & ?%Hinj)]; by subst.
  - by rewrite endn_snoc.
  - destruct Hap as [Hnd Hap]. split.
    + apply NoDup_app. split_and!; [done|set_solver|apply NoDup_singleton].
    + intros z [?|Hz]%elem_of_app; [auto|]. apply list_elem_of_singleton in Hz. by subst.
Qed.

Lemma dlist_push N B N' B' t t' p l y v :
  dlist N B t p l v -> y ∉ l -> p <> node y ->
  N' p = Some (val y) -> N' (node y) = Some (hdv l v) ->
  (forall q, q <> p -> q <> node y -> N' q = N q) ->
  B' y = Some p ->
  match l with
  | [] => t' = node y
  | x :: l' => B' x = Some (node y) /\ t' = t /\ forall z, z ∈ l' -> B' z = B z
  end ->
  dlist N' B' t' p (y :: l) v.
Proof.
  intros (Hs & -> & Hap) Hy Hp H1 H2 HN HBy Hl. split_and!.
  - simpl. split_and!; [done..|]. destruct l as [|x l]; [done|].
    destruct Hl as (HBx & _ & HB). destruct Hs as (_ & _ & Hs). simpl. split_and!; [done..|].
    assert (Hne : forall z, z ∈ x :: l -> N' (node z) = N (node z)).
    { intros z Hz. apply HN; [intros E; by apply (proj2 Hap z Hz)|]. intros E%Hinj. by subst. }
    eapply seg_ext; [apply Hne; set_solver|intros z Hz; apply Hne; set_solver|exact HB|done].
  - rewrite endn_cons. destruct l as [|x l]; [done|]. destruct Hl as (_ & -> & _). by rewrite !endn_cons.
  - destruct Hap as [Hnd Hap]. split; [by constructor|].
    intros z [->|?]%elem_of_cons; auto.
Qed.
End Seg.

(** ** The cache *)

(** What an entry says: the name [b_name] in the directory [b_dvp] is [b_vp], or nothing,
    while the two vnodes have these capabilities. *)
Record binding := Binding { b_dvp : ptr; b_dvpid : Z; b_vp : ptr; b_vpid : Z; b_name : list Z }.

Record cache := Cache {
  c_lru : list loc; c_ent : list loc; c_bind : gmap loc binding; c_num : Z; c_max : Z; c_on : bool;
  c_stats : nchstats; c_next : Z; c_vns : gmap loc vnode }.

Definition name_hash (nm : list Z) : Z := foldl (fun h c => u32 (h + c)) 0 nm.
Definition ni_name (ndp : nameidata) : list Z := take (Z.to_nat (ni_namelen ndp)) (ni_ptr ndp).

Definition but (x : loc) (l : list loc) : list loc := filter (fun y => y <> x) l.

Definition c_lists lru ent c := Cache lru ent (c_bind c) (c_num c) (c_max c) (c_on c) (c_stats c) (c_next c) (c_vns c).
Definition c_binds b c := Cache (c_lru c) (c_ent c) b (c_num c) (c_max c) (c_on c) (c_stats c) (c_next c) (c_vns c).
Definition c_count f c :=
  Cache (c_lru c) (c_ent c) (c_bind c) (c_num c) (c_max c) (c_on c) (f (c_stats c)) (c_next c) (c_vns c).
Definition c_ids n v c := Cache (c_lru c) (c_ent c) (c_bind c) (c_num c) (c_max c) (c_on c) (c_stats c) n v.
Definition c_grow c :=
  Cache (c_lru c) (c_ent c) (c_bind c) (c_num c + 1) (c_max c) (c_on c) (c_stats c) (c_next c) (c_vns c).

(** The capability of a vnode. *)
Definition c_id (c : cache) (v : loc) : Z := match c_vns c !! v with Some v => v_id v | None => 0 end.

Definition a_match (ndp : nameidata) (c : cache) (x : loc) : bool :=
  match c_bind c !! x with
  | Some b => bool_decide (b_dvp b = Some (ni_dvp ndp)) && (b_dvpid b =? c_id c (ni_dvp ndp)) &&
              bool_decide (b_name b = ni_name ndp)
  | None => false
  end.

(** The entry found: the last one entered. *)
Definition a_find (ndp : nameidata) (c : cache) : ptr := head (filter (a_match ndp c) (c_ent c)).

(** Used now. *)
Definition a_touch (x : loc) (c : cache) : cache := c_lists (but x (c_lru c) ++ [x]) (c_ent c) c.

(** Not found any more, and the first to be used again; a cache of one entry is lost. *)
Definition a_drop (x : loc) (c : cache) : option cache :=
  match but x (c_lru c) with
  | [] => None
  | rest => Some (c_lists (x :: rest) (but x (c_ent c)) c)
  end.

Definition a_lookup (ndp : nameidata) (c : cache) : option ((Z * nameidata) * cache) :=
  if negb (c_on c) then Some ((0, ndp), c) else
  if NCHNAMLEN <? ni_namelen ndp then Some ((0, with_make 0 ndp), c_count add_long c) else
  let dropped x c := (fun c => ((0, ndp), c)) <$> a_drop x c in
  match a_find ndp c with
  | None => Some ((0, ndp), c_count add_miss c)
  | Some x =>
    if ni_makeentry ndp =? 0 then dropped x (c_count add_bad c) else
    match c_bind c !! x with
    | None => None
    | Some b =>
      match b_vp b with
      | None => if Z.land (ni_nameiop ndp) OPMASK =? CREATE then dropped x c
                else Some ((ENOENT, ndp), a_touch x (c_count add_neg c))
      | Some vp => if b_vpid b =? c_id c vp then Some ((-1, with_vp (Some vp) ndp), a_touch x (c_count add_good c))
                   else dropped x (c_count add_false c)
      end
    end
  end.

(** What [ndp] says now. *)
Definition a_binding (ndp : nameidata) (c : cache) : binding :=
  Binding (Some (ni_dvp ndp)) (c_id c (ni_dvp ndp)) (ni_vp ndp)
    (match ni_vp ndp with Some v => c_id c v | None => 0 end) (ni_name ndp).

(** The entry for [x] holds the binding of [ndp], used last and entered last. *)
Definition a_put (x : loc) (ndp : nameidata) (c : cache) : cache :=
  c_binds (<[x := a_binding ndp c]> (c_bind c)) (c_lists (but x (c_lru c) ++ [x]) (x :: but x (c_ent c)) c).

Definition a_enter (ndp : nameidata) (c : cache) : cache :=
  if negb (c_on c) then c else
  if c_num c <? c_max c then a_put (fresh (dom (c_bind c))) ndp (c_grow c) else
  match c_lru c with [] => c | x :: _ => a_put x ndp c end.

Definition a_next_id (vp : loc) (c : cache) : cache :=
  let n := u32 (c_next c + 1) in
  c_ids n (alter (fun v => Vnode n (v_mount v)) vp (c_vns c)) c.

(** No entry that can be found holds a capability. *)
Definition a_forget (c : cache) : cache :=
  c_binds (map_imap (fun x b => Some (if decide (x ∈ c_ent c) then Binding (b_dvp b) 0 (b_vp b) 0 (b_name b) else b))
             (c_bind c)) c.

Definition a_purge (vp : loc) (c : cache) : cache :=
  let c := a_next_id vp c in
  if c_next c =? 0 then a_next_id vp (a_forget c) else c.

Definition a_on (mp : loc) (c : cache) (x : loc) : bool :=
  match c_bind c !! x with
  | Some b => match b_dvp b with
              | Some d => match c_vns c !! d with Some v => bool_decide (v_mount v = Some mp) | None => false end
              | None => false
              end
  | None => false
  end.

(** The entries of directories of [mp] are freed, the last of them becoming the first to be used
    again; a cache of one entry is lost. *)
Definition a_purgevfs (mp : loc) (c : cache) : option cache :=
  let on := a_on mp c in
  if bool_decide (length (c_lru c) = 1%nat) && existsb on (c_lru c) then None else
  Some (c_binds (map_imap (fun x b => Some (if on x then Binding None (b_dvpid b) None (b_vpid b) (b_name b) else b)) (c_bind c))
         (c_lists (rev (filter on (c_lru c)) ++ filter (fun x => ~ on x) (c_lru c)) (filter (fun x => ~ on x) (c_ent c)) c)).
