(* ===== verification/NcacheLinks.v ===== *)
(** * The links of the name cache

    What the edits of the LRU list and of the hash chains do, on lists that are well
    linked. *)

From S2P Require Import Prelude Ncache NcacheSpec.
Local Open Scope kern_scope.

#[export] Instance PNext_inj : Inj eq eq PNext.
Proof. by intros ?? [= ->]. Qed.
#[export] Instance QEnt_inj : Inj eq eq QEnt.
Proof. by intros ?? [= ->]. Qed.

(** ** What is linked *)

Definition lru_back (s : ncst) (x : loc) : option pptr := nc_heap s !! x ≫= nc_prev.
Definition q_prev (s : ncst) (q : qptr) : option qptr := q_back q s ≫= id.

(** [l] is the LRU list. *)
Definition lru_list (s : ncst) (l : list loc) : Prop :=
  dlist PNext Some (fun pp => lru_get pp s) (lru_back s) (nchtail s) PHead l None.

(** [l] is the hash chain [i]. *)
Definition ring (s : ncst) (i : Z) (l : list loc) : Prop := exists t,
  q_prev s (QHead i) = Some t /\
  dlist QEnt (fun x => Some (QEnt x)) (fun q => q_forw q s) (fun x => q_prev s (QEnt x)) t (QHead i) l (Some (QHead i)).

(** The entry is alone on a dummy chain. *)
Definition lone (s : ncst) (x : loc) : Prop :=
  q_forw (QEnt x) s = Some (Some (QEnt x)) /\ q_prev s (QEnt x) = Some (QEnt x).

(** An entry without its links, and the variables no link edit touches. *)
Definition core (e : namecache) : namecache :=
  Namecache None None None None (nc_dvp e) (nc_dvpid e) (nc_vp e) (nc_vpid e) (nc_nlen e) (nc_name e).
Definition rest_of (s : ncst) := (nchash s, numcache s, stats s, doingcache s, nextvnodeid s, vnodes s, desiredvnodes s).

Record csame (s s' : ncst) : Prop := {
  cs_core : core <$> nc_heap s' = core <$> nc_heap s;
  cs_rest : rest_of s' = rest_of s }.
Record lsame (s s' : ncst) : Prop := {
  ls_get : forall pp, lru_get pp s' = lru_get pp s;
  ls_back : forall x, lru_back s' x = lru_back s x;
  ls_tail : nchtail s' = nchtail s;
  ls_head : nchhead s' = nchhead s }.
Record qsame (s s' : ncst) : Prop := {
  qs_forw : forall q, q_forw q s' = q_forw q s;
  qs_back : forall q, q_back q s' = q_back q s }.

#[export] Instance csame_po : PreOrder csame.
Proof. split; [by split|]. intros s1 s2 s3 [] []. split; congruence. Qed.
#[export] Instance lsame_po : PreOrder lsame.
Proof. split; [by split|]. intros s1 s2 s3 [] []. split; intros; etrans; eauto. Qed.
#[export] Instance qsame_po : PreOrder qsame.
Proof. split; [by split|]. intros s1 s2 s3 [] []. split; intros; etrans; eauto. Qed.

Lemma csame_dom s s' x : csame s s' -> is_Some (nc_heap s' !! x) <-> is_Some (nc_heap s !! x).
Proof.
  intros [Hc _]. assert (H : core <$> nc_heap s' !! x = core <$> nc_heap s !! x).
  { by rewrite <- !lookup_fmap, Hc. }
  destruct (nc_heap s' !! x), (nc_heap s !! x); simpl in H; simplify_eq; split; intros []; eauto; done.
Qed.

Lemma lsame_list s s' l : lsame s s' -> lru_list s l -> lru_list s' l.
Proof.
  intros [Hg Hb Ht _]. unfold lru_list. rewrite Ht. apply (dlist_ext PNext Some); intros; cbv beta; auto.
Qed.

Lemma qsame_ring s s' i l : qsame s s' -> ring s i l -> ring s' i l.
Proof.
  intros [Hf Hb] (t & Ht & Hd). exists t. unfold q_prev. rewrite Hb. split; [done|].
  revert Hd. apply (dlist_ext QEnt (fun x => Some (QEnt x))); intros; cbv beta; by rewrite ?Hf, ?Hb.
Qed.

Lemma qsame_lone s s' x : qsame s s' -> lone s x -> lone s' x.
Proof. intros [Hf Hb] [H1 H2]. split; unfold q_prev; by rewrite ?Hf, ?Hb. Qed.

(** ** Assignments *)

Definition upd (x : loc) (f : namecache -> namecache) (s : ncst) : ncst := with_heap (alter f x (nc_heap s)) s.

Lemma assign_run x f s : is_Some (nc_heap s !! x) -> assign x f s = Some (tt, upd x f s).
Proof.
  intros [e He]. unfold assign, entry. kunf. rewrite He. do 2 f_equal. unfold upd. f_equal.
  apply map_eq. intros y. rewrite lookup_insert, lookup_alter. case_decide; [|done]. subst. by rewrite He.
Qed.

(** The views of a state after assignments. *)
Ltac views :=
  unfold upd, lru_back, q_prev, q_forw, q_back, lru_get, rest_of; simpl;
  rewrite ?lookup_alter, ?lookup_insert; repeat case_decide; simplify_eq/=;
  rewrite ?lookup_alter, ?lookup_insert; repeat case_decide; simplify_eq/=; try done.

Lemma upd_core x f s : (forall e, core (f e) = core e) -> csame s (upd x f s).
Proof.
  intros Hf. split; [|done]. apply map_eq. intros y. rewrite !lookup_fmap. views.
  destruct (nc_heap s !! y); simpl; by rewrite ?Hf.
Qed.

Lemma upd_qsame x f s : (forall e, nc_forw (f e) = nc_forw e) -> (forall e, nc_back (f e) = nc_back e) ->
  qsame s (upd x f s).
Proof.
  intros Hf Hb. split; intros [i|y]; views; destruct (nc_heap s !! y); simpl; by rewrite ?Hf, ?Hb.
Qed.

Lemma upd_lsame x f s : (forall e, nc_nxt (f e) = nc_nxt e) -> (forall e, nc_prev (f e) = nc_prev e) ->
  lsame s (upd x f s).
Proof.
  intros Hf Hb. split; try done.
  - intros [|y]; views; destruct (nc_heap s !! y); simpl; by rewrite ?Hf.
  - intros y. views. destruct (nc_heap s !! y); simpl; by rewrite ?Hb.
Qed.

(** [*pp = v]. *)
Definition lru_upd (pp : pptr) (v : ptr) (s : ncst) : ncst :=
  match pp with PHead => with_head v s | PNext x => upd x (set_nxt v) s end.

Lemma lru_store_run pp v s : is_Some (lru_get pp s) -> lru_store pp v s = Some (tt, lru_upd pp v s).
Proof.
  destruct pp as [|x]; [done|]. simpl. rewrite fmap_is_Some. apply assign_run.
Qed.

Lemma lru_upd_get pp v s qq : is_Some (lru_get pp s) ->
  lru_get qq (lru_upd pp v s) = if decide (qq = pp) then Some v else lru_get qq s.
Proof.
  destruct pp as [|x]; simpl.
  - intros _. by destruct qq.
  - rewrite fmap_is_Some. intros [e He]. destruct qq as [|y]; views. by rewrite He.
Qed.

Lemma lru_upd_back pp v s x : lru_back (lru_upd pp v s) x = lru_back s x.
Proof. destruct pp as [|y]; views. by destruct (nc_heap s !! x). Qed.

Lemma lru_upd_same pp v s : csame s (lru_upd pp v s) /\ qsame s (lru_upd pp v s) /\ nchtail (lru_upd pp v s) = nchtail s.
Proof.
  destruct pp as [|x]; simpl; [done|]. split_and!; [by apply upd_core|by apply upd_qsame|done].
Qed.

(** ** The LRU list *)

Lemma hdv_head l : hdv Some l None = head l.
Proof. by destruct l. Qed.

Lemma lru_entry s l x : lru_list s l -> x ∈ l -> is_Some (nc_heap s !! x).
Proof.
  intros (Hs & _ & _) (a & b & ->)%list_elem_of_split. apply seg_app in Hs as (_ & Hb & _).
  unfold lru_back in Hb. destruct (nc_heap s !! x); [by eexists|done].
Qed.

Lemma lru_tail_some s l : lru_list s l -> is_Some (lru_get (nchtail s) s).
Proof. intros (Hs & -> & _). apply seg_end in Hs. by eexists. Qed.

Lemma lru_list_head s l : lru_list s l -> nchhead s = head l.
Proof. intros (Hs & _ & _). apply seg_get in Hs. rewrite hdv_head in Hs. by injection Hs. Qed.

(** An entry in the middle of the list. *)
Lemma lru_links s a x b : lru_list s (a ++ x :: b) -> exists e,
  nc_heap s !! x = Some e /\ nc_prev e = Some (endn PNext PHead a) /\ nc_nxt e = head b /\
  is_Some (lru_get (endn PNext PHead a) s).
Proof.
  intros Hl. destruct (lru_entry s _ x Hl) as [e He]; [set_solver|]. exists e.
  destruct Hl as (Hs & _ & _). apply seg_app in Hs as (Ha & Hb & Hn).
  unfold lru_back in Hb. rewrite He in Hb. split_and!; [done|done| |].
  - apply seg_get in Hn. simpl in Hn. rewrite He, hdv_head in Hn. by injection Hn.
  - apply seg_end in Ha. by eexists.
Qed.

Lemma upd_prev_get x v s pp : lru_get pp (upd x (set_prev v) s) = lru_get pp s.
Proof. destruct pp as [|y]; views. by destruct (nc_heap s !! y). Qed.

Lemma upd_prev_back x v s y : is_Some (nc_heap s !! x) ->
  lru_back (upd x (set_prev v) s) y = if decide (y = x) then v else lru_back s y.
Proof. intros [e He]. views. by rewrite He. Qed.

Lemma upd_dom x f s y : is_Some (nc_heap (upd x f s) !! y) <-> is_Some (nc_heap s !! y).
Proof. unfold upd. simpl. rewrite lookup_alter. case_decide; [subst; by rewrite fmap_is_Some|done]. Qed.

Lemma lru_unlink_run s a x b : lru_list s (a ++ x :: b) -> exists s',
  lru_unlink x (head b) s = Some (tt, s') /\ lru_list s' (a ++ b) /\ csame s s' /\ qsame s s'.
Proof.
  intros Hl. destruct (lru_links _ _ _ _ Hl) as (e & He & Hprev & _ & Hsome).
  set (pp := endn PNext PHead a) in *. pose proof (lru_upd_same pp (head b) s) as (Hc & Hq & Ht).
  unfold lru_unlink, entry, kbind at 1, kderef. rewrite He. unfold knonnull, kbind at 1. rewrite Hprev.
  unfold kbind at 1. rewrite lru_store_run by done.
  assert (HN : forall q, lru_get q (lru_upd pp (head b) s) = if decide (q = pp) then Some (head b) else lru_get q s)
    by (intros; by apply lru_upd_get).
  destruct b as [|y b]; cbn [head].
  - eexists. split; [reflexivity|]. split_and!.
    + eapply (dlist_remove PNext Some); [exact Hl|..]; simpl.
      * fold pp. destruct pp; [done|]. specialize (HN (PNext l)). by rewrite decide_True in HN.
      * fold pp. intros q Hne _. etrans; [|etrans; [apply (HN q)|by rewrite decide_False]]. by destruct q.
      * intros z _. apply (lru_upd_back pp None s).
      * done.
    + destruct Hc. by split.
    + destruct Hq. by split.
  - assert (Hy : is_Some (nc_heap s !! y)) by (eapply lru_entry; [done|set_solver]).
    assert (Hy' : is_Some (nc_heap (lru_upd pp (Some y) s) !! y)) by (by apply (csame_dom _ _ _ Hc)).
    rewrite assign_run by done. eexists. split; [reflexivity|]. split_and!.
    + eapply (dlist_remove PNext Some); [exact Hl|..]; fold pp; cbv beta.
      * by rewrite upd_prev_get, HN, decide_True.
      * intros q Hne _. by rewrite upd_prev_get, HN, decide_False.
      * intros z Hz. rewrite upd_prev_back, lru_upd_back by done. rewrite decide_False; [done|].
        intros ->. destruct Hl as (_ & _ & [Hnd _]). apply NoDup_app in Hnd as (_ & Hd & _).
        apply (Hd y Hz). set_solver.
      * rewrite upd_prev_back, decide_True by done. split_and!; [done|simpl; exact Ht|].
        intros z Hz. rewrite upd_prev_back, lru_upd_back by done. rewrite decide_False; [done|].
        intros ->. destruct Hl as (_ & _ & [Hnd _]). apply NoDup_app in Hnd as (_ & _ & Hnd).
        apply NoDup_cons in Hnd as [_ [? _]%NoDup_cons]. done.
    + etrans; [done|]. by apply upd_core.
    + etrans; [done|]. by apply upd_qsame.
Qed.

Lemma upd_nxt_get x v s pp : is_Some (nc_heap s !! x) ->
  lru_get pp (upd x (set_nxt v) s) = if decide (pp = PNext x) then Some v else lru_get pp s.
Proof. intros H. apply (lru_upd_get (PNext x) v s pp). simpl. by rewrite fmap_is_Some. Qed.

Lemma upd_nxt_back x v s y : lru_back (upd x (set_nxt v) s) y = lru_back s y.
Proof. apply (lru_upd_back (PNext x)). Qed.

Lemma tail_not s l x : lru_list s l -> x ∉ l -> nchtail s <> PNext x.
Proof.
  intros (_ & -> & _) Hx. destruct (endn_in PNext PHead l) as [->|(y & Hy & ->)]; [done|].
  intros [= ->]. done.
Qed.

Lemma lru_append_run s l x : lru_list s l -> x ∉ l -> is_Some (nc_heap s !! x) -> exists s',
  lru_append x s = Some (tt, s') /\ lru_list s' (l ++ [x]) /\ csame s s' /\ qsame s s'.
Proof.
  intros Hl Hx He. pose proof (tail_not _ _ _ Hl Hx) as Htx. set (t := nchtail s) in *.
  set (s2 := upd x (set_prev (Some t)) (upd x (set_nxt None) s)).
  assert (He1 : is_Some (nc_heap (upd x (set_nxt None) s) !! x)) by by apply upd_dom.
  assert (HN : forall q, lru_get q s2 = if decide (q = PNext x) then Some None else lru_get q s).
  { intros q. unfold s2. by rewrite upd_prev_get, upd_nxt_get. }
  assert (HB : forall y, lru_back s2 y = if decide (y = x) then Some t else lru_back s y).
  { intros y. unfold s2. by rewrite upd_prev_back, upd_nxt_back. }
  assert (Ht : is_Some (lru_get t s2)).
  { rewrite HN, decide_False by done. by eapply lru_tail_some. }
  assert (H2 : csame s s2 /\ qsame s s2).
  { split; transitivity (upd x (set_nxt None) s); first [by apply upd_core|by apply upd_qsame]. }
  pose proof (lru_upd_same t (Some x) s2) as (Hc & Hq & _).
  unfold lru_append, kbind at 1. rewrite assign_run by done. unfold kbind at 1, kgets.
  change (nchtail (upd x (set_nxt None) s)) with t. unfold kbind at 1. rewrite assign_run by done. fold s2.
  unfold kbind at 1. rewrite lru_store_run by done. eexists. split; [reflexivity|]. split_and!.
  - assert (HN4 : forall q, lru_get q (with_tail (PNext x) (lru_upd t (Some x) s2)) =
      if decide (q = t) then Some (Some x) else if decide (q = PNext x) then Some None else lru_get q s).
    { intros q. rewrite <- HN, <- lru_upd_get by done. by destruct q. }
    assert (HB4 : forall y, lru_back (with_tail (PNext x) (lru_upd t (Some x) s2)) y =
      if decide (y = x) then Some t else lru_back s y).
    { intros y. rewrite <- HB, <- (lru_upd_back t (Some x) s2). done. }
    assert (Hend : endn PNext PHead l = t) by (symmetry; apply Hl).
    eapply (dlist_append PNext Some); [exact Hl|done|done|..]; rewrite ?Hend; cbv beta.
    + by rewrite HN4, decide_True.
    + by rewrite HN4, decide_False, decide_True by done.
    + intros q H1 H3. by rewrite HN4, !decide_False by done.
    + by rewrite HB4, decide_True.
    + intros z Hz. rewrite HB4, decide_False; [done|]. by intros ->.
    + done.
  - destruct H2 as [H2 _]. etrans; [exact H2|]. destruct Hc. by split.
  - destruct H2 as [_ H2]. etrans; [exact H2|]. destruct Hq. by split.
Qed.

(** [nxt] is the head of a list that is not empty. *)
Lemma lru_push_run s y l x : lru_list s (y :: l) -> x ∉ y :: l -> is_Some (nc_heap s !! x) -> exists s',
  lru_push x (Some y) s = Some (tt, s') /\ lru_list s' (x :: y :: l) /\ csame s s' /\ qsame s s'.
Proof.
  intros Hl Hx He. set (s1 := upd x (set_nxt (Some y)) s). set (s2 := upd x (set_prev (Some PHead)) s1).
  assert (Hy : is_Some (nc_heap s !! y)) by (eapply lru_entry; [done|set_solver]).
  assert (Hxy : x <> y) by (intros ->; set_solver).
  assert (He1 : is_Some (nc_heap s1 !! x)) by by apply upd_dom.
  assert (Hy2 : is_Some (nc_heap s2 !! y)) by by do 2 apply upd_dom.
  unfold lru_push, kbind at 1. rewrite assign_run by done. fold s1. unfold kbind at 1.
  rewrite assign_run by done. fold s2. unfold kbind at 1, knonnull. unfold kbind at 1.
  rewrite assign_run by done. set (s3 := upd y (set_prev (Some (PNext x))) s2).
  assert (Hs3 : csame s s3 /\ qsame s s3).
  { split; (transitivity s2; [transitivity s1|]); first [by apply upd_core|by apply upd_qsame]. }
  eexists. split; [reflexivity|]. split_and!.
  - assert (HN : forall q, lru_get q (with_head (Some x) s3) =
      if decide (q = PHead) then Some (Some x) else if decide (q = PNext x) then Some (Some y) else lru_get q s).
    { intros [|z]; [done|]. change (lru_get (PNext z) s3 = if decide (PNext z = PNext x) then Some (Some y) else lru_get (PNext z) s).
      unfold s3, s2, s1. by rewrite !upd_prev_get, upd_nxt_get. }
    assert (HB : forall z, lru_back (with_head (Some x) s3) z =
      if decide (z = y) then Some (PNext x) else if decide (z = x) then Some PHead else lru_back s z).
    { intros z. change (lru_back s3 z = if decide (z = y) then Some (PNext x) else if decide (z = x) then Some PHead else lru_back s z).
      unfold s3, s2, s1. by rewrite !upd_prev_back, upd_nxt_back. }
    eapply (dlist_push PNext Some); [exact Hl|done|done|..]; cbv beta.
    + by rewrite HN, decide_True.
    + by rewrite HN, decide_False, decide_True.
    + intros q H1 H3. by rewrite HN, !decide_False.
    + by rewrite HB, decide_False, decide_True.
    + rewrite HB, decide_True by done. split_and!; [done..|]. intros z Hz.
      destruct Hl as (_ & _ & [[? _]%NoDup_cons _]). rewrite HB, !decide_False; [done|..]; intros ->; set_solver.
  - destruct Hs3 as [[] _]. by split.
  - destruct Hs3 as [_ []]. by split.
Qed.

Lemma lru_move_run s a x b : lru_list s (a ++ x :: b) -> exists s',
  lru_move_end x s = Some (tt, s') /\ lru_list s' (a ++ b ++ [x]) /\ csame s s' /\ qsame s s'.
Proof.
  intros Hl. destruct (lru_links _ _ _ _ Hl) as (e & He & Hprev & Hnxt & _).
  unfold lru_move_end, entry, kbind at 1, kderef. rewrite He, Hnxt. destruct b as [|y b]; cbn [head].
  { exists s. split; [reflexivity|]. split; [done|]. by split. }
  destruct (lru_unlink_run s a x (y :: b) Hl) as (s1 & Hrun & Hl1 & Hc1 & Hq1).
  assert (Hx : x ∉ a ++ y :: b).
  { destruct Hl as (_ & _ & [Hnd _]). apply NoDup_app in Hnd as (_ & Hd & Hb). apply NoDup_cons in Hb as [? _].
    intros [?|?]%elem_of_app; [|done]. apply (Hd x); set_solver. }
  destruct (lru_append_run s1 _ x Hl1 Hx) as (s2 & Hrun2 & Hl2 & Hc2 & Hq2).
  { apply (csame_dom _ _ _ Hc1). by eexists. }
  exists s2. split; [|split_and!; [by rewrite app_assoc|by etrans|by etrans]].
  unfold lru_unlink, entry, kbind at 1, kderef in Hrun. rewrite He in Hrun. cbn [head] in Hrun.
  rewrite Hprev in *. unfold knonnull in *. cbn in Hrun |- *. unfold kbind in *.
  destruct (lru_store _ _ s) as [[[] s']|]; [|done]. by rewrite Hrun.
Qed.

(** ** The hash chains *)

Definition qf (q : qptr) (v : option qptr) (s : ncst) : ncst :=
  match q with
  | QHead i => with_tbl (alter (fun h => NchashHead v (nch_back h)) i (nchashtbl s)) s
  | QEnt x => upd x (set_forw v) s
  end.
Definition qb (q : qptr) (v : option qptr) (s : ncst) : ncst :=
  match q with
  | QHead i => with_tbl (alter (fun h => NchashHead (nch_forw h) v) i (nchashtbl s)) s
  | QEnt x => upd x (set_back v) s
  end.

(** The node exists. *)
Definition qnode (s : ncst) (q : qptr) : Prop := is_Some (q_forw q s).

Lemma insert_alter {A} (m : gmap Z A) i x f : m !! i = Some x -> <[i := f x]> m = alter f i m.
Proof. intros H. apply map_eq. intros j. rewrite lookup_insert, lookup_alter. case_decide; [subst; by rewrite H|done]. Qed.

Lemma q_set_forw_run q v s : qnode s q -> q_set_forw q v s = Some (tt, qf q v s).
Proof.
  unfold qnode. destruct q as [i|x]; simpl; rewrite fmap_is_Some; [|apply assign_run].
  intros [h Hh]. kunf. rewrite Hh. by rewrite <- (insert_alter _ _ h).
Qed.

Lemma q_set_back_run q v s : qnode s q -> q_set_back q v s = Some (tt, qb q v s).
Proof.
  unfold qnode. destruct q as [i|x]; simpl; rewrite fmap_is_Some; [|apply assign_run].
  intros [h Hh]. kunf. rewrite Hh. by rewrite <- (insert_alter _ _ h).
Qed.

Lemma qf_forw q v s q' : qnode s q -> q_forw q' (qf q v s) = if decide (q' = q) then Some v else q_forw q' s.
Proof.
  unfold qnode. destruct q as [i|x]; simpl; rewrite fmap_is_Some; intros [h Hh]; destruct q' as [j|y];
    views; by rewrite Hh.
Qed.

Lemma qf_prev q v s q' : q_prev (qf q v s) q' = q_prev s q'.
Proof.
  destruct q as [i|x], q' as [j|y]; views; [by destruct (nchashtbl s !! j)|by destruct (nc_heap s !! y)].
Qed.

Lemma qb_forw q v s q' : q_forw q' (qb q v s) = q_forw q' s.
Proof.
  destruct q as [i|x], q' as [j|y]; views; [by destruct (nchashtbl s !! j)|by destruct (nc_heap s !! y)].
Qed.

Lemma qb_prev q v s q' : qnode s q -> q_prev (qb q v s) q' = if decide (q' = q) then v else q_prev s q'.
Proof.
  unfold qnode. destruct q as [i|x]; simpl; rewrite fmap_is_Some; intros [h Hh]; destruct q' as [j|y];
    views; by rewrite Hh.
Qed.

Lemma qf_same q v s : csame s (qf q v s) /\ lsame s (qf q v s).
Proof.
  destruct q as [i|x]; simpl; [split; split; try done; intros []; done|].
  split; [by apply upd_core|by apply upd_lsame].
Qed.

Lemma qb_same q v s : csame s (qb q v s) /\ lsame s (qb q v s).
Proof.
  destruct q as [i|x]; simpl; [split; split; try done; intros []; done|].
  split; [by apply upd_core|by apply upd_lsame].
Qed.

Lemma qf_node q v s q' : qnode s q -> qnode (qf q v s) q' <-> qnode s q'.
Proof. intros H. unfold qnode. rewrite qf_forw by done. case_decide; [subst; split; [done|by eexists]|done]. Qed.

Lemma qb_node q v s q' : qnode (qb q v s) q' <-> qnode s q'.
Proof. unfold qnode. by rewrite qb_forw. Qed.

(** The state after [remque] of an entry between [b] and [n]. *)
Definition removed (x : loc) (n b : qptr) (s : ncst) : ncst := qb (QEnt x) None (qf b (Some n) (qb n (Some b) s)).

Lemma q_prev_back s q b : q_prev s q = Some b -> q_back q s = Some (Some b).
Proof. unfold q_prev. destruct (q_back q s) as [o|]; [|done]. simpl. by intros ->. Qed.

Lemma remque_run s x n b :
  q_forw (QEnt x) s = Some (Some n) -> q_prev s (QEnt x) = Some b -> qnode s n -> qnode s b ->
  remque (QEnt x) s = Some (tt, removed x n b s) /\ csame s (removed x n b s) /\ lsame s (removed x n b s).
Proof.
  intros Hn Hb Hqn Hqb. split; [|split].
  - unfold remque, kbind at 1, kderef. rewrite Hn. unfold knonnull, kbind at 1, kbind at 1, kderef.
    rewrite (q_prev_back _ _ _ Hb). unfold kbind at 1. rewrite q_set_back_run by done.
    unfold kbind at 1, kderef.
    assert (H1 : q_prev (qb n (Some b) s) (QEnt x) = Some b) by (rewrite qb_prev by done; by case_decide).
    rewrite (q_prev_back _ _ _ H1). unfold kbind at 1, knonnull. unfold kbind at 1, kderef.
    rewrite qb_forw, Hn. unfold kbind at 1. rewrite q_set_forw_run by by apply qb_node.
    rewrite q_set_back_run; [done|]. apply qf_node, qb_node; [by apply qb_node|]. by eexists.
  - unfold removed. etrans; [apply (qb_same n)|]. etrans; [apply (qf_same b)|apply (qb_same (QEnt x))].
  - unfold removed. etrans; [apply (qb_same n)|]. etrans; [apply (qf_same b)|apply (qb_same (QEnt x))].
Qed.

Lemma removed_forw x n b s q : qnode s b -> q_forw q (removed x n b s) = if decide (q = b) then Some (Some n) else q_forw q s.
Proof. intros H. unfold removed. rewrite qb_forw, qf_forw by by apply qb_node. by rewrite qb_forw. Qed.

Lemma removed_prev x n b s q : qnode s n -> qnode s b -> qnode s (QEnt x) ->
  q_prev (removed x n b s) q = if decide (q = QEnt x) then None else if decide (q = n) then Some b else q_prev s q.
Proof.
  intros Hn Hb Hx. unfold removed. rewrite qb_prev by (apply qf_node, qb_node; [by apply qb_node|done]).
  case_decide; [done|]. by rewrite qf_prev, qb_prev.
Qed.

Definition nextq (i : Z) (l : list loc) : qptr := match l with [] => QHead i | y :: _ => QEnt y end.
Abbreviation prevq i a := (endn QEnt (QHead i) a).

Lemma hdv_nextq i l : hdv (fun x => Some (QEnt x)) l (Some (QHead i)) = Some (nextq i l).
Proof. by destruct l. Qed.

Lemma ring_first s i l : ring s i l -> q_forw (QHead i) s = Some (Some (nextq i l)).
Proof. intros (t & _ & Hs & _ & _). apply seg_get in Hs. by rewrite hdv_nextq in Hs. Qed.

Lemma ring_links s i a x b : ring s i (a ++ x :: b) ->
  q_forw (QEnt x) s = Some (Some (nextq i b)) /\ q_prev s (QEnt x) = Some (prevq i a) /\ qnode s (prevq i a).
Proof.
  intros (t & _ & Hs & _ & _). apply seg_app in Hs as (Ha & Hb & Hs). apply seg_get in Hs. apply seg_end in Ha.
  rewrite hdv_nextq in Hs. split_and!; [done|done|by eexists].
Qed.

Lemma ring_node s i l x : ring s i l -> x ∈ l -> qnode s (QEnt x).
Proof. intros Hr (a & b & ->)%list_elem_of_split. apply ring_links in Hr as [H _]. by eexists. Qed.

Lemma ring_nextq s i a x b : ring s i (a ++ x :: b) -> qnode s (nextq i b).
Proof.
  intros Hr. destruct b as [|y b].
  - eexists. by apply ring_first in Hr.
  - eapply ring_node; [done|]. set_solver.
Qed.

Lemma ring_apart s i l : ring s i l -> apart QEnt (QHead i) l.
Proof. by intros (t & _ & _ & _ & ?). Qed.

Lemma prevq_cases i a : prevq i a = QHead i \/ exists y, y ∈ a /\ prevq i a = QEnt y.
Proof. apply endn_in. Qed.

Lemma nextq_cases i b : nextq i b = QHead i \/ exists y, y ∈ b /\ nextq i b = QEnt y.
Proof. destruct b as [|y b]; [by left|]. right. exists y. split; [set_solver|done]. Qed.

Lemma ring_remove s i a x b : ring s i (a ++ x :: b) -> ring (removed x (nextq i b) (prevq i a) s) i (a ++ b).
Proof.
  intros Hr. pose proof (ring_links _ _ _ _ _ Hr) as (Hx & Hp & Hqb). pose proof (ring_nextq _ _ _ _ _ Hr) as Hqn.
  assert (Hqx : qnode s (QEnt x)) by by eexists.
  pose proof (removed_forw x (nextq i b) (prevq i a) s) as HN.
  pose proof (fun q => removed_prev x (nextq i b) (prevq i a) s q Hqn Hqb Hqx) as HB.
  destruct (ring_apart _ _ _ Hr) as [Hnd _]. apply NoDup_app in Hnd as (_ & Hdis & Hnd).
  apply NoDup_cons in Hnd as [Hxb Hnd].
  destruct Hr as (t & Ht & Hd). exists (match b with [] => prevq i a | _ => t end). split.
  { rewrite HB, decide_False by done. destruct b; cbn [nextq]; [by rewrite decide_True|by rewrite decide_False]. }
  eapply (dlist_remove QEnt (fun x => Some (QEnt x))); [exact Hd|..]; cbv beta.
  - rewrite HN, decide_True by done. by rewrite hdv_nextq.
  - intros q Hq _. by rewrite HN, decide_False.
  - intros y Hy. assert (y ∉ x :: b) by by apply Hdis.
    rewrite HB, !decide_False; [done| |intros [= ->]; set_solver].
    intros E. destruct (nextq_cases i b) as [E'|(z & ? & E')]; rewrite E' in E; simplify_eq; set_solver.
  - destruct b as [|y b]; [done|]. rewrite HB. cbn [nextq]. rewrite decide_False, decide_True by
      (done || intros [= ->]; set_solver). split_and!; [done..|]. intros z Hz.
    rewrite HB, !decide_False; [done|..]; intros [= ->]; [|set_solver].
    by apply NoDup_cons in Hnd as [? _].
Qed.

(** A chain, and a dummy chain, that the removal does not meet. *)
Lemma removed_ring s x n b j l : qnode s n -> qnode s b -> qnode s (QEnt x) -> x ∉ l ->
  n <> QHead j -> b <> QHead j -> (forall y, y ∈ l -> n <> QEnt y /\ b <> QEnt y) ->
  ring s j l -> ring (removed x n b s) j l.
Proof.
  intros Hn Hb Hx Hxl Hnj Hbj Hl (t & Ht & Hd). exists t. split; [by rewrite removed_prev, !decide_False by done|].
  revert Hd. apply (dlist_ext QEnt (fun x => Some (QEnt x))); cbv beta.
  - by rewrite removed_forw, decide_False by done.
  - intros y Hy. rewrite removed_forw, decide_False; [done| |done]. intros E. destruct (Hl y Hy). congruence.
  - intros y Hy. rewrite removed_prev, !decide_False; [done|..]; try done.
    + intros E. destruct (Hl y Hy). congruence.
    + intros [= ->]. done.
Qed.

Lemma removed_lone s x n b y : qnode s n -> qnode s b -> qnode s (QEnt x) -> y <> x ->
  n <> QEnt y -> b <> QEnt y -> lone s y -> lone (removed x n b s) y.
Proof.
  intros Hn Hb Hx Hy Hny Hby [H1 H2]. split.
  - by rewrite removed_forw, decide_False by done.
  - rewrite removed_prev, !decide_False by (done || by intros [= ->]). done.
Qed.

(** ** All the chains *)

Section Chains.
Context (mask : Z).

Definition bucket (bk : loc -> Z) (i : Z) (ents : list loc) : list loc := filter (fun x => bk x = i) ents.

(** The entries [ents] are on the chains [bk] names, in order; those of [free] on dummy chains. *)
Record rings (s : ncst) (bk : loc -> Z) (ents free : list loc) : Prop := {
  rg_ring : forall i, 0 <= i <= mask -> ring s i (bucket bk i ents);
  rg_lone : forall x, x ∈ free -> lone s x;
  rg_range : forall x, x ∈ ents -> 0 <= bk x <= mask;
  rg_nodup : NoDup ents;
  rg_apart : forall x, x ∈ free -> x ∉ ents }.

Lemma qsame_rings s s' bk ents free : qsame s s' -> rings s bk ents free -> rings s' bk ents free.
Proof.
  intros Hq [H1 H2 ? ? ?]. split; try done.
  - intros i Hi. eapply qsame_ring; eauto.
  - intros x Hx. eapply qsame_lone; eauto.
Qed.

Lemma elem_of_bucket bk i ents x : x ∈ bucket bk i ents <-> bk x = i /\ x ∈ ents.
Proof. unfold bucket. by rewrite list_elem_of_filter. Qed.

Lemma elem_of_but x y l : y ∈ but x l <-> y <> x /\ y ∈ l.
Proof. unfold but. by rewrite list_elem_of_filter. Qed.

Lemma but_notin x l : x ∉ l -> but x l = l.
Proof. intros Hx. apply filter_all. intros y Hy ->. done. Qed.

Lemma but_split x a b : NoDup (a ++ x :: b) -> but x (a ++ x :: b) = a ++ b.
Proof.
  intros (_ & Hd & [Hb _]%NoDup_cons)%NoDup_app. unfold but. rewrite filter_app, filter_cons_False by auto.
  f_equal; apply filter_all; intros y Hy ->; [apply (Hd x Hy); set_solver|done].
Qed.

Lemma NoDup_but x l : NoDup l -> NoDup (but x l).
Proof. apply NoDup_filter. Qed.

Lemma bucket_but bk i x ents : bucket bk i (but x ents) = but x (bucket bk i ents).
Proof. unfold bucket, but. rewrite !list_filter_filter. apply list_filter_iff. intros y. tauto. Qed.

Lemma NoDup_bucket bk i l : NoDup l -> NoDup (bucket bk i l).
Proof. apply NoDup_filter. Qed.

Lemma remque_rings s bk ents free x : rings s bk ents free -> x ∈ ents \/ x ∈ free -> exists s',
  remque (QEnt x) s = Some (tt, s') /\ csame s s' /\ lsame s s' /\ rings s' bk (but x ents) (but x free).
Proof.
  intros [Hr Hl Hrg Hnd Hap] [Hx|Hx].
  - pose proof (Hrg x Hx) as Hi. set (i := bk x) in *.
    assert (Hin : x ∈ bucket bk i ents) by by apply elem_of_bucket.
    apply list_elem_of_split in Hin as (a & b & Hsp). pose proof (Hr i Hi) as Hri. rewrite Hsp in Hri.
    destruct (ring_links _ _ _ _ _ Hri) as (Hn & Hp & Hqp). pose proof (ring_nextq _ _ _ _ _ Hri) as Hqn.
    assert (Hqx : qnode s (QEnt x)) by by eexists.
    destruct (remque_run s x _ _ Hn Hp Hqn Hqp) as (Hrun & Hc & Hls). eexists. split; [exact Hrun|].
    assert (Hina : forall y, y ∈ a \/ y ∈ b -> bk y = i /\ y ∈ ents).
    { intros y Hy. apply elem_of_bucket. rewrite Hsp. set_solver. }
    split_and!; [done|done|]. split.
    + intros j Hj. rewrite bucket_but. destruct (decide (j = i)) as [->|Hne].
      * rewrite Hsp, but_split; [by apply ring_remove|]. rewrite <- Hsp. by apply NoDup_bucket.
      * assert (Hxj : x ∉ bucket bk j ents) by (rewrite elem_of_bucket; by intros [<- _]).
        rewrite but_notin by done. apply removed_ring; try done; [| | |by apply Hr].
        -- destruct (nextq_cases i b) as [->|(z & Hz & ->)]; [by intros [= ->]|done].
        -- destruct (prevq_cases i a) as [->|(z & Hz & ->)]; [by intros [= ->]|done].
        -- intros y [Hy _]%elem_of_bucket. split.
           ++ destruct (nextq_cases i b) as [->|(z & Hz & ->)]; [done|intros [= ->]].
              destruct (Hina y); [by right|congruence].
           ++ destruct (prevq_cases i a) as [->|(z & Hz & ->)]; [done|intros [= ->]].
              destruct (Hina y); [by left|congruence].
    + intros y [Hy1 Hy]%elem_of_but. pose proof (Hap y Hy) as Hye. apply removed_lone; try done; [| |by apply Hl].
      * destruct (nextq_cases i b) as [->|(z & Hz & ->)]; [done|intros [= ->]]. destruct (Hina y); [by right|done].
      * destruct (prevq_cases i a) as [->|(z & Hz & ->)]; [done|intros [= ->]]. destruct (Hina y); [by left|done].
    + intros y [_ Hy]%elem_of_but. by apply Hrg.
    + by apply NoDup_but.
    + intros y [_ Hy]%elem_of_but [_ Hy']%elem_of_but. by apply (Hap y).
  - pose proof (Hap x Hx) as Hxe. destruct (Hl x Hx) as [Hn Hp].
    assert (Hqx : qnode s (QEnt x)) by by eexists.
    destruct (remque_run s x _ _ Hn Hp Hqx Hqx) as (Hrun & Hc & Hls). eexists. split; [exact Hrun|].
    split_and!; [done|done|]. rewrite (but_notin x ents) by done. split; try done.
    + intros j Hj. apply removed_ring; try done; [| |by apply Hr].
      * by intros [_ ?]%elem_of_bucket.
      * intros y [_ Hy]%elem_of_bucket. split; intros [= ->]; done.
    + intros y [Hy1 Hy]%elem_of_but. apply removed_lone; try done; [by intros [= ->]|by intros [= ->]|by apply Hl].
    + intros y [_ Hy]%elem_of_but. by apply Hap.
Qed.

(** The state after [insque] of [x] at the head of the chain [i], before [n]. *)
Definition inserted (x : loc) (i : Z) (n : qptr) (s : ncst) : ncst :=
  qb n (Some (QEnt x)) (qb (QEnt x) (Some (QHead i)) (qf (QHead i) (Some (QEnt x)) (qf (QEnt x) (Some n) s))).

Lemma insque_run s x i n : qnode s (QEnt x) -> q_forw (QHead i) s = Some (Some n) -> qnode s n ->
  insque (QEnt x) (QHead i) s = Some (tt, inserted x i n s) /\ csame s (inserted x i n s) /\
  lsame s (inserted x i n s).
Proof.
  intros Hx Hi Hn. assert (Hqi : qnode s (QHead i)) by by eexists.
  set (s1 := qf (QEnt x) (Some n) s). set (s2 := qf (QHead i) (Some (QEnt x)) s1).
  set (s3 := qb (QEnt x) (Some (QHead i)) s2).
  assert (H1 : forall q, qnode s1 q <-> qnode s q) by (intros; by apply qf_node).
  assert (H2 : forall q, qnode s2 q <-> qnode s q) by (intros; rewrite <- H1; apply qf_node; by apply H1).
  assert (H3 : forall q, qnode s3 q <-> qnode s q) by (intros; rewrite <- H2; apply qb_node).
  split_and!.
  - unfold insque, kbind at 1, kderef. rewrite Hi. unfold kbind at 1. rewrite q_set_forw_run by done. fold s1.
    unfold kbind at 1. rewrite q_set_forw_run by by apply H1. fold s2.
    unfold kbind at 1. rewrite q_set_back_run by by apply H2. fold s3.
    unfold kbind at 1, kderef. unfold s3 at 1. rewrite qb_forw. unfold s2 at 1. rewrite qf_forw by by apply H1.
    rewrite decide_False by done. unfold s1 at 1. rewrite qf_forw, decide_True by done.
    unfold kbind, knonnull. rewrite q_set_back_run by by apply H3. done.
  - unfold inserted. fold s1 s2 s3. etrans; [apply (qf_same (QEnt x))|]. fold s1.
    etrans; [apply (qf_same (QHead i))|]. fold s2. etrans; [apply (qb_same (QEnt x))|apply (qb_same n)].
  - unfold inserted. fold s1 s2 s3. etrans; [apply (qf_same (QEnt x))|]. fold s1.
    etrans; [apply (qf_same (QHead i))|]. fold s2. etrans; [apply (qb_same (QEnt x))|apply (qb_same n)].
Qed.

Lemma inserted_forw x i n s q : qnode s (QEnt x) -> qnode s (QHead i) ->
  q_forw q (inserted x i n s) =
    if decide (q = QHead i) then Some (Some (QEnt x)) else if decide (q = QEnt x) then Some (Some n) else q_forw q s.
Proof.
  intros Hx Hi. unfold inserted. rewrite !qb_forw, qf_forw by by apply qf_node. case_decide; [done|].
  by rewrite qf_forw.
Qed.

Lemma inserted_prev x i n s q : qnode s (QEnt x) -> qnode s (QHead i) -> qnode s n ->
  q_prev (inserted x i n s) q =
    if decide (q = n) then Some (QEnt x) else if decide (q = QEnt x) then Some (QHead i) else q_prev s q.
Proof.
  intros Hx Hi Hn. assert (Hi1 : qnode (qf (QEnt x) (Some n) s) (QHead i)) by by apply qf_node.
  unfold inserted. rewrite qb_prev by (apply qb_node, qf_node; [done|]; by apply qf_node).
  case_decide; [done|]. rewrite qb_prev by (apply qf_node; [done|]; by apply qf_node).
  case_decide; [done|]. by rewrite !qf_prev.
Qed.

Lemma insque_rings s bk bk' ents free x i : rings s bk ents free -> x ∉ ents -> x ∉ free -> qnode s (QEnt x) ->
  0 <= i <= mask -> bk' x = i -> (forall y, y ∈ ents -> bk' y = bk y) -> exists s',
  insque (QEnt x) (QHead i) s = Some (tt, s') /\ csame s s' /\ lsame s s' /\ rings s' bk' (x :: ents) free.
Proof.
  intros [Hr Hl Hrg Hnd Hap] Hxe Hxf Hx Hi Hbx Hbk. pose proof (Hr i Hi) as Hri. set (l := bucket bk i ents) in *.
  pose proof (ring_first _ _ _ Hri) as Hf. set (n := nextq i l) in *.
  assert (Hqi : qnode s (QHead i)) by by eexists.
  assert (Hqn : qnode s n).
  { unfold n. destruct l as [|y l']; [done|]. eapply ring_node; [done|set_solver]. }
  assert (Hnx : n <> QEnt x).
  { destruct (nextq_cases i l) as [E|(z & Hz & E)]; unfold n; rewrite E; [done|]. intros [= ->].
    by apply elem_of_bucket in Hz as [_ Hz]. }
  destruct (insque_run s x i n Hx Hf Hqn) as (Hrun & Hc & Hls). eexists. split; [exact Hrun|].
  assert (HN := fun q => inserted_forw x i n s q Hx Hqi). assert (HB := fun q => inserted_prev x i n s q Hx Hqi Hqn).
  assert (Hsame : forall j, bucket bk' j ents = bucket bk j ents).
  { intros j. unfold bucket. apply filter_ext_in. intros y Hy. by rewrite Hbk. }
  assert (Hxl : x ∉ l) by (unfold l; rewrite elem_of_bucket; by intros [_ ?]).
  split_and!; [done|done|]. split.
  - intros j Hj. unfold bucket. destruct (decide (j = i)) as [->|Hne].
    + rewrite filter_cons_True by done. fold (bucket bk' i ents). rewrite Hsame. fold l.
      destruct Hri as (t & Ht & Hd). exists (match l with [] => QEnt x | _ => t end). split.
      { rewrite HB. unfold n. destruct l as [|y l']; cbn [nextq]; [by rewrite decide_True|].
        by rewrite !decide_False. }
      eapply (dlist_push QEnt (fun x => Some (QEnt x))); [exact Hd|done|done|..]; cbv beta.
      * by rewrite HN, decide_True.
      * rewrite HN, decide_False, decide_True by done. by rewrite hdv_nextq.
      * intros q H1 H2. by rewrite HN, !decide_False.
      * by rewrite HB, decide_False, decide_True.
      * unfold n in HB. destruct l as [|y l'] eqn:El; [done|]. cbn [nextq] in HB. rewrite HB, decide_True by done.
        split_and!; [done..|]. intros z Hz. destruct Hd as (_ & _ & [[Hy _]%NoDup_cons _]).
        rewrite HB, !decide_False; [done|..]; intros [= ->]; set_solver.
    + rewrite filter_cons_False by (rewrite Hbx; auto). fold (bucket bk' j ents). rewrite Hsame.
      assert (Hnj : n <> QHead j /\ forall y, y ∈ bucket bk j ents -> n <> QEnt y).
      { unfold n. destruct (nextq_cases i l) as [->|(z & Hz & ->)].
        - split; [by intros [= ->]|done].
        - apply elem_of_bucket in Hz as [Hz _]. split; [done|]. intros y [Hy _]%elem_of_bucket [= ->]. congruence. }
      destruct (Hr j Hj) as (t & Ht & Hd). exists t. split; [rewrite HB, !decide_False; naive_solver|].
      revert Hd. apply (dlist_ext QEnt (fun x => Some (QEnt x))); cbv beta.
      * rewrite HN, !decide_False; [done..|by intros [= ->]].
      * intros y [_ Hy]%elem_of_bucket. rewrite HN, !decide_False; [done|by intros [= ->]|done].
      * intros y Hy. rewrite HB, !decide_False; [done|..].
        -- intros [= ->]. by apply elem_of_bucket in Hy as [_ ?].
        -- intros E. by apply (proj2 Hnj y Hy).
  - intros y Hy. destruct (Hl y Hy) as [H1 H2]. assert (y <> x) by (intros ->; done). split.
    + rewrite HN, !decide_False; [done|by intros [= ->]|done].
    + rewrite HB, !decide_False; [done|by intros [= ->]|]. intros E. unfold n in E.
      destruct (nextq_cases i l) as [E'|(z & Hz & E')]; rewrite E' in E; [done|]. injection E as ->.
      apply elem_of_bucket in Hz as [_ Hz]. by apply (Hap z).
  - intros y [->|Hy]%elem_of_cons; [by rewrite Hbx|]. rewrite Hbk by done. by apply Hrg.
  - by constructor.
  - intros y Hy [->|Hy']%elem_of_cons; [done|]. by apply (Hap y).
Qed.

Lemma dummy_rings s bk ents free x : rings s bk ents free -> x ∉ ents -> x ∉ free -> qnode s (QEnt x) -> exists s',
  dummy_chain x s = Some (tt, s') /\ csame s s' /\ lsame s s' /\ rings s' bk ents (x :: free).
Proof.
  intros [Hr Hl Hrg Hnd Hap] Hxe Hxf Hx. set (s1 := qf (QEnt x) (Some (QEnt x)) s).
  assert (H1 : forall q, qnode s1 q <-> qnode s q) by (intros; by apply qf_node).
  exists (qb (QEnt x) (Some (QEnt x)) s1).
  assert (HN : forall q, q_forw q (qb (QEnt x) (Some (QEnt x)) s1) = if decide (q = QEnt x) then Some (Some (QEnt x)) else q_forw q s).
  { intros q. rewrite qb_forw. unfold s1. by rewrite qf_forw. }
  assert (HB : forall q, q_prev (qb (QEnt x) (Some (QEnt x)) s1) q = if decide (q = QEnt x) then Some (QEnt x) else q_prev s q).
  { intros q. rewrite qb_prev by by apply H1. unfold s1. by rewrite qf_prev. }
  split_and!.
  - unfold dummy_chain. change (assign x (set_forw ?v)) with (q_set_forw (QEnt x) v).
    change (assign x (set_back ?v)) with (q_set_back (QEnt x) v). unfold kbind.
    rewrite q_set_forw_run by done. fold s1. rewrite q_set_back_run by by apply H1. done.
  - etrans; [apply (qf_same (QEnt x))|apply (qb_same (QEnt x))].
  - etrans; [apply (qf_same (QEnt x))|apply (qb_same (QEnt x))].
  - split; [| |done|done|].
    + intros i Hi. destruct (Hr i Hi) as (t & Ht & Hd). exists t. split; [by rewrite HB, decide_False|].
      revert Hd. apply (dlist_ext QEnt (fun x => Some (QEnt x))); cbv beta.
      * by rewrite HN, decide_False.
      * intros y [_ Hy]%elem_of_bucket. rewrite HN, decide_False; [done|by intros [= ->]].
      * intros y [_ Hy]%elem_of_bucket. rewrite HB, decide_False; [done|by intros [= ->]].
    + intros y [->|Hy]%elem_of_cons; [split; [by rewrite HN, decide_True|by rewrite HB, decide_True]|].
      destruct (Hl y Hy). assert (QEnt y <> QEnt x) by (intros [= ->]; done).
      split; [by rewrite HN, decide_False|by rewrite HB, decide_False].
    + intros y [->|Hy]%elem_of_cons; [done|]. by apply Hap.
Qed.
End Chains.
