(* ===== verification/NcacheRel.v ===== *)
(** * The name cache refines its specification

    The states of vfs_cache.c and the caches of NcacheSpec.v they stand for; each call on
    the one is the operation on the other. *)

From S2P Require Import Prelude Ncache NcacheSpec NcacheLinks.
Local Open Scope kern_scope.

(** ** The relation *)

Definition binding_of (e : namecache) : binding :=
  Binding (nc_dvp e) (nc_dvpid e) (nc_vp e) (nc_vpid e) (take (Z.to_nat (nc_nlen e)) (nc_name e)).

Definition entry_ok (e : namecache) : Prop := 0 <= nc_nlen e <= NCHNAMLEN /\ zlen (nc_name e) = NCHNAMLEN.

(** The chain of an entry. *)
Definition bk_of (mask : Z) (m : gmap loc binding) (x : loc) : Z :=
  match m !! x with Some b => Z.land (name_hash (b_name b)) mask | None => 0 end.

Definition scalars (s : ncst) := (numcache s, desiredvnodes s, doingcache s, stats s, nextvnodeid s, vnodes s).
Definition c_scalars (c : cache) := (c_num c, c_max c, c_on c, c_stats c, c_next c, c_vns c).

(** The vnodes a binding names exist. *)
Definition known (c : cache) (b : binding) : Prop :=
  (forall d, b_dvp b = Some d -> is_Some (c_vns c !! d)) /\ (forall v, b_vp b = Some v -> is_Some (c_vns c !! v)).

Definition free_of (c : cache) : list loc := filter (fun x => x ∉ c_ent c) (c_lru c).

Record Rel (s : ncst) (c : cache) : Prop := {
  r_lru : lru_list s (c_lru c);
  r_rings : rings (nchash s) s (bk_of (nchash s) (c_bind c)) (c_ent c) (free_of c);
  r_ent : forall x, x ∈ c_ent c -> x ∈ c_lru c;
  r_dom : forall x, x ∈ c_lru c <-> is_Some (nc_heap s !! x);
  r_bind : c_bind c = binding_of <$> nc_heap s;
  r_ok : forall x e, nc_heap s !! x = Some e -> entry_ok e;
  r_mask : 0 <= nchash s;
  r_scal : scalars s = c_scalars c;
  r_known : forall x b, c_bind c !! x = Some b -> known c b }.

Lemma rings_free mask s bk ents free free' : (forall x, x ∈ free' -> x ∈ free) ->
  rings mask s bk ents free -> rings mask s bk ents free'.
Proof. intros Hf [? Hl ? ? Ha]. split; auto. Qed.

Lemma core_binding e e' : core e = core e' -> binding_of e = binding_of e' /\ (entry_ok e' -> entry_ok e).
Proof.
  unfold core, binding_of, entry_ok. intros [= -> -> -> -> -> ->]. done.
Qed.

Lemma csame_binding s s' : csame s s' -> binding_of <$> nc_heap s' = binding_of <$> nc_heap s.
Proof.
  intros [Hc _]. apply map_eq. intros x. assert (H : core <$> nc_heap s' !! x = core <$> nc_heap s !! x)
    by by rewrite <- !lookup_fmap, Hc.
  rewrite !lookup_fmap. destruct (nc_heap s' !! x), (nc_heap s !! x); simpl in *; simplify_eq; [|done].
  unfold binding_of. congruence.
Qed.

Lemma csame_ok s s' x e : csame s s' -> (forall e, nc_heap s !! x = Some e -> entry_ok e) ->
  nc_heap s' !! x = Some e -> entry_ok e.
Proof.
  intros [Hc _] Hok He. assert (H : core <$> nc_heap s' !! x = core <$> nc_heap s !! x)
    by by rewrite <- !lookup_fmap, Hc.
  rewrite He in H. destruct (nc_heap s !! x) as [e'|]; [|done]. simpl in H. apply (inj Some) in H.
  eapply core_binding; [exact H|by apply Hok].
Qed.

Lemma csame_scalars s s' : csame s s' -> scalars s' = scalars s /\ nchash s' = nchash s.
Proof. intros [_ H]. unfold rest_of in H. unfold scalars. injection H as ???????. split; congruence. Qed.

(** Links edited, and the two lists of the cache with them. *)
Lemma Rel_build s s' c lru ents free : Rel s c -> csame s s' -> lru_list s' lru ->
  rings (nchash s) s' (bk_of (nchash s) (c_bind c)) ents free ->
  (forall x, x ∈ lru <-> x ∈ c_lru c) -> (forall x, x ∈ ents -> x ∈ c_lru c) ->
  (forall x, x ∈ c_lru c -> x ∉ ents -> x ∈ free) ->
  Rel s' (c_lists lru ents c).
Proof.
  intros HR Hc Hl Hr Hlru He Hf. destruct (csame_scalars _ _ Hc) as [Hs Hm]. split; simpl; rewrite ?Hm.
  - done.
  - revert Hr. apply rings_free. intros x. unfold free_of. simpl.
    rewrite list_elem_of_filter. intros [? ?%Hlru]. by apply Hf.
  - intros x Hx. by apply Hlru, He.
  - intros x. rewrite Hlru, (csame_dom _ _ _ Hc). apply HR.
  - rewrite (csame_binding _ _ Hc). apply HR.
  - intros x e. apply (csame_ok s); [done|]. intros. by eapply (r_ok _ _ HR).
  - apply HR.
  - rewrite Hs. apply HR.
  - apply HR.
Qed.

Lemma Rel_nodup s c : Rel s c -> NoDup (c_lru c).
Proof. intros HR. apply (r_lru _ _ HR). Qed.

Lemma Rel_entry s c x : Rel s c -> x ∈ c_lru c -> exists e,
  nc_heap s !! x = Some e /\ c_bind c !! x = Some (binding_of e) /\ entry_ok e.
Proof.
  intros HR Hx. destruct (proj1 (r_dom _ _ HR x) Hx) as [e He]. exists e. split_and!; [done| |by eapply r_ok].
  rewrite (r_bind _ _ HR), lookup_fmap, He. done.
Qed.

Lemma Rel_free_ent s c x : Rel s c -> x ∈ c_lru c -> x ∈ c_ent c \/ x ∈ free_of c.
Proof.
  intros HR Hx. destruct (decide (x ∈ c_ent c)); [by left|right]. unfold free_of. by rewrite list_elem_of_filter.
Qed.

(** ** Moves *)

Lemma touch_run s c x : Rel s c -> x ∈ c_lru c -> exists s', lru_move_end x s = Some (tt, s') /\ Rel s' (a_touch x c).
Proof.
  intros HR Hx. pose proof (Rel_nodup _ _ HR) as Hnd. pose proof Hx as Hx0.
  apply list_elem_of_split in Hx as (a & b & Hl).
  pose proof (r_lru _ _ HR) as Hlru. rewrite Hl in Hlru.
  destruct (lru_move_run s a x b Hlru) as (s' & Hrun & Hl' & Hc & Hq). exists s'. split; [done|].
  unfold a_touch. rewrite Hl, but_split by congruence. rewrite <- app_assoc.
  eapply Rel_build; [done|done|done|eapply qsame_rings; [done|apply HR]| |apply HR|].
  - intros y. rewrite Hl. set_solver.
  - intros y Hy Hye. unfold free_of. by rewrite list_elem_of_filter.
Qed.

Lemma run_bind {S A B} (m : K S A) (k : A -> K S B) s a s' : m s = Some (a, s') -> kbind m k s = k a s'.
Proof. unfold kbind. by intros ->. Qed.

Lemma run_entry x e s {B} (k : namecache -> K ncst B) : nc_heap s !! x = Some e -> kbind (entry x) k s = k e s.
Proof. intros H. apply run_bind. unfold entry, kderef. by rewrite H. Qed.

(** The entry leaves both lists; [l] is what the LRU list is then. *)
Lemma unlink_run s c x : Rel s c -> x ∈ c_lru c -> exists e s1 s2,
  nc_heap s !! x = Some e /\ lru_unlink x (nc_nxt e) s = Some (tt, s1) /\ remque (QEnt x) s1 = Some (tt, s2) /\
  lru_list s2 (but x (c_lru c)) /\ csame s s2 /\
  rings (nchash s) s2 (bk_of (nchash s) (c_bind c)) (but x (c_ent c)) (but x (free_of c)).
Proof.
  intros HR Hx. pose proof (Rel_nodup _ _ HR) as Hnd. pose proof Hx as Hx0.
  apply list_elem_of_split in Hx as (a & b & Hl). pose proof (r_lru _ _ HR) as Hlru. rewrite Hl in Hlru.
  destruct (lru_links _ _ _ _ Hlru) as (e & He & _ & Hn & _).
  destruct (lru_unlink_run s a x b Hlru) as (s1 & Hrun & Hl1 & Hc1 & Hq1).
  destruct (remque_rings (nchash s) s1 _ _ _ x (qsame_rings _ _ _ _ _ _ Hq1 (r_rings _ _ HR)))
    as (s2 & Hrun2 & Hc2 & Hl2 & Hr2); [by apply (Rel_free_ent s)|].
  exists e, s1, s2. rewrite Hn, Hl, but_split by congruence. split_and!; try done.
  - by eapply lsame_list.
  - by etrans.
Qed.

Lemma csame_node s s' x : csame s s' -> is_Some (nc_heap s !! x) -> qnode s' (QEnt x).
Proof. intros Hc H. apply (csame_dom _ _ _ Hc) in H as [e He]. unfold qnode. simpl. rewrite He. by eexists. Qed.

Lemma push_none x s : lru_push x None s = None.
Proof.
  unfold lru_push, assign, entry, kbind, kderef, kmod, knonnull.
  repeat (case_match; simplify_eq/=; try done).
Qed.

Lemma drop_run s c x : Rel s c -> x ∈ c_lru c ->
  match a_drop x c with
  | Some c' => exists s', nc_drop x s = Some (tt, s') /\ Rel s' c'
  | None => nc_drop x s = None
  end.
Proof.
  intros HR Hx. destruct (unlink_run s c x HR Hx) as (e & s1 & s2 & He & Hrun1 & Hrun2 & Hl2 & Hc2 & Hr2).
  assert (Hn : forall B (k : ptr -> K ncst B), kbind (kgets nchhead) k s2 = k (head (but x (c_lru c))) s2).
  { intros B k. unfold kbind, kgets. by rewrite (lru_list_head _ _ Hl2). }
  unfold nc_drop. rewrite (run_entry _ _ _ _ He), (run_bind _ _ _ _ _ Hrun1), (run_bind _ _ _ _ _ Hrun2), Hn.
  unfold a_drop. destruct (but x (c_lru c)) as [|y l] eqn:Eb; cbn [head].
  - unfold kbind. by rewrite push_none.
  - assert (Hxl : x ∉ y :: l) by (rewrite <- Eb, elem_of_but; by intros [? _]).
    destruct (lru_push_run s2 y l x Hl2 Hxl) as (s3 & Hrun3 & Hl3 & Hc3 & Hq3).
    { apply (csame_dom _ _ _ Hc2). by eexists. }
    assert (Hc : csame s s3) by by etrans.
    destruct (dummy_rings (nchash s) s3 _ _ _ x (qsame_rings _ _ _ _ _ _ Hq3 Hr2)) as (s4 & Hrun4 & Hc4 & Hl4 & Hr4).
    { rewrite elem_of_but. by intros [? _]. }
    { rewrite elem_of_but. by intros [? _]. }
    { eapply csame_node; [done|by eexists]. }
    exists s4. rewrite (run_bind _ _ _ _ _ Hrun3). split; [done|].
    assert (Hin : forall z, z ∈ x :: y :: l <-> z ∈ c_lru c).
    { intros z. rewrite <- Eb, elem_of_cons, elem_of_but. destruct (decide (z = x)); naive_solver. }
    eapply Rel_build; [done|by etrans|by eapply lsame_list|done|done| |].
    + intros z [_ Hz]%elem_of_but. by apply (r_ent _ _ HR).
    + intros z Hz Hzn. rewrite elem_of_cons, elem_of_but. destruct (decide (z = x)); [by left|right].
      split; [done|]. unfold free_of. rewrite list_elem_of_filter. split; [|done].
      intros Hze. apply Hzn. by rewrite elem_of_but.
Qed.

(** ** Searching *)

(** A component of a path in a directory, as [lookup_component] makes it. *)
Record nd_ok (ndp : nameidata) (c : cache) : Prop := {
  nd_dvp : is_Some (c_vns c !! ni_dvp ndp);
  nd_len : 0 <= ni_namelen ndp <= zlen (ni_ptr ndp);
  nd_hash : ni_hash ndp = name_hash (ni_name ndp);
  nd_vp : forall v, ni_vp ndp = Some v -> is_Some (c_vns c !! v) }.

Lemma name_hash_nonneg nm : 0 <= name_hash nm.
Proof.
  unfold name_hash. assert (H : forall h, 0 <= h -> 0 <= foldl (fun h c => u32 (h + c)) h nm); [|by apply H].
  induction nm as [|c nm IH]; intros h Hh; [done|]. apply IH. destruct (u32_range (h + c)). done.
Qed.

Lemma land_mask h m : 0 <= h -> 0 <= m -> 0 <= Z.land h m <= m.
Proof.
  intros Hh Hm. split; [apply Z.land_nonneg; by left|].
  assert (H : m = Z.land h m + Z.ldiff m h).
  { rewrite Z.land_comm. symmetry. rewrite Z.add_nocarry_lxor.
    - apply Z.bits_inj'. intros k Hk. rewrite Z.lxor_spec, Z.land_spec, Z.ldiff_spec.
      destruct (Z.testbit m k), (Z.testbit h k); done.
    - apply Z.bits_inj'. intros k Hk. rewrite Z.land_spec, Z.land_spec, Z.ldiff_spec, Z.bits_0.
      destruct (Z.testbit m k), (Z.testbit h k); done. }
  assert (0 <= Z.ldiff m h) by (apply Z.ldiff_nonneg; by left). lia.
Qed.

Lemma at_ptr_ok p n : 0 <= n <= zlen p -> at_ptr p n = Some (take (Z.to_nat n) p).
Proof. intros [H1 H2]. unfold at_ptr. rewrite (proj2 (Z.leb_le _ _) H1), (proj2 (Z.leb_le _ _) H2). done. Qed.

Lemma vnode_id_run s c v : Rel s c -> is_Some (c_vns c !! v) -> vnode_id v s = Some (c_id c v, s).
Proof.
  intros HR [vn Hv]. pose proof (r_scal _ _ HR) as Hs. unfold scalars, c_scalars in Hs.
  assert (Hv' : vnodes s = c_vns c) by congruence.
  unfold vnode_id, kbind, kderef, c_id. by rewrite Hv', Hv.
Qed.

Lemma matches_run s c ndp x : Rel s c -> nd_ok ndp c -> x ∈ c_lru c ->
  nc_matches ndp x s = Some (a_match ndp c x, s).
Proof.
  intros HR Hnd Hx. destruct (Rel_entry _ _ _ HR Hx) as (e & He & Hb & Hlen & Hnm).
  unfold nc_matches. rewrite (run_entry _ _ _ _ He). unfold a_match. rewrite Hb. simpl.
  destruct (bool_decide _); simpl; [|done]. rewrite (run_bind _ _ _ _ _ (vnode_id_run _ _ _ HR (nd_dvp _ _ Hnd))).
  destruct (Z.eqb_spec (nc_dvpid e) (c_id c (ni_dvp ndp))); simpl; [|done].
  destruct (Z.eqb_spec (nc_nlen e) (ni_namelen ndp)) as [E|E]; simpl.
  - rewrite at_ptr_ok by lia. rewrite at_ptr_ok by (rewrite E; apply Hnd).
    unfold kbind, knonnull, kret, ni_name. by rewrite E.
  - unfold kret. do 2 f_equal. symmetry. apply bool_decide_eq_false_2. intros Ht.
    apply (f_equal length) in Ht. unfold ni_name in Ht. rewrite !length_take in Ht.
    pose proof (nd_len _ _ Hnd). unfold zlen in *. lia.
Qed.

Lemma find_run s c ndp i a b fuel : Rel s c -> nd_ok ndp c -> ring s i (a ++ b) ->
  (forall x, x ∈ b -> x ∈ c_lru c) -> (length b <= fuel)%nat ->
  nc_find fuel ndp i (nextq i b) s = Some (head (filter (a_match ndp c) b), s).
Proof.
  intros HR Hnd. revert a fuel. induction b as [|x b IH]; intros a fuel Hr Hb Hf.
  - simpl. destruct fuel; simpl; by rewrite Z.eqb_refl.
  - destruct fuel as [|fuel]; [simpl in Hf; lia|]. cbn [nextq nc_find].
    rewrite (run_bind _ _ _ _ _ (matches_run _ _ _ x HR Hnd ltac:(set_solver))). rewrite filter_cons.
    destruct (a_match ndp c x); [by rewrite decide_True by done|]. rewrite decide_False by auto.
    destruct (ring_links _ _ _ _ _ Hr) as (Hn & _). unfold kbind at 1, kderef. rewrite Hn.
    unfold kbind, knonnull. apply (IH (a ++ [x])); [by rewrite <- app_assoc|set_solver|simpl in Hf; lia].
Qed.

Lemma head_filter_sub {A} (P Q : A -> Prop) `{!forall x, Decision (P x), !forall x, Decision (Q x)} (l : list A) :
  (forall x, x ∈ l -> P x -> Q x) -> head (filter P (filter Q l)) = head (filter P l).
Proof.
  intros HPQ. rewrite list_filter_filter. f_equal. apply filter_ext_in. intros x Hx. specialize (HPQ x Hx). tauto.
Qed.

Lemma Rel_size s c : Rel s c -> (length (c_ent c) <= size (nc_heap s))%nat.
Proof.
  intros HR. apply NoDup_keys_size; [apply HR|]. intros x Hx. apply (r_dom _ _ HR), (r_ent _ _ HR), Hx.
Qed.

(** A match is on the chain that is searched. *)
Lemma match_bucket s c ndp x : nd_ok ndp c -> a_match ndp c x ->
  bk_of (nchash s) (c_bind c) x = Z.land (ni_hash ndp) (nchash s).
Proof.
  intros Hnd Hm. unfold a_match in Hm. unfold bk_of. destruct (c_bind c !! x) as [b|]; [|done].
  rewrite !andb_True, !bool_decide_spec in Hm. destruct Hm as [_ Hm]. by rewrite (nd_hash _ _ Hnd), <- Hm.
Qed.

Lemma chain_search_run s c ndp : Rel s c -> nd_ok ndp c ->
  q_forw (QHead (Z.land (ni_hash ndp) (nchash s))) s =
    Some (Some (nextq (Z.land (ni_hash ndp) (nchash s)) (bucket (bk_of (nchash s) (c_bind c)) (Z.land (ni_hash ndp) (nchash s)) (c_ent c)))) /\
  nc_find (size (nc_heap s)) ndp (Z.land (ni_hash ndp) (nchash s))
    (nextq (Z.land (ni_hash ndp) (nchash s)) (bucket (bk_of (nchash s) (c_bind c)) (Z.land (ni_hash ndp) (nchash s)) (c_ent c))) s
  = Some (a_find ndp c, s).
Proof.
  intros HR Hnd. set (i := Z.land (ni_hash ndp) (nchash s)). set (bk := bk_of (nchash s) (c_bind c)).
  assert (Hi : 0 <= i <= nchash s).
  { apply land_mask; [rewrite (nd_hash _ _ Hnd); apply name_hash_nonneg|apply HR]. }
  pose proof (rg_ring _ _ _ _ _ (r_rings _ _ HR) i Hi) as Hr. fold bk in Hr.
  split; [by apply ring_first|].
  assert (Hsub : forall x, x ∈ bucket bk i (c_ent c) -> x ∈ c_lru c).
  { intros x [_ Hx]%elem_of_bucket. by apply (r_ent _ _ HR). }
  assert (Hlen : (length (bucket bk i (c_ent c)) <= size (nc_heap s))%nat).
  { etrans; [apply length_filter|]. by apply (Rel_size s c). }
  rewrite (find_run s c ndp i [] (bucket bk i (c_ent c)) _ HR Hnd Hr Hsub Hlen).
  unfold a_find, bucket. rewrite head_filter_sub; [done|].
  intros x _ Hm. by apply (match_bucket s c ndp x Hnd).
Qed.

(** ** Outcomes *)

(** The two runs fail together, or return the same in related states. *)
Definition outcome {A} (o : option (A * ncst)) (a : option (A * cache)) : Prop :=
  match o, a with
  | Some (r, s), Some (r', c) => r = r' /\ Rel s c
  | None, None => True
  | _, _ => False
  end.

Lemma Rel_count s c f : Rel s c -> Rel (with_stats (f (stats s)) s) (c_count f c).
Proof.
  intros [Hl Hr He Hd Hb Ho Hm Hs Hk]. split; try done.
  - revert Hr. apply qsame_rings. by split; intros [].
  - unfold scalars, c_scalars in *. simpl. congruence.
Qed.

Lemma bump_count_run s f {B} (k : unit -> K ncst B) : kbind (bump f) k s = k tt (with_stats (f (stats s)) s).
Proof. done. Qed.

Lemma drop_outcome s c x (ndp : nameidata) : Rel s c -> x ∈ c_lru c ->
  outcome (kbind (nc_drop x) (fun _ => kret (0, ndp)) s) ((fun c => ((0, ndp), c)) <$> a_drop x c).
Proof.
  intros HR Hx. pose proof (drop_run s c x HR Hx) as H. destruct (a_drop x c) as [c'|].
  - destruct H as (s' & Hrun & HR'). by rewrite (run_bind _ _ _ _ _ Hrun).
  - unfold kbind. by rewrite H.
Qed.

Lemma touch_outcome {A} s c x (r : A) : Rel s c -> x ∈ c_lru c ->
  outcome (kbind (lru_move_end x) (fun _ => kret r) s) (Some (r, a_touch x c)).
Proof.
  intros HR Hx. destruct (touch_run s c x HR Hx) as (s' & Hrun & HR'). by rewrite (run_bind _ _ _ _ _ Hrun).
Qed.

Lemma a_find_in ndp c x : a_find ndp c = Some x -> x ∈ c_ent c /\ a_match ndp c x.
Proof.
  unfold a_find. intros H. destruct (filter _ _) as [|y l] eqn:E; [done|]. injection H as ->.
  assert (Hx : x ∈ filter (a_match ndp c) (c_ent c)) by (rewrite E; set_solver).
  apply list_elem_of_filter in Hx. tauto.
Qed.

Lemma lookup_outcome s c ndp : Rel s c -> nd_ok ndp c -> outcome (cache_lookup ndp s) (a_lookup ndp c).
Proof.
  intros HR Hnd. pose proof (r_scal _ _ HR) as Hs. unfold scalars, c_scalars in Hs.
  assert (Hon : doingcache s = c_on c) by congruence.
  unfold cache_lookup, a_lookup, kbind at 1, kgets. rewrite Hon. destruct (c_on c); simpl; [|done].
  destruct (NCHNAMLEN <? ni_namelen ndp); [split; [done|]; by apply Rel_count|].
  destruct (chain_search_run s c ndp HR Hnd) as [Hf Hrun]. unfold kbind at 1, kgets.
  unfold kbind at 1, kderef. rewrite Hf. unfold kbind at 1, knonnull. unfold kbind at 1, kgets.
  rewrite (run_bind _ _ _ _ _ Hrun). destruct (a_find ndp c) as [x|] eqn:Ex.
  2:{ split; [done|]. by apply Rel_count. }
  apply a_find_in in Ex as [Hx _]. apply (r_ent _ _ HR) in Hx.
  destruct (Rel_entry _ _ _ HR Hx) as (e & He & Hb & _). rewrite (run_entry _ _ _ _ He), Hb. simpl.
  assert (Hkn : known c (binding_of e)) by by eapply r_known.
  destruct (ni_makeentry ndp =? 0).
  { rewrite bump_count_run. pose proof (Rel_count _ _ add_bad HR) as HR'. by apply drop_outcome. }
  destruct (nc_vp e) as [vp|] eqn:Evp.
  - rewrite (run_bind _ _ _ _ _ (vnode_id_run _ _ _ HR (proj2 Hkn vp Evp))).
    destruct (nc_vpid e =? c_id c vp); simpl.
    + rewrite bump_count_run. pose proof (Rel_count _ _ add_good HR) as HR'.
      by apply (touch_outcome _ (c_count add_good c)).
    + rewrite bump_count_run. pose proof (Rel_count _ _ add_false HR) as HR'. by apply drop_outcome.
  - destruct (Z.land (ni_nameiop ndp) OPMASK =? CREATE); simpl.
    + by apply drop_outcome.
    + rewrite bump_count_run. pose proof (Rel_count _ _ add_neg HR) as HR'.
      by apply (touch_outcome _ (c_count add_neg c)).
Qed.
