(* ===== verification/NcacheOps.v ===== *)
(** * Entering names and purging them

    [cache_enter], [cache_purge], [cache_purgevfs] and [nchinit] are the operations of
    NcacheSpec.v. *)

From S2P Require Import Prelude Ncache NcacheSpec NcacheLinks NcacheRel.
Local Open Scope kern_scope.

(** ** Entering a name *)

(** An entry on no list, about to be filled. *)
Record Spare (s : ncst) (c : cache) (x : loc) (l ents free : list loc) : Prop := {
  sp_lru : lru_list s l;
  sp_rings : rings (nchash s) s (bk_of (nchash s) (c_bind c)) ents free;
  sp_mask : 0 <= nchash s;
  sp_out : (x ∉ l) /\ (x ∉ ents) /\ (x ∉ free);
  sp_here : is_Some (nc_heap s !! x);
  sp_dom : forall y, is_Some (nc_heap s !! y) <-> y = x \/ y ∈ l;
  sp_bind : forall y, y <> x -> c_bind c !! y = binding_of <$> nc_heap s !! y;
  sp_ok : forall y e, nc_heap s !! y = Some e -> entry_ok e;
  sp_scal : scalars s = c_scalars c;
  sp_known : forall y b, c_bind c !! y = Some b -> known c b;
  sp_sub : forall y, y ∈ ents -> y ∈ l;
  sp_free : forall y, y ∈ l -> y ∉ ents -> y ∈ free }.

Definition filled (ndp : nameidata) (c : cache) (e : namecache) : namecache :=
  set_info (Some (ni_dvp ndp)) (c_id c (ni_dvp ndp)) (ni_vp ndp) (match ni_vp ndp with Some v => c_id c v | None => 0 end)
    (ni_namelen ndp) (ni_name ndp ++ drop (Z.to_nat (ni_namelen ndp)) (nc_name e)) e.

Lemma vnode_id_vns s c v : vnodes s = c_vns c -> is_Some (c_vns c !! v) -> vnode_id v s = Some (c_id c v, s).
Proof. intros Hv [vn Hvn]. unfold vnode_id, kbind, kderef, c_id. by rewrite Hv, Hvn. Qed.

Lemma fill_run s c ndp x : is_Some (nc_heap s !! x) -> vnodes s = c_vns c -> nd_ok ndp c -> ni_namelen ndp <= NCHNAMLEN ->
  nc_fill ndp x s = Some (tt, upd x (filled ndp c) s).
Proof.
  intros Hx Hv Hnd Hlen. unfold NCHNAMLEN in *. pose proof (nd_len _ _ Hnd) as Hn. unfold nc_fill.
  assert (Hvp : forall B (k : Z -> K ncst B),
    kbind (match ni_vp ndp with Some vp => vnode_id vp | None => kret 0 end) k s =
    k (match ni_vp ndp with Some v => c_id c v | None => 0 end) s).
  { intros B k. destruct (ni_vp ndp) as [v|] eqn:Ev; [|done]. apply run_bind.
    apply vnode_id_vns; [done|]. by apply (nd_vp _ _ Hnd). }
  rewrite Hvp, (run_bind _ _ _ _ _ (vnode_id_vns s c _ Hv (nd_dvp _ _ Hnd))).
  assert (Hs8 : s8 (ni_namelen ndp) = ni_namelen ndp) by mlia. rewrite Hs8. cbv zeta.
  rewrite at_ptr_ok by lia. fold (ni_name ndp). unfold kbind at 1, knonnull. destruct Hx as [e He].
  rewrite (run_entry _ _ _ _ He). unfold NCHNAMLEN. rewrite (proj2 (Z.ltb_ge _ _)) by lia.
  rewrite assign_run by by eexists. do 2 f_equal. unfold upd. f_equal. apply map_eq. intros y.
  rewrite !lookup_alter. case_decide; [|done]. subst. by rewrite He.
Qed.

Lemma filled_spec ndp c e : nd_ok ndp c -> ni_namelen ndp <= NCHNAMLEN -> entry_ok e ->
  binding_of (filled ndp c e) = a_binding ndp c /\ entry_ok (filled ndp c e).
Proof.
  intros Hnd Hl [_ Hnm]. pose proof (nd_len _ _ Hnd).
  unfold entry_ok, binding_of, a_binding, filled, zlen, NCHNAMLEN in *. simpl.
  assert (Hln : length (ni_name ndp) = Z.to_nat (ni_namelen ndp)).
  { unfold ni_name. rewrite length_take. lia. }
  split; [|split; [lia|]].
  - f_equal. rewrite take_app_le by lia. apply take_ge. lia.
  - rewrite length_app, length_drop. lia.
Qed.

Lemma upd_info_qsame x ndp c s : qsame s (upd x (filled ndp c) s).
Proof. by apply upd_qsame. Qed.

Lemma upd_info_lsame x ndp c s : lsame s (upd x (filled ndp c) s).
Proof. by apply upd_lsame. Qed.

Definition enter_at (ndp : nameidata) (x : loc) : K ncst unit :=
  do! nc_fill ndp x in
  do! lru_append x in
  let! mask := kgets nchash in
  insque (QEnt x) (QHead (Z.land (ni_hash ndp) mask)).

Lemma enter_at_run s c ndp x l ents free : Spare s c x l ents free -> nd_ok ndp c -> ni_namelen ndp <= NCHNAMLEN ->
  exists s', enter_at ndp x s = Some (tt, s') /\
    Rel s' (c_binds (<[x := a_binding ndp c]> (c_bind c)) (c_lists (l ++ [x]) (x :: ents) c)).
Proof.
  intros [Hl Hr Hm (Hxl & Hxe & Hxf) Hx Hdom Hb Hok Hs Hk Hsub Hfree] Hnd Hlen.
  assert (Hv : vnodes s = c_vns c) by (unfold scalars, c_scalars in Hs; congruence).
  set (s1 := upd x (filled ndp c) s).
  destruct (lru_append_run s1 l x (lsame_list _ _ _ (upd_info_lsame x ndp c s) Hl) Hxl) as (s2 & Hrun2 & Hl2 & Hc2 & Hq2);
    [by apply upd_dom|].
  pose proof (qsame_rings _ _ _ _ _ _ (transitivity (upd_info_qsame x ndp c s) Hq2) Hr) as Hr2.
  set (i := Z.land (ni_hash ndp) (nchash s)). set (m := <[x := a_binding ndp c]> (c_bind c)).
  assert (Hi : 0 <= i <= nchash s).
  { apply land_mask; [rewrite (nd_hash _ _ Hnd); apply name_hash_nonneg|done]. }
  assert (Hbx : bk_of (nchash s) m x = i).
  { unfold bk_of, m. rewrite lookup_insert_eq. simpl. by rewrite <- (nd_hash _ _ Hnd). }
  assert (Hby : forall y, y ∈ ents -> bk_of (nchash s) m y = bk_of (nchash s) (c_bind c) y).
  { intros y Hy. unfold bk_of, m. rewrite lookup_insert_ne; [done|]. by intros ->. }
  destruct (insque_rings (nchash s) s2 _ (bk_of (nchash s) m) ents free x i Hr2 Hxe Hxf) as (s3 & Hrun3 & Hc3 & Hl3 & Hr3);
    try done; [apply (csame_node s1); [done|]; by apply upd_dom|].
  pose proof (transitivity Hc2 Hc3) as Hc. destruct (csame_scalars _ _ Hc) as [Hsc Hmask].
  assert (Hdom3 : forall y, is_Some (nc_heap s3 !! y) <-> is_Some (nc_heap s !! y)).
  { intros y. rewrite (csame_dom _ _ _ Hc). apply upd_dom. }
  exists s3. split.
  { unfold enter_at. rewrite (run_bind _ _ _ _ _ (fill_run s c ndp x Hx Hv Hnd Hlen)). fold s1.
    rewrite (run_bind _ _ _ _ _ Hrun2). unfold kbind, kgets.
    destruct (csame_scalars _ _ Hc2) as [_ ->]. exact Hrun3. }
  split; simpl.
  - by eapply lsame_list.
  - rewrite Hmask. revert Hr3. apply rings_free. intros y. unfold free_of. simpl.
    rewrite list_elem_of_filter, elem_of_app, list_elem_of_singleton, elem_of_cons. intros [Hy [?|?]]; [|tauto].
    apply Hfree; tauto.
  - intros y [->|Hy]%elem_of_cons; [set_solver|]. apply elem_of_app. left. by apply Hsub.
  - intros y. rewrite Hdom3, Hdom, elem_of_app, list_elem_of_singleton. tauto.
  - rewrite (csame_binding _ _ Hc). apply map_eq. intros y. unfold m, s1, upd. simpl.
    rewrite lookup_insert, lookup_fmap, lookup_alter. case_decide.
    + subst y. destruct Hx as [e He]. rewrite He. simpl. f_equal. symmetry. apply filled_spec; [done..|]. by eapply Hok.
    + by rewrite Hb by auto.
  - intros y e. apply (csame_ok s1); [done|]. clear e. intros e. unfold s1, upd. simpl. rewrite lookup_alter. case_decide.
    + subst y. destruct Hx as [e0 He]. rewrite He. simpl. intros [= <-].
      eapply filled_spec; [done..|]. by eapply Hok.
    + apply Hok.
  - by rewrite Hmask.
  - rewrite Hsc. done.
  - intros y b. unfold m. rewrite lookup_insert. case_decide; [|apply Hk]. intros [= <-]. unfold a_binding, known. simpl.
    split; [intros d [= <-]; apply (nd_dvp _ _ Hnd)|apply (nd_vp _ _ Hnd)].
Qed.

(** A new entry is on no list. *)
Lemma new_spare s c : Rel s c -> let x := fresh (dom (nc_heap s)) in
  Spare (with_num (numcache s + 1) (with_heap (<[x := new_entry]> (nc_heap s)) s)) (c_grow c) x (c_lru c) (c_ent c) (free_of c).
Proof.
  intros HR x. assert (Hx : nc_heap s !! x = None).
  { apply not_elem_of_dom. apply is_fresh. }
  assert (Hxl : x ∉ c_lru c). { intros [e He]%(r_dom _ _ HR). congruence. }
  set (s1 := with_num _ _).
  assert (Hh : forall y, y <> x -> nc_heap s1 !! y = nc_heap s !! y).
  { intros y Hy. simpl. by rewrite lookup_insert_ne. }
  assert (Hne : forall y, y ∈ c_lru c -> y <> x) by (intros y Hy ->; done).
  assert (Hbk : forall l i, (forall y, y ∈ l -> y ∈ c_lru c) -> ring s i l -> ring s1 i l).
  { intros l i Hsub (t & Ht & Hd). exists t. split; [done|]. revert Hd.
    apply (dlist_ext QEnt (fun x => Some (QEnt x))); cbv beta; [done|..]; intros y Hy; unfold q_prev, q_forw, q_back;
      by rewrite Hh by auto. }
  split; simpl.
  - revert Hxl Hne. pose proof (r_lru _ _ HR) as Hl. intros Hxl Hne. revert Hl.
    apply (dlist_ext PNext Some); cbv beta; [done|..]; intros y Hy; unfold lru_get, lru_back; by rewrite Hh by auto.
  - destruct (r_rings _ _ HR) as [H1 H2 H3 H4 H5]. split; try done.
    + intros i Hi. apply Hbk; [|by apply H1]. intros y [_ Hy]%elem_of_bucket. by apply (r_ent _ _ HR).
    + intros y Hy. assert (y ∈ c_lru c) by (unfold free_of in Hy; apply list_elem_of_filter in Hy; tauto).
      destruct (H2 y Hy). unfold lone, q_prev, q_forw, q_back. by rewrite Hh by auto.
  - apply HR.
  - split_and!; [done|by intros ?%(r_ent _ _ HR)|]. unfold free_of. rewrite list_elem_of_filter. tauto.
  - rewrite lookup_insert_eq. by eexists.
  - intros y. rewrite (r_dom _ _ HR), lookup_insert. case_decide; subst; [split; [by left|by eexists]|].
    split; [by right|]. by intros [->|?].
  - intros y Hy. rewrite (r_bind _ _ HR), lookup_fmap, lookup_insert_ne; [done|]. by intros ->.
  - intros y e. rewrite lookup_insert. case_decide; [intros [= <-]; by vm_compute|]. apply (r_ok _ _ HR).
  - pose proof (r_scal _ _ HR) as Hs. unfold scalars, c_scalars in *. simpl. congruence.
  - apply HR.
  - apply HR.
  - intros y Hy Hye. unfold free_of. by rewrite list_elem_of_filter.
Qed.

(** The first entry to be used again, taken off its lists. *)
Lemma used_spare s s2 c x : Rel s c -> x ∈ c_lru c -> lru_list s2 (but x (c_lru c)) -> csame s s2 ->
  rings (nchash s) s2 (bk_of (nchash s) (c_bind c)) (but x (c_ent c)) (but x (free_of c)) ->
  Spare s2 c x (but x (c_lru c)) (but x (c_ent c)) (but x (free_of c)).
Proof.
  intros HR Hx Hl Hc Hr. destruct (csame_scalars _ _ Hc) as [Hs Hm].
  assert (Hnot : forall l, x ∉ but x l) by (intros l; rewrite elem_of_but; by intros [? _]).
  split; rewrite ?Hm, ?Hs; try done; try apply HR.
  - apply (csame_dom _ _ _ Hc). by apply HR.
  - intros y. rewrite (csame_dom _ _ _ Hc), <- (r_dom _ _ HR), elem_of_but.
    destruct (decide (y = x)); naive_solver.
  - intros y _. by rewrite (r_bind _ _ HR), <- (csame_binding _ _ Hc), lookup_fmap.
  - intros y e. apply (csame_ok s); [done|]. intros e'. apply (r_ok _ _ HR).
  - intros y [? Hy]%elem_of_but. rewrite elem_of_but. split; [done|]. by apply (r_ent _ _ HR).
  - intros y [Hyx Hy]%elem_of_but Hye. rewrite elem_of_but in *. split; [done|]. unfold free_of.
    rewrite list_elem_of_filter. naive_solver.
Qed.

Lemma enter_outcome s c ndp : Rel s c -> nd_ok ndp c -> ni_namelen ndp <= NCHNAMLEN ->
  exists s', cache_enter ndp s = Some (tt, s') /\ Rel s' (a_enter ndp c).
Proof.
  intros HR Hnd Hlen. pose proof (r_scal _ _ HR) as Hs. unfold scalars, c_scalars in Hs.
  assert (Hon : doingcache s = c_on c) by congruence. assert (Hn : numcache s = c_num c) by congruence.
  assert (Hd : desiredvnodes s = c_max c) by congruence.
  assert (Hdom : dom (nc_heap s) = dom (c_bind c)) by (by rewrite (r_bind _ _ HR), dom_fmap_L).
  unfold cache_enter, a_enter, kbind at 1, kgets. rewrite Hon. destruct (c_on c); simpl; [|by exists s].
  unfold nc_slot. unfold kbind at 1. unfold kbind at 1. unfold kget. rewrite Hn, Hd, <- Hdom. destruct (c_num c <? c_max c).
  - unfold kbind at 1, kmod, kbind at 1, kret. cbv beta iota.
    pose proof (new_spare s c HR) as Hsp. cbv zeta in Hsp. set (x := fresh _) in *. rewrite Hn in Hsp.
    destruct (enter_at_run _ _ ndp _ _ _ _ Hsp) as (s' & Hrun & HR'); [by destruct Hnd|done|].
    exists s'. split; [exact Hrun|]. destruct (sp_out _ _ _ _ _ _ Hsp) as (H1 & H2 & _).
    unfold a_put. simpl. rewrite !(but_notin x) by done. exact HR'.
  - rewrite (lru_list_head _ _ (r_lru _ _ HR)). destruct (c_lru c) as [|x l] eqn:El; cbn [head].
    { by exists s. }
    assert (Hx : x ∈ c_lru c) by (rewrite El; set_solver).
    destruct (unlink_run s c x HR Hx) as (e & s1 & s2 & He & Hrun1 & Hrun2 & Hl2 & Hc2 & Hr2).
    rewrite (run_entry _ _ _ _ He), (run_bind _ _ _ _ _ Hrun1), (run_bind _ _ _ _ _ Hrun2).
    destruct (enter_at_run _ _ ndp _ _ _ _ (used_spare _ _ _ _ HR Hx Hl2 Hc2 Hr2) Hnd Hlen) as (s' & Hrun & HR').
    exists s'. split; [exact Hrun|]. exact HR'.
Qed.

(** ** Purging a vnode *)

Lemma alter_insert_vnode (m : gmap loc vnode) vp v f : m !! vp = Some v -> <[vp := f v]> m = alter f vp m.
Proof. intros H. apply map_eq. intros j. rewrite lookup_insert, lookup_alter. case_decide; [subst; by rewrite H|done]. Qed.

Lemma next_id_run s c vp : Rel s c -> is_Some (c_vns c !! vp) -> exists s',
  next_id vp s = Some (u32 (c_next c + 1), s') /\ Rel s' (a_next_id vp c) /\ nchash s' = nchash s.
Proof.
  intros HR [v Hv]. pose proof (r_scal _ _ HR) as Hs. unfold scalars, c_scalars in Hs.
  assert (Hvn : vnodes s = c_vns c) by congruence. assert (Hn : nextvnodeid s = c_next c) by congruence.
  eexists. split.
  { unfold next_id, kbind, kderef, kgets, kmod, kret. rewrite Hvn, Hv, Hn, Hvn. reflexivity. }
  split; [|done]. rewrite (alter_insert_vnode _ _ _ (fun v => Vnode (u32 (c_next c + 1)) (v_mount v)) Hv).
  destruct HR as [Hl Hr He Hd Hb Ho Hm _ Hk]. split; try done.
  - revert Hr. apply qsame_rings. by split; intros [].
  - unfold scalars, c_scalars in *. simpl. congruence.
  - intros x b Hx. destruct (Hk x b Hx) as [H1 H2]. split; intros d Hd'; simpl; rewrite lookup_alter;
      case_decide; rewrite ?fmap_is_Some; subst; eauto.
Qed.

Definition forget_ids : namecache -> namecache := set_vpids 0 0.
Definition zeroed (l : list loc) (s : ncst) : ncst := foldl (fun s x => upd x forget_ids s) s l.

Lemma zeroed_app l1 l2 s : zeroed (l1 ++ l2) s = zeroed l2 (zeroed l1 s).
Proof. apply foldl_app. Qed.

Lemma zeroed_links l s : qsame s (zeroed l s) /\ lsame s (zeroed l s) /\ rest_of (zeroed l s) = rest_of s.
Proof.
  revert s. induction l as [|x l IH]; intros s; [done|]. simpl. destruct (IH (upd x forget_ids s)) as (Hq & Hl & Hr).
  split_and!; [etrans; [|exact Hq]; by apply upd_qsame|etrans; [|exact Hl]; by apply upd_lsame|exact Hr].
Qed.

Lemma zeroed_heap l s y : nc_heap (zeroed l s) !! y =
  if decide (y ∈ l) then forget_ids <$> nc_heap s !! y else nc_heap s !! y.
Proof.
  revert s. induction l as [|x l IH]; intros s; simpl.
  - done.
  - rewrite IH. unfold upd. simpl. rewrite lookup_alter.
    repeat case_decide; subst; try done; try set_solver; by destruct (nc_heap s !! y).
Qed.

Lemma zeroed_dom l s y : is_Some (nc_heap (zeroed l s) !! y) <-> is_Some (nc_heap s !! y).
Proof. rewrite zeroed_heap. case_decide; [by rewrite fmap_is_Some|done]. Qed.

Lemma ring_here s i l x : ring s i l -> x ∈ l -> is_Some (nc_heap s !! x).
Proof. intros Hr Hx. destruct (ring_node _ _ _ _ Hr Hx) as [o Ho]. simpl in Ho. destruct (nc_heap s !! x); [by eexists|done]. Qed.

Lemma purge_chain_run s i a b fuel : ring s i (a ++ b) -> (length b <= fuel)%nat ->
  purge_chain fuel i (nextq i b) s = Some (tt, zeroed b s).
Proof.
  revert s a fuel. induction b as [|x b IH]; intros s a fuel Hr Hf.
  - destruct fuel; simpl; by rewrite Z.eqb_refl.
  - destruct fuel as [|fuel]; [simpl in Hf; lia|]. cbn [nextq purge_chain].
    assert (Hx : is_Some (nc_heap s !! x)) by (eapply ring_here; [done|set_solver]).
    unfold kbind at 1. rewrite assign_run by done. fold forget_ids.
    assert (Hr' : ring (upd x forget_ids s) i (a ++ x :: b)) by (eapply qsame_ring; [by apply upd_qsame|done]).
    destruct (ring_links _ _ _ _ _ Hr') as (Hn & _). unfold kbind at 1, kderef. rewrite Hn.
    unfold kbind, knonnull. apply (IH _ (a ++ [x])); [by rewrite <- app_assoc|simpl in Hf; lia].
Qed.

(** The entries of the buckets [n - 1] to 0. *)
Fixpoint table_list (bk : loc -> Z) (ents : list loc) (n : nat) : list loc :=
  match n with O => [] | S n => bucket bk (Z.of_nat n) ents ++ table_list bk ents n end.

Lemma elem_of_table bk ents n x : x ∈ table_list bk ents n <-> x ∈ ents /\ 0 <= bk x < Z.of_nat n.
Proof.
  induction n as [|n IH]; cbn [table_list]; [split; [set_solver|lia]|].
  rewrite elem_of_app, IH, elem_of_bucket. destruct (decide (bk x = Z.of_nat n)); naive_solver lia.
Qed.

Lemma purge_table_run s mask bk ents free n : rings mask s bk ents free -> (Z.of_nat n <= mask + 1) ->
  (length ents <= size (nc_heap s))%nat -> purge_table n s = Some (tt, zeroed (table_list bk ents n) s).
Proof.
  revert s. induction n as [|n IH]; intros s Hr Hn Hsz; [done|]. cbn [purge_table table_list].
  pose proof (rg_ring _ _ _ _ _ Hr (Z.of_nat n) ltac:(lia)) as Hri.
  unfold kbind at 1, kderef. rewrite (ring_first _ _ _ Hri). unfold kbind at 1, knonnull. unfold kbind at 1, kgets.
  rewrite (run_bind _ _ _ _ _ (purge_chain_run s _ [] _ _ Hri ltac:(etrans; [apply length_filter|done]))).
  rewrite zeroed_app. apply IH; [|lia|].
  - eapply qsame_rings; [|done]. apply zeroed_links.
  - apply NoDup_keys_size; [apply Hr|]. intros x Hx. apply zeroed_dom.
    eapply ring_here; [apply (rg_ring _ _ _ _ _ Hr (bk x)), (rg_range _ _ _ _ _ Hr), Hx|]. by apply elem_of_bucket.
Qed.

Lemma forget_run s c : Rel s c -> exists s', purge_table (Z.to_nat (nchash s + 1)) s = Some (tt, s') /\
  Rel s' (a_forget c).
Proof.
  intros HR. pose proof (r_mask _ _ HR) as Hm. pose proof (r_rings _ _ HR) as Hr. eexists.
  split; [apply (purge_table_run s (nchash s) _ _ _ _ Hr); [lia|by apply (Rel_size s c)]|].
  set (l := table_list _ _ _). destruct (zeroed_links l s) as (Hq & Hl & Hre).
  assert (Hin : forall x, x ∈ l <-> x ∈ c_ent c).
  { intros x. unfold l. rewrite elem_of_table. split; [tauto|]. intros Hx. split; [done|].
    pose proof (rg_range _ _ _ _ _ Hr x Hx). lia. }
  assert (Hrest : nchash (zeroed l s) = nchash s /\ scalars (zeroed l s) = scalars s).
  { unfold rest_of in Hre. unfold scalars. injection Hre as ???????. split; congruence. }
  destruct Hrest as [Hmask Hscal]. split; rewrite ?Hmask, ?Hscal; simpl.
  - eapply lsame_list; [done|apply HR].
  - eapply (qsame_rings _ _ _ _ _ _ Hq). destruct Hr as [H1 H2 H3 H4 H5].
    assert (Hbk : forall x, bk_of (nchash s) (c_bind (a_forget c)) x = bk_of (nchash s) (c_bind c) x).
    { intros x. unfold bk_of, a_forget. simpl. rewrite map_lookup_imap. destruct (c_bind c !! x); [|done].
      simpl. by case_decide. }
    split; try done.
    + intros i Hi. replace (bucket _ i _) with (bucket (bk_of (nchash s) (c_bind c)) i (c_ent c)); [by apply H1|].
      apply filter_ext_in. intros x _. by rewrite <- Hbk.
    + intros x Hx. rewrite Hbk. by apply H3.
  - apply HR.
  - intros x. rewrite zeroed_dom. apply HR.
  - apply map_eq. intros x. rewrite map_lookup_imap, lookup_fmap, zeroed_heap, (r_bind _ _ HR), lookup_fmap.
    destruct (nc_heap s !! x); simpl; [|by case_decide]. f_equal.
    destruct (decide (x ∈ c_ent c)), (decide (x ∈ l)) as [?|Hn]; try done; exfalso; [apply Hn; by apply Hin|naive_solver].
  - intros x e. rewrite zeroed_heap. case_decide; [|apply (r_ok _ _ HR)].
    destruct (nc_heap s !! x) as [e'|] eqn:E; [|done]. intros [= <-]. by apply (r_ok _ _ HR) in E.
  - apply HR.
  - apply HR.
  - intros x b. rewrite map_lookup_imap. destruct (c_bind c !! x) as [b'|] eqn:E; [|done]. simpl.
    apply (r_known _ _ HR) in E. case_decide; intros [= <-]; exact E.
Qed.

Lemma purge_outcome s c vp : Rel s c -> is_Some (c_vns c !! vp) ->
  exists s', cache_purge vp s = Some (tt, s') /\ Rel s' (a_purge vp c).
Proof.
  intros HR Hv. destruct (next_id_run s c vp HR Hv) as (s1 & Hrun & HR1 & Hm1).
  unfold cache_purge, a_purge. rewrite (run_bind _ _ _ _ _ Hrun). simpl.
  destruct (u32 (c_next c + 1) =? 0); simpl; [|by exists s1].
  unfold kbind at 1, kgets. destruct (forget_run s1 _ HR1) as (s2 & Hrun2 & HR2).
  rewrite (run_bind _ _ _ _ _ Hrun2). destruct (next_id_run s2 _ vp HR2) as (s3 & Hrun3 & HR3 & _).
  { simpl. rewrite lookup_alter, decide_True by done. by rewrite fmap_is_Some. }
  exists s3. split; [|done]. by rewrite (run_bind _ _ _ _ _ Hrun3).
Qed.

(** ** Purging a file system *)

Definition blank (b : binding) : binding := Binding None (b_dvpid b) None (b_vpid b) (b_name b).

(** One entry freed. *)
Definition a_release (x : loc) (c : cache) : cache :=
  c_binds (alter blank x (c_bind c)) (c_lists (x :: but x (c_lru c)) (but x (c_ent c)) c).

Lemma blank_run s c x : Rel s c -> x ∈ c_lru c ->
  Rel (upd x (set_vps None None) s) (c_binds (alter blank x (c_bind c)) (c_lists (c_lru c) (c_ent c) c)).
Proof.
  intros HR Hx. destruct HR as [Hl Hr He Hd Hb Ho Hm Hs Hk]. split; try done; simpl.
  - eapply lsame_list; [by apply upd_lsame|done].
  - assert (Hbk : forall y, bk_of (nchash s) (alter blank x (c_bind c)) y = bk_of (nchash s) (c_bind c) y).
    { intros y. unfold bk_of. rewrite lookup_alter. case_decide; [subst|done]. by destruct (c_bind c !! y). }
    eapply qsame_rings; [by apply upd_qsame|]. destruct Hr as [H1 H2 H3 H4 H5]. split; try done.
    + intros i Hi. replace (bucket _ i _) with (bucket (bk_of (nchash s) (c_bind c)) i (c_ent c)); [by apply H1|].
      apply filter_ext_in. intros y _. by rewrite Hbk.
    + intros y Hy. rewrite Hbk. by apply H3.
  - intros y. rewrite Hd. symmetry. apply upd_dom.
  - apply map_eq. intros y. rewrite Hb, lookup_alter, !lookup_fmap, lookup_alter. case_decide; [subst|done].
    by destruct (nc_heap s !! y).
  - intros y e. rewrite lookup_alter. case_decide; [subst|apply Ho].
    destruct (nc_heap s !! y) as [e'|] eqn:E; [|done]. intros [= <-]. by apply Ho in E.
  - intros y b. rewrite lookup_alter. case_decide; [subst|apply Hk].
    destruct (c_bind c !! y) as [b'|] eqn:E; [|done]. intros [= <-]. by split.
Qed.

Lemma release_run s c x e : Rel s c -> x ∈ c_lru c -> nc_heap s !! x = Some e ->
  match but x (c_lru c) with
  | [] => nc_release x (nc_nxt e) s = None
  | y :: _ => exists s', nc_release x (nc_nxt e) s = Some (Some y, s') /\ Rel s' (a_release x c)
  end.
Proof.
  intros HR Hx He. pose proof (blank_run s c x HR Hx) as HR1. set (s1 := upd x _ s) in *. set (c1 := c_binds _ _) in *.
  assert (Hx1 : x ∈ c_lru c1) by done.
  destruct (remque_rings (nchash s1) s1 _ _ _ x (r_rings _ _ HR1)) as (s2 & Hrun2 & Hc2 & Hl2 & Hr2);
    [by apply (Rel_free_ent s1)|].
  assert (Hout : forall l, x ∉ but x l) by (intros l; rewrite elem_of_but; by intros [? _]).
  assert (Hx1h : is_Some (nc_heap s1 !! x)) by by apply (r_dom _ _ HR1).
  destruct (dummy_rings (nchash s1) s2 _ _ _ x Hr2 (Hout _) (Hout _)) as (s3 & Hrun3 & Hc3 & Hl3 & Hr3);
    [by eapply csame_node|].
  assert (Hc13 : csame s1 s3) by by etrans.
  pose proof Hx as Hin. apply list_elem_of_split in Hin as (a & b & Hsp).
  pose proof (Rel_nodup _ _ HR) as Hnd. pose proof (lsame_list _ _ _ (transitivity Hl2 Hl3) (r_lru _ _ HR1)) as Hlru.
  simpl in Hlru. rewrite Hsp in Hlru, Hnd.
  assert (Hnxt : nc_nxt e = head b).
  { pose proof (r_lru _ _ HR) as Hl. rewrite Hsp in Hl. destruct (lru_links _ _ _ _ Hl) as (e' & He' & _ & Hn & _).
    congruence. }
  destruct (lru_unlink_run s3 a x b Hlru) as (s4 & Hrun4 & Hl4 & Hc4 & Hq4).
  assert (Hrun : nc_release x (nc_nxt e) s = (do! lru_push x (head (a ++ b)) in kret (head (a ++ b))) s4).
  { unfold nc_release. unfold kbind at 1. rewrite assign_run by by eexists. fold s1.
    rewrite (run_bind _ _ _ _ _ Hrun2), (run_bind _ _ _ _ _ Hrun3), Hnxt, (run_bind _ _ _ _ _ Hrun4).
    unfold kbind at 1, kgets. by rewrite (lru_list_head _ _ Hl4). }
  rewrite Hrun. rewrite Hsp, but_split by done. destruct (a ++ b) as [|y l] eqn:Eab; cbn [head].
  - unfold kbind. by rewrite push_none.
  - assert (Hxl : x ∉ y :: l).
    { rewrite <- Eab. apply NoDup_app in Hnd as (_ & Hd & Hb). apply NoDup_cons in Hb as [? _].
      intros [?|?]%elem_of_app; [|done]. apply (Hd x); set_solver. }
    assert (Hc14 : csame s1 s4) by by etrans.
    destruct (lru_push_run s4 y l x Hl4 Hxl) as (s5 & Hrun5 & Hl5 & Hc5 & Hq5).
    { by apply (csame_dom _ _ _ Hc14). }
    exists s5. rewrite (run_bind _ _ _ _ _ Hrun5). split; [done|]. unfold a_release.
    assert (Hbl : but x (c_lru c) = y :: l) by (rewrite Hsp, but_split by done; exact Eab). rewrite Hbl.
    assert (Hmem : forall z, z ∈ x :: y :: l <-> z ∈ c_lru c).
    { intros z. rewrite elem_of_cons, <- Hbl, elem_of_but. destruct (decide (z = x)); naive_solver. }
    pose proof (Rel_build s1 s5 c1 (x :: y :: l) (but x (c_ent c)) (x :: but x (free_of c1)) HR1) as Hb.
    apply Hb; [by etrans|done| |done| |].
    + eapply qsame_rings; [exact (transitivity Hq4 Hq5)|exact Hr3].
    + intros z [_ Hz]%elem_of_but. by apply (r_ent _ _ HR).
    + intros z Hz Hzn. rewrite elem_of_cons, elem_of_but. destruct (decide (z = x)); [by left|right].
      split; [done|]. unfold free_of. rewrite list_elem_of_filter. split; [|done].
      intros Hze. apply Hzn. by rewrite elem_of_but.
Qed.

Lemma on_mount_run s c x mp : Rel s c -> x ∈ c_lru c -> nc_on_mount mp x s = Some (a_on mp c x, s).
Proof.
  intros HR Hx. destruct (Rel_entry _ _ _ HR Hx) as (e & He & Hb & _). pose proof (r_known _ _ HR x _ Hb) as [Hk _].
  pose proof (r_scal _ _ HR) as Hs. unfold scalars, c_scalars in Hs. assert (Hv : vnodes s = c_vns c) by congruence.
  unfold nc_on_mount, a_on. rewrite (run_entry _ _ _ _ He), Hb. simpl in *.
  destruct (nc_dvp e) as [d|]; [|done]. destruct (Hk d eq_refl) as [v Hvd].
  unfold kbind, kderef. by rewrite Hv, Hvd.
Qed.

(** What the scan leaves. *)
Definition a_released (mp : loc) (c : cache) : cache :=
  let on := a_on mp c in
  c_binds (map_imap (fun x b => Some (if on x then blank b else b)) (c_bind c))
    (c_lists (rev (filter on (c_lru c)) ++ filter (fun x => ~ on x) (c_lru c)) (filter (fun x => ~ on x) (c_ent c)) c).

Lemma a_on_release mp c x y : a_on mp (a_release x c) y = a_on mp c y && bool_decide (y <> x).
Proof.
  unfold a_on, a_release. simpl. rewrite lookup_alter. case_decide.
  - subst. rewrite bool_decide_eq_false_2 by auto. rewrite andb_false_r. by destruct (c_bind c !! y).
  - rewrite bool_decide_eq_true_2 by auto. by rewrite andb_true_r.
Qed.

Lemma cache_eq c c' : c_lru c = c_lru c' -> c_ent c = c_ent c' -> c_bind c = c_bind c' ->
  c_scalars c = c_scalars c' -> c = c'.
Proof. destruct c, c'. unfold c_scalars. simpl. by intros -> -> -> [= -> -> -> -> -> ->]. Qed.

Lemma filter_and {A} (P : A -> Prop) (Q : A -> Prop) (R : A -> Prop) `{!forall x, Decision (P x), !forall x, Decision (Q x), !forall x, Decision (R x)} (l : list A) :
  (forall x, x ∈ l -> (P x /\ Q x) <-> R x) -> filter P (filter Q l) = filter R l.
Proof. intros HPQ. rewrite list_filter_filter. by apply filter_ext_in. Qed.

(** Freeing one entry and then the rest is freeing them all. *)
Lemma released_step mp c x done todo : c_lru c = done ++ x :: todo -> NoDup (c_lru c) -> a_on mp c x ->
  (forall y, y ∈ done -> ~ a_on mp c y) -> a_released mp (a_release x c) = a_released mp c.
Proof.
  intros Hl Hnd Hx Hdone. assert (Hon : forall y, a_on mp (a_release x c) y <-> a_on mp c y /\ y <> x).
  { intros y. rewrite a_on_release, andb_True, bool_decide_spec. done. }
  rewrite Hl in Hnd. pose proof Hnd as (_ & Hdx & [Hxt _]%NoDup_cons)%NoDup_app.
  assert (Hxd : x ∉ done) by (intros H; apply (Hdx x H); set_solver).
  apply cache_eq; [| | |done].
  - simpl. rewrite Hl, but_split by done. rewrite !filter_cons, !filter_app, !filter_cons.
    rewrite (decide_False (P := a_on mp (a_release x c) x)) by naive_solver.
    rewrite (decide_True (P := ~ a_on mp (a_release x c) x)) by naive_solver.
    rewrite (decide_True (P := a_on mp c x)) by done. rewrite (decide_False (P := ~ a_on mp c x)) by naive_solver.
    rewrite (filter_none (a_on mp c) done) by done. rewrite (filter_all (fun y => ~ a_on mp c y) done) by done.
    rewrite (filter_none (a_on mp (a_release x c)) done) by naive_solver.
    rewrite (filter_all (fun y => ~ a_on mp (a_release x c) y) done) by naive_solver.
    rewrite (filter_ext_in (a_on mp (a_release x c)) (a_on mp c) todo) by naive_solver.
    rewrite (filter_ext_in (fun y => ~ a_on mp (a_release x c) y) (fun y => ~ a_on mp c y) todo).
    2:{ intros y Hy. rewrite Hon. assert (y <> x) by naive_solver. tauto. }
    simpl. by rewrite <- app_assoc.
  - simpl. apply filter_and. intros y _. rewrite Hon. destruct (decide (y = x)) as [->|]; tauto.
  - simpl. apply map_eq. intros y. rewrite !map_lookup_imap, lookup_alter, a_on_release. case_decide.
    + subst. rewrite bool_decide_eq_false_2 by auto. destruct (c_bind c !! y); [|done]. simpl.
      destruct (a_on mp c y); [done|]. by exfalso.
    + rewrite bool_decide_eq_true_2 by auto. by rewrite andb_true_r.
Qed.

Lemma released_none mp c : (forall x, x ∈ c_lru c -> ~ a_on mp c x) -> (forall x, x ∈ c_ent c -> x ∈ c_lru c) ->
  (forall x, is_Some (c_bind c !! x) -> x ∈ c_lru c) -> a_released mp c = c.
Proof.
  intros Hno He Hb. apply cache_eq; simpl; [| | |done].
  - rewrite (filter_none (a_on mp c)) by done. by rewrite filter_all.
  - apply filter_all. auto.
  - apply map_eq. intros x. rewrite map_lookup_imap. destruct (c_bind c !! x) as [b|] eqn:E; [|done]. simpl.
    specialize (Hno x (Hb x (ex_intro _ b E))). destruct (a_on mp c x); [|done]. by exfalso.
Qed.

Lemma Rel_bind_in s c x : Rel s c -> is_Some (c_bind c !! x) -> x ∈ c_lru c.
Proof. intros HR. rewrite (r_bind _ _ HR), lookup_fmap, fmap_is_Some. apply (r_dom _ _ HR). Qed.

Lemma a_purgevfs_many mp c : length (c_lru c) <> 1%nat -> a_purgevfs mp c = Some (a_released mp c).
Proof. intros H. unfold a_purgevfs. by rewrite bool_decide_eq_false_2. Qed.

Lemma purgevfs_loop_run mp n done todo s c fuel : Rel s c -> c_lru c = done ++ todo ->
  (forall y, y ∈ done -> ~ a_on mp c y) -> length (c_lru c) <> 1%nat ->
  length (filter (a_on mp c) todo) = n -> (n * (length (c_lru c) + 1) + length todo <= fuel)%nat ->
  exists s', purgevfs_loop fuel mp (head todo) s = Some (tt, s') /\ Rel s' (a_released mp c).
Proof.
  revert done todo s c fuel. induction n as [n IHn] using lt_wf_ind. intros done todo.
  revert done. induction todo as [|x todo IH]; intros done s c fuel HR Hl Hdone Hlen Hn Hf.
  - exists s. split; [by destruct fuel|]. rewrite released_none; [done|..].
    + intros x Hx. rewrite Hl, app_nil_r in Hx. by apply Hdone.
    + apply HR.
    + intros x. by apply (Rel_bind_in s).
  - destruct fuel as [|fuel]; [simpl in Hf; lia|].
    assert (Hx : x ∈ c_lru c) by (rewrite Hl; set_solver).
    pose proof (Rel_nodup _ _ HR) as Hnd. pose proof (r_lru _ _ HR) as Hlru. rewrite Hl in Hlru.
    destruct (lru_links _ _ _ _ Hlru) as (e & He & _ & Hnxt & _).
    cbn [head purgevfs_loop]. rewrite (run_entry _ _ _ _ He), (run_bind _ _ _ _ _ (on_mount_run s c x mp HR Hx)).
    rewrite filter_cons in Hn. destruct (a_on mp c x) eqn:Eon; simpl.
    + rewrite decide_True in Hn by done. simpl in Hn.
      pose proof (release_run s c x e HR Hx He) as Hrel. pose proof Hnd as Hnd'. rewrite Hl in Hnd'.
      assert (Hbut : but x (c_lru c) = done ++ todo) by (by rewrite Hl, but_split).
      rewrite Hbut in Hrel. destruct (done ++ todo) as [|y l] eqn:Eab.
      { destruct done; [|done]. destruct todo; [|done]. by rewrite Hl in Hlen. }
      destruct Hrel as (s1 & Hrun & HR1). rewrite (run_bind _ _ _ _ _ Hrun).
      assert (Hlen1 : length (c_lru (a_release x c)) = length (c_lru c)).
      { simpl. rewrite Hbut, Hl, <- Eab, !length_app. simpl. lia. }
      destruct (IHn (length (filter (a_on mp c) todo)) ltac:(lia) [x] (y :: l) s1 (a_release x c) fuel HR1) as (s2 & Hrun2 & HR2).
      * simpl. by rewrite Hbut.
      * intros z Hz. apply list_elem_of_singleton in Hz as ->. rewrite a_on_release, bool_decide_eq_false_2 by auto.
        rewrite andb_false_r. intros [].
      * by rewrite Hlen1.
      * rewrite <- Eab, filter_app. rewrite (filter_none _ done), app_nil_l.
        -- f_equal. apply filter_ext_in. intros z Hz. rewrite a_on_release, andb_True, bool_decide_spec.
           assert (z <> x); [|tauto]. intros ->. apply NoDup_app in Hnd' as (_ & _ & Hd). by apply NoDup_cons in Hd as [? _].
        -- intros z Hz. rewrite a_on_release, andb_True. intros [Hz' _]. by apply (Hdone z).
      * rewrite Hlen1. assert (Hyl : (length (y :: l) < length (c_lru c))%nat).
        { rewrite <- Eab, Hl, !length_app. simpl. lia. } simpl in Hf. nia.
      * exists s2. split; [exact Hrun2|]. rewrite <- (released_step mp c x done todo); try done. by rewrite Eon.
    + rewrite decide_False in Hn by auto. rewrite Hnxt. apply (IH (done ++ [x])); try done.
      * by rewrite <- app_assoc.
      * intros y [Hy|Hy]%elem_of_app; [by apply Hdone|]. apply list_elem_of_singleton in Hy as ->. rewrite Eon. intros [].
      * simpl in Hf. lia.
Qed.

Lemma purgevfs_outcome s c mp : Rel s c -> outcome (cache_purgevfs mp s) ((fun c => (tt, c)) <$> a_purgevfs mp c).
Proof.
  intros HR. unfold cache_purgevfs, kbind, kget. rewrite (lru_list_head _ _ (r_lru _ _ HR)).
  assert (Hsz : (length (c_lru c) <= size (nc_heap s))%nat).
  { apply NoDup_keys_size; [by eapply Rel_nodup|]. intros x. apply (r_dom _ _ HR). }
  destruct (decide (length (c_lru c) = 1%nat)) as [H1|H1].
  - unfold a_purgevfs. rewrite bool_decide_eq_true_2 by done. destruct (c_lru c) as [|x [|? ?]] eqn:El; try done.
    assert (Hx : x ∈ c_lru c) by (rewrite El; set_solver). cbn [head existsb andb].
    destruct (Rel_entry _ _ _ HR Hx) as (e & He & _).
    replace ((size (nc_heap s) + 1) * (size (nc_heap s) + 1))%nat with (S (size (nc_heap s) * (size (nc_heap s) + 2))) by lia.
    cbn [purgevfs_loop]. rewrite (run_entry _ _ _ _ He), (run_bind _ _ _ _ _ (on_mount_run s c x mp HR Hx)).
    rewrite orb_false_r. destruct (a_on mp c x) eqn:Eon; cbn [negb fmap option_fmap option_map].
    + pose proof (release_run s c x e HR Hx He) as Hrel. rewrite El in Hrel. unfold but in Hrel.
      rewrite filter_cons_False in Hrel by auto. simpl in Hrel. unfold kbind. by rewrite Hrel.
    + pose proof (r_lru _ _ HR) as Hl. rewrite El in Hl. destruct (lru_links s [] x [] Hl) as (e' & He' & _ & Hn & _).
      rewrite He in He'. simplify_eq. rewrite Hn, <- El. cbn [head].
      replace (purgevfs_loop _ mp None s) with (Some (tt, s)) by (by destruct (_ * _)%nat).
      split; [done|]. change (Rel s (a_released mp c)). rewrite released_none; [done|..].
      * intros y. rewrite El. intros ->%list_elem_of_singleton. rewrite Eon. intros [].
      * apply HR.
      * intros y. by apply (Rel_bind_in s).
  - rewrite a_purgevfs_many by done. simpl.
    destruct (purgevfs_loop_run mp (length (filter (a_on mp c) (c_lru c))) [] (c_lru c) s c ((size (nc_heap s) + 1) * (size (nc_heap s) + 1)) HR eq_refl) as (s' & -> & HR');
      [set_solver|done|reflexivity| |done].
    pose proof (length_filter (a_on mp c) (c_lru c)). nia.
Qed.
