(* ===== verification/NcacheCalls.v ===== *)
(** * What the name cache promises

    The calls refine the cache without links; in every run a name found in the cache is
    the last one entered, and nothing has made it wrong since; and the two ways the code
    breaks. *)

From S2P Require Import Prelude Ncache NcacheSpec NcacheLinks NcacheRel NcacheOps.
Local Open Scope kern_scope.

(** ** Names *)

(** What the calls are given: a component of a path in a directory, and the vnode it names. *)
Definition made (ndp : nameidata) (s : ncst) : Prop := exists op dvp path nd v,
  lookup_component op dvp path = Some (inr nd) /\ ndp = with_vp v nd /\ is_Some (vnodes s !! dvp) /\
  (forall x, v = Some x -> is_Some (vnodes s !! x)).

Lemma name_scan_spec path l h l' h' : name_scan path l h = Some (l', h') -> exists k,
  l' = l + k /\ 0 <= k <= zlen path /\ h' = foldl (fun h c => u32 (h + c)) h (take (Z.to_nat k) path).
Proof.
  revert l h. induction path as [|c path IH]; intros l h; simpl; [done|].
  destruct ((c =? 0) || (c =? 47)).
  - intros [= <- <-]. exists 0. pose proof (zlen_nonneg (c :: path)). split_and!; [lia|lia|lia|done].
  - intros (k & -> & Hk & ->)%IH. exists (k + 1). rewrite zlen_cons.
    replace (Z.to_nat (k + 1)) with (S (Z.to_nat k)) by lia. split_and!; [lia|lia|lia|done].
Qed.

Lemma made_ok ndp s c : Rel s c -> made ndp s -> nd_ok ndp c.
Proof.
  intros HR (op & dvp & path & nd & v & Hl & -> & Hd & Hv). pose proof (r_scal _ _ HR) as Hs.
  unfold scalars, c_scalars in Hs. assert (Hvn : c_vns c = vnodes s) by congruence. clear Hs.
  unfold lookup_component in Hl. destruct (name_scan path 0 0) as [[len hash]|] eqn:E; [|done].
  apply name_scan_spec in E as (k & -> & Hk & ->). destruct (NAME_MAX <=? 0 + k); [done|].
  destruct (znth path (0 + k)); [|done]. injection Hl as <-. split; simpl; rewrite ?Hvn; try done.
Qed.

(** ** The empty cache *)

(** The variables of vfs_cache.c when the kernel starts. *)
Definition boot (d : Z) : ncst := Ncst ∅ ∅ 0 0 None PHead (Nchstats 0 0 0 0 0 0) true 0 ∅ d.
Definition c_boot (d : Z) : cache := Cache [] [] ∅ 0 d true (Nchstats 0 0 0 0 0 0) 0 ∅.

Lemma nchash_double_spec n fuel j : 1 <= n < 2 ^ 31 -> 0 <= j -> (32 <= fuel + Z.to_nat j)%nat -> 2 ^ j <= 2 * n ->
  exists k, nchash_double fuel (2 ^ j) n = Some (2 ^ k - 1) /\ 0 <= k /\ 2 ^ k <= n < 2 ^ (k + 1).
Proof.
  intros Hn. revert j. induction fuel as [|fuel IH]; intros j Hj Hf H2; simpl.
  - exfalso. assert (2 ^ 32 <= 2 ^ j) by (apply Z.pow_le_mono_r; lia).
    change (2 ^ 32) with (2 * 2 ^ 31) in *. lia.
  - assert (Hlt : 2 ^ j < 2 ^ 33 -> is_u32 (2 ^ j * 2) \/ 2 ^ 31 <= 2 ^ j) by (intros _; unfold is_u32; change (2 ^ 31) with 2147483648; lia).
    destruct (Z.leb_spec (2 ^ j) n).
    + rewrite u32_id by (unfold is_u32; change (2 ^ 31) with 2147483648 in *; lia).
      replace (2 ^ j * 2) with (2 ^ (j + 1)) by (rewrite Z.pow_add_r by lia; lia).
      apply IH; [lia|lia|]. rewrite Z.pow_add_r by lia. lia.
    + assert (Hj0 : j <> 0) by (intros ->; simpl in *; lia).
      exists (j - 1). replace (j - 1 + 1) with j by lia.
      assert (Hp : 2 ^ j = 2 * 2 ^ (j - 1)) by (rewrite <- Z.pow_succ_r by lia; f_equal; lia).
      assert (0 < 2 ^ (j - 1)) by (apply Z.pow_pos_nonneg; lia).
      rewrite Z.shiftr_div_pow2 by lia. change (2 ^ 1) with 2.
      replace (2 ^ j / 2) with (2 ^ (j - 1)) by (rewrite Hp, Z.mul_comm, Z.div_mul; lia).
      rewrite u32_id by (unfold is_u32; change (2 ^ 31) with 2147483648 in *; lia). split_and!; [done|lia|lia|lia].
Qed.

Lemma nchashsize_range d : 0 <= d < 2 ^ 28 -> 512 <= nchashsize d / 8 < 2 ^ 31.
Proof.
  intros Hd. unfold nchashsize. change (2 ^ 28) with 268435456 in Hd. change (2 ^ 31) with 2147483648.
  rewrite u32_id by (unfold is_u32; lia). Z.div_mod_to_equations. lia.
Qed.

Lemma empty_ring s i : q_forw (QHead i) s = Some (Some (QHead i)) -> q_prev s (QHead i) = Some (QHead i) -> ring s i [].
Proof.
  intros Hf Hp. exists (QHead i). split; [done|]. split; [done|]. split; [done|].
  split; [constructor|]. by intros x ?%elem_of_nil.
Qed.

Lemma init_run d : 0 <= d < 2 ^ 28 -> exists s k, nchinit (boot d) = Some (tt, s) /\ Rel s (c_boot d) /\
  0 <= k /\ nchash s = 2 ^ k - 1 /\ 8 * (nchash s + 1) <= nchashsize d /\ nchashsize d / 8 < 2 * (nchash s + 1).
Proof.
  intros Hd. pose proof (nchashsize_range d Hd) as Hn.
  destruct (nchash_double_spec (nchashsize d / 8) 32 0) as (k & Hrun & Hk & Hlo & Hhi); [lia|done|simpl; lia|simpl; lia|].
  rewrite Z.pow_add_r in Hhi by lia. change (2 ^ 0) with 1 in Hrun. eexists _, k. split.
  { unfold nchinit, kbind, kmod, kgets. simpl desiredvnodes. rewrite Hrun. unfold knonnull. reflexivity. }
  assert (Hpow : 0 < 2 ^ k) by (apply Z.pow_pos_nonneg; lia).
  split; [|simpl; split_and!; [lia|lia| |lia]]; [|pose proof (Z.mul_div_le (nchashsize d) 8); lia].
  set (tbl := list_to_map _ : gmap Z nchash_head).
  assert (Htbl : forall i, 0 <= i <= 2 ^ k - 1 -> tbl !! i = Some (NchashHead (Some (QHead i)) (Some (QHead i)))).
  { intros i Hi. apply elem_of_list_to_map_1.
    - rewrite <- list_fmap_compose. simpl. rewrite list_fmap_id. apply NoDup_seqZ.
    - apply list_elem_of_fmap. exists i. split; [done|]. apply elem_of_seqZ. lia. }
  split; simpl; try done.
  - split; [done|]. split; [done|]. split; [constructor|]. by intros x ?%elem_of_nil.
  - split; [|by intros x ?%elem_of_nil|by intros x ?%elem_of_nil|constructor|by intros x ?%elem_of_nil].
    intros i Hi. apply empty_ring; unfold q_prev; simpl; by rewrite Htbl.
  - intros x. rewrite lookup_empty. split; [by intros ?%elem_of_nil|by intros []].
  - lia.
Qed.

(** ** Runs *)

(** What a run has done to the names. *)
Inductive event : Type :=
| EvEnter (d : loc) (n : list Z) (v : ptr)     (* the name [n] of [d] was entered *)
| EvUnwanted (d : loc) (n : list Z)            (* looked up to be removed or renamed *)
| EvPurge (v : loc)
| EvUnmount (on : loc -> bool).                (* the directories of a file system *)

Definition kills (e : event) (d : loc) (n : list Z) (v : ptr) : Prop :=
  match e with
  | EvEnter d' n' _ | EvUnwanted d' n' => d' = d /\ n' = n
  | EvPurge w => w = d \/ v = Some w
  | EvUnmount on => on d
  end.

(** The last thing entered for [n] in [d] is [v], and nothing has made it wrong since; the
    most recent event is the first. *)
Fixpoint current (tr : list event) (d : loc) (n : list Z) (v : ptr) : Prop :=
  match tr with
  | [] => False
  | e :: tr => e = EvEnter d n v \/ (~ kills e d n v /\ current tr d n v)
  end.

(** No entry is found. *)
Definition misses (ndp : nameidata) (s : ncst) : Prop := exists first,
  q_forw (QHead (Z.land (ni_hash ndp) (nchash s))) s = Some (Some first) /\
  fst <$> nc_find (size (nc_heap s)) ndp (Z.land (ni_hash ndp) (nchash s)) first s = Some None.

Definition lookup_event (ndp : nameidata) : list event :=
  if (ni_makeentry ndp =? 0) && (ni_namelen ndp <=? NCHNAMLEN) then [EvUnwanted (ni_dvp ndp) (ni_name ndp)] else [].

Definition on_mount (s : ncst) (mp d : loc) : bool :=
  match vnodes s !! d with Some v => bool_decide (v_mount v = Some mp) | None => false end.

(** The calls of a run: a name is entered when a search has not found it; a purge does not
    come to the end of the capabilities; vnodes are made, and move between mounts. *)
Inductive step : ncst -> list event -> ncst -> Prop :=
| st_lookup s ndp r s' : made ndp s -> cache_lookup ndp s = Some (r, s') -> step s (lookup_event ndp) s'
| st_enter s ndp s' : made ndp s -> ni_namelen ndp <= NCHNAMLEN -> misses ndp s -> cache_enter ndp s = Some (tt, s') ->
    step s [EvEnter (ni_dvp ndp) (ni_name ndp) (ni_vp ndp)] s'
| st_purge s vp s' : is_Some (vnodes s !! vp) -> nextvnodeid s + 1 < 4294967296 -> cache_purge vp s = Some (tt, s') ->
    step s [EvPurge vp] s'
| st_purgevfs s mp s' : cache_purgevfs mp s = Some (tt, s') -> step s [EvUnmount (on_mount s mp)] s'
| st_new s vp : vnodes s !! vp = None -> step s [] (with_ids (nextvnodeid s) (<[vp := Vnode 0 None]> (vnodes s)) s)
| st_mount s vp v mp : vnodes s !! vp = Some v ->
    step s [] (with_ids (nextvnodeid s) (<[vp := Vnode (v_id v) mp]> (vnodes s)) s).

Inductive reach (d : Z) : list event -> ncst -> Prop :=
| reach_init s : nchinit (boot d) = Some (tt, s) -> reach d [] s
| reach_step tr s ev s' : reach d tr s -> step s ev s' -> reach d (ev ++ tr) s'.

(** ** What the entries say is true *)

Definition fits (c : cache) (b : binding) : Prop :=
  (forall d, b_dvp b = Some d -> b_dvpid b = c_id c d) /\ (forall v, b_vp b = Some v -> b_vpid b = c_id c v).

Record Inv (tr : list event) (c : cache) : Prop := {
  inv_on : c_on c = true;
  inv_next : 0 <= c_next c < 4294967296;
  inv_id : forall v, c_id c v <= c_next c;
  inv_ids : forall x b, c_bind c !! x = Some b -> b_dvpid b <= c_next c /\ b_vpid b <= c_next c;
  inv_true : forall x b d, x ∈ c_ent c -> c_bind c !! x = Some b -> b_dvp b = Some d -> fits c b ->
    current tr d (b_name b) (b_vp b);
  inv_one : forall x y b b' d, x ∈ c_ent c -> y ∈ c_ent c -> c_bind c !! x = Some b -> c_bind c !! y = Some b' ->
    b_dvp b = Some d -> b_dvp b' = Some d -> b_dvpid b = c_id c d -> b_dvpid b' = c_id c d ->
    b_name b = b_name b' -> x = y }.

(** Fewer entries are found. *)
Lemma Inv_less tr tr' c lru ents c' : Inv tr c -> c' = c_lists lru ents c -> (forall x, x ∈ ents -> x ∈ c_ent c) ->
  (forall x b d, x ∈ ents -> c_bind c !! x = Some b -> b_dvp b = Some d -> fits c b ->
     current tr d (b_name b) (b_vp b) -> current tr' d (b_name b) (b_vp b)) -> Inv tr' c'.
Proof.
  intros [H1 H2 H3 H4 H5 H6] -> He Ht. split; simpl; try done.
  - intros x b d Hx Hb Hd Hf. eapply Ht; eauto.
  - intros x y b b' d Hx Hy. apply H6; auto.
Qed.

Lemma Inv_count tr c f : Inv tr c -> Inv tr (c_count f c).
Proof. by intros []. Qed.

Lemma but_sub x y l : y ∈ but x l -> y ∈ l.
Proof. rewrite elem_of_but. tauto. Qed.

Lemma Inv_touch tr c x : Inv tr c -> Inv tr (a_touch x c).
Proof. intros HI. by eapply Inv_less. Qed.

Lemma Inv_drop tr c x c' : Inv tr c -> a_drop x c = Some c' -> Inv tr c'.
Proof.
  intros HI. unfold a_drop. destruct (but x (c_lru c)); [done|]. intros [= <-].
  eapply Inv_less; [done|done|by intros ? ?%but_sub|done].
Qed.

(** What a match is. *)
Lemma match_spec ndp c x b : c_bind c !! x = Some b ->
  a_match ndp c x <-> b_dvp b = Some (ni_dvp ndp) /\ b_dvpid b = c_id c (ni_dvp ndp) /\ b_name b = ni_name ndp.
Proof.
  intros Hb. unfold a_match. rewrite Hb, !andb_True, !bool_decide_spec, Is_true_true, Z.eqb_eq. tauto.
Qed.

Lemma a_find_none ndp c x : a_find ndp c = None -> x ∈ c_ent c -> ~ a_match ndp c x.
Proof.
  unfold a_find. intros Hf Hx Hm. assert (H : x ∈ filter (a_match ndp c) (c_ent c)) by (by apply list_elem_of_filter).
  destruct (filter _ _); [set_solver|done].
Qed.

(** After the name has been looked up to be removed, it is not found. *)
Lemma Inv_unwanted tr c lru ents ndp : Inv tr c ->
  (forall x, x ∈ ents -> x ∈ c_ent c /\ ~ a_match ndp c x) ->
  Inv (EvUnwanted (ni_dvp ndp) (ni_name ndp) :: tr) (c_lists lru ents c).
Proof.
  intros HI Hno. eapply Inv_less; [exact HI|done|by intros x [? _]%Hno|].
  intros x b d Hx Hb Hbd [Hf _] Hc. right. split; [|done]. simpl. intros [<- Hn].
  apply Hno in Hx as [_ Hm]. apply Hm. rewrite (match_spec _ _ _ _ Hb). auto.
Qed.

(** At most one entry matches. *)
Lemma match_one tr c ndp x y : Inv tr c -> x ∈ c_ent c -> y ∈ c_ent c -> a_match ndp c x -> a_match ndp c y -> x = y.
Proof.
  intros HI Hx Hy Hmx Hmy. destruct (c_bind c !! x) as [b|] eqn:Eb; [|unfold a_match in Hmx; by rewrite Eb in Hmx].
  destruct (c_bind c !! y) as [b'|] eqn:Eb'; [|unfold a_match in Hmy; by rewrite Eb' in Hmy].
  apply (match_spec _ _ _ _ Eb) in Hmx as (? & ? & ?). apply (match_spec _ _ _ _ Eb') in Hmy as (? & ? & ?).
  eapply (inv_one _ _ HI x y b b'); eauto. congruence.
Qed.

Lemma Inv_lookup tr c ndp r c' : Inv tr c -> a_lookup ndp c = Some (r, c') -> Inv (lookup_event ndp ++ tr) c'.
Proof.
  intros HI. unfold a_lookup, lookup_event. rewrite (inv_on _ _ HI). simpl.
  destruct (Z.ltb_spec NCHNAMLEN (ni_namelen ndp)) as [Hl|Hl].
  - intros [= <- <-]. rewrite (proj2 (Z.leb_gt _ _)) by lia. rewrite andb_false_r. by apply Inv_count.
  - rewrite (proj2 (Z.leb_le _ _)) by lia. rewrite andb_true_r.
    assert (Hdrop : forall x f, a_find ndp c = Some x ->
      (fun c => ((0, ndp), c)) <$> a_drop x (c_count f c) = Some (r, c') ->
      Inv tr c' /\ Inv (EvUnwanted (ni_dvp ndp) (ni_name ndp) :: tr) c').
    { intros x f Ex. destruct (a_drop x (c_count f c)) as [c1|] eqn:Ed; [|done]. intros [= _ <-].
      split; [eapply Inv_drop; [|exact Ed]; by apply Inv_count|].
      unfold a_drop in Ed. destruct (but x _); [done|]. injection Ed as <-.
      apply Inv_unwanted; [by apply Inv_count|]. intros y [Hne Hy]%elem_of_but. simpl in *. split; [done|].
      intros Hm. apply Hne. apply a_find_in in Ex as [Hx Hmx].
      by apply (match_one tr c ndp). }
    destruct (a_find ndp c) as [x|] eqn:Ex.
    + destruct (ni_makeentry ndp =? 0); [intros H; by apply (Hdrop x add_bad)|].
      destruct (c_bind c !! x) as [b|]; [|done]. destruct (b_vp b) as [vp|].
      * destruct (b_vpid b =? c_id c vp); [intros [= _ <-]; by apply Inv_touch, Inv_count|].
        intros H. by apply (Hdrop x add_false).
      * destruct (Z.land (ni_nameiop ndp) OPMASK =? CREATE); [|intros [= _ <-]; by apply Inv_touch, Inv_count].
        intros H. by apply (Hdrop x id).
    + intros [= _ <-]. destruct (ni_makeentry ndp =? 0); [|by apply Inv_count].
      apply (Inv_unwanted tr (c_count add_miss c) (c_lru c) (c_ent c)); [by apply Inv_count|].
      intros x Hx. split; [done|]. by apply (a_find_none ndp c).
Qed.

Lemma Inv_enter tr c ndp : Inv tr c -> a_find ndp c = None -> (forall x, is_Some (c_bind c !! x) -> x ∈ c_lru c) ->
  Inv (EvEnter (ni_dvp ndp) (ni_name ndp) (ni_vp ndp) :: tr) (a_enter ndp c).
Proof.
  intros HI Hno Hdom.
  assert (Hold : forall x b d, x ∈ c_ent c -> c_bind c !! x = Some b -> b_dvp b = Some d -> b_dvpid b = c_id c d ->
    ~ kills (EvEnter (ni_dvp ndp) (ni_name ndp) (ni_vp ndp)) d (b_name b) (b_vp b)).
  { intros x b d Hx Hb Hd Hf [<- Hn]. apply (a_find_none _ _ _ Hno Hx). rewrite (match_spec _ _ _ _ Hb). auto. }
  assert (Hput : forall x g, (g = c \/ g = c_grow c) ->
    Inv (EvEnter (ni_dvp ndp) (ni_name ndp) (ni_vp ndp) :: tr) (a_put x ndp g)).
  { intros x g Hg. assert (Hb : a_binding ndp g = a_binding ndp c) by by destruct Hg as [->| ->].
    assert (He : a_put x ndp g = c_binds (<[x := a_binding ndp c]> (c_bind c))
      (c_lists (but x (c_lru c) ++ [x]) (x :: but x (c_ent c)) g)) by (unfold a_put; rewrite Hb; by destruct Hg as [->| ->]).
    assert (Hin : forall y, y ∈ x :: but x (c_ent c) -> y <> x -> y ∈ c_ent c).
    { intros y [->|Hy]%elem_of_cons Hne; [done|by apply but_sub in Hy]. }
    rewrite He. clear He Hb. destruct HI as [H1 H2 H3 H4 H5 H6].
    assert (Hid : forall v, c_id g v = c_id c v) by (intros v; by destruct Hg as [->| ->]).
    split; simpl.
    - by destruct Hg as [->| ->].
    - by destruct Hg as [->| ->].
    - intros v. change (c_id g v <= c_next g). rewrite Hid. destruct Hg as [->| ->]; apply H3.
    - intros y b. rewrite lookup_insert. replace (c_next g) with (c_next c) by (by destruct Hg as [->| ->]).
      case_decide; [|apply H4]. intros [= <-]. simpl. split; [apply H3|]. destruct (ni_vp ndp); [apply H3|lia].
    - intros y b d Hy. rewrite lookup_insert. case_decide as Hxy.
      + intros [= <-]. simpl. intros [= <-] _. by left.
      + intros Hb Hd Hf. right.
        assert (Hf' : fits c b) by (destruct Hf as [Hf1 Hf2]; split; intros v Hv; rewrite <- Hid; [by apply Hf1|by apply Hf2]).
        split; [|apply (H5 y); auto].
        apply (Hold y); auto. by apply Hf'.
    - intros y z b b' d Hy Hz. rewrite !lookup_insert. change (c_id _ d) with (c_id g d). rewrite Hid.
      repeat case_decide; subst; try done.
      + intros [= <-] Hb' [= <-] Hd' _ Hf Hn. exfalso. apply (a_find_none ndp c z Hno); [apply Hin; auto|].
        rewrite (match_spec _ _ _ _ Hb'). simpl in Hn. auto.
      + intros Hb [= <-] Hd [= <-] Hf _ Hn. exfalso. apply (a_find_none ndp c y Hno); [apply Hin; auto|].
        rewrite (match_spec _ _ _ _ Hb). simpl in Hn. auto.
      + intros. eapply H6; eauto. }
  unfold a_enter. rewrite (inv_on _ _ HI). simpl. destruct (c_num c <? c_max c); [apply Hput; by right|].
  destruct (c_lru c) as [|x l] eqn:El; [|apply Hput; by left].
  eapply (Inv_less tr _ c (c_lru c) (c_ent c)); [done|by destruct c|done|].
  intros x b d Hx Hb Hd Hf Hc. right. split; [|done]. apply (Hold x); try done. by apply Hf.
Qed.

Lemma Inv_purge tr c vp : Inv tr c -> is_Some (c_vns c !! vp) -> c_next c + 1 < 4294967296 ->
  Inv (EvPurge vp :: tr) (a_purge vp c).
Proof.
  intros [H1 H2 H3 H4 H5 H6] [v0 Hv0] Hn.
  assert (Hu : u32 (c_next c + 1) = c_next c + 1) by (apply u32_id; unfold is_u32; lia).
  unfold a_purge. simpl c_next. rewrite Hu. rewrite (proj2 (Z.eqb_neq _ _)) by lia.
  assert (Hid : forall v, c_id (a_next_id vp c) v = if decide (v = vp) then c_next c + 1 else c_id c v).
  { intros v. unfold c_id. simpl. rewrite Hu, lookup_alter. repeat case_decide; subst; try done. by rewrite Hv0. }
  (* a binding that fits did so before, and is not of [vp] *)
  assert (Hfit : forall x b d, c_bind c !! x = Some b -> b_dvp b = Some d -> b_dvpid b = c_id (a_next_id vp c) d ->
    d <> vp /\ b_dvpid b = c_id c d).
  { intros x b d Hb Hd. rewrite Hid. case_decide; [|done]. intros Hf. destruct (H4 x b Hb). lia. }
  split; simpl; rewrite ?Hu; try done.
  - lia.
  - intros v. change (c_id (a_next_id vp c) v <= c_next c + 1). rewrite Hid. case_decide; [lia|]. specialize (H3 v). lia.
  - intros x b Hb. specialize (H4 x b Hb). lia.
  - intros x b d Hx Hb Hd [Hf1 Hf2]. pose proof (Hfit x b d Hb Hd (Hf1 d Hd)) as [Hne Hfd].
    assert (Hv : forall v, b_vp b = Some v -> v <> vp /\ b_vpid b = c_id c v).
    { intros v Hv. specialize (Hf2 v Hv). rewrite Hid in Hf2. case_decide; [|done]. destruct (H4 x b Hb). lia. }
    right. split.
    + intros [->|E]; [done|]. by destruct (Hv vp E).
    + apply (H5 x); try done. split; [|intros v ?; by apply Hv]. intros d' Hd'. congruence.
  - intros x y b b' d Hx Hy Hb Hb' Hd Hd' Hf Hf'. eapply H6; eauto; [by apply (Hfit x)|by apply (Hfit y)].
Qed.

Lemma Inv_unmount tr c c' mp on : Inv tr c -> a_purgevfs mp c = Some c' ->
  (forall d, on d = match c_vns c !! d with Some v => bool_decide (v_mount v = Some mp) | None => false end) ->
  Inv (EvUnmount on :: tr) c'.
Proof.
  intros [H1 H2 H3 H4 H5 H6]. unfold a_purgevfs. case_match; [done|]. intros [= <-] Hon.
  assert (Hb' : forall x b, map_imap (fun x b => Some (if a_on mp c x then Binding None (b_dvpid b) None (b_vpid b) (b_name b) else b)) (c_bind c) !! x
    = Some b -> exists b0, c_bind c !! x = Some b0 /\ b_dvpid b0 = b_dvpid b /\ b_vpid b0 = b_vpid b /\
    (~ a_on mp c x -> b0 = b)).
  { intros x b. rewrite map_lookup_imap. destruct (c_bind c !! x) as [b0|]; [|done]. simpl. intros [= <-].
    exists b0. destruct (a_on mp c x); by split_and!. }
  split; simpl; try done.
  - intros x b (b0 & Hb & <- & <- & _)%Hb'. by apply (H4 x).
  - intros x b d [Hx1 Hx]%list_elem_of_filter (b0 & Hb & _ & _ & E)%Hb' Hd Hf. rewrite (E Hx1) in Hb. right. split.
    + simpl. intros Ho. apply Hx1. unfold a_on. rewrite Hb, Hd. rewrite Hon in Ho. by destruct (c_vns c !! d).
    + by apply (H5 x).
  - intros x y b b' d [Hx1 Hx]%list_elem_of_filter [Hy1 Hy]%list_elem_of_filter
      (b0 & Hb & _ & _ & E)%Hb' (b1 & Hb1 & _ & _ & E1)%Hb'. rewrite (E Hx1) in Hb. rewrite (E1 Hy1) in Hb1.
    intros. eapply H6; eauto.
Qed.

Lemma Inv_vnodes tr c m : Inv tr c -> (forall v, c_id (c_ids (c_next c) m c) v = c_id c v) -> Inv tr (c_ids (c_next c) m c).
Proof.
  intros [H1 H2 H3 H4 H5 H6] Hid. split; simpl; try done.
  - intros v. rewrite Hid. apply H3.
  - intros x b d Hx Hb Hd [Hf1 Hf2]. apply (H5 x); try done. split; intros v Hv; rewrite <- Hid; auto.
  - intros x y b b' d Hx Hy. rewrite Hid. by apply H6.
Qed.

Lemma Rel_vnodes s c m : Rel s c -> (forall v, is_Some (c_vns c !! v) -> is_Some (m !! v)) ->
  Rel (with_ids (nextvnodeid s) m s) (c_ids (c_next c) m c).
Proof.
  intros [Hl Hr He Hd Hb Ho Hm Hs Hk] Hv. split; try done.
  - revert Hr. apply qsame_rings. by split; intros [].
  - unfold scalars, c_scalars in *. simpl. congruence.
  - intros x b Hx. destruct (Hk x b Hx) as [H1 H2]. split; intros d Hd'; apply Hv; [by apply H1|by apply H2].
Qed.

Lemma misses_find ndp s c : Rel s c -> nd_ok ndp c -> misses ndp s <-> a_find ndp c = None.
Proof.
  intros HR Hnd. destruct (chain_search_run s c ndp HR Hnd) as [Hf Hrun]. split.
  - intros (first & Hf' & Hrun'). rewrite Hf in Hf'. injection Hf' as <-. rewrite Hrun in Hrun'. by injection Hrun'.
  - intros E. eexists. split; [exact Hf|]. by rewrite Hrun, E.
Qed.

Lemma Rel_vns s c : Rel s c -> vnodes s = c_vns c /\ nextvnodeid s = c_next c.
Proof. intros HR. pose proof (r_scal _ _ HR) as Hs. unfold scalars, c_scalars in Hs. split; congruence. Qed.

Lemma step_inv tr s ev s' c : step s ev s' -> Rel s c -> Inv tr c -> exists c', Rel s' c' /\ Inv (ev ++ tr) c'.
Proof.
  intros Hst HR HI. destruct (Rel_vns _ _ HR) as [Hv Hn].
  destruct Hst as [s ndp [r ndp'] s' Hm Hrun|s ndp s' Hm Hl Hmiss Hrun|s vp s' Hvp Hlt Hrun|s mp s' Hrun|s vp Hvp|s vp v mp Hvp].
  - pose proof (lookup_outcome s c ndp HR (made_ok _ _ _ HR Hm)) as Ho. rewrite Hrun in Ho.
    destruct (a_lookup ndp c) as [[r' c']|] eqn:E; [|done]. destruct Ho as [<- HR'].
    exists c'. split; [done|]. by eapply Inv_lookup.
  - pose proof (made_ok _ _ _ HR Hm) as Hnd. destruct (enter_outcome s c ndp HR Hnd Hl) as (s1 & Hrun1 & HR1).
    rewrite Hrun in Hrun1. injection Hrun1 as <-. eexists. split; [done|]. simpl. apply Inv_enter; [done| |].
    + by apply (misses_find ndp s).
    + intros x. by apply (Rel_bind_in s).
  - rewrite Hv in Hvp. rewrite Hn in Hlt. destruct (purge_outcome s c vp HR Hvp) as (s1 & Hrun1 & HR1).
    rewrite Hrun in Hrun1. injection Hrun1 as <-. eexists. split; [done|]. by apply Inv_purge.
  - pose proof (purgevfs_outcome s c mp HR) as Ho. rewrite Hrun in Ho.
    destruct (a_purgevfs mp c) as [c'|] eqn:E; [|done]. destruct Ho as [_ HR'].
    exists c'. split; [done|]. eapply Inv_unmount; [done|done|]. intros d. unfold on_mount. by rewrite Hv.
  - exists (c_ids (c_next c) (<[vp := Vnode 0 None]> (vnodes s)) c). split.
    + apply Rel_vnodes; [done|]. intros w Hw. rewrite lookup_insert. case_decide; [by eexists|by rewrite Hv].
    + apply Inv_vnodes; [done|]. intros w. unfold c_id. simpl. rewrite lookup_insert, Hv. rewrite Hv in Hvp.
      case_decide; [subst; by rewrite Hvp|done].
  - exists (c_ids (c_next c) (<[vp := Vnode (v_id v) mp]> (vnodes s)) c). split.
    + apply Rel_vnodes; [done|]. intros w Hw. rewrite lookup_insert. case_decide; [by eexists|by rewrite Hv].
    + apply Inv_vnodes; [done|]. intros w. unfold c_id. simpl. rewrite lookup_insert, Hv. rewrite Hv in Hvp.
      case_decide; [subst; by rewrite Hvp|done].
Qed.

Lemma Inv_boot d : Inv [] (c_boot d).
Proof. by split. Qed.

Lemma reach_inv d tr s : 0 <= d < 2 ^ 28 -> reach d tr s -> exists c, Rel s c /\ Inv tr c.
Proof.
  intros Hd. induction 1 as [s Hrun|tr s ev s' Hr (c & HR & HI) Hst].
  - destruct (init_run d Hd) as (s1 & k & Hrun1 & HR & _). rewrite Hrun in Hrun1. injection Hrun1 as <-.
    exists (c_boot d). split; [done|apply Inv_boot].
  - by eapply step_inv.
Qed.

(** What a search of the cache answers. *)
Lemma lookup_true tr c ndp r ndp' c' : Inv tr c -> a_lookup ndp c = Some ((r, ndp'), c') ->
  (forall x, x ∈ c_ent c -> is_Some (c_bind c !! x)) ->
  (r = -1 -> exists v, ni_vp ndp' = Some v /\ current tr (ni_dvp ndp) (ni_name ndp) (Some v)) /\
  (r = ENOENT -> current tr (ni_dvp ndp) (ni_name ndp) None) /\
  (r = 0 -> ni_namelen ndp <= NCHNAMLEN -> a_find ndp c' = None).
Proof.
  intros HI. unfold a_lookup. rewrite (inv_on _ _ HI). simpl.
  destruct (Z.ltb_spec NCHNAMLEN (ni_namelen ndp)) as [Hl|Hl]; [intros [= <- <- <-] _; split_and!; try done; lia|].
  intros Hrun Hb.
  assert (Hdrop : forall x f, a_find ndp c = Some x -> (fun c => ((0, ndp), c)) <$> a_drop x (c_count f c) = Some ((r, ndp'), c') ->
    r = 0 /\ a_find ndp c' = None).
  { intros x f Ex. destruct (a_drop x (c_count f c)) as [c1|] eqn:Ed; [|done]. intros [= <- <- <-]. split; [done|].
    unfold a_drop in Ed. destruct (but x _); [done|]. injection Ed as <-. unfold a_find. simpl.
    rewrite filter_none; [done|]. intros y [Hne Hy]%elem_of_but Hm. apply Hne.
    apply a_find_in in Ex as [Hx Hmx]. by apply (match_one tr c ndp). }
  destruct (a_find ndp c) as [x|] eqn:Ex.
  2:{ injection Hrun as <- <- <-. split_and!; try done. }
  destruct (ni_makeentry ndp =? 0).
  { destruct (Hdrop x add_bad) as [-> H]; [done|done|]. split_and!; try done. }
  pose proof (a_find_in _ _ _ Ex) as [Hx Hm]. destruct (Hb x Hx) as [b Eb]. rewrite Eb in Hrun.
  pose proof Hm as Hm'. apply (match_spec _ _ _ _ Eb) in Hm' as (Hd & Hid & Hnm).
  destruct (b_vp b) as [vp|] eqn:Ev.
  - destruct (Z.eqb_spec (b_vpid b) (c_id c vp)) as [Hv|Hv].
    + injection Hrun as <- <- <-. split_and!; try done. intros _. exists vp. split; [done|].
      rewrite <- Hnm, <- Ev. apply (inv_true _ _ HI x); try done. split; [intros d; congruence|intros v; congruence].
    + destruct (Hdrop x add_false) as [-> H]; [done|done|]. split_and!; try done.
  - destruct (Z.land (ni_nameiop ndp) OPMASK =? CREATE).
    + destruct (Hdrop x id) as [-> H]; [done|done|]. split_and!; try done.
    + injection Hrun as <- <- <-. split_and!; try done. intros _.
      rewrite <- Hnm, <- Ev. apply (inv_true _ _ HI x); try done. split; [intros d; congruence|intros v; congruence].
Qed.

(** ** Properties *)

(** C7. The name cache does not lie as long as its counter does not wrap. In every run from
    [nchinit], for fewer than 2^28 vnodes, of calls that return: searches, entries of names
    of at most 31 bytes that a search has not found, purges of file systems, and purges of
    vnodes at which [nextvnodeid] does not come to 2^32: when [cache_lookup] returns -1, the
    vnode is the last one entered for the name in that directory, and when it returns
    [ENOENT] the name was last entered as absent - and since then the name has not been
    looked up to be removed, neither vnode has been purged and the file system of the
    directory has not been unmounted. When it returns 0 the name is not in the cache, so
    that the caller may enter it. *)
Theorem name_cache_sound d tr s ndp r ndp' s' :
  0 <= d < 2 ^ 28 -> reach d tr s -> made ndp s -> cache_lookup ndp s = Some ((r, ndp'), s') ->
  (r = -1 -> exists v, ni_vp ndp' = Some v /\ current tr (ni_dvp ndp) (ni_name ndp) (Some v)) /\
  (r = ENOENT -> current tr (ni_dvp ndp) (ni_name ndp) None) /\
  (r = 0 -> ni_namelen ndp <= NCHNAMLEN -> misses ndp s').
Proof.
  intros Hd Hr Hm Hrun. destruct (reach_inv d tr s Hd Hr) as (c & HR & HI).
  pose proof (made_ok _ _ _ HR Hm) as Hnd. pose proof (lookup_outcome s c ndp HR Hnd) as Ho.
  rewrite Hrun in Ho. destruct (a_lookup ndp c) as [[r' c']|] eqn:E; [|done]. destruct Ho as [<- HR'].
  destruct (lookup_true tr c ndp r ndp' c' HI E) as (H1 & H2 & H3).
  { intros x Hx. apply (r_ent _ _ HR) in Hx. destruct (Rel_entry _ _ _ HR Hx) as (e & _ & He & _). by eexists. }
  split_and!; [done|done|]. intros Hr0 Hlen. apply (misses_find ndp s' c' HR'); [|by apply H3].
  destruct Hnd as [Ha Hb Hc He]. assert (Hv : c_vns c' = c_vns c).
  { unfold a_lookup, a_drop in E. repeat (case_match; simplify_eq/=; try done). }
  split; rewrite ?Hv; done.
Qed.

(** ** An example: the directory 1 holds "a", which is the vnode 2 *)

Definition after {A} (m : K ncst A) (s : ncst) : ncst := match m s with Some (_, s') => s' | None => s end.
Definition ran {A} (m : K ncst A) (s : ncst) : bool := match m s with Some _ => true | None => false end.

Lemma after_run (m : K ncst unit) s : ran m s = true -> m s = Some (tt, after m s).
Proof. unfold ran, after. by destruct (m s) as [[[] s']|]. Qed.

Definition ex_nd (op : Z) (v : ptr) : nameidata :=
  match lookup_component op 1%positive [97; 0] with Some (inr nd) => with_vp v nd | _ => Nameidata 0 None 1%positive [] 0 0 0 end.

Definition ex_new (vp : loc) (s : ncst) : ncst :=
  after (cache_purge vp) (with_ids (nextvnodeid s) (<[vp := Vnode 0 None]> (vnodes s)) s).
Definition ex_start : ncst := ex_new 2%positive (ex_new 1%positive (after nchinit (boot 100))).
Definition ex_one : ncst := after (cache_enter (ex_nd 0 (Some 2%positive))) ex_start.

Definition has_vnode (s : ncst) (v : loc) : bool := match vnodes s !! v with Some _ => true | None => false end.

Lemma has_vnode_some s v : has_vnode s v = true -> is_Some (vnodes s !! v).
Proof. unfold has_vnode. destruct (vnodes s !! v); [by eexists|done]. Qed.

Lemma ex_made op v s : has_vnode s 1%positive && (match v with Some x => has_vnode s x | None => true end) = true ->
  (forall nd, lookup_component op 1%positive [97; 0] = Some (inr nd) -> made (with_vp v nd) s).
Proof.
  intros [H1 H2]%andb_prop nd Hl. exists op, 1%positive, [97; 0], nd, v. split_and!; [done|done|by apply has_vnode_some|].
  intros x ->. by apply has_vnode_some.
Qed.

Lemma ex_new_reach tr s vp : reach 100 tr s -> vnodes s !! vp = None ->
  ran (cache_purge vp) (with_ids (nextvnodeid s) (<[vp := Vnode 0 None]> (vnodes s)) s) = true ->
  nextvnodeid s + 1 < 4294967296 -> reach 100 (EvPurge vp :: tr) (ex_new vp s).
Proof.
  intros Hr Hv Hrun Hn. apply (reach_step 100 tr (with_ids (nextvnodeid s) (<[vp := Vnode 0 None]> (vnodes s)) s) [EvPurge vp]).
  - apply (reach_step 100 tr s []); [done|]. by apply st_new.
  - apply st_purge; [|done|by apply after_run]. simpl. rewrite lookup_insert_eq. by eexists.
Qed.

Lemma ex_start_reach : reach 100 [EvPurge 2%positive; EvPurge 1%positive] ex_start.
Proof.
  apply ex_new_reach; [apply ex_new_reach; [apply reach_init, after_run|..]|..]; by vm_compute.
Qed.

Lemma ex_one_reach : reach 100 [EvEnter 1%positive [97] (Some 2%positive); EvPurge 2%positive; EvPurge 1%positive] ex_one.
Proof.
  apply (reach_step 100 _ ex_start [EvEnter 1%positive [97] (Some 2%positive)]); [apply ex_start_reach|].
  apply (st_enter ex_start (ex_nd 0 (Some 2%positive))).
  - apply (ex_made 0 (Some 2%positive)); by vm_compute.
  - by vm_compute.
  - eexists. split; [by vm_compute|]. by vm_compute.
  - apply after_run. by vm_compute.
Qed.

Lemma name_cache_sound_witness :
  ran (cache_lookup (ex_nd 0 None)) ex_one = true /\ forall r ndp' s',
    cache_lookup (ex_nd 0 None) ex_one = Some ((r, ndp'), s') -> r = -1 /\ ni_vp ndp' = Some 2%positive /\
    exists v, ni_vp ndp' = Some v /\
      current [EvEnter 1%positive [97] (Some 2%positive); EvPurge 2%positive; EvPurge 1%positive] 1%positive [97] (Some v).
Proof.
  split; [by vm_compute|]. intros r ndp' s' Hrun.
  assert (Hr : r = -1 /\ ni_vp ndp' = Some 2%positive).
  { assert (E : (fun o => (fst o, ni_vp (snd o))) <$> (fst <$> cache_lookup (ex_nd 0 None) ex_one) = Some (-1, Some 2%positive)) by (by vm_compute).
    rewrite Hrun in E. simpl in E. injection E as E1 E2. exact (conj E1 E2). }
  split; [apply Hr|]. split; [apply Hr|].
  refine (proj1 (name_cache_sound 100 _ ex_one (ex_nd 0 None) r ndp' s' _ ex_one_reach _ Hrun) (proj1 Hr)).
  - lia.
  - apply (ex_made 0 None); by vm_compute.
Defined.

(** C8. The calls of the name cache are, link by link, the operations of a cache without
    links: a set of bindings from (directory, name) to a vnode or to nothing, in the order
    of their last use and of their entry. On any state that stands for such a cache
    [cache_lookup], [cache_enter] of a name of at most 31 bytes, as its caller makes sure,
    [cache_purge] and [cache_purgevfs] fail exactly when the operation fails, return what it
    returns and leave a state that stands for its result - so the two circular and doubly
    linked lists, the hash table and the dummy chains are right on every branch,
    [cache_purgevfs]'s rescans end and a counter that wraps forgets every entry. *)
Theorem name_cache_refines s c : Rel s c ->
  (forall ndp, made ndp s -> outcome (cache_lookup ndp s) (a_lookup ndp c)) /\
  (forall ndp, made ndp s -> ni_namelen ndp <= NCHNAMLEN -> outcome (cache_enter ndp s) (Some (tt, a_enter ndp c))) /\
  (forall vp, is_Some (vnodes s !! vp) -> outcome (cache_purge vp s) (Some (tt, a_purge vp c))) /\
  (forall mp, outcome (cache_purgevfs mp s) ((fun c => (tt, c)) <$> a_purgevfs mp c)).
Proof.
  intros HR. destruct (Rel_vns _ _ HR) as [Hv _]. split_and!.
  - intros ndp Hm. apply lookup_outcome; [done|]. by eapply made_ok.
  - intros ndp Hm Hl. destruct (enter_outcome s c ndp HR (made_ok _ _ _ HR Hm) Hl) as (s' & -> & HR'). done.
  - intros vp Hvp. rewrite Hv in Hvp. destruct (purge_outcome s c vp HR Hvp) as (s' & -> & HR'). done.
  - intros mp. by apply purgevfs_outcome.
Qed.

Lemma name_cache_refines_witness : exists s c, Rel s c /\ c_lru c <> [] /\
  outcome (cache_lookup (ex_nd 0 None) s) (a_lookup (ex_nd 0 None) c).
Proof.
  destruct (reach_inv 100 _ _ ltac:(lia) ex_one_reach) as (c & HR & _).
  exists ex_one, c. split; [exact HR|]. split.
  - intros E. pose proof (lru_list_head _ _ (r_lru _ _ HR)) as Hh. rewrite E in Hh. by vm_compute in Hh.
  - apply (proj1 (name_cache_refines ex_one c HR)). apply (ex_made 0 None); by vm_compute.
Defined.

(** [nchinit] ends with an empty cache, well linked: the number of buckets is the largest
    power of two that the allocation of [nchashsize] bytes holds, so that every masked hash
    value is the index of a bucket inside it. *)
Theorem nchinit_empty d : 0 <= d < 2 ^ 28 -> exists s k, nchinit (boot d) = Some (tt, s) /\ Rel s (c_boot d) /\
  0 <= k /\ nchash s = 2 ^ k - 1 /\ 8 * (nchash s + 1) <= nchashsize d /\ nchashsize d / 8 < 2 * (nchash s + 1) /\
  forall nm, 0 <= Z.land (name_hash nm) (nchash s) <= nchash s.
Proof.
  intros Hd. destruct (init_run d Hd) as (s & k & Hrun & HR & Hk & Hm & H1 & H2). exists s, k.
  do 6 (split; [done|]). intros nm. apply land_mask; [apply name_hash_nonneg|apply (r_mask _ _ HR)].
Qed.

Lemma nchinit_empty_witness : exists s k, nchinit (boot 1000) = Some (tt, s) /\ nchash s = 2 ^ k - 1 /\ nchash s = 511.
Proof.
  destruct (nchinit_empty 1000 ltac:(lia)) as (s & k & Hrun & _ & _ & Hm & _). exists s, k. split_and!; [done|done|].
  assert (E : (fun r => nchash (snd r)) <$> nchinit (boot 1000) = Some 511) by (by vm_compute).
  rewrite Hrun in E. injection E as E. exact E.
Defined.

(** After the capabilities have come round: the vnode 1 has 7 and the vnode 2 has 5. *)
Definition ex_wrap : ncst :=
  with_ids 4294967295 {[ 1%positive := Vnode 7 None; 2%positive := Vnode 5 None; 3%positive := Vnode 9 None ]}
    (after nchinit (boot 100)).

Definition ex_purge (vp : loc) (s : ncst) : ncst := after (cache_purge vp) s.

(** Where the name cache breaks.  When a cache has one entry, a search that finds it and
    must drop it, and the purge of the file system of its directory, write through the null
    pointer at the head of the emptied list.  And once [nextvnodeid] has come round a vnode
    can be given the capability it has: of the vnodes 2, 1 and 3 with the capabilities 5, 7
    and 9, 3 is purged - the counter wraps and every entry is forgotten - then "a" of 1 is
    entered as 2, 3 is purged three times and 2 once, and the search still finds 2. *)
Theorem name_cache_breaks s c x ndp mp : Rel s c -> made ndp s -> c_on c = true -> c_lru c = [x] ->
  (ni_namelen ndp <= NCHNAMLEN -> a_find ndp c = Some x -> ni_makeentry ndp = 0 -> cache_lookup ndp s = None) /\
  (a_on mp c x -> cache_purgevfs mp s = None) /\
  (let s1 := after (cache_enter (ex_nd 0 (Some 2%positive))) (ex_purge 3%positive ex_wrap) in
   let s2 := ex_purge 2%positive (ex_purge 3%positive (ex_purge 3%positive (ex_purge 3%positive s1))) in
   (fun o => (fst o, ni_vp (snd o))) <$> (fst <$> cache_lookup (ex_nd 0 None) s2) = Some (-1, Some 2%positive)).
Proof.
  intros HR Hm Hon Hl. assert (Hb : but x (c_lru c) = []).
  { rewrite Hl. unfold but. rewrite filter_cons_False by auto. done. }
  split_and!.
  - intros Hlen Hf Hmk. pose proof (lookup_outcome s c ndp HR (made_ok _ _ _ HR Hm)) as Ho.
    unfold a_lookup, a_drop in Ho. rewrite Hon, Hf, Hmk in Ho. simpl in Ho.
    rewrite (proj2 (Z.ltb_ge _ _)) in Ho by lia. rewrite Hb in Ho. simpl in Ho. by destruct (cache_lookup ndp s) as [[]|].
  - intros Ha. pose proof (purgevfs_outcome s c mp HR) as Ho. unfold a_purgevfs in Ho. rewrite Hl in Ho. simpl in Ho.
    destruct (a_on mp c x); [|done]. simpl in Ho. by destruct (cache_purgevfs mp s) as [[]|].
  - by vm_compute.
Qed.

Lemma name_cache_breaks_witness : cache_lookup (ex_nd DELETE None) ex_one = None.
Proof.
  destruct (reach_inv 100 _ _ ltac:(lia) ex_one_reach) as (c & HR & HI).
  assert (Hm : made (ex_nd DELETE None) ex_one) by (apply (ex_made DELETE None); by vm_compute).
  assert (Hx : exists x, c_lru c = [x]).
  { pose proof (r_lru _ _ HR) as (Hs & _ & _). destruct (c_lru c) as [|x [|y l]].
    - apply seg_get in Hs. by vm_compute in Hs.
    - by exists x.
    - destruct Hs as (H1 & _ & H2 & _). vm_compute in H1. injection H1 as <-. by vm_compute in H2. }
  destruct Hx as [x Hx].
  refine (proj1 (name_cache_breaks ex_one c x (ex_nd DELETE None) 1%positive HR Hm (inv_on _ _ HI) Hx) _ _ _); [by vm_compute| |by vm_compute].
  destruct (a_find (ex_nd DELETE None) c) as [y|] eqn:Ef.
  - f_equal. apply a_find_in in Ef as [Hy _]. apply (r_ent _ _ HR) in Hy. rewrite Hx in Hy.
    by apply list_elem_of_singleton in Hy.
  - exfalso. apply (misses_find _ ex_one) in Ef; [|done|by eapply made_ok].
    destruct Ef as (first & H1 & H2). vm_compute in H1. injection H1 as <-. by vm_compute in H2.
Defined.
