(* ===== verification/KLock.v ===== *)
(** * Read/write sleep locks (sys/vm/kern_lock.c)

    The uniprocessor configuration of the source ([NCPUS] is 1, so [lock_wait_time] is 0
    and the interlock always succeeds).  An operation runs under the interlock from its
    call, or from the wakeup that resumes it, until it returns or sleeps; those runs are
    the atomic steps of the system of threads below. *)

From S2P Require Import Prelude Count.

(** ** The lock *)

(** sys/vm/lock.h:85-135, [lock]: [thread] is -1 or the address of a thread. *)
Record lock := Lock {
  want_write : bool;
  want_upgrade : bool;
  waiting : bool;
  can_sleep : bool;
  read_count : Z;
  l_thread : ptr;
  recursion_depth : Z }.

Definition l_with_write (l : lock) (b : bool) : lock :=
  Lock b (want_upgrade l) (waiting l) (can_sleep l) (read_count l) (l_thread l) (recursion_depth l).
Definition l_with_upgrade (l : lock) (b : bool) : lock :=
  Lock (want_write l) b (waiting l) (can_sleep l) (read_count l) (l_thread l) (recursion_depth l).
Definition l_with_waiting (l : lock) (b : bool) : lock :=
  Lock (want_write l) (want_upgrade l) b (can_sleep l) (read_count l) (l_thread l) (recursion_depth l).
Definition l_with_reads (l : lock) (n : Z) : lock :=
  Lock (want_write l) (want_upgrade l) (waiting l) (can_sleep l) n (l_thread l) (recursion_depth l).
Definition l_with_thread (l : lock) (t : ptr) : lock :=
  Lock (want_write l) (want_upgrade l) (waiting l) (can_sleep l) (read_count l) t (recursion_depth l).
Definition l_with_depth (l : lock) (n : Z) : lock :=
  Lock (want_write l) (want_upgrade l) (waiting l) (can_sleep l) (read_count l) (l_thread l) n.

(** [read_count] and [recursion_depth] are of type int. *)
Definition l_add_reads (l : lock) (d : Z) : lock := l_with_reads l (s32 (read_count l + d)).
Definition l_add_depth (l : lock) (d : Z) : lock := l_with_depth l (s32 (recursion_depth l + d)).

(** Where a thread sleeps: the two loops of [lock_write], the loop of [lock_read], and
    the loops of the two upgrades. *)
Inductive phase := WantWrite | Drain | WantRead | Upgrade | TryUpgrade.

(** How an atomic run ends: it returns a value, having called [thread_wakeup] or not; it
    sleeps; it spins with nothing that could change the lock; or it panics. *)
Inductive res :=
| Ret (v : bool) (woke : bool) (l : lock)
| Sleep (p : phase) (l : lock)
| Spin
| Panic.

(** [if (l->can_sleep && blocked) { l->waiting = TRUE; thread_sleep(...); }], in a loop
    whose condition is [blocked]. *)
Definition block (p : phase) (l : lock) : res :=
  if can_sleep l then Sleep p (l_with_waiting l true) else Spin.

(** sys/vm/kern_lock.c:152-172, [lock_init]. *)
Definition lock_init (can_sleep : bool) : lock := Lock false false false can_sleep 0 None 0.

(** sys/vm/kern_lock.c:174-181, [lock_sleepable]. *)
Definition lock_sleepable (l : lock) (b : bool) : lock :=
  Lock (want_write l) (want_upgrade l) (waiting l) b (read_count l) (l_thread l) (recursion_depth l).

(** sys/vm/kern_lock.c:225-241, [lock_write]: wait for readers and upgrades to finish. *)
Definition drain_loop (l : lock) : res :=
  if negb (read_count l =? 0) || want_upgrade l then block Drain l else Ret true false l.

(** sys/vm/kern_lock.c:207-222, [lock_write]: acquire the [want_write] bit. *)
Definition want_loop (l : lock) : res :=
  if want_write l then block WantWrite l else drain_loop (l_with_write l true).

(** sys/vm/kern_lock.c:190-243, [lock_write]. *)
Definition lock_write (me : loc) (l : lock) : res :=
  if decide (l_thread l = Some me) then Ret true false (l_add_depth l 1)
  else want_loop l.

(** [if (l->waiting) { l->waiting = FALSE; thread_wakeup(l); }] before returning [v]. *)
Definition wake_ret (v : bool) (l : lock) : res := Ret v (waiting l) (l_with_waiting l false).

(** sys/vm/kern_lock.c:245-266, [lock_done]. *)
Definition lock_done (l : lock) : res :=
  wake_ret true
    (if negb (read_count l =? 0) then l_add_reads l (-1)
     else if negb (recursion_depth l =? 0) then l_add_depth l (-1)
     else if want_upgrade l then l_with_upgrade l false
     else l_with_write l false).

(** sys/vm/kern_lock.c:283-299, [lock_read]: wait for writers and upgrades. *)
Definition read_loop (l : lock) : res :=
  if want_write l || want_upgrade l then block WantRead l
  else Ret true false (l_add_reads l 1).

(** sys/vm/kern_lock.c:268-301, [lock_read]. *)
Definition lock_read (me : loc) (l : lock) : res :=
  if decide (l_thread l = Some me) then Ret true false (l_add_reads l 1)
  else read_loop l.

(** sys/vm/kern_lock.c:346-361, [lock_read_to_write]: wait for the other readers. *)
Definition upgrade_loop (l : lock) : res :=
  if negb (read_count l =? 0) then block Upgrade l else Ret false false l.

(** sys/vm/kern_lock.c:303-365, [lock_read_to_write]: TRUE when the upgrade failed and
    the read lock is gone. *)
Definition lock_read_to_write (me : loc) (l : lock) : res :=
  let l := l_add_reads l (-1) in
  if decide (l_thread l = Some me) then Ret false false (l_add_depth l 1)
  else if want_upgrade l then wake_ret true l
  else upgrade_loop (l_with_upgrade l true).

(** sys/vm/kern_lock.c:367-387, [lock_write_to_read]. *)
Definition lock_write_to_read (l : lock) : res :=
  let l := l_add_reads l 1 in
  wake_ret true
    (if negb (recursion_depth l =? 0) then l_add_depth l (-1)
     else if want_upgrade l then l_with_upgrade l false
     else l_with_write l false).

(** sys/vm/kern_lock.c:398-428, [lock_try_write]. *)
Definition lock_try_write (me : loc) (l : lock) : res :=
  if decide (l_thread l = Some me) then Ret true false (l_add_depth l 1)
  else if want_write l || want_upgrade l || negb (read_count l =? 0) then Ret false false l
  else Ret true false (l_with_write l true).

(** sys/vm/kern_lock.c:438-460, [lock_try_read]. *)
Definition lock_try_read (me : loc) (l : lock) : res :=
  if decide (l_thread l = Some me) then Ret true false (l_add_reads l 1)
  else if want_write l || want_upgrade l then Ret false false l
  else Ret true false (l_add_reads l 1).

(** sys/vm/kern_lock.c:493-499, [lock_try_read_to_write]: this loop sleeps whatever
    [can_sleep] says. *)
Definition try_upgrade_loop (l : lock) : res :=
  if negb (read_count l =? 0) then Sleep TryUpgrade (l_with_waiting l true) else Ret true false l.

(** sys/vm/kern_lock.c:462-503, [lock_try_read_to_write]. *)
Definition lock_try_read_to_write (me : loc) (l : lock) : res :=
  if decide (l_thread l = Some me) then
    Ret true false (l_add_depth (l_add_reads l (-1)) 1)
  else if want_upgrade l then Ret false false l
  else try_upgrade_loop (l_add_reads (l_with_upgrade l true) (-1)).

(** sys/vm/kern_lock.c:505-518, [lock_set_recursive]. *)
Definition lock_set_recursive (me : loc) (l : lock) : res :=
  if negb (want_write l) then Panic else Ret true false (l_with_thread l (Some me)).

(** sys/vm/kern_lock.c:520-533, [lock_clear_recursive]. *)
Definition lock_clear_recursive (me : loc) (l : lock) : res :=
  if decide (l_thread l <> Some me) then Panic
  else Ret true false (if recursion_depth l =? 0 then l_with_thread l None else l).

(** Where a sleeping thread goes on when it runs again. *)
Definition resume (p : phase) (l : lock) : res :=
  match p with
  | WantWrite => want_loop l
  | Drain => drain_loop l
  | WantRead => read_loop l
  | Upgrade => upgrade_loop l
  | TryUpgrade => try_upgrade_loop l
  end.

(** ** Threads *)

(** What a thread holds, as the calls it made returned. *)
Inductive wmode := NoWrite | ByWrite | ByUpgrade.

#[export] Instance wmode_eq_dec : EqDecision wmode.
Proof. solve_decision. Defined.
#[export] Instance phase_eq_dec : EqDecision phase.
Proof. solve_decision. Defined.

(** A thread is running, asleep in a loop, or woken and about to go round it again. *)
Inductive status := Idle | Asleep (p : phase) | Awake (p : phase).

#[export] Instance status_eq_dec : EqDecision status.
Proof. solve_decision. Defined.

Record tstate := Tstate {
  t_reads : Z;         (* read locks held *)
  t_mode : wmode;      (* the write lock, and how it was obtained *)
  t_depth : Z;         (* recursive write locks *)
  t_status : status }.

Record sys := Sys { s_lock : lock; s_threads : gmap loc tstate }.

Inductive call := Write | Done | Read | ReadToWrite | WriteToRead | TryWrite | TryRead
  | TryReadToWrite | SetRecursive | ClearRecursive | Sleepable (b : bool).

Definition do_call (me : loc) (c : call) (l : lock) : res :=
  match c with
  | Write => lock_write me l
  | Done => lock_done l
  | Read => lock_read me l
  | ReadToWrite => lock_read_to_write me l
  | WriteToRead => lock_write_to_read l
  | TryWrite => lock_try_write me l
  | TryRead => lock_try_read me l
  | TryReadToWrite => lock_try_read_to_write me l
  | SetRecursive => lock_set_recursive me l
  | ClearRecursive => lock_clear_recursive me l
  | Sleepable b => Ret true false (lock_sleepable l b)
  end.

(** The largest int. *)
Definition INT_MAX := 2147483647.

(** The counts have room for what the call takes. *)
Definition room (c : call) (l : lock) : bool :=
  match c with
  | Read | TryRead | WriteToRead => read_count l <? INT_MAX
  | Write | TryWrite | ReadToWrite | TryReadToWrite => recursion_depth l <? INT_MAX
  | _ => true
  end.

(** The rules a client of the package follows: release and upgrade only what it holds,
    upgrade from a single read lock, never wait for a plain lock over one it holds,
    recursion cleared before the write lock is given up, and fewer than 2^31 locks at a time. *)
Definition may_call (me : loc) (c : call) (l : lock) (t : tstate) : bool :=
  room c l &&
  let rec := bool_decide (l_thread l = Some me) in
  let unlocked := bool_decide (t_mode t = NoWrite) in
  match c with
  | Write | TryWrite => rec || (unlocked && (t_reads t =? 0))
  | Read => rec || (unlocked && (t_reads t =? 0))
  | TryRead => rec || unlocked
  | Done => (0 <? t_reads t) || (negb unlocked && ((0 <? t_depth t) || negb rec))
  | ReadToWrite | TryReadToWrite => (0 <? t_reads t) && (rec || (unlocked && (t_reads t =? 1)))
  | WriteToRead => negb unlocked && ((0 <? t_depth t) || negb rec)
  | SetRecursive => negb unlocked && want_write l
  | ClearRecursive => rec
  | Sleepable _ => true
  end.

(** What the thread holds once the call has returned [v]; [rec] says that it went
    through the recursive case. *)
Definition after (rec : bool) (c : call) (v : bool) (t : tstate) : tstate :=
  let T r m d := Tstate r m d Idle in
  let r := t_reads t in let m := t_mode t in let d := t_depth t in
  match c with
  | Write => if rec then T r m (d + 1) else T r ByWrite d
  | TryWrite => if rec then T r m (d + 1) else if v then T r ByWrite d else T r m d
  | Read => T (r + 1) m d
  | TryRead => if v then T (r + 1) m d else T r m d
  | Done => if 0 <? r then T (r - 1) m d else if 0 <? d then T r m (d - 1) else T r NoWrite d
  | ReadToWrite => if rec then T (r - 1) m (d + 1) else if v then T (r - 1) m d
                   else T (r - 1) ByUpgrade d
  | TryReadToWrite => if rec then T (r - 1) m (d + 1) else if v then T (r - 1) ByUpgrade d
                      else T r m d
  | WriteToRead => if 0 <? d then T (r + 1) m (d - 1) else T (r + 1) NoWrite d
  | SetRecursive | ClearRecursive | Sleepable _ => T r m d
  end.

(** A thread put to sleep by an upgrade has given up its read lock. *)
Definition asleep (p : phase) (t : tstate) : tstate :=
  Tstate (match p with Upgrade | TryUpgrade => t_reads t - 1 | _ => t_reads t end)
    (t_mode t) (t_depth t) (Asleep p).

(** What a resumed loop gives when it ends. *)
Definition acquired (p : phase) (t : tstate) : tstate :=
  match p with
  | WantWrite | Drain => Tstate (t_reads t) ByWrite (t_depth t) Idle
  | WantRead => Tstate (t_reads t + 1) (t_mode t) (t_depth t) Idle
  | Upgrade | TryUpgrade => Tstate (t_reads t) ByUpgrade (t_depth t) Idle
  end.

(** [thread_wakeup] wakes every thread asleep on the lock. *)
Definition wake (t : tstate) : tstate :=
  match t_status t with
  | Asleep p => Tstate (t_reads t) (t_mode t) (t_depth t) (Awake p)
  | _ => t
  end.

Definition wake_all (b : bool) (m : gmap loc tstate) : gmap loc tstate :=
  if b then wake <$> m else m.

(** The atomic steps of the thread [me]: it is running and calls an operation, or it was woken and
    goes on. *)
Inductive step_by (me : loc) : sys -> sys -> Prop :=
| step_return c l m t v w l' :
    m !! me = Some t -> t_status t = Idle -> may_call me c l t = true ->
    do_call me c l = Ret v w l' ->
    step_by me (Sys l m)
      (Sys l' (wake_all w (<[me := after (bool_decide (l_thread l = Some me)) c v t]> m)))
| step_sleep c l m t p l' :
    m !! me = Some t -> t_status t = Idle -> may_call me c l t = true ->
    do_call me c l = Sleep p l' ->
    step_by me (Sys l m) (Sys l' (<[me := asleep p t]> m))
| step_resume p l m t v w l' :
    m !! me = Some t -> t_status t = Awake p -> (p = WantRead -> read_count l < INT_MAX) ->
    resume p l = Ret v w l' ->
    step_by me (Sys l m) (Sys l' (wake_all w (<[me := acquired p t]> m)))
| step_again p q l m t l' :
    m !! me = Some t -> t_status t = Awake p -> resume p l = Sleep q l' ->
    step_by me (Sys l m)
      (Sys l' (<[me := Tstate (t_reads t) (t_mode t) (t_depth t) (Asleep q)]> m)).

Definition step (s s' : sys) : Prop := exists me, step_by me s s'.

(** A fresh lock and threads that hold nothing. *)
Definition initial (s : sys) : Prop :=
  (exists b, s_lock s = lock_init b) /\
  forall me t, s_threads s !! me = Some t -> t = Tstate 0 NoWrite 0 Idle.

Definition reachable (s : sys) : Prop := exists s0, initial s0 /\ rtc step s0 s.
