(* ===== verification/KLockSafety.v ===== *)
(** * The lock package under concurrent threads

    Every reachable state excludes a writer from everyone else, no sleeping thread has
    missed its wakeup, and sleepers never wait for nobody. *)

From S2P Require Import Prelude Count KLock.

(** ** The invariant *)

(** The thread owns the [want_write] bit: it holds the lock by [lock_write], or waits in
    its second loop. *)
Definition owns_write (t : tstate) : bool :=
  bool_decide (t_mode t = ByWrite) || bool_decide (t_status t = Asleep Drain)
  || bool_decide (t_status t = Awake Drain).

Definition upgrading (p : phase) : bool := match p with Upgrade | TryUpgrade => true | _ => false end.

(** The thread owns the [want_upgrade] bit. *)
Definition owns_upgrade (t : tstate) : bool :=
  bool_decide (t_mode t = ByUpgrade)
  || match t_status t with Asleep p | Awake p => upgrading p | Idle => false end.

(** The condition of the loop of [p]. *)
Definition blocked (p : phase) (l : lock) : bool :=
  match p with
  | WantWrite => want_write l
  | Drain => negb (read_count l =? 0) || want_upgrade l
  | WantRead => want_write l || want_upgrade l
  | Upgrade | TryUpgrade => negb (read_count l =? 0)
  end.

Record thread_ok (l : lock) (me : loc) (t : tstate) : Prop := ThreadOk {
  to_reads : 0 <= t_reads t;
  to_depth : 0 <= t_depth t;
  to_rec : t_mode t = NoWrite -> t_depth t = 0 /\ l_thread l <> Some me;
  to_write : t_mode t = ByWrite -> want_upgrade l = false;
  to_wait : t_status t <> Idle -> t_reads t = 0 /\ t_mode t = NoWrite }.

Record inv0 (l : lock) (m : gmap loc tstate) : Prop := Inv0 {
  in_reads : read_count l = msum (fun _ t => t_reads t) m;
  in_depth : recursion_depth l = msum (fun _ t => t_depth t) m;
  in_write : ind (want_write l) = msum (fun _ t => ind (owns_write t)) m;
  in_upgrade : ind (want_upgrade l) = msum (fun _ t => ind (owns_upgrade t)) m;
  in_thread : forall me t, m !! me = Some t -> thread_ok l me t;
  in_excl : forall a b x y, m !! a = Some x -> m !! b = Some y -> a <> b ->
    t_mode x <> NoWrite -> t_mode y = NoWrite /\ t_reads y = 0 }.

(** Every sleeper waits for something, and the lock remembers that there are sleepers. *)
Definition sleep_ok (l : lock) (m : gmap loc tstate) : Prop :=
  forall me t p, m !! me = Some t -> t_status t = Asleep p -> waiting l = true /\ blocked p l = true.

(** The counts are those of an int. *)
Definition fits (l : lock) : Prop := is_s32 (read_count l) /\ is_s32 (recursion_depth l).

Definition linv (s : sys) : Prop :=
  inv0 (s_lock s) (s_threads s) /\ sleep_ok (s_lock s) (s_threads s) /\ fits (s_lock s).

Lemma add_reads l d : is_s32 (read_count l + d) -> l_add_reads l d = l_with_reads l (read_count l + d).
Proof. intros H. unfold l_add_reads. by rewrite s32_id. Qed.
Lemma add_depth l d : is_s32 (recursion_depth l + d) -> l_add_depth l d = l_with_depth l (recursion_depth l + d).
Proof. intros H. unfold l_add_depth. by rewrite s32_id. Qed.

Lemma fits_add l d : fits l -> fits (l_add_reads l d) /\ fits (l_add_depth l d).
Proof. intros [Hr Hd]. by split; split; simpl; try apply s32_range. Qed.

(** Whatever a run does to the lock, its counts are those of an int. *)
Lemma call_fits me c l : fits l -> match do_call me c l with Ret _ _ l' | Sleep _ l' => fits l' | _ => True end.
Proof.
  intros Hf. assert (Ha : forall b d, fits (l_add_reads (l_with_upgrade l b) d)) by (intros b d; by apply fits_add).
  pose proof (fun d => proj1 (fits_add l d Hf)) as Hr. pose proof (fun d => proj2 (fits_add l d Hf)) as Hd.
  pose proof (fun d d' => proj2 (fits_add _ d' (Hr d))) as Hrd. clear Hf.
  assert (Hfl : fits l) by (destruct (Hr 0) as [_ H]; destruct (Hd 0) as [H' _]; by split).
  destruct c; simpl; unfold lock_write, lock_done, lock_read, lock_read_to_write, lock_write_to_read, lock_try_write,
    lock_try_read, lock_try_read_to_write, lock_set_recursive, lock_clear_recursive, want_loop, drain_loop, read_loop,
    upgrade_loop, try_upgrade_loop, wake_ret, block;
    repeat case_match; simplify_eq; try done; try apply Hr; try apply Hd; try apply Hrd; try apply Ha.
Qed.

Lemma resume_fits p l : fits l -> match resume p l with Ret _ _ l' | Sleep _ l' => fits l' | _ => True end.
Proof.
  intros Hf. pose proof (proj1 (fits_add l 1 Hf)) as Hr.
  destruct p; simpl; unfold want_loop, drain_loop, read_loop, upgrade_loop, try_upgrade_loop, block;
    repeat case_match; simplify_eq; done.
Qed.

(** ** Waking *)

Lemma wake_fields t :
  t_reads (wake t) = t_reads t /\ t_mode (wake t) = t_mode t /\ t_depth (wake t) = t_depth t /\
  owns_write (wake t) = owns_write t /\ owns_upgrade (wake t) = owns_upgrade t /\
  (t_status (wake t) = Idle <-> t_status t = Idle) /\ forall p, t_status (wake t) <> Asleep p.
Proof.
  destruct t as [r m d [|p|p]]; split_and!; try done; destruct p; try done;
    unfold owns_write; simpl; by destruct (bool_decide (m = ByWrite)).
Qed.

Lemma wake_lookup b m me t :
  wake_all b m !! me = Some t -> exists t0, m !! me = Some t0 /\ t = if b then wake t0 else t0.
Proof.
  destruct b; simpl; [|eauto]. rewrite lookup_fmap. destruct (m !! me); [|done]. intros [= <-]. eauto.
Qed.

Lemma inv0_wake l m b : inv0 l m -> inv0 l (wake_all b m).
Proof.
  intros [H1 H2 H3 H4 H5 H6]. destruct b; [|done]. split; simpl.
  1-4: rewrite msum_fmap; etransitivity; [eassumption|]; apply msum_ext; intros k t _;
    destruct (wake_fields t) as (E1 & E2 & E3 & E4 & E5 & _); congruence.
  - intros me t Ht. apply (wake_lookup true) in Ht as (t0 & Ht & ->).
    destruct (H5 me t0 Ht) as [A1 A2 A3 A4 A5].
    destruct (wake_fields t0) as (E1 & E2 & E3 & _ & _ & E6 & _). split; rewrite ?E1, ?E2, ?E3; try done.
    intros Hs. apply A5. intros E. by apply Hs, E6.
  - intros a c x y Hx Hy. apply (wake_lookup true) in Hx as (x0 & Hx & ->).
    apply (wake_lookup true) in Hy as (y0 & Hy & ->).
    destruct (wake_fields x0) as (_ & -> & _). destruct (wake_fields y0) as (-> & -> & _). by apply H6.
Qed.

Lemma sleep_ok_woken l m : sleep_ok l (wake_all true m).
Proof.
  intros me t p Ht. apply (wake_lookup true) in Ht as (t0 & _ & ->). intros Hs.
  by apply (wake_fields t0) in Hs.
Qed.

(** ** What a thread knows of the others *)

Section Others.
Context (l : lock) (m : gmap loc tstate) (Hinv : inv0 l m).

Lemma one_owner (f : tstate -> bool) (b : bool) me t k u :
  ind b = msum (fun _ t => ind (f t)) m -> m !! me = Some t -> m !! k = Some u -> k <> me ->
  f t = true -> f u = false.
Proof.
  intros Hs Ht Hu Hne Hf. rewrite (msum_delete _ _ me t) in Hs by done.
  pose proof (msum_ge (fun _ t => ind (f t)) (delete me m) k u) as Hge. simpl in Hge.
  rewrite lookup_delete_ne in Hge by done.
  specialize (Hge ltac:(intros; apply ind_range) Hu). rewrite Hf in Hs.
  destruct b, (f u); simpl in *; try done; lia.
Qed.

Lemma no_owner (f : tstate -> bool) k u :
  0 = msum (fun _ t => ind (f t)) m -> m !! k = Some u -> f u = false.
Proof.
  intros Hs Hu. pose proof (msum_ge (fun _ t => ind (f t)) m k u) as Hge. simpl in Hge.
  specialize (Hge ltac:(intros; apply ind_range) Hu). destruct (f u); simpl in *; try done. lia.
Qed.

Lemma owner_bit (f : tstate -> bool) (b : bool) k u :
  ind b = msum (fun _ t => ind (f t)) m -> m !! k = Some u -> f u = true -> b = true.
Proof.
  intros Hs Hu Hf. pose proof (msum_ge (fun _ t => ind (f t)) m k u) as Hge. simpl in Hge.
  specialize (Hge ltac:(intros; apply ind_range) Hu). rewrite Hf in Hge. destruct b; [done|]. simpl in *. lia.
Qed.

Lemma no_readers k u : read_count l = 0 -> m !! k = Some u -> t_reads u = 0.
Proof.
  intros H0 Hu. apply (msum_zero_inv (fun _ t => t_reads t) m k u); [|by rewrite <- (in_reads _ _ Hinv)|done].
  intros j v Hv. apply (to_reads _ _ _ (in_thread _ _ Hinv j v Hv)).
Qed.

Lemma reads_le k u : m !! k = Some u -> t_reads u <= read_count l.
Proof.
  intros Hu. rewrite (in_reads _ _ Hinv), (msum_delete _ _ k u) by done.
  assert (0 <= msum (fun _ t => t_reads t) (delete k m)); [|lia].
  apply msum_nonneg_in. intros j v Hv. apply lookup_delete_Some in Hv as [_ Hv].
  apply (to_reads _ _ _ (in_thread _ _ Hinv j v Hv)).
Qed.

(** With both bits clear, nobody holds the lock for writing. *)
Lemma free_unlocked k u :
  want_write l = false -> want_upgrade l = false -> m !! k = Some u -> t_mode u = NoWrite.
Proof.
  intros Hw Hu Hk. pose proof (in_write _ _ Hinv) as Iw. pose proof (in_upgrade _ _ Hinv) as Iu.
  rewrite Hw in Iw. rewrite Hu in Iu. pose proof (no_owner _ _ _ Iw Hk) as Nw.
  pose proof (no_owner _ _ _ Iu Hk) as Nu. unfold owns_write, owns_upgrade in *.
  apply orb_false_iff in Nw as [Nw _]. apply orb_false_iff in Nw as [Nw _].
  apply orb_false_iff in Nu as [Nu _]. apply bool_decide_eq_false in Nw, Nu.
  by destruct (t_mode u).
Qed.

(** A reader keeps every other thread from holding the lock for writing. *)
Lemma reader_excludes me t k u :
  m !! me = Some t -> 0 < t_reads t -> m !! k = Some u -> k <> me -> t_mode u = NoWrite.
Proof.
  intros Ht Hr Hk Hne. destruct (decide (t_mode u = NoWrite)) as [|Hu]; [done|].
  destruct (in_excl _ _ Hinv k me u t Hk Ht Hne Hu). lia.
Qed.

Lemma holder_reads me t : m !! me = Some t -> t_mode t <> NoWrite -> read_count l = t_reads t.
Proof.
  intros Ht Hm. rewrite (in_reads _ _ Hinv), (msum_delete _ _ me t) by done. rewrite msum_zero; [lia|].
  intros k u Hk. apply lookup_delete_Some in Hk as [Hne Hk].
  by destruct (in_excl _ _ Hinv me k t u Ht Hk Hne Hm).
Qed.

Lemma holder_depth me t : m !! me = Some t -> t_mode t <> NoWrite -> recursion_depth l = t_depth t.
Proof.
  intros Ht Hm. rewrite (in_depth _ _ Hinv), (msum_delete _ _ me t) by done. rewrite msum_zero; [lia|].
  intros k u Hk. apply lookup_delete_Some in Hk as [Hne Hk].
  destruct (in_excl _ _ Hinv me k t u Ht Hk Hne Hm) as [Hu _].
  by apply (to_rec _ _ _ (in_thread _ _ Hinv k u Hk)).
Qed.

(** The bits of a thread that holds the lock for writing. *)
Lemma holder_bits me t :
  m !! me = Some t -> t_mode t <> NoWrite ->
  t_status t = Idle /\
  match t_mode t with
  | ByWrite => want_write l = true /\ want_upgrade l = false
  | ByUpgrade => want_upgrade l = true
  | NoWrite => False
  end.
Proof.
  intros Ht Hm. pose proof (in_thread _ _ Hinv me t Ht) as Hok. split.
  { destruct (decide (t_status t = Idle)) as [|Hs]; [done|].
    by destruct (to_wait _ _ _ Hok Hs). }
  destruct (t_mode t) eqn:E; [done|..].
  - split; [|by apply (to_write _ _ _ Hok)].
    apply (owner_bit owns_write _ me t (in_write _ _ Hinv) Ht). unfold owns_write. by rewrite E.
  - apply (owner_bit owns_upgrade _ me t (in_upgrade _ _ Hinv) Ht).
    unfold owns_upgrade. by rewrite E.
Qed.
End Others.

(** A step of one thread: the lock's fields move with what the thread holds. *)
Lemma inv0_update l m me t l' t' :
  inv0 l m -> m !! me = Some t ->
  read_count l' = read_count l - t_reads t + t_reads t' ->
  recursion_depth l' = recursion_depth l - t_depth t + t_depth t' ->
  ind (want_write l') = ind (want_write l) - ind (owns_write t) + ind (owns_write t') ->
  ind (want_upgrade l') = ind (want_upgrade l) - ind (owns_upgrade t) + ind (owns_upgrade t') ->
  thread_ok l' me t' ->
  (forall k, k <> me -> l_thread l' = Some k -> l_thread l = Some k) ->
  (want_upgrade l' = true -> want_upgrade l = true \/
     forall k u, m !! k = Some u -> k <> me -> t_mode u = NoWrite) ->
  (t_mode t' <> NoWrite -> forall k u, m !! k = Some u -> k <> me ->
     t_mode u = NoWrite /\ t_reads u = 0) ->
  (t_reads t' <> 0 -> forall k u, m !! k = Some u -> k <> me -> t_mode u = NoWrite) ->
  inv0 l' (<[me := t']> m).
Proof.
  intros [H1 H2 H3 H4 H5 H6] Ht Er Ed Ew Eu Hok Hrec Hup Hhold Hread. split.
  - rewrite (msum_insert _ _ me t) by done. lia.
  - rewrite (msum_insert _ _ me t) by done. lia.
  - rewrite (msum_insert _ _ me t) by done. lia.
  - rewrite (msum_insert _ _ me t) by done. lia.
  - intros k u Hk. apply lookup_insert_Some in Hk as [[<- <-]|[Hne Hk]]; [done|].
    destruct (H5 k u Hk) as [A1 A2 A3 A4 A5]. split; try done.
    + intros Hm. destruct (A3 Hm) as [? Hl]. split; [done|]. intros E. by apply Hl, Hrec.
    + intros Hm. destruct (want_upgrade l') eqn:E; [|done]. exfalso.
      destruct (Hup eq_refl) as [E2|E2]; [rewrite (A4 Hm) in E2; done|].
      rewrite (E2 k u) in Hm by done. done.
  - intros a b x y Hx Hy Hne Hm.
    apply lookup_insert_Some in Hx as [[<- <-]|[Hna Hx]];
      apply lookup_insert_Some in Hy as [[<- <-]|[Hnb Hy]]; try done.
    + by apply (Hhold Hm b y).
    + split.
      * destruct (decide (t_mode t' = NoWrite)) as [|Hm']; [done|].
        destruct (Hhold Hm' a x Hx ltac:(done)) as [? _]. done.
      * destruct (Z.eq_dec (t_reads t') 0) as [|Hr]; [done|].
        by rewrite (Hread Hr a x) in Hm.
    + by apply (H6 a b x y).
Qed.

(** ** Preservation *)

(** What every atomic run of a thread ensures: the state of the lock and of the thread
    are consistent again and no sleeper is left behind. *)
Definition good (l : lock) (m : gmap loc tstate) (me : loc) (r : res)
  (ret : bool -> tstate) (slp : phase -> tstate) : Prop :=
  match r with
  | Ret v w l' =>
    inv0 l' (<[me := ret v]> m) /\ t_status (ret v) = Idle /\
    (w = true \/ waiting l' = false /\ waiting l = false \/
     waiting l' = waiting l /\ forall k u p, m !! k = Some u -> k <> me -> t_status u = Asleep p ->
       blocked p l = true -> blocked p l' = true)
  | Sleep p l' =>
    inv0 l' (<[me := slp p]> m) /\ t_status (slp p) = Asleep p /\ waiting l' = true /\
    blocked p l' = true /\
    (forall k u q, m !! k = Some u -> k <> me -> t_status u = Asleep q ->
       blocked q l = true -> blocked q l' = true)
  | Spin | Panic => True
  end.

Lemma good_return l m me r ret slp v w l' :
  good l m me r ret slp -> r = Ret v w l' -> sleep_ok l m ->
  inv0 l' (wake_all w (<[me := ret v]> m)) /\ sleep_ok l' (wake_all w (<[me := ret v]> m)).
Proof.
  intros Hg -> Hs. destruct Hg as (Hi & Hidle & Hw). split; [by apply inv0_wake|].
  destruct w; [apply sleep_ok_woken|]. simpl. intros k u p Hk Hu.
  apply lookup_insert_Some in Hk as [[<- <-]|[Hne Hk]]; [congruence|].
  destruct (Hs k u p Hk Hu) as [E1 E2]. destruct Hw as [?|[[_ E]|[E Hb]]]; [done|congruence|].
  split; [congruence|]. by apply (Hb k u p).
Qed.

Lemma good_sleep l m me r ret slp p l' :
  good l m me r ret slp -> r = Sleep p l' -> sleep_ok l m ->
  inv0 l' (<[me := slp p]> m) /\ sleep_ok l' (<[me := slp p]> m).
Proof.
  intros Hg -> Hs. destruct Hg as (Hi & Hst & Hw & Hb & Hoth). split; [done|]. intros k u q Hk Hu.
  apply lookup_insert_Some in Hk as [[<- <-]|[Hne Hk]]; [rewrite Hst in Hu; by simplify_eq|].
  split; [done|]. destruct (Hs k u q Hk Hu) as [_ E]. by apply (Hoth k u q).
Qed.

Section Runs.
Context (l : lock) (m : gmap loc tstate) (me : loc) (t : tstate).
Hypothesis Hinv : inv0 l m.
Hypothesis Ht : m !! me = Some t.

Definition others (P : tstate -> Prop) : Prop := forall k u, m !! k = Some u -> k <> me -> P u.

Lemma others_free :
  want_write l = false -> want_upgrade l = false -> others (fun u => t_mode u = NoWrite).
Proof. intros Hw Hu k u Hk _. by apply (free_unlocked l m Hinv k u). Qed.

(** The second loop of [lock_write], entered by the owner of the bit. *)
Lemma drain_good l1 :
  (* the lock with [want_write] set by this thread, which is at [t0] *)
  t_reads t = 0 -> t_mode t = NoWrite -> t_depth t = 0 ->
  l1 = l_with_write l true ->
  ind (want_write l) = ind (owns_write t) -> owns_upgrade t = false -> l_thread l <> Some me ->
  good l m me (drain_loop l1) (fun _ => Tstate 0 ByWrite 0 Idle) (fun p => Tstate 0 NoWrite 0 (Asleep p)).
Proof.
  intros Er Em Ed -> Hown Hup Hrec. unfold drain_loop, block. simpl.
  destruct (negb (read_count l =? 0) || want_upgrade l) eqn:Hb; simpl.
  - destruct (can_sleep l); [|done]. simpl. split_and!; try done.
    + apply (inv0_update l m me t); simpl; try done; rewrite ?Er, ?Ed; try lia.
      * rewrite Hup. simpl. lia.
      * auto.
    + intros k u q Hk Hne Hu. destruct q; simpl; try done.
  - apply orb_false_iff in Hb as [Hb Hu]. apply negb_false_iff, Z.eqb_eq in Hb.
    split; [|split; [done|]].
    + apply (inv0_update l m me t); simpl; try done; rewrite ?Er, ?Ed; try lia.
      * rewrite Hup. simpl. lia.
      * auto.
      * intros _ k u Hk Hne. split; [|by apply (no_readers l m Hinv k)].
        pose proof (in_upgrade _ _ Hinv) as Iu. rewrite Hu in Iu.
        pose proof (no_owner m _ _ _ Iu Hk) as Nu. unfold owns_upgrade in Nu.
        apply orb_false_iff in Nu as [Nu _]. apply bool_decide_eq_false in Nu.
        destruct (decide (t_mode u = ByWrite)) as [Ew|Ew]; [|by destruct (t_mode u)].
        exfalso. assert (Hou : owns_write u = true) by (unfold owns_write; by rewrite Ew).
        pose proof (in_write _ _ Hinv) as Iw. destruct (owns_write t) eqn:Eo.
        -- by rewrite (one_owner m owns_write _ me t k u Iw Ht Hk Hne Eo) in Hou.
        -- rewrite Hown in Iw. by rewrite (no_owner m _ k u Iw Hk) in Hou.
    + right. right. split; [done|]. intros k u q Hk Hne _. destruct q; simpl; auto.
Qed.

(** [want_write] is taken or waited for: the whole of [lock_write] past its first test. *)
Lemma want_good :
  t_reads t = 0 -> t_mode t = NoWrite -> t_depth t = 0 -> owns_write t = false ->
  owns_upgrade t = false -> l_thread l <> Some me ->
  good l m me (want_loop l) (fun _ => Tstate 0 ByWrite 0 Idle) (fun p => Tstate 0 NoWrite 0 (Asleep p)).
Proof.
  intros Er Em Ed Hw Hu Hrec. unfold want_loop, block. destruct (want_write l) eqn:E; simpl.
  - destruct (can_sleep l); [|done]. simpl. split_and!; try done.
    apply (inv0_update l m me t); simpl; try done; rewrite ?Er, ?Ed, ?E, ?Hw, ?Hu; simpl; try lia.
    auto.
  - apply (drain_good (l_with_write l true)); try done. by rewrite E, Hw.
Qed.

Lemma idle_bits : t_status t = Idle -> t_mode t = NoWrite -> owns_write t = false /\ owns_upgrade t = false.
Proof. intros Hs Hm. unfold owns_write, owns_upgrade. by rewrite Hs, Hm. Qed.

(** A recursive lock or a change that touches only the thread's own counts. *)
Lemma count_good v dr dd w :
  t_status t = Idle -> t_mode t <> NoWrite -> 0 <= t_reads t + dr -> 0 <= t_depth t + dd ->
  let l' := Lock (want_write l) (want_upgrade l) (waiting l && negb w) (can_sleep l) (read_count l + dr)
              (l_thread l) (recursion_depth l + dd) in
  good l m me (Ret v (w && waiting l) l')
    (fun _ => Tstate (t_reads t + dr) (t_mode t) (t_depth t + dd) Idle) (fun p => asleep p t).
Proof.
  intros Hs Hm Hr Hd l'. pose proof (in_thread _ _ Hinv me t Ht) as Hok. split; [|split; [done|]].
  - apply (inv0_update l m me t); unfold l'; simpl; try done; try lia.
    + unfold owns_write. rewrite Hs. simpl. lia.
    + unfold owns_upgrade. rewrite Hs. simpl. lia.
    + split; simpl; try done. intros Hw. by apply (to_write _ _ _ Hok).
    + auto.
    + intros _ k u Hk Hne. by apply (in_excl _ _ Hinv me k t u).
    + intros _ k u Hk Hne. by apply (in_excl _ _ Hinv me k t u).
  - destruct w; simpl.
    + destruct (waiting l); [by left|right; left; done].
    + right. right. rewrite andb_true_r. split; [done|]. intros k u q Hk Hne Hq Hb.
      destruct (holder_bits l m Hinv me t Ht Hm) as [_ Hbits].
      assert (Hup : t_mode t = ByWrite -> owns_write u = false /\ owns_upgrade u = false).
      { intros Ew. rewrite Ew in Hbits. destruct Hbits as [Bw Bu]. split.
        - apply (one_owner m owns_write _ me t k u (in_write _ _ Hinv) Ht Hk Hne). unfold owns_write.
          by rewrite Ew.
        - pose proof (in_upgrade _ _ Hinv) as Iu. rewrite Bu in Iu. by apply (no_owner m _ k u Iu Hk). }
      destruct (t_mode t) eqn:Em; [done|..].
      * destruct (Hup eq_refl) as [Ow Ou]. unfold owns_write, owns_upgrade in *. rewrite Hq in *.
        destruct q; simpl in *; try done; by rewrite ?orb_true_r, ?andb_false_r in *.
      * assert (Ou : owns_upgrade u = false).
        { apply (one_owner m owns_upgrade _ me t k u (in_upgrade _ _ Hinv) Ht Hk Hne).
          unfold owns_upgrade. by rewrite Em. }
        unfold owns_upgrade in Ou. rewrite Hq in Ou.
        destruct q; simpl in *; rewrite ?Hbits, ?orb_true_r in *; done.
Qed.

Lemma good_ext r ret ret' slp slp' :
  good l m me r ret slp ->
  match r with Ret v _ _ => ret v = ret' v | Sleep p _ => slp p = slp' p | _ => True end ->
  good l m me r ret' slp'.
Proof. intros H E. destruct r; simpl in *; try done; by rewrite <- E. Qed.

(** The result is the same lock up to the rearrangement of its fields. *)
Lemma good_ret v w l1 l2 w2 ret ret' slp slp' :
  good l m me (Ret v w l1) ret slp -> w = w2 -> l1 = l2 -> ret v = ret' v ->
  good l m me (Ret v w2 l2) ret' slp'.
Proof. intros H <- <- E. by apply (good_ext _ ret ret' slp slp'). Qed.

(** A run that wakes the sleepers only has to restore the invariant. *)
Lemma wake_good v l1 ret slp :
  inv0 (l_with_waiting l1 false) (<[me := ret v]> m) -> t_status (ret v) = Idle ->
  waiting l1 = waiting l -> good l m me (wake_ret v l1) ret slp.
Proof.
  intros Hi Hs Hw. split; [done|]. split; [done|]. rewrite Hw. destruct (waiting l); auto.
Qed.

(** A plain reader gives its lock back. *)
Lemma unread_inv :
  t_status t = Idle -> t_mode t = NoWrite -> 0 < t_reads t ->
  inv0 (l_with_waiting (l_with_reads l (read_count l - 1)) false)
    (<[me := Tstate (t_reads t - 1) NoWrite (t_depth t) Idle]> m).
Proof.
  intros Hs Hm Hr. pose proof (in_thread _ _ Hinv me t Ht) as Hok.
  destruct (idle_bits Hs Hm) as [Ow Ou].
  apply (inv0_update l m me t); simpl; try done; rewrite ?Ow, ?Ou; simpl; try lia.
  - destruct (to_rec _ _ _ Hok Hm). split; simpl; try done; [lia|]. by rewrite H.
  - auto.
  - intros _ k u Hk Hne. by apply (reader_excludes l m Hinv me t k u).
Qed.

(** The write lock is given up, for [dr] more read locks. *)
Lemma release_inv dr :
  t_mode t <> NoWrite -> t_depth t = 0 -> l_thread l <> Some me -> 0 <= dr ->
  let l1 := l_with_reads l (read_count l + dr) in
  inv0 (l_with_waiting (if want_upgrade l then l_with_upgrade l1 false else l_with_write l1 false) false)
    (<[me := Tstate (t_reads t + dr) NoWrite 0 Idle]> m).
Proof.
  intros Hm Hd Hrec Hdr l1. pose proof (in_thread _ _ Hinv me t Ht) as Hok.
  destruct (holder_bits l m Hinv me t Ht Hm) as [Hs Hbits].
  pose proof (to_reads _ _ _ Hok).
  apply (inv0_update l m me t); unfold l1; try done.
  - destruct (want_upgrade l); simpl; lia.
  - destruct (want_upgrade l); simpl; lia.
  - unfold owns_write. rewrite Hs. destruct (t_mode t); [done|..].
    + destruct Hbits as [-> ->]. simpl. lia.
    + rewrite Hbits. simpl. lia.
  - unfold owns_upgrade. rewrite Hs. destruct (t_mode t); [done|..].
    + destruct Hbits as [_ E]. rewrite E. simpl. by rewrite E.
    + rewrite Hbits. simpl. lia.
  - split; simpl; try done; [lia|]. intros _. split; [done|]. by destruct (want_upgrade l).
  - by destruct (want_upgrade l).
  - destruct (want_upgrade l) eqn:E; simpl; [done|by rewrite E].
  - simpl. intros _ k u Hk Hne. by apply (in_excl _ _ Hinv me k t u).
Qed.

(** The loops of the two upgrades, entered by the owner of [want_upgrade], which gives
    up [t_reads t] read locks, or has done so already. *)
Lemma upgrade_good p (b v : bool) :
  upgrading p = true -> t_mode t = NoWrite -> 0 <= t_reads t -> owns_write t = false ->
  ind (want_upgrade l) = ind (owns_upgrade t) ->
  (t_reads t <> 0 \/ owns_upgrade t = true) ->
  let l1 := l_with_upgrade (l_with_reads l (read_count l - t_reads t)) true in
  good l m me (if negb (read_count l1 =? 0) then (if b then Sleep p (l_with_waiting l1 true) else Spin)
               else Ret v false l1)
    (fun _ => Tstate 0 ByUpgrade 0 Idle) (fun p => Tstate 0 NoWrite 0 (Asleep p)).
Proof.
  intros Hp Hm Hr Ow Ou Hex l1. pose proof (in_thread _ _ Hinv me t Ht) as Hok.
  destruct (to_rec _ _ _ Hok Hm) as [Hd Hrec].
  assert (Hoth : forall k u, m !! k = Some u -> k <> me -> t_mode u = NoWrite).
  { intros k u Hk Hne. destruct Hex as [Hex|Hex].
    - apply (reader_excludes l m Hinv me t k u); try done. lia.
    - pose proof (one_owner m owns_upgrade _ me t k u (in_upgrade _ _ Hinv) Ht Hk Hne Hex) as Hu.
      unfold owns_upgrade in Hu. apply orb_false_iff in Hu as [Hu _]. apply bool_decide_eq_false in Hu.
      destruct (t_mode u) eqn:Eu; [done| |done]. rewrite Hex in Ou.
      pose proof (to_write _ _ _ (in_thread _ _ Hinv k u Hk) Eu) as E. by rewrite E in Ou. }
  destruct (negb (read_count l1 =? 0)) eqn:Hb.
  - destruct b; [|done]. split_and!; try done.
    + apply (inv0_update l m me t); unfold l1; simpl; try done; rewrite ?Hd, ?Ow; simpl; try lia.
      * destruct p; try done; unfold owns_write; simpl; lia.
      * destruct p; try done; unfold owns_upgrade at 2; simpl; lia.
      * auto.
    + destruct p; done.
    + intros k u q Hk Hne _. destruct q; simpl; rewrite ?orb_true_r; try done.
  - apply negb_false_iff, Z.eqb_eq in Hb. unfold l1 in Hb. simpl in Hb. split; [|split; [done|]].
    + apply (inv0_update l m me t); unfold l1; simpl; try done; rewrite ?Hd, ?Ow; simpl; try lia.
      * auto.
      * intros _ k u Hk Hne. split; [by apply (Hoth k)|].
        pose proof (to_reads _ _ _ (in_thread _ _ Hinv k u Hk)).
        pose proof (in_reads _ _ Hinv) as Ir. rewrite (msum_delete _ _ me t) in Ir by done.
        apply (msum_zero_inv (fun _ t => t_reads t) (delete me m) k u); [|lia|by rewrite lookup_delete_ne].
        intros j w Hj. apply lookup_delete_Some in Hj as [_ Hj].
        apply (to_reads _ _ _ (in_thread _ _ Hinv j w Hj)).
    + right. right. split; [done|]. intros k u q Hk Hne Hq. simpl.
      assert (Hnu : upgrading q = false).
      { destruct (upgrading q) eqn:E; [|done]. exfalso.
        assert (Hou : owns_upgrade u = true) by (unfold owns_upgrade; by rewrite Hq, E, orb_true_r).
        destruct (owns_upgrade t) eqn:Eo.
        - by rewrite (one_owner m owns_upgrade _ me t k u (in_upgrade _ _ Hinv) Ht Hk Hne Eo) in Hou.
        - pose proof (in_upgrade _ _ Hinv) as Iu. rewrite Ou in Iu.
          by rewrite (no_owner m _ k u Iu Hk) in Hou. }
      destruct q; simpl; rewrite ?orb_true_r; done.
Qed.

(** The bits, counts and sleepers stay as they are; a holder may name itself. *)
Lemma keep_good v w b th :
  t_status t = Idle -> w = false -> (th = l_thread l \/ th = None \/ th = Some me /\ t_mode t <> NoWrite) ->
  good l m me (Ret v w (Lock (want_write l) (want_upgrade l) (waiting l) b (read_count l) th
    (recursion_depth l))) (fun _ => t) (fun p => asleep p t).
Proof.
  intros Hs -> Hth. pose proof (in_thread _ _ Hinv me t Ht) as Hok. split; [|split; [done|]].
  - apply (inv0_update l m me t); simpl; try done; try lia.
    + destruct Hok as [A1 A2 A3 A4 A5]. split; simpl; try done. intros Hm.
      destruct (A3 Hm) as [? ?]. split; [done|]. destruct Hth as [->|[->|[_ ?]]]; done.
    + intros k Hne E. destruct Hth as [->|[->|[-> _]]]; congruence.
    + auto.
    + intros Hm k u Hk Hne. by apply (in_excl _ _ Hinv me k t u).
    + intros Hr k u Hk Hne. apply (reader_excludes l m Hinv me t k u); try done.
      pose proof (to_reads _ _ _ Hok). lia.
  - right. right. split; [done|]. intros k u q Hk Hne _. by destruct q.
Qed.

Lemma reads_nonneg : 0 <= read_count l.
Proof.
  rewrite (in_reads _ _ Hinv). apply msum_nonneg_in. intros k u Hk.
  apply (to_reads _ _ _ (in_thread _ _ Hinv k u Hk)).
Qed.
Lemma depth_nonneg : 0 <= recursion_depth l.
Proof.
  rewrite (in_depth _ _ Hinv). apply msum_nonneg_in. intros k u Hk.
  apply (to_depth _ _ _ (in_thread _ _ Hinv k u Hk)).
Qed.
Lemma one_read : read_count l < INT_MAX -> l_add_reads l 1 = l_with_reads l (read_count l + 1).
Proof. intros H. pose proof reads_nonneg. apply add_reads. unfold is_s32, INT_MAX in *. lia. Qed.
Lemma one_depth : recursion_depth l < INT_MAX -> l_add_depth l 1 = l_with_depth l (recursion_depth l + 1).
Proof. intros H. pose proof depth_nonneg. apply add_depth. unfold is_s32, INT_MAX in *. lia. Qed.

(** A read lock is granted when neither bit is set. *)
Lemma take_read_good :
  t_mode t = NoWrite -> owns_write t = false -> owns_upgrade t = false ->
  want_write l = false -> want_upgrade l = false -> read_count l < INT_MAX ->
  good l m me (Ret true false (l_add_reads l 1))
    (fun _ => Tstate (t_reads t + 1) NoWrite (t_depth t) Idle) (fun p => asleep p t).
Proof.
  intros Hm Ow Ou Ew Eu Hmax. rewrite one_read by done. pose proof (in_thread _ _ Hinv me t Ht) as Hok.
  destruct (to_rec _ _ _ Hok Hm) as [Hd Hrec]. pose proof (to_reads _ _ _ Hok).
  split; [|split; [done|]].
  - apply (inv0_update l m me t); simpl; try done; rewrite ?Ow, ?Ou; simpl; try lia.
    + split; simpl; try done; lia.
    + auto.
    + intros _. by apply others_free.
  - right. right. split; [done|]. intros k u q Hk Hne Hq. pose proof (reads_le l m Hinv me t Ht).
    destruct q; simpl; rewrite ?Ew, ?Eu, ?orb_false_r; try done.
    all: intros _; apply negb_true_iff, Z.eqb_neq; lia.
Qed.

(** The loop of [lock_read]. *)
Lemma read_good :
  t_mode t = NoWrite -> owns_write t = false -> owns_upgrade t = false -> t_reads t = 0 -> (want_write l || want_upgrade l = false -> read_count l < INT_MAX) ->
  good l m me (read_loop l) (fun _ => Tstate (t_reads t + 1) NoWrite (t_depth t) Idle)
    (fun p => Tstate (t_reads t) NoWrite (t_depth t) (Asleep p)).
Proof.
  intros Hm Ow Ou Hr Hmax. pose proof (in_thread _ _ Hinv me t Ht) as Hok.
  destruct (to_rec _ _ _ Hok Hm) as [Hd Hrec].
  unfold read_loop, block. destruct (want_write l || want_upgrade l) eqn:E.
  - destruct (can_sleep l); [|done]. split_and!; try done.
    apply (inv0_update l m me t); simpl; try done; rewrite ?Ow, ?Ou; unfold owns_write, owns_upgrade; simpl; try lia.
    + split; simpl; try done; lia.
    + auto.
  - pose proof (Hmax eq_refl). apply orb_false_iff in E as [Ew Eu]. by eapply good_ext; [exact (take_read_good Hm Ow Ou Ew Eu ltac:(done))|].
Qed.

(** ** The operations *)

#[local] Arguments good : simpl never.

Hypothesis Hfits : fits l.

Lemma less_read : 0 < read_count l -> l_add_reads l (-1) = l_with_reads l (read_count l - 1).
Proof. intros H. destruct Hfits as [Hr _]. apply add_reads. unfold is_s32 in *. lia. Qed.
Lemma add_upgrade b d : l_add_reads (l_with_upgrade l b) d = l_with_upgrade (l_add_reads l d) b.
Proof. done. Qed.
Lemma less_depth : 0 < recursion_depth l -> l_add_depth l (-1) = l_with_depth l (recursion_depth l - 1).
Proof. intros H. destruct Hfits as [_ Hd]. apply add_depth. unfold is_s32 in *. lia. Qed.

Lemma read_to_depth : recursion_depth l < INT_MAX ->
  l_add_depth (l_with_reads l (read_count l - 1)) 1 = l_with_depth (l_with_reads l (read_count l - 1)) (recursion_depth l + 1).
Proof.
  intros H. pose proof depth_nonneg. apply (add_depth (l_with_reads l (read_count l - 1)) 1).
  unfold is_s32, INT_MAX in *. simpl. lia.
Qed.

Definition call_good (c : call) : Prop :=
  may_call me c l t = true ->
  good l m me (do_call me c l) (fun v => after (bool_decide (l_thread l = Some me)) c v t)
    (fun p => asleep p t).

Hypothesis Hidle : t_status t = Idle.

Lemma rec_holds : l_thread l = Some me -> t_mode t <> NoWrite.
Proof. intros E Hm. by destruct (to_rec _ _ _ (in_thread _ _ Hinv me t Ht) Hm). Qed.

(** The recursive cases only move the counts. *)
Lemma rec_good v dr dd l' ret slp :
  l_thread l = Some me -> 0 <= t_reads t + dr -> 0 <= t_depth t + dd ->
  l' = l_with_depth (l_with_reads l (read_count l + dr)) (recursion_depth l + dd) ->
  ret v = Tstate (t_reads t + dr) (t_mode t) (t_depth t + dd) Idle ->
  good l m me (Ret v false l') ret slp.
Proof.
  intros Hl Hr Hd -> E. eapply good_ret; [by apply (count_good v dr dd false Hidle (rec_holds Hl) Hr Hd)|done| |by rewrite E]. simpl. unfold l_with_depth, l_with_reads. simpl. by rewrite andb_true_r.
Qed.

Lemma plain_depth : t_mode t = NoWrite -> t_depth t = 0.
Proof. intros Hm. by destruct (to_rec _ _ _ (in_thread _ _ Hinv me t Ht) Hm). Qed.

Lemma want_sleeps l1 p l' : want_loop l1 = Sleep p l' -> upgrading p = false.
Proof. unfold want_loop, drain_loop, block. intros H. repeat case_match; by simplify_eq. Qed.

Lemma write_good : call_good Write.
Proof.
  intros [Hmax%Z.ltb_lt Hc]%andb_prop. simpl. unfold lock_write.
  pose proof (to_reads _ _ _ (in_thread _ _ Hinv me t Ht)). pose proof (to_depth _ _ _ (in_thread _ _ Hinv me t Ht)).
  destruct (decide (l_thread l = Some me)) as [Hl|Hl].
  - rewrite (bool_decide_eq_true_2 _ Hl), one_depth by done. apply (rec_good _ 0 1); try done; try lia; simpl.
    + unfold l_with_depth, l_with_reads. simpl. by rewrite Z.add_0_r.
    + by rewrite Z.add_0_r.
  - rewrite (bool_decide_eq_false_2 _ Hl) in *. simpl in Hc. apply andb_true_iff in Hc as [Hm Hr].
    apply bool_decide_eq_true in Hm. apply Z.eqb_eq in Hr. destruct (idle_bits Hidle Hm).
    pose proof (plain_depth Hm) as Hd. eapply good_ext;
      [exact (want_good Hr Hm Hd ltac:(done) ltac:(done) Hl)|].
    destruct (want_loop l) eqn:E; try done; simpl; [by rewrite Hr, Hd|].
    unfold asleep. rewrite Hr, Hm, Hd. pose proof (want_sleeps _ _ _ E). by destruct p.
Qed.

Lemma try_write_good : call_good TryWrite.
Proof.
  intros [Hmax%Z.ltb_lt Hc]%andb_prop. simpl. unfold lock_try_write.
  pose proof (to_reads _ _ _ (in_thread _ _ Hinv me t Ht)). pose proof (to_depth _ _ _ (in_thread _ _ Hinv me t Ht)).
  destruct (decide (l_thread l = Some me)) as [Hl|Hl].
  - rewrite (bool_decide_eq_true_2 _ Hl), one_depth by done. apply (rec_good _ 0 1); try done; try lia; simpl.
    + unfold l_with_depth, l_with_reads. simpl. by rewrite Z.add_0_r.
    + by rewrite Z.add_0_r.
  - rewrite (bool_decide_eq_false_2 _ Hl) in *. simpl in Hc. apply andb_true_iff in Hc as [Hm Hr].
    apply bool_decide_eq_true in Hm. apply Z.eqb_eq in Hr. destruct (idle_bits Hidle Hm).
    pose proof (plain_depth Hm) as Hd. destruct (want_write l || want_upgrade l || _) eqn:E.
    + eapply good_ret;
        [apply (keep_good false false (can_sleep l) (l_thread l) Hidle eq_refl); by left|done|by destruct l|]. by destruct t; simpl in *; subst.
    + apply orb_false_iff in E as [E Er]. apply orb_false_iff in E as [Ew Eu].
      pose proof (drain_good (l_with_write l true) Hr Hm Hd eq_refl) as Hg. unfold drain_loop in Hg. simpl in Hg.
      rewrite Er, Eu in Hg. simpl in Hg. rewrite Ew in Hg.
      destruct (idle_bits Hidle Hm) as [Ow Ou]. rewrite Ow in Hg. specialize (Hg eq_refl Ou Hl).
      simpl. by rewrite Hr, Hd.
Qed.

(** Giving up a read lock held together with the write lock, or one level of it. *)
Lemma count_wake_good v dr dd ret slp l1 :
  t_mode t <> NoWrite -> 0 <= t_reads t + dr -> 0 <= t_depth t + dd ->
  l1 = l_with_depth (l_with_reads l (read_count l + dr)) (recursion_depth l + dd) ->
  ret v = Tstate (t_reads t + dr) (t_mode t) (t_depth t + dd) Idle ->
  good l m me (wake_ret v l1) ret slp.
Proof.
  intros Hm Hr Hd -> E. unfold wake_ret.
  eapply good_ret; [by apply (count_good v dr dd true Hidle Hm Hr Hd)|done| |by rewrite E].
  simpl. by rewrite andb_false_r.
Qed.

Lemma release_good v dr ret slp :
  t_mode t <> NoWrite -> t_depth t = 0 -> l_thread l <> Some me -> 0 <= dr ->
  ret v = Tstate (t_reads t + dr) NoWrite 0 Idle ->
  let l1 := l_with_reads l (read_count l + dr) in
  good l m me (wake_ret v (if want_upgrade l then l_with_upgrade l1 false else l_with_write l1 false)) ret slp.
Proof.
  intros Hm Hd Hrec Hdr E l1. apply wake_good; rewrite ?E; [by apply release_inv|done|].
  by destruct (want_upgrade l).
Qed.

Lemma reads_same : l_with_reads l (read_count l + 0) = l.
Proof. rewrite Z.add_0_r. by destruct l. Qed.

Lemma not_rec : negb (bool_decide (l_thread l = Some me)) = true -> l_thread l <> Some me.
Proof. intros H. by apply negb_true_iff, bool_decide_eq_false in H. Qed.

Lemma done_good : call_good Done.
Proof.
  intros [_ Hc]%andb_prop. simpl. unfold lock_done.
  pose proof (to_reads _ _ _ (in_thread _ _ Hinv me t Ht)) as Pr.
  pose proof (to_depth _ _ _ (in_thread _ _ Hinv me t Ht)) as Pd.
  pose proof (reads_le l m Hinv me t Ht) as Hle.
  destruct (0 <? t_reads t) eqn:Er.
  - apply Z.ltb_lt in Er. destruct (Z.eqb_spec (read_count l) 0) as [|_]; [lia|]. simpl. rewrite less_read by lia.
    destruct (decide (t_mode t = NoWrite)) as [Hm|Hm].
    + apply wake_good; [|done..]. rewrite Hm. by apply unread_inv.
    + apply (count_wake_good _ (-1) 0); try done; try lia.
      * unfold l_with_depth, l_with_reads. simpl. f_equal; lia.
      * simpl. f_equal; lia.
  - apply Z.ltb_ge in Er. simpl in Hc. apply andb_true_iff in Hc as [Hm Hc].
    apply negb_true_iff, bool_decide_eq_false in Hm.
    rewrite (holder_reads l m Hinv me t Ht Hm), (holder_depth l m Hinv me t Ht Hm).
    destruct (Z.eqb_spec (t_reads t) 0) as [Er0|]; [|lia]. simpl.
    destruct (Z.eqb_spec (t_depth t) 0) as [Ed|Ed]; simpl.
    + destruct (Z.ltb_spec 0 (t_depth t)) as [|_]; [lia|].
      pose proof (release_good true 0 (fun _ => Tstate (t_reads t) NoWrite (t_depth t) Idle)
        (fun p => asleep p t) Hm Ed (not_rec Hc) ltac:(lia)) as Hg.
      simpl in Hg. rewrite reads_same in Hg. apply Hg. rewrite Ed. f_equal. lia.
    + destruct (Z.ltb_spec 0 (t_depth t)) as [_|]; [|lia].
      rewrite less_depth by (rewrite (holder_depth l m Hinv me t Ht Hm); lia).
      apply (count_wake_good _ 0 (-1)); try done; try lia.
      * rewrite reads_same, (holder_depth l m Hinv me t Ht Hm). done.
      * simpl. f_equal; lia.
Qed.

Lemma read_call_good : call_good Read.
Proof.
  intros [Hmax%Z.ltb_lt Hc]%andb_prop. simpl. unfold lock_read.
  pose proof (to_reads _ _ _ (in_thread _ _ Hinv me t Ht)). pose proof (to_depth _ _ _ (in_thread _ _ Hinv me t Ht)).
  destruct (decide (l_thread l = Some me)) as [Hl|Hl].
  - rewrite one_read by done. apply (rec_good _ 1 0); try done; try lia; simpl.
    + unfold l_with_depth, l_with_reads. simpl. by rewrite Z.add_0_r.
    + by rewrite Z.add_0_r.
  - rewrite (bool_decide_eq_false_2 _ Hl) in Hc. simpl in Hc. apply andb_true_iff in Hc as [Hm Hr].
    apply bool_decide_eq_true in Hm. apply Z.eqb_eq in Hr. destruct (idle_bits Hidle Hm) as [Ow Ou].
    eapply good_ext; [exact (read_good Hm Ow Ou Hr (fun _ => Hmax))|]. unfold read_loop, block.
    destruct (want_write l || want_upgrade l); [destruct (can_sleep l)|]; try done; simpl; unfold asleep; by rewrite Hm.
Qed.

Lemma try_read_good : call_good TryRead.
Proof.
  intros [Hmax%Z.ltb_lt Hc]%andb_prop. simpl. unfold lock_try_read.
  pose proof (to_reads _ _ _ (in_thread _ _ Hinv me t Ht)). pose proof (to_depth _ _ _ (in_thread _ _ Hinv me t Ht)).
  destruct (decide (l_thread l = Some me)) as [Hl|Hl].
  - rewrite one_read by done. apply (rec_good _ 1 0); try done; try lia; simpl.
    + unfold l_with_depth, l_with_reads. simpl. by rewrite Z.add_0_r.
    + by rewrite Z.add_0_r.
  - rewrite (bool_decide_eq_false_2 _ Hl) in Hc. simpl in Hc.
    apply bool_decide_eq_true in Hc as Hm. destruct (idle_bits Hidle Hm) as [Ow Ou].
    destruct (want_write l || want_upgrade l) eqn:E.
    + eapply good_ret;
        [apply (keep_good false false (can_sleep l) (l_thread l) Hidle eq_refl); by left|done|by destruct l|].
      by destruct t; simpl in *; subst.
    + apply orb_false_iff in E as [Ew Eu]. eapply good_ext; [exact (take_read_good Hm Ow Ou Ew Eu Hmax)|].
      simpl. by rewrite Hm.
Qed.

Lemma read_to_write_good : call_good ReadToWrite.
Proof.
  intros [Hmax%Z.ltb_lt Hc]%andb_prop. simpl. unfold lock_read_to_write.
  pose proof (to_depth _ _ _ (in_thread _ _ Hinv me t Ht)).
  apply andb_true_iff in Hc as [Hr Hc]. apply Z.ltb_lt in Hr. pose proof (reads_le l m Hinv me t Ht).
  rewrite ?add_upgrade, less_read by lia.
  destruct (decide (l_thread _ = Some me)) as [Hl|Hl]; simpl in Hl.
  - rewrite (bool_decide_eq_true_2 _ Hl), read_to_depth by done. by apply (rec_good _ (-1) 1); try lia.
  - rewrite (bool_decide_eq_false_2 _ Hl) in *. simpl in Hc. apply andb_true_iff in Hc as [Hm Hr1].
    apply bool_decide_eq_true in Hm. apply Z.eqb_eq in Hr1. destruct (idle_bits Hidle Hm) as [Ow Ou].
    pose proof (plain_depth Hm) as Hd. simpl.
    destruct (want_upgrade l) eqn:Eu.
    + apply wake_good; [|done..]. simpl. rewrite Hm. by apply unread_inv.
    + pose proof (upgrade_good Upgrade (can_sleep l) false eq_refl Hm) as Hg. simpl in Hg.
      rewrite Hr1 in Hg. rewrite Eu, Ou in Hg. specialize (Hg ltac:(lia) Ow eq_refl ltac:(lia)).
      unfold upgrade_loop, block. simpl. eapply good_ext; [exact Hg|].
      destruct (negb _); [destruct (can_sleep l)|]; try done; simpl; unfold asleep; by rewrite Hr1, ?Hm, Hd.
Qed.

Lemma try_read_to_write_good : call_good TryReadToWrite.
Proof.
  intros [Hmax%Z.ltb_lt Hc]%andb_prop. simpl. unfold lock_try_read_to_write.
  pose proof (to_depth _ _ _ (in_thread _ _ Hinv me t Ht)).
  apply andb_true_iff in Hc as [Hr Hc]. apply Z.ltb_lt in Hr. pose proof (reads_le l m Hinv me t Ht).
  rewrite ?add_upgrade, less_read by lia.
  destruct (decide (l_thread _ = Some me)) as [Hl|Hl]; simpl in Hl.
  - rewrite (bool_decide_eq_true_2 _ Hl), read_to_depth by done. by apply (rec_good _ (-1) 1); try lia.
  - rewrite (bool_decide_eq_false_2 _ Hl) in *. simpl in Hc. apply andb_true_iff in Hc as [Hm Hr1].
    apply bool_decide_eq_true in Hm. apply Z.eqb_eq in Hr1. destruct (idle_bits Hidle Hm) as [Ow Ou].
    pose proof (plain_depth Hm) as Hd. simpl.
    destruct (want_upgrade l) eqn:Eu.
    + eapply good_ret;
        [apply (keep_good false false (can_sleep l) (l_thread l) Hidle eq_refl); by left|done|by destruct l|].
      by destruct t; simpl in *; subst.
    + pose proof (upgrade_good TryUpgrade true true eq_refl Hm) as Hg. simpl in Hg.
      rewrite Hr1 in Hg. rewrite Eu, Ou in Hg. specialize (Hg ltac:(lia) Ow eq_refl ltac:(lia)).
      unfold try_upgrade_loop. simpl. eapply good_ext; [exact Hg|].
      destruct (negb _); simpl; unfold asleep; by rewrite Hr1, ?Hm, Hd.
Qed.

Lemma write_to_read_good : call_good WriteToRead.
Proof.
  intros [Hmax%Z.ltb_lt Hc]%andb_prop. simpl. unfold lock_write_to_read. rewrite one_read by done. simpl.
  pose proof (to_reads _ _ _ (in_thread _ _ Hinv me t Ht)) as Pr.
  pose proof (to_depth _ _ _ (in_thread _ _ Hinv me t Ht)) as Pd.
  apply andb_true_iff in Hc as [Hm Hc]. apply negb_true_iff, bool_decide_eq_false in Hm.
  rewrite (holder_depth l m Hinv me t Ht Hm). destruct (Z.eqb_spec (t_depth t) 0) as [Ed|Ed]; simpl.
  - destruct (Z.ltb_spec 0 (t_depth t)) as [|_]; [lia|].
    apply (release_good true 1); try done; [by apply not_rec|]. by rewrite Ed.
  - destruct (Z.ltb_spec 0 (t_depth t)) as [_|]; [|lia].
    pose proof (holder_depth l m Hinv me t Ht Hm) as Hd. destruct Hfits as [_ Hf].
    rewrite (add_depth (l_with_reads l (read_count l + 1)) (-1)) by (unfold is_s32 in *; simpl; lia).
    by apply (count_wake_good _ 1 (-1)); try lia.
Qed.

Lemma other_good c :
  match c with SetRecursive | ClearRecursive | Sleepable _ => True | _ => False end -> call_good c.
Proof.
  intros Hk Hc. assert (Et : t = Tstate (t_reads t) (t_mode t) (t_depth t) Idle) by (by destruct t; simpl in *; subst).
  destruct c; try done; unfold may_call, room in Hc; simpl in *.
  - unfold lock_set_recursive. destruct (want_write l) eqn:Ew; [|done]. simpl.
    apply andb_true_iff in Hc as [Hm _]. apply negb_true_iff, bool_decide_eq_false in Hm.
    eapply good_ret; [apply (keep_good true false (can_sleep l) (Some me) Hidle eq_refl); auto|done|
      by unfold l_with_thread|done].
  - unfold lock_clear_recursive. destruct (decide _); [done|]. destruct (recursion_depth l =? 0).
    + eapply good_ret; [apply (keep_good true false (can_sleep l) None Hidle eq_refl); auto|done..].
    + eapply good_ret;
        [apply (keep_good true false (can_sleep l) (l_thread l) Hidle eq_refl); by left|done|by destruct l|done].
  - eapply good_ret;
      [apply (keep_good true false b (l_thread l) Hidle eq_refl); by left|done..].
Qed.

Lemma calls_good c : call_good c.
Proof.
  destruct c.
  - apply write_good.
  - apply done_good.
  - apply read_call_good.
  - apply read_to_write_good.
  - apply write_to_read_good.
  - apply try_write_good.
  - apply try_read_good.
  - apply try_read_to_write_good.
  - by apply other_good.
  - by apply other_good.
  - by apply other_good.
Qed.

End Runs.

(** A woken thread that goes round its loop. *)
Lemma resume_good l m me t p :
  inv0 l m -> m !! me = Some t -> t_status t = Awake p ->
  (p = WantRead -> want_write l || want_upgrade l = false -> read_count l < INT_MAX) ->
  good l m me (resume p l) (fun _ => acquired p t)
    (fun q => Tstate (t_reads t) (t_mode t) (t_depth t) (Asleep q)).
Proof.
  intros Hinv Ht Hs Hroom. pose proof (in_thread _ _ Hinv me t Ht) as Hok.
  destruct (to_wait _ _ _ Hok) as [Hr Hm]; [congruence|]. destruct (to_rec _ _ _ Hok Hm) as [Hd Hrec].
  destruct t as [r md d st]. simpl in *. subst.
  destruct p; simpl; unfold acquired; simpl.
  - by apply (want_good l m me _ Hinv Ht).
  - assert (Hw : want_write l = true) by (by apply (owner_bit m owns_write _ me _ (in_write _ _ Hinv) Ht)).
    apply (drain_good l m me _ Hinv Ht); try done; [destruct l; simpl in *; by subst|by rewrite Hw].
  - apply (read_good l m me _ Hinv Ht); try done. by apply Hroom.
  - assert (Hw : want_upgrade l = true) by (by apply (owner_bit m owns_upgrade _ me _ (in_upgrade _ _ Hinv) Ht)).
    pose proof (upgrade_good l m me _ Hinv Ht Upgrade (can_sleep l) false eq_refl eq_refl) as Hg.
    simpl in Hg. unfold upgrade_loop, block.
    replace (l_with_upgrade (l_with_reads l (read_count l - 0)) true) with l in Hg
      by (rewrite Z.sub_0_r; destruct l; simpl in *; by subst).
    rewrite Z.sub_0_r in Hg. apply Hg; [lia|done|by rewrite Hw|by right].
  - assert (Hw : want_upgrade l = true) by (by apply (owner_bit m owns_upgrade _ me _ (in_upgrade _ _ Hinv) Ht)).
    pose proof (upgrade_good l m me _ Hinv Ht TryUpgrade true true eq_refl eq_refl) as Hg.
    simpl in Hg. unfold try_upgrade_loop.
    replace (l_with_upgrade (l_with_reads l (read_count l - 0)) true) with l in Hg
      by (rewrite Z.sub_0_r; destruct l; simpl in *; by subst).
    rewrite Z.sub_0_r in Hg. apply Hg; [lia|done|by rewrite Hw|by right].
Qed.

(** ** Reachable states *)

Lemma step_linv s s' : step s s' -> linv s -> linv s'.
Proof.
  intros [me Hstep] (Hi & Hs & Hf). destruct Hstep as [c l m t v w l' Ht Hst Hc Hd|c l m t p l' Ht Hst Hc Hd
    |p l m t v w l' Ht Hst Hroom Hd|p q l m t l' Ht Hst Hd]; simpl in *.
  - pose proof (call_fits me c l Hf) as Hf'. rewrite Hd in Hf'.
    by destruct (good_return l m me _ _ _ v w l' (calls_good l m me t Hi Ht Hf Hst c Hc) Hd Hs).
  - pose proof (call_fits me c l Hf) as Hf'. rewrite Hd in Hf'.
    by destruct (good_sleep l m me _ _ _ p l' (calls_good l m me t Hi Ht Hf Hst c Hc) Hd Hs).
  - pose proof (resume_fits p l Hf) as Hf'. rewrite Hd in Hf'.
    by destruct (good_return l m me _ _ _ v w l' (resume_good l m me t p Hi Ht Hst (fun E _ => Hroom E)) Hd Hs).
  - pose proof (resume_fits p l Hf) as Hf'. rewrite Hd in Hf'.
    assert (Hroom : p = WantRead -> want_write l || want_upgrade l = false -> read_count l < INT_MAX).
    { intros -> E. simpl in Hd. unfold read_loop in Hd. by rewrite E in Hd. }
    by destruct (good_sleep l m me _ _ _ q l' (resume_good l m me t p Hi Ht Hst Hroom) Hd Hs).
Qed.

Lemma initial_linv s : initial s -> linv s.
Proof.
  intros [[b Hl] Hm]. destruct s as [l m]. simpl in *. subst l.
  assert (Z0 : forall f : tstate -> Z, f (Tstate 0 NoWrite 0 Idle) = 0 -> 0 = msum (fun _ t => f t) m).
  { intros f Hf. rewrite msum_zero; [done|]. intros k t Hk. by rewrite (Hm k t Hk). }
  split; [split|split]; simpl.
  - by apply (Z0 t_reads).
  - by apply (Z0 t_depth).
  - by apply (Z0 (fun t => ind (owns_write t))).
  - by apply (Z0 (fun t => ind (owns_upgrade t))).
  - intros me t Ht. rewrite (Hm me t Ht). by split.
  - intros a c x y Hx Hy _ Hne. by rewrite (Hm a x Hx) in Hne.
  - intros me t p Ht Hs. by rewrite (Hm me t Ht) in Hs.
  - by split.
Qed.

Lemma reachable_linv s : reachable s -> linv s.
Proof.
  intros (s0 & Hi & Hr). apply initial_linv in Hi. induction Hr as [|x y z Hxy _ IH]; [done|].
  apply IH. by apply (step_linv x).
Qed.

(** ** Correctness *)

(** A thread that holds the lock is running, and may give up what it holds. *)
Definition holds (t : tstate) : Prop := 0 < t_reads t \/ t_mode t <> NoWrite.

Section Waiting.
Context (l : lock) (m : gmap loc tstate) (Hinv : inv0 l m) (Hsl : sleep_ok l m).

(** Someone can go on: a holder of the lock that is running, or a woken thread. *)
Definition can_go : Prop :=
  exists k u, m !! k = Some u /\ ((t_status u = Idle /\ holds u) \/ exists q, t_status u = Awake q).

Lemma running_reader : read_count l <> 0 -> exists k u, m !! k = Some u /\ t_status u = Idle /\ holds u.
Proof.
  intros Hr. pose proof (in_reads _ _ Hinv) as Ir.
  assert (Hpos : 0 < msum (fun _ t => t_reads t) m).
  { apply Z.le_neq. split; [|congruence].
    assert (0 <= msum (fun _ t => t_reads t) m); [|lia]. apply msum_nonneg_in. intros k u Hk.
    apply (to_reads _ _ _ (in_thread _ _ Hinv k u Hk)). }
  apply msum_pos_ex in Hpos as (k & u & Hk & Hpos). exists k, u. split; [done|]. split; [|by left].
  destruct (decide (t_status u = Idle)) as [|Hs]; [done|].
  destruct (to_wait _ _ _ (in_thread _ _ Hinv k u Hk) Hs). lia.
Qed.

Lemma readers_go : read_count l <> 0 -> can_go.
Proof. intros Hr. destruct (running_reader Hr) as (k & u & Hk & ?). exists k, u. auto. Qed.

Lemma bit_owner (f : tstate -> bool) (b : bool) :
  ind b = msum (fun _ t => ind (f t)) m -> b = true -> exists k u, m !! k = Some u /\ f u = true.
Proof.
  intros Hs ->. assert (Hpos : 0 < msum (fun _ t => ind (f t)) m) by (rewrite <- Hs; simpl; lia).
  apply msum_pos_ex in Hpos as (k & u & Hk & Hpos). exists k, u. split; [done|].
  by destruct (f u).
Qed.

Lemma owner_goes k u (phases : phase -> bool) :
  m !! k = Some u -> (t_mode u <> NoWrite \/ exists p, phases p = true /\ (t_status u = Asleep p \/ t_status u = Awake p)) ->
  (forall p, phases p = true -> t_status u = Asleep p -> can_go) -> can_go.
Proof.
  intros Hk Hu Hph. destruct Hu as [Hm|(p & Hp & [Hs|Hs])].
  - exists k, u. split; [done|]. left. split; [by apply (holder_bits l m Hinv k u Hk Hm)|by right].
  - by apply (Hph p).
  - exists k, u. split; [done|]. right. by exists p.
Qed.

Lemma upgrade_goes : want_upgrade l = true -> can_go.
Proof.
  intros Hu. destruct (bit_owner owns_upgrade _ (in_upgrade _ _ Hinv) Hu) as (k & u & Hk & Ho).
  apply (owner_goes k u upgrading Hk).
  - unfold owns_upgrade in Ho. apply orb_true_iff in Ho as [Ho|Ho].
    + left. apply bool_decide_eq_true in Ho. by rewrite Ho.
    + right. destruct (t_status u) as [|p|p]; [done|exists p; auto..].
  - intros p Hp Hs. destruct (Hsl k u p Hk Hs) as [_ Hb]. apply readers_go.
    destruct p; try done; simpl in Hb; by apply negb_true_iff, Z.eqb_neq in Hb.
Qed.

Lemma write_goes : want_write l = true -> can_go.
Proof.
  intros Hw. destruct (bit_owner owns_write _ (in_write _ _ Hinv) Hw) as (k & u & Hk & Ho).
  apply (owner_goes k u (fun p => bool_decide (p = Drain)) Hk).
  - unfold owns_write in Ho. repeat rewrite orb_true_iff in Ho. destruct Ho as [[Ho|Ho]|Ho];
      apply bool_decide_eq_true in Ho; [left; by rewrite Ho|right..]; exists Drain; auto.
  - intros p Hp Hs. apply bool_decide_eq_true in Hp as ->. destruct (Hsl k u Drain Hk Hs) as [_ Hb].
    simpl in Hb. apply orb_true_iff in Hb as [Hb|Hb]; [|by apply upgrade_goes].
    apply readers_go. by apply negb_true_iff, Z.eqb_neq in Hb.
Qed.

Lemma blocked_goes p : blocked p l = true -> can_go.
Proof.
  destruct p; simpl; rewrite ?orb_true_iff; try apply write_goes.
  - intros [Hb|Hb]; [apply readers_go; by apply negb_true_iff, Z.eqb_neq in Hb|by apply upgrade_goes].
  - intros [Hb|Hb]; [by apply write_goes|by apply upgrade_goes].
  - intros Hb. apply readers_go. by apply negb_true_iff, Z.eqb_neq in Hb.
  - intros Hb. apply readers_go. by apply negb_true_iff, Z.eqb_neq in Hb.
Qed.
End Waiting.

(** A running holder gives up what it holds, after leaving recursion if it must, and every sleeper is
    woken. *)
Lemma release_wakes l m k u me t p :
  inv0 l m -> m !! k = Some u -> t_status u = Idle -> holds u -> waiting l = true -> k <> me ->
  m !! me = Some t -> t_status t = Asleep p ->
  exists s', rtc step (Sys l m) s' /\ s_threads s' !! me = Some (wake t).
Proof.
  intros Hinv Hk Hs Hh Hw Hne Ht Hp.
  assert (Hdone : forall l1 m1 u1, m1 !! k = Some u1 -> t_status u1 = Idle -> waiting l1 = true -> m1 !! me = Some t ->
    may_call k Done l1 u1 = true -> exists s', step (Sys l1 m1) s' /\ s_threads s' !! me = Some (wake t)).
  { intros l1 m1 u1 Hk1 Hs1 Hw1 Ht1 Hc. eexists. split.
    - exists k. eapply (step_return k Done); [done|done|done|]. unfold do_call, lock_done, wake_ret. reflexivity.
    - simpl. replace (waiting _) with true by (repeat case_match; simpl; congruence). simpl.
      by rewrite lookup_fmap, lookup_insert_ne, Ht1. }
  destruct (may_call k Done l u) eqn:E.
  - destruct (Hdone l m u Hk Hs Hw Ht E) as (s' & Hst & Hm). exists s'. split; [by apply rtc_once|done].
  - apply orb_false_iff in E as [E1 E2]. apply Z.ltb_ge in E1. destruct Hh as [|Hm]; [lia|].
    rewrite (bool_decide_eq_false_2 _ Hm) in E2. apply orb_false_iff in E2 as [E2 E3].
    apply negb_false_iff, bool_decide_eq_true in E3. apply Z.ltb_ge in E2.
    pose proof (holder_depth l m Hinv k u Hk Hm) as Hd. pose proof (to_depth _ _ _ (in_thread _ _ Hinv k u Hk)) as Hp0.
    assert (E4 : (recursion_depth l =? 0) = true) by (apply Z.eqb_eq; lia).
    set (m1 := <[k := Tstate (t_reads u) (t_mode u) (t_depth u) Idle]> m).
    destruct (Hdone (l_with_thread l None) m1 (Tstate (t_reads u) (t_mode u) (t_depth u) Idle)) as (s' & Hst & Hm').
    + apply lookup_insert_eq.
    + done.
    + done.
    + by unfold m1; rewrite lookup_insert_ne.
    + unfold may_call, room. simpl. rewrite (bool_decide_eq_false_2 _ Hm). simpl. by rewrite !orb_true_r.
    + exists s'. split; [|done]. eapply rtc_l; [|by apply rtc_once]. exists k.
      eapply (step_return k ClearRecursive l m u true false); [done|done|..].
      * unfold may_call. simpl. by apply bool_decide_eq_true_2.
      * simpl. unfold lock_clear_recursive. destruct (decide _); [done|]. by rewrite E4.
Qed.

Lemma resume_sleep p l : match resume p l with Ret _ w l' => w = false /\ can_sleep l' = can_sleep l
  | Sleep _ l' => can_sleep l' = can_sleep l | _ => can_sleep l = false end.
Proof.
  destruct p; simpl; unfold want_loop, drain_loop, read_loop, upgrade_loop, try_upgrade_loop, block;
    repeat case_match; simplify_eq/=; try done; congruence.
Qed.

Lemma acquired_holds p u : 0 <= t_reads u -> t_status (acquired p u) = Idle /\ holds (acquired p u).
Proof. intros H. destruct p; split; try done; [right|right|left|right|right]; simpl; done || lia. Qed.

Definition is_awake (t : tstate) : bool := match t_status t with Awake _ => true | _ => false end.

(** Some run of the others wakes a sleeper: a running holder releases the lock; else a woken thread goes
    on, and either gets the lock and releases it, or sleeps again, which happens once for each. *)
Lemma woken_at_last n : forall s me t p, linv s -> s_threads s !! me = Some t -> t_status t = Asleep p ->
  can_sleep (s_lock s) = true -> count (fun _ t => is_awake t) (s_threads s) <= Z.of_nat n ->
  exists s', rtc step s s' /\ s_threads s' !! me = Some (wake t).
Proof.
  induction n as [|n IH]; intros [l m] me t p (Hi & Hsl & Hf) Ht Hs Hcs Hn; simpl in *;
    destruct (Hsl me t p Ht Hs) as [Hw Hb]; pose proof (reads_nonneg l m Hi) as Hr0;
    (assert (Hgo : exists k u, m !! k = Some u /\ (t_status u = Idle /\ holds u \/ read_count l = 0 /\ exists q, t_status u = Awake q));
     [destruct (Z.eq_dec (read_count l) 0) as [E|E];
       [destruct (blocked_goes l m Hi Hsl p Hb) as (k & u & Hk & [?|?]); exists k, u; eauto
       |destruct (running_reader l m Hi E) as (k & u & Hk & ?); exists k, u; eauto]|]);
    destruct Hgo as (k & u & Hk & [[Hid Hh]|[Hz [q Hq]]]);
    try (apply (release_wakes l m k u me t p); try done; intros ->; congruence).
  - pose proof (count_pos (fun _ t => is_awake t) m k u Hk) as Hc. unfold is_awake in Hc. rewrite Hq in Hc.
    specialize (Hc eq_refl). unfold is_awake in Hn. lia.
  - assert (Hne : k <> me) by (intros ->; congruence). pose proof (resume_sleep q l) as Hrs.
    destruct (resume q l) as [v w l'|q' l'| |] eqn:E; [| |congruence..].
    + destruct Hrs as [-> Hcs'].
      assert (Hstep : step (Sys l m) (Sys l' (<[k := acquired q u]> m))).
      { exists k. apply (step_resume k q l m u v false l'); try done. intros _. unfold INT_MAX. lia. }
      destruct (step_linv _ _ Hstep) as (Hi' & Hsl' & _); [by split|]. simpl in *.
      destruct (acquired_holds q u) as [Ha1 Ha2]; [apply (to_reads _ _ _ (in_thread _ _ Hi k u Hk))|].
      assert (Ht' : <[k := acquired q u]> m !! me = Some t) by (by rewrite lookup_insert_ne).
      destruct (release_wakes l' _ k (acquired q u) me t p Hi' ltac:(apply lookup_insert_eq) Ha1 Ha2) as (s' & Hrun & Hm); try done.
      { by apply (Hsl' me t p). }
      exists s'. split; [by eapply rtc_l|done].
    + assert (Hstep : step (Sys l m) (Sys l' (<[k := Tstate (t_reads u) (t_mode u) (t_depth u) (Asleep q')]> m))).
      { exists k. by apply (step_again k q q' l m u l'). }
      destruct (IH _ me t p (step_linv _ _ Hstep ltac:(by split))) as (s' & Hrun & Hm); try done; simpl.
      * by rewrite lookup_insert_ne.
      * congruence.
      * rewrite (count_insert _ m k u) by done. unfold is_awake at 2 3. rewrite Hq. simpl. lia.
      * exists s'. split; [by eapply rtc_l|done].
Qed.


(** C15. No wakeup is lost, in the states that threads reach that keep to the rules of the
    package: whenever one is asleep in one of the package's loops the condition it waits for
    still holds and [waiting] is set, so the operation that makes the condition false calls
    [thread_wakeup]. *)
Theorem lock_no_lost_wakeup s me t p :
  reachable s -> s_threads s !! me = Some t -> t_status t = Asleep p ->
  waiting (s_lock s) = true /\ blocked p (s_lock s) = true /\ t_reads t = 0 /\ t_mode t = NoWrite.
Proof.
  intros Hr Ht Hs. apply reachable_linv in Hr as (Hi & Hsl & _). destruct (Hsl me t p Ht Hs).
  split_and!; try done; apply (to_wait _ _ _ (in_thread _ _ Hi me t Ht)); congruence.
Qed.

(** C16. Sleepers never wait for each other alone: when a thread is asleep, in a state that
    threads reach that keep to the rules of the package, some thread that is not asleep
    holds the lock or has been woken; and as long as the lock may sleep, the threads that
    are not asleep can always go on so that the sleeper is woken: it is woken in some run of
    the package's operations from there. So they never deadlock on such a lock. *)
Theorem lock_no_deadlock s me t p :
  reachable s -> s_threads s !! me = Some t -> t_status t = Asleep p ->
  (exists k u, s_threads s !! k = Some u /\
     ((t_status u = Idle /\ holds u) \/ exists q, t_status u = Awake q)) /\
  (can_sleep (s_lock s) = true -> exists s' t', rtc step s s' /\ s_threads s' !! me = Some t' /\ t_status t' = Awake p).
Proof.
  intros Hr Ht Hs. pose proof (reachable_linv s Hr) as Hl. split.
  - destruct Hl as (Hi & Hsl & _). destruct (Hsl me t p Ht Hs) as [_ Hb]. apply (blocked_goes _ _ Hi Hsl p Hb).
  - intros Hc. destruct (woken_at_last (Z.to_nat (count (fun _ t => is_awake t) (s_threads s))) s me t p Hl Ht Hs Hc) as (s' & Hrun & Hm).
    { pose proof (count_nonneg (fun _ t => is_awake t) (s_threads s)). lia. }
    exists s', (wake t). split_and!; [done|done|]. unfold wake. by rewrite Hs.
Qed.

(** ** A writer and a waiting reader *)

Definition demo_threads : gmap loc tstate :=
  <[1%positive := Tstate 0 NoWrite 0 Idle]> {[2%positive := Tstate 0 NoWrite 0 Idle]}.

(** Thread 1 has called [lock_write], then thread 2 [lock_read]. *)
Definition demo_lock : sys :=
  Sys (Lock true false true true 0 None 0)
    (<[2%positive := Tstate 0 NoWrite 0 (Asleep WantRead)]>
      (<[1%positive := Tstate 0 ByWrite 0 Idle]> demo_threads)).

Lemma demo_reachable : reachable demo_lock.
Proof.
  exists (Sys (lock_init true) demo_threads). split.
  - split; [by exists true|]. intros me t Ht. simpl in Ht. unfold demo_threads in Ht.
    apply lookup_insert_Some in Ht as [[_ <-]|[_ Ht]]; [done|].
    by apply lookup_singleton_Some in Ht as [_ <-].
  - eapply rtc_l; [exists 1%positive; apply (step_return 1%positive Write _ _ (Tstate 0 NoWrite 0 Idle) true false
      (Lock true false false true 0 None 0)); done|].
    eapply rtc_l; [|apply rtc_refl].
    exists 2%positive. by apply (step_sleep 2%positive Read _ _ (Tstate 0 NoWrite 0 Idle) WantRead).
Qed.


Lemma lock_no_lost_wakeup_witness : waiting (s_lock demo_lock) = true.
Proof.
  apply (lock_no_lost_wakeup demo_lock 2%positive (Tstate 0 NoWrite 0 (Asleep WantRead)) WantRead
    demo_reachable eq_refl eq_refl).
Defined.

Lemma lock_no_deadlock_witness : exists s' t', rtc step demo_lock s' /\ s_threads s' !! 2%positive = Some t' /\ t_status t' = Awake WantRead.
Proof.
  apply (lock_no_deadlock demo_lock 2%positive (Tstate 0 NoWrite 0 (Asleep WantRead)) WantRead
    demo_reachable eq_refl eq_refl). reflexivity.
Defined.
