(* ===== verification/Cred.v ===== *)
(** * Process credentials (sys/kern/kern_prot.c)

    Credentials are shared: several [pcred]s, and open files, may point at one
    reference-counted [ucred], which the set-id system calls copy before they
    write.  The state is the three kernel tables involved. *)

From S2P Require Import Prelude.
Local Open Scope kern_scope.

(** ** Data *)

Definition NGROUPS := 16.
Definition ASU := 2.

(** sys/sys/ucred.h:42-47, [struct ucred]. *)
Record ucred := Ucred {
  cr_ref : Z;        (* u_short *)
  cr_uid : Z;
  cr_ngroups : Z;    (* short *)
  cr_groups : list Z }.

(** sys/sys/proc.h:168-175, [struct pcred]. *)
Record pcred := Pcred {
  pc_ucred : loc;
  p_ruid : Z;
  p_svuid : Z;
  p_rgid : Z;
  p_svgid : Z }.

(** The fields of [struct proc] this file uses. *)
Record cproc := Cproc { p_cred : loc; p_acflag : Z; p_pid : Z; p_ppid : Z }.

Record cst := Cst {
  procs : gmap loc cproc;
  pcreds : gmap loc pcred;
  ucreds : gmap loc ucred }.

Definition upd_proc (p : loc) (x : cproc) (s : cst) : cst :=
  Cst (<[p := x]> (procs s)) (pcreds s) (ucreds s).
Definition upd_pcred (l : loc) (x : pcred) (s : cst) : cst :=
  Cst (procs s) (<[l := x]> (pcreds s)) (ucreds s).
Definition upd_ucred (l : loc) (x : ucred) (s : cst) : cst :=
  Cst (procs s) (pcreds s) (<[l := x]> (ucreds s)).

Definition get_proc (p : loc) : K cst cproc := kderef (fun s => procs s !! p).
Definition get_pcred (l : loc) : K cst pcred := kderef (fun s => pcreds s !! l).
Definition get_ucred (l : loc) : K cst ucred := kderef (fun s => ucreds s !! l).

Definition with_ref (u : ucred) (r : Z) : ucred :=
  Ucred r (cr_uid u) (cr_ngroups u) (cr_groups u).
Definition with_uid (uid : Z) (u : ucred) : ucred :=
  Ucred (cr_ref u) uid (cr_ngroups u) (cr_groups u).
Definition with_gid0 (gid : Z) (u : ucred) : ucred :=
  Ucred (cr_ref u) (cr_uid u) (cr_ngroups u) (zset (cr_groups u) 0 gid).
Definition with_groups (n : Z) (gs : list Z) (u : ucred) : ucred :=
  Ucred (cr_ref u) (cr_uid u) n gs.

(** ** Reference counts *)

(** sys/kern/kern_prot.c:484-496, [crget]: a zeroed [ucred] at a fresh address. *)
Definition crget : K cst loc :=
  let! s := kget in
  let l := fresh (dom (ucreds s)) in
  do! kmod (upd_ucred l (Ucred 1 0 0 (replicate 16 0))) in
  kret l.

(** sys/sys/ucred.h:52-52, [crhold]: [(cr)->cr_ref++] on a [u_short]. *)
Definition crhold (l : loc) : K cst unit :=
  let! u := get_ucred l in
  kmod (upd_ucred l (with_ref u (u16 (cr_ref u + 1)))).

(** sys/kern/kern_prot.c:498-513, [crfree]. *)
Definition crfree (l : loc) : K cst unit :=
  let! u := get_ucred l in
  let r := u16 (cr_ref u - 1) in
  if ztrue r then kmod (upd_ucred l (with_ref u r))
  else kmod (fun s => Cst (procs s) (pcreds s) (delete l (ucreds s))).

(** sys/kern/kern_prot.c:515-531, [crcopy]: copy unless we hold the only
    reference, and drop ours on the old one. *)
Definition crcopy (l : loc) : K cst loc :=
  let! cr := get_ucred l in
  if cr_ref cr =? 1 then kret l else
  let! n := crget in
  do! kmod (upd_ucred n cr) in
  do! crfree l in
  let! newcr := get_ucred n in
  do! kmod (upd_ucred n (with_ref newcr 1)) in
  kret n.

(** sys/kern/kern_prot.c:533-546, [crdup]. *)
Definition crdup (l : loc) : K cst loc :=
  let! cr := get_ucred l in
  let! n := crget in
  do! kmod (upd_ucred n (with_ref cr 1)) in
  kret n.

(** ** Tests *)

(** sys/kern/kern_prot.c:449-464, [groupmember]. *)
Definition groupmember (gid : Z) (cred : ucred) : bool :=
  existsb (fun g => g =? gid) (take (Z.to_nat (cr_ngroups cred)) (cr_groups cred)).

(** sys/kern/kern_prot.c:466-482, [suser]: with [&p->p_acflag] as its second
    argument, which it marks. *)
Definition suser (cred : loc) (p : loc) : K cst Z :=
  let! u := get_ucred cred in
  if cr_uid u =? 0 then
    let! pr := get_proc p in
    do! kmod (upd_proc p (Cproc (p_cred pr) (Z.lor (p_acflag pr) ASU) (p_pid pr) (p_ppid pr))) in
    kret 0
  else kret EPERM.

(** The call [suser(p->p_ucred, &p->p_acflag)] of the other system calls. *)
Definition suser_proc (p : loc) : K cst Z :=
  let! pr := get_proc p in
  let! pc := get_pcred (p_cred pr) in
  suser (pc_ucred pc) p.

(** The C idiom [cond && (error = suser(...))], as an error number. *)
Definition unless (c : bool) (m : K cst Z) : K cst Z := if c then kret 0 else m.

(** ** System calls that read identities *)

(** sys/kern/kern_prot.c:57-69, [getpid]: the two values of the 4.3BSD return. *)
Definition getpid (p : loc) : K cst (Z * Z) :=
  let! pr := get_proc p in kret (p_pid pr, p_ppid pr).

(** sys/kern/kern_prot.c:93-105, [getuid]. *)
Definition getuid (p : loc) : K cst (Z * Z) :=
  let! pr := get_proc p in
  let! pc := get_pcred (p_cred pr) in
  let! u := get_ucred (pc_ucred pc) in
  kret (p_ruid pc, cr_uid u).

(** sys/kern/kern_prot.c:107-116, [geteuid]. *)
Definition geteuid (p : loc) : K cst Z :=
  let! pr := get_proc p in
  let! pc := get_pcred (p_cred pr) in
  let! u := get_ucred (pc_ucred pc) in
  kret (cr_uid u).

Definition groups0 (u : ucred) : Z := default 0 (znth (cr_groups u) 0).

(** sys/kern/kern_prot.c:118-130, [getgid]. *)
Definition getgid (p : loc) : K cst (Z * Z) :=
  let! pr := get_proc p in
  let! pc := get_pcred (p_cred pr) in
  let! u := get_ucred (pc_ucred pc) in
  kret (p_rgid pc, groups0 u).

(** sys/kern/kern_prot.c:132-146, [getegid]. *)
Definition getegid (p : loc) : K cst Z :=
  let! pr := get_proc p in
  let! pc := get_pcred (p_cred pr) in
  let! u := get_ucred (pc_ucred pc) in
  kret (groups0 u).

(** sys/kern/kern_prot.c:148-172, [getgroups]: error number, [*retval] and the
    groups written by [copyout], whose error is [co]. *)
Definition getgroups (p : loc) (gidsetsize : Z) (co : Z) : K cst (Z * Z * list Z) :=
  let! pr := get_proc p in
  let! pc := get_pcred (p_cred pr) in
  let! u := get_ucred (pc_ucred pc) in
  let ngrp := u32 gidsetsize in
  if ngrp =? 0 then kret (0, cr_ngroups u, [])
  else if ngrp <? u32 (cr_ngroups u) then kret (EINVAL, 0, [])
  else if ztrue co then kret (co, 0, [])
  else kret (0, cr_ngroups u, take (Z.to_nat (cr_ngroups u)) (cr_groups u)).

(** ** System calls that set identities *)

(** [pc->pc_ucred = crcopy(pc->pc_ucred)] followed by the assignments to the
    (now private) [ucred] and to the [pcred]. *)
Definition commit (l : loc) (fu : ucred -> ucred) (fp : pcred -> pcred) : K cst unit :=
  let! pc := get_pcred l in
  let! n := crcopy (pc_ucred pc) in
  do! kmod (upd_pcred l (Pcred n (p_ruid pc) (p_svuid pc) (p_rgid pc) (p_svgid pc))) in
  let! u := get_ucred n in
  do! kmod (upd_ucred n (fu u)) in
  let! pc' := get_pcred l in
  kmod (upd_pcred l (fp pc')).

(** sys/kern/kern_prot.c:236-261, [setuid]. *)
Definition setuid (p : loc) (uid : Z) : K cst Z :=
  let! pr := get_proc p in
  let! pc := get_pcred (p_cred pr) in
  let! error := unless (uid =? p_ruid pc) (suser (pc_ucred pc) p) in
  if ztrue error then kret error else
  do! commit (p_cred pr) (with_uid uid)
        (fun pc => Pcred (pc_ucred pc) uid uid (p_rgid pc) (p_svgid pc)) in
  kret 0.

(** sys/kern/kern_prot.c:263-286, [seteuid]. *)
Definition seteuid (p : loc) (euid : Z) : K cst Z :=
  let! pr := get_proc p in
  let! pc := get_pcred (p_cred pr) in
  let! error := unless ((euid =? p_ruid pc) || (euid =? p_svuid pc)) (suser (pc_ucred pc) p) in
  if ztrue error then kret error else
  do! commit (p_cred pr) (with_uid euid) (fun pc => pc) in
  kret 0.

(** sys/kern/kern_prot.c:288-308, [setgid]. *)
Definition setgid (p : loc) (gid : Z) : K cst Z :=
  let! pr := get_proc p in
  let! pc := get_pcred (p_cred pr) in
  let! error := unless (gid =? p_rgid pc) (suser (pc_ucred pc) p) in
  if ztrue error then kret error else
  do! commit (p_cred pr) (with_gid0 gid)
        (fun pc => Pcred (pc_ucred pc) (p_ruid pc) (p_svuid pc) gid gid) in
  kret 0.

(** sys/kern/kern_prot.c:310-329, [setegid]. *)
Definition setegid (p : loc) (egid : Z) : K cst Z :=
  let! pr := get_proc p in
  let! pc := get_pcred (p_cred pr) in
  let! error := unless ((egid =? p_rgid pc) || (egid =? p_svgid pc)) (suser (pc_ucred pc) p) in
  if ztrue error then kret error else
  do! commit (p_cred pr) (with_gid0 egid) (fun pc => pc) in
  kret 0.

(** sys/kern/kern_prot.c:332-374, [osetreuid]: [-1] leaves an id alone. *)
Definition osetreuid (p : loc) (aruid aeuid : Z) : K cst Z :=
  let! pr := get_proc p in
  let! pc := get_pcred (p_cred pr) in
  let! u := get_ucred (pc_ucred pc) in
  let ruid := if aruid =? -1 then p_ruid pc else aruid in
  let! error := unless ((ruid =? p_ruid pc) || (ruid =? cr_uid u)) (suser (pc_ucred pc) p) in
  if ztrue error then kret error else
  let euid := if aeuid =? -1 then cr_uid u else aeuid in
  let! error := unless ((euid =? cr_uid u) || (euid =? p_ruid pc) || (euid =? p_svuid pc))
                  (suser (pc_ucred pc) p) in
  if ztrue error then kret error else
  do! commit (p_cred pr) (with_uid euid)
        (fun pc => Pcred (pc_ucred pc) ruid (p_svuid pc) (p_rgid pc) (p_svgid pc)) in
  kret 0.

(** sys/kern/kern_prot.c:376-415, [osetregid]. *)
Definition osetregid (p : loc) (argid aegid : Z) : K cst Z :=
  let! pr := get_proc p in
  let! pc := get_pcred (p_cred pr) in
  let! u := get_ucred (pc_ucred pc) in
  let rgid := if argid =? -1 then p_rgid pc else argid in
  let! error := unless ((rgid =? p_rgid pc) || (rgid =? groups0 u)) (suser (pc_ucred pc) p) in
  if ztrue error then kret error else
  let egid := if aegid =? -1 then groups0 u else aegid in
  let! error := unless ((egid =? groups0 u) || (egid =? p_rgid pc) || (egid =? p_svgid pc))
                  (suser (pc_ucred pc) p) in
  if ztrue error then kret error else
  do! commit (p_cred pr) (with_gid0 egid)
        (fun pc => Pcred (pc_ucred pc) (p_ruid pc) (p_svuid pc) rgid (p_svgid pc)) in
  kret 0.

(** sys/kern/kern_prot.c:418-447, [setgroups]: [ci] is what [copyin] delivers, an
    error number or the [ngrp] group ids read. *)
Definition setgroups (p : loc) (gidsetsize : Z) (ci : Z + list Z) : K cst Z :=
  let! pr := get_proc p in
  let! pc := get_pcred (p_cred pr) in
  let! error := suser (pc_ucred pc) p in
  if ztrue error then kret error else
  let ngrp := u32 gidsetsize in
  if (NGROUPS <? ngrp) || (ngrp <? 1) then kret EINVAL else
  match ci with
  | inl error => kret error
  | inr groups =>
    do! commit (p_cred pr)
      (fun u => with_groups (s16 ngrp)
                  (take (Z.to_nat ngrp) groups ++ drop (Z.to_nat ngrp) (cr_groups u)) u)
      (fun pc => pc) in
    kret 0
  end.

(** sys/kern/kern_fork.c:193-197, [fork1]: the child [p2] gets a private copy of
    the parent's [pcred] (at the fresh address [MALLOC] returns) and a hold on its
    [ucred]. *)
Definition fork_cred (p1 p2 : loc) (pid : Z) : K cst unit :=
  let! pr := get_proc p1 in
  let! pc := get_pcred (p_cred pr) in
  let! s := kget in
  let l := fresh (dom (pcreds s)) in
  do! kmod (upd_pcred l pc) in
  do! kmod (upd_proc p2 (Cproc l 0 pid (p_pid pr))) in
  crhold (pc_ucred pc).
