(* ===== verification/CredSafety.v ===== *)
(** * Credentials: sharing, isolation and privilege

    The invariant of the reference-counted credentials, that a set-id call of one
    process is invisible to every other, and that no sequence of calls lets an
    unprivileged process reach an id it did not start with. *)

From S2P Require Import Prelude Count Cred.
Local Open Scope kern_scope.

(** ** Counting references *)

Definition holds_cred (x : loc) (_ : loc) (pc : pcred) : bool := bool_decide (pc_ucred pc = x).

(** How many [pcred]s point at the [ucred] [x]. *)
Definition holders (m : gmap loc pcred) (x : loc) : Z := count (holds_cred x) m.

Lemma holders_insert_new m l pc x :
  m !! l = None -> holders (<[l := pc]> m) x = holders m x + ind (bool_decide (pc_ucred pc = x)).
Proof. apply (count_insert_new (holds_cred x)). Qed.

Lemma holders_insert m l pc pc' x :
  m !! l = Some pc ->
  holders (<[l := pc']> m) x =
    holders m x - ind (bool_decide (pc_ucred pc = x)) + ind (bool_decide (pc_ucred pc' = x)).
Proof. intros. by apply (count_insert (holds_cred x)). Qed.

Lemma holders_two m l1 l2 pc1 pc2 x :
  m !! l1 = Some pc1 -> m !! l2 = Some pc2 -> l1 <> l2 ->
  pc_ucred pc1 = x -> pc_ucred pc2 = x -> 2 <= holders m x.
Proof. intros H1 H2 Hne E1 E2. by eapply count_two; [exact H1|exact H2|..]; try apply bool_decide_true. Qed.

Lemma holders_one m l pc : m !! l = Some pc -> 1 <= holders m (pc_ucred pc).
Proof. intros H. eapply count_pos; [done|]. by apply bool_decide_true. Qed.

(** ** The invariant *)

(** A [ucred] pointed at exists, counts at least the [pcred]s that point at it
    (open files may add to the count), and has its 16 group slots. *)
Definition ucred_ok (s : cst) (l : loc) : Prop :=
  exists u, ucreds s !! l = Some u /\
    holders (pcreds s) l <= cr_ref u < 65536 /\ zlen (cr_groups u) = NGROUPS.

Record wf (s : cst) : Prop := Wf {
  wf_proc : forall p pr, procs s !! p = Some pr -> is_Some (pcreds s !! p_cred pr);
  wf_priv : forall p q pr qr, procs s !! p = Some pr -> procs s !! q = Some qr ->
              p_cred pr = p_cred qr -> p = q;
  wf_cred : forall l pc, pcreds s !! l = Some pc -> ucred_ok s (pc_ucred pc) }.

(** The identity of a process: what its credentials let it do. *)
Record ident := Ident {
  id_ruid : Z; id_svuid : Z; id_euid : Z;
  id_rgid : Z; id_svgid : Z; id_ngroups : Z; id_groups : list Z }.

Definition mk_ident (pc : pcred) (u : ucred) : ident :=
  Ident (p_ruid pc) (p_svuid pc) (cr_uid u) (p_rgid pc) (p_svgid pc)
    (cr_ngroups u) (cr_groups u).

Definition ident_of (s : cst) (p : loc) : option ident :=
  match procs s !! p with
  | Some pr =>
    match pcreds s !! p_cred pr with
    | Some pc =>
      match ucreds s !! pc_ucred pc with
      | Some u => Some (mk_ident pc u)
      | None => None
      end
    | None => None
    end
  | None => None
  end.

(** Everything about a process the calls read, at once. *)
Lemma wf_lookup s p pr :
  wf s -> procs s !! p = Some pr ->
  exists pc u, pcreds s !! p_cred pr = Some pc /\ ucreds s !! pc_ucred pc = Some u /\
    1 <= holders (pcreds s) (pc_ucred pc) <= cr_ref u /\ cr_ref u < 65536 /\
    zlen (cr_groups u) = NGROUPS.
Proof.
  intros Hwf Hp. destruct (wf_proc s Hwf _ _ Hp) as [pc Hpc].
  destruct (wf_cred s Hwf _ _ Hpc) as (u & Hu & Href & Hlen).
  pose proof (holders_one _ _ _ Hpc). exists pc, u. split_and!; try done; lia.
Qed.

Lemma holders_unused s n : wf s -> ucreds s !! n = None -> holders (pcreds s) n = 0.
Proof.
  intros Hwf Hn. apply count_zero. intros l pc Hl. apply bool_decide_eq_false_2. intros E.
  destruct (wf_cred s Hwf _ _ Hl) as (u & Hu & _). congruence.
Qed.

(** ** [crcopy] and [commit] *)

(** The private copy [crcopy] makes: the same credential with one reference; the
    old one is reused or loses one reference. *)
Lemma crcopy_spec s l u :
  ucreds s !! l = Some u -> 1 <= cr_ref u < 65536 ->
  exists n m, crcopy l s = Some (n, Cst (procs s) (pcreds s) m) /\
    m !! n = Some (with_ref u 1) /\
    ((n = l /\ cr_ref u = 1 /\ m = ucreds s)
     \/ (ucreds s !! n = None /\ 1 < cr_ref u /\
         m = <[n := with_ref u 1]> (<[l := with_ref u (cr_ref u - 1)]> (ucreds s)))).
Proof.
  intros Hu Href. unfold crcopy, get_ucred. kunf. rewrite Hu.
  destruct (Z.eqb_spec (cr_ref u) 1) as [E|E].
  - exists l, (ucreds s). split; [by destruct s|]. split; [|by left].
    rewrite Hu. destruct u; simpl in *; by subst.
  - unfold crget, crfree, get_ucred. kunf. simpl.
    set (n := fresh (dom (ucreds s))).
    assert (Hn : ucreds s !! n = None) by (apply not_elem_of_dom, is_fresh).
    assert (Hnl : n <> l) by congruence.
    rewrite insert_insert_eq, lookup_insert_ne, Hu by done.
    unfold ztrue. destruct (Z.eqb_spec (u16 (cr_ref u - 1)) 0); [mlia|].
    simpl. rewrite lookup_insert_ne, lookup_insert_eq by done. simpl.
    eexists n, _. split; [reflexivity|]. split; [apply lookup_insert_eq|].
    right. split; [done|]. split; [lia|].
    rewrite u16_id by mlia.
    simpl. map_ext.
Qed.

(** Keeps the reference count, so that it may be applied to the private copy. *)
Definition keeps_ref (fu : ucred -> ucred) : Prop :=
  forall u, cr_ref (fu u) = cr_ref u /\
    (zlen (cr_groups u) = NGROUPS -> zlen (cr_groups (fu u)) = NGROUPS).
Definition keeps_ptr (fp : pcred -> pcred) : Prop :=
  forall pc, pc_ucred (fp pc) = pc_ucred pc.

Definition repoint (pc : pcred) (n : loc) : pcred :=
  Pcred n (p_ruid pc) (p_svuid pc) (p_rgid pc) (p_svgid pc).

Lemma commit_spec s l pc u fu fp :
  pcreds s !! l = Some pc -> ucreds s !! pc_ucred pc = Some u -> 1 <= cr_ref u < 65536 ->
  exists n m, commit l fu fp s =
      Some (tt, Cst (procs s) (<[l := fp (repoint pc n)]> (pcreds s)) (<[n := fu (with_ref u 1)]> m)) /\
    ((n = pc_ucred pc /\ cr_ref u = 1 /\ m = ucreds s)
     \/ (ucreds s !! n = None /\ 1 < cr_ref u /\
         m = <[pc_ucred pc := with_ref u (cr_ref u - 1)]> (ucreds s))).
Proof.
  intros Hpc Hu Href. destruct (crcopy_spec s _ u Hu Href) as (n & m & Hc & Hm & Hcase).
  unfold commit, get_pcred, get_ucred. kunf. rewrite Hpc, Hc. simpl. rewrite Hm. simpl.
  rewrite lookup_insert_eq. unfold upd_ucred, upd_pcred. simpl. rewrite insert_insert_eq.
  destruct Hcase as [(-> & Hr & ->)|(Hn & Hr & ->)].
  - eexists _, (ucreds s). split; [reflexivity|]. by left.
  - eexists _, (<[pc_ucred pc := with_ref u (cr_ref u - 1)]> (ucreds s)).
    rewrite insert_insert_eq. split; [reflexivity|]. by right.
Qed.

(** A commit by the owner of [pcred] [l] keeps the invariant, gives the owner the
    updated identity and changes no other process's identity. *)
Section Commit.
Context (s : cst) (p : loc) (pr : cproc) (pc : pcred) (u : ucred).
Context (fu : ucred -> ucred) (fp : pcred -> pcred).
Hypothesis Hwf : wf s.
Hypothesis Hp : procs s !! p = Some pr.
Hypothesis Hpc : pcreds s !! p_cred pr = Some pc.
Hypothesis Hu : ucreds s !! pc_ucred pc = Some u.
Hypothesis Hfu : keeps_ref fu.
Hypothesis Hfp : keeps_ptr fp.

Lemma commit_wf :
  exists s' n, commit (p_cred pr) fu fp s = Some (tt, s') /\ wf s' /\ procs s' = procs s /\
    (forall q, q <> p -> ident_of s' q = ident_of s q) /\
    ident_of s' p = Some (mk_ident (fp (repoint pc n)) (fu (with_ref u 1))).
Proof.
  destruct (wf_lookup s p pr Hwf Hp) as (pc0 & u0 & E1 & E2 & Href & Hmax & Hlen).
  assert (pc0 = pc) as -> by congruence. assert (u0 = u) as -> by congruence.
  destruct (commit_spec s _ pc u fu fp Hpc Hu) as (n & m & Hc & Hcase); [lia|].
  assert (Hn : pc_ucred (fp (repoint pc n)) = n) by (by rewrite Hfp).
  exists (Cst (procs s) (<[p_cred pr := fp (repoint pc n)]> (pcreds s))
            (<[n := fu (with_ref u 1)]> m)), n.
  destruct (Hfu (with_ref u 1)) as [Hfr Hfl]. simpl in Hfr, Hfl.
  assert (Hh : forall x, holders (<[p_cred pr := fp (repoint pc n)]> (pcreds s)) x =
     holders (pcreds s) x - ind (bool_decide (pc_ucred pc = x)) + ind (bool_decide (n = x))).
  { intros x. rewrite (holders_insert _ _ pc) by done. by rewrite Hn. }
  assert (Hother : forall l' pc', l' <> p_cred pr -> pcreds s !! l' = Some pc' -> pc_ucred pc' <> n).
  { intros l' pc' Hne Hl' E. destruct Hcase as [(-> & Hr & _)|(Hfresh & _ & _)].
    - pose proof (holders_two _ _ _ _ _ (pc_ucred pc) Hl' Hpc Hne E eq_refl). lia.
    - destruct (wf_cred s Hwf _ _ Hl') as (u' & Hu' & _). congruence. }
  assert (Hm : forall x u', x <> n -> ucreds s !! x = Some u' ->
     exists r, m !! x = Some (with_ref u' r) /\
       cr_ref u' - ind (bool_decide (pc_ucred pc = x)) <= r <= cr_ref u').
  { intros x u' Hne Hx. destruct Hcase as [(-> & Hr & ->)|(Hfresh & _ & ->)].
    - exists (cr_ref u'). rewrite bool_decide_false by congruence. simpl. split; [|lia].
      rewrite Hx. by destruct u'.
    - destruct (decide (pc_ucred pc = x)) as [<-|E].
      + assert (u' = u) as -> by congruence. rewrite lookup_insert_eq, bool_decide_true by done.
        eexists. split; [done|]. simpl. lia.
      + rewrite lookup_insert_ne, bool_decide_false by done. exists (cr_ref u').
        simpl. split; [|lia]. rewrite Hx. by destruct u'. }
  split; [exact Hc|]. split; [|split; [done|split]].
  - constructor; simpl.
    + intros q qr Hq. destruct (wf_proc s Hwf _ _ Hq) as [x Hx].
      destruct (decide (p_cred qr = p_cred pr)) as [->|].
      * rewrite lookup_insert_eq. eauto.
      * rewrite lookup_insert_ne by done. eauto.
    + apply (wf_priv s Hwf).
    + intros l' pc' Hl'. unfold ucred_ok. simpl. rewrite Hh.
      destruct (decide (l' = p_cred pr)) as [->|Hne].
      * rewrite lookup_insert_eq in Hl'. simplify_eq. rewrite Hn.
        exists (fu (with_ref u 1)). rewrite lookup_insert_eq, Hfr. split; [done|].
        split; [|by apply Hfl]. split; [|lia]. rewrite (bool_decide_true (n = n)) by done.
        destruct Hcase as [(-> & Hr & _)|(Hfresh & _ & _)].
        -- rewrite bool_decide_true by done. simpl. lia.
        -- rewrite (holders_unused s n) by done. rewrite bool_decide_false by congruence. simpl. lia.
      * rewrite lookup_insert_ne in Hl' by done. pose proof (Hother _ _ Hne Hl') as Hx.
        destruct (wf_cred s Hwf _ _ Hl') as (u' & Hu' & Href' & Hlen').
        destruct (Hm _ _ Hx Hu') as (r & Hr & Hbound). rewrite lookup_insert_ne by congruence.
        exists (with_ref u' r). split; [done|]. split; [|done]. simpl.
        rewrite (bool_decide_false (n = _)) by congruence. simpl. lia.
  - intros q Hq. unfold ident_of. simpl. destruct (procs s !! q) as [qr|] eqn:Eq; [|done].
    assert (Hne : p_cred qr <> p_cred pr).
    { intros E. apply Hq. by eapply (wf_priv s Hwf). }
    rewrite lookup_insert_ne by congruence.
    destruct (pcreds s !! p_cred qr) as [qc|] eqn:Ec; [|done].
    pose proof (Hother _ _ Hne Ec) as Hx. rewrite lookup_insert_ne by congruence.
    destruct (wf_cred s Hwf _ _ Ec) as (u' & Hu' & _). rewrite Hu'.
    destruct (Hm _ _ Hx Hu') as (r & -> & _). done.
  - unfold ident_of. simpl. rewrite Hp, lookup_insert_eq, Hn, lookup_insert_eq. done.
Qed.
End Commit.

(** ** [suser] *)

(** The states that differ at most in accounting flags. *)
Definition flags_only (s s1 : cst) : Prop :=
  pcreds s1 = pcreds s /\ ucreds s1 = ucreds s /\
  forall q, p_cred <$> procs s1 !! q = p_cred <$> procs s !! q.

Lemma flags_only_refl s : flags_only s s.
Proof. done. Qed.

Lemma flags_only_trans s1 s2 s3 : flags_only s1 s2 -> flags_only s2 s3 -> flags_only s1 s3.
Proof.
  intros (? & ? & H1) (? & ? & H2). split; [congruence|]. split; [congruence|].
  intros q. by rewrite H2.
Qed.

Lemma flags_only_proc s s1 p pr :
  flags_only s s1 -> procs s !! p = Some pr ->
  exists pr1, procs s1 !! p = Some pr1 /\ p_cred pr1 = p_cred pr.
Proof.
  intros (_ & _ & H) Hp. specialize (H p). rewrite Hp in H.
  destruct (procs s1 !! p) as [pr1|]; simplify_eq/=; eauto.
Qed.

Lemma flags_only_ident s s1 q : flags_only s s1 -> ident_of s1 q = ident_of s q.
Proof.
  intros (Hp & Hu & H). specialize (H q). unfold ident_of. rewrite Hp, Hu.
  destruct (procs s1 !! q), (procs s !! q); simplify_eq/=; [|done].
  by match goal with E : p_cred _ = p_cred _ |- _ => rewrite E end.
Qed.

Lemma flags_only_wf s s1 : flags_only s s1 -> wf s -> wf s1.
Proof.
  intros (Hp & Hu & H) Hwf.
  assert (Hq : forall q qr, procs s1 !! q = Some qr ->
             exists qr0, procs s !! q = Some qr0 /\ p_cred qr0 = p_cred qr).
  { intros q qr Hq. specialize (H q). rewrite Hq in H.
    destruct (procs s !! q); simplify_eq/=; eauto. }
  constructor.
  - intros q qr (qr0 & Hq0 & E)%Hq. rewrite Hp, <- E. by eapply (wf_proc s Hwf).
  - intros q1 q2 r1 r2 (a & Ha & <-)%Hq (b & Hb & <-)%Hq. by eapply (wf_priv s Hwf).
  - intros l pc Hl. unfold ucred_ok. rewrite Hp, Hu in *. by apply (wf_cred s Hwf l).
Qed.

Lemma unless_suser s p pr pc u c :
  procs s !! p = Some pr -> pcreds s !! p_cred pr = Some pc -> ucreds s !! pc_ucred pc = Some u ->
  exists s1, unless c (suser (pc_ucred pc) p) s =
      Some ((if c || (cr_uid u =? 0) then 0 else EPERM), s1) /\ flags_only s s1.
Proof.
  intros Hp Hpc Hu. unfold unless, suser, get_ucred, get_proc. kunf.
  destruct c; simpl; [eauto using flags_only_refl|]. rewrite Hu.
  destruct (cr_uid u =? 0); [|eauto using flags_only_refl].
  rewrite Hp. simpl. eexists. split; [reflexivity|]. split; [done|]. split; [done|]. simpl.
  intros q. destruct (decide (q = p)) as [->|].
  - by rewrite lookup_insert_eq, Hp.
  - by rewrite lookup_insert_ne.
Qed.

(** ** The specification on identities *)

Inductive cred_call :=
| Setuid (uid : Z)
| Seteuid (euid : Z)
| Setgid (gid : Z)
| Setegid (egid : Z)
| Osetreuid (ruid euid : Z)
| Osetregid (rgid egid : Z)
| Setgroups (n : Z) (ci : Z + list Z).

Definition do_call (p : loc) (c : cred_call) : K cst Z :=
  match c with
  | Setuid u => setuid p u
  | Seteuid u => seteuid p u
  | Setgid g => setgid p g
  | Setegid g => setegid p g
  | Osetreuid r e => osetreuid p r e
  | Osetregid r e => osetregid p r e
  | Setgroups n ci => setgroups p n ci
  end.

Definition id_root (i : ident) : bool := id_euid i =? 0.
Definition id_egid (i : ident) : Z := default 0 (znth (id_groups i) 0).
Definition keep (i : Z) (old : Z) : Z := if i =? -1 then old else i.

Definition with_uids (i : ident) (r sv e : Z) : ident :=
  Ident r sv e (id_rgid i) (id_svgid i) (id_ngroups i) (id_groups i).
Definition with_gids (i : ident) (r sv e : Z) : ident :=
  Ident (id_ruid i) (id_svuid i) (id_euid i) r sv (id_ngroups i) (zset (id_groups i) 0 e).

(** What each call is to do to the caller's identity. *)
Definition spec_call (c : cred_call) (i : ident) : Z * ident :=
  let allow (b : bool) (i' : ident) := if b || id_root i then (0, i') else (EPERM, i) in
  match c with
  | Setuid u => allow (u =? id_ruid i) (with_uids i u u u)
  | Seteuid e => allow ((e =? id_ruid i) || (e =? id_svuid i))
                   (with_uids i (id_ruid i) (id_svuid i) e)
  | Setgid g => allow (g =? id_rgid i) (with_gids i g g g)
  | Setegid e => allow ((e =? id_rgid i) || (e =? id_svgid i))
                   (with_gids i (id_rgid i) (id_svgid i) e)
  | Osetreuid ar ae =>
      let r := keep ar (id_ruid i) in
      let e := keep ae (id_euid i) in
      allow (((r =? id_ruid i) || (r =? id_euid i)) &&
             ((e =? id_euid i) || (e =? id_ruid i) || (e =? id_svuid i)))
        (with_uids i r (id_svuid i) e)
  | Osetregid ar ae =>
      let r := keep ar (id_rgid i) in
      let e := keep ae (id_egid i) in
      allow (((r =? id_rgid i) || (r =? id_egid i)) &&
             ((e =? id_egid i) || (e =? id_rgid i) || (e =? id_svgid i)))
        (with_gids i r (id_svgid i) e)
  | Setgroups n ci =>
      if negb (id_root i) then (EPERM, i) else
      if (NGROUPS <? u32 n) || (u32 n <? 1) then (EINVAL, i) else
      match ci with
      | inl e => (e, i)
      | inr gs => (0, Ident (id_ruid i) (id_svuid i) (id_euid i) (id_rgid i) (id_svgid i) (u32 n)
                        (take (Z.to_nat (u32 n)) gs ++ drop (Z.to_nat (u32 n)) (id_groups i)))
      end
  end.

(** [copyin] delivers an error number or the whole array asked for. *)
Definition call_ok (c : cred_call) : Prop :=
  match c with
  | Setgroups n (inl e) => e <> 0
  | Setgroups n (inr gs) => zlen gs = u32 n
  | _ => True
  end.

(** Outcome of a routine run for process [p]: the identity the specification
    gives, the invariant kept, everybody else's identity unchanged. *)
Definition refines (s : cst) (p : loc) (r : option (Z * cst)) (spec : Z * ident) : Prop :=
  exists s', r = Some (fst spec, s') /\ wf s' /\ ident_of s' p = Some (snd spec) /\
    (forall q, q <> p -> ident_of s' q = ident_of s q) /\
    (forall q, is_Some (procs s' !! q) <-> is_Some (procs s !! q)).

Lemma refines_flags s s1 p pr pc u e :
  wf s -> procs s !! p = Some pr -> pcreds s !! p_cred pr = Some pc ->
  ucreds s !! pc_ucred pc = Some u -> flags_only s s1 ->
  refines s p (kret e s1) (e, mk_ident pc u).
Proof.
  intros Hwf Hp Hpc Hu Hf. exists s1. split; [done|]. split; [by eapply flags_only_wf|].
  assert (Hall : forall q, ident_of s1 q = ident_of s q) by (intros; by apply flags_only_ident).
  split; [|split; [auto|]].
  - simpl. rewrite Hall. unfold ident_of. by rewrite Hp, Hpc, Hu.
  - intros q. destruct Hf as (_ & _ & Hq). specialize (Hq q).
    destruct (procs s1 !! q), (procs s !! q); simplify_eq/=; split; eauto.
Qed.

Lemma refines_commit s s1 p pr pc u fu fp i :
  wf s -> procs s !! p = Some pr -> pcreds s !! p_cred pr = Some pc ->
  ucreds s !! pc_ucred pc = Some u -> flags_only s s1 -> keeps_ref fu -> keeps_ptr fp ->
  (forall n, mk_ident (fp (repoint pc n)) (fu (with_ref u 1)) = i) ->
  refines s p ((do! commit (p_cred pr) fu fp in kret 0) s1) (0, i).
Proof.
  intros Hwf Hp Hpc Hu Hf Hfu Hfp Hi.
  destruct (flags_only_proc _ _ _ _ Hf Hp) as (pr1 & Hp1 & Ecr).
  destruct Hf as (Epc & Eu & Hq).
  destruct (commit_wf s1 p pr1 pc u fu fp) as (s' & n & Hc & Hwf' & Hpr & Hoth & Hme); try done.
  - by apply (flags_only_wf s).
  - congruence.
  - congruence.
  - exists s'. unfold kbind. rewrite <- Ecr, Hc. split; [done|]. split; [done|].
    rewrite Hme, Hi. split; [done|]. split.
    + intros q Hne. rewrite Hoth by done. by apply flags_only_ident.
    + intros q. rewrite Hpr. specialize (Hq q).
      destruct (procs s1 !! q), (procs s !! q); simplify_eq/=; split; eauto.
Qed.

(** ** The calls implement the specification *)

Lemma keep_eq ar old : (if ar =? -1 then old else ar) = keep ar old.
Proof. done. Qed.

Section Calls.
Context (s : cst) (p : loc) (pr : cproc) (pc : pcred) (u : ucred).
Hypothesis Hwf : wf s.
Hypothesis Hp : procs s !! p = Some pr.
Hypothesis Hpc : pcreds s !! p_cred pr = Some pc.
Hypothesis Hu : ucreds s !! pc_ucred pc = Some u.

(** The three lookups every call starts with. *)
Lemma call_start {A} (k : cproc -> pcred -> K cst A) :
  kbind (get_proc p) (fun pr => kbind (get_pcred (p_cred pr)) (fun pc => k pr pc)) s = k pr pc s.
Proof. unfold get_proc, get_pcred. kunf. by rewrite Hp, Hpc. Qed.

Lemma call_ucred {A} s1 (k : ucred -> K cst A) :
  flags_only s s1 -> kbind (get_ucred (pc_ucred pc)) k s1 = k u s1.
Proof. intros (_ & E & _). unfold get_ucred. kunf. by rewrite E, Hu. Qed.

(** A permission test, from any state reached by earlier tests. *)
Lemma call_suser {A} s1 c (k : Z -> K cst A) (P : option (A * cst) -> Prop) :
  flags_only s s1 ->
  (forall s2, flags_only s s2 -> P (k (if c || (cr_uid u =? 0) then 0 else EPERM) s2)) ->
  P (kbind (unless c (suser (pc_ucred pc) p)) k s1).
Proof.
  intros Hf Hk. destruct (flags_only_proc _ _ _ _ Hf Hp) as (pr1 & Hp1 & E).
  destruct Hf as (Epc & Eu & Eq).
  destruct (unless_suser s1 p pr1 pc u c) as (s2 & H2 & Hf2); [done|congruence|congruence|].
  unfold kbind. rewrite H2. apply Hk. eapply flags_only_trans; [|exact Hf2]. done.
Qed.

Lemma setuid_refines uid : refines s p (setuid p uid s) (spec_call (Setuid uid) (mk_ident pc u)).
Proof.
  unfold setuid. rewrite call_start. apply call_suser; [done|]. intros s2 Hf. simpl.
  unfold id_root. simpl. destruct (_ || _); simpl; [|by eapply refines_flags].
  by eapply refines_commit.
Qed.

Lemma seteuid_refines e : refines s p (seteuid p e s) (spec_call (Seteuid e) (mk_ident pc u)).
Proof.
  unfold seteuid. rewrite call_start. apply call_suser; [done|]. intros s2 Hf. simpl.
  unfold id_root. simpl. destruct (_ || (cr_uid u =? 0)); simpl; [|by eapply refines_flags].
  by eapply refines_commit.
Qed.

Lemma with_gid0_keeps g : keeps_ref (with_gid0 g).
Proof. intros v. split; [done|]. simpl. by rewrite zlen_zset. Qed.

Lemma setgid_refines g : refines s p (setgid p g s) (spec_call (Setgid g) (mk_ident pc u)).
Proof.
  unfold setgid. rewrite call_start. apply call_suser; [done|]. intros s2 Hf. simpl.
  unfold id_root. simpl. destruct (_ || _); simpl; [|by eapply refines_flags].
  by eapply refines_commit; [..|apply with_gid0_keeps| |].
Qed.

Lemma setegid_refines e : refines s p (setegid p e s) (spec_call (Setegid e) (mk_ident pc u)).
Proof.
  unfold setegid. rewrite call_start. apply call_suser; [done|]. intros s2 Hf. simpl.
  unfold id_root. simpl. destruct (_ || (cr_uid u =? 0)); simpl; [|by eapply refines_flags].
  by eapply refines_commit; [..|apply with_gid0_keeps| |].
Qed.

(** Two permission tests in a row fail if either does. *)
Lemma two_tests (a b r : bool) :
  (if a || r then 0 else EPERM) = 0 -> (if b || r then 0 else EPERM) = 0 -> a && b || r = true.
Proof. by destruct a, b, r. Qed.

Lemma osetreuid_refines ar ae :
  refines s p (osetreuid p ar ae s) (spec_call (Osetreuid ar ae) (mk_ident pc u)).
Proof.
  unfold osetreuid. rewrite call_start, call_ucred by done. rewrite !keep_eq.
  apply call_suser; [done|]. intros s2 Hf. simpl. unfold id_root. simpl.
  destruct (_ || (keep ar (p_ruid pc) =? cr_uid u)); destruct (cr_uid u =? 0) eqn:Hr; simpl;
    try by eapply refines_flags.
  all: apply call_suser; [done|]; intros s3 Hf3; simpl; rewrite Hr.
  all: try destruct (_ || (keep ae (cr_uid u) =? p_svuid pc)); simpl;
    first [by eapply refines_commit | by eapply refines_flags].
Qed.

Lemma osetregid_refines ar ae :
  refines s p (osetregid p ar ae s) (spec_call (Osetregid ar ae) (mk_ident pc u)).
Proof.
  unfold osetregid. rewrite call_start, call_ucred by done. rewrite !keep_eq.
  apply call_suser; [done|]. intros s2 Hf. simpl. unfold id_root, id_egid. simpl.
  fold (groups0 u).
  destruct (_ || (keep ar (p_rgid pc) =? groups0 u)); destruct (cr_uid u =? 0) eqn:Hr; simpl;
    try by eapply refines_flags.
  all: apply call_suser; [done|]; intros s3 Hf3; simpl; rewrite Hr.
  all: try destruct (_ || (keep ae (groups0 u) =? p_svgid pc)); simpl;
    first [by eapply refines_commit; [..|apply with_gid0_keeps| |] | by eapply refines_flags].
Qed.

Lemma setgroups_refines n ci :
  call_ok (Setgroups n ci) -> zlen (cr_groups u) = NGROUPS ->
  refines s p (setgroups p n ci s) (spec_call (Setgroups n ci) (mk_ident pc u)).
Proof.
  intros Hok Hlen. unfold setgroups. rewrite call_start.
  change (suser (pc_ucred pc) p) with (unless false (suser (pc_ucred pc) p)).
  apply call_suser; [done|]. intros s2 Hf. simpl. unfold id_root. simpl.
  destruct (cr_uid u =? 0); simpl; [|by eapply refines_flags].
  pose proof (u32_range n) as Hn. unfold is_u32 in Hn.
  destruct ((NGROUPS <? u32 n) || (u32 n <? 1)) eqn:Hb; simpl; [by eapply refines_flags|].
  bool_hyps. unfold NGROUPS in *. destruct ci as [e|gs]; [by eapply refines_flags|].
  eapply refines_commit; try done.
  - intros v. split; [done|]. simpl. simpl in Hok. unfold zlen in *.
    rewrite length_app, length_take, length_drop. unfold NGROUPS. intros. lia.
  - intros. unfold mk_ident. simpl. f_equal. mlia.
Qed.

Lemma call_refines c :
  call_ok c -> zlen (cr_groups u) = NGROUPS ->
  refines s p (do_call p c s) (spec_call c (mk_ident pc u)).
Proof.
  intros Hok Hlen. destruct c; simpl do_call.
  - apply setuid_refines.
  - apply seteuid_refines.
  - apply setgid_refines.
  - apply setegid_refines.
  - apply osetreuid_refines.
  - apply osetregid_refines.
  - by apply setgroups_refines.
Qed.
End Calls.

(** ** Sequences of calls *)

Definition uid_set (i : ident) (x : Z) : Prop := x = id_ruid i \/ x = id_svuid i \/ x = id_euid i.

(** All three user ids of [j] are ids of [i]. *)
Definition uids_within (i j : ident) : Prop :=
  uid_set i (id_ruid j) /\ uid_set i (id_svuid j) /\ uid_set i (id_euid j).

Definition unprivileged (i : ident) : Prop :=
  id_ruid i <> 0 /\ id_svuid i <> 0 /\ id_euid i <> 0.

(** An unprivileged caller only permutes its own uids. *)
Lemma spec_uids_within c i : id_euid i <> 0 -> uids_within i (snd (spec_call c i)).
Proof.
  intros Hne. unfold uids_within, uid_set.
  assert (Hr : id_root i = false) by (unfold id_root; by apply Z.eqb_neq).
  destruct c; simpl; rewrite Hr, ?orb_false_r; simpl; unfold keep;
    repeat (case_match; simpl; try solve [tauto]); bool_hyps;
    repeat match goal with
    | H : (_ || _) = true |- _ => apply orb_true_iff in H; destruct H
    | H : (_ =? _) = true |- _ => apply Z.eqb_eq in H
    end; intuition congruence.
Qed.

Lemma uids_within_trans i j k : uids_within i j -> uids_within j k -> uids_within i k.
Proof.
  unfold uids_within, uid_set. intros (H1 & H2 & H3) (K1 & K2 & K3).
  destruct K1 as [-> | [-> | ->]], K2 as [-> | [-> | ->]], K3 as [-> | [-> | ->]]; tauto.
Qed.

Lemma unprivileged_within i j : unprivileged i -> uids_within i j -> unprivileged j.
Proof. unfold unprivileged, uids_within, uid_set. intuition congruence. Qed.

(** A history: calls made by arbitrary processes in order, with their results. *)
Fixpoint run_calls (h : list (loc * cred_call)) : K cst (list Z) :=
  match h with
  | [] => kret []
  | (q, c) :: h' =>
      let! e := do_call q c in
      let! es := run_calls h' in
      kret (e :: es)
  end.

Definition history_ok (s : cst) (h : list (loc * cred_call)) : Prop :=
  Forall (fun qc => is_Some (procs s !! qc.1) /\ call_ok qc.2) h.

Lemma wf_ident s p : wf s -> is_Some (procs s !! p) ->
  exists pr pc u, procs s !! p = Some pr /\ pcreds s !! p_cred pr = Some pc /\
    ucreds s !! pc_ucred pc = Some u /\ zlen (cr_groups u) = NGROUPS /\
    ident_of s p = Some (mk_ident pc u).
Proof.
  intros Hwf [pr Hp]. destruct (wf_lookup s p pr Hwf Hp) as (pc & u & Hpc & Hu & _ & _ & Hl).
  exists pr, pc, u. split_and!; try done. unfold ident_of. by rewrite Hp, Hpc, Hu.
Qed.

Lemma do_call_refines s q c :
  wf s -> is_Some (procs s !! q) -> call_ok c ->
  exists i, ident_of s q = Some i /\ refines s q (do_call q c s) (spec_call c i).
Proof.
  intros Hwf Hq Hok. destruct (wf_ident s q Hwf Hq) as (pr & pc & u & Hp & Hpc & Hu & Hl & Hi).
  exists (mk_ident pc u). split; [done|]. by eapply call_refines.
Qed.

Lemma run_calls_within s p i h :
  wf s -> ident_of s p = Some i -> unprivileged i -> history_ok s h ->
  exists es s' j, run_calls h s = Some (es, s') /\ wf s' /\ ident_of s' p = Some j /\ uids_within i j.
Proof.
  revert s i. induction h as [|[q c] h IH]; intros s i Hwf Hi Hun Hh.
  - exists [], s, i. split_and!; try done. unfold uids_within, uid_set. tauto.
  - inversion Hh as [|? ? [Hq Hok] Hrest]; subst. simpl in *.
    destruct (do_call_refines s q c Hwf Hq Hok) as (iq & Hiq & s' & Hs & Hwf' & Hme & Hoth & Hpr).
    assert (exists j, ident_of s' p = Some j /\ uids_within i j) as (j & Hj & Hw).
    { destruct (decide (p = q)) as [->|Hne].
      - assert (iq = i) as -> by congruence. exists (snd (spec_call c i)). split; [done|].
        apply spec_uids_within. by destruct Hun as (_ & _ & ?).
      - exists i. rewrite Hoth by done. split; [done|]. unfold uids_within, uid_set. tauto. }
    destruct (IH s' j) as (es & s2 & k & Hr & Hwf2 & Hk & Hwk); try done.
    + by eapply unprivileged_within.
    + eapply Forall_impl; [exact Hrest|]. intros [q' c'] [Hq' Hc']. split; [by apply Hpr|done].
    + exists (fst (spec_call c iq) :: es), s2, k. split; [|split; [done|split; [done|]]].
      * unfold kbind, kret. by rewrite Hs, Hr.
      * by eapply uids_within_trans.
Qed.

(** *** Properties *)

(** C17. Every set-id call, run on the shared reference-counted credentials,
    implements its specification on identities: it returns the specified error
    number, gives the caller exactly the specified identity, keeps the reference-count
    invariant, and leaves the identity of every other process (which may share the
    credential) unchanged. *)
Theorem cred_call_refines s p c :
  wf s -> is_Some (procs s !! p) -> call_ok c ->
  exists i, ident_of s p = Some i /\ refines s p (do_call p c s) (spec_call c i).
Proof. by apply do_call_refines. Qed.

(** C18. No escalation: starting from a process whose real, saved and effective user
    ids are all non-zero, after any history of set-id calls by any processes
    (privileged ones included) its three user ids are still among the original three,
    so none of them is root. *)
Theorem no_uid_escalation s p i h :
  wf s -> ident_of s p = Some i -> unprivileged i -> history_ok s h ->
  exists es s' j, run_calls h s = Some (es, s') /\ wf s' /\ ident_of s' p = Some j /\
    uids_within i j /\ unprivileged j.
Proof.
  intros Hwf Hi Hun Hh. destruct (run_calls_within s p i h) as (es & s' & j & ? & ? & ? & ?); [done..|].
  exists es, s', j. split_and!; try done. all: by eapply unprivileged_within.
Qed.

(** Fork gives the child the parent's identity through a private [pcred] and one
    more reference on the shared [ucred], keeping the invariant, as long as the
    16-bit reference count does not wrap. *)
Theorem fork_cred_shares s p1 p2 pid i :
  wf s -> ident_of s p1 = Some i -> procs s !! p2 = None ->
  (forall l u, ucreds s !! l = Some u -> cr_ref u < 65535) ->
  exists s', fork_cred p1 p2 pid s = Some (tt, s') /\ wf s' /\
    ident_of s' p2 = Some i /\ (forall q, q <> p2 -> ident_of s' q = ident_of s q).
Proof.
  intros Hwf Hi Hp2 Hmax. unfold ident_of in Hi.
  destruct (procs s !! p1) as [pr|] eqn:Hp; [|done].
  destruct (pcreds s !! p_cred pr) as [pc|] eqn:Hpc; [|done].
  destruct (ucreds s !! pc_ucred pc) as [u|] eqn:Hu; [|done].
  specialize (Hmax _ _ Hu).
  destruct (wf_cred s Hwf _ _ Hpc) as (u0 & Hu0 & Href & Hlen). assert (u0 = u) as -> by congruence.
  pose proof (holders_one _ _ _ Hpc) as Hone.
  set (l := fresh (dom (pcreds s))).
  assert (Hl : pcreds s !! l = None) by (apply not_elem_of_dom, is_fresh).
  exists (Cst (<[p2 := Cproc l 0 pid (p_pid pr)]> (procs s)) (<[l := pc]> (pcreds s))
            (<[pc_ucred pc := with_ref u (cr_ref u + 1)]> (ucreds s))).
  split; [|split; [|split]].
  - unfold fork_cred, crhold, get_proc, get_pcred, get_ucred. kunf. rewrite Hp, Hpc. simpl.
    rewrite Hu, u16_id by mlia. done.
  - constructor; simpl.
    + intros q qr. rewrite lookup_insert. case_decide; intros Hq; simplify_eq/=.
      * rewrite lookup_insert_eq. eauto.
      * destruct (wf_proc s Hwf _ _ Hq) as [x Hx].
        rewrite lookup_insert_ne by congruence. eauto.
    + intros q1 q2 r1 r2 H1 H2 E. apply lookup_insert_Some in H1, H2.
      destruct H1 as [[<- <-]|[Hn1 H1]], H2 as [[<- <-]|[Hn2 H2]]; simpl in *; try done.
      * destruct (wf_proc s Hwf _ _ H2). congruence.
      * destruct (wf_proc s Hwf _ _ H1). congruence.
      * by eapply (wf_priv s Hwf).
    + intros l' pc' Hl'. unfold ucred_ok. simpl. rewrite holders_insert_new by done.
      assert (Hcr : ucred_ok s (pc_ucred pc')).
      { apply lookup_insert_Some in Hl' as [[_ <-]|[_ Hl']]; by eapply (wf_cred s Hwf). }
      destruct Hcr as (u' & Hu' & Hr' & Hlen'). rewrite lookup_insert.
      case_decide as E; [rewrite <- E in *|]; simplify_eq.
      * eexists. split; [done|]. simpl. rewrite bool_decide_true by done. simpl. split; [lia|done].
      * exists u'. split; [done|]. rewrite bool_decide_false by done. simpl. split; [lia|done].
  - unfold ident_of. simpl. rewrite lookup_insert_eq. simpl. rewrite lookup_insert_eq.
    rewrite lookup_insert_eq. done.
  - intros q Hq. unfold ident_of. simpl. rewrite lookup_insert_ne by done.
    destruct (procs s !! q) as [qr|] eqn:Eq; [|done].
    destruct (wf_proc s Hwf _ _ Eq) as [qc Hqc]. rewrite lookup_insert_ne by congruence.
    rewrite Hqc, lookup_insert. case_decide as E; [|done]. rewrite <- E, Hu. done.
Qed.

(** [getgroups] returns what a successful [setgroups] stored. *)
Theorem setgroups_getgroups s p n gs i :
  wf s -> ident_of s p = Some i -> id_euid i = 0 -> 1 <= n <= NGROUPS -> zlen gs = n ->
  exists s', setgroups p n (inr gs) s = Some (0, s') /\ getgroups p n 0 s' = Some (0, n, gs, s').
Proof.
  intros Hwf Hi Hroot Hn Hlen. unfold NGROUPS in Hn.
  assert (En : u32 n = n) by mlia.
  assert (Hq : is_Some (procs s !! p)).
  { unfold ident_of in Hi. destruct (procs s !! p); [eauto|done]. }
  destruct (do_call_refines s p (Setgroups n (inr gs)) Hwf Hq) as (i' & Hi' & s' & Hs & Hwf' & Hme & _);
    [by simpl; rewrite En|].
  assert (i' = i) as -> by congruence. simpl in Hs, Hme.
  assert (Hbad : (NGROUPS <? u32 n) || (u32 n <? 1) = false).
  { rewrite En. unfold NGROUPS. apply orb_false_iff. split; apply Z.ltb_ge; lia. }
  unfold id_root in *. rewrite Hroot in *. simpl in Hs, Hme. rewrite Hbad in *. simpl in Hs, Hme.
  rewrite En in *. exists s'. split; [done|]. unfold ident_of in Hme.
  destruct (procs s' !! p) as [pr|] eqn:Hp; [|done].
  destruct (pcreds s' !! p_cred pr) as [pc|] eqn:Hpc; [|done].
  destruct (ucreds s' !! pc_ucred pc) as [u|] eqn:Hu; [|done].
  unfold mk_ident in Hme. injection Hme as _ _ _ _ _ Hng Hgs.
  unfold getgroups, get_proc, get_pcred, get_ucred. kunf. rewrite Hp, Hpc, Hu, Hng, En.
  destruct (Z.eqb_spec n 0); [lia|]. destruct (Z.ltb_spec n n); [lia|]. simpl.
  rewrite Hgs. repeat f_equal. unfold zlen in *.
  rewrite take_app_le by (rewrite length_take; lia). rewrite take_take.
  apply take_ge. lia.
Qed.

(** ** Concrete instances *)

(** Two processes of user 100 sharing one credential, and a root shell. *)
Definition demo : cst :=
  let u := Ucred 2 100 1 (20 :: replicate 15 0) in
  let r := Ucred 1 0 1 (replicate 16 0) in
  Cst (<[1%positive := Cproc 1 0 10 1]> (<[2%positive := Cproc 2 0 11 10]>
        (<[3%positive := Cproc 3 0 12 1]> ∅)))
      (<[1%positive := Pcred 1 100 100 20 20]> (<[2%positive := Pcred 1 100 100 20 20]>
        (<[3%positive := Pcred 2 0 0 0 0]> ∅)))
      (<[1%positive := u]> (<[2%positive := r]> ∅)).

Lemma demo_wf : wf demo.
Proof.
  constructor; simpl; intros; map_cases; try done.
  all: eexists; (split; [reflexivity|]); vm_compute; intuition congruence.
Qed.

Lemma cred_call_refines_witness :
  exists i, ident_of demo 1 = Some i /\
    refines demo 1 (do_call 1 (Setuid 0) demo) (spec_call (Setuid 0) i).
Proof. apply cred_call_refines; [exact demo_wf|vm_compute; eauto|exact I]. Defined.

Lemma no_uid_escalation_witness :
  exists es s' j,
    run_calls [(2%positive, Seteuid 100); (3%positive, Setuid 7); (1%positive, Setuid 0)] demo
      = Some (es, s') /\
    wf s' /\ ident_of s' 1 = Some j /\
    uids_within (Ident 100 100 100 20 20 1 (20 :: replicate 15 0)) j /\ unprivileged j.
Proof.
  apply no_uid_escalation.
  - exact demo_wf.
  - reflexivity.
  - repeat split; done.
  - repeat constructor; vm_compute; eauto.
Defined.

Lemma fork_cred_shares_witness :
  exists s', fork_cred 1 4 13 demo = Some (tt, s') /\ wf s' /\
    ident_of s' 4 = Some (Ident 100 100 100 20 20 1 (20 :: replicate 15 0)) /\
    (forall q, q <> 4%positive -> ident_of s' q = ident_of demo q).
Proof.
  apply fork_cred_shares.
  - exact demo_wf.
  - reflexivity.
  - reflexivity.
  - simpl. intros l u H. map_cases; lia.
Defined.

Lemma setgroups_getgroups_witness :
  exists s', setgroups 3 2 (inr [5; 6]) demo = Some (0, s') /\
    getgroups 3 2 0 s' = Some (0, 2, [5; 6], s').
Proof.
  apply (setgroups_getgroups demo 3 2 [5; 6] (Ident 0 0 0 0 0 1 (replicate 16 0))).
  - exact demo_wf.
  - reflexivity.
  - reflexivity.
  - unfold NGROUPS. lia.
  - reflexivity.
Defined.
