(* ===== verification/Timers.v ===== *)
(** * Time of day and interval timers (sys/kern/kern_time.c)

    The clock interrupt and the callout queue (sys/kern/kern_clock.c) are
    distributed as objects only: the queue is the parameter [Callout], whose laws
    are those of [timeout(9)]; [hzto] and [psignal] likewise. *)

From S2P Require Import Prelude Cred.
Local Open Scope kern_scope.

(** ** Times *)

(** sys/sys/time.h:55-58, [struct timeval]. *)
Record timeval := TV { tv_sec : Z; tv_usec : Z }.

(** sys/sys/time.h:79-79, [timerisset]. *)
Definition timerisset (t : timeval) : bool := ztrue (tv_sec t) || ztrue (tv_usec t).

(** sys/sys/time.h:80-82, [timercmp] with [cmp] one of [<] and [>]. *)
Definition timercmp (t u : timeval) (cmp : Z -> Z -> bool) : bool :=
  cmp (tv_sec t) (tv_sec u) || ((tv_sec t =? tv_sec u) && cmp (tv_usec t) (tv_usec u)).

Definition tvzero : timeval := TV 0 0.

(** sys/sys/time.h:93-96, [struct itimerval]. *)
Record itimerval := IT { it_interval : timeval; it_value : timeval }.

(** sys/kern/kern_time.c:365-377, [timevalfix]. *)
Definition timevalfix (t : timeval) : timeval :=
  let t := if tv_usec t <? 0 then TV (s32 (tv_sec t - 1)) (tv_usec t + 1000000) else t in
  if 1000000 <=? tv_usec t then TV (s32 (tv_sec t + 1)) (tv_usec t - 1000000) else t.

(** sys/kern/kern_time.c:340-354, [timevaladd]. *)
Definition timevaladd (t1 t2 : timeval) : timeval :=
  timevalfix (TV (s32 (tv_sec t1 + tv_sec t2)) (s32 (tv_usec t1 + tv_usec t2))).

(** sys/kern/kern_time.c:356-363, [timevalsub]. *)
Definition timevalsub (t1 t2 : timeval) : timeval :=
  timevalfix (TV (s32 (tv_sec t1 - tv_sec t2)) (s32 (tv_usec t1 - tv_usec t2))).

(** sys/kern/kern_time.c:280-296, [itimerfix]: an error, or the value rounded up
    to the clock resolution [tick]. *)
Definition itimerfix (tick : Z) (tv : timeval) : Z + timeval :=
  if (tv_sec tv <? 0) || (100000000 <? tv_sec tv) || (tv_usec tv <? 0) || (1000000 <=? tv_usec tv)
  then inl EINVAL
  else if (tv_sec tv =? 0) && ztrue (tv_usec tv) && (tv_usec tv <? tick)
  then inr (TV (tv_sec tv) tick)
  else inr tv.

(** The [expire:] code of [itimerdecr], with [usec] the time to carry over. *)
Definition itimer_expire (itp : itimerval) (usec : Z) : itimerval :=
  if timerisset (it_interval itp) then
    let v := it_interval itp in
    let us := tv_usec v - usec in
    if us <? 0 then IT (it_interval itp) (TV (s32 (tv_sec v - 1)) (us + 1000000))
    else IT (it_interval itp) (TV (tv_sec v) us)
  else IT (it_interval itp) (TV (tv_sec (it_value itp)) 0).

(** sys/kern/kern_time.c:298-338, [itimerdecr]: the return value, 1 while the timer
    runs and 0 when it expires, and the timer. *)
Definition itimerdecr (itp : itimerval) (usec : Z) : Z * itimerval :=
  let v := it_value itp in
  if (tv_usec v <? usec) && (tv_sec v =? 0) then (0, itimer_expire itp (usec - tv_usec v))
  else
    let v := if tv_usec v <? usec then TV (s32 (tv_sec v - 1)) (tv_usec v + 1000000) else v in
    let v := TV (tv_sec v) (tv_usec v - usec) in
    let itp := IT (it_interval itp) v in
    if timerisset v then (1, itp) else (0, itimer_expire itp 0).

(** ** The callout queue *)

Class Callout (C : Type) := {
  co_timeout : loc -> Z -> C -> C;    (* timeout(realitexpire, p, ticks) *)
  co_untimeout : loc -> C -> C;       (* untimeout(realitexpire, p) *)
  co_pending : loc -> C -> nat }.     (* entries queued for p *)

Class CalloutLaws (C : Type) `{Callout C} := {
  co_timeout_pending : forall p q t c,
    co_pending q (co_timeout p t c) = (co_pending q c + if decide (p = q) then 1 else 0)%nat;
  co_untimeout_pending : forall p q c,
    co_pending q (co_untimeout p c) = (co_pending q c - if decide (p = q) then 1 else 0)%nat }.

(** A queue as a list of entries. *)
#[export] Instance list_callout : Callout (list (loc * Z)) := {|
  co_timeout p t c := (p, t) :: c;
  co_untimeout p c :=
    (fix go c := match c with
     | [] => []
     | (q, t) :: c' => if decide (p = q) then c' else (q, t) :: go c'
     end) c;
  co_pending p c := length (filter (fun e => e.1 = p) c) |}.

(** ** State *)

Definition ITIMER_REAL := 0.
Definition ITIMER_PROF := 2.
Definition SIGALRM := 14.

(** The timers of a process: [p_realtimer] and [p_stats->p_timer]. *)
Record tproc := Tproc { p_realtimer : itimerval; p_timer : list itimerval }.

Section TimeState.
Context {C : Type} `{!Callout C}.

Record tst := Tst {
  t_time : timeval;                   (* time *)
  t_boottime : timeval;               (* boottime *)
  t_todr : timeval;                   (* the clock chip, as resettodr leaves it *)
  t_tz : Z * Z;                       (* tz *)
  t_tickdelta : Z;                    (* tickdelta *)
  t_timedelta : Z;                    (* timedelta *)
  t_procs : gmap loc tproc;
  t_callouts : C;
  t_signals : list (loc * Z);         (* psignal calls, latest first *)
  t_cred : cst }.

Definition set_clock (tv boot : timeval) (s : tst) : tst :=
  Tst tv boot tv (t_tz s) (t_tickdelta s) (t_timedelta s) (t_procs s) (t_callouts s)
    (t_signals s) (t_cred s).
Definition set_tz (z : Z * Z) (s : tst) : tst :=
  Tst (t_time s) (t_boottime s) (t_todr s) z (t_tickdelta s) (t_timedelta s) (t_procs s)
    (t_callouts s) (t_signals s) (t_cred s).
Definition set_adj (td tdelta : Z) (s : tst) : tst :=
  Tst (t_time s) (t_boottime s) (t_todr s) (t_tz s) td tdelta (t_procs s) (t_callouts s)
    (t_signals s) (t_cred s).
Definition set_tproc (p : loc) (x : tproc) (s : tst) : tst :=
  Tst (t_time s) (t_boottime s) (t_todr s) (t_tz s) (t_tickdelta s) (t_timedelta s)
    (<[p := x]> (t_procs s)) (t_callouts s) (t_signals s) (t_cred s).
Definition set_callouts (f : C -> C) (s : tst) : tst :=
  Tst (t_time s) (t_boottime s) (t_todr s) (t_tz s) (t_tickdelta s) (t_timedelta s) (t_procs s)
    (f (t_callouts s)) (t_signals s) (t_cred s).
Definition post_signal (p : loc) (sig : Z) (s : tst) : tst :=
  Tst (t_time s) (t_boottime s) (t_todr s) (t_tz s) (t_tickdelta s) (t_timedelta s) (t_procs s)
    (t_callouts s) ((p, sig) :: t_signals s) (t_cred s).
Definition set_cred (c : cst) (s : tst) : tst :=
  Tst (t_time s) (t_boottime s) (t_todr s) (t_tz s) (t_tickdelta s) (t_timedelta s) (t_procs s)
    (t_callouts s) (t_signals s) c.

Definition t_suser (p : loc) : K tst Z := kzoom t_cred set_cred (suser_proc p).

Context (tick tickadj bigadj : Z) (hzto : timeval -> timeval -> Z).

(** ** Time of day *)

(** sys/kern/kern_time.c:53-75, [gettimeofday]: [now] is what [microtime] gives;
    an argument pointer is present when its [copyout] result is.  The result is the
    error number and the values copied out. *)
Definition gettimeofday (now : timeval) (tp tzp : option Z)
  : K tst (Z * option timeval * option (Z * Z)) :=
  let! s := kget in
  match tp with
  | Some e =>
    if ztrue e then kret (e, None, None) else
    match tzp with
    | Some e2 => kret (e2, Some now, if ztrue e2 then None else Some (t_tz s))
    | None => kret (0, Some now, None)
    end
  | None =>
    match tzp with
    | Some e2 => kret (e2, None, if ztrue e2 then None else Some (t_tz s))
    | None => kret (0, None, None)
    end
  end.

(** sys/kern/kern_time.c:77-105, [settimeofday]: [tv] and [tzp] are absent, or what
    [copyin] delivers. *)
Definition settimeofday (p : loc) (tv : option (Z + timeval)) (tzp : option (Z + (Z * Z)))
  : K tst Z :=
  let! error := t_suser p in
  if ztrue error then kret error else
  let zone :=
    match tzp with
    | Some (inl e) => kret e
    | Some (inr z) => do! kmod (set_tz z) in kret 0
    | None => kret 0
    end in
  match tv with
  | Some (inl e) => kret e
  | Some (inr atv) =>
    let! s := kget in
    let boot := TV (s32 (tv_sec (t_boottime s) + s32 (tv_sec atv - tv_sec (t_time s))))
                   (tv_usec (t_boottime s)) in
    do! kmod (set_clock atv boot) in
    zone
  | None => zone
  end.

(** sys/kern/kern_time.c:112-151, [adjtime]: [delta] is what [copyin] delivers,
    [olddelta] whether the old correction is asked for. *)
Definition adjtime (p : loc) (delta : Z + timeval) (olddelta : bool)
  : K tst (Z * option timeval) :=
  let! error := t_suser p in
  if ztrue error then kret (error, None) else
  match delta with
  | inl e => kret (e, None)
  | inr atv =>
    let ndelta := s32 (s32 (tv_sec atv * 1000000) + tv_usec atv) in
    let! s := kget in
    let tickdelta :=
      if t_timedelta s =? 0 then
        if bigadj <? ndelta then s32 (10 * tickadj) else tickadj
      else t_tickdelta s in
    if (tickdelta =? 0) || (tickadj =? 0) then kpanic else
    let ndelta := if ztrue (Z.rem ndelta tickdelta)
                  then s32 (Z.quot ndelta tickadj * tickadj) else ndelta in
    let oatv := TV (Z.quot (t_timedelta s) 1000000) (Z.rem (t_timedelta s) 1000000) in
    do! kmod (set_adj tickdelta ndelta) in
    kret (0, if olddelta then Some oatv else None)
  end.

(** ** Interval timers *)

Definition get_tproc (p : loc) : K tst tproc := kderef (fun s => t_procs s !! p).

(** The value [getitimer] reports; for the real timer it is converted from the
    absolute time kept. *)
Definition itimer_report (s : tst) (x : tproc) (which : Z) : option itimerval :=
  if which =? ITIMER_REAL then
    let a := p_realtimer x in
    Some (if timerisset (it_value a) then
            if timercmp (it_value a) (t_time s) Z.ltb then IT (it_interval a) tvzero
            else IT (it_interval a) (timevalsub (it_value a) (t_time s))
          else a)
  else znth (p_timer x) which.

(** sys/kern/kern_time.c:153-207, [getitimer]: [co] is the result of [copyout]. *)
Definition getitimer (p : loc) (which : Z) (co : Z) : K tst (Z * option itimerval) :=
  if ITIMER_PROF <? u32 which then kret (EINVAL, None) else
  let! x := get_tproc p in
  let! s := kget in
  let! aitv := knonnull (itimer_report s x (u32 which)) in
  kret (co, if ztrue co then None else Some aitv).

(** sys/kern/kern_time.c:209-246, [setitimer]: [itv] is absent or what [copyin]
    delivers, [oitv] absent or the result of [copyout]. *)
Definition setitimer (p : loc) (which : Z) (itv : option (Z + itimerval)) (oitv : option Z)
  : K tst (Z * option itimerval) :=
  if ITIMER_PROF <? u32 which then kret (EINVAL, None) else
  match itv with
  | Some (inl e) => kret (e, None)
  | _ =>
    let! old := match oitv with
                | Some co => getitimer p which co
                | None => kret (0, None)
                end in
    if ztrue (fst old) then kret (fst old, None) else
    match itv with
    | Some (inr aitv) =>
      match itimerfix tick (it_value aitv), itimerfix tick (it_interval aitv) with
      | inr v, inr iv =>
        let! x := get_tproc p in
        if u32 which =? ITIMER_REAL then
          do! kmod (set_callouts (co_untimeout p)) in
          let! s := kget in
          let v' := if timerisset v then timevaladd v (t_time s) else v in
          do! (if timerisset v
               then kmod (set_callouts (co_timeout p (hzto (t_time s) v')))
               else kret tt) in
          do! kmod (set_tproc p (Tproc (IT iv v') (p_timer x))) in
          kret (0, snd old)
        else
          do! kmod (set_tproc p (Tproc (p_realtimer x)
                                   (zset (p_timer x) (u32 which) (IT iv v)))) in
          kret (0, snd old)
      | _, _ => kret (EINVAL, snd old)
      end
    | _ => kret (0, snd old)
    end
  end.

(** The [for (;;)] of [realitexpire]: [clk i] is the time read by iteration [i] (the
    clock may advance between iterations, when the priority level is restored).
    [None] when [n] iterations do not reach a time in the future. *)
Fixpoint next_expiry (clk : nat -> timeval) (v interval : timeval) (i n : nat)
  : option (timeval * nat) :=
  match n with
  | O => None
  | S n' =>
    let v := timevaladd v interval in
    if timercmp v (clk i) Z.gtb then Some (v, i)
    else next_expiry clk v interval (S i) n'
  end.

(** sys/kern/kern_time.c:248-278, [realitexpire]. *)
Definition realitexpire (fuel : nat) (clk : nat -> timeval) (p : loc) : K tst unit :=
  do! kmod (post_signal p SIGALRM) in
  let! x := get_tproc p in
  let r := p_realtimer x in
  if negb (timerisset (it_interval r)) then
    kmod (set_tproc p (Tproc (IT (it_interval r) tvzero) (p_timer x)))
  else
    let! vi := knonnull (next_expiry clk (it_value r) (it_interval r) 0 fuel) in
    do! kmod (set_tproc p (Tproc (IT (it_interval r) (fst vi)) (p_timer x))) in
    kmod (set_callouts (co_timeout p (hzto (clk (snd vi)) (fst vi)))).
End TimeState.
Arguments tst C : clear implicits.
