(* ===== verification/TimersSafety.v ===== *)
(** * Correctness of the time-of-day and interval-timer code

    Arithmetic of [timeval]s against microseconds, the interval timers' no-drift
    contract, the callout invariant of the real-time timer and the clock calls. *)

From S2P Require Import Prelude Cred CredSafety Timers.
Local Open Scope kern_scope.

(** ** Microseconds *)

Definition us (t : timeval) : Z := tv_sec t * 1000000 + tv_usec t.

Definition normal (t : timeval) : Prop := 0 <= tv_usec t < 1000000.

(** A normalised time whose seconds leave room for one sum or difference. *)
Definition tv_ok (t : timeval) : Prop := normal t /\ -1073741824 < tv_sec t < 1073741823.

Lemma us_inj a b : normal a -> normal b -> us a = us b -> a = b.
Proof.
  destruct a as [s1 u1], b as [s2 u2]. unfold normal, us. simpl. intros.
  assert (s1 = s2) by lia. subst. f_equal. lia.
Qed.

Lemma timevalfix_us t :
  -1000000 <= tv_usec t < 2000000 -> -2147483648 < tv_sec t < 2147483647 ->
  us (timevalfix t) = us t /\ normal (timevalfix t).
Proof.
  destruct t as [sec usec]. unfold timevalfix, us, normal. simpl. intros Hu Hs.
  destruct (Z.ltb_spec usec 0); simpl.
  - destruct (Z.leb_spec 1000000 (usec + 1000000)); [lia|]. simpl. rewrite s32_id by mlia. lia.
  - destruct (Z.leb_spec 1000000 usec); simpl; [rewrite s32_id by mlia|]; lia.
Qed.

Lemma timevaladd_us a b :
  tv_ok a -> tv_ok b -> us (timevaladd a b) = us a + us b /\ normal (timevaladd a b).
Proof.
  intros [Ha Ha'] [Hb Hb']. unfold timevaladd, normal in *.
  rewrite !s32_id by mlia.
  destruct (timevalfix_us (TV (tv_sec a + tv_sec b) (tv_usec a + tv_usec b))) as [E N];
    simpl; try lia.
  rewrite E. unfold us. simpl. split; [lia|exact N].
Qed.

Lemma timevalsub_us a b :
  tv_ok a -> tv_ok b -> us (timevalsub a b) = us a - us b /\ normal (timevalsub a b).
Proof.
  intros [Ha Ha'] [Hb Hb']. unfold timevalsub, normal in *.
  rewrite !s32_id by mlia.
  destruct (timevalfix_us (TV (tv_sec a - tv_sec b) (tv_usec a - tv_usec b))) as [E N];
    simpl; try lia.
  rewrite E. unfold us. simpl. split; [lia|exact N].
Qed.

Lemma timercmp_lt a b : normal a -> normal b -> timercmp a b Z.ltb = (us a <? us b).
Proof.
  unfold normal, timercmp, us. intros. apply eq_true_iff_eq.
  rewrite orb_true_iff, andb_true_iff, !Z.ltb_lt, Z.eqb_eq. lia.
Qed.

Lemma timercmp_gt a b : normal a -> normal b -> timercmp a b Z.gtb = (us b <? us a).
Proof.
  unfold normal, timercmp, us. intros. apply eq_true_iff_eq.
  rewrite orb_true_iff, andb_true_iff, !Z.gtb_lt, Z.ltb_lt, Z.eqb_eq. lia.
Qed.

Lemma timerisset_us a : normal a -> timerisset a = negb (us a =? 0).
Proof.
  unfold normal, timerisset, us, ztrue. intros.
  destruct (Z.eqb_spec (tv_sec a) 0), (Z.eqb_spec (tv_usec a) 0),
    (Z.eqb_spec (tv_sec a * 1000000 + tv_usec a) 0); simpl; lia || done.
Qed.

(** ** Interval timers *)

Lemma itimer_expire_us itp c :
  normal (it_interval itp) -> 0 <= tv_sec (it_interval itp) < 1073741824 ->
  0 <= c < 1000000 -> tv_sec (it_value itp) = 0 ->
  it_interval (itimer_expire itp c) = it_interval itp /\
  normal (it_value (itimer_expire itp c)) /\
  us (it_value (itimer_expire itp c)) =
    (if timerisset (it_interval itp) then us (it_interval itp) - c else 0).
Proof.
  intros Hn Hs Hc Hv. unfold itimer_expire. destruct (timerisset (it_interval itp)).
  - unfold normal, us in *.
    destruct (Z.ltb_spec (tv_usec (it_interval itp) - c) 0); simpl.
    + rewrite s32_id by mlia. split; [done|lia].
    + split; [done|lia].
  - unfold us, normal. simpl. split; [done|lia].
Qed.

Lemma itimerdecr_us itp usec :
  normal (it_value itp) -> normal (it_interval itp) ->
  0 <= tv_sec (it_value itp) < 1073741824 -> 0 <= tv_sec (it_interval itp) < 1073741824 ->
  0 <= usec < 1000000 ->
  let '(r, itp') := itimerdecr itp usec in
  it_interval itp' = it_interval itp /\ normal (it_value itp') /\
  if usec <? us (it_value itp)
  then r = 1 /\ us (it_value itp') = us (it_value itp) - usec
  else r = 0 /\ us (it_value itp') =
         (if timerisset (it_interval itp)
          then us (it_interval itp) - (usec - us (it_value itp)) else 0).
Proof.
  intros Hv Hi Hvs His Hus. unfold itimerdecr.
  destruct ((tv_usec (it_value itp) <? usec) && (tv_sec (it_value itp) =? 0)) eqn:Hexp.
  - bool_hyps. assert (Hsec : tv_sec (it_value itp) = 0) by lia.
    destruct (itimer_expire_us itp (usec - tv_usec (it_value itp))) as (E1 & E2 & E3);
      try done; [unfold normal in *; lia|].
    split; [done|]. split; [done|].
    assert (Eu : us (it_value itp) = tv_usec (it_value itp)) by (unfold us; lia). rewrite Eu.
    destruct (Z.ltb_spec usec (tv_usec (it_value itp))); [lia|]. done.
  - set (v := if tv_usec (it_value itp) <? usec
              then TV (s32 (tv_sec (it_value itp) - 1)) (tv_usec (it_value itp) + 1000000)
              else it_value itp).
    assert (Hv' : normal (TV (tv_sec v) (tv_usec v - usec)) /\
      us (TV (tv_sec v) (tv_usec v - usec)) = us (it_value itp) - usec /\
      0 <= us (it_value itp) - usec).
    { unfold v, normal, us in *. apply andb_false_iff in Hexp.
      destruct (Z.ltb_spec (tv_usec (it_value itp)) usec); simpl.
      - rewrite s32_id by mlia. lia.
      - lia. }
    destruct Hv' as (Hn & He & Hpos). rewrite (timerisset_us _ Hn), He.
    destruct (Z.eqb_spec (us (it_value itp) - usec) 0) as [E0|E0]; simpl.
    + destruct (itimer_expire_us (IT (it_interval itp) (TV (tv_sec v) (tv_usec v - usec))) 0)
        as (E1 & E2 & E3); simpl; try done; try lia.
      { unfold us, normal in *. simpl in *. lia. }
      split; [done|]. split; [done|]. rewrite E3. simpl.
      destruct (Z.ltb_spec usec (us (it_value itp))); [lia|]. split; [done|].
      destruct (timerisset (it_interval itp)); lia.
    + split; [done|]. split; [done|].
      destruct (Z.ltb_spec usec (us (it_value itp))); [done|lia].
Qed.

(** The reload loop: from a value [v] not after the bound [B] of the clock, each turn
    adds the interval, and the loop stops at the first sum in the future. *)
Lemma next_expiry_spec clk iv B n v i :
  tv_ok iv -> 0 < us iv -> (forall j, normal (clk j) /\ us (clk j) <= B) ->
  tv_ok v -> B + us iv < 1073741823 * 1000000 -> us v <= B ->
  (B - us v) / us iv < Z.of_nat n ->
  exists w k, next_expiry clk v iv i n = Some (w, (i + k)%nat) /\ normal w /\
    us w = us v + (Z.of_nat k + 1) * us iv /\ us (clk (i + k)%nat) < us w /\
    (forall j, (j < k)%nat -> us v + (Z.of_nat j + 1) * us iv <= us (clk (i + j)%nat)).
Proof.
  intros Hiv Hpos Hclk. revert v i. induction n as [|n IH]; intros v i Hv HB Hle Hn.
  { assert (0 <= (B - us v) / us iv) by (apply Z.div_pos; lia). lia. }
  simpl. destruct (timevaladd_us v iv Hv Hiv) as [Eadd Nadd].
  destruct (Hclk i) as [Nclk Bclk]. rewrite timercmp_gt by done. rewrite Eadd.
  destruct (Z.ltb_spec (us (clk i)) (us v + us iv)) as [Hlt|Hge].
  - exists (timevaladd v iv), O. rewrite !Nat.add_0_r. split; [done|]. split; [done|].
    split; [lia|]. split; [lia|]. intros; lia.
  - destruct (IH (timevaladd v iv) (S i)) as (w & k & Hw & Nw & Ew & Hc & Hall).
    + split; [done|]. destruct Hv as [Nv Sv], Hiv as [Ni Si].
      unfold us, normal in *. lia.
    + lia.
    + lia.
    + rewrite Eadd. replace (B - (us v + us iv)) with (B - us v + (-1) * us iv) by ring.
      rewrite Z.div_add by lia. lia.
    + exists w, (S k). rewrite <- plus_n_Sm. split; [done|]. split; [done|].
      split; [lia|]. split; [done|]. intros [|j] Hj.
      * rewrite Nat.add_0_r. lia.
      * rewrite <- plus_n_Sm. specialize (Hall j ltac:(lia)). simpl in Hall. lia.
Qed.

Lemma itimerfix_ok tick t t' :
  0 < tick < 1000000 -> itimerfix tick t = inr t' ->
  normal t' /\ 0 <= tv_sec t' <= 100000000 /\ timerisset t' = timerisset t /\
  (timerisset t' = true -> tick <= us t').
Proof.
  intros Htick. unfold itimerfix, timerisset, ztrue, normal, us.
  destruct (_ || _) eqn:Hbad; [done|]. bool_hyps.
  destruct ((tv_sec t =? 0) && _ && (tv_usec t <? tick)) eqn:Hs; intros [= <-]; simpl.
  - bool_hyps. split_and!; try lia.
  - split_and!; try lia.
Qed.

(** ** Privilege *)

Lemma suser_proc_ident s p i :
  wf s -> ident_of s p = Some i ->
  exists s', suser_proc p s = Some (if id_euid i =? 0 then 0 else EPERM, s') /\ flags_only s s' /\
    (id_euid i <> 0 -> s' = s).
Proof.
  intros Hwf Hi. unfold ident_of in Hi.
  destruct (procs s !! p) as [pr|] eqn:Hp; [|done].
  destruct (pcreds s !! p_cred pr) as [pc|] eqn:Hpc; [|done].
  destruct (ucreds s !! pc_ucred pc) as [u|] eqn:Hu; [|done]. simplify_eq/=.
  unfold suser_proc. rewrite (call_start s p pr pc) by done.
  destruct (unless_suser s p pr pc u false) as (s' & Hs & Hf); [done..|].
  exists s'. split; [exact Hs|]. split; [done|]. intros Hne. simpl in Hs.
  unfold suser, get_ucred in Hs. revert Hs. kunf. rewrite Hu.
  apply Z.eqb_neq in Hne. rewrite Hne. by intros [= ->].
Qed.

Section State.
Context {C : Type} `{!Callout C} `{!CalloutLaws C}.
Implicit Types s : tst C.

Lemma t_suser_spec s p i :
  wf (t_cred s) -> ident_of (t_cred s) p = Some i ->
  exists c, t_suser p s = Some (if id_euid i =? 0 then 0 else EPERM, set_cred c s) /\
    flags_only (t_cred s) c /\ (id_euid i <> 0 -> set_cred c s = s).
Proof.
  intros Hwf Hi. destruct (suser_proc_ident (t_cred s) p i Hwf Hi) as (c & Hc & Hf & Heq).
  exists c. unfold t_suser, kzoom. rewrite Hc. split; [done|]. split; [done|].
  intros Hne. rewrite Heq by done. by destruct s.
Qed.

(** ** The callout invariant *)

(** A process has one callout queued exactly when its real timer is running. *)
Definition timer_inv s (p : loc) : Prop :=
  exists x, t_procs s !! p = Some x /\
    co_pending p (t_callouts s) = (if timerisset (it_value (p_realtimer x)) then 1 else 0)%nat.

(** The clock shows a time in this or the next decades. *)
Definition clock_ok s : Prop := normal (t_time s) /\ 0 <= tv_sec (t_time s) < 900000000.

Context (tick : Z) (hzto : timeval -> timeval -> Z).
Hypothesis Htick : 0 < tick < 1000000.

(** What [setitimer] leaves behind when it stores a real timer. *)
Definition store_real s (p : loc) (x : tproc) (v iv : timeval) : tst C :=
  set_tproc p (Tproc (IT iv (if timerisset v then timevaladd v (t_time s) else v)) (p_timer x))
    (set_callouts (fun c => if timerisset v
       then co_timeout p (hzto (t_time s) (timevaladd v (t_time s))) (co_untimeout p c)
       else co_untimeout p c) s).

Lemma setitimer_real s p v iv v0 iv0 x :
  t_procs s !! p = Some x -> itimerfix tick v0 = inr v -> itimerfix tick iv0 = inr iv ->
  setitimer tick hzto p ITIMER_REAL (Some (inr (IT iv0 v0))) None s =
    Some ((0, None), store_real s p x v iv).
Proof.
  intros Hx Hv Hiv. unfold setitimer, store_real. simpl. rewrite Hv, Hiv. unfold get_tproc.
  kunf. simpl. rewrite Hx. simpl. by destruct (timerisset v).
Qed.

Lemma getitimer_pure s p which co r s' : getitimer p which co s = Some (r, s') -> s' = s.
Proof.
  unfold getitimer, get_tproc. case_match; [by intros [= _ ->]|]. kunf.
  repeat case_match; intros; by simplify_eq.
Qed.

(** A successful or failed [setitimer] either changes nothing or stores one timer. *)
Lemma setitimer_cases s p which itv oitv r s' :
  setitimer tick hzto p which itv oitv s = Some (r, s') ->
  s' = s \/
  exists x v iv v0 iv0, t_procs s !! p = Some x /\ itimerfix tick v0 = inr v /\
    itimerfix tick iv0 = inr iv /\
    (s' = store_real s p x v iv \/
     s' = set_tproc p (Tproc (p_realtimer x) (zset (p_timer x) (u32 which) (IT iv v))) s).
Proof.
  unfold setitimer. destruct (ITIMER_PROF <? u32 which).
  { intros Hrun. kinv. by left. }
  assert (Hold : forall old s1,
    match oitv with Some co => getitimer p which co | None => kret (0, None) end s
      = Some (old, s1) -> s1 = s).
  { intros old s1. destruct oitv; [apply getitimer_pure|by intros [= _ ->]]. }
  destruct itv as [[e|aitv]|]; [intros Hrun; kinv; by left|..].
  all: intros (old & s1 & ->%Hold & Hrun)%kbind_Some.
  all: destruct (ztrue (fst old)); [kinv; by left|].
  2: kinv; by left.
  destruct (itimerfix tick (it_value aitv)) as [|v] eqn:Hv; [kinv; by left|].
  destruct (itimerfix tick (it_interval aitv)) as [|iv] eqn:Hiv; [kinv; by left|].
  right. revert Hrun. unfold get_tproc. kunf. simpl.
  destruct (t_procs s !! p) as [x|] eqn:Hx; [|done]. intros Hrun.
  exists x, v, iv, (it_value aitv), (it_interval aitv). split_and!; try done.
  destruct (u32 which =? ITIMER_REAL); [left|right]; [|by simplify_eq/=].
  unfold store_real. simpl in Hrun. by destruct (timerisset v); simplify_eq/=.
Qed.

Lemma fixed_future s v v0 :
  clock_ok s -> itimerfix tick v0 = inr v -> timerisset v = true ->
  tv_ok v /\ tv_ok (t_time s) /\ us (timevaladd v (t_time s)) = us v + us (t_time s) /\
  normal (timevaladd v (t_time s)) /\ tick <= us v.
Proof.
  intros [Hn Hs] Hv Hset. destruct (itimerfix_ok _ _ _ Htick Hv) as (Hvn & Hvs & _ & Hmin).
  assert (tv_ok v) by (split; [done|lia]). assert (tv_ok (t_time s)) by (split; [done|lia]).
  destruct (timevaladd_us v (t_time s)) as [E N]; [done..|]. split_and!; auto.
Qed.

(** *** Properties *)

(** [setitimer] keeps the callout invariant whatever its arguments and on every
    return, error returns included: a process whose real timer is running has exactly
    one expiry queued, one whose timer is stopped has none; no other process's timers
    or callouts change. *)
Theorem setitimer_callout s p which itv oitv r s' :
  clock_ok s -> timer_inv s p ->
  setitimer tick hzto p which itv oitv s = Some (r, s') ->
  timer_inv s' p /\
  (forall q, q <> p -> t_procs s' !! q = t_procs s !! q /\
     co_pending q (t_callouts s') = co_pending q (t_callouts s)).
Proof.
  intros Hclk (x & Hx & Hpend) Hrun.
  apply setitimer_cases in Hrun as [->|(x' & v & iv & v0 & iv0 & Hx' & Hv & Hiv & [->| ->])].
  - split; [by exists x|done].
  - assert (x' = x) as -> by congruence. split.
    + eexists. simpl. rewrite lookup_insert_eq. split; [reflexivity|]. simpl.
      destruct (timerisset v) eqn:Hset.
      * destruct (fixed_future s v _ Hclk Hv Hset) as (Hvo & Hto & Eu & Nu & Hmin).
        rewrite co_timeout_pending, co_untimeout_pending, decide_True by done.
        rewrite Hpend, (timerisset_us _ Nu), Eu.
        assert (0 <= us (t_time s)) by (destruct Hclk; unfold normal, us in *; lia).
        destruct (Z.eqb_spec (us v + us (t_time s)) 0); [lia|]. simpl.
        by destruct (timerisset (it_value (p_realtimer x))).
      * rewrite Hset, co_untimeout_pending, decide_True, Hpend by done.
        by destruct (timerisset (it_value (p_realtimer x))).
    + intros q Hq. simpl. rewrite lookup_insert_ne by done. split; [done|].
      destruct (timerisset v); rewrite ?co_timeout_pending, co_untimeout_pending, !decide_False by done;
        lia.
  - split.
    + assert (x' = x) as -> by congruence. eexists. simpl. rewrite lookup_insert_eq. by split.
    + intros q Hq. simpl. rewrite lookup_insert_ne by done. by split.
Qed.

(** The state when the clock has moved on to [now]. *)
Definition at_time (now : timeval) (s : tst C) : tst C :=
  Tst now (t_boottime s) (t_todr s) (t_tz s) (t_tickdelta s) (t_timedelta s) (t_procs s)
    (t_callouts s) (t_signals s) (t_cred s).

(** The time [getitimer] reports for a real timer is the time that is left: after
    [setitimer] armed it with [v0] (rounded up to the resolution of the clock as
    [itimerfix] does), at any later or earlier time [now] it answers the interval and
    [v] less the time elapsed, or zero when the timer is overdue. *)
Theorem setitimer_getitimer s p iv0 v0 v iv now :
  clock_ok s -> normal now -> 0 <= tv_sec now < 1073741823 ->
  is_Some (t_procs s !! p) ->
  itimerfix tick v0 = inr v -> itimerfix tick iv0 = inr iv -> timerisset v = true ->
  exists s' left,
    setitimer tick hzto p ITIMER_REAL (Some (inr (IT iv0 v0))) None s = Some ((0, None), s') /\
    getitimer p ITIMER_REAL 0 (at_time now s') =
      Some ((0, Some (IT iv left)), at_time now s') /\
    us left = Z.max 0 (us v - (us now - us (t_time s))).
Proof.
  intros Hclk Hnow Hnows [x Hx] Hv Hiv Hset.
  destruct (fixed_future s v v0 Hclk Hv Hset) as (Hvo & Hto & Eu & Nu & Hmin).
  destruct (itimerfix_ok _ _ _ Htick Hv) as (_ & Hvs & _ & _).
  assert (Hd : tv_ok (timevaladd v (t_time s))).
  { split; [done|]. destruct Hclk, Hvo. unfold us, normal in *. lia. }
  assert (Hset' : timerisset (timevaladd v (t_time s)) = true).
  { rewrite timerisset_us, Eu by done. destruct Hclk as [? ?]. unfold us, normal in *.
    apply negb_true_iff, Z.eqb_neq. lia. }
  eexists _, (if us v + us (t_time s) <? us now then tvzero
              else timevalsub (timevaladd v (t_time s)) now).
  split; [by apply setitimer_real|]. unfold getitimer, get_tproc, itimer_report.
  simpl. kunf. simpl. rewrite Hset, lookup_insert_eq. simpl. rewrite Hset'.
  rewrite timercmp_lt, Eu by done.
  destruct (Z.ltb_spec (us v + us (t_time s)) (us now)); (split; [reflexivity|]); simpl.
  - unfold us at 1. simpl. lia.
  - destruct (timevalsub_us (timevaladd v (t_time s)) now) as [E _]; [done|split; [done|lia]|].
    rewrite E, Eu. lia.
Qed.

(** C35. When the real timer of a process goes off, its times well-formed and not negative
    and clock and interval together less than 2^30 seconds, [realitexpire] posts SIGALRM
    once and returns: a one-shot timer is left stopped; a periodic one is set to the first
    time [v + k * interval] that is later than the clock read by the last turn of the loop -
    the earlier turns skipped only times already past - and exactly one callout is queued
    for it. The bound [(B - v) / interval] on the turns, with [B] an upper bound of the
    clock, is enough whatever the clock does meanwhile. *)
Theorem realitexpire_rearms s p x clk B n :
  t_procs s !! p = Some x -> co_pending p (t_callouts s) = 0%nat ->
  tv_ok (it_interval (p_realtimer x)) -> 0 <= us (it_interval (p_realtimer x)) ->
  tv_ok (it_value (p_realtimer x)) -> us (it_value (p_realtimer x)) <= B ->
  (forall j, normal (clk j) /\ 0 <= us (clk j) <= B) ->
  B + us (it_interval (p_realtimer x)) < 1073741823 * 1000000 ->
  (B - us (it_value (p_realtimer x))) / us (it_interval (p_realtimer x)) < Z.of_nat n ->
  exists s' x' k, realitexpire hzto n clk p s = Some (tt, s') /\
    t_procs s' !! p = Some x' /\ timer_inv s' p /\ t_signals s' = (p, SIGALRM) :: t_signals s /\
    it_interval (p_realtimer x') = it_interval (p_realtimer x) /\ p_timer x' = p_timer x /\
    if timerisset (it_interval (p_realtimer x)) then
      us (it_value (p_realtimer x')) = us (it_value (p_realtimer x)) +
        (Z.of_nat k + 1) * us (it_interval (p_realtimer x)) /\
      us (clk k) < us (it_value (p_realtimer x')) /\
      (forall j, (j < k)%nat -> us (it_value (p_realtimer x)) +
         (Z.of_nat j + 1) * us (it_interval (p_realtimer x)) <= us (clk j))
    else it_value (p_realtimer x') = tvzero.
Proof.
  intros Hx Hpend Hiv Hpos Hv Hle Hclk HB Hn. unfold realitexpire, get_tproc. kunf. simpl.
  rewrite Hx. simpl. destruct (timerisset (it_interval (p_realtimer x))) eqn:Hset; simpl.
  - destruct (next_expiry_spec clk (it_interval (p_realtimer x)) B n
      (it_value (p_realtimer x)) 0) as (w & k & Hw & Nw & Ew & Hc & Hall); try done.
    { rewrite timerisset_us in Hset by apply Hiv. apply negb_true_iff, Z.eqb_neq in Hset. lia. }
    { intros j. destruct (Hclk j). split; [done|lia]. }
    rewrite Hw. simpl. eexists _, _, k. split; [done|]. simpl. rewrite lookup_insert_eq.
    split; [done|]. split_and!; try done.
    eexists. simpl. rewrite lookup_insert_eq. split; [done|]. simpl.
    rewrite co_timeout_pending, decide_True, Hpend, (timerisset_us _ Nw) by done.
    destruct (Hclk k). simpl in Hc. destruct (Z.eqb_spec (us w) 0); [lia|done].
  - eexists _, _, O. split; [done|]. simpl. rewrite lookup_insert_eq. split; [done|].
    split_and!; try done. eexists. simpl. rewrite lookup_insert_eq. split; [done|]. exact Hpend.
Qed.

End State.

(** ** The clock *)

Section Clock.
Context {C : Type} `{!Callout C} (tickadj bigadj : Z).
Implicit Types s : tst C.

(** [settimeofday] needs privilege: an unprivileged caller gets EPERM and changes
    nothing.  With privilege and a good argument it sets the clock and the clock chip
    to the time given and moves the boot time by the same number of seconds, so that
    the time since boot is what it was; no process's timers or callouts are touched. *)
Theorem settimeofday_uptime s p i tv :
  wf (t_cred s) -> ident_of (t_cred s) p = Some i ->
  is_s32 (tv_sec tv - tv_sec (t_time s)) ->
  is_s32 (tv_sec (t_boottime s) + (tv_sec tv - tv_sec (t_time s))) ->
  exists s', settimeofday p (Some (inr tv)) None s =
      Some (if id_euid i =? 0 then 0 else EPERM, s') /\
    t_procs s' = t_procs s /\ t_callouts s' = t_callouts s /\
    if id_euid i =? 0 then
      t_time s' = tv /\ t_todr s' = tv /\
      tv_sec (t_time s') - tv_sec (t_boottime s') = tv_sec (t_time s) - tv_sec (t_boottime s)
    else s' = s.
Proof.
  intros Hwf Hi H1 H2. destruct (t_suser_spec s p i Hwf Hi) as (c & Hc & _ & Hsame).
  unfold settimeofday. kunf. rewrite Hc. destruct (Z.eqb_spec (id_euid i) 0) as [E|E]; simpl.
  - eexists. split; [reflexivity|]. simpl. rewrite (s32_id (_ - _)), s32_id by done.
    split_and!; try done. lia.
  - eexists. split; [reflexivity|]. rewrite Hsame by done. done.
Qed.

(** The step [adjtime] chooses. *)
Definition step_of s (nd : Z) : Z :=
  if t_timedelta s =? 0 then if bigadj <? nd then s32 (10 * tickadj) else tickadj
  else t_tickdelta s.

Lemma quot_round n d : 0 < d ->
  Z.abs (n - Z.quot n d * d) < d /\ Z.abs (Z.quot n d * d) <= Z.abs n /\
  0 <= n * (Z.quot n d * d).
Proof.
  intros Hd. pose proof (Z.quot_rem' n d). pose proof (Z.rem_bound_abs n d ltac:(lia)).
  destruct (Z.le_gt_cases 0 n).
  - pose proof (Z.quot_pos n d ltac:(lia) Hd). pose proof (Z.rem_nonneg n d ltac:(lia) ltac:(lia)). nia.
  - pose proof (Z.rem_nonpos n d ltac:(lia) ltac:(lia)).
    assert (Z.quot n d <= 0).
    { replace n with (- (- n)) by lia. rewrite Z.quot_opp_l by lia.
      pose proof (Z.quot_pos (- n) d ltac:(lia) Hd). lia. }
    nia.
Qed.

(** [adjtime] by a privileged caller answers the correction still outstanding,
    starts the slewing step of the clock interrupt (kept while a correction is under
    way) and records a correction within one [tickadj] of the one asked for, of the
    same sign and never larger in magnitude; a correction the step divides is recorded
    exactly.  The clock itself is not moved. *)
Theorem adjtime_correction s p i d :
  wf (t_cred s) -> ident_of (t_cred s) p = Some i -> id_euid i = 0 ->
  0 < tickadj < 100000000 -> is_s32 (t_timedelta s) ->
  is_s32 (tv_sec d * 1000000) -> is_s32 (us d) -> step_of s (us d) <> 0 ->
  exists s' o, adjtime tickadj bigadj p (inr d) true s = Some ((0, Some o), s') /\
    us o = t_timedelta s /\ t_time s' = t_time s /\ t_boottime s' = t_boottime s /\
    t_tickdelta s' = step_of s (us d) /\
    Z.abs (us d - t_timedelta s') < tickadj /\
    Z.abs (t_timedelta s') <= Z.abs (us d) /\ 0 <= us d * t_timedelta s' /\
    (Z.rem (us d) (step_of s (us d)) = 0 -> t_timedelta s' = us d).
Proof.
  intros Hwf Hi H0 Hadj Htd H1 H2 Hstep.
  destruct (t_suser_spec s p i Hwf Hi) as (c & Hc & _ & _). rewrite H0 in Hc.
  unfold adjtime. kunf. rewrite Hc. simpl. rewrite (s32_id (tv_sec d * 1000000)) by done.
  fold (us d). rewrite (s32_id (us d)) by done.
  fold (step_of s (us d)). apply Z.eqb_neq in Hstep as ->.
  destruct (Z.eqb_spec tickadj 0); [lia|]. simpl. unfold ztrue.
  eexists _, _. split; [reflexivity|]. simpl.
  destruct (quot_round (us d) tickadj) as (Q1 & Q2 & Q3); [lia|].
  split. { unfold us. simpl. rewrite Z.mul_comm. symmetry. apply Z.quot_rem'. }
  do 3 (split; [done|]). destruct (Z.eqb_spec (Z.rem (us d) (step_of s (us d))) 0); simpl.
  - split_and!; try done; nia.
  - rewrite s32_id by mlia. split_and!; try done.
Qed.
End Clock.

(** The interval timers driven by the clock interrupt: [n] ticks of [usec] each, and
    the number of expirations they report. *)
Fixpoint run_ticks (n : nat) (usec : Z) (itp : itimerval) : Z * itimerval :=
  match n with
  | O => (0, itp)
  | S n' => let '(r, itp') := itimerdecr itp usec in
            let '(k, itp'') := run_ticks n' usec itp' in (k + (1 - r), itp'')
  end.

(** A periodic virtual or profiling timer never drifts: over any number of clock
    ticks, with an interval of at least a tick, the time it has left plus the time
    that has passed is the time it was set to plus one interval for every expiration
    reported, so the late part of a tick is charged to the next period; it is never
    left stopped and never holds more than its initial value or its interval. *)
Theorem itimerdecr_no_drift n usec itp :
  normal (it_value itp) -> normal (it_interval itp) ->
  0 <= tv_sec (it_value itp) < 1073741824 -> 0 <= tv_sec (it_interval itp) < 1073741824 ->
  0 < usec < 1000000 -> usec <= us (it_interval itp) -> 0 < us (it_value itp) ->
  let '(k, itp') := run_ticks n usec itp in
  us (it_value itp') + Z.of_nat n * usec = us (it_value itp) + k * us (it_interval itp) /\
  it_interval itp' = it_interval itp /\
  0 < us (it_value itp') <= Z.max (us (it_value itp)) (us (it_interval itp)) /\ 0 <= k.
Proof.
  revert itp. induction n as [|n IH]; intros itp Hv Hi Hvs His Hu Hui Hpos.
  { simpl. split; [lia|]. split; [done|]. lia. }
  cbn [run_ticks]. pose proof (itimerdecr_us itp usec Hv Hi Hvs His ltac:(lia)) as Hd.
  destruct (itimerdecr itp usec) as [r it1]. destruct Hd as (Ei & Hn1 & Hd).
  assert (Hset : timerisset (it_interval itp) = true).
  { rewrite timerisset_us by done. apply negb_true_iff, Z.eqb_neq. lia. }
  rewrite Hset in Hd.
  assert (Hd' : us (it_value it1) + usec = us (it_value itp) + (1 - r) * us (it_interval itp) /\
    0 < us (it_value it1) <= Z.max (us (it_value itp)) (us (it_interval itp)) /\ 0 <= 1 - r).
  { destruct (Z.ltb_spec usec (us (it_value itp))); destruct Hd as [-> Hd]; lia. }
  destruct Hd' as (E1 & B1 & K1).
  specialize (IH it1 Hn1). rewrite Ei in IH.
  destruct (run_ticks n usec it1) as [k it2].
  destruct IH as (E2 & E3 & B2 & K2); try done; [unfold us, normal in *; lia|lia|].
  split; [nia|]. split; [congruence|]. lia.
Qed.

(** ** Witnesses *)

Lemma list_untimeout_pending p q (c : list (loc * Z)) :
  co_pending q (co_untimeout p c) = (co_pending q c - if decide (p = q) then 1 else 0)%nat.
Proof.
  simpl. induction c as [|[r t] c IH]; [simpl; case_decide; done|].
  destruct (decide (p = r)) as [->|Hpr].
  - rewrite filter_cons. simpl. repeat case_decide; subst; simpl; try done; lia.
  - rewrite !filter_cons. simpl. destruct (decide (r = q)) as [->|Hrq].
    + rewrite decide_False in * by done. simpl. rewrite IH. lia.
    + exact IH.
Qed.

#[export] Instance list_callout_laws : CalloutLaws (list (loc * Z)).
Proof.
  split; [|exact list_untimeout_pending].
  intros p q t c. simpl. rewrite filter_cons. simpl. repeat case_decide; simpl; lia.
Qed.

Definition demo_interval : timeval := TV 2 0.
Definition demo_proc : tproc := Tproc (IT demo_interval (TV 1010 0)) (replicate 3 (IT tvzero tvzero)).
Definition demo_time (c : list (loc * Z)) : tst (list (loc * Z)) :=
  Tst (TV 1000 0) (TV 10 0) (TV 1000 0) (0, 0) 0 0 {[ 3%positive := demo_proc ]} c [] demo.
Definition demo_hzto (t u : timeval) : Z := 100 * (tv_sec u - tv_sec t).
Definition root_ident : ident := Ident 0 0 0 0 0 1 (replicate 16 0).

Lemma demo_clock c : clock_ok (demo_time c).
Proof. unfold clock_ok, normal. simpl. lia. Qed.

Lemma setitimer_callout_witness :
  exists r s', setitimer 10000 demo_hzto 3 0 (Some (inr (IT tvzero (TV 5 0)))) None
      (demo_time [(3%positive, 7)]) = Some (r, s') /\ timer_inv s' 3.
Proof.
  pose proof (setitimer_real 10000 demo_hzto (demo_time [(3%positive, 7)]) 3 (TV 5 0) tvzero
    (TV 5 0) tvzero demo_proc eq_refl eq_refl eq_refl) as Hrun.
  eexists _, _. split; [exact Hrun|].
  refine (proj1 (setitimer_callout 10000 demo_hzto _ (demo_time [(3%positive, 7)]) 3 _ _ _ _ _
    _ _ Hrun)).
  - lia.
  - apply demo_clock.
  - exists demo_proc. split; reflexivity.
Defined.

Lemma setitimer_getitimer_witness :
  exists s' left, setitimer 10000 demo_hzto 3 0 (Some (inr (IT tvzero (TV 0 5)))) None
      (demo_time []) = Some ((0, None), s') /\
    getitimer 3 0 0 (at_time (TV 1000 4000) s') =
      Some ((0, Some (IT tvzero left)), at_time (TV 1000 4000) s') /\
    us left = Z.max 0 (us (TV 0 10000) - (us (TV 1000 4000) - us (TV 1000 0))).
Proof.
  apply (setitimer_getitimer 10000 demo_hzto ltac:(lia) (demo_time []) 3 tvzero (TV 0 5)
    (TV 0 10000) tvzero (TV 1000 4000)); try reflexivity.
  - apply demo_clock.
  - unfold normal. simpl. lia.
  - simpl. lia.
  - eexists. reflexivity.
Defined.

Lemma realitexpire_rearms_witness :
  exists s' x' k, realitexpire demo_hzto 5 (fun _ => TV 1015 0) 3 (demo_time []) = Some (tt, s') /\
    t_procs s' !! 3%positive = Some x' /\ timer_inv s' 3 /\ t_signals s' = [(3%positive, SIGALRM)] /\
    it_interval (p_realtimer x') = demo_interval /\ p_timer x' = replicate 3 (IT tvzero tvzero) /\
    us (it_value (p_realtimer x')) = us (TV 1010 0) + (Z.of_nat k + 1) * us demo_interval /\
    us (TV 1015 0) < us (it_value (p_realtimer x')) /\
    (forall j, (j < k)%nat -> us (TV 1010 0) + (Z.of_nat j + 1) * us demo_interval
       <= us (TV 1015 0)).
Proof.
  apply (realitexpire_rearms demo_hzto (demo_time []) 3 demo_proc (fun _ => TV 1015 0)
    1015000000 5); try reflexivity.
  all: unfold tv_ok, normal, us; simpl; intros; lia.
Defined.

Lemma settimeofday_uptime_witness :
  exists s', settimeofday 3 (Some (inr (TV 5000 3))) None (demo_time []) = Some (0, s') /\
    t_procs s' = t_procs (demo_time []) /\ t_callouts s' = [] /\
    t_time s' = TV 5000 3 /\ t_todr s' = TV 5000 3 /\
    tv_sec (t_time s') - tv_sec (t_boottime s') = 1000 - 10.
Proof.
  apply (settimeofday_uptime (demo_time []) 3 root_ident (TV 5000 3));
    [exact demo_wf|reflexivity|unfold is_s32; simpl; lia..].
Defined.

Lemma adjtime_correction_witness :
  exists s' o, adjtime 40 1000000 3 (inr (TV 0 (-999))) true (demo_time []) = Some ((0, Some o), s') /\
    us o = 0 /\ t_time s' = TV 1000 0 /\ t_boottime s' = TV 10 0 /\ t_tickdelta s' = 40 /\
    Z.abs (-999 - t_timedelta s') < 40 /\ Z.abs (t_timedelta s') <= 999 /\
    0 <= -999 * t_timedelta s' /\ (Z.rem (-999) 40 = 0 -> t_timedelta s' = -999).
Proof.
  apply (adjtime_correction 40 1000000 (demo_time []) 3 root_ident (TV 0 (-999)));
    [exact demo_wf|reflexivity|reflexivity|lia|unfold is_s32, us; simpl; lia..|discriminate].
Defined.

Lemma itimerdecr_no_drift_witness :
  let '(k, itp') := run_ticks 7 10000 (IT (TV 0 25000) (TV 0 12000)) in
  us (it_value itp') + Z.of_nat 7 * 10000 = us (TV 0 12000) + k * us (TV 0 25000) /\
  it_interval itp' = TV 0 25000 /\
  0 < us (it_value itp') <= Z.max (us (TV 0 12000)) (us (TV 0 25000)) /\ 0 <= k.
Proof.
  apply (itimerdecr_no_drift 7 10000 (IT (TV 0 25000) (TV 0 12000)));
    unfold normal, us; simpl; lia.
Defined.

(** A positive correction the step does not divide is rounded to [tickadj], not to the
    step, so with the tenfold step the record need not be a multiple of it. *)
Lemma adjtime_not_multiple :
  exists s' o, adjtime 40 1000000 3 (inr (TV 1 50)) true (demo_time []) = Some ((0, o), s') /\
    t_tickdelta s' = 400 /\ Z.rem (t_timedelta s') (t_tickdelta s') = 40.
Proof. eexists _, _. split; [vm_compute; reflexivity|]. split; reflexivity. Qed.
