(* ===== verification/Rlimit.v ===== *)
(** * Scheduling priorities, resource limits and usage (sys/kern/kern_resource.c)

    Priorities are changed through the process lists of [Proc]; limits live in a
    structure shared copy-on-write between processes.  [setpri] (the scheduler) and
    [vm_map_protect] are outside: their calls are recorded in the state. *)

From S2P Require Import Prelude Chain Proc Cred Timers.
Local Open Scope kern_scope.

(** ** Data *)

Definition PRIO_MIN := -20.
Definition PRIO_MAX := 20.
Definition PRIO_PROCESS := 0.
Definition PRIO_PGRP := 1.
Definition PRIO_USER := 2.
Definition RLIMIT_DATA := 2.
Definition RLIMIT_STACK := 3.
Definition RLIMIT_NPROC := 7.
Definition RLIMIT_OFILE := 8.
Definition RLIM_NLIMITS := 9.
Definition PL_SHAREMOD := 1.
Definition M_VMMAP := 30.
Definition M_FILE := 38.
Definition M_FILEDESC := 39.
Definition M_PROC := 41.
Definition OFILESIZE := 5.

(** sys/sys/resource.h:98-101, [rlimit]. *)
Record rlimit := Rl { rlim_cur : Z; rlim_max : Z }.

(** sys/sys/resourcevar.h:70-74, [plimit].  [p_refcnt], an int, counts processes, which have different
    numbers up to PID_MAX and so are never more than 30000: it is not cut to its width. *)
Record plimit := Plimit { pl_rlimit : list rlimit; p_lflags : Z; p_refcnt : Z }.

(** sys/sys/resource.h:57-76, [rusage]: [ru_rest] are the counters from [ru_first] to
    [ru_last], 13 longs. *)
Record rusage := Rusage {
  ru_utime : timeval; ru_stime : timeval; ru_maxrss : Z; ru_rest : list Z }.

(** The usage kept for a process: [p_stats->p_ru], [p_stats->p_cru], [p_utime] and
    [p_stime]. *)
Record pusage := Pusage {
  p_ru : rusage; p_cru : rusage; p_utime : timeval; p_stime : timeval }.

(** A recorded call of [vm_map_protect]: start, size and whether access is granted. *)
Record protect := Protect { vp_addr : Z; vp_size : Z; vp_all : bool }.

Record rst := Rst {
  r_cred : cst;                         (* identities *)
  r_pst : pst;                          (* process tables *)
  r_limp : gmap loc loc;                (* p_limit *)
  r_lims : gmap loc plimit;
  r_usage : gmap loc pusage;
  r_setpri : list loc;                  (* setpri calls, latest first *)
  r_protect : list (loc * protect) }.   (* vm_map_protect calls, latest first *)

Definition with_cred (c : cst) (s : rst) : rst :=
  Rst c (r_pst s) (r_limp s) (r_lims s) (r_usage s) (r_setpri s) (r_protect s).
Definition with_pst (x : pst) (s : rst) : rst :=
  Rst (r_cred s) x (r_limp s) (r_lims s) (r_usage s) (r_setpri s) (r_protect s).
Definition upd_limp (p l : loc) (s : rst) : rst :=
  Rst (r_cred s) (r_pst s) (<[p := l]> (r_limp s)) (r_lims s) (r_usage s) (r_setpri s)
    (r_protect s).
Definition upd_lims (l : loc) (x : plimit) (s : rst) : rst :=
  Rst (r_cred s) (r_pst s) (r_limp s) (<[l := x]> (r_lims s)) (r_usage s) (r_setpri s)
    (r_protect s).
Definition upd_usage (p : loc) (x : pusage) (s : rst) : rst :=
  Rst (r_cred s) (r_pst s) (r_limp s) (r_lims s) (<[p := x]> (r_usage s)) (r_setpri s)
    (r_protect s).
Definition setpri (p : loc) (s : rst) : rst :=
  Rst (r_cred s) (r_pst s) (r_limp s) (r_lims s) (r_usage s) (p :: r_setpri s) (r_protect s).
Definition vm_map_protect (p : loc) (x : protect) (s : rst) : rst :=
  Rst (r_cred s) (r_pst s) (r_limp s) (r_lims s) (r_usage s) (r_setpri s)
    ((p, x) :: r_protect s).

Definition on_cred {A} (m : K cst A) : K rst A := kzoom r_cred with_cred m.
Definition on_pst {A} (m : K pst A) : K rst A := kzoom r_pst with_pst m.

(** The effective and real user ids of a process. *)
Definition p_uids (p : loc) : K cst (Z * Z) :=
  let! pr := get_proc p in
  let! pc := get_pcred (p_cred pr) in
  let! u := get_ucred (pc_ucred pc) in
  kret (cr_uid u, p_ruid pc).

(** ** Priorities *)

Section Priority.
Context (pidhashmask : Z).

(** A list of the process tables seen as a list of the whole state. *)
Definition lift_link (L : link pst) : link rst := {|
  lk_get pp s := lk_get L pp (r_pst s);
  lk_set pp v s := with_pst (lk_set L pp v (r_pst s)) s |}.

(** The processes [which] and [who] select, in the order the code meets them: the
    [switch] that [getpriority] and [setpriority] share, with [body] for the statements
    run on each process.  [None] is the [default:] case. *)
Definition prio_each {A} (curp : loc) (which who : Z) (a : A) (body : A -> loc -> K rst A)
  : K rst (option A) :=
  let! s := kget in
  let n := nproc (r_pst s) in
  if which =? PRIO_PROCESS then
    let! p := if who =? 0 then kret (Some curp) else on_pst (pfind pidhashmask who) in
    let! a := match p with Some p => body a p | None => kret a end in
    kret (Some a)
  else if which =? PRIO_PGRP then
    let! g := if who =? 0 then let! g := on_pst (group_of curp) in kret (Some g)
              else on_pst (pgfind pidhashmask who) in
    match g with
    | None => kret (Some a)
    | Some g =>
      let! pg := on_pst (getpg g) in
      let! a := each_acc (lift_link (mem_link g)) n (pg_mem pg) a body in
      kret (Some a)
    end
  else if which =? PRIO_USER then
    let! who := if who =? 0 then let! u := on_cred (p_uids curp) in kret (fst u) else kret who in
    let! a := each_acc (lift_link all_link) n (ps_allproc (r_pst s)) a (fun a p =>
          let! u := on_cred (p_uids p) in
          if fst u =? who then body a p else kret a) in
    kret (Some a)
  else kret None.

(** sys/kern/kern_resource.c:63-117, [getpriority]: the error number and the value. *)
Definition getpriority (curp : loc) (which who : Z) : K rst (Z * Z) :=
  let! low := prio_each curp which who (PRIO_MAX + 1) (fun low p =>
    let! x := on_pst (getp p) in
    kret (if pr_nice x <? low then pr_nice x else low)) in
  match low with
  | None => kret (EINVAL, 0)
  | Some low => if low =? PRIO_MAX + 1 then kret (ESRCH, 0) else kret (0, low)
  end.

(** sys/kern/kern_resource.c:177-196, [donice]. *)
Definition donice (curp chgp : loc) (n : Z) : K rst Z :=
  let! me := on_cred (p_uids curp) in
  let! him := on_cred (p_uids chgp) in
  if ztrue (fst me) && ztrue (snd me) && negb (fst me =? fst him) && negb (snd me =? fst him)
  then kret EPERM else
  let n := if PRIO_MAX <? n then PRIO_MAX else n in
  let n := if n <? PRIO_MIN then PRIO_MIN else n in
  let! x := on_pst (getp chgp) in
  let! denied := if n <? pr_nice x then on_cred (suser_proc curp) else kret 0 in
  if ztrue denied then kret EACCES else
  do! on_pst (setp chgp (p_with_nice x (s8 n))) in
  do! kmod (setpri chgp) in
  kret 0.

(** sys/kern/kern_resource.c:119-175, [setpriority]: [found] and the unused [error]. *)
Definition setpriority (curp : loc) (which who prio : Z) : K rst Z :=
  let! r := prio_each curp which who (0, 0) (fun fe p =>
    let! error := donice curp p prio in
    kret (fst fe + 1, error)) in
  match r with
  | None => kret EINVAL
  | Some (found, _) => if found =? 0 then kret ESRCH else kret 0
  end.
End Priority.

(** ** Limits *)

Section Limits.
Context (maxdsiz maxssiz USRSTACK page_mask : Z).
Context (malloc_limit : Z -> Z) (sizeof_proc sizeof_vmspace sizeof_file : Z).

(** sys/sys/malloc.h:201-233, [BUCKETINDX]: the size class of an allocation, 16 bytes
    the smallest. *)
Definition BUCKETINDX (size : Z) : Z :=
  if size <=? 16 * 128 then
    if size <=? 16 * 8 then
      if size <=? 16 * 2 then if size <=? 16 then 4 else 5
      else if size <=? 16 * 4 then 6 else 7
    else if size <=? 16 * 32 then if size <=? 16 * 16 then 8 else 9
    else if size <=? 16 * 64 then 10 else 11
  else if size <=? 16 * 2048 then
    if size <=? 16 * 512 then if size <=? 16 * 256 then 12 else 13
    else if size <=? 16 * 1024 then 14 else 15
  else if size <=? 16 * 8192 then if size <=? 16 * 4096 then 16 else 17
  else if size <=? 16 * 16384 then 18 else 19.

(** sys/sys/malloc.h:251-256, [malloc_sizelimit]. *)
Definition malloc_sizelimit (size type : Z) : Z :=
  Z.quot (malloc_limit type) (Z.shiftl 1 (BUCKETINDX size)).

(** sys/i386/include/inline.h:113-118, [min]: an unsigned minimum. *)
Definition umin (a b : Z) : Z := if u32 a <? u32 b then u32 a else u32 b.

(** sys/kern/kern_resource.c:221-245, [setrlimit]: the system's upper limit, 0 for none;
    the arguments of the fourth [malloc_sizelimit] are as in the source. *)
Definition sys_max (which : Z) : Z :=
  if which =? RLIMIT_DATA then maxdsiz
  else if which =? RLIMIT_STACK then maxssiz
  else if which =? RLIMIT_NPROC then
    umin (malloc_sizelimit sizeof_proc M_PROC) (malloc_sizelimit sizeof_vmspace M_VMMAP) / 2
  else if which =? RLIMIT_OFILE then
    umin (malloc_sizelimit M_FILE sizeof_file) (u32 (malloc_limit M_FILEDESC) / OFILESIZE) / 2
  else 0.

(** sys/kern/kern_resource.c:368-386, [limcopy]. *)
Definition limcopy (lim : loc) : K rst loc :=
  let! x := kderef (fun s => r_lims s !! lim) in
  let! s := kget in
  let l := fresh (dom (r_lims s)) in
  do! kmod (upd_lims l (Plimit (pl_rlimit x) 0 1)) in
  kret l.

(** sys/vm/vm_param.h:137-138, [trunc_page] and [round_page]. *)
Definition trunc_page (x : Z) : Z := Z.land (u32 x) (u32 (Z.lnot page_mask)).
Definition round_page (x : Z) : Z := Z.land (u32 (u32 x + page_mask)) (u32 (Z.lnot page_mask)).

(** sys/kern/kern_resource.c:272-296, [setrlimit]: the part of the stack made accessible
    or inaccessible when its soft limit moves from [old] to [new]. *)
Definition stack_change (old new : Z) : protect :=
  if old <? new
  then Protect (trunc_page (USRSTACK - new)) (round_page (new - old)) true
  else Protect (trunc_page (USRSTACK - old)) (round_page (old - new)) false.

(** The silent cut to the system's upper limit. *)
Definition clamp_limit (m : Z) (a : rlimit) : rlimit :=
  if ztrue m then Rl (if m <? rlim_cur a then m else rlim_cur a)
                     (if m <? rlim_max a then m else rlim_max a)
  else a.

(** sys/kern/kern_resource.c:198-300, [setrlimit]: [lim] is what [copyin] delivers. *)
Definition setrlimit (p : loc) (which : Z) (lim : Z + rlimit) : K rst Z :=
  let which := u32 which in
  if RLIM_NLIMITS <=? which then kret EINVAL else
  let! l0 := kderef (fun s => r_limp s !! p) in
  let! x0 := kderef (fun s => r_lims s !! l0) in
  let! alimp := knonnull (znth (pl_rlimit x0) which) in
  match lim with
  | inl error => kret error
  | inr alim =>
    let! error := if (rlim_max alimp <? rlim_cur alim) || (rlim_max alimp <? rlim_max alim)
                  then on_cred (suser_proc p) else kret 0 in
    if ztrue error then kret error else
    let alim := clamp_limit (sys_max which) alim in
    let! bad := if rlim_max alim <? rlim_cur alim then on_cred (suser_proc p) else kret 0 in
    if ztrue bad then kret EINVAL else
    let alim := if rlim_max alim <? rlim_cur alim then Rl (rlim_cur alim) (rlim_cur alim)
                else alim in
    let! l := if (1 <? p_refcnt x0) && negb (flag_set (p_lflags x0) PL_SHAREMOD) then
                do! kmod (upd_lims l0 (Plimit (pl_rlimit x0) (p_lflags x0) (p_refcnt x0 - 1))) in
                let! l := limcopy l0 in
                do! kmod (upd_limp p l) in
                kret l
              else kret l0 in
    do! (if (which =? RLIMIT_STACK) && negb (rlim_cur alim =? rlim_cur alimp)
         then kmod (vm_map_protect p (stack_change (rlim_cur alimp) (rlim_cur alim)))
         else kret tt) in
    let! x := kderef (fun s => r_lims s !! l) in
    do! kmod (upd_lims l (Plimit (zset (pl_rlimit x) which alim) (p_lflags x) (p_refcnt x))) in
    kret 0
  end.

(** sys/kern/kern_resource.c:302-316, [getrlimit]: [co] is the result of [copyout]. *)
Definition getrlimit (p : loc) (which co : Z) : K rst (Z * option rlimit) :=
  let which := u32 which in
  if RLIM_NLIMITS <=? which then kret (EINVAL, None) else
  let! l := kderef (fun s => r_limp s !! p) in
  let! x := kderef (fun s => r_lims s !! l) in
  let! lim := knonnull (znth (pl_rlimit x) which) in
  kret (co, if ztrue co then None else Some lim).

(** sys/kern/kern_fork.c:200-211, [fork1]: the child's limits, a private copy when the
    parent's are shared for modification and the parent's own, copy-on-write, if not. *)
Definition fork_limits (p1 p2 : loc) : K rst unit :=
  let! l := kderef (fun s => r_limp s !! p1) in
  let! x := kderef (fun s => r_lims s !! l) in
  if flag_set (p_lflags x) PL_SHAREMOD then
    let! n := limcopy l in
    kmod (upd_limp p2 n)
  else
    do! kmod (upd_limp p2 l) in
    kmod (upd_lims l (Plimit (pl_rlimit x) (p_lflags x) (p_refcnt x + 1))).
End Limits.

(** ** Usage *)

Definition RUSAGE_SELF := 0.
Definition RUSAGE_CHILDREN := -1.

(** sys/kern/kern_resource.c:318-351, [getrusage]: [co] is the result of [copyout]. *)
Definition getrusage (p : loc) (who co : Z) : K rst (Z * option rusage) :=
  let out ru := kret (co, if ztrue co then None else Some ru) in
  if who =? RUSAGE_SELF then
    let! u := kderef (fun s => r_usage s !! p) in
    let ru := Rusage (p_utime u) (p_stime u) (ru_maxrss (p_ru u)) (ru_rest (p_ru u)) in
    do! kmod (upd_usage p (Pusage ru (p_cru u) (p_utime u) (p_stime u))) in
    out ru
  else if who =? RUSAGE_CHILDREN then
    let! u := kderef (fun s => r_usage s !! p) in
    out (p_cru u)
  else kret (EINVAL, None).

(** sys/kern/kern_resource.c:353-366, [ruadd]: [&ru_last - &ru_first] is 12, so the loop
    adds the counters from [ru_first] up to, and without, [ru_last]. *)
Definition ruadd (ru ru2 : rusage) : rusage :=
  Rusage (timevaladd (ru_utime ru) (ru_utime ru2)) (timevaladd (ru_stime ru) (ru_stime ru2))
    (if ru_maxrss ru <? ru_maxrss ru2 then ru_maxrss ru2 else ru_maxrss ru)
    (zip_with (fun a b => s32 (a + b)) (take 12 (ru_rest ru)) (take 12 (ru_rest ru2))
       ++ drop 12 (ru_rest ru)).
