(* ===== verification/RlimitSafety.v ===== *)
(** * Correctness of priorities, limits and usage

    [setrlimit] against its specification on every branch, the isolation that
    copy-on-write limits give, the rule that an unprivileged process never regains a
    limit it lost, the permission rule of [donice] and of [setpriority] on a group, and
    the sums of [ruadd]. *)

From S2P Require Import Prelude Chain Count Proc Cred CredSafety Timers TimersSafety Rlimit.
Local Open Scope kern_scope.

(** ** The invariant *)

Implicit Types s : rst.

Definition points_at (l : loc) (_ : loc) (l' : loc) : bool := bool_decide (l' = l).

(** How many processes use the limit structure [l]. *)
Definition sharers (s : rst) (l : loc) : Z := count (points_at l) (r_limp s).

(** Every process has a limit structure with all its slots, whose reference count is
    the number of processes that use it. *)
Definition rwf (s : rst) : Prop :=
  forall p l, r_limp s !! p = Some l ->
    exists x, r_lims s !! l = Some x /\ zlen (pl_rlimit x) = RLIM_NLIMITS /\
      p_refcnt x = sharers s l.

(** No limit structure is shared for modification ([PL_SHAREMOD] is for threads). *)
Definition cow (s : rst) : Prop :=
  forall l x, r_lims s !! l = Some x -> flag_set (p_lflags x) PL_SHAREMOD = false.

Definition lims_of (s : rst) (p : loc) : option (list rlimit) :=
  match r_limp s !! p with
  | Some l => pl_rlimit <$> r_lims s !! l
  | None => None
  end.

Lemma with_cred_twice c1 c2 s : with_cred c1 (with_cred c2 s) = with_cred c1 s.
Proof. done. Qed.

Lemma with_cred_id (s : rst) : with_cred (r_cred s) s = s.
Proof. by destruct s. Qed.

(** The superuser test behind a condition. *)
Lemma r_suser (s : rst) p i (b : bool) :
  wf (r_cred s) -> ident_of (r_cred s) p = Some i ->
  exists c, (if b then on_cred (suser_proc p) else kret 0) s =
      Some (if b && negb (id_euid i =? 0) then EPERM else 0, with_cred c s) /\
    flags_only (r_cred s) c.
Proof.
  intros Hwf Hi. destruct b.
  - destruct (suser_proc_ident _ p i Hwf Hi) as (c & Hc & Hf & _). exists c.
    unfold on_cred, kzoom. rewrite Hc. simpl. by destruct (id_euid i =? 0).
  - exists (r_cred s). unfold kret. by rewrite with_cred_id.
Qed.

(** ** Storing a limit *)

Section Store.
Context (USRSTACK page_mask : Z).

(** What [setrlimit] does once the new limit is settled. *)
Definition store_limit (p l0 : loc) (x0 : plimit) (which : Z) (alimp alim : rlimit) : K rst Z :=
  let! l := if (1 <? p_refcnt x0) && negb (flag_set (p_lflags x0) PL_SHAREMOD) then
              do! kmod (upd_lims l0 (Plimit (pl_rlimit x0) (p_lflags x0) (p_refcnt x0 - 1))) in
              let! l := limcopy l0 in
              do! kmod (upd_limp p l) in
              kret l
            else kret l0 in
  do! (if (which =? RLIMIT_STACK) && negb (rlim_cur alim =? rlim_cur alimp)
       then kmod (vm_map_protect p (stack_change USRSTACK page_mask (rlim_cur alimp) (rlim_cur alim)))
       else kret tt) in
  let! x := kderef (fun s => r_lims s !! l) in
  do! kmod (upd_lims l (Plimit (zset (pl_rlimit x) which alim) (p_lflags x) (p_refcnt x))) in
  kret 0.

(** The states that differ in recorded calls only. *)
Definition same_tables (s s' : rst) : Prop :=
  r_cred s' = r_cred s /\ r_pst s' = r_pst s /\ r_limp s' = r_limp s /\ r_lims s' = r_lims s.

Lemma protect_tables s p which a b :
  exists s', (if (which =? RLIMIT_STACK) && negb (rlim_cur a =? rlim_cur b)
    then kmod (vm_map_protect p (stack_change USRSTACK page_mask (rlim_cur b) (rlim_cur a)))
    else kret tt) s = Some (tt, s') /\ same_tables s s'.
Proof. case_match; (eexists; split; [reflexivity|repeat split]). Qed.

Lemma sharers_repoint s p l n y :
  r_limp s !! p = Some l ->
  count (points_at y) (<[p := n]> (r_limp s)) =
    sharers s y - ind (bool_decide (l = y)) + ind (bool_decide (n = y)).
Proof. intros Hp. by apply (count_insert (points_at y)). Qed.

(** Another process that uses [l] makes the count more than one. *)
Lemma sharers_two s p q l :
  r_limp s !! p = Some l -> r_limp s !! q = Some l -> p <> q -> 2 <= sharers s l.
Proof.
  intros Hp Hq Hne. eapply count_two; [exact Hp|exact Hq|done|..]; by apply bool_decide_true.
Qed.

Lemma sharers_unused s l : (forall p, r_limp s !! p <> Some l) -> sharers s l = 0.
Proof.
  intros H. apply count_zero. intros p l' Hp. apply bool_decide_eq_false_2. intros ->.
  by apply (H p).
Qed.

Lemma store_limit_spec s p l0 x0 which alimp alim :
  rwf s -> r_limp s !! p = Some l0 -> r_lims s !! l0 = Some x0 ->
  exists s', store_limit p l0 x0 which alimp alim s = Some (0, s') /\ rwf s' /\
    r_cred s' = r_cred s /\ r_pst s' = r_pst s /\ (cow s -> cow s') /\
    lims_of s' p = Some (zset (pl_rlimit x0) which alim) /\
    (forall q, q <> p -> r_limp s !! q <> Some l0 \/ flag_set (p_lflags x0) PL_SHAREMOD = false ->
       lims_of s' q = lims_of s q).
Proof.
  intros Hwf Hp Hx. destruct (Hwf _ _ Hp) as (x & Hx' & Hlen & Href). simplify_eq.
  unfold store_limit. destruct ((1 <? p_refcnt x0) && _) eqn:Hcow.
  - apply andb_prop in Hcow as [Hgt Hflag].
    set (n := fresh (dom (<[l0 := Plimit (pl_rlimit x0) (p_lflags x0) (p_refcnt x0 - 1)]> (r_lims s)))).
    assert (Hn : r_lims s !! n = None /\ n <> l0).
    { pose proof (is_fresh (dom (<[l0 := Plimit (pl_rlimit x0) (p_lflags x0) (p_refcnt x0 - 1)]>
        (r_lims s)))) as Hf. fold n in Hf. rewrite dom_insert_L in Hf.
      split; [apply not_elem_of_dom|]; set_solver. }
    destruct Hn as [Hn Hne].
    unfold limcopy. kunf. simpl. rewrite lookup_insert_eq. simpl. fold n.
    edestruct protect_tables as (s1 & Hs1 & E1 & E2 & El & Em).
    unfold kret, kmod in Hs1. rewrite Hs1. simpl. rewrite Em. simpl. rewrite lookup_insert_eq. simpl.
    assert (Hnone : forall q, r_limp s !! q <> Some n).
    { intros q Hq. destruct (Hwf _ _ Hq) as (? & ? & _). congruence. }
    eexists. split; [reflexivity|].
    split.
    { intros q l Hq. simpl in Hq. rewrite El in Hq. simpl in Hq. unfold sharers. simpl. rewrite Em, El.
      simpl. rewrite (sharers_repoint s p l0 n) by done.
      destruct (decide (n = l)) as [<-|Hnl].
      - rewrite lookup_insert_eq. eexists. split; [done|]. simpl. rewrite zlen_zset. split; [done|].
        rewrite sharers_unused by done. by rewrite ind_false, ind_true by auto.
      - rewrite lookup_insert_ne, lookup_insert_ne by done.
        destruct (decide (q = p)) as [->|Hqp]; [by rewrite lookup_insert_eq in Hq; simplify_eq|].
        rewrite lookup_insert_ne in Hq by done. destruct (Hwf _ _ Hq) as (y & Hy & Hly & Hry).
        rewrite (ind_false (n = l)) by done.
        destruct (decide (l0 = l)) as [<-|Hll]; simplify_eq.
        + rewrite lookup_insert_eq. eexists. split; [done|]. simpl. split; [done|].
          rewrite ind_true by done. lia.
        + rewrite lookup_insert_ne by done. exists y. rewrite ind_false by done.
          split_and!; try done. lia. }
    split_and!; [exact E1|exact E2|..].
    + intros Hcw l y. simpl. rewrite Em. simpl. intros Hl. map_cases; try done; [|by eapply Hcw].
      by apply (Hcw l).
    + unfold lims_of. simpl. rewrite El, Em. simpl. rewrite lookup_insert_eq. by rewrite lookup_insert_eq.
    + intros q Hq _. unfold lims_of. simpl. rewrite El, Em. simpl.
      rewrite lookup_insert_ne by done. destruct (r_limp s !! q) as [l|] eqn:Hl; [|done].
      rewrite !lookup_insert_ne by (intros ->; by apply (Hnone q)).
      destruct (decide (l0 = l)) as [<-|Hll]; [by rewrite lookup_insert_eq, Hx|].
      by rewrite lookup_insert_ne.
  - kunf. edestruct protect_tables as (s1 & Hs1 & E1 & E2 & El & Em).
    unfold kret, kmod in Hs1. rewrite Hs1. rewrite Em, Hx. simpl.
    eexists. split; [reflexivity|]. split.
    { intros q l Hq. simpl in Hq. rewrite El in Hq. destruct (Hwf _ _ Hq) as (y & Hy & Hly & Hry).
      simpl. unfold sharers. simpl. rewrite Em, El. destruct (decide (l0 = l)) as [<-|Hll].
      - rewrite lookup_insert_eq. eexists. split; [done|]. simpl. by rewrite zlen_zset.
      - rewrite lookup_insert_ne by done. by exists y. }
    split_and!; [exact E1|exact E2|..].
    + intros Hcw l y. simpl. rewrite Em. intros Hl. map_cases; [|by eapply Hcw].
      by apply (Hcw l).
    + unfold lims_of. simpl. by rewrite El, Em, Hp, lookup_insert_eq.
    + intros q Hq Hor. unfold lims_of. simpl. rewrite El, Em.
      destruct (r_limp s !! q) as [l|] eqn:Hl; [|done].
      rewrite lookup_insert_ne; [done|]. intros <-. destruct Hor as [Hor|Hor]; [done|].
      pose proof (sharers_two s p q l0 Hp Hl ltac:(done)). rewrite Hor in Hcow.
      apply andb_false_iff in Hcow as [Hc|Hc]; [|done]. lia.
Qed.
End Store.

(** ** The contract of [setrlimit] and of [fork] *)

Section Calls.
Context (maxdsiz maxssiz USRSTACK page_mask : Z).
Context (malloc_limit : Z -> Z) (sizeof_proc sizeof_vmspace sizeof_file : Z).

Abbreviation sysmax := (sys_max maxdsiz maxssiz malloc_limit sizeof_proc sizeof_vmspace sizeof_file).
Abbreviation set_limit := (setrlimit maxdsiz maxssiz USRSTACK page_mask malloc_limit sizeof_proc
  sizeof_vmspace sizeof_file).

(** What a change of a limit from [old] to [lim] comes to, with [m] the system's upper
    limit: an error, or the limit stored. *)
Definition limit_outcome (priv : bool) (m : Z) (old lim : rlimit) : Z + rlimit :=
  if negb priv && ((rlim_max old <? rlim_cur lim) || (rlim_max old <? rlim_max lim))
  then inl EPERM else
  let a := clamp_limit m lim in
  if rlim_max a <? rlim_cur a
  then if priv then inr (Rl (rlim_cur a) (rlim_cur a)) else inl EINVAL
  else inr a.

(** Every process has limits of its own: the abstract effect on those of the caller. *)
Definition limit_spec (priv : bool) (which : Z) (lim : rlimit) (ls : list rlimit)
  : Z * list rlimit :=
  match znth ls which with
  | Some old =>
    match limit_outcome priv (sysmax which) old lim with
    | inl e => (e, ls)
    | inr new => (0, zset ls which new)
    end
  | None => (EINVAL, ls)
  end.

Lemma setrlimit_store s p l0 x0 which old lim :
  0 <= which < RLIM_NLIMITS -> r_limp s !! p = Some l0 -> r_lims s !! l0 = Some x0 ->
  znth (pl_rlimit x0) which = Some old ->
  forall c1 c2 e1 e2,
  (if (rlim_max old <? rlim_cur lim) || (rlim_max old <? rlim_max lim)
   then on_cred (suser_proc p) else kret 0) s = Some (e1, with_cred c1 s) ->
  let a := clamp_limit (sysmax which) lim in
  (if rlim_max a <? rlim_cur a then on_cred (suser_proc p) else kret 0) (with_cred c1 s)
    = Some (e2, with_cred c2 s) ->
  set_limit p which (inr lim) s =
    if ztrue e1 then Some (e1, with_cred c1 s) else
    if ztrue e2 then Some (EINVAL, with_cred c2 s) else
    store_limit USRSTACK page_mask p l0 x0 which old
      (if rlim_max a <? rlim_cur a then Rl (rlim_cur a) (rlim_cur a) else a) (with_cred c2 s).
Proof.
  intros Hw Hp Hx Hold c1 c2 e1 e2 H1 a H2. unfold setrlimit.
  rewrite u32_id by (unfold RLIM_NLIMITS, is_u32 in *; lia).
  destruct (Z.leb_spec RLIM_NLIMITS which); [lia|].
  unfold kbind at 1, kderef at 1. rewrite Hp. unfold kbind at 1, kderef at 1. rewrite Hx.
  unfold kbind at 1, knonnull at 1. rewrite Hold. unfold kbind at 1. rewrite H1.
  destruct (ztrue e1); [done|]. unfold kbind at 1. fold a. rewrite H2.
  by destruct (ztrue e2).
Qed.

(** One successful or refused change: the caller's limits follow the specification, all
    else is as before. *)
Lemma setrlimit_spec s p i ls which lim :
  wf (r_cred s) -> ident_of (r_cred s) p = Some i -> rwf s -> cow s ->
  lims_of s p = Some ls -> 0 <= which < RLIM_NLIMITS ->
  exists s', set_limit p which (inr lim) s =
      Some (fst (limit_spec (id_euid i =? 0) which lim ls), s') /\
    flags_only (r_cred s) (r_cred s') /\ rwf s' /\ cow s' /\
    lims_of s' p = Some (snd (limit_spec (id_euid i =? 0) which lim ls)) /\
    (forall q, q <> p -> lims_of s' q = lims_of s q).
Proof.
  intros Hwf Hi Hr Hcow Hls Hw. unfold lims_of in Hls.
  destruct (r_limp s !! p) as [l0|] eqn:Hp; [|done].
  destruct (Hr _ _ Hp) as (x0 & Hx & Hlen & _). rewrite Hx in Hls. simplify_eq/=.
  destruct (proj1 (znth_is_some (pl_rlimit x0) which)) as [old Hold]; [lia|].
  destruct (r_suser s p i ((rlim_max old <? rlim_cur lim) || (rlim_max old <? rlim_max lim)))
    as (c1 & H1 & F1); [done..|].
  set (a := clamp_limit (sysmax which) lim).
  destruct (r_suser (with_cred c1 s) p i (rlim_max a <? rlim_cur a)) as (c2 & H2 & F2).
  { by apply (flags_only_wf (r_cred s)). }
  { simpl. by rewrite (flags_only_ident (r_cred s)). }
  rewrite with_cred_twice in H2. simpl in F2.
  assert (F12 : flags_only (r_cred s) c2) by (by eapply flags_only_trans).
  rewrite (setrlimit_store s p l0 x0 which old lim Hw Hp Hx Hold _ _ _ _ H1 H2).
  unfold limit_spec, limit_outcome. rewrite Hold. fold a.
  rewrite andb_comm. destruct (negb (id_euid i =? 0) && _) eqn:Hperm.
  { exists (with_cred c1 s). split_and!; try done. unfold lims_of. simpl. by rewrite Hp, Hx. }
  destruct (store_limit_spec USRSTACK page_mask (with_cred c2 s) p l0 x0 which old
    (if rlim_max a <? rlim_cur a then Rl (rlim_cur a) (rlim_cur a) else a))
    as (s' & Hs' & Hr' & Ec & _ & Hcow' & Hme & Hoth); try done.
  destruct (rlim_max a <? rlim_cur a), (id_euid i =? 0); simpl.
  2: { exists (with_cred c2 s). split_and!; try done. unfold lims_of. simpl. by rewrite Hp, Hx. }
  all: exists s'; split_and!; [exact Hs'|by rewrite Ec|done|by apply Hcow'|done|].
  all: intros q Hq; apply Hoth; [done|right; by apply (Hcow l0)].
Qed.
(** The child of a fork starts with its parent's limits. *)
Lemma fork_limits_spec s p1 p2 ls :
  rwf s -> cow s -> lims_of s p1 = Some ls -> r_limp s !! p2 = None ->
  exists s', fork_limits p1 p2 s = Some (tt, s') /\ r_cred s' = r_cred s /\ rwf s' /\ cow s' /\
    lims_of s' p2 = Some ls /\ (forall q, q <> p2 -> lims_of s' q = lims_of s q).
Proof.
  intros Hr Hcow Hls Hp2. unfold lims_of in Hls.
  destruct (r_limp s !! p1) as [l|] eqn:Hp; [|done].
  destruct (Hr _ _ Hp) as (x & Hx & Hlen & Href). rewrite Hx in Hls. simplify_eq/=.
  unfold fork_limits. kunf. rewrite Hp, Hx, (Hcow l x Hx).
  eexists. split; [reflexivity|]. split; [done|]. split.
  { intros q l' Hq. simpl in *. unfold sharers. simpl. rewrite (count_insert_new (points_at l')) by done.
    assert (Hq' : r_limp s !! q = Some l' \/ l' = l).
    { apply lookup_insert_Some in Hq as [[_ ->]|[_ Hq]]; auto. }
    assert (exists y, r_lims s !! l' = Some y /\ zlen (pl_rlimit y) = RLIM_NLIMITS /\
      p_refcnt y = sharers s l') as (y & Hy & Hly & Hry).
    { destruct Hq' as [Hq'| ->]; [by eapply Hr|by exists x]. }
    unfold points_at at 2. destruct (decide (l = l')) as [<-|Hne].
    - rewrite lookup_insert_eq, ind_true by done. eexists. split; [done|]. simpl.
      simplify_eq. split; [done|]. unfold sharers in Href. lia.
    - rewrite lookup_insert_ne, ind_false by done. exists y. split_and!; try done.
      unfold sharers in Hry. lia. }
  split; [|split].
  - intros l' y. simpl. intros Hl. map_cases; [|by eapply Hcow]. exact (Hcow _ _ Hx).
  - unfold lims_of. simpl. rewrite lookup_insert_eq. by rewrite lookup_insert_eq.
  - intros q Hq. unfold lims_of. simpl. rewrite lookup_insert_ne by done.
    destruct (r_limp s !! q) as [l'|]; [|done].
    destruct (decide (l = l')) as [<-|Hne]; [by rewrite lookup_insert_eq, Hx|].
    by rewrite lookup_insert_ne.
Qed.

(** *** Properties *)

Inductive lim_call :=
| Setrlimit (p : loc) (which : Z) (lim : rlimit)
| ForkLimits (p1 p2 : loc).

Definition do_lim_call (c : lim_call) : K rst Z :=
  match c with
  | Setrlimit p which lim => set_limit p which (inr lim)
  | ForkLimits p1 p2 => do! fork_limits p1 p2 in kret 0
  end.

(** The call on private limits: whose limits change, the error, and the new limits. *)
Definition spec_lim_call (priv : loc -> bool) (ls : loc -> list rlimit) (c : lim_call)
  : loc * Z * list rlimit :=
  match c with
  | Setrlimit p which lim =>
    let r := limit_spec (priv p) which lim (ls p) in (p, fst r, snd r)
  | ForkLimits p1 p2 => (p2, 0, ls p1)
  end.

(** The caller exists, a child does not exist yet, and the resource is one of the nine. *)
Definition lim_call_ok (s : rst) (c : lim_call) : Prop :=
  match c with
  | Setrlimit p which _ =>
    is_Some (ident_of (r_cred s) p) /\ is_Some (lims_of s p) /\ 0 <= which < RLIM_NLIMITS
  | ForkLimits p1 p2 => is_Some (lims_of s p1) /\ r_limp s !! p2 = None
  end.

Definition privileged (s : rst) (p : loc) : bool :=
  match ident_of (r_cred s) p with Some i => id_euid i =? 0 | None => false end.

(** C26. Copy-on-write sharing of resource limits is invisible: [setrlimit] and the
    limits part of [fork] return the error number and have the effect of a kernel in
    which every process owns its limits.  Only the process named by the specification
    changes, on every branch - refused, cut to the system's limit, raised with privilege
    - and the reference counts stay equal to the number of users. *)
Theorem limit_call_refines s c ls :
  wf (r_cred s) -> rwf s -> cow s -> lim_call_ok s c ->
  (forall q l, lims_of s q = Some l -> ls q = l) ->
  let '(p, e, l) := spec_lim_call (privileged s) ls c in
  exists s', do_lim_call c s = Some (e, s') /\
    wf (r_cred s') /\ rwf s' /\ cow s' /\ lims_of s' p = Some l /\
    (forall q, q <> p -> lims_of s' q = lims_of s q) /\
    (forall q, ident_of (r_cred s') q = ident_of (r_cred s) q).
Proof.
  intros Hwf Hr Hcow Hok Hls. destruct c as [p which lim|p1 p2]; simpl in *.
  - destruct Hok as ([i Hi] & [l Hl] & Hw). unfold privileged. rewrite Hi.
    destruct (setrlimit_spec s p i l which lim) as (s' & Hrun & Hf & H1 & H2 & H3 & H4); try done.
    rewrite (Hls p l Hl). exists s'. split_and!; try done.
    + by apply (flags_only_wf (r_cred s)).
    + intros q. by apply flags_only_ident.
  - destruct Hok as ([l Hl] & Hp2).
    destruct (fork_limits_spec s p1 p2 l) as (s' & Hrun & Ec & H1 & H2 & H3 & H4); try done.
    exists s'. unfold kbind. rewrite Hrun, (Hls p1 l Hl), Ec. done.
Qed.

(** A run of [setrlimit] calls by one process. *)
Fixpoint run_limits (p : loc) (calls : list (Z * rlimit)) : K rst (list Z) :=
  match calls with
  | [] => kret []
  | (which, lim) :: calls =>
    let! e := set_limit p which (inr lim) in
    let! es := run_limits p calls in
    kret (e :: es)
  end.

(** [new] is no more permissive than [old] allows: the hard limit is not raised, and a
    soft limit that changed does not exceed it. *)
Definition no_raise (old new : rlimit) : Prop :=
  rlim_max new <= rlim_max old /\ (new = old \/ rlim_cur new <= rlim_max new).

Lemma limit_spec_no_raise which lim ls which' old :
  0 <= which < zlen ls -> znth ls which' = Some old ->
  exists new, znth (snd (limit_spec false which lim ls)) which' = Some new /\ no_raise old new.
Proof.
  intros Hw Hold. unfold limit_spec. destruct (znth ls which) as [o|] eqn:Ho.
  2: { exists old. split; [done|]. split; [lia|by left]. }
  unfold limit_outcome. simpl.
  destruct ((rlim_max o <? rlim_cur lim) || _) eqn:Hperm; simpl.
  { exists old. split; [done|]. split; [lia|by left]. }
  bool_hyps. set (a := clamp_limit _ lim).
  destruct (Z.ltb_spec (rlim_max a) (rlim_cur a)); simpl.
  { exists old. split; [done|]. split; [lia|by left]. }
  rewrite znth_zset by done. destruct (Z.eqb_spec which' which) as [->|].
  - simplify_eq. exists a. split; [done|]. split; [|by right].
    unfold a, clamp_limit. repeat case_match; simpl; lia.
  - exists old. split; [done|]. split; [lia|by left].
Qed.

Lemma limit_spec_len priv which lim ls : zlen (snd (limit_spec priv which lim ls)) = zlen ls.
Proof. unfold limit_spec. repeat case_match; simpl; rewrite ?zlen_zset; done. Qed.

(** A hard limit lowered by an unprivileged process stays lowered: after any run of
    [setrlimit] calls, for any resources and values, every hard limit of the caller is at
    most what it was, a soft limit that was set does not exceed its hard limit, and the
    limits of every other process are what they were. *)
Theorem setrlimit_no_raise s p i ls calls which old :
  wf (r_cred s) -> rwf s -> cow s -> ident_of (r_cred s) p = Some i -> id_euid i <> 0 ->
  lims_of s p = Some ls -> Forall (fun c => 0 <= fst c < RLIM_NLIMITS) calls ->
  zlen ls = RLIM_NLIMITS -> znth ls which = Some old ->
  exists es s' ls' new, run_limits p calls s = Some (es, s') /\
    lims_of s' p = Some ls' /\ znth ls' which = Some new /\
    rlim_max new <= rlim_max old /\ (new = old \/ rlim_cur new <= rlim_max new) /\
    (forall q, q <> p -> lims_of s' q = lims_of s q).
Proof.
  intros Hwf Hr Hcow Hi Hne Hls Hcalls Hlen Hold.
  revert s ls old Hwf Hr Hcow Hi Hls Hlen Hold.
  induction Hcalls as [|[w lim] calls Hw _ IH]; intros s ls old Hwf Hr Hcow Hi Hls Hlen Hold.
  - exists [], s, ls, old. split_and!; try done. by left.
  - destruct (setrlimit_spec s p i ls w lim) as (s1 & Hrun & Hf & Hr1 & Hcow1 & Hme & Hoth);
      try done.
    apply Z.eqb_neq in Hne as Hne'. rewrite Hne' in Hme, Hrun. simpl in Hw.
    destruct (limit_spec_no_raise w lim ls which old) as (o1 & Ho1 & Hmax & Hcur);
      [rewrite Hlen; done|done|].
    destruct (IH s1 (snd (limit_spec false w lim ls)) o1)
      as (es & s' & ls' & new & Hrun' & Hl' & Hn' & Hmax' & Hcur' & Hoth'); try done.
    + by apply (flags_only_wf (r_cred s)).
    + by rewrite (flags_only_ident (r_cred s)).
    + by rewrite limit_spec_len.
    + eexists (_ :: es), s', ls', new. simpl. unfold kbind, kret. rewrite Hrun, Hrun'.
      split; [reflexivity|]. split_and!; try done; [lia| |].
      * destruct Hcur' as [->|]; auto.
      * intros q Hq. by rewrite Hoth', Hoth.
Qed.
End Calls.

(** ** Priorities *)

(** The effective and real ids [p_uids] reads. *)
Lemma p_uids_ident (c : cst) p i :
  ident_of c p = Some i -> p_uids p c = Some ((id_euid i, id_ruid i), c).
Proof.
  unfold ident_of, p_uids, get_proc, get_pcred, get_ucred. kunf.
  destruct (procs c !! p) as [pr|]; [|done]. destruct (pcreds c !! p_cred pr) as [pc|]; [|done].
  destruct (ucreds c !! pc_ucred pc) as [u|]; [|done]. by intros [= <-].
Qed.

Definition clamp_nice (n : Z) : Z := Z.max PRIO_MIN (Z.min PRIO_MAX n).

(** What [donice] does to a process of effective uid [e] and priority [old] for a caller
    with identity [i]: the error number and the new priority. *)
Definition nice_outcome (i : ident) (e old n : Z) : Z * Z :=
  if negb (id_euid i =? 0) && negb (id_ruid i =? 0) && negb (id_euid i =? e) &&
     negb (id_ruid i =? e) then (EPERM, old)
  else if (clamp_nice n <? old) && negb (id_euid i =? 0) then (EACCES, old)
  else (0, clamp_nice n).

(** The states that differ in accounting flags, recorded calls and the priority of [p]. *)
Definition renices (s s' : rst) (p : loc) (n : Z) : Prop :=
  flags_only (r_cred s) (r_cred s') /\
  r_limp s' = r_limp s /\ r_lims s' = r_lims s /\ ps_pgrps (r_pst s') = ps_pgrps (r_pst s) /\
  forall q, ps_procs (r_pst s') !! q =
    (fun x => if decide (q = p) then p_with_nice x n else x) <$> ps_procs (r_pst s) !! q.

Lemma p_with_nice_id x : p_with_nice x (pr_nice x) = x.
Proof. by destruct x. Qed.

Lemma renices_same s c p x :
  ps_procs (r_pst s) !! p = Some x -> flags_only (r_cred s) c ->
  renices s (with_cred c s) p (pr_nice x).
Proof.
  intros Hx Hf. repeat (split; [done|]). intros q. simpl.
  destruct (ps_procs (r_pst s) !! q) as [y|] eqn:Hy; [|done]. simpl.
  case_decide; [|done]. simplify_eq. by rewrite p_with_nice_id.
Qed.

Lemma donice_spec s curp p i j x n :
  wf (r_cred s) -> ident_of (r_cred s) curp = Some i -> ident_of (r_cred s) p = Some j ->
  ps_procs (r_pst s) !! p = Some x ->
  exists s', donice curp p n s = Some (fst (nice_outcome i (id_euid j) (pr_nice x) n), s') /\
    renices s s' p (snd (nice_outcome i (id_euid j) (pr_nice x) n)).
Proof.
  intros Hwf Hi Hj Hx. unfold donice. unfold kbind at 1, on_cred at 1, kzoom at 1.
  rewrite (p_uids_ident _ _ _ Hi). unfold kbind at 1, on_cred at 1, kzoom at 1. simpl.
  rewrite (p_uids_ident _ _ _ Hj). simpl. rewrite !with_cred_id.
  unfold nice_outcome, ztrue. destruct (_ && negb (id_ruid i =? id_euid j)) eqn:Hperm.
  { exists s. split; [done|]. rewrite <- (with_cred_id s) at 2. simpl.
    by apply renices_same. }
  replace (if _ <? PRIO_MIN then PRIO_MIN else _) with (clamp_nice n)
    by (unfold clamp_nice, PRIO_MIN, PRIO_MAX; repeat case_match; lia).
  unfold kbind at 1, on_pst at 1, kzoom at 1, getp, kderef. rewrite Hx.
  destruct (r_suser s curp i (clamp_nice n <? pr_nice x)) as (c & Hc & Hf); [done..|].
  unfold kbind at 1. replace (with_pst (r_pst s) s) with s by (by destruct s). rewrite Hc.
  destruct ((clamp_nice n <? pr_nice x) && _) eqn:Hden; simpl.
  { exists (with_cred c s). split; [done|]. by apply renices_same. }
  eexists. split; [reflexivity|]. repeat (split; [done|]). simpl. intros q.
  replace (s8 (clamp_nice n)) with (clamp_nice n)
    by (unfold clamp_nice, PRIO_MIN, PRIO_MAX in *; mlia).
  destruct (decide (q = p)) as [->|Hne].
  - by rewrite lookup_insert_eq, Hx.
  - rewrite lookup_insert_ne by done. by destruct (ps_procs (r_pst s) !! q).
Qed.

Lemma lift_chain L s pp l : chain L (r_pst s) pp l -> chain (lift_link L) s pp l.
Proof.
  revert pp. induction l as [|x l IH]; intros pp; simpl; [done|]. intros [H1 H2]. auto.
Qed.

(** The priority a member ends with. *)
Definition group_nice (s : rst) (i : ident) (n : Z) (p : loc) (x : proc) : Z :=
  match ident_of (r_cred s) p with
  | Some j => snd (nice_outcome i (id_euid j) (pr_nice x) n)
  | None => pr_nice x
  end.

(** The state of the group loop of [setpriority] when [done] have been visited. *)
Definition group_inv (s0 : rst) (i : ident) (n : Z) (a : Z * Z) (s : rst) (visited : list loc) : Prop :=
  fst a = zlen visited /\ flags_only (r_cred s0) (r_cred s) /\
  ps_pgrps (r_pst s) = ps_pgrps (r_pst s0) /\
  forall q, ps_procs (r_pst s) !! q =
    (fun x => if decide (q ∈ visited) then p_with_nice x (group_nice s0 i n q x) else x)
      <$> ps_procs (r_pst s0) !! q.

Lemma group_visit s0 s curp i n p x a visited :
  wf (r_cred s0) -> ident_of (r_cred s0) curp = Some i ->
  is_Some (ident_of (r_cred s0) p) -> ps_procs (r_pst s0) !! p = Some x -> p ∉ visited ->
  group_inv s0 i n a s visited ->
  exists a' s', (let! e := donice curp p n in kret (fst a + 1, e)) s = Some (a', s') /\
    group_inv s0 i n a' s' (visited ++ [p]) /\
    (forall q, pr_pgrpnxt <$> ps_procs (r_pst s') !! q = pr_pgrpnxt <$> ps_procs (r_pst s) !! q).
Proof.
  intros Hwf Hi [j Hj] Hx Hp (Ha & Hf & Hg & Hq).
  assert (Hxs : ps_procs (r_pst s) !! p = Some x) by (rewrite Hq, Hx; simpl; by rewrite decide_False).
  destruct (donice_spec s curp p i j x n) as (s' & Hrun & Hf' & _ & _ & Hg' & Hq').
  { by apply (flags_only_wf (r_cred s0)). }
  1,2: by rewrite (flags_only_ident (r_cred s0)).
  { done. }
  eexists _, s'. unfold kbind. rewrite Hrun. split; [reflexivity|]. split.
  - split; [simpl; rewrite zlen_app, Ha; done|]. split; [by eapply flags_only_trans|].
    split; [congruence|]. intros q. rewrite Hq', Hq.
    destruct (ps_procs (r_pst s0) !! q) as [y|] eqn:Hy; [|done]. simpl. f_equal.
    destruct (decide (q = p)) as [->|Hne].
    + simplify_eq. rewrite decide_False, decide_True by set_solver. unfold group_nice. by rewrite Hj.
    + destruct (decide (q ∈ visited)); [rewrite decide_True by set_solver|rewrite decide_False by set_solver]; done.
  - intros q. rewrite Hq'. destruct (ps_procs (r_pst s) !! q); [|done]. simpl. by case_decide.
Qed.

(** [setpriority] on the caller's own process group visits every member once and
    applies to each the rule of [donice]: members of another user are left alone (unless
    the caller's effective or real uid is 0), the priority is cut to -20..20, only the
    superuser lowers a value; every process outside the group, and everything else about
    the members, is unchanged.  The call answers 0 even when every member refused it. *)
Theorem setpriority_group mask s curp i g n x l :
  wf (r_cred s) -> ident_of (r_cred s) curp = Some i ->
  ps_procs (r_pst s) !! curp = Some x -> pr_pgrp x = Some g ->
  chain (mem_link g) (r_pst s) PHead l -> NoDup l ->
  (forall p, p ∈ l -> is_Some (ident_of (r_cred s) p)) ->
  exists s', setpriority mask curp PRIO_PGRP 0 n s = Some (if l is [] then ESRCH else 0, s') /\
    flags_only (r_cred s) (r_cred s') /\
    (forall q, ps_procs (r_pst s') !! q =
      (fun y => if decide (q ∈ l) then p_with_nice y (group_nice s i n q y) else y)
        <$> ps_procs (r_pst s) !! q).
Proof.
  intros Hwf Hi Hx Hg Hchain Hnd Hids.
  assert (Hin : forall p, p ∈ l -> is_Some (ps_procs (r_pst s) !! p)).
  { clear -Hchain. revert Hchain. generalize PHead.
    induction l as [|y l IH]; intros pp; [set_solver|]. intros [_ Hc] p [->|Hp]%elem_of_cons.
    - apply chain_get in Hc. simpl in Hc. destruct (ps_procs (r_pst s) !! y); [eauto|done].
    - by apply (IH (PNext y)). }
  pose proof (chain_get _ _ _ _ Hchain) as Hhead. simpl in Hhead.
  destruct (ps_pgrps (r_pst s) !! g) as [pg|] eqn:Hpg; [|done]. simpl in Hhead.
  unfold setpriority, prio_each. unfold kbind at 1. unfold kbind at 1, kget at 1. simpl.
  unfold kbind at 1, kbind at 1, on_pst at 1, kzoom at 1, group_of, getp. kunf. rewrite Hx, Hg. simpl.
  replace (with_pst (r_pst s) s) with s by (by destruct s).
  unfold on_pst at 1, kzoom at 1, getpg, kderef. rewrite Hpg. simpl.
  replace (with_pst (r_pst s) s) with s by (by destruct s).
  destruct (each_acc_chain (lift_link (mem_link g)) (nproc (r_pst s)) s (pg_mem pg) l (0, 0)
    (fun fe p => let! e := donice curp p n in kret (fst fe + 1, e)) (group_inv s i n))
    as (a & s' & Hrun & (Ha & Hf & _ & Hq) & _).
  - intros a x1 s1 visited todo El HI.
    assert (Hxl : x1 ∈ l) by (rewrite El; set_solver).
    destruct (Hin x1 Hxl) as [y Hy].
    destruct (group_visit s s1 curp i n x1 y a visited) as (a' & s2 & Hr & HI' & Hl); try done.
    { by apply Hids. }
    { rewrite El in Hnd. apply NoDup_app in Hnd as (_ & Hd & _). intros Hv. apply (Hd x1 Hv). set_solver. }
    exists a', s2. split; [done|]. split; [done|]. intros z _. apply Hl.
  - split; [done|]. split; [done|]. split; [done|]. intros q.
    by destruct (ps_procs (r_pst s) !! q).
  - by simplify_eq.
  - destruct l as [|y l]; [done|]. destruct Hchain as [_ Hc]. by apply lift_chain.
  - by apply NoDup_keys_size.
  - unfold kbind, kret in Hrun. rewrite Hrun. exists s'. destruct a as [found err]. simpl in *.
    split; [|done]. subst. destruct l; [done|]. rewrite zlen_cons. pose proof (zlen_nonneg l).
    destruct (Z.eqb_spec (1 + zlen l) 0); [lia|done].
Qed.

(** ** Usage *)

(** [ruadd] adds the times exactly, keeps the larger resident size and adds the
    first twelve counters from [ru_first]; the last, the involuntary context switches,
    is never accumulated. *)
Theorem ruadd_sums r1 r2 :
  tv_ok (ru_utime r1) -> tv_ok (ru_utime r2) -> tv_ok (ru_stime r1) -> tv_ok (ru_stime r2) ->
  length (ru_rest r1) = 13%nat -> length (ru_rest r2) = 13%nat ->
  us (ru_utime (ruadd r1 r2)) = us (ru_utime r1) + us (ru_utime r2) /\
  us (ru_stime (ruadd r1 r2)) = us (ru_stime r1) + us (ru_stime r2) /\
  ru_maxrss (ruadd r1 r2) = Z.max (ru_maxrss r1) (ru_maxrss r2) /\
  (forall i a b, 0 <= i < 12 -> znth (ru_rest r1) i = Some a -> znth (ru_rest r2) i = Some b ->
     znth (ru_rest (ruadd r1 r2)) i = Some (s32 (a + b))) /\
  znth (ru_rest (ruadd r1 r2)) 12 = znth (ru_rest r1) 12.
Proof.
  intros H1 H2 H3 H4 L1 L2.
  destruct (timevaladd_us (ru_utime r1) (ru_utime r2)) as [E1 _]; [done..|].
  destruct (timevaladd_us (ru_stime r1) (ru_stime r2)) as [E2 _]; [done..|].
  assert (Hlen : length (zip_with (fun a b => s32 (a + b)) (take 12 (ru_rest r1))
    (take 12 (ru_rest r2))) = 12%nat) by (rewrite length_zip_with, !length_take; lia).
  simpl. split; [done|]. split; [done|]. split; [case_match; lia|]. split.
  - intros i a b Hi Ha Hb. unfold znth in *. destruct (Z.leb_spec 0 i); [|lia].
    rewrite lookup_app_l by lia. rewrite lookup_zip_with, !lookup_take_lt by lia.
    by rewrite Ha, Hb.
  - unfold znth. simpl. rewrite lookup_app_r by lia. rewrite Hlen, lookup_drop. done.
Qed.

(** ** Witnesses *)

Definition demo_limit : plimit := Plimit (replicate 9 (Rl 100 200)) 0 2.

(** Two processes of one group and of the same user, which share their limits. *)
Definition demo_rlim : rst :=
  let pr n := Proc None PHead 0 3 10 None n None None None None 0 (Some 7%positive) in
  Rst demo
    (Pst {[ 1%positive := pr (Some 2%positive); 2%positive := pr None ]}
       {[ 7%positive := Pgrp None (Some 1%positive) 1 10 0 ]} ∅ ∅ ∅ ∅ None None [])
    {[ 1%positive := 1%positive; 2%positive := 1%positive ]} {[ 1%positive := demo_limit ]} ∅ [] [].

Lemma demo_rlim_wf : rwf demo_rlim.
Proof.
  intros p l Hp. simpl in Hp. assert (l = 1%positive) as -> by (by map_cases).
  exists demo_limit. split; [reflexivity|]. split; reflexivity.
Qed.

Lemma demo_rlim_cow : cow demo_rlim.
Proof. intros l x Hl. simpl in Hl. map_cases. reflexivity. Qed.

Lemma limit_call_refines_witness :
  exists s', do_lim_call 0 0 0 0 (fun _ => 0) 0 0 0 (Setrlimit 1 4 (Rl 50 60)) demo_rlim = Some (0, s') /\
    lims_of s' 1 = Some (zset (replicate 9 (Rl 100 200)) 4 (Rl 50 60)) /\
    lims_of s' 2 = lims_of demo_rlim 2.
Proof.
  destruct (limit_call_refines 0 0 0 0 (fun _ => 0) 0 0 0 demo_rlim (Setrlimit 1 4 (Rl 50 60))
    (fun q => default [] (lims_of demo_rlim q))) as (s' & H1 & _ & _ & _ & H5 & H6 & _).
  - exact demo_wf.
  - exact demo_rlim_wf.
  - exact demo_rlim_cow.
  - split; [vm_compute; eauto|]. split; [vm_compute; eauto|]. unfold RLIM_NLIMITS. lia.
  - intros q l Hq. by rewrite Hq.
  - exists s'. split; [exact H1|]. split; [exact H5|]. apply H6. done.
Defined.

Lemma setrlimit_no_raise_witness :
  exists es s' ls' new, run_limits 0 0 0 0 (fun _ => 0) 0 0 0 1 [(4, Rl 50 60); (4, Rl 70 200)] demo_rlim
      = Some (es, s') /\ lims_of s' 1 = Some ls' /\ znth ls' 4 = Some new /\
    rlim_max new <= 200 /\ (new = Rl 100 200 \/ rlim_cur new <= rlim_max new) /\
    (forall q, q <> 1%positive -> lims_of s' q = lims_of demo_rlim q).
Proof.
  apply (setrlimit_no_raise 0 0 0 0 (fun _ => 0) 0 0 0 demo_rlim 1
    (Ident 100 100 100 20 20 1 (20 :: replicate 15 0)) (replicate 9 (Rl 100 200)) _ 4 (Rl 100 200)).
  - exact demo_wf.
  - exact demo_rlim_wf.
  - exact demo_rlim_cow.
  - reflexivity.
  - done.
  - reflexivity.
  - repeat constructor; simpl; unfold RLIM_NLIMITS; lia.
  - reflexivity.
  - reflexivity.
Defined.

Lemma setpriority_group_witness :
  exists s', setpriority 255 1 PRIO_PGRP 0 30 demo_rlim = Some (0, s') /\
    pr_nice <$> ps_procs (r_pst s') !! 2%positive = Some 20.
Proof.
  destruct (setpriority_group 255 demo_rlim 1 (Ident 100 100 100 20 20 1 (20 :: replicate 15 0)) 7 30
    (Proc None PHead 0 3 10 None (Some 2%positive) None None None None 0 (Some 7%positive))
    [1%positive; 2%positive]) as (s' & H1 & _ & H3).
  - exact demo_wf.
  - reflexivity.
  - reflexivity.
  - reflexivity.
  - repeat split.
  - repeat constructor; set_solver.
  - intros p Hp. assert (p = 1%positive \/ p = 2%positive) as [-> | ->] by set_solver;
      vm_compute; eauto.
  - exists s'. split; [exact H1|]. rewrite H3. reflexivity.
Defined.

Definition demo_ru : rusage := Rusage (TV 1 900000) (TV 0 5) 10 (replicate 13 1).

Lemma ruadd_sums_witness :
  us (ru_utime (ruadd demo_ru demo_ru)) = 3800000 /\
  znth (ru_rest (ruadd demo_ru demo_ru)) 12 = Some 1.
Proof.
  destruct (ruadd_sums demo_ru demo_ru) as (H1 & _ & _ & _ & H5); try reflexivity.
  1-4: unfold tv_ok, normal; simpl; lia.
  split; [exact H1|exact H5].
Defined.
