(* ===== verification/Descrip.v ===== *)
(** * File descriptors (sys/kern/kern_descrip.c)

    The descriptor table of a process, the open-file objects it refers to and their
    doubly linked global list.  The operations of the file's own type ([f_ops]), the
    vnode layer and [copyin] are outside: a [fileops] argument gives their results, and
    the calls that change their state are recorded. *)

From S2P Require Import Prelude Proc Cred Rlimit.
Local Open Scope kern_scope.

(** ** Data *)

Definition NDFILE := 20.
Definition NDEXTENT := 50.
Definition UF_EXCLOSE := 1.
Definition UF_MAPPED := 2.
Definition DTYPE_VNODE := 1.
Definition DTYPE_SOCKET := 2.
Definition FREAD := 1.
Definition FWRITE := 2.
Definition FNONBLOCK := 4.
Definition FAPPEND := 8.
Definition FASYNC := 64.
Definition FFSYNC := 128.
Definition FHASLOCK := 16384.
Definition FCNTLFLAGS := 204.     (* FAPPEND|FASYNC|FFSYNC|FNONBLOCK *)
Definition SADVLCK := 262144.
Definition F_RDLCK := 1.
Definition F_UNLCK := 2.
Definition F_WRLCK := 3.
Definition F_WAIT := 16.
Definition F_FLOCK := 32.
Definition F_POSIX := 64.
Definition SEEK_CUR := 1.

(** sys/sys/file.h:44-68, [file]; [f_ops] is the [fileops] argument of the operations. *)
Record file := File {
  f_filef : ptr;
  f_fileb : pptr;
  f_flag : Z;
  f_type : Z;
  f_count : Z;
  f_msgcount : Z;
  f_cred : loc;
  f_offset : Z;
  f_data : loc }.

(** sys/sys/filedesc.h:52-62, [filedesc]: the arrays have [fd_nfiles] elements. *)
Record filedesc := Filedesc {
  fd_ofiles : list ptr;
  fd_ofileflags : list Z;
  fd_cdir : loc;
  fd_rdir : ptr;
  fd_nfiles : Z;
  fd_lastfile : Z;     (* u_short *)
  fd_freefile : Z;     (* u_short *)
  fd_cmask : Z;
  fd_refcnt : Z }.     (* u_short *)

(** sys/sys/fcntl.h:156-162, [flock]. *)
Record flock_t := Flock { l_type : Z; l_whence : Z; l_start : Z; l_len : Z }.

(** Recorded calls to other components. *)
Inductive dcall :=
| CAdvlock (vp : loc) (id : loc) (op : Z) (fl : flock_t) (flg : Z)
| CClose (fp : loc)
| CIoctl (fp : loc) (com : Z) (arg : Z)
| CPgid (so : loc) (pgid : Z)
| CVref (vp : loc)
| CVrele (vp : loc).

(** What the calls answer: [fo_close], [fo_ioctl] (the error and the word it stores),
    [VOP_ADVLOCK], [vn_stat] and [soo_stat]. *)
Record fileops := Fileops {
  fo_close : loc -> Z;
  fo_ioctl : loc -> Z -> Z -> Z * Z;
  vop_advlock : loc -> loc -> Z -> flock_t -> Z -> Z * flock_t;
  fo_stat : loc -> Z + Z;
  so_pgid : loc -> Z }.

Record dst := Dst {
  d_rst : rst;
  d_pfd : gmap loc loc;            (* p_fd *)
  d_fds : gmap loc filedesc;
  d_files : gmap loc file;
  d_filehead : ptr;
  d_nfiles : Z;                    (* nfiles *)
  d_log : list dcall }.

Definition with_rst (r : rst) (s : dst) : dst :=
  Dst r (d_pfd s) (d_fds s) (d_files s) (d_filehead s) (d_nfiles s) (d_log s).
Definition upd_pfd (p l : loc) (s : dst) : dst :=
  Dst (d_rst s) (<[p := l]> (d_pfd s)) (d_fds s) (d_files s) (d_filehead s) (d_nfiles s) (d_log s).
Definition upd_fd (l : loc) (x : filedesc) (s : dst) : dst :=
  Dst (d_rst s) (d_pfd s) (<[l := x]> (d_fds s)) (d_files s) (d_filehead s) (d_nfiles s) (d_log s).
Definition upd_files (f : gmap loc file -> gmap loc file) (s : dst) : dst :=
  Dst (d_rst s) (d_pfd s) (d_fds s) (f (d_files s)) (d_filehead s) (d_nfiles s) (d_log s).
Definition set_head (h : ptr) (s : dst) : dst :=
  Dst (d_rst s) (d_pfd s) (d_fds s) (d_files s) h (d_nfiles s) (d_log s).
Definition set_nfiles (n : Z) (s : dst) : dst :=
  Dst (d_rst s) (d_pfd s) (d_fds s) (d_files s) (d_filehead s) n (d_log s).
Definition log_call (c : dcall) (s : dst) : dst :=
  Dst (d_rst s) (d_pfd s) (d_fds s) (d_files s) (d_filehead s) (d_nfiles s) (c :: d_log s).

Definition on_rst {A} (m : K rst A) : K dst A := kzoom d_rst with_rst m.
Definition d_on_cred {A} (m : K cst A) : K dst A := on_rst (on_cred m).
Definition d_on_pst {A} (m : K pst A) : K dst A := on_rst (on_pst m).

Definition fd_of (p : loc) : K dst loc := kderef (fun s => d_pfd s !! p).
Definition get_fd (l : loc) : K dst filedesc := kderef (fun s => d_fds s !! l).
Definition get_file (l : loc) : K dst file := kderef (fun s => d_files s !! l).
Definition set_file (l : loc) (x : file) : K dst unit := kmod (upd_files (<[l := x]>)).

Definition f_with_count (x : file) (n : Z) : file :=
  File (f_filef x) (f_fileb x) (f_flag x) (f_type x) n (f_msgcount x) (f_cred x) (f_offset x)
    (f_data x).
Definition f_with_flag (x : file) (n : Z) : file :=
  File (f_filef x) (f_fileb x) n (f_type x) (f_count x) (f_msgcount x) (f_cred x) (f_offset x)
    (f_data x).
Definition f_with_filef (x : file) (n : ptr) : file :=
  File n (f_fileb x) (f_flag x) (f_type x) (f_count x) (f_msgcount x) (f_cred x) (f_offset x)
    (f_data x).
Definition f_with_fileb (x : file) (b : pptr) : file :=
  File (f_filef x) b (f_flag x) (f_type x) (f_count x) (f_msgcount x) (f_cred x) (f_offset x)
    (f_data x).
Definition fd_with_arrays (x : filedesc) (fs : list ptr) (fl : list Z) (n : Z) : filedesc :=
  Filedesc fs fl (fd_cdir x) (fd_rdir x) n (fd_lastfile x) (fd_freefile x) (fd_cmask x) (fd_refcnt x).
Definition fd_with_marks (x : filedesc) (last free : Z) : filedesc :=
  Filedesc (fd_ofiles x) (fd_ofileflags x) (fd_cdir x) (fd_rdir x) (fd_nfiles x) last free
    (fd_cmask x) (fd_refcnt x).
Definition fd_with_refcnt (x : filedesc) (n : Z) : filedesc :=
  Filedesc (fd_ofiles x) (fd_ofileflags x) (fd_cdir x) (fd_rdir x) (fd_nfiles x) (fd_lastfile x)
    (fd_freefile x) (fd_cmask x) n.

(** [fdp->fd_ofiles[i] = fp; fdp->fd_ofileflags[i] = fl], which must be in range. *)
Definition set_slot (x : filedesc) (i : Z) (fp : ptr) (fl : Z) : filedesc :=
  fd_with_arrays x (zset (fd_ofiles x) i fp) (zset (fd_ofileflags x) i fl) (fd_nfiles x).

(** [if (i > fdp->fd_lastfile) fdp->fd_lastfile = i], on a [u_short]. *)
Definition raise_last (x : filedesc) (i : Z) : filedesc :=
  if fd_lastfile x <? i then fd_with_marks x (u16 i) (fd_freefile x) else x.

(** The limit on open files, [p->p_rlimit[RLIMIT_OFILE].rlim_cur]. *)
Definition ofile_limit (p : loc) : K dst Z :=
  on_rst (let! l := kderef (fun s => r_limp s !! p) in
          let! x := kderef (fun s => r_lims s !! l) in
          let! r := knonnull (znth (pl_rlimit x) RLIMIT_OFILE) in
          kret (rlim_cur r)).

(** The file open at a descriptor: [None] is EBADF; the comparison is unsigned. *)
Definition fd_file (x : filedesc) (fd : Z) : ptr :=
  if fd_nfiles x <=? u32 fd then None else default None (znth (fd_ofiles x) (u32 fd)).

(** [fp->f_count++] on a [short]. *)
Definition hold_file (fp : loc) : K dst unit :=
  let! x := get_file fp in set_file fp (f_with_count x (s16 (f_count x + 1))).

(** sys/kern/kern_descrip.c:66-78, [getdtablesize]. *)
Definition getdtablesize (p : loc) : K dst Z := ofile_limit p.

(** ** Allocating descriptors *)

(** The first null entry of [fs] from [i] and below [last]; [n] is [last - i]. *)
Fixpoint first_free (fs : list ptr) (i : Z) (n : nat) : option Z :=
  match n with
  | O => None
  | S n => if decide (znth fs i = Some None) then Some i else first_free fs (i + 1) n
  end.

(** sys/kern/kern_descrip.c:464-492, [fdalloc]: the table one size larger. *)
Definition fd_expand (x : filedesc) : filedesc :=
  let n := if fd_nfiles x <? NDEXTENT then NDEXTENT else 2 * fd_nfiles x in
  let more := Z.to_nat (n - fd_nfiles x) in
  fd_with_arrays x (fd_ofiles x ++ replicate more None) (fd_ofileflags x ++ replicate more 0) n.

(** The [for (;;)] of [fdalloc], with at most [fuel] expansions. *)
Fixpoint fd_search (fuel : nat) (l : loc) (lim want : Z) : K dst (Z + Z) :=
  let! x := get_fd l in
  let last := umin (fd_nfiles x) lim in
  let i := if want <? fd_freefile x then fd_freefile x else want in
  match first_free (fd_ofiles x) i (Z.to_nat (last - i)) with
  | Some i =>
    let y := fd_with_arrays x (fd_ofiles x) (zset (fd_ofileflags x) i 0) (fd_nfiles x) in
    let y := raise_last y i in
    let y := if want <=? fd_freefile y then fd_with_marks y (fd_lastfile y) (u16 i) else y in
    do! kmod (upd_fd l y) in
    kret (inr i)
  | None =>
    if lim <=? fd_nfiles x then kret (inl EMFILE) else
    match fuel with
    | O => kpanic
    | S f => do! kmod (upd_fd l (fd_expand x)) in fd_search f l lim want
    end
  end.

(** sys/kern/kern_descrip.c:432-494, [fdalloc]: the table doubles at each turn, so 32
    expansions pass every limit that fits an [int]. *)
Definition fdalloc (p : loc) (want : Z) : K dst (Z + Z) :=
  let! l := fd_of p in
  let! lim := ofile_limit p in
  fd_search 32 l (s32 lim) want.

(** sys/kern/kern_descrip.c:496-516, [fdavail]. *)
Definition fdavail (p : loc) (n : Z) : K dst bool :=
  let! l := fd_of p in
  let! x := get_fd l in
  let! lim := ofile_limit p in
  let i := lim - fd_nfiles x in
  if (0 <? i) && (n - i <=? 0) then kret true else
  let n := if 0 <? i then n - i else n in
  let free := length (filter (fun o => o = None) (drop (Z.to_nat (fd_freefile x)) (fd_ofiles x))) in
  kret (ztrue (Z.of_nat free) && (n <=? Z.of_nat free)).

(** ** The list of open files *)

(** [*pp] and [*pp = v] for [struct file **pp]. *)
Definition load_fp (pp : pptr) : K dst ptr :=
  match pp with
  | PHead => kgets d_filehead
  | PNext l => let! x := get_file l in kret (f_filef x)
  end.
Definition store_fp (pp : pptr) (v : ptr) : K dst unit :=
  match pp with
  | PHead => kmod (set_head v)
  | PNext l => let! x := get_file l in set_file l (f_with_filef x v)
  end.

(** [if (fq = v) fq->f_fileb = b]. *)
Definition set_back (v : ptr) (b : pptr) : K dst unit :=
  match v with
  | Some q => let! y := get_file q in set_file q (f_with_fileb y b)
  | None => kret tt
  end.

Section Files.
Context (maxfiles : Z) (ops : fileops).

(** sys/kern/kern_descrip.c:518-564, [falloc]: the error, or the file and its
    descriptor; the new [struct file] is at a fresh address, its type, flags and data
    being set by the caller. *)
Definition falloc (p : loc) : K dst (Z + loc * Z) :=
  let! r := fdalloc p 0 in
  match r with
  | inl error => kret (inl error)
  | inr i =>
    let! s := kget in
    if maxfiles <=? d_nfiles s then kret (inl ENFILE) else
    do! kmod (set_nfiles (s32 (d_nfiles s + 1))) in
    let fp := fresh (dom (d_files s)) in
    let! l := fd_of p in
    let! x := get_fd l in
    let! fq := knonnull (znth (fd_ofiles x) 0) in
    let fpp := match fq with Some q => PNext q | None => PHead end in
    do! kmod (upd_fd l (fd_with_arrays x (zset (fd_ofiles x) i (Some fp)) (fd_ofileflags x)
                          (fd_nfiles x))) in
    let! fq := load_fp fpp in
    do! set_back fq (PNext fp) in
    let! pr := d_on_cred (get_proc p) in
    let! pc := d_on_cred (get_pcred (p_cred pr)) in
    do! set_file fp (File fq fpp 0 0 1 0 (pc_ucred pc) 0 fp) in
    do! store_fp fpp (Some fp) in
    do! d_on_cred (crhold (pc_ucred pc)) in
    kret (inr (fp, i))
  end.

(** sys/kern/kern_descrip.c:566-585, [ffree]. *)
Definition ffree (fp : loc) : K dst unit :=
  let! x := get_file fp in
  do! set_back (f_filef x) (f_fileb x) in
  do! store_fp (f_fileb x) (f_filef x) in
  do! d_on_cred (crfree (f_cred x)) in
  let! s := kget in
  do! kmod (set_nfiles (s32 (d_nfiles s - 1))) in
  kmod (upd_files (delete fp)).

(** A record lock of the whole file, [lf] of the C code. *)
Definition whole_file (type : Z) : flock_t := Flock type 0 0 0.

(** [VOP_ADVLOCK]: the call is recorded, its answer is the lock code's. *)
Definition advlock (vp id : loc) (op : Z) (fl : flock_t) (flg : Z) : K dst (Z * flock_t) :=
  do! kmod (log_call (CAdvlock vp id op fl flg)) in
  kret (vop_advlock ops vp id op fl flg).

(** sys/kern/kern_descrip.c:665-708, [closef]. *)
Definition closef (fp : loc) (p : loc) : K dst Z :=
  let! pr := d_on_pst (getp p) in
  let! x := get_file fp in
  do! (if flag_set (pr_flag pr) SADVLCK && (f_type x =? DTYPE_VNODE)
       then let! _ := advlock (f_data x) p F_UNLCK (whole_file F_UNLCK) F_POSIX in kret tt
       else kret tt) in
  let n := s16 (f_count x - 1) in
  do! set_file fp (f_with_count x n) in
  if 0 <? n then kret 0 else
  if n <? 0 then kpanic else
  do! (if flag_set (f_flag x) FHASLOCK && (f_type x =? DTYPE_VNODE)
       then let! _ := advlock (f_data x) fp F_UNLCK (whole_file F_UNLCK) F_FLOCK in kret tt
       else kret tt) in
  do! kmod (log_call (CClose fp)) in
  do! ffree fp in
  kret (fo_close ops fp).

(** ** System calls *)

(** sys/kern/kern_descrip.c:105-110, [dup]: point descriptor [i] at the open file of descriptor [old], without the close-on-exec
    flag: the common tail of [dup], [dup2] and F_DUPFD. *)
Definition dup_into (l : loc) (fp : loc) (i flags : Z) : K dst unit :=
  let! x := get_fd l in
  do! kmod (upd_fd l (set_slot x i (Some fp) (Z.land flags (Z.lnot UF_EXCLOSE)))) in
  do! hold_file fp in
  let! x := get_fd l in
  kmod (upd_fd l (raise_last x i)).

(** [munmapfd(p, fd)] before a close: [munmapfd] takes the descriptor as its only
    argument (sys/vm/vm_mmap.c), so the call clears a flag byte indexed by a process
    address. *)
Definition munmapfd_call (flags : Z) : K dst unit :=
  if flag_set flags UF_MAPPED then kpanic else kret tt.

(** sys/kern/kern_descrip.c:114-157, [dup2]: the error and the descriptor. *)
Definition dup2 (p : loc) (old new : Z) : K dst (Z * Z) :=
  let old := u32 old in let new := u32 new in
  let! l := fd_of p in
  let! x := get_fd l in
  let! lim := ofile_limit p in
  match fd_file x old with
  | None => kret (EBADF, 0)
  | Some fp =>
    if u32 lim <=? new then kret (EBADF, 0) else
    if old =? new then kret (0, new) else
    let tail :=
      let! x := get_fd l in
      let! fl := knonnull (znth (fd_ofileflags x) old) in
      do! dup_into l fp new fl in
      kret (0, new) in
    if fd_nfiles x <=? new then
      let! r := fdalloc p new in
      match r with
      | inl error => kret (error, new)
      | inr i => if new =? i then tail else kpanic
      end
    else
      match fd_file x new with
      | Some fq =>
        let! fl := knonnull (znth (fd_ofileflags x) new) in
        do! munmapfd_call fl in
        let! _ := closef fq p in
        tail
      | None => tail
      end
  end.

(** sys/kern/kern_descrip.c:80-112, [dup]; its compatibility call of [dup2] takes the
    second word of the caller's arguments. *)
Definition dup (p : loc) (i arg2 : Z) : K dst (Z * Z) :=
  if ztrue (Z.land i (Z.lnot 63)) then dup2 p (Z.land i 63) arg2 else
  let! l := fd_of p in
  let! x := get_fd l in
  match fd_file x i with
  | None => kret (EBADF, 0)
  | Some fp =>
    let! r := fdalloc p 0 in
    match r with
    | inl error => kret (error, 0)
    | inr fd =>
      let! x := get_fd l in
      let! fl := knonnull (znth (fd_ofileflags x) i) in
      do! dup_into l fp fd fl in
      kret (0, fd)
    end
  end.

(** The loop of [close] that lowers [fd_lastfile]. *)
Fixpoint lower_last (fs : list ptr) (n : nat) : nat :=
  match n with
  | O => O
  | S m => if decide (znth fs (Z.of_nat n) = Some None) then lower_last fs m else n
  end.

(** sys/kern/kern_descrip.c:307-336, [close]. *)
Definition close (p : loc) (fd : Z) : K dst Z :=
  let! l := fd_of p in
  let! x := get_fd l in
  match fd_file x fd with
  | None => kret EBADF
  | Some fp =>
    let! fl := knonnull (znth (fd_ofileflags x) fd) in
    do! munmapfd_call fl in
    let fs := zset (fd_ofiles x) fd None in
    let last := Z.of_nat (lower_last fs (Z.to_nat (fd_lastfile x))) in
    let free := if fd <? fd_freefile x then u16 fd else fd_freefile x in
    do! kmod (upd_fd l (fd_with_marks (fd_with_arrays x fs (zset (fd_ofileflags x) fd 0)
                                         (fd_nfiles x)) last free)) in
    closef fp p
  end.

(** ** [fcntl] *)

(** sys/kern/kern_descrip.c:188-199, [fcntl], case F_DUPFD.  [pop] points into the flag
    array as it was before [fdalloc]: once a table that was itself allocated has been
    replaced, the byte read is freed memory. *)
Definition fcntl_dupfd (p l : loc) (fd arg : Z) (fp : loc) : K dst (Z * Z) :=
  let! x := get_fd l in
  let! lim := ofile_limit p in
  if u32 lim <=? u32 arg then kret (EINVAL, 0) else
  let! r := fdalloc p arg in
  match r with
  | inl error => kret (error, 0)
  | inr i =>
    let! y := get_fd l in
    if (NDFILE <? fd_nfiles x) && negb (fd_nfiles y =? fd_nfiles x) then kpanic else
    let! fl := knonnull (znth (if fd_nfiles y =? fd_nfiles x then fd_ofileflags y
                               else fd_ofileflags x) fd) in
    do! dup_into l fp i fl in
    kret (0, i)
  end.

Definition ioctl (fp : loc) (com arg : Z) : K dst (Z * Z) :=
  do! kmod (log_call (CIoctl fp com arg)) in
  kret (fo_ioctl ops fp com arg).

Definition FIONBIO := 2147772030.
Definition FIOASYNC := 2147772029.
Definition TIOCGPGRP := 1074033783.
Definition TIOCSPGRP := 2147775606.

(** sys/kern/kern_descrip.c:213-227, [fcntl], case F_SETFL. *)
Definition fcntl_setfl (fp : loc) (arg : Z) : K dst Z :=
  let! x := get_file fp in
  let flag := Z.lor (Z.land (f_flag x) (Z.lnot FCNTLFLAGS)) (Z.land (arg + 1) FCNTLFLAGS) in
  do! set_file fp (f_with_flag x (s16 flag)) in
  let! r := ioctl fp FIONBIO (Z.land flag FNONBLOCK) in
  if ztrue (fst r) then kret (fst r) else
  let! x := get_file fp in
  let! r := ioctl fp FIOASYNC (Z.land (f_flag x) FASYNC) in
  if fst r =? 0 then kret 0 else
  let! x := get_file fp in
  do! set_file fp (f_with_flag x (Z.land (f_flag x) (Z.lnot FNONBLOCK))) in
  let! _ := ioctl fp FIONBIO 0 in
  kret (fst r).

(** sys/kern/kern_descrip.c:238-252, [fcntl], case F_SETOWN. *)
Definition fcntl_setown (pidhashmask : Z) (fp : loc) (arg : Z) : K dst Z :=
  let! x := get_file fp in
  if f_type x =? DTYPE_SOCKET then do! kmod (log_call (CPgid (f_data x) arg)) in kret 0 else
  let! arg := (if arg <=? 0 then kret (Some (s32 (- arg))) else
               let! p1 := d_on_pst (pfind pidhashmask arg) in
               match p1 with
               | None => kret None
               | Some p1 => let! g := d_on_pst (getpgrp p1) in kret (Some g)
               end) in
  match arg with
  | None => kret ESRCH
  | Some arg => let! r := ioctl fp TIOCSPGRP arg in kret (fst r)
  end.

(** [p->p_flag |= SADVLCK]. *)
Definition mark_advlck (p : loc) : K dst unit :=
  d_on_pst (let! x := getp p in setp p (p_with_flag x (Z.lor (pr_flag x) SADVLCK))).

(** sys/kern/kern_descrip.c:254-288, [fcntl], cases F_SETLK and F_SETLKW ([wait]); [ci]
    is what [copyin] delivers. *)
Definition fcntl_setlk (p fp : loc) (wait : bool) (ci : Z + flock_t) : K dst Z :=
  let! x := get_file fp in
  if negb (f_type x =? DTYPE_VNODE) then kret EBADF else
  match ci with
  | inl error => kret error
  | inr fl =>
    let fl := if l_whence fl =? SEEK_CUR
              then Flock (l_type fl) (l_whence fl) (s32 (l_start fl + f_offset x)) (l_len fl) else fl in
    let flg := if wait then Z.lor F_POSIX F_WAIT else F_POSIX in
    if l_type fl =? F_RDLCK then
      if negb (flag_set (f_flag x) FREAD) then kret EBADF else
      do! mark_advlck p in
      let! r := advlock (f_data x) p 8 fl flg in kret (fst r)
    else if l_type fl =? F_WRLCK then
      if negb (flag_set (f_flag x) FWRITE) then kret EBADF else
      do! mark_advlck p in
      let! r := advlock (f_data x) p 8 fl flg in kret (fst r)
    else if l_type fl =? F_UNLCK then
      let! r := advlock (f_data x) p F_UNLCK fl F_POSIX in kret (fst r)
    else kret EINVAL
  end.

(** sys/kern/kern_descrip.c:290-302, [fcntl], case F_GETLK; [co] is the result of
    [copyout]. *)
Definition fcntl_getlk (p fp : loc) (ci : Z + flock_t) (co : Z) : K dst (Z * option flock_t) :=
  let! x := get_file fp in
  if negb (f_type x =? DTYPE_VNODE) then kret (EBADF, None) else
  match ci with
  | inl error => kret (error, None)
  | inr fl =>
    let fl := if l_whence fl =? SEEK_CUR
              then Flock (l_type fl) (l_whence fl) (s32 (l_start fl + f_offset x)) (l_len fl) else fl in
    let! r := advlock (f_data x) p 7 fl F_POSIX in
    if ztrue (fst r) then kret (fst r, None) else
    kret (co, if ztrue co then None else Some (snd r))
  end.

(** sys/kern/kern_descrip.c:159-305, [fcntl]: the error and the value returned. *)
Definition fcntl (pidhashmask : Z) (p : loc) (fd cmd arg : Z) (ci : Z + flock_t) (co : Z)
  : K dst (Z * Z) :=
  let! l := fd_of p in
  let! x := get_fd l in
  match fd_file x fd with
  | None => kret (EBADF, 0)
  | Some fp =>
    let! fl := knonnull (znth (fd_ofileflags x) fd) in
    let! f := get_file fp in
    if cmd =? 0 then fcntl_dupfd p l fd arg fp
    else if cmd =? 1 then kret (0, Z.land fl 1)
    else if cmd =? 2 then
      do! kmod (upd_fd l (fd_with_arrays x (fd_ofiles x)
             (zset (fd_ofileflags x) fd (Z.lor (Z.land fl (Z.lnot 1)) (Z.land arg 1))) (fd_nfiles x))) in
      kret (0, 0)
    else if cmd =? 3 then kret (0, f_flag f - 1)
    else if cmd =? 4 then let! e := fcntl_setfl fp arg in kret (e, 0)
    else if cmd =? 5 then
      if f_type f =? DTYPE_SOCKET then kret (0, so_pgid ops (f_data f)) else
      let! r := ioctl fp TIOCGPGRP 0 in kret (fst r, s32 (- snd r))
    else if cmd =? 6 then let! e := fcntl_setown pidhashmask fp arg in kret (e, 0)
    else if cmd =? 9 then let! e := fcntl_setlk p fp true ci in kret (e, 0)
    else if cmd =? 8 then let! e := fcntl_setlk p fp false ci in kret (e, 0)
    else if cmd =? 7 then let! r := fcntl_getlk p fp ci co in kret (fst r, 0)
    else kret (EINVAL, 0)
  end.

(** sys/kern/kern_descrip.c:338-375, [fstat]: [co] is the result of [copyout]. *)
Definition fstat (p : loc) (fd co : Z) : K dst (Z * option Z) :=
  let! l := fd_of p in
  let! x := get_fd l in
  match fd_file x fd with
  | None => kret (EBADF, None)
  | Some fp =>
    let! f := get_file fp in
    if (f_type f =? DTYPE_VNODE) || (f_type f =? DTYPE_SOCKET) then
      match fo_stat ops fp with
      | inl error => kret (error, None)
      | inr st => kret (co, if ztrue co then None else Some st)
      end
    else kpanic
  end.

(** sys/kern/kern_descrip.c:717-755, [flock]. *)
Definition flock (p : loc) (fd how : Z) : K dst Z :=
  let! l := fd_of p in
  let! x := get_fd l in
  match fd_file x fd with
  | None => kret EBADF
  | Some fp =>
    let! f := get_file fp in
    if negb (f_type f =? DTYPE_VNODE) then kret EOPNOTSUPP else
    if flag_set how 8 then
      do! set_file fp (f_with_flag f (Z.land (f_flag f) (Z.lnot FHASLOCK))) in
      let! r := advlock (f_data f) fp F_UNLCK (whole_file F_UNLCK) F_FLOCK in kret (fst r)
    else
      let type := if flag_set how 2 then Some F_WRLCK
                  else if flag_set how 1 then Some F_RDLCK else None in
      match type with
      | None => kret EBADF
      | Some type =>
        do! set_file fp (f_with_flag f (Z.lor (f_flag f) FHASLOCK)) in
        let! r := advlock (f_data f) fp 8 (whole_file type)
                    (if flag_set how 4 then F_FLOCK else Z.lor F_FLOCK F_WAIT) in
        kret (fst r)
      end
  end.

(** ** Tables at fork and exit *)

(** sys/kern/kern_descrip.c:618-625, [fdcopy]: halve the size of the table while half
    would do. *)
Fixpoint shrink (fuel : nat) (i lastfile : Z) : Z :=
  match fuel with
  | O => i
  | S f => if (2 * NDEXTENT <? i) && (2 * lastfile <? i) then shrink f (i / 2) lastfile else i
  end.

(** [for (i = last; i-- >= 0; fpp++) if ( *fpp) body]: the first [last + 1] entries. *)
Fixpoint each_file (fs : list ptr) (body : loc -> K dst unit) : K dst unit :=
  match fs with
  | [] => kret tt
  | o :: fs =>
    do! match o with Some fp => body fp | None => kret tt end in
    each_file fs body
  end.

(** sys/kern/kern_descrip.c:587-638, [fdcopy]. *)
Definition fdcopy (p : loc) : K dst loc :=
  let! l := fd_of p in
  let! x := get_fd l in
  let! s := kget in
  let n := fresh (dom (d_fds s)) in
  do! kmod (log_call (CVref (fd_cdir x))) in
  do! match fd_rdir x with Some v => kmod (log_call (CVref v)) | None => kret tt end in
  let i := if fd_lastfile x <? NDFILE then NDFILE
           else shrink 32 (fd_nfiles x) (fd_lastfile x) in
  let y := Filedesc (take (Z.to_nat i) (fd_ofiles x)) (take (Z.to_nat i) (fd_ofileflags x))
             (fd_cdir x) (fd_rdir x) i (fd_lastfile x) (fd_freefile x) (fd_cmask x) 1 in
  do! kmod (upd_fd n y) in
  do! each_file (take (Z.to_nat (fd_lastfile y + 1)) (fd_ofiles y)) hold_file in
  kret n.

(** sys/kern/kern_descrip.c:640-663, [fdfree]. *)
Definition fdfree (p : loc) : K dst unit :=
  let! l := fd_of p in
  let! x := get_fd l in
  let n := u16 (fd_refcnt x - 1) in
  do! kmod (upd_fd l (fd_with_refcnt x n)) in
  if 0 <? n then kret tt else
  do! each_file (take (Z.to_nat (fd_lastfile x + 1)) (fd_ofiles x))
        (fun fp => let! _ := closef fp p in kret tt) in
  do! kmod (log_call (CVrele (fd_cdir x))) in
  do! match fd_rdir x with Some v => kmod (log_call (CVrele v)) | None => kret tt end in
  kmod (fun s => Dst (d_rst s) (d_pfd s) (delete l (d_fds s)) (d_files s) (d_filehead s)
                   (d_nfiles s) (d_log s)).

(** sys/kern/kern_descrip.c:757-781, [fdopen]: the error that [open] recognises, and the
    value left in [curproc->p_dupfd], a [u_short]. *)
Definition fdopen (dev : Z) : Z * Z := (ENODEV, u16 (Z.land dev 255)).

(** sys/kern/kern_descrip.c:783-818, [dupfdopen]. *)
Definition dupfdopen (l : loc) (indx dfd mode : Z) : K dst Z :=
  let! x := get_fd l in
  let! fp := knonnull (znth (fd_ofiles x) indx) in
  match fd_file x dfd with
  | None => kret EBADF
  | Some w =>
    if decide (fp = Some w) then kret EBADF else
    let! f := get_file w in
    if negb (Z.lor (Z.land mode (Z.lor FREAD FWRITE)) (f_flag f) =? f_flag f) then kret EACCES else
    let! fl := knonnull (znth (fd_ofileflags x) dfd) in
    do! kmod (upd_fd l (set_slot x indx (Some w) fl)) in
    do! hold_file w in
    let! x := get_fd l in
    do! kmod (upd_fd l (raise_last x indx)) in
    kret 0
  end.
End Files.
