(* ===== verification/DescripSafety.v ===== *)
(** * Correctness of the descriptor layer

    [fdalloc] returns the lowest free descriptor and always terminates; the tables, the
    open files' reference counts and the doubly linked list of open files stay
    consistent under every operation; descriptors behave as a private map from numbers
    to open files. *)

From S2P Require Import Prelude Count Proc Cred CredSafety Rlimit Descrip.
Local Open Scope kern_scope.

(** ** Well-formed tables *)

(** The entry of a table at [i]: the file open there, if any. *)
Definition slot (x : filedesc) (i : Z) : ptr := default None (znth (fd_ofiles x) i).

(** The sizes a table can have: the built-in one, or NDEXTENT doubled. *)
Definition size_step (n : Z) : Prop :=
  n = NDFILE \/ exists k : nat, n = NDEXTENT * 2 ^ Z.of_nat k.

Lemma size_step_ge n : size_step n -> n = NDFILE \/ NDEXTENT <= n.
Proof.
  intros [?|[k ->]]; [by left|right]. unfold NDEXTENT.
  assert (0 < 2 ^ Z.of_nat k) by (apply Z.pow_pos_nonneg; lia). lia.
Qed.

(** The table is as long as it says, nothing below [fd_freefile] is free and nothing
    above [fd_lastfile] is open. *)
Record fd_ok (x : filedesc) : Prop := FdOk {
  fo_files : zlen (fd_ofiles x) = fd_nfiles x;
  fo_flags : zlen (fd_ofileflags x) = fd_nfiles x;
  fo_steps : size_step (fd_nfiles x);
  fo_most : fd_nfiles x <= 65536;
  fo_free : 0 <= fd_freefile x;
  fo_below : forall i, 0 <= i < fd_freefile x -> slot x i <> None;
  fo_last : 0 <= fd_lastfile x < fd_nfiles x;
  fo_above : forall i, fd_lastfile x < i -> slot x i = None }.

Lemma fo_size x : fd_ok x -> NDFILE <= fd_nfiles x <= 65536.
Proof.
  intros Hok. pose proof (size_step_ge _ (fo_steps x Hok)). pose proof (fo_most x Hok).
  unfold NDFILE, NDEXTENT in *. lia.
Qed.

Lemma slot_out x i : fd_ok x -> fd_nfiles x <= i -> slot x i = None.
Proof.
  intros Hok Hi. unfold slot. destruct (znth (fd_ofiles x) i) eqn:E; [|done].
  apply znth_some in E. rewrite (fo_files x Hok) in E. lia.
Qed.

Lemma slot_in x i : fd_ok x -> 0 <= i < fd_nfiles x -> znth (fd_ofiles x) i = Some (slot x i).
Proof.
  intros Hok Hi. unfold slot. destruct (znth (fd_ofiles x) i) eqn:E; [done|].
  apply znth_none in E. rewrite (fo_files x Hok) in E. lia.
Qed.

Lemma freefile_le x : fd_ok x -> fd_freefile x <= fd_nfiles x.
Proof.
  intros Hok. destruct (Z.le_gt_cases (fd_freefile x) (fd_nfiles x)); [done|].
  exfalso. apply (fo_below x Hok (fd_nfiles x)); [pose proof (fo_size x Hok); unfold NDFILE in *; lia|].
  by apply slot_out.
Qed.

(** ** [fdalloc] *)

Lemma first_free_some fs i n j :
  first_free fs i n = Some j ->
  i <= j < i + Z.of_nat n /\ znth fs j = Some None /\
  forall k, i <= k < j -> znth fs k <> Some None.
Proof.
  revert i. induction n as [|n IH]; intros i; simpl; [done|]. case_decide as Hd.
  - intros [= <-]. split; [lia|]. split; [done|]. lia.
  - intros Hj. destruct (IH _ Hj) as (H1 & H2 & H3). split; [lia|]. split; [done|].
    intros k Hk. destruct (Z.eq_dec k i) as [->|]; [done|]. apply H3. lia.
Qed.

Lemma first_free_none fs i n :
  first_free fs i n = None -> forall k, i <= k < i + Z.of_nat n -> znth fs k <> Some None.
Proof.
  revert i. induction n as [|n IH]; intros i; simpl; [lia|]. case_decide as Hd; [done|].
  intros Hj k Hk. destruct (Z.eq_dec k i) as [->|]; [done|]. apply (IH _ Hj). lia.
Qed.

Lemma znth_grow {A} (l : list A) k d i :
  znth (l ++ replicate k d) i =
    if i <? zlen l then znth l i else if i <? zlen l + Z.of_nat k then Some d else None.
Proof.
  destruct (Z.ltb_spec i (zlen l)); [by apply znth_app_l|]. rewrite znth_app_r by done.
  unfold znth. destruct (Z.leb_spec 0 (i - zlen l)); [|pose proof (zlen_nonneg l); lia].
  destruct (Z.ltb_spec i (zlen l + Z.of_nat k)).
  - rewrite lookup_replicate_2; [done|lia].
  - apply lookup_replicate_None. lia.
Qed.

(** A table grown to [n] entries, the new ones free and their flags clear. *)
Definition grown (x y : filedesc) : Prop :=
  exists k, fd_ofiles y = fd_ofiles x ++ replicate k None /\
    fd_ofileflags y = fd_ofileflags x ++ replicate k 0 /\
    fd_nfiles y = fd_nfiles x + Z.of_nat k /\ (k = O \/ size_step (fd_nfiles y)) /\
    fd_lastfile y = fd_lastfile x /\ fd_freefile y = fd_freefile x /\
    fd_cdir y = fd_cdir x /\ fd_rdir y = fd_rdir x /\ fd_refcnt y = fd_refcnt x.

Lemma grown_refl x : grown x x.
Proof. exists O. rewrite !app_nil_r. split_and!; try done; try lia. Qed.

Lemma grown_trans x y z : grown x y -> grown y z -> grown x z.
Proof.
  intros (k1 & F1 & L1 & N1 & M1 & ? & ? & ? & ? & ?) (k2 & F2 & L2 & N2 & M2 & ? & ? & ? & ? & ?).
  exists (k1 + k2)%nat. rewrite F2, F1, L2, L1, N2, N1, !replicate_add, !app_assoc.
  split_and!; try congruence; try lia.
  rewrite <- N1, <- N2. destruct M2 as [->|M2]; [|by right].
  destruct M1 as [->|M1]; [by left|right]. rewrite N2, Z.add_0_r. done.
Qed.

Lemma grown_slot x y i : fd_ok x -> grown x y -> slot y i = slot x i.
Proof.
  intros Hok (k & F & _). unfold slot. rewrite F, znth_grow.
  destruct (Z.ltb_spec i (zlen (fd_ofiles x))); [done|].
  destruct (znth (fd_ofiles x) i) eqn:E; [apply znth_some in E; lia|]. by case_match.
Qed.

Lemma grown_ok x y : fd_ok x -> grown x y -> fd_nfiles y <= 65536 -> fd_ok y.
Proof.
  intros Hok Hg Hn. pose proof Hg as (k & F & L & N & M & Hl & Hf & _).
  destruct Hok as [O1 O2 O3 O8 O4 O5 O6 O7] eqn:Eok.
  constructor.
  - rewrite F, zlen_app, N, O1. unfold zlen. rewrite length_replicate. lia.
  - rewrite L, zlen_app, N, O2. unfold zlen. rewrite length_replicate. lia.
  - destruct M as [->|M]; [rewrite N, Z.add_0_r; done|done].
  - done.
  - lia.
  - intros i Hi. rewrite (grown_slot x y) by done. apply O5. lia.
  - lia.
  - intros i Hi. rewrite (grown_slot x y) by done. apply O7. lia.
Qed.

Lemma fd_expand_grown x : fd_ok x -> grown x (fd_expand x).
Proof.
  intros Hok. pose proof (fo_size x Hok). pose proof (fo_steps x Hok) as Hs.
  pose proof (size_step_ge _ Hs). unfold NDFILE, NDEXTENT in *.
  eexists. unfold fd_expand, fd_with_arrays. simpl. split; [reflexivity|]. split; [reflexivity|].
  unfold NDEXTENT. destruct (Z.ltb_spec (fd_nfiles x) 50); split_and!; try done; try lia; right; right.
  - by exists 0%nat.
  - destruct Hs as [Hs|[k Hk]]; [unfold NDFILE in *; lia|]. exists (S k).
    rewrite Hk, Nat2Z.inj_succ, Z.pow_succ_r by lia. unfold NDEXTENT. lia.
Qed.

(** What [fdalloc] leaves of the (possibly grown) table [x] when it picks [i]. *)
Definition allocated (x : filedesc) (want i : Z) : filedesc :=
  let y := fd_with_arrays x (fd_ofiles x) (zset (fd_ofileflags x) i 0) (fd_nfiles x) in
  let y := raise_last y i in
  if want <=? fd_freefile y then fd_with_marks y (fd_lastfile y) (u16 i) else y.

Lemma allocated_fields x want i :
  fd_ofiles (allocated x want i) = fd_ofiles x /\
  fd_ofileflags (allocated x want i) = zset (fd_ofileflags x) i 0 /\
  fd_nfiles (allocated x want i) = fd_nfiles x /\
  fd_lastfile (allocated x want i) = (if fd_lastfile x <? i then u16 i else fd_lastfile x) /\
  fd_freefile (allocated x want i) = (if want <=? fd_freefile x then u16 i else fd_freefile x).
Proof.
  unfold allocated, raise_last, fd_with_marks, fd_with_arrays. simpl.
  destruct (fd_lastfile x <? i); simpl; destruct (want <=? fd_freefile x); done.
Qed.

(** [i] is the lowest free number from [want], and within the table. *)
Definition lowest (x : filedesc) (want i : Z) : Prop :=
  want <= i < fd_nfiles x /\ slot x i = None /\ forall k, want <= k < i -> slot x k <> None.

Lemma allocated_ok x want i :
  fd_ok x -> 0 <= want -> lowest x want i -> fd_ok (allocated x want i).
Proof.
  intros Hok Hw (Hi & Hs & Hlow). destruct (allocated_fields x want i) as (F & L & N & EL & EF).
  assert (Hslot : forall j, slot (allocated x want i) j = slot x j) by (intros; unfold slot; by rewrite F).
  pose proof (fo_size x Hok). pose proof (fo_last x Hok). pose proof (fo_free x Hok).
  rewrite u16_id in EL, EF by (unfold is_u16; lia).
  constructor; rewrite ?N, ?F, ?L, ?EL, ?EF.
  - apply fo_files, Hok.
  - rewrite zlen_zset. apply fo_flags, Hok.
  - apply fo_steps, Hok.
  - apply fo_most, Hok.
  - case_match; lia.
  - intros j Hj. rewrite Hslot. destruct (Z.leb_spec want (fd_freefile x)); [|by apply (fo_below x Hok)].
    destruct (Z.lt_ge_cases j (fd_freefile x)); [apply (fo_below x Hok); lia|]. apply Hlow. lia.
  - destruct (Z.ltb_spec (fd_lastfile x) i); lia.
  - intros j Hj. rewrite Hslot. apply (fo_above x Hok). destruct (Z.ltb_spec (fd_lastfile x) i); lia.
Qed.

Lemma upd_fd_id s l x : d_fds s !! l = Some x -> upd_fd l x s = s.
Proof. intros H. destruct s. unfold upd_fd. simpl in *. f_equal. by apply insert_id. Qed.

Lemma upd_fd_twice s l x y : upd_fd l x (upd_fd l y s) = upd_fd l x s.
Proof. destruct s. unfold upd_fd. simpl. f_equal. apply insert_insert_eq. Qed.

(** One pass over the table: the lowest free descriptor below the limit, or none. *)
Lemma fd_pass x lim want :
  fd_ok x -> 0 <= lim <= 32768 -> 0 <= want ->
  let last := umin (fd_nfiles x) lim in
  let i := if want <? fd_freefile x then fd_freefile x else want in
  match first_free (fd_ofiles x) i (Z.to_nat (last - i)) with
  | Some j => lowest x want j /\ j < lim
  | None => forall k, want <= k < Z.min (fd_nfiles x) lim -> slot x k <> None
  end.
Proof.
  intros Hok Hlim Hw. cbv zeta. pose proof (fo_size x Hok).
  replace (umin (fd_nfiles x) lim) with (Z.min (fd_nfiles x) lim)
    by (unfold umin, NDFILE in *; rewrite !u32_id by (unfold is_u32; lia); case_match; lia).
  set (i := if want <? fd_freefile x then fd_freefile x else want).
  assert (Hi : want <= i /\ (forall k, want <= k < i -> slot x k <> None)).
  { unfold i. destruct (Z.ltb_spec want (fd_freefile x)); split; try lia.
    intros k Hk. apply (fo_below x Hok). lia. }
  destruct Hi as [Hwi Hbelow].
  destruct (first_free _ i _) as [j|] eqn:Hf.
  - apply first_free_some in Hf as (H1 & H2 & H3). split; [|lia]. split; [lia|].
    assert (Hjn : slot x j = None) by (unfold slot; by rewrite H2). split; [done|].
    intros k Hk. destruct (Z.lt_ge_cases k i); [by apply Hbelow; lia|]. intros E.
    apply (H3 k ltac:(lia)). rewrite slot_in, E by (done || lia). done.
  - intros k Hk E. destruct (Z.lt_ge_cases k i); [by apply (Hbelow k ltac:(lia))|].
    apply (first_free_none _ _ _ Hf k); [lia|]. rewrite slot_in, E by (done || lia). done.
Qed.

Lemma fd_search_spec fuel s l x lim want :
  d_fds s !! l = Some x -> fd_ok x -> 0 <= lim <= 32768 -> 0 <= want ->
  lim <= fd_nfiles x * 2 ^ Z.of_nat fuel ->
  exists r y, fd_search fuel l lim want s =
      Some (r, upd_fd l (match r with inr i => allocated y want i | inl _ => y end) s) /\
    grown x y /\ fd_nfiles y <= 65536 /\
    match r with
    | inr i => lowest y want i /\ i < lim
    | inl e => e = EMFILE /\ forall k, want <= k < lim -> slot x k <> None
    end.
Proof.
  revert s x. induction fuel as [|fuel IH]; intros s x Hx Hok Hlim Hw Hfuel.
  all: pose proof (fd_pass x lim want Hok Hlim Hw) as Hpass; cbv zeta in Hpass.
  all: cbn [fd_search]; unfold get_fd; kunf; rewrite Hx.
  all: destruct (first_free _ _ _) as [j|];
    [exists (inr j), x; split; [reflexivity|]; split; [apply grown_refl|];
     pose proof (fo_size x Hok); split; [lia|done]|].
  all: destruct (Z.leb_spec lim (fd_nfiles x)) as [Hle|Hgt];
    [exists (inl EMFILE), x; split; [by rewrite upd_fd_id|]; split; [apply grown_refl|];
     split; [pose proof (fo_size x Hok); lia|]; split; [done|];
     intros k Hk; apply Hpass; lia|].
  { simpl in Hfuel. lia. }
  pose proof (fd_expand_grown x Hok) as Hg. pose proof (fo_size x Hok) as Hsz.
  assert (Hn : fd_nfiles x <= fd_nfiles (fd_expand x) <= 65536 /\
    2 * fd_nfiles x <= fd_nfiles (fd_expand x)).
  { pose proof (size_step_ge _ (fo_steps x Hok)). unfold fd_expand, fd_with_arrays, NDEXTENT, NDFILE in *. simpl.
    destruct (Z.ltb_spec (fd_nfiles x) 50); lia. }
  destruct (IH (upd_fd l (fd_expand x) s) (fd_expand x)) as (r & y & Hrun & Hg' & Hy & Hr); try done.
  - simpl. by rewrite lookup_insert_eq.
  - apply (grown_ok x); [done|done|lia].
  - rewrite Nat2Z.inj_succ, Z.pow_succ_r in Hfuel by lia. nia.
  - exists r, y. rewrite Hrun, upd_fd_twice. split; [done|]. split; [by eapply grown_trans|].
    split; [done|]. destruct r as [e|i]; [|done]. destruct Hr as [-> Hr]. split; [done|].
    intros k Hk. rewrite <- (grown_slot x (fd_expand x)) by done. by apply Hr.
Qed.

(** The table and the limit of a process. *)
Record has_table (s : dst) (p l : loc) (x : filedesc) (lim : Z) : Prop := HasTable {
  ht_pfd : d_pfd s !! p = Some l;
  ht_fd : d_fds s !! l = Some x;
  ht_lim : ofile_limit p s = Some (lim, s);
  ht_ok : fd_ok x;
  ht_max : 0 <= lim <= 32768 }.

Lemma fdalloc_run s p l x lim want :
  has_table s p l x lim -> 0 <= want ->
  exists r y, fdalloc p want s =
      Some (r, upd_fd l (match r with inr i => allocated y want i | inl _ => y end) s) /\
    grown x y /\ fd_nfiles y <= 65536 /\
    match r with
    | inr i => lowest y want i /\ i < lim
    | inl e => e = EMFILE /\ forall k, want <= k < lim -> slot x k <> None
    end.
Proof.
  intros [Hp Hx Hl Hok Hlim] Hw.
  destruct (fd_search_spec 32 s l x lim want) as (r & y & Hrun & H1 & H2 & H3); try done.
  { pose proof (fo_size x Hok). unfold NDFILE in *. lia. }
  exists r, y. split; [|done]. unfold fdalloc, fd_of. kunf. rewrite Hp.
  rewrite Hl. by rewrite s32_id by (unfold is_s32; lia).
Qed.
