(* ===== verification/DescripInv.v ===== *)
(** * The open-file table: references, list and credentials

    The invariant of the open-file objects - each is counted once for every descriptor
    and message that holds it, linked in the global list and holding its credential -
    and how [hold], [closef], [falloc] and a change of a descriptor table act on it. *)

From S2P Require Import Prelude Chain Count Proc Cred CredSafety Rlimit Descrip DescripSafety.
Local Open Scope kern_scope.

Implicit Types s : dst.

(** ** The list of open files *)

Definition file_link : link dst := {|
  lk_get pp s := match pp with
    | PHead => Some (d_filehead s)
    | PNext l => f_filef <$> d_files s !! l
    end;
  lk_set pp v s := match pp with
    | PHead => set_head v s
    | PNext l => upd_files (alter (fun y => f_with_filef y v) l) s
    end |}.

#[export] Instance file_link_laws : LinkLaws file_link.
Proof.
  split. intros [|l] [|l'] v s [w Hw]; simpl in *; try done.
  destruct (decide (PNext l' = PNext l)) as [[= ->]|Hne].
  - rewrite lookup_alter_eq. by destruct (d_files s !! l).
  - rewrite lookup_alter_ne; [done|congruence].
Qed.

Lemma load_fp_get pp s v : lk_get file_link pp s = Some v -> load_fp pp s = Some (v, s).
Proof.
  destruct pp as [|l]; simpl; unfold load_fp, get_file; kunf; [by intros [= ->]|].
  destruct (d_files s !! l); [|done]. by intros [= ->].
Qed.

Lemma store_fp_set pp v s :
  is_Some (lk_get file_link pp s) -> store_fp pp v s = Some (tt, lk_set file_link pp v s).
Proof.
  destruct pp as [|l]; simpl; [done|]. intros [w Hw]. unfold get_file, set_file. kunf.
  destruct (d_files s !! l) as [y|] eqn:E; [|done]. do 2 f_equal. unfold upd_files. f_equal.
  apply map_eq. intros k. destruct (decide (k = l)) as [->|Hne].
  - by rewrite lookup_insert_eq, lookup_alter_eq, E.
  - by rewrite lookup_insert_ne, lookup_alter_ne.
Qed.

(** The back pointers of the elements of a chain from [pp]. *)
Fixpoint backs (m : gmap loc file) (pp : pptr) (l : list loc) : Prop :=
  match l with
  | [] => True
  | x :: l' => f_fileb <$> m !! x = Some pp /\ backs m (PNext x) l'
  end.

Lemma backs_frame m m' pp l :
  (forall x, x ∈ l -> f_fileb <$> m' !! x = f_fileb <$> m !! x) -> backs m pp l -> backs m' pp l.
Proof.
  revert pp. induction l as [|x l IH]; intros pp Hf; simpl; [done|]. intros [H1 H2]. split.
  - rewrite Hf; [done|set_solver].
  - apply IH; [|done]. intros y Hy. apply Hf. set_solver.
Qed.

Lemma backs_app m pp l1 l2 : backs m pp (l1 ++ l2) <-> backs m pp l1 /\ backs m (endp pp l1) l2.
Proof.
  revert pp. induction l1 as [|x l1 IH]; intros pp; simpl.
  - by split; [intros|intros [_ ?]].
  - rewrite IH, endp_cons. tauto.
Qed.

(** [l] is the list of open files, linked both ways. *)
Record flist s (l : list loc) : Prop := Flist {
  fl_chain : chain file_link s PHead l;
  fl_backs : backs (d_files s) PHead l;
  fl_nodup : NoDup l;
  fl_all : forall f, f ∈ l <-> is_Some (d_files s !! f);
  fl_count : d_nfiles s = zlen l;
  fl_max : zlen l < 2147483648 }.

(** ** References *)

(** The descriptors that name the open file [f]. *)
Definition refs s (f : loc) : Z := msum (fun _ x => occ f (fd_ofiles x)) (d_fds s).

Lemma refs_nonneg s f : 0 <= refs s f.
Proof. apply msum_nonneg. intros. apply occ_nonneg. Qed.

Lemma refs_upd s l x y f :
  d_fds s !! l = Some x ->
  refs (upd_fd l y s) f = refs s f - occ f (fd_ofiles x) + occ f (fd_ofiles y).
Proof. intros Hx. unfold refs. simpl. by rewrite (msum_insert _ _ l x). Qed.

Lemma refs_slot s l x i f :
  d_fds s !! l = Some x -> fd_ok x -> slot x i = Some f -> 1 <= refs s f.
Proof.
  intros Hx Hok Hs. unfold slot in Hs. destruct (znth (fd_ofiles x) i) as [o|] eqn:E; [|done].
  simpl in Hs. subst. pose proof (occ_pos _ _ _ E).
  pose proof (msum_ge (fun _ x => occ f (fd_ofiles x)) (d_fds s) l x) as Hge.
  unfold refs. simpl in Hge. specialize (Hge ltac:(intros; apply occ_nonneg) Hx). lia.
Qed.

(** ** Credentials *)

Definition cred_users (c : cst) (m : gmap loc file) (l : loc) : Z :=
  holders (pcreds c) l + count (fun _ y => bool_decide (f_cred y = l)) m.

(** Every credential in use is counted once per [pcred] and per open file. *)
Definition cred_refs (c : cst) (m : gmap loc file) : Prop :=
  forall l, 0 < cred_users c m l ->
    exists u, ucreds c !! l = Some u /\ cr_ref u = cred_users c m l /\ cr_ref u < 65536.

Lemma cred_refs_same c m m' :
  (forall f, f_cred <$> m' !! f = f_cred <$> m !! f) -> cred_refs c m -> cred_refs c m'.
Proof.
  intros Hm Hc l. unfold cred_users.
  rewrite (count_agree (fun _ y => bool_decide (f_cred y = l)) (fun _ y => bool_decide (f_cred y = l)) m' m).
  - apply Hc.
  - intros f. specialize (Hm f). destruct (m' !! f) as [a|], (m !! f) as [b|]; simpl in *; try done.
    injection Hm as Hm. by rewrite Hm.
Qed.

Lemma crfree_refs c m f y :
  cred_refs c m -> m !! f = Some y ->
  exists c', crfree (f_cred y) c = Some (tt, c') /\ cred_refs c' (delete f m) /\
    pcreds c' = pcreds c /\ procs c' = procs c.
Proof.
  intros Hc Hf.
  assert (Hpos : 0 < cred_users c m (f_cred y)).
  { unfold cred_users. pose proof (count_nonneg (holds_cred (f_cred y)) (pcreds c)).
    assert (1 <= count (fun _ z => bool_decide (f_cred z = f_cred y)) m)
      by (eapply count_pos; [exact Hf|by apply bool_decide_true]).
    unfold holders. lia. }
  destruct (Hc _ Hpos) as (u & Hu & Hn & Hlt).
  assert (Hdel : forall l, cred_users c m l =
    cred_users c (delete f m) l + ind (bool_decide (f_cred y = l))).
  { intros l. unfold cred_users. rewrite (count_delete _ m f y) by done. lia. }
  unfold crfree, get_ucred. kunf. rewrite Hu. rewrite u16_id by (unfold is_u16; lia).
  unfold ztrue. destruct (Z.eqb_spec (cr_ref u - 1) 0) as [E1|E1]; simpl.
  - eexists. split; [reflexivity|]. split; [|done]. intros l Hl.
    assert (Hlc : l <> f_cred y).
    { intros ->. unfold cred_users in *. simpl in *. specialize (Hdel (f_cred y)).
      rewrite ind_true in Hdel by done. lia. }
    unfold cred_users in *. simpl in *. specialize (Hdel l). rewrite ind_false in Hdel by done.
    destruct (Hc l) as (v & Hv & Hvn & Hvl); [unfold cred_users; lia|].
    exists v. rewrite lookup_delete_ne by done. split; [done|]. unfold cred_users in Hvn. lia.
  - eexists. split; [reflexivity|]. split; [|done]. intros l Hl. unfold cred_users in *. simpl in *.
    specialize (Hdel l). destruct (decide (l = f_cred y)) as [->|Hne].
    + rewrite lookup_insert_eq. eexists. split; [done|]. simpl. rewrite ind_true in Hdel by done. lia.
    + rewrite lookup_insert_ne by done. rewrite ind_false in Hdel by done.
      destruct (Hc l) as (v & Hv & Hvn & Hvl); [unfold cred_users; lia|].
      exists v. split; [done|]. unfold cred_users in Hvn. lia.
Qed.

(** ** The invariant *)

(** The invariant while [h f] references to [f] are in the hands of running code. *)
Record dinv (h : loc -> Z) s : Prop := Dinv {
  di_ok : forall l x, d_fds s !! l = Some x -> fd_ok x;
  di_slot : forall l x i f, d_fds s !! l = Some x -> slot x i = Some f -> is_Some (d_files s !! f);
  di_count : forall f y, d_files s !! f = Some y ->
    f_count y = refs s f + f_msgcount y + h f /\ 0 <= f_msgcount y /\ 0 < f_count y < 32768;
  di_list : exists l, flist s l;
  di_cred : cred_refs (r_cred (d_rst s)) (d_files s) }.

Definition none_held : loc -> Z := fun _ => 0.
Definition plus (h : loc -> Z) (fp : loc) : loc -> Z :=
  fun f => h f + ind (bool_decide (fp = f)).

Lemma dinv_ext h h' s : (forall f, h f = h' f) -> dinv h s -> dinv h' s.
Proof.
  intros E [H1 H2 H3 H4 H5]. split; try done. intros f y Hf. rewrite <- E. by apply H3.
Qed.

(** A table is replaced: the references it gave up are in hand, those it took are not. *)
Lemma dinv_table h s l x y :
  dinv h s -> d_fds s !! l = Some x -> fd_ok y ->
  (forall i f, slot y i = Some f -> is_Some (d_files s !! f)) ->
  dinv (fun f => h f + occ f (fd_ofiles x) - occ f (fd_ofiles y)) (upd_fd l y s).
Proof.
  intros [H1 H2 H3 [fl [F1 F2 F3 F4 F5 F6]] H5] Hx Hy Hs. split; simpl.
  - intros l' z Hz. apply lookup_insert_Some in Hz as [[<- <-]|[_ Hz]]; eauto.
  - intros l' z i f Hz Hf. apply lookup_insert_Some in Hz as [[<- <-]|[_ Hz]]; eauto.
  - intros f z Hz. rewrite (refs_upd s l x y) by done. destruct (H3 f z Hz) as (E & ? & ?). lia.
  - exists fl. split; try done. by apply (chain_frame _ s).
  - done.
Qed.

Lemma flist_file s l f y y' :
  flist s l -> d_files s !! f = Some y -> f_filef y' = f_filef y -> f_fileb y' = f_fileb y ->
  flist (upd_files (<[f := y']>) s) l.
Proof.
  intros [F1 F2 F3 F4 F5 F6] Hf E1 E2. split; simpl; try done.
  - revert F1. apply chain_frame. intros [|g] _; [done|]. simpl.
    destruct (decide (f = g)) as [<-|Hne]; [by rewrite lookup_insert_eq, Hf; simpl; rewrite E1|].
    by rewrite lookup_insert_ne.
  - revert F2. apply backs_frame. intros g _.
    destruct (decide (f = g)) as [<-|Hne]; [by rewrite lookup_insert_eq, Hf; simpl; rewrite E2|].
    by rewrite lookup_insert_ne.
  - intros g. rewrite F4, lookup_insert_is_Some. split; [|intros [<-|[_ ?]]; eauto].
    intros Hg. destruct (decide (f = g)); auto.
Qed.

(** A file's own fields change, not its links nor its credential. *)
Lemma dinv_file h s f y y' d :
  dinv h s -> d_files s !! f = Some y ->
  f_filef y' = f_filef y -> f_fileb y' = f_fileb y -> f_cred y' = f_cred y ->
  f_msgcount y' = f_msgcount y -> f_count y' = f_count y + d -> 0 < f_count y' < 32768 ->
  dinv (fun g => h g + (if decide (f = g) then d else 0)) (upd_files (<[f := y']>) s).
Proof.
  intros [H1 H2 H3 [fl Hfl] H5] Hf E1 E2 E3 E4 E5 Hc.
  assert (Hsome : forall g, is_Some (<[f := y']> (d_files s) !! g) <-> is_Some (d_files s !! g)).
  { intros g. rewrite lookup_insert_is_Some. split; [intros [<-|[_ ?]]; eauto|].
    destruct (decide (f = g)); auto. }
  split; simpl; try done.
  - intros l x i g Hx Hg. apply Hsome. eauto.
  - intros g z Hz. unfold refs. simpl. apply lookup_insert_Some in Hz as [[<- <-]|[Hne Hz]].
    + rewrite decide_True by done. destruct (H3 f y Hf) as (E & ? & ?). unfold refs in E. lia.
    + rewrite decide_False by done. destruct (H3 g z Hz) as (E & ? & ?). unfold refs in E. lia.
  - exists fl. by apply (flist_file s fl f y).
  - revert H5. apply cred_refs_same. intros g.
    destruct (decide (f = g)) as [<-|Hne]; [by rewrite lookup_insert_eq, Hf; simpl; rewrite E3|].
    by rewrite lookup_insert_ne.
Qed.

(** ** Holding and releasing *)

Lemma hold_file_spec h s f y :
  dinv h s -> d_files s !! f = Some y -> f_count y < 32767 ->
  hold_file f s = Some (tt, upd_files (<[f := f_with_count y (f_count y + 1)]>) s) /\
  dinv (plus h f) (upd_files (<[f := f_with_count y (f_count y + 1)]>) s).
Proof.
  intros Hd Hf Hc. destruct (di_count h s Hd f y Hf) as (_ & _ & Hpos).
  unfold hold_file, get_file, set_file. kunf. rewrite Hf.
  replace (s16 (f_count y + 1)) with (f_count y + 1) by mlia. split; [done|].
  eapply dinv_ext; [|apply (dinv_file h s f y (f_with_count y (f_count y + 1)) 1); try done; simpl; lia].
  intros g. unfold plus. case_decide; [rewrite ind_true by done|rewrite ind_false by done]; lia.
Qed.

(** The same file, up to its place in the list. *)
Definition same_body (y y' : file) : Prop :=
  f_flag y' = f_flag y /\ f_type y' = f_type y /\ f_count y' = f_count y /\
  f_msgcount y' = f_msgcount y /\ f_cred y' = f_cred y /\ f_offset y' = f_offset y /\
  f_data y' = f_data y.

(** [m'] has the files of [m], linked differently. *)
Definition relinked (m m' : gmap loc file) : Prop :=
  forall g, match m !! g, m' !! g with
    | Some y, Some y' => same_body y y'
    | None, None => True
    | _, _ => False
    end.

Lemma relinked_refl m : relinked m m.
Proof. intros g. by destruct (m !! g). Qed.

Lemma relinked_trans m1 m2 m3 : relinked m1 m2 -> relinked m2 m3 -> relinked m1 m3.
Proof.
  intros H1 H2 g. specialize (H1 g). specialize (H2 g). unfold same_body in *.
  destruct (m1 !! g), (m2 !! g), (m3 !! g); intuition congruence.
Qed.

Lemma relinked_insert m g y y' : m !! g = Some y -> same_body y y' -> relinked m (<[g := y']> m).
Proof.
  intros Hg Hy k. destruct (decide (g = k)) as [<-|Hne].
  - by rewrite Hg, lookup_insert_eq.
  - rewrite lookup_insert_ne by done. by destruct (m !! k).
Qed.

Lemma relinked_some m m' g : relinked m m' -> is_Some (m' !! g) <-> is_Some (m !! g).
Proof.
  intros H. specialize (H g). unfold is_Some. destruct (m !! g), (m' !! g); naive_solver.
Qed.

(** [set_back] and [store_fp] only relink; the state outside the files and the head is
    untouched. *)
Definition files_only s s' : Prop :=
  d_rst s' = d_rst s /\ d_pfd s' = d_pfd s /\ d_fds s' = d_fds s /\ d_nfiles s' = d_nfiles s /\
  d_log s' = d_log s.

Lemma files_only_trans s1 s2 s3 : files_only s1 s2 -> files_only s2 s3 -> files_only s1 s3.
Proof. unfold files_only. intuition congruence. Qed.

(** The two stores that take [fp] out of the list: [*fp->f_fileb = fp->f_filef] and the
    back pointer of its successor. *)
Lemma unlink_file s l1 l2 fp x :
  flist s (l1 ++ fp :: l2) -> d_files s !! fp = Some x ->
  exists s', (do! set_back (f_filef x) (f_fileb x) in store_fp (f_fileb x) (f_filef x)) s
      = Some (tt, s') /\ files_only s s' /\ relinked (d_files s) (d_files s') /\
    chain file_link s' PHead (l1 ++ l2) /\ backs (d_files s') PHead (l1 ++ l2).
Proof.
  intros [Hc Hb Hnd Hall Hn _] Hx.
  pose proof (chain_end file_link s PHead l1 (fp :: l2) Hc) as [Hget Hc2].
  apply backs_app in Hb as Hb'. destruct Hb' as [Hb1 [Hbx Hb2]]. rewrite Hx in Hbx. simpl in Hbx.
  injection Hbx as Hbx. rewrite Hbx. set (e := endp PHead l1) in *.
  pose proof (chain_get file_link s _ _ Hc2) as Hnext. simpl in Hnext. rewrite Hx in Hnext.
  simpl in Hnext. injection Hnext as Hnext. rewrite Hnext.
  apply NoDup_app in Hnd as (Hnd1 & Hdis & Hnd2). apply NoDup_cons in Hnd2 as [Hfp Hnd2].
  (* the successor's back pointer *)
  assert (exists s1, set_back (head l2) e s = Some (tt, s1) /\ files_only s s1 /\
    relinked (d_files s) (d_files s1) /\ d_filehead s1 = d_filehead s /\
    (forall g, f_filef <$> d_files s1 !! g = f_filef <$> d_files s !! g) /\
    (forall g, g ∉ l2 -> f_fileb <$> d_files s1 !! g = f_fileb <$> d_files s !! g) /\
    backs (d_files s1) e l2) as (s1 & Hs1 & Ho1 & Hr1 & Hh1 & Hf1 & Hk1 & Hb1').
  { destruct l2 as [|z l2]; simpl.
    - exists s. split_and!; try done. apply relinked_refl.
    - destruct (proj1 (Hall z)) as [y Hy]; [set_solver|].
      unfold get_file, set_file. kunf. rewrite Hy. eexists. split; [reflexivity|].
      apply NoDup_cons in Hnd2 as [Hz Hnd2].
      split; [done|]. split; [by eapply relinked_insert|]. split; [done|]. simpl.
      split_and!.
      + intros g. destruct (decide (z = g)) as [<-|]; [by rewrite lookup_insert_eq, Hy|].
        by rewrite lookup_insert_ne.
      + intros g Hg. rewrite lookup_insert_ne; [done|]. intros ->. set_solver.
      + by rewrite lookup_insert_eq.
      + destruct Hb2 as [_ Hb2]. revert Hb2. apply backs_frame. intros g Hg.
        rewrite lookup_insert_ne; [done|]. intros ->. done. }
  assert (Hsame : forall qq, lk_get file_link qq s1 = lk_get file_link qq s).
  { intros [|g]; simpl; [by rewrite Hh1|apply Hf1]. }
  assert (He : is_Some (lk_get file_link e s1)) by (rewrite Hsame, Hget; eauto).
  exists (lk_set file_link e (head l2) s1). unfold kbind. rewrite Hs1, store_fp_set by done.
  split; [done|].
  assert (Hset : files_only s1 (lk_set file_link e (head l2) s1) /\
    relinked (d_files s1) (d_files (lk_set file_link e (head l2) s1)) /\
    forall g, f_fileb <$> d_files (lk_set file_link e (head l2) s1) !! g =
              f_fileb <$> d_files s1 !! g).
  { destruct e as [|g]; simpl; [split; [done|]; split; [apply relinked_refl|done]|].
    split; [done|]. simpl in He.
    split; intros k; (destruct (decide (k = g)) as [->|Hk];
      [rewrite lookup_alter_eq; by destruct (d_files s1 !! g)|
       rewrite lookup_alter_ne by done; by destruct (d_files s1 !! k)]). }
  destruct Hset as (Ho2 & Hr2 & Hk2).
  split; [by eapply files_only_trans|]. split; [by eapply relinked_trans|]. split.
  - apply (chain_splice file_link s _ PHead l1 (fp :: l2)); try done.
    + fold e. apply (chain_set_head file_link s1 e (PNext fp)); [|done|].
      * revert Hc2. apply chain_frame. intros qq _. apply Hsame.
      * intros g Hg. unfold e. destruct (endp_in PHead l1) as [->|(k & Hk & ->)]; [done|].
        intros [= ->]. apply (Hdis g); set_solver.
    + intros qq _ Hne. rewrite lk_get_set by done. rewrite decide_False by done. apply Hsame.
  - apply backs_app. fold e. split.
    + revert Hb1. apply backs_frame. intros g Hg. rewrite Hk2. apply Hk1. intros Hg2.
      apply (Hdis g); set_solver.
    + revert Hb1'. apply backs_frame. intros g _. apply Hk2.
Qed.

Lemma flist_split s l fp : flist s l -> is_Some (d_files s !! fp) -> exists l1 l2, l = l1 ++ fp :: l2.
Proof. intros Hl Hf. apply list_elem_of_split. by apply (fl_all s l Hl). Qed.

Lemma relinked_cred m m' f : relinked m m' -> f_cred <$> m' !! f = f_cred <$> m !! f.
Proof.
  intros H. specialize (H f). unfold same_body in H.
  destruct (m !! f), (m' !! f); simpl; try done. f_equal. tauto.
Qed.

Lemma relinked_delete m m' f : relinked m m' -> relinked (delete f m) (delete f m').
Proof.
  intros H g. destruct (decide (f = g)) as [<-|Hne].
  - by rewrite !lookup_delete_eq.
  - rewrite !lookup_delete_ne by done. apply H.
Qed.

(** The states that differ in credentials, files, their list and recorded calls. *)
Definition outside_same s s' : Prop :=
  d_pfd s' = d_pfd s /\ d_fds s' = d_fds s /\ exists c, d_rst s' = with_cred c (d_rst s) /\
    pcreds c = pcreds (r_cred (d_rst s)) /\ procs c = procs (r_cred (d_rst s)).

Lemma outside_refl s : outside_same s s.
Proof. split_and!; try done. exists (r_cred (d_rst s)). split; [by destruct (d_rst s)|done]. Qed.

Lemma outside_trans s1 s2 s3 : outside_same s1 s2 -> outside_same s2 s3 -> outside_same s1 s3.
Proof.
  intros (P1 & F1 & c1 & E1 & K1 & L1) (P2 & F2 & c2 & E2 & K2 & L2). split; [congruence|].
  split; [congruence|]. exists c2. rewrite E2, E1. rewrite E1 in K2, L2. simpl in *.
  split; [done|]. split; congruence.
Qed.

Lemma ofile_limit_eq s p :
  ofile_limit p s =
    match r_limp (d_rst s) !! p with
    | Some l => match r_lims (d_rst s) !! l with
                | Some x => match znth (pl_rlimit x) RLIMIT_OFILE with
                            | Some r => Some (rlim_cur r, s)
                            | None => None
                            end
                | None => None
                end
    | None => None
    end.
Proof.
  unfold ofile_limit, on_rst, kzoom. kunf. destruct s as [r]. simpl.
  repeat case_match; simplify_eq; done.
Qed.

Lemma outside_limit s s' p lim :
  outside_same s s' -> ofile_limit p s = Some (lim, s) -> ofile_limit p s' = Some (lim, s').
Proof.
  intros (_ & _ & c & E & _) H. rewrite ofile_limit_eq in *. rewrite E. simpl.
  repeat case_match; try done. by simplify_eq.
Qed.

(** [ffree] takes the file out of the list and gives back its credential. *)
Lemma ffree_spec s l fp x :
  flist s l -> cred_refs (r_cred (d_rst s)) (d_files s) -> d_files s !! fp = Some x ->
  exists s', ffree fp s = Some (tt, s') /\ outside_same s s' /\ d_log s' = d_log s /\
    (exists l', flist s' l') /\ cred_refs (r_cred (d_rst s')) (d_files s') /\
    relinked (delete fp (d_files s)) (d_files s').
Proof.
  intros Hl Hcr Hx. destruct (flist_split s l fp Hl) as (l1 & l2 & ->); [eauto|].
  destruct (unlink_file s l1 l2 fp x Hl Hx) as (s1 & Hs1 & (O1 & O2 & O3 & O4 & O5) & Hrel & Hc & Hb).
  destruct Hl as [_ _ Hnd Hall Hn Hmax].
  assert (Hx1 : exists x1, d_files s1 !! fp = Some x1 /\ f_cred x1 = f_cred x).
  { pose proof (relinked_cred _ _ fp Hrel) as E. rewrite Hx in E.
    destruct (d_files s1 !! fp) as [x1|]; simplify_eq/=; eauto. }
  destruct Hx1 as (x1 & Hx1 & Ecr).
  assert (Hcr1 : cred_refs (r_cred (d_rst s)) (d_files s1)).
  { revert Hcr. apply cred_refs_same. intros f. by apply relinked_cred. }
  destruct (crfree_refs _ _ fp x1 Hcr1 Hx1) as (c' & Hfree & Hcr2 & Epc & Epr). rewrite Ecr in Hfree.
  unfold ffree. unfold kbind at 1, get_file at 1, kderef at 1. rewrite Hx.
  unfold kbind in Hs1.
  destruct (set_back (f_filef x) (f_fileb x) s) as [[[] s0]|] eqn:Hsb; [|done].
  unfold kbind at 1. rewrite Hsb. unfold kbind at 1. rewrite Hs1.
  unfold kbind at 1, d_on_cred, on_rst, on_cred, kzoom. rewrite O1, Hfree. kunf. simpl.
  eexists. split; [reflexivity|]. split.
  { split; [exact O2|]. split; [exact O3|]. exists c'. simpl. by rewrite ?O1. }
  split; [exact O5|]. apply NoDup_app in Hnd as Hnd'. destruct Hnd' as (Hnd1 & Hdis & Hnd2).
  apply NoDup_cons in Hnd2 as [Hfp Hnd2].
  assert (Hfp' : fp ∉ l1 ++ l2) by (intros [H1|H1]%elem_of_app; [apply (Hdis fp); set_solver|done]).
  split; [|split; [exact Hcr2|by apply relinked_delete]].
  exists (l1 ++ l2). split; simpl.
  - revert Hc. apply chain_frame. intros [|g] Hg; [done|]. simpl. rewrite lookup_delete_ne; [done|].
    intros <-. destruct Hg as [Hg|(k & Hk & [= <-])]; done.
  - revert Hb. apply backs_frame. intros g Hg. rewrite lookup_delete_ne; [done|]. by intros <-.
  - apply NoDup_app. split_and!; try done. intros g Hg Hg2. apply (Hdis g); set_solver.
  - intros f. destruct (decide (fp = f)) as [<-|Hne].
    + rewrite lookup_delete_eq. split; [done|]. by intros [? ?].
    + rewrite lookup_delete_ne by done. rewrite (relinked_some _ _ f Hrel), <- Hall. set_solver.
  - rewrite O4, Hn. rewrite !zlen_app, zlen_cons in *. pose proof (zlen_nonneg l1).
    pose proof (zlen_nonneg l2). rewrite s32_id by (unfold is_s32; lia). lia.
  - rewrite !zlen_app, zlen_cons in *. lia.
Qed.

Lemma flist_log s l c : flist s l -> flist (log_call c s) l.
Proof. intros [F1 F2 F3 F4 F5 F6]. split; try done. by apply (chain_frame _ s). Qed.

Lemma dinv_log h s c : dinv h s -> dinv h (log_call c s).
Proof.
  intros [H1 H2 H3 [l Hl] H5]. split; try done. exists l. by apply flist_log.
Qed.

(** The [CClose] calls recorded: the files whose own close routine has run. *)
Definition closed s : list loc :=
  omap (fun c => match c with CClose f => Some f | _ => None end) (d_log s).

Section Closef.
Context (ops : fileops).

(** The unlock of [closef], which only records a call. *)
Lemma unlock_step (b : bool) vp id op fl flg s :
  exists s', (if b then let! _ := advlock ops vp id op fl flg in kret tt else kret tt) s
      = Some (tt, s') /\ (s' = s \/ exists c, s' = log_call c s /\ closed s' = closed s).
Proof.
  destruct b; [|by exists s; auto]. eexists. split; [reflexivity|]. right.
  eexists. split; reflexivity.
Qed.

Lemma outside_log s c : outside_same s (log_call c s).
Proof.
  split; [done|]. split; [done|]. exists (r_cred (d_rst s)). split; [|done].
  by destruct s as [[]].
Qed.

(** [closef] gives back one reference: the file's own close routine runs and the object
    is freed exactly when it was the last. *)
Lemma closef_spec h s fp p y pr :
  dinv (plus h fp) s -> (forall f, 0 <= h f) -> ps_procs (r_pst (d_rst s)) !! p = Some pr ->
  d_files s !! fp = Some y ->
  exists s', closef ops fp p s = Some (if f_count y =? 1 then fo_close ops fp else 0, s') /\
    dinv h s' /\ outside_same s s' /\
    if f_count y =? 1
    then closed s' = fp :: closed s /\ relinked (delete fp (d_files s)) (d_files s')
    else closed s' = closed s /\
         d_files s' = <[fp := f_with_count y (f_count y - 1)]> (d_files s).
Proof.
  intros Hd Hh Hp Hy. unfold closef.
  unfold kbind at 1, d_on_pst, on_rst, on_pst, kzoom, getp, kderef. rewrite Hp.
  replace (with_rst (with_pst (r_pst (d_rst s)) (d_rst s)) s) with s by (by destruct s as [[]]).
  unfold kbind at 1, get_file at 1, kderef. rewrite Hy.
  destruct (unlock_step (flag_set (pr_flag pr) SADVLCK && (f_type y =? DTYPE_VNODE)) (f_data y) p F_UNLCK
    (whole_file F_UNLCK) F_POSIX s) as (s1 & Hs1 & Hs1').
  unfold kbind at 1. rewrite Hs1.
  assert (H1 : dinv (plus h fp) s1 /\ outside_same s s1 /\ closed s1 = closed s /\ d_files s1 = d_files s).
  { destruct Hs1' as [->|(c & -> & E)]; [split_and!; try done; apply outside_refl|].
    split_and!; try done; [by apply dinv_log|apply outside_log]. }
  destruct H1 as (Hd1 & Ho1 & Hcl1 & Hf1). rewrite <- Hf1 in Hy.
  destruct (di_count _ _ Hd1 fp y Hy) as (Ecnt & Hmsg & Hcnt).
  unfold plus in Ecnt. rewrite ind_true in Ecnt by done. pose proof (refs_nonneg s1 fp) as Hrefs.
  specialize (Hh fp) as Hhfp. unfold set_file. unfold kbind at 1, kmod.
  replace (s16 (f_count y - 1)) with (f_count y - 1) by mlia.
  destruct (Z.eqb_spec (f_count y) 1) as [E1|E1].
  - rewrite E1. cbn [Z.ltb Z.sub Z.compare Z.add Z.opp Pos.compare Pos.compare_cont].
    change (0 <? 1 - 1) with false. change (1 - 1 <? 0) with false. cbv iota.
    set (s2 := upd_files (<[fp := f_with_count y (1 - 1)]>) s1).
    destruct (unlock_step (flag_set (f_flag y) FHASLOCK && (f_type y =? DTYPE_VNODE)) (f_data y) fp F_UNLCK
      (whole_file F_UNLCK) F_FLOCK s2) as (s3 & Hs3 & Hs3').
    unfold kbind at 1. rewrite Hs3. unfold kbind at 1.
    destruct (di_list _ _ Hd1) as [l Hl].
    assert (Hl2 : flist s2 l) by (by apply (flist_file s1 l fp y)).
    assert (Hs3o : flist s3 l /\ outside_same s1 s3 /\ closed s3 = closed s1 /\ d_files s3 = d_files s2 /\
      r_cred (d_rst s3) = r_cred (d_rst s1)).
    { assert (outside_same s1 s2) by (split_and!; try done; exists (r_cred (d_rst s1));
        split; [by destruct s1 as [[]]|done]).
      destruct Hs3' as [->|(c & -> & E)]; [by split_and!|].
      split; [by apply flist_log|]. split; [eapply outside_trans; [done|apply outside_log]|].
      split; [exact E|done]. }
    destruct Hs3o as (Hl3 & Ho3 & Hcl3 & Hf3 & Hc3).
    destruct (ffree_spec (log_call (CClose fp) s3) l fp (f_with_count y (1 - 1)))
      as (s4 & Hrun & Ho4 & Hlog4 & Hl4 & Hcr4 & Hrel4).
    + by apply flist_log.
    + simpl. rewrite Hf3, Hc3. apply (cred_refs_same _ (d_files s1)); [|apply (di_cred _ _ Hd1)].
      intros g. simpl. destruct (decide (fp = g)) as [<-|Hne]; [by rewrite lookup_insert_eq, Hy|].
      by rewrite lookup_insert_ne.
    + simpl. rewrite Hf3. simpl. by rewrite lookup_insert_eq.
    + unfold kbind. rewrite Hrun. exists s4. split; [done|].
      assert (Ho14 : outside_same s1 s4).
      { eapply outside_trans; [exact Ho3|]. eapply outside_trans; [apply outside_log|exact Ho4]. }
      simpl in Hrel4. rewrite Hf3 in Hrel4. simpl in Hrel4. rewrite delete_insert_eq in Hrel4.
      assert (Hfds : d_fds s4 = d_fds s1) by apply Ho14.
      split; [|split; [by eapply outside_trans|split; [|by rewrite <- Hf1]]].
      * split; try done.
        -- rewrite Hfds. apply (di_ok _ _ Hd1).
        -- rewrite Hfds. intros l' x i f Hx Hs. apply (relinked_some _ _ f Hrel4).
           rewrite lookup_delete_ne; [by eapply (di_slot _ _ Hd1)|]. intros <-.
           pose proof (refs_slot s1 l' x i fp Hx (di_ok _ _ Hd1 _ _ Hx) Hs). lia.
        -- intros f z Hz. pose proof (Hrel4 f) as Hrf. rewrite Hz in Hrf.
           destruct (decide (fp = f)) as [<-|Hne]; [by rewrite lookup_delete_eq in Hrf|].
           rewrite lookup_delete_ne in Hrf by done.
           destruct (d_files s1 !! f) as [z0|] eqn:Hz0; [|done].
           destruct (di_count _ _ Hd1 f z0 Hz0) as (E & ? & ?).
           destruct Hrf as (_ & _ & Ec & Em & _). unfold plus in E. rewrite ind_false in E by done.
           unfold refs in *. rewrite Hfds. rewrite Ec, Em. lia.
      * transitivity (fp :: closed s3); [unfold closed; by rewrite Hlog4|by rewrite Hcl3, Hcl1].
  - destruct (Z.ltb_spec 0 (f_count y - 1)); [|lia]. eexists. split; [reflexivity|]. split.
    + eapply dinv_ext; [|apply (dinv_file _ s1 fp y (f_with_count y (f_count y - 1)) (-1) Hd1 Hy);
        try done; simpl; lia].
      intros g. unfold plus. simpl. case_decide; [rewrite ind_true by done|rewrite ind_false by done]; lia.
    + split; [|split; [done|by rewrite <- Hf1]]. eapply outside_trans; [exact Ho1|].
      split_and!; try done. exists (r_cred (d_rst s1)). split; [by destruct s1 as [[]]|done].
Qed.
End Closef.
