(* ===== verification/DescripOps.v ===== *)
(** * The descriptor system calls

    [fdalloc], [close], [dup], [dup2] and [fdcopy] against what a caller sees: a private
    map from small integers to open files, whose objects live as long as something
    refers to them. *)

From S2P Require Import Prelude Chain Count Proc Cred CredSafety Rlimit Descrip DescripSafety DescripInv.
Local Open Scope kern_scope.

Implicit Types s : dst.

(** ** Tables after a store *)

Lemma slot_store x i o fl j :
  fd_ok x -> 0 <= i < fd_nfiles x -> slot (set_slot x i o fl) j = if j =? i then o else slot x j.
Proof.
  intros Hok Hi. unfold slot, set_slot. simpl. rewrite znth_zset by (rewrite (fo_files x Hok); lia).
  by destruct (j =? i).
Qed.

Lemma occ_store x i o f :
  fd_ok x -> 0 <= i < fd_nfiles x ->
  occ f (zset (fd_ofiles x) i o) =
    occ f (fd_ofiles x) - ind (bool_decide (slot x i = Some f)) + ind (bool_decide (o = Some f)).
Proof. intros Hok Hi. apply (occ_zset f _ _ (slot x i)). by apply slot_in. Qed.

Lemma raise_last_fields x i :
  fd_ofiles (raise_last x i) = fd_ofiles x /\ fd_ofileflags (raise_last x i) = fd_ofileflags x /\
  fd_nfiles (raise_last x i) = fd_nfiles x /\ fd_freefile (raise_last x i) = fd_freefile x /\
  fd_lastfile (raise_last x i) = (if fd_lastfile x <? i then u16 i else fd_lastfile x).
Proof. unfold raise_last, fd_with_marks. by destruct (fd_lastfile x <? i). Qed.

Lemma fd_ok_open x i fp fl :
  fd_ok x -> 0 <= i < fd_nfiles x -> fd_ok (raise_last (set_slot x i (Some fp) fl) i).
Proof.
  intros Hok Hi. destruct (raise_last_fields (set_slot x i (Some fp) fl) i) as (F & L & N & EF & EL).
  assert (Hslot : forall j, slot (raise_last (set_slot x i (Some fp) fl) i) j =
    if j =? i then Some fp else slot x j).
  { intros j. rewrite <- (slot_store x i _ fl) by done. unfold slot. by rewrite F. }
  pose proof (fo_size x Hok). pose proof (fo_last x Hok).
  constructor; rewrite ?F, ?L, ?N, ?EF, ?EL; simpl.
  - rewrite zlen_zset. apply fo_files, Hok.
  - rewrite zlen_zset. apply fo_flags, Hok.
  - apply fo_steps, Hok.
  - apply fo_most, Hok.
  - apply fo_free, Hok.
  - intros j Hj. rewrite Hslot. destruct (Z.eqb_spec j i); [done|]. by apply (fo_below x Hok).
  - rewrite u16_id by (unfold is_u16; lia). destruct (Z.ltb_spec (fd_lastfile x) i); lia.
  - rewrite u16_id by (unfold is_u16; lia). intros j Hj. rewrite Hslot.
    destruct (Z.eqb_spec j i); [destruct (Z.ltb_spec (fd_lastfile x) i); lia|].
    apply (fo_above x Hok). destruct (Z.ltb_spec (fd_lastfile x) i); lia.
Qed.

(** The mark left by the loop of [close]. *)
Lemma lower_last_spec fs n :
  (lower_last fs n <= n)%nat /\
  forall j, Z.of_nat (lower_last fs n) < j <= Z.of_nat n -> znth fs j = Some None.
Proof.
  induction n as [|n [IH1 IH2]]; [simpl; split; lia|]. cbn [lower_last]. case_decide as Hd.
  - split; [lia|]. intros j Hj. destruct (Z.eq_dec j (Z.of_nat (S n))) as [->|]; [done|].
    apply IH2. lia.
  - split; [lia|]. lia.
Qed.

(** The table [close] leaves. *)
Definition closed_table (x : filedesc) (fd : Z) : filedesc :=
  let fs := zset (fd_ofiles x) fd None in
  fd_with_marks (fd_with_arrays x fs (zset (fd_ofileflags x) fd 0) (fd_nfiles x))
    (Z.of_nat (lower_last fs (Z.to_nat (fd_lastfile x))))
    (if fd <? fd_freefile x then u16 fd else fd_freefile x).

Lemma closed_table_slot x fd j :
  fd_ok x -> 0 <= fd < fd_nfiles x ->
  slot (closed_table x fd) j = if j =? fd then None else slot x j.
Proof. intros Hok Hfd. by apply (slot_store x fd None 0). Qed.

Lemma fd_ok_close x fd : fd_ok x -> 0 <= fd < fd_nfiles x -> fd_ok (closed_table x fd).
Proof.
  intros Hok Hfd. pose proof (fo_size x Hok). pose proof (fo_last x Hok). pose proof (fo_free x Hok).
  destruct (lower_last_spec (zset (fd_ofiles x) fd None) (Z.to_nat (fd_lastfile x))) as [Hle Hnone].
  rewrite Z2Nat.id in Hnone by lia.
  constructor; simpl.
  - rewrite zlen_zset. apply fo_files, Hok.
  - rewrite zlen_zset. apply fo_flags, Hok.
  - apply fo_steps, Hok.
  - apply fo_most, Hok.
  - destruct (fd <? fd_freefile x); [apply u16_range|done].
  - intros j Hj. rewrite closed_table_slot by done.
    rewrite u16_id in Hj by (unfold is_u16; lia).
    destruct (Z.ltb_spec fd (fd_freefile x)); destruct (Z.eqb_spec j fd); try lia;
      apply (fo_below x Hok); lia.
  - lia.
  - intros j Hj. destruct (Z.le_gt_cases j (fd_lastfile x)) as [Hjl|Hjl].
    + unfold slot. simpl. by rewrite Hnone.
    + rewrite closed_table_slot by done. case_match; [done|]. by apply (fo_above x Hok).
Qed.

Lemma slot_range x i fp : fd_ok x -> slot x i = Some fp -> 0 <= i < fd_nfiles x.
Proof.
  intros Hok Hs. unfold slot in Hs. destruct (znth (fd_ofiles x) i) eqn:E; [|done].
  apply znth_some in E. rewrite (fo_files x Hok) in E. done.
Qed.

(** Clearing a descriptor puts its reference in hand. *)
Lemma closed_table_dinv s l x i fq :
  dinv none_held s -> d_fds s !! l = Some x -> slot x i = Some fq ->
  dinv (plus none_held fq) (upd_fd l (closed_table x i) s).
Proof.
  intros Hd Hx Hs. pose proof (di_ok _ _ Hd _ _ Hx) as Hok. pose proof (slot_range x i fq Hok Hs) as Hi.
  eapply dinv_ext; [|apply (dinv_table none_held s l x (closed_table x i) Hd Hx)].
  - intros f. simpl. rewrite occ_store, Hs by done. unfold plus, none_held.
    rewrite (ind_false (None = Some f)) by done.
    rewrite (bool_decide_ext (Some fq = Some f) (fq = f)); [lia|naive_solver].
  - by apply fd_ok_close.
  - intros j f Hj. rewrite closed_table_slot in Hj by done. case_match; [done|].
    by eapply (di_slot _ _ Hd).
Qed.

(** ** Properties *)

(** [fdalloc] always returns, after at most 32 enlargements of the table.  A success
    is the lowest number from [want] on that is not open, below the limit; the table is
    the old one, possibly grown by free entries, with the flags of the new descriptor
    cleared, and still consistent.  EMFILE means that every number from [want] up to the
    limit is open. *)
Theorem fdalloc_lowest s p l x lim want :
  has_table s p l x lim -> 0 <= want ->
  exists r y, fdalloc p want s = Some (r, upd_fd l y s) /\ fd_ok y /\
    (forall k, slot y k = slot x k) /\ fd_nfiles x <= fd_nfiles y /\
    match r with
    | inr i => want <= i < lim /\ i < fd_nfiles y /\ slot x i = None /\
        (forall k, want <= k < i -> slot x k <> None) /\ znth (fd_ofileflags y) i = Some 0
    | inl e => e = EMFILE /\ forall k, want <= k < lim -> slot x k <> None
    end.
Proof.
  intros Ht Hw. pose proof (ht_ok _ _ _ _ _ Ht) as Hok.
  destruct (fdalloc_run s p l x lim want Ht Hw) as (r & y & Hrun & Hg & Hy & Hr).
  pose proof (grown_ok x y Hok Hg Hy) as Hoky.
  assert (Hn : fd_nfiles x <= fd_nfiles y) by (destruct Hg as (k & _ & _ & E & _); lia).
  destruct r as [e|i].
  - exists (inl e), y. split_and!; try done; [|apply Hr..]. intros k. by apply grown_slot.
  - destruct Hr as [Hlow Hlim]. exists (inr i), (allocated y want i).
    destruct (allocated_fields y want i) as (F & L & N & _). split; [done|].
    split; [by apply allocated_ok|]. split.
    { intros k. rewrite <- (grown_slot x y) by done. unfold slot. by rewrite F. }
    destruct Hlow as (Hi & Hs & Hall). rewrite N, L.
    rewrite (grown_slot x y) in Hs by done. split; [done|]. split; [lia|]. split; [lia|].
    split; [done|]. split.
    + intros k Hk. rewrite <- (grown_slot x y) by done. by apply Hall.
    + apply znth_zset_eq. rewrite (fo_flags y Hoky). lia.
Qed.

Section Ops.
Context (ops : fileops).

(** What closing one descriptor on [fp], counted as in [y], does to the open files. *)
Definition releases s s' (fp : loc) (y : file) (e : Z) : Prop :=
  if f_count y =? 1
  then e = fo_close ops fp /\ closed s' = fp :: closed s /\
       relinked (delete fp (d_files s)) (d_files s')
  else e = 0 /\ closed s' = closed s /\
       d_files s' = <[fp := f_with_count y (f_count y - 1)]> (d_files s).

(** C29. [close] of an open descriptor that is not marked as mapped (UF_MAPPED) frees that
    number and no other, in this table only; the open file loses one reference, and exactly
    when that was the last one its own close routine runs, the object leaves the list of
    open files and its credential is given back. Every count, list and mark stays
    consistent. *)
Theorem close_releases s p l x lim fd fp y pr fl :
  dinv none_held s -> has_table s p l x lim -> ps_procs (r_pst (d_rst s)) !! p = Some pr ->
  0 <= fd < fd_nfiles x -> slot x fd = Some fp -> d_files s !! fp = Some y ->
  znth (fd_ofileflags x) fd = Some fl -> flag_set fl UF_MAPPED = false ->
  exists e s' x', close ops p fd s = Some (e, s') /\ dinv none_held s' /\
    d_fds s' = <[l := x']> (d_fds s) /\
    (forall j, slot x' j = if j =? fd then None else slot x j) /\
    releases s s' fp y e.
Proof.
  intros Hd Ht Hp Hfd Hs Hy Hfl Hm. pose proof (ht_ok _ _ _ _ _ Ht) as Hok.
  pose proof (ht_fd _ _ _ _ _ Ht) as Hx. pose proof (fo_size x Hok).
  unfold close. unfold kbind at 1, fd_of, kderef. rewrite (ht_pfd _ _ _ _ _ Ht).
  unfold kbind at 1, get_fd, kderef. rewrite Hx.
  assert (Hff : fd_file x fd = Some fp).
  { unfold fd_file. rewrite u32_id by (unfold is_u32; lia).
    destruct (Z.leb_spec (fd_nfiles x) fd); [lia|]. done. }
  rewrite Hff. unfold kbind at 1, knonnull. rewrite Hfl. unfold kbind at 1, munmapfd_call.
  rewrite Hm. unfold kret at 1. unfold kbind at 1, kmod at 1. fold (closed_table x fd).
  set (s1 := upd_fd l (closed_table x fd) s).
  assert (Hd1 : dinv (plus none_held fp) s1) by (by apply closed_table_dinv).
  destruct (closef_spec ops none_held s1 fp p y pr) as (s' & Hrun & Hd' & Ho & Hrel); try done.
  eexists _, s', (closed_table x fd). split; [exact Hrun|]. split; [done|].
  split; [apply Ho|]. split; [intros j; by apply closed_table_slot|].
  unfold releases. by destruct (f_count y =? 1).
Qed.

(** The table once descriptor [i] names [fp]. *)
Definition opened (x : filedesc) (fp : loc) (i fl : Z) : filedesc :=
  raise_last (set_slot x i (Some fp) (Z.land fl (Z.lnot UF_EXCLOSE))) i.

Lemma opened_files x fp i fl : fd_ofiles (opened x fp i fl) = zset (fd_ofiles x) i (Some fp).
Proof. apply raise_last_fields. Qed.

Lemma opened_slot x fp i fl j :
  fd_ok x -> 0 <= i < fd_nfiles x -> slot (opened x fp i fl) j = if j =? i then Some fp else slot x j.
Proof.
  intros Hok Hi. rewrite <- (slot_store x i _ (Z.land fl (Z.lnot UF_EXCLOSE))) by done.
  unfold slot. by rewrite opened_files.
Qed.

(** The common tail of the duplicating calls. *)
Lemma dup_into_run s l x fp y i fl :
  d_fds s !! l = Some x -> d_files s !! fp = Some y -> 0 < f_count y < 32767 ->
  dup_into l fp i fl s = Some (tt, upd_fd l (opened x fp i fl)
    (upd_files (<[fp := f_with_count y (f_count y + 1)]>) s)).
Proof.
  intros Hx Hy Hc. unfold dup_into, hold_file, get_fd, get_file, set_file. kunf. rewrite Hx. simpl.
  rewrite Hy. simpl. rewrite lookup_insert_eq.
  replace (s16 (f_count y + 1)) with (f_count y + 1) by mlia. do 2 f_equal.
  unfold upd_fd. simpl. f_equal. apply insert_insert_eq.
Qed.

Lemma opened_dinv s l x fp y i fl :
  dinv none_held s -> d_fds s !! l = Some x -> 0 <= i < fd_nfiles x -> slot x i = None ->
  d_files s !! fp = Some y -> f_count y < 32767 ->
  dinv none_held (upd_fd l (opened x fp i fl) (upd_files (<[fp := f_with_count y (f_count y + 1)]>) s)).
Proof.
  intros Hd Hx Hi Hs Hy Hc. pose proof (di_ok _ _ Hd _ _ Hx) as Hok.
  destruct (hold_file_spec none_held s fp y Hd Hy Hc) as [_ Hd1].
  eapply dinv_ext; [|apply (dinv_table _ _ l x (opened x fp i fl) Hd1)].
  - intros f. rewrite opened_files, occ_store, Hs by done. unfold plus.
    rewrite (ind_false (None = Some f)) by done.
    rewrite (bool_decide_ext (Some fp = Some f) (fp = f)); [lia|naive_solver].
  - done.
  - by apply fd_ok_open.
  - intros j f. rewrite opened_slot by done. simpl.
    destruct (decide (f = fp)) as [->|Hne]; [rewrite lookup_insert_eq; eauto|].
    rewrite lookup_insert_ne by done. case_match; [intros [= ->]; done|].
    intros Hj. by eapply (di_slot _ _ Hd).
Qed.

(** The table after [fdalloc] still satisfies the invariant: no file is affected. *)
Lemma dinv_alloc h s l x y :
  dinv h s -> d_fds s !! l = Some x -> fd_ok y -> (forall k, slot y k = slot x k) ->
  (forall f, occ f (fd_ofiles y) = occ f (fd_ofiles x)) -> dinv h (upd_fd l y s).
Proof.
  intros Hd Hx Hok Hs Ho. eapply dinv_ext; [|apply (dinv_table h s l x y Hd Hx Hok)].
  - intros f. simpl. rewrite Ho. lia.
  - intros i f. rewrite Hs. by eapply (di_slot _ _ Hd).
Qed.

Lemma grown_occ x y f : grown x y -> occ f (fd_ofiles y) = occ f (fd_ofiles x).
Proof. intros (k & F & _). rewrite F, occ_app, occ_none. lia. Qed.

Lemma fd_file_slot x fd : fd_ok x -> 0 <= fd < 4294967296 -> fd_file x fd = slot x fd.
Proof.
  intros Hok Hfd. unfold fd_file. rewrite u32_id by done.
  destruct (Z.leb_spec (fd_nfiles x) fd); [|done]. by rewrite slot_out.
Qed.

Lemma flag_at x i : fd_ok x -> 0 <= i < fd_nfiles x -> exists fl, znth (fd_ofileflags x) i = Some fl.
Proof. intros Hok Hi. apply (proj1 (znth_is_some _ _)). by rewrite (fo_flags x Hok). Qed.

(** [dup] answers the lowest free descriptor and makes it name the same open file,
    without the close-on-exec flag; the file counts one reference more and no other
    descriptor, in any table, changes.  Its only failure on an open descriptor is EMFILE,
    with every number below the limit open. *)
Theorem dup_lowest s p l x lim fd arg2 fp y :
  dinv none_held s -> has_table s p l x lim -> 0 <= fd < 64 -> slot x fd = Some fp ->
  d_files s !! fp = Some y -> f_count y < 32767 ->
  exists e i s' x', dup ops p fd arg2 s = Some ((e, i), s') /\ dinv none_held s' /\
    d_fds s' = <[l := x']> (d_fds s) /\ closed s' = closed s /\
    if e =? 0
    then 0 <= i < lim /\ slot x i = None /\ (forall k, 0 <= k < i -> slot x k <> None) /\
         (forall j, slot x' j = if j =? i then Some fp else slot x j) /\
         d_files s' = <[fp := f_with_count y (f_count y + 1)]> (d_files s)
    else e = EMFILE /\ (forall k, 0 <= k < lim -> slot x k <> None) /\
         (forall j, slot x' j = slot x j) /\ d_files s' = d_files s.
Proof.
  intros Hd Ht Hfd Hs Hy Hc. pose proof (ht_ok _ _ _ _ _ Ht) as Hok.
  pose proof (ht_fd _ _ _ _ _ Ht) as Hx. pose proof (slot_range x fd fp Hok Hs) as Hr.
  unfold dup. replace (ztrue (Z.land fd (Z.lnot 63))) with false.
  2: { symmetry. apply negb_false_iff, Z.eqb_eq. rewrite <- Z.ldiff_land. change 63 with (Z.ones 6).
       apply Z.ldiff_ones_r_low; [lia|]. destruct (Z.eq_dec fd 0) as [->|]; [done|].
       apply Z.log2_lt_pow2; lia. }
  unfold kbind at 1, fd_of, kderef. rewrite (ht_pfd _ _ _ _ _ Ht).
  unfold kbind at 1, get_fd at 1, kderef. rewrite Hx.
  rewrite fd_file_slot, Hs by (done || lia).
  destruct (fdalloc_run s p l x lim 0 Ht ltac:(lia)) as (r & z & Hrun & Hg & Hz & Hcase).
  unfold kbind at 1. rewrite Hrun. pose proof (grown_ok x z Hok Hg Hz) as Hokz.
  destruct r as [e|i].
  - destruct Hcase as [-> Hall]. exists EMFILE, 0, (upd_fd l z s), z. split; [done|]. split.
    { apply (dinv_alloc none_held s l x); try done; [intros; by apply grown_slot|].
      intros. by apply grown_occ. }
    split; [done|]. split; [done|]. split; [done|]. split; [done|]. split; [|done].
    intros. by apply grown_slot.
  - destruct Hcase as [(Hi & Hsi & Hlow) Hlim]. set (a := allocated z 0 i).
    destruct (allocated_fields z 0 i) as (F & L & N & _). fold a in F, L, N.
    assert (Hsa : forall k, slot a k = slot x k).
    { intros k. rewrite <- (grown_slot x z) by done. unfold slot. by rewrite F. }
    assert (Hoka : fd_ok a) by (by apply allocated_ok; [|lia|]).
    assert (Hda : dinv none_held (upd_fd l a s)).
    { apply (dinv_alloc none_held s l x); try done. intros f. rewrite F. by apply grown_occ. }
    rewrite <- (grown_slot x z) in Hs by done.
    assert (Hza : fd_nfiles x <= fd_nfiles z) by (destruct Hg as (k & _ & _ & E & _); lia).
    destruct (flag_at a fd Hoka ltac:(lia)) as [fl Hfl].
    assert (Hia : slot a i = None) by (by rewrite Hsa, <- (grown_slot x z)).
    assert (Hxa : d_fds (upd_fd l a s) !! l = Some a) by (simpl; by rewrite lookup_insert_eq).
    destruct (di_count _ _ Hd fp y Hy) as (_ & _ & Hpos).
    unfold kbind at 1, get_fd at 1, kderef. rewrite Hxa. unfold kbind at 1, knonnull. rewrite Hfl.
    unfold kbind at 1. rewrite (dup_into_run _ l a fp y) by (done || lia).
    eexists 0, i, _, (opened a fp i fl). split; [reflexivity|].
    split; [apply opened_dinv; try done; lia|]. split; [apply insert_insert_eq|]. split; [done|].
    simpl. split; [lia|]. split; [by rewrite <- (grown_slot x z)|]. split.
    { intros k Hk. rewrite <- (grown_slot x z) by done. by apply Hlow. }
    split; [|done]. intros j. rewrite opened_slot by (done || lia). by rewrite Hsa.
Qed.

(** ** [dup2] *)

(** Routines that do not look at the descriptor tables. *)
Definition ignores_fds {A} (m : K dst A) : Prop :=
  forall l z s, m (upd_fd l z s) =
    match m s with Some (a, s') => Some (a, upd_fd l z s') | None => None end.

Lemma ignores_bind {A B} (m : K dst A) (k : A -> K dst B) :
  ignores_fds m -> (forall a, ignores_fds (k a)) -> ignores_fds (kbind m k).
Proof.
  intros Hm Hk l z s. unfold kbind. rewrite Hm. destruct (m s) as [[a s']|]; [apply Hk|done].
Qed.

Lemma ignores_ret {A} (a : A) : ignores_fds (kret a).
Proof. done. Qed.

Lemma ignores_if {A} (b : bool) (m1 m2 : K dst A) :
  ignores_fds m1 -> ignores_fds m2 -> ignores_fds (if b then m1 else m2).
Proof. by destruct b. Qed.

Lemma ignores_rst {A} (m : K rst A) : ignores_fds (on_rst m).
Proof. intros l z s. unfold on_rst, kzoom. simpl. by destruct (m (d_rst s)) as [[a r]|]. Qed.

Lemma ignores_get f : ignores_fds (get_file f).
Proof. intros l z s. unfold get_file, kderef. simpl. by destruct (d_files s !! f). Qed.

Lemma ignores_store pp v : ignores_fds (store_fp pp v).
Proof.
  destruct pp as [|f]; [done|]. apply ignores_bind; [apply ignores_get|done].
Qed.

Lemma ignores_back v b : ignores_fds (set_back v b).
Proof. destruct v as [f|]; [|done]. apply ignores_bind; [apply ignores_get|done]. Qed.

Lemma ignores_ffree f : ignores_fds (ffree f).
Proof.
  unfold ffree. apply ignores_bind; [apply ignores_get|]. intros x.
  apply ignores_bind; [apply ignores_back|]. intros _.
  apply ignores_bind; [apply ignores_store|]. intros _.
  apply ignores_bind; [apply ignores_rst|]. intros _ l z s. reflexivity.
Qed.

Lemma ignores_closef fp p : ignores_fds (closef ops fp p).
Proof.
  unfold closef. apply ignores_bind; [apply ignores_rst|]. intros pr.
  apply ignores_bind; [apply ignores_get|]. intros x.
  apply ignores_bind; [by apply ignores_if|]. intros _.
  apply ignores_bind; [done|]. intros _.
  apply ignores_if; [done|]. apply ignores_if; [done|].
  apply ignores_bind; [by apply ignores_if|]. intros _.
  apply ignores_bind; [done|]. intros _.
  apply ignores_bind; [apply ignores_ffree|done].
Qed.

(** The file that [dup2] replaces at [new]: its close routine runs if it loses its last
    reference. *)
Definition replaced s (x : filedesc) (old new : Z) : list loc :=
  if old =? new then [] else
  match slot x new with
  | Some fq => match d_files s !! fq with
               | Some z => if f_count z =? 1 then [fq] else []
               | None => []
               end
  | None => []
  end.

(** [closef] returns, also when the reference it gives up is still in a table. *)
Lemma closef_total s l x i fq p z pr :
  dinv none_held s -> d_fds s !! l = Some x -> slot x i = Some fq ->
  ps_procs (r_pst (d_rst s)) !! p = Some pr -> d_files s !! fq = Some z ->
  closef ops fq p s <> None.
Proof.
  intros Hd Hx Hs Hp Hz Hnone. pose proof (di_ok _ _ Hd _ _ Hx) as Hok.
  pose proof (slot_range x i fq Hok Hs) as Hi. set (t := closed_table x i).
  assert (Hd1 : dinv (plus none_held fq) (upd_fd l t s)) by (by apply closed_table_dinv).
  destruct (closef_spec ops none_held (upd_fd l t s) fq p z pr) as (s3 & Hrun3 & _); try done.
  rewrite ignores_closef, Hnone in Hrun3. done.
Qed.

(** The part of [dup2] after the old file at [new] has been closed. *)
Lemma dup2_after_close s s2 p l x fp fq y z old new pr fl e :
  dinv none_held s -> d_fds s !! l = Some x -> fd_ok x -> old <> new ->
  ps_procs (r_pst (d_rst s)) !! p = Some pr ->
  slot x old = Some fp -> slot x new = Some fq -> d_files s !! fp = Some y ->
  f_count y < 32767 -> d_files s !! fq = Some z -> closef ops fq p s = Some (e, s2) ->
  exists s' x', dup_into l fp new fl s2 = Some (tt, s') /\ dinv none_held s' /\
    d_fds s2 = d_fds s /\ d_fds s' = <[l := x']> (d_fds s) /\
    (forall j, slot x' j = if j =? new then Some fp else slot x j) /\
    closed s' = (if f_count z =? 1 then [fq] else []) ++ closed s.
Proof.
  intros Hd Hx Hok Hne Hp Hso Hsn Hy Hc Hz Hrun.
  pose proof (slot_range x new fq Hok Hsn) as Hnew.
  set (t := closed_table x new).
  assert (Hokt : fd_ok t) by (by apply fd_ok_close).
  assert (Hd1 : dinv (plus none_held fq) (upd_fd l t s)) by (by apply closed_table_dinv).
  destruct (closef_spec ops none_held (upd_fd l t s) fq p z pr) as (s3 & Hrun3 & Hd3 & Ho3 & Hrel3);
    try done.
  rewrite ignores_closef, Hrun in Hrun3. injection Hrun3 as _ <-.
  assert (Hfds2 : d_fds s2 = d_fds s).
  { pose proof (ignores_closef fq p l x s) as Hi. rewrite (upd_fd_id s l x Hx), Hrun in Hi.
    simplify_eq. destruct Ho3 as (_ & Hf & _). simpl in Hf. rewrite Hi. simpl.
    apply map_eq. intros k. destruct (decide (l = k)) as [<-|Hk]; [by rewrite lookup_insert_eq|].
    rewrite lookup_insert_ne by done.
    pose proof (f_equal (fun m => m !! k) Hf) as Hfk. simpl in Hfk.
    by rewrite !lookup_insert_ne in Hfk. }
  assert (Htold : slot t old = Some fp).
  { unfold t. rewrite closed_table_slot by done. by destruct (Z.eqb_spec old new). }
  assert (Hy2 : exists y2, d_files s2 !! fp = Some y2 /\ f_count y2 < 32767).
  { destruct (di_slot _ _ Hd3 l t old fp) as [y2 Hy2]; [simpl; by rewrite lookup_insert_eq|done|].
    simpl in Hy2. exists y2. split; [done|]. destruct (f_count z =? 1); destruct Hrel3 as [_ Hrel].
    - specialize (Hrel fp). simpl in Hrel. rewrite Hy2 in Hrel.
      destruct (decide (fq = fp)) as [->|Hq]; [by rewrite lookup_delete_eq in Hrel|].
      rewrite lookup_delete_ne, Hy in Hrel by done. destruct Hrel as (_ & _ & -> & _). done.
    - simpl in Hrel. rewrite Hrel in Hy2. apply lookup_insert_Some in Hy2 as [[-> <-]|[_ Hy2]];
        simplify_eq; simpl; lia. }
  destruct Hy2 as (y2 & Hy2 & Hc2).
  destruct (di_count _ _ Hd3 fp y2 Hy2) as (_ & _ & Hpos).
  eexists _, (opened x fp new fl).
  split; [apply (dup_into_run s2 l x fp y2); [by rewrite Hfds2|done|lia]|].
  split; [|split; [done|split; [simpl; by rewrite Hfds2|split; [intros j; by apply opened_slot|]]]].
  - pose proof (opened_dinv (upd_fd l t s2) l t fp y2 new fl Hd3) as Hd4. simpl in Hd4.
    specialize (Hd4 ltac:(by rewrite lookup_insert_eq) Hnew).
    unfold t at 1 in Hd4. rewrite closed_table_slot, Z.eqb_refl in Hd4 by done.
    specialize (Hd4 eq_refl Hy2 Hc2).
    set (s4 := upd_files (<[fp := f_with_count y2 (f_count y2 + 1)]>) s2).
    assert (E : forall a b, upd_fd l a (upd_fd l b s4) = upd_fd l a s4) by (intros; apply upd_fd_twice).
    change (dinv none_held (upd_fd l (opened t fp new fl) (upd_fd l t s4))) in Hd4. rewrite E in Hd4.
    rewrite <- (E (opened x fp new fl) (opened t fp new fl)).
    apply (dinv_alloc none_held _ l (opened t fp new fl)); [done|simpl; by rewrite lookup_insert_eq|
      by apply fd_ok_open|..].
    + intros k. rewrite !opened_slot by done. unfold t. rewrite closed_table_slot by done.
      by destruct (k =? new).
    + intros f. rewrite !opened_files. rewrite (occ_store x) by done. rewrite (occ_store t) by done.
      assert (Htn : slot t new = None)
        by (unfold t; rewrite closed_table_slot by done; by rewrite Z.eqb_refl).
      rewrite Htn. change (fd_ofiles t) with (zset (fd_ofiles x) new None).
      rewrite occ_store, Hsn by done. rewrite (ind_false (None = Some f)) by done. lia.
  - destruct (f_count z =? 1); destruct Hrel3 as [Hcl _]; exact Hcl.
Qed.

(** [dup2] onto any number below the limit always succeeds: the number names the old
    file and no other descriptor, in any table, changes.  A file that was open there
    loses that reference, and its own close routine runs exactly when it was the last,
    even if closing it fails; duplicating onto itself does nothing; the panic after
    [fdalloc] is never reached. *)
Theorem dup2_replaces s p l x lim old new fp y pr :
  dinv none_held s -> has_table s p l x lim -> ps_procs (r_pst (d_rst s)) !! p = Some pr ->
  slot x old = Some fp -> 0 <= new < lim -> d_files s !! fp = Some y -> f_count y < 32767 ->
  (forall fl, znth (fd_ofileflags x) new = Some fl -> flag_set fl UF_MAPPED = false) ->
  exists s' x', dup2 ops p old new s = Some ((0, new), s') /\ dinv none_held s' /\
    d_fds s' = <[l := x']> (d_fds s) /\
    (forall j, slot x' j = if j =? new then Some fp else slot x j) /\
    closed s' = replaced s x old new ++ closed s.
Proof.
  intros Hd Ht Hp Hs Hnew Hy Hc Hmap. pose proof (ht_ok _ _ _ _ _ Ht) as Hok.
  pose proof (ht_fd _ _ _ _ _ Ht) as Hx. pose proof (slot_range x old fp Hok Hs) as Hr.
  pose proof (fo_size x Hok). pose proof (ht_max _ _ _ _ _ Ht). unfold dup2.
  rewrite (u32_id old), (u32_id new) by (unfold is_u32; lia).
  unfold kbind at 1, fd_of, kderef. rewrite (ht_pfd _ _ _ _ _ Ht).
  unfold kbind at 1, get_fd at 1, kderef. rewrite Hx.
  unfold kbind at 1. rewrite (ht_lim _ _ _ _ _ Ht). rewrite (fd_file_slot x old), Hs by (done || lia).
  rewrite u32_id by (unfold is_u32; lia). destruct (Z.leb_spec lim new); [lia|].
  destruct (flag_at x old Hok Hr) as [flo Hflo].
  destruct (di_count _ _ Hd fp y Hy) as (_ & _ & Hpos).
  unfold replaced. destruct (Z.eqb_spec old new) as [->|Hne].
  { exists s, x. split_and!; try done; [by rewrite insert_id|].
    intros j. by destruct (Z.eqb_spec j new) as [->|]. }
  destruct (Z.leb_spec (fd_nfiles x) new) as [Hbig|Hsmall].
  - destruct (fdalloc_run s p l x lim new Ht ltac:(lia)) as (r & z & Hrun & Hg & Hz & Hcase).
    assert (Hfree : slot x new = None) by (by apply slot_out).
    pose proof (grown_ok x z Hok Hg Hz) as Hokz. rewrite Hfree.
    unfold kbind at 1. rewrite Hrun. destruct r as [e|i].
    { destruct Hcase as [_ Hall]. exfalso. by apply (Hall new). }
    destruct Hcase as [(Hi & Hsi & Hlow) _].
    assert (i = new) as ->.
    { destruct (Z.eq_dec i new); [done|]. exfalso. apply (Hlow new); [lia|].
      by rewrite (grown_slot x z). }
    rewrite Z.eqb_refl. set (a := allocated z new new).
    destruct (allocated_fields z new new) as (F & L & N & _). fold a in F, L, N.
    assert (Hsa : forall k, slot a k = slot x k).
    { intros k. rewrite <- (grown_slot x z) by done. unfold slot. by rewrite F. }
    assert (Hoka : fd_ok a) by (by apply allocated_ok; [|lia|]).
    assert (Hda : dinv none_held (upd_fd l a s)).
    { apply (dinv_alloc none_held s l x); try done. intros f. rewrite F. by apply grown_occ. }
    destruct (flag_at a old Hoka) as [fl Hfl]; [lia|].
    assert (Hxa : d_fds (upd_fd l a s) !! l = Some a) by (simpl; by rewrite lookup_insert_eq).
    unfold kbind at 1, get_fd at 1, kderef. rewrite Hxa. unfold kbind at 1, knonnull. rewrite Hfl.
    unfold kbind at 1. rewrite (dup_into_run _ l a fp y) by (done || lia).
    eexists _, (opened a fp new fl). split; [reflexivity|].
    split; [apply opened_dinv; try done; [lia|by rewrite Hsa]|]. split; [apply insert_insert_eq|].
    split; [|done]. intros j. rewrite opened_slot by (done || lia). by rewrite Hsa.
  - rewrite fd_file_slot by (done || lia). destruct (slot x new) as [fq|] eqn:Hsn.
    + destruct (flag_at x new Hok ltac:(lia)) as [fl Hfl].
      destruct (di_slot _ _ Hd l x new fq Hx Hsn) as [z Hz]. rewrite Hz.
      unfold kbind at 1, knonnull at 1. rewrite Hfl. unfold kbind at 1, munmapfd_call.
      rewrite (Hmap fl Hfl). unfold kret at 1.
      destruct (closef ops fq p s) as [[e s2]|] eqn:Hcl.
      2: { exfalso. by eapply (closef_total s l x new fq p z pr). }
      destruct (dup2_after_close s s2 p l x fp fq y z old new pr flo e)
        as (s' & x' & Hrun & R1 & R2 & R3 & R4 & R5); try done.
      unfold kbind at 1. rewrite Hcl. unfold kbind at 1, get_fd, kderef. rewrite R2, Hx.
      unfold kbind at 1, knonnull. rewrite Hflo. unfold kbind. rewrite Hrun.
      exists s', x'. by rewrite R5.
    + unfold kbind at 1, get_fd, kderef. rewrite Hx. unfold kbind at 1, knonnull. rewrite Hflo.
      unfold kbind. rewrite (dup_into_run s l x fp y) by (done || lia).
      eexists _, (opened x fp new flo). split; [reflexivity|].
      split; [apply opened_dinv; try done; lia|]. split; [done|]. split; [|done].
      intros j. apply opened_slot; [done|lia].
Qed.
End Ops.
