(* ===== verification/DescripFork.v ===== *)
(** * The descriptor table of a new process

    [fdcopy] gives the child a table of its own with the parent's descriptors, possibly
    smaller, and counts every open file once more for each of them. *)

From S2P Require Import Prelude Chain Count Proc Cred CredSafety Rlimit Descrip DescripSafety DescripInv DescripOps.
Local Open Scope kern_scope.

Implicit Types s : dst.

(** ** The size of the copy *)

Lemma shrink_spec fuel i last :
  size_step i -> NDFILE <= last < i ->
  size_step (shrink fuel i last) /\ last < shrink fuel i last <= i.
Proof.
  revert i. induction fuel as [|fuel IH]; intros i Hs Hl; simpl; [split; [done|lia]|].
  destruct ((2 * NDEXTENT <? i) && _) eqn:E; [|split; [done|lia]].
  apply andb_prop in E as [E1 E2]. unfold NDEXTENT, NDFILE in *.
  destruct Hs as [->|[[|k] ->]]; [unfold NDFILE in *; lia|change (2 ^ Z.of_nat 0) with 1 in *; unfold NDEXTENT in *; lia|].
  rewrite Nat2Z.inj_succ, Z.pow_succ_r in * by lia. unfold NDEXTENT in *.
  assert (Hh : 50 * (2 * 2 ^ Z.of_nat k) / 2 = 50 * 2 ^ Z.of_nat k).
  { replace (50 * (2 * 2 ^ Z.of_nat k)) with (50 * 2 ^ Z.of_nat k * 2) by lia. by rewrite Z.div_mul. }
  rewrite Hh. destruct (IH (50 * 2 ^ Z.of_nat k)) as [H1 H2]; [right; by exists k|lia|].
  split; [done|lia].
Qed.

(** The number of entries of the copy. *)
Definition copy_size (x : filedesc) : Z :=
  if fd_lastfile x <? NDFILE then NDFILE else shrink 32 (fd_nfiles x) (fd_lastfile x).

Lemma copy_size_spec x :
  fd_ok x -> size_step (copy_size x) /\ fd_lastfile x < copy_size x <= fd_nfiles x.
Proof.
  intros Hok. unfold copy_size. pose proof (fo_last x Hok). pose proof (fo_size x Hok).
  destruct (Z.ltb_spec (fd_lastfile x) NDFILE); [split; [by left|lia]|].
  apply shrink_spec; [apply fo_steps, Hok|lia].
Qed.

(** The table of the copy. *)
Definition copied (x : filedesc) : filedesc :=
  let n := Z.to_nat (copy_size x) in
  Filedesc (take n (fd_ofiles x)) (take n (fd_ofileflags x)) (fd_cdir x) (fd_rdir x) (copy_size x)
    (fd_lastfile x) (fd_freefile x) (fd_cmask x) 1.

Lemma znth_take {A} (l : list A) n i :
  znth (take (Z.to_nat n) l) i = if i <? n then znth l i else None.
Proof.
  unfold znth. destruct (Z.leb_spec 0 i); [|by destruct (i <? n)].
  destruct (Z.ltb_spec i n); [apply lookup_take_lt; lia|apply lookup_take_ge; lia].
Qed.

Lemma copied_slot x j : fd_ok x -> slot (copied x) j = slot x j.
Proof.
  intros Hok. destruct (copy_size_spec x Hok) as [_ Hn]. unfold slot. simpl. rewrite znth_take.
  destruct (Z.ltb_spec j (copy_size x)); [done|]. symmetry. apply (fo_above x Hok). lia.
Qed.

Lemma copied_ok x : fd_ok x -> fd_ok (copied x).
Proof.
  intros Hok. destruct (copy_size_spec x Hok) as [Hs Hn]. pose proof (fo_last x Hok).
  pose proof (fo_most x Hok). constructor; simpl.
  - pose proof (fo_files x Hok). unfold zlen in *. rewrite length_take. lia.
  - pose proof (fo_flags x Hok). unfold zlen in *. rewrite length_take. lia.
  - done.
  - lia.
  - apply (fo_free x Hok).
  - intros i Hi. rewrite copied_slot by done. by apply (fo_below x Hok).
  - lia.
  - intros i Hi. rewrite copied_slot by done. by apply (fo_above x Hok).
Qed.

(** ** Counting the files again *)

Lemma occ_zero f l : (forall i, znth l i <> Some (Some f)) -> occ f l = 0.
Proof.
  induction l as [|o l IH]; intros H; [done|]. rewrite occ_cons, IH, ind_false; [done| |].
  - intros ->. by apply (H 0).
  - intros i Hi. pose proof (znth_some _ _ _ Hi). apply (H (i + 1)). unfold znth in *.
    destruct (Z.leb_spec 0 i); [|lia]. destruct (Z.leb_spec 0 (i + 1)); [|lia].
    replace (Z.to_nat (i + 1)) with (S (Z.to_nat i)) by lia. done.
Qed.

Lemma occ_prefix f x :
  fd_ok x -> occ f (take (Z.to_nat (fd_lastfile x + 1)) (fd_ofiles x)) = occ f (fd_ofiles x).
Proof.
  intros Hok. rewrite <- (take_drop (Z.to_nat (fd_lastfile x + 1)) (fd_ofiles x)) at 2.
  rewrite occ_app, (occ_zero f (drop _ _)); [lia|]. intros i Hi.
  pose proof (znth_some _ _ _ Hi). pose proof (fo_last x Hok).
  assert (E : slot x (fd_lastfile x + 1 + i) = Some f).
  { unfold slot, znth in *. destruct (Z.leb_spec 0 i); [|lia].
    destruct (Z.leb_spec 0 (fd_lastfile x + 1 + i)); [|lia]. rewrite lookup_drop in Hi.
    replace (Z.to_nat (fd_lastfile x + 1 + i)) with (Z.to_nat (fd_lastfile x + 1) + Z.to_nat i)%nat by lia.
    by rewrite Hi. }
  rewrite (fo_above x Hok) in E by lia. done.
Qed.

Lemma znth_cons_in {A} (l : list A) (o : A) : o ∈ l -> exists i, znth l i = Some o.
Proof.
  intros [i Hi]%list_elem_of_lookup. exists (Z.of_nat i). unfold znth.
  destruct (Z.leb_spec 0 (Z.of_nat i)); [|lia]. by rewrite Nat2Z.id.
Qed.

(** Holding every file of an array. *)
Lemma each_hold fs h s :
  dinv h s -> (forall f, Some f ∈ fs -> is_Some (d_files s !! f)) ->
  (forall f y, d_files s !! f = Some y -> f_count y + occ f fs < 32768) ->
  exists s', each_file fs hold_file s = Some (tt, s') /\ dinv (fun f => h f + occ f fs) s' /\
    d_fds s' = d_fds s /\ closed s' = closed s /\
    (forall f, is_Some (d_files s' !! f) <-> is_Some (d_files s !! f)).
Proof.
  revert h s. induction fs as [|o fs IH]; intros h s Hd Hin Hc; simpl.
  - exists s. split; [done|]. split; [|done]. eapply dinv_ext; [|exact Hd]. intros f. simpl.
    change (occ f []) with 0. lia.
  - destruct o as [fp|].
    + destruct (Hin fp) as [y Hy]; [set_solver|]. pose proof (Hc fp y Hy) as Hcy.
      rewrite occ_cons, ind_true in Hcy by done. pose proof (occ_nonneg fp fs).
      destruct (hold_file_spec h s fp y Hd Hy) as [Hrun Hd1]; [lia|].
      set (s1 := upd_files (<[fp := f_with_count y (f_count y + 1)]>) s) in *.
      assert (Hs1 : forall f, is_Some (d_files s1 !! f) <-> is_Some (d_files s !! f)).
      { intros f. simpl. rewrite lookup_insert_is_Some. split; [intros [<-|[_ ?]]; eauto|].
        destruct (decide (fp = f)); auto. }
      destruct (IH (plus h fp) s1 Hd1) as (s' & Hrun' & Hd' & H1 & H2 & H3).
      * intros f Hf. apply Hs1, Hin. set_solver.
      * intros f z Hz. simpl in Hz. apply lookup_insert_Some in Hz as [[<- <-]|[Hne Hz]]; simpl; [lia|].
        specialize (Hc f z Hz). rewrite occ_cons, ind_false in Hc by congruence. lia.
      * exists s'. unfold kbind. rewrite Hrun. split; [done|].
        split; [|split; [done|split; [done|]]]; [|intros f; by rewrite H3].
        eapply dinv_ext; [|exact Hd']. intros f. simpl. unfold plus. rewrite occ_cons.
        rewrite (bool_decide_ext (Some fp = Some f) (fp = f)); [lia|naive_solver].
    + destruct (IH h s Hd) as (s' & Hrun' & Hd' & H1).
      * intros f Hf. apply Hin. set_solver.
      * intros f z Hz. specialize (Hc f z Hz). rewrite occ_cons, ind_false in Hc by done. lia.
      * exists s'. split; [done|]. split; [|done]. eapply dinv_ext; [|exact Hd']. intros f. simpl.
        rewrite occ_cons, ind_false by done. lia.
Qed.

(** A new table whose references are in hand. *)
Lemma dinv_new_table h s n y :
  dinv h s -> d_fds s !! n = None -> fd_ok y ->
  (forall i f, slot y i = Some f -> is_Some (d_files s !! f)) ->
  dinv (fun f => h f - occ f (fd_ofiles y)) (upd_fd n y s).
Proof.
  intros [H1 H2 H3 [fl [F1 F2 F3 F4 F5 F6]] H5] Hn Hy Hs. split; simpl.
  - intros l z Hz. apply lookup_insert_Some in Hz as [[<- <-]|[_ Hz]]; eauto.
  - intros l z i f Hz Hf. apply lookup_insert_Some in Hz as [[<- <-]|[_ Hz]]; eauto.
  - intros f z Hz. unfold refs. simpl. rewrite msum_insert_new by done.
    destruct (H3 f z Hz) as (E & ? & ?). unfold refs in E. lia.
  - exists fl. split; try done. by apply (chain_frame _ s).
  - done.
Qed.

(** *** Properties *)

(** [fdcopy] gives a new process a table of its own, at a fresh address, in which
    every number names what it names in the parent; the table may be smaller than the
    parent's but never too small; every open file is counted once more for each
    descriptor copied, and no other table changes. *)
Theorem fdcopy_copies s p l x :
  dinv none_held s -> d_pfd s !! p = Some l -> d_fds s !! l = Some x ->
  (forall f y, d_files s !! f = Some y -> f_count y + occ f (fd_ofiles x) < 32768) ->
  exists n s' y, fdcopy p s = Some (n, s') /\ d_fds s !! n = None /\
    d_fds s' = <[n := y]> (d_fds s) /\ dinv none_held s' /\ fd_ok y /\ fd_refcnt y = 1 /\
    (forall j, slot y j = slot x j) /\ fd_nfiles y <= fd_nfiles x /\ closed s' = closed s.
Proof.
  intros Hd Hp Hx Hc. pose proof (di_ok _ _ Hd _ _ Hx) as Hok.
  set (n := fresh (dom (d_fds s))).
  assert (Hn : d_fds s !! n = None) by (apply not_elem_of_dom, is_fresh).
  pose proof (copied_ok x Hok) as Hoky. destruct (copy_size_spec x Hok) as [_ Hsz].
  assert (Hslot : forall i f, slot (copied x) i = Some f -> is_Some (d_files s !! f)).
  { intros i f. rewrite copied_slot by done. by apply (di_slot _ _ Hd l). }
  set (s0 := log_call (CVref (fd_cdir x)) s).
  assert (exists s1, match fd_rdir x with Some v => kmod (log_call (CVref v)) | None => kret tt end s0
    = Some (tt, s1) /\ dinv none_held s1 /\ d_fds s1 = d_fds s /\ d_files s1 = d_files s /\
      closed s1 = closed s) as (s1 & Hs1 & Hd1 & Hf1 & Hfl1 & Hcl1).
  { destruct (fd_rdir x) as [v|]; eexists; (split; [reflexivity|]).
    - split; [by do 2 apply dinv_log|done].
    - split; [by apply dinv_log|done]. }
  assert (Hd2 := dinv_new_table none_held s1 n (copied x) Hd1).
  rewrite Hf1, Hfl1 in Hd2. specialize (Hd2 Hn Hoky Hslot).
  set (fs := take (Z.to_nat (fd_lastfile (copied x) + 1)) (fd_ofiles (copied x))).
  assert (Hocc : forall f, occ f fs = occ f (fd_ofiles (copied x))) by (intros; by apply occ_prefix).
  assert (Hoccx : forall f, occ f (fd_ofiles (copied x)) = occ f (fd_ofiles x)).
  { intros f. rewrite <- (occ_prefix f x Hok), <- (occ_prefix f (copied x) Hoky). simpl.
    rewrite take_take. do 2 f_equal. lia. }
  destruct (each_hold fs _ _ Hd2) as (s' & Hrun & Hd3 & Hf3 & Hcl3 & _).
  - intros f Hf. apply list_elem_of_lookup in Hf as [i Hi]. simpl. rewrite Hfl1.
    apply (Hslot (Z.of_nat i) f). unfold slot, znth.
    destruct (Z.leb_spec 0 (Z.of_nat i)); [|lia]. rewrite Nat2Z.id.
    apply lookup_take_Some in Hi as [-> _]. done.
  - intros f y Hy. simpl in Hy. rewrite Hfl1 in Hy. rewrite Hocc, Hoccx. by apply Hc.
  - exists n, s', (copied x). split.
    { unfold fdcopy, fd_of, get_fd. unfold kbind at 1, kderef at 1. rewrite Hp.
      unfold kbind at 1, kderef at 1. rewrite Hx. unfold kbind at 1, kget. fold n.
      unfold kbind at 1, kmod at 1. fold s0. unfold kbind at 1. rewrite Hs1.
      fold (copy_size x). fold (copied x). unfold kbind at 1, kmod at 1. unfold kbind.
      change (each_file _ hold_file (upd_fd n (copied x) s1)) with (each_file fs hold_file (upd_fd n (copied x) s1)).
      by rewrite Hrun. }
    split; [done|]. split; [by rewrite Hf3; simpl; rewrite Hf1|]. split.
    { eapply dinv_ext; [|exact Hd3]. intros f. simpl. rewrite Hocc. simpl. unfold none_held. lia. }
    split; [done|]. split; [done|]. split; [intros j; by apply copied_slot|].
    split; [simpl; lia|]. by rewrite Hcl3.
Qed.

(** ** Witnesses *)

Definition demo_file : file := File None PHead 3 DTYPE_VNODE 1 0 1 0 9.
Definition demo_fd : filedesc :=
  Filedesc (Some 5%positive :: replicate 19 None) (replicate 20 1) 8 None 20 0 1 18 1.

(** One process with standard input open, at a limit of 100 descriptors. *)
Definition demo_dst : dst :=
  let pr := Proc None PHead 0 3 10 None None None None None None 0 None in
  Dst (Rst (Cst {[ 1%positive := Cproc 1 0 10 1 ]} {[ 1%positive := Pcred 1 0 0 0 0 ]}
              {[ 1%positive := Ucred 2 0 1 (replicate 16 0) ]})
         (Pst {[ 1%positive := pr ]} ∅ ∅ ∅ ∅ ∅ None None [])
         {[ 1%positive := 1%positive ]} {[ 1%positive := Plimit (replicate 9 (Rl 100 200)) 0 1 ]} ∅ [] [])
    {[ 1%positive := 3%positive ]} {[ 3%positive := demo_fd ]} {[ 5%positive := demo_file ]}
    (Some 5%positive) 1 [].

Lemma demo_slot i : slot demo_fd i = if i =? 0 then Some 5%positive else None.
Proof.
  unfold slot. change (fd_ofiles demo_fd) with ([Some 5%positive] ++ replicate 19 None).
  rewrite znth_grow. change (zlen [Some 5%positive]) with 1.
  destruct (Z.ltb_spec i 1); [|destruct (Z.eqb_spec i 0); [lia|by destruct (i <? _)]].
  destruct (Z.eqb_spec i 0) as [->|]; [done|]. unfold znth. destruct (Z.leb_spec 0 i); [lia|done].
Qed.

Lemma demo_fd_ok : fd_ok demo_fd.
Proof.
  constructor; try done; try (simpl; lia).
  - by left.
  - intros i Hi. simpl in Hi. rewrite demo_slot. destruct (Z.eqb_spec i 0); [done|lia].
  - intros i Hi. simpl in Hi. rewrite demo_slot. destruct (Z.eqb_spec i 0); [lia|done].
Qed.

Lemma demo_flist : flist demo_dst [5%positive].
Proof.
  constructor; try done.
  - apply NoDup_singleton.
  - intros f. rewrite list_elem_of_singleton. simpl. split; [intros ->; eauto|].
    intros [y Hy]. by map_cases.
Qed.

Lemma demo_dinv : dinv none_held demo_dst.
Proof.
  constructor; simpl.
  - intros l x Hx. map_cases. apply demo_fd_ok.
  - intros l x i f Hx Hs. map_cases. rewrite demo_slot in Hs. case_match; simplify_eq. eauto.
  - intros f y Hy. map_cases. vm_compute. done.
  - exists [5%positive]. apply demo_flist.
  - intros l Hl. destruct (decide (l = 1%positive)) as [->|Hne].
    + eexists. split; [reflexivity|]. vm_compute. done.
    + exfalso. revert Hl. unfold cred_users, holders. rewrite !count_zero; [lia|..].
      * intros k y Hy. simpl in Hy. map_cases. apply bool_decide_eq_false_2. simpl. by intros <-.
      * intros k y Hy. simpl in Hy. map_cases. apply bool_decide_eq_false_2. simpl. by intros <-.
Qed.

Lemma demo_table : has_table demo_dst 1 3 demo_fd 100.
Proof. constructor; try reflexivity; [apply demo_fd_ok|lia]. Qed.

Definition demo_ops : fileops :=
  Fileops (fun _ => 7) (fun _ _ _ => (0, 0)) (fun _ _ _ fl _ => (0, fl)) (fun _ => inr 0) (fun _ => 0).

Lemma fdalloc_lowest_witness :
  exists r y, fdalloc 1 0 demo_dst = Some (r, upd_fd 3 y demo_dst) /\ r = inr 1.
Proof.
  destruct (fdalloc_lowest demo_dst 1 3 demo_fd 100 0 demo_table ltac:(lia)) as (r & y & Hrun & _).
  exists r, y. split; [exact Hrun|]. vm_compute in Hrun. congruence.
Defined.

Lemma close_releases_witness :
  exists e s' x', close demo_ops 1 0 demo_dst = Some (e, s') /\ dinv none_held s' /\
    d_fds s' = <[3%positive := x']> (d_fds demo_dst) /\
    (forall j, slot x' j = if j =? 0 then None else slot demo_fd j) /\
    e = 7 /\ closed s' = [5%positive] /\ relinked ∅ (d_files s').
Proof.
  apply (close_releases demo_ops demo_dst 1 3 demo_fd 100 0 5 demo_file
    (Proc None PHead 0 3 10 None None None None None None 0 None) 1); try reflexivity.
  - exact demo_dinv.
  - exact demo_table.
  - simpl. lia.
Defined.

Lemma dup_lowest_witness :
  exists i s' x', dup demo_ops 1 0 0 demo_dst = Some ((0, i), s') /\ slot x' 1 = Some 5%positive /\
    d_fds s' = <[3%positive := x']> (d_fds demo_dst).
Proof.
  destruct (dup_lowest demo_ops demo_dst 1 3 demo_fd 100 0 0 5 demo_file)
    as (e & i & s' & x' & Hrun & _ & Hf & _ & Hcase); try reflexivity.
  - exact demo_dinv.
  - exact demo_table.
  - lia.
  - destruct (Z.eqb_spec e 0) as [->|_].
    + destruct Hcase as (Hi & Hs & Hlow & Hslot & _). exists i, s', x'. split; [exact Hrun|].
      split; [|exact Hf]. rewrite Hslot. rewrite demo_slot in Hs.
      destruct (Z.eqb_spec i 0); [done|]. destruct (Z.eqb_spec 1 i); [done|].
      exfalso. apply (Hlow 1); [lia|reflexivity].
    + destruct Hcase as (_ & Hall & _). exfalso. apply (Hall 1); [lia|reflexivity].
Defined.

Lemma dup2_replaces_witness :
  exists s' x', dup2 demo_ops 1 0 70 demo_dst = Some ((0, 70), s') /\ dinv none_held s' /\
    d_fds s' = <[3%positive := x']> (d_fds demo_dst) /\
    (forall j, slot x' j = if j =? 70 then Some 5%positive else slot demo_fd j) /\
    closed s' = [].
Proof.
  apply (dup2_replaces demo_ops demo_dst 1 3 demo_fd 100 0 70 5 demo_file
    (Proc None PHead 0 3 10 None None None None None None 0 None)); try reflexivity.
  - exact demo_dinv.
  - exact demo_table.
  - lia.
  - intros fl Hfl. discriminate.
Defined.

Lemma fdcopy_copies_witness :
  exists n s' y, fdcopy 1 demo_dst = Some (n, s') /\ d_fds demo_dst !! n = None /\
    d_fds s' = <[n := y]> (d_fds demo_dst) /\ dinv none_held s' /\ fd_ok y /\ fd_refcnt y = 1 /\
    (forall j, slot y j = slot demo_fd j) /\ fd_nfiles y <= 20 /\ closed s' = [].
Proof.
  apply (fdcopy_copies demo_dst 1 3 demo_fd); try reflexivity.
  - exact demo_dinv.
  - intros f y Hy. simpl in Hy. map_cases. vm_compute. done.
Defined.
