(* ===== verification/Lockf.v ===== *)
(** * Advisory byte-range locks (sys/ufs/ufs_lockf.c)

    The locks of every inode, the locks waiting for them and the processes asleep in
    [lf_setlock].  An operation runs without interruption until it returns or sleeps;
    [lf_setlock] is its part up to the sleep, [lf_resume] what follows the wakeup. *)

From S2P Require Import Prelude Chain.
Local Open Scope kern_scope.

(** ** Data *)

Definition F_RDLCK := 1.
Definition F_UNLCK := 2.
Definition F_WRLCK := 3.
Definition F_WAIT := 16.
Definition F_FLOCK := 32.
Definition F_POSIX := 64.

(** sys/ufs/lockf.h:47-57, [lockf]: an [off_t] is 32 bits, and the end -1 is the end of
    the file. *)
Record lockf := Lockf {
  lf_flags : Z;
  lf_type : Z;
  lf_start : Z;
  lf_end : Z;
  lf_id : loc;
  lf_inode : loc;
  lf_next : ptr;
  lf_block : ptr }.

(** The heap of locks, [i_lockf] of every inode, the lock each process sleeping in
    [lf_setlock] waits on ([p_wchan], with [p_wmesg == lockstr]), and the locks passed to
    [wakeup], latest first. *)
Record lst := Lst {
  ls_heap : gmap loc lockf;
  ls_lockf : gmap loc ptr;
  ls_wchan : gmap loc loc;
  ls_woken : list loc }.

Definition lf_with_type (x : lockf) (t : Z) : lockf :=
  Lockf (lf_flags x) t (lf_start x) (lf_end x) (lf_id x) (lf_inode x) (lf_next x) (lf_block x).
Definition lf_with_start (x : lockf) (v : Z) : lockf :=
  Lockf (lf_flags x) (lf_type x) v (lf_end x) (lf_id x) (lf_inode x) (lf_next x) (lf_block x).
Definition lf_with_end (x : lockf) (v : Z) : lockf :=
  Lockf (lf_flags x) (lf_type x) (lf_start x) v (lf_id x) (lf_inode x) (lf_next x) (lf_block x).
Definition lf_with_next (x : lockf) (p : ptr) : lockf :=
  Lockf (lf_flags x) (lf_type x) (lf_start x) (lf_end x) (lf_id x) (lf_inode x) p (lf_block x).
Definition lf_with_block (x : lockf) (p : ptr) : lockf :=
  Lockf (lf_flags x) (lf_type x) (lf_start x) (lf_end x) (lf_id x) (lf_inode x) (lf_next x) p.

Definition upd_heap (f : gmap loc lockf -> gmap loc lockf) (s : lst) : lst :=
  Lst (f (ls_heap s)) (ls_lockf s) (ls_wchan s) (ls_woken s).

Definition getl (l : loc) : K lst lockf := kderef (fun s => ls_heap s !! l).
(** [*l = f( *l )]: one field of a lock is assigned. *)
Definition modl (l : loc) (f : lockf -> lockf) : K lst unit :=
  let! _ := getl l in kmod (upd_heap (alter f l)).
Definition freel (l : loc) : K lst unit := let! _ := getl l in kmod (upd_heap (delete l)).

(** The locks of the inode [ip], linked by [lf_next]. *)
Definition lf_link (ip : loc) : link lst := {|
  lk_get pp s := match pp with
    | PHead => ls_lockf s !! ip
    | PNext l => lf_next <$> ls_heap s !! l
    end;
  lk_set pp v s := match pp with
    | PHead => Lst (ls_heap s) (<[ip := v]> (ls_lockf s)) (ls_wchan s) (ls_woken s)
    | PNext l => upd_heap (alter (fun x => lf_with_next x v) l) s
    end |}.

(** The locks waiting for a lock, linked by [lf_block] from the lock itself. *)
Definition blk_link : link lst := {|
  lk_get pp s := match pp with
    | PHead => None
    | PNext l => lf_block <$> ls_heap s !! l
    end;
  lk_set pp v s := match pp with
    | PHead => s
    | PNext l => upd_heap (alter (fun x => lf_with_block x v) l) s
    end |}.

(** A bound on the length of any list of locks. *)
Definition nlocks (s : lst) : nat := size (ls_heap s).

(** ** Overlaps *)

(** The six answers to how a lock on the list meets the range asked for. *)
Inductive ovcase := NoOverlap | Equal | Contains | Contained | StartsBefore | EndsAfter.

#[export] Instance ovcase_eq_dec : EqDecision ovcase.
Proof. solve_decision. Defined.

(** sys/ufs/ufs_lockf.c:486-545, [lf_findoverlap]: the tests on the lock [lstart, lend]
    of the list and the range [start, end_]; [None] is the panic. *)
Definition overlap_case (lstart lend start end_ : Z) : option ovcase :=
  if (negb (lend =? -1) && (lend <? start)) || (negb (end_ =? -1) && (end_ <? lstart)) then Some NoOverlap
  else if (lstart =? start) && (lend =? end_) then Some Equal
  else if (lstart <=? start) && negb (end_ =? -1) && ((end_ <=? lend) || (lend =? -1)) then Some Contains
  else if (start <=? lstart) && ((end_ =? -1) || (negb (lend =? -1) && (lend <=? end_))) then Some Contained
  else if (lstart <? start) && ((start <=? lend) || (lend =? -1)) then Some StartsBefore
  else if (start <? lstart) && negb (end_ =? -1) && ((end_ <? lend) || (lend =? -1)) then Some EndsAfter
  else None.

(** The two values of the argument [type]. *)
Inductive who := SELF | OTHERS.

Definition skips (w : who) (x lock : lockf) : bool :=
  match w with
  | SELF => bool_decide (lf_id x <> lf_id lock)
  | OTHERS => bool_decide (lf_id x = lf_id lock)
  end.

Definition is_self (w : who) : bool := match w with SELF => true | OTHERS => false end.

(** sys/ufs/ufs_lockf.c:438-548, [lf_findoverlap]: the case, [*prev] and [*overlap]. *)
Fixpoint lf_findoverlap (fuel : nat) (lf : ptr) (lock : lockf) (type : who) (prev : pptr)
  : K lst (ovcase * pptr * ptr) :=
  match lf, fuel with
  | None, _ => kret (NoOverlap, prev, None)
  | Some _, O => kpanic
  | Some l, S f =>
    let! x := getl l in
    if skips type x lock then lf_findoverlap f (lf_next x) lock type (PNext l) else
    match overlap_case (lf_start x) (lf_end x) (lf_start lock) (lf_end lock) with
    | None => kpanic
    | Some NoOverlap =>
      if is_self type && negb (lf_end lock =? -1) && (lf_end lock <? lf_start x)
      then kret (NoOverlap, prev, Some l)
      else lf_findoverlap f (lf_next x) lock type (PNext l)
    | Some c => kret (c, prev, Some l)
    end
  end.

(** sys/ufs/ufs_lockf.c:422-434, [lf_getblock]: the loop over the overlapping locks of
    other owners. *)
Fixpoint getblock_loop (fuel : nat) (lf : ptr) (lock : lockf) (prev : pptr) : K lst ptr :=
  match fuel with
  | O => kpanic
  | S f =>
    let! s := kget in
    let! r := lf_findoverlap (nlocks s) lf lock OTHERS prev in
    match r with
    | (NoOverlap, _, _) => kret None
    | (_, prev, overlap) =>
      let! l := knonnull overlap in
      let! x := getl l in
      if (lf_type lock =? F_WRLCK) || (lf_type x =? F_WRLCK) then kret (Some l)
      else getblock_loop f (lf_next x) lock prev
    end
  end.

(** sys/ufs/ufs_lockf.c:411-436, [lf_getblock]. *)
Definition lf_getblock (lock : loc) : K lst ptr :=
  let! x := getl lock in
  let! s := kget in
  let! lf := lk_load (lf_link (lf_inode x)) PHead in
  getblock_loop (S (nlocks s)) lf x PHead.

(** What [lf_getlock] stores in the caller's [struct flock]; the fields it leaves alone
    are [None]. *)
Record flock := Flock { l_type : Z; l_whence : option Z; l_start : option Z; l_len : option Z; l_pid : option Z }.

(** sys/ufs/ufs_lockf.c:377-409, [lf_getlock]; [pid_of] gives [p_pid] of the process an
    owner of POSIX locks is. *)
Definition lf_getlock (pid_of : loc -> Z) (lock : loc) : K lst flock :=
  let! block := lf_getblock lock in
  match block with
  | Some b =>
    let! x := getl b in
    kret (Flock (lf_type x) (Some 0) (Some (lf_start x))
      (Some (if lf_end x =? -1 then 0 else s32 (s32 (lf_end x - lf_start x) + 1)))
      (Some (if flag_set (lf_flags x) F_POSIX then pid_of (lf_id x) else -1)))
  | None => kret (Flock F_UNLCK None None None None)
  end.

(** ** Blocked locks *)

(** sys/ufs/ufs_lockf.c:569-571, [lf_addblock]: walk to the end of the list. *)
Fixpoint blk_last (fuel : nat) (lf : loc) : K lst loc :=
  let! n := lk_load blk_link (PNext lf) in
  match n, fuel with
  | None, _ => kret lf
  | Some _, O => kpanic
  | Some m, S f => blk_last f m
  end.

(** sys/ufs/ufs_lockf.c:550-575, [lf_addblock]. *)
Definition lf_addblock (lock : loc) (blocked : ptr) : K lst unit :=
  match blocked with
  | None => kret tt
  | Some _ =>
    let! s := kget in
    let! l := blk_last (nlocks s) lock in
    modl l (fun x => lf_with_block x blocked)
  end.

(** [wakeup(l)]: no process waits on [l] any more. *)
Definition wakeup (l : loc) (s : lst) : lst :=
  Lst (ls_heap s) (ls_lockf s) (filter (fun '(_, c) => c <> l) (ls_wchan s)) (l :: ls_woken s).

(** sys/ufs/ufs_lockf.c:633-644, [lf_wakelock]: the loop. *)
Fixpoint wake_loop (fuel : nat) (blocklist : ptr) : K lst unit :=
  match blocklist, fuel with
  | None, _ => kret tt
  | Some _, O => kpanic
  | Some w, S f =>
    let! x := getl w in
    do! modl w (fun x => lf_with_block x None) in
    do! modl w (fun x => lf_with_next x None) in
    do! kmod (wakeup w) in
    wake_loop f (lf_block x)
  end.

(** sys/ufs/ufs_lockf.c:624-645, [lf_wakelock]. *)
Definition lf_wakelock (listhead : loc) : K lst unit :=
  let! s := kget in
  let! x := getl listhead in
  do! modl listhead (fun x => lf_with_block x None) in
  wake_loop (nlocks s) (lf_block x).

(** ** Splitting *)

(** [MALLOC] of a lock, initialised to [x]. *)
Definition mallocl (x : lockf) : K lst loc :=
  let! s := kget in
  let l := fresh (dom (ls_heap s)) in
  do! kmod (upd_heap (<[l := x]>)) in
  kret l.

(** sys/ufs/ufs_lockf.c:577-622, [lf_split]. *)
Definition lf_split (lock1 lock2 : loc) : K lst unit :=
  let! x1 := getl lock1 in
  let! x2 := getl lock2 in
  if lf_start x1 =? lf_start x2 then
    do! modl lock1 (fun x => lf_with_start x (s32 (lf_end x2 + 1))) in
    modl lock2 (fun x => lf_with_next x (Some lock1))
  else if lf_end x1 =? lf_end x2 then
    do! modl lock1 (fun x => lf_with_end x (s32 (lf_start x2 - 1))) in
    do! modl lock2 (fun x => lf_with_next x (lf_next x1)) in
    modl lock1 (fun x => lf_with_next x (Some lock2))
  else
    let! splitlock := mallocl (lf_with_block (lf_with_start x1 (s32 (lf_end x2 + 1))) None) in
    do! modl lock1 (fun x => lf_with_end x (s32 (lf_start x2 - 1))) in
    do! modl splitlock (fun x => lf_with_next x (lf_next x1)) in
    do! modl lock2 (fun x => lf_with_next x (Some splitlock)) in
    modl lock1 (fun x => lf_with_next x (Some lock2)).

(** ** Clearing and setting *)

(** sys/ufs/ufs_lockf.c:329-370, [lf_clearlock]: the loop over the caller's locks. *)
Fixpoint clear_loop (fuel : nat) (ip : loc) (unlock : loc) (prev : pptr) (lf : ptr) : K lst unit :=
  match fuel with
  | O => kpanic
  | S f =>
    let! s := kget in
    let! u := getl unlock in
    let! r := lf_findoverlap (nlocks s) lf u SELF prev in
    match r with
    | (NoOverlap, _, _) => kret tt
    | (c, prev, overlap) =>
      let! o := knonnull overlap in
      do! lf_wakelock o in
      let! x := getl o in
      match c with
      | NoOverlap => kret tt
      | Equal =>
        do! lk_store (lf_link ip) prev (lf_next x) in
        freel o
      | Contains =>
        if lf_start x =? lf_start u
        then modl o (fun x => lf_with_start x (s32 (lf_end u + 1)))
        else
          do! lf_split o unlock in
          let! u := getl unlock in
          modl o (fun x => lf_with_next x (lf_next u))
      | Contained =>
        do! lk_store (lf_link ip) prev (lf_next x) in
        do! freel o in
        clear_loop f ip unlock prev (lf_next x)
      | StartsBefore =>
        do! modl o (fun x => lf_with_end x (s32 (lf_start u - 1))) in
        clear_loop f ip unlock (PNext o) (lf_next x)
      | EndsAfter => modl o (fun x => lf_with_start x (s32 (lf_end u + 1)))
      end
    end
  end.

(** sys/ufs/ufs_lockf.c:307-375, [lf_clearlock]. *)
Definition lf_clearlock (unlock : loc) : K lst unit :=
  let! u := getl unlock in
  let! s := kget in
  let! lf := lk_load (lf_link (lf_inode u)) PHead in
  match lf with
  | None => kret tt
  | Some _ => clear_loop (S (nlocks s)) (lf_inode u) unlock PHead lf
  end.

(** sys/ufs/ufs_lockf.c:201-296, [lf_setlock]: link the lock in and adjust the locks of
    its owner that overlap it. *)
Fixpoint grant_loop (fuel : nat) (ip : loc) (lock : loc) (prev : pptr) (block : ptr) (needtolink : bool)
  : K lst unit :=
  match fuel with
  | O => kpanic
  | S f =>
    let! s := kget in
    let! k := getl lock in
    let! r := lf_findoverlap (nlocks s) block k SELF prev in
    let '(c, prev, overlap) := r in
    let link_before (p : ptr) : K lst unit :=
      do! lk_store (lf_link ip) prev (Some lock) in
      modl lock (fun x => lf_with_next x p) in
    match c with
    | NoOverlap => if needtolink then link_before overlap else kret tt
    | _ =>
      let! o := knonnull overlap in
      let! x := getl o in
      let block := lf_next x in
      let downgrade := (lf_type k =? F_RDLCK) && (lf_type x =? F_WRLCK) in
      match c with
      | NoOverlap => kret tt
      | Equal =>
        do! (if downgrade then lf_wakelock o else kret tt) in
        do! modl o (fun x => lf_with_type x (lf_type k)) in
        freel lock
      | Contains =>
        if lf_type x =? lf_type k then freel lock else
        do! (if lf_start x =? lf_start k then
               do! link_before (Some o) in
               modl o (fun x => lf_with_start x (s32 (lf_end k + 1)))
             else lf_split o lock) in
        lf_wakelock o
      | Contained =>
        do! (if downgrade then lf_wakelock o
             else
               do! modl lock (fun y => lf_with_block y (lf_block x)) in
               lf_addblock lock (lf_block k)) in
        if needtolink then
          do! link_before block in
          do! freel o in
          grant_loop f ip lock (PNext lock) block false
        else
          do! lk_store (lf_link ip) prev block in
          do! freel o in
          grant_loop f ip lock prev block false
      | StartsBefore =>
        do! modl lock (fun y => lf_with_next y block) in
        do! modl o (fun y => lf_with_next y (Some lock)) in
        do! modl o (fun y => lf_with_end y (s32 (lf_start k - 1))) in
        do! lf_wakelock o in
        grant_loop f ip lock (PNext lock) block false
      | EndsAfter =>
        do! (if needtolink then link_before (Some o) else kret tt) in
        do! modl o (fun y => lf_with_start y (s32 (lf_end k + 1))) in
        lf_wakelock o
      end
    end
  end.

Definition MAXDEPTH := 50.

(** sys/ufs/ufs_lockf.c:125-140, [lf_setlock]: follow the wait channels from the owner
    of the blocking lock, [maxlockdepth] of them at most, looking for the caller. *)
Fixpoint deadlocks (depth : nat) (me wproc : loc) : K lst bool :=
  match depth with
  | O => kret false
  | S d =>
    let! s := kget in
    match ls_wchan s !! wproc with
    | None => kret false
    | Some waiting =>
      let! w := getl waiting in
      let! b := knonnull (lf_next w) in
      let! waitblock := getl b in
      if negb (flag_set (lf_flags waitblock) F_POSIX) then kret false
      else if decide (lf_id waitblock = me) then kret true
      else deadlocks d me (lf_id waitblock)
    end
  end.

(** How an uninterrupted run of [lf_setlock] ends. *)
Inductive setres := SDone (error : Z) | SSleep.

(** sys/ufs/ufs_lockf.c:68-305, [lf_setlock]: the process [curproc] sets [lock], up to
    the [tsleep] if it has to wait. *)
Definition lf_setlock (maxlockdepth : nat) (curproc lock : loc) : K lst setres :=
  let! k := getl lock in
  let! block := lf_getblock lock in
  match block with
  | None =>
    let! s := kget in
    let! head := lk_load (lf_link (lf_inode k)) PHead in
    do! grant_loop (S (nlocks s)) (lf_inode k) lock PHead head true in
    kret (SDone 0)
  | Some b =>
    if negb (flag_set (lf_flags k) F_WAIT) then do! freel lock in kret (SDone EAGAIN) else
    let! x := getl b in
    let! dead := (if flag_set (lf_flags k) F_POSIX && flag_set (lf_flags x) F_POSIX
                  then deadlocks maxlockdepth (lf_id k) (lf_id x) else kret false) in
    if (dead : bool) then do! freel lock in kret (SDone EDEADLK) else
    do! (if flag_set (lf_flags k) F_FLOCK && (lf_type k =? F_WRLCK) then
           do! modl lock (fun y => lf_with_type y F_UNLCK) in
           do! lf_clearlock lock in
           modl lock (fun y => lf_with_type y F_WRLCK)
         else kret tt) in
    do! modl lock (fun y => lf_with_next y (Some b)) in
    do! lf_addblock b (Some lock) in
    do! kmod (fun s => Lst (ls_heap s) (ls_lockf s) (<[curproc := lock]> (ls_wchan s)) (ls_woken s)) in
    kret SSleep
  end.

(** sys/ufs/ufs_lockf.c:178-189, [lf_setlock]: take [lock] off the list it is on. *)
Fixpoint unblock (fuel : nat) (block : ptr) (lock : loc) : K lst unit :=
  match block, fuel with
  | None, _ => kret tt
  | Some _, O => kpanic
  | Some b, S f =>
    let! x := getl b in
    if decide (lf_block x = Some lock) then
      let! y := getl lock in
      modl b (fun x => lf_with_block x (lf_block y))
    else unblock f (lf_block x) lock
  end.

(** sys/ufs/ufs_lockf.c:169-193, [lf_setlock]: what follows the [tsleep], which returned
    [error]. *)
Definition lf_resume (maxlockdepth : nat) (curproc lock : loc) (error : Z) : K lst setres :=
  do! kmod (fun s => Lst (ls_heap s) (ls_lockf s) (delete curproc (ls_wchan s)) (ls_woken s)) in
  if error =? 0 then lf_setlock maxlockdepth curproc lock else
  let! k := getl lock in
  let! s := kget in
  do! (match lf_next k with
       | Some b => unblock (nlocks s) (Some b) lock
       | None => kret tt
       end) in
  do! freel lock in
  kret (SDone error).
