(* ===== verification/LockfSpec.v ===== *)
(** * What byte-range locking means

    The locks of one inode as a list of records, the functions on lists that
    [lf_setlock] and [lf_clearlock] compute, and their meaning byte by byte: which owner
    holds which byte, and how. *)

From S2P Require Import Prelude Chain Lockf.

(** The last byte of a range; [lf_end] -1 is the end of the file. *)
Definition OFF_MAX := 2147483647.
Definition ext (e : Z) : Z := if e =? -1 then OFF_MAX + 1 else e.
#[global] Arguments ext : simpl never.

(** A lock's range: [lf_end] + 1 is an [off_t] too. *)
Definition range_ok (x : lockf) : Prop :=
  0 <= lf_start x <= OFF_MAX /\ (lf_end x = -1 \/ lf_start x <= lf_end x < OFF_MAX).

Definition covers (x : lockf) (b : Z) : Prop := lf_start x <= b <= ext (lf_end x).

(** The bytes of a file. *)
Definition is_byte (b : Z) : Prop := 0 <= b <= OFF_MAX.

(** What the case of [overlap_case] says of the lock [ls, le] of the list and the range
    [s, e]. *)
Definition case_spec (c : ovcase) (ls le s e : Z) : Prop :=
  match c with
  | NoOverlap => ext le < s \/ ext e < ls
  | Equal => ls = s /\ le = e
  | Contains => ls <= s /\ e <> -1 /\ ext e <= ext le /\ (ls <> s \/ le <> e)
  | Contained => s <= ls /\ ext le <= ext e /\ (ls <> s \/ le <> e)
  | StartsBefore => ls < s <= ext le /\ ext le <= ext e
  | EndsAfter => s < ls <= ext e /\ ext e < ext le
  end.

Ltac rng := unfold range_ok, case_spec, covers, is_byte, ext, OFF_MAX in *; simpl in *;
  repeat match goal with H : context [?x =? ?y] |- _ => destruct (Z.eqb_spec x y) | |- context [?x =? ?y] => destruct (Z.eqb_spec x y) end;
  try lia.

Lemma overlap_case_total ls le s e :
  0 <= ls <= OFF_MAX -> (le = -1 \/ ls <= le < OFF_MAX) ->
  0 <= s <= OFF_MAX -> (e = -1 \/ s <= e < OFF_MAX) ->
  exists c, overlap_case ls le s e = Some c /\ case_spec c ls le s e.
Proof.
  intros H1 H2 H3 H4. unfold overlap_case.
  repeat match goal with |- context [if ?b then _ else _] => destruct b eqn:? end;
    first [eexists; split; [reflexivity|]|exfalso].
  all: repeat match goal with
       | H : (_ && _) = true |- _ => apply andb_prop in H; destruct H
       | H : (_ || _) = false |- _ => apply orb_false_elim in H; destruct H
       | H : (_ || _) = true |- _ => apply orb_prop in H; destruct H
       | H : (_ && _) = false |- _ => apply andb_false_iff in H; destruct H
       | H : negb _ = true |- _ => apply negb_true_iff in H
       | H : negb _ = false |- _ => apply negb_false_iff in H
       end; rewrite ?Z.eqb_eq, ?Z.eqb_neq, ?Z.leb_le, ?Z.leb_gt, ?Z.ltb_lt, ?Z.ltb_ge in *.
  all: rng.
Qed.

(** ** Byte maps *)

(** The locks of an inode in the order of its list. *)
Abbreviation locks := (list (loc * lockf)) (only parsing).

(** The lock [x] gives its owner [id] the byte [b] with type [t]. *)
Definition gives (x : lockf) (id : loc) (b t : Z) : Prop :=
  lf_id x = id /\ covers x b /\ lf_type x = t.

Definition holds (xs : locks) (id : loc) (b t : Z) : Prop :=
  exists l x, (l, x) ∈ xs /\ gives x id b t.

Definition all_ok (xs : locks) : Prop := forall l x, (l, x) ∈ xs -> range_ok x.

(** The locks of one owner are sorted and do not overlap. *)
Fixpoint ordered (xs : locks) : Prop :=
  match xs with
  | [] => True
  | (_, x) :: r =>
    (forall l y, (l, y) ∈ r -> lf_id y = lf_id x -> ext (lf_end x) < lf_start y) /\ ordered r
  end.

Lemma holds_nil id b t : holds [] id b t <-> False.
Proof. split; [|done]. intros (l & x & Hx & _). by apply elem_of_nil in Hx. Qed.

Lemma holds_cons l x r id b t : holds ((l, x) :: r) id b t <-> gives x id b t \/ holds r id b t.
Proof.
  unfold holds. split.
  - intros (l' & y & Hy & Hg). apply elem_of_cons in Hy as [[= -> ->]|Hy]; eauto.
  - intros [Hg|(l' & y & Hy & Hg)]; [exists l, x|exists l', y]; rewrite elem_of_cons; auto.
Qed.

Lemma all_ok_cons l x r : all_ok ((l, x) :: r) <-> range_ok x /\ all_ok r.
Proof.
  split.
  - intros H. split; [apply (H l); left|]. intros l' y Hy. apply (H l'). by right.
  - intros [Hx H] l' y Hy. apply elem_of_cons in Hy as [[= -> ->]|Hy]; eauto.
Qed.

(** ** The functions *)

Section Functions.
Context (sp : loc).          (* the lock [lf_split] allocates *)
Context (kl : loc) (k : lockf).

(** [lf_setlock] of [k] on the list [xs]; [link] says that [k] is not on the list yet. *)
Fixpoint ins (xs : locks) (link : bool) : locks :=
  match xs with
  | [] => if link then [(kl, k)] else []
  | (l, x) :: r =>
    if decide (lf_id x <> lf_id k) then (l, x) :: ins r link else
    match overlap_case (lf_start x) (lf_end x) (lf_start k) (lf_end k) with
    | None => xs
    | Some NoOverlap =>
      if negb (lf_end k =? -1) && (lf_end k <? lf_start x) then (if link then (kl, k) :: xs else xs)
      else (l, x) :: ins r link
    | Some Equal => (l, lf_with_type x (lf_type k)) :: r
    | Some Contains =>
      if lf_type x =? lf_type k then xs
      else if lf_start x =? lf_start k then (kl, k) :: (l, lf_with_start x (lf_end k + 1)) :: r
      else if lf_end x =? lf_end k then (l, lf_with_end x (lf_start k - 1)) :: (kl, k) :: r
      else (l, lf_with_end x (lf_start k - 1)) :: (kl, k) :: (sp, lf_with_start x (lf_end k + 1)) :: r
    | Some Contained => if link then (kl, k) :: ins r false else ins r false
    | Some StartsBefore => (l, lf_with_end x (lf_start k - 1)) :: (kl, k) :: ins r false
    | Some EndsAfter =>
      if link then (kl, k) :: (l, lf_with_start x (lf_end k + 1)) :: r
      else (l, lf_with_start x (lf_end k + 1)) :: r
    end
  end.

(** [lf_clearlock] of the range of [k]. *)
Fixpoint del (xs : locks) : locks :=
  match xs with
  | [] => []
  | (l, x) :: r =>
    if decide (lf_id x <> lf_id k) then (l, x) :: del r else
    match overlap_case (lf_start x) (lf_end x) (lf_start k) (lf_end k) with
    | None => xs
    | Some NoOverlap =>
      if negb (lf_end k =? -1) && (lf_end k <? lf_start x) then xs else (l, x) :: del r
    | Some Equal => r
    | Some Contains =>
      if lf_start x =? lf_start k then (l, lf_with_start x (lf_end k + 1)) :: r
      else if lf_end x =? lf_end k then (l, lf_with_end x (lf_start k - 1)) :: r
      else (l, lf_with_end x (lf_start k - 1)) :: (sp, lf_with_start x (lf_end k + 1)) :: r
    | Some Contained => del r
    | Some StartsBefore => (l, lf_with_end x (lf_start k - 1)) :: del r
    | Some EndsAfter => (l, lf_with_start x (lf_end k + 1)) :: r
    end
  end.

Hypothesis Hk : range_ok k.

(** The bytes of the owner of [k] in the range of [k]. *)
Definition target (id : loc) (b : Z) : Prop := id = lf_id k /\ covers k b.

Lemma ext_val e : e <> -1 -> ext e = e.
Proof. intros He. unfold ext. by destruct (Z.eqb_spec e (-1)). Qed.
Lemma ext_eof : ext (-1) = OFF_MAX + 1.
Proof. done. Qed.
Lemma ext_range x : range_ok x -> lf_start x <= ext (lf_end x) <= OFF_MAX + 1.
Proof. unfold range_ok, ext, OFF_MAX. intros H. destruct (Z.eqb_spec (lf_end x) (-1)); lia. Qed.

(** The two bounds of a lock that is cut. *)
Lemma cut_end x : range_ok x -> lf_start x < lf_start k ->
  ext (lf_start k - 1) = lf_start k - 1 /\ range_ok (lf_with_end x (lf_start k - 1)).
Proof.
  intros Hx Hlt. destruct Hx as [Hx1 Hx2], Hk as [Hk1 Hk2]. split; [apply ext_val; lia|].
  split; simpl; lia.
Qed.
Lemma cut_start x : range_ok x -> ext (lf_end k) < ext (lf_end x) ->
  lf_end k <> -1 /\ ext (lf_end k) = lf_end k /\ range_ok (lf_with_start x (lf_end k + 1)).
Proof.
  intros Hx Hlt. pose proof (ext_range x Hx) as Er. pose proof (ext_range k Hk) as Ek.
  assert (Hne : lf_end k <> -1) by (intros E; rewrite E, ext_eof in Hlt; lia).
  rewrite (ext_val _ Hne) in *. split_and!; try done. unfold range_ok in *. simpl.
  destruct Hx as [Hx1 [E|Hx2]]; [rewrite E, ext_eof in *|rewrite ext_val in * by lia]; lia.
Qed.

Lemma owner_after l x r b t :
  ordered ((l, x) :: r) -> holds r (lf_id x) b t -> ext (lf_end x) < b.
Proof. intros [H _] (l' & y & Hy & Hid & [Hs _] & _). pose proof (H l' y Hy Hid). lia. Qed.

(** The case analysis of one lock of the owner against the range of [k]. *)
Lemma own_case x (P : Prop) :
  range_ok x ->
  (forall c, overlap_case (lf_start x) (lf_end x) (lf_start k) (lf_end k) = Some c ->
    case_spec c (lf_start x) (lf_end x) (lf_start k) (lf_end k) -> P) -> P.
Proof.
  intros [Hx1 Hx2] HP. destruct Hk as [Hk1 Hk2].
  destruct (overlap_case_total (lf_start x) (lf_end x) (lf_start k) (lf_end k)) as (c & Hc & Hs); try done.
  by apply (HP c).
Qed.

(** The list goes on past [x] only if [x] lies before the range. *)
Lemma skip_before x :
  range_ok x -> case_spec NoOverlap (lf_start x) (lf_end x) (lf_start k) (lf_end k) ->
  negb (lf_end k =? -1) && (lf_end k <? lf_start x) = false -> ext (lf_end x) < lf_start k.
Proof.
  intros [Hx _] [?|H] Hb; [done|]. exfalso. apply andb_false_iff in Hb as [Hb|Hb].
  - apply negb_false_iff, Z.eqb_eq in Hb. rewrite Hb, ext_eof in H. lia.
  - apply Z.ltb_ge in Hb. destruct (Z.eq_dec (lf_end k) (-1)) as [E|E];
      [rewrite E, ext_eof in H; lia|rewrite ext_val in H by done; lia].
Qed.
Lemma stop_after x :
  negb (lf_end k =? -1) && (lf_end k <? lf_start x) = true -> ext (lf_end k) < lf_start x.
Proof.
  intros Hb. apply andb_true_iff in Hb as [Hb Hl]. apply negb_true_iff, Z.eqb_neq in Hb.
  apply Z.ltb_lt in Hl. by rewrite ext_val.
Qed.

(** [k] is past the start of the owner's locks: none of them starts at or before it. *)
Definition past (xs : locks) : Prop :=
  forall l x, (l, x) ∈ xs -> lf_id x = lf_id k -> lf_start k < lf_start x.

Lemma past_cons l x r : past ((l, x) :: r) <-> (lf_id x = lf_id k -> lf_start k < lf_start x) /\ past r.
Proof.
  unfold past. split.
  - intros H. split; [apply (H l); left|]. intros l' y Hy. apply (H l'). by right.
  - intros [H1 H2] l' y Hy. apply elem_of_cons in Hy as [[= -> ->]|Hy]; eauto.
Qed.

Lemma past_tail l x r :
  ordered ((l, x) :: r) -> lf_id x = lf_id k -> lf_start k <= ext (lf_end x) -> past r.
Proof. intros [H _] Hid Hs l' y Hy Hy'. specialize (H l' y Hy). rewrite Hid in H. specialize (H Hy'). lia. Qed.

Ltac own_cases x :=
  match goal with
  | Hr : range_ok x |- _ => apply (own_case x _ Hr); let c := fresh "c" in intros c ->; destruct c
  end.

(** Once [k] is on the list, [ins] only clears the rest of the range. *)
Lemma ins_false_del xs : all_ok xs -> past xs -> ins xs false = del xs.
Proof.
  induction xs as [|[l x] r IH]; intros Ha Hp; simpl; [done|].
  apply all_ok_cons in Ha as [Hx Hr]. apply past_cons in Hp as [Hpx Hpr]. specialize (IH Hr Hpr).
  destruct (decide _) as [Hid|Hid]; [by rewrite IH|]. apply dec_stable in Hid. specialize (Hpx Hid).
  own_cases x; unfold case_spec; intros Hc; rewrite ?IH; try done; lia.
Qed.

(** Where the elements of [del] come from. *)
Definition from (xs : locks) (l' : loc) (y : lockf) : Prop :=
  range_ok y /\
  ((l', y) ∈ xs /\ lf_id y <> lf_id k \/
   lf_id y = lf_id k /\ (ext (lf_end k) < lf_start y \/ ext (lf_end y) < lf_start k) /\
   exists l x, (l, x) ∈ xs /\ lf_id x = lf_id k /\ lf_start x <= lf_start y).

Lemma from_cons l x r l' y : from r l' y -> from ((l, x) :: r) l' y.
Proof.
  intros [Hy [[H1 H2]|(H1 & H2 & l0 & x0 & H3 & H4)]]; (split; [done|]).
  - left. rewrite elem_of_cons. auto.
  - right. split_and!; try done. exists l0, x0. rewrite elem_of_cons. auto.
Qed.

Lemma from_new l x r l' y :
  lf_id x = lf_id k -> lf_id y = lf_id k -> range_ok y -> lf_start x <= lf_start y ->
  (ext (lf_end k) < lf_start y \/ ext (lf_end y) < lf_start k) -> from ((l, x) :: r) l' y.
Proof.
  intros Hx Hy Hok Hs Hd. split; [done|]. right. split_and!; try done.
  exists l, x. rewrite elem_of_cons. auto.
Qed.

(** The rest of the list beyond a lock that reaches the end of the range. *)
Lemma from_rest l x r l' y :
  ordered ((l, x) :: r) -> all_ok ((l, x) :: r) -> lf_id x = lf_id k -> ext (lf_end k) <= ext (lf_end x) ->
  (l', y) ∈ r -> from ((l, x) :: r) l' y.
Proof.
  intros [Ho _] Ha Hx He Hin. apply all_ok_cons in Ha as [Hok Ha]. pose proof (ext_range x Hok).
  destruct (decide (lf_id y = lf_id k)) as [Hy|Hy].
  - specialize (Ho l' y Hin). rewrite Hx in Ho. specialize (Ho Hy).
    apply from_new; try done; [by apply (Ha l')|lia|left; lia].
  - split; [by apply (Ha l')|]. left. rewrite elem_of_cons. auto.
Qed.

Lemma del_in xs l' y : ordered xs -> all_ok xs -> (l', y) ∈ del xs -> from xs l' y.
Proof.
  induction xs as [|[l x] r IH]; intros Ho Ha; simpl; [intros H; by apply elem_of_nil in H|].
  pose proof (proj1 (all_ok_cons l x r) Ha) as [Hx Hr]. pose proof (ext_range x Hx) as Er.
  pose proof (ext_range k Hk) as Ek.
  assert (Hcons : (l', y) ∈ del r -> from ((l, x) :: r) l' y).
  { intros Hin. apply from_cons, IH; try done. apply Ho. }
  destruct (decide (lf_id x <> lf_id k)) as [Hid|Hid].
  { intros Hin. apply elem_of_cons in Hin as [[= -> ->]|Hin]; [|by apply Hcons].
    split; [done|]. left. by rewrite elem_of_cons; auto. }
  apply dec_stable in Hid. own_cases x; unfold case_spec; intros Hc.
  - destruct (_ && _) eqn:Hb; intros Hin; apply elem_of_cons in Hin as [[= -> ->]|Hin].
    + pose proof (stop_after x Hb). apply from_new; auto; lia.
    + pose proof (stop_after x Hb). apply from_rest; try done. lia.
    + pose proof (skip_before x Hx Hc Hb). apply from_new; auto; lia.
    + by apply Hcons.
  - destruct Hc as [Hc1 Hc2]. apply from_rest; try done. by rewrite Hc2.
  - destruct Hc as (Hc1 & Hc2 & Hc3 & Hc4).
    assert (Hlt : lf_start x <> lf_start k -> lf_start x < lf_start k) by lia.
    assert (Hle : lf_end x <> lf_end k -> ext (lf_end k) < ext (lf_end x)).
    { intros Hne. rewrite (ext_val (lf_end k)) in * by done. destruct (Z.eq_dec (lf_end x) (-1)) as [E|E].
      - rewrite E, ext_eof. destruct Hk as [_ [?|?]]; lia.
      - rewrite ext_val in * by done. lia. }
    destruct (Z.eqb_spec (lf_start x) (lf_start k)) as [E1|E1];
      [|destruct (Z.eqb_spec (lf_end x) (lf_end k)) as [E2|E2]];
      intros Hin; repeat (apply elem_of_cons in Hin as [Hin|Hin]; [injection Hin as -> ->|]).
    1: destruct (cut_start x Hx) as (Hne & He & Hok); [apply Hle; lia|]; apply from_new; simpl; auto; lia.
    1: by apply from_rest.
    1,3: destruct (cut_end x Hx (Hlt E1)) as [He Hok]; apply from_new; simpl; auto; lia.
    1,3: by apply from_rest.
    destruct (cut_start x Hx (Hle E2)) as (Hne & He & Hok). apply from_new; simpl; auto; lia.
  - apply Hcons.
  - destruct Hc as (Hc1 & Hc2). intros Hin. apply elem_of_cons in Hin as [[= -> ->]|Hin]; [|by apply Hcons].
    destruct (cut_end x Hx ltac:(lia)) as [He Hok]. apply from_new; simpl; auto; lia.
  - destruct Hc as [Hc1 Hc2]. destruct (cut_start x Hx Hc2) as (Hne & He & Hok). intros Hin.
    apply elem_of_cons in Hin as [[= -> ->]|Hin]; [|apply from_rest; try done; lia].
    apply from_new; simpl; auto; lia.
Qed.

(** What follows a lock of the list stays after it. *)
Lemma del_after l x r l' y :
  ordered ((l, x) :: r) -> all_ok r -> (l', y) ∈ del r -> lf_id y = lf_id x -> ext (lf_end x) < lf_start y.
Proof.
  intros [Ho Hor] Ha Hin Hid. destruct (del_in r l' y Hor Ha Hin) as [_ [[H _]|(H1 & _ & l0 & x0 & H2 & H3 & H4)]].
  - by apply (Ho l').
  - specialize (Ho l0 x0 H2). rewrite H3, <- H1 in Ho. specialize (Ho Hid). lia.
Qed.

Lemma ordered_cons l x r :
  ordered ((l, x) :: r) <->
  (forall l' y, (l', y) ∈ r -> lf_id y = lf_id x -> ext (lf_end x) < lf_start y) /\ ordered r.
Proof. done. Qed.

(** A lock cut at either side keeps its place. *)
Lemma ordered_cut l x x' r :
  ordered ((l, x) :: r) -> lf_id x' = lf_id x -> ext (lf_end x') <= ext (lf_end x) -> ordered ((l, x') :: r).
Proof.
  intros [Ho Hor] Hid He. split; [|done]. intros l' y Hy Hy'. rewrite Hid in Hy'. specialize (Ho l' y Hy Hy'). lia.
Qed.

(** The case of a lock that contains the range strictly. *)
Lemma contains_strict x :
  range_ok x -> case_spec Contains (lf_start x) (lf_end x) (lf_start k) (lf_end k) ->
  lf_end k <> -1 /\ (lf_start x <> lf_start k -> lf_start x < lf_start k) /\
  (lf_end x <> lf_end k -> ext (lf_end k) < ext (lf_end x)).
Proof.
  intros Hx (Hc1 & Hc2 & Hc3 & Hc4). split_and!; [done|lia|]. intros Hne.
  rewrite (ext_val (lf_end k)) in * by done. destruct (Z.eq_dec (lf_end x) (-1)) as [E|E].
  - rewrite E, ext_eof. destruct Hk as [_ [?|?]]; lia.
  - rewrite ext_val in * by done. lia.
Qed.

Lemma del_ordered xs : ordered xs -> all_ok xs -> ordered (del xs).
Proof.
  induction xs as [|[l x] r IH]; intros Ho Ha; simpl; [done|].
  pose proof (proj1 (all_ok_cons l x r) Ha) as [Hx Hr]. pose proof (ext_range x Hx) as Er.
  pose proof (ext_range k Hk) as Ek. specialize (IH (proj2 Ho) Hr).
  assert (Hcons : forall x', lf_id x' = lf_id x -> ext (lf_end x') <= ext (lf_end x) -> ordered ((l, x') :: del r)).
  { intros x' Hid He. split; [|done]. intros l' y Hin Hy. rewrite Hid in Hy.
    pose proof (del_after l x r l' y Ho Hr Hin Hy). lia. }
  destruct (decide (lf_id x <> lf_id k)) as [Hid|Hid]; [by apply Hcons|].
  apply dec_stable in Hid. own_cases x; intros Hc.
  - destruct (_ && _); [done|by apply Hcons].
  - apply Ho.
  - destruct (contains_strict x Hx Hc) as (Hne & Hlt & Hle).
    destruct (Z.eqb_spec (lf_start x) (lf_start k)) as [E1|E1]; [by apply (ordered_cut l x)|].
    destruct (cut_end x Hx (Hlt E1)) as [He Hok].
    destruct (Z.eqb_spec (lf_end x) (lf_end k)) as [E2|E2].
    + apply (ordered_cut l x); simpl; try done. rewrite E2. lia.
    + split; [|by apply (ordered_cut l x)]. simpl. intros l' y Hin Hy.
      apply elem_of_cons in Hin as [[= -> ->]|Hin]; simpl.
      * rewrite He. rewrite (ext_val (lf_end k)) in Ek by done. lia.
      * destruct Ho as [Ho _]. specialize (Ho l' y Hin Hy). lia.
  - done.
  - destruct Hc as [Hc1 Hc2]. destruct (cut_end x Hx ltac:(lia)) as [He Hok]. apply Hcons; [done|]. simpl. lia.
  - by apply (ordered_cut l x).
Qed.

(** ** The meaning *)

Lemma covers_dec x b : covers x b \/ ~ covers x b.
Proof. unfold covers. lia. Qed.

(** No byte of the range is held further on. *)
Lemma rest_beyond l x r id b t :
  ordered ((l, x) :: r) -> lf_id x = lf_id k -> ext (lf_end k) <= ext (lf_end x) -> holds r id b t -> ~ target id b.
Proof. intros Ho Hid He Hh [-> [_ Hb]]. rewrite <- Hid in Hh. pose proof (owner_after l x r b t Ho Hh). lia. Qed.

Lemma target_same b : target (lf_id k) b <-> covers k b.
Proof. unfold target. tauto. Qed.
Lemma gives_same x b t : lf_id x = lf_id k -> gives x (lf_id k) b t <-> covers x b /\ lf_type x = t.
Proof. unfold gives. intros ->. tauto. Qed.
Lemma gives_other x id b t : lf_id x = lf_id k -> id <> lf_id k -> gives x id b t <-> False.
Proof. unfold gives. intros -> Hne. split; [|done]. intros [? _]. congruence. Qed.

(** The byte maps on both sides, for the owner of [k] and for the others. *)
Ltac by_bytes id :=
  destruct (decide (id = lf_id k)) as [->|];
    [rewrite ?target_same, ?gives_same in * by done; unfold covers in *; simpl in *; intuition lia
    |rewrite ?gives_other by done; unfold target in *; try tauto].

Lemma del_holds xs id b t :
  ordered xs -> all_ok xs -> (holds (del xs) id b t <-> ~ target id b /\ holds xs id b t).
Proof.
  induction xs as [|[l x] r IH]; intros Ho Ha; simpl; [rewrite holds_nil; tauto|].
  pose proof (proj1 (all_ok_cons l x r) Ha) as [Hx Hr]. pose proof (ext_range x Hx) as Er.
  pose proof (ext_range k Hk) as Ek. specialize (IH (proj2 Ho) Hr).
  destruct (decide (lf_id x <> lf_id k)) as [Hid|Hid].
  { rewrite !holds_cons, IH. unfold gives, target. intuition congruence. }
  apply dec_stable in Hid. own_cases x; intros Hc.
  - destruct (_ && _) eqn:Hb.
    + pose proof (stop_after x Hb). pose proof (rest_beyond l x r id b t Ho Hid ltac:(lia)).
      rewrite holds_cons. by_bytes id.
    + pose proof (skip_before x Hx Hc Hb). rewrite !holds_cons, IH. by_bytes id.
  - destruct Hc as [Hc1 Hc2]. assert (ext (lf_end x) = ext (lf_end k)) by congruence.
    pose proof (rest_beyond l x r id b t Ho Hid ltac:(lia)). rewrite holds_cons. by_bytes id.
  - destruct (contains_strict x Hx Hc) as (Hne & Hlt & Hle). destruct Hc as (Hc1 & _ & Hc3 & Hc4).
    pose proof (rest_beyond l x r id b t Ho Hid ltac:(lia)). pose proof (ext_val (lf_end k) Hne).
    destruct (Z.eqb_spec (lf_start x) (lf_start k)) as [E1|E1]; [rewrite !holds_cons; by_bytes id|].
    destruct (cut_end x Hx (Hlt E1)) as [He Hok].
    destruct (Z.eqb_spec (lf_end x) (lf_end k)) as [E2|E2]; rewrite !holds_cons; [|by_bytes id].
    assert (ext (lf_end x) = ext (lf_end k)) by congruence. by_bytes id.
  - destruct Hc as (Hc1 & Hc2 & _). rewrite holds_cons, IH. by_bytes id.
  - destruct Hc as [Hc1 Hc2]. destruct (cut_end x Hx ltac:(lia)) as [He Hok].
    rewrite !holds_cons, IH. by_bytes id.
  - destruct Hc as [Hc1 Hc2]. destruct (cut_start x Hx Hc2) as (Hne & He & Hok).
    pose proof (rest_beyond l x r id b t Ho Hid ltac:(lia)). rewrite !holds_cons. by_bytes id.
Qed.

(** ** Setting a lock *)

(** The rest of the list, once [k] has covered the start of the range. *)
Lemma ins_rest l x r :
  ordered ((l, x) :: r) -> all_ok r -> lf_id x = lf_id k -> lf_start k <= ext (lf_end x) ->
  ins r false = del r.
Proof. intros Ho Ha Hid Hs. apply ins_false_del; [done|]. by apply (past_tail l x). Qed.

Lemma ins_in xs l' y :
  ordered xs -> all_ok xs -> (l', y) ∈ ins xs true ->
  (l', y) = (kl, k) \/ range_ok y /\ exists l x, (l, x) ∈ xs /\ lf_id x = lf_id y /\ lf_start x <= lf_start y.
Proof.
  induction xs as [|[l x] r IH]; intros Ho Ha; simpl.
  { intros H. left. by apply list_elem_of_singleton in H. }
  pose proof (proj1 (all_ok_cons l x r) Ha) as [Hx Hr]. pose proof (ext_range x Hx) as Er.
  pose proof (ext_range k Hk) as Ek. specialize (IH (proj2 Ho) Hr).
  assert (Hsame : (l', y) ∈ (l, x) :: r -> range_ok y /\ exists l0 x0, (l0, x0) ∈ (l, x) :: r /\
    lf_id x0 = lf_id y /\ lf_start x0 <= lf_start y).
  { intros Hin. split; [by apply (Ha l')|]. exists l', y. split_and!; [done..|lia]. }
  assert (Hdel : (l', y) ∈ del r -> range_ok y /\ exists l0 x0, (l0, x0) ∈ (l, x) :: r /\
    lf_id x0 = lf_id y /\ lf_start x0 <= lf_start y).
  { intros Hin. destruct (del_in r l' y (proj2 Ho) Hr Hin) as [Hy [[H1 H2]|(H1 & _ & l0 & x0 & H2 & H3 & H4)]].
    - apply Hsame. by right.
    - split; [done|]. exists l0, x0. rewrite elem_of_cons. split_and!; auto. congruence. }
  assert (Hnew : forall x', lf_id x' = lf_id x -> range_ok x' -> lf_start x <= lf_start x' ->
    y = x' -> range_ok y /\ exists l0 x0, (l0, x0) ∈ (l, x) :: r /\ lf_id x0 = lf_id y /\ lf_start x0 <= lf_start y).
  { intros x' Hid Hok Hs ->. split; [done|]. exists l, x. rewrite elem_of_cons. split_and!; auto. }
  assert (Hins : (l', y) ∈ ins r true -> (l', y) = (kl, k) \/ range_ok y /\ exists l0 x0,
    (l0, x0) ∈ (l, x) :: r /\ lf_id x0 = lf_id y /\ lf_start x0 <= lf_start y).
  { intros Hin. destruct (IH Hin) as [H|(Hy & l0 & x0 & H)]; [by left|right]. split; [done|].
    exists l0, x0. rewrite elem_of_cons. destruct H. auto. }
  destruct (decide (lf_id x <> lf_id k)) as [Hid|Hid].
  { intros Hin. apply elem_of_cons in Hin as [[= -> ->]|Hin]; [right; apply Hsame; left|by apply Hins]. }
  apply dec_stable in Hid. own_cases x; intros Hc.
  - destruct (_ && _); intros Hin; apply elem_of_cons in Hin as [Hin|Hin]; auto.
    rewrite Hin in *. right. apply Hsame. left.
  - intros Hin. apply elem_of_cons in Hin as [[= -> ->]|Hin]; right; [by apply (Hnew (lf_with_type x (lf_type k)))|].
    apply Hsame. by right.
  - destruct (contains_strict x Hx Hc) as (Hne & Hlt & Hle). destruct Hc as (Hc1 & _ & Hc3 & Hc4).
    destruct (lf_type x =? lf_type k); [auto|].
    assert (Hr' : (l', y) ∈ r -> (l', y) = (kl, k) \/ range_ok y /\ exists l0 x0,
      (l0, x0) ∈ (l, x) :: r /\ lf_id x0 = lf_id y /\ lf_start x0 <= lf_start y).
    { intros Hin. right. apply Hsame. by right. }
    destruct (Z.eqb_spec (lf_start x) (lf_start k)) as [E1|E1];
      [|destruct (Z.eqb_spec (lf_end x) (lf_end k)) as [E2|E2]]; intros Hin;
      repeat (apply elem_of_cons in Hin as [Hin|Hin]; [try (by left); right; injection Hin as -> Hin|]); auto.
    + destruct (cut_start x Hx) as (_ & He & Hok); [apply Hle; intros E; lia|].
      eapply Hnew; [|exact Hok| |exact Hin]; simpl; (done || lia).
    + destruct (cut_end x Hx (Hlt E1)) as [He Hok]. eapply Hnew; [|exact Hok| |exact Hin]; simpl; (done || lia).
    + destruct (cut_end x Hx (Hlt E1)) as [He Hok]. eapply Hnew; [|exact Hok| |exact Hin]; simpl; (done || lia).
    + destruct (cut_start x Hx (Hle E2)) as (_ & He & Hok). eapply Hnew; [|exact Hok| |exact Hin]; simpl; (done || lia).
  - destruct Hc as (Hc1 & Hc2 & _). rewrite (ins_rest l x r) by (done || lia).
    intros Hin. apply elem_of_cons in Hin as [Hin|Hin]; auto.
  - destruct Hc as [Hc1 Hc2]. rewrite (ins_rest l x r) by (done || lia).
    destruct (cut_end x Hx ltac:(lia)) as [He Hok]. intros Hin.
    repeat (apply elem_of_cons in Hin as [Hin|Hin]; [try (by left)|]); auto.
    injection Hin as -> Hin. right. eapply Hnew; [|exact Hok| |exact Hin]; simpl; (done || lia).
  - destruct Hc as [Hc1 Hc2]. destruct (cut_start x Hx Hc2) as (Hne & He & Hok). intros Hin.
    repeat (apply elem_of_cons in Hin as [Hin|Hin]; [try (by left)|]); auto.
    + injection Hin as -> Hin. right. eapply Hnew; [|exact Hok| |exact Hin]; simpl; (done || lia).
    + right. apply Hsame. by right.
Qed.

Lemma ins_ordered xs : ordered xs -> all_ok xs -> ordered (ins xs true).
Proof.
  induction xs as [|[l x] r IH]; intros Ho Ha; simpl;
    [split; [|done]; intros l' y Hy; by apply elem_of_nil in Hy|].
  pose proof (proj1 (all_ok_cons l x r) Ha) as [Hx Hr]. pose proof (ext_range x Hx) as Er.
  pose proof (ext_range k Hk) as Ek. specialize (IH (proj2 Ho) Hr).
  assert (Hcons : (lf_id x = lf_id k -> ext (lf_end x) < lf_start k) -> ordered ((l, x) :: ins r true)).
  { intros Hb. split; [|done]. intros l' y Hin Hy. destruct (ins_in r l' y (proj2 Ho) Hr Hin) as [[= -> ->]|H].
    - auto.
    - destruct H as (_ & l0 & x0 & H1 & H2 & H3). destruct Ho as [Ho _].
      specialize (Ho l0 x0 H1 ltac:(congruence)). lia. }
  (* the lock and what remains of the list after it *)
  assert (Hdel : forall x', lf_id x' = lf_id x -> ext (lf_end x') <= ext (lf_end x) ->
    ordered ((l, x') :: del r)).
  { intros x' Hid He. split; [|by apply del_ordered; [apply Ho|]]. intros l' y Hin Hy. rewrite Hid in Hy.
    pose proof (del_after l x r l' y Ho Hr Hin Hy). lia. }
  assert (Hkdel : lf_id x = lf_id k -> lf_start k <= ext (lf_end x) -> ordered ((kl, k) :: del r)).
  { intros Hid Hs. split; [|by apply del_ordered; [apply Ho|]]. intros l' y Hin Hy.
    pose proof (del_after l x r l' y Ho Hr Hin ltac:(congruence)).
    destruct (del_in r l' y (proj2 Ho) Hr Hin) as [Hok [[_ ?]|(_ & [?|Hlt] & _)]]; [done|done|].
    pose proof (ext_range y Hok). lia. }
  assert (Hkr : lf_id x = lf_id k -> ext (lf_end k) <= ext (lf_end x) -> ordered ((kl, k) :: r)).
  { intros Hid He. split; [|apply Ho]. intros l' y Hin Hy. destruct Ho as [Ho _].
    specialize (Ho l' y Hin ltac:(congruence)). lia. }
  destruct (decide (lf_id x <> lf_id k)) as [Hid|Hid]; [by apply Hcons|].
  apply dec_stable in Hid. own_cases x; intros Hc.
  - destruct (_ && _) eqn:Hb.
    + pose proof (stop_after x Hb). split; [|done]. intros l' y Hin Hy.
      apply elem_of_cons in Hin as [[= -> ->]|Hin]; [lia|]. destruct Ho as [Ho _].
      specialize (Ho l' y Hin ltac:(congruence)). lia.
    + apply Hcons. intros _. by apply skip_before.
  - by apply (ordered_cut l x).
  - destruct (contains_strict x Hx Hc) as (Hne & Hlt & Hle). destruct Hc as (Hc1 & _ & Hc3 & Hc4).
    destruct (lf_type x =? lf_type k); [done|]. pose proof (ext_val (lf_end k) Hne) as Hek.
    destruct (Z.eqb_spec (lf_start x) (lf_start k)) as [E1|E1].
    + split; [|by apply (ordered_cut l x)]. intros l' y Hin Hy.
      apply elem_of_cons in Hin as [[= -> ->]|Hin]; [simpl; lia|].
      destruct Ho as [Ho _]. specialize (Ho l' y Hin ltac:(congruence)). lia.
    + destruct (cut_end x Hx (Hlt E1)) as [He Hok].
      destruct (Z.eqb_spec (lf_end x) (lf_end k)) as [E2|E2].
      * split; [|apply Hkr; [done|rewrite E2; lia]]. simpl. intros l' y Hin Hy.
        apply elem_of_cons in Hin as [[= -> ->]|Hin]; [lia|].
        destruct Ho as [Ho _]. specialize (Ho l' y Hin Hy). lia.
      * split; [|split; [|by apply (ordered_cut l x)]]; simpl; intros l' y Hin Hy.
        -- repeat (apply elem_of_cons in Hin as [Hin|Hin]; [injection Hin as -> ->; simpl; lia|]).
           destruct Ho as [Ho _]. specialize (Ho l' y Hin Hy). lia.
        -- apply elem_of_cons in Hin as [[= -> ->]|Hin]; [simpl; lia|].
           destruct Ho as [Ho _]. specialize (Ho l' y Hin ltac:(congruence)). lia.
  - destruct Hc as (Hc1 & Hc2 & _). rewrite (ins_rest l x r) by (done || lia). apply Hkdel; [done|lia].
  - destruct Hc as [Hc1 Hc2]. rewrite (ins_rest l x r) by (done || lia).
    destruct (cut_end x Hx ltac:(lia)) as [He Hok]. split; [|apply Hkdel; [done|lia]].
    simpl. intros l' y Hin Hy. apply elem_of_cons in Hin as [[= -> ->]|Hin]; [lia|].
    pose proof (del_after l x r l' y Ho Hr Hin Hy). lia.
  - destruct Hc as [Hc1 Hc2]. destruct (cut_start x Hx Hc2) as (Hne & He & Hok).
    split; [|by apply (ordered_cut l x)]. intros l' y Hin Hy.
    apply elem_of_cons in Hin as [[= -> ->]|Hin]; [simpl; lia|].
    destruct Ho as [Ho _]. specialize (Ho l' y Hin ltac:(congruence)). lia.
Qed.

Lemma ins_holds xs id b t :
  ordered xs -> all_ok xs ->
  (holds (ins xs true) id b t <-> (target id b /\ t = lf_type k) \/ (~ target id b /\ holds xs id b t)).
Proof.
  induction xs as [|[l x] r IH]; intros Ho Ha; simpl.
  { rewrite holds_cons, !holds_nil. unfold gives, target. intuition congruence. }
  pose proof (proj1 (all_ok_cons l x r) Ha) as [Hx Hr]. pose proof (ext_range x Hx) as Er.
  pose proof (ext_range k Hk) as Ek. specialize (IH (proj2 Ho) Hr).
  pose proof (del_holds r id b t (proj2 Ho) Hr) as Hdel. pose proof (ext_range k Hk).
  destruct (decide (lf_id x <> lf_id k)) as [Hid|Hid].
  { rewrite !holds_cons, IH. unfold gives, target. intuition congruence. }
  apply dec_stable in Hid. own_cases x; intros Hc.
  - destruct (_ && _) eqn:Hb.
    + pose proof (stop_after x Hb). pose proof (rest_beyond l x r id b t Ho Hid ltac:(lia)).
      rewrite !holds_cons. by_bytes id.
    + pose proof (skip_before x Hx Hc Hb). rewrite !holds_cons, IH. by_bytes id.
  - destruct Hc as [Hc1 Hc2]. assert (ext (lf_end x) = ext (lf_end k)) by congruence.
    pose proof (rest_beyond l x r id b t Ho Hid ltac:(lia)). rewrite !holds_cons. by_bytes id.
  - destruct (contains_strict x Hx Hc) as (Hne & Hlt & Hle). destruct Hc as (Hc1 & _ & Hc3 & Hc4).
    pose proof (rest_beyond l x r id b t Ho Hid ltac:(lia)). pose proof (ext_val (lf_end k) Hne).
    destruct (Z.eqb_spec (lf_type x) (lf_type k)) as [Et|Et]; [rewrite !holds_cons; by_bytes id|].
    destruct (Z.eqb_spec (lf_start x) (lf_start k)) as [E1|E1]; [rewrite !holds_cons; by_bytes id|].
    destruct (cut_end x Hx (Hlt E1)) as [He Hok].
    destruct (Z.eqb_spec (lf_end x) (lf_end k)) as [E2|E2]; rewrite !holds_cons; [|by_bytes id].
    assert (ext (lf_end x) = ext (lf_end k)) by congruence. by_bytes id.
  - destruct Hc as (Hc1 & Hc2 & _). rewrite (ins_rest l x r) by (done || lia).
    rewrite !holds_cons, Hdel. by_bytes id.
  - destruct Hc as [Hc1 Hc2]. destruct (cut_end x Hx ltac:(lia)) as [He Hok].
    rewrite (ins_rest l x r) by (done || lia). rewrite !holds_cons, Hdel. by_bytes id.
  - destruct Hc as [Hc1 Hc2]. destruct (cut_start x Hx Hc2) as (Hne & He & Hok).
    pose proof (rest_beyond l x r id b t Ho Hid ltac:(lia)). rewrite !holds_cons. by_bytes id.
Qed.
End Functions.
