(* ===== verification/LockfHeap.v ===== *)
(** * The lists of locks in the kernel heap

    The invariant of the locks linked by [lf_next] and [lf_block], what the loops of
    ufs_lockf.c find and change on those lists, and the refinement of [lf_setlock] and
    [lf_clearlock] to the functions of LockfSpec.v. *)

From S2P Require Import Prelude Chain Lockf LockfSpec.

(** ** The invariant *)

(** A lock without its links. *)
Definition data (x : lockf) : lockf := lf_with_next (lf_with_block x None) None.
Definition dat (s : lst) (l : loc) : option lockf := data <$> ls_heap s !! l.
Definition next_of (s : lst) (l : loc) : option ptr := lf_next <$> ls_heap s !! l.
Definition block_of (s : lst) (l : loc) : option ptr := lf_block <$> ls_heap s !! l.

(** The list of every inode holds the locks [gm] says it does. *)
Record lists (s : lst) (gm : loc -> locks) : Prop := {
  li_chain ip : match ls_lockf s !! ip with
                | Some _ => chain (lf_link ip) s PHead (gm ip).*1
                | None => gm ip = []
                end;
  li_nodup ip : NoDup (gm ip).*1;
  li_data ip l d : (l, d) ∈ gm ip -> dat s l = Some d /\ lf_inode d = ip }.

(** The locks waiting for [l] are [wm l]; [stale] is a lock about to be freed whose
    waiters have been given to another. *)
Record blocks (stale : ptr) (s : lst) (wm : loc -> list loc) : Prop := {
  bl_chain l : stale <> Some l -> is_Some (ls_heap s !! l) -> (forall l0, l ∉ wm l0) ->
    chain blk_link s (PNext l) (wm l);
  bl_host l w : w ∈ wm l -> is_Some (ls_heap s !! l) /\ is_Some (ls_heap s !! w) /\ wm w = [];
  bl_stale l : stale = Some l -> wm l = [];
  bl_nodup l : NoDup (wm l);
  bl_disj l1 l2 w : w ∈ wm l1 -> w ∈ wm l2 -> l1 = l2;
  bl_wchan p w : ls_wchan s !! p = Some w -> exists l, w ∈ wm l;
  bl_asleep l w : w ∈ wm l -> exists p, ls_wchan s !! p = Some w }.

(** Two locks that cannot be held together. *)
Definition conflicts (x y : lockf) : Prop :=
  lf_inode x = lf_inode y /\ lf_id x <> lf_id y /\ (exists b, covers x b /\ covers y b) /\
  (lf_type x = F_WRLCK \/ lf_type y = F_WRLCK).

Definition granted (gm : loc -> locks) (l : loc) : Prop := exists ip, l ∈ (gm ip).*1.

(** Every waiting lock waits for a lock on a list that conflicts with it. *)
Record waits (s : lst) (gm : loc -> locks) (wm : loc -> list loc) : Prop := {
  wa_apart l w : w ∈ wm l -> ~ granted gm w;
  wa_conf l w : w ∈ wm l -> exists ip d y, (l, d) ∈ gm ip /\ dat s w = Some y /\ conflicts d y }.

(** A lock in no list: one that [lf_setlock] was just given, or was woken with. *)
Definition idle (s : lst) (gm : loc -> locks) (wm : loc -> list loc) (l : loc) : Prop :=
  is_Some (ls_heap s !! l) /\ ~ granted gm l /\ forall l0, l ∉ wm l0.

Definition fupd {A} (f : loc -> A) (l : loc) (a : A) : loc -> A := fun x => if decide (x = l) then a else f x.

Lemma fupd_eq {A} (f : loc -> A) l a : fupd f l a l = a.
Proof. unfold fupd. by rewrite decide_True. Qed.
Lemma fupd_ne {A} (f : loc -> A) l a x : x <> l -> fupd f l a x = f x.
Proof. intros H. unfold fupd. by rewrite decide_False. Qed.

#[global] Instance lf_link_laws ip : LinkLaws (lf_link ip).
Proof.
  split. intros pp qq v s [w Hw]. destruct pp as [|l], qq as [|m]; simpl in *.
  - by rewrite lookup_insert_eq.
  - done.
  - done.
  - destruct (decide (PNext m = PNext l)) as [[= ->]|Hne].
    + rewrite lookup_alter_eq. destruct (ls_heap s !! l); [done|by simpl in Hw].
    + rewrite lookup_alter_ne; [done|]. congruence.
Qed.

#[global] Instance blk_link_laws : LinkLaws blk_link.
Proof.
  split. intros pp qq v s [w Hw]. destruct pp as [|l], qq as [|m]; simpl in *; try done.
  destruct (decide (PNext m = PNext l)) as [[= ->]|Hne].
  - rewrite lookup_alter_eq. destruct (ls_heap s !! l); [done|by simpl in Hw].
  - rewrite lookup_alter_ne; [done|]. congruence.
Qed.

(** ** Frames *)

Lemma chain_next_of s ip l r : chain (lf_link ip) s (PNext l) r -> next_of s l = Some (head r).
Proof. intros H. by apply chain_get in H. Qed.

Lemma lists_same s s' gm :
  lists s gm -> ls_lockf s' = ls_lockf s ->
  (forall l, granted gm l -> next_of s' l = next_of s l /\ dat s' l = dat s l) -> lists s' gm.
Proof.
  intros [H1 H2 H3] Hh Hs. split; [|done|].
  - intros ip. specialize (H1 ip). rewrite Hh. destruct (ls_lockf s !! ip) eqn:E; [|done].
    eapply chain_frame; [|exact H1]. intros qq [->|(x & Hx & ->)]; simpl; [by rewrite Hh|].
    apply Hs. by exists ip.
  - intros ip l d Hl. destruct (H3 ip l d Hl) as [Hd Hi]. split; [|done]. rewrite <- Hd. apply Hs.
    exists ip. by apply (list_elem_of_fmap_2 fst) in Hl.
Qed.

Lemma blocks_same st s s' wm :
  blocks st s wm -> ls_wchan s' = ls_wchan s -> (forall l, block_of s' l = block_of s l) -> blocks st s' wm.
Proof.
  intros [H1 H2 H3 H4 H5 H6 H7] Hw Hs.
  assert (Hsome : forall l, is_Some (ls_heap s' !! l) <-> is_Some (ls_heap s !! l)).
  { intros l. specialize (Hs l). unfold block_of in Hs.
    destruct (ls_heap s' !! l), (ls_heap s !! l); simpl in Hs; naive_solver. }
  split; try done.
  - intros l Hl Hx Hn. apply Hsome in Hx. eapply chain_frame; [|by apply H1].
    intros qq [->|(x & _ & ->)]; apply Hs.
  - intros l w Hl. rewrite !Hsome. by apply H2.
  - intros p w. rewrite Hw. apply H6.
  - intros l w. rewrite Hw. apply H7.
Qed.

Lemma dat_inode s l x : ls_heap s !! l = Some x -> dat s l = Some (data x).
Proof. intros H. unfold dat. by rewrite H. Qed.

Lemma dat_is_Some s l d : dat s l = Some d -> exists x, ls_heap s !! l = Some x /\ data x = d.
Proof. unfold dat. destruct (ls_heap s !! l); [|done]. intros [= <-]. eauto. Qed.

(** The list of [ip] is rebuilt after its first locks, [pre]. *)
Lemma lists_relink s s' gm ip pre old new :
  lists s gm -> gm ip = pre ++ old -> is_Some (ls_lockf s !! ip) ->
  (forall l, l ∈ pre.*1 \/ (exists jp, jp <> ip /\ l ∈ (gm jp).*1) ->
     dat s' l = dat s l /\ (PNext l <> endp PHead pre.*1 -> next_of s' l = next_of s l)) ->
  (forall jp, jp <> ip \/ PHead <> endp PHead pre.*1 -> ls_lockf s' !! jp = ls_lockf s !! jp) ->
  is_Some (ls_lockf s' !! ip) ->
  chain (lf_link ip) s' (endp PHead pre.*1) new.*1 -> NoDup (pre ++ new).*1 ->
  (forall l d, (l, d) ∈ new -> dat s' l = Some d /\ lf_inode d = ip) ->
  lists s' (fupd gm ip (pre ++ new)).
Proof.
  intros [H1 H2 H3] Hg [v Hv] Hfr Hhd [v' Hv'] Hch Hnd Hnew. split.
  - intros jp. destruct (decide (jp = ip)) as [->|Hne].
    + rewrite Hv', fupd_eq. specialize (H1 ip). rewrite Hv, Hg in H1.
      rewrite fmap_app in H1 |- *. eapply chain_splice; [exact H1|exact Hch| |].
      * intros qq [->|(x & Hx & ->)] Hq; simpl; [apply Hhd; auto|]. apply Hfr; [by left|done].
      * rewrite fmap_app in Hnd. apply NoDup_app in Hnd as [Hnd _]. by apply fresh_head.
    + rewrite fupd_ne by done. specialize (H1 jp). rewrite Hhd by auto.
      destruct (ls_lockf s !! jp) eqn:E; [|done]. eapply chain_frame; [|exact H1].
      intros qq [->|(x & Hx & ->)]; simpl; [apply Hhd; auto|]. apply Hfr; [right; eauto|].
      (* the last lock of [pre] is on another list *)
      intros Hq. assert (Hin : x ∈ pre.*1).
      { destruct (endp_in PHead pre.*1) as [E2|(y & Hy & E2)]; congruence. }
      apply list_elem_of_fmap in Hx as ([x1 dx] & -> & Hx). apply list_elem_of_fmap in Hin as ([x2 dy] & E2 & Hy).
      simpl in *. subst x2. destruct (H3 jp _ _ Hx) as [D1 I1].
      destruct (H3 ip x1 dy) as [D2 I2]; [rewrite Hg; by apply elem_of_app; left|]. congruence.
  - intros jp. destruct (decide (jp = ip)) as [->|Hne]; [by rewrite fupd_eq|by rewrite fupd_ne].
  - intros jp l d. destruct (decide (jp = ip)) as [->|Hne].
    + rewrite fupd_eq. intros Hl. apply elem_of_app in Hl as [Hl|Hl]; [|by apply Hnew].
      destruct (H3 ip l d) as [D I]; [rewrite Hg; by apply elem_of_app; left|]. split; [|done].
      rewrite <- D. apply Hfr. left. by apply (list_elem_of_fmap_2 fst) in Hl.
    + rewrite fupd_ne by done. intros Hl. destruct (H3 jp l d Hl) as [D I]. split; [|done].
      rewrite <- D. apply Hfr. right. exists jp. split; [done|]. by apply (list_elem_of_fmap_2 fst) in Hl.
Qed.

(** ** Elementary operations *)

Lemma getl_run s l x : ls_heap s !! l = Some x -> getl l s = Some (x, s).
Proof. intros H. unfold getl. kunf. by rewrite H. Qed.

Lemma modl_run s l x f : ls_heap s !! l = Some x -> modl l f s = Some (tt, upd_heap (alter f l) s).
Proof. intros H. unfold modl, kbind. by rewrite (getl_run s l x H). Qed.

Lemma freel_run s l x : ls_heap s !! l = Some x -> freel l s = Some (tt, upd_heap (delete l) s).
Proof. intros H. unfold freel, kbind. by rewrite (getl_run s l x H). Qed.

Lemma store_run s ip pp v : is_Some (lk_get (lf_link ip) pp s) ->
  lk_store (lf_link ip) pp v s = Some (tt, lk_set (lf_link ip) pp v s).
Proof. done. Qed.

(** [lf_findoverlap] among the locks of the caller stops at the first one the range
    does not lie behind. *)
Definition stops (k x : lockf) (c : ovcase) : Prop :=
  lf_id x = lf_id k /\ overlap_case (lf_start x) (lf_end x) (lf_start k) (lf_end k) = Some c /\
  (c = NoOverlap -> negb (lf_end k =? -1) && (lf_end k <? lf_start x) = true).

Lemma data_fields x : lf_id (data x) = lf_id x /\ lf_type (data x) = lf_type x /\
  lf_start (data x) = lf_start x /\ lf_end (data x) = lf_end x /\ lf_inode (data x) = lf_inode x /\
  lf_flags (data x) = lf_flags x.
Proof. done. Qed.

Lemma find_self s ip k : forall xs fuel prev,
  chain (lf_link ip) s prev xs.*1 -> (forall l d, (l, d) ∈ xs -> dat s l = Some d) ->
  all_ok xs -> range_ok k -> (length xs <= fuel)%nat ->
  exists skip rest c,
    xs = skip ++ rest /\
    lf_findoverlap fuel (head xs.*1) k SELF prev s = Some ((c, endp prev skip.*1, head rest.*1), s) /\
    (forall sp kl b, ins sp kl k xs b = skip ++ ins sp kl k rest b) /\
    (forall sp, del sp k xs = skip ++ del sp k rest) /\
    match rest with
    | [] => c = NoOverlap
    | (_, x) :: _ => stops k x c
    end.
Proof.
  induction xs as [|[l d] xs IH]; intros fuel prev Hch Hd Ha Hk Hf.
  { exists [], [], NoOverlap. by destruct fuel. }
  destruct fuel as [|fuel]; [simpl in Hf; lia|]. destruct Hch as [_ Hch].
  change (chain (lf_link ip) s (PNext l) xs.*1) in Hch.
  apply all_ok_cons in Ha as [Hok Ha]. destruct (dat_is_Some s l d) as (x & Hx & Ex); [apply Hd; left|].
  destruct (data_fields x) as (Ei & Et & Es & Ee & _). rewrite Ex in *.
  assert (Hnext : lf_next x = head xs.*1).
  { pose proof (chain_next_of _ _ _ _ Hch) as Hn. unfold next_of in Hn. rewrite Hx in Hn. by injection Hn. }
  destruct (IH fuel (PNext l)) as (skip & rest & c & -> & Hrun & Hins & Hdel & Hstop);
    [done|intros; apply Hd; by right|done|done|simpl in Hf; lia|].
  assert (Hskip : forall b : bool, lf_findoverlap (S fuel) (head ((l, d) :: skip ++ rest).*1) k SELF prev s =
      lf_findoverlap fuel (lf_next x) k SELF (PNext l) s ->
    (forall sp kl b, ins sp kl k ((l, d) :: skip ++ rest) b = (l, d) :: ins sp kl k (skip ++ rest) b) ->
    (forall sp, del sp k ((l, d) :: skip ++ rest) = (l, d) :: del sp k (skip ++ rest)) ->
    exists skip' rest' c',
      (l, d) :: skip ++ rest = skip' ++ rest' /\
      lf_findoverlap (S fuel) (head ((l, d) :: skip ++ rest).*1) k SELF prev s =
        Some ((c', endp prev skip'.*1, head rest'.*1), s) /\
      (forall sp kl b, ins sp kl k ((l, d) :: skip ++ rest) b = skip' ++ ins sp kl k rest' b) /\
      (forall sp, del sp k ((l, d) :: skip ++ rest) = skip' ++ del sp k rest') /\
      match rest' with [] => c' = NoOverlap | (_, x) :: _ => stops k x c' end).
  { intros _ E1 E2 E3. exists ((l, d) :: skip), rest, c. split_and!; try done.
    - rewrite E1, Hnext, fmap_cons, endp_cons. done.
    - intros. by rewrite E2, Hins.
    - intros. by rewrite E3, Hdel. }
  assert (Hget : forall (A : Type) (f : lockf -> K lst A), kbind (getl l) f s = f x s).
  { intros A f. unfold kbind. by rewrite (getl_run s l x Hx). }
  destruct (decide (lf_id d <> lf_id k)) as [Hid|Hid].
  { apply (Hskip true); simpl.
    - rewrite Hget. unfold skips. rewrite bool_decide_eq_true_2 by congruence. done.
    - intros. by rewrite decide_True.
    - intros. by rewrite decide_True. }
  apply dec_stable in Hid.
  destruct (overlap_case_total (lf_start d) (lf_end d) (lf_start k) (lf_end k)) as (c0 & Hc & _);
    [apply Hok..|apply Hk|apply Hk|].
  assert (Hfind : lf_findoverlap (S fuel) (head ((l, d) :: skip ++ rest).*1) k SELF prev s =
    match c0 with
    | NoOverlap => if negb (lf_end k =? -1) && (lf_end k <? lf_start x)
                   then Some (NoOverlap, prev, Some l, s)
                   else lf_findoverlap fuel (lf_next x) k SELF (PNext l) s
    | c => Some (c, prev, Some l, s)
    end).
  { simpl. rewrite Hget. unfold skips. rewrite bool_decide_eq_false_2 by (intros E; apply E; congruence).
    rewrite <- Es, <- Ee, Hc, Es. destruct c0; try done. by destruct (_ && _). }
  assert (Hhere : lf_findoverlap (S fuel) (head ((l, d) :: skip ++ rest).*1) k SELF prev s =
      Some ((c0, prev, Some l), s) -> (c0 = NoOverlap -> negb (lf_end k =? -1) && (lf_end k <? lf_start d) = true) ->
    exists skip' rest' c',
      (l, d) :: skip ++ rest = skip' ++ rest' /\
      lf_findoverlap (S fuel) (head ((l, d) :: skip ++ rest).*1) k SELF prev s =
        Some ((c', endp prev skip'.*1, head rest'.*1), s) /\
      (forall sp kl b, ins sp kl k ((l, d) :: skip ++ rest) b = skip' ++ ins sp kl k rest' b) /\
      (forall sp, del sp k ((l, d) :: skip ++ rest) = skip' ++ del sp k rest') /\
      match rest' with [] => c' = NoOverlap | (_, x) :: _ => stops k x c' end).
  { intros E1 E2. by exists [], ((l, d) :: skip ++ rest), c0. }
  destruct c0; try (apply Hhere; [by rewrite Hfind|done]).
  destruct (negb (lf_end k =? -1) && (lf_end k <? lf_start d)) eqn:Hb.
  - apply Hhere; [|done]. by rewrite Hfind, <- Es, Hb.
  - apply (Hskip true); [by rewrite Hfind, <- Es, Hb|..]; intros; simpl;
      rewrite decide_False by auto; by rewrite Hc, Hb.
Qed.

(** ** The blocking lock *)

Definition overlaps (x k : lockf) : bool :=
  match overlap_case (lf_start x) (lf_end x) (lf_start k) (lf_end k) with
  | Some NoOverlap | None => false
  | _ => true
  end.

(** The lock [x] of the list keeps [k] from being granted. *)
Definition blocking (k x : lockf) : Prop :=
  lf_id x <> lf_id k /\ overlaps x k = true /\ (lf_type k = F_WRLCK \/ lf_type x = F_WRLCK).

#[global] Instance blocking_dec k x : Decision (blocking k x).
Proof. unfold blocking. solve_decision. Defined.

Definition blocking_item (k : lockf) (it : loc * lockf) : Prop := blocking k it.2.

#[global] Instance blocking_item_dec k it : Decision (blocking_item k it).
Proof. unfold blocking_item. solve_decision. Defined.

Lemma overlaps_common x k :
  range_ok x -> range_ok k -> (overlaps x k = true <-> exists b, covers x b /\ covers k b).
Proof.
  intros Hx Hk. pose proof Hx as [X1 X2]. pose proof Hk as [K1 K2].
  destruct (overlap_case_total (lf_start x) (lf_end x) (lf_start k) (lf_end k)) as (c & Hc & Hs); try done.
  unfold overlaps, covers. rewrite Hc. pose proof (ext_range x Hx). pose proof (ext_range k Hk). split.
  - intros Ho. exists (Z.max (lf_start x) (lf_start k)). destruct c; try done; simpl in Hs; try lia.
  - intros (b & H1 & H2). destruct c; try done. simpl in Hs. lia.
Qed.

Lemma overlaps_inode x k : blocking k x -> range_ok x -> range_ok k -> lf_inode x = lf_inode k -> conflicts x k.
Proof.
  intros (H1 & H2 & H3) Hx Hk Hi. split_and!; [done|done|by apply overlaps_common|tauto].
Qed.

(** The links after the first lock of a list. *)
Definition linked (s : lst) (ip : loc) (xs : locks) : Prop :=
  match xs with [] => True | (l, _) :: r => chain (lf_link ip) s (PNext l) r.*1 end.

Lemma chain_linked s ip pp xs : chain (lf_link ip) s pp xs.*1 -> linked s ip xs.
Proof. destruct xs as [|[l d] r]; [done|]. by intros [_ H]. Qed.

Lemma find_others s ip k : forall xs fuel prev,
  linked s ip xs -> (forall l d, (l, d) ∈ xs -> dat s l = Some d) ->
  all_ok xs -> range_ok k -> (length xs <= fuel)%nat ->
  exists skip rest c,
    xs = skip ++ rest /\
    lf_findoverlap fuel (head xs.*1) k OTHERS prev s = Some ((c, endp prev skip.*1, head rest.*1), s) /\
    (forall l d, (l, d) ∈ skip -> ~ blocking k d) /\
    match rest with
    | [] => c = NoOverlap
    | (_, x) :: _ => lf_id x <> lf_id k /\ overlaps x k = true /\ c <> NoOverlap
    end.
Proof.
  induction xs as [|[l d] xs IH]; intros fuel prev Hch Hd Ha Hk Hf.
  { exists [], [], NoOverlap. split_and!; try done; [by destruct fuel|].
    intros l d Hl. by apply elem_of_nil in Hl. }
  destruct fuel as [|fuel]; [simpl in Hf; lia|]. simpl in Hch.
  apply all_ok_cons in Ha as [Hok Ha]. destruct (dat_is_Some s l d) as (x & Hx & Ex); [apply Hd; left|].
  destruct (data_fields x) as (Ei & Et & Es & Ee & _). rewrite Ex in *.
  assert (Hnext : lf_next x = head xs.*1).
  { pose proof (chain_next_of _ _ _ _ Hch) as Hn. unfold next_of in Hn. rewrite Hx in Hn. by injection Hn. }
  destruct (IH fuel (PNext l)) as (skip & rest & c & -> & Hrun & Hskip & Hstop);
    [by apply (chain_linked _ _ (PNext l))|intros; apply Hd; by right|done|done|simpl in Hf; lia|].
  destruct (overlap_case_total (lf_start d) (lf_end d) (lf_start k) (lf_end k)) as (c0 & Hc & _);
    [apply Hok..|apply Hk|apply Hk|].
  assert (Hfind : lf_findoverlap (S fuel) (head ((l, d) :: skip ++ rest).*1) k OTHERS prev s =
    if decide (lf_id d = lf_id k /\ True \/ c0 = NoOverlap)
    then lf_findoverlap fuel (lf_next x) k OTHERS (PNext l) s else Some (c0, prev, Some l, s)).
  { simpl. unfold kbind. rewrite (getl_run s l x Hx). unfold skips. rewrite <- Ei, <- Es, <- Ee, Hc.
    destruct (decide (lf_id d = lf_id k)) as [Hid|Hid].
    - rewrite bool_decide_eq_true_2 by done. rewrite decide_True by auto. done.
    - rewrite bool_decide_eq_false_2 by done.
      destruct c0; rewrite ?decide_True by auto; rewrite ?decide_False by naive_solver; done. }
  destruct (decide _) as [Hs|Hs].
  - exists ((l, d) :: skip), rest, c. split_and!; try done.
    + rewrite Hfind, Hnext, fmap_cons, endp_cons. done.
    + intros l' d' Hin. apply elem_of_cons in Hin as [[= -> ->]|Hin]; [|by apply (Hskip l')].
      intros (H1 & H2 & _). unfold overlaps in H2. rewrite Hc in H2. destruct Hs as [[? _]| ->]; done.
  - exists [], ((l, d) :: skip ++ rest), c0. split_and!; try done.
    + intros l' d' Hin. by apply elem_of_nil in Hin.
    + intros E. apply Hs. auto.
    + unfold overlaps. rewrite Hc. destruct c0; try done. exfalso. apply Hs. auto.
    + intros E. apply Hs. auto.
Qed.

Lemma getblock_run s ip k : forall fuel xs prev,
  linked s ip xs -> (forall l d, (l, d) ∈ xs -> dat s l = Some d) ->
  all_ok xs -> range_ok k -> (length xs < fuel)%nat -> (length xs <= nlocks s)%nat ->
  getblock_loop fuel (head xs.*1) k prev s = Some (head (filter (blocking_item k) xs).*1, s).
Proof.
  induction fuel as [|fuel IH]; intros xs prev Hch Hd Ha Hk Hf Hn; [lia|].
  destruct (find_others s ip k xs (nlocks s) prev) as (skip & rest & c & -> & Hrun & Hskip & Hstop); try done.
  assert (Es : filter (blocking_item k) skip = []).
  { apply filter_none. intros [l d] Hin. by apply (Hskip l). }
  rewrite filter_app, Es, app_nil_l. destruct rest as [|[l d] rest].
  { simpl. unfold kbind at 1, kget. unfold kbind at 1. rewrite Hrun. by rewrite Hstop. }
  destruct Hstop as (H1 & H2 & H3).
  destruct (dat_is_Some s l d) as (x & Hx & Ex); [apply Hd, elem_of_app; right; left|].
  assert (Hch' : chain (lf_link ip) s (PNext l) rest.*1).
  { destruct skip as [|[l1 d1] skip]; [done|]. simpl in Hch. rewrite fmap_app in Hch. apply chain_end in Hch.
    by destruct Hch as [_ Hch]. }
  pose proof (chain_next_of _ _ _ _ Hch') as Hnx. unfold next_of in Hnx. rewrite Hx in Hnx. injection Hnx as Hnx.
  destruct (data_fields x) as (_ & Et & _). rewrite Ex in Et.
  assert (Hgo : getblock_loop (S fuel) (head (skip ++ (l, d) :: rest).*1) k prev s =
    (if (lf_type k =? F_WRLCK) || (lf_type x =? F_WRLCK) then Some (Some l, s)
     else getblock_loop fuel (lf_next x) k (endp prev skip.*1) s)).
  { simpl. unfold kbind at 1, kget. unfold kbind at 1. rewrite Hrun.
    destruct c; try done; unfold kbind, knonnull; simpl; unfold kret; rewrite (getl_run s l x Hx);
      by destruct (_ || _). }
  rewrite Hgo.
  destruct ((lf_type k =? F_WRLCK) || (lf_type x =? F_WRLCK)) eqn:Eb.
  - rewrite filter_cons_True; [done|]. split_and!; try done. apply orb_true_iff in Eb as [Eb|Eb];
      apply Z.eqb_eq in Eb; [by left|right; simpl; congruence].
  - apply orb_false_iff in Eb as [E1 E2]. apply Z.eqb_neq in E1, E2.
    rewrite filter_cons_False by (intros (_ & _ & [?|?]); simpl in *; congruence). rewrite Hnx.
    rewrite length_app in Hf, Hn. simpl in Hf, Hn.
    apply IH; try done; [by apply (chain_linked _ _ (PNext l))|..].
    + intros l' d' Hin. apply Hd, elem_of_app. right. by right.
    + intros l' d' Hin. apply (Ha l'), elem_of_app. right. by right.
    + lia.
    + lia.
Qed.

(** ** Waking *)

(** The locks [ws] have been woken between [s] and [s']. *)
Record woken (ws : list loc) (s s' : lst) : Prop := {
  wk_heap l : ls_heap s' !! l = if decide (l ∈ ws) then data <$> ls_heap s !! l else ls_heap s !! l;
  wk_lockf : ls_lockf s' = ls_lockf s;
  wk_wchan p c : ls_wchan s' !! p = Some c <-> ls_wchan s !! p = Some c /\ c ∉ ws }.

Lemma wake_loop_run : forall ws fuel s,
  match ws with [] => True | w :: r => is_Some (ls_heap s !! w) /\ chain blk_link s (PNext w) r end ->
  NoDup ws -> (length ws <= fuel)%nat ->
  exists s', wake_loop fuel (head ws) s = Some (tt, s') /\ woken ws s s'.
Proof.
  induction ws as [|w ws IH]; intros fuel s Hch Hnd Hf.
  { exists s. split; [by destruct fuel|]. split; [|done|].
    - intros l. rewrite decide_False; [done|]. intros H. by apply elem_of_nil in H.
    - intros p c. split; [|tauto]. intros H. split; [done|]. intros H'. by apply elem_of_nil in H'. }
  destruct fuel as [|fuel]; [simpl in Hf; lia|]. destruct Hch as [[x Hx] Hch].
  apply NoDup_cons in Hnd as [Hw Hnd].
  assert (Hb : lf_block x = head ws).
  { apply chain_get in Hch. simpl in Hch. rewrite Hx in Hch. by injection Hch. }
  set (s1 := wakeup w (upd_heap (alter (fun x => lf_with_next x None) w)
    (upd_heap (alter (fun x => lf_with_block x None) w) s))).
  assert (Hs1 : forall l, ls_heap s1 !! l = if decide (l = w) then data <$> ls_heap s !! l else ls_heap s !! l).
  { intros l. unfold s1. simpl. destruct (decide (l = w)) as [->|Hne].
    - rewrite !lookup_alter_eq, Hx. done.
    - by rewrite !lookup_alter_ne. }
  destruct (IH fuel s1) as (s' & Hrun & Hwk).
  - destruct ws as [|v ws]; [done|]. destruct Hch as [Hv Hch]. apply not_elem_of_cons in Hw as [Hwv Hw]. split.
    + rewrite Hs1, decide_False by done. assert (Hv' : is_Some (block_of s v)).
      { destruct ws; [|destruct Hch as [Hch _]]; unfold block_of; simpl in Hch; rewrite Hch; eauto. }
      unfold block_of in Hv'. destruct (ls_heap s !! v); [eauto|by destruct Hv'].
    + eapply chain_frame; [|exact Hch]. intros qq Hq. destruct qq as [|l]; [done|]. simpl.
      rewrite Hs1, decide_False; [done|]. intros ->. destruct Hq as [[= ->]|(y & Hy & [= ->])]; done.
  - done.
  - simpl in Hf. lia.
  - exists s'. split.
    + simpl. unfold kbind at 1. rewrite (getl_run s w x Hx). unfold kbind at 1. rewrite (modl_run s w x) by done.
      unfold kbind at 1. erewrite modl_run by (simpl; rewrite lookup_alter_eq, Hx; done).
      unfold kbind, kmod. rewrite Hb. exact Hrun.
    + destruct Hwk as [K1 K2 K3]. split.
      * intros l. rewrite K1, Hs1. destruct (decide (l = w)) as [->|Hne].
        -- rewrite decide_False by done. by rewrite decide_True by left.
        -- destruct (decide (l ∈ ws)); [rewrite decide_True by (by right)|
             rewrite decide_False by (by rewrite elem_of_cons; intros [?|?])]; done.
      * rewrite K2. done.
      * intros p c. rewrite K3. unfold s1. simpl. rewrite map_lookup_filter_Some, not_elem_of_cons. tauto.
Qed.

(** A lock that waits for nothing, and the blocked list it heads. *)
Definition heads (stale : ptr) (s : lst) (wm : loc -> list loc) (l : loc) : Prop :=
  stale <> Some l /\ is_Some (ls_heap s !! l) /\ forall l0, l ∉ wm l0.

Lemma waiters_size stale s wm l : blocks stale s wm -> (length (wm l) <= nlocks s)%nat.
Proof.
  intros [_ H2 _ H4 _ _ _]. apply NoDup_keys_size; [apply H4|]. intros w Hw. apply (H2 l w Hw).
Qed.

Lemma wakelock_run s wm l x :
  blocks None s wm -> heads None s wm l -> ls_heap s !! l = Some x ->
  exists s', lf_wakelock l s = Some (tt, s') /\ blocks None s' (fupd wm l []) /\
    (forall m, ls_heap s' !! m = if decide (m = l) then Some (lf_with_block x None)
       else if decide (m ∈ wm l) then data <$> ls_heap s !! m else ls_heap s !! m) /\
    ls_lockf s' = ls_lockf s /\
    (forall p c, ls_wchan s' !! p = Some c <-> ls_wchan s !! p = Some c /\ c ∉ wm l).
Proof.
  intros Hbl (_ & Hl & Hnw) Hx. pose proof (waiters_size _ _ _ l Hbl) as Hsz.
  pose proof Hbl as [B1 B2 B3 B4 B5 B6 B7]. pose proof (B1 l ltac:(done) Hl Hnw) as Hch.
  assert (Hb : lf_block x = head (wm l)).
  { apply chain_get in Hch. simpl in Hch. rewrite Hx in Hch. by injection Hch. }
  set (s1 := upd_heap (alter (fun x => lf_with_block x None) l) s).
  assert (Hs1 : forall m, m <> l -> ls_heap s1 !! m = ls_heap s !! m).
  { intros m Hm. unfold s1. simpl. by rewrite lookup_alter_ne. }
  assert (Hll : l ∉ wm l) by apply Hnw.
  destruct (wake_loop_run (wm l) (nlocks s) s1) as (s' & Hrun & [K1 K2 K3]); [|done|done|].
  { destruct (wm l) as [|w ws] eqn:Ew; [done|]. apply not_elem_of_cons in Hll as [Hlw Hll]. split.
    - rewrite Hs1 by done. apply (B2 l w). rewrite Ew. left.
    - destruct Hch as [_ Hch]. eapply chain_frame; [|exact Hch]. intros qq Hq.
      destruct qq as [|m]; [done|]. simpl. rewrite Hs1; [done|]. intros ->.
      destruct Hq as [[= ->]|(y & Hy & [= ->])]; done. }
  assert (Hheap : forall m, ls_heap s' !! m = if decide (m = l) then Some (lf_with_block x None)
    else if decide (m ∈ wm l) then data <$> ls_heap s !! m else ls_heap s !! m).
  { intros m. rewrite K1. destruct (decide (m = l)) as [->|Hne].
    - rewrite decide_False by done. unfold s1. simpl. by rewrite lookup_alter_eq, Hx.
    - by rewrite Hs1. }
  assert (Hsome : forall m, is_Some (ls_heap s' !! m) <-> is_Some (ls_heap s !! m)).
  { intros m. rewrite Hheap. destruct (decide (m = l)) as [->|]; [rewrite Hx; naive_solver|].
    destruct (decide (m ∈ wm l)); [|done]. by rewrite fmap_is_Some. }
  exists s'. split; [|split; [|done]].
  - unfold lf_wakelock. unfold kbind at 1, kget. unfold kbind at 1. rewrite (getl_run s l x Hx).
    unfold kbind. rewrite (modl_run s l x) by done. rewrite Hb. exact Hrun.
  - assert (Hsub : forall m w, w ∈ fupd wm l [] m -> w ∈ wm m /\ m <> l).
    { intros m w. unfold fupd. destruct (decide (m = l)); [intros H; by apply elem_of_nil in H|done]. }
    split.
    + intros m _ Hm Hmn. unfold fupd. destruct (decide (m = l)) as [->|Hne].
      { simpl. by rewrite Hheap, decide_True. }
      destruct (decide (m ∈ wm l)) as [Hin|Hin].
      { destruct (B2 l m Hin) as (_ & _ & ->). simpl. rewrite Hheap, decide_False, decide_True by done.
        apply Hsome in Hm as [y Hy]. by rewrite Hy. }
      assert (Hmn' : forall l0, m ∉ wm l0).
      { intros l0 Hl0. destruct (decide (l0 = l)) as [->|Hl0']; [done|]. apply (Hmn l0).
        by rewrite fupd_ne. }
      eapply chain_frame; [|apply (B1 m); [done|by apply Hsome|done]]. intros qq Hq.
      destruct qq as [|q]; [done|]. simpl. rewrite Hheap.
      destruct Hq as [[= ->]|(y & Hy & [= ->])]; [by rewrite !decide_False|].
      rewrite !decide_False; [done| |]; [|intros ->; by apply (Hnw m)].
      intros Hq. apply Hne. by apply (B5 m l y).
    + intros m w Hw. apply Hsub in Hw as [Hw Hne]. rewrite !Hsome. destruct (B2 m w Hw) as (? & ? & E).
      split_and!; try done. unfold fupd. by destruct (decide (w = l)).
    + done.
    + intros m. unfold fupd. destruct (decide (m = l)); [apply NoDup_nil_2|apply B4].
    + intros m1 m2 w H1 H2. apply Hsub in H1 as [H1 _], H2 as [H2 _]. by apply (B5 m1 m2 w).
    + intros p w Hp. apply K3 in Hp as [Hp Hw]. destruct (B6 p w Hp) as [m Hm]. exists m.
      rewrite fupd_ne; [done|]. intros ->. done.
    + intros m w Hw. apply Hsub in Hw as [Hw Hne]. destruct (B7 m w Hw) as [p Hp]. exists p. apply K3.
      split; [done|]. intros Hw'. apply Hne. by apply (B5 m l w).
Qed.

(** ** Adding to a blocked list *)

Lemma blk_last_run s : forall ws fuel l,
  chain blk_link s (PNext l) ws -> (length ws <= fuel)%nat ->
  exists e, blk_last fuel l s = Some (e, s) /\ PNext e = endp (PNext l) ws.
Proof.
  induction ws as [|w ws IH]; intros fuel l Hch Hf.
  - exists l. split; [|done]. simpl in Hch. destruct fuel; simpl; unfold kbind, lk_load, kderef; simpl;
      by rewrite Hch.
  - destruct fuel as [|fuel]; [simpl in Hf; lia|]. destruct Hch as [Hg Hch].
    destruct (IH fuel w Hch) as (e & Hrun & He); [simpl in Hf; lia|]. exists e. split.
    + simpl. unfold kbind, lk_load, kderef. simpl in *. by rewrite Hg.
    + by rewrite endp_cons.
Qed.

Lemma fresh_next l ws : l ∉ ws -> NoDup ws -> fresh_from (PNext l) ws.
Proof. intros Hl Hnd. split; [done|]. intros x Hx [= ->]. done. Qed.

(** [lf_addblock l w] where [w] heads a list of its own. *)
Lemma addblock_run s l ws w r :
  chain blk_link s (PNext l) ws -> (length ws <= nlocks s)%nat -> l ∉ ws -> NoDup ws ->
  chain blk_link s (PNext w) r -> l <> w -> l ∉ r -> w ∉ ws -> (forall y, y ∈ r -> y ∉ ws) ->
  exists e, (e = l \/ e ∈ ws) /\
    lf_addblock l (Some w) s = Some (tt, upd_heap (alter (fun x => lf_with_block x (Some w)) e) s) /\
    chain blk_link (upd_heap (alter (fun x => lf_with_block x (Some w)) e) s) (PNext l) (ws ++ w :: r).
Proof.
  intros Hch Hf Hl Hnd Hr Hlw Hlr Hw Hdis. destruct (blk_last_run s ws (nlocks s) l Hch Hf) as (e & Hrun & He).
  assert (Hin : e = l \/ e ∈ ws).
  { destruct (endp_in (PNext l) ws) as [E|(y & Hy & E)]; rewrite E in He; injection He as ->; auto. }
  assert (Hex : is_Some (lk_get blk_link (PNext e) s)).
  { rewrite He. assert (Hc : chain blk_link s (PNext l) (ws ++ [])) by (by rewrite app_nil_r).
    apply chain_end, chain_get in Hc. rewrite Hc. eauto. }
  assert (Hx : exists x, ls_heap s !! e = Some x).
  { simpl in Hex. destruct (ls_heap s !! e); [eauto|by destruct Hex]. }
  destruct Hx as [x Hx]. exists e. split; [done|]. split.
  { unfold lf_addblock. unfold kbind at 1, kget. unfold kbind. rewrite Hrun. by apply (modl_run s e x). }
  change (upd_heap _ s) with (lk_set blk_link (PNext e) (Some w) s).
  apply (chain_splice blk_link s _ (PNext l) ws [] (w :: r)); [by rewrite app_nil_r|..].
  - rewrite <- He. split; [by rewrite lk_get_set, decide_True|]. apply chain_set_other; [apply _|..]; try done.
    + intros [= E]. destruct Hin as [?|?]; congruence.
    + intros y Hy [= E]. subst y. destruct Hin as [->|?]; [done|by apply (Hdis e)].
  - intros qq _ Hq. rewrite lk_get_set, decide_False; [done|by rewrite He|done].
  - by apply fresh_next.
Qed.

(** [lf_setlock] puts the idle lock [w] on the list of [l]. *)
Definition sleeps (p w : loc) (s : lst) : lst :=
  Lst (ls_heap s) (ls_lockf s) (<[p := w]> (ls_wchan s)) (ls_woken s).

Lemma addblock_idle s wm p l w :
  blocks None s wm -> heads None s wm l -> heads None s wm w -> wm w = [] -> l <> w -> ls_wchan s !! p = None ->
  exists e, lf_addblock l (Some w) s = Some (tt, upd_heap (alter (fun x => lf_with_block x (Some w)) e) s) /\
    (e = l \/ e ∈ wm l) /\
    blocks None (sleeps p w (upd_heap (alter (fun x => lf_with_block x (Some w)) e) s)) (fupd wm l (wm l ++ [w])).
Proof.
  intros Hbl (_ & Hl & Hln) (_ & Hw & Hwn) Hw0 Hlw Hp0. pose proof Hbl as [B1 B2 B3 B4 B5 B6 B7].
  pose proof (B1 l ltac:(done) Hl Hln) as Hcl. pose proof (B1 w ltac:(done) Hw Hwn) as Hcw. rewrite Hw0 in Hcw.
  destruct (addblock_run s l (wm l) w []) as (e & He & Hrun & Hch); try done.
  { by apply (waiters_size None s wm l). }
  { intros H. by apply elem_of_nil in H. }
  { intros y Hy. by apply elem_of_nil in Hy. }
  exists e. split; [done|]. split; [done|]. set (s' := sleeps p w _) in *.
  assert (Hsome : forall m, is_Some (ls_heap s' !! m) <-> is_Some (ls_heap s !! m)).
  { intros m. unfold s'. simpl. destruct (decide (m = e)) as [->|Hne];
      [rewrite lookup_alter_eq, fmap_is_Some|rewrite lookup_alter_ne by congruence]; done. }
  assert (Hin : forall m y, y ∈ fupd wm l (wm l ++ [w]) m -> y ∈ wm m \/ m = l /\ y = w).
  { intros m y. unfold fupd. destruct (decide (m = l)) as [->|]; [|auto].
    intros Hy. apply elem_of_app in Hy as [Hy|Hy]; [auto|]. apply list_elem_of_singleton in Hy. auto. }
  assert (Hmono : forall m y, y ∈ wm m -> y ∈ fupd wm l (wm l ++ [w]) m).
  { intros m y Hy. unfold fupd. destruct (decide (m = l)) as [->|]; [|done]. apply elem_of_app. by left. }
  split.
  - intros m _ Hm Hmn. destruct (decide (m = l)) as [->|Hne].
    { rewrite fupd_eq. eapply chain_frame; [|exact Hch]. by intros [|q]. }
    rewrite fupd_ne by done.
    assert (Hmn' : forall l0, m ∉ wm l0) by (intros l0 H0; by apply (Hmn l0), Hmono).
    assert (Hmw : m <> w). { intros ->. apply (Hmn l). rewrite fupd_eq. apply elem_of_app. right. left. }
    eapply chain_frame; [|apply (B1 m); [done|by apply Hsome|done]]. intros qq Hq.
    destruct qq as [|q]; [done|]. unfold s'. simpl. rewrite lookup_alter_ne; [done|]. intros ->.
    destruct Hq as [[= ->]|(y & Hy & [= ->])].
    + destruct He as [?|He]; [done|]. by apply (Hmn' l).
    + destruct He as [->|He]; [by apply (Hln m)|]. apply Hne. by apply (B5 m l y).
  - intros m y Hy. rewrite !Hsome. apply Hin in Hy as [Hy|[-> ->]].
    + destruct (B2 m y Hy) as (? & ? & ?). split_and!; try done.
      rewrite fupd_ne; [done|]. intros ->. by apply (Hln m).
    + split_and!; try done. by rewrite fupd_ne.
  - done.
  - intros m. unfold fupd. destruct (decide (m = l)) as [->|]; [|apply B4].
    apply NoDup_app. split; [apply B4|]. split; [|apply NoDup_singleton].
    intros y Hy Hy2. apply list_elem_of_singleton in Hy2. subst. by apply (Hwn l).
  - intros m1 m2 y H1 H2. apply Hin in H1 as [H1|[-> ->]], H2 as [H2|[-> ?]]; subst.
    + by apply (B5 m1 m2 y).
    + exfalso. by apply (Hwn m1).
    + exfalso. by apply (Hwn m2).
    + done.
  - intros q y Hq. unfold s' in Hq. simpl in Hq. apply lookup_insert_Some in Hq as [[<- <-]|[_ Hq]].
    + exists l. rewrite fupd_eq. apply elem_of_app. right. left.
    + destruct (B6 q y Hq) as [m Hm]. exists m. by apply Hmono.
  - intros m y Hy. unfold s'. simpl. apply Hin in Hy as [Hy|[_ ->]].
    + destruct (B7 m y Hy) as [q Hq]. exists q. rewrite lookup_insert_ne; [done|]. intros <-. congruence.
    + exists p. apply lookup_insert_eq.
Qed.

(** [lf_setlock] gives the waiters of [o] to [k], ahead of those [k] had. *)
Lemma take_run s wm k o x y :
  blocks None s wm -> heads None s wm k -> heads None s wm o -> k <> o ->
  ls_heap s !! k = Some y -> ls_heap s !! o = Some x ->
  exists s', (let! _ := modl k (fun z => lf_with_block z (lf_block x)) in lf_addblock k (lf_block y))%kern s
      = Some (tt, s') /\
    blocks (Some o) s' (fupd (fupd wm k (wm o ++ wm k)) o []) /\
    (forall m, dat s' m = dat s m /\ next_of s' m = next_of s m) /\
    (forall m, m <> k -> m ∉ wm o -> ls_heap s' !! m = ls_heap s !! m) /\
    ls_lockf s' = ls_lockf s /\ ls_wchan s' = ls_wchan s.
Proof.
  intros Hbl (_ & Hk & Hkn) (_ & Ho & Hon) Hko Hy Hx. pose proof Hbl as [B1 B2 B3 B4 B5 B6 B7].
  pose proof (B1 k ltac:(done) Hk Hkn) as Hck. pose proof (B1 o ltac:(done) Ho Hon) as Hco.
  assert (Hyb : lf_block y = head (wm k)).
  { apply chain_get in Hck. simpl in Hck. rewrite Hy in Hck. by injection Hck. }
  assert (Hxb : lf_block x = head (wm o)).
  { apply chain_get in Hco. simpl in Hco. rewrite Hx in Hco. by injection Hco. }
  set (s1 := upd_heap (alter (fun z => lf_with_block z (lf_block x)) k) s).
  assert (Hdis : forall z, z ∈ wm k -> z ∉ wm o) by (intros z H1 H2; by apply Hko, (B5 k o z)).
  assert (H1o : chain blk_link s1 (PNext k) (wm o)).
  { change s1 with (lk_set blk_link (PNext k) (lf_block x) s). rewrite Hxb.
    destruct (wm o) as [|w r] eqn:Ew; simpl.
    - by rewrite lookup_alter_eq, Hy.
    - destruct Hco as [_ Hco]. split; [by rewrite lookup_alter_eq, Hy|].
      change (upd_heap _ s) with (lk_set blk_link (PNext k) (Some w) s). apply chain_set_other; [apply _|..]; try done.
      + simpl. by rewrite Hy.
      + intros [= ->]. apply (Hkn o). rewrite Ew. left.
      + intros z Hz [= ->]. apply (Hkn o). rewrite Ew. by right. }
  assert (Hsz : (length (wm o) <= nlocks s1)%nat).
  { replace (nlocks s1) with (nlocks s); [by apply (waiters_size None s wm o)|].
    unfold nlocks, s1. simpl. rewrite <- !size_dom, dom_alter_L. done. }
  set (old := wm k) in *. (* the waiters [k] has *)
  assert (Hdone : exists s', lf_addblock k (lf_block y) s1 = Some (tt, s') /\
    chain blk_link s' (PNext k) (wm o ++ old) /\
    (forall m, m <> k -> m ∉ wm o -> ls_heap s' !! m = ls_heap s !! m) /\
    (forall m, dat s' m = dat s m /\ next_of s' m = next_of s m) /\
    (forall m, is_Some (ls_heap s' !! m) <-> is_Some (ls_heap s !! m)) /\
    ls_lockf s' = ls_lockf s /\ ls_wchan s' = ls_wchan s).
  { assert (Hs1 : forall m, m <> k -> ls_heap s1 !! m = ls_heap s !! m).
    { intros m Hm. unfold s1. simpl. by rewrite lookup_alter_ne. }
    assert (Hd1 : forall m, dat s1 m = dat s m /\ next_of s1 m = next_of s m).
    { intros m. unfold dat, next_of. destruct (decide (m = k)) as [->|Hm]; [|by rewrite Hs1].
      unfold s1. simpl. by rewrite lookup_alter_eq, Hy. }
    assert (Hi1 : forall m, is_Some (ls_heap s1 !! m) <-> is_Some (ls_heap s !! m)).
    { intros m. destruct (decide (m = k)) as [->|Hm]; [|by rewrite Hs1].
      unfold s1. simpl. by rewrite lookup_alter_eq, fmap_is_Some. }
    rewrite Hyb. destruct old as [|w r] eqn:Eo.
    - exists s1. rewrite app_nil_r. split_and!; try done; intros; auto.
    - simpl. destruct (addblock_run s1 k (wm o) w r) as (e & He & Hrun & Hch); try done.
      + destruct Hck as [_ Hck]. change s1 with (lk_set blk_link (PNext k) (lf_block x) s).
        apply chain_set_other; [apply _|..]; try done.
        * simpl. by rewrite Hy.
        * intros [= ->]. apply (Hkn w). subst old. rewrite Eo. left.
        * intros z Hz [= ->]. apply (Hkn z). subst old. rewrite Eo. by right.
      + intros ->. apply (Hkn w). subst old. rewrite Eo. left.
      + intros Hr. apply (Hkn k). subst old. rewrite Eo. by right.
      + apply Hdis. left.
      + intros z Hz. apply Hdis. by right.
      + exists (upd_heap (alter (fun z => lf_with_block z (Some w)) e) s1). split_and!; try done.
        * intros m Hm Hmo. simpl. rewrite lookup_alter_ne; [by apply Hs1|]. intros ->. by destruct He.
        * intros m. destruct (Hd1 m) as [<- <-]. unfold dat, next_of. simpl.
          destruct (decide (m = e)) as [->|Hm]; [rewrite lookup_alter_eq|by rewrite lookup_alter_ne].
          by destruct (_ !! e).
        * intros m. rewrite <- Hi1. simpl. destruct (decide (m = e)) as [->|Hm];
            [by rewrite lookup_alter_eq, fmap_is_Some|by rewrite lookup_alter_ne]. }
  destruct Hdone as (s' & Hrun & Hch & Hfr & Hd & Hi & Hh & Hw). exists s'.
  split; [unfold kbind; rewrite (modl_run s k y) by done; exact Hrun|].
  split; [|done].
  assert (Hmem : forall m z, z ∈ fupd (fupd wm k (wm o ++ old)) o [] m <->
    m <> o /\ (z ∈ wm m \/ m = k /\ z ∈ wm o)).
  { intros m z. destruct (decide (m = o)) as [->|Hmo];
      [rewrite fupd_eq; split; [intros H; by apply elem_of_nil in H|naive_solver]|].
    rewrite fupd_ne by done. destruct (decide (m = k)) as [->|Hmk].
    - rewrite fupd_eq, elem_of_app. subst old. naive_solver.
    - rewrite fupd_ne by done. naive_solver. }
  split.
  - intros m Hmo Hm Hmn. assert (Hne : m <> o) by congruence. rewrite fupd_ne by done.
    destruct (decide (m = k)) as [->|Hmk]; [by rewrite fupd_eq|]. rewrite fupd_ne by done.
    assert (Hmn' : forall l0, m ∉ wm l0).
    { intros l0 H0. destruct (decide (l0 = o)) as [->|Hl0].
      - apply (Hmn k). apply Hmem. auto.
      - apply (Hmn l0). apply Hmem. auto. }
    eapply chain_frame; [|apply (B1 m); [done|by apply Hi|done]]. intros qq Hq.
    destruct qq as [|q]; [done|]. simpl. rewrite Hfr; [done|..].
    + destruct Hq as [[= ->]|(z & Hz & [= ->])]; [done|]. intros ->. by apply (Hkn m).
    + destruct Hq as [[= ->]|(z & Hz & [= ->])]; [done|]. intros Hz'. apply Hne. by apply (B5 m o z).
  - intros m z Hz. rewrite !Hi. apply Hmem in Hz as [Hne [Hz|[-> Hz]]].
    + destruct (B2 m z Hz) as (? & ? & E). split_and!; try done.
      rewrite fupd_ne by (intros ->; by apply (Hon m)). rewrite fupd_ne; [done|]. intros ->. by apply (Hkn m).
    + destruct (B2 o z Hz) as (? & ? & E). split_and!; try done.
      rewrite fupd_ne by (intros ->; by apply (Hon o)). rewrite fupd_ne; [done|]. intros ->. by apply (Hkn o).
  - intros m [= <-]. by rewrite fupd_eq.
  - intros m. unfold fupd. repeat destruct (decide _); [apply NoDup_nil_2| |apply B4].
    apply NoDup_app. split; [apply B4|]. split; [|apply B4]. intros z H1 H2. by apply (Hdis z).
  - intros m1 m2 z H1 H2. apply Hmem in H1 as [N1 H1], H2 as [N2 H2].
    destruct H1 as [H1|[-> H1]], H2 as [H2|[-> H2]]; [by apply (B5 m1 m2 z)|..|done].
    + exfalso. apply N1. by apply (B5 m1 o z).
    + exfalso. apply N2. by apply (B5 m2 o z).
  - intros p z. rewrite Hw. intros Hp. destruct (B6 p z Hp) as [m Hm].
    destruct (decide (m = o)) as [->|Hne]; [exists k|exists m]; apply Hmem; auto.
  - intros m z. rewrite Hw. intros Hz. apply Hmem in Hz as [_ [Hz|[_ Hz]]]; by apply B7 in Hz.
Qed.

(** Freeing a lock that has no waiters left and waits for nothing. *)
Lemma blocks_free st s wm o :
  blocks st s wm -> wm o = [] -> (forall l, o ∉ wm l) -> (st = None \/ st = Some o) ->
  blocks None (upd_heap (delete o) s) wm.
Proof.
  intros [B1 B2 B3 B4 B5 B6 B7] Ho Hn Hst.
  assert (Hl : forall m, m <> o -> ls_heap (upd_heap (delete o) s) !! m = ls_heap s !! m).
  { intros m Hm. simpl. by rewrite lookup_delete_ne. }
  split; try done.
  - intros m _ Hm Hmn. assert (Hne : m <> o).
    { intros ->. simpl in Hm. rewrite lookup_delete_eq in Hm. by destruct Hm. }
    rewrite Hl in Hm by done. eapply chain_frame; [|apply B1; [|done|done]].
    + intros qq Hq. destruct qq as [|q]; [done|]. cbn. rewrite lookup_delete_ne; [done|]. intros ->.
      destruct Hq as [[= ->]|(y & Hy & [= ->])]; [done|by apply (Hn m)].
    + destruct Hst as [->| ->]; congruence.
  - intros m w Hw. destruct (B2 m w Hw) as (? & ? & ?). assert (m <> o). { intros ->. by rewrite Ho in Hw; apply elem_of_nil in Hw. }
    rewrite !Hl; [done|..]; [|done]. intros ->. by apply (Hn m).
Qed.
