(* ===== verification/LockfGrant.v ===== *)
(** * [lf_setlock] and [lf_clearlock] on the heap

    Each case of the two loops keeps the invariant of the lists and changes the list of
    the inode as the functions [ins] and [del] of LockfSpec.v say. *)

From S2P Require Import Prelude Chain Lockf LockfSpec LockfHeap.

Lemma kbind_run {S A B} (m : K S A) s a s' (f : A -> K S B) :
  m s = Some (a, s') -> kbind m f s = f a s'.
Proof. unfold kbind. by intros ->. Qed.

(** ** One field assigned *)

Lemma dat_alter f l s m :
  dat (upd_heap (alter f l) s) m = if decide (m = l) then (fun x => data (f x)) <$> ls_heap s !! l else dat s m.
Proof.
  unfold dat. simpl. destruct (decide (m = l)) as [->|Hne]; [|by rewrite lookup_alter_ne].
  rewrite lookup_alter_eq. by destruct (ls_heap s !! l).
Qed.

Lemma next_alter f l s m :
  next_of (upd_heap (alter f l) s) m = if decide (m = l) then (fun x => lf_next (f x)) <$> ls_heap s !! l else next_of s m.
Proof.
  unfold next_of. simpl. destruct (decide (m = l)) as [->|Hne]; [|by rewrite lookup_alter_ne].
  rewrite lookup_alter_eq. by destruct (ls_heap s !! l).
Qed.

Lemma block_alter f l s m :
  block_of (upd_heap (alter f l) s) m = if decide (m = l) then (fun x => lf_block (f x)) <$> ls_heap s !! l else block_of s m.
Proof.
  unfold block_of. simpl. destruct (decide (m = l)) as [->|Hne]; [|by rewrite lookup_alter_ne].
  rewrite lookup_alter_eq. by destruct (ls_heap s !! l).
Qed.

(** [*pp = v] changes only the links. *)
Lemma store_frame ip pp v s m :
  dat (lk_set (lf_link ip) pp v s) m = dat s m /\ block_of (lk_set (lf_link ip) pp v s) m = block_of s m /\
  (PNext m <> pp -> next_of (lk_set (lf_link ip) pp v s) m = next_of s m).
Proof.
  destruct pp as [|l]; [done|]. simpl. rewrite dat_alter, block_alter, next_alter.
  destruct (decide (m = l)) as [->|Hne]; [|done]. unfold dat, block_of. by destruct (ls_heap s !! l).
Qed.

Lemma store_lockf ip pp v s jp :
  jp <> ip \/ PHead <> pp -> ls_lockf (lk_set (lf_link ip) pp v s) !! jp = ls_lockf s !! jp.
Proof. destruct pp; simpl; [|done]. intros [?|?]; [|done]. by rewrite lookup_insert_ne. Qed.

(** Between the two states only the links differ, and only those of [ls] and [pp]. *)
Record relinked (ip : loc) (pp : pptr) (ls : list loc) (s s' : lst) : Prop := {
  rl_dat m : dat s' m = dat s m;
  rl_block m : block_of s' m = block_of s m;
  rl_next m : m ∉ ls -> PNext m <> pp -> next_of s' m = next_of s m;
  rl_lockf jp : jp <> ip \/ PHead <> pp -> ls_lockf s' !! jp = ls_lockf s !! jp;
  rl_wchan : ls_wchan s' = ls_wchan s }.

Lemma relinked_store ip pp v s : relinked ip pp [] s (lk_set (lf_link ip) pp v s).
Proof.
  split; intros; try apply store_frame; try done; [by apply store_lockf|]. by destruct pp.
Qed.

Lemma relinked_next ip l v s : relinked ip (PNext l) [] s (upd_heap (alter (fun x => lf_with_next x v) l) s).
Proof. apply (relinked_store ip (PNext l) v s). Qed.

(** ** The list changed in place *)

Section Place.
Context (s : lst) (gm : loc -> locks) (ip : loc) (pre : locks).
Hypothesis Hl : lists s gm.
Hypothesis Hip : is_Some (ls_lockf s !! ip).
Abbreviation pp := (endp PHead pre.*1) (only parsing).

Lemma item_alloc jp l d : (l, d) ∈ gm jp -> exists x, ls_heap s !! l = Some x /\ data x = d.
Proof. intros H. apply dat_is_Some. by apply (li_data _ _ Hl jp). Qed.

Lemma home_fun jp1 jp2 l d1 d2 : (l, d1) ∈ gm jp1 -> (l, d2) ∈ gm jp2 -> jp1 = jp2 /\ d1 = d2.
Proof.
  intros H1 H2. destruct (li_data _ _ Hl _ _ _ H1) as [D1 <-], (li_data _ _ Hl _ _ _ H2) as [D2 <-].
  rewrite D1 in D2. by injection D2 as ->.
Qed.

Lemma granted_item m : granted gm m <-> exists jp d, (m, d) ∈ gm jp.
Proof.
  split.
  - intros [jp Hm]. apply list_elem_of_fmap in Hm as ([l d] & -> & Hm). eauto.
  - intros (jp & d & Hm). exists jp. by apply (list_elem_of_fmap_2 fst) in Hm.
Qed.

Lemma pre_get old : gm ip = pre ++ old -> lk_get (lf_link ip) pp s = Some (head old.*1).
Proof.
  intros Hg. pose proof (li_chain _ _ Hl ip) as Hc. destruct Hip as [v Hv]. rewrite Hv, Hg, fmap_app in Hc.
  apply chain_end in Hc. by apply chain_get in Hc.
Qed.

Lemma pre_linked old : gm ip = pre ++ old -> linked s ip old.
Proof.
  intros Hg. pose proof (li_chain _ _ Hl ip) as Hc. destruct Hip as [v Hv]. rewrite Hv, Hg, fmap_app in Hc.
  apply chain_end in Hc. by apply chain_linked in Hc.
Qed.

Lemma item_next l d r old : gm ip = pre ++ old -> old = (l, d) :: r -> next_of s l = Some (head r.*1).
Proof. intros Hg ->. apply pre_linked in Hg. by apply chain_next_of in Hg. Qed.

(** A tail of the list, hung at another pointer. *)
Lemma tail_chain s' qq mid r ls :
  gm ip = pre ++ mid ++ r -> relinked ip pp ls s s' -> (forall m, m ∈ r.*1 -> m ∉ ls) ->
  lk_get (lf_link ip) qq s' = Some (head r.*1) -> chain (lf_link ip) s' qq r.*1.
Proof.
  intros Hg Hrl Hls Hq. pose proof (li_chain _ _ Hl ip) as Hc. pose proof (li_nodup _ _ Hl ip) as Hnd.
  destruct Hip as [v Hv]. rewrite Hv, Hg, !fmap_app in Hc. rewrite Hg, !fmap_app in Hnd.
  apply chain_end, chain_end in Hc. destruct r as [|[l d] r]; [done|]. destruct Hc as [_ Hc]. split; [done|].
  eapply chain_frame; [|exact Hc]. intros qq' Hqq.
  assert (Hm : exists m, m ∈ ((l, d) :: r).*1 /\ qq' = PNext m).
  { destruct Hqq as [->|(m & Hm & ->)]; [exists l|exists m]; (split; [|done]); simpl; [left|by right]. }
  destruct Hm as (m & Hm & ->). apply (rl_next _ _ _ _ _ Hrl); [by apply Hls|]. intros E.
  apply NoDup_app in Hnd as (_ & Hnd & _).
  destruct (endp_in PHead pre.*1) as [E2|(y & Hy & E2)]; rewrite E2 in E; [done|]. injection E as ->.
  apply (Hnd y Hy). apply elem_of_app. by right.
Qed.

Lemma relinked_lockf s' ls old : gm ip = pre ++ old -> relinked ip pp ls s s' ->
  is_Some (lk_get (lf_link ip) pp s') -> is_Some (ls_lockf s' !! ip).
Proof.
  intros Hg Hrl Hq. destruct (decide (PHead = pp)) as [E|E]; [by rewrite <- E in Hq|].
  rewrite (rl_lockf _ _ _ _ _ Hrl); auto.
Qed.

(** [lock] is linked in after [pre], in place of [mid]. *)
Lemma lists_insert s' mid r lock k :
  gm ip = pre ++ mid ++ r -> ~ granted gm lock -> dat s lock = Some k -> lf_inode k = ip ->
  relinked ip pp [lock] s s' -> lk_get (lf_link ip) pp s' = Some (Some lock) ->
  next_of s' lock = Some (head r.*1) -> lists s' (fupd gm ip (pre ++ (lock, k) :: r)).
Proof.
  intros Hg Hng Hk Hki Hrl Hpp Hn. pose proof (li_nodup _ _ Hl ip) as Hnd. rewrite Hg, !fmap_app in Hnd.
  assert (Hout : forall jp, lock ∉ (gm jp).*1) by (intros jp H; apply Hng; by exists jp).
  apply (lists_relink s s' gm ip pre (mid ++ r)); try done.
  - intros m Hm. split; [apply Hrl|]. intros Hne. apply (rl_next _ _ _ _ _ Hrl); [|done].
    intros H. apply list_elem_of_singleton in H. subst m.
    destruct Hm as [Hm|(jp & _ & Hm)]; [apply (Hout ip); rewrite Hg, fmap_app; apply elem_of_app; by left|by apply (Hout jp)].
  - apply Hrl.
  - apply (relinked_lockf s' [lock] (mid ++ r)); try done.
  - simpl. split; [done|]. apply (tail_chain s' (PNext lock) mid r [lock]); try done.
    intros m Hm H. apply list_elem_of_singleton in H. subst m. apply (Hout ip). rewrite Hg, !fmap_app.
    apply elem_of_app. right. apply elem_of_app. by right.
  - rewrite fmap_app, fmap_cons. simpl. apply NoDup_app in Hnd as (N1 & N2 & N3). apply NoDup_app in N3 as (_ & _ & N3).
    apply NoDup_app. split_and!; [done| |].
    + intros y Hy Hy2. apply elem_of_cons in Hy2 as [->|Hy2].
      * apply (Hout ip). rewrite Hg, fmap_app. apply elem_of_app. by left.
      * apply (N2 y Hy). apply elem_of_app. by right.
    + apply NoDup_cons. split; [|done]. intros H. apply (Hout ip). rewrite Hg, !fmap_app.
      apply elem_of_app. right. apply elem_of_app. by right.
  - intros l d Hin. apply elem_of_cons in Hin as [[= -> ->]|Hin].
    + by rewrite (rl_dat _ _ _ _ _ Hrl).
    + rewrite (rl_dat _ _ _ _ _ Hrl). apply (li_data _ _ Hl ip). rewrite Hg. apply elem_of_app. right.
      apply elem_of_app. by right.
Qed.

(** The part [mid] is taken out. *)
Lemma lists_remove s' mid r :
  gm ip = pre ++ mid ++ r -> relinked ip pp [] s s' -> lk_get (lf_link ip) pp s' = Some (head r.*1) ->
  lists s' (fupd gm ip (pre ++ r)).
Proof.
  intros Hg Hrl Hpp. pose proof (li_nodup _ _ Hl ip) as Hnd. rewrite Hg, !fmap_app in Hnd.
  apply (lists_relink s s' gm ip pre (mid ++ r)); try done.
  - intros m Hm. split; [apply Hrl|]. intros Hne. apply (rl_next _ _ _ _ _ Hrl); [|done].
    intros H. by apply elem_of_nil in H.
  - apply Hrl.
  - apply (relinked_lockf s' [] (mid ++ r)); try done.
  - apply (tail_chain s' pp mid r []); try done. intros m _ H. by apply elem_of_nil in H.
  - rewrite fmap_app. apply NoDup_app in Hnd as (N1 & N2 & N3). apply NoDup_app in N3 as (_ & _ & N3).
    apply NoDup_app. split_and!; [done| |done]. intros y Hy Hy2. apply (N2 y Hy). apply elem_of_app. by right.
  - intros l d Hin. rewrite (rl_dat _ _ _ _ _ Hrl). apply (li_data _ _ Hl ip). rewrite Hg. apply elem_of_app. right.
    apply elem_of_app. by right.
Qed.

(** The data of one lock changes. *)
Lemma lists_modify o x x' f r :
  gm ip = pre ++ (o, x) :: r -> (forall y, data y = x -> data (f y) = x' /\ lf_next (f y) = lf_next y) ->
  lf_inode x' = ip -> lists (upd_heap (alter f o) s) (fupd gm ip (pre ++ (o, x') :: r)).
Proof.
  intros Hg Hf Hi. destruct (item_alloc ip o x) as (y & Hy & Ey); [rewrite Hg; apply elem_of_app; right; left|].
  destruct (Hf y Ey) as [F1 F2]. pose proof (li_nodup _ _ Hl ip) as Hnd. rewrite Hg, fmap_app in Hnd.
  set (s' := upd_heap (alter f o) s).
  assert (Hnext : forall m, next_of s' m = next_of s m).
  { intros m. unfold s'. rewrite next_alter. destruct (decide (m = o)) as [->|]; [|done]. unfold next_of.
    rewrite Hy. simpl. by rewrite F2. }
  apply (lists_relink s s' gm ip pre ((o, x) :: r)); try done.
  - intros m Hm. split; [|intros _; apply Hnext]. unfold s'. rewrite dat_alter, decide_False; [done|]. intros ->.
    apply NoDup_app in Hnd as (_ & Hnd & _). destruct Hm as [Hm|(jp & Hne & Hm)].
    + apply (Hnd o Hm). left.
    + apply list_elem_of_fmap in Hm as ([o' d] & -> & Hm). simpl in *.
      destruct (home_fun jp ip o' d x Hm) as [E _]; [|done]. rewrite Hg. apply elem_of_app. right. left.
  - pose proof (li_chain _ _ Hl ip) as Hc. destruct Hip as [v Hv]. rewrite Hv, Hg, fmap_app in Hc.
    apply chain_end in Hc. eapply chain_frame; [|exact Hc]. intros qq _. destruct qq as [|m]; [done|]. apply Hnext.
  - by rewrite fmap_app.
  - intros l d Hin. apply elem_of_cons in Hin as [[= -> ->]|Hin].
    + unfold s'. rewrite dat_alter, decide_True by done. rewrite Hy. simpl. by rewrite F1.
    + unfold s'. rewrite dat_alter, decide_False.
      * apply (li_data _ _ Hl ip). rewrite Hg. apply elem_of_app. right. by right.
      * intros ->. apply NoDup_app in Hnd as (_ & _ & Hnd). simpl in Hnd. apply NoDup_cons in Hnd as [Hnd _].
        apply Hnd. by apply (list_elem_of_fmap_2 fst) in Hin.
Qed.
End Place.

(** ** What an operation leaves alone *)

(** Outside [G], the locks keep what they are; a woken one forgets who blocked it. *)
Record frame (G : loc -> Prop) (s s' : lst) : Prop := {
  fr_lock m : ~ G m -> is_Some (ls_heap s !! m) ->
    dat s' m = dat s m /\ (next_of s' m = next_of s m \/ next_of s' m = Some None);
  fr_lockf jp : is_Some (ls_lockf s' !! jp) <-> is_Some (ls_lockf s !! jp);
  fr_wchan p c : ls_wchan s' !! p = Some c -> ls_wchan s !! p = Some c }.

Lemma frame_refl G s : frame G s s.
Proof. split; auto; done. Qed.

Lemma frame_trans G s1 s2 s3 : frame G s1 s2 -> frame G s2 s3 -> frame G s1 s3.
Proof.
  intros [A1 A2 A3] [B1 B2 B3]. split.
  - intros m Hm Hs. destruct (A1 m Hm Hs) as [D1 N1].
    assert (Hs2 : is_Some (ls_heap s2 !! m)).
    { unfold dat in D1. destruct Hs as [y Hy]. rewrite Hy in D1. by destruct (ls_heap s2 !! m). }
    destruct (B1 m Hm Hs2) as [D2 N2]. split; [congruence|]. destruct N2 as [N2|N2]; [|by right].
    destruct N1; [left|right]; congruence.
  - intros jp. by rewrite B2.
  - auto.
Qed.

Lemma frame_relinked G ip pp ls s s' :
  relinked ip pp ls s s' -> (forall m, m ∈ ls -> G m) -> (forall m, pp = PNext m -> G m) ->
  is_Some (ls_lockf s !! ip) -> is_Some (ls_lockf s' !! ip) -> frame G s s'.
Proof.
  intros [H1 H2 H3 H4 H5] Hls Hpp Hi Hi'. split.
  - intros m Hm _. split; [done|]. left. apply H3; [by intros ?%Hls|]. intros E. by apply Hm, Hpp.
  - intros jp. destruct (decide (jp = ip)) as [->|Hne]; [done|]. by rewrite H4 by auto.
  - intros p c. by rewrite H5.
Qed.

Lemma frame_alter (G : loc -> Prop) l f s : G l -> frame G s (upd_heap (alter f l) s).
Proof.
  intros Hl. split; [|done|done]. intros m Hm _. rewrite dat_alter, next_alter.
  destruct (decide (m = l)) as [->|]; [done|auto].
Qed.

Lemma frame_delete (G : loc -> Prop) l s : G l -> frame G s (upd_heap (delete l) s).
Proof.
  intros Hl. split; [|done|done]. intros m Hm _. unfold dat, next_of. simpl.
  rewrite lookup_delete_ne by congruence. auto.
Qed.

(** The waiters of one lock after the change wait for a lock that conflicts with them
    as the one they waited for did. *)
Lemma waits_mono s gm wm s' gm' wm' :
  waits s gm wm ->
  (forall m l w, granted gm' m -> w ∈ wm l -> m = w -> granted gm m) ->
  (forall l w, w ∈ wm l -> dat s' w = dat s w) ->
  (forall l w, w ∈ wm' l -> exists l0, w ∈ wm l0 /\ forall ip d y, (l0, d) ∈ gm ip -> conflicts d y ->
     exists ip' d', (l, d') ∈ gm' ip' /\ conflicts d' y) ->
  waits s' gm' wm'.
Proof.
  intros [H1 H2] Hg Hd Hc. split.
  - intros l w Hw Hgr. destruct (Hc l w Hw) as (l0 & Hl0 & _). apply (H1 l0 w Hl0). by apply (Hg w l0 w).
  - intros l w Hw. destruct (Hc l w Hw) as (l0 & Hl0 & Hcf). destruct (H2 l0 w Hl0) as (ip & d & y & Hin & Hy & Hdy).
    destruct (Hcf ip d y Hin Hdy) as (ip' & d' & Hin' & Hdy'). exists ip', d', y. split_and!; try done.
    by rewrite (Hd l0 w Hl0).
Qed.

(** ** Waking the waiters of a lock on a list *)

Lemma granted_alloc s gm m : lists s gm -> granted gm m -> is_Some (ls_heap s !! m).
Proof.
  intros Hl Hm. apply (granted_item gm) in Hm as (jp & d & Hm). destruct (item_alloc s gm Hl jp m d Hm) as (x & Hx & _).
  eauto.
Qed.

Definition apart (gm : loc -> locks) (wm : loc -> list loc) : Prop := forall l w, w ∈ wm l -> ~ granted gm w.

Lemma granted_heads s gm wm o : lists s gm -> apart gm wm -> granted gm o -> heads None s wm o.
Proof.
  intros Hl Ha Ho. split; [done|]. split; [by apply (granted_alloc s gm)|]. intros l0 H. by apply (Ha l0 o).
Qed.

Lemma wake_lists s gm wm o (G : loc -> Prop) :
  lists s gm -> blocks None s wm -> apart gm wm -> granted gm o ->
  exists s', lf_wakelock o s = Some (tt, s') /\ lists s' gm /\ blocks None s' (fupd wm o []) /\ frame G s s' /\
    (forall m, dat s' m = dat s m) /\ (forall m, granted gm m -> next_of s' m = next_of s m) /\
    (forall m, is_Some (ls_heap s' !! m) <-> is_Some (ls_heap s !! m)) /\ ls_lockf s' = ls_lockf s /\
    forall m, (forall l, m ∉ wm l) -> m <> o -> ls_heap s' !! m = ls_heap s !! m.
Proof.
  intros Hl Hb Ha Ho. pose proof (granted_heads s gm wm o Hl Ha Ho) as Hh. pose proof Hh as (_ & [x Hx] & _).
  destruct (wakelock_run s wm o x Hb Hh Hx) as (s' & Hrun & Hb' & Hheap & Hlf & Hwc). exists s'.
  assert (Hd : forall m, dat s' m = dat s m).
  { intros m. unfold dat. rewrite Hheap. destruct (decide (m = o)) as [->|]; [by rewrite Hx|].
    destruct (decide (m ∈ wm o)); [|done]. by destruct (ls_heap s !! m). }
  assert (Hn : forall m, next_of s' m = next_of s m \/ m ∈ wm o /\ (is_Some (ls_heap s !! m) -> next_of s' m = Some None)).
  { intros m. unfold next_of. rewrite Hheap. destruct (decide (m = o)) as [->|]; [left; by rewrite Hx|].
    destruct (decide (m ∈ wm o)); [|by left]. right. split; [done|]. intros [y ->]. done. }
  split_and!; try done.
  - apply (lists_same s); try done. intros m Hm. split; [|done]. destruct (Hn m) as [|[Hw _]]; [done|].
    exfalso. by apply (Ha o m).
  - split.
    + intros m _ Hs. split; [done|]. destruct (Hn m) as [|[_ H]]; [by left|right; auto].
    + by rewrite Hlf.
    + intros p c Hc. by apply Hwc in Hc as [? _].
  - intros m Hm. destruct (Hn m) as [|[Hw _]]; [done|]. exfalso. by apply (Ha o m).
  - intros m. specialize (Hd m). unfold dat in Hd. destruct (ls_heap s' !! m), (ls_heap s !! m); naive_solver.
  - intros m Hm Hmo. rewrite Hheap, decide_False by done. by rewrite decide_False by done.
Qed.

(** ** One turn of a loop *)

(** A change of the list of [ip] and of the waiters: the invariant, and what is left
    alone outside [G]. *)
Record evolves (G : loc -> Prop) (ip : loc) (s : lst) (gm : loc -> locks) (wm : loc -> list loc)
    (s' : lst) (gm' : loc -> locks) (wm' : loc -> list loc) : Prop := {
  ev_lists : lists s' gm';
  ev_blocks : blocks None s' wm';
  ev_waits : waits s' gm' wm';
  ev_other jp : jp <> ip -> gm' jp = gm jp;
  ev_frame : frame G s s';
  ev_wm l w : w ∈ wm' l -> exists l0, w ∈ wm l0;
  ev_granted m : granted gm' m -> G m \/ ls_heap s !! m = None }.

Lemma evolves_trans (G : loc -> Prop) ip s1 gm1 wm1 s2 gm2 wm2 s3 gm3 wm3 :
  evolves G ip s1 gm1 wm1 s2 gm2 wm2 -> evolves G ip s2 gm2 wm2 s3 gm3 wm3 ->
  (forall m, G m \/ ~ G m) -> evolves G ip s1 gm1 wm1 s3 gm3 wm3.
Proof.
  intros [A1 A2 A3 A4 A5 A6 A7] [B1 B2 B3 B4 B5 B6 B7] Hdec. split; try done.
  - intros jp Hj. rewrite B4 by done. by apply A4.
  - by apply (frame_trans G s1 s2).
  - intros l w Hw. destruct (B6 l w Hw) as [l0 H0]. by apply (A6 l0).
  - intros m Hm. destruct (B7 m Hm) as [?|Hn]; [by left|]. destruct (Hdec m) as [?|Hg]; [by left|right].
    destruct (ls_heap s1 !! m) eqn:E; [|done]. destruct (fr_lock _ _ _ A5 m Hg) as [D _]; [by rewrite E|].
    unfold dat in D. by rewrite E, Hn in D.
Qed.

(** Every lock but [o] stays on its list as it is. *)
Definition keeps (o : loc) (gm gm' : loc -> locks) : Prop :=
  forall jp l d, l <> o -> (l, d) ∈ gm jp -> (l, d) ∈ gm' jp.

Lemma keeps_fupd o gm ip xs :
  (forall l d, l <> o -> (l, d) ∈ gm ip -> (l, d) ∈ xs) -> keeps o gm (fupd gm ip xs).
Proof.
  intros H jp l d Hl Hin. destruct (decide (jp = ip)) as [->|]; [rewrite fupd_eq; auto|by rewrite fupd_ne].
Qed.

Lemma granted_fupd gm ip xs m : granted (fupd gm ip xs) m -> granted gm m \/ m ∈ xs.*1.
Proof.
  intros [jp Hm]. destruct (decide (jp = ip)) as [->|]; [rewrite fupd_eq in Hm; auto|].
  rewrite fupd_ne in Hm by done. left. by exists jp.
Qed.

Lemma waits_woken s gm wm s' gm' o :
  waits s gm wm -> keeps o gm gm' -> (forall m l, granted gm' m -> m ∈ wm l -> granted gm m) ->
  (forall l w, w ∈ wm l -> dat s' w = dat s w) -> waits s' gm' (fupd wm o []).
Proof.
  intros Hw Hk Hg Hd. apply (waits_mono s gm wm); try done.
  - intros m l w H1 H2 ->. by apply (Hg w l).
  - intros l w Hin. unfold fupd in Hin. destruct (decide (l = o)) as [|Hne]; [by apply elem_of_nil in Hin|].
    exists l. split; [done|]. intros jp d y Hy Hc. exists jp, d. split; [by apply Hk|done].
Qed.

Lemma waits_kept s gm wm s' gm' :
  waits s gm wm -> (forall jp l d, (l, d) ∈ gm jp -> (l, d) ∈ gm' jp) ->
  (forall m l, granted gm' m -> m ∈ wm l -> granted gm m) ->
  (forall l w, w ∈ wm l -> dat s' w = dat s w) -> waits s' gm' wm.
Proof.
  intros Hw Hk Hg Hd. apply (waits_mono s gm wm); try done.
  - intros m l w H1 H2 ->. by apply (Hg w l).
  - intros l w Hin. exists l. split; [done|]. intros jp d y Hy Hc. exists jp, d. split; [by apply Hk|done].
Qed.

Lemma blocks_relinked ip pp ls s s' wm : relinked ip pp ls s s' -> blocks None s wm -> blocks None s' wm.
Proof. intros [_ H2 _ _ H5] Hb. by apply (blocks_same None s). Qed.

Section Turn.
Context (s : lst) (gm : loc -> locks) (wm : loc -> list loc) (ip : loc) (pre : locks) (G : loc -> Prop).
Hypothesis Hl : lists s gm.
Hypothesis Hb : blocks None s wm.
Hypothesis Hw : waits s gm wm.
Hypothesis Hip : is_Some (ls_lockf s !! ip).
Hypothesis HG : forall m, granted gm m -> G m.
Abbreviation pp := (endp PHead pre.*1) (only parsing).

Lemma apart_waits : apart gm wm.
Proof. intros l w. apply Hw. Qed.

Lemma pp_in_G old m : gm ip = pre ++ old -> pp = PNext m -> G m.
Proof.
  intros Hg E. apply HG. exists ip. rewrite Hg, fmap_app. apply elem_of_app. left.
  destruct (endp_in PHead pre.*1) as [E2|(y & Hy & E2)]; [congruence|]. rewrite E2 in E. by injection E as ->.
Qed.

(** [*prev = lock; lock->lf_next = p]. *)
Lemma hang_run old lock k p :
  gm ip = pre ++ old -> ~ granted gm lock -> dat s lock = Some k ->
  exists s1, (do! lk_store (lf_link ip) pp (Some lock) in modl lock (fun x => lf_with_next x p))%kern s
      = Some (tt, s1) /\
    relinked ip pp [lock] s s1 /\ lk_get (lf_link ip) pp s1 = Some (Some lock) /\ next_of s1 lock = Some p.
Proof.
  intros Hg Hng Hk. pose proof (pre_get s gm ip pre Hl Hip old Hg) as Hpp.
  assert (Hne : pp <> PNext lock).
  { intros E. apply Hng. exists ip. rewrite Hg, fmap_app. apply elem_of_app. left.
    destruct (endp_in PHead pre.*1) as [E2|(y & Hy & E2)]; [congruence|]. rewrite E2 in E. by injection E as ->. }
  set (s0 := lk_set (lf_link ip) pp (Some lock) s).
  pose proof (relinked_store ip pp (Some lock) s) as [R1 R2 R3 R4 R5]. fold s0 in R1, R2, R3, R4, R5.
  destruct (dat_is_Some s0 lock k) as (y & Hy & _); [by rewrite R1|].
  exists (lk_set (lf_link ip) (PNext lock) p s0). split; [|split; [|split]].
  - unfold kbind. rewrite store_run by (rewrite Hpp; eauto). fold s0. by rewrite (modl_run s0 lock y).
  - pose proof (relinked_store ip (PNext lock) p s0) as [Q1 Q2 Q3 Q4 Q5]. split; intros.
    + by rewrite Q1.
    + by rewrite Q2.
    + rewrite Q3; [apply R3; [by apply not_elem_of_nil|done]|by apply not_elem_of_nil|]. intros [= ->].
      apply H. left.
    + rewrite Q4 by auto. by apply R4.
    + by rewrite Q5.
  - rewrite lk_get_set by (simpl; by rewrite Hy). rewrite decide_False by done. unfold s0.
    rewrite lk_get_set by (rewrite Hpp; eauto). by rewrite decide_True.
  - unfold next_of. simpl. rewrite lookup_alter_eq, Hy. done.
Qed.

(** Then a lock of the list is changed and its waiters are woken. *)
Lemma modify_wake s1 gm1 pre1 o x x' f r1 :
  lists s1 gm1 -> blocks None s1 wm -> apart gm1 wm -> is_Some (ls_lockf s1 !! ip) ->
  gm1 ip = pre1 ++ (o, x) :: r1 ->
  (forall y, data y = x -> data (f y) = x' /\ lf_next (f y) = lf_next y) ->
  (forall y, lf_block (f y) = lf_block y) -> lf_inode x' = ip -> G o ->
  exists s', (do! modl o f in lf_wakelock o)%kern s1 = Some (tt, s') /\
    lists s' (fupd gm1 ip (pre1 ++ (o, x') :: r1)) /\ blocks None s' (fupd wm o []) /\ frame G s1 s' /\
    (forall m, m <> o -> dat s' m = dat s1 m) /\
    (forall m, (forall l, m ∉ wm l) -> m <> o -> ls_heap s' !! m = ls_heap s1 !! m).
Proof.
  intros Hl1 Hb1 Ha Hip1 Hg Hf Hfb Hi HGo.
  destruct (item_alloc s1 gm1 Hl1 ip o x) as (y & Hy & _); [rewrite Hg; apply elem_of_app; right; left|].
  pose proof (lists_modify s1 gm1 ip pre1 Hl1 Hip1 o x x' f r1 Hg Hf Hi) as Hl2.
  set (s2 := upd_heap (alter f o) s1) in *.
  assert (Hb2 : blocks None s2 wm).
  { apply (blocks_same None s1); [done|done|]. intros m. unfold s2. rewrite block_alter.
    destruct (decide (m = o)) as [->|]; [|done]. unfold block_of. rewrite Hy. simpl. by rewrite Hfb. }
  set (gm2 := fupd gm1 ip (pre1 ++ (o, x') :: r1)) in *.
  assert (Hgr : forall m, granted gm2 m -> granted gm1 m).
  { intros m Hm. apply granted_fupd in Hm as [?|Hm]; [done|]. exists ip. rewrite Hg.
    rewrite fmap_app in *. exact Hm. }
  destruct (wake_lists s2 gm2 wm o G) as (s' & Hrun & Hl' & Hb' & Hfr & Hd & _ & _ & _ & Hsame); try done.
  { intros l w Hin Hm. by apply (Ha l w), Hgr. }
  { exists ip. unfold gm2. rewrite fupd_eq, fmap_app. apply elem_of_app. right. left. }
  exists s'. split_and!; try done.
  - unfold kbind. by rewrite (modl_run s1 o y).
  - apply (frame_trans G s1 s2); [by apply frame_alter|done].
  - intros m Hm. rewrite Hd. unfold s2. by rewrite dat_alter, decide_False.
  - intros m Hm Hmo. rewrite Hsame by done. unfold s2. simpl. by rewrite lookup_alter_ne.
Qed.

(** *** A lock that is on no list *)

Section NewLock.
Context (lock : loc) (k : lockf).
Hypothesis Hk : dat s lock = Some k.
Hypothesis Hki : lf_inode k = ip.
Hypothesis Hkg : ~ granted gm lock.
Hypothesis Hkw : forall l, lock ∉ wm l.
Hypothesis Hkn : wm lock = [].
Hypothesis HGk : G lock.

Lemma waiter_ne l w : w ∈ wm l -> w <> lock.
Proof. intros H ->. by apply (Hkw l). Qed.

Lemma waiter_granted l w : w ∈ wm l -> ~ granted gm w.
Proof. apply Hw. Qed.

(** The lock linked in, nothing else. *)
Lemma hang_lists mid r :
  gm ip = pre ++ mid ++ r ->
  exists s1, (do! lk_store (lf_link ip) pp (Some lock) in modl lock (fun x => lf_with_next x (head r.*1)))%kern s
      = Some (tt, s1) /\
    relinked ip pp [lock] s s1 /\ lists s1 (fupd gm ip (pre ++ (lock, k) :: r)) /\ blocks None s1 wm /\
    apart (fupd gm ip (pre ++ (lock, k) :: r)) wm /\ is_Some (ls_lockf s1 !! ip) /\ frame G s s1.
Proof.
  intros Hg. destruct (hang_run (mid ++ r) lock k (head r.*1) Hg Hkg Hk) as (s1 & Hrun & Hrl & Hpp & Hn).
  exists s1. split; [done|]. split; [done|].
  assert (Hi : is_Some (ls_lockf s1 !! ip)).
  { apply (relinked_lockf s gm ip pre Hip s1 [lock] (mid ++ r)); try done. }
  split; [by apply (lists_insert s gm ip pre Hl Hip s1 mid r lock k)|]. split; [by apply (blocks_relinked ip pp [lock] s)|].
  split; [|split; [done|]].
  - intros l w Hin Hm. apply granted_fupd in Hm as [Hm|Hm]; [by apply (waiter_granted l w)|].
    rewrite fmap_app in Hm. apply elem_of_app in Hm as [Hm|Hm].
    + apply (waiter_granted l w Hin). exists ip. rewrite Hg, fmap_app. apply elem_of_app. by left.
    + simpl in Hm. apply elem_of_cons in Hm as [->|Hm]; [by apply (Hkw l)|].
      apply (waiter_granted l w Hin). exists ip. rewrite Hg, !fmap_app. apply elem_of_app. right.
      apply elem_of_app. by right.
  - apply (frame_relinked G ip pp [lock]); try done.
    + intros m Hm. by apply list_elem_of_singleton in Hm as ->.
    + intros m. by apply (pp_in_G (mid ++ r)).
Qed.

Lemma granted_inserted mid r m :
  gm ip = pre ++ mid ++ r -> granted (fupd gm ip (pre ++ (lock, k) :: r)) m -> granted gm m \/ m = lock.
Proof.
  intros Hg Hm. apply granted_fupd in Hm as [Hm|Hm]; [by left|]. rewrite fmap_app in Hm.
  apply elem_of_app in Hm as [Hm|Hm]; [left; exists ip; rewrite Hg, fmap_app; apply elem_of_app; by left|].
  simpl in Hm. apply elem_of_cons in Hm as [->|Hm]; [by right|left]. exists ip. rewrite Hg, !fmap_app.
  apply elem_of_app. right. apply elem_of_app. by right.
Qed.

(** No overlap: the lock is linked in before what follows. *)
Lemma turn_link rest :
  gm ip = pre ++ rest ->
  exists s' gm' wm', (do! lk_store (lf_link ip) pp (Some lock) in
      modl lock (fun x => lf_with_next x (head rest.*1)))%kern s = Some (tt, s') /\
    evolves G ip s gm wm s' gm' wm' /\ gm' ip = pre ++ (lock, k) :: rest.
Proof.
  intros Hg. destruct (hang_lists [] rest Hg) as (s1 & Hrun & Hrl & Hl1 & Hb1 & Ha1 & Hi1 & Hf1).
  exists s1, (fupd gm ip (pre ++ (lock, k) :: rest)), wm. split; [done|]. split; [|by rewrite fupd_eq].
  split; try done; [|by intros; rewrite fupd_ne|eauto|].
  - apply (waits_kept s gm wm); try done.
    + intros jp l d Hin. destruct (decide (jp = ip)) as [->|]; [|by rewrite fupd_ne]. rewrite fupd_eq.
      rewrite Hg in Hin. apply elem_of_app in Hin as [?|?]; apply elem_of_app; [by left|right; by right].
    + intros m l Hm Hin. destruct (granted_inserted [] rest m Hg Hm) as [?| ->]; [done|by apply Hkw in Hin].
    + intros l w _. apply Hrl.
  - intros m Hm. left. destruct (granted_inserted [] rest m Hg Hm) as [?| ->]; auto.
Qed.

(** The lock freed without being linked. *)
Lemma free_lock s1 gm1 wm1 :
  lists s1 gm1 -> blocks None s1 wm1 -> ~ granted gm1 lock -> (forall l, lock ∉ wm1 l) -> wm1 lock = [] ->
  lists (upd_heap (delete lock) s1) gm1 /\ blocks None (upd_heap (delete lock) s1) wm1.
Proof.
  intros Hl1 Hb1 Hng Hnw Hn0. split.
  - apply (lists_same s1); try done. intros l Hgr. unfold next_of, dat. simpl.
    rewrite lookup_delete_ne; [done|]. congruence.
  - apply (blocks_free None); auto.
Qed.
Lemma subset_upd o l w : w ∈ fupd wm o [] l -> w ∈ wm l.
Proof. unfold fupd. destruct (decide (l = o)); [intros H; by apply elem_of_nil in H|done]. Qed.

(** The range is held already, as it is asked for. *)
Lemma turn_free :
  exists s' gm' wm', freel lock s = Some (tt, s') /\ evolves G ip s gm wm s' gm' wm' /\ gm' ip = gm ip.
Proof.
  destruct (dat_is_Some s lock k Hk) as (y & Hy & _).
  destruct (free_lock s gm wm Hl Hb Hkg Hkw Hkn) as [Hl' Hb'].
  exists (upd_heap (delete lock) s), gm, wm. split; [by apply (freel_run s lock y)|]. split; [|done].
  split; try done; [|by apply frame_delete|eauto|auto].
  apply (waits_kept s gm wm); try done. intros l w Hin. unfold dat. simpl.
  rewrite lookup_delete_ne; [done|]. intros <-. by apply (Hkw l).
Qed.

Section Overlap.
Context (o : loc) (x : lockf) (r : locks).
Hypothesis Hg : gm ip = pre ++ (o, x) :: r.

Lemma o_granted : granted gm o.
Proof. exists ip. rewrite Hg, fmap_app. apply elem_of_app. right. left. Qed.

Lemma o_ne : o <> lock.
Proof. intros E. pose proof o_granted as H. rewrite E in H. by apply Hkg. Qed.

Lemma x_inode : lf_inode x = ip.
Proof. apply (li_data _ _ Hl ip o). rewrite Hg. apply elem_of_app. right. left. Qed.

Lemma o_nodup y : (o, y) ∈ pre ++ r -> False.
Proof.
  intros Hin. pose proof (li_nodup _ _ Hl ip) as Hnd. rewrite Hg, fmap_app in Hnd.
  apply NoDup_app in Hnd as (N1 & N2 & N3). simpl in N2, N3. apply NoDup_cons in N3 as [N3 _].
  apply elem_of_app in Hin as [Hin|Hin]; apply (list_elem_of_fmap_2 fst) in Hin; simpl in Hin; [|done].
  apply (N2 o Hin). left.
Qed.

(** Waking the waiters of [o] when the lock is downgraded. *)
Lemma maybe_wake (down : bool) :
  exists s1 wm1, (if down then lf_wakelock o else kret tt) s = Some (tt, s1) /\ lists s1 gm /\ blocks None s1 wm1 /\
    frame G s s1 /\ (forall m, dat s1 m = dat s m) /\ (forall m, granted gm m -> next_of s1 m = next_of s m) /\
    ls_lockf s1 = ls_lockf s /\ wm1 = (if down then fupd wm o [] else wm) /\
    (forall m, (forall l, m ∉ wm l) -> m <> o -> ls_heap s1 !! m = ls_heap s !! m).
Proof.
  destruct down.
  - destruct (wake_lists s gm wm o G Hl Hb apart_waits o_granted) as
      (s1 & Hrun & Hl1 & Hb1 & Hf1 & Hd1 & Hn1 & _ & Hlf & Hs1).
    exists s1, (fupd wm o []). done.
  - exists s, wm. split_and!; try done. apply frame_refl.
Qed.

(** The lock is on the list with the same range: its type changes. *)
Lemma turn_equal t (down : bool) :
  (down = false -> lf_type x = F_WRLCK -> t = F_WRLCK) ->
  exists s' gm' wm', (do! (if down then lf_wakelock o else kret tt) in
      do! modl o (fun x => lf_with_type x t) in freel lock)%kern s = Some (tt, s') /\
    evolves G ip s gm wm s' gm' wm' /\ gm' ip = pre ++ (o, lf_with_type x t) :: r.
Proof.
  intros Hdown. destruct (maybe_wake down) as (s1 & wm1 & Hrun1 & Hl1 & Hb1 & Hf1 & Hd1 & Hn1 & Hlf1 & Ewm & Hs1).
  assert (Hip1 : is_Some (ls_lockf s1 !! ip)) by (by rewrite Hlf1).
  destruct (item_alloc s1 gm Hl1 ip o x) as (y & Hy & _); [rewrite Hg; apply elem_of_app; right; left|].
  set (f := fun z => lf_with_type z t).
  pose proof (lists_modify s1 gm ip pre Hl1 Hip1 o x (lf_with_type x t) f r Hg) as Hl2.
  specialize (Hl2 ltac:(intros z <-; done) x_inode). set (s2 := upd_heap (alter f o) s1) in *.
  set (gm2 := fupd gm ip (pre ++ (o, lf_with_type x t) :: r)) in *.
  assert (Hgr : forall m, granted gm2 m -> granted gm m).
  { intros m Hm. apply granted_fupd in Hm as [?|Hm]; [done|]. exists ip. rewrite Hg.
    rewrite fmap_app in *. exact Hm. }
  assert (Hb2 : blocks None s2 wm1).
  { apply (blocks_same None s1); [done|done|]. intros m. unfold s2. rewrite block_alter.
    destruct (decide (m = o)) as [->|]; [|done]. unfold block_of. by rewrite Hy. }
  assert (Hsub : forall l w, w ∈ wm1 l -> w ∈ wm l).
  { intros l w. rewrite Ewm. destruct down; [apply subset_upd|done]. }
  assert (Hn2 : wm1 lock = []).
  { rewrite Ewm. destruct down; [|done]. rewrite fupd_ne; [done|]. intros E. by apply o_ne. }
  destruct (free_lock s2 gm2 wm1) as [Hl3 Hb3]; try done.
  { intros Hm. by apply Hkg, Hgr. }
  { intros l Hin. by apply (Hkw l), Hsub. }
  assert (Hy2 : is_Some (ls_heap s2 !! lock)).
  { unfold s2. simpl. rewrite lookup_alter_ne by apply o_ne. rewrite Hs1; [|done|intros E; by apply o_ne].
    destruct (dat_is_Some s lock k Hk) as (z & -> & _). eauto. }
  assert (Hdw : forall l w, w ∈ wm l -> dat (upd_heap (delete lock) s2) w = dat s w).
  { intros l w Hin. unfold dat. simpl. rewrite lookup_delete_ne by (intros <-; by apply (Hkw l)).
    change (dat s2 w = dat s w). unfold s2. rewrite dat_alter, decide_False; [apply Hd1|]. intros E.
    rewrite E in Hin. by apply (waiter_granted l o Hin), o_granted. }
  exists (upd_heap (delete lock) s2), gm2, wm1. split; [|split; [|by unfold gm2; rewrite fupd_eq]].
  - unfold kbind. rewrite Hrun1, (modl_run s1 o y) by done. destruct Hy2 as [z Hz]. by apply (freel_run s2 lock z).
  - split; try done.
    + assert (Hkeep : keeps o gm gm2).
      { apply keeps_fupd. intros l d Hne Hin. rewrite Hg in Hin. apply elem_of_app in Hin as [?|Hin];
          apply elem_of_app; [by left|right]. apply elem_of_cons in Hin as [[= -> ->]|?]; [done|by right]. }
      rewrite Ewm. destruct down.
      { apply (waits_woken s gm); [done|done|intros m l Hm _; by apply Hgr|done]. }
      apply (waits_mono s gm wm); try done; [intros m l w Hm _ _; by apply Hgr|].
      intros l w Hin. exists l. split; [done|]. intros jp d z Hd Hc.
      destruct (decide (l = o)) as [->|Hne]; [|exists jp, d; split; [by apply Hkeep|done]].
      exists ip, (lf_with_type x t). split; [unfold gm2; rewrite fupd_eq; apply elem_of_app; right; left|].
      destruct (home_fun s gm Hl jp ip o d x Hd) as [_ ->]; [rewrite Hg; apply elem_of_app; right; left|].
      destruct Hc as (C1 & C2 & C3 & [C4|C4]); split_and!; auto.
    + intros jp Hj. unfold gm2. by rewrite fupd_ne.
    + apply (frame_trans G s s1); [done|]. apply (frame_trans G s1 s2); [apply frame_alter, HG, o_granted|].
      by apply frame_delete.
    + intros l w Hin. exists l. by apply Hsub.
    + intros m Hm. left. by apply HG, Hgr.
Qed.

(** The lock is linked in before [o], which loses its waiters and its beginning. *)
Lemma turn_cut x' f :
  (forall y, data y = x -> data (f y) = x' /\ lf_next (f y) = lf_next y) ->
  (forall y, lf_block (f y) = lf_block y) -> lf_inode x' = ip ->
  exists s' gm' wm', (do! lk_store (lf_link ip) pp (Some lock) in do! modl lock (fun z => lf_with_next z (Some o)) in
      do! modl o f in lf_wakelock o)%kern s = Some (tt, s') /\
    evolves G ip s gm wm s' gm' wm' /\ gm' ip = pre ++ (lock, k) :: (o, x') :: r.
Proof.
  intros Hf Hfb Hi. destruct (hang_lists [] ((o, x) :: r) Hg) as (s1 & Hrun & Hrl & Hl1 & Hb1 & Ha1 & Hi1 & Hf1).
  set (gm1 := fupd gm ip (pre ++ (lock, k) :: (o, x) :: r)) in *.
  destruct (modify_wake s1 gm1 (pre ++ [(lock, k)]) o x x' f r) as (s' & Hrun2 & Hl2 & Hb2 & Hf2 & Hd2 & Hs2);
    try done; [unfold gm1; by rewrite fupd_eq, <- app_assoc|apply HG, o_granted|].
  exists s', (fupd gm1 ip ((pre ++ [(lock, k)]) ++ (o, x') :: r)), (fupd wm o []).
  split; [|split; [|by rewrite fupd_eq, <- app_assoc]].
  { change (head ((o, x) :: r).*1) with (Some o) in Hrun. unfold kbind in *. destruct (lk_store _ _ _ s) as [[[] sa]|]; [|done]. by rewrite Hrun. }
  assert (Hgr : forall m, granted (fupd gm1 ip ((pre ++ [(lock, k)]) ++ (o, x') :: r)) m -> granted gm m \/ m = lock).
  { intros m Hm. apply granted_fupd in Hm as [Hm|Hm]; [by apply (granted_inserted [] ((o, x) :: r))|].
    apply (granted_inserted [] ((o, x) :: r)); [done|]. exists ip. rewrite fupd_eq.
    rewrite !fmap_app, <- app_assoc in *. exact Hm. }
  split; try done.
  - apply (waits_woken s gm); try done.
    + intros jp l d Hne Hin. destruct (decide (jp = ip)) as [->|Hj]; [rewrite fupd_eq|unfold gm1; by rewrite !fupd_ne].
      rewrite Hg in Hin. rewrite <- app_assoc. apply elem_of_app in Hin as [?|Hin]; apply elem_of_app; [by left|right].
      apply elem_of_cons in Hin as [[= -> ->]|?]; [done|]. right. by right.
    + intros m l Hm Hin. destruct (Hgr m Hm) as [?| ->]; [done|by apply Hkw in Hin].
    + intros l w Hin. rewrite Hd2; [apply Hrl|]. intros E. rewrite E in Hin.
      by apply (waiter_granted l o Hin), o_granted.
  - intros jp Hj. unfold gm1. by rewrite !fupd_ne.
  - by apply (frame_trans G s s1).
  - intros l w Hin. exists l. by apply (subset_upd o).
  - intros m Hm. left. destruct (Hgr m Hm) as [?| ->]; auto.
Qed.
End Overlap.
End NewLock.
End Turn.

(** *** A lock that the range contains *)

(** Its waiters are woken, or given to the new lock. *)
Lemma maybe_take s gm wm lock o xo ko (down : bool) (G : loc -> Prop) :
  lists s gm -> blocks None s wm -> waits s gm wm -> granted gm o -> heads None s wm lock -> lock <> o ->
  G o -> G lock -> ls_heap s !! o = Some xo -> ls_heap s !! lock = Some ko ->
  exists s1 wm1 st, (if down then lf_wakelock o
      else do! modl lock (fun y => lf_with_block y (lf_block xo)) in lf_addblock lock (lf_block ko))%kern s
      = Some (tt, s1) /\
    lists s1 gm /\ blocks st s1 wm1 /\ (st = None \/ st = Some o) /\ wm1 o = [] /\
    (forall l, o ∉ wm1 l) /\
    (forall l w, w ∈ wm1 l -> l <> o /\ (w ∈ wm l \/ down = false /\ l = lock /\ w ∈ wm o)) /\
    frame G s s1 /\ (forall m, dat s1 m = dat s m) /\ ls_lockf s1 = ls_lockf s.
Proof.
  intros Hl Hb Hw Ho Hh Hne HGo HGk Hxo Hko.
  assert (Ha : apart gm wm) by (intros l w; apply Hw).
  pose proof (granted_heads s gm wm o Hl Ha Ho) as Hho. destruct down.
  - destruct (wake_lists s gm wm o G Hl Hb Ha Ho) as (s1 & Hrun & Hl1 & Hb1 & Hf1 & Hd1 & Hn1 & _ & Hlf & Hs1).
    exists s1, (fupd wm o []), None. split_and!; try done; [by left|by rewrite fupd_eq|..].
    + intros l Hin. apply subset_upd in Hin. by apply (Ha l o).
    + intros l w Hin. split; [|left; by apply (subset_upd wm o)]. intros ->. rewrite fupd_eq in Hin.
      by apply elem_of_nil in Hin.
  - destruct (take_run s wm lock o xo ko Hb Hh Hho Hne Hko Hxo) as (s1 & Hrun & Hb1 & Hd1 & Hs1 & Hlf & Hwc).
    exists s1, (fupd (fupd wm lock (wm o ++ wm lock)) o []), (Some o).
    assert (Hsub : forall l w, w ∈ fupd (fupd wm lock (wm o ++ wm lock)) o [] l ->
      l <> o /\ (w ∈ wm l \/ false = false /\ l = lock /\ w ∈ wm o)).
    { intros l w. destruct (decide (l = o)) as [->|Hlo]; [rewrite fupd_eq; intros H; by apply elem_of_nil in H|].
      rewrite fupd_ne by done. intros Hin. split; [done|]. destruct (decide (l = lock)) as [->|Hlk].
      - rewrite fupd_eq in Hin. apply elem_of_app in Hin as [?|?]; auto.
      - rewrite fupd_ne in Hin by done. auto. }
    split_and!; try done; [|by right|by rewrite fupd_eq|..].
    + apply (lists_same s); try done. intros m _. destruct (Hd1 m). done.
    + intros l Hin. apply Hsub in Hin as [_ [Hin|(_ & _ & Hin)]]; by apply (Ha _ o Hin).
    + split.
      * intros m Hm _. destruct (Hd1 m) as [-> ->]. auto.
      * by rewrite Hlf.
      * intros p c. by rewrite Hwc.
    + intros m. apply Hd1.
Qed.

(** The contained lock is freed once it is off its list. *)
Lemma free_contained s2 gm2 wm2 st o :
  lists s2 gm2 -> blocks st s2 wm2 -> (st = None \/ st = Some o) -> wm2 o = [] -> (forall l, o ∉ wm2 l) ->
  ~ granted gm2 o ->
  lists (upd_heap (delete o) s2) gm2 /\ blocks None (upd_heap (delete o) s2) wm2.
Proof.
  intros Hl Hb Hst H0 Hn Hng. split; [|by apply (blocks_free st)].
  apply (lists_same s2); try done. intros l Hgr. unfold next_of, dat. simpl.
  rewrite lookup_delete_ne; [done|]. congruence.
Qed.

(** The new lock covers what the lock it replaces covered, and as strongly. *)
Definition stronger (k x : lockf) (down : bool) : Prop :=
  lf_id k = lf_id x /\ lf_inode k = lf_inode x /\ (forall b, covers x b -> covers k b) /\
  (down = false -> lf_type x = F_WRLCK -> lf_type k = F_WRLCK).

Lemma stronger_conflicts k x y : stronger k x false -> conflicts x y -> conflicts k y.
Proof.
  intros (E1 & E2 & E3 & E4) (C1 & C2 & (b & C3 & C3') & C4). split_and!; try congruence; [eauto|].
  destruct C4; auto.
Qed.

Section Contained.
Context (s : lst) (gm : loc -> locks) (wm : loc -> list loc) (ip : loc) (pre : locks) (G : loc -> Prop).
Context (lock : loc) (k : lockf) (o : loc) (x : lockf) (r : locks) (xo ko : lockf) (down : bool).
Hypothesis Hl : lists s gm.
Hypothesis Hb : blocks None s wm.
Hypothesis Hw : waits s gm wm.
Hypothesis Hip : is_Some (ls_lockf s !! ip).
Hypothesis HG : forall m, granted gm m -> G m.
Hypothesis HGk : G lock.
Hypothesis Hg : gm ip = pre ++ (o, x) :: r.
Hypothesis Hxo : ls_heap s !! o = Some xo.
Hypothesis Hko : ls_heap s !! lock = Some ko.
Hypothesis Hk : dat s lock = Some k.
Hypothesis Hki : lf_inode k = ip.
Hypothesis Hkw : forall l, lock ∉ wm l.
Hypothesis Hne : lock <> o.
Hypothesis Hstr : stronger k x down.
Abbreviation pp := (endp PHead pre.*1) (only parsing).

Lemma o_out gm' xs : gm' = fupd gm ip xs -> o ∉ xs.*1 -> ~ granted gm' o.
Proof.
  intros -> Hxs [jp Hm]. destruct (decide (jp = ip)) as [->|Hj]; [by rewrite fupd_eq in Hm|].
  rewrite fupd_ne in Hm by done. apply list_elem_of_fmap in Hm as ([o' d] & E & Hm). simpl in E. subst o'.
  destruct (home_fun s gm Hl jp ip o d x Hm) as [? _]; [|done]. rewrite Hg. apply elem_of_app. right. left.
Qed.

Lemma o_notin : o ∉ (pre ++ r).*1.
Proof.
  intros H. apply list_elem_of_fmap in H as ([o' d] & E & H). simpl in E. subst o'.
  by apply (o_nodup s gm ip pre Hl o x r Hg d).
Qed.

Lemma waits_taken s' gm' wm1 :
  (forall l w, w ∈ wm1 l -> l <> o /\ (w ∈ wm l \/ down = false /\ l = lock /\ w ∈ wm o)) ->
  keeps o gm gm' -> (lock, k) ∈ gm' ip -> (forall m, granted gm' m -> granted gm m \/ m = lock) ->
  (forall l w, w ∈ wm l -> dat s' w = dat s w) -> waits s' gm' wm1.
Proof.
  intros Hsub Hkeep Hin Hgr Hd. apply (waits_mono s gm wm); try done.
  - intros m l w Hm H2 ->. destruct (Hgr w Hm) as [?| ->]; [done|by apply Hkw in H2].
  - intros l w H1. destruct (Hsub l w H1) as [Hlo [H2|(-> & -> & H2)]].
    + exists l. split; [done|]. intros jp d y Hd1 Hc. exists jp, d. split; [by apply Hkeep|done].
    + exists o. split; [done|]. intros jp d y Hd1 Hc. exists ip, k. split; [done|].
      destruct (home_fun s gm Hl jp ip o d x Hd1) as [_ ->]; [rewrite Hg; apply elem_of_app; right; left|].
      by apply (stronger_conflicts k x).
Qed.

Lemma k_heads : heads None s wm lock.
Proof. split; [done|]. split; [by rewrite Hko|done]. Qed.

Abbreviation take := (if down then lf_wakelock o
  else do! modl lock (fun y => lf_with_block y (lf_block xo)) in lf_addblock lock (lf_block ko))%kern (only parsing).

(** The new lock takes the place of the contained one. *)
Lemma turn_contained_link :
  ~ granted gm lock ->
  exists s' gm' wm', (do! take in do! (do! lk_store (lf_link ip) pp (Some lock) in
      modl lock (fun z => lf_with_next z (head r.*1))) in freel o)%kern s = Some (tt, s') /\
    evolves G ip s gm wm s' gm' wm' /\ gm' ip = pre ++ (lock, k) :: r.
Proof.
  intros Hkg. assert (Ho : granted gm o) by (exists ip; rewrite Hg, fmap_app; apply elem_of_app; right; left).
  destruct (maybe_take s gm wm lock o xo ko down G) as
    (s1 & wm1 & st & Hrun1 & Hl1 & Hb1 & Hst & Hw1 & Hn1 & Hsub & Hf1 & Hd1 & Hlf1); [first [done|by apply k_heads|by apply HG]..|].
  assert (Hip1 : is_Some (ls_lockf s1 !! ip)) by (by rewrite Hlf1).
  assert (Hk1 : dat s1 lock = Some k) by (by rewrite Hd1).
  destruct (hang_run s1 gm ip pre Hl1 Hip1 ((o, x) :: r) lock k (head r.*1) Hg Hkg Hk1) as (s2 & Hrun2 & Hrl & Hpp & Hn2).
  pose proof (lists_insert s1 gm ip pre Hl1 Hip1 s2 [(o, x)] r lock k Hg Hkg Hk1 Hki Hrl Hpp Hn2) as Hl2.
  set (gm2 := fupd gm ip (pre ++ (lock, k) :: r)) in *.
  assert (Hip2 : is_Some (ls_lockf s2 !! ip)).
  { apply (relinked_lockf s1 gm ip pre Hip1 s2 [lock] ((o, x) :: r)); done. }
  assert (Hb2 : blocks st s2 wm1) by (destruct Hrl as [_ R2 _ _ R5]; by apply (blocks_same st s1)).
  assert (Hng : ~ granted gm2 o).
  { apply (o_out gm2 (pre ++ (lock, k) :: r)); [done|]. pose proof o_notin as H. rewrite fmap_app in *. simpl.
    rewrite elem_of_app, elem_of_cons in *. intros [?|[?|?]]; [tauto|congruence|tauto]. }
  destruct (free_contained s2 gm2 wm1 st o Hl2 Hb2 Hst Hw1 Hn1 Hng) as [Hl3 Hb3].
  assert (Hd2 : forall m, dat s2 m = dat s m) by (intros m; by rewrite (rl_dat _ _ _ _ _ Hrl)).
  destruct (dat_is_Some s2 o (data xo)) as (y & Hy & _); [rewrite Hd2; by apply dat_inode|].
  assert (Hgr : forall m, granted gm2 m -> granted gm m \/ m = lock).
  { intros m. by apply (granted_inserted gm ip pre lock k [(o, x)] r). }
  exists (upd_heap (delete o) s2), gm2, wm1. split; [|split; [|by unfold gm2; rewrite fupd_eq]].
  { unfold kbind in *. rewrite Hrun1. destruct (lk_store _ _ _ s1) as [[[] sa]|]; [|done]. rewrite Hrun2.
    by apply (freel_run s2 o y). }
  split; try done.
  - apply waits_taken; try done.
    + apply keeps_fupd. intros l d Hlo Hin. rewrite Hg in Hin. apply elem_of_app in Hin as [?|Hin];
        apply elem_of_app; [by left|right]. apply elem_of_cons in Hin as [[= -> ->]|?]; [done|by right].
    + unfold gm2. rewrite fupd_eq. apply elem_of_app. right. left.
    + intros l w Hin. unfold dat. simpl. rewrite lookup_delete_ne; [apply Hd2|]. intros <-. by apply Hw in Hin.
  - intros jp Hj. unfold gm2. by rewrite fupd_ne.
  - apply (frame_trans G s s1); [done|]. apply (frame_trans G s1 s2); [|by apply frame_delete, HG].
    apply (frame_relinked G ip pp [lock]); try done.
    + intros m Hm. by apply list_elem_of_singleton in Hm as ->.
    + intros m. by apply (pp_in_G gm ip pre G HG ((o, x) :: r)).
  - intros l w Hin. destruct (Hsub l w Hin) as [_ [?|(_ & _ & ?)]]; eauto.
  - intros m Hm. left. destruct (Hgr m Hm) as [?| ->]; auto.
Qed.

(** The lock is on the list already: the contained one is taken out. *)
Lemma turn_contained :
  (lock, k) ∈ pre ->
  exists s' gm' wm', (do! take in do! lk_store (lf_link ip) pp (head r.*1) in freel o)%kern s = Some (tt, s') /\
    evolves G ip s gm wm s' gm' wm' /\ gm' ip = pre ++ r.
Proof.
  intros Hpre. assert (Ho : granted gm o) by (exists ip; rewrite Hg, fmap_app; apply elem_of_app; right; left).
  destruct (maybe_take s gm wm lock o xo ko down G) as
    (s1 & wm1 & st & Hrun1 & Hl1 & Hb1 & Hst & Hw1 & Hn1 & Hsub & Hf1 & Hd1 & Hlf1); [first [done|by apply k_heads|by apply HG]..|].
  assert (Hip1 : is_Some (ls_lockf s1 !! ip)) by (by rewrite Hlf1).
  pose proof (pre_get s1 gm ip pre Hl1 Hip1 ((o, x) :: r) Hg) as Hpp1.
  set (s2 := lk_set (lf_link ip) pp (head r.*1) s1).
  assert (Hrl : relinked ip pp [] s1 s2) by apply relinked_store.
  assert (Hpp : lk_get (lf_link ip) pp s2 = Some (head r.*1)).
  { unfold s2. rewrite lk_get_set by (rewrite Hpp1; eauto). by rewrite decide_True. }
  pose proof (lists_remove s1 gm ip pre Hl1 Hip1 s2 [(o, x)] r Hg Hrl Hpp) as Hl2.
  set (gm2 := fupd gm ip (pre ++ r)) in *.
  assert (Hb2 : blocks st s2 wm1) by (destruct Hrl as [_ R2 _ _ R5]; by apply (blocks_same st s1)).
  assert (Hng : ~ granted gm2 o) by (by apply (o_out gm2 (pre ++ r)), o_notin).
  destruct (free_contained s2 gm2 wm1 st o Hl2 Hb2 Hst Hw1 Hn1 Hng) as [Hl3 Hb3].
  assert (Hd2 : forall m, dat s2 m = dat s m) by (intros m; by rewrite (rl_dat _ _ _ _ _ Hrl)).
  destruct (dat_is_Some s2 o (data xo)) as (y & Hy & _); [rewrite Hd2; by apply dat_inode|].
  assert (Hgr : forall m, granted gm2 m -> granted gm m).
  { intros m Hm. apply granted_fupd in Hm as [?|Hm]; [done|]. exists ip. rewrite Hg, fmap_app in *.
    rewrite elem_of_app in *. destruct Hm; [by left|right; by right]. }
  exists (upd_heap (delete o) s2), gm2, wm1. split; [|split; [|by unfold gm2; rewrite fupd_eq]].
  { unfold kbind in *. rewrite Hrun1, store_run by (rewrite Hpp1; eauto). fold s2. by apply (freel_run s2 o y). }
  split; try done.
  - apply waits_taken; try done; [|unfold gm2; rewrite fupd_eq; apply elem_of_app; by left|auto|].
    + apply keeps_fupd. intros l d Hlo Hin. rewrite Hg in Hin. apply elem_of_app in Hin as [?|Hin];
        apply elem_of_app; [by left|right]. apply elem_of_cons in Hin as [[= -> ->]|?]; done.
    + intros l w Hin. unfold dat. simpl. rewrite lookup_delete_ne; [apply Hd2|]. intros <-. by apply Hw in Hin.
  - intros jp Hj. unfold gm2. by rewrite fupd_ne.
  - apply (frame_trans G s s1); [done|]. apply (frame_trans G s1 s2); [|by apply frame_delete, HG].
    apply (frame_relinked G ip pp []); try done; [by intros m Hm; apply elem_of_nil in Hm| |].
    + intros m. by apply (pp_in_G gm ip pre G HG ((o, x) :: r)).
    + by apply (relinked_lockf s1 gm ip pre Hip1 s2 [] ((o, x) :: r)).
  - intros l w Hin. destruct (Hsub l w Hin) as [_ [?|(_ & _ & ?)]]; eauto.
  - intros m Hm. left. by apply HG, Hgr.
Qed.
End Contained.

(** *** Locks put after one that the range starts in *)

Lemma blocks_new s wm l y :
  blocks None s wm -> ls_heap s !! l = None -> lf_block y = None ->
  blocks None (upd_heap (<[l := y]>) s) wm.
Proof.
  intros [B1 B2 B3 B4 B5 B6] Hn Hy.
  assert (Hs : forall m, m <> l -> ls_heap (upd_heap (<[l := y]>) s) !! m = ls_heap s !! m).
  { intros m Hm. simpl. by rewrite lookup_insert_ne. }
  assert (Hnw : forall m, l ∉ wm m) by (intros m Hm; destruct (B2 m l Hm) as (_ & [z Hz] & _); congruence).
  split; try done.
  - intros m _ Hm Hmn. destruct (decide (m = l)) as [->|Hne].
    + assert (E : wm l = []).
      { destruct (wm l) as [|w ws] eqn:E; [done|]. destruct (B2 l w) as [[z Hz] _]; [rewrite E; left|congruence]. }
      rewrite E. simpl. by rewrite lookup_insert_eq, <- Hy.
    + rewrite Hs in Hm by done. eapply chain_frame; [|by apply (B1 m)]. intros qq Hq.
      destruct qq as [|q]; [done|]. change (block_of (upd_heap (<[l := y]>) s) q = block_of s q).
      unfold block_of. rewrite Hs; [done|]. intros ->. destruct Hq as [[= ->]|(z & Hz & [= ->])]; [done|].
      by apply (Hnw m).
  - intros m w Hw. destruct (B2 m w Hw) as (? & ? & ?). rewrite !Hs; [done|..].
    + intros ->. by apply (Hnw m).
    + intros ->. destruct H as [z Hz]. congruence.
Qed.

Section After.
Context (s : lst) (gm : loc -> locks) (wm : loc -> list loc) (ip : loc) (pre : locks) (G : loc -> Prop).
Context (o : loc) (x x' : lockf) (ns r : locks) (ex : list loc) (s2 : lst).
Hypothesis Hl : lists s gm.
Hypothesis Hw : waits s gm wm.
Hypothesis Hip : is_Some (ls_lockf s !! ip).
Hypothesis HG : forall m, granted gm m -> G m.
Hypothesis Hg : gm ip = pre ++ (o, x) :: r.
Hypothesis Hb2 : blocks None s2 wm.
Hypothesis Hheap : forall m, m <> o -> m ∉ ns.*1 -> m ∉ ex -> ls_heap s2 !! m = ls_heap s !! m.
Hypothesis Hlf : ls_lockf s2 = ls_lockf s.
Hypothesis Hwc : ls_wchan s2 = ls_wchan s.
Hypothesis Ho2 : dat s2 o = Some x' /\ lf_inode x' = ip.
Hypothesis Hns : forall l d, (l, d) ∈ ns ->
  dat s2 l = Some d /\ lf_inode d = ip /\ ~ granted gm l /\ (forall l0, l ∉ wm l0) /\ (G l \/ ls_heap s !! l = None).
Hypothesis Hnd : NoDup ns.*1.
Hypothesis Hex : forall m, m ∈ ex -> ~ granted gm m /\ (forall l, m ∉ wm l) /\ G m.

Lemma ns_not l : l ∈ ns.*1 -> ~ granted gm l /\ (forall l0, l ∉ wm l0) /\ (G l \/ ls_heap s !! l = None).
Proof. intros H. apply list_elem_of_fmap in H as ([l' d] & -> & H). by destruct (Hns l' d H) as (_ & _ & ?). Qed.

Lemma ex_not m : m ∈ ex -> ~ granted gm m.
Proof. intros H. by apply Hex. Qed.

Lemma in_list m : m ∈ (pre ++ (o, x) :: r).*1 -> granted gm m.
Proof. intros H. exists ip. by rewrite Hg. Qed.

(** The rest of the list is reached from the last of the new locks. *)
Lemma rest_chain q : next_of s2 q = Some (head r.*1) -> chain (lf_link ip) s2 (PNext q) r.*1.
Proof.
  intros Hq. pose proof in_list as IL. pose proof ns_not as NN. pose proof ex_not as EN. pose proof (pre_linked s gm ip pre Hl Hip _ Hg) as Hc. simpl in Hc.
  pose proof (li_nodup _ _ Hl ip) as Hn. rewrite Hg, fmap_app in Hn. apply NoDup_app in Hn as (_ & _ & Hn).
  simpl in Hn. apply NoDup_cons in Hn as [Hor _].
  destruct r as [|[l d] r']; [done|]. destruct Hc as [_ Hc]. split; [done|]. eapply chain_frame; [|exact Hc].
  intros qq Hqq. assert (Hm : exists m, m ∈ ((l, d) :: r').*1 /\ qq = PNext m).
  { destruct Hqq as [->|(m & Hm & ->)]; [exists l|exists m]; (split; [|done]); simpl; [left|by right]. }
  destruct Hm as (m & Hm & ->). simpl. rewrite Hheap; [done|..].
  - intros ->. by apply Hor.
  - intros Hin. apply (proj1 (NN m Hin)), IL. rewrite fmap_app. apply elem_of_app. right. by right.
  - intros Hin. apply (EN m Hin), IL. rewrite fmap_app. apply elem_of_app. right. by right.
Qed.

Lemma lists_after : chain (lf_link ip) s2 (PNext o) (ns ++ r).*1 -> next_of s2 o = Some (head (ns ++ r).*1) ->
  lists s2 (fupd gm ip (pre ++ (o, x') :: ns ++ r)).
Proof.
  intros Hch Hno. pose proof (li_nodup _ _ Hl ip) as Hn. rewrite Hg, fmap_app in Hn.
  apply NoDup_app in Hn as (N1 & N2 & N3). simpl in N2, N3. apply NoDup_cons in N3 as [N3 N4].
  apply (lists_relink s s2 gm ip pre ((o, x) :: r)); try done.
  - intros m Hm. assert (Hmo : m <> o).
    { intros ->. destruct Hm as [Hm|(jp & Hj & Hm)]; [apply (N2 o Hm); left|].
      apply list_elem_of_fmap in Hm as ([o' d] & E & Hm). simpl in E. subst o'.
      destruct (home_fun s gm Hl jp ip o d x Hm) as [? _]; [|done]. rewrite Hg. apply elem_of_app. right. left. }
    assert (Hmn : m ∉ ns.*1).
    { intros Hin. apply (proj1 (ns_not m Hin)). destruct Hm as [Hm|(jp & _ & Hm)]; [|by exists jp].
      apply in_list. rewrite fmap_app. apply elem_of_app. by left. }
    assert (Hme : m ∉ ex).
    { intros Hin. apply (ex_not m Hin). destruct Hm as [Hm|(jp & _ & Hm)]; [|by exists jp].
      apply in_list. rewrite fmap_app. apply elem_of_app. by left. }
    unfold dat, next_of. by rewrite Hheap.
  - intros jp _. by rewrite Hlf.
  - by rewrite Hlf.
  - pose proof (pre_get s gm ip pre Hl Hip _ Hg) as Hp. simpl. split; [|done].
    destruct (endp_in PHead pre.*1) as [E|(m & Hm & E)]; rewrite E in *; simpl in *; [by rewrite Hlf|].
    rewrite Hheap; [done|..].
    + intros ->. apply (N2 o Hm). left.
    + intros Hin. apply (proj1 (ns_not m Hin)), in_list. rewrite fmap_app. apply elem_of_app. by left.
    + intros Hin. apply (ex_not m Hin), in_list. rewrite fmap_app. apply elem_of_app. by left.
  - rewrite !fmap_app, !fmap_cons, fmap_app. simpl. apply NoDup_app. split; [done|]. split.
    + intros m Hm Hin. apply elem_of_cons in Hin as [->|Hin]; [apply (N2 o Hm); left|].
      apply elem_of_app in Hin as [Hin|Hin]; [|apply (N2 m Hm); by right].
      apply (proj1 (ns_not m Hin)), in_list. rewrite fmap_app. apply elem_of_app. by left.
    + apply NoDup_cons. split.
      * intros Hin. apply elem_of_app in Hin as [Hin|Hin]; [|done].
        apply (proj1 (ns_not o Hin)), in_list. rewrite fmap_app. apply elem_of_app. right. left.
      * apply NoDup_app. split_and!; [done| |done]. intros m Hm Hin. apply (proj1 (ns_not m Hm)), in_list.
        rewrite fmap_app. apply elem_of_app. right. by right.
  - intros l d Hin. apply elem_of_cons in Hin as [[= -> ->]|Hin]; [done|].
    apply elem_of_app in Hin as [Hin|Hin]; [by destruct (Hns l d Hin) as (? & ? & _)|].
    destruct (li_data _ _ Hl ip l d) as [D I]; [rewrite Hg; apply elem_of_app; right; by right|].
    split; [|done]. rewrite <- D. unfold dat. rewrite Hheap; [done|..].
    + intros ->. apply N3. by apply (list_elem_of_fmap_2 fst) in Hin.
    + intros Hm. apply (proj1 (ns_not l Hm)), in_list. rewrite fmap_app. apply elem_of_app. right. right.
      by apply (list_elem_of_fmap_2 fst) in Hin.
    + intros Hm. apply (ex_not l Hm), in_list. rewrite fmap_app. apply elem_of_app. right. right.
      by apply (list_elem_of_fmap_2 fst) in Hin.
Qed.

Lemma turn_after :
  chain (lf_link ip) s2 (PNext o) (ns ++ r).*1 -> next_of s2 o = Some (head (ns ++ r).*1) ->
  exists s' gm' wm', lf_wakelock o s2 = Some (tt, s') /\ evolves G ip s gm wm s' gm' wm' /\
    gm' ip = pre ++ (o, x') :: ns ++ r.
Proof.
  intros Hch Hno. pose proof (lists_after Hch Hno) as Hl2. set (gm2 := fupd gm ip (pre ++ (o, x') :: ns ++ r)) in *.
  assert (Hgr : forall m, granted gm2 m -> granted gm m \/ m ∈ ns.*1).
  { intros m Hm. apply granted_fupd in Hm as [?|Hm]; [by left|]. rewrite fmap_app, fmap_cons, fmap_app in Hm.
    simpl in Hm. rewrite !elem_of_app, elem_of_cons, elem_of_app in Hm.
    assert (m ∈ (pre ++ (o, x) :: r).*1 \/ m ∈ ns.*1) as [?|?]; [|left; by apply in_list|by right].
    rewrite fmap_app, fmap_cons. simpl. rewrite elem_of_app, elem_of_cons. tauto. }
  assert (Ha : apart gm2 wm).
  { intros l w Hin Hm. destruct (Hgr w Hm) as [Hm'|Hm']; [by apply Hw in Hin|].
    by apply (proj1 (proj2 (ns_not w Hm')) l). }
  assert (Hgo : granted gm o) by (apply in_list; rewrite fmap_app; apply elem_of_app; right; left).
  destruct (wake_lists s2 gm2 wm o G Hl2 Hb2 Ha) as (s' & Hrun & Hl' & Hb' & Hfr & Hd' & _ & _ & _ & _).
  { exists ip. unfold gm2. rewrite fupd_eq, fmap_app. apply elem_of_app. right. left. }
  exists s', gm2, (fupd wm o []). split; [done|]. split; [|unfold gm2; by rewrite fupd_eq].
  split; try done.
  - apply (waits_woken s gm); try done.
    + apply keeps_fupd. intros l d Hne Hin. rewrite Hg in Hin. apply elem_of_app in Hin as [?|Hin];
        apply elem_of_app; [by left|right]. apply elem_of_cons in Hin as [[= -> ->]|?]; [done|].
      right. apply elem_of_app. by right.
    + intros m l Hm Hin. destruct (Hgr m Hm) as [?|Hm']; [done|]. by apply (proj1 (proj2 (ns_not m Hm'))) in Hin.
    + intros l w Hin. rewrite Hd'. unfold dat. rewrite Hheap; [done|..].
      * intros ->. by apply Hw in Hin.
      * intros Hm. by apply (proj1 (proj2 (ns_not w Hm))) in Hin.
      * intros Hm. by apply (proj1 (proj2 (Hex w Hm))) in Hin.
  - intros jp Hj. unfold gm2. by rewrite fupd_ne.
  - apply (frame_trans G s s2); [|done]. split.
    + intros m Hm Hs. unfold dat, next_of. rewrite Hheap; [auto|..].
      * intros ->. by apply Hm, HG.
      * intros Hin. destruct (ns_not m Hin) as (_ & _ & [?|E]); [done|]. rewrite E in Hs. by destruct Hs.
      * intros Hin. by apply Hm, (proj2 (proj2 (Hex m Hin))).
    + by rewrite Hlf.
    + by rewrite Hwc.
  - intros l w Hin. exists l. by apply (subset_upd wm o).
  - intros m Hm. destruct (Hgr m Hm) as [?|Hm']; [left; auto|]. by apply (proj2 (proj2 (ns_not m Hm'))).
Qed.

(** The same change when nothing waits for [o]. *)
Lemma quiet_after :
  wm o = [] -> chain (lf_link ip) s2 (PNext o) (ns ++ r).*1 -> next_of s2 o = Some (head (ns ++ r).*1) ->
  exists gm', evolves G ip s gm wm s2 gm' wm /\ gm' ip = pre ++ (o, x') :: ns ++ r.
Proof.
  intros Hq Hch Hno. pose proof (lists_after Hch Hno) as Hl2. set (gm2 := fupd gm ip (pre ++ (o, x') :: ns ++ r)) in *.
  assert (Hgr : forall m, granted gm2 m -> granted gm m \/ m ∈ ns.*1).
  { intros m Hm. apply granted_fupd in Hm as [?|Hm]; [by left|]. rewrite fmap_app, fmap_cons, fmap_app in Hm.
    simpl in Hm. rewrite !elem_of_app, elem_of_cons, elem_of_app in Hm.
    assert (m ∈ (pre ++ (o, x) :: r).*1 \/ m ∈ ns.*1) as [?|?]; [|left; by apply in_list|by right].
    rewrite fmap_app, fmap_cons. simpl. rewrite elem_of_app, elem_of_cons. tauto. }
  exists gm2. split; [|unfold gm2; by rewrite fupd_eq]. split; try done.
  - apply (waits_mono s gm wm); try done.
    + intros m l w Hm Hin ->. destruct (Hgr w Hm) as [?|Hm']; [done|].
      by apply (proj1 (proj2 (ns_not w Hm'))) in Hin.
    + intros l w Hin. unfold dat. rewrite Hheap; [done|..].
      * intros ->. apply (wa_apart _ _ _ Hw) in Hin. apply Hin, in_list. rewrite fmap_app. apply elem_of_app. right. left.
      * intros Hm. by apply (proj1 (proj2 (ns_not w Hm))) in Hin.
      * intros Hm. by apply (proj1 (proj2 (Hex w Hm))) in Hin.
    + intros l w Hin. exists l. split; [done|]. intros jp d y Hd Hc. exists jp, d. split; [|done].
      assert (Hne : l <> o) by (intros ->; rewrite Hq in Hin; by apply elem_of_nil in Hin).
      unfold gm2. destruct (decide (jp = ip)) as [->|]; [rewrite fupd_eq|by rewrite fupd_ne].
      rewrite Hg in Hd. apply elem_of_app in Hd as [?|Hd]; apply elem_of_app; [by left|right].
      apply elem_of_cons in Hd as [[= -> ->]|?]; [done|]. right. apply elem_of_app. by right.
  - intros jp Hj. unfold gm2. by rewrite fupd_ne.
  - split.
    + intros m Hm Hs. unfold dat, next_of. rewrite Hheap; [auto|..].
      * intros ->. apply Hm, HG, in_list. rewrite fmap_app. apply elem_of_app. right. left.
      * intros Hin. destruct (ns_not m Hin) as (_ & _ & [?|E]); [done|]. rewrite E in Hs. by destruct Hs.
      * intros Hin. by apply Hm, (proj2 (proj2 (Hex m Hin))).
    + by rewrite Hlf.
    + by rewrite Hwc.
  - eauto.
  - intros m Hm. destruct (Hgr m Hm) as [?|Hm']; [left; auto|]. by apply (proj2 (proj2 (ns_not m Hm'))).
Qed.
End After.

Section Cut.
Context (s : lst) (gm : loc -> locks) (wm : loc -> list loc) (ip : loc) (pre : locks) (G : loc -> Prop).
Context (lock : loc) (k : lockf) (o : loc) (x : lockf) (r : locks) (xo ko : lockf).
Hypothesis Hl : lists s gm.
Hypothesis Hb : blocks None s wm.
Hypothesis Hw : waits s gm wm.
Hypothesis Hip : is_Some (ls_lockf s !! ip).
Hypothesis HG : forall m, granted gm m -> G m.
Hypothesis HGk : G lock.
Hypothesis Hg : gm ip = pre ++ (o, x) :: r.
Hypothesis Hxo : ls_heap s !! o = Some xo.
Hypothesis Hko : ls_heap s !! lock = Some ko.
Hypothesis Hk : dat s lock = Some k.
Hypothesis Hki : lf_inode k = ip.
Hypothesis Hkg : ~ granted gm lock.
Hypothesis Hkw : forall l, lock ∉ wm l.

Lemma cut_facts : data xo = x /\ data ko = k /\ lf_inode x = ip /\ lf_next xo = head r.*1 /\ lock <> o.
Proof.
  assert (Hin : (o, x) ∈ gm ip) by (rewrite Hg; apply elem_of_app; right; left).
  destruct (li_data _ _ Hl ip o x Hin) as [D I]. rewrite (dat_inode s o xo) in D by done.
  rewrite (dat_inode s lock ko) in Hk by done. split_and!; [congruence|congruence|done|..].
  - pose proof (item_next s gm ip pre Hl Hip o x r _ Hg eq_refl) as Hn. unfold next_of in Hn.
    rewrite Hxo in Hn. by injection Hn.
  - intros E. apply Hkg. rewrite E. exists ip. by apply (list_elem_of_fmap_2 fst) in Hin.
Qed.

(** The state in which the lock was put after [o]. *)
Lemma after_two s2 x' yo :
  ls_heap s2 !! o = Some yo -> data yo = x' -> lf_next yo = Some lock -> lf_block yo = lf_block xo ->
  lf_inode x' = ip -> ls_heap s2 !! lock = Some (lf_with_next ko (lf_next xo)) ->
  (forall m, m <> o -> m <> lock -> ls_heap s2 !! m = ls_heap s !! m) ->
  ls_lockf s2 = ls_lockf s -> ls_wchan s2 = ls_wchan s ->
  exists s' gm' wm', lf_wakelock o s2 = Some (tt, s') /\
    evolves G ip s gm wm s' gm' wm' /\ gm' ip = pre ++ (o, x') :: (lock, k) :: r.
Proof.
  intros H2o Ed Enx Ebl Ei H2k Hsame Hlf2 Hwc2. destruct cut_facts as (Ex & Ek & Ix & En & Hne).
  assert (Hheap : forall m, m <> o -> m ∉ [(lock, k)].*1 -> m ∉ ([] : list loc) -> ls_heap s2 !! m = ls_heap s !! m).
  { intros m Hmo Hm _. apply Hsame; [done|]. intros ->. apply Hm. simpl. left. }
  assert (Hns : forall l d, (l, d) ∈ [(lock, k)] -> dat s2 l = Some d /\ lf_inode d = ip /\ ~ granted gm l /\
    (forall l0, l ∉ wm l0) /\ (G l \/ ls_heap s !! l = None)).
  { intros l d Hin. apply list_elem_of_singleton in Hin as [= -> ->].
    split_and!; auto. unfold dat. rewrite H2k. simpl. by rewrite <- Ek. }
  assert (Hnil : forall m, m ∈ ([] : list loc) -> ~ granted gm m /\ (forall l, m ∉ wm l) /\ G m)
    by (intros m Hm; by apply elem_of_nil in Hm).
  apply (turn_after s gm wm ip pre G o x x' [(lock, k)] r [] s2); try done.
  - apply (blocks_same None s); [done|done|]. intros m. unfold block_of.
    destruct (decide (m = o)) as [->|]; [rewrite H2o, Hxo; simpl; by rewrite Ebl|].
    destruct (decide (m = lock)) as [->|]; [by rewrite H2k, Hko|by rewrite Hsame].
  - split; [|done]. unfold dat. rewrite H2o. simpl. by rewrite Ed.
  - apply NoDup_singleton.
  - split; [change (next_of s2 o = Some (Some lock)); unfold next_of; rewrite H2o; simpl; by rewrite Enx|].
    apply (rest_chain s gm wm ip pre G o x [(lock, k)] r [] s2); try done.
    change (next_of s2 lock = Some (head r.*1)). unfold next_of. rewrite H2k. simpl. by rewrite En.
  - unfold next_of. rewrite H2o. simpl. by rewrite Enx.
Qed.

(** The lock is put after [o], which loses its end. *)
Lemma turn_starts e :
  exists s' gm' wm', (do! modl lock (fun y => lf_with_next y (lf_next xo)) in
      do! modl o (fun y => lf_with_next y (Some lock)) in do! modl o (fun y => lf_with_end y e) in
      lf_wakelock o)%kern s = Some (tt, s') /\
    evolves G ip s gm wm s' gm' wm' /\ gm' ip = pre ++ (o, lf_with_end x e) :: (lock, k) :: r.
Proof.
  destruct cut_facts as (Ex & Ek & Ix & En & Hne).
  set (s1 := upd_heap (alter (fun y => lf_with_next y (lf_next xo)) lock) s).
  assert (H1 : ls_heap s1 !! o = Some xo) by (unfold s1; simpl; by rewrite lookup_alter_ne).
  set (s1' := upd_heap (alter (fun y => lf_with_next y (Some lock)) o) s1).
  assert (H1' : ls_heap s1' !! o = Some (lf_with_next xo (Some lock)))
    by (unfold s1'; simpl in *; by rewrite lookup_alter_eq, H1).
  set (s2 := upd_heap (alter (fun y => lf_with_end y e) o) s1').
  destruct (after_two s2 (lf_with_end x e) (lf_with_end (lf_with_next xo (Some lock)) e)) as (s' & gm' & wm' & Hrun & Hev);
    try done.
  - unfold s2. simpl in *. by rewrite lookup_alter_eq, H1'.
  - by rewrite <- Ex.
  - unfold s2, s1', s1. simpl. by rewrite !lookup_alter_ne, lookup_alter_eq, Hko by done.
  - intros m Hmo Hmk. unfold s2, s1', s1. simpl. by rewrite !lookup_alter_ne by done.
  - exists s', gm', wm'. split; [|done]. unfold kbind. rewrite (modl_run s lock ko) by done. fold s1.
    rewrite (modl_run s1 o xo) by done. fold s1'. by rewrite (modl_run s1' o _ _ H1').
Qed.

(** [lf_split] into two: the range ends where [o] ends. *)
Lemma turn_split_two :
  lf_start x <> lf_start k -> lf_end x = lf_end k ->
  exists s' gm' wm', (do! lf_split o lock in lf_wakelock o)%kern s = Some (tt, s') /\
    evolves G ip s gm wm s' gm' wm' /\
    gm' ip = pre ++ (o, lf_with_end x (s32 (lf_start k - 1))) :: (lock, k) :: r.
Proof.
  intros Es Ee. destruct cut_facts as (Ex & Ek & Ix & En & Hne).
  set (e := s32 (lf_start ko - 1)). assert (Ee' : e = s32 (lf_start k - 1)) by (unfold e; by rewrite <- Ek).
  set (s1 := upd_heap (alter (fun y => lf_with_end y e) o) s).
  assert (H1 : ls_heap s1 !! lock = Some ko) by (unfold s1; simpl; by rewrite lookup_alter_ne).
  set (s1' := upd_heap (alter (fun y => lf_with_next y (lf_next xo)) lock) s1).
  assert (H1' : ls_heap s1' !! o = Some (lf_with_end xo e)).
  { unfold s1', s1. simpl. by rewrite lookup_alter_ne, lookup_alter_eq, Hxo by done. }
  set (s2 := upd_heap (alter (fun y => lf_with_next y (Some lock)) o) s1').
  destruct (after_two s2 (lf_with_end x e) (lf_with_next (lf_with_end xo e) (Some lock))) as (s' & gm' & wm' & Hrun & Hev);
    try done.
  - unfold s2. simpl in *. by rewrite lookup_alter_eq, H1'.
  - by rewrite <- Ex.
  - unfold s2, s1', s1. simpl. by rewrite lookup_alter_ne, lookup_alter_eq, lookup_alter_ne, Hko by done.
  - intros m Hmo Hmk. unfold s2, s1', s1. simpl. by rewrite !lookup_alter_ne by done.
  - exists s', gm', wm'. rewrite <- Ee'. split; [|done].
    assert (E1 : (lf_start xo =? lf_start ko) = false) by (apply Z.eqb_neq; rewrite <- Ex, <- Ek in Es; exact Es).
    assert (E2 : (lf_end xo =? lf_end ko) = true) by (apply Z.eqb_eq; rewrite <- Ex, <- Ek in Ee; exact Ee).
    unfold lf_split, kbind. rewrite (getl_run s o xo), (getl_run s lock ko) by done. rewrite E1, E2.
    rewrite (modl_run s o xo) by done. fold e s1. rewrite (modl_run s1 lock ko) by done. fold s1'.
    by rewrite (modl_run s1' o _ _ H1').
Qed.

(** [lf_split] into three: a new lock takes the end of [o]. *)
Lemma turn_split_three :
  lf_start x <> lf_start k -> lf_end x <> lf_end k ->
  exists s' gm' wm' sp, (do! lf_split o lock in lf_wakelock o)%kern s = Some (tt, s') /\
    evolves G ip s gm wm s' gm' wm' /\
    gm' ip = pre ++ (o, lf_with_end x (s32 (lf_start k - 1))) :: (lock, k) ::
               (sp, lf_with_start x (s32 (lf_end k + 1))) :: r.
Proof.
  intros Es Ee. destruct cut_facts as (Ex & Ek & Ix & En & Hne).
  set (e := s32 (lf_start ko - 1)).
  assert (Ee1 : e = s32 (lf_start k - 1)) by (unfold e; by rewrite <- Ek).
  set (st := s32 (lf_end ko + 1)). assert (Ee2 : st = s32 (lf_end k + 1)) by (unfold st; by rewrite <- Ek).
  set (sp := fresh (dom (ls_heap s))). set (y := lf_with_block (lf_with_start xo st) None).
  assert (Hsp : ls_heap s !! sp = None) by (apply not_elem_of_dom, is_fresh).
  assert (Hspo : sp <> o) by congruence. assert (Hspk : sp <> lock) by congruence.
  set (s0 := upd_heap (<[sp := y]>) s).
  set (s1 := upd_heap (alter (fun y => lf_with_end y e) o) s0).
  set (s1a := upd_heap (alter (fun y => lf_with_next y (lf_next xo)) sp) s1).
  set (s1b := upd_heap (alter (fun y => lf_with_next y (Some sp)) lock) s1a).
  set (s2 := upd_heap (alter (fun y => lf_with_next y (Some lock)) o) s1b).
  assert (H0o : ls_heap s0 !! o = Some xo) by (unfold s0; simpl; by rewrite lookup_insert_ne).
  assert (H1s : ls_heap s1 !! sp = Some y) by (unfold s1, s0; simpl; by rewrite lookup_alter_ne, lookup_insert_eq by done).
  assert (H1k : ls_heap s1a !! lock = Some ko).
  { unfold s1a, s1, s0. simpl. by rewrite !lookup_alter_ne, lookup_insert_ne by done. }
  assert (H1o : ls_heap s1b !! o = Some (lf_with_end xo e)).
  { unfold s1b, s1a, s1, s0. simpl. by rewrite !lookup_alter_ne, lookup_alter_eq, lookup_insert_ne, Hxo by done. }
  assert (H2o : ls_heap s2 !! o = Some (lf_with_next (lf_with_end xo e) (Some lock))).
  { unfold s2. simpl in *. by rewrite lookup_alter_eq, H1o. }
  assert (H2k : ls_heap s2 !! lock = Some (lf_with_next ko (Some sp))).
  { unfold s2, s1b. simpl in *. by rewrite lookup_alter_ne, lookup_alter_eq, H1k by done. }
  assert (H2s : ls_heap s2 !! sp = Some (lf_with_next y (lf_next xo))).
  { unfold s2, s1b, s1a. simpl in *. by rewrite !lookup_alter_ne, lookup_alter_eq, H1s by done. }
  assert (Hsame : forall m, m <> o -> m <> lock -> m <> sp -> ls_heap s2 !! m = ls_heap s !! m).
  { intros m Hmo Hmk Hms. unfold s2, s1b, s1a, s1, s0. simpl. by rewrite !lookup_alter_ne, lookup_insert_ne by done. }
  set (ns := [(lock, k); (sp, lf_with_start x st)]).
  assert (Hns : forall l d, (l, d) ∈ ns -> dat s2 l = Some d /\ lf_inode d = ip /\ ~ granted gm l /\
    (forall l0, l ∉ wm l0) /\ (G l \/ ls_heap s !! l = None)).
  { intros l d Hin. unfold ns in Hin. apply elem_of_cons in Hin as [[= -> ->]|Hin].
    - split_and!; auto. unfold dat. rewrite H2k. simpl. by rewrite <- Ek.
    - apply list_elem_of_singleton in Hin as [= -> ->]. split_and!; auto.
      + unfold dat. rewrite H2s. simpl. by rewrite <- Ex.
      + intros Hgr. destruct (granted_alloc s gm sp Hl Hgr) as [z Hz]. congruence.
      + intros l0 Hin. destruct (bl_host _ _ _ Hb l0 sp Hin) as (_ & [z Hz] & _). congruence. }
  assert (Hheap : forall m, m <> o -> m ∉ ns.*1 -> m ∉ ([] : list loc) -> ls_heap s2 !! m = ls_heap s !! m).
  { intros m Hmo Hm _. apply Hsame; [done|..]; intros ->; apply Hm; simpl; [left|right; left]. }
  assert (Hnil : forall m, m ∈ ([] : list loc) -> ~ granted gm m /\ (forall l, m ∉ wm l) /\ G m)
    by (intros m Hm; by apply elem_of_nil in Hm).
  assert (Hb2 : blocks None s2 wm).
  { apply (blocks_same None s0); [by apply blocks_new|done|]. intros m. unfold block_of.
    destruct (decide (m = o)) as [->|]; [by rewrite H2o, H0o|].
    destruct (decide (m = lock)) as [->|]; [rewrite H2k; unfold s0; simpl; by rewrite lookup_insert_ne, Hko|].
    destruct (decide (m = sp)) as [->|]; [rewrite H2s; unfold s0; simpl; by rewrite lookup_insert_eq|].
    rewrite Hsame by done. unfold s0. simpl. by rewrite lookup_insert_ne. }
  destruct (turn_after s gm wm ip pre G o x (lf_with_end x e) ns r [] s2) as (s' & gm' & wm' & Hrun & Hev);
    try done.
  - split; [|done]. unfold dat. rewrite H2o. simpl. by rewrite <- Ex.
  - unfold ns. simpl. apply NoDup_cons. split; [|apply NoDup_singleton].
    intros Hin. by apply list_elem_of_singleton in Hin.
  - split; [change (next_of s2 o = Some (Some lock)); unfold next_of; by rewrite H2o|].
    split; [change (next_of s2 lock = Some (Some sp)); unfold next_of; by rewrite H2k|].
    apply (rest_chain s gm wm ip pre G o x ns r [] s2); try done.
    change (next_of s2 sp = Some (head r.*1)). unfold next_of. rewrite H2s. simpl. by rewrite En.
  - unfold next_of. by rewrite H2o.
  - exists s', gm', wm', sp. rewrite <- Ee1, <- Ee2. split; [|done].
    assert (E1 : (lf_start xo =? lf_start ko) = false) by (apply Z.eqb_neq; rewrite <- Ex, <- Ek in Es; exact Es).
    assert (E2 : (lf_end xo =? lf_end ko) = false) by (apply Z.eqb_neq; rewrite <- Ex, <- Ek in Ee; exact Ee).
    unfold lf_split, mallocl, kbind, kget, kmod, kret. rewrite (getl_run s o xo), (getl_run s lock ko) by done. rewrite E1, E2.
    fold sp st e y s0. rewrite (modl_run s0 o xo) by done. fold s1. rewrite (modl_run s1 sp y) by done. fold s1a.
    rewrite (modl_run s1a lock ko) by done. fold s1b. by rewrite (modl_run s1b o _ _ H1o).
Qed.
End Cut.

(** *** A lock without waiters is cut, removed or split *)

Section Quiet.
Context (s : lst) (gm : loc -> locks) (wm : loc -> list loc) (ip : loc) (pre : locks) (G : loc -> Prop).
Context (un : loc) (u : lockf) (o : loc) (x : lockf) (r : locks) (xo uo : lockf).
Hypothesis Hl : lists s gm.
Hypothesis Hb : blocks None s wm.
Hypothesis Hw : waits s gm wm.
Hypothesis Hip : is_Some (ls_lockf s !! ip).
Hypothesis HG : forall m, granted gm m -> G m.
Hypothesis HGu : G un.
Hypothesis Hg : gm ip = pre ++ (o, x) :: r.
Hypothesis Hq : wm o = [].
Hypothesis Hxo : ls_heap s !! o = Some xo.
Hypothesis Huo : ls_heap s !! un = Some uo.
Hypothesis Hu : dat s un = Some u.
Hypothesis Hug : ~ granted gm un.
Hypothesis Huw : forall l, un ∉ wm l.

Lemma quiet_facts : data xo = x /\ data uo = u /\ lf_inode x = ip /\ lf_next xo = head r.*1 /\ un <> o.
Proof.
  assert (Hin : (o, x) ∈ gm ip) by (rewrite Hg; apply elem_of_app; right; left).
  destruct (li_data _ _ Hl ip o x Hin) as [D I]. rewrite (dat_inode s o xo) in D by done.
  rewrite (dat_inode s un uo) in Hu by done. split_and!; [congruence|congruence|done|..].
  - pose proof (item_next s gm ip pre Hl Hip o x r _ Hg eq_refl) as Hn. unfold next_of in Hn.
    rewrite Hxo in Hn. by injection Hn.
  - intros E. apply Hug. rewrite E. exists ip. by apply (list_elem_of_fmap_2 fst) in Hin.
Qed.

Lemma quiet_modify f x' :
  data (f xo) = x' -> lf_next (f xo) = lf_next xo -> lf_block (f xo) = lf_block xo -> lf_inode x' = ip ->
  exists s' gm', modl o f s = Some (tt, s') /\ evolves G ip s gm wm s' gm' wm /\ gm' ip = pre ++ (o, x') :: r /\
    dat s' un = dat s un.
Proof.
  intros Hf Hfn Hfb Hi. destruct quiet_facts as (Ex & Eu & Ix & En & Hne). set (s' := upd_heap (alter f o) s).
  assert (Ho : ls_heap s' !! o = Some (f xo)) by (unfold s'; simpl; by rewrite lookup_alter_eq, Hxo).
  assert (Hsame : forall m, m <> o -> ls_heap s' !! m = ls_heap s !! m).
  { intros m Hm. unfold s'. simpl. by rewrite lookup_alter_ne. }
  assert (Hnil : forall m, m ∈ ([] : list loc) -> ~ granted gm m /\ (forall l, m ∉ wm l) /\ G m)
    by (intros m Hm; by apply elem_of_nil in Hm).
  assert (Hns : forall l d, (l, d) ∈ ([] : locks) -> dat s' l = Some d /\ lf_inode d = ip /\ ~ granted gm l /\
    (forall l0, l ∉ wm l0) /\ (G l \/ ls_heap s !! l = None)) by (intros l d Hin; by apply elem_of_nil in Hin).
  destruct (quiet_after s gm wm ip pre G o x x' [] r [] s') as (gm' & Hev & Hgm); try done.
  - apply (blocks_same None s); [done|done|]. intros m. unfold block_of.
    destruct (decide (m = o)) as [->|]; [rewrite Ho, Hxo; simpl; by rewrite Hfb|by rewrite Hsame].
  - intros m Hm _ _. by apply Hsame.
  - split; [|done]. unfold dat. rewrite Ho. simpl. by rewrite Hf.
  - apply NoDup_nil_2.
  - apply (rest_chain s gm wm ip pre G o x [] r [] s'); try done; [intros m Hm _ _; by apply Hsame|].
    unfold next_of. rewrite Ho. simpl. by rewrite Hfn, En.
  - unfold next_of. rewrite Ho. simpl. by rewrite Hfn, En.
  - exists s', gm'. split_and!; try done; [by apply (modl_run s o xo)|]. unfold dat. by rewrite Hsame.
Qed.

Lemma quiet_remove :
  exists s' gm', (do! lk_store (lf_link ip) (endp PHead pre.*1) (lf_next xo) in freel o)%kern s = Some (tt, s') /\
    evolves G ip s gm wm s' gm' wm /\ gm' ip = pre ++ r /\ dat s' un = dat s un.
Proof.
  destruct quiet_facts as (Ex & Eu & Ix & En & Hne). rewrite En.
  pose proof (pre_get s gm ip pre Hl Hip ((o, x) :: r) Hg) as Hpp.
  set (s2 := lk_set (lf_link ip) (endp PHead pre.*1) (head r.*1) s).
  assert (Hrl : relinked ip (endp PHead pre.*1) [] s s2) by apply relinked_store.
  assert (Hpp2 : lk_get (lf_link ip) (endp PHead pre.*1) s2 = Some (head r.*1)).
  { unfold s2. rewrite lk_get_set by (rewrite Hpp; eauto). by rewrite decide_True. }
  pose proof (lists_remove s gm ip pre Hl Hip s2 [(o, x)] r Hg Hrl Hpp2) as Hl2.
  set (gm2 := fupd gm ip (pre ++ r)) in *.
  assert (Hb2 : blocks None s2 wm) by (by apply (blocks_relinked ip (endp PHead pre.*1) [] s)).
  assert (Hng : ~ granted gm2 o).
  { apply (o_out s gm ip pre o x r Hl Hg gm2 (pre ++ r)); [done|]. by apply (o_notin s gm ip pre o x r). }
  assert (Ho : granted gm o) by (exists ip; rewrite Hg, fmap_app; apply elem_of_app; right; left).
  assert (Hon : forall l, o ∉ wm l) by (intros l Hin; by apply (wa_apart _ _ _ Hw l o)).
  destruct (free_contained s2 gm2 wm None o Hl2 Hb2 ltac:(by left) Hq Hon Hng) as [Hl3 Hb3].
  assert (Hd2 : forall m, dat s2 m = dat s m) by (intros m; by rewrite (rl_dat _ _ _ _ _ Hrl)).
  destruct (dat_is_Some s2 o (data xo)) as (y & Hy & _); [rewrite Hd2; by apply dat_inode|].
  assert (Hgr : forall m, granted gm2 m -> granted gm m).
  { intros m Hm. apply granted_fupd in Hm as [?|Hm]; [done|]. exists ip. rewrite Hg, fmap_app in *.
    rewrite elem_of_app in *. destruct Hm; [by left|right; by right]. }
  exists (upd_heap (delete o) s2), gm2. split; [|split; [|split; [unfold gm2; by rewrite fupd_eq|]]].
  3: { unfold dat at 1. simpl. rewrite lookup_delete_ne by done. apply Hd2. }
  { rewrite (kbind_run _ s tt s2) by (apply store_run; rewrite Hpp; eauto). by apply (freel_run s2 o y). }
  split; try done.
  - apply (waits_mono s gm wm); try done; [intros m l w Hm _ _; by apply Hgr|..].
    + intros l w Hin. unfold dat. simpl. rewrite lookup_delete_ne; [apply Hd2|]. intros <-. by apply (Hon l).
    + intros l w Hin. exists l. split; [done|]. intros jp d z Hd Hc. exists jp, d. split; [|done].
      assert (Hlo : l <> o) by (intros ->; rewrite Hq in Hin; by apply elem_of_nil in Hin).
      unfold gm2. destruct (decide (jp = ip)) as [->|]; [rewrite fupd_eq|by rewrite fupd_ne].
      rewrite Hg in Hd. apply elem_of_app in Hd as [?|Hd]; apply elem_of_app; [by left|right].
      by apply elem_of_cons in Hd as [[= -> ->]|?].
  - intros jp Hj. unfold gm2. by rewrite fupd_ne.
  - apply (frame_trans G s s2); [|by apply frame_delete, HG].
    apply (frame_relinked G ip (endp PHead pre.*1) []); try done; [by intros m Hm; apply elem_of_nil in Hm|..].
    + intros m. by apply (pp_in_G gm ip pre G HG ((o, x) :: r)).
    + by apply (relinked_lockf s gm ip pre Hip s2 [] ((o, x) :: r)).
  - eauto.
  - intros m Hm. left. by apply HG, Hgr.
Qed.

Abbreviation cut_out := (do! lf_split o un in let! u := getl un in
  modl o (fun z => lf_with_next z (lf_next u)))%kern (only parsing).

(** The state left when [un] has been split out of [o]. *)
Lemma quiet_cut s2 yo x' ns :
  ls_heap s2 !! o = Some yo -> data yo = x' -> lf_block yo = lf_block xo -> lf_inode x' = ip ->
  (forall m, m <> o -> m ∉ ns.*1 -> m ∉ [un] -> ls_heap s2 !! m = ls_heap s !! m) ->
  ls_lockf s2 = ls_lockf s -> ls_wchan s2 = ls_wchan s -> blocks None s2 wm ->
  (ns = [] /\ lf_next yo = head r.*1 \/ exists sp y, ns = [(sp, data y)] /\ lf_next yo = Some sp /\
     ls_heap s2 !! sp = Some y /\ lf_next y = head r.*1 /\ lf_inode y = ip /\ ls_heap s !! sp = None) ->
  exists gm', evolves G ip s gm wm s2 gm' wm /\ gm' ip = pre ++ (o, x') :: ns ++ r.
Proof.
  intros H2o Ed Ebl Ei Hheap Hlf2 Hwc2 Hb2 Hn. destruct quiet_facts as (Ex & Eu & Ix & En & Hne).
  assert (Hex : forall m, m ∈ [un] -> ~ granted gm m /\ (forall l, m ∉ wm l) /\ G m)
    by (intros m Hm; apply list_elem_of_singleton in Hm as ->; auto).
  assert (Hns : forall l d, (l, d) ∈ ns -> dat s2 l = Some d /\ lf_inode d = ip /\ ~ granted gm l /\
    (forall l0, l ∉ wm l0) /\ (G l \/ ls_heap s !! l = None)).
  { intros l d Hin. destruct Hn as [[-> _]|(sp & y & -> & _ & Hy & _ & Hyi & Hsp)]; [by apply elem_of_nil in Hin|].
    apply list_elem_of_singleton in Hin as [= -> ->]. split_and!; auto.
    - unfold dat. by rewrite Hy.
    - intros Hgr. destruct (granted_alloc s gm sp Hl Hgr) as [z Hz]. congruence.
    - intros l0 Hin. destruct (bl_host _ _ _ Hb l0 sp Hin) as (_ & [z Hz] & _). congruence. }
  assert (Hnext : next_of s2 o = Some (head (ns ++ r).*1)).
  { unfold next_of. rewrite H2o. simpl. by destruct Hn as [[-> ->]|(sp & y & -> & -> & _)]. }
  apply (quiet_after s gm wm ip pre G o x x' ns r [un] s2); try done.
  - split; [|done]. unfold dat. rewrite H2o. simpl. by rewrite Ed.
  - destruct Hn as [[-> _]|(sp & y & -> & _)]; [apply NoDup_nil_2|apply NoDup_singleton].
  - destruct Hn as [[-> _]|(sp & y & E & _ & Hy & Hyn & _)].
    + by apply (rest_chain s gm wm ip pre G o x [] r [un] s2).
    + rewrite E in *. split; [done|]. apply (rest_chain s gm wm ip pre G o x [(sp, data y)] r [un] s2); try done.
      change (next_of s2 sp = Some (head r.*1)). unfold next_of. rewrite Hy. simpl. by rewrite Hyn.
Qed.

(** The tests of [lf_split] read the range from the heap. *)
Lemma split_tests :
  (lf_start x <> lf_start u -> (lf_start xo =? lf_start uo) = false) /\
  lf_end xo = lf_end x /\ lf_start uo = lf_start u /\ lf_end uo = lf_end u.
Proof.
  destruct quiet_facts as (Ex & Eu & _). rewrite <- Ex, <- Eu. split_and!; try done.
  intros Hs. by apply Z.eqb_neq.
Qed.

(** The range ends where [o] does. *)
Lemma quiet_split_two :
  lf_start x <> lf_start u -> lf_end x = lf_end u ->
  exists s' gm', cut_out s = Some (tt, s') /\ evolves G ip s gm wm s' gm' wm /\
    gm' ip = pre ++ (o, lf_with_end x (s32 (lf_start u - 1))) :: r /\ dat s' un = dat s un.
Proof.
  intros Hs Ee. destruct quiet_facts as (Ex & Eu & Ix & En & Hne). destruct split_tests as (Es & E2 & E3 & E4).
  specialize (Es Hs). set (e := s32 (lf_start u - 1)). unfold lf_split.
  set (s1 := upd_heap (alter (fun y => lf_with_end y e) o) s).
  set (s1a := upd_heap (alter (fun y => lf_with_next y (lf_next xo)) un) s1).
  set (s1b := upd_heap (alter (fun y => lf_with_next y (Some un)) o) s1a).
  set (s2 := upd_heap (alter (fun y => lf_with_next y (lf_next xo)) o) s1b).
  assert (H1u : ls_heap s1 !! un = Some uo) by (unfold s1; simpl; by rewrite lookup_alter_ne).
  assert (H1o : ls_heap s1a !! o = Some (lf_with_end xo e))
    by (unfold s1a, s1; simpl; by rewrite lookup_alter_ne, lookup_alter_eq, Hxo by done).
  assert (H1b : ls_heap s1b !! un = Some (lf_with_next uo (lf_next xo)))
    by (unfold s1b, s1a; simpl in *; by rewrite lookup_alter_ne, lookup_alter_eq, H1u by done).
  assert (H1bo : ls_heap s1b !! o = Some (lf_with_next (lf_with_end xo e) (Some un)))
    by (unfold s1b; simpl in *; by rewrite lookup_alter_eq, H1o).
  assert (Hsame : forall m, m <> o -> m <> un -> ls_heap s2 !! m = ls_heap s !! m).
  { intros m Hm1 Hm2. unfold s2, s1b, s1a, s1. simpl. by rewrite !lookup_alter_ne by done. }
  assert (H2o : ls_heap s2 !! o = Some (lf_with_next (lf_with_end xo e) (lf_next xo)))
    by (unfold s2; simpl in *; by rewrite lookup_alter_eq, H1bo).
  assert (H2u : ls_heap s2 !! un = Some (lf_with_next uo (lf_next xo)))
    by (unfold s2; simpl in *; by rewrite lookup_alter_ne by done).
  destruct (quiet_cut s2 _ (lf_with_end x e) [] H2o) as (gm' & Hev & Hgm); try done; [by rewrite <- Ex|..].
  - intros m Hm1 _ Hm2. apply Hsame; [done|]. intros ->. apply Hm2. left.
  - apply (blocks_same None s); [done|done|]. intros m. unfold block_of.
    destruct (decide (m = o)) as [->|]; [by rewrite H2o, Hxo|].
    destruct (decide (m = un)) as [->|]; [by rewrite H2u, Huo|by rewrite Hsame].
  - by left.
  - exists s2, gm'. split; [|split; [done|split; [done|unfold dat; by rewrite H2u, Huo]]]. unfold kbind. rewrite (getl_run s o xo), (getl_run s un uo) by done.
    rewrite Es, E2, E4, Ee, Z.eqb_refl, E3. rewrite (modl_run s o xo) by done. fold e s1.
    rewrite (modl_run s1 un uo) by done. fold s1a. rewrite (modl_run s1a o _ _ H1o). fold s1b.
    rewrite (getl_run s1b un _ H1b). by rewrite (modl_run s1b o _ _ H1bo).
Qed.

(** A new lock takes the end of [o]. *)
Lemma quiet_split_three :
  lf_start x <> lf_start u -> lf_end x <> lf_end u ->
  exists s' gm' sp, cut_out s = Some (tt, s') /\ evolves G ip s gm wm s' gm' wm /\
    gm' ip = pre ++ (o, lf_with_end x (s32 (lf_start u - 1))) :: (sp, lf_with_start x (s32 (lf_end u + 1))) :: r /\
    dat s' un = dat s un.
Proof.
  intros Hs Ee. destruct quiet_facts as (Ex & Eu & Ix & En & Hne). destruct split_tests as (Es & E2 & E3 & E4).
  specialize (Es Hs). set (e := s32 (lf_start u - 1)). unfold lf_split.
  set (st := s32 (lf_end u + 1)). set (sp := fresh (dom (ls_heap s))).
  set (y := lf_with_block (lf_with_start xo st) None).
  assert (Hsp : ls_heap s !! sp = None) by (apply not_elem_of_dom, is_fresh).
  assert (Hspo : sp <> o) by congruence. assert (Hspu : sp <> un) by congruence.
  set (s0 := upd_heap (<[sp := y]>) s).
  set (s1 := upd_heap (alter (fun y => lf_with_end y e) o) s0).
  set (s1a := upd_heap (alter (fun y => lf_with_next y (lf_next xo)) sp) s1).
  set (s1b := upd_heap (alter (fun y => lf_with_next y (Some sp)) un) s1a).
  set (s1c := upd_heap (alter (fun y => lf_with_next y (Some un)) o) s1b).
  set (s2 := upd_heap (alter (fun y => lf_with_next y (Some sp)) o) s1c).
  assert (H0o : ls_heap s0 !! o = Some xo) by (unfold s0; simpl; by rewrite lookup_insert_ne).
  assert (H1s : ls_heap s1 !! sp = Some y) by (unfold s1, s0; simpl; by rewrite lookup_alter_ne, lookup_insert_eq by done).
  assert (H1u : ls_heap s1a !! un = Some uo).
  { unfold s1a, s1, s0. simpl. by rewrite !lookup_alter_ne, lookup_insert_ne by done. }
  assert (H1o : ls_heap s1b !! o = Some (lf_with_end xo e)).
  { unfold s1b, s1a, s1, s0. simpl. by rewrite !lookup_alter_ne, lookup_alter_eq, lookup_insert_ne, Hxo by done. }
  assert (H1co : ls_heap s1c !! o = Some (lf_with_next (lf_with_end xo e) (Some un)))
    by (unfold s1c; simpl in *; by rewrite lookup_alter_eq, H1o).
  assert (H1cu : ls_heap s1c !! un = Some (lf_with_next uo (Some sp)))
    by (unfold s1c, s1b; simpl in *; by rewrite lookup_alter_ne, lookup_alter_eq, H1u by done).
  assert (H2o : ls_heap s2 !! o = Some (lf_with_next (lf_with_end xo e) (Some sp)))
    by (unfold s2; simpl in *; by rewrite lookup_alter_eq, H1co).
  assert (H2u : ls_heap s2 !! un = Some (lf_with_next uo (Some sp)))
    by (unfold s2; simpl in *; by rewrite lookup_alter_ne by done).
  assert (H2s : ls_heap s2 !! sp = Some (lf_with_next y (lf_next xo))).
  { unfold s2, s1c, s1b, s1a. simpl in *. by rewrite !lookup_alter_ne, lookup_alter_eq, H1s by done. }
  assert (Hsame : forall m, m <> o -> m <> un -> m <> sp -> ls_heap s2 !! m = ls_heap s !! m).
  { intros m Hmo Hmk Hms. unfold s2, s1c, s1b, s1a, s1, s0. simpl. by rewrite !lookup_alter_ne, lookup_insert_ne by done. }
  destruct (quiet_cut s2 _ (lf_with_end x e) [(sp, data (lf_with_next y (lf_next xo)))] H2o) as (gm' & Hev & Hgm);
    try done; [by rewrite <- Ex|..].
  - intros m Hm1 Hm3 Hm2. apply Hsame; [done|..]; intros ->; [apply Hm2|apply Hm3]; simpl; left.
  - apply (blocks_same None s0); [by apply blocks_new|done|]. intros m. unfold block_of.
    destruct (decide (m = o)) as [->|]; [by rewrite H2o, H0o|].
    destruct (decide (m = un)) as [->|]; [rewrite H2u; unfold s0; simpl; by rewrite lookup_insert_ne, Huo|].
    destruct (decide (m = sp)) as [->|]; [rewrite H2s; unfold s0; simpl; by rewrite lookup_insert_eq|].
    rewrite Hsame by done. unfold s0. simpl. by rewrite lookup_insert_ne.
  - right. exists sp, (lf_with_next y (lf_next xo)). split_and!; try done. change (lf_inode xo = ip).
    by rewrite <- Ix, <- Ex.
  - exists s2, gm', sp. split; [|split; [done|split; [|unfold dat; by rewrite H2u, Huo]]].
    + unfold kbind, mallocl, kget, kmod, kret. rewrite (getl_run s o xo), (getl_run s un uo) by done.
      rewrite Es, E2, E4. rewrite (proj2 (Z.eqb_neq _ _) Ee). unfold kbind. rewrite E3. fold st sp y e s0.
      rewrite (modl_run s0 o xo) by done. fold s1. rewrite (modl_run s1 sp y) by done. fold s1a.
      rewrite (modl_run s1a un uo) by done. fold s1b. rewrite (modl_run s1b o _ _ H1o). fold s1c.
      rewrite (getl_run s1c un _ H1cu). by rewrite (modl_run s1c o _ _ H1co).
    + rewrite Hgm. simpl. rewrite <- Ex. done.
Qed.
End Quiet.
