(* ===== verification/LockfLoops.v ===== *)
(** * The loops of [lf_setlock] and [lf_clearlock]

    Turn by turn, [grant_loop] computes [ins] and [clear_loop] computes [del]. *)

From S2P Require Import Prelude Chain Lockf LockfSpec LockfHeap LockfGrant.

(** A run of statements, and what follows it. *)
Lemma seq_run {S A B C D} (m1 : K S A) (m2 : K S B) (m3 : K S C) (f : K S D) s c s' :
  (do! m1 in do! m2 in m3)%kern s = Some (c, s') -> (do! m1 in do! m2 in do! m3 in f)%kern s = f s'.
Proof.
  unfold kbind. destruct (m1 s) as [[a s1]|]; [|done]. destruct (m2 s1) as [[b s2]|]; [|done]. by intros ->.
Qed.

Lemma seq4_run {S A B C D E} (m1 : K S A) (m2 : K S B) (m3 : K S C) (m4 : K S D) (f : K S E) s c s' :
  (do! m1 in do! m2 in do! m3 in m4)%kern s = Some (c, s') ->
  (do! m1 in do! m2 in do! m3 in do! m4 in f)%kern s = f s'.
Proof.
  unfold kbind. destruct (m1 s) as [[a s1]|]; [|done]. destruct (m2 s1) as [[b s2]|]; [|done].
  destruct (m3 s2) as [[d s3]|]; [|done]. by intros ->.
Qed.

(** Only the data of the range matters to [lf_findoverlap]. *)
Lemma findoverlap_data x ty s : forall fuel lf prev,
  lf_findoverlap fuel lf (data x) ty prev s = lf_findoverlap fuel lf x ty prev s.
Proof.
  induction fuel as [|fuel IH]; intros [l|] prev; try done. simpl. unfold kbind.
  destruct (getl l s) as [[y s']|] eqn:E; [|done].
  assert (s' = s) as ->. { unfold getl in E. apply kderef_Some in E. tauto. }
  unfold skips. destruct ty; simpl; (destruct (bool_decide _); [apply IH|]);
    destruct (overlap_case _ _ _ _) as [[]|]; try done; try apply IH; destruct (_ && _); done || apply IH.
Qed.

Lemma evolves_refl G ip s gm wm :
  lists s gm -> blocks None s wm -> waits s gm wm -> (forall m, granted gm m -> G m) ->
  evolves G ip s gm wm s gm wm.
Proof. intros H1 H2 H3 H4. split; eauto. apply frame_refl. Qed.

(** The list a loop works on, after the part [pre] it has passed. *)
Record at_list (G : loc -> Prop) (ip : loc) (s : lst) (gm : loc -> locks) (wm : loc -> list loc)
    (pre rest : locks) : Prop := {
  al_lists : lists s gm;
  al_blocks : blocks None s wm;
  al_waits : waits s gm wm;
  al_ip : is_Some (ls_lockf s !! ip);
  al_G m : granted gm m -> G m;
  al_new m : ls_heap s !! m = None -> G m;
  al_gm : gm ip = pre ++ rest;
  al_ok : all_ok rest;
  al_ordered : ordered rest }.

Lemma ordered_app xs ys : ordered (xs ++ ys) -> ordered ys.
Proof. induction xs as [|[l x] xs IH]; [done|]. intros [_ H]. by apply IH. Qed.

Lemma all_ok_app xs ys : all_ok (xs ++ ys) -> all_ok ys.
Proof. intros H l x Hin. apply (H l). apply elem_of_app. by right. Qed.

Lemma evolves_at (G : loc -> Prop) ip s gm wm pre rest s' gm' wm' pre' rest' :
  at_list G ip s gm wm pre rest -> (forall m, G m \/ ~ G m) -> evolves G ip s gm wm s' gm' wm' ->
  gm' ip = pre' ++ rest' -> all_ok rest' -> ordered rest' -> at_list G ip s' gm' wm' pre' rest'.
Proof.
  intros [A1 A2 A3 A4 A5 A6 A7 A8 A9] Hdec [E1 E2 E3 E4 E5 E6 E7] Hg Ha Ho. split; try done.
  - by apply (fr_lockf _ _ _ E5).
  - intros m Hm. destruct (E7 m Hm); auto.
  - intros m Hm. destruct (Hdec m) as [|Hn]; [done|]. destruct (ls_heap s !! m) eqn:E; [|auto].
    destruct (fr_lock _ _ _ E5 m Hn) as [D _]; [by rewrite E|]. unfold dat in D. by rewrite E, Hm in D.
Qed.

Lemma list_size G ip s gm wm pre rest : at_list G ip s gm wm pre rest -> (length rest <= nlocks s)%nat.
Proof.
  intros H. pose proof (li_nodup _ _ (al_lists _ _ _ _ _ _ _ H) ip) as Hnd. rewrite (al_gm _ _ _ _ _ _ _ H), fmap_app in Hnd.
  apply NoDup_app in Hnd as (_ & _ & Hnd). rewrite <- (length_fmap fst). apply NoDup_keys_size; [done|].
  intros l Hl. apply (granted_alloc s gm); [apply H|]. exists ip. rewrite (al_gm _ _ _ _ _ _ _ H), fmap_app.
  apply elem_of_app. by right.
Qed.

(** What [lf_findoverlap] answers at this point. *)
Lemma at_find G ip s gm wm pre rest k :
  at_list G ip s gm wm pre rest -> range_ok k ->
  exists skip rest' c,
    rest = skip ++ rest' /\
    lf_findoverlap (nlocks s) (head rest.*1) k SELF (endp PHead pre.*1) s
      = Some ((c, endp PHead (pre ++ skip).*1, head rest'.*1), s) /\
    (forall sp kl b, ins sp kl k rest b = skip ++ ins sp kl k rest' b) /\
    (forall sp, del sp k rest = skip ++ del sp k rest') /\
    match rest' with [] => c = NoOverlap | (_, x) :: _ => stops k x c end /\
    at_list G ip s gm wm (pre ++ skip) rest'.
Proof.
  intros H Hk. pose proof (list_size _ _ _ _ _ _ _ H) as Hsz. pose proof H as [A1 A2 A3 A4 A5 A6 A7 A8 A9].
  assert (Hch : chain (lf_link ip) s (endp PHead pre.*1) rest.*1).
  { pose proof (li_chain _ _ A1 ip) as Hc. destruct A4 as [v Hv]. rewrite Hv, A7, fmap_app in Hc.
    by apply chain_end in Hc. }
  destruct (find_self s ip k rest (nlocks s) (endp PHead pre.*1)) as (skip & rest' & c & -> & Hrun & Hi & Hd & Hst); try done.
  { intros l d Hin. apply (li_data _ _ A1 ip). rewrite A7. apply elem_of_app. by right. }
  exists skip, rest', c. split_and!; try done.
  - rewrite Hrun. rewrite fmap_app. do 3 f_equal. destruct skip as [|it skip] using rev_ind; [by rewrite app_nil_r|].
    unfold endp. rewrite !fmap_app, app_assoc. simpl. by rewrite !last_snoc.
  - split; try done; [by rewrite A7, app_assoc|by apply all_ok_app in A8|by apply ordered_app in A9].
Qed.

Lemma lock_item G ip s gm wm pre rest l d :
  at_list G ip s gm wm pre rest -> (l, d) ∈ pre ++ rest -> exists y, ls_heap s !! l = Some y /\ data y = d.
Proof. intros H Hin. apply (item_alloc s gm (al_lists _ _ _ _ _ _ _ H) ip). by rewrite (al_gm _ _ _ _ _ _ _ H). Qed.

(** The types a lock can have. *)
Definition typed (x : lockf) : Prop := lf_type x = F_RDLCK \/ lf_type x = F_WRLCK.

Lemma contained_stronger k x :
  lf_id x = lf_id k -> lf_inode x = lf_inode k -> typed k ->
  case_spec Contained (lf_start x) (lf_end x) (lf_start k) (lf_end k) ->
  stronger k x ((lf_type k =? F_RDLCK) && (lf_type x =? F_WRLCK)).
Proof.
  intros Hid Hi Ht (H1 & H2 & _). split_and!; [done|done| |].
  - unfold covers. intros b [H3 H4]. lia.
  - intros Hd Hx. destruct Ht as [Ht|Ht]; [|done]. by rewrite Ht, Hx in Hd.
Qed.

(** The bytes just outside a range that cuts a lock. *)
Lemma s32_after k x : range_ok k -> range_ok x -> ext (lf_end k) < ext (lf_end x) -> s32 (lf_end k + 1) = lf_end k + 1.
Proof.
  intros Hk Hx Hlt. destruct (cut_start k Hk x Hx Hlt) as (Hne & _ & [Hr _]). simpl in Hr.
  apply s32_id. unfold is_s32, OFF_MAX in *. lia.
Qed.

Lemma s32_before k : range_ok k -> s32 (lf_start k - 1) = lf_start k - 1.
Proof. intros [Hr _]. apply s32_id. unfold is_s32, OFF_MAX in *. lia. Qed.

Section Loops.
Context (G : loc -> Prop) (ip lock : loc) (k : lockf).
Hypothesis Hdec : forall m, G m \/ ~ G m.
Hypothesis HGk : G lock.
Hypothesis Hk : range_ok k.
Hypothesis Hki : lf_inode k = ip.
Hypothesis Hkt : typed k.

(** The lock is on the list: the rest of the range is cleared of the owner's locks. *)
Lemma grant_old : forall fuel s gm wm pre rest,
  at_list G ip s gm wm pre rest -> (lock, k) ∈ pre -> past k rest -> (forall l, lock ∉ wm l) ->
  (length rest < fuel)%nat ->
  exists s' gm' wm', grant_loop fuel ip lock (endp PHead pre.*1) (head rest.*1) false s = Some (tt, s') /\
    evolves G ip s gm wm s' gm' wm' /\ forall sp kl, gm' ip = pre ++ ins sp kl k rest false.
Proof.
  induction fuel as [|fuel IH]; intros s gm wm pre rest Hat Hpre Hpast Hkw Hf; [lia|].
  destruct (at_find G ip s gm wm pre rest k Hat Hk) as (skip & rest' & c & -> & Hrun & Hins & _ & Hstop & Hat').
  destruct (lock_item _ _ _ _ _ _ _ lock k Hat') as (ko & Hko & Eko); [rewrite !elem_of_app; auto|].
  assert (Hdk : dat s lock = Some k) by (rewrite <- Eko; by apply dat_inode).
  assert (Hpre' : (lock, k) ∈ pre ++ skip) by (apply elem_of_app; by left).
  assert (Hrange : lf_start k = lf_start ko /\ lf_end k = lf_end ko /\ lf_type k = lf_type ko /\ lf_id k = lf_id ko)
    by (by rewrite <- Eko).
  cbn [grant_loop]. rewrite (kbind_run kget s s s) by done. rewrite (kbind_run (getl lock) s ko s) by (by apply getl_run).
  rewrite (kbind_run _ s (c, endp PHead (pre ++ skip).*1, head rest'.*1) s)
    by (rewrite <- findoverlap_data, Eko; exact Hrun).
  assert (Hpast' : past k rest') by (intros l d Hin; apply (Hpast l); apply elem_of_app; by right).
  assert (Hdone : forall gm', gm' = gm -> (forall sp kl, ins sp kl k rest' false = rest') ->
    forall sp kl, gm' ip = pre ++ ins sp kl k (skip ++ rest') false).
  { intros gm' -> E sp kl. rewrite Hins, E. apply (al_gm _ _ _ _ _ _ _ Hat). }
  pose proof Hat' as [A1 A2 A3 A4 A5 A6 A7 A8 A9].
  destruct rest' as [|[o x] r].
  { subst c. exists s, gm, wm. split; [done|]. split; [by apply evolves_refl|]. by apply Hdone. }
  destruct Hstop as (Hid & Hcase & Hstop). pose proof (proj1 (all_ok_cons o x r) A8) as [Hx Hr].
  pose proof (proj1 (past_cons k o x r) Hpast') as [Hpx Hpr]. specialize (Hpx Hid).
  destruct (lock_item _ _ _ _ _ _ _ o x Hat') as (xo & Hxo & Exo); [rewrite !elem_of_app, elem_of_cons; auto|].
  assert (Hcs : case_spec c (lf_start x) (lf_end x) (lf_start k) (lf_end k)).
  { apply (own_case k Hk x _ Hx). intros c' Hc'. rewrite Hcase in Hc'. by injection Hc' as <-. }
  assert (Eo : ls_heap s !! o = Some xo) by done.
  destruct c; try (simpl in Hcs; lia).
  - (* the first lock after the range *)
    exists s, gm, wm. split; [done|]. split; [by apply evolves_refl|]. apply Hdone; [done|]. intros sp kl. simpl.
    rewrite decide_False by auto. by rewrite Hcase, (Hstop eq_refl).
  - (* contained *)
    rewrite (kbind_run _ s o s) by done. rewrite (kbind_run _ s xo s) by (by apply getl_run).
    destruct (turn_contained s gm wm ip (pre ++ skip) G lock k o x r xo ko
      ((lf_type k =? F_RDLCK) && (lf_type x =? F_WRLCK))) as (s1 & gm1 & wm1 & Hrun1 & Hev1 & Hg1); try done.
    { intros ->. apply (o_notin s gm ip (pre ++ skip) o x r A1 A7). rewrite fmap_app. apply elem_of_app. left.
      by apply (list_elem_of_fmap_2 fst) in Hpre'. }
    { apply contained_stronger; try done. rewrite Hki. apply (li_data _ _ A1 ip o). rewrite A7.
      apply elem_of_app. right. left. }
    assert (En : lf_next xo = head r.*1).
    { pose proof (item_next s gm ip (pre ++ skip) A1 A4 o x r _ A7 eq_refl) as Hn. unfold next_of in Hn.
      rewrite Hxo in Hn. by injection Hn. }
    rewrite <- Eko, <- Exo in Hrun1. rewrite <- En in Hrun1. simpl in Hrun1. rewrite (seq_run _ _ _ _ _ _ _ Hrun1), En.
    assert (Hat1 : at_list G ip s1 gm1 wm1 (pre ++ skip) r).
    { apply (evolves_at G ip s gm wm (pre ++ skip) ((o, x) :: r)); try done. apply A9. }
    destruct (IH s1 gm1 wm1 (pre ++ skip) r Hat1 Hpre' Hpr) as (s2 & gm2 & wm2 & Hrun2 & Hev2 & Hg2).
    { intros l Hin. destruct (ev_wm _ _ _ _ _ _ _ _ Hev1 l lock Hin) as [l0 Hl0]. by apply (Hkw l0). }
    { rewrite length_app in Hf. simpl in Hf. lia. }
    exists s2, gm2, wm2. split; [done|]. split; [by apply (evolves_trans G ip s gm wm s1 gm1 wm1)|].
    intros sp kl. rewrite (Hg2 sp kl), Hins, <- app_assoc. simpl. rewrite decide_False by auto. by rewrite Hcase.
  - (* the range ends inside the lock *)
    rewrite (kbind_run _ s o s) by done. rewrite (kbind_run _ s xo s) by (by apply getl_run).
    destruct Hcs as [Hc1 Hc2]. rewrite (kbind_run (kret tt) s tt s) by done.
    assert (Ho : granted gm o). { exists ip. rewrite A7, fmap_app. apply elem_of_app. right. left. }
    destruct (modify_wake wm ip G s gm (pre ++ skip) o x (lf_with_start x (s32 (lf_end ko + 1)))
      (fun y => lf_with_start y (s32 (lf_end ko + 1))) r) as (s' & Hrun' & Hl' & Hb' & Hf' & Hd' & _); try done.
    { by apply (apart_waits s gm wm). }
    { intros y <-. done. }
    { exact (x_inode s gm ip (pre ++ skip) A1 o x r A7). }
    { by apply A5. }
    set (gm' := fupd gm ip ((pre ++ skip) ++ (o, lf_with_start x (s32 (lf_end ko + 1))) :: r)) in *.
    assert (Hgr : forall m, granted gm' m -> granted gm m).
    { intros m Hm. apply granted_fupd in Hm as [?|Hm]; [done|]. exists ip. rewrite A7, fmap_app in *. exact Hm. }
    exists s', gm', (fupd wm o []). split; [exact Hrun'|]. split.
    + split; try done.
      * apply (waits_woken s gm); [done| |intros m l Hm _; by apply Hgr|].
        -- apply keeps_fupd. intros l d Hne Hin. rewrite A7 in Hin. apply elem_of_app in Hin as [?|Hin];
             apply elem_of_app; [by left|right]. apply elem_of_cons in Hin as [[= -> ->]|?]; [done|by right].
        -- intros l w Hin. apply Hd'. intros ->. by apply (wa_apart _ _ _ A3) in Hin.
      * intros jp Hj. unfold gm'. by rewrite fupd_ne.
      * intros l w Hin. exists l. by apply (subset_upd wm o).
      * intros m Hm. left. auto.
    + intros sp kl. unfold gm'. rewrite fupd_eq, Hins, <- app_assoc. simpl. rewrite decide_False by auto. rewrite Hcase.
      destruct Hrange as (_ & <- & _). by rewrite (s32_after k x Hk Hx Hc2).
Qed.

(** *** A new lock meets a lock of its owner *)

Section Meets.
Context (s : lst) (gm : loc -> locks) (wm : loc -> list loc) (pre r : locks) (o : loc) (x xo ko : lockf) (c : ovcase).
Hypothesis Hat : at_list G ip s gm wm pre ((o, x) :: r).
Hypothesis Hkg : ~ granted gm lock.
Hypothesis Hkw : forall l, lock ∉ wm l.
Hypothesis Hkn : wm lock = [].
Hypothesis Hko : ls_heap s !! lock = Some ko.
Hypothesis Eko : data ko = k.
Hypothesis Hxo : ls_heap s !! o = Some xo.
Hypothesis Exo : data xo = x.
Hypothesis Hstop : stops k x c.

Definition new_result (m : K lst unit) : Prop :=
  exists s' gm' wm' sp, m s = Some (tt, s') /\ evolves G ip s gm wm s' gm' wm' /\
    gm' ip = pre ++ ins sp lock k ((o, x) :: r) true.

Lemma meet_facts :
  range_ok x /\ case_spec c (lf_start x) (lf_end x) (lf_start k) (lf_end k) /\ lf_inode x = ip /\ lock <> o /\
  lf_next xo = head r.*1 /\ dat s lock = Some k /\ gm ip = pre ++ (o, x) :: r.
Proof.
  pose proof Hat as [A1 A2 A3 A4 A5 A6 A7 A8 A9]. destruct Hstop as (Hid & Hcase & _).
  pose proof (proj1 (all_ok_cons o x r) A8) as [Hx Hr]. split_and!; try done.
  - apply (own_case k Hk x _ Hx). intros c' Hc'. rewrite Hcase in Hc'. by injection Hc' as <-.
  - exact (x_inode s gm ip pre A1 o x r A7).
  - intros E. apply Hkg. rewrite E. exists ip. rewrite A7, fmap_app. apply elem_of_app. right. left.
  - pose proof (item_next s gm ip pre A1 A4 o x r _ A7 eq_refl) as Hn. unfold next_of in Hn.
    rewrite Hxo in Hn. by injection Hn.
  - rewrite <- Eko. by apply dat_inode.
Qed.

(** One step of [ins] on a lock of the owner. *)
Lemma ins_own sp b : ins sp lock k ((o, x) :: r) b =
  match c with
  | NoOverlap => if negb (lf_end k =? -1) && (lf_end k <? lf_start x)
    then (if b then (lock, k) :: (o, x) :: r else (o, x) :: r) else (o, x) :: ins sp lock k r b
  | Equal => (o, lf_with_type x (lf_type k)) :: r
  | Contains =>
    if lf_type x =? lf_type k then (o, x) :: r
    else if lf_start x =? lf_start k then (lock, k) :: (o, lf_with_start x (lf_end k + 1)) :: r
    else if lf_end x =? lf_end k then (o, lf_with_end x (lf_start k - 1)) :: (lock, k) :: r
    else (o, lf_with_end x (lf_start k - 1)) :: (lock, k) :: (sp, lf_with_start x (lf_end k + 1)) :: r
  | Contained => if b then (lock, k) :: ins sp lock k r false else ins sp lock k r false
  | StartsBefore => (o, lf_with_end x (lf_start k - 1)) :: (lock, k) :: ins sp lock k r false
  | EndsAfter => if b then (lock, k) :: (o, lf_with_start x (lf_end k + 1)) :: r
    else (o, lf_with_start x (lf_end k + 1)) :: r
  end.
Proof. destruct Hstop as (Hid & Hcase & _). simpl. rewrite decide_False by auto. rewrite Hcase. by destruct c. Qed.

Lemma fields : lf_type xo = lf_type x /\ lf_start xo = lf_start x /\ lf_end xo = lf_end x /\
  lf_start ko = lf_start k /\ lf_end ko = lf_end k /\ lf_type ko = lf_type k.
Proof. by rewrite <- Exo, <- Eko. Qed.

Lemma meet_equal : c = Equal ->
  new_result (do! (if (lf_type ko =? F_RDLCK) && (lf_type xo =? F_WRLCK) then lf_wakelock o else kret tt) in
    do! modl o (fun x => lf_with_type x (lf_type ko)) in freel lock)%kern.
Proof.
  intros Ec. destruct meet_facts as (Hx & Hcs & Hi & Hne & En & Hdk & Hg). destruct fields as (-> & _ & _ & _ & _ & ->).
  destruct Hat as [A1 A2 A3 A4 A5 A6 A7 A8 A9].
  destruct (turn_equal s gm wm ip pre G A1 A2 A3 A4 A5 lock k Hdk Hkg Hkw Hkn HGk o x r Hg (lf_type k)
    ((lf_type k =? F_RDLCK) && (lf_type x =? F_WRLCK))) as (s' & gm' & wm' & H1 & H2 & H3).
  { intros Hd Hxw. destruct Hkt as [Ht|Ht]; [|done]. by rewrite Ht, Hxw in Hd. }
  exists s', gm', wm', 1%positive. split_and!; try done. by rewrite H3, ins_own, Ec.
Qed.

Lemma cut_result m :
  (do! lk_store (lf_link ip) (endp PHead pre.*1) (Some lock) in do! modl lock (fun z => lf_with_next z (Some o)) in
   do! modl o (fun z => lf_with_start z (s32 (lf_end ko + 1))) in lf_wakelock o)%kern s = m s ->
  ext (lf_end k) < ext (lf_end x) ->
  ins 1%positive lock k ((o, x) :: r) true = (lock, k) :: (o, lf_with_start x (lf_end k + 1)) :: r -> new_result m.
Proof.
  intros Hm Hlt Hins. destruct meet_facts as (Hx & Hcs & Hi & Hne & En & Hdk & Hg). destruct fields as (_ & _ & _ & _ & E & _).
  destruct Hat as [A1 A2 A3 A4 A5 A6 A7 A8 A9]. rewrite E, (s32_after k x Hk Hx Hlt) in Hm.
  destruct (turn_cut s gm wm ip pre G A1 A2 A3 A4 A5 lock k Hdk Hki Hkg Hkw HGk o x r Hg
    (lf_with_start x (lf_end k + 1)) (fun z => lf_with_start z (lf_end k + 1))) as (s' & gm' & wm' & H1 & H2 & H3); try done.
  { by intros y <-. }
  exists s', gm', wm', 1%positive. split_and!; [by rewrite <- Hm|done|]. by rewrite H3, Hins.
Qed.

Lemma meet_contains : c = Contains ->
  new_result (if lf_type xo =? lf_type ko then freel lock else
    do! (if lf_start xo =? lf_start ko then
           do! (do! lk_store (lf_link ip) (endp PHead pre.*1) (Some lock) in
                modl lock (fun z => lf_with_next z (Some o))) in
           modl o (fun z => lf_with_start z (s32 (lf_end ko + 1)))
         else lf_split o lock) in
    lf_wakelock o)%kern.
Proof.
  intros Ec. destruct meet_facts as (Hx & Hcs & Hi & Hne & En & Hdk & Hg).
  destruct fields as (Etx & Esx & _ & Esk & _ & Etk). pose proof Hat as [A1 A2 A3 A4 A5 A6 A7 A8 A9].
  rewrite Ec in Hcs. destruct (contains_strict k Hk x Hx Hcs) as (_ & _ & Hle). destruct Hcs as (_ & _ & _ & Hdiff).
  rewrite Etx, Etk. pose proof (fun sp => ins_own sp true) as Hins. rewrite Ec in Hins.
  destruct (Z.eqb_spec (lf_type x) (lf_type k)) as [Et|Et].
  { destruct (turn_free s gm wm ip G A1 A2 A3 A5 lock k Hdk Hkg Hkw Hkn HGk) as (s' & gm' & wm' & H1 & H2 & H3).
    exists s', gm', wm', 1%positive. split_and!; try done. by rewrite H3, Hg, Hins. }
  rewrite Esx, Esk. destruct (Z.eqb_spec (lf_start x) (lf_start k)) as [E1|E1].
  { apply cut_result; [|apply Hle; lia|by rewrite Hins].
    unfold kbind. destruct (lk_store _ _ _ s) as [[[] ?]|]; [|done]. by destruct (modl lock _ _) as [[[] ?]|]. }
  destruct (Z.eqb_spec (lf_end x) (lf_end k)) as [E2|E2].
  - destruct (turn_split_two s gm wm ip pre G lock k o x r xo ko) as (s' & gm' & wm' & H1 & H2 & H3); try done.
    exists s', gm', wm', 1%positive. split_and!; try done. by rewrite H3, Hins, (s32_before k Hk).
  - destruct (turn_split_three s gm wm ip pre G lock k o x r xo ko) as (s' & gm' & wm' & sp & H1 & H2 & H3); try done.
    exists s', gm', wm', sp. split_and!; try done. rewrite H3, Hins, (s32_before k Hk).
    by rewrite (s32_after k x Hk Hx (Hle E2)).
Qed.

(** What follows once the lock is on the list, [grant_old] does. *)
Lemma then_old fuel s1 gm1 wm1 pre1 :
  evolves G ip s gm wm s1 gm1 wm1 -> gm1 ip = pre1 ++ r -> (lock, k) ∈ pre1 -> past k r -> (length r < fuel)%nat ->
  (forall sp, pre ++ ins sp lock k ((o, x) :: r) true = pre1 ++ ins sp lock k r false) ->
  exists s' gm' wm' sp, grant_loop fuel ip lock (endp PHead pre1.*1) (head r.*1) false s1 = Some (tt, s') /\
    evolves G ip s gm wm s' gm' wm' /\ gm' ip = pre ++ ins sp lock k ((o, x) :: r) true.
Proof.
  intros Hev Hg1 Hin Hp Hf Hins. pose proof Hat as [A1 A2 A3 A4 A5 A6 A7 A8 A9].
  assert (Hat1 : at_list G ip s1 gm1 wm1 pre1 r).
  { apply (evolves_at G ip s gm wm pre ((o, x) :: r)); try done; [by apply all_ok_cons in A8 as [_ ?]|apply A9]. }
  destruct (grant_old fuel s1 gm1 wm1 pre1 r Hat1 Hin Hp) as (s2 & gm2 & wm2 & Hrun2 & Hev2 & Hg2); [|done|].
  { intros l Hl. destruct (ev_wm _ _ _ _ _ _ _ _ Hev l lock Hl) as [l0 Hl0]. by apply (Hkw l0). }
  exists s2, gm2, wm2, 1%positive. split; [done|]. split; [by apply (evolves_trans G ip s gm wm s1 gm1 wm1)|].
  by rewrite Hins, (Hg2 1%positive lock).
Qed.

Lemma endp_snoc (xs : locks) l d : endp PHead (xs ++ [(l, d)]).*1 = PNext l.
Proof. unfold endp. rewrite fmap_app. simpl. by rewrite last_snoc. Qed.

Lemma meet_contained fuel : c = Contained -> (length r < fuel)%nat ->
  new_result (do! (if (lf_type ko =? F_RDLCK) && (lf_type xo =? F_WRLCK) then lf_wakelock o
      else do! modl lock (fun y => lf_with_block y (lf_block xo)) in lf_addblock lock (lf_block ko)) in
    do! (do! lk_store (lf_link ip) (endp PHead pre.*1) (Some lock) in
         modl lock (fun z => lf_with_next z (lf_next xo))) in
    do! freel o in grant_loop fuel ip lock (PNext lock) (lf_next xo) false)%kern.
Proof.
  intros Ec Hf. destruct meet_facts as (Hx & Hcs & Hi & Hne & En & Hdk & Hg). pose proof (ext_range x Hx).
  destruct fields as (-> & _ & _ & _ & _ & ->). pose proof Hat as [A1 A2 A3 A4 A5 A6 A7 A8 A9].
  destruct Hstop as (Hid & Hcase & _). rewrite Ec in Hcs. pose proof Hcs as (Hc1 & Hc2 & _).
  destruct (turn_contained_link s gm wm ip pre G lock k o x r xo ko
    ((lf_type k =? F_RDLCK) && (lf_type x =? F_WRLCK))) as (s1 & gm1 & wm1 & Hrun1 & Hev1 & Hg1); try done; [|].
  { apply contained_stronger; try done. congruence. }
  rewrite En. unfold new_result. rewrite (seq_run _ _ _ _ _ _ _ Hrun1).
  rewrite <- (endp_snoc pre lock k). apply (then_old fuel s1 gm1 wm1); try done.
  - by rewrite Hg1, <- app_assoc.
  - apply elem_of_app. right. left.
  - apply (past_tail k o x); [done|done|lia].
  - intros sp. by rewrite ins_own, Ec, <- app_assoc.
Qed.

Lemma meet_starts fuel : c = StartsBefore -> (length r < fuel)%nat ->
  new_result (do! modl lock (fun y => lf_with_next y (lf_next xo)) in
    do! modl o (fun y => lf_with_next y (Some lock)) in
    do! modl o (fun y => lf_with_end y (s32 (lf_start ko - 1))) in
    do! lf_wakelock o in grant_loop fuel ip lock (PNext lock) (lf_next xo) false)%kern.
Proof.
  intros Ec Hf. destruct meet_facts as (Hx & Hcs & Hi & Hne & En & Hdk & Hg). destruct fields as (_ & _ & _ & -> & _ & _).
  pose proof Hat as [A1 A2 A3 A4 A5 A6 A7 A8 A9]. destruct Hstop as (Hid & Hcase & _).
  rewrite Ec in Hcs. destruct Hcs as (Hc1 & Hc2). rewrite (s32_before k Hk).
  destruct (turn_starts s gm wm ip pre G lock k o x r xo ko A1 A2 A3 A4 A5 HGk Hg Hxo Hko Hdk Hki Hkg Hkw (lf_start k - 1))
    as (s1 & gm1 & wm1 & Hrun1 & Hev1 & Hg1).
  unfold new_result. rewrite (seq4_run _ _ _ _ _ _ _ _ Hrun1), En.
  set (pre1 := (pre ++ [(o, lf_with_end x (lf_start k - 1))]) ++ [(lock, k)]).
  replace (PNext lock) with (endp PHead pre1.*1) by apply endp_snoc.
  apply (then_old fuel s1 gm1 wm1); try done.
  - unfold pre1. by rewrite Hg1, <- !app_assoc.
  - apply elem_of_app. right. left.
  - apply (past_tail k o x); [done|done|lia].
  - intros sp. unfold pre1. by rewrite ins_own, Ec, <- !app_assoc.
Qed.

Lemma meet_ends : c = EndsAfter ->
  new_result (do! (do! lk_store (lf_link ip) (endp PHead pre.*1) (Some lock) in
      modl lock (fun z => lf_with_next z (Some o))) in
    do! modl o (fun z => lf_with_start z (s32 (lf_end ko + 1))) in lf_wakelock o)%kern.
Proof.
  intros Ec. destruct meet_facts as (Hx & Hcs & _). rewrite Ec in Hcs. destruct Hcs as [_ Hlt].
  apply cut_result; [|done|by rewrite ins_own, Ec].
  unfold kbind. destruct (lk_store _ _ _ s) as [[[] ?]|]; [|done]. by destruct (modl lock _ _) as [[[] ?]|].
Qed.
End Meets.

(** The lock is on no list: it is linked in, and the owner's locks give way. *)
Lemma grant_new fuel s gm wm pre rest :
  at_list G ip s gm wm pre rest -> dat s lock = Some k -> ~ granted gm lock -> (forall l, lock ∉ wm l) -> wm lock = [] ->
  (length rest < fuel)%nat ->
  exists s' gm' wm' sp, grant_loop fuel ip lock (endp PHead pre.*1) (head rest.*1) true s = Some (tt, s') /\
    evolves G ip s gm wm s' gm' wm' /\ gm' ip = pre ++ ins sp lock k rest true.
Proof.
  destruct fuel as [|fuel]; intros Hat Hdk Hkg Hkw Hkn Hf; [lia|].
  destruct (at_find G ip s gm wm pre rest k Hat Hk) as (skip & rest' & c & -> & Hrun & Hins & _ & Hstop & Hat').
  destruct (dat_is_Some s lock k Hdk) as (ko & Hko & Eko).
  cbn [grant_loop]. rewrite (kbind_run kget s s s) by done. rewrite (kbind_run (getl lock) s ko s) by (by apply getl_run).
  rewrite (kbind_run _ s (c, endp PHead (pre ++ skip).*1, head rest'.*1) s)
    by (rewrite <- findoverlap_data, Eko; exact Hrun).
  pose proof Hat' as [A1 A2 A3 A4 A5 A6 A7 A8 A9].
  assert (Hlink : ins 1%positive lock k rest' true = (lock, k) :: rest' ->
    exists s' gm' wm' sp, (do! lk_store (lf_link ip) (endp PHead (pre ++ skip).*1) (Some lock) in
      modl lock (fun x => lf_with_next x (head rest'.*1)))%kern s = Some (tt, s') /\
    evolves G ip s gm wm s' gm' wm' /\ gm' ip = pre ++ ins sp lock k (skip ++ rest') true).
  { intros E. destruct (turn_link s gm wm ip (pre ++ skip) G A1 A2 A3 A4 A5 lock k Hdk Hki Hkg Hkw HGk rest' A7)
      as (s' & gm' & wm' & H1 & H2 & H3). exists s', gm', wm', 1%positive. split_and!; try done.
    by rewrite H3, Hins, E, <- app_assoc. }
  destruct rest' as [|[o x] r]; [subst c; by apply Hlink|].
  destruct (lock_item _ _ _ _ _ _ _ o x Hat') as (xo & Hxo & Exo); [rewrite !elem_of_app, elem_of_cons; auto|].
  assert (Hf' : (length r < fuel)%nat) by (rewrite length_app in Hf; simpl in Hf; lia).
  assert (Hres : forall m, new_result s gm wm (pre ++ skip) r o x m ->
    exists s' gm' wm' sp, m s = Some (tt, s') /\ evolves G ip s gm wm s' gm' wm' /\
      gm' ip = pre ++ ins sp lock k (skip ++ (o, x) :: r) true).
  { intros m (s' & gm' & wm' & sp & H1 & H2 & H3). exists s', gm', wm', sp. split_and!; try done.
    by rewrite H3, Hins, <- app_assoc. }
  destruct c; [|rewrite (kbind_run _ s o s) by done; rewrite (kbind_run _ s xo s) by (by apply getl_run); apply Hres..].
  - apply Hlink. rewrite (ins_own r o x NoOverlap) by done. by rewrite (proj2 (proj2 Hstop) eq_refl).
  - by apply (meet_equal s gm wm (pre ++ skip) r o x xo ko Equal).
  - by apply (meet_contains s gm wm (pre ++ skip) r o x xo ko Contains).
  - by apply (meet_contained s gm wm (pre ++ skip) r o x xo ko Contained).
  - by apply (meet_starts s gm wm (pre ++ skip) r o x xo ko StartsBefore).
  - by apply (meet_ends s gm wm (pre ++ skip) r o x xo ko EndsAfter).
Qed.
End Loops.

(** ** Clearing *)

Section Clear.
Context (G : loc -> Prop) (ip un : loc) (u : lockf).
Hypothesis Hdec : forall m, G m \/ ~ G m.
Hypothesis HGu : G un.
Hypothesis Hu : range_ok u.

(** Waking the waiters of a lock leaves the lists as they are. *)
Lemma wake_turn s gm wm pre rest o :
  at_list G ip s gm wm pre rest -> granted gm o ->
  exists s1, lf_wakelock o s = Some (tt, s1) /\ at_list G ip s1 gm (fupd wm o []) pre rest /\
    evolves G ip s gm wm s1 gm (fupd wm o []) /\ forall m, dat s1 m = dat s m.
Proof.
  intros Hat Ho. pose proof Hat as [A1 A2 A3 A4 A5 A6 A7 A8 A9].
  destruct (wake_lists s gm wm o G A1 A2 (apart_waits s gm wm A3) Ho) as
    (s1 & Hrun & Hl1 & Hb1 & Hf1 & Hd1 & _ & _ & _ & _).
  assert (Hev : evolves G ip s gm wm s1 gm (fupd wm o [])).
  { split; try done.
    - apply (waits_woken s gm); try done. by intros jp l d _ Hin.
    - intros l w Hin. exists l. by apply (subset_upd wm o).
    - intros m Hm. left. auto. }
  exists s1. split; [done|]. split; [|done].
  by apply (evolves_at G ip s gm wm pre rest).
Qed.

(** *** The turn on one lock, whose waiters have been woken *)

Section Turns.
Context (s : lst) (gm : loc -> locks) (wm : loc -> list loc) (pre r : locks) (o : loc) (x xo uo : lockf) (c : ovcase).
Hypothesis Hat : at_list G ip s gm wm pre ((o, x) :: r).
Hypothesis Hq : wm o = [].
Hypothesis Hug : ~ granted gm un.
Hypothesis Huw : forall l, un ∉ wm l.
Hypothesis Hdu : dat s un = Some u.
Hypothesis Euo : data uo = u.       (* [unlock] as it was read at the start of the turn *)
Hypothesis Hxo : ls_heap s !! o = Some xo.
Hypothesis Exo : data xo = x.
Hypothesis Hstop : stops u x c.

Definition clear_result (m : K lst unit) : Prop :=
  exists s' gm' wm' sp, m s = Some (tt, s') /\ evolves G ip s gm wm s' gm' wm' /\
    gm' ip = pre ++ del sp u ((o, x) :: r) /\ dat s' un = Some u.

Lemma turn_facts :
  range_ok x /\ case_spec c (lf_start x) (lf_end x) (lf_start u) (lf_end u) /\ lf_inode x = ip /\
  gm ip = pre ++ (o, x) :: r /\ lf_next xo = head r.*1 /\
  lf_start xo = lf_start x /\ lf_start uo = lf_start u /\ lf_end uo = lf_end u.
Proof.
  pose proof Hat as [A1 A2 A3 A4 A5 A6 A7 A8 A9]. destruct Hstop as (Hid & Hcase & _).
  pose proof (proj1 (all_ok_cons o x r) A8) as [Hx Hr]. split_and!; try done.
  - apply (own_case u Hu x _ Hx). intros c' Hc'. rewrite Hcase in Hc'. by injection Hc' as <-.
  - exact (x_inode s gm ip pre A1 o x r A7).
  - pose proof (item_next s gm ip pre A1 A4 o x r _ A7 eq_refl) as Hn. unfold next_of in Hn.
    rewrite Hxo in Hn. by injection Hn.
  - by rewrite <- Exo.
  - by rewrite <- Euo.
  - by rewrite <- Euo.
Qed.

Lemma del_own sp : del sp u ((o, x) :: r) =
  match c with
  | NoOverlap => if negb (lf_end u =? -1) && (lf_end u <? lf_start x) then (o, x) :: r else (o, x) :: del sp u r
  | Equal => r
  | Contains =>
    if lf_start x =? lf_start u then (o, lf_with_start x (lf_end u + 1)) :: r
    else if lf_end x =? lf_end u then (o, lf_with_end x (lf_start u - 1)) :: r
    else (o, lf_with_end x (lf_start u - 1)) :: (sp, lf_with_start x (lf_end u + 1)) :: r
  | Contained => del sp u r
  | StartsBefore => (o, lf_with_end x (lf_start u - 1)) :: del sp u r
  | EndsAfter => (o, lf_with_start x (lf_end u + 1)) :: r
  end.
Proof. destruct Hstop as (Hid & Hcase & _). simpl. rewrite decide_False by auto. rewrite Hcase. by destruct c. Qed.

Lemma clear_modify f x' :
  data (f xo) = x' -> lf_next (f xo) = lf_next xo -> lf_block (f xo) = lf_block xo -> lf_inode x' = ip ->
  exists s' gm', modl o f s = Some (tt, s') /\ evolves G ip s gm wm s' gm' wm /\ gm' ip = pre ++ (o, x') :: r /\
    dat s' un = Some u.
Proof.
  intros H1 H2 H3 H4. destruct turn_facts as (Hx & Hcs & Hi & Hg & _). pose proof Hat as [A1 A2 A3 A4 A5 A6 A7 A8 A9].
  destruct (dat_is_Some s un u Hdu) as (u1 & Hu1 & _). rewrite <- Hdu.
  by apply (quiet_modify s gm wm ip pre G un u o x r xo u1 A1 A2 A3 A4 A5 Hg Hq Hxo Hu1 Hdu Hug f x').
Qed.

Lemma clear_cut : ext (lf_end u) < ext (lf_end x) ->
  (forall sp, del sp u ((o, x) :: r) = (o, lf_with_start x (lf_end u + 1)) :: r) ->
  clear_result (modl o (fun z => lf_with_start z (s32 (lf_end uo + 1)))).
Proof.
  intros Hlt Hdel. destruct turn_facts as (Hx & _ & Hi & _ & _ & _ & _ & ->). rewrite (s32_after u x Hu Hx Hlt).
  destruct (clear_modify (fun z => lf_with_start z (lf_end u + 1)) (lf_with_start x (lf_end u + 1)))
    as (s' & gm' & H1 & H2 & H3 & H4); try done; [by rewrite <- Exo|].
  exists s', gm', wm, 1%positive. split_and!; try done. by rewrite H3, Hdel.
Qed.

Lemma clear_equal : c = Equal ->
  clear_result (do! lk_store (lf_link ip) (endp PHead pre.*1) (lf_next xo) in freel o)%kern.
Proof.
  intros Ec. destruct turn_facts as (Hx & Hcs & Hi & Hg & _). pose proof Hat as [A1 A2 A3 A4 A5 A6 A7 A8 A9].
  destruct (dat_is_Some s un u Hdu) as (u1 & Hu1 & _).
  destruct (quiet_remove s gm wm ip pre G un u o x r xo u1 A1 A2 A3 A4 A5 Hg Hq Hxo Hu1 Hdu Hug)
    as (s' & gm' & H1 & H2 & H3 & H4).
  exists s', gm', wm, 1%positive. split_and!; try done; try by rewrite ?H4, ?Hdu. by rewrite H3, del_own, Ec.
Qed.

Lemma clear_contains : c = Contains ->
  clear_result (if lf_start xo =? lf_start uo then modl o (fun z => lf_with_start z (s32 (lf_end uo + 1)))
    else do! lf_split o un in let! u := getl un in modl o (fun z => lf_with_next z (lf_next u)))%kern.
Proof.
  intros Ec. destruct turn_facts as (Hx & Hcs & Hi & Hg & En & E1 & E2 & E3).
  pose proof Hat as [A1 A2 A3 A4 A5 A6 A7 A8 A9]. rewrite Ec in Hcs.
  destruct (contains_strict u Hu x Hx Hcs) as (_ & _ & Hle). destruct Hcs as (_ & _ & _ & Hdiff).
  pose proof del_own as Hdel. rewrite Ec in Hdel. rewrite E1, E2.
  destruct (dat_is_Some s un u Hdu) as (u1 & Hu1 & _).
  destruct (Z.eqb_spec (lf_start x) (lf_start u)) as [Es|Es]; [apply clear_cut; [apply Hle; lia|done]|].
  destruct (Z.eqb_spec (lf_end x) (lf_end u)) as [Ee|Ee].
  - destruct (quiet_split_two s gm wm ip pre G un u o x r xo u1) as (s' & gm' & H1 & H2 & H3 & H4); try done.
    exists s', gm', wm, 1%positive. split_and!; try done; try by rewrite ?H4, ?Hdu. by rewrite H3, Hdel, (s32_before u Hu).
  - destruct (quiet_split_three s gm wm ip pre G un u o x r xo u1) as (s' & gm' & sp & H1 & H2 & H3 & H4); try done.
    exists s', gm', wm, sp. split_and!; try done; try by rewrite ?H4, ?Hdu. by rewrite H3, Hdel, (s32_before u Hu), (s32_after u x Hu Hx (Hle Ee)).
Qed.

(** The turns that go on with the rest of the list. *)
Section Goes.
Context (fuel : nat).
Hypothesis Hf : (length r < fuel)%nat.
Hypothesis IH : forall s1 gm1 wm1 pre1, at_list G ip s1 gm1 wm1 pre1 r -> dat s1 un = Some u -> ~ granted gm1 un ->
  (forall l, un ∉ wm1 l) -> (length r < fuel)%nat ->
  exists s' gm' wm' sp, clear_loop fuel ip un (endp PHead pre1.*1) (head r.*1) s1 = Some (tt, s') /\
    evolves G ip s1 gm1 wm1 s' gm' wm' /\ gm' ip = pre1 ++ del sp u r /\ dat s' un = Some u.

Lemma then_clear s1 gm1 pre1 :
  evolves G ip s gm wm s1 gm1 wm -> gm1 ip = pre1 ++ r -> dat s1 un = Some u -> un ∉ (pre1 ++ r).*1 ->
  (forall sp, pre ++ del sp u ((o, x) :: r) = pre1 ++ del sp u r) ->
  exists s' gm' wm' sp, clear_loop fuel ip un (endp PHead pre1.*1) (head r.*1) s1 = Some (tt, s') /\
    evolves G ip s gm wm s' gm' wm' /\ gm' ip = pre ++ del sp u ((o, x) :: r) /\ dat s' un = Some u.
Proof.
  intros Hev Hg1 Hd1 Hn1 Hdel. pose proof Hat as [A1 A2 A3 A4 A5 A6 A7 A8 A9].
  destruct (IH s1 gm1 wm pre1) as (s2 & gm2 & wm2 & sp & Hrun2 & Hev2 & Hg2 & Hd2); try done.
  - apply (evolves_at G ip s gm wm pre ((o, x) :: r)); try done; [by apply all_ok_cons in A8 as [_ ?]|apply A9].
  - intros [jp Hm]. destruct (decide (jp = ip)) as [->|Hne]; [by rewrite Hg1 in Hm|].
    rewrite (ev_other _ _ _ _ _ _ _ _ Hev jp Hne) in Hm. apply Hug. by exists jp.
  - exists s2, gm2, wm2, sp. split; [done|]. split; [by apply (evolves_trans G ip s gm wm s1 gm1 wm)|].
    by rewrite Hg2, Hdel.
Qed.

Lemma un_out : un ∉ (pre ++ (o, x) :: r).*1.
Proof. intros H. apply Hug. exists ip. by rewrite (al_gm _ _ _ _ _ _ _ Hat). Qed.

Lemma clear_contained : c = Contained ->
  clear_result (do! lk_store (lf_link ip) (endp PHead pre.*1) (lf_next xo) in do! freel o in
    clear_loop fuel ip un (endp PHead pre.*1) (lf_next xo))%kern.
Proof.
  intros Ec. destruct turn_facts as (Hx & Hcs & Hi & Hg & En & _). pose proof Hat as [A1 A2 A3 A4 A5 A6 A7 A8 A9].
  destruct (dat_is_Some s un u Hdu) as (u1 & Hu1 & _).
  destruct (quiet_remove s gm wm ip pre G un u o x r xo u1 A1 A2 A3 A4 A5 Hg Hq Hxo Hu1 Hdu Hug)
    as (s1 & gm1 & H1 & H2 & H3 & H4).
  unfold clear_result. unfold kbind in *. destruct (lk_store _ _ _ s) as [[[] sa]|]; [|done]. rewrite H1, En.
  apply (then_clear s1 gm1); try done; [congruence| |].
  - pose proof un_out as Ho. rewrite !fmap_app in *. simpl in Ho. rewrite !elem_of_app, elem_of_cons in *. tauto.
  - intros sp. by rewrite del_own, Ec.
Qed.

Lemma clear_starts : c = StartsBefore ->
  clear_result (do! modl o (fun z => lf_with_end z (s32 (lf_start uo - 1))) in
    clear_loop fuel ip un (PNext o) (lf_next xo))%kern.
Proof.
  intros Ec. destruct turn_facts as (Hx & Hcs & Hi & Hg & En & _ & E2 & _).
  rewrite E2, (s32_before u Hu).
  destruct (clear_modify (fun z => lf_with_end z (lf_start u - 1)) (lf_with_end x (lf_start u - 1)))
    as (s1 & gm1 & H1 & H2 & H3 & H4); try done; [by rewrite <- Exo|].
  unfold clear_result. rewrite (kbind_run _ s tt s1) by done. rewrite En.
  rewrite <- (endp_snoc pre o (lf_with_end x (lf_start u - 1))). apply (then_clear s1 gm1); try done.
  - by rewrite H3, <- app_assoc.
  - rewrite <- app_assoc. pose proof un_out as Ho. rewrite !fmap_app in *. simpl in *.
    rewrite !elem_of_app, !elem_of_cons in *. tauto.
  - intros sp. by rewrite del_own, Ec, <- app_assoc.
Qed.
End Goes.
End Turns.

(** The owner's locks are cut to what lies outside the range. *)
Lemma clear_run : forall fuel s gm wm pre rest,
  at_list G ip s gm wm pre rest -> dat s un = Some u -> ~ granted gm un -> (forall l, un ∉ wm l) ->
  (length rest < fuel)%nat ->
  exists s' gm' wm' sp, clear_loop fuel ip un (endp PHead pre.*1) (head rest.*1) s = Some (tt, s') /\
    evolves G ip s gm wm s' gm' wm' /\ gm' ip = pre ++ del sp u rest /\ dat s' un = Some u.
Proof.
  induction fuel as [|fuel IH]; intros s gm wm pre rest Hat Hdu Hug Huw Hf; [lia|].
  destruct (at_find G ip s gm wm pre rest u Hat Hu) as (skip & rest' & c & -> & Hrun & _ & Hdel & Hstop & Hat').
  destruct (dat_is_Some s un u Hdu) as (uo & Huo & Euo).
  cbn [clear_loop]. rewrite (kbind_run kget s s s) by done. rewrite (kbind_run (getl un) s uo s) by (by apply getl_run).
  rewrite (kbind_run _ s (c, endp PHead (pre ++ skip).*1, head rest'.*1) s)
    by (rewrite <- findoverlap_data, Euo; exact Hrun).
  pose proof Hat' as [A1 A2 A3 A4 A5 A6 A7 A8 A9].
  assert (Hdone : c = NoOverlap -> (forall sp, del sp u rest' = rest') ->
    exists s' gm' wm' sp, kret tt s = Some (tt, s') /\ evolves G ip s gm wm s' gm' wm' /\
      gm' ip = pre ++ del sp u (skip ++ rest') /\ dat s' un = Some u).
  { intros _ E. exists s, gm, wm, 1%positive. split; [done|]. split; [by apply evolves_refl|].
    split; [|done]. by rewrite Hdel, E, (al_gm _ _ _ _ _ _ _ Hat). }
  destruct rest' as [|[o x] r]; [subst c; by apply Hdone|].
  destruct (lock_item _ _ _ _ _ _ _ o x Hat') as (xo0 & Hxo0 & _); [rewrite !elem_of_app, elem_of_cons; auto|].
  assert (Ho : granted gm o) by (exists ip; rewrite A7, fmap_app; apply elem_of_app; right; left).
  destruct (wake_turn s gm wm (pre ++ skip) ((o, x) :: r) o Hat' Ho) as (s1 & Hrun1 & Hat1 & Hev1 & Hd1).
  destruct (lock_item _ _ _ _ _ _ _ o x Hat1) as (xo & Hxo & Exo); [rewrite !elem_of_app, elem_of_cons; auto|].
  assert (Hf' : (length r < fuel)%nat) by (rewrite length_app in Hf; simpl in Hf; lia).
  assert (Huw1 : forall l, un ∉ fupd wm o [] l) by (intros l Hl; by apply subset_upd in Hl; apply (Huw l)).
  assert (Hdu1 : dat s1 un = Some u) by (by rewrite Hd1).
  assert (Hgo : forall m, clear_result s1 gm (fupd wm o []) (pre ++ skip) r o x m ->
    exists s' gm' wm' sp, m s1 = Some (tt, s') /\ evolves G ip s gm wm s' gm' wm' /\
      gm' ip = pre ++ del sp u (skip ++ (o, x) :: r) /\ dat s' un = Some u).
  { intros m (s' & gm' & wm' & sp & H1 & H2 & H3 & H4). exists s', gm', wm', sp. split; [done|].
    split; [by apply (evolves_trans G ip s gm wm s1 gm (fupd wm o []))|]. by rewrite H3, Hdel, <- app_assoc. }
  destruct c; [|rewrite (kbind_run _ s o s) by done; rewrite (kbind_run _ s tt s1) by done;
    rewrite (kbind_run _ s1 xo s1) by (by apply getl_run); apply Hgo..].
  - apply Hdone; [done|]. intros sp. rewrite (del_own r o x NoOverlap) by done. by rewrite (proj2 (proj2 Hstop) eq_refl).
  - by apply (clear_equal s1 gm (fupd wm o []) (pre ++ skip) r o x xo uo Equal); try done; apply fupd_eq.
  - by apply (clear_contains s1 gm (fupd wm o []) (pre ++ skip) r o x xo uo Contains); try done; apply fupd_eq.
  - apply (clear_contained s1 gm (fupd wm o []) (pre ++ skip) r o x xo uo Contained); try done; [apply fupd_eq|].
    intros. by apply IH.
  - apply (clear_starts s1 gm (fupd wm o []) (pre ++ skip) r o x xo uo StartsBefore); try done; [apply fupd_eq|].
    intros. by apply IH.
  - apply (clear_cut s1 gm (fupd wm o []) (pre ++ skip) r o x xo uo EndsAfter); try done; [apply fupd_eq|..].
    + destruct Hstop as (_ & Hcase & _). pose proof (proj1 (all_ok_cons o x r) A8) as [Hx _].
      assert (Hcs : case_spec EndsAfter (lf_start x) (lf_end x) (lf_start u) (lf_end u)).
      { apply (own_case u Hu x _ Hx). intros c' Hc'. rewrite Hcase in Hc'. by injection Hc' as <-. }
      apply Hcs.
    + intros sp. by rewrite (del_own r o x EndsAfter).
Qed.
End Clear.
