(* ===== verification/LockfSafety.v ===== *)
(** * What [lf_setlock], [lf_clearlock] and [lf_getlock] guarantee

    The invariant of a running system, the result of every call in terms of the byte map
    of the inode, and the invariant of every reachable state. *)

From S2P Require Import Prelude Chain Lockf LockfSpec LockfHeap LockfGrant LockfLoops.

(** ** The invariant *)

(** Two owners hold a byte together only to read it. *)
Definition exclusive (xs : locks) : Prop := forall id1 id2 b t1 t2,
  holds xs id1 b t1 -> holds xs id2 b t2 -> id1 <> id2 -> t1 = F_RDLCK /\ t2 = F_RDLCK.

Definition all_typed (xs : locks) : Prop := forall l d, (l, d) ∈ xs -> typed d.

Record locks_inv (s : lst) (gm : loc -> locks) (wm : loc -> list loc) : Prop := {
  iv_lists : lists s gm;
  iv_blocks : blocks None s wm;
  iv_waits : waits s gm wm;
  iv_ok ip : all_ok (gm ip);
  iv_ordered ip : ordered (gm ip);
  iv_typed ip : all_typed (gm ip);
  iv_excl ip : exclusive (gm ip) }.

(** A lock the caller was given for an operation: on no list, waiting for nothing. *)
Record given (s : lst) (gm : loc -> locks) (wm : loc -> list loc) (lock : loc) (k : lockf) : Prop := {
  gv_dat : dat s lock = Some k;
  gv_ok : range_ok k;
  gv_out : ~ granted gm lock;
  gv_idle l : lock ∉ wm l;
  gv_ip : is_Some (ls_lockf s !! lf_inode k) }.

(** What an operation on [lock] may change: the locks on the lists, [lock] itself and
    the locks it allocates. *)
Definition touched (s : lst) (gm : loc -> locks) (lock m : loc) : Prop :=
  granted gm m \/ m = lock \/ ls_heap s !! m = None.

Lemma touched_dec s gm lock m : lists s gm -> touched s gm lock m \/ ~ touched s gm lock m.
Proof.
  intros Hl. unfold touched. destruct (ls_heap s !! m) as [x|] eqn:Hx; [|auto].
  destruct (decide (m = lock)); [auto|].
  destruct (decide (m ∈ (gm (lf_inode x)).*1)) as [Hin|Hout]; [left; left; by exists (lf_inode x)|].
  right. intros [[ip Hm]|[?|?]]; [|done..]. apply list_elem_of_fmap in Hm as ([l d] & E & Hm). simpl in E. subst l.
  destruct (li_data _ _ Hl _ _ _ Hm) as [Hd Hi]. unfold dat in Hd. rewrite Hx in Hd. injection Hd as <-.
  apply Hout. replace (lf_inode x) with ip by (by rewrite <- Hi). by apply (list_elem_of_fmap_2 fst) in Hm.
Qed.

Lemma waiters_granted s gm wm l w : waits s gm wm -> w ∈ wm l -> granted gm l.
Proof.
  intros Hw Hin. destruct (wa_conf _ _ _ Hw l w Hin) as (ip & d & _ & Hd & _). exists ip.
  by apply (list_elem_of_fmap_2 fst) in Hd.
Qed.

Lemma no_waiters s gm wm lock : waits s gm wm -> ~ granted gm lock -> wm lock = [].
Proof.
  intros Hw Hout. destruct (wm lock) as [|w r] eqn:E; [done|]. destruct Hout. apply (waiters_granted s gm wm lock w Hw).
  rewrite E. left.
Qed.

Lemma start_list s gm wm lock k : locks_inv s gm wm -> given s gm wm lock k ->
  at_list (touched s gm lock) (lf_inode k) s gm wm [] (gm (lf_inode k)).
Proof. intros [] []. split; try done; by (intros ? ?; unfold touched; auto). Qed.

(** The answer of [lf_getblock]: the first lock of the list in the way. *)
Lemma getblock_spec s gm wm lock k : locks_inv s gm wm -> given s gm wm lock k ->
  lf_getblock lock s = Some (head (filter (blocking_item k) (gm (lf_inode k))).*1, s).
Proof.
  intros Hinv Hgv. pose proof (start_list _ _ _ _ _ Hinv Hgv) as Hat. destruct Hgv as [Hd Hok _ _ Hip].
  destruct (dat_is_Some s lock k Hd) as (x & Hx & <-). pose proof (iv_lists _ _ _ Hinv) as Hl.
  set (ip := lf_inode (data x)) in *.
  unfold lf_getblock. rewrite (kbind_run _ s x s) by (by apply getl_run). rewrite (kbind_run kget s s s) by done.
  pose proof (pre_get s gm ip [] Hl Hip (gm ip) eq_refl) as Hhd.
  rewrite (kbind_run _ s (head (gm ip).*1) s) by (unfold lk_load, kderef; cbn in *; by rewrite Hhd).
  pose proof (list_size _ _ _ _ _ _ _ Hat) as Hsz.
  refine (getblock_run s ip x (S (nlocks s)) (gm ip) PHead _ _ _ _ _ _); try done; [| |apply Hinv|lia].
  - by apply (pre_linked s gm ip []).
  - intros l d H. by destruct (li_data _ _ Hl _ _ _ H).
Qed.

(** ** The byte map decides *)

Lemma typed_bytes xs :
  all_ok xs -> (all_typed xs <-> forall id b t, holds xs id b t -> t = F_RDLCK \/ t = F_WRLCK).
Proof.
  intros Hok. split.
  - intros H id b t (l & x & Hx & _ & _ & <-). apply (H l x Hx).
  - intros H l x Hx. apply (H (lf_id x) (lf_start x)). exists l, x. split; [done|]. split; [done|]. split; [|done].
    pose proof (ext_range x (Hok l x Hx)). unfold covers. lia.
Qed.

(** A byte map updated by a lock that nothing on the list blocks. *)
Lemma exclusive_update xs ys k :
  all_ok xs -> all_typed xs -> range_ok k -> typed k -> exclusive xs ->
  (forall l d, (l, d) ∈ xs -> ~ blocking k d) ->
  (forall id b t, holds ys id b t -> target k id b /\ t = lf_type k \/ ~ target k id b /\ holds xs id b t) ->
  exclusive ys.
Proof.
  intros Hok Hty Hk Hkt Hex Hnb Hys.
  assert (Hmix : forall id b t, target k (lf_id k) b -> id <> lf_id k -> holds xs id b t ->
    lf_type k = F_RDLCK /\ t = F_RDLCK).
  { intros id b t [_ Hb] Hne (l & x & Hx & Hid & Hxb & Ht). pose proof (Hty l x Hx) as Hxt.
    assert (Hov : overlaps x k = true) by (apply overlaps_common; [by apply (Hok l)|done|eauto]).
    pose proof (Hnb l x Hx) as Hn. unfold blocking in Hn. unfold typed in *. subst id t. naive_solver. }
  intros id1 id2 b t1 t2 H1 H2 Hne.
  destruct (Hys _ _ _ H1) as [[T1 ->]|[_ H1']], (Hys _ _ _ H2) as [[T2 ->]|[_ H2']].
  - destruct T1 as [-> _], T2 as [-> _]. done.
  - pose proof T1 as [-> _]. by apply (Hmix id2 b t2).
  - pose proof T2 as [-> _]. destruct (Hmix id1 b t1); auto.
  - by apply (Hex id1 id2 b).
Qed.

Lemma exclusive_subset xs ys :
  exclusive xs -> (forall id b t, holds ys id b t -> holds xs id b t) -> exclusive ys.
Proof. intros Hex Hys id1 id2 b t1 t2 H1 H2. apply (Hex id1 id2 b); auto. Qed.

(** ** What an operation leaves of the rest of the system *)

(** The locks no operation was given keep their data, and stay off the lists. *)
Record others_kept (s : lst) (gm : loc -> locks) (lock : loc) (s' : lst) (gm' : loc -> locks) : Prop := {
  ok_data m : is_Some (ls_heap s !! m) -> ~ granted gm m -> m <> lock -> dat s' m = dat s m /\ ~ granted gm' m;
  ok_lockf jp : is_Some (ls_lockf s !! jp) -> is_Some (ls_lockf s' !! jp);
  ok_wchan p c : ls_wchan s' !! p = Some c -> ls_wchan s !! p = Some c }.

Lemma evolves_others ip s gm wm lock s' gm' wm' :
  evolves (touched s gm lock) ip s gm wm s' gm' wm' -> others_kept s gm lock s' gm'.
Proof.
  intros Hev. pose proof (ev_frame _ _ _ _ _ _ _ _ Hev) as [F1 F2 F3]. split; [|by intros jp; apply F2|done].
  intros m [x Hx] Hg Hne. assert (Ht : ~ touched s gm lock m) by (unfold touched; rewrite Hx; naive_solver).
  split; [by apply F1; eauto|]. intros Hg'. apply (ev_granted _ _ _ _ _ _ _ _ Hev) in Hg' as [?|?]; [done|congruence].
Qed.

(** The invariant after the list of one inode has changed. *)
Lemma inv_evolves G ip s gm wm s' gm' wm' :
  locks_inv s gm wm -> evolves G ip s gm wm s' gm' wm' ->
  all_ok (gm' ip) -> ordered (gm' ip) -> all_typed (gm' ip) -> exclusive (gm' ip) -> locks_inv s' gm' wm'.
Proof.
  intros [I1 I2 I3 I4 I5 I6 I7] Hev H1 H2 H3 H4.
  assert (Hby : forall P : locks -> Prop, P (gm' ip) -> (forall jp, P (gm jp)) -> forall jp, P (gm' jp)).
  { intros P Hp Ha jp. destruct (decide (jp = ip)) as [->|Hne]; [done|].
    by rewrite (ev_other _ _ _ _ _ _ _ _ Hev jp Hne). }
  split; [apply Hev..|by apply Hby|by apply Hby|by apply Hby|by apply Hby].
Qed.

(** ** Granting *)

Lemma grant_spec maxlockdepth p s gm wm lock k :
  locks_inv s gm wm -> given s gm wm lock k -> typed k -> (forall l d, (l, d) ∈ gm (lf_inode k) -> ~ blocking k d) ->
  exists s' gm' wm' sp, lf_setlock maxlockdepth p lock s = Some (SDone 0, s') /\
    locks_inv s' gm' wm' /\ gm' (lf_inode k) = ins sp lock k (gm (lf_inode k)) true /\
    (forall jp, jp <> lf_inode k -> gm' jp = gm jp) /\ others_kept s gm lock s' gm'.
Proof.
  intros Hinv Hgv Hkt Hnb. pose proof (getblock_spec _ _ _ _ _ Hinv Hgv) as Hblock.
  pose proof (start_list _ _ _ _ _ Hinv Hgv) as Hat. pose proof (list_size _ _ _ _ _ _ _ Hat) as Hsz.
  pose proof Hgv as [Hd Hok Hout Hidle Hip]. pose proof Hinv as [I1 I2 I3 I4 I5 I6 I7].
  destruct (dat_is_Some s lock k Hd) as (x & Hx & Ex).
  replace (filter (blocking_item k) (gm (lf_inode k))) with (@nil (loc * lockf)) in Hblock.
  2:{ symmetry. apply filter_none. intros [l d] Hin. by apply (Hnb l d). }
  destruct (grant_new (touched s gm lock) (lf_inode k) lock k) with (fuel := S (nlocks s)) (s := s) (gm := gm) (wm := wm)
    (pre := @nil (loc * lockf)) (rest := gm (lf_inode k)) as (s' & gm' & wm' & sp & Hrun & Hev & Hg); try done.
  { intros m. by apply touched_dec. }
  { unfold touched. auto. }
  { by apply (no_waiters s gm). }
  { lia. }
  exists s', gm', wm', sp. simpl in Hg.
  assert (Hoks : all_ok (gm' (lf_inode k))).
  { rewrite Hg. intros l y Hy. apply ins_in in Hy as [[= -> ->]|[? _]]; try done. }
  assert (Hys : forall id b t, holds (gm' (lf_inode k)) id b t ->
    target k id b /\ t = lf_type k \/ ~ target k id b /\ holds (gm (lf_inode k)) id b t).
  { intros id b t. rewrite Hg. by apply ins_holds. }
  split_and!.
  - unfold lf_setlock. rewrite (kbind_run _ s x s) by (by apply getl_run). rewrite (kbind_run _ s None s) by done.
    rewrite (kbind_run kget s s s) by done.
    pose proof (pre_get s gm (lf_inode k) [] I1 Hip (gm (lf_inode k)) eq_refl) as Hhd.
    replace (lf_inode x) with (lf_inode k) by (by rewrite <- Ex).
    rewrite (kbind_run _ s (head (gm (lf_inode k)).*1) s) by (unfold lk_load, kderef; cbn in *; by rewrite Hhd).
    rewrite (kbind_run _ s tt s') by exact Hrun. done.
  - apply (inv_evolves _ _ _ _ _ _ _ _ Hinv Hev); try done.
    + rewrite Hg. by apply ins_ordered.
    + apply typed_bytes; [done|]. intros id b t Hh. apply Hys in Hh as [[_ ->]|[_ Hh]]; [done|].
      revert Hh. by apply typed_bytes.
    + by apply (exclusive_update (gm (lf_inode k)) _ k).
  - done.
  - apply Hev.
  - by apply (evolves_others _ _ _ _ _ _ _ _ Hev).
Qed.

(** ** Clearing *)

Lemma covers_start x : range_ok x -> covers x (lf_start x).
Proof. intros H. pose proof (ext_range x H). unfold covers. lia. Qed.

(** A lock that is cleared by itself is on no list afterwards. *)
Lemma del_not_self sp k xs l : ordered xs -> all_ok xs -> range_ok k -> (l, k) ∉ del sp k xs.
Proof.
  intros Ho Ha Hk Hin.
  assert (Hh : holds (del sp k xs) (lf_id k) (lf_start k) (lf_type k)).
  { exists l, k. split; [done|]. split_and!; try done. by apply covers_start. }
  apply del_holds in Hh as [Hn _]; try done. apply Hn. split; [done|]. by apply covers_start.
Qed.

Lemma clear_spec s gm wm lock k :
  locks_inv s gm wm -> given s gm wm lock k ->
  exists s' gm' wm' sp, lf_clearlock lock s = Some (tt, s') /\
    locks_inv s' gm' wm' /\ gm' (lf_inode k) = del sp k (gm (lf_inode k)) /\
    (forall jp, jp <> lf_inode k -> gm' jp = gm jp) /\ others_kept s gm lock s' gm' /\ given s' gm' wm' lock k.
Proof.
  intros Hinv Hgv. pose proof (start_list _ _ _ _ _ Hinv Hgv) as Hat. pose proof (list_size _ _ _ _ _ _ _ Hat) as Hsz.
  pose proof Hgv as [Hd Hok Hout Hidle Hip]. pose proof Hinv as [I1 I2 I3 I4 I5 I6 I7].
  destruct (dat_is_Some s lock k Hd) as (x & Hx & Ex). set (ip := lf_inode k) in *.
  pose proof (pre_get s gm ip [] I1 Hip (gm ip) eq_refl) as Hhd.
  assert (Hrun : exists s' gm' wm' sp, lf_clearlock lock s = Some (tt, s') /\
    evolves (touched s gm lock) ip s gm wm s' gm' wm' /\ gm' ip = del sp k (gm ip) /\ dat s' lock = Some k).
  { unfold lf_clearlock. rewrite (kbind_run _ s x s) by (by apply getl_run). rewrite (kbind_run kget s s s) by done.
    replace (lf_inode x) with ip by (by unfold ip; rewrite <- Ex).
    rewrite (kbind_run _ s (head (gm ip).*1) s) by (unfold lk_load, kderef; cbn in *; by rewrite Hhd).
    destruct (gm ip) as [|[l d] r] eqn:Eg.
    - exists s, gm, wm, 1%positive. split_and!; try done. apply evolves_refl; try done. by intros m; left.
    - apply (clear_run (touched s gm lock) ip lock k) with (pre := @nil (loc * lockf)) (wm := wm) (gm := gm); try done.
      + intros m. by apply touched_dec.
      + unfold touched. auto.
      + lia. }
  destruct Hrun as (s' & gm' & wm' & sp & Hrun & Hev & Hg & Hd'). exists s', gm', wm', sp.
  assert (Hsub : forall id b t, holds (gm' ip) id b t -> holds (gm ip) id b t).
  { intros id b t. rewrite Hg. intros H. apply del_holds in H as [_ H]; done. }
  assert (Hoks : all_ok (gm' ip)).
  { rewrite Hg. intros l y Hy. apply del_in in Hy as [? _]; done. }
  assert (Hinv' : locks_inv s' gm' wm').
  { apply (inv_evolves _ _ _ _ _ _ _ _ Hinv Hev); [done|rewrite Hg; by apply del_ordered| |by apply (exclusive_subset (gm ip))].
    apply typed_bytes; [done|]. intros id b t Hh. apply Hsub in Hh. revert Hh. by apply typed_bytes. }
  pose proof (evolves_others _ _ _ _ _ _ _ _ Hev) as Hoth.
  split_and!; try done; [apply Hev|]. split; try done.
  - intros [jp Hj]. apply list_elem_of_fmap in Hj as ([l d] & E & Hj). simpl in E. subst l.
    destruct (decide (jp = ip)) as [->|Hne].
    + destruct (li_data _ _ (iv_lists _ _ _ Hinv') _ _ _ Hj) as [Hd2 _]. rewrite Hd' in Hd2. injection Hd2 as <-.
      rewrite Hg in Hj. revert Hj. by apply del_not_self.
    + rewrite (ev_other _ _ _ _ _ _ _ _ Hev jp Hne) in Hj. apply Hout. exists jp.
      by apply (list_elem_of_fmap_2 fst) in Hj.
  - intros l Hl. apply (ev_wm _ _ _ _ _ _ _ _ Hev) in Hl as [l0 Hl0]. by apply (Hidle l0).
  - by apply (ok_lockf _ _ _ _ _ Hoth).
Qed.

(** ** Refusing a lock *)

Lemma deadlocks_state me s : forall depth w b s', deadlocks depth me w s = Some (b, s') -> s' = s.
Proof.
  induction depth as [|depth IH]; intros w b s' H; simpl in H; [by injection H|].
  unfold kbind, kget in H. destruct (ls_wchan s !! w) as [x|]; [|by injection H].
  unfold getl, kderef in H. destruct (ls_heap s !! x) as [y|]; [|done].
  unfold knonnull in H. destruct (lf_next y) as [z|]; [|done]. simpl in H.
  destruct (ls_heap s !! z) as [v|]; [|done].
  destruct (negb _); [by injection H|]. destruct (decide _); [by injection H|]. by apply IH in H.
Qed.

(** The data of a lock on no list. *)
Lemma inv_idle s gm wm lock k f x' :
  locks_inv s gm wm -> given s gm wm lock k ->
  (forall y, data y = k -> data (f y) = x') -> (forall y, lf_block (f y) = lf_block y) ->
  locks_inv (upd_heap (alter f lock) s) gm wm /\ dat (upd_heap (alter f lock) s) lock = Some x'.
Proof.
  intros Hinv [Hd Hok Hout Hidle Hip] Hf Hb. pose proof Hinv as [I1 I2 I3 I4 I5 I6 I7].
  destruct (dat_is_Some s lock k Hd) as (x & Hx & Ex). split; [split; try done|].
  - apply (lists_same s); [done..|]. intros l Hl. assert (l <> lock) by (intros ->; done).
    by rewrite next_alter, dat_alter, !decide_False.
  - apply (blocks_same None s); [done..|]. intros l. rewrite block_alter. destruct (decide (l = lock)) as [->|]; [|done].
    unfold block_of. rewrite Hx. simpl. by rewrite Hb.
  - destruct I3 as [W1 W2]. split; [done|]. intros l w Hw. destruct (W2 l w Hw) as (jp & d & y & ? & ? & ?).
    exists jp, d, y. split_and!; try done. rewrite dat_alter, decide_False; [done|]. intros ->. by apply (Hidle l).
  - rewrite dat_alter, decide_True, Hx by done. simpl. f_equal. by apply Hf.
Qed.

Lemma free_spec s gm wm lock k :
  locks_inv s gm wm -> given s gm wm lock k ->
  freel lock s = Some (tt, upd_heap (delete lock) s) /\ locks_inv (upd_heap (delete lock) s) gm wm /\
  others_kept s gm lock (upd_heap (delete lock) s) gm.
Proof.
  intros Hinv [Hd Hok Hout Hidle Hip]. pose proof Hinv as [I1 I2 I3 I4 I5 I6 I7].
  destruct (dat_is_Some s lock k Hd) as (x & Hx & Ex).
  destruct (free_lock lock s gm wm I1 I2 Hout Hidle (no_waiters s gm wm lock I3 Hout)) as [Hl Hb].
  assert (Hda : forall m, m <> lock -> dat (upd_heap (delete lock) s) m = dat s m).
  { intros m Hm. unfold dat. simpl. by rewrite lookup_delete_ne. }
  split_and!; [by apply (freel_run s lock x)| |].
  - split; try done. destruct I3 as [W1 W2]. split; [done|]. intros l w Hw.
    destruct (W2 l w Hw) as (jp & d & y & ? & ? & ?). exists jp, d, y. split_and!; try done.
    rewrite Hda; [done|]. intros ->. by apply (Hidle l).
  - split; try done. intros m _ Hm Hne. by rewrite Hda.
Qed.

(** ** Waiting *)

Definition go_to_sleep (p lock b : loc) : K lst setres :=
  (do! modl lock (fun y => lf_with_next y (Some b)) in
   do! lf_addblock b (Some lock) in
   do! kmod (fun s => Lst (ls_heap s) (ls_lockf s) (<[p := lock]> (ls_wchan s)) (ls_woken s)) in
   kret SSleep)%kern.

Lemma sleep_spec p b d s gm wm lock k :
  locks_inv s gm wm -> given s gm wm lock k -> (b, d) ∈ gm (lf_inode k) -> conflicts d k -> ls_wchan s !! p = None ->
  exists s', go_to_sleep p lock b s = Some (SSleep, s') /\ locks_inv s' gm (fupd wm b (wm b ++ [lock])) /\
    (forall m, dat s' m = dat s m) /\ ls_wchan s' = <[p := lock]> (ls_wchan s) /\ ls_lockf s' = ls_lockf s /\
    next_of s' lock = Some (Some b).
Proof.
  intros Hinv Hgv Hb Hcf Hp.
  destruct (inv_idle s gm wm lock k (fun y => lf_with_next y (Some b)) k Hinv Hgv) as [Hinv1 Hd1]; try done.
  set (s1 := upd_heap _ s) in *. destruct Hgv as [Hd Hok Hout Hidle Hip].
  destruct (dat_is_Some s lock k Hd) as (x & Hx & Ex). pose proof Hinv1 as [I1 I2 I3 I4 I5 I6 I7].
  assert (Hgb : granted gm b) by (exists (lf_inode k); by apply (list_elem_of_fmap_2 fst) in Hb).
  assert (Hne : b <> lock) by (by intros ->).
  destruct (addblock_idle s1 wm p b lock) as (e & Hrun & He & Hbl); try done.
  { apply (granted_heads s1 gm); try done. by destruct I3. }
  { split; [done|]. split; [|done]. destruct (dat_is_Some s1 lock k Hd1) as (x1 & Hx1 & _). eauto. }
  { by apply (no_waiters s1 gm). }
  set (s2 := upd_heap (alter (fun x => lf_with_block x (Some lock)) e) s1) in *.
  assert (Hda : forall m, dat s2 m = dat s1 m /\ next_of s2 m = next_of s1 m).
  { intros m. unfold s2. rewrite dat_alter, next_alter. unfold dat, next_of.
    destruct (decide (m = e)) as [->|]; [|done]. by destruct (ls_heap s1 !! e). }
  exists (sleeps p lock s2). split_and!; try done.
  - unfold go_to_sleep. rewrite (kbind_run _ s tt s1) by (by apply (modl_run s lock x)).
    by rewrite (kbind_run _ s1 tt s2) by exact Hrun.
  - split; try done.
    + apply (lists_same s1); [done..|]. intros l _. destruct (Hda l). done.
    + destruct I3 as [W1 W2].
      assert (Hin : forall l w, w ∈ fupd wm b (wm b ++ [lock]) l -> w ∈ wm l \/ l = b /\ w = lock).
      { intros l w. unfold fupd. destruct (decide (l = b)) as [->|]; [|auto].
        rewrite elem_of_app, list_elem_of_singleton. naive_solver. }
      split; intros l w Hw; apply Hin in Hw as [Hw|[-> ->]]; [by apply (W1 l)|done| |].
      * destruct (W2 l w Hw) as (jp & d' & y & ? & Hy & ?). exists jp, d', y. split_and!; try done.
        rewrite <- Hy. apply Hda.
      * exists (lf_inode k), d, k. split_and!; try done. rewrite <- Hd1. apply Hda.
  - intros m. change (dat s2 m = dat s m). rewrite (proj1 (Hda m)). unfold s1. rewrite dat_alter.
    destruct (decide (m = lock)) as [->|]; [|done]. rewrite Hx. unfold dat. by rewrite Hx.
  - change (next_of s2 lock = Some (Some b)). rewrite (proj2 (Hda lock)). unfold s1. by rewrite next_alter, decide_True, Hx.
Qed.

(** ** A lock in the way *)

(** The data of [lf_setlock]'s exclusive [flock]: the caller's own locks are dropped
    before it waits. *)
Definition drop_own (k : lockf) (lock : loc) : K lst unit :=
  (if flag_set (lf_flags k) F_FLOCK && (lf_type k =? F_WRLCK) then
     do! modl lock (fun y => lf_with_type y F_UNLCK) in
     do! lf_clearlock lock in
     modl lock (fun y => lf_with_type y F_WRLCK)
   else kret tt)%kern.

Lemma blocked_run maxlockdepth p s gm wm lock k b d r :
  locks_inv s gm wm -> given s gm wm lock k -> filter (blocking_item k) (gm (lf_inode k)) = (b, d) :: r ->
  lf_setlock maxlockdepth p lock s =
    (if negb (flag_set (lf_flags k) F_WAIT) then do! freel lock in kret (SDone EAGAIN) else
     let! dead := (if flag_set (lf_flags k) F_POSIX && flag_set (lf_flags d) F_POSIX
                   then deadlocks maxlockdepth (lf_id k) (lf_id d) else kret false) in
     if (dead : bool) then do! freel lock in kret (SDone EDEADLK) else
     do! drop_own k lock in go_to_sleep p lock b)%kern s.
Proof.
  intros Hinv Hgv Hf. pose proof (getblock_spec _ _ _ _ _ Hinv Hgv) as Hblock. rewrite Hf in Hblock.
  destruct (dat_is_Some s lock k (gv_dat _ _ _ _ _ Hgv)) as (x & Hx & <-).
  assert (Hb : (b, d) ∈ filter (blocking_item (data x)) (gm (lf_inode (data x)))) by (rewrite Hf; left).
  apply list_elem_of_filter in Hb as [_ Hb].
  destruct (li_data _ _ (iv_lists _ _ _ Hinv) _ _ _ Hb) as [Hbd _].
  destruct (dat_is_Some s b d Hbd) as (y & Hy & <-).
  unfold lf_setlock. rewrite (kbind_run _ s x s) by (by apply getl_run). rewrite (kbind_run _ s (Some b) s) by done.
  destruct (negb (flag_set (lf_flags x) F_WAIT)) eqn:Hw.
  { change (lf_flags (data x)) with (lf_flags x). by rewrite Hw. }
  rewrite (kbind_run _ s y s) by (by apply getl_run). change (lf_flags (data x)) with (lf_flags x). by rewrite Hw.
Qed.

(** Another owner's lock survives the clearing. *)
Lemma del_others sp k xs l x : (l, x) ∈ xs -> lf_id x <> lf_id k -> (l, x) ∈ del sp k xs.
Proof.
  induction xs as [|[l' x'] r IH]; intros Hin Hne; [by apply elem_of_nil in Hin|].
  apply elem_of_cons in Hin as [[= <- <-]|Hin]; simpl; [rewrite decide_True by done; left|].
  specialize (IH Hin Hne). destruct (decide _); [by right|].
  destruct (overlap_case _ _ _ _) as [[]|]; try done;
    repeat match goal with |- context [if ?b then _ else _] => destruct b end; repeat right; done.
Qed.

Lemma retype k y : lf_type k = F_WRLCK -> data y = lf_with_type k F_UNLCK -> data (lf_with_type y F_WRLCK) = k.
Proof.
  destruct y, k. unfold data, lf_with_type, lf_with_next, lf_with_block. simpl. intros -> H. injection H. intros. by subst.
Qed.

(** The lists after [drop_own]. *)
Definition dropped (k : lockf) (sp : loc) (xs : locks) : locks :=
  if flag_set (lf_flags k) F_FLOCK && (lf_type k =? F_WRLCK) then del sp k xs else xs.

Lemma drop_own_spec s gm wm lock k :
  locks_inv s gm wm -> given s gm wm lock k ->
  exists s' gm' wm' sp, drop_own k lock s = Some (tt, s') /\ locks_inv s' gm' wm' /\ given s' gm' wm' lock k /\
    gm' (lf_inode k) = dropped k sp (gm (lf_inode k)) /\ (forall jp, jp <> lf_inode k -> gm' jp = gm jp) /\
    others_kept s gm lock s' gm'.
Proof.
  intros Hinv Hgv. unfold drop_own, dropped.
  destruct (flag_set (lf_flags k) F_FLOCK && (lf_type k =? F_WRLCK)) eqn:Hfl.
  2:{ exists s, gm, wm, 1%positive. split_and!; try done. }
  apply andb_true_iff in Hfl as [_ Ht]. apply Z.eqb_eq in Ht. pose proof Hgv as [Hd Hok Hout Hidle Hip].
  destruct (dat_is_Some s lock k Hd) as (x & Hx & Ex).
  destruct (inv_idle s gm wm lock k (fun y => lf_with_type y F_UNLCK) (lf_with_type k F_UNLCK) Hinv Hgv) as [Hinv1 Hd1];
    [by intros y <-|done|].
  set (s1 := upd_heap _ s) in *.
  destruct (clear_spec s1 gm wm lock (lf_with_type k F_UNLCK) Hinv1) as (s2 & gm2 & wm2 & sp & Hrun & Hinv2 & Hg & Hot & Hk2 & Hgv2);
    [by split|].
  destruct (inv_idle s2 gm2 wm2 lock _ (fun y => lf_with_type y F_WRLCK) k Hinv2 Hgv2) as [Hinv3 Hd3];
    [intros y Hy; by apply retype|done|].
  set (s3 := upd_heap (alter (fun y => lf_with_type y F_WRLCK) lock) s2) in *. destruct Hk2 as [K1 K2 K3].
  destruct Hgv2 as [G1 G2 G3 G4 G5]. destruct (dat_is_Some s2 lock _ G1) as (x2 & Hx2 & _).
  exists s3, gm2, wm2, sp. split_and!; try done.
  - rewrite (kbind_run _ s tt s1) by (by apply (modl_run s lock x)).
    rewrite (kbind_run _ s1 tt s2) by done. by apply (modl_run s2 lock x2).
  - split; [|by intros jp Hj; apply K2|by intros q c; apply K3].
    intros m Hm Hmg Hml. unfold s3. rewrite dat_alter, decide_False by done.
    destruct (K1 m) as [E ?]; [|done..|].
    { unfold s1. simpl. by rewrite lookup_alter_ne. }
    split; [|done]. rewrite E. unfold s1. by rewrite dat_alter, decide_False.
Qed.

(** The caller has to wait: it sleeps behind a lock that conflicts with its own. *)
Lemma wait_spec p b d s gm wm lock k :
  locks_inv s gm wm -> given s gm wm lock k -> (b, d) ∈ gm (lf_inode k) -> blocking k d -> ls_wchan s !! p = None ->
  exists s' gm' wm' sp, (do! drop_own k lock in go_to_sleep p lock b)%kern s = Some (SSleep, s') /\
    locks_inv s' gm' wm' /\ gm' (lf_inode k) = dropped k sp (gm (lf_inode k)) /\
    (forall jp, jp <> lf_inode k -> gm' jp = gm jp) /\
    lock ∈ wm' b /\ (b, d) ∈ gm' (lf_inode k) /\ dat s' lock = Some k /\ ls_wchan s' !! p = Some lock /\
    next_of s' lock = Some (Some b) /\ is_Some (ls_lockf s' !! lf_inode k) /\ ~ granted gm' lock /\
    (forall m, is_Some (ls_heap s !! m) -> ~ granted gm m -> m <> lock -> dat s' m = dat s m /\ ~ granted gm' m) /\
    (forall jp, is_Some (ls_lockf s !! jp) -> is_Some (ls_lockf s' !! jp)) /\
    (forall q c, ls_wchan s' !! q = Some c -> ls_wchan s !! q = Some c \/ q = p /\ c = lock).
Proof.
  intros Hinv Hgv Hb Hbk Hp.
  destruct (drop_own_spec s gm wm lock k Hinv Hgv) as (s1 & gm1 & wm1 & sp & Hrun1 & Hinv1 & Hgv1 & Hg1 & Hot1 & [K1 K2 K3]).
  assert (Hb1 : (b, d) ∈ gm1 (lf_inode k)).
  { rewrite Hg1. unfold dropped. destruct (_ && _); [|done]. apply del_others; [done|apply Hbk]. }
  assert (Hin : lf_inode d = lf_inode k) by (apply (li_data _ _ (iv_lists _ _ _ Hinv) _ _ _ Hb)).
  destruct (sleep_spec p b d s1 gm1 wm1 lock k) as (s2 & Hrun2 & Hinv2 & Hd2 & Hw2 & Hl2 & Hn2); try done.
  { apply overlaps_inode; try done; [by apply (iv_ok _ _ _ Hinv) in Hb|apply Hgv]. }
  { destruct (ls_wchan s1 !! p) as [c|] eqn:E; [|done]. apply K3 in E. congruence. }
  destruct Hgv1 as [G1 G2 G3 G4 G5].
  exists s2, gm1, (fupd wm1 b (wm1 b ++ [lock])), sp. split_and!; try done.
  - by rewrite (kbind_run _ s tt s1).
  - rewrite fupd_eq. apply elem_of_app. right. left.
  - by rewrite Hd2.
  - rewrite Hw2. apply lookup_insert_eq.
  - by rewrite Hl2.
  - intros m Hm Hmg Hml. rewrite Hd2. by apply K1.
  - intros jp Hj. rewrite Hl2. by apply K2.
  - intros q c. rewrite Hw2. intros Hq. apply lookup_insert_Some in Hq as [[-> ->]|[_ Hq]]; [auto|]. left. by apply K3.
Qed.

(** ** The running system *)

(** The processes inside [lf_setlock], asleep or woken and not yet running, with their
    locks. *)
Abbreviation pending := (gmap loc loc) (only parsing).

Definition after (r : setres) (p lock : loc) (pend : pending) : pending :=
  match r with SSleep => <[p := lock]> pend | SDone _ => delete p pend end.

(** A lock as the file system's entry point fills it in. *)
Definition fresh_lock (s : lst) (x : lockf) : Prop :=
  data x = x /\ range_ok x /\ is_Some (ls_lockf s !! lf_inode x).

(** The uninterrupted stretches of a running system: an inode comes into core, a process
    sets or clears a lock, a process that was woken goes on. *)
Inductive lstep (maxlockdepth : nat) : lst * pending -> lst * pending -> Prop :=
| step_open s pend ip : ls_lockf s !! ip = None ->
    lstep maxlockdepth (s, pend) (Lst (ls_heap s) (<[ip := None]> (ls_lockf s)) (ls_wchan s) (ls_woken s), pend)
| step_set s pend p x r lock s' : pend !! p = None -> fresh_lock s x -> typed x ->
    (let! lock := mallocl x in let! r := lf_setlock maxlockdepth p lock in kret (r, lock))%kern s
      = Some ((r, lock), s') ->
    lstep maxlockdepth (s, pend) (s', after r p lock pend)
| step_clear s pend x s' : fresh_lock s x ->
    (let! unlock := mallocl x in do! lf_clearlock unlock in freel unlock)%kern s = Some (tt, s') ->
    lstep maxlockdepth (s, pend) (s', pend)
| step_woken s pend p lock r s' : pend !! p = Some lock -> ls_wchan s !! p = None ->
    lf_resume maxlockdepth p lock 0 s = Some (r, s') ->
    lstep maxlockdepth (s, pend) (s', after r p lock pend).

Definition start : lst * pending := (Lst ∅ ∅ ∅ [], ∅).

(** The locks of the pending processes. *)
Record pend_inv (s : lst) (gm : loc -> locks) (pend : pending) : Prop := {
  pi_wchan p w : ls_wchan s !! p = Some w -> pend !! p = Some w;
  pi_inj p q w : pend !! p = Some w -> pend !! q = Some w -> p = q;
  pi_lock p w : pend !! p = Some w -> exists k, dat s w = Some k /\ range_ok k /\ typed k /\
    ~ granted gm w /\ is_Some (ls_lockf s !! lf_inode k) }.

Definition sys_inv (sp : lst * pending) : Prop :=
  exists gm wm, locks_inv sp.1 gm wm /\ pend_inv sp.1 gm sp.2.

(** The pending locks over an operation on another lock. *)
Lemma pend_kept s gm lock s' gm' pend :
  pend_inv s gm pend -> (forall p, pend !! p <> Some lock) ->
  (forall m, is_Some (ls_heap s !! m) -> ~ granted gm m -> m <> lock -> dat s' m = dat s m /\ ~ granted gm' m) ->
  (forall jp, is_Some (ls_lockf s !! jp) -> is_Some (ls_lockf s' !! jp)) ->
  forall p w, pend !! p = Some w -> exists k, dat s' w = Some k /\ range_ok k /\ typed k /\
    ~ granted gm' w /\ is_Some (ls_lockf s' !! lf_inode k).
Proof.
  intros [_ _ P3] Hno Hd Hl p w Hp. destruct (P3 p w Hp) as (k & Hk & ? & ? & Hg & Hi).
  destruct (dat_is_Some s w k Hk) as (x & Hx & _).
  destruct (Hd w) as [E ?]; [eauto|done|intros ->; by apply (Hno p)|].
  exists k. rewrite E. split_and!; auto.
Qed.

Lemma others_pend s gm lock s' gm' pend :
  pend_inv s gm pend -> (forall p, pend !! p <> Some lock) -> others_kept s gm lock s' gm' -> pend_inv s' gm' pend.
Proof.
  intros Hp Hno [K1 K2 K3]. split; [intros p w Hw; by apply (pi_wchan _ _ _ Hp), K3|apply Hp|].
  by apply (pend_kept s gm lock).
Qed.

(** One call of [lf_setlock] by a process that is not asleep. *)
Lemma setlock_inv maxlockdepth p s gm wm lock k pend r s' :
  locks_inv s gm wm -> given s gm wm lock k -> typed k -> pend_inv s gm pend -> pend !! p = None ->
  (forall q, pend !! q <> Some lock) -> lf_setlock maxlockdepth p lock s = Some (r, s') ->
  sys_inv (s', after r p lock pend).
Proof.
  intros Hinv Hgv Hkt Hpend Hp Hno Hrun.
  assert (Hwp : ls_wchan s !! p = None).
  { destruct (ls_wchan s !! p) as [c|] eqn:E; [|done]. apply (pi_wchan _ _ _ Hpend) in E. congruence. }
  assert (Hdone : forall e gm' wm', r = SDone e -> locks_inv s' gm' wm' -> others_kept s gm lock s' gm' ->
    sys_inv (s', after r p lock pend)).
  { intros e gm' wm' -> Hi Ho. exists gm', wm'. simpl. rewrite delete_id by done. split; [done|].
    by apply (others_pend s gm lock). }
  assert (Hfree : forall e, (do! freel lock in kret (SDone e))%kern s = Some (r, s') -> sys_inv (s', after r p lock pend)).
  { intros e H. destruct (free_spec s gm wm lock k Hinv Hgv) as (Hf & Hi & Ho). rewrite (kbind_run _ _ _ _ _ Hf) in H.
    injection H as <- <-. by apply (Hdone e gm wm). }
  destruct (filter (blocking_item k) (gm (lf_inode k))) as [|[b d] rest] eqn:Hf.
  { destruct (grant_spec maxlockdepth p s gm wm lock k) as (s2 & gm2 & wm2 & sp & Hrun2 & Hi & _ & _ & Ho); try done.
    { intros l d Hin Hbk. assert (Hin' : (l, d) ∈ filter (blocking_item k) (gm (lf_inode k))) by (by apply list_elem_of_filter).
      rewrite Hf in Hin'. by apply elem_of_nil in Hin'. }
    rewrite Hrun in Hrun2. injection Hrun2 as -> ->. by apply (Hdone 0 gm2 wm2). }
  rewrite (blocked_run maxlockdepth p s gm wm lock k b d rest) in Hrun by done.
  assert (Hbd : (b, d) ∈ filter (blocking_item k) (gm (lf_inode k))) by (rewrite Hf; left).
  apply list_elem_of_filter in Hbd as [Hbk Hbd].
  destruct (negb _); [by apply (Hfree EAGAIN)|].
  assert (Hdead : exists dead, (if (dead : bool) then do! freel lock in kret (SDone EDEADLK)
    else do! drop_own k lock in go_to_sleep p lock b)%kern s = Some (r, s')).
  { destruct (_ && _); [|by exists false]. unfold kbind at 1 in Hrun.
    destruct (deadlocks _ _ _ s) as [[dead s1]|] eqn:E; [|done]. apply deadlocks_state in E as ->. eauto. }
  destruct Hdead as [[|] Hrest]; [by apply (Hfree EDEADLK)|].
  destruct (wait_spec p b d s gm wm lock k) as
    (s2 & gm2 & wm2 & sp & Hrun2 & Hi & _ & _ & Hw & _ & Hd & Hwc & _ & Hip & Hout & K1 & K2 & K3); try done.
  rewrite Hrest in Hrun2. injection Hrun2 as -> ->. exists gm2, wm2. split; [done|]. simpl. split.
  - intros q w Hq. apply K3 in Hq as [Hq|[-> ->]]; [|apply lookup_insert_eq].
    rewrite lookup_insert_ne; [by apply (pi_wchan _ _ _ Hpend)|]. intros <-. congruence.
  - intros q1 q2 w H1 H2. apply lookup_insert_Some in H1 as [[<- <-]|[_ H1]], H2 as [[<- E]|[_ H2]]; try done.
    + by apply Hno in H2.
    + subst w. by apply Hno in H1.
    + by apply (pi_inj _ _ _ Hpend q1 q2 w).
  - intros q w Hq. apply lookup_insert_Some in Hq as [[<- <-]|[_ Hq]].
    + exists k. split_and!; try done. apply Hgv.
    + by apply (pend_kept s gm lock s2 gm2 pend Hpend Hno K1 K2 q w).
Qed.

(** *** Each step *)

Lemma malloc_spec s gm wm pend x :
  locks_inv s gm wm -> pend_inv s gm pend -> fresh_lock s x ->
  let lock := fresh (dom (ls_heap s)) in
  let s1 := upd_heap (<[lock := x]>) s in
  mallocl x s = Some (lock, s1) /\ locks_inv s1 gm wm /\ given s1 gm wm lock x /\ pend_inv s1 gm pend /\
  forall p, pend !! p <> Some lock.
Proof.
  intros Hinv Hpend (Hx & Hok & Hip) lock s1.
  assert (Hnone : ls_heap s !! lock = None) by (apply not_elem_of_dom, is_fresh).
  assert (Hda : forall m, m <> lock -> ls_heap s1 !! m = ls_heap s !! m).
  { intros m Hm. unfold s1. simpl. by rewrite lookup_insert_ne. }
  assert (Halloc : forall m, is_Some (ls_heap s !! m) -> m <> lock) by (intros m [y Hy] ->; congruence).
  pose proof Hinv as [I1 I2 I3 I4 I5 I6 I7].
  assert (Hg : ~ granted gm lock) by (intros H; by apply (Halloc lock); [apply (granted_alloc s gm)|]).
  assert (Hpn : forall p, pend !! p <> Some lock).
  { intros p Hp. destruct (pi_lock _ _ _ Hpend p lock Hp) as (k & Hk & _). unfold dat in Hk. by rewrite Hnone in Hk. }
  assert (Hwn : forall l, lock ∉ wm l).
  { intros l Hl. by apply (Halloc lock); [apply (bl_host _ _ _ I2 l lock Hl)|]. }
  split_and!; try done.
  - split; try done.
    + apply (lists_same s); [done..|]. intros l Hl. unfold next_of, dat. rewrite Hda; [done|].
      apply Halloc. by apply (granted_alloc s gm).
    + apply blocks_new; [done..|]. by rewrite <- Hx.
    + destruct I3 as [W1 W2]. split; [done|]. intros l w Hw. destruct (W2 l w Hw) as (jp & d & y & ? & ? & ?).
      exists jp, d, y. split_and!; try done. unfold dat. rewrite Hda; [done|]. apply Halloc. by apply (bl_host _ _ _ I2 l).
  - split; try done. unfold s1, dat. simpl. rewrite lookup_insert_eq. simpl. by rewrite Hx.
  - split; [apply Hpend..|]. intros p w Hp. destruct (pi_lock _ _ _ Hpend p w Hp) as (k & Hk & ?).
    exists k. split; [|done]. rewrite <- Hk. unfold dat. rewrite Hda; [done|]. intros ->. by apply (Hpn p).
Qed.

Lemma resume_ok maxlockdepth p lock s :
  ls_wchan s !! p = None -> lf_resume maxlockdepth p lock 0 s = lf_setlock maxlockdepth p lock s.
Proof.
  intros Hp. unfold lf_resume. unfold kbind at 1, kmod. rewrite delete_id by done. by destruct s.
Qed.

(** A pending lock whose process is not asleep is on no list. *)
Lemma pending_given s gm wm pend p lock :
  locks_inv s gm wm -> pend_inv s gm pend -> pend !! p = Some lock -> ls_wchan s !! p = None ->
  exists k, given s gm wm lock k /\ typed k.
Proof.
  intros Hinv Hpend Hp Hw. destruct (pi_lock _ _ _ Hpend p lock Hp) as (k & Hk & ? & ? & Hg & Hi).
  exists k. split; [|done]. split; try done. intros l Hl.
  destruct (bl_asleep _ _ _ (iv_blocks _ _ _ Hinv) l lock Hl) as [q Hq].
  pose proof (pi_wchan _ _ _ Hpend q lock Hq) as Hq'. rewrite (pi_inj _ _ _ Hpend p q lock) in Hw by done. congruence.
Qed.

Lemma after_delete r p lock (pend : pending) : after r p lock (delete p pend) = after r p lock pend.
Proof. destruct r; simpl; [by rewrite delete_delete_eq|apply insert_delete_eq]. Qed.

Lemma step_sys_inv maxlockdepth x y : lstep maxlockdepth x y -> sys_inv x -> sys_inv y.
Proof.
  intros Hstep (gm & wm & Hinv & Hpend). destruct Hstep as [s pend ip Hip|s pend p x r lock s' Hp Hx Ht Hrun|s pend x s' Hx Hrun|s pend p lock r s' Hp Hw Hrun]; simpl in *.
  - exists gm, wm. pose proof Hinv as [I1 I2 I3 I4 I5 I6 I7]. split; [split; try done|].
    + destruct I1 as [L1 L2 L3]. split; try done. intros jp. simpl. destruct (decide (jp = ip)) as [->|Hne].
      * specialize (L1 ip). rewrite Hip in L1. rewrite lookup_insert_eq, L1. simpl. by rewrite lookup_insert_eq.
      * rewrite lookup_insert_ne by done. specialize (L1 jp). destruct (ls_lockf s !! jp) eqn:E; [|done].
        eapply chain_frame; [|exact L1]. intros qq [->|(z & _ & ->)]; [|done]. simpl. by rewrite lookup_insert_ne.
    + by apply (blocks_same None s).
    + by destruct I3.
    + destruct Hpend as [P1 P2 P3]. split; [done..|]. intros p w Hpw. destruct (P3 p w Hpw) as (k & ? & ? & ? & ? & ?).
      exists k. split_and!; try done. simpl. destruct (decide (lf_inode k = ip)) as [->|];
        [rewrite lookup_insert_eq; eauto|by rewrite lookup_insert_ne].
  - destruct (malloc_spec s gm wm pend x Hinv Hpend Hx) as (Hm & Hi & Hg & Hp1 & Hno).
    rewrite (kbind_run _ _ _ _ _ Hm) in Hrun. unfold kbind in Hrun.
    destruct (lf_setlock _ _ _ _) as [[r1 s1]|] eqn:E; [|done]. injection Hrun as -> <- ->.
    by apply (setlock_inv maxlockdepth p _ gm wm _ x pend) in E.
  - destruct (malloc_spec s gm wm pend x Hinv Hpend Hx) as (Hm & Hi & Hg & Hp1 & Hno).
    rewrite (kbind_run _ _ _ _ _ Hm) in Hrun.
    destruct (clear_spec _ gm wm _ x Hi Hg) as (s2 & gm2 & wm2 & sp & Hc & Hi2 & _ & _ & Ho & Hg2).
    rewrite (kbind_run _ _ _ _ _ Hc) in Hrun.
    destruct (free_spec s2 gm2 wm2 _ x Hi2 Hg2) as (Hf & Hi3 & Ho3). rewrite Hf in Hrun. injection Hrun as <-.
    exists gm2, wm2. split; [done|]. simpl. eapply others_pend; [|done|exact Ho3]. by eapply others_pend.
  - destruct (pending_given s gm wm pend p lock) as (k & Hg & Hk); try done. rewrite resume_ok in Hrun by done.
    rewrite <- after_delete. apply (setlock_inv maxlockdepth p s gm wm lock k (delete p pend)); try done.
    + destruct Hpend as [P1 P2 P3]. split.
      * intros q w Hq. rewrite lookup_delete_ne; [by apply P1|]. intros <-. congruence.
      * intros q1 q2 w H1 H2. apply lookup_delete_Some in H1 as [_ H1], H2 as [_ H2]. by apply (P2 q1 q2 w).
      * intros q w Hq. apply lookup_delete_Some in Hq as [_ Hq]. by apply (P3 q).
    + apply lookup_delete_eq.
    + intros q Hq. apply lookup_delete_Some in Hq as [Hne Hq]. apply Hne. by apply (pi_inj _ _ _ Hpend p q lock).
Qed.

Lemma start_inv : sys_inv start.
Proof.
  exists (fun _ => []), (fun _ => []). unfold start. simpl.
  assert (Hno : forall (l : loc), l ∉ ([] : list loc)) by (intros l Hl; by apply elem_of_nil in Hl).
  split.
  - split; try done.
    + split; try done; [intros; apply NoDup_nil_2|]. intros ip l d Hl. by apply elem_of_nil in Hl.
    + split; try done; try (intros; by exfalso; eapply Hno); [|intros; apply NoDup_nil_2].
      intros l _ Hl. simpl in Hl. rewrite lookup_empty in Hl. by destruct Hl.
    + split; intros l w Hw; by apply Hno in Hw.
    + intros ip l d Hl. by apply elem_of_nil in Hl.
    + intros ip l d Hl. by apply elem_of_nil in Hl.
    + intros ip id1 id2 b t1 t2 H. by apply holds_nil in H.
  - split; intros *; by rewrite lookup_empty.
Qed.

Lemma reachable_inv maxlockdepth x : rtc (lstep maxlockdepth) start x -> sys_inv x.
Proof.
  intros H. remember start as y eqn:Ey. pose proof start_inv as Hy. rewrite <- Ey in Hy. clear Ey.
  induction H as [|x y z Hxy _ IH]; [done|]. apply IH. by apply (step_sys_inv maxlockdepth x y).
Qed.
