(* ===== verification/LockfCalls.v ===== *)
(** * The calls on byte-range locks

    The properties of ufs_lockf.c: what each call does to the byte map of the file, what
    holds in every reachable state, and where the code breaks its own lists. *)

From S2P Require Import Prelude Chain Lockf LockfSpec LockfHeap LockfGrant LockfLoops LockfSafety.

Ltac in_range := unfold range_ok, OFF_MAX; simpl; lia.

(** ** A system with one lock, for the examples *)

Lemma one_lock_inv s ip l d :
  dat s l = Some d -> next_of s l = Some None -> (forall m, is_Some (ls_heap s !! m) -> block_of s m = Some None) ->
  ls_lockf s = {[ip := Some l]} -> ls_wchan s = ∅ -> range_ok d -> typed d -> lf_inode d = ip ->
  locks_inv s (fun jp => if decide (jp = ip) then [(l, d)] else []) (fun _ => []).
Proof.
  intros Hd Hn Hb Hl Hw Hok Ht Hi.
  assert (Hno : forall m : loc, m ∉ ([] : list loc)) by (intros m Hm; by apply elem_of_nil in Hm).
  assert (Hin : forall jp m y, (m, y) ∈ (if decide (jp = ip) then [(l, d)] else []) -> jp = ip /\ m = l /\ y = d).
  { intros jp m y. destruct (decide (jp = ip)); [|intros H; by apply elem_of_nil in H].
    intros H. apply list_elem_of_singleton in H. by injection H. }
  split.
  - split.
    + intros jp. rewrite Hl. destruct (decide (jp = ip)) as [->|Hne]; [|by rewrite lookup_singleton_ne].
      rewrite lookup_singleton_eq. simpl. rewrite Hl, lookup_singleton_eq. split; [done|].
      exact Hn.
    + intros jp. destruct (decide _); [apply NoDup_singleton|apply NoDup_nil_2].
    + intros jp m y H. by apply Hin in H as (-> & -> & ->).
  - split; try done; try (intros; by exfalso; eapply Hno); [| |intros *; rewrite Hw; by rewrite lookup_empty].
    + intros m _ Hm _. exact (Hb m Hm).
    + intros m. apply NoDup_nil_2.
  - split; intros m w H; by apply Hno in H.
  - intros jp m y H. by apply Hin in H as (_ & _ & ->).
  - intros jp. destruct (decide _); [|done]. simpl. split; [|done]. intros m y H. by apply elem_of_nil in H.
  - intros jp m y H. by apply Hin in H as (_ & _ & ->).
  - intros jp id1 id2 b t1 t2 (m1 & y1 & H1 & <- & _) (m2 & y2 & H2 & <- & _).
    apply Hin in H1 as (_ & _ & ->), H2 as (_ & _ & ->). done.
Qed.

(** Owner 100 has the bytes 0 to 9 of inode 7 for writing, and the lock at 2 is given to
    an operation. *)
Definition ex_lock (flags type start end_ : Z) (id : loc) : lockf := Lockf flags type start end_ id 7%positive None None.
Definition ex_state (k : lockf) : lst :=
  Lst {[1%positive := ex_lock F_POSIX F_WRLCK 0 9 100%positive; 2%positive := k]} {[7%positive := Some 1%positive]} ∅ [].
Definition ex_lists : loc -> list (loc * lockf) :=
  fun jp => if decide (jp = 7%positive) then [(1%positive, ex_lock F_POSIX F_WRLCK 0 9 100%positive)] else [].

Lemma ex_state_inv k : lf_block k = None -> locks_inv (ex_state k) ex_lists (fun _ => []).
Proof.
  intros Hk. apply one_lock_inv; try done; [|in_range|by right].
  intros m Hm. unfold block_of, ex_state in *. simpl in *.
  destruct (decide (m = 1%positive)) as [->|]; [by rewrite lookup_insert_eq|]. rewrite lookup_insert_ne in * by done.
  destruct (decide (m = 2%positive)) as [->|]; [rewrite lookup_singleton_eq; simpl; by rewrite Hk|].
  rewrite lookup_singleton_ne in Hm by done. by destruct Hm.
Qed.

Lemma ex_state_given k : data k = k -> range_ok k -> lf_inode k = 7%positive ->
  given (ex_state k) ex_lists (fun _ => []) 2%positive k.
Proof.
  intros Hd Hk Hi. split; [|done|..].
  - unfold dat, ex_state. cbn [ls_heap]. rewrite lookup_insert_ne, lookup_singleton_eq by done. cbn. by f_equal.
  - intros [jp H]. unfold ex_lists in H. destruct (decide _); [|by apply elem_of_nil in H].
    by apply list_elem_of_singleton in H.
  - intros l H. by apply elem_of_nil in H.
  - rewrite Hi. simpl. rewrite lookup_singleton_eq. eauto.
Qed.

(** ** The calls *)

(** C12. Setting a lock that no other owner's lock stands in the way of: [lf_setlock]
    returns 0 without sleeping; the caller then holds every byte of the range with the
    type it asked for, every other byte of every owner is held as before, the lists stay
    sorted for each owner and exclusive between owners, and no other inode changes. *)
Theorem lf_setlock_grants maxlockdepth p s gm wm lock k :
  locks_inv s gm wm -> given s gm wm lock k -> typed k -> (forall l d, (l, d) ∈ gm (lf_inode k) -> ~ blocking k d) ->
  exists s' gm' wm', lf_setlock maxlockdepth p lock s = Some (SDone 0, s') /\ locks_inv s' gm' wm' /\
    (forall id b t, holds (gm' (lf_inode k)) id b t <->
       (target k id b /\ t = lf_type k) \/ (~ target k id b /\ holds (gm (lf_inode k)) id b t)) /\
    (forall jp, jp <> lf_inode k -> gm' jp = gm jp) /\ others_kept s gm lock s' gm'.
Proof.
  intros Hinv Hgv Ht Hnb.
  destruct (grant_spec maxlockdepth p s gm wm lock k) as (s' & gm' & wm' & sp & H1 & H2 & H3 & H4 & H5); try done.
  exists s', gm', wm'. split_and!; try done. intros id b t. rewrite H3.
  apply ins_holds; [by destruct Hgv|by apply Hinv..].
Qed.

(** The owner reads the middle of its own range: [lf_split] leaves three locks. *)
Lemma lf_setlock_grants_witness :
  let k := ex_lock F_POSIX F_RDLCK 4 6 100%positive in
  exists s' gm' wm', lf_setlock 50 3%positive 2%positive (ex_state k) = Some (SDone 0, s') /\ locks_inv s' gm' wm' /\
    holds (gm' 7%positive) 100%positive 5 F_RDLCK /\ holds (gm' 7%positive) 100%positive 8 F_WRLCK.
Proof.
  intros k. destruct (lf_setlock_grants 50 3%positive (ex_state k) ex_lists (fun _ => []) 2%positive k)
    as (s' & gm' & wm' & H1 & H2 & H3 & _).
  - by apply ex_state_inv.
  - apply ex_state_given; [done|in_range|done].
  - by left.
  - intros l d H. apply list_elem_of_singleton in H. injection H as -> ->. intros [H _]. by apply H.
  - exists s', gm', wm'. split; [done|]. split; [done|]. split; apply H3.
    + left. split; [|done]. split; [done|]. unfold covers, ext. simpl. lia.
    + right. split; [intros [_ H]; unfold covers, ext in H; simpl in H; lia|].
      exists 1%positive, (ex_lock F_POSIX F_WRLCK 0 9 100%positive). split; [left|].
      split_and!; try done; unfold ext; simpl; lia.
Defined.

(** Clearing a range: [lf_clearlock] takes from the caller exactly the bytes of the
    range and leaves every other byte of every owner as it was. *)
Theorem lf_clearlock_clears s gm wm lock k :
  locks_inv s gm wm -> given s gm wm lock k ->
  exists s' gm' wm', lf_clearlock lock s = Some (tt, s') /\ locks_inv s' gm' wm' /\
    (forall id b t, holds (gm' (lf_inode k)) id b t <-> ~ target k id b /\ holds (gm (lf_inode k)) id b t) /\
    (forall jp, jp <> lf_inode k -> gm' jp = gm jp) /\ given s' gm' wm' lock k /\ others_kept s gm lock s' gm'.
Proof.
  intros Hinv Hgv. destruct (clear_spec s gm wm lock k) as (s' & gm' & wm' & sp & H1 & H2 & H3 & H4 & H5 & H6); try done.
  exists s', gm', wm'. split_and!; try done. intros id b t. rewrite H3.
  apply del_holds; [by destruct Hgv|by apply Hinv..].
Qed.

Lemma lf_clearlock_clears_witness :
  let k := ex_lock F_POSIX F_UNLCK 8 (-1) 100%positive in
  exists s' gm' wm', lf_clearlock 2%positive (ex_state k) = Some (tt, s') /\ locks_inv s' gm' wm' /\
    holds (gm' 7%positive) 100%positive 7 F_WRLCK /\ ~ holds (gm' 7%positive) 100%positive 8 F_WRLCK.
Proof.
  intros k. destruct (lf_clearlock_clears (ex_state k) ex_lists (fun _ => []) 2%positive k)
    as (s' & gm' & wm' & H1 & H2 & H3 & _).
  - by apply ex_state_inv.
  - apply ex_state_given; [done|in_range|done].
  - exists s', gm', wm'. split; [done|]. split; [done|]. split.
    + apply H3. split; [intros [_ H]; unfold covers, ext in H; simpl in H; lia|].
      exists 1%positive, (ex_lock F_POSIX F_WRLCK 0 9 100%positive). split; [left|].
      split_and!; try done; unfold ext; simpl; lia.
    + intros H. apply H3 in H as [H _]. apply H. split; [done|]. unfold covers, ext, OFF_MAX. simpl. lia.
Defined.

(** [lf_getlock] describes the first lock of the list in the way of the request, its
    length computed without overflow and 0 to the end of the file; it answers [F_UNLCK]
    exactly when [lf_setlock] would grant the request. *)
Theorem lf_getlock_answers pid_of s gm wm lock k :
  locks_inv s gm wm -> given s gm wm lock k ->
  (exists b d, (b, d) ∈ gm (lf_inode k) /\ blocking k d /\
     lf_getlock pid_of lock s = Some (Flock (lf_type d) (Some 0) (Some (lf_start d))
       (Some (if lf_end d =? -1 then 0 else lf_end d - lf_start d + 1))
       (Some (if flag_set (lf_flags d) F_POSIX then pid_of (lf_id d) else -1)), s)) \/
  (forall l d, (l, d) ∈ gm (lf_inode k) -> ~ blocking k d) /\
     lf_getlock pid_of lock s = Some (Flock F_UNLCK None None None None, s).
Proof.
  intros Hinv Hgv. pose proof (getblock_spec _ _ _ _ _ Hinv Hgv) as Hb. unfold lf_getlock.
  destruct (filter (blocking_item k) (gm (lf_inode k))) as [|[b d] r] eqn:Hf.
  - right. rewrite (kbind_run _ s None s) by done. split; [|done]. intros l d Hin Hbk.
    assert (H : (l, d) ∈ filter (blocking_item k) (gm (lf_inode k))) by (by apply list_elem_of_filter).
    rewrite Hf in H. by apply elem_of_nil in H.
  - left. rewrite (kbind_run _ s (Some b) s) by done.
    assert (H : (b, d) ∈ filter (blocking_item k) (gm (lf_inode k))) by (rewrite Hf; left).
    apply list_elem_of_filter in H as [Hbk Hin]. exists b, d. split; [done|]. split; [done|].
    destruct (li_data _ _ (iv_lists _ _ _ Hinv) _ _ _ Hin) as [Hd _]. destruct (dat_is_Some s b d Hd) as (x & Hx & <-).
    rewrite (kbind_run _ s x s) by (by apply getl_run). pose proof (iv_ok _ _ _ Hinv _ _ _ Hin) as Hok.
    unfold kret. do 4 f_equal. change (lf_end (data x)) with (lf_end x). change (lf_start (data x)) with (lf_start x).
    unfold range_ok, OFF_MAX in Hok. simpl in Hok. destruct (Z.eqb_spec (lf_end x) (-1)); [done|].
    f_equal. rewrite (s32_id (lf_end x - lf_start x)) by (unfold is_s32; lia). rewrite s32_id by (unfold is_s32; lia). lia.
Qed.

Lemma lf_getlock_answers_witness :
  let k := ex_lock F_POSIX F_RDLCK 4 6 200%positive in
  (exists b d, (b, d) ∈ ex_lists (lf_inode k) /\ blocking k d /\
     lf_getlock Zpos 2%positive (ex_state k) = Some (Flock (lf_type d) (Some 0) (Some (lf_start d))
       (Some (if lf_end d =? -1 then 0 else lf_end d - lf_start d + 1))
       (Some (if flag_set (lf_flags d) F_POSIX then Zpos (lf_id d) else -1)), ex_state k)) /\
  lf_getlock Zpos 2%positive (ex_state k) = Some (Flock F_WRLCK (Some 0) (Some 0) (Some 10) (Some 100), ex_state k).
Proof.
  intros k. split; [|vm_compute; reflexivity].
  destruct (lf_getlock_answers Zpos (ex_state k) ex_lists (fun _ => []) 2%positive k) as [H|[H _]]; [| |exact H|].
  - by apply ex_state_inv.
  - apply ex_state_given; [done|in_range|done].
  - exfalso. eapply (H 1%positive); [left|]. split; [done|]. split; [done|]. by right.
Defined.

(** ** A lock in the way *)

(** The process [p] waits for a lock of the owner [q], a POSIX one. *)
Definition waits_for (s : lst) (p q : loc) : Prop :=
  exists w b y, ls_wchan s !! p = Some w /\ next_of s w = Some (Some b) /\ ls_heap s !! b = Some y /\
    flag_set (lf_flags y) F_POSIX = true /\ lf_id y = q.

Lemma waits_for_fun s p q1 q2 : waits_for s p q1 -> waits_for s p q2 -> q1 = q2.
Proof. intros (w1 & b1 & y1 & ? & ? & ? & _ & <-) (w2 & b2 & y2 & ? & ? & ? & _ & <-). congruence. Qed.

(** C34. The deadlock test: when it returns, it answers [true] exactly if following the
    POSIX locks the owners sleep on leads back to the caller within [maxlockdepth]
    steps. *)
Theorem deadlocks_cycle s me : forall depth w dead s',
  deadlocks depth me w s = Some (dead, s') ->
  s' = s /\ (dead = true <-> exists n, (1 <= n <= depth)%nat /\ nsteps (waits_for s) n w me).
Proof.
  intros depth w dead s' H. split; [by apply deadlocks_state in H|]. revert w dead s' H.
  induction depth as [|depth IH]; intros w dead s' H; simpl in H.
  { injection H as <- <-. split; [done|]. intros (n & ? & _). lia. }
  unfold kbind at 1, kget in H.
  assert (Hstuck : (forall q, ~ waits_for s w q) -> ~ exists n, (1 <= n <= S depth)%nat /\ nsteps (waits_for s) n w me).
  { intros Hn (n & Hle & Hst). inversion Hst; subst; [lia|]. by eapply Hn. }
  destruct (ls_wchan s !! w) as [x|] eqn:Hx.
  2:{ injection H as <- <-. split; [done|]. intros Hex. exfalso. revert Hex. apply Hstuck.
      intros q (w1 & b1 & y1 & ? & _). congruence. }
  unfold kbind, getl, kderef in H. destruct (ls_heap s !! x) as [xx|] eqn:Hxx; [|done].
  unfold knonnull in H. destruct (lf_next xx) as [b|] eqn:Hb; [|done]. simpl in H.
  destruct (ls_heap s !! b) as [y|] eqn:Hy; [|done].
  assert (Hnx : next_of s x = Some (Some b)) by (unfold next_of; rewrite Hxx; simpl; by rewrite Hb).
  assert (Honly : forall q, waits_for s w q -> flag_set (lf_flags y) F_POSIX = true /\ lf_id y = q).
  { intros q (w1 & b1 & y1 & ? & ? & ? & ? & ?). simplify_eq. done. }
  destruct (flag_set (lf_flags y) F_POSIX) eqn:Hfl; simpl in H.
  2:{ injection H as <- <-. split; [done|]. intros Hex. exfalso. revert Hex. apply Hstuck.
      intros q Hq. by apply Honly in Hq as [? _]. }
  assert (Hstep : waits_for s w (lf_id y)) by (exists x, b, y; done).
  destruct (decide (lf_id y = me)) as [Hme|Hme].
  { injection H as <- <-. split; [|done]. intros _. exists 1%nat. split; [lia|].
    rewrite <- Hme. by apply nsteps_once. }
  rewrite (IH _ _ _ H). split.
  - intros (n & Hle & Hst). exists (S n). split; [lia|]. by eapply nsteps_l.
  - intros (n & Hle & Hst). inversion Hst as [|n' ? q ? Hq Hrest]; subst; [lia|].
    rewrite (waits_for_fun s w (lf_id y) q) by done. exists n'. split; [|done].
    destruct n'; [|lia]. inversion Hrest; subst. by rewrite (waits_for_fun s w (lf_id y) me) in Hme.
Qed.

(** Two processes that each hold the byte the other wants. *)
Definition ex_ring : lst :=
  Lst (list_to_map
    [(1%positive, ex_lock F_POSIX F_WRLCK 0 0 100%positive); (2%positive, ex_lock F_POSIX F_WRLCK 5 5 200%positive);
     (3%positive, lf_with_next (ex_lock F_POSIX F_WRLCK 5 5 100%positive) (Some 2%positive))])
    {[7%positive := Some 1%positive]} {[100%positive := 3%positive]} [].

Lemma deadlocks_cycle_witness :
  deadlocks 50 200%positive 100%positive ex_ring = Some (true, ex_ring) /\
  exists n, (1 <= n <= 50)%nat /\ nsteps (waits_for ex_ring) n 100%positive 200%positive.
Proof.
  assert (H : deadlocks 50 200%positive 100%positive ex_ring = Some (true, ex_ring)) by (vm_compute; reflexivity).
  split; [exact H|]. apply (deadlocks_cycle ex_ring 200%positive 50 100%positive true ex_ring H). reflexivity.
Defined.

(** Setting a lock that another owner's lock [b] stands in the way of: without
    [F_WAIT] the error is [EAGAIN], and if waiting would close a cycle it is [EDEADLK],
    in both cases with the new lock freed and nothing else changed; otherwise the process
    sleeps, on the blocked list of [b], having given up its own locks in the range first
    if it asked for an exclusive [flock], and the invariant holds while it sleeps. *)
Theorem lf_setlock_blocked maxlockdepth p s gm wm lock k l0 d0 :
  locks_inv s gm wm -> given s gm wm lock k -> ls_wchan s !! p = None ->
  (l0, d0) ∈ gm (lf_inode k) -> blocking k d0 ->
  exists b d, (b, d) ∈ gm (lf_inode k) /\ blocking k d /\ locks_inv (upd_heap (delete lock) s) gm wm /\
    let check := flag_set (lf_flags k) F_POSIX && flag_set (lf_flags d) F_POSIX in
    let dead := deadlocks maxlockdepth (lf_id k) (lf_id d) s in
    let run := lf_setlock maxlockdepth p lock s in
    (flag_set (lf_flags k) F_WAIT = false -> run = Some (SDone EAGAIN, upd_heap (delete lock) s)) /\
    (flag_set (lf_flags k) F_WAIT = true -> check = true -> dead = Some (true, s) ->
       run = Some (SDone EDEADLK, upd_heap (delete lock) s)) /\
    (flag_set (lf_flags k) F_WAIT = true -> (check = true -> dead = Some (false, s)) ->
       exists s' gm' wm' sp, run = Some (SSleep, s') /\ locks_inv s' gm' wm' /\
         gm' (lf_inode k) = dropped k sp (gm (lf_inode k)) /\ (forall jp, jp <> lf_inode k -> gm' jp = gm jp) /\
         lock ∈ wm' b /\ (b, d) ∈ gm' (lf_inode k) /\ ls_wchan s' !! p = Some lock /\ dat s' lock = Some k).
Proof.
  intros Hinv Hgv Hp Hin0 Hbk0.
  assert (H0 : (l0, d0) ∈ filter (blocking_item k) (gm (lf_inode k))) by (by apply list_elem_of_filter).
  destruct (filter (blocking_item k) (gm (lf_inode k))) as [|[b d] r] eqn:Hf; [by apply elem_of_nil in H0|].
  assert (H1 : (b, d) ∈ filter (blocking_item k) (gm (lf_inode k))) by (rewrite Hf; left).
  apply list_elem_of_filter in H1 as [Hbk Hin].
  destruct (free_spec s gm wm lock k Hinv Hgv) as (Hfree & Hi & _).
  pose proof (blocked_run maxlockdepth p s gm wm lock k b d r Hinv Hgv Hf) as Hrun.
  exists b, d. split; [done|]. split; [done|]. split; [done|]. intros check dead run. split_and!.
  - intros Hw. unfold run. rewrite Hrun, Hw. cbn [negb]. by rewrite (kbind_run _ _ _ _ _ Hfree).
  - intros Hw Hc Hd. unfold run. rewrite Hrun, Hw. cbn [negb]. unfold check in Hc. rewrite Hc.
    rewrite (kbind_run _ s true s) by exact Hd. by rewrite (kbind_run _ _ _ _ _ Hfree).
  - intros Hw Hd. destruct (wait_spec p b d s gm wm lock k) as
      (s' & gm' & wm' & sp & Hr & ? & ? & ? & ? & ? & ? & ? & _); try done.
    exists s', gm', wm', sp. split_and!; try done. unfold run. rewrite Hrun, Hw. cbn [negb].
    rewrite (kbind_run _ s false s); [done|]. fold check. destruct check; [by apply Hd|done].
Qed.

(** Owner 200 asks for a byte of owner 100, ready to wait. *)
Lemma lf_setlock_blocked_witness :
  let k := ex_lock (F_POSIX + F_WAIT) F_RDLCK 9 9 200%positive in
  exists s' gm' wm', lf_setlock 50 200%positive 2%positive (ex_state k) = Some (SSleep, s') /\ locks_inv s' gm' wm' /\
    ls_wchan s' !! 200%positive = Some 2%positive.
Proof.
  intros k. destruct (lf_setlock_blocked 50 200%positive (ex_state k) ex_lists (fun _ => []) 2%positive k
    1%positive (ex_lock F_POSIX F_WRLCK 0 9 100%positive)) as (b & d & Hb & _ & _ & _ & _ & H).
  - by apply ex_state_inv.
  - apply ex_state_given; [done|in_range|done].
  - reflexivity.
  - left.
  - split; [done|]. split; [done|]. by right.
  - apply list_elem_of_singleton in Hb. injection Hb as -> ->.
    destruct H as (s' & gm' & wm' & sp & H1 & H2 & _ & _ & _ & _ & H3 & _); [done|vm_compute; reflexivity|].
    exists s', gm', wm'. done.
Defined.

(** ** Every reachable state *)

(** C1. In every state the system reaches through set, clear and wakeup, the list of each
    inode can be read off the heap, the locks of an owner are sorted and do not overlap,
    and no byte is held by two owners unless both hold it for reading; a lock still being
    set is on no list. *)
Theorem lockf_exclusive maxlockdepth s pend :
  rtc (lstep maxlockdepth) start (s, pend) ->
  exists gm, lists s gm /\ (forall ip, ordered (gm ip) /\ exclusive (gm ip)) /\
    forall p lock, pend !! p = Some lock -> is_Some (ls_heap s !! lock) /\ ~ granted gm lock.
Proof.
  intros H. apply reachable_inv in H as (gm & wm & Hinv & Hpend). simpl in *. exists gm.
  split; [apply Hinv|]. split; [intros ip; split; apply Hinv|]. intros p lock Hp.
  destruct (pi_lock _ _ _ Hpend p lock Hp) as (k & Hk & _ & _ & Hg & _). split; [|done].
  destruct (dat_is_Some s lock k Hk) as (x & Hx & _). eauto.
Qed.

(** C13. No lost wakeup: in every reachable state, a process asleep in [lf_setlock] asks
    for a byte that a lock of another owner, on the list of the inode at that moment,
    keeps from it. *)
Theorem lockf_sleeper_blocked maxlockdepth s pend p w :
  rtc (lstep maxlockdepth) start (s, pend) -> ls_wchan s !! p = Some w ->
  exists gm k b d, lists s gm /\ pend !! p = Some w /\ dat s w = Some k /\ (b, d) ∈ gm (lf_inode k) /\ conflicts d k.
Proof.
  intros H Hp. apply reachable_inv in H as (gm & wm & Hinv & Hpend). simpl in *.
  destruct (bl_wchan _ _ _ (iv_blocks _ _ _ Hinv) p w Hp) as [l Hl].
  destruct (wa_conf _ _ _ (iv_waits _ _ _ Hinv) l w Hl) as (ip & d & k & Hd & Hk & Hc).
  assert (Hi : lf_inode k = ip).
  { rewrite <- (proj1 Hc). by destruct (li_data _ _ (iv_lists _ _ _ Hinv) _ _ _ Hd). }
  exists gm, k, l, d. rewrite Hi. split_and!; try done; [apply Hinv|]. by apply (pi_wchan _ _ _ Hpend).
Qed.

(** Owner 100 reads the bytes 0 to 9, owner 200 waits to write the byte 5, and owner 100
    takes the bytes 0 to 20 for writing. *)
Definition ex_read := ex_lock F_POSIX F_RDLCK 0 9 100%positive.
Definition ex_wait := ex_lock (F_POSIX + F_WAIT) F_WRLCK 5 5 200%positive.
Definition ex_more := ex_lock F_POSIX F_WRLCK 0 20 100%positive.

(** A [step_set] that evaluates. *)
Definition set_call (p : loc) (x : lockf) (sp : lst * gmap loc loc) : option (lst * gmap loc loc) :=
  match (let! lock := mallocl x in let! r := lf_setlock 50 p lock in kret (r, lock))%kern sp.1 with
  | Some ((r, lock), s') => Some (s', after r p lock sp.2)
  | None => None
  end.

Lemma set_call_step p x y z :
  set_call p x y = Some z -> y.2 !! p = None -> fresh_lock y.1 x -> typed x -> lstep 50 y z.
Proof.
  unfold set_call. destruct y as [s pend]. simpl.
  destruct ((let! lock := mallocl x in let! r := lf_setlock 50 p lock in kret (r, lock))%kern s) as [[[r lock] s']|] eqn:E; [|done].
  intros [= <-] Hp Hx Ht. by apply (step_set 50 s pend p x r lock s').
Qed.

Definition opened : lst * gmap loc loc := (Lst ∅ {[7%positive := None]} ∅ [], ∅).

Lemma opened_reachable : rtc (lstep 50) start opened.
Proof. apply rtc_once. exact (step_open 50 (Lst ∅ ∅ ∅ []) ∅ 7%positive eq_refl). Qed.

(** The states after each of the three calls, from [opened]. *)
Definition runs (xs : list (loc * lockf)) : lst * gmap loc loc :=
  foldl (fun y px => default start (set_call px.1 px.2 y)) opened xs.

Lemma runs_step xs p x : rtc (lstep 50) start (runs xs) -> lstep 50 (runs xs) (runs (xs ++ [(p, x)])) ->
  rtc (lstep 50) start (runs (xs ++ [(p, x)])).
Proof. intros H1 H2. eapply rtc_r; eassumption. Qed.

Ltac one_call p x := eapply (set_call_step p x);
  [vm_compute; reflexivity|vm_compute; reflexivity|split; [reflexivity|split; [in_range|vm_compute; eauto]]|vm_compute; auto].

Lemma waiting_reachable :
  rtc (lstep 50) start (runs [(100%positive, ex_read); (200%positive, ex_wait)]).
Proof.
  apply (runs_step [(100%positive, ex_read)]); [apply (runs_step []); [exact opened_reachable|]|].
  - one_call 100%positive ex_read.
  - one_call 200%positive ex_wait.
Qed.

Lemma lockf_exclusive_witness :
  let s := (runs [(100%positive, ex_read); (200%positive, ex_wait)]).1 in
  exists gm, lists s gm /\ forall ip, ordered (gm ip) /\ exclusive (gm ip).
Proof.
  intros s. pose proof waiting_reachable as H. rewrite (surjective_pairing (runs _)) in H.
  destruct (lockf_exclusive 50 _ _ H) as (gm & H1 & H2 & _). exists gm. split; [exact H1|exact H2].
Defined.

Lemma lockf_sleeper_blocked_witness :
  let s := (runs [(100%positive, ex_read); (200%positive, ex_wait)]).1 in
  exists gm w k b d, ls_wchan s !! 200%positive = Some w /\ lists s gm /\ dat s w = Some k /\
    (b, d) ∈ gm (lf_inode k) /\ conflicts d k.
Proof.
  intros s. pose proof waiting_reachable as H. rewrite (surjective_pairing (runs _)) in H.
  destruct (lockf_sleeper_blocked 50 _ _ 200%positive 2%positive H) as (gm & k & b & d & H1 & _ & H2 & H3 & H4);
    [vm_compute; reflexivity|].
  exists gm, 2%positive, k, b, d. split; [vm_compute; reflexivity|]. split; [exact H1|]. split; [exact H2|]. split; [exact H3|exact H4].
Defined.

(** C37. When a lock takes the waiters of a lock it replaces, their [lf_next] goes on
    naming the lock that is freed: a reachable state in which a sleeping process's lock
    names a lock no longer allocated, and a signal to that process makes [lf_setlock]
    follow it. *)
Theorem lockf_waiter_dangles :
  exists s pend p lock b, rtc (lstep 50) start (s, pend) /\ ls_wchan s !! p = Some lock /\
    next_of s lock = Some (Some b) /\ ls_heap s !! b = None /\ lf_resume 50 p lock EINTR s = None.
Proof.
  set (z := runs [(100%positive, ex_read); (200%positive, ex_wait); (100%positive, ex_more)]).
  exists z.1, z.2, 200%positive, 2%positive, 1%positive. split_and!; try (vm_compute; reflexivity).
  rewrite <- surjective_pairing. apply (runs_step [(100%positive, ex_read); (200%positive, ex_wait)]); [exact waiting_reachable|].
  one_call 100%positive ex_more.
Qed.
