(* ===== verification/Slcomp.v ===== *)
(** * Compression of TCP/IP headers on serial lines (sys/net/slcompress.c)

    The compressor and the decompressor of Van Jacobson's header compression on the bytes
    of the packet and of the saved headers.  A packet is the list of bytes of the mbuf that
    holds its headers; a multi-byte field is in network order.  An access outside the
    packet or outside a saved header is a fault, [None]. *)

From S2P Require Import Prelude.
Local Open Scope kern_scope.

(** ** Fields *)

Definition get8 (b : list Z) (i : Z) : option Z := znth b i.
Definition get16 (b : list Z) (i : Z) : option Z :=
  match znth b i, znth b (i + 1) with Some h, Some l => Some (h * 256 + l) | _, _ => None end.
Definition get32 (b : list Z) (i : Z) : option Z :=
  match get16 b i, get16 b (i + 2) with Some h, Some l => Some (h * 65536 + l) | _, _ => None end.

Definition put8 (b : list Z) (i v : Z) : list Z := zset b i (u8 v).
Definition put16 (b : list Z) (i v : Z) : list Z := put8 (put8 b i (v / 256)) (i + 1) v.
Definition put32 (b : list Z) (i v : Z) : list Z := put16 (put16 b i (v / 65536)) (i + 2) v.

(** [BCOPY(src, dst, n)]. *)
Definition bcopy (src dst : list Z) (n : Z) : option (list Z) :=
  if (n <=? zlen src) && (n <=? zlen dst) then Some (take (Z.to_nat n) src ++ drop (Z.to_nat n) dst) else None.

(** Offsets in a [struct ip] and, from its start, in a [struct tcphdr]. *)
Definition IP_LEN := 2.
Definition IP_ID := 4.
Definition IP_OFF := 6.
Definition IP_TTL := 8.
Definition IP_P := 9.
Definition IP_SUM := 10.
Definition IP_SRC := 12.
Definition IP_DST := 16.
Definition TH_SEQ := 4.
Definition TH_ACKNO := 8.
Definition TH_OFF := 12.
Definition TH_FLAGS := 13.
Definition TH_WIN := 14.
Definition TH_SUM := 16.
Definition TH_URP := 18.

Definition TH_FIN := 1.
Definition TH_SYN := 2.
Definition TH_RST := 4.
Definition TH_PUSH := 8.
Definition TH_ACK := 16.
Definition TH_URG := 32.
Definition IPPROTO_TCP := 6.

(** [ip_hl], in the low half of the first byte. *)
Definition ip_hl (b : list Z) : option Z := match get8 b 0 with Some v => Some (Z.land v 15) | None => None end.
(** [th_off] of the TCP header at [th]. *)
Definition th_off (b : list Z) (th : Z) : option Z :=
  match get8 b (th + TH_OFF) with Some v => Some (Z.shiftr v 4) | None => None end.

(** ** The state of a line *)

Definition MAX_STATES := 16.
(** [MLEN], the data of a 128-byte mbuf. *)
Definition MAX_HDR := 108.
(** sys/sys/mbuf.h:51-51, [MHLEN]: the bytes of an mbuf with a packet header. *)
Definition MHLEN := 100.

Definition TYPE_IP := 0x40.
Definition TYPE_UNCOMPRESSED_TCP := 0x70.
Definition TYPE_COMPRESSED_TCP := 0x80.

Definition NEW_C := 0x40.
Definition NEW_I := 0x20.
Definition NEW_S := 0x08.
Definition NEW_A := 0x04.
Definition NEW_W := 0x02.
Definition NEW_U := 0x01.
Definition SPECIAL_I := 11.
Definition SPECIAL_D := 15.
Definition SPECIALS_MASK := 15.
Definition TCP_PUSH_BIT := 0x10.

(** sys/net/slcompress.h:118-127, [cstate]: [cs_next] is the index of the next state in
    [tstate]; [cs_hdr] is the union, an IP and a TCP header with their options. *)
Record cstate := Cstate { cs_next : Z; cs_hlen : Z; cs_id : Z; cs_hdr : list Z }.

Definition SLF_TOSS := 1.

(** sys/net/slcompress.h:135-152, [slcompress]: [last_cs] is an index of [tstate];
    [sls] are the eight counters. *)
Record slcompress := Slcompress {
  last_cs : Z;
  last_recv : Z;
  last_xmit : Z;
  sl_flags : Z;
  sls : list Z;
  tstate : list cstate;
  rstate : list cstate }.

Definition sls_packets := 0.
Definition sls_compressed := 1.
Definition sls_searches := 2.
Definition sls_misses := 3.
Definition sls_uncompressedin := 4.
Definition sls_compressedin := 5.
Definition sls_errorin := 6.
Definition sls_tossed := 7.

Definition with_last_cs (s : slcompress) v := Slcompress v (last_recv s) (last_xmit s) (sl_flags s) (sls s) (tstate s) (rstate s).
Definition with_last_recv (s : slcompress) v := Slcompress (last_cs s) v (last_xmit s) (sl_flags s) (sls s) (tstate s) (rstate s).
Definition with_last_xmit (s : slcompress) v := Slcompress (last_cs s) (last_recv s) v (sl_flags s) (sls s) (tstate s) (rstate s).
Definition with_flags (s : slcompress) v := Slcompress (last_cs s) (last_recv s) (last_xmit s) v (sls s) (tstate s) (rstate s).
Definition with_sls (s : slcompress) v := Slcompress (last_cs s) (last_recv s) (last_xmit s) (sl_flags s) v (tstate s) (rstate s).
Definition with_tstate (s : slcompress) v := Slcompress (last_cs s) (last_recv s) (last_xmit s) (sl_flags s) (sls s) v (rstate s).
Definition with_rstate (s : slcompress) v := Slcompress (last_cs s) (last_recv s) (last_xmit s) (sl_flags s) (sls s) (tstate s) v.

Definition with_next (x : cstate) v := Cstate v (cs_hlen x) (cs_id x) (cs_hdr x).
Definition with_hlen (x : cstate) v := Cstate (cs_next x) v (cs_id x) (cs_hdr x).
Definition with_hdr (x : cstate) v := Cstate (cs_next x) (cs_hlen x) (cs_id x) v.

(** sys/net/slcompress.c:56-60, [INCR]. *)
Definition INCR (k : Z) : K slcompress unit :=
  kmod (fun s => with_sls s (match znth (sls s) k with Some n => zset (sls s) k (s32 (n + 1)) | None => sls s end)).

Definition get_t (i : Z) : K slcompress cstate := kderef (fun s => znth (tstate s) i).
Definition mod_t (i : Z) (f : cstate -> cstate) : K slcompress unit :=
  let! x := get_t i in kmod (fun s => with_tstate s (zset (tstate s) i (f x))).
Definition get_r (i : Z) : K slcompress cstate := kderef (fun s => znth (rstate s) i).
Definition mod_r (i : Z) (f : cstate -> cstate) : K slcompress unit :=
  let! x := get_r i in kmod (fun s => with_rstate s (zset (rstate s) i (f x))).

(** sys/net/slcompress.c:69-86, [sl_compress_init]. *)
Definition sl_compress_init : slcompress :=
  let zero := replicate (Z.to_nat MAX_HDR) 0 in
  Slcompress 0 255 255 0 (replicate 8 0)
    (imap (fun i _ => Cstate (if (i =? 0)%nat then MAX_STATES - 1 else Z.of_nat i - 1) 0 (Z.of_nat i) zero)
       (replicate (Z.to_nat MAX_STATES) tt))
    (replicate (Z.to_nat MAX_STATES) (Cstate 0 0 0 zero)).

(** ** Numbers in a compressed header *)

(** sys/net/slcompress.c:93-102, [ENCODE]: the bytes it appends to [new_seq]. *)
Definition ENCODE (n : Z) : list Z :=
  let n := u16 n in if 256 <=? n then [0; n / 256; u8 n] else [n].
(** sys/net/slcompress.c:103-112, [ENCODEZ]. *)
Definition ENCODEZ (n : Z) : list Z :=
  let n := u16 n in if (256 <=? n) || (n =? 0) then [0; n / 256; u8 n] else [n].

(** The number at [cp] and where the next one starts, as the three DECODE macros read it. *)
Definition decode (buf : list Z) (cp : Z) : option (Z * Z) :=
  match get8 buf cp with
  | Some 0 => match get16 buf (cp + 1) with Some v => Some (v, cp + 3) | None => None end
  | Some v => Some (v, cp + 1)
  | None => None
  end.

(** sys/net/slcompress.c:114-121, [DECODEL]: on the field of [h] at [f]. *)
Definition DECODEL (buf : list Z) (f : Z) (hc : list Z * Z) : option (list Z * Z) :=
  match decode buf (hc.2), get32 (hc.1) f with
  | Some (d, cp), Some v => Some (put32 (hc.1) f (u32 (v + d)), cp)
  | _, _ => None
  end.
(** sys/net/slcompress.c:123-130, [DECODES]. *)
Definition DECODES (buf : list Z) (f : Z) (hc : list Z * Z) : option (list Z * Z) :=
  match decode buf (hc.2), get16 (hc.1) f with
  | Some (d, cp), Some v => Some (put16 (hc.1) f (u16 (v + d)), cp)
  | _, _ => None
  end.
(** sys/net/slcompress.c:132-139, [DECODEU]. *)
Definition DECODEU (buf : list Z) (f : Z) (hc : list Z * Z) : option (list Z * Z) :=
  match decode buf (hc.2) with
  | Some (d, cp) => Some (put16 (hc.1) f d, cp)
  | None => None
  end.

(** ** Compression *)

(** sys/net/slcompress.c:177-179, [sl_compress_tcp]: the addresses and ports of the
    packet, whose TCP header is at [th], are those of a saved header. *)
Definition same_conn (ip : list Z) (th : Z) (x : cstate) : K slcompress bool :=
  let! s1 := knonnull (get32 ip IP_SRC) in
  let! s2 := knonnull (get32 (cs_hdr x) IP_SRC) in
  if negb (s1 =? s2) then kret false else
  let! d1 := knonnull (get32 ip IP_DST) in
  let! d2 := knonnull (get32 (cs_hdr x) IP_DST) in
  if negb (d1 =? d2) then kret false else
  let! hl := knonnull (ip_hl (cs_hdr x)) in
  let! p1 := knonnull (get32 ip th) in
  let! p2 := knonnull (get32 (cs_hdr x) (4 * hl)) in
  kret (p1 =? p2).

(** sys/net/slcompress.c:192-202, [sl_compress_tcp]: the search past the first state;
    whether it succeeded, [lcs] and [cs]. *)
Fixpoint search (fuel : nat) (ip : list Z) (th cs lastcs : Z) : K slcompress (bool * Z * Z) :=
  match fuel with
  | O => kpanic
  | S f =>
    let lcs := cs in
    let! x := get_t cs in
    let cs := cs_next x in
    do! INCR sls_searches in
    let! y := get_t cs in
    let! same := same_conn ip th y in
    if (same : bool) then kret (true, lcs, cs)
    else if cs =? lastcs then kret (false, lcs, cs)
    else search f ip th cs lastcs
  end.

(** sys/net/slcompress.c:177-229, [sl_compress_tcp]: find the state of the connection
    and make it the first; [false] when the oldest state is reused. *)
Definition locate (ip : list Z) (th : Z) : K slcompress (bool * Z) :=
  let! s := kget in
  let lastcs := last_cs s in
  let! x := get_t lastcs in
  let cs := cs_next x in
  let! y := get_t cs in
  let! same := same_conn ip th y in
  if (same : bool) then kret (true, cs) else
  let! (found, lcs, cs) := search (Z.to_nat MAX_STATES) ip th cs lastcs in
  if negb found then
    do! INCR sls_misses in
    do! kmod (fun s => with_last_cs s lcs) in
    kret (false, cs)
  else if cs =? lastcs then
    do! kmod (fun s => with_last_cs s lcs) in
    kret (true, cs)
  else
    let! y := get_t cs in
    do! mod_t lcs (fun x => with_next x (cs_next y)) in
    let! z := get_t lastcs in
    do! mod_t cs (fun x => with_next x (cs_next z)) in
    do! mod_t lastcs (fun x => with_next x cs) in
    kret (true, cs).

(** sys/net/slcompress.c:242-255, [sl_compress_tcp]: something changed that should not
    have; [hl] is [deltaS], the length of the IP header. *)
Definition static_changed (ip old : list Z) (hl : Z) : K slcompress bool :=
  let u16_differs i (k : K slcompress bool) :=
    let! a := knonnull (get16 ip i) in
    let! b := knonnull (get16 old i) in
    if negb (a =? b) then kret true else k in
  let th := 4 * hl in
  u16_differs 0 (u16_differs IP_OFF (u16_differs IP_TTL
    (let! off := knonnull (th_off ip th) in
     let! ooff := knonnull (th_off old th) in
     if negb (off =? ooff) then kret true else
     let! iopts := (if 5 <? hl then
         let! a := knonnull (slice ip 20 (4 * (hl - 5))) in
         let! b := knonnull (slice old 20 (4 * (hl - 5))) in
         kret (negb (bool_decide (a = b)))
       else kret false) in
     if (iopts : bool) then kret true else
     if 5 <? off then
       let! a := knonnull (slice ip (th + 20) (4 * (off - 5))) in
       let! b := knonnull (slice old (th + 20) (4 * (off - 5))) in
       kret (negb (bool_decide (a = b)))
     else kret false))).

(** sys/net/slcompress.c:257-291, [sl_compress_tcp]: the mask of the fields that changed,
    the encoded changes, and the last values of [deltaS] and [deltaA]; [None] when the
    packet has to go uncompressed. *)
Definition field_changes (ip old : list Z) (th : Z) : K slcompress (option (Z * list Z * Z * Z)) :=
  let! fl := knonnull (get8 ip (th + TH_FLAGS)) in
  let! urp := knonnull (get16 ip (th + TH_URP)) in
  let! ourp := knonnull (get16 old (th + TH_URP)) in
  if negb (flag_set fl TH_URG) && negb (urp =? ourp) then kret None else
  let '(changes, new_seq) := if flag_set fl TH_URG then (NEW_U, ENCODEZ urp) else (0, []) in
  let! win := knonnull (get16 ip (th + TH_WIN)) in
  let! owin := knonnull (get16 old (th + TH_WIN)) in
  let deltaS := u16 (win - owin) in
  let '(changes, new_seq) :=
    if ztrue deltaS then (Z.lor changes NEW_W, new_seq ++ ENCODE deltaS) else (changes, new_seq) in
  let! ack := knonnull (get32 ip (th + TH_ACKNO)) in
  let! oack := knonnull (get32 old (th + TH_ACKNO)) in
  let deltaA := u32 (ack - oack) in
  if 0xffff <? deltaA then kret None else
  let '(changes, new_seq) :=
    if ztrue deltaA then (Z.lor changes NEW_A, new_seq ++ ENCODE deltaA) else (changes, new_seq) in
  let! seq := knonnull (get32 ip (th + TH_SEQ)) in
  let! oseq := knonnull (get32 old (th + TH_SEQ)) in
  let deltaS := u32 (seq - oseq) in
  if 0xffff <? deltaS then kret None else
  let '(changes, new_seq) :=
    if ztrue deltaS then (Z.lor changes NEW_S, new_seq ++ ENCODE deltaS) else (changes, new_seq) in
  kret (Some (changes, new_seq, deltaS, deltaA)).

(** sys/net/slcompress.c:293-334, [sl_compress_tcp]: the [switch] on the changes; [None]
    is [goto uncompressed]. *)
Definition special_cases (changes : Z) (new_seq : list Z) (deltaS deltaA ip_len old_len hlen : Z)
  : option (Z * list Z) :=
  if changes =? 0 then
    if negb (ip_len =? old_len) && (old_len =? hlen) then Some (changes, new_seq) else None
  else if (changes =? SPECIAL_I) || (changes =? SPECIAL_D) then None
  else if changes =? Z.lor NEW_S NEW_A then
    if (deltaS =? deltaA) && (deltaS =? u32 (old_len - hlen)) then Some (SPECIAL_I, []) else Some (changes, new_seq)
  else if changes =? NEW_S then
    if deltaS =? u32 (old_len - hlen) then Some (SPECIAL_D, []) else Some (changes, new_seq)
  else Some (changes, new_seq).

(** sys/net/slcompress.c:395-399, [sl_compress_tcp]: send the packet uncompressed, with
    the connection's number for its protocol. *)
Definition send_uncompressed (ip : list Z) (cs hlen : Z) : K slcompress (Z * list Z) :=
  let! x := get_t cs in
  let! h := knonnull (bcopy ip (cs_hdr x) hlen) in
  do! mod_t cs (fun x => with_hdr x h) in
  do! kmod (fun s => with_last_xmit s (cs_id x)) in
  kret (TYPE_UNCOMPRESSED_TCP, put8 ip IP_P (cs_id x)).

(** sys/net/slcompress.c:336-388, [sl_compress_tcp]: the compressed header over the end
    of the packet's own. *)
Definition send_compressed (ip : list Z) (cs hlen th changes : Z) (new_seq : list Z) : K slcompress (Z * list Z) :=
  let! x := get_t cs in
  let! id := knonnull (get16 ip IP_ID) in
  let! oid := knonnull (get16 (cs_hdr x) IP_ID) in
  let deltaS := u32 (id - oid) in
  let '(changes, new_seq) :=
    if negb (deltaS =? 1) then (Z.lor changes NEW_I, new_seq ++ ENCODEZ deltaS) else (changes, new_seq) in
  let! fl := knonnull (get8 ip (th + TH_FLAGS)) in
  let changes := if flag_set fl TH_PUSH then Z.lor changes TCP_PUSH_BIT else changes in
  let! sum := knonnull (get16 ip (th + TH_SUM)) in
  let! h := knonnull (bcopy ip (cs_hdr x) hlen) in
  do! mod_t cs (fun x => with_hdr x h) in
  do! kmod (fun s => with_last_xmit s (cs_id x)) in
  let chdr := [u8 (Z.lor changes NEW_C); cs_id x; sum / 256; u8 sum] ++ new_seq in
  let! q := knonnull (bcopy chdr (drop (Z.to_nat (hlen - zlen chdr)) ip) (zlen chdr)) in
  do! INCR sls_compressed in
  kret (TYPE_COMPRESSED_TCP, q).

(** sys/net/slcompress.c:142-400, [sl_compress_tcp]: the type and the packet to send;
    [SL_NOFASTQ] is not defined, so a compressed packet always names its connection. *)
Definition sl_compress_tcp (ip : list Z) : K slcompress (Z * list Z) :=
  let! hl := knonnull (ip_hl ip) in
  let! off := knonnull (get16 ip IP_OFF) in
  if ztrue (Z.land off 0x3fff) || (zlen ip <? 40) then kret (TYPE_IP, ip) else
  let th := 4 * hl in
  let! fl := knonnull (get8 ip (th + TH_FLAGS)) in
  if negb (Z.land fl (Z.lor TH_SYN (Z.lor TH_FIN (Z.lor TH_RST TH_ACK))) =? TH_ACK) then kret (TYPE_IP, ip) else
  do! INCR sls_packets in
  let! (found, cs) := locate ip th in
  let! off := knonnull (th_off ip th) in
  let hlen := 4 * (hl + off) in
  if negb found then send_uncompressed ip cs hlen else
  let! x := get_t cs in
  let old := cs_hdr x in
  let! changed := static_changed ip old hl in
  if (changed : bool) then send_uncompressed ip cs hlen else
  let! r := field_changes ip old th in
  match r with
  | None => send_uncompressed ip cs hlen
  | Some (changes, new_seq, deltaS, deltaA) =>
    let! len := knonnull (get16 ip IP_LEN) in
    let! old_len := knonnull (get16 old IP_LEN) in
    match special_cases changes new_seq deltaS deltaA len old_len hlen with
    | None => send_uncompressed ip cs hlen
    | Some (changes, new_seq) => send_compressed ip cs hlen th changes new_seq
    end
  end.

(** ** Decompression *)

(** sys/net/slcompress.c:540-543, [sl_uncompress_tcp]: [bad:] - [SLF_TOSS] is set until a packet names its connection. *)
Definition bad : K slcompress unit :=
  do! kmod (fun s => with_flags s (Z.lor (sl_flags s) SLF_TOSS)) in
  INCR sls_errorin.

Definition clear_toss : K slcompress unit :=
  kmod (fun s => with_flags s (Z.land (sl_flags s) (Z.lnot SLF_TOSS))).

Definition set_flag (h : list Z) (f b : Z) (on : bool) : option (list Z) :=
  match get8 h f with
  | Some v => Some (put8 h f (if on then Z.lor v b else Z.land v (Z.lnot b)))
  | None => None
  end.

(** [if (changes & bit) macro(...)]. *)
Definition opt_step (changes bit : Z) (f : list Z * Z -> option (list Z * Z)) (hc : list Z * Z) : option (list Z * Z) :=
  if flag_set changes bit then f hc else Some hc.

(** sys/net/slcompress.c:461-502, [sl_uncompress_tcp]: the saved header [h] of [hlen]
    bytes updated from the compressed header at [cp]; [sl_muncompress_tcp] repeats it.  Also
    where the data starts. *)
Definition update_header (buf : list Z) (changes hlen : Z) (h : list Z) (cp : Z) : K slcompress (list Z * Z) :=
  let! hl := knonnull (ip_hl h) in
  let th := 4 * hl in
  let! sum := knonnull (get16 buf cp) in
  let h := put16 h (th + TH_SUM) sum in
  let cp := cp + 2 in
  let! h := knonnull (set_flag h (th + TH_FLAGS) TH_PUSH (flag_set changes TCP_PUSH_BIT)) in
  let! (h, cp) := (
    let special := Z.land changes SPECIALS_MASK in
    if special =? SPECIAL_I then
      let! len := knonnull (get16 h IP_LEN) in
      let i := len - hlen in
      let! ack := knonnull (get32 h (th + TH_ACKNO)) in
      let h := put32 h (th + TH_ACKNO) (u32 (ack + i)) in
      let! seq := knonnull (get32 h (th + TH_SEQ)) in
      kret (put32 h (th + TH_SEQ) (u32 (seq + i)), cp)
    else if special =? SPECIAL_D then
      let! len := knonnull (get16 h IP_LEN) in
      let! seq := knonnull (get32 h (th + TH_SEQ)) in
      kret (put32 h (th + TH_SEQ) (u32 (seq + len - hlen)), cp)
    else
      let! h := knonnull (set_flag h (th + TH_FLAGS) TH_URG (flag_set changes NEW_U)) in
      let! hc := knonnull (opt_step changes NEW_U (DECODEU buf (th + TH_URP)) (h, cp)) in
      let! hc := knonnull (opt_step changes NEW_W (DECODES buf (th + TH_WIN)) hc) in
      let! hc := knonnull (opt_step changes NEW_A (DECODEL buf (th + TH_ACKNO)) hc) in
      knonnull (opt_step changes NEW_S (DECODEL buf (th + TH_SEQ)) hc)) in
  if flag_set changes NEW_I then knonnull (DECODES buf IP_ID (h, cp)) else
  let! id := knonnull (get16 h IP_ID) in
  kret (put16 h IP_ID (u16 (id + 1)), cp).

(** sys/net/slcompress.c:530-538, [sl_uncompress_tcp]: the sum of the first [n] pairs of
    bytes as the i386 loads them. *)
Fixpoint sum_words (n : nat) (b : list Z) : option Z :=
  match n, b with
  | O, _ => Some 0
  | S n, lo :: hi :: r => match sum_words n r with Some s => Some (u32 (lo + 256 * hi + s)) | None => None end
  | S _, _ => None
  end.

Definition fold_sum (s : Z) : Z :=
  let s := Z.land s 0xffff + Z.shiftr s 16 in
  let s := Z.land s 0xffff + Z.shiftr s 16 in
  u16 (Z.lnot s).

(** The checksum of a header of [hlen] bytes stored in it, low byte first. *)
Definition store_sum (b : list Z) (hlen : Z) : option (list Z) :=
  match sum_words (Z.to_nat (hlen / 2)) b with
  | Some s => if IP_SUM + 1 <? zlen b then Some (put8 (put8 b IP_SUM (fold_sum s)) (IP_SUM + 1) (fold_sum s / 256)) else None
  | None => None
  end.

(** sys/net/slcompress.c:418-432, [sl_uncompress_tcp]: a packet that came uncompressed
    sets the state of its connection; [check] is [sl_muncompress_tcp]'s test of the header's
    length, [rest] the bytes of the mbufs after the first.  The packet with its protocol put back, or [None] when it is bad. *)
Definition recv_uncompressed (check : bool) (buf rest : list Z) : K slcompress (option (list Z)) :=
  let! p := knonnull (get8 buf IP_P) in
  if MAX_STATES <=? p then do! bad in kret None else
  do! kmod (fun s => with_last_recv s p) in
  do! clear_toss in
  let buf := put8 buf IP_P IPPROTO_TCP in
  let! hl := knonnull (ip_hl buf) in
  let! off := knonnull (th_off buf (4 * hl)) in
  let hlen := 4 * (hl + off) in
  if check && (MAX_HDR <? hlen) then do! bad in kret None else
  let! x := get_r p in
  let! h := knonnull (bcopy (buf ++ rest) (cs_hdr x) hlen) in
  do! mod_r p (fun x => with_hlen (with_hdr x (put16 h IP_SUM 0)) hlen) in
  do! INCR sls_uncompressedin in
  kret (Some buf).

(** sys/net/slcompress.c:440-460, [sl_uncompress_tcp]: the changes and the connection of
    a compressed packet, and where its checksum is. *)
Inductive which := Bad | Toss | Conn (changes cp : Z).

Definition recv_conn (buf : list Z) : K slcompress which :=
  do! INCR sls_compressedin in
  let! changes := knonnull (get8 buf 0) in
  if flag_set changes NEW_C then
    let! id := knonnull (get8 buf 1) in
    if MAX_STATES <=? id then kret Bad else
    do! clear_toss in
    do! kmod (fun s => with_last_recv s id) in
    kret (Conn changes 2)
  else
    let! s := kget in
    if flag_set (sl_flags s) SLF_TOSS then do! INCR sls_tossed in kret Toss else kret (Conn changes 1).

(** sys/net/slcompress.c:403-544, [sl_uncompress_tcp]: [len] bytes at [*bufp]; the result
    and the packet then at [*bufp].  The move of the data to an aligned address does not
    change them. *)
Definition sl_uncompress_tcp (buf : list Z) (len type : Z) : K slcompress (Z * list Z) :=
  if type =? TYPE_UNCOMPRESSED_TCP then
    let! r := recv_uncompressed false buf [] in
    match r with Some buf => kret (len, buf) | None => kret (0, buf) end
  else if negb (type =? TYPE_COMPRESSED_TCP) then do! bad in kret (0, buf) else
  let! c := recv_conn buf in
  match c with
  | Bad => do! bad in kret (0, buf)
  | Toss => kret (0, buf)
  | Conn changes cp =>
    let! s := kget in
    let! x := get_r (last_recv s) in
    let! (h, cp) := update_header buf changes (cs_hlen x) (cs_hdr x) cp in
    let len := len - cp in
    if len <? 0 then
      do! mod_r (last_recv s) (fun x => with_hdr x h) in
      do! bad in
      kret (0, buf)
    else
      let! data := knonnull (slice buf cp len) in
      let len := len + cs_hlen x in
      let h := put16 h IP_LEN (u16 len) in
      do! mod_r (last_recv s) (fun x => with_hdr x h) in
      let! hdr := knonnull (slice h 0 (cs_hlen x)) in
      let! hl := knonnull (ip_hl (cs_hdr x)) in
      let! pkt := knonnull (store_sum (hdr ++ data) (4 * hl)) in
      kret (len, pkt)
  end.

(** sys/net/slcompress.c:546-690, [sl_muncompress_tcp]: the same on an mbuf chain, the
    first mbuf holding [m], with [slack] after it in its buffer, and [rest] the others;
    [nobufs] says that M_PREPEND fails, [room] that it needs no new mbuf; a header that is longer
    than the new mbuf is written over what follows it in memory. *)
Definition sl_muncompress_tcp (nobufs room : bool) (m slack : list Z) (rest : list (list Z)) (type : Z)
  : K slcompress (option (list (list Z))) :=
  if type =? TYPE_UNCOMPRESSED_TCP then
    let! r := recv_uncompressed true m (concat rest) in
    match r with Some m => kret (Some (m :: rest)) | None => kret None end
  else if negb (type =? TYPE_COMPRESSED_TCP) then do! bad in kret None else
  let! c := recv_conn (m ++ slack) in
  match c with
  | Bad => do! bad in kret None
  | Toss => kret None
  | Conn changes cp =>
    let! s := kget in
    let! x := get_r (last_recv s) in
    let! (h, cp) := update_header (m ++ slack) changes (cs_hlen x) (cs_hdr x) cp in
    if (zlen m <? cp) || nobufs then
      do! mod_r (last_recv s) (fun x => with_hdr x h) in
      do! bad in
      kret None
    else
      let data := drop (Z.to_nat cp) m in
      let h := put16 h IP_LEN (u16 (cs_hlen x + zlen data + zlen (concat rest))) in
      do! mod_r (last_recv s) (fun x => with_hdr x h) in
      let! hdr := knonnull (slice h 0 (cs_hlen x)) in
      if negb room && (MHLEN <? cs_hlen x) then kpanic else
      let! hl := knonnull (ip_hl (cs_hdr x)) in
      let! hdr := knonnull (store_sum hdr (4 * hl)) in
      kret (Some (if room then (hdr ++ data) :: rest else hdr :: data :: rest))
  end.
