(* ===== verification/SlcompSpec.v ===== *)
(** * TCP/IP headers

    The headers of a TCP packet as a record, their bytes, and what the field accesses of
    slcompress.c do on them. *)

From S2P Require Import Prelude Slcomp.

(** ** Bytes *)

Definition enc16 (v : Z) : list Z := [v / 256; v mod 256].
Definition enc32 (v : Z) : list Z := [v / 16777216; v / 65536 mod 256; v / 256 mod 256; v mod 256].

(** The IP header without options, the TCP header without options, and the two option
    areas. *)
Record header := Header {
  h_vhl : Z; h_tos : Z; h_len : Z; h_id : Z; h_off : Z; h_ttl : Z; h_p : Z; h_sum : Z; h_src : Z; h_dst : Z;
  h_iopts : list Z;
  h_ports : Z; h_seq : Z; h_ack : Z; h_offx : Z; h_flags : Z; h_win : Z; h_tsum : Z; h_urp : Z;
  h_topts : list Z }.

Definition ip_part (h : header) : list Z :=
  [h_vhl h; h_tos h] ++ enc16 (h_len h) ++ enc16 (h_id h) ++ enc16 (h_off h) ++ [h_ttl h; h_p h] ++ enc16 (h_sum h)
    ++ enc32 (h_src h) ++ enc32 (h_dst h).
Definition tcp_part (h : header) : list Z :=
  enc32 (h_ports h) ++ enc32 (h_seq h) ++ enc32 (h_ack h) ++ [h_offx h; h_flags h] ++ enc16 (h_win h)
    ++ enc16 (h_tsum h) ++ enc16 (h_urp h).
Definition bytes (h : header) : list Z := ip_part h ++ h_iopts h ++ tcp_part h ++ h_topts h.

Definition hl (h : header) : Z := Z.land (h_vhl h) 15.
Definition toff (h : header) : Z := Z.shiftr (h_offx h) 4.
Definition hlen (h : header) : Z := 4 * (hl h + toff h).

Record wf_header (h : header) : Prop := {
  wh_vhl : is_u8 (h_vhl h); wh_tos : is_u8 (h_tos h); wh_len : is_u16 (h_len h); wh_id : is_u16 (h_id h);
  wh_off : is_u16 (h_off h); wh_ttl : is_u8 (h_ttl h); wh_p : is_u8 (h_p h); wh_sum : is_u16 (h_sum h);
  wh_src : is_u32 (h_src h); wh_dst : is_u32 (h_dst h); wh_ports : is_u32 (h_ports h);
  wh_seq : is_u32 (h_seq h); wh_ack : is_u32 (h_ack h); wh_offx : is_u8 (h_offx h); wh_flags : is_u8 (h_flags h);
  wh_win : is_u16 (h_win h); wh_tsum : is_u16 (h_tsum h); wh_urp : is_u16 (h_urp h);
  wh_hl : 5 <= hl h; wh_toff : 5 <= toff h;
  wh_iopts : zlen (h_iopts h) = 4 * (hl h - 5); wh_topts : zlen (h_topts h) = 4 * (toff h - 5) }.

Lemma hl_range h : 0 <= hl h < 16.
Proof. unfold hl. change 15 with (Z.ones 4). rewrite Z.land_ones by lia. apply Z.mod_pos_bound. lia. Qed.

Lemma zlen_ip_part h : zlen (ip_part h) = 20.
Proof. reflexivity. Qed.
Lemma zlen_tcp_part h : zlen (tcp_part h) = 20.
Proof. reflexivity. Qed.

Lemma zlen_bytes h : wf_header h -> zlen (bytes h) = hlen h.
Proof.
  intros Hw. unfold bytes, hlen. rewrite !zlen_app, zlen_ip_part, zlen_tcp_part, (wh_iopts _ Hw), (wh_topts _ Hw). lia.
Qed.

(** ** Reading *)

Lemma get16_app_r (a b : list Z) i k : zlen a = i -> 0 <= k -> get16 (a ++ b) (i + k) = get16 b k.
Proof.
  intros Ha Hk. unfold get16. pose proof (zlen_nonneg a).
  rewrite !znth_app_r by lia. by replace (i + k - zlen a) with k by lia; replace (i + k + 1 - zlen a) with (k + 1) by lia.
Qed.

Lemma get32_app_r (a b : list Z) i k : zlen a = i -> 0 <= k -> get32 (a ++ b) (i + k) = get32 b k.
Proof.
  intros Ha Hk. unfold get32. rewrite get16_app_r by done. replace (i + k + 2) with (i + (k + 2)) by lia.
  by rewrite get16_app_r by lia.
Qed.

Lemma get8_app_r (a b : list Z) i k : zlen a = i -> 0 <= k -> get8 (a ++ b) (i + k) = get8 b k.
Proof.
  intros Ha Hk. unfold get8. pose proof (zlen_nonneg a). rewrite znth_app_r by lia. f_equal. lia.
Qed.

Lemma put8_app_r (a b : list Z) i k v : zlen a = i -> 0 <= k -> put8 (a ++ b) (i + k) v = a ++ put8 b k v.
Proof.
  intros Ha Hk. unfold put8, zset, zlen in *. destruct (Z.leb_spec 0 (i + k)); [|lia]. destruct (Z.leb_spec 0 k); [|lia].
  rewrite insert_app_r_alt by lia. f_equal. f_equal. lia.
Qed.

Lemma put16_app_r (a b : list Z) i k v : zlen a = i -> 0 <= k -> put16 (a ++ b) (i + k) v = a ++ put16 b k v.
Proof.
  intros Ha Hk. unfold put16. rewrite put8_app_r by done. replace (i + k + 1) with (i + (k + 1)) by lia.
  by rewrite put8_app_r by lia.
Qed.

Lemma put32_app_r (a b : list Z) i k v : zlen a = i -> 0 <= k -> put32 (a ++ b) (i + k) v = a ++ put32 b k v.
Proof.
  intros Ha Hk. unfold put32. rewrite put16_app_r by done. replace (i + k + 2) with (i + (k + 2)) by lia.
  by rewrite put16_app_r by lia.
Qed.

(** The bytes up to the TCP header, and the rest. *)
Lemma bytes_split h r : bytes h ++ r = (ip_part h ++ h_iopts h) ++ tcp_part h ++ h_topts h ++ r.
Proof. unfold bytes. by rewrite <- !app_assoc. Qed.

Lemma zlen_front h : wf_header h -> zlen (ip_part h ++ h_iopts h) = 4 * hl h.
Proof. intros Hw. rewrite zlen_app, zlen_ip_part, (wh_iopts _ Hw). lia. Qed.

Lemma dec16 v : is_u16 v -> v / 256 * 256 + v mod 256 = v.
Proof. intros. mlia. Qed.

Lemma dec32 v : is_u32 v -> (v / 16777216 * 256 + v / 65536 mod 256) * 65536 + (v / 256 mod 256 * 256 + v mod 256) = v.
Proof. intros. mlia. Qed.

Section Reads.
Context (h : header) (r : list Z).
Hypothesis Hw : wf_header h.

(** The fields of the IP header. *)
Lemma rd_first : get16 (bytes h ++ r) 0 = Some (h_vhl h * 256 + h_tos h).
Proof. reflexivity. Qed.
Lemma rd_hl : ip_hl (bytes h ++ r) = Some (hl h).
Proof. reflexivity. Qed.
Lemma rd_len : get16 (bytes h ++ r) IP_LEN = Some (h_len h).
Proof. change (Some (h_len h / 256 * 256 + h_len h mod 256) = Some (h_len h)). f_equal. apply dec16, Hw. Qed.
Lemma rd_id : get16 (bytes h ++ r) IP_ID = Some (h_id h).
Proof. change (Some (h_id h / 256 * 256 + h_id h mod 256) = Some (h_id h)). f_equal. apply dec16, Hw. Qed.
Lemma rd_off : get16 (bytes h ++ r) IP_OFF = Some (h_off h).
Proof. change (Some (h_off h / 256 * 256 + h_off h mod 256) = Some (h_off h)). f_equal. apply dec16, Hw. Qed.
Lemma rd_ttl : get16 (bytes h ++ r) IP_TTL = Some (h_ttl h * 256 + h_p h).
Proof. reflexivity. Qed.
Lemma rd_p : get8 (bytes h ++ r) IP_P = Some (h_p h).
Proof. reflexivity. Qed.
Lemma rd_src : get32 (bytes h ++ r) IP_SRC = Some (h_src h).
Proof.
  change (Some ((h_src h / 16777216 * 256 + h_src h / 65536 mod 256) * 65536 + (h_src h / 256 mod 256 * 256 + h_src h mod 256)) = Some (h_src h)).
  f_equal. apply dec32, Hw.
Qed.
Lemma rd_dst : get32 (bytes h ++ r) IP_DST = Some (h_dst h).
Proof.
  change (Some ((h_dst h / 16777216 * 256 + h_dst h / 65536 mod 256) * 65536 + (h_dst h / 256 mod 256 * 256 + h_dst h mod 256)) = Some (h_dst h)).
  f_equal. apply dec32, Hw.
Qed.

(** The fields of the TCP header. *)
Lemma rd_tcp8 k : 0 <= k -> get8 (bytes h ++ r) (4 * hl h + k) = get8 (tcp_part h ++ h_topts h ++ r) k.
Proof. intros Hk. rewrite bytes_split. apply get8_app_r; [by apply zlen_front|done]. Qed.
Lemma rd_tcp16 k : 0 <= k -> get16 (bytes h ++ r) (4 * hl h + k) = get16 (tcp_part h ++ h_topts h ++ r) k.
Proof. intros Hk. rewrite bytes_split. apply get16_app_r; [by apply zlen_front|done]. Qed.
Lemma rd_tcp32 k : 0 <= k -> get32 (bytes h ++ r) (4 * hl h + k) = get32 (tcp_part h ++ h_topts h ++ r) k.
Proof. intros Hk. rewrite bytes_split. apply get32_app_r; [by apply zlen_front|done]. Qed.

Lemma rd_ports : get32 (bytes h ++ r) (4 * hl h) = Some (h_ports h).
Proof.
  rewrite <- (Z.add_0_r (4 * hl h)), rd_tcp32 by lia.
  change (Some ((h_ports h / 16777216 * 256 + h_ports h / 65536 mod 256) * 65536 + (h_ports h / 256 mod 256 * 256 + h_ports h mod 256)) = Some (h_ports h)).
  f_equal. apply dec32, Hw.
Qed.
Lemma rd_seq : get32 (bytes h ++ r) (4 * hl h + TH_SEQ) = Some (h_seq h).
Proof.
  rewrite rd_tcp32 by done.
  change (Some ((h_seq h / 16777216 * 256 + h_seq h / 65536 mod 256) * 65536 + (h_seq h / 256 mod 256 * 256 + h_seq h mod 256)) = Some (h_seq h)).
  f_equal. apply dec32, Hw.
Qed.
Lemma rd_ack : get32 (bytes h ++ r) (4 * hl h + TH_ACKNO) = Some (h_ack h).
Proof.
  rewrite rd_tcp32 by done.
  change (Some ((h_ack h / 16777216 * 256 + h_ack h / 65536 mod 256) * 65536 + (h_ack h / 256 mod 256 * 256 + h_ack h mod 256)) = Some (h_ack h)).
  f_equal. apply dec32, Hw.
Qed.
Lemma rd_toff : th_off (bytes h ++ r) (4 * hl h) = Some (toff h).
Proof. unfold th_off. by rewrite rd_tcp8 by done. Qed.
Lemma rd_flags : get8 (bytes h ++ r) (4 * hl h + TH_FLAGS) = Some (h_flags h).
Proof. by rewrite rd_tcp8 by done. Qed.
Lemma rd_win : get16 (bytes h ++ r) (4 * hl h + TH_WIN) = Some (h_win h).
Proof. rewrite rd_tcp16 by done. change (Some (h_win h / 256 * 256 + h_win h mod 256) = Some (h_win h)). f_equal. apply dec16, Hw. Qed.
Lemma rd_tsum : get16 (bytes h ++ r) (4 * hl h + TH_SUM) = Some (h_tsum h).
Proof. rewrite rd_tcp16 by done. change (Some (h_tsum h / 256 * 256 + h_tsum h mod 256) = Some (h_tsum h)). f_equal. apply dec16, Hw. Qed.
Lemma rd_urp : get16 (bytes h ++ r) (4 * hl h + TH_URP) = Some (h_urp h).
Proof. rewrite rd_tcp16 by done. change (Some (h_urp h / 256 * 256 + h_urp h mod 256) = Some (h_urp h)). f_equal. apply dec16, Hw. Qed.

(** The option areas. *)
Lemma rd_iopts : slice (bytes h ++ r) 20 (4 * (hl h - 5)) = Some (h_iopts h).
Proof. unfold bytes. rewrite <- !app_assoc. apply slice_mid; [done|apply Hw]. Qed.
Lemma rd_topts : slice (bytes h ++ r) (4 * hl h + 20) (4 * (toff h - 5)) = Some (h_topts h).
Proof.
  rewrite bytes_split, (app_assoc _ (tcp_part h)). apply slice_mid; [|apply Hw].
  by rewrite zlen_app, zlen_front, zlen_tcp_part.
Qed.
End Reads.

Create Rewrite HintDb slfields.
#[global] Hint Rewrite rd_first rd_hl rd_ttl rd_p : slfields.
#[global] Hint Rewrite rd_len rd_id rd_off rd_src rd_dst rd_ports rd_seq rd_ack rd_toff rd_flags rd_win rd_tsum rd_urp
  rd_iopts rd_topts using assumption : slfields.

(** ** Writing *)

(** A header with one field changed. *)
Definition set_len h v := Header (h_vhl h) (h_tos h) v (h_id h) (h_off h) (h_ttl h) (h_p h) (h_sum h) (h_src h) (h_dst h)
  (h_iopts h) (h_ports h) (h_seq h) (h_ack h) (h_offx h) (h_flags h) (h_win h) (h_tsum h) (h_urp h) (h_topts h).
Definition set_id h v := Header (h_vhl h) (h_tos h) (h_len h) v (h_off h) (h_ttl h) (h_p h) (h_sum h) (h_src h) (h_dst h)
  (h_iopts h) (h_ports h) (h_seq h) (h_ack h) (h_offx h) (h_flags h) (h_win h) (h_tsum h) (h_urp h) (h_topts h).
Definition set_p h v := Header (h_vhl h) (h_tos h) (h_len h) (h_id h) (h_off h) (h_ttl h) v (h_sum h) (h_src h) (h_dst h)
  (h_iopts h) (h_ports h) (h_seq h) (h_ack h) (h_offx h) (h_flags h) (h_win h) (h_tsum h) (h_urp h) (h_topts h).
Definition set_sum h v := Header (h_vhl h) (h_tos h) (h_len h) (h_id h) (h_off h) (h_ttl h) (h_p h) v (h_src h) (h_dst h)
  (h_iopts h) (h_ports h) (h_seq h) (h_ack h) (h_offx h) (h_flags h) (h_win h) (h_tsum h) (h_urp h) (h_topts h).
Definition set_seq h v := Header (h_vhl h) (h_tos h) (h_len h) (h_id h) (h_off h) (h_ttl h) (h_p h) (h_sum h) (h_src h) (h_dst h)
  (h_iopts h) (h_ports h) v (h_ack h) (h_offx h) (h_flags h) (h_win h) (h_tsum h) (h_urp h) (h_topts h).
Definition set_ack h v := Header (h_vhl h) (h_tos h) (h_len h) (h_id h) (h_off h) (h_ttl h) (h_p h) (h_sum h) (h_src h) (h_dst h)
  (h_iopts h) (h_ports h) (h_seq h) v (h_offx h) (h_flags h) (h_win h) (h_tsum h) (h_urp h) (h_topts h).
Definition set_flags h v := Header (h_vhl h) (h_tos h) (h_len h) (h_id h) (h_off h) (h_ttl h) (h_p h) (h_sum h) (h_src h) (h_dst h)
  (h_iopts h) (h_ports h) (h_seq h) (h_ack h) (h_offx h) v (h_win h) (h_tsum h) (h_urp h) (h_topts h).
Definition set_win h v := Header (h_vhl h) (h_tos h) (h_len h) (h_id h) (h_off h) (h_ttl h) (h_p h) (h_sum h) (h_src h) (h_dst h)
  (h_iopts h) (h_ports h) (h_seq h) (h_ack h) (h_offx h) (h_flags h) v (h_tsum h) (h_urp h) (h_topts h).
Definition set_tsum h v := Header (h_vhl h) (h_tos h) (h_len h) (h_id h) (h_off h) (h_ttl h) (h_p h) (h_sum h) (h_src h) (h_dst h)
  (h_iopts h) (h_ports h) (h_seq h) (h_ack h) (h_offx h) (h_flags h) (h_win h) v (h_urp h) (h_topts h).
Definition set_urp h v := Header (h_vhl h) (h_tos h) (h_len h) (h_id h) (h_off h) (h_ttl h) (h_p h) (h_sum h) (h_src h) (h_dst h)
  (h_iopts h) (h_ports h) (h_seq h) (h_ack h) (h_offx h) (h_flags h) (h_win h) (h_tsum h) v (h_topts h).

Lemma u8_mod v : u8 v = v mod 256.
Proof. done. Qed.
Lemma u8_hi v : is_u16 v -> u8 (v / 256) = v / 256.
Proof. intros. mlia. Qed.

Lemma enc32_bytes v : is_u32 v ->
  u8 (v / 65536 / 256) = v / 16777216 /\ u8 (v / 65536) = v / 65536 mod 256 /\ u8 (v / 256) = v / 256 mod 256 /\ u8 v = v mod 256.
Proof. intros. rewrite Z.div_div by lia. change (65536 * 256) with 16777216. split; [|done]. mlia. Qed.

Section Writes.
Context (h : header) (r : list Z) (v : Z).
Hypothesis Hw : wf_header h.

Lemma wr_len : is_u16 v -> put16 (bytes h ++ r) IP_LEN v = bytes (set_len h v) ++ r.
Proof. intros Hv. unfold put16, put8. rewrite u8_hi by done. reflexivity. Qed.
Lemma wr_id : is_u16 v -> put16 (bytes h ++ r) IP_ID v = bytes (set_id h v) ++ r.
Proof. intros Hv. unfold put16, put8. rewrite u8_hi by done. reflexivity. Qed.
Lemma wr_sum : is_u16 v -> put16 (bytes h ++ r) IP_SUM v = bytes (set_sum h v) ++ r.
Proof. intros Hv. unfold put16, put8. rewrite u8_hi by done. reflexivity. Qed.
Lemma wr_p : is_u8 v -> put8 (bytes h ++ r) IP_P v = bytes (set_p h v) ++ r.
Proof. intros Hv. unfold put8. rewrite u8_id by done. reflexivity. Qed.

Lemma wr_tcp16 h' k : ip_part h' = ip_part h -> h_iopts h' = h_iopts h -> 0 <= k ->
  put16 (tcp_part h ++ h_topts h ++ r) k v = tcp_part h' ++ h_topts h' ++ r ->
  put16 (bytes h ++ r) (4 * hl h + k) v = bytes h' ++ r.
Proof.
  intros Hi Ho Hk E. rewrite !bytes_split, (put16_app_r _ _ (4 * hl h)) by (try done; by apply zlen_front).
  by rewrite E, Hi, Ho.
Qed.
Lemma wr_tcp32 h' k : ip_part h' = ip_part h -> h_iopts h' = h_iopts h -> 0 <= k ->
  put32 (tcp_part h ++ h_topts h ++ r) k v = tcp_part h' ++ h_topts h' ++ r ->
  put32 (bytes h ++ r) (4 * hl h + k) v = bytes h' ++ r.
Proof.
  intros Hi Ho Hk E. rewrite !bytes_split, (put32_app_r _ _ (4 * hl h)) by (try done; by apply zlen_front).
  by rewrite E, Hi, Ho.
Qed.

Lemma wr_win : is_u16 v -> put16 (bytes h ++ r) (4 * hl h + TH_WIN) v = bytes (set_win h v) ++ r.
Proof. intros Hv. apply wr_tcp16; try done. unfold put16, put8. by rewrite u8_hi. Qed.
Lemma wr_tsum : is_u16 v -> put16 (bytes h ++ r) (4 * hl h + TH_SUM) v = bytes (set_tsum h v) ++ r.
Proof. intros Hv. apply wr_tcp16; try done. unfold put16, put8. by rewrite u8_hi. Qed.
Lemma wr_urp : is_u16 v -> put16 (bytes h ++ r) (4 * hl h + TH_URP) v = bytes (set_urp h v) ++ r.
Proof. intros Hv. apply wr_tcp16; try done. unfold put16, put8. by rewrite u8_hi. Qed.
Lemma wr_seq : is_u32 v -> put32 (bytes h ++ r) (4 * hl h + TH_SEQ) v = bytes (set_seq h v) ++ r.
Proof.
  intros Hv. apply wr_tcp32; try done. unfold put32, put16, put8. destruct (enc32_bytes v Hv) as (-> & -> & -> & ->). done.
Qed.
Lemma wr_ack : is_u32 v -> put32 (bytes h ++ r) (4 * hl h + TH_ACKNO) v = bytes (set_ack h v) ++ r.
Proof.
  intros Hv. apply wr_tcp32; try done. unfold put32, put16, put8. destruct (enc32_bytes v Hv) as (-> & -> & -> & ->). done.
Qed.
Lemma wr_flags : is_u8 v -> put8 (bytes h ++ r) (4 * hl h + TH_FLAGS) v = bytes (set_flags h v) ++ r.
Proof.
  intros Hv. rewrite !bytes_split, (put8_app_r _ _ (4 * hl h)) by (try done; by apply zlen_front).
  unfold put8. by rewrite u8_id.
Qed.
End Writes.

(** Changing a field keeps a header well formed. *)
Ltac wf_set := intros [] ?; split; done.
Lemma wf_len h v : wf_header h -> is_u16 v -> wf_header (set_len h v). Proof. wf_set. Qed.
Lemma wf_id h v : wf_header h -> is_u16 v -> wf_header (set_id h v). Proof. wf_set. Qed.
Lemma wf_p h v : wf_header h -> is_u8 v -> wf_header (set_p h v). Proof. wf_set. Qed.
Lemma wf_sum h v : wf_header h -> is_u16 v -> wf_header (set_sum h v). Proof. wf_set. Qed.
Lemma wf_seq h v : wf_header h -> is_u32 v -> wf_header (set_seq h v). Proof. wf_set. Qed.
Lemma wf_ack h v : wf_header h -> is_u32 v -> wf_header (set_ack h v). Proof. wf_set. Qed.
Lemma wf_flags h v : wf_header h -> is_u8 v -> wf_header (set_flags h v). Proof. wf_set. Qed.
Lemma wf_win h v : wf_header h -> is_u16 v -> wf_header (set_win h v). Proof. wf_set. Qed.
Lemma wf_tsum h v : wf_header h -> is_u16 v -> wf_header (set_tsum h v). Proof. wf_set. Qed.
Lemma wf_urp h v : wf_header h -> is_u16 v -> wf_header (set_urp h v). Proof. wf_set. Qed.
