(* ===== verification/SlcompTrip.v ===== *)
(** * A packet through the compressor and the decompressor

    The comparison of a packet's headers with the saved ones, the bytes of the compressed
    header, and the header the decompressor rebuilds from them. *)

From S2P Require Import Prelude Slcomp SlcompSpec.

Ltac fld := rewrite (bind_nonnull _ _ _ _ ltac:(first [eassumption | autorewrite with slfields; reflexivity])).

(** ** What may not change *)

Record same_static (h o : header) : Prop := {
  ss_vhl : h_vhl o = h_vhl h; ss_tos : h_tos o = h_tos h; ss_off : h_off o = h_off h;
  ss_ttl : h_ttl o = h_ttl h; ss_p : h_p o = h_p h;
  ss_toff : toff o = toff h; ss_iopts : h_iopts o = h_iopts h; ss_topts : h_topts o = h_topts h }.

Lemma pair_eq a b c d : is_u8 a -> is_u8 b -> is_u8 c -> is_u8 d -> a * 256 + b = c * 256 + d -> a = c /\ b = d.
Proof. unfold is_u8. lia. Qed.

Lemma static_spec h o d j s :
  wf_header h -> wf_header o ->
  exists b, static_changed (bytes h ++ d) (bytes o ++ j) (hl h) s = Some (b, s) /\ (b = false -> same_static h o).
Proof.
  intros Hh Ho. unfold static_changed.
  rewrite (bind_nonnull _ _ _ _ (rd_first h d)), (bind_nonnull _ _ _ _ (rd_first o j)).
  destruct (Z.eqb_spec (h_vhl h * 256 + h_tos h) (h_vhl o * 256 + h_tos o)) as [E|]; [cbn [negb]|by exists true].
  apply pair_eq in E as [E1 E2]; [|apply Hh|apply Hh|apply Ho|apply Ho].
  assert (Ehl : hl o = hl h) by (unfold hl; by rewrite E1).
  rewrite (bind_nonnull _ _ _ _ (rd_off h d Hh)), (bind_nonnull _ _ _ _ (rd_off o j Ho)).
  destruct (Z.eqb_spec (h_off h) (h_off o)) as [E3|]; [cbn [negb]|by exists true].
  rewrite (bind_nonnull _ _ _ _ (rd_ttl h d)), (bind_nonnull _ _ _ _ (rd_ttl o j)).
  destruct (Z.eqb_spec (h_ttl h * 256 + h_p h) (h_ttl o * 256 + h_p o)) as [E|]; [cbn [negb]|by exists true].
  apply pair_eq in E as [E4 E5]; [|apply Hh|apply Hh|apply Ho|apply Ho].
  rewrite (bind_nonnull _ _ _ _ (rd_toff h d Hh)). pose proof (rd_toff o j Ho) as R. rewrite Ehl in R. rewrite (bind_nonnull _ _ _ _ R).
  destruct (Z.eqb_spec (toff h) (toff o)) as [E6|]; [cbn [negb]|by exists true].
  assert (Hi : forall (k : bool -> K slcompress bool), exists b,
    kbind (if 5 <? hl h then
         let! a := knonnull (slice (bytes h ++ d) 20 (4 * (hl h - 5))) in
         let! b := knonnull (slice (bytes o ++ j) 20 (4 * (hl h - 5))) in
         kret (negb (bool_decide (a = b)))
       else kret false)%kern k s = k b s /\ (b = false -> h_iopts h = h_iopts o)).
  { intros k. destruct (Z.ltb_spec 5 (hl h)).
    - exists (negb (bool_decide (h_iopts h = h_iopts o))). split.
      + pose proof (rd_iopts o j Ho) as Ro. rewrite Ehl in Ro. rewrite (bind_run _ _ s (negb (bool_decide (h_iopts h = h_iopts o))) s); [done|].
        rewrite (bind_nonnull _ _ _ _ (rd_iopts h d Hh)). by rewrite (bind_nonnull _ _ _ _ Ro).
      + rewrite negb_false_iff. apply bool_decide_eq_true_1.
    - exists false. split; [done|]. intros _. pose proof (wh_iopts _ Hh). pose proof (wh_iopts _ Ho). pose proof (wh_hl _ Hh).
      rewrite Ehl in *. unfold zlen in *. destruct (h_iopts h), (h_iopts o); simpl in *; try lia; done. }
  match goal with |- exists b, kbind _ ?k s = _ /\ _ => destruct (Hi k) as (bi & -> & Hbi) end.
  destruct bi; [by exists true|]. specialize (Hbi eq_refl).
  destruct (Z.ltb_spec 5 (toff h)).
  - exists (negb (bool_decide (h_topts h = h_topts o))). split.
    + rewrite (bind_nonnull _ _ _ _ (rd_topts h d Hh)). pose proof (rd_topts o j Ho) as Ro. rewrite Ehl, <- E6 in Ro. by rewrite (bind_nonnull _ _ _ _ Ro).
    + rewrite negb_false_iff. intros E%bool_decide_eq_true_1. by split.
  - exists false. split; [done|]. intros _. split; try done.
    pose proof (wh_topts _ Hh). pose proof (wh_topts _ Ho). pose proof (wh_toff _ Hh).
    rewrite <- E6 in *. unfold zlen in *. destruct (h_topts h), (h_topts o); simpl in *; try lia; done.
Qed.

(** ** The changes *)

Definition mask (u w a s : bool) : Z :=
  let m := if u then NEW_U else 0 in
  let m := if w then Z.lor m NEW_W else m in
  let m := if a then Z.lor m NEW_A else m in
  if s then Z.lor m NEW_S else m.

(** The encoded change of one field. *)
Definition seg (n : Z) : list Z := if ztrue n then ENCODE n else [].

Definition d_win (h o : header) := u16 (h_win h - h_win o).
Definition d_ack (h o : header) := u32 (h_ack h - h_ack o).
Definition d_seq (h o : header) := u32 (h_seq h - h_seq o).
Definition urg (h : header) := flag_set (h_flags h) TH_URG.
Definition seg_u (h : header) : list Z := if urg h then ENCODEZ (h_urp h) else [].

Definition field_result (h o : header) : option (Z * list Z * Z * Z) :=
  if negb (urg h) && negb (h_urp h =? h_urp o) then None else
  if 0xffff <? d_ack h o then None else
  if 0xffff <? d_seq h o then None else
  Some (mask (urg h) (ztrue (d_win h o)) (ztrue (d_ack h o)) (ztrue (d_seq h o)),
        seg_u h ++ seg (d_win h o) ++ seg (d_ack h o) ++ seg (d_seq h o), d_seq h o, d_ack h o).

Lemma field_spec h o d j s :
  wf_header h -> wf_header o -> hl o = hl h ->
  field_changes (bytes h ++ d) (bytes o ++ j) (4 * hl h) s = Some (field_result h o, s).
Proof.
  intros Hh Ho Ehl. unfold field_changes, field_result. fold (urg h).
  rewrite (bind_nonnull _ _ _ _ (rd_flags h d Hh)), (bind_nonnull _ _ _ _ (rd_urp h d Hh)).
  pose proof (rd_urp o j Ho) as R. rewrite Ehl in R. rewrite (bind_nonnull _ _ _ _ R). clear R.
  fold (urg h). destruct (negb (urg h) && negb (h_urp h =? h_urp o)); [done|].
  unfold seg_u, seg. pose proof (rd_win o j Ho) as R. pose proof (rd_ack o j Ho) as R2. pose proof (rd_seq o j Ho) as R3.
  rewrite Ehl in R, R2, R3.
  destruct (urg h); cbv beta iota; rewrite (bind_nonnull _ _ _ _ (rd_win h d Hh)), (bind_nonnull _ _ _ _ R);
    fold (d_win h o); cbv zeta; destruct (ztrue (d_win h o)); cbv beta iota;
    rewrite (bind_nonnull _ _ _ _ (rd_ack h d Hh)), (bind_nonnull _ _ _ _ R2); fold (d_ack h o); cbv zeta;
    destruct (0xffff <? d_ack h o); try done; destruct (ztrue (d_ack h o)); cbv beta iota;
    rewrite (bind_nonnull _ _ _ _ (rd_seq h d Hh)), (bind_nonnull _ _ _ _ R3); fold (d_seq h o); cbv zeta;
    destruct (0xffff <? d_seq h o); try done; destruct (ztrue (d_seq h o));
    unfold kret, mask; simpl; rewrite ?app_nil_r; by rewrite <- ?app_assoc.
Qed.

(** ** Numbers encoded and decoded *)

Lemma decode_app (a b : list Z) k : 0 <= k ->
  decode (a ++ b) (zlen a + k) = (fun vc => (vc.1, zlen a + vc.2)) <$> decode b k.
Proof.
  intros Hk. unfold decode. rewrite get8_app_r by done. destruct (get8 b k) as [[|p|p]|]; simpl; try (do 2 f_equal; lia); try done.
  replace (zlen a + k + 1) with (zlen a + (k + 1)) by lia. rewrite get16_app_r by lia.
  destruct (get16 b (k + 1)); simpl; [|done]. do 2 f_equal. lia.
Qed.

Lemma decode_byte n post : 0 < n < 256 -> decode (n :: post) 0 = Some (n, 1).
Proof. intros. unfold decode. change (get8 (n :: post) 0) with (Some n). destruct n; try lia; done. Qed.

Lemma decode_long n post : is_u16 n -> decode (0 :: n / 256 :: u8 n :: post) 0 = Some (n, 3).
Proof.
  intros Hn. unfold decode. change (get8 (0 :: n / 256 :: u8 n :: post) 0) with (Some 0). cbv beta iota.
  change (match Some (n / 256 * 256 + u8 n) with Some v => Some (v, 0 + 3) | None => None end = Some (n, 3)).
  f_equal. f_equal. mlia.
Qed.

Lemma decode_ENCODEZ pre n post :
  decode (pre ++ ENCODEZ n ++ post) (zlen pre) = Some (u16 n, zlen (pre ++ ENCODEZ n)).
Proof.
  rewrite <- (Z.add_0_r (zlen pre)) at 1. rewrite decode_app, zlen_app by done. unfold ENCODEZ. pose proof (u16_range n) as Hn. set (m := u16 n) in *.
  destruct (Z.leb_spec 256 m); cbn [orb app]; [by rewrite decode_long|].
  destruct (Z.eqb_spec m 0) as [->|]; cbn [app]; [by rewrite (decode_long 0)|]. rewrite decode_byte; [done|]. unfold is_u16 in Hn. lia.
Qed.

Lemma decode_ENCODE pre n post : 0 < n < 65536 ->
  decode (pre ++ ENCODE n ++ post) (zlen pre) = Some (n, zlen (pre ++ ENCODE n)).
Proof.
  intros Hn. rewrite <- (Z.add_0_r (zlen pre)) at 1. rewrite decode_app, zlen_app by done. unfold ENCODE.
  rewrite u16_id by (unfold is_u16; lia).
  destruct (Z.leb_spec 256 n); cbn [app]; [rewrite decode_long by (unfold is_u16; lia)|rewrite decode_byte by lia]; done.
Qed.

(** ** The bits of the first byte *)

(** What [send_compressed] adds to the mask. *)
Definition first_byte (m : Z) (i p : bool) : Z :=
  let m := if i then Z.lor m NEW_I else m in
  let m := if p then Z.lor m TCP_PUSH_BIT else m in
  u8 (Z.lor m NEW_C).

Lemma first_byte_bits u w a s i p :
  let b := first_byte (mask u w a s) i p in
  flag_set b NEW_C = true /\ flag_set b NEW_U = u /\ flag_set b NEW_W = w /\ flag_set b NEW_A = a /\ flag_set b NEW_S = s /\
  flag_set b NEW_I = i /\ flag_set b TCP_PUSH_BIT = p /\ Z.land b SPECIALS_MASK = mask u w a s /\ is_u8 b.
Proof. destruct u, w, a, s, i, p; vm_compute; repeat split; congruence. Qed.

(** ** The fields decoded *)

Section Steps.
Context (x : header) (j pre post : list Z) (ch : Z).
Hypothesis Hx : wf_header x.

Lemma urp_step urp (u : bool) : flag_set ch NEW_U = u -> is_u16 urp ->
  opt_step ch NEW_U (DECODEU (pre ++ (if u then ENCODEZ urp else []) ++ post) (4 * hl x + TH_URP)) (bytes x ++ j, zlen pre)
  = Some (bytes (if u then set_urp x urp else x) ++ j, zlen (pre ++ (if u then ENCODEZ urp else []))).
Proof.
  intros Hu Hv. unfold opt_step. rewrite Hu. destruct u; [|by rewrite app_nil_r].
  unfold DECODEU. cbn [fst snd]. rewrite decode_ENCODEZ, u16_id by done. by rewrite wr_urp.
Qed.

Lemma set_win_id : set_win x (h_win x) = x. Proof. by destruct x. Qed.
Lemma set_ack_id : set_ack x (h_ack x) = x. Proof. by destruct x. Qed.
Lemma set_seq_id : set_seq x (h_seq x) = x. Proof. by destruct x. Qed.

Lemma win_step v : flag_set ch NEW_W = ztrue (u16 (v - h_win x)) -> is_u16 v ->
  opt_step ch NEW_W (DECODES (pre ++ seg (u16 (v - h_win x)) ++ post) (4 * hl x + TH_WIN)) (bytes x ++ j, zlen pre)
  = Some (bytes (set_win x v) ++ j, zlen (pre ++ seg (u16 (v - h_win x)))).
Proof.
  intros Hc Hv. unfold opt_step, seg. rewrite Hc. pose proof (wh_win _ Hx) as Hw. pose proof (u16_range (v - h_win x)) as Hr.
  destruct (ztrue (u16 (v - h_win x))) eqn:E; unfold ztrue in E.
  - unfold DECODES. cbn [fst snd]. apply negb_true_iff, Z.eqb_neq in E.
    rewrite decode_ENCODE by (unfold is_u16 in Hr; lia). rewrite rd_win by done.
    replace (u16 (h_win x + u16 (v - h_win x))) with v by mlia. by rewrite wr_win.
  - rewrite app_nil_r. apply negb_false_iff, Z.eqb_eq in E. replace v with (h_win x) by mlia. by rewrite set_win_id.
Qed.

Lemma ack_step v : flag_set ch NEW_A = ztrue (u32 (v - h_ack x)) -> is_u32 v -> u32 (v - h_ack x) <= 0xffff ->
  opt_step ch NEW_A (DECODEL (pre ++ seg (u32 (v - h_ack x)) ++ post) (4 * hl x + TH_ACKNO)) (bytes x ++ j, zlen pre)
  = Some (bytes (set_ack x v) ++ j, zlen (pre ++ seg (u32 (v - h_ack x)))).
Proof.
  intros Hc Hv Hle. unfold opt_step, seg. rewrite Hc. pose proof (wh_ack _ Hx) as Hw. pose proof (u32_range (v - h_ack x)) as Hr.
  destruct (ztrue (u32 (v - h_ack x))) eqn:E; unfold ztrue in E.
  - unfold DECODEL. cbn [fst snd]. apply negb_true_iff, Z.eqb_neq in E.
    rewrite decode_ENCODE by (unfold is_u32 in Hr; lia). rewrite rd_ack by done.
    replace (u32 (h_ack x + u32 (v - h_ack x))) with v by mlia. by rewrite wr_ack.
  - rewrite app_nil_r. apply negb_false_iff, Z.eqb_eq in E. replace v with (h_ack x) by mlia. by rewrite set_ack_id.
Qed.

Lemma seq_step v : flag_set ch NEW_S = ztrue (u32 (v - h_seq x)) -> is_u32 v -> u32 (v - h_seq x) <= 0xffff ->
  opt_step ch NEW_S (DECODEL (pre ++ seg (u32 (v - h_seq x)) ++ post) (4 * hl x + TH_SEQ)) (bytes x ++ j, zlen pre)
  = Some (bytes (set_seq x v) ++ j, zlen (pre ++ seg (u32 (v - h_seq x)))).
Proof.
  intros Hc Hv Hle. unfold opt_step, seg. rewrite Hc. pose proof (wh_seq _ Hx) as Hw. pose proof (u32_range (v - h_seq x)) as Hr.
  destruct (ztrue (u32 (v - h_seq x))) eqn:E; unfold ztrue in E.
  - unfold DECODEL. cbn [fst snd]. apply negb_true_iff, Z.eqb_neq in E.
    rewrite decode_ENCODE by (unfold is_u32 in Hr; lia). rewrite rd_seq by done.
    replace (u32 (h_seq x + u32 (v - h_seq x))) with v by mlia. by rewrite wr_seq.
  - rewrite app_nil_r. apply negb_false_iff, Z.eqb_eq in E. replace v with (h_seq x) by mlia. by rewrite set_seq_id.
Qed.

(** The IP identification, sent unless it grew by one. *)
Definition new_id (v : Z) : bool := negb (u32 (v - h_id x) =? 1).
Definition seg_i (v : Z) : list Z := if new_id v then ENCODEZ (u32 (v - h_id x)) else [].

Lemma id_step v (s : slcompress) : flag_set ch NEW_I = new_id v -> is_u16 v ->
  (if flag_set ch NEW_I then knonnull (DECODES (pre ++ seg_i v ++ post) IP_ID (bytes x ++ j, zlen pre)) else
   let! id := knonnull (get16 (bytes x ++ j) IP_ID) in
   kret (put16 (bytes x ++ j) IP_ID (u16 (id + 1)), zlen pre))%kern s
  = Some ((bytes (set_id x v) ++ j, zlen (pre ++ seg_i v)), s).
Proof.
  intros Hc Hv. unfold seg_i. rewrite Hc. pose proof (wh_id _ Hx) as Hw. unfold new_id. destruct (Z.eqb_spec (u32 (v - h_id x)) 1) as [E|E]; cbn [negb].
  - rewrite (bind_nonnull _ _ _ _ (rd_id x j Hx)), app_nil_r. replace (u16 (h_id x + 1)) with v by mlia. by rewrite wr_id.
  - unfold DECODES. cbn [fst snd]. rewrite decode_ENCODEZ, rd_id by done.
    replace (u16 (h_id x + u16 (u32 (v - h_id x)))) with v by mlia. by rewrite wr_id.
Qed.
End Steps.

(** ** The header rebuilt *)

(** The flags of a packet that can be compressed: ACK, perhaps PUSH and URG. *)
Definition good_flags (f : Z) : Prop := 0 <= f < 64 /\ Z.land f 23 = TH_ACK.

Lemma good_flags_cases f : good_flags f -> f = 16 \/ f = 24 \/ f = 48 \/ f = 56.
Proof.
  intros [Hf Hl].
  assert (H : Forall (fun f => Z.land f 23 = 16 -> f = 16 \/ f = 24 \/ f = 48 \/ f = 56) (seqZ 0 64)).
  { apply Forall_forall. rewrite <- Forall_forall. repeat (apply Forall_cons; split; [vm_compute; try lia; tauto|]). apply Forall_nil. done. }
  rewrite Forall_forall in H. apply H; [|done]. apply elem_of_seqZ. lia.
Qed.

Definition set_bit (on : bool) (b f : Z) : Z := if on then Z.lor f b else Z.land f (Z.lnot b).

Lemma flags_rebuild f o : good_flags f -> good_flags o ->
  is_u8 (set_bit (flag_set f TH_PUSH) TH_PUSH o) /\
  set_bit (flag_set f TH_URG) TH_URG (set_bit (flag_set f TH_PUSH) TH_PUSH o) = f /\
  (flag_set f TH_URG = flag_set o TH_URG -> set_bit (flag_set f TH_PUSH) TH_PUSH o = f).
Proof.
  intros Hf Ho. destruct (good_flags_cases f Hf) as [->|[->|[->| ->]]], (good_flags_cases o Ho) as [->|[->|[->| ->]]];
    vm_compute; repeat split; congruence.
Qed.

(** A packet the link carries: the reserved bits are clear, the headers fit, and the
    urgent pointer is there exactly when URG says so. *)
Record sound_header (h : header) : Prop := {
  sh_wf : wf_header h;
  sh_p : h_p h = IPPROTO_TCP;
  sh_offx : h_offx h mod 16 = 0;
  sh_flags : 0 <= h_flags h < 64;
  sh_urg : urg h = true <-> h_urp h <> 0;
  sh_hlen : hlen h <= MAX_HDR }.

(** The two saved headers agree on the connection. *)
Record same_ends (h o : header) : Prop := {
  se_src : h_src o = h_src h; se_dst : h_dst o = h_dst h; se_ports : h_ports o = h_ports h }.

Lemma special_inv u w a s ns dS dA len olen n ch' ns' :
  special_cases (mask u w a s) ns dS dA len olen n = Some (ch', ns') ->
  (ch' = mask u w a s /\ ns' = ns /\ ch' <> SPECIAL_I /\ ch' <> SPECIAL_D) \/
  (u = false /\ w = false /\ s = true /\ ns' = [] /\ dS = u32 (olen - n) /\
     ((a = true /\ ch' = SPECIAL_I /\ dS = dA) \/ (a = false /\ ch' = SPECIAL_D))).
Proof.
  unfold special_cases. destruct u, w, a, s; simpl;
    repeat match goal with |- context [if ?c then _ else _] => let E := fresh "E" in destruct c eqn:E end;
    intros H; try discriminate H; injection H as <- <-; bool_hyps; rewrite ?Z.eqb_eq in *; subst;
    first [left; split_and!; [done|done|vm_compute; congruence..] | right; split_and!; try done; auto].
Qed.

Lemma header_eq a b :
  h_vhl a = h_vhl b -> h_tos a = h_tos b -> h_len a = h_len b -> h_id a = h_id b -> h_off a = h_off b ->
  h_ttl a = h_ttl b -> h_p a = h_p b -> h_sum a = h_sum b -> h_src a = h_src b -> h_dst a = h_dst b ->
  h_iopts a = h_iopts b -> h_ports a = h_ports b -> h_seq a = h_seq b -> h_ack a = h_ack b -> h_offx a = h_offx b ->
  h_flags a = h_flags b -> h_win a = h_win b -> h_tsum a = h_tsum b -> h_urp a = h_urp b -> h_topts a = h_topts b -> a = b.
Proof. destruct a, b; simpl; intros; subst; done. Qed.

Lemma offx_toff h : wf_header h -> h_offx h mod 16 = 0 -> h_offx h = 16 * toff h.
Proof. intros Hw Hm. unfold toff. rewrite Z.shiftr_div_pow2 by lia. change (2 ^ 4) with 16. pose proof (Z.div_mod (h_offx h) 16). lia. Qed.

Lemma toff_same h o : wf_header h -> wf_header o -> h_offx h mod 16 = 0 -> h_offx o mod 16 = 0 -> toff o = toff h ->
  h_offx o = h_offx h.
Proof. intros. rewrite !offx_toff by done. lia. Qed.

Lemma set_flag_run x j b on : wf_header x -> is_u8 (set_bit on b (h_flags x)) ->
  set_flag (bytes x ++ j) (4 * hl x + TH_FLAGS) b on = Some (bytes (set_flags x (set_bit on b (h_flags x))) ++ j).
Proof. intros Hx Hv. unfold set_flag. rewrite rd_flags by done. f_equal. by apply (wr_flags x j (set_bit on b (h_flags x))). Qed.

Section Update.
Context (h o : header) (jr d : list Z) (id : Z) (s : slcompress) (m : Z) (ns : list Z) (dS dA : Z) (ch : Z) (nseq : list Z).
Hypothesis Hh : sound_header h.
Hypothesis Ho : sound_header o.
Hypothesis Hst : same_static h o.
Hypothesis Hen : same_ends h o.
Hypothesis Hfh : good_flags (h_flags h).
Hypothesis Hfo : good_flags (h_flags o).
Hypothesis Hres : field_result h o = Some (m, ns, dS, dA).
Hypothesis Hsp : special_cases m ns dS dA (h_len h) (h_len o) (hlen h) = Some (ch, nseq).

Abbreviation push := (flag_set (h_flags h) TH_PUSH) (only parsing).
Definition fb := first_byte ch (new_id o (h_id h)) push.
Definition head4 : list Z := [fb; id; h_tsum h / 256; u8 (h_tsum h)].
Definition chdr : list Z := (head4 ++ nseq) ++ seg_i o (h_id h).

(** The saved header after the checksum and PUSH. *)
Definition x1 : header := set_flags (set_tsum (set_sum o 0) (h_tsum h)) (set_bit push TH_PUSH (h_flags o)).
(** The header before the identification is updated. *)
Definition x6 : header := set_id (set_len (set_sum h 0) (h_len o)) (h_id o).

Lemma wf_x1 : wf_header x1.
Proof.
  unfold x1. apply wf_flags; [|by apply flags_rebuild]. apply wf_tsum; [|apply Hh]. apply wf_sum; [apply Ho|done].
Qed.

Lemma field_facts :
  m = mask (urg h) (ztrue (d_win h o)) (ztrue (d_ack h o)) (ztrue (d_seq h o)) /\
  ns = seg_u h ++ seg (d_win h o) ++ seg (d_ack h o) ++ seg (d_seq h o) /\ dS = d_seq h o /\ dA = d_ack h o /\
  d_ack h o <= 0xffff /\ d_seq h o <= 0xffff /\ (urg h = false -> h_urp h = h_urp o).
Proof.
  pose proof Hres as R. unfold field_result in R. destruct (negb (urg h) && negb (h_urp h =? h_urp o)) eqn:E; [done|].
  destruct (Z.ltb_spec 0xffff (d_ack h o)); [done|]. destruct (Z.ltb_spec 0xffff (d_seq h o)); [done|].
  injection R as <- <- <- <-. split_and!; try done. intros Hu. rewrite Hu in E. simpl in E.
  by apply negb_false_iff, Z.eqb_eq in E.
Qed.

(** The fields the update does not touch. *)
Lemma x6_eq (x : header) :
  h_vhl x = h_vhl o -> h_tos x = h_tos o -> h_len x = h_len o -> h_id x = h_id o -> h_off x = h_off o ->
  h_ttl x = h_ttl o -> h_p x = h_p o -> h_sum x = 0 -> h_src x = h_src o -> h_dst x = h_dst o ->
  h_iopts x = h_iopts o -> h_ports x = h_ports o -> h_offx x = h_offx o -> h_topts x = h_topts o ->
  h_tsum x = h_tsum h -> h_seq x = h_seq h -> h_ack x = h_ack h -> h_flags x = h_flags h -> h_win x = h_win h ->
  h_urp x = h_urp h -> x = x6.
Proof.
  intros. pose proof Hst as [S1 S2 S3 S4 S5 S6 S7 S8]. pose proof Hen as [E1 E2 E3].
  pose proof (toff_same h o (sh_wf _ Hh) (sh_wf _ Ho) (sh_offx _ Hh) (sh_offx _ Ho) S6).
  apply header_eq; unfold x6; simpl; congruence.
Qed.

Lemma hlen_same : hlen o = hlen h.
Proof. unfold hlen, hl. rewrite (ss_vhl _ _ Hst). by rewrite (ss_toff _ _ Hst). Qed.

(** The first four bytes. *)
Lemma update_start (k : list Z -> Z -> K slcompress (list Z * Z)) post :
  (let! hl := knonnull (ip_hl (bytes (set_sum o 0) ++ jr)) in
   let th := 4 * hl in
   let! sum := knonnull (get16 (head4 ++ post) 2) in
   let h := put16 (bytes (set_sum o 0) ++ jr) (th + TH_SUM) sum in
   let! h := knonnull (set_flag h (th + TH_FLAGS) TH_PUSH push) in
   k h th)%kern s = k (bytes x1 ++ jr) (4 * hl x1) s.
Proof.
  assert (Hwo : wf_header (set_sum o 0)) by (apply wf_sum; [apply Ho|done]).
  assert (Ht : is_u16 (h_tsum h)) by apply Hh.
  rewrite (bind_nonnull _ _ _ _ (rd_hl (set_sum o 0) jr)).
  rewrite (bind_nonnull _ _ s (h_tsum h)).
  2:{ change (Some (h_tsum h / 256 * 256 + u8 (h_tsum h)) = Some (h_tsum h)). f_equal. by apply dec16. }
  cbv zeta. rewrite wr_tsum by done.
  change (hl (set_sum o 0)) with (hl (set_tsum (set_sum o 0) (h_tsum h))).
  rewrite (bind_nonnull _ _ s (bytes x1 ++ jr)); [done|].
  apply (set_flag_run (set_tsum (set_sum o 0) (h_tsum h))); [by apply wf_tsum|]. by apply flags_rebuild.
Qed.
(** The changed fields. *)
Definition middle (buf : list Z) (hd : list Z) (th : Z) : K slcompress (list Z * Z) :=
  (let special := Z.land fb SPECIALS_MASK in
   if special =? SPECIAL_I then
     let! len := knonnull (get16 hd IP_LEN) in
     let i := len - hlen o in
     let! ack := knonnull (get32 hd (th + TH_ACKNO)) in
     let hd := put32 hd (th + TH_ACKNO) (u32 (ack + i)) in
     let! seq := knonnull (get32 hd (th + TH_SEQ)) in
     kret (put32 hd (th + TH_SEQ) (u32 (seq + i)), 4)
   else if special =? SPECIAL_D then
     let! len := knonnull (get16 hd IP_LEN) in
     let! seq := knonnull (get32 hd (th + TH_SEQ)) in
     kret (put32 hd (th + TH_SEQ) (u32 (seq + len - hlen o)), 4)
   else
     let! hd := knonnull (set_flag hd (th + TH_FLAGS) TH_URG (flag_set fb NEW_U)) in
     let! hc := knonnull (opt_step fb NEW_U (DECODEU buf (th + TH_URP)) (hd, 4)) in
     let! hc := knonnull (opt_step fb NEW_W (DECODES buf (th + TH_WIN)) hc) in
     let! hc := knonnull (opt_step fb NEW_A (DECODEL buf (th + TH_ACKNO)) hc) in
     knonnull (opt_step fb NEW_S (DECODEL buf (th + TH_SEQ)) hc))%kern.

Lemma middle_normal post : ch = m -> nseq = ns -> ch <> SPECIAL_I -> ch <> SPECIAL_D ->
  middle ((head4 ++ nseq) ++ post) (bytes x1 ++ jr) (4 * hl x1) s = Some ((bytes x6 ++ jr, zlen (head4 ++ nseq)), s).
Proof.
  intros Ec En N1 N2. destruct field_facts as (Em & Ens & _ & _ & Ha & Hs & Hu). pose proof wf_x1 as W1.
  pose proof (first_byte_bits (urg h) (ztrue (d_win h o)) (ztrue (d_ack h o)) (ztrue (d_seq h o))
    (new_id o (h_id h)) push) as (_ & BU & BW & BA & BS & _ & _ & BM & _).
  rewrite <- Em, <- Ec in *. fold fb in BU, BW, BA, BS, BM.
  unfold middle. cbv zeta. rewrite BM. destruct (Z.eqb_spec ch SPECIAL_I); [done|]. destruct (Z.eqb_spec ch SPECIAL_D); [done|].
  destruct (flags_rebuild _ _ Hfh Hfo) as (Hp8 & Hfin & _).
  assert (F2 : set_bit (flag_set fb NEW_U) TH_URG (h_flags x1) = h_flags h) by (rewrite BU; exact Hfin).
  assert (Hf8 : is_u8 (set_bit (flag_set fb NEW_U) TH_URG (h_flags x1))).
  { rewrite F2. pose proof (sh_flags _ Hh). unfold is_u8. lia. }
  rewrite (bind_nonnull _ _ _ _ (set_flag_run x1 jr TH_URG (flag_set fb NEW_U) W1 Hf8)).
  set (x2 := set_flags x1 (set_bit (flag_set fb NEW_U) TH_URG (h_flags x1))) in *.
  assert (W2 : wf_header x2) by (by apply wf_flags).
  pose proof (wh_urp _ (sh_wf _ Hh)) as R1. pose proof (wh_win _ (sh_wf _ Hh)) as R2.
  pose proof (wh_ack _ (sh_wf _ Hh)) as R3. pose proof (wh_seq _ (sh_wf _ Hh)) as R4.
  rewrite En, Ens. unfold seg_u.
  replace ((head4 ++ (if urg h then ENCODEZ (h_urp h) else []) ++ seg (d_win h o) ++ seg (d_ack h o) ++ seg (d_seq h o)) ++ post)
    with (head4 ++ (if urg h then ENCODEZ (h_urp h) else []) ++ (seg (d_win h o) ++ seg (d_ack h o) ++ seg (d_seq h o) ++ post))
    by (by rewrite <- !app_assoc).
  set (su := if urg h then ENCODEZ (h_urp h) else []) in *.
  change (hl x1) with (hl x2). change 4 with (zlen head4) at 1.
  pose proof (urp_step x2 jr head4 (seg (d_win h o) ++ seg (d_ack h o) ++ seg (d_seq h o) ++ post) fb W2 (h_urp h) (urg h) BU R1) as SU.
  fold su in SU. rewrite (bind_nonnull _ _ _ _ SU).
  set (x3 := if urg h then set_urp x2 (h_urp h) else x2) in *.
  assert (W3 : wf_header x3) by (unfold x3; destruct (urg h); [by apply wf_urp|done]).
  assert (E3 : hl x3 = hl x2 /\ h_win x3 = h_win o /\ h_ack x3 = h_ack o /\ h_seq x3 = h_seq o) by (unfold x3; by destruct (urg h)).
  destruct E3 as (E3 & E3w & E3a & E3s). rewrite <- E3.
  pose proof (win_step x3 jr (head4 ++ su) (seg (d_ack h o) ++ seg (d_seq h o) ++ post) fb W3 (h_win h)) as SW.
  rewrite E3w in SW. fold (d_win h o) in SW. specialize (SW BW R2). rewrite <- !app_assoc in SW.
  rewrite (bind_nonnull _ _ _ _ SW). set (x4 := set_win x3 (h_win h)) in *.
  assert (W4 : wf_header x4) by (by apply wf_win). change (hl x3) with (hl x4).
  pose proof (ack_step x4 jr (head4 ++ su ++ seg (d_win h o)) (seg (d_seq h o) ++ post) fb W4 (h_ack h)) as SA.
  change (h_ack x4) with (h_ack x3) in SA. rewrite E3a in SA. fold (d_ack h o) in SA. specialize (SA BA R3 Ha).
  rewrite <- !app_assoc in SA. rewrite (bind_nonnull _ _ _ _ SA). set (x5 := set_ack x4 (h_ack h)) in *.
  assert (W5 : wf_header x5) by (by apply wf_ack). change (hl x4) with (hl x5).
  pose proof (seq_step x5 jr (head4 ++ su ++ seg (d_win h o) ++ seg (d_ack h o)) post fb W5 (h_seq h)) as SS.
  change (h_seq x5) with (h_seq x3) in SS. rewrite E3s in SS. fold (d_seq h o) in SS. specialize (SS BS R4 Hs).
  rewrite <- !app_assoc in SS. unfold knonnull. rewrite SS. rewrite <- (x6_eq (set_seq x5 (h_seq h))); try done;
    try (unfold x3; by destruct (urg h)).
  unfold x5, x4, x3. destruct (urg h) eqn:Eu; simpl; [done|]. symmetry. by apply Hu.
Qed.
Lemma special_flags : urg h = false -> set_bit push TH_PUSH (h_flags o) = h_flags h.
Proof.
  intros Hu. destruct (flags_rebuild _ _ Hfh Hfo) as (_ & _ & H). apply H. fold (urg h) (urg o). rewrite Hu.
  destruct field_facts as (_ & _ & _ & _ & _ & _ & Hp). destruct (urg o) eqn:E; [|done].
  apply (sh_urg _ Ho) in E. rewrite <- (Hp Hu) in E. apply (sh_urg _ Hh) in E. congruence.
Qed.

Lemma middle_special post : nseq = [] -> urg h = false -> d_win h o = 0 -> ztrue (d_seq h o) = true ->
  d_seq h o = u32 (h_len o - hlen h) ->
  (ztrue (d_ack h o) = true /\ ch = SPECIAL_I /\ d_seq h o = d_ack h o) \/ (ztrue (d_ack h o) = false /\ ch = SPECIAL_D) ->
  middle ((head4 ++ nseq) ++ post) (bytes x1 ++ jr) (4 * hl x1) s = Some ((bytes x6 ++ jr, zlen (head4 ++ nseq)), s).
Proof.
  intros En Hu Hw Hs Hd Hc. pose proof wf_x1 as W1. pose proof (special_flags Hu) as Hfl.
  pose proof (sh_wf _ Hh) as Wh. pose proof (sh_wf _ Ho) as Wo.
  pose proof (wh_seq _ Wh) as R1. pose proof (wh_seq _ Wo) as R2. pose proof (wh_ack _ Wh) as R3. pose proof (wh_ack _ Wo) as R4.
  pose proof (wh_win _ Wh) as R5. pose proof (wh_win _ Wo) as R6.
  destruct field_facts as (_ & _ & _ & _ & _ & _ & Hp). specialize (Hp Hu).
  assert (Ewin : h_win o = h_win h) by (unfold d_win in Hw; mlia).
  assert (Eseq : u32 (h_seq o + (h_len o - hlen h)) = h_seq h) by (unfold d_seq in Hd; mlia).
  rewrite En, app_nil_r. unfold middle. cbv zeta. rewrite hlen_same.
  destruct Hc as [(Ea & Ec & Esa)|(Ea & Ec)].
  - assert (Efb : Z.land fb SPECIALS_MASK = SPECIAL_I).
    { unfold fb. rewrite Ec. destruct (first_byte_bits true true false true (new_id o (h_id h)) push) as (_ & _ & _ & _ & _ & _ & _ & E & _). exact E. }
    rewrite Efb. cbn [Z.eqb].
    change (Z.eqb SPECIAL_I SPECIAL_I) with true. cbv iota.
    rewrite (bind_nonnull _ _ _ _ (rd_len x1 jr W1)), (bind_nonnull _ _ _ _ (rd_ack x1 jr W1)).
    change (h_len x1) with (h_len o). change (h_ack x1) with (h_ack o).
    assert (Eack : u32 (h_ack o + (h_len o - hlen h)) = h_ack h) by (unfold d_seq, d_ack in *; rewrite Esa in Hd; mlia).
    rewrite Eack, wr_ack by done. assert (W2 : wf_header (set_ack x1 (h_ack h))) by (by apply wf_ack).
    change (hl x1) with (hl (set_ack x1 (h_ack h))). rewrite (bind_nonnull _ _ _ _ (rd_seq _ jr W2)).
    change (h_seq (set_ack x1 (h_ack h))) with (h_seq o). rewrite Eseq, wr_seq by done.
    rewrite <- (x6_eq (set_seq (set_ack x1 (h_ack h)) (h_seq h))); done.
  - assert (Efb : Z.land fb SPECIALS_MASK = SPECIAL_D).
    { unfold fb. rewrite Ec. destruct (first_byte_bits true true true true (new_id o (h_id h)) push) as (_ & _ & _ & _ & _ & _ & _ & E & _). exact E. }
    rewrite Efb. change (Z.eqb SPECIAL_D SPECIAL_I) with false. change (Z.eqb SPECIAL_D SPECIAL_D) with true. cbv iota.
    rewrite (bind_nonnull _ _ _ _ (rd_len x1 jr W1)), (bind_nonnull _ _ _ _ (rd_seq x1 jr W1)).
    change (h_len x1) with (h_len o). change (h_seq x1) with (h_seq o).
    replace (h_seq o + h_len o - hlen h) with (h_seq o + (h_len o - hlen h)) by lia. rewrite Eseq, wr_seq by done.
    assert (Eack : h_ack o = h_ack h).
    { apply negb_false_iff, Z.eqb_eq in Ea. unfold d_ack in Ea. mlia. }
    rewrite <- (x6_eq (set_seq x1 (h_seq h))); done.
Qed.

(** The decompressor rebuilds the header, up to its length and checksum. *)
Lemma update_spec :
  update_header (chdr ++ d) fb (hlen o) (bytes (set_sum o 0) ++ jr) 2 s
  = Some ((bytes (set_len (set_sum h 0) (h_len o)) ++ jr, zlen chdr), s).
Proof.
  assert (HM : middle ((head4 ++ nseq) ++ (seg_i o (h_id h) ++ d)) (bytes x1 ++ jr) (4 * hl x1) s
    = Some ((bytes x6 ++ jr, zlen (head4 ++ nseq)), s)).
  { destruct field_facts as (Em & _ & ES & EA & _). pose proof Hsp as Hs2. rewrite Em in Hs2.
    apply special_inv in Hs2 as [(Ec & En & ? & ?)|(Hu & Hw & Hs & En & Hd & Hc)].
    - apply middle_normal; try done. by rewrite Em.
    - rewrite ES in Hd, Hc. rewrite EA in Hc. apply middle_special; try done.
      apply negb_false_iff, Z.eqb_eq in Hw. done. }
  unfold chdr. rewrite <- !app_assoc. rewrite (app_assoc head4 nseq).
  assert (Wx6 : wf_header x6) by (apply wf_id; [apply wf_len; [apply wf_sum; [apply Hh|done]|apply Ho]|apply Ho]).
  pose proof (id_step x6 jr (head4 ++ nseq) d fb Wx6 (h_id h) s) as HI.
  assert (Efp : flag_set fb TCP_PUSH_BIT = push /\ flag_set fb NEW_I = new_id o (h_id h)).
  { destruct field_facts as (Em & _). pose proof Hsp as Hs2. rewrite Em in Hs2. unfold fb.
    apply special_inv in Hs2 as [(-> & _)|(_ & _ & _ & _ & _ & [(_ & -> & _)|(_ & ->)])].
    - by destruct (first_byte_bits (urg h) (ztrue (d_win h o)) (ztrue (d_ack h o)) (ztrue (d_seq h o)) (new_id o (h_id h)) push) as (_ & _ & _ & _ & _ & ? & ? & _).
    - by destruct (first_byte_bits true true false true (new_id o (h_id h)) push) as (_ & _ & _ & _ & _ & ? & ? & _).
    - by destruct (first_byte_bits true true true true (new_id o (h_id h)) push) as (_ & _ & _ & _ & _ & ? & ? & _). }
  destruct Efp as [Ep Ei]. specialize (HI Ei (wh_id _ (sh_wf _ Hh))).
  pose proof (update_start (fun hd th => kbind (middle ((head4 ++ nseq) ++ seg_i o (h_id h) ++ d) hd th) (fun '(hd, cp) =>
    if flag_set fb NEW_I then knonnull (DECODES ((head4 ++ nseq) ++ seg_i o (h_id h) ++ d) IP_ID (hd, cp)) else
    let! id := knonnull (get16 hd IP_ID) in kret (put16 hd IP_ID (u16 (id + 1)), cp))%kern)
    (nseq ++ seg_i o (h_id h) ++ d)) as HS.
  unfold update_header. rewrite Ep. rewrite (app_assoc head4) in HS. etransitivity; [exact HS|].
  rewrite (bind_run _ _ s _ s HM). exact HI.
Qed.
End Update.
