(* ===== verification/SlcompRing.v ===== *)
(** * The connection states of the compressor

    The circular list of [tstate] as the sequence of its states from the most to the least
    recently used, and the search of [sl_compress_tcp] as a move to the front. *)

From S2P Require Import Prelude Slcomp SlcompSpec SlcompTrip.

(** ** The list *)

(** From [x] the states of [l] follow each other. *)
Fixpoint links (ts : list cstate) (x : Z) (l : list Z) : Prop :=
  match l with
  | [] => True
  | y :: r => cs_next <$> znth ts x = Some y /\ links ts y r
  end.

(** The order of use is [l]: [last_cs] is its end, from which the list starts again. *)
Record ring (s : slcompress) (l : list Z) : Prop := {
  rg_links : links (tstate s) (last_cs s) l;
  rg_last : last l = Some (last_cs s);
  rg_nodup : NoDup l;
  rg_length : length l = 16%nat;
  rg_in i : i ∈ l -> 0 <= i < MAX_STATES;
  rg_size : zlen (tstate s) = MAX_STATES }.

(** Every saved header has the room of the union. *)
Definition hdrs_ok (ts : list cstate) : Prop := forall i x, znth ts i = Some x -> zlen (cs_hdr x) = MAX_HDR.

(** ** The test *)

(** The saved header is that of the connection of [h]. *)
Definition matches (h : header) (x : cstate) : bool :=
  bool_decide (get32 (cs_hdr x) IP_SRC = Some (h_src h)) && bool_decide (get32 (cs_hdr x) IP_DST = Some (h_dst h)) &&
  bool_decide ((hl ← ip_hl (cs_hdr x); get32 (cs_hdr x) (4 * hl)) = Some (h_ports h)).

Definition match_at (s : slcompress) (h : header) (i : Z) : bool :=
  match znth (tstate s) i with Some x => matches h x | None => false end.

Lemma get32_some b i : 0 <= i -> i + 3 < zlen b -> is_Some (get32 b i).
Proof.
  intros H0 H1. unfold get32, get16. replace (i + 2 + 1) with (i + 3) by lia.
  destruct (proj1 (znth_is_some b i)) as [? ->]; [lia|]. destruct (proj1 (znth_is_some b (i + 1))) as [? ->]; [lia|].
  destruct (proj1 (znth_is_some b (i + 2))) as [? ->]; [lia|]. destruct (proj1 (znth_is_some b (i + 3))) as [? ->]; [lia|]. eauto.
Qed.

Lemma decide_some (a b : Z) : bool_decide (Some b = Some a) = (a =? b).
Proof. destruct (Z.eqb_spec a b) as [->|]; [by apply bool_decide_eq_true_2|apply bool_decide_eq_false_2; congruence]. Qed.

Lemma same_conn_run h d x s : wf_header h -> zlen (cs_hdr x) = MAX_HDR ->
  same_conn (bytes h ++ d) (4 * hl h) x s = Some (matches h x, s).
Proof.
  intros Hw Hx. unfold same_conn, matches, IP_SRC, IP_DST, MAX_HDR in *.
  destruct (get32_some (cs_hdr x) 12) as [a1 E1]; [lia..|]. destruct (get32_some (cs_hdr x) 16) as [a2 E2]; [lia..|].
  rewrite (bind_nonnull _ _ _ _ (rd_src h d Hw)), (bind_nonnull _ _ _ _ E1), E1, decide_some.
  destruct (h_src h =? a1); [|done]. cbn [negb].
  rewrite (bind_nonnull _ _ _ _ (rd_dst h d Hw)), (bind_nonnull _ _ _ _ E2), E2, decide_some.
  destruct (h_dst h =? a2); [|done]. cbn [negb].
  assert (Hhl : exists n, ip_hl (cs_hdr x) = Some n /\ 0 <= n < 16).
  { unfold ip_hl, get8. destruct (proj1 (znth_is_some (cs_hdr x) 0)) as [v ->]; [lia|]. exists (Z.land v 15). split; [done|].
    change 15 with (Z.ones 4). rewrite Z.land_ones by lia. apply Z.mod_pos_bound. lia. }
  destruct Hhl as (n & En & Hn). destruct (get32_some (cs_hdr x) (4 * n)) as [a3 E3]; [lia..|].
  rewrite (bind_nonnull _ _ _ _ En), (bind_nonnull _ _ _ _ (rd_ports h d Hw)), (bind_nonnull _ _ _ _ E3), En. cbn.
  by rewrite E3, decide_some.
Qed.

(** A header that matches has the same ends. *)
Lemma matches_ends h o x j : wf_header o -> cs_hdr x = bytes o ++ j -> matches h x = true -> same_ends h o.
Proof.
  intros Ho E H. unfold matches in H. rewrite E, rd_src, rd_dst, rd_hl in H by done. cbn [mbind option_bind] in H. rewrite rd_ports in H by done.
  bool_hyps. repeat match goal with H : bool_decide _ = true |- _ => apply bool_decide_eq_true_1 in H; injection H as H end.
  by split.
Qed.

(** ** The search *)

Lemma incr_run k s : exists v, INCR k s = Some (tt, with_sls s v).
Proof. eexists. reflexivity. Qed.

Lemma get_t_run i s x : znth (tstate s) i = Some x -> get_t i s = Some (x, s).
Proof. intros H. unfold get_t, kderef. by rewrite H. Qed.

Lemma links_next ts x y l : links ts x (y :: l) -> exists c, znth ts x = Some c /\ cs_next c = y.
Proof. intros [H _]. destruct (znth ts x) as [c|]; [|done]. exists c. by injection H. Qed.

Lemma with_sls_sls s v1 v2 : with_sls (with_sls s v1) v2 = with_sls s v2.
Proof. done. Qed.

Section Search.
Context (h : header) (d : list Z).
Hypothesis Hw : wf_header h.

(** Where the search stops on the states [post] after [cs]. *)
Lemma search_run lastcs : forall post fuel cs s,
  links (tstate s) cs post -> last post = Some lastcs -> NoDup post -> (length post <= fuel)%nat ->
  hdrs_ok (tstate s) -> (forall i, i ∈ post -> is_Some (znth (tstate s) i)) ->
  exists found a i b v, post = a ++ i :: b /\
    search fuel (bytes h ++ d) (4 * hl h) cs lastcs s = Some ((found, default cs (last a), i), with_sls s v) /\
    Forall (fun k => match_at s h k = false) a /\
    if (found : bool) then match_at s h i = true else b = [] /\ match_at s h i = false.
Proof.
  induction post as [|y post IH]; intros fuel cs s Hl Hlast Hnd Hf Hok Hsome; [done|].
  destruct fuel as [|fuel]; [simpl in Hf; lia|]. destruct (links_next _ _ _ _ Hl) as (c & Hc & Hy).
  destruct (Hsome y) as [z Hz]; [left|]. cbn [search]. rewrite (bind_run _ _ _ _ _ (get_t_run cs s c Hc)). cbv zeta. rewrite Hy.
  destruct (incr_run sls_searches s) as [v Hv]. rewrite (bind_run _ _ _ _ _ Hv).
  rewrite (bind_run _ _ _ _ _ (get_t_run y (with_sls s v) z Hz)).
  rewrite (bind_run _ _ _ _ _ (same_conn_run h d z (with_sls s v) Hw (Hok y z Hz))).
  assert (Hm : match_at s h y = matches h z) by (unfold match_at; by rewrite Hz).
  destruct (matches h z) eqn:Em.
  { exists true, [], y, post, v. done. }
  destruct (Z.eqb_spec y lastcs) as [->|Hne].
  { exists false, [], lastcs, post, v. split; [done|]. split; [done|]. split; [done|]. split; [|done].
    destruct post as [|q post]; [done|]. exfalso. apply NoDup_cons in Hnd as [Hnd _]. apply Hnd.
    rewrite last_cons_cons in Hlast. by apply last_Some_elem_of. }
  destruct post as [|q post]; [injection Hlast as ->; done|]. rewrite last_cons_cons in Hlast.
  apply NoDup_cons in Hnd as [_ Hnd].
  destruct (IH fuel y (with_sls s v)) as (found & a & i & b & v' & E & Hrun & Ha & Hi); try done.
  { apply Hl. }
  { simpl in Hf. simpl. lia. }
  { intros i Hi. apply Hsome. by right. }
  exists found, (y :: a), i, b, v'. split; [by rewrite E|]. split; [|split; [by constructor|done]].
  rewrite Hrun, with_sls_sls. do 4 f_equal. destruct a as [|a0 a]; [done|]. rewrite last_cons_cons.
  destruct (last (a0 :: a)) eqn:El; [done|]. by apply last_None in El.
Qed.
End Search.

(** ** Moving a state to the front *)

Definition nxt (ts : list cstate) (i : Z) : option Z := cs_next <$> znth ts i.

(** What the list operations leave alone. *)
Definition view (ts : list cstate) : list (Z * list Z) := (fun x => (cs_id x, cs_hdr x)) <$> ts.

Lemma view_with_next ts i x v : znth ts i = Some x -> view (zset ts i (with_next x v)) = view ts.
Proof.
  intros Hx. unfold view, zset. unfold znth in Hx. destruct (0 <=? i); [|done].
  rewrite list_fmap_insert. apply list_insert_id. by rewrite list_lookup_fmap, Hx.
Qed.

Lemma nxt_set ts i x v k : znth ts i = Some x -> nxt (zset ts i (with_next x v)) k = if k =? i then Some v else nxt ts k.
Proof.
  intros Hx. unfold nxt. rewrite znth_zset by (by apply znth_some in Hx). by destruct (k =? i).
Qed.

Lemma links_app ts a b : forall x, links ts x (a ++ b) <-> links ts x a /\ links ts (default x (last a)) b.
Proof.
  induction a as [|y a IH]; intros x; [simpl; tauto|]. cbn [app links]. rewrite IH.
  assert (E : default x (last (y :: a)) = default y (last a)).
  { destruct a as [|z a]; [done|]. rewrite last_cons_cons. destruct (last (z :: a)) eqn:El; [done|]. by apply last_None in El. }
  rewrite E. tauto.
Qed.

(** The last state of a segment has no successor in it. *)
Lemma links_frame ts ts' : forall l x, NoDup (x :: l) ->
  (forall k, k ∈ x :: l -> Some k <> last (x :: l) -> nxt ts' k = nxt ts k) -> links ts x l -> links ts' x l.
Proof.
  induction l as [|y l IH]; intros x Hnd Hf; [done|]. intros [H1 H2]. apply NoDup_cons in Hnd as [Hx Hnd]. split.
  - change (nxt ts' x = Some y). rewrite Hf; [done|left|]. rewrite last_cons_cons. intros E. apply Hx.
    by apply last_Some_elem_of.
  - apply IH; try done. intros k Hk Hl. apply Hf; [by right|]. by rewrite last_cons_cons.
Qed.

Lemma zlen_zset' {A} (l : list A) i x : zlen (zset l i x) = zlen l.
Proof. apply zlen_zset. Qed.

Lemma get_t_some s i : zlen (tstate s) = MAX_STATES -> 0 <= i < MAX_STATES -> exists x, znth (tstate s) i = Some x.
Proof. intros Hz Hi. apply znth_is_some. lia. Qed.

Lemma mod_t_run i f s x : znth (tstate s) i = Some x -> mod_t i f s = Some (tt, with_tstate s (zset (tstate s) i (f x))).
Proof. intros Hx. unfold mod_t. by rewrite (bind_run _ _ _ _ _ (get_t_run i s x Hx)). Qed.

(** The three assignments that take [i] out from between [p] and [n] and put it after the
    last state [z]. *)
Lemma relink_run s p i z f n :
  zlen (tstate s) = MAX_STATES -> 0 <= p < MAX_STATES -> 0 <= i < MAX_STATES -> 0 <= z < MAX_STATES ->
  p <> i -> i <> z -> p <> z -> nxt (tstate s) i = Some n -> nxt (tstate s) z = Some f ->
  exists ts, (let! y := get_t i in
      do! mod_t p (fun x => with_next x (cs_next y)) in
      let! w := get_t z in
      do! mod_t i (fun x => with_next x (cs_next w)) in
      do! mod_t z (fun x => with_next x i) in
      kret (true, i))%kern s = Some ((true, i), with_tstate s ts) /\
    view ts = view (tstate s) /\ zlen ts = MAX_STATES /\
    forall k, nxt ts k = if k =? z then Some i else if k =? i then Some f else if k =? p then Some n else nxt (tstate s) k.
Proof.
  intros Hsz Hp Hi Hz Hpi Hiz Hpz Hni Hnz.
  destruct (get_t_some s i Hsz Hi) as [y Hy]. destruct (get_t_some s p Hsz Hp) as [q Hq]. destruct (get_t_some s z Hsz Hz) as [w Hw].
  assert (cs_next y = n) as Ey by (unfold nxt in Hni; rewrite Hy in Hni; by injection Hni).
  assert (cs_next w = f) as Ew by (unfold nxt in Hnz; rewrite Hw in Hnz; by injection Hnz).
  rewrite (bind_run _ _ _ _ _ (get_t_run i s y Hy)), (bind_run _ _ _ _ _ (mod_t_run p _ s q Hq)), Ey.
  set (t1 := zset (tstate s) p (with_next q n)). set (s1 := with_tstate s t1).
  assert (Hw1 : znth (tstate s1) z = Some w) by (unfold s1, t1; simpl; by rewrite znth_zset_ne by done).
  rewrite (bind_run _ _ _ _ _ (get_t_run z s1 w Hw1)), Ew.
  assert (Hy1 : znth (tstate s1) i = Some y) by (unfold s1, t1; simpl; by rewrite znth_zset_ne by done).
  rewrite (bind_run _ _ _ _ _ (mod_t_run i _ s1 y Hy1)).
  set (t2 := zset (tstate s1) i (with_next y f)). set (s2 := with_tstate s1 t2).
  assert (Hw2 : znth (tstate s2) z = Some w) by (unfold s2, t2; simpl; by rewrite znth_zset_ne by done).
  rewrite (bind_run _ _ _ _ _ (mod_t_run z _ s2 w Hw2)).
  exists (zset (tstate s2) z (with_next w i)). split; [done|]. split; [|split].
  - rewrite view_with_next by done. unfold s2, t2. simpl. rewrite view_with_next by done. unfold s1, t1. simpl. by apply view_with_next.
  - unfold s2, t2, s1, t1. simpl. by rewrite !zlen_zset.
  - intros k. rewrite (nxt_set _ _ w) by done. unfold s2, t2. simpl. rewrite (nxt_set _ _ y) by done.
    unfold s1, t1. simpl. by rewrite (nxt_set _ _ q) by done.
Qed.

(** The new order: [i] first. *)
Definition to_front (i : Z) (l : list Z) : list Z := i :: filter (fun k => k <> i) l.

Lemma to_front_split pre i b : NoDup (pre ++ i :: b) -> to_front i (pre ++ i :: b) = i :: pre ++ b.
Proof.
  intros Hnd. apply NoDup_app in Hnd as (_ & Hd & Hnd). apply NoDup_cons in Hnd as [Hi _]. unfold to_front. f_equal.
  rewrite filter_app, filter_cons_False by (intros H; by apply H). f_equal; apply filter_all.
  - intros k Hk ->. apply (Hd i Hk). left.
  - intros k Hk ->. done.
Qed.

(** A ring in another order. *)
Lemma ring_perm s s' l l' : ring s l -> Permutation l' l -> links (tstate s') (last_cs s') l' ->
  last l' = Some (last_cs s') -> zlen (tstate s') = MAX_STATES -> ring s' l'.
Proof.
  intros [R1 R2 R3 R4 R5 R6] Hp Hl Hlast Hz. split; try done.
  - by rewrite Hp.
  - by rewrite Hp.
  - intros i. rewrite Hp. apply R5.
Qed.

Lemma last_app_cons {A} (a : list A) x b : last (a ++ x :: b) = last (x :: b).
Proof. rewrite last_app. by destruct (last (x :: b)) eqn:E; [|apply last_None in E]. Qed.

Lemma ring_head s f post : ring s (f :: post) -> nxt (tstate s) (last_cs s) = Some f.
Proof. intros [[H _] _]. exact H. Qed.

(** The last of a nonempty segment. *)
Lemma default_last {A} (x : A) a : last (x :: a) = Some (default x (last a)).
Proof. destruct a as [|y a]; [done|]. rewrite last_cons_cons. destruct (last (y :: a)) eqn:E; [done|]. by apply last_None in E. Qed.

(** The reused or found state at the end of the list becomes its start: only [last_cs]
    changes. *)
Lemma ring_rotate s f a i : ring s (f :: a ++ [i]) -> ring (with_last_cs s (default f (last a))) (to_front i (f :: a ++ [i])).
Proof.
  intros Hr. pose proof Hr as [R1 R2 R3 R4 R5 R6].
  pose proof (to_front_split (f :: a) i [] R3) as E. rewrite app_nil_r in E. cbn [app] in E. rewrite E.
  assert (Hi : last_cs s = i). { change (last ((f :: a) ++ [i]) = Some (last_cs s)) in R2. rewrite last_app_cons in R2. by injection R2. }
  apply (ring_perm s _ (f :: a ++ [i])); [done| | | |done].
  - rewrite app_comm_cons. apply Permutation_cons_append.
  - cbn [with_last_cs tstate last_cs]. destruct R1 as [H1 H2]. apply links_app in H2 as [H2 [H3 _]].
    rewrite Hi in H1. split; [done|]. split; [done|]. done.
  - cbn [with_last_cs last_cs]. rewrite last_cons_cons. apply default_last.
Qed.

Section Locate.
Context (h : header) (d : list Z).
Hypothesis Hw : wf_header h.

(** The search moves the first state of the connection to the front, or else the least
    recently used one. *)
Lemma locate_run s l :
  ring s l -> hdrs_ok (tstate s) ->
  exists found i s', locate (bytes h ++ d) (4 * hl h) s = Some ((found, i), s') /\ i ∈ l /\
    ring s' (to_front i l) /\ view (tstate s') = view (tstate s) /\ match_at s h i = found /\
    if found then exists pre b, l = pre ++ i :: b /\ Forall (fun k => match_at s h k = false) pre
    else last l = Some i /\ Forall (fun k => match_at s h k = false) l.
Proof.
  intros Hr Hok. pose proof Hr as [R1 R2 R3 R4 R5 R6]. destruct l as [|f post]; [done|].
  assert (Hsome : forall i, i ∈ f :: post -> exists x, znth (tstate s) i = Some x) by (intros i Hi; apply get_t_some; auto).
  destruct (links_next _ _ _ _ R1) as (c & Hc & Ec). destruct (Hsome f) as [y Hy]; [left|].
  unfold locate. rewrite (bind_run kget _ s s s) by done. cbv zeta. rewrite (bind_run _ _ _ _ _ (get_t_run _ s c Hc)), Ec.
  rewrite (bind_run _ _ _ _ _ (get_t_run f s y Hy)), (bind_run _ _ _ _ _ (same_conn_run h d y s Hw (Hok f y Hy))).
  assert (Hmf : match_at s h f = matches h y) by (unfold match_at; by rewrite Hy).
  destruct (matches h y).
  { exists true, f, s. split; [done|]. split; [left|]. pose proof (to_front_split [] f post R3) as Ef. cbn [app] in Ef. rewrite Ef. split; [done|].
    split; [done|]. split; [done|]. by exists [], post. }
  assert (Hlast : last post = Some (last_cs s)).
  { destruct post as [|q post]; [done|]. by rewrite last_cons_cons in R2. }
  apply NoDup_cons in R3 as [Hf Hnd]. destruct R1 as [_ R1].
  destruct (search_run h d Hw (last_cs s) post (Z.to_nat MAX_STATES) f s) as (found & a & i & b & v & E & Hrun & Ha & Hi);
    try done.
  { simpl in R4. change (Z.to_nat MAX_STATES) with 16%nat. lia. }
  { intros k Hk. destruct (Hsome k) as [x Hx]; [by right|]. eauto. }
  rewrite (bind_run _ _ _ _ _ Hrun). cbv beta iota. set (s1 := with_sls s v) in *.
  assert (Hr1 : ring s1 (f :: post)) by (by destruct Hr).
  assert (Hpre : Forall (fun k => match_at s h k = false) (f :: a)) by (by constructor).
  destruct b as [|n b].
  - assert (Ei : i = last_cs s) by (rewrite E, (last_app_cons a i []) in Hlast; by injection Hlast).
    exists found, i. rewrite <- Ei in *. rewrite E in *. destruct found.
    + rewrite Z.eqb_refl. eexists. split; [reflexivity|]. split; [right; apply elem_of_app; right; left|].
      split; [by apply ring_rotate|]. split; [done|]. split; [done|]. by exists (f :: a), [].
    + destruct (incr_run sls_misses s1) as [v2 Hv2]. cbn [negb]. rewrite (bind_run _ _ _ _ _ Hv2). eexists. split; [reflexivity|].
      split; [right; apply elem_of_app; right; left|]. split; [apply (ring_rotate (with_sls s1 v2)); by destruct Hr1|].
      split; [done|]. split; [apply Hi|]. split; [exact (last_app_cons (f :: a) i [])|].
      apply (Forall_app _ (f :: a) [i]). split; [done|]. constructor; [apply Hi|constructor].
  - destruct found; [|by destruct Hi]. cbn [negb].
    assert (El : last (n :: b) = Some (last_cs s)) by (by rewrite E, last_app_cons, last_cons_cons in Hlast).
    rewrite E in *. set (p := default f (last a)) in *. set (z := last_cs s) in *.
    apply NoDup_app in Hnd as (Na & Nd & Nb). apply NoDup_cons in Nb as [Nib Nb].
    assert (Hz : z ∈ n :: b) by (by apply last_Some_elem_of).
    assert (Hiz : i <> z) by (by intros ->). destruct (Z.eqb_spec i z) as [|_]; [done|].
    assert (Hpin : p ∈ f :: a) by (apply last_Some_elem_of; apply default_last).
    assert (Hnot : forall k, k ∈ f :: a -> k <> i /\ k ∉ n :: b).
    { intros k Hk. apply elem_of_cons in Hk as [->|Hk].
      - rewrite elem_of_app, elem_of_cons in Hf. split; tauto.
      - split; [intros ->; apply (Nd i Hk); left|]. intros Hk2. apply (Nd k Hk). by right. }
    destruct (Hnot p Hpin) as [Hpi Hpz].
    apply links_app in R1 as [L1 [L2 [L3 L4]]].
    destruct (relink_run s1 p i z f n) as (ts & Hrel & Hv & Hsz & Hnx); try done.
    { apply R5. apply elem_of_cons in Hpin as [->|Hpin]; [left|right; apply elem_of_app; by left]. }
    { apply R5. right. apply elem_of_app. right. left. }
    { apply R5. right. apply elem_of_app. right. by right. }
    { intros ->. by apply Hpz. }
    { apply (ring_head s1 f (a ++ i :: n :: b) Hr1). }
    exists true, i, (with_tstate s1 ts). split; [exact Hrel|]. split; [right; apply elem_of_app; right; left|].
    split; [|split; [done|split; [done|by exists (f :: a), (n :: b)]]].
    pose proof (to_front_split (f :: a) i (n :: b)) as Ef. cbn [app] in Ef. rewrite Ef by (by destruct Hr).
    apply (ring_perm s1 _ (f :: a ++ i :: n :: b)); [done| | | |done].
    + apply (Permutation_middle (f :: a) (n :: b) i).
    + change (last_cs (with_tstate s1 ts)) with z. change (tstate (with_tstate s1 ts)) with ts.
      assert (Nfa : NoDup (f :: a)) by (constructor; [intros H; apply Hf, elem_of_app; by left|done]).
      cbn [links]. split; [change (nxt ts z = Some i); by rewrite Hnx, Z.eqb_refl|].
      split; [change (nxt ts i = Some f); rewrite Hnx, Z.eqb_refl; by destruct (Z.eqb_spec i z)|].
      cbn [app]. apply links_app. split.
      * apply (links_frame (tstate s)); [done| |done]. intros k Hk Hkl. rewrite Hnx. rewrite default_last in Hkl. fold p in Hkl.
        destruct (Hnot k Hk) as [Hki Hkb]. destruct (Z.eqb_spec k z) as [->|]; [done|]. destruct (Z.eqb_spec k i); [done|].
        destruct (Z.eqb_spec k p); [congruence|done].
      * fold p. split; [change (nxt ts p = Some n); rewrite Hnx, Z.eqb_refl; destruct (Z.eqb_spec p z) as [->|]; [done|];
          by destruct (Z.eqb_spec p i)|].
        apply (links_frame (tstate s)); [done| |done]. intros k Hk Hkl. rewrite Hnx. rewrite El in Hkl.
        destruct (Z.eqb_spec k z); [congruence|]. destruct (Z.eqb_spec k i) as [->|]; [done|].
        destruct (Z.eqb_spec k p) as [->|]; [done|done].
    + change (last ((i :: f :: a) ++ n :: b) = Some z). by rewrite last_app_cons.
Qed.
End Locate.
