(* ===== verification/SlcompSafety.v ===== *)
(** * A line with header compression at both ends

    The saved headers of the compressor and the decompressor agree, packet after packet,
    and what comes out of the line is what went in. *)

From S2P Require Import Prelude Slcomp SlcompSpec SlcompTrip SlcompRing.

(** ** Copies *)

Lemma bcopy_bytes h d old : wf_header h -> hlen h <= zlen old ->
  bcopy (bytes h ++ d) old (hlen h) = Some (bytes h ++ drop (Z.to_nat (hlen h)) old).
Proof.
  intros Hw Ho. pose proof (zlen_bytes h Hw) as Hl. pose proof (zlen_nonneg d). unfold bcopy. rewrite zlen_app.
  destruct (Z.leb_spec (hlen h) (zlen (bytes h) + zlen d)); [|lia]. destruct (Z.leb_spec (hlen h) (zlen old)); [|lia].
  cbn [andb]. by rewrite take_app_length' by (unfold zlen in Hl; lia).
Qed.

Lemma zlen_put8 b i v : zlen (put8 b i v) = zlen b.
Proof. apply zlen_zset. Qed.
Lemma zlen_put16 b i v : zlen (put16 b i v) = zlen b.
Proof. unfold put16. by rewrite !zlen_put8. Qed.

(** ** The two ends *)

(** A packet of the link: sound headers, their length and checksum right. *)
Record packet (h : header) (d : list Z) : Prop := {
  pk_sound : sound_header h;
  pk_len : h_len h = hlen h + zlen d;
  pk_sum : store_sum (bytes (set_sum h 0)) (4 * hl h) = Some (bytes h) }.

(** The saved headers of one connection: unused, or those of the last packet sent. *)
Inductive slot (i : Z) (x y : cstate) : Prop :=
| slot_unused : cs_id x = i -> cs_hdr x = replicate (Z.to_nat MAX_HDR) 0 -> zlen (cs_hdr y) = MAX_HDR -> slot i x y
| slot_used o jt jr : cs_id x = i -> sound_header o -> good_flags (h_flags o) ->
    cs_hdr x = bytes o ++ jt -> cs_hdr y = bytes (set_sum o 0) ++ jr -> cs_hlen y = hlen o ->
    zlen (cs_hdr x) = MAX_HDR -> zlen (cs_hdr y) = MAX_HDR -> slot i x y.

Record sync (c d : slcompress) (l : list Z) : Prop := {
  sy_ring : ring c l;
  sy_size : zlen (rstate d) = MAX_STATES;
  sy_slot i x y : znth (tstate c) i = Some x -> znth (rstate d) i = Some y -> slot i x y }.

Lemma slot_hdrs i x y : slot i x y -> zlen (cs_hdr x) = MAX_HDR /\ zlen (cs_hdr y) = MAX_HDR /\ cs_id x = i.
Proof. intros [E1 E2|o jt jr]; [|done]. rewrite E2. unfold zlen. rewrite length_replicate. done. Qed.

Lemma sync_pair c d l i : sync c d l -> 0 <= i < MAX_STATES ->
  exists x y, znth (tstate c) i = Some x /\ znth (rstate d) i = Some y /\ slot i x y.
Proof.
  intros Hs Hi. destruct (get_t_some c i) as [x Hx]; [apply (rg_size _ _ (sy_ring _ _ _ Hs))|done|].
  destruct (proj1 (znth_is_some (rstate d) i)) as [y Hy]; [rewrite (sy_size _ _ _ Hs); done|].
  exists x, y. split_and!; try done. by apply (sy_slot _ _ _ Hs).
Qed.

Lemma sync_hdrs c d l : sync c d l -> hdrs_ok (tstate c).
Proof.
  intros Hs i x Hx. destruct (sync_pair c d l i Hs) as (x' & y & Hx' & _ & Hsl).
  { pose proof (znth_some _ _ _ Hx). by rewrite (rg_size _ _ (sy_ring _ _ _ Hs)) in *. }
  rewrite Hx in Hx'. injection Hx' as <-. by apply slot_hdrs in Hsl as [? _].
Qed.

(** The search keeps the ends in step. *)
Lemma sync_view c c' d l l' : sync c d l -> ring c' l' -> view (tstate c') = view (tstate c) -> sync c' d l'.
Proof.
  intros [H1 H2 H3] Hr Hv. split; try done. intros i x' y Hx' Hy.
  assert (Hx : exists x, znth (tstate c) i = Some x /\ cs_id x = cs_id x' /\ cs_hdr x = cs_hdr x').
  { assert (E : znth (view (tstate c')) i = Some (cs_id x', cs_hdr x')).
    { unfold view, znth in *. destruct (0 <=? i); [|done]. by rewrite list_lookup_fmap, Hx'. }
    rewrite Hv in E. unfold view, znth in *. destruct (0 <=? i); [|done]. rewrite list_lookup_fmap in E.
    destruct (tstate c !! Z.to_nat i) as [x|]; [|done]. exists x. injection E as E1 E2. done. }
  destruct Hx as (x & Hx & E1 & E2). destruct (H3 i x y Hx Hy) as [S1 S2 S3|o jt jr]; rewrite E1, E2 in *.
  - by apply slot_unused.
  - by apply (slot_used i x' y o jt jr).
Qed.

(** A header saved at both ends. *)
Lemma sync_store c d l i x x' y' c' d' :
  sync c d l -> znth (tstate c) i = Some x -> cs_next x' = cs_next x -> slot i x' y' ->
  tstate c' = zset (tstate c) i x' -> last_cs c' = last_cs c -> rstate d' = zset (rstate d) i y' -> sync c' d' l.
Proof.
  intros [H1 H2 H3] Hx Hn Hsl Ht Hlc Hr. pose proof (znth_some _ _ _ Hx) as Hi. pose proof H1 as [R1 R2 R3 R4 R5 R6]. split.
  - split; try done; [|by rewrite Hlc|rewrite Ht, zlen_zset; exact R6]. rewrite Hlc. clear R2 R4 R5.
    assert (Hnx : forall k, nxt (tstate c') k = nxt (tstate c) k).
    { intros k. unfold nxt. rewrite Ht, znth_zset by done. destruct (Z.eqb_spec k i) as [->|]; [|done]. rewrite Hx. simpl. by rewrite Hn. }
    clear H1 R3. revert R1. generalize (last_cs c). induction l as [|k l IH]; intros z; [done|]. intros [L1 L2]. split; [|by apply IH].
    change (nxt (tstate c') z = Some k). by rewrite Hnx.
  - rewrite Hr, zlen_zset. exact H2.
  - intros k u v. rewrite Ht, Hr, znth_zset by done. rewrite znth_zset by (rewrite H2, <- R6; done).
    destruct (Z.eqb_spec k i) as [->|]; [intros [= <-] [= <-]; done|apply H3].
Qed.

Lemma get_r_run i s x : znth (rstate s) i = Some x -> get_r i s = Some (x, s).
Proof. intros H. unfold get_r, kderef. by rewrite H. Qed.

Lemma mod_r_run i f s x : znth (rstate s) i = Some x -> mod_r i f s = Some (tt, with_rstate s (zset (rstate s) i (f x))).
Proof. intros Hx. unfold mod_r. by rewrite (bind_run _ _ _ _ _ (get_r_run i s x Hx)). Qed.

(** There is room for the headers of the packet before the mbuf's data, or they fit a new mbuf. *)
Definition hdr_fits (room : bool) (ip : list Z) : Prop :=
  room = true \/ forall hl off, ip_hl ip = Some hl -> th_off ip (4 * hl) = Some off -> 4 * (hl + off) <= MHLEN.

(** The same, when the packet is in an mbuf, whatever precedes and follows it there. *)
Definition by_mbuf (q : list Z) (t : Z) (d : slcompress) (ip : list Z) (d' : slcompress) : Prop :=
  forall room slack, hdr_fits room ip ->
    exists ms, sl_muncompress_tcp false room q slack [] t d = Some (Some ms, d') /\ concat ms = ip.

(** The outcome of one packet: it goes as it is, or the other end rebuilds it. *)
Definition delivered (c d : slcompress) (ip : list Z) (r : option (Z * list Z * slcompress)) : Prop :=
  exists t q c', r = Some (t, q, c') /\
    ((t = TYPE_IP /\ q = ip /\ c' = c) \/
     t <> TYPE_IP /\ exists d' l', sl_uncompress_tcp q (zlen q) t d = Some ((zlen ip, ip), d') /\ sync c' d' l' /\ zlen q <= zlen ip /\
       (t = TYPE_UNCOMPRESSED_TCP \/ t = TYPE_COMPRESSED_TCP) /\ by_mbuf q t d ip d').

(** ** Uncompressed packets *)

Lemma set_p_same h : h_p h = IPPROTO_TCP -> set_p h IPPROTO_TCP = h.
Proof. intros <-. by destruct h. Qed.

Lemma zlen_set_p h d id : zlen (bytes (set_p h id) ++ d) = zlen (bytes h ++ d).
Proof. done. Qed.

Lemma uncompressed_trip c d l i h dat :
  sync c d l -> 0 <= i < MAX_STATES -> packet h dat -> good_flags (h_flags h) ->
  exists q c', send_uncompressed (bytes h ++ dat) i (hlen h) c = Some ((TYPE_UNCOMPRESSED_TCP, q), c') /\
    exists d', sl_uncompress_tcp q (zlen q) TYPE_UNCOMPRESSED_TCP d = Some ((zlen (bytes h ++ dat), bytes h ++ dat), d') /\
    sync c' d' l /\ zlen q = zlen (bytes h ++ dat) /\ by_mbuf q TYPE_UNCOMPRESSED_TCP d (bytes h ++ dat) d'.
Proof.
  intros Hs Hi [Hsd Hlen Hsum] Hfl. pose proof Hsd as [Hw Hp _ _ _ Hmax].
  destruct (sync_pair c d l i Hs Hi) as (x & y & Hx & Hy & Hsl). destruct (slot_hdrs _ _ _ Hsl) as (Hzx & Hzy & Hid).
  assert (Hi8 : is_u8 i) by (unfold is_u8, MAX_STATES in *; lia).
  unfold send_uncompressed. rewrite (bind_run _ _ _ _ _ (get_t_run i c x Hx)).
  rewrite (bind_nonnull _ _ c _ (bcopy_bytes h dat (cs_hdr x) Hw ltac:(lia))).
  rewrite (bind_run _ _ _ _ _ (mod_t_run i _ c x Hx)), Hid.
  set (hx := bytes h ++ drop (Z.to_nat (hlen h)) (cs_hdr x)).
  eexists _, _. split; [reflexivity|]. rewrite wr_p by done.
  unfold sl_uncompress_tcp. rewrite Z.eqb_refl.
  set (hy := bytes (set_sum h 0) ++ drop (Z.to_nat (hlen h)) (cs_hdr y)).
  assert (E : forall dd, znth (rstate dd) i = Some y ->
    (let! x := get_r i in
     let! h0 := knonnull (bcopy ((bytes h ++ dat) ++ []) (cs_hdr x) (hlen h)) in
     do! mod_r i (fun x => with_hlen (with_hdr x (put16 h0 IP_SUM 0)) (hlen h)) in
     do! INCR sls_uncompressedin in
     kret (Some (bytes h ++ dat)))%kern dd =
    Some (Some (bytes h ++ dat), with_sls (with_rstate dd (zset (rstate dd) i (with_hlen (with_hdr y hy) (hlen h))))
      match znth (sls dd) sls_uncompressedin with Some n => zset (sls dd) sls_uncompressedin (s32 (n + 1)) | None => sls dd end)).
  { intros dd Hdy. rewrite (bind_run _ _ _ _ _ (get_r_run i dd y Hdy)), app_nil_r.
    rewrite (bind_nonnull _ _ dd _ (bcopy_bytes h dat (cs_hdr y) Hw ltac:(lia))).
    rewrite (bind_run _ _ _ _ _ (mod_r_run i _ dd y Hdy)), wr_sum by done. reflexivity. }
  assert (Erecv : forall check, recv_uncompressed check (bytes (set_p h i) ++ dat) [] d =
    Some (Some (bytes h ++ dat), let dd := with_flags (with_last_recv d i) (Z.land (sl_flags (with_last_recv d i)) (Z.lnot SLF_TOSS)) in
      with_sls (with_rstate dd (zset (rstate dd) i (with_hlen (with_hdr y hy) (hlen h))))
      match znth (sls dd) sls_uncompressedin with Some n => zset (sls dd) sls_uncompressedin (s32 (n + 1)) | None => sls dd end)).
  { intros check. unfold recv_uncompressed. rewrite (bind_nonnull _ _ d i) by (exact (rd_p (set_p h i) dat)).
    destruct (Z.leb_spec MAX_STATES i); [lia|].
    rewrite (bind_run _ _ d tt (with_last_recv d i)) by done.
    unfold clear_toss. rewrite (bind_run (kmod _) _ _ tt _ eq_refl). cbv zeta.
    rewrite wr_p by (try done; by apply wf_p). change (set_p (set_p h i) IPPROTO_TCP) with (set_p h IPPROTO_TCP).
    rewrite set_p_same by done. rewrite (bind_nonnull _ _ _ _ (rd_hl h dat)), (bind_nonnull _ _ _ _ (rd_toff h dat Hw)).
    fold (hlen h). destruct (Z.ltb_spec MAX_HDR (hlen h)); [lia|]. rewrite andb_false_r. by rewrite E. }
  eexists. split.
  - rewrite (bind_run _ _ _ _ _ (Erecv false)). rewrite zlen_set_p. reflexivity.
  - split; [|split; [apply zlen_set_p|]].
    2: { intros room slack _. exists [bytes h ++ dat]. split; [|apply app_nil_r].
         unfold sl_muncompress_tcp. rewrite Z.eqb_refl. cbn [concat]. by rewrite (bind_run _ _ _ _ _ (Erecv true)). }
    apply (sync_store c d l i x (with_hdr x hx) (with_hlen (with_hdr y hy) (hlen h))); try done.
    apply (slot_used _ _ _ h (drop (Z.to_nat (hlen h)) (cs_hdr x)) (drop (Z.to_nat (hlen h)) (cs_hdr y))); try done.
    + simpl. unfold hx. rewrite zlen_app, zlen_bytes, zlen_drop by (try done; pose proof (zlen_bytes h Hw); pose proof (zlen_nonneg (bytes h)); lia). lia.
    + simpl. unfold hy. assert (wf_header (set_sum h 0)) by (by apply wf_sum).
      rewrite zlen_app, zlen_bytes, zlen_drop by (try done; pose proof (zlen_bytes h Hw); pose proof (zlen_nonneg (bytes h)); lia).
      change (hlen (set_sum h 0)) with (hlen h). lia.
Qed.

(** ** Compressed packets *)

Lemma sum_words_app r : forall n b s, sum_words n b = Some s -> sum_words n (b ++ r) = Some s.
Proof.
  induction n as [|n IH]; intros b s; [done|]. destruct b as [|lo [|hi b]]; simpl; try done.
  destruct (sum_words n b) as [t|] eqn:E; [|done]. intros [= <-]. by rewrite (IH b t E).
Qed.

Lemma put8_app_l b r i v : i < zlen b -> put8 (b ++ r) i v = put8 b i v ++ r.
Proof.
  intros Hi. unfold put8, zset, zlen in *. destruct (Z.leb_spec 0 i); [|done]. by rewrite insert_app_l by lia.
Qed.

Lemma store_sum_app b r n b' : store_sum b n = Some b' -> store_sum (b ++ r) n = Some (b' ++ r).
Proof.
  unfold store_sum. intros H. destruct (sum_words (Z.to_nat (n / 2)) b) as [s|] eqn:E; [|done].
  destruct (Z.ltb_spec (IP_SUM + 1) (zlen b)) as [Hz|]; [|done]. injection H as <-. pose proof (zlen_nonneg r).
  rewrite (sum_words_app r _ _ _ E), zlen_app. destruct (Z.ltb_spec (IP_SUM + 1) (zlen b + zlen r)); [|lia]. unfold IP_SUM in *. by rewrite !put8_app_l by (rewrite ?zlen_put8; lia).
Qed.

Lemma zlen_ENCODE n : 0 <= zlen (ENCODE n) <= 3.
Proof. unfold ENCODE. destruct (_ <=? _); unfold zlen; simpl; lia. Qed.
Lemma zlen_ENCODEZ n : 0 <= zlen (ENCODEZ n) <= 3.
Proof. unfold ENCODEZ. destruct (_ || _); unfold zlen; simpl; lia. Qed.
Lemma zlen_seg n : 0 <= zlen (seg n) <= 3.
Proof. unfold seg. destruct (ztrue n); [apply zlen_ENCODE|done]. Qed.

Lemma slice_prefix (a b : list Z) n : zlen a = n -> slice (a ++ b) 0 n = Some a.
Proof. intros H. apply (slice_mid [] a b 0 n); done. Qed.

Section Compressed.
Context (c d : slcompress) (l : list Z) (i : Z) (h o : header) (dat jt jr : list Z) (x y : cstate).
Context (m : Z) (ns : list Z) (dS dA ch : Z) (nseq : list Z).
Hypothesis Hs : sync c d l.
Hypothesis Hi : 0 <= i < MAX_STATES.
Hypothesis Hx : znth (tstate c) i = Some x.
Hypothesis Hy : znth (rstate d) i = Some y.
Hypothesis Hpk : packet h dat.
Hypothesis Hid : cs_id x = i.
Hypothesis Ho : sound_header o.
Hypothesis Hfo : good_flags (h_flags o).
Hypothesis Hfh : good_flags (h_flags h).
Hypothesis Ehx : cs_hdr x = bytes o ++ jt.
Hypothesis Ehy : cs_hdr y = bytes (set_sum o 0) ++ jr.
Hypothesis Ehl : cs_hlen y = hlen o.
Hypothesis Hzx : zlen (cs_hdr x) = MAX_HDR.
Hypothesis Hzy : zlen (cs_hdr y) = MAX_HDR.
Hypothesis Hst : same_static h o.
Hypothesis Hen : same_ends h o.
Hypothesis Hres : field_result h o = Some (m, ns, dS, dA).
Hypothesis Hsp : special_cases m ns dS dA (h_len h) (h_len o) (hlen h) = Some (ch, nseq).

Abbreviation hd := (chdr h o i ch nseq) (only parsing).

Lemma zlen_hd : 0 <= zlen hd <= 19.
Proof.
  unfold chdr. rewrite !zlen_app. change (zlen (head4 h o i ch)) with 4.
  assert (Hn : 0 <= zlen nseq <= 12).
  { pose proof Hres as R. unfold field_result in R. destruct (_ && _); [done|]. destruct (_ <? _); [done|]. destruct (_ <? _); [done|].
    injection R as Em <- _ _. pose proof Hsp as S. rewrite <- Em in S. apply special_inv in S as [(_ & -> & _)|(_ & _ & _ & -> & _)]; [|done].
    rewrite !zlen_app. pose proof (zlen_seg (d_win h o)). pose proof (zlen_seg (d_ack h o)). pose proof (zlen_seg (d_seq h o)).
    unfold seg_u. destruct (urg h); [pose proof (zlen_ENCODEZ (h_urp h)); lia|change (zlen (@nil Z)) with 0; lia]. }
  unfold seg_i. destruct (new_id o (h_id h)); [pose proof (zlen_ENCODEZ (u32 (h_id h - h_id o))); lia|change (zlen (@nil Z)) with 0; lia].
Qed.

Lemma wf_both : wf_header h /\ wf_header o /\ hlen o = hlen h /\ hl o = hl h /\ 40 <= hlen h <= MAX_HDR.
Proof.
  pose proof (sh_wf _ (pk_sound _ _ Hpk)) as Wh. pose proof (sh_wf _ Ho) as Wo. split; [done|]. split; [done|].
  split; [by apply hlen_same|]. split; [unfold hl; by rewrite (ss_vhl _ _ Hst)|].
  pose proof (wh_hl _ Wh). pose proof (wh_toff _ Wh). pose proof (sh_hlen _ (pk_sound _ _ Hpk)). unfold hlen in *. lia.
Qed.

Lemma send_run : exists c', send_compressed (bytes h ++ dat) i (hlen h) (4 * hl h) ch nseq c
    = Some ((TYPE_COMPRESSED_TCP, hd ++ dat), c') /\
  tstate c' = zset (tstate c) i (with_hdr x (bytes h ++ drop (Z.to_nat (hlen h)) (cs_hdr x))) /\ last_cs c' = last_cs c.
Proof.
  destruct wf_both as (Wh & Wo & El & Eh & Hr). pose proof zlen_hd as Hz. pose proof (zlen_bytes h Wh) as Hzb.
  unfold send_compressed. rewrite (bind_run _ _ _ _ _ (get_t_run i c x Hx)).
  rewrite (bind_nonnull _ _ _ _ (rd_id h dat Wh)). rewrite (bind_nonnull _ _ c (h_id o)) by (rewrite Ehx; by apply rd_id).
  cbv zeta.
  assert (E : (if negb (u32 (h_id h - h_id o) =? 1) then (Z.lor ch NEW_I, nseq ++ ENCODEZ (u32 (h_id h - h_id o))) else (ch, nseq))
    = (if new_id o (h_id h) then Z.lor ch NEW_I else ch, nseq ++ seg_i o (h_id h))).
  { unfold seg_i. fold (new_id o (h_id h)). destruct (new_id o (h_id h)); [done|by rewrite app_nil_r]. }
  rewrite E. cbv beta iota.
  rewrite (bind_nonnull _ _ _ _ (rd_flags h dat Wh)), (bind_nonnull _ _ _ _ (rd_tsum h dat Wh)).
  rewrite (bind_nonnull _ _ c _ (bcopy_bytes h dat (cs_hdr x) Wh ltac:(lia))).
  rewrite (bind_run _ _ _ _ _ (mod_t_run i _ c x Hx)), Hid.
  set (new := with_hdr x _).
  assert (Echdr : [u8 (Z.lor (if flag_set (h_flags h) TH_PUSH then Z.lor (if new_id o (h_id h) then Z.lor ch NEW_I else ch) TCP_PUSH_BIT
       else if new_id o (h_id h) then Z.lor ch NEW_I else ch) NEW_C); i; h_tsum h / 256; u8 (h_tsum h)] ++ nseq ++ seg_i o (h_id h) = hd).
  { unfold chdr, head4, fb, first_byte. by rewrite <- app_assoc. }
  rewrite Echdr. rewrite (bind_run (kmod _) _ _ tt _ eq_refl).
  assert (Eq : bcopy hd (drop (Z.to_nat (hlen h - zlen hd)) (bytes h ++ dat)) (zlen hd) = Some (hd ++ dat)).
  { unfold bcopy. pose proof (zlen_nonneg dat). rewrite zlen_drop by (rewrite zlen_app; lia). rewrite zlen_app.
    destruct (Z.leb_spec (zlen hd) (zlen hd)); [|lia].
    destruct (Z.leb_spec (zlen hd) (zlen (bytes h) + zlen dat - (hlen h - zlen hd))); [|lia]. cbn [andb].
    f_equal. rewrite take_ge by (unfold zlen; lia). f_equal. rewrite drop_drop.
    replace (Z.to_nat (hlen h - zlen hd) + Z.to_nat (zlen hd))%nat with (Z.to_nat (hlen h)) by (unfold zlen in *; lia).
    by rewrite drop_app_length' by (unfold zlen in *; lia). }
  rewrite (bind_nonnull _ _ _ _ Eq). eexists. split; [reflexivity|]. done.
Qed.

Lemma recv_run : exists d', sl_uncompress_tcp (hd ++ dat) (zlen (hd ++ dat)) TYPE_COMPRESSED_TCP d
    = Some ((zlen (bytes h ++ dat), bytes h ++ dat), d') /\ by_mbuf (hd ++ dat) TYPE_COMPRESSED_TCP d (bytes h ++ dat) d' /\
  rstate d' = zset (rstate d) i (with_hdr y (bytes (set_sum h 0) ++ jr)).
Proof.
  destruct wf_both as (Wh & Wo & El & Eh & Hr). pose proof zlen_hd as Hz. pose proof (zlen_bytes h Wh) as Hzb.
  destruct Hpk as [Hsd Hlen Hsum]. pose proof (zlen_nonneg dat) as Hd0.
  assert (Wh0 : wf_header (set_sum h 0)) by (by apply wf_sum).
  assert (Hbits : flag_set (fb h o ch) NEW_C = true).
  { pose proof Hres as R. unfold field_result in R. destruct (_ && _); [done|]. destruct (_ <? _); [done|]. destruct (_ <? _); [done|].
    injection R as Em _ _ _. pose proof Hsp as S. rewrite <- Em in S. unfold fb.
    apply special_inv in S as [(-> & _)|(_ & _ & _ & _ & _ & [(_ & -> & _)|(_ & ->)])].
    - by destruct (first_byte_bits (urg h) (ztrue (d_win h o)) (ztrue (d_ack h o)) (ztrue (d_seq h o)) (new_id o (h_id h)) (flag_set (h_flags h) TH_PUSH)) as (? & _).
    - by destruct (first_byte_bits true true false true (new_id o (h_id h)) (flag_set (h_flags h) TH_PUSH)) as (? & _).
    - by destruct (first_byte_bits true true true true (new_id o (h_id h)) (flag_set (h_flags h) TH_PUSH)) as (? & _). }
  unfold sl_uncompress_tcp. change (TYPE_COMPRESSED_TCP =? TYPE_UNCOMPRESSED_TCP) with false.
  change (TYPE_COMPRESSED_TCP =? TYPE_COMPRESSED_TCP) with true. cbn [negb].
  unfold recv_conn. destruct (incr_run sls_compressedin d) as [v Hv].
  assert (Hconn : forall q, recv_conn (hd ++ q) d = Some (Conn (fb h o ch) 2,
    with_last_recv (with_flags (with_sls d v) (Z.land (sl_flags (with_sls d v)) (Z.lnot SLF_TOSS))) i)).
  { intros q. unfold recv_conn. rewrite (bind_run _ _ _ _ _ Hv).
    rewrite (bind_nonnull _ _ (with_sls d v) (fb h o ch)) by reflexivity. rewrite Hbits.
    rewrite (bind_nonnull _ _ (with_sls d v) i) by reflexivity. destruct (Z.leb_spec MAX_STATES i); [lia|]. done. }
  fold (recv_conn (hd ++ dat)). rewrite (bind_run _ _ _ _ _ (Hconn dat)). set (d1 := with_last_recv _ i).
  rewrite (bind_run kget _ d1 d1 d1) by done. change (last_recv d1) with i.
  rewrite (bind_run _ _ _ _ _ (get_r_run i d1 y Hy)), Ehy, Ehl.
  rewrite (bind_run _ _ _ _ _ (update_spec h o jr dat i d1 m ns dS dA ch nseq Hsd Ho Hst Hen Hfh Hfo Hres Hsp)).
  cbv zeta. rewrite zlen_app. replace (zlen hd + zlen dat - zlen hd) with (zlen dat) by lia.
  destruct (Z.ltb_spec (zlen dat) 0); [lia|].
  rewrite (bind_nonnull _ _ d1 dat).
  2:{ pose proof (slice_mid hd dat [] (zlen hd) (zlen dat) eq_refl eq_refl) as Hsl. by rewrite app_nil_r in Hsl. }
  replace (u16 (zlen dat + hlen o)) with (h_len h) by (rewrite u16_id; [lia|]; pose proof (wh_len _ Wh); rewrite El; unfold is_u16 in *; lia).
  rewrite wr_len by apply Wh.
  change (set_len (set_len (set_sum h 0) (h_len o)) (h_len h)) with (set_sum h 0).
  rewrite (bind_run _ _ _ _ _ (mod_r_run i _ d1 y Hy)). set (d2 := with_rstate d1 _).
  rewrite (bind_nonnull _ _ d2 (bytes (set_sum h 0))).
  2:{ apply slice_prefix. rewrite zlen_bytes by done. by rewrite El. }
  rewrite (bind_nonnull _ _ d2 (hl h)) by (rewrite (rd_hl (set_sum o 0) jr); by rewrite <- Eh).
  rewrite (bind_nonnull _ _ d2 (bytes h ++ dat)).
  2:{ by apply store_sum_app. }
  exists d2. split; [|split; [|reflexivity]].
  { unfold kret. rewrite zlen_app, Hzb, El. by rewrite Z.add_comm. }
  intros room slack Hfit. exists (if room then [bytes h ++ dat] else [bytes h; dat]). split; [|by destruct room; simpl; rewrite app_nil_r].
  unfold sl_muncompress_tcp. change (TYPE_COMPRESSED_TCP =? TYPE_UNCOMPRESSED_TCP) with false.
  change (TYPE_COMPRESSED_TCP =? TYPE_COMPRESSED_TCP) with true. cbn [negb concat]. rewrite <- app_assoc.
  rewrite (bind_run _ _ _ _ _ (Hconn (dat ++ slack))). fold d1.
  rewrite (bind_run kget _ d1 d1 d1) by done. change (last_recv d1) with i.
  rewrite (bind_run _ _ _ _ _ (get_r_run i d1 y Hy)), Ehy, Ehl.
  rewrite (bind_run _ _ _ _ _ (update_spec h o jr (dat ++ slack) i d1 m ns dS dA ch nseq Hsd Ho Hst Hen Hfh Hfo Hres Hsp)).
  cbv zeta. rewrite zlen_app. destruct (Z.ltb_spec (zlen hd + zlen dat) (zlen hd)); [lia|]. cbn [orb].
  replace (drop (Z.to_nat (zlen hd)) (hd ++ dat)) with dat by (by rewrite drop_app_length' by (unfold zlen; lia)).
  change (zlen (@nil Z)) with 0. rewrite Z.add_0_r, (Z.add_comm (hlen o)).
  replace (u16 (zlen dat + hlen o)) with (h_len h) by (rewrite u16_id; [lia|]; pose proof (wh_len _ Wh); rewrite El; unfold is_u16 in *; lia).
  rewrite wr_len by apply Wh.
  change (set_len (set_len (set_sum h 0) (h_len o)) (h_len h)) with (set_sum h 0).
  rewrite (bind_run _ _ _ _ _ (mod_r_run i _ d1 y Hy)). fold d2.
  rewrite (bind_nonnull _ _ d2 (bytes (set_sum h 0))).
  2:{ apply slice_prefix. rewrite zlen_bytes by done. by rewrite El. }
  assert (Hpre : negb room && (MHLEN <? hlen o) = false).
  { destruct Hfit as [->|Hfit]; [done|]. specialize (Hfit _ _ (rd_hl h dat) (rd_toff h dat Wh)). fold (hlen h) in Hfit.
    rewrite El. destruct (Z.ltb_spec MHLEN (hlen h)); [lia|]. apply andb_false_r. }
  rewrite Hpre.
  rewrite (bind_nonnull _ _ d2 (hl h)) by (rewrite (rd_hl (set_sum o 0) jr); by rewrite <- Eh).
  rewrite (bind_nonnull _ _ d2 (bytes h)) by done. by destruct room.
Qed.

Lemma compressed_trip : exists q c', send_compressed (bytes h ++ dat) i (hlen h) (4 * hl h) ch nseq c
    = Some ((TYPE_COMPRESSED_TCP, q), c') /\
  exists d', sl_uncompress_tcp q (zlen q) TYPE_COMPRESSED_TCP d = Some ((zlen (bytes h ++ dat), bytes h ++ dat), d') /\
    sync c' d' l /\ zlen q <= zlen (bytes h ++ dat) - 21 /\ by_mbuf q TYPE_COMPRESSED_TCP d (bytes h ++ dat) d'.
Proof.
  destruct send_run as (c' & Hc & Et & El). destruct recv_run as (d' & Hd & Hmb & Er).
  destruct wf_both as (Wh & Wo & Ehn & _ & Hr). pose proof (zlen_bytes h Wh) as Hzb. pose proof zlen_hd as Hz.
  exists (hd ++ dat), c'. split; [done|]. exists d'. split; [done|]. split.
  - assert (Wh0 : wf_header (set_sum h 0)) by (by apply wf_sum).
    apply (sync_store c d l i x (with_hdr x (bytes h ++ drop (Z.to_nat (hlen h)) (cs_hdr x)))
      (with_hdr y (bytes (set_sum h 0) ++ jr))); try done.
    apply (slot_used _ _ _ h (drop (Z.to_nat (hlen h)) (cs_hdr x)) jr); try done.
    + apply Hpk.
    + simpl. congruence.
    + cbn [cs_hdr with_hdr]. rewrite zlen_app, zlen_bytes, zlen_drop by (try done; lia). lia.
    + cbn [cs_hdr with_hdr]. rewrite zlen_app, zlen_bytes by done. change (hlen (set_sum h 0)) with (hlen h).
      rewrite Ehy, zlen_app, zlen_bytes in Hzy by (apply wf_sum; done). change (hlen (set_sum o 0)) with (hlen o) in Hzy. lia.
  - rewrite !zlen_app. split; [lia|done].
Qed.
End Compressed.

(** ** One packet *)

Lemma static_unused h dat s : wf_header h ->
  static_changed (bytes h ++ dat) (replicate (Z.to_nat MAX_HDR) 0) (hl h) s = Some (true, s).
Proof.
  intros Hw. unfold static_changed. rewrite (bind_nonnull _ _ _ _ (rd_first h dat)).
  rewrite (bind_nonnull _ _ s 0) by reflexivity.
  destruct (Z.eqb_spec (h_vhl h * 256 + h_tos h) 0) as [E|]; [|done]. exfalso.
  pose proof (wh_hl _ Hw) as H5. pose proof (wh_vhl _ Hw) as Hv. pose proof (wh_tos _ Hw) as Ht. unfold is_u8 in *.
  assert (E0 : h_vhl h = 0) by lia. unfold hl in H5. rewrite E0 in H5. change (Z.land 0 15) with 0 in H5. lia.
Qed.

Lemma to_front_in i l : i ∈ l -> forall k, k ∈ to_front i l -> k ∈ l.
Proof. intros Hi k Hk. apply elem_of_cons in Hk as [->|Hk]; [done|]. by apply list_elem_of_filter in Hk as [_ ?]. Qed.

(** Whatever the packet, it is delivered as it was, and the two ends stay in step. *)
Lemma trip c d l h dat : sync c d l -> packet h dat ->
  delivered c d (bytes h ++ dat) (sl_compress_tcp (bytes h ++ dat) c).
Proof.
  intros Hs Hpk. pose proof Hpk as [Hsd Hlen Hsum]. pose proof (sh_wf _ Hsd) as Wh.
  unfold sl_compress_tcp. rewrite (bind_nonnull _ _ _ _ (rd_hl h dat)), (bind_nonnull _ _ _ _ (rd_off h dat Wh)).
  destruct (ztrue (Z.land (h_off h) 0x3fff) || (zlen (bytes h ++ dat) <? 40)).
  { exists TYPE_IP, (bytes h ++ dat), c. split; [done|]. by left. }
  cbv zeta. rewrite (bind_nonnull _ _ _ _ (rd_flags h dat Wh)).
  destruct (Z.eqb_spec (Z.land (h_flags h) (Z.lor TH_SYN (Z.lor TH_FIN (Z.lor TH_RST TH_ACK)))) TH_ACK) as [Hf|]; cbn [negb].
  2:{ exists TYPE_IP, (bytes h ++ dat), c. split; [done|]. by left. }
  assert (Hfl : good_flags (h_flags h)) by (split; [apply Hsd|exact Hf]).
  destruct (incr_run sls_packets c) as [v Hv]. rewrite (bind_run _ _ _ _ _ Hv).
  assert (Hs0 : sync (with_sls c v) d l) by (apply (sync_view c _ d l l); [done| |done]; by destruct (sy_ring _ _ _ Hs)).
  destruct (locate_run h dat Wh (with_sls c v) l (sy_ring _ _ _ Hs0) (sync_hdrs _ _ _ Hs0))
    as (found & i & c1 & Hrun & Hil & Hring & Hview & Hmat & _).
  rewrite (bind_run _ _ _ _ _ Hrun). cbv beta iota.
  assert (Hs1 : sync c1 d (to_front i l)) by (by apply (sync_view (with_sls c v) c1 d l)).
  assert (Hi : 0 <= i < MAX_STATES) by (by apply (rg_in _ _ (sy_ring _ _ _ Hs))).
  rewrite (bind_nonnull _ _ _ _ (rd_toff h dat Wh)). fold (hlen h).
  assert (Hunc : delivered c d (bytes h ++ dat) (send_uncompressed (bytes h ++ dat) i (hlen h) c1)).
  { destruct (uncompressed_trip c1 d (to_front i l) i h dat Hs1 Hi Hpk Hfl) as (q & c' & Hc & d' & Hd & Hsy & Hz & Hmb).
    exists TYPE_UNCOMPRESSED_TCP, q, c'. split; [done|]. right. split; [done|]. exists d', (to_front i l).
    split_and!; try done; [lia|by left]. }
  destruct found; cbn [negb]; [|exact Hunc].
  destruct (sync_pair c1 d (to_front i l) i Hs1 Hi) as (x & y & Hx & Hy & Hsl).
  rewrite (bind_run _ _ _ _ _ (get_t_run i c1 x Hx)). cbv zeta.
  assert (Hmx : matches h x = true).
  { unfold match_at in Hmat. change (tstate (with_sls c v)) with (tstate c) in Hmat, Hview.
    destruct (znth (tstate c) i) as [x0|] eqn:Hx0; [|done]. rewrite <- Hmat.
    assert (E : cs_hdr x = cs_hdr x0).
    { assert (E : znth (view (tstate c1)) i = znth (view (tstate c)) i) by (by rewrite Hview).
      unfold view, znth in *. destruct (0 <=? i); [|done]. rewrite !list_lookup_fmap, Hx, Hx0 in E. by injection E. }
    unfold matches. by rewrite E. }
  destruct Hsl as [Hid E0 _|o jt jr Hid Ho Hfo Ehx Ehy Ehl Hzx Hzy].
  { rewrite E0. rewrite (bind_run _ _ _ _ _ (static_unused h dat c1 Wh)). exact Hunc. }
  pose proof (sh_wf _ Ho) as Wo. pose proof (matches_ends h o x jt Wo Ehx Hmx) as Hen.
  rewrite Ehx. destruct (static_spec h o dat jt c1 Wh Wo) as (b & Hst & Hb). rewrite (bind_run _ _ _ _ _ Hst).
  destruct b; [exact Hunc|]. specialize (Hb eq_refl).
  assert (Ehl' : hl o = hl h) by (unfold hl; by rewrite (ss_vhl _ _ Hb)).
  rewrite (bind_run _ _ _ _ _ (field_spec h o dat jt c1 Wh Wo Ehl')).
  destruct (field_result h o) as [[[[m ns] dS] dA]|] eqn:Hres; [|exact Hunc].
  rewrite (bind_nonnull _ _ _ _ (rd_len h dat Wh)), (bind_nonnull _ _ _ _ (rd_len o jt Wo)).
  destruct (special_cases m ns dS dA (h_len h) (h_len o) (hlen h)) as [[ch nseq]|] eqn:Hsp; [|exact Hunc].
  destruct (compressed_trip c1 d (to_front i l) i h o dat jt jr x y m ns dS dA ch nseq) as (q & c' & Hc & d' & Hd & Hsy & Hz & Hmb);
    try done.
  exists TYPE_COMPRESSED_TCP, q, c'. split; [done|]. right. split; [done|]. exists d', (to_front i l).
  split_and!; try done; [lia|by right].
Qed.

(** ** From the start *)

Lemma init_ring : ring sl_compress_init [15; 14; 13; 12; 11; 10; 9; 8; 7; 6; 5; 4; 3; 2; 1; 0].
Proof.
  split; try reflexivity; [repeat split|by apply (bool_decide_eq_true_1 _)|].
  apply Forall_forall. unfold MAX_STATES. repeat constructor; done.
Qed.

Lemma init_sync : sync sl_compress_init sl_compress_init [15; 14; 13; 12; 11; 10; 9; 8; 7; 6; 5; 4; 3; 2; 1; 0].
Proof.
  split; [exact init_ring|reflexivity|].
  intros i x y Hx Hy. pose proof (znth_some _ _ _ Hx) as Hi. change (zlen (tstate sl_compress_init)) with 16 in Hi.
  assert (E : i = 0 \/ i = 1 \/ i = 2 \/ i = 3 \/ i = 4 \/ i = 5 \/ i = 6 \/ i = 7 \/ i = 8 \/ i = 9 \/ i = 10 \/ i = 11 \/
    i = 12 \/ i = 13 \/ i = 14 \/ i = 15) by lia.
  repeat match type of E with _ \/ _ => destruct E as [->|E] | _ = _ => subst i end;
    vm_compute in Hx, Hy; injection Hx as <-; injection Hy as <-; by apply slot_unused.
Qed.
