(* ===== verification/SlcompTypes.v ===== *)
(** * The widths of the saved states

    Whatever comes from the line or from IP, the states keep the sizes and the widths they
    are declared with, and what is handed on is made of bytes. *)

From S2P Require Import Prelude Slcomp.

(** ** The types *)

Definition are_bytes (b : list Z) : Prop := Forall is_u8 b.

(** [struct cstate], [hlen] being at most that of the two longest headers. *)
Record cstate_type (x : cstate) : Prop := {
  ty_next : 0 <= cs_next x < MAX_STATES;
  ty_hlen : 0 <= cs_hlen x <= 120;
  ty_id : is_u8 (cs_id x);
  ty_hdr : zlen (cs_hdr x) = MAX_HDR;
  ty_bytes : are_bytes (cs_hdr x) }.

(** [struct slcompress]. *)
Record slc_type (s : slcompress) : Prop := {
  ty_last_cs : 0 <= last_cs s < MAX_STATES;
  ty_recv : is_u8 (last_recv s);
  ty_xmit : is_u8 (last_xmit s);
  ty_flags : is_u16 (sl_flags s);
  ty_sls : zlen (sls s) = 8 /\ Forall is_s32 (sls s);
  ty_ts : zlen (tstate s) = MAX_STATES;
  ty_rs : zlen (rstate s) = MAX_STATES;
  ty_t : Forall cstate_type (tstate s);
  ty_r : Forall cstate_type (rstate s) }.

(** ** Triples *)

(** Run from a well-typed state, [m] leaves one and its result has [Q]. *)
Definition keeps {A} (m : K slcompress A) (Q : A -> Prop) : Prop :=
  forall s, slc_type s -> forall a s', m s = Some (a, s') -> slc_type s' /\ Q a.

Section Triples.
Context {A B : Type}.
Implicit Types (Q : A -> Prop) (R : B -> Prop).

Lemma keeps_ret Q a : Q a -> keeps (kret a) Q.
Proof. intros H s Hs b s' [= <- <-]. done. Qed.

Lemma keeps_panic Q : keeps kpanic Q.
Proof. by intros s Hs b s'. Qed.

Lemma keeps_bind Q R m (f : A -> K slcompress B) : keeps m Q -> (forall a, Q a -> keeps (f a) R) -> keeps (kbind m f) R.
Proof. intros Hm Hf s Hs b s' (a & s1 & H1 & H2)%kbind_Some. apply Hm in H1 as [Hs1 Ha]; [|done]. by apply (Hf a Ha s1). Qed.

Lemma keeps_nonnull Q o : (forall a, o = Some a -> Q a) -> keeps (knonnull o) Q.
Proof. intros H s Hs a s'. unfold knonnull. destruct o; [|done]. intros [= <- <-]. auto. Qed.

Lemma keeps_weaken Q Q' m : keeps m Q -> (forall a, Q a -> Q' a) -> keeps m Q'.
Proof. intros Hm H s Hs a s' E. apply Hm in E as [? ?]; [|done]. auto. Qed.
End Triples.

Lemma keeps_mod f : (forall s, slc_type s -> slc_type (f s)) -> keeps (kmod f) (fun _ => True).
Proof. intros H s Hs a s' [= <- <-]. auto. Qed.

Lemma keeps_get : keeps kget slc_type.
Proof. by intros s Hs a s' [= <- <-]. Qed.

Lemma keeps_if {A} (b : bool) (m n : K slcompress A) Q : (b = true -> keeps m Q) -> (b = false -> keeps n Q) -> keeps (if b then m else n) Q.
Proof. destruct b; auto. Qed.

(** ** Bytes *)

Lemma Forall_znth {A} (P : A -> Prop) l i x : Forall P l -> znth l i = Some x -> P x.
Proof. intros HF. unfold znth. case_match; [|done]. by apply Forall_lookup_1. Qed.

Lemma Forall_zset {A} (P : A -> Prop) l i x : Forall P l -> P x -> Forall P (zset l i x).
Proof. intros HF Hx. unfold zset. case_match; [|done]. by apply Forall_insert. Qed.

Lemma get8_u8 b i v : are_bytes b -> get8 b i = Some v -> is_u8 v.
Proof. apply Forall_znth. Qed.

Lemma get16_u16 b i v : are_bytes b -> get16 b i = Some v -> is_u16 v.
Proof.
  intros Hb. unfold get16. destruct (znth b i) as [h|] eqn:E1; [|done]. destruct (znth b (i + 1)) as [l|] eqn:E2; [|done].
  intros [= <-]. apply (Forall_znth is_u8) in E1, E2; try done. unfold is_u8, is_u16 in *. lia.
Qed.

Lemma put8_bytes b i v : are_bytes b -> are_bytes (put8 b i v).
Proof. intros H. apply Forall_zset; [done|apply u8_range]. Qed.
Lemma put16_bytes b i v : are_bytes b -> are_bytes (put16 b i v).
Proof. intros H. by apply put8_bytes, put8_bytes. Qed.

Lemma slice_bytes b i n r : are_bytes b -> slice b i n = Some r -> are_bytes r.
Proof. unfold slice. intros H. case_match; [|done]. intros [= <-]. by apply Forall_take, Forall_drop. Qed.

Lemma bcopy_ok a b n r : 0 <= n -> are_bytes a -> are_bytes b -> bcopy a b n = Some r -> are_bytes r /\ zlen r = zlen b.
Proof.
  unfold bcopy. intros Hn Ha Hb. destruct (Z.leb_spec n (zlen a)); [|done]. destruct (Z.leb_spec n (zlen b)); [|done]. intros [= <-].
  split; [apply Forall_app; split; [by apply Forall_take|by apply Forall_drop]|].
  unfold zlen in *. rewrite length_app, length_take, length_drop. lia.
Qed.

Lemma div_u8 v : is_u16 v -> is_u8 (v / 256).
Proof. intros [H0 H1]. split; [by apply Z.div_pos|]. by apply Z.div_lt_upper_bound. Qed.

Ltac bytes_list := repeat apply Forall_cons_2; try apply Forall_nil_2; try apply u8_range; try (by apply div_u8); unfold is_u8, is_u16 in *; try lia.

Lemma ENCODE_bytes n : are_bytes (ENCODE n).
Proof.
  unfold ENCODE, are_bytes. pose proof (u16_range n) as H. cbv zeta. destruct (Z.leb_spec 256 (u16 n)); bytes_list.
Qed.
Lemma ENCODEZ_bytes n : are_bytes (ENCODEZ n).
Proof.
  unfold ENCODEZ, are_bytes. pose proof (u16_range n) as H. cbv zeta.
  destruct (Z.leb_spec 256 (u16 n)), (Z.eqb_spec (u16 n) 0); cbn [orb]; bytes_list.
Qed.

(** ** Parts of the state *)

Lemma ty_counter s v : slc_type s -> zlen v = 8 /\ Forall is_s32 v -> slc_type (with_sls s v).
Proof. by intros [] ?. Qed.
Lemma ty_with_last_cs s v : slc_type s -> 0 <= v < MAX_STATES -> slc_type (with_last_cs s v).
Proof. by intros [] ?. Qed.
Lemma ty_with_recv s v : slc_type s -> is_u8 v -> slc_type (with_last_recv s v).
Proof. by intros [] ?. Qed.
Lemma ty_with_xmit s v : slc_type s -> is_u8 v -> slc_type (with_last_xmit s v).
Proof. by intros [] ?. Qed.

Lemma keeps_incr k : keeps (INCR k) (fun _ => True).
Proof.
  apply keeps_mod. intros s Hs. apply ty_counter; [done|]. pose proof (ty_sls _ Hs) as [Hz HF].
  destruct (znth (sls s) k) as [n|]; [|done]. rewrite zlen_zset. split; [done|]. apply Forall_zset; [done|apply s32_range].
Qed.

Lemma keeps_get_t i : keeps (get_t i) cstate_type.
Proof.
  intros s Hs a s'. unfold get_t, kderef. destruct (znth (tstate s) i) as [x|] eqn:E; [|done]. intros [= <- <-].
  split; [done|]. by apply (Forall_znth _ _ _ _ (ty_t _ Hs) E).
Qed.
Lemma keeps_get_r i : keeps (get_r i) cstate_type.
Proof.
  intros s Hs a s'. unfold get_r, kderef. destruct (znth (rstate s) i) as [x|] eqn:E; [|done]. intros [= <- <-].
  split; [done|]. by apply (Forall_znth _ _ _ _ (ty_r _ Hs) E).
Qed.

Lemma keeps_mod_t i f : (forall x, cstate_type x -> cstate_type (f x)) -> keeps (mod_t i f) (fun _ => True).
Proof.
  intros Hf. eapply keeps_bind; [apply keeps_get_t|]. intros x Hx. apply keeps_mod. intros s []. split; try done; simpl.
  - by rewrite zlen_zset.
  - apply Forall_zset; auto.
Qed.
Lemma keeps_mod_r i f : (forall x, cstate_type x -> cstate_type (f x)) -> keeps (mod_r i f) (fun _ => True).
Proof.
  intros Hf. eapply keeps_bind; [apply keeps_get_r|]. intros x Hx. apply keeps_mod. intros s []. split; try done; simpl.
  - by rewrite zlen_zset.
  - apply Forall_zset; auto.
Qed.

Lemma ty_with_hdr x h : cstate_type x -> are_bytes h -> zlen h = MAX_HDR -> cstate_type (with_hdr x h).
Proof. by intros [] ? ?. Qed.
Lemma ty_with_next x v : cstate_type x -> 0 <= v < MAX_STATES -> cstate_type (with_next x v).
Proof. by intros [] ?. Qed.
Lemma ty_with_hlen x v : cstate_type x -> 0 <= v <= 120 -> cstate_type (with_hlen x v).
Proof. by intros [] ?. Qed.

(** Read-only code. *)
Definition pure {A} (m : K slcompress A) : Prop := forall s a s', m s = Some (a, s') -> s' = s.
Lemma pure_keeps {A} (m : K slcompress A) : pure m -> keeps m (fun _ => True).
Proof. intros H s Hs a s' E. apply H in E as ->. done. Qed.
Lemma pure_ret {A} (a : A) : pure (kret a).
Proof. by intros s b s' [= <- <-]. Qed.
Lemma pure_nonnull {A} (o : option A) : pure (knonnull o).
Proof. intros s b s'. unfold knonnull. destruct o; [|done]. by intros [= <- <-]. Qed.
Lemma pure_bind {A B} (m : K slcompress A) (f : A -> K slcompress B) : pure m -> (forall a, pure (f a)) -> pure (kbind m f).
Proof. intros Hm Hf s b s' (a & s1 & E1 & E2)%kbind_Some. apply Hm in E1 as ->. by apply Hf in E2. Qed.
Lemma pure_if {A} (b : bool) (m n : K slcompress A) : pure m -> pure n -> pure (if b then m else n).
Proof. by destruct b. Qed.

#[local] Hint Resolve pure_ret pure_nonnull : core.
Ltac go_pure := repeat first [apply pure_ret | apply pure_nonnull | apply pure_if | apply pure_bind; [|intros ?]].

Lemma same_conn_pure ip th x : pure (same_conn ip th x).
Proof. unfold same_conn. go_pure. Qed.
Lemma static_changed_pure ip old hl : pure (static_changed ip old hl).
Proof. unfold static_changed. go_pure. Qed.

(** ** The compressor *)

Ltac step := eapply keeps_bind; [|intros ? ?].

Lemma ip_hl_range b v : ip_hl b = Some v -> 0 <= v <= 15.
Proof.
  unfold ip_hl. destruct (get8 b 0) as [x|]; [|done]. intros [= <-]. pose proof (Z.land_ones x 4 ltac:(lia)) as E.
  change (Z.ones 4) with 15 in E. rewrite E. pose proof (Z.mod_pos_bound x (2 ^ 4)). lia.
Qed.

Lemma th_off_range b th v : are_bytes b -> th_off b th = Some v -> 0 <= v <= 15.
Proof.
  intros Hb. unfold th_off. destruct (get8 b (th + TH_OFF)) as [x|] eqn:E; [|done]. intros [= <-].
  apply get8_u8 in E; [|done]. unfold is_u8 in E. rewrite Z.shiftr_div_pow2 by lia.
  pose proof (Z.div_pos x (2 ^ 4)). pose proof (Z.div_lt_upper_bound x (2 ^ 4) 16). lia.
Qed.

Lemma keeps_search fuel ip th cs lastcs : 0 <= cs < MAX_STATES ->
  keeps (search fuel ip th cs lastcs) (fun r => 0 <= r.1.2 < MAX_STATES /\ 0 <= r.2 < MAX_STATES).
Proof.
  revert cs. induction fuel as [|fuel IH]; intros cs Hcs; [apply keeps_panic|]. cbn [search]. cbv zeta.
  step; [apply keeps_get_t|]. step; [apply keeps_incr|]. step; [apply keeps_get_t|]. step; [apply pure_keeps, same_conn_pure|].
  pose proof (ty_next _ H). apply keeps_if; [intros _; by apply keeps_ret|]. intros _.
  apply keeps_if; intros _; [by apply keeps_ret|by apply IH].
Qed.

Lemma keeps_locate ip th : keeps (locate ip th) (fun r => 0 <= r.2 < MAX_STATES).
Proof.
  unfold locate. eapply keeps_bind; [apply keeps_get|]. intros s Hs. cbv zeta.
  eapply keeps_bind; [apply keeps_get_t|]. intros x Hx. pose proof (ty_next _ Hx) as Hn.
  step; [apply keeps_get_t|]. step; [apply pure_keeps, same_conn_pure|].
  apply keeps_if; intros _; [by apply keeps_ret|].
  eapply keeps_bind; [by apply keeps_search|]. intros [[found lcs] cs] [Hl Hc]. cbn [fst snd] in Hl, Hc.
  apply keeps_if; intros _.
  { step; [apply keeps_incr|]. step; [apply keeps_mod; intros; by apply ty_with_last_cs|]. by apply keeps_ret. }
  apply keeps_if; intros _.
  { step; [apply keeps_mod; intros; by apply ty_with_last_cs|]. by apply keeps_ret. }
  eapply keeps_bind; [apply keeps_get_t|]. intros y Hy.
  step; [apply keeps_mod_t; intros; apply ty_with_next; [done|apply Hy]|].
  eapply keeps_bind; [apply keeps_get_t|]. intros z Hz.
  step; [apply keeps_mod_t; intros; apply ty_with_next; [done|apply Hz]|].
  step; [apply keeps_mod_t; intros; by apply ty_with_next|]. by apply keeps_ret.
Qed.

Lemma keeps_field_changes ip old th :
  keeps (field_changes ip old th) (fun r => match r with Some (_, ns, _, _) => are_bytes ns | None => True end).
Proof.
  unfold field_changes.
  assert (Hs : forall b ns n (c d : Z), are_bytes ns -> exists m ns', (if b : bool then (c, ns ++ ENCODE n) else (d, ns)) = (m, ns') /\ are_bytes ns').
  { intros [] ns n c d Hn; eexists _, _; (split; [reflexivity|]); [|done]. apply Forall_app. split; [done|apply ENCODE_bytes]. }
  step; [apply pure_keeps, pure_nonnull|]. step; [apply pure_keeps, pure_nonnull|]. step; [apply pure_keeps, pure_nonnull|].
  apply keeps_if; intros _; [by apply keeps_ret|].
  assert (Hu : exists m ns, (if flag_set a TH_URG then (NEW_U, ENCODEZ a0) else (0, [])) = (m, ns) /\ are_bytes ns).
  { destruct (flag_set a TH_URG); eexists _, _; (split; [reflexivity|]); [apply ENCODEZ_bytes|constructor]. }
  destruct Hu as (m & ns & -> & Hn). step; [apply pure_keeps, pure_nonnull|]. step; [apply pure_keeps, pure_nonnull|]. cbv zeta.
  edestruct Hs as (m1 & ns1 & -> & Hn1); [exact Hn|]. step; [apply pure_keeps, pure_nonnull|]. step; [apply pure_keeps, pure_nonnull|].
  apply keeps_if; intros _; [by apply keeps_ret|]. edestruct Hs as (m2 & ns2 & -> & Hn2); [exact Hn1|].
  step; [apply pure_keeps, pure_nonnull|]. step; [apply pure_keeps, pure_nonnull|].
  apply keeps_if; intros _; [by apply keeps_ret|]. edestruct Hs as (m3 & ns3 & -> & Hn3); [exact Hn2|]. by apply keeps_ret.
Qed.

Lemma special_bytes ch ns dS dA len olen hlen ch' ns' :
  are_bytes ns -> special_cases ch ns dS dA len olen hlen = Some (ch', ns') -> are_bytes ns'.
Proof. intros Hn. unfold special_cases, are_bytes in *. repeat case_match; intros [= <- <-]; try done; constructor. Qed.

Lemma keeps_send_uncompressed ip cs hlen : are_bytes ip -> 0 <= hlen ->
  keeps (send_uncompressed ip cs hlen) (fun r => are_bytes r.2).
Proof.
  intros Hb Hh. unfold send_uncompressed. eapply keeps_bind; [apply keeps_get_t|]. intros x Hx.
  eapply keeps_bind; [apply keeps_nonnull; intros h; apply bcopy_ok; [done|done|apply Hx]|]. intros h [Hh1 Hh2].
  rewrite (ty_hdr _ Hx) in Hh2. step; [apply keeps_mod_t; intros; by apply ty_with_hdr|].
  step; [apply keeps_mod; intros; apply ty_with_xmit; [done|apply Hx]|]. apply keeps_ret. by apply put8_bytes.
Qed.

Lemma keeps_send_compressed ip cs hlen th ch ns : are_bytes ip -> are_bytes ns -> 0 <= hlen ->
  keeps (send_compressed ip cs hlen th ch ns) (fun r => are_bytes r.2).
Proof.
  intros Hb Hn Hh. unfold send_compressed. eapply keeps_bind; [apply keeps_get_t|]. intros x Hx.
  step; [apply pure_keeps, pure_nonnull|]. step; [apply pure_keeps, pure_nonnull|]. cbv zeta.
  assert (Hs : exists m ns', (if negb (u32 (a - a0) =? 1) then (Z.lor ch NEW_I, ns ++ ENCODEZ (u32 (a - a0))) else (ch, ns)) = (m, ns') /\ are_bytes ns').
  { destruct (negb _); eexists _, _; (split; [reflexivity|]); [|done]. apply Forall_app. split; [done|apply ENCODEZ_bytes]. }
  destruct Hs as (m & ns' & -> & Hn'). step; [apply pure_keeps, pure_nonnull|].
  eapply keeps_bind; [apply (keeps_nonnull is_u16); intros v Hv; by apply (get16_u16 _ _ _ Hb Hv)|]. intros sum Hsum.
  eapply keeps_bind; [apply keeps_nonnull; intros h; apply bcopy_ok; [done|done|apply Hx]|]. intros h [Hh1 Hh2].
  rewrite (ty_hdr _ Hx) in Hh2. step; [apply keeps_mod_t; intros; by apply ty_with_hdr|].
  step; [apply keeps_mod; intros; apply ty_with_xmit; [done|apply Hx]|].
  eapply (keeps_bind are_bytes); [|intros q Hq; step; [apply keeps_incr|by apply keeps_ret]].
  apply keeps_nonnull. intros q Hq. apply bcopy_ok in Hq as [Hq _]; [done|apply zlen_nonneg| |by apply Forall_drop].
  apply Forall_app. split; [|done]. pose proof (ty_id _ Hx). bytes_list.
Qed.

Lemma keeps_compress ip : are_bytes ip -> keeps (sl_compress_tcp ip) (fun r => are_bytes r.2).
Proof.
  intros Hb. unfold sl_compress_tcp. eapply keeps_bind; [apply (keeps_nonnull (fun v => 0 <= v <= 15)), ip_hl_range|]. intros hl Hhl. cbn beta in Hhl.
  step; [apply pure_keeps, pure_nonnull|]. apply keeps_if; intros _; [by apply keeps_ret|]. cbv zeta.
  step; [apply pure_keeps, pure_nonnull|]. apply keeps_if; intros _; [by apply keeps_ret|]. step; [apply keeps_incr|].
  eapply keeps_bind; [apply keeps_locate|]. intros [found cs] Hcs.
  eapply keeps_bind; [apply (keeps_nonnull (fun v => 0 <= v <= 15)); intros v Hv; by apply (th_off_range _ _ _ Hb Hv)|]. intros off Hoff. cbn beta in Hoff.
  assert (Hun : keeps (send_uncompressed ip cs (4 * (hl + off))) (fun r => are_bytes r.2)).
  { apply keeps_send_uncompressed; [done|lia]. }
  apply keeps_if; intros _; [done|]. step; [apply keeps_get_t|]. step; [apply pure_keeps, static_changed_pure|].
  apply keeps_if; intros _; [done|].
  eapply keeps_bind; [apply keeps_field_changes|]. intros [[[[ch ns] dS] dA]|] Hn; [|done].
  step; [apply pure_keeps, pure_nonnull|]. step; [apply pure_keeps, pure_nonnull|].
  destruct (special_cases _ _ _ _ _ _ _) as [[ch' ns']|] eqn:E; [|done]. apply special_bytes in E; [|done].
  apply keeps_send_compressed; [done|done|lia].
Qed.

(** ** The decompressor *)

Definition hdr_ok (h : list Z) : Prop := are_bytes h /\ zlen h = MAX_HDR.

Lemma hdr_put8 h i v : hdr_ok h -> hdr_ok (put8 h i v).
Proof. intros [H1 H2]. split; [by apply put8_bytes|]. unfold put8. by rewrite zlen_zset. Qed.
Lemma hdr_put16 h i v : hdr_ok h -> hdr_ok (put16 h i v).
Proof. intros H. by apply hdr_put8, hdr_put8. Qed.
Lemma hdr_put32 h i v : hdr_ok h -> hdr_ok (put32 h i v).
Proof. intros H. by apply hdr_put16, hdr_put16. Qed.

Lemma hdr_set_flag h f b on r : hdr_ok h -> set_flag h f b on = Some r -> hdr_ok r.
Proof. unfold set_flag. intros H. case_match; [|done]. intros [= <-]. by apply hdr_put8. Qed.

(** A step that reads a number from the packet into the header. *)
Definition step_ok (f : list Z * Z -> option (list Z * Z)) : Prop := forall hc r, hdr_ok hc.1 -> f hc = Some r -> hdr_ok r.1.

Lemma DECODEL_ok buf f : step_ok (DECODEL buf f).
Proof.
  intros [h c] r H. unfold DECODEL. destruct (decode _ _) as [[d c']|]; [|done]. destruct (get32 _ _); [|done].
  intros [= <-]. by apply hdr_put32.
Qed.
Lemma DECODES_ok buf f : step_ok (DECODES buf f).
Proof.
  intros [h c] r H. unfold DECODES. destruct (decode _ _) as [[d c']|]; [|done]. destruct (get16 _ _); [|done].
  intros [= <-]. by apply hdr_put16.
Qed.
Lemma DECODEU_ok buf f : step_ok (DECODEU buf f).
Proof. intros [h c] r H. unfold DECODEU. destruct (decode _ _) as [[d c']|]; [|done]. intros [= <-]. by apply hdr_put16. Qed.
Lemma opt_step_ok changes bit f : step_ok f -> step_ok (opt_step changes bit f).
Proof. intros Hf hc r H. unfold opt_step. destruct (flag_set _ _); [by apply Hf|]. by intros [= <-]. Qed.

Lemma keeps_step f hc : step_ok f -> hdr_ok hc.1 -> keeps (knonnull (f hc)) (fun r => hdr_ok r.1).
Proof. intros Hf H. apply keeps_nonnull. intros r Hr. by apply (Hf hc). Qed.

Lemma keeps_update_header buf changes hlen h cp : hdr_ok h -> keeps (update_header buf changes hlen h cp) (fun r => hdr_ok r.1).
Proof.
  intros Hh. unfold update_header. step; [apply pure_keeps, pure_nonnull|]. step; [apply pure_keeps, pure_nonnull|]. cbv zeta.
  eapply keeps_bind. { apply (keeps_nonnull hdr_ok). intros h1 E. eapply hdr_set_flag; [|exact E]. by apply hdr_put16. }
  intros h1 H1. eapply (keeps_bind (fun r => hdr_ok r.1)).
  - apply keeps_if; intros _.
    { do 3 (step; [apply pure_keeps, pure_nonnull|]). apply keeps_ret. by apply hdr_put32, hdr_put32. }
    apply keeps_if; intros _.
    { do 2 (step; [apply pure_keeps, pure_nonnull|]). apply keeps_ret. by apply hdr_put32. }
    eapply keeps_bind. { apply (keeps_nonnull hdr_ok). intros h2 E. by apply (hdr_set_flag _ _ _ _ _ H1 E). }
    intros h2 H2.
    eapply keeps_bind; [apply keeps_step; [apply opt_step_ok, DECODEU_ok|exact H2]|]. intros hc1 Hc1.
    eapply keeps_bind; [apply keeps_step; [apply opt_step_ok, DECODES_ok|exact Hc1]|]. intros hc2 Hc2.
    eapply keeps_bind; [apply keeps_step; [apply opt_step_ok, DECODEL_ok|exact Hc2]|]. intros hc3 Hc3.
    apply keeps_step; [apply opt_step_ok, DECODEL_ok|exact Hc3].
  - intros [h2 cp2] H2. cbn [fst snd] in H2. apply keeps_if; intros _; [apply keeps_step; [apply DECODES_ok|done]|].
    step; [apply pure_keeps, pure_nonnull|]. apply keeps_ret. by apply hdr_put16.
Qed.

Lemma bits_u16 v n : is_u16 v -> 0 <= n < 65536 -> is_u16 (Z.lor v n).
Proof.
  intros Hv Hn. unfold is_u16 in *. assert (H0 : 0 <= Z.lor v n) by (apply Z.lor_nonneg; lia). split; [done|].
  assert (Hl : forall x, 0 <= x < 65536 -> Z.log2 x < 16).
  { intros x Hx. destruct (Z.eq_dec x 0) as [->|]; [reflexivity|]. apply Z.log2_lt_pow2; lia. }
  destruct (Z.eq_dec (Z.lor v n) 0) as [->|]; [lia|]. change 65536 with (2 ^ 16). apply Z.log2_lt_pow2; [lia|].
  rewrite Z.log2_lor by lia. apply Z.max_lub_lt; by apply Hl.
Qed.

Lemma clear_u16 v n : is_u16 v -> is_u16 (Z.land v (Z.lnot n)).
Proof.
  intros Hv. unfold is_u16 in *. assert (E : Z.land v (Z.lnot n) = Z.land (Z.land v (Z.lnot n)) (Z.ones 16)).
  { rewrite <- Z.land_assoc, (Z.land_comm (Z.lnot n)), Z.land_assoc, Z.land_ones by lia. by rewrite (Z.mod_small v) by lia. }
  rewrite E, Z.land_ones by lia. apply Z.mod_pos_bound. lia.
Qed.

Lemma keeps_bad : keeps bad (fun _ => True).
Proof.
  unfold bad. step; [|apply keeps_incr]. apply keeps_mod. intros s []. split; try done. by apply bits_u16.
Qed.
Lemma keeps_clear_toss : keeps clear_toss (fun _ => True).
Proof. apply keeps_mod. intros s []. split; try done. by apply clear_u16. Qed.

Lemma keeps_recv_uncompressed check buf rest : are_bytes buf -> are_bytes rest ->
  keeps (recv_uncompressed check buf rest) (fun r => match r with Some b => are_bytes b | None => True end).
Proof.
  intros Hb Hr. unfold recv_uncompressed.
  eapply keeps_bind; [apply (keeps_nonnull is_u8); intros v Hv; by apply (get8_u8 _ _ _ Hb Hv)|]. intros p Hp.
  apply keeps_if; intros _; [step; [apply keeps_bad|by apply keeps_ret]|].
  step; [apply keeps_mod; intros; by apply ty_with_recv|]. step; [apply keeps_clear_toss|]. cbv zeta.
  pose proof (put8_bytes buf IP_P IPPROTO_TCP Hb) as Hb'. set (b := put8 buf IP_P IPPROTO_TCP) in *.
  eapply keeps_bind; [apply (keeps_nonnull (fun v => 0 <= v <= 15)), ip_hl_range|]. intros hl Hhl. cbn beta in Hhl.
  eapply keeps_bind; [apply (keeps_nonnull (fun v => 0 <= v <= 15)); intros v Hv; by apply (th_off_range _ _ _ Hb' Hv)|].
  intros off Hoff. cbn beta in Hoff. apply keeps_if; intros _; [step; [apply keeps_bad|by apply keeps_ret]|].
  eapply keeps_bind; [apply keeps_get_r|]. intros x Hx.
  eapply (keeps_bind hdr_ok).
  { apply keeps_nonnull. intros h E. apply bcopy_ok in E as [E1 E2]; [|lia|by apply Forall_app|apply Hx].
    rewrite (ty_hdr _ Hx) in E2. done. }
  intros h Hh. step; [|step; [apply keeps_incr|by apply keeps_ret]].
  apply keeps_mod_r. intros y Hy. destruct (hdr_put16 h IP_SUM 0 Hh). apply ty_with_hlen; [|lia]. by apply ty_with_hdr.
Qed.

Lemma keeps_recv_conn buf : are_bytes buf -> keeps (recv_conn buf) (fun _ => True).
Proof.
  intros Hb. unfold recv_conn. step; [apply keeps_incr|]. step; [apply pure_keeps, pure_nonnull|].
  apply keeps_if; intros _.
  - eapply keeps_bind; [apply (keeps_nonnull is_u8); intros v Hv; by apply (get8_u8 _ _ _ Hb Hv)|]. intros id Hid.
    apply keeps_if; intros _; [by apply keeps_ret|]. step; [apply keeps_clear_toss|].
    step; [apply keeps_mod; intros; by apply ty_with_recv|]. by apply keeps_ret.
  - step; [apply keeps_get|]. apply keeps_if; intros _; [step; [apply keeps_incr|by apply keeps_ret]|by apply keeps_ret].
Qed.

Lemma store_sum_bytes b n r : are_bytes b -> store_sum b n = Some r -> are_bytes r.
Proof. intros Hb. unfold store_sum. case_match; [|done]. case_match; [|done]. intros [= <-]. by apply put8_bytes, put8_bytes. Qed.

Lemma keeps_uncompress buf len type : are_bytes buf -> keeps (sl_uncompress_tcp buf len type) (fun r => are_bytes r.2).
Proof.
  intros Hb. unfold sl_uncompress_tcp. apply keeps_if; intros _.
  { eapply keeps_bind; [apply keeps_recv_uncompressed; [done|apply Forall_nil_2]|]. intros [b|] Hr; by apply keeps_ret. }
  apply keeps_if; intros _; [step; [apply keeps_bad|by apply keeps_ret]|].
  eapply keeps_bind; [by apply keeps_recv_conn|]. intros [| |changes cp] _; [step; [apply keeps_bad|by apply keeps_ret]|by apply keeps_ret|].
  step; [apply keeps_get|]. eapply keeps_bind; [apply keeps_get_r|]. intros x Hx.
  eapply keeps_bind; [apply keeps_update_header; split; apply Hx|]. intros [h cp'] [Hh1 Hh2]. cbn [fst snd] in *. cbv zeta.
  apply keeps_if; intros _.
  { step; [apply keeps_mod_r; intros; by apply ty_with_hdr|]. step; [apply keeps_bad|by apply keeps_ret]. }
  eapply keeps_bind; [apply keeps_nonnull; intros dt E; apply (slice_bytes _ _ _ _ Hb E)|]. intros dt Hd.
  destruct (hdr_put16 h IP_LEN (u16 (len - cp' + cs_hlen x))) as [Hk1 Hk2]; [done|].
  step; [apply keeps_mod_r; intros; by apply ty_with_hdr|].
  eapply keeps_bind; [apply keeps_nonnull; intros hd E; apply (slice_bytes _ _ _ _ Hk1 E)|]. intros hd Hhd.
  step; [apply pure_keeps, pure_nonnull|].
  eapply keeps_bind; [apply keeps_nonnull; intros p E; eapply store_sum_bytes; [|exact E]; by apply Forall_app|].
  intros p Hp. by apply keeps_ret.
Qed.

Lemma keeps_muncompress nobufs room m slack rest type : are_bytes (m ++ slack) -> are_bytes (concat rest) ->
  keeps (sl_muncompress_tcp nobufs room m slack rest type) (fun r => match r with Some ms => are_bytes (concat ms) | None => True end).
Proof.
  intros Hb Hr. unfold sl_muncompress_tcp. pose proof (proj1 (proj1 (Forall_app _ _ _) Hb)) as Hm.
  apply keeps_if; intros _.
  { eapply keeps_bind; [by apply keeps_recv_uncompressed|]. intros [b|] Hr'; apply keeps_ret; [|done]. simpl. by apply Forall_app. }
  apply keeps_if; intros _; [step; [apply keeps_bad|by apply keeps_ret]|].
  eapply keeps_bind; [by apply keeps_recv_conn|]. intros [| |changes cp] _; [step; [apply keeps_bad|by apply keeps_ret]|by apply keeps_ret|].
  step; [apply keeps_get|]. eapply keeps_bind; [apply keeps_get_r|]. intros x Hx.
  eapply keeps_bind; [apply keeps_update_header; split; apply Hx|]. intros [h cp'] [Hh1 Hh2]. cbn [fst snd] in *. cbv zeta.
  apply keeps_if; intros _.
  { step; [apply keeps_mod_r; intros; by apply ty_with_hdr|]. step; [apply keeps_bad|by apply keeps_ret]. }
  match goal with |- context [put16 h IP_LEN ?v] => destruct (hdr_put16 h IP_LEN v) as [Hk1 Hk2]; [done|] end.
  step; [apply keeps_mod_r; intros; by apply ty_with_hdr|].
  eapply keeps_bind; [apply keeps_nonnull; intros hd E; apply (slice_bytes _ _ _ _ Hk1 E)|]. intros hd Hhd.
  apply keeps_if; intros _; [done|].
  step; [apply pure_keeps, pure_nonnull|].
  eapply keeps_bind; [apply keeps_nonnull; intros p E; by apply (store_sum_bytes _ _ _ Hhd E)|].
  intros p Hp. apply keeps_ret. destruct room; simpl; [|]; repeat (apply Forall_app; split); try done; by apply Forall_drop.
Qed.
