(* ===== verification/SlcompCalls.v ===== *)
(** * What header compression promises

    The properties of the two ends of a line: what goes in comes out, the compressor keeps
    the most recent connections, the saved states keep their widths, and where the code
    leaves its own bounds. *)

From S2P Require Import Prelude Slcomp SlcompSpec SlcompTrip SlcompRing SlcompSafety SlcompTypes.

(** ** A session *)

(** What the receiving end makes of a packet of type [t]. *)
Definition receive (t : Z) (q : list Z) (d : slcompress) : option (list Z * slcompress) :=
  if t =? TYPE_IP then Some (q, d) else
  match sl_uncompress_tcp q (zlen q) t d with
  | Some ((n, p), d) => Some (take (Z.to_nat n) p, d)
  | None => None
  end.

(** The packets [ps] over a line that loses nothing, from the compressor [c] to the
    decompressor [d]: for each, what the line carried and what was delivered. *)
Fixpoint session (ps : list (list Z)) (c d : slcompress) : option (list (list Z * list Z)) :=
  match ps with
  | [] => Some []
  | p :: r =>
    match sl_compress_tcp p c with
    | Some ((t, q), c') =>
      match receive t q d with
      | Some (m, d') => match session r c' d' with Some l => Some ((q, m) :: l) | None => None end
      | None => None
      end
    | None => None
    end
  end.

(** A packet with sound headers, as bytes. *)
Definition sound_packet (p : list Z) : Prop := exists h dat, p = bytes h ++ dat /\ packet h dat.

(** The packet came out as it went in, and the line carried no more bytes. *)
Definition carried (p : list Z) (r : list Z * list Z) : Prop := r.2 = p /\ zlen r.1 <= zlen p.

Lemma trip_receive c d l p : sync c d l -> sound_packet p ->
  exists t q c' d' l', sl_compress_tcp p c = Some ((t, q), c') /\ receive t q d = Some (p, d') /\ sync c' d' l' /\ zlen q <= zlen p.
Proof.
  intros Hs (h & dat & -> & Hp). destruct (trip c d l h dat Hs Hp) as (t & q & c' & -> & [(-> & -> & ->)|(Ht & d' & l' & Hu & Hs' & Hz & _)]).
  - by exists TYPE_IP, (bytes h ++ dat), c, d, l.
  - exists t, q, c', d', l'. unfold receive. destruct (Z.eqb_spec t TYPE_IP); [done|]. rewrite Hu.
    split_and!; try done. by rewrite take_ge by (unfold zlen; lia).
Qed.

(** From any two ends in step. *)
Lemma session_from ps : Forall sound_packet ps -> forall c d l, sync c d l ->
  exists rs, session ps c d = Some rs /\ Forall2 carried ps rs.
Proof.
  induction 1 as [|p ps Hp _ IH]; intros c d l Hs; [by exists []|].
  destruct (trip_receive c d l p Hs Hp) as (t & q & c' & d' & l' & Hc & Hr & Hs' & Hz).
  destruct (IH c' d' l' Hs') as (rs & Hrs & Hf). exists ((q, p) :: rs). simpl. rewrite Hc, Hr, Hrs.
  split; [done|]. by constructor.
Qed.

(** C2. Nothing is changed by the compression: a sequence of packets of any length, of any
    number of connections, sent over a line that loses nothing from its opening on, comes
    out of the decompressor byte for byte as it went into the compressor, and no packet
    takes more bytes on the line than it has.  Each packet needs a sound header: its length
    and checksums right, reserved bits clear, URG set exactly when the urgent pointer is
    not 0, at most 108 bytes of headers. *)
Theorem session_delivers ps : Forall sound_packet ps ->
  exists rs, session ps sl_compress_init sl_compress_init = Some rs /\ Forall2 carried ps rs.
Proof. intros H. exact (session_from ps H _ _ _ init_sync). Qed.

(** The header with its checksum. *)
Definition sealed (h : header) : header :=
  match store_sum (bytes (set_sum h 0)) (4 * hl h) with
  | Some b => match get16 b IP_SUM with Some v => set_sum h v | None => h end
  | None => h
  end.

(** The header of a packet of [n] bytes of data of one connection. *)
Definition tcp (id seq ack flags win urp n : Z) : header :=
  sealed (Header 0x45 0 (40 + n) id 0 64 IPPROTO_TCP 0 0x0a000001 0x0a000002 [] 0x04000050 seq ack 0x50 flags win 0xabcd urp []).

Lemma tcp_packet id seq ack flags win urp dat : let h := tcp id seq ack flags win urp (zlen dat) in
  wf_header h -> (urg h = true <-> h_urp h <> 0) -> 0 <= h_flags h < 64 -> h_p h = IPPROTO_TCP -> h_offx h = 0x50 ->
  hl h = 5 -> h_len h = 40 + zlen dat -> store_sum (bytes (set_sum h 0)) (4 * hl h) = Some (bytes h) -> sound_packet (bytes h ++ dat).
Proof.
  intros h Hw Hu Hf Hp Ho Hl Hn Hs. exists h, dat. assert (E : hlen h = 40) by (unfold hlen, toff; by rewrite Hl, Ho).
  clearbody h. split; [done|]. split; [|by rewrite E|done]. split; [done|done|by rewrite Ho|done|done|by rewrite E].
Qed.

Lemma session_delivers_witness : exists rs,
  session [bytes (tcp 1 100 200 24 1000 0 3) ++ [1; 2; 3]; bytes (tcp 2 103 200 24 1000 0 2) ++ [4; 5];
           bytes (tcp 9 105 201 48 900 7 1) ++ [6]] sl_compress_init sl_compress_init = Some rs /\
  Forall2 carried [bytes (tcp 1 100 200 24 1000 0 3) ++ [1; 2; 3]; bytes (tcp 2 103 200 24 1000 0 2) ++ [4; 5];
           bytes (tcp 9 105 201 48 900 7 1) ++ [6]] rs.
Proof.
  apply session_delivers. repeat apply Forall_cons_2; try apply Forall_nil_2.
  1: apply (tcp_packet 1 100 200 24 1000 0 [1; 2; 3]).
  9: apply (tcp_packet 2 103 200 24 1000 0 [4; 5]).
  17: apply (tcp_packet 9 105 201 48 900 7 [6]).
  all: try reflexivity; try (vm_compute; intuition congruence); split; vm_compute; intuition congruence.
Defined.

(** ** Least recently used *)

(** The first connection of [l] that is the packet's, or else the last of [l]. *)
Fixpoint lru_pick (m : Z -> bool) (l : list Z) : bool * Z :=
  match l with
  | [] => (false, 0)
  | i :: r => if m i then (true, i) else match r with [] => (false, i) | _ => lru_pick m r end
  end.

Lemma lru_pick_found m pre i b : Forall (fun k => m k = false) pre -> m i = true -> lru_pick m (pre ++ i :: b) = (true, i).
Proof.
  induction 1 as [|k pre Hk Hf IH]; intros Hi; simpl; [by rewrite Hi|]. rewrite Hk. rewrite (IH Hi). by destruct pre.
Qed.

Lemma lru_pick_last m l i : Forall (fun k => m k = false) l -> last l = Some i -> lru_pick m l = (false, i).
Proof.
  induction 1 as [|k l Hk Hf IH]; [done|]. simpl. rewrite Hk. destruct l; [by intros [= ->]|exact IH].
Qed.

(** The circular list of connection states is a least-recently-used cache: when the
    list holds the states in the order [l] of their last use, the search of
    [sl_compress_tcp] answers the first state of the order that has the packet's addresses
    and ports, or else, reporting that there is none, the state used longest ago; either
    way that state becomes the first of the order, the others keep theirs, and no saved
    header changes.  The search always ends, and the list stays a permutation of the 16
    states. *)
Theorem locate_lru h dat s l : wf_header h -> ring s l -> hdrs_ok (tstate s) ->
  exists s', locate (bytes h ++ dat) (4 * hl h) s = Some (lru_pick (match_at s h) l, s') /\
    ring s' (to_front (lru_pick (match_at s h) l).2 l) /\ view (tstate s') = view (tstate s).
Proof.
  intros Hw Hr Hok. destruct (locate_run h dat Hw s l Hr Hok) as (found & i & s' & Hrun & _ & Hr' & Hv & Hm & Hc).
  exists s'. assert (E : lru_pick (match_at s h) l = (found, i)).
  { destruct found; [destruct Hc as (pre & b & -> & Hf); by apply lru_pick_found|destruct Hc; by apply lru_pick_last]. }
  by rewrite E.
Qed.

Lemma locate_lru_witness : exists s',
  locate (bytes (tcp 1 100 200 24 1000 0 3) ++ [1; 2; 3]) 20 sl_compress_init = Some ((false, 0), s') /\
  ring s' [0; 15; 14; 13; 12; 11; 10; 9; 8; 7; 6; 5; 4; 3; 2; 1].
Proof.
  destruct (locate_lru (tcp 1 100 200 24 1000 0 3) [1; 2; 3] sl_compress_init _ ltac:(split; vm_compute; intuition congruence)
    init_ring (sync_hdrs _ _ _ init_sync)) as (s' & H1 & H2 & _).
  exists s'. split; [exact H1|exact H2].
Defined.

(** ** Types *)

(** A call of one of the three entries. *)
Inductive slc_call :=
| Compress (ip : list Z)
| Uncompress (buf : list Z) (len type : Z)
| Muncompress (nobufs room : bool) (m slack : list Z) (rest : list (list Z)) (type : Z).

(** What the call hands on, and the state after it. *)
Definition slc_run (k : slc_call) (s : slcompress) : option (list Z * slcompress) :=
  match k with
  | Compress ip => match sl_compress_tcp ip s with Some ((_, q), s') => Some (q, s') | None => None end
  | Uncompress buf len type => match sl_uncompress_tcp buf len type s with Some ((_, p), s') => Some (p, s') | None => None end
  | Muncompress nobufs room m slack rest type =>
    match sl_muncompress_tcp nobufs room m slack rest type s with
    | Some (r, s') => Some (concat (default [] r), s')
    | None => None
    end
  end.

Fixpoint slc_runs (ks : list slc_call) (s : slcompress) : option (list (list Z) * slcompress) :=
  match ks with
  | [] => Some ([], s)
  | k :: r =>
    match slc_run k s with
    | Some (q, s') => match slc_runs r s' with Some (qs, s'') => Some (q :: qs, s'') | None => None end
    | None => None
    end
  end.

(** The input is made of bytes; nothing else is asked of it. *)
Definition call_bytes (k : slc_call) : Prop :=
  match k with
  | Compress ip => are_bytes ip
  | Uncompress buf _ _ => are_bytes buf
  | Muncompress _ _ m slack rest _ => are_bytes (m ++ slack) /\ are_bytes (concat rest)
  end.

Lemma slc_run_type k s q s' : call_bytes k -> slc_type s -> slc_run k s = Some (q, s') -> slc_type s' /\ are_bytes q.
Proof.
  intros Hk Hs. destruct k as [ip|buf len type|nobufs room m slack rest type]; simpl in *.
  - destruct (sl_compress_tcp ip s) as [[[t p] s1]|] eqn:E; [|done]. intros [= <- <-]. by apply (keeps_compress ip Hk s Hs) in E.
  - destruct (sl_uncompress_tcp buf len type s) as [[[t p] s1]|] eqn:E; [|done]. intros [= <- <-].
    by apply (keeps_uncompress buf len type Hk s Hs) in E.
  - destruct Hk as [Hm Hr]. destruct (sl_muncompress_tcp nobufs room m slack rest type s) as [[r s1]|] eqn:E; [|done]. intros [= <- <-].
    apply (keeps_muncompress nobufs room m slack rest type Hm Hr s Hs) in E as [? ?]. split; [done|]. destruct r; [done|apply Forall_nil_2].
Qed.

Lemma init_type : slc_type sl_compress_init.
Proof.
  assert (Hz : are_bytes (replicate (Z.to_nat MAX_HDR) 0)) by (apply Forall_replicate; unfold is_u8; lia).
  assert (Hx : forall n i, 0 <= n < MAX_STATES -> is_u8 i -> cstate_type (Cstate n 0 i (replicate (Z.to_nat MAX_HDR) 0))).
  { intros n i Hn Hi. by split. }
  split; try reflexivity; try (unfold is_u8, is_u16, MAX_STATES; cbn; lia).
  - split; [reflexivity|]. apply Forall_replicate. unfold is_s32. lia.
  - apply Forall_lookup_2. intros i x. cbn [tstate sl_compress_init]. rewrite list_lookup_imap_Some. intros (y & Hy%lookup_lt_Some & ->).
    rewrite length_replicate in Hy. unfold MAX_STATES in *. apply Hx; unfold is_u8; [|lia]. destruct (Nat.eqb_spec i 0); lia.
  - apply Forall_replicate, Hx; unfold is_u8, MAX_STATES; lia.
Qed.

(** C33. The types of [struct slcompress] are kept by every run that stays within the code's
    buffers: after any calls of the three entries from [sl_compress_init] of which none reads or
    writes outside a packet, a saved header or an array - with any bytes as packets, of any length
    and type - the indices of the circular list are inside [tstate], the connection numbers, flags
    and counters are in the range of their C types, each saved header is 108 bytes and its
    recorded length is at most 120, and every packet handed on is made of bytes. *)
Theorem slc_runs_typed ks qs s : Forall call_bytes ks -> slc_runs ks sl_compress_init = Some (qs, s) ->
  slc_type s /\ Forall are_bytes qs.
Proof.
  intros Hk. generalize sl_compress_init init_type. revert qs s.
  induction Hk as [|k ks Hb Hk IH]; intros qs s s0 Hs0; simpl; [by intros [= <- <-]|].
  destruct (slc_run k s0) as [[q s1]|] eqn:E; [|done]. destruct (slc_run_type k s0 q s1 Hb Hs0 E) as [Hs1 Hq].
  destruct (slc_runs ks s1) as [[qs1 s2]|] eqn:E2; [|done]. intros [= <- <-].
  destruct (IH _ _ _ Hs1 E2). split; [done|]. by constructor.
Qed.

Lemma slc_runs_typed_witness : exists qs s,
  slc_runs [Compress (bytes (tcp 1 100 200 24 1000 0 3) ++ [1; 2; 3]); Uncompress [0x40; 99; 1; 2; 9] 5 TYPE_COMPRESSED_TCP;
    Muncompress false false [1; 2; 3; 4; 5; 6; 7; 8; 9; 200] [] [] TYPE_UNCOMPRESSED_TCP] sl_compress_init = Some (qs, s) /\
  slc_type s.
Proof.
  destruct (slc_runs _ sl_compress_init) as [[qs s]|] eqn:E; [|vm_compute in E; discriminate E].
  exists qs, s. split; [reflexivity|]. apply slc_runs_typed in E; [apply E|].
  apply Forall_cons_2; [|apply Forall_cons_2; [|apply Forall_cons_2; [|apply Forall_nil_2]]];
    [| |split]; apply (bool_decide_eq_true_1 (Forall (fun x => 0 <= x < 256) _)); by vm_compute.
Defined.

(** ** Where the code leaves its bounds *)

(** A header of 120 bytes, with all the options there can be. *)
Definition longest : header :=
  sealed (Header 0x4f 0 120 1 0 64 IPPROTO_TCP 0 0x0a000001 0x0a000002 (replicate 40 0) 0x04000050 1 2 0xf0 16 1000 0xabcd 0 (replicate 40 0)).

Lemma recv_long check buf rest p hl off d : get8 buf IP_P = Some p -> p < MAX_STATES ->
  ip_hl buf = Some hl -> th_off buf (4 * hl) = Some off -> 0 <= hl ->
  recv_uncompressed check buf rest d =
  (let hlen := 4 * (hl + off) in
   let b := put8 buf IP_P IPPROTO_TCP in
   if check && (MAX_HDR <? hlen) then do! bad in kret None else
   let! x := get_r p in
   let! h := knonnull (bcopy (b ++ rest) (cs_hdr x) hlen) in
   do! mod_r p (fun x => with_hlen (with_hdr x (put16 h IP_SUM 0)) hlen) in
   do! INCR sls_uncompressedin in
   kret (Some b))%kern (with_flags (with_last_recv d p) (Z.land (sl_flags d) (Z.lnot SLF_TOSS))).
Proof.
  intros Hp Hlt Hhl Hoff H0. unfold recv_uncompressed. rewrite (bind_nonnull _ _ _ _ Hp).
  destruct (Z.leb_spec MAX_STATES p); [lia|]. rewrite (bind_run (kmod _) _ _ tt _ eq_refl). unfold clear_toss.
  rewrite (bind_run (kmod _) _ _ tt _ eq_refl). cbv zeta.
  assert (E : forall i, i <> IP_P -> get8 (put8 buf IP_P IPPROTO_TCP) i = get8 buf i) by (intros i Hi; by apply znth_zset_ne).
  assert (E1 : ip_hl (put8 buf IP_P IPPROTO_TCP) = Some hl) by (rewrite <- Hhl; unfold ip_hl; by rewrite E).
  assert (E2 : th_off (put8 buf IP_P IPPROTO_TCP) (4 * hl) = Some off).
  { rewrite <- Hoff. unfold th_off. rewrite E; [done|]. unfold TH_OFF, IP_P. lia. }
  by rewrite (bind_nonnull _ _ _ _ E1), (bind_nonnull _ _ _ _ E2).
Qed.

(** What the entries do not check.  An uncompressed packet whose two headers take more
    than the 108 bytes of the union: [sl_uncompress_tcp] copies them all into the saved
    state, past its end, whatever the state is, where [sl_muncompress_tcp] refuses the
    packet.  [sl_compress_tcp] has the same overrun for a packet of ours.  A compressed
    packet that names no connection, as the first packet of the line, is not tossed:
    [sl_compress_init] sets [last_recv] to 255 without [SLF_TOSS], so that the 256th of 16
    states is used.  And a packet without URG after one with URG and the same urgent
    pointer, when the change of the sequence number has a special encoding, is rebuilt with
    URG. *)
Theorem slcomp_unchecked :
  (forall d buf p hl off, slc_type d -> get8 buf IP_P = Some p -> 0 <= p < MAX_STATES ->
     ip_hl buf = Some hl -> th_off buf (4 * hl) = Some off -> MAX_HDR < 4 * (hl + off) ->
     (forall len, sl_uncompress_tcp buf len TYPE_UNCOMPRESSED_TCP d = None) /\
     (forall nobufs room slack rest, exists d',
        sl_muncompress_tcp nobufs room buf slack rest TYPE_UNCOMPRESSED_TCP d = Some (None, d'))) /\
  sl_compress_tcp (bytes longest) sl_compress_init = None /\
  (forall b1 b2 len, sl_uncompress_tcp [0; b1; b2] len TYPE_COMPRESSED_TCP sl_compress_init = None) /\
  exists q r, session [bytes (tcp 1 100 200 (TH_URG + TH_ACK) 1000 7 3) ++ [1; 2; 3]; bytes (tcp 2 103 200 TH_ACK 1000 7 2) ++ [4; 5]]
      sl_compress_init sl_compress_init = Some [q; r] /\
    q.2 = bytes (tcp 1 100 200 (TH_URG + TH_ACK) 1000 7 3) ++ [1; 2; 3] /\
    r.2 = bytes (set_flags (tcp 2 103 200 TH_ACK 1000 7 2) (TH_URG + TH_ACK)) ++ [4; 5].
Proof.
  split; [|split; [by vm_compute|split; [done|eexists _, _; split; [by vm_compute|by vm_compute]]]].
  intros d buf p hl off Hd Hp Hlt Hhl Hoff Hbig. pose proof (ip_hl_range _ _ Hhl).
  assert (Hz : (MAX_HDR <? 4 * (hl + off)) = true) by lia. split.
  - intros len. unfold sl_uncompress_tcp. rewrite Z.eqb_refl. unfold kbind at 1.
    rewrite (recv_long _ _ _ p hl off) by (done || lia). cbv zeta. cbn [andb].
    set (d1 := with_flags _ _). destruct (proj1 (znth_is_some (rstate d1) p)) as [x Hx].
    { change (rstate d1) with (rstate d). by rewrite (ty_rs _ Hd). }
    rewrite (bind_run _ _ _ _ _ (get_r_run p d1 x Hx)). unfold bcopy.
    rewrite (ty_hdr _ (Forall_znth _ _ _ _ (ty_r _ Hd) Hx)).
    destruct (Z.leb_spec (4 * (hl + off)) MAX_HDR); [lia|]. by rewrite andb_false_r.
  - intros nobufs room slack rest. unfold sl_muncompress_tcp. rewrite Z.eqb_refl.
    eexists. unfold kbind at 1. rewrite (recv_long _ _ _ p hl off) by (done || lia). cbv zeta. rewrite Hz. reflexivity.
Qed.

Lemma slcomp_unchecked_witness :
  sl_uncompress_tcp (bytes (set_p longest 3)) 120 TYPE_UNCOMPRESSED_TCP sl_compress_init = None.
Proof.
  exact (proj1 (proj1 slcomp_unchecked sl_compress_init (bytes (set_p longest 3)) 3 15 15 init_type eq_refl ltac:(vm_compute; intuition congruence)
    eq_refl eq_refl eq_refl) 120).
Defined.
