(* ===== verification/Ppp.v ===== *)
(** * The point-to-point protocol (sys/net/ppp_fsm.c, ppp_lcp.c, ppp_ipcp.c, ppp_frame.c)

    The automaton of the control protocols, the negotiation of the link and of IP, and the
    frames.  A packet is the list of its bytes, held by one mbuf.  A timer that runs is an
    element of [callouts]: [timeout] adds one, [untimeout] removes one, and the clock takes
    one out to call its handler.  [mb_avail] says which of the coming requests for an mbuf
    succeed (all, when it is empty); M_PREPEND of a packet may be such a request.  A loop
    that does not end is, like a panic, a run the kernel does not survive, and so is an access
    outside a packet or outside the buffer of an option. *)

From stdpp Require Import strings.
From S2P Require Import Prelude.
From S2P Require Import Slcomp.
Local Open Scope kern_scope.

(** ** Data *)

Definition PPP_ADDRESS := 0xff.
Definition PPP_CONTROL := 0x03.
Definition PPP_IP := 0x0021.
Definition PPP_VJC := 0x002d.
Definition PPP_VJNC := 0x002f.
Definition PPP_IPCP := 0x8021.
Definition PPP_LCP := 0xc021.

Definition CP_INITIAL := 0.
Definition CP_STARTING := 1.
Definition CP_CLOSED := 2.
Definition CP_STOPPED := 3.
Definition CP_CLOSING := 4.
Definition CP_STOPPING := 5.
Definition CP_REQSENT := 6.
Definition CP_ACKRCVD := 7.
Definition CP_ACKSENT := 8.
Definition CP_OPENED := 9.

Definition CP_CONF_REQ := 1.
Definition CP_CONF_ACK := 2.
Definition CP_CONF_NAK := 3.
Definition CP_CONF_REJ := 4.
Definition CP_TERM_REQ := 5.
Definition CP_TERM_ACK := 6.
Definition CP_CODE_REJ := 7.
Definition LCP_PROTO_REJ := 8.
Definition LCP_ECHO_REQ := 9.
Definition LCP_ECHO_REPL := 10.
Definition LCP_DISC_REQ := 11.

Definition LCP_OPT_MAXSIZE := 34.
Definition LCP_DFLT_RMU := 1500.
Definition LCP_MIN_RMU := 128.
Definition LCP_MRU := 1.
Definition LCP_ACCM := 2.
Definition LCP_AP := 3.
Definition LCP_QP := 4.
Definition LCP_MAGIC := 5.
Definition LCP_PFC := 7.
Definition LCP_ACFC := 8.
Definition IPCP_ADDRS := 1.
Definition IPCP_CPROT := 2.
Definition IPCP_ADDR := 3.

Definition FLAG_PFC := 0x1.
Definition FLAG_ACFC := 0x2.
Definition FLAG_TCPC := 0x4.
Definition FLAG_FTEL := 0x8.

Definition OPT_OK := 0.
Definition OPT_REJ := 1.
Definition OPT_NAK := 2.
Definition OPT_FATAL := 3.

Definition IFF_UP := 0x1.
Definition IFF_RUNNING := 0x40.
Definition IFF_OACTIVE := 0x400.
Definition HDLCMTU := 1500.
Definition ENOBUFS := 55.
Definition ENETDOWN := 50.
Definition EAFNOSUPPORT := 47.
(** Clock interrupts a second. *)
Definition hz := 100.

(** sys/net/pppvar.h:61-62, [FSM_LCP]: the two protocols of [ppp_fsm_tab]. *)
Inductive fsm : Type := FSM_LCP | FSM_IPCP.

#[export] Instance fsm_eq_dec : EqDecision fsm.
Proof. solve_decision. Defined.

(** sys/net/pppvar.h:26-31, [ppp_fsm]. *)
Record ppp_fsm := PppFsm { fsm_state : Z; fsm_id : Z; fsm_rej : Z; fsm_rc : Z }.

(** sys/net/pppioctl.h:15-23, [ppp_ioctl]. *)
Record ppp_ioctl := PppIoctl {
  ppp_cmap : Z; ppp_mru : Z; ppp_idletime : Z; ppp_flags : Z; ppp_maxconf : Z; ppp_maxterm : Z; ppp_timeout : Z }.

(** The first IP address of the interface, with the address of the other end. *)
Definition ifaddrs : Type := option (Z * option Z).

(** sys/net/if_p2p.h:16-35, [p2pcom]: with its [ppp_sc] (sys/net/pppvar.h:33-58), the timers
    that run, the answers to requests for an mbuf and the seeds of magic numbers;
    [p2p_mdmctl] holds what the modem has been told, when there is one; [if_starts] counts
    the calls of the driver. *)
Record p2pcom := P2pcom {
  if_name : string; if_flags : Z; if_mtu : Z; if_obytes : Z; if_ibytes : Z; if_snd : list (list Z);
  if_maxlen : Z; if_drops : Z; if_starts : Z; p2p_isnd : list (list Z); p2p_ppp_input : bool;
  p2p_mdmctl : option (list Z); ppp_dflt : ppp_ioctl; ppp_params : ppp_ioctl; ppp_txcmap : Z;
  ppp_ticks : Z; ppp_idlecnt : Z; ppp_lcp : ppp_fsm; ppp_magic : Z; ppp_badmagic : Z; ppp_ncps : Z;
  ppp_txflags : Z; ppp_wdrop : Z; ppp_ipcp : ppp_fsm; ppp_ctcp : slcompress;
  ppp_ipdefq : list (list Z); if_addrs : ifaddrs; callouts : list fsm; mb_avail : list bool;
  seeds : list Z; ipintrq : list (list Z); ipq_maxlen : Z; ipq_drops : Z }.

Definition set_name v s := P2pcom v (if_flags s) (if_mtu s) (if_obytes s) (if_ibytes s) (if_snd s)
  (if_maxlen s) (if_drops s) (if_starts s) (p2p_isnd s) (p2p_ppp_input s) (p2p_mdmctl s) (ppp_dflt s)
  (ppp_params s) (ppp_txcmap s) (ppp_ticks s) (ppp_idlecnt s) (ppp_lcp s) (ppp_magic s) (ppp_badmagic s)
  (ppp_ncps s) (ppp_txflags s) (ppp_wdrop s) (ppp_ipcp s) (ppp_ctcp s) (ppp_ipdefq s) (if_addrs s)
  (callouts s) (mb_avail s) (seeds s) (ipintrq s) (ipq_maxlen s) (ipq_drops s).
Definition set_flags v s := P2pcom (if_name s) v (if_mtu s) (if_obytes s) (if_ibytes s) (if_snd s)
  (if_maxlen s) (if_drops s) (if_starts s) (p2p_isnd s) (p2p_ppp_input s) (p2p_mdmctl s) (ppp_dflt s)
  (ppp_params s) (ppp_txcmap s) (ppp_ticks s) (ppp_idlecnt s) (ppp_lcp s) (ppp_magic s) (ppp_badmagic s)
  (ppp_ncps s) (ppp_txflags s) (ppp_wdrop s) (ppp_ipcp s) (ppp_ctcp s) (ppp_ipdefq s) (if_addrs s)
  (callouts s) (mb_avail s) (seeds s) (ipintrq s) (ipq_maxlen s) (ipq_drops s).
Definition set_mtu v s := P2pcom (if_name s) (if_flags s) v (if_obytes s) (if_ibytes s) (if_snd s)
  (if_maxlen s) (if_drops s) (if_starts s) (p2p_isnd s) (p2p_ppp_input s) (p2p_mdmctl s) (ppp_dflt s)
  (ppp_params s) (ppp_txcmap s) (ppp_ticks s) (ppp_idlecnt s) (ppp_lcp s) (ppp_magic s) (ppp_badmagic s)
  (ppp_ncps s) (ppp_txflags s) (ppp_wdrop s) (ppp_ipcp s) (ppp_ctcp s) (ppp_ipdefq s) (if_addrs s)
  (callouts s) (mb_avail s) (seeds s) (ipintrq s) (ipq_maxlen s) (ipq_drops s).
Definition set_obytes v s := P2pcom (if_name s) (if_flags s) (if_mtu s) v (if_ibytes s) (if_snd s)
  (if_maxlen s) (if_drops s) (if_starts s) (p2p_isnd s) (p2p_ppp_input s) (p2p_mdmctl s) (ppp_dflt s)
  (ppp_params s) (ppp_txcmap s) (ppp_ticks s) (ppp_idlecnt s) (ppp_lcp s) (ppp_magic s) (ppp_badmagic s)
  (ppp_ncps s) (ppp_txflags s) (ppp_wdrop s) (ppp_ipcp s) (ppp_ctcp s) (ppp_ipdefq s) (if_addrs s)
  (callouts s) (mb_avail s) (seeds s) (ipintrq s) (ipq_maxlen s) (ipq_drops s).
Definition set_ibytes v s := P2pcom (if_name s) (if_flags s) (if_mtu s) (if_obytes s) v (if_snd s)
  (if_maxlen s) (if_drops s) (if_starts s) (p2p_isnd s) (p2p_ppp_input s) (p2p_mdmctl s) (ppp_dflt s)
  (ppp_params s) (ppp_txcmap s) (ppp_ticks s) (ppp_idlecnt s) (ppp_lcp s) (ppp_magic s) (ppp_badmagic s)
  (ppp_ncps s) (ppp_txflags s) (ppp_wdrop s) (ppp_ipcp s) (ppp_ctcp s) (ppp_ipdefq s) (if_addrs s)
  (callouts s) (mb_avail s) (seeds s) (ipintrq s) (ipq_maxlen s) (ipq_drops s).
Definition set_snd v s := P2pcom (if_name s) (if_flags s) (if_mtu s) (if_obytes s) (if_ibytes s) v
  (if_maxlen s) (if_drops s) (if_starts s) (p2p_isnd s) (p2p_ppp_input s) (p2p_mdmctl s) (ppp_dflt s)
  (ppp_params s) (ppp_txcmap s) (ppp_ticks s) (ppp_idlecnt s) (ppp_lcp s) (ppp_magic s) (ppp_badmagic s)
  (ppp_ncps s) (ppp_txflags s) (ppp_wdrop s) (ppp_ipcp s) (ppp_ctcp s) (ppp_ipdefq s) (if_addrs s)
  (callouts s) (mb_avail s) (seeds s) (ipintrq s) (ipq_maxlen s) (ipq_drops s).
Definition set_maxlen v s := P2pcom (if_name s) (if_flags s) (if_mtu s) (if_obytes s) (if_ibytes s)
  (if_snd s) v (if_drops s) (if_starts s) (p2p_isnd s) (p2p_ppp_input s) (p2p_mdmctl s) (ppp_dflt s)
  (ppp_params s) (ppp_txcmap s) (ppp_ticks s) (ppp_idlecnt s) (ppp_lcp s) (ppp_magic s) (ppp_badmagic s)
  (ppp_ncps s) (ppp_txflags s) (ppp_wdrop s) (ppp_ipcp s) (ppp_ctcp s) (ppp_ipdefq s) (if_addrs s)
  (callouts s) (mb_avail s) (seeds s) (ipintrq s) (ipq_maxlen s) (ipq_drops s).
Definition set_drops v s := P2pcom (if_name s) (if_flags s) (if_mtu s) (if_obytes s) (if_ibytes s)
  (if_snd s) (if_maxlen s) v (if_starts s) (p2p_isnd s) (p2p_ppp_input s) (p2p_mdmctl s) (ppp_dflt s)
  (ppp_params s) (ppp_txcmap s) (ppp_ticks s) (ppp_idlecnt s) (ppp_lcp s) (ppp_magic s) (ppp_badmagic s)
  (ppp_ncps s) (ppp_txflags s) (ppp_wdrop s) (ppp_ipcp s) (ppp_ctcp s) (ppp_ipdefq s) (if_addrs s)
  (callouts s) (mb_avail s) (seeds s) (ipintrq s) (ipq_maxlen s) (ipq_drops s).
Definition set_starts v s := P2pcom (if_name s) (if_flags s) (if_mtu s) (if_obytes s) (if_ibytes s)
  (if_snd s) (if_maxlen s) (if_drops s) v (p2p_isnd s) (p2p_ppp_input s) (p2p_mdmctl s) (ppp_dflt s)
  (ppp_params s) (ppp_txcmap s) (ppp_ticks s) (ppp_idlecnt s) (ppp_lcp s) (ppp_magic s) (ppp_badmagic s)
  (ppp_ncps s) (ppp_txflags s) (ppp_wdrop s) (ppp_ipcp s) (ppp_ctcp s) (ppp_ipdefq s) (if_addrs s)
  (callouts s) (mb_avail s) (seeds s) (ipintrq s) (ipq_maxlen s) (ipq_drops s).
Definition set_isnd v s := P2pcom (if_name s) (if_flags s) (if_mtu s) (if_obytes s) (if_ibytes s) (if_snd s)
  (if_maxlen s) (if_drops s) (if_starts s) v (p2p_ppp_input s) (p2p_mdmctl s) (ppp_dflt s) (ppp_params s)
  (ppp_txcmap s) (ppp_ticks s) (ppp_idlecnt s) (ppp_lcp s) (ppp_magic s) (ppp_badmagic s) (ppp_ncps s)
  (ppp_txflags s) (ppp_wdrop s) (ppp_ipcp s) (ppp_ctcp s) (ppp_ipdefq s) (if_addrs s) (callouts s)
  (mb_avail s) (seeds s) (ipintrq s) (ipq_maxlen s) (ipq_drops s).
Definition set_input v s := P2pcom (if_name s) (if_flags s) (if_mtu s) (if_obytes s) (if_ibytes s)
  (if_snd s) (if_maxlen s) (if_drops s) (if_starts s) (p2p_isnd s) v (p2p_mdmctl s) (ppp_dflt s)
  (ppp_params s) (ppp_txcmap s) (ppp_ticks s) (ppp_idlecnt s) (ppp_lcp s) (ppp_magic s) (ppp_badmagic s)
  (ppp_ncps s) (ppp_txflags s) (ppp_wdrop s) (ppp_ipcp s) (ppp_ctcp s) (ppp_ipdefq s) (if_addrs s)
  (callouts s) (mb_avail s) (seeds s) (ipintrq s) (ipq_maxlen s) (ipq_drops s).
Definition set_mdmctl v s := P2pcom (if_name s) (if_flags s) (if_mtu s) (if_obytes s) (if_ibytes s)
  (if_snd s) (if_maxlen s) (if_drops s) (if_starts s) (p2p_isnd s) (p2p_ppp_input s) v (ppp_dflt s)
  (ppp_params s) (ppp_txcmap s) (ppp_ticks s) (ppp_idlecnt s) (ppp_lcp s) (ppp_magic s) (ppp_badmagic s)
  (ppp_ncps s) (ppp_txflags s) (ppp_wdrop s) (ppp_ipcp s) (ppp_ctcp s) (ppp_ipdefq s) (if_addrs s)
  (callouts s) (mb_avail s) (seeds s) (ipintrq s) (ipq_maxlen s) (ipq_drops s).
Definition set_dflt v s := P2pcom (if_name s) (if_flags s) (if_mtu s) (if_obytes s) (if_ibytes s) (if_snd s)
  (if_maxlen s) (if_drops s) (if_starts s) (p2p_isnd s) (p2p_ppp_input s) (p2p_mdmctl s) v (ppp_params s)
  (ppp_txcmap s) (ppp_ticks s) (ppp_idlecnt s) (ppp_lcp s) (ppp_magic s) (ppp_badmagic s) (ppp_ncps s)
  (ppp_txflags s) (ppp_wdrop s) (ppp_ipcp s) (ppp_ctcp s) (ppp_ipdefq s) (if_addrs s) (callouts s)
  (mb_avail s) (seeds s) (ipintrq s) (ipq_maxlen s) (ipq_drops s).
Definition set_params v s := P2pcom (if_name s) (if_flags s) (if_mtu s) (if_obytes s) (if_ibytes s)
  (if_snd s) (if_maxlen s) (if_drops s) (if_starts s) (p2p_isnd s) (p2p_ppp_input s) (p2p_mdmctl s)
  (ppp_dflt s) v (ppp_txcmap s) (ppp_ticks s) (ppp_idlecnt s) (ppp_lcp s) (ppp_magic s) (ppp_badmagic s)
  (ppp_ncps s) (ppp_txflags s) (ppp_wdrop s) (ppp_ipcp s) (ppp_ctcp s) (ppp_ipdefq s) (if_addrs s)
  (callouts s) (mb_avail s) (seeds s) (ipintrq s) (ipq_maxlen s) (ipq_drops s).
Definition set_txcmap v s := P2pcom (if_name s) (if_flags s) (if_mtu s) (if_obytes s) (if_ibytes s)
  (if_snd s) (if_maxlen s) (if_drops s) (if_starts s) (p2p_isnd s) (p2p_ppp_input s) (p2p_mdmctl s)
  (ppp_dflt s) (ppp_params s) v (ppp_ticks s) (ppp_idlecnt s) (ppp_lcp s) (ppp_magic s) (ppp_badmagic s)
  (ppp_ncps s) (ppp_txflags s) (ppp_wdrop s) (ppp_ipcp s) (ppp_ctcp s) (ppp_ipdefq s) (if_addrs s)
  (callouts s) (mb_avail s) (seeds s) (ipintrq s) (ipq_maxlen s) (ipq_drops s).
Definition set_ticks v s := P2pcom (if_name s) (if_flags s) (if_mtu s) (if_obytes s) (if_ibytes s)
  (if_snd s) (if_maxlen s) (if_drops s) (if_starts s) (p2p_isnd s) (p2p_ppp_input s) (p2p_mdmctl s)
  (ppp_dflt s) (ppp_params s) (ppp_txcmap s) v (ppp_idlecnt s) (ppp_lcp s) (ppp_magic s) (ppp_badmagic s)
  (ppp_ncps s) (ppp_txflags s) (ppp_wdrop s) (ppp_ipcp s) (ppp_ctcp s) (ppp_ipdefq s) (if_addrs s)
  (callouts s) (mb_avail s) (seeds s) (ipintrq s) (ipq_maxlen s) (ipq_drops s).
Definition set_idlecnt v s := P2pcom (if_name s) (if_flags s) (if_mtu s) (if_obytes s) (if_ibytes s)
  (if_snd s) (if_maxlen s) (if_drops s) (if_starts s) (p2p_isnd s) (p2p_ppp_input s) (p2p_mdmctl s)
  (ppp_dflt s) (ppp_params s) (ppp_txcmap s) (ppp_ticks s) v (ppp_lcp s) (ppp_magic s) (ppp_badmagic s)
  (ppp_ncps s) (ppp_txflags s) (ppp_wdrop s) (ppp_ipcp s) (ppp_ctcp s) (ppp_ipdefq s) (if_addrs s)
  (callouts s) (mb_avail s) (seeds s) (ipintrq s) (ipq_maxlen s) (ipq_drops s).
Definition set_lcp v s := P2pcom (if_name s) (if_flags s) (if_mtu s) (if_obytes s) (if_ibytes s) (if_snd s)
  (if_maxlen s) (if_drops s) (if_starts s) (p2p_isnd s) (p2p_ppp_input s) (p2p_mdmctl s) (ppp_dflt s)
  (ppp_params s) (ppp_txcmap s) (ppp_ticks s) (ppp_idlecnt s) v (ppp_magic s) (ppp_badmagic s) (ppp_ncps s)
  (ppp_txflags s) (ppp_wdrop s) (ppp_ipcp s) (ppp_ctcp s) (ppp_ipdefq s) (if_addrs s) (callouts s)
  (mb_avail s) (seeds s) (ipintrq s) (ipq_maxlen s) (ipq_drops s).
Definition set_magic v s := P2pcom (if_name s) (if_flags s) (if_mtu s) (if_obytes s) (if_ibytes s)
  (if_snd s) (if_maxlen s) (if_drops s) (if_starts s) (p2p_isnd s) (p2p_ppp_input s) (p2p_mdmctl s)
  (ppp_dflt s) (ppp_params s) (ppp_txcmap s) (ppp_ticks s) (ppp_idlecnt s) (ppp_lcp s) v (ppp_badmagic s)
  (ppp_ncps s) (ppp_txflags s) (ppp_wdrop s) (ppp_ipcp s) (ppp_ctcp s) (ppp_ipdefq s) (if_addrs s)
  (callouts s) (mb_avail s) (seeds s) (ipintrq s) (ipq_maxlen s) (ipq_drops s).
Definition set_badmagic v s := P2pcom (if_name s) (if_flags s) (if_mtu s) (if_obytes s) (if_ibytes s)
  (if_snd s) (if_maxlen s) (if_drops s) (if_starts s) (p2p_isnd s) (p2p_ppp_input s) (p2p_mdmctl s)
  (ppp_dflt s) (ppp_params s) (ppp_txcmap s) (ppp_ticks s) (ppp_idlecnt s) (ppp_lcp s) (ppp_magic s) v
  (ppp_ncps s) (ppp_txflags s) (ppp_wdrop s) (ppp_ipcp s) (ppp_ctcp s) (ppp_ipdefq s) (if_addrs s)
  (callouts s) (mb_avail s) (seeds s) (ipintrq s) (ipq_maxlen s) (ipq_drops s).
Definition set_ncps v s := P2pcom (if_name s) (if_flags s) (if_mtu s) (if_obytes s) (if_ibytes s) (if_snd s)
  (if_maxlen s) (if_drops s) (if_starts s) (p2p_isnd s) (p2p_ppp_input s) (p2p_mdmctl s) (ppp_dflt s)
  (ppp_params s) (ppp_txcmap s) (ppp_ticks s) (ppp_idlecnt s) (ppp_lcp s) (ppp_magic s) (ppp_badmagic s) v
  (ppp_txflags s) (ppp_wdrop s) (ppp_ipcp s) (ppp_ctcp s) (ppp_ipdefq s) (if_addrs s) (callouts s)
  (mb_avail s) (seeds s) (ipintrq s) (ipq_maxlen s) (ipq_drops s).
Definition set_txflags v s := P2pcom (if_name s) (if_flags s) (if_mtu s) (if_obytes s) (if_ibytes s)
  (if_snd s) (if_maxlen s) (if_drops s) (if_starts s) (p2p_isnd s) (p2p_ppp_input s) (p2p_mdmctl s)
  (ppp_dflt s) (ppp_params s) (ppp_txcmap s) (ppp_ticks s) (ppp_idlecnt s) (ppp_lcp s) (ppp_magic s)
  (ppp_badmagic s) (ppp_ncps s) v (ppp_wdrop s) (ppp_ipcp s) (ppp_ctcp s) (ppp_ipdefq s) (if_addrs s)
  (callouts s) (mb_avail s) (seeds s) (ipintrq s) (ipq_maxlen s) (ipq_drops s).
Definition set_wdrop v s := P2pcom (if_name s) (if_flags s) (if_mtu s) (if_obytes s) (if_ibytes s)
  (if_snd s) (if_maxlen s) (if_drops s) (if_starts s) (p2p_isnd s) (p2p_ppp_input s) (p2p_mdmctl s)
  (ppp_dflt s) (ppp_params s) (ppp_txcmap s) (ppp_ticks s) (ppp_idlecnt s) (ppp_lcp s) (ppp_magic s)
  (ppp_badmagic s) (ppp_ncps s) (ppp_txflags s) v (ppp_ipcp s) (ppp_ctcp s) (ppp_ipdefq s) (if_addrs s)
  (callouts s) (mb_avail s) (seeds s) (ipintrq s) (ipq_maxlen s) (ipq_drops s).
Definition set_ipcp v s := P2pcom (if_name s) (if_flags s) (if_mtu s) (if_obytes s) (if_ibytes s) (if_snd s)
  (if_maxlen s) (if_drops s) (if_starts s) (p2p_isnd s) (p2p_ppp_input s) (p2p_mdmctl s) (ppp_dflt s)
  (ppp_params s) (ppp_txcmap s) (ppp_ticks s) (ppp_idlecnt s) (ppp_lcp s) (ppp_magic s) (ppp_badmagic s)
  (ppp_ncps s) (ppp_txflags s) (ppp_wdrop s) v (ppp_ctcp s) (ppp_ipdefq s) (if_addrs s) (callouts s)
  (mb_avail s) (seeds s) (ipintrq s) (ipq_maxlen s) (ipq_drops s).
Definition set_ctcp v s := P2pcom (if_name s) (if_flags s) (if_mtu s) (if_obytes s) (if_ibytes s) (if_snd s)
  (if_maxlen s) (if_drops s) (if_starts s) (p2p_isnd s) (p2p_ppp_input s) (p2p_mdmctl s) (ppp_dflt s)
  (ppp_params s) (ppp_txcmap s) (ppp_ticks s) (ppp_idlecnt s) (ppp_lcp s) (ppp_magic s) (ppp_badmagic s)
  (ppp_ncps s) (ppp_txflags s) (ppp_wdrop s) (ppp_ipcp s) v (ppp_ipdefq s) (if_addrs s) (callouts s)
  (mb_avail s) (seeds s) (ipintrq s) (ipq_maxlen s) (ipq_drops s).
Definition set_ipdefq v s := P2pcom (if_name s) (if_flags s) (if_mtu s) (if_obytes s) (if_ibytes s)
  (if_snd s) (if_maxlen s) (if_drops s) (if_starts s) (p2p_isnd s) (p2p_ppp_input s) (p2p_mdmctl s)
  (ppp_dflt s) (ppp_params s) (ppp_txcmap s) (ppp_ticks s) (ppp_idlecnt s) (ppp_lcp s) (ppp_magic s)
  (ppp_badmagic s) (ppp_ncps s) (ppp_txflags s) (ppp_wdrop s) (ppp_ipcp s) (ppp_ctcp s) v (if_addrs s)
  (callouts s) (mb_avail s) (seeds s) (ipintrq s) (ipq_maxlen s) (ipq_drops s).
Definition set_addrs v s := P2pcom (if_name s) (if_flags s) (if_mtu s) (if_obytes s) (if_ibytes s)
  (if_snd s) (if_maxlen s) (if_drops s) (if_starts s) (p2p_isnd s) (p2p_ppp_input s) (p2p_mdmctl s)
  (ppp_dflt s) (ppp_params s) (ppp_txcmap s) (ppp_ticks s) (ppp_idlecnt s) (ppp_lcp s) (ppp_magic s)
  (ppp_badmagic s) (ppp_ncps s) (ppp_txflags s) (ppp_wdrop s) (ppp_ipcp s) (ppp_ctcp s) (ppp_ipdefq s) v
  (callouts s) (mb_avail s) (seeds s) (ipintrq s) (ipq_maxlen s) (ipq_drops s).
Definition set_callouts v s := P2pcom (if_name s) (if_flags s) (if_mtu s) (if_obytes s) (if_ibytes s)
  (if_snd s) (if_maxlen s) (if_drops s) (if_starts s) (p2p_isnd s) (p2p_ppp_input s) (p2p_mdmctl s)
  (ppp_dflt s) (ppp_params s) (ppp_txcmap s) (ppp_ticks s) (ppp_idlecnt s) (ppp_lcp s) (ppp_magic s)
  (ppp_badmagic s) (ppp_ncps s) (ppp_txflags s) (ppp_wdrop s) (ppp_ipcp s) (ppp_ctcp s) (ppp_ipdefq s)
  (if_addrs s) v (mb_avail s) (seeds s) (ipintrq s) (ipq_maxlen s) (ipq_drops s).
Definition set_mb_avail v s := P2pcom (if_name s) (if_flags s) (if_mtu s) (if_obytes s) (if_ibytes s)
  (if_snd s) (if_maxlen s) (if_drops s) (if_starts s) (p2p_isnd s) (p2p_ppp_input s) (p2p_mdmctl s)
  (ppp_dflt s) (ppp_params s) (ppp_txcmap s) (ppp_ticks s) (ppp_idlecnt s) (ppp_lcp s) (ppp_magic s)
  (ppp_badmagic s) (ppp_ncps s) (ppp_txflags s) (ppp_wdrop s) (ppp_ipcp s) (ppp_ctcp s) (ppp_ipdefq s)
  (if_addrs s) (callouts s) v (seeds s) (ipintrq s) (ipq_maxlen s) (ipq_drops s).
Definition set_seeds v s := P2pcom (if_name s) (if_flags s) (if_mtu s) (if_obytes s) (if_ibytes s)
  (if_snd s) (if_maxlen s) (if_drops s) (if_starts s) (p2p_isnd s) (p2p_ppp_input s) (p2p_mdmctl s)
  (ppp_dflt s) (ppp_params s) (ppp_txcmap s) (ppp_ticks s) (ppp_idlecnt s) (ppp_lcp s) (ppp_magic s)
  (ppp_badmagic s) (ppp_ncps s) (ppp_txflags s) (ppp_wdrop s) (ppp_ipcp s) (ppp_ctcp s) (ppp_ipdefq s)
  (if_addrs s) (callouts s) (mb_avail s) v (ipintrq s) (ipq_maxlen s) (ipq_drops s).
Definition set_ipintrq v s := P2pcom (if_name s) (if_flags s) (if_mtu s) (if_obytes s) (if_ibytes s)
  (if_snd s) (if_maxlen s) (if_drops s) (if_starts s) (p2p_isnd s) (p2p_ppp_input s) (p2p_mdmctl s)
  (ppp_dflt s) (ppp_params s) (ppp_txcmap s) (ppp_ticks s) (ppp_idlecnt s) (ppp_lcp s) (ppp_magic s)
  (ppp_badmagic s) (ppp_ncps s) (ppp_txflags s) (ppp_wdrop s) (ppp_ipcp s) (ppp_ctcp s) (ppp_ipdefq s)
  (if_addrs s) (callouts s) (mb_avail s) (seeds s) v (ipq_maxlen s) (ipq_drops s).
Definition set_ipq_maxlen v s := P2pcom (if_name s) (if_flags s) (if_mtu s) (if_obytes s) (if_ibytes s)
  (if_snd s) (if_maxlen s) (if_drops s) (if_starts s) (p2p_isnd s) (p2p_ppp_input s) (p2p_mdmctl s)
  (ppp_dflt s) (ppp_params s) (ppp_txcmap s) (ppp_ticks s) (ppp_idlecnt s) (ppp_lcp s) (ppp_magic s)
  (ppp_badmagic s) (ppp_ncps s) (ppp_txflags s) (ppp_wdrop s) (ppp_ipcp s) (ppp_ctcp s) (ppp_ipdefq s)
  (if_addrs s) (callouts s) (mb_avail s) (seeds s) (ipintrq s) v (ipq_drops s).
Definition set_ipq_drops v s := P2pcom (if_name s) (if_flags s) (if_mtu s) (if_obytes s) (if_ibytes s)
  (if_snd s) (if_maxlen s) (if_drops s) (if_starts s) (p2p_isnd s) (p2p_ppp_input s) (p2p_mdmctl s)
  (ppp_dflt s) (ppp_params s) (ppp_txcmap s) (ppp_ticks s) (ppp_idlecnt s) (ppp_lcp s) (ppp_magic s)
  (ppp_badmagic s) (ppp_ncps s) (ppp_txflags s) (ppp_wdrop s) (ppp_ipcp s) (ppp_ctcp s) (ppp_ipdefq s)
  (if_addrs s) (callouts s) (mb_avail s) (seeds s) (ipintrq s) (ipq_maxlen s) v.

Definition with_state v x := PppFsm v (fsm_id x) (fsm_rej x) (fsm_rc x).
Definition with_id v x := PppFsm (fsm_state x) v (fsm_rej x) (fsm_rc x).
Definition with_rej v x := PppFsm (fsm_state x) (fsm_id x) v (fsm_rc x).
Definition with_rc v x := PppFsm (fsm_state x) (fsm_id x) (fsm_rej x) v.

Definition with_cmap v p := PppIoctl v (ppp_mru p) (ppp_idletime p) (ppp_flags p) (ppp_maxconf p) (ppp_maxterm p) (ppp_timeout p).
Definition with_mru v p := PppIoctl (ppp_cmap p) v (ppp_idletime p) (ppp_flags p) (ppp_maxconf p) (ppp_maxterm p) (ppp_timeout p).
Definition with_pflags v p := PppIoctl (ppp_cmap p) (ppp_mru p) (ppp_idletime p) v (ppp_maxconf p) (ppp_maxterm p) (ppp_timeout p).

(** sys/net/ppp_fsm.c:94-132, [ppp_fsm_tab]: the protocol number and the state of an automaton;
    the other columns are the functions below that take an [fsm]. *)
Definition ft_type (f : fsm) : Z := match f with FSM_LCP => PPP_LCP | FSM_IPCP => PPP_IPCP end.
Definition get_fs (f : fsm) (s : p2pcom) : ppp_fsm := match f with FSM_LCP => ppp_lcp s | FSM_IPCP => ppp_ipcp s end.
Definition set_fs (f : fsm) (x : ppp_fsm) (s : p2pcom) : p2pcom :=
  match f with FSM_LCP => set_lcp x s | FSM_IPCP => set_ipcp x s end.

Abbreviation M := (K p2pcom).

Definition fs_state (f : fsm) : M Z := kgets (fun s => fsm_state (get_fs f s)).
Definition fs_mod (f : fsm) (g : ppp_fsm -> ppp_fsm) : M unit := kmod (fun s => set_fs f (g (get_fs f s)) s).
(** sys/net/ppp_fsm.c:69-69, [newstate]. *)
Definition newstate (f : fsm) (st : Z) : M unit := fs_mod f (with_state st).

(** [timeout(ft->ft_timeout, pp, pp->Ppp_ticks)] and [untimeout(ft->ft_timeout, pp)]. *)
Definition start_timer (f : fsm) : M unit := kmod (fun s => set_callouts (callouts s ++ [f]) s).
Fixpoint remove_one (f : fsm) (l : list fsm) : list fsm :=
  match l with [] => [] | g :: l => if decide (g = f) then l else g :: remove_one f l end.
Definition stop_timer (f : fsm) : M unit := kmod (fun s => set_callouts (remove_one f (callouts s)) s).

(** Is an mbuf to be had. *)
Definition mget : M bool := fun s =>
  match mb_avail s with [] => Some (true, s) | b :: l => Some (b, set_mb_avail l s) end.

(** ** Packets *)

(** sys/net/if_p2p.h:46-47, [IF_QFULL2]. *)
Definition qfull2 (s : p2pcom) : bool := if_maxlen s <=? zlen (if_snd s) + zlen (p2p_isnd s).

(** [if ((if_flags & IFF_OACTIVE) == 0) ( *if_start)(ifp)]. *)
Definition start_output : M unit :=
  kmod (fun s => set_starts (if flag_set (if_flags s) IFF_OACTIVE then if_starts s else if_starts s + 1) s).

(** sys/net/ppp_fsm.c:673-682, [ppp_cp_in]: queue [m] on [p2p_isnd] or, without [fast], on
    [if_snd]; the bytes of [counted] are added to [if_obytes]. *)
Definition ppp_queue (fast : bool) (counted m : list Z) : M unit :=
  let! s := kget in
  if qfull2 s then kmod (set_drops (if_drops s + 1))
  else
    do! kmod (set_obytes (if_obytes s + zlen counted)) in
    do! kmod (if fast then set_isnd (p2p_isnd s ++ [m]) else set_snd (if_snd s ++ [m])) in
    start_output.

(** sys/net/ppp_fsm.c:670-682, [ppp_cp_in]: the end of the function, [sendout]. *)
Definition sendout (m : option (list Z)) : M unit :=
  match m with None => kret tt | Some m => ppp_queue true m m end.

(** sys/net/ppp_fsm.c:137-167, [ppp_cp_prepend]: [None] is a null [m]; the first request for an
    mbuf is not tested.  The [xlen] bytes after the header are left to the caller. *)
Definition ppp_cp_prepend (m : option (list Z)) (type code id xlen : Z) : M (option (list Z)) :=
  let! ok := mget in
  let out b := [PPP_ADDRESS; PPP_CONTROL; type / 256; type mod 256; code; id;
                u16 (4 + xlen + zlen b) / 256; u16 (4 + xlen + zlen b) mod 256] ++ replicate (Z.to_nat xlen) 0 ++ b in
  match m with
  | None => if ok then kret (Some (out [])) else kpanic
  | Some b => if ok then kret (Some (out b)) else kret None
  end.

Definition po_type := 0.
Definition po_len := 1.
Definition po_data := 2.

(** sys/net/ppp_fsm.c:172-205, [ppp_addopt]: [opt] is the buffer of 34 bytes.  The second mbuf,
    taken when the first is full, has no [m_len]; and an option longer than the buffer is
    copied from beyond it. *)
Definition ppp_addopt (m0 : option (list Z)) (opt : list Z) : M (option (list Z)) :=
  let! n := knonnull (get8 opt po_len) in
  let! m0 := match m0 with
             | Some b => kret (Some b)
             | None => let! ok := mget in kret (if ok then Some [] else None)
             end in
  match m0 with
  | None => kret None
  | Some b =>
    if 108 <=? zlen b + n + 16 then
      let! ok := mget in if ok then kpanic else kret None
    else if LCP_OPT_MAXSIZE <? n then kpanic
    else kret (Some (b ++ take (Z.to_nat n) opt))
  end.

(** [m_copydata(m, off, n, p)] into a buffer. *)
Definition m_copydata (m : list Z) (off n : Z) (buf : list Z) : option (list Z) :=
  match slice m off n with Some d => Some (d ++ drop (Z.to_nat n) buf) | None => None end.

(** The mbuf in which the driver hands on a frame: whether it leaves room for headers before the
    frame, and what follows the frame. *)
Record rbuffer := Rbuffer { rb_room : bool; rb_slack : list Z }.

Section Ppp.
(** What a function declared [int] returns when it ends without [return]; what [in_control]
    makes of the addresses of the interface when it sets that of the other end ([true]) or
    its own; what the kernel stack holds where an option is read to; the mbufs of the
    frames that come in. *)
Context (undef : Z) (in_control : bool -> Z -> ifaddrs -> ifaddrs) (stack : list Z) (rbuf : rbuffer).

(** ** IP control protocol *)

(** sys/net/ppp_ipcp.c:335-354, [ppp_ipcp_getaddr]. *)
Definition ppp_ipcp_getaddr (dst : bool) (s : p2pcom) : Z :=
  match if_addrs s with
  | None => 0
  | Some (own, other) => if dst then match other with Some a => a | None => 0 end else own
  end.

(** sys/net/ppp_ipcp.c:359-377, [ppp_ipcp_setaddr]. *)
Definition ppp_ipcp_setaddr (a : Z) (dst : bool) : M unit :=
  kmod (fun s => set_addrs (in_control dst a (if_addrs s)) s).

(** [!(fsm_rej & (1 << type))]. *)
Definition not_rejected (f : fsm) (type : Z) (s : p2pcom) : bool := negb (Z.testbit (fsm_rej (get_fs f s)) type).

Definition opt_bytes (type : Z) (data : list Z) : list Z :=
  let b := [type; 2 + zlen data] ++ data in b ++ drop (length b) stack.

Definition be16 (v : Z) : list Z := [v / 256; v mod 256].
Definition be32 (v : Z) : list Z := be16 (v / 65536) ++ be16 (v mod 65536).

(** An option, when the request is to have it. *)
Definition add_if (b : bool) (m : option (list Z)) (type : Z) (data : list Z) : M (option (list Z)) :=
  if b then ppp_addopt m (opt_bytes type data) else kret m.

(** [++fsm_id]. *)
Definition next_cp_id (f : fsm) : M Z :=
  do! fs_mod f (fun x => with_id (u8 (fsm_id x + 1)) x) in
  kgets (fun s => fsm_id (get_fs f s)).

(** sys/net/ppp_ipcp.c:113-150, [ppp_ipcp_creq]. *)
Definition ppp_ipcp_creq : M (option (list Z)) :=
  let! s := kget in
  let! m := add_if (not_rejected FSM_IPCP IPCP_CPROT s && flag_set (ppp_flags (ppp_params s)) FLAG_TCPC) None
              IPCP_CPROT (be16 PPP_VJC ++ [MAX_STATES - 1; 0]) in
  let! m := add_if (not_rejected FSM_IPCP IPCP_ADDR s) m IPCP_ADDR (be32 (ppp_ipcp_getaddr false s)) in
  let! id := next_cp_id FSM_IPCP in
  ppp_cp_prepend m PPP_IPCP CP_CONF_REQ id 0.

Definition clear_flag (v : Z) : M unit :=
  kmod (fun s => set_params (with_pflags (Z.ldiff (ppp_flags (ppp_params s)) v) (ppp_params s)) s).

(** sys/net/ppp_ipcp.c:155-171, [ppp_ipcp_optrej]. *)
Definition ppp_ipcp_optrej (opt : list Z) : M unit :=
  let! t := knonnull (get8 opt po_type) in
  if t =? IPCP_CPROT then clear_flag FLAG_TCPC else kret tt.

(** ** Line control protocol *)

(** sys/net/ppp_lcp.c:619-627, [ppp_lcp_magic]. *)
Definition ppp_lcp_magic : M Z := fun s =>
  match seeds s with
  | [] => Some (0, s)
  | l :: r => Some (u32 (l * 1192721), set_seeds r s)
  end.

(** sys/net/ppp_lcp.c:307-364, [ppp_lcp_creq]. *)
Definition ppp_lcp_creq : M (option (list Z)) :=
  let! s := kget in
  let p := ppp_params s in
  let! m := add_if (not_rejected FSM_LCP LCP_MRU s) None LCP_MRU (be16 (ppp_mru p)) in
  let! m := add_if (not_rejected FSM_LCP LCP_ACCM s) m LCP_ACCM (be32 (ppp_cmap p)) in
  let! m := add_if (not_rejected FSM_LCP LCP_MAGIC s) m LCP_MAGIC (be32 (ppp_magic s)) in
  let! m := add_if (not_rejected FSM_LCP LCP_PFC s && flag_set (ppp_flags p) FLAG_PFC) m LCP_PFC [] in
  let! m := add_if (not_rejected FSM_LCP LCP_ACFC s && flag_set (ppp_flags p) FLAG_ACFC) m LCP_ACFC [] in
  let! id := next_cp_id FSM_LCP in
  ppp_cp_prepend m PPP_LCP CP_CONF_REQ id 0.

(** sys/net/ppp_lcp.c:369-398, [ppp_lcp_optrej]. *)
Definition ppp_lcp_optrej (opt : list Z) : M unit :=
  let! t := knonnull (get8 opt po_type) in
  if t =? LCP_MRU then kmod (fun s => set_params (with_mru HDLCMTU (ppp_params s)) s)
  else if t =? LCP_PFC then clear_flag FLAG_PFC
  else if t =? LCP_ACFC then clear_flag FLAG_ACFC
  else kret tt.

(** sys/net/ppp_lcp.c:403-434, [ppp_lcp_optnak]. *)
Definition ppp_lcp_optnak (opt : list Z) : M unit :=
  let! t := knonnull (get8 opt po_type) in
  if t =? LCP_MRU then
    let! v := knonnull (get16 opt po_data) in
    kmod (fun s => set_params (with_mru v (ppp_params s)) s)
  else if t =? LCP_ACCM then
    let! v := knonnull (get32 opt po_data) in
    kmod (fun s => set_params (with_cmap (Z.lor (ppp_cmap (ppp_params s)) v) (ppp_params s)) s)
  else if t =? LCP_MAGIC then
    let! v := knonnull (get32 opt po_data) in
    let! s := kget in
    if ppp_magic s =? v then let! n := ppp_lcp_magic in kmod (set_magic n) else kret tt
  else kret tt.

Definition set_txflag (v : Z) : M unit := kmod (fun s => set_txflags (Z.lor (ppp_txflags s) v) s).

(** sys/net/ppp_lcp.c:439-528, [ppp_lcp_opt]: the verdict and the option, as the function leaves
    it.  The case of [LCP_PFC] that accepts the option ends without [return]. *)
Definition ppp_lcp_opt (opt : list Z) : M (Z * list Z) :=
  let! t := knonnull (get8 opt po_type) in
  let! n := knonnull (get8 opt po_len) in
  let! s := kget in
  let flags := ppp_flags (ppp_params s) in
  if t =? LCP_MRU then
    if negb (n =? 4) then kret (OPT_REJ, opt) else
    let! v := knonnull (get16 opt po_data) in
    let v := s16 v in
    do! kmod (set_mtu v) in
    if v <? LCP_MIN_RMU then kret (OPT_NAK, put16 opt po_data LCP_MIN_RMU) else kret (OPT_OK, opt)
  else if t =? LCP_ACCM then
    if negb (n =? 6) then kret (OPT_REJ, opt) else
    let! mask := knonnull (get32 opt po_data) in
    let cmap := ppp_cmap (ppp_params s) in
    if negb (Z.ldiff cmap mask =? 0) then kret (OPT_NAK, put32 opt po_data (Z.lor mask cmap)) else
    do! kmod (set_params (with_cmap mask (ppp_params s))) in
    kret (OPT_OK, opt)
  else if t =? LCP_MAGIC then
    if negb (n =? 6) then kret (OPT_REJ, opt) else
    let! mask := knonnull (get32 opt po_data) in
    if (ppp_magic s =? mask) || (mask =? 0) then
      do! kmod (set_badmagic (u8 (ppp_badmagic s + 1))) in
      if 3 <=? ppp_badmagic s then kret (OPT_FATAL, opt) else
      let! v := ppp_lcp_magic in
      do! kmod (set_magic v) in
      kret (OPT_NAK, put32 opt po_data v)
    else kret (OPT_OK, opt)
  else if t =? LCP_PFC then
    if negb (n =? 2) || negb (flag_set flags FLAG_PFC) then kret (OPT_REJ, opt) else
    do! set_txflag FLAG_PFC in
    kret (undef, opt)
  else if t =? LCP_ACFC then
    if negb (n =? 2) || negb (flag_set flags FLAG_ACFC) then kret (OPT_REJ, opt) else
    do! set_txflag FLAG_ACFC in
    kret (OPT_OK, opt)
  else kret (OPT_REJ, opt).

(** sys/net/ppp_lcp.c:533-541, [ppp_lcp_tlf]. *)
Definition ppp_lcp_tlf : M unit :=
  do! kmod (fun s => set_flags (Z.ldiff (if_flags s) IFF_RUNNING) s) in
  kmod (fun s => match p2p_mdmctl s with Some l => set_mdmctl (Some (l ++ [0])) s | None => s end).

(** ** Output of datagrams *)

Definition AF_INET := 2.
Definition IPTOS_LOWDELAY := 0x10.

(** sys/net/ppp_frame.c:80-84, [INTERACTIVE]. *)
Definition interactive_ports : list Z := [0; 513; 0; 0; 0; 21; 0; 23].
Definition INTERACTIVE (p : Z) : bool :=
  match znth interactive_ports (Z.land p 7) with Some q => q =? p | None => false end.

(** sys/net/ppp_frame.c:117-142, [ppp_output]: the protocol of IP is not up; the packet may be
    kept for later, at most 11 are, and a process that waits for one is woken. *)
Definition ppp_defer (m : list Z) : M Z :=
  let! s := kget in
  if (fsm_state (ppp_ipcp s) =? CP_CLOSED) || (fsm_state (ppp_ipcp s) =? CP_CLOSING) then kret EAFNOSUPPORT else
  do! (if ztrue (ppp_wdrop s) || (0 <? zlen (ppp_ipdefq s)) then
         kmod (set_ipdefq ((if 10 <? zlen (ppp_ipdefq s) then drop 1 (ppp_ipdefq s) else ppp_ipdefq s) ++ [m]))
       else kret tt) in
  do! kmod (set_wdrop 0) in
  kret 0.

(** sys/net/ppp_frame.c:145-160, [ppp_output]: does the packet go to the priority queue. *)
Definition ppp_interactive (m : list Z) (s : p2pcom) : option bool :=
  match get8 m 1, get8 m IP_P, get16 m IP_OFF, ip_hl m with
  | Some tos, Some p, Some off, Some hl =>
    if tos =? IPTOS_LOWDELAY then Some true
    else if (p =? IPPROTO_TCP) && (off =? 0) && flag_set (ppp_flags (ppp_dflt s)) FLAG_FTEL then
      match get16 m (4 * hl), get16 m (4 * hl + 2) with
      | Some src, Some dst => Some (INTERACTIVE dst || INTERACTIVE src)
      | _, _ => None
      end
    else Some false
  | _, _, _, _ => None
  end.

(** sys/net/ppp_frame.c:162-175, [ppp_output]: the protocol number and the packet, compressed. *)
Definition ppp_compress (m : list Z) : M (Z * list Z) :=
  let! s := kget in
  let! p := knonnull (get8 m IP_P) in
  if (p =? IPPROTO_TCP) && flag_set (ppp_txflags s) FLAG_TCPC then
    let! (t, m) := kzoom ppp_ctcp set_ctcp (sl_compress_tcp m) in
    kret (if t =? TYPE_UNCOMPRESSED_TCP then PPP_VJNC else if t =? TYPE_COMPRESSED_TCP then PPP_VJC else PPP_IP, m)
  else kret (PPP_IP, m).

(** sys/net/ppp_frame.c:189-205, [ppp_output]: the header of a frame. *)
Definition ppp_frame_header (txflags type : Z) : list Z :=
  (if flag_set txflags FLAG_ACFC then [] else [PPP_ADDRESS; PPP_CONTROL]) ++
  (if flag_set txflags FLAG_PFC && (Z.land type 0xff00 =? 0) then [] else [type / 256]) ++ [type mod 256].

(** sys/net/ppp_frame.c:89-228, [ppp_output]. *)
Definition ppp_output (family : Z) (m : list Z) : M Z :=
  let len := zlen m in
  let! s := kget in
  if negb (flag_set (if_flags s) IFF_UP) then kret ENETDOWN
  else if negb (family =? AF_INET) then kret EAFNOSUPPORT
  else if negb (fsm_state (ppp_ipcp s) =? CP_OPENED) then ppp_defer m
  else
    let! fast := knonnull (ppp_interactive m s) in
    let! (type, m) := ppp_compress m in
    do! kmod (set_idlecnt 1) in
    let! s := kget in
    let h := ppp_frame_header (ppp_txflags s) type in
    let! ok := mget in
    if negb ok then kret ENOBUFS else
    let! s := kget in
    if qfull2 s then do! kmod (set_drops (if_drops s + 1)) in kret ENOBUFS
    else
      do! kmod (if (fast : bool) then set_isnd (p2p_isnd s ++ [h ++ m]) else set_snd (if_snd s ++ [h ++ m])) in
      do! start_output in
      do! kmod (fun s => set_obytes (if_obytes s + (zlen h + len)) s) in
      kret 0.

(** sys/net/ppp_ipcp.c:94-108, [ppp_ipcp_tlu]: [n] is at least the length of the queue. *)
Fixpoint send_deferred (n : nat) : M unit :=
  let! s := kget in
  match ppp_ipdefq s with
  | [] => kret tt
  | m :: q =>
    match n with
    | O => kpanic
    | S n => do! kmod (set_ipdefq q) in do! ppp_output AF_INET m in send_deferred n
    end
  end.
Definition ppp_ipcp_tlu : M unit :=
  let! n := kgets (fun s => length (ppp_ipdefq s)) in send_deferred n.

(** ** Up, down, close *)

Definition ft_creq (f : fsm) : M (option (list Z)) := match f with FSM_LCP => ppp_lcp_creq | FSM_IPCP => ppp_ipcp_creq end.

(** sys/net/ppp_fsm.c:767-800, [ppp_cp_up]. *)
Definition ppp_cp_up (f : fsm) : M unit :=
  do! kmod (fun s => set_fs f (with_rej 0 (with_rc (ppp_maxconf (ppp_dflt s)) (get_fs f s))) s) in
  do! newstate f CP_REQSENT in
  let! m := ft_creq f in
  do! start_timer f in
  sendout m.

(** sys/net/ppp_fsm.c:805-831, [ppp_cp_down], with the [ft_tld] of the table. *)
Definition cp_down (ft_tld : M unit) (f : fsm) : M unit :=
  let! st := fs_state f in
  do! (if (st =? CP_CLOSING) || (st =? CP_CLOSED) then newstate f CP_INITIAL
       else do! (if st =? CP_OPENED then ft_tld else kret tt) in newstate f CP_STARTING) in
  stop_timer f.

(** sys/net/ppp_lcp.c:233-241, [ppp_lcp_tld]. *)
Definition ppp_lcp_tld : M unit := cp_down (kret tt) FSM_IPCP.

Definition ft_tld (f : fsm) : M unit := match f with FSM_LCP => ppp_lcp_tld | FSM_IPCP => kret tt end.

Definition ppp_cp_down (f : fsm) : M unit := cp_down (ft_tld f) f.

(** The characters to escape are all of them, for the line. *)
Definition conservative (f : fsm) : M unit :=
  match f with FSM_LCP => kmod (set_txcmap 0xffffffff) | FSM_IPCP => kret tt end.

(** sys/net/ppp_fsm.c:836-894, [ppp_cp_close]. *)
Definition ppp_cp_close (f : fsm) : M unit :=
  let! st := fs_state f in
  if st =? CP_STARTING then newstate f CP_INITIAL
  else if st =? CP_STOPPED then newstate f CP_CLOSED
  else if st =? CP_STOPPING then newstate f CP_CLOSING
  else if (st =? CP_OPENED) || (st =? CP_REQSENT) || (st =? CP_ACKRCVD) || (st =? CP_ACKSENT) then
    do! (if st =? CP_OPENED then ft_tld f else kret tt) in
    do! kmod (fun s => set_fs f (with_rc (ppp_maxterm (ppp_dflt s)) (get_fs f s)) s) in
    do! newstate f CP_CLOSING in
    do! conservative f in
    let! m := ppp_cp_prepend None (ft_type f) CP_TERM_REQ 0 0 in
    do! stop_timer f in
    do! start_timer f in
    let! m := knonnull m in
    ppp_queue false m m
  else kret tt.

(** sys/net/ppp_lcp.c:214-228, [ppp_lcp_tlu]. *)
Definition ppp_lcp_tlu : M unit :=
  do! kmod (fun s => set_txcmap (ppp_cmap (ppp_params s)) s) in
  do! kmod (set_ctcp sl_compress_init) in
  do! kmod (fun s => set_ncps (u8 (ppp_ncps s + 1)) s) in
  do! ppp_cp_up FSM_IPCP in
  kmod (fun s => set_flags (Z.lor (if_flags s) IFF_RUNNING) s).

(** sys/net/ppp_ipcp.c:79-89, [ppp_ipcp_tlf]. *)
Definition ppp_ipcp_tlf : M unit :=
  do! kmod (fun s => set_ncps (u8 (ppp_ncps s - 1)) s) in
  let! s := kget in
  if ppp_ncps s =? 0 then
    do! kmod (fun s => set_flags (Z.ldiff (if_flags s) IFF_RUNNING) s) in ppp_cp_close FSM_LCP
  else kret tt.

Definition ft_tlu (f : fsm) : M unit := match f with FSM_LCP => ppp_lcp_tlu | FSM_IPCP => ppp_ipcp_tlu end.
Definition ft_tlf (f : fsm) : M unit := match f with FSM_LCP => ppp_lcp_tlf | FSM_IPCP => ppp_ipcp_tlf end.

(** ** Options of IP *)

(** sys/net/ppp_ipcp.c:176-214, [ppp_ipcp_optnak]. *)
Definition ppp_ipcp_optnak (opt : list Z) : M unit :=
  let! t := knonnull (get8 opt po_type) in
  if t =? IPCP_CPROT then
    let! v := knonnull (get16 opt po_data) in
    if v =? PPP_VJC then kret tt else clear_flag FLAG_TCPC
  else if t =? IPCP_ADDR then
    let! v := knonnull (get32 opt po_data) in
    let! a := kgets (ppp_ipcp_getaddr false) in
    if negb (a =? 0) then if negb (a =? v) then ppp_cp_close FSM_IPCP else kret tt
    else ppp_ipcp_setaddr v false
  else kret tt.

(** sys/net/ppp_ipcp.c:241-278, [ppp_ipcp_opt]: one address of the pair at [i] of the option. *)
Definition ipcp_addrs_one (opt : list Z) (i : Z) (dst : bool) (res : Z) : M (Z * list Z) :=
  let! v := knonnull (get32 opt i) in
  let! a := kgets (ppp_ipcp_getaddr dst) in
  if a =? 0 then do! ppp_ipcp_setaddr v dst in kret (res, opt)
  else if negb (v =? a) then kret (OPT_NAK, put32 opt i a)
  else kret (res, opt).

(** sys/net/ppp_ipcp.c:282-307, [ppp_ipcp_opt]: the compression protocol. *)
Definition ipcp_cprot (opt : list Z) (n : Z) : M (Z * list Z) :=
  let! s := kget in
  if negb (n =? 4) && negb (n =? 6) then kret (OPT_REJ, opt)
  else if negb (flag_set (ppp_flags (ppp_dflt s)) FLAG_TCPC) then kret (OPT_REJ, opt)
  else
    let! v := knonnull (get16 opt po_data) in
    let (res, opt) := if v =? PPP_VJC then (OPT_OK, opt) else (OPT_NAK, put16 opt po_data PPP_VJC) in
    let! ms := knonnull (get8 opt (po_data + 2)) in
    let (res, opt) := if (n =? 6) && (MAX_STATES <=? ms) then (OPT_NAK, put8 opt (po_data + 2) (MAX_STATES - 1)) else (res, opt) in
    let! c := knonnull (get8 opt (po_data + 3)) in
    let (res, opt) := if (n =? 6) && negb (c =? 0) then (OPT_NAK, put8 opt (po_data + 3) 0) else (res, opt) in
    do! (if res =? OPT_OK then set_txflag FLAG_TCPC else kret tt) in
    kret (res, opt).

(** sys/net/ppp_ipcp.c:219-329, [ppp_ipcp_opt]: the function ends without [return] at an option
    it does not know. *)
Definition ppp_ipcp_opt (opt : list Z) : M (Z * list Z) :=
  let! t := knonnull (get8 opt po_type) in
  let! n := knonnull (get8 opt po_len) in
  if t =? IPCP_ADDRS then
    if negb (n =? 10) then kret (OPT_REJ, opt) else
    let! (res, opt) := ipcp_addrs_one opt po_data true OPT_OK in
    ipcp_addrs_one opt (po_data + 4) false res
  else if t =? IPCP_CPROT then ipcp_cprot opt n
  else if t =? IPCP_ADDR then
    if negb (n =? 6) then kret (OPT_REJ, opt) else ipcp_addrs_one opt po_data true OPT_OK
  else kret (undef, opt).

Definition ft_opt (f : fsm) (opt : list Z) : M (Z * list Z) := match f with FSM_LCP => ppp_lcp_opt opt | FSM_IPCP => ppp_ipcp_opt opt end.
Definition ft_optrej (f : fsm) (opt : list Z) : M unit := match f with FSM_LCP => ppp_lcp_optrej opt | FSM_IPCP => ppp_ipcp_optrej opt end.
Definition ft_optnak (f : fsm) (opt : list Z) : M unit := match f with FSM_LCP => ppp_lcp_optnak opt | FSM_IPCP => ppp_ipcp_optnak opt end.

(** ** Control packets *)

(** A word in the order of the machine, the low byte first. *)
Definition le32 (v : Z) : list Z := [v mod 256; v / 256 mod 256; v / 65536 mod 256; v / 16777216 mod 256].

(** sys/net/ppp_lcp.c:256-302, [ppp_lcp_xcode]: the first result is false when the code is not
    known, [m] then being -1. *)
Definition ppp_lcp_xcode (m : list Z) (code id : Z) : M (bool * option (list Z)) :=
  if code =? LCP_PROTO_REJ then
    let! type := knonnull (get16 m 0) in
    do! (if (type =? PPP_IP) || (type =? PPP_IPCP) then ppp_cp_close FSM_IPCP else kret tt) in
    kret (true, None)
  else if code =? LCP_ECHO_REQ then
    let! s := kget in
    let! m := knonnull (bcopy (le32 (ppp_magic s)) m 4) in
    let! m := ppp_cp_prepend (Some m) PPP_LCP LCP_ECHO_REPL id 0 in
    kret (true, m)
  else if (code =? LCP_ECHO_REPL) || (code =? LCP_DISC_REQ) then kret (true, None)
  else kret (false, None).

(** sys/net/ppp_fsm.c:381-428, [ppp_cp_in]: the options of a Configure-Request, from [off] on:
    the counts of options rejected and Nak'd and the list for the answer, or [None] when the
    link is given up.  [opt] keeps its bytes from one turn to the next.  A loop of more turns
    than [n] does not end. *)
Fixpoint conf_req_opts (n : nat) (f : fsm) (m : list Z) (l off : Z) (opt : list Z) (reject nak : Z) (m0 : option (list Z))
  : M (option (Z * Z * option (list Z))) :=
  if l <=? off then kret (Some (reject, nak, m0)) else
  match n with
  | O => kpanic
  | S n =>
    let ol := if l <? LCP_OPT_MAXSIZE + off then l - off else LCP_OPT_MAXSIZE in
    let! opt := knonnull (m_copydata m off ol opt) in
    let! len := knonnull (get8 opt po_len) in
    let off := off + len in
    let! (v, opt) := if LCP_OPT_MAXSIZE <? len then kret (OPT_REJ, opt) else ft_opt f opt in
    if v =? OPT_OK then conf_req_opts n f m l off opt reject nak m0
    else if v =? OPT_REJ then
      let! m0 := ppp_addopt (if ztrue nak then None else m0) opt in
      conf_req_opts n f m l off opt (reject + 1) nak m0
    else if v =? OPT_NAK then
      let! m0 := ppp_addopt m0 opt in
      conf_req_opts n f m l off opt reject (nak + 1) m0
    else if v =? OPT_FATAL then kret None
    else
      let! m0 := ppp_addopt m0 opt in
      conf_req_opts n f m l off opt reject nak m0
  end.

(** A list of [l] bytes that is read an option of at least a byte at a time. *)
Definition opt_turns (l : Z) : nat := S (Z.to_nat l).

(** sys/net/ppp_fsm.c:450-476, [ppp_cp_in]: all the options are accepted. *)
Definition send_conf_ack (f : fsm) (m : list Z) (cpid : Z) : M unit :=
  let! m := ppp_cp_prepend (Some m) (ft_type f) CP_CONF_ACK cpid 0 in
  match m with
  | None => kret tt
  | Some m =>
    let! s := kget in
    if qfull2 s then kmod (set_drops (if_drops s + 1))
    else
      do! ppp_queue true m m in
      let! st := fs_state f in
      if st =? CP_ACKRCVD then do! newstate f CP_OPENED in ft_tlu f else newstate f CP_ACKSENT
  end.

(** sys/net/ppp_fsm.c:431-449, [ppp_cp_in]: the answer [code] with the options [m0]. *)
Definition send_refusal (f : fsm) (code cpid : Z) (m0 : option (list Z)) : M unit :=
  match m0 with
  | None => kret tt
  | Some _ =>
    let! m := ppp_cp_prepend m0 (ft_type f) code cpid 0 in
    let! st := fs_state f in
    do! (if st =? CP_ACKRCVD then kret tt else newstate f CP_REQSENT) in
    sendout m
  end.

(** sys/net/ppp_fsm.c:348-379, [ppp_cp_in]: back to the negotiation from [OPENED] and
    [STOPPED]; the counter of bytes takes the length of the packet that came in. *)
Definition conf_req_again (f : fsm) (m : list Z) (st : Z) : M unit :=
  if negb ((st =? CP_STOPPED) || (st =? CP_OPENED)) then kret tt else
  do! (if st =? CP_STOPPED then kmod (fun s => set_fs f (with_rc (ppp_maxconf (ppp_dflt s)) (get_fs f s)) s) else kret tt) in
  do! conservative f in
  do! ft_tld f in
  let! m0 := ft_creq f in
  do! start_timer f in
  match m0 with None => kret tt | Some m0 => ppp_queue true m m0 end.

(** sys/net/ppp_fsm.c:334-477, [ppp_cp_in]: a Configure-Request; [m] is the packet after its
    header, [l] the length of the options. *)
Definition cp_conf_req (f : fsm) (m : list Z) (l cpid : Z) : M unit :=
  let! st := fs_state f in
  if (st =? CP_CLOSING) || (st =? CP_STOPPING) then kret tt
  else if st =? CP_CLOSED then
    let! m := ppp_cp_prepend None (ft_type f) CP_TERM_ACK cpid 0 in sendout m
  else
    do! conf_req_again f m st in
    let! r := conf_req_opts (opt_turns l) f m l 0 stack 0 0 None in
    match r with
    | None => ppp_cp_close f
    | Some (reject, nak, m0) =>
      if ztrue reject then send_refusal f CP_CONF_REJ cpid m0
      else if ztrue nak then send_refusal f CP_CONF_NAK cpid m0
      else send_conf_ack f m cpid
    end.

(** Send the Configure-Request and start the timer. *)
Definition send_creq (f : fsm) : M unit :=
  let! m := ft_creq f in do! start_timer f in sendout m.

Definition init_rc (f : fsm) : M unit :=
  kmod (fun s => set_fs f (with_rc (ppp_maxconf (ppp_dflt s)) (get_fs f s)) s).

(** sys/net/ppp_fsm.c:478-528, [ppp_cp_in]: a Configure-Ack. *)
Definition cp_conf_ack (f : fsm) (cpid : Z) : M unit :=
  let! id := kgets (fun s => fsm_id (get_fs f s)) in
  if negb (cpid =? id) then kret tt else
  do! stop_timer f in
  let! st := fs_state f in
  if (st =? CP_CLOSED) || (st =? CP_STOPPED) then
    let! m := ppp_cp_prepend None (ft_type f) CP_TERM_ACK cpid 0 in sendout m
  else if st =? CP_REQSENT then do! newstate f CP_ACKRCVD in init_rc f
  else if (st =? CP_OPENED) || (st =? CP_ACKRCVD) then
    do! (if st =? CP_OPENED then ft_tld f else kret tt) in
    do! newstate f CP_REQSENT in
    send_creq f
  else if st =? CP_ACKSENT then do! newstate f CP_OPENED in do! init_rc f in ft_tlu f
  else kret tt.

(** sys/net/ppp_fsm.c:570-586, [ppp_cp_in]: the options of a Configure-Nak or, with [rej], a
    Configure-Reject.  The i386 shifts by the low five bits of the count. *)
Fixpoint conf_nak_opts (n : nat) (f : fsm) (rej : bool) (m : list Z) (l off : Z) (opt : list Z) : M unit :=
  if l <=? off then kret tt else
  match n with
  | O => kpanic
  | S n =>
    let ol := if l <? LCP_OPT_MAXSIZE + off then l - off else LCP_OPT_MAXSIZE in
    let! opt := knonnull (m_copydata m off ol opt) in
    let! t := knonnull (get8 opt po_type) in
    let! len := knonnull (get8 opt po_len) in
    do! (if rej then
           do! fs_mod f (fun x => with_rej (u16 (Z.lor (fsm_rej x) (Z.shiftl 1 (t mod 32)))) x) in
           ft_optrej f opt
         else ft_optnak f opt) in
    conf_nak_opts n f rej m l (off + len) opt
  end.

(** sys/net/ppp_fsm.c:530-593, [ppp_cp_in]: a Configure-Nak or a Configure-Reject. *)
Definition cp_conf_nak (f : fsm) (rej : bool) (m : list Z) (l cpid : Z) : M unit :=
  let! id := kgets (fun s => fsm_id (get_fs f s)) in
  if negb (cpid =? id) then kret tt else
  do! stop_timer f in
  let! st := fs_state f in
  let go := do! conf_nak_opts (opt_turns l) f rej m l 0 stack in send_creq f in
  if (st =? CP_CLOSED) || (st =? CP_STOPPED) then
    let! m := ppp_cp_prepend None (ft_type f) CP_TERM_ACK cpid 0 in sendout m
  else if (st =? CP_REQSENT) || (st =? CP_ACKSENT) then do! init_rc f in go
  else if (st =? CP_OPENED) || (st =? CP_ACKRCVD) then
    do! (if st =? CP_OPENED then ft_tld f else kret tt) in
    do! newstate f CP_REQSENT in
    go
  else kret tt.

(** sys/net/ppp_fsm.c:595-616, [ppp_cp_in]: a Terminate-Request, which goes back as the answer. *)
Definition cp_term_req (f : fsm) (m : list Z) (cpid : Z) : M unit :=
  let! st := fs_state f in
  do! (if st =? CP_OPENED then
         do! fs_mod f (with_rc 1) in do! ft_tld f in newstate f CP_STOPPING
       else if (st =? CP_ACKRCVD) || (st =? CP_ACKSENT) then newstate f CP_REQSENT
       else kret tt) in
  do! conservative f in
  let! m := ppp_cp_prepend (Some m) (ft_type f) CP_TERM_ACK cpid 0 in
  sendout m.

(** sys/net/ppp_fsm.c:618-658, [ppp_cp_in]: a Terminate-Ack. *)
Definition cp_term_ack (f : fsm) : M unit :=
  do! stop_timer f in
  let! st := fs_state f in
  let drop_conn := do! kmod (set_isnd []) in do! kmod (set_snd []) in do! stop_timer f in ft_tlf f in
  if st =? CP_OPENED then do! ft_tld f in send_creq f
  else if st =? CP_ACKRCVD then newstate f CP_REQSENT
  else if st =? CP_CLOSING then do! newstate f CP_CLOSED in drop_conn
  else if st =? CP_STOPPING then do! newstate f CP_STOPPED in drop_conn
  else kret tt.

(** sys/net/ppp_fsm.c:316-332, [ppp_cp_in]: a code that is not one of the automaton's; [hdr] is
    the header of the packet. *)
Definition cp_other (f : fsm) (hdr m : list Z) (code cpid : Z) : M unit :=
  let! (known, r) := match f with FSM_LCP => ppp_lcp_xcode m code cpid | FSM_IPCP => kret (false, None) end in
  if (known : bool) then sendout r
  else
    let! m := ppp_cp_prepend (Some (hdr ++ m)) (ft_type f) CP_CODE_REJ 0 0 in
    sendout m.

(** sys/net/ppp_fsm.c:245-279, [ppp_cp_in]: a protocol that is not in the table. *)
Definition bad_protocol (m : list Z) (type : Z) : M unit :=
  let! s := kget in
  if negb (fsm_state (ppp_lcp s) =? CP_OPENED) then kret tt else
  let l := ppp_mru (ppp_params s) - 4 + 2 in
  let! m := knonnull (if l <? zlen m then slice m 0 l else Some m) in
  let! m := ppp_cp_prepend (Some m) PPP_LCP LCP_PROTO_REJ 0 2 in
  match m with None => kret tt | Some m => sendout (Some (put16 m 8 type)) end.

(** sys/net/ppp_fsm.c:282-683, [ppp_cp_in]: a packet for the automaton [f]. *)
Definition cp_in_found (f : fsm) (m : list Z) : M unit :=
  let! l := knonnull (get16 m 2) in
  if zlen m <? l then kret tt else
  let! hdr := knonnull (slice m 0 4) in
  let! st := fs_state f in
  if (st =? CP_INITIAL) || (st =? CP_STARTING) then kret tt else
  let! code := knonnull (get8 m 0) in
  let! cpid := knonnull (get8 m 1) in
  let m := drop 4 m in
  let l := l - 4 in
  if code =? CP_CONF_REQ then cp_conf_req f m l cpid
  else if code =? CP_CONF_ACK then cp_conf_ack f cpid
  else if code =? CP_CONF_NAK then cp_conf_nak f false m l cpid
  else if code =? CP_CONF_REJ then cp_conf_nak f true m l cpid
  else if code =? CP_TERM_REQ then cp_term_req f m cpid
  else if code =? CP_TERM_ACK then cp_term_ack f
  else if code =? CP_CODE_REJ then kret tt
  else cp_other f hdr m code cpid.

(** sys/net/ppp_fsm.c:213-683, [ppp_cp_in]. *)
Definition ppp_cp_in (m : list Z) (type : Z) : M unit :=
  if type =? ft_type FSM_LCP then cp_in_found FSM_LCP m
  else if type =? ft_type FSM_IPCP then cp_in_found FSM_IPCP m
  else bad_protocol m type.

(** ** The timer *)

(** sys/net/ppp_fsm.c:688-762, [ppp_cp_timeout]: the request is used without a test when the
    queue has room. *)
Definition ppp_cp_timeout (f : fsm) : M unit :=
  let! s := kget in
  if negb (p2p_ppp_input s) then kret tt
  else if fsm_rc (get_fs f s) =? 1 then
    do! fs_mod f (with_rc 0) in
    do! newstate f (if fsm_state (get_fs f s) =? CP_CLOSING then CP_CLOSED else CP_STOPPED) in
    ft_tlf f
  else
    do! (if 0 <? fsm_rc (get_fs f s) then fs_mod f (fun x => with_rc (fsm_rc x - 1) x) else kret tt) in
    let st := fsm_state (get_fs f s) in
    let finish (m : option (list Z)) :=
      do! start_timer f in
      let! s := kget in
      if qfull2 s then kmod (set_drops (if_drops s + 1))
      else let! m := knonnull m in ppp_queue true m m in
    if (st =? CP_CLOSING) || (st =? CP_STOPPING) then
      let! m := ppp_cp_prepend None (ft_type f) CP_TERM_REQ 0 0 in finish m
    else if (st =? CP_ACKRCVD) || (st =? CP_REQSENT) || (st =? CP_ACKSENT) then
      do! (if st =? CP_ACKRCVD then newstate f CP_REQSENT else kret tt) in
      let! m := ft_creq f in finish m
    else kret tt.

(** sys/net/ppp_lcp.c:246-251, [ppp_lcp_timeout]: the clock takes the timer out and calls it. *)
Definition expire (f : fsm) : M unit := do! stop_timer f in ppp_cp_timeout f.

(** ** The line *)

(** sys/net/ppp_lcp.c:69-97, [ppp_defaults]. *)
Definition ppp_defaults : M unit :=
  kmod (fun s =>
    if negb (ppp_mru (ppp_dflt s) =? 0) then s else
    let d := if String.eqb (if_name s) "ppp"
             then PppIoctl 0 LCP_DFLT_RMU 0 (Z.lor FLAG_FTEL (Z.lor FLAG_PFC (Z.lor FLAG_ACFC FLAG_TCPC))) 10 3 30
             else PppIoctl 0 LCP_DFLT_RMU 0 FLAG_FTEL 0 3 30 in
    set_params d (set_dflt d s)).

(** sys/net/ppp_lcp.c:547-614, [ppp_modem]: the carrier is there ([flag]) or is lost. *)
Definition ppp_modem (flag : bool) : M unit :=
  let! st := fs_state FSM_LCP in
  if flag then
    if st =? CP_INITIAL then newstate FSM_LCP CP_CLOSED
    else if negb (st =? CP_STARTING) then kret tt
    else
      do! ppp_defaults in
      do! kmod (set_txcmap 0xfffffff) in
      do! kmod (fun s => set_params (ppp_dflt s) s) in
      do! kmod (set_txflags 0) in
      let! magic := ppp_lcp_magic in
      do! kmod (set_magic magic) in
      do! kmod (set_badmagic 0) in
      do! kmod (set_ncps 0) in
      do! kmod (set_idlecnt 0) in
      do! kmod (fun s => set_ticks (Z.max 2 (ppp_timeout (ppp_dflt s) * hz / 10)) s) in
      ppp_cp_up FSM_LCP
  else
    do! kmod (fun s => set_flags (Z.ldiff (if_flags s) IFF_RUNNING) s) in
    do! ppp_cp_down FSM_LCP in
    do! kmod (set_isnd []) in
    do! kmod (set_snd []) in
    do! kmod (set_ipdefq []) in
    let! s := kget in
    if flag_set (if_flags s) IFF_UP then newstate FSM_LCP CP_STARTING else kret tt.

(** sys/net/ppp_lcp.c:150-187, [ppp_init]: apart from the list of interfaces. *)
Definition ppp_init : M unit :=
  do! kmod (set_wdrop 1) in
  do! newstate FSM_LCP CP_STARTING in
  do! newstate FSM_IPCP CP_STARTING in
  let! s := kget in
  match p2p_mdmctl s with
  | Some l => kmod (set_mdmctl (Some (l ++ [1])))
  | None => ppp_modem true
  end.

(** sys/net/ppp_lcp.c:192-209, [ppp_shutdown]: apart from the list of interfaces. *)
Definition ppp_shutdown : M unit := ppp_cp_close FSM_LCP.

(** The requests of [ppp_ioctl_call]. *)
Inductive ppp_cmd : Type := PPPIOCNPAR | PPPIOCGPAR | PPPIOCSPAR | PPPIOCWAIT | PPPIOCother.

(** sys/net/ppp_lcp.c:102-145, [ppp_ioctl]: the error number and what [data] holds then; [slept]
    is the answer of [tsleep]. *)
Definition ppp_ioctl_call (cmd : ppp_cmd) (io : ppp_ioctl) (slept : Z) : M (Z * ppp_ioctl) :=
  let defaults := do! ppp_defaults in let! s := kget in kret (0, ppp_dflt s) in
  let! s := kget in
  match cmd with
  | PPPIOCNPAR => if fsm_state (ppp_lcp s) =? CP_OPENED then kret (0, ppp_params s) else defaults
  | PPPIOCGPAR => defaults
  | PPPIOCSPAR =>
    if (ppp_mru io <? LCP_MIN_RMU) || (ppp_timeout io <? 1) || (ppp_maxterm io <? 1) then kret (EINVAL, io)
    else do! kmod (set_dflt io) in kret (0, io)
  | PPPIOCWAIT => do! kmod (set_ipdefq []) in do! kmod (set_wdrop 1) in kret (slept, io)
  | PPPIOCother => kret (EINVAL, io)
  end.

(** sys/net/ppp_frame.c:299-306, [ppp_input]: [ipintrq] is the queue of the IP input. *)
Definition queue_ip (m : list Z) : M unit :=
  let! s := kget in
  if ipq_maxlen s <=? zlen (ipintrq s) then kmod (set_ipq_drops (ipq_drops s + 1))
  else kmod (set_ipintrq (ipintrq s ++ [m])).

(** sys/net/ppp_frame.c:286-294, [ppp_input]: a compressed datagram; a header that the
    decompressor refuses is used without a test when it came uncompressed.  M_PREPEND takes an
    mbuf for the headers when the first has no room for them. *)
Definition ppp_uncompress (m : list Z) (type : Z) : M unit :=
  let! ok := if (type =? TYPE_COMPRESSED_TCP) && negb (rb_room rbuf) then mget else kret true in
  let! r := kzoom ppp_ctcp set_ctcp (sl_muncompress_tcp (negb ok) (rb_room rbuf) m (rb_slack rbuf) [] type) in
  match r with
  | Some l => queue_ip (concat l)
  | None =>
    let! s := kget in
    if (type =? TYPE_UNCOMPRESSED_TCP) && negb (ipq_maxlen s <=? zlen (ipintrq s)) then kpanic
    else if type =? TYPE_UNCOMPRESSED_TCP then kmod (set_ipq_drops (ipq_drops s + 1)) else kret tt
  end.

(** sys/net/ppp_frame.c:246-253, [ppp_input]: the address and control bytes are skipped. *)
Definition skip_address (m : list Z) : option (list Z) :=
  match get8 m 0 with
  | Some a =>
    if a =? PPP_ADDRESS then
      match get8 m 1 with Some c => Some (if c =? PPP_CONTROL then drop 2 m else m) | None => None end
    else Some m
  | None => None
  end.

(** sys/net/ppp_frame.c:246-266, [ppp_input]: the protocol number and what follows it; [None] when the
    frame ends before them. *)
Definition ppp_strip (m : list Z) : option (Z * list Z) :=
  match skip_address m with
  | Some m =>
    match get8 m 0 with
    | Some p =>
      if Z.odd p then Some (p, drop 1 m)
      else match get16 m 0 with Some t => Some (t, drop 2 m) | None => None end
    | None => None
    end
  | None => None
  end.

(** sys/net/ppp_frame.c:233-310, [ppp_input]. *)
Definition ppp_input (m : list Z) : M unit :=
  do! kmod (fun s => set_ibytes (if_ibytes s + zlen m) s) in
  let! (type, m) := knonnull (ppp_strip m) in
  if zlen m <=? 0 then kret tt
  else if type =? PPP_IP then queue_ip m
  else if type =? PPP_VJC then ppp_uncompress m TYPE_COMPRESSED_TCP
  else if type =? PPP_VJNC then ppp_uncompress m TYPE_UNCOMPRESSED_TCP
  else ppp_cp_in m type.

(** sys/net/ppp_frame.c:329-340, [ppp_idlepoll]: the turn of one interface. *)
Definition ppp_idlepoll : M unit :=
  let! s := kget in
  if (ppp_idletime (ppp_dflt s) =? 0) || negb (Z.land (if_flags s) (Z.lor IFF_UP IFF_RUNNING) =? Z.lor IFF_UP IFF_RUNNING)
     || (ppp_idlecnt s =? 0) then kret tt
  else
    do! kmod (set_idlecnt (u16 (ppp_idlecnt s + 1))) in
    if ppp_idletime (ppp_dflt s) <=? ppp_idlecnt s then ppp_cp_close FSM_LCP else kret tt.

End Ppp.
