(* ===== verification/PppSpec.v ===== *)
(** * Options and frames, apart from their bytes

    The options of the line control protocol as a type, the verdict on each as a function,
    the answer to a list of them; and that the code computes these, on bytes. *)

From S2P Require Import Prelude Slcomp Ppp.
Local Open Scope kern_scope.

(** ** Frames *)

(** A control packet, with its header, and a frame that holds it. *)
Definition cp_packet (code id : Z) (b : list Z) : list Z :=
  [code; id; (4 + zlen b) / 256; (4 + zlen b) mod 256] ++ b.
Definition cp_frame (type code id : Z) (b : list Z) : list Z :=
  [PPP_ADDRESS; PPP_CONTROL; type / 256; type mod 256] ++ cp_packet code id b.

(** No request for an mbuf fails. *)
Definition plenty (s : p2pcom) : Prop := mb_avail s = [].

Lemma mget_plenty s : plenty s -> mget s = Some (true, s).
Proof. unfold mget. by intros ->. Qed.

Lemma prepend_run m type code id s : plenty s -> zlen (default [] m) < 65532 ->
  ppp_cp_prepend m type code id 0 s = Some (Some (cp_frame type code id (default [] m)), s).
Proof.
  intros Hp Hl. unfold ppp_cp_prepend, kbind. rewrite mget_plenty by done.
  pose proof (zlen_nonneg (default [] m)).
  assert (E : u16 (4 + 0 + zlen (default [] m)) = 4 + zlen (default [] m)) by mlia.
  destruct m as [b|]; simpl in *; [by rewrite E|done].
Qed.

(** ** Options *)

(** An option of the line control protocol; [Unknown] is one of another type, or one whose
    length is not right for its type. *)
Inductive lopt : Type :=
| Mru (v : Z)
| Accm (v : Z)
| Magic (v : Z)
| Pfc
| Acfc
| Unknown (t : Z) (d : list Z).

Definition lopt_type (o : lopt) : Z :=
  match o with Mru _ => LCP_MRU | Accm _ => LCP_ACCM | Magic _ => LCP_MAGIC | Pfc => LCP_PFC | Acfc => LCP_ACFC | Unknown t _ => t end.
Definition lopt_data (o : lopt) : list Z :=
  match o with Mru v => be16 v | Accm v | Magic v => be32 v | Pfc | Acfc => [] | Unknown _ d => d end.
Definition enc (o : lopt) : list Z := [lopt_type o; 2 + zlen (lopt_data o)] ++ lopt_data o.
Definition encs (l : list lopt) : list Z := concat (map enc l).

(** The length that the type [t] has. *)
Definition right_len (t n : Z) : bool :=
  ((t =? LCP_MRU) && (n =? 2)) || (((t =? LCP_ACCM) || (t =? LCP_MAGIC)) && (n =? 4)) ||
  (((t =? LCP_PFC) || (t =? LCP_ACFC)) && (n =? 0)).

Definition wf_lopt (o : lopt) : Prop :=
  match o with
  | Mru v => is_u16 v
  | Accm v | Magic v => is_u32 v
  | Pfc | Acfc => True
  | Unknown t d => zlen d <= 32 /\ right_len t (zlen d) = false
  end.

Lemma zlen_enc o : zlen (enc o) = 2 + zlen (lopt_data o).
Proof. unfold enc. rewrite zlen_app. done. Qed.

Lemma enc_len o : wf_lopt o -> 2 <= zlen (enc o) <= 34.
Proof. rewrite zlen_enc. destruct o as [v|v|v| | |t d]; [done..|]. cbn [wf_lopt lopt_data]. pose proof (zlen_nonneg d). lia. Qed.


(** What the code makes of an option: [VElse] is what a missing [return] leaves. *)
Inductive verdict : Type := VOk | VRej | VNak (o : lopt) | VFatal | VElse.

Section Spec.
Context (undef : Z).

Definition else_verdict (o : lopt) : verdict :=
  if undef =? OPT_OK then VOk else if undef =? OPT_REJ then VRej else if undef =? OPT_NAK then VNak o
  else if undef =? OPT_FATAL then VFatal else VElse.

Definition spec_opt (o : lopt) (s : p2pcom) : verdict * p2pcom :=
  let p := ppp_params s in
  match o with
  | Mru v => (if s16 v <? LCP_MIN_RMU then VNak (Mru LCP_MIN_RMU) else VOk, set_mtu (s16 v) s)
  | Accm v =>
    if Z.ldiff (ppp_cmap p) v =? 0 then (VOk, set_params (with_cmap v p) s) else (VNak (Accm (Z.lor v (ppp_cmap p))), s)
  | Magic v =>
    if (ppp_magic s =? v) || (v =? 0) then
      let s1 := set_badmagic (u8 (ppp_badmagic s + 1)) s in
      if 3 <=? ppp_badmagic s then (VFatal, s1) else
      match ppp_lcp_magic s1 with Some (n, s2) => (VNak (Magic n), set_magic n s2) | None => (VOk, s1) end
    else (VOk, s)
  | Pfc => if flag_set (ppp_flags p) FLAG_PFC then (else_verdict Pfc, set_txflags (Z.lor (ppp_txflags s) FLAG_PFC) s) else (VRej, s)
  | Acfc => if flag_set (ppp_flags p) FLAG_ACFC then (VOk, set_txflags (Z.lor (ppp_txflags s) FLAG_ACFC) s) else (VRej, s)
  | Unknown _ _ => (VRej, s)
  end.

(** The answer to a list of options: how many are rejected, how many Nak'd and the options of
    the answer; a rejected option clears the list if one was Nak'd before; [None] when the link
    is given up. *)
Fixpoint spec_opts (os : list lopt) (reject nak : Z) (items : list lopt) (s : p2pcom) : option (Z * Z * list lopt) * p2pcom :=
  match os with
  | [] => (Some (reject, nak, items), s)
  | o :: os =>
    let (v, s) := spec_opt o s in
    match v with
    | VOk => spec_opts os reject nak items s
    | VRej => spec_opts os (reject + 1) nak ((if ztrue nak then [] else items) ++ [o]) s
    | VNak o' => spec_opts os reject (nak + 1) (items ++ [o']) s
    | VFatal => (None, s)
    | VElse => spec_opts os reject nak (items ++ [o]) s
    end
  end.
End Spec.

Definition verdict_code (undef : Z) (o : lopt) (v : verdict) : Z :=
  match v with VOk => OPT_OK | VRej => OPT_REJ | VNak _ => OPT_NAK | VFatal => OPT_FATAL | VElse => undef end.
Definition verdict_opt (o : lopt) (v : verdict) : lopt := match v with VNak o' => o' | _ => o end.

(** ** Bytes *)

Lemma be16_cat v : is_u16 v -> v / 256 * 256 + v mod 256 = v.
Proof. intros H. mlia. Qed.
Lemma be32_cat v : is_u32 v -> (v / 65536 / 256 * 256 + v / 65536 mod 256) * 65536 + (v mod 65536 / 256 * 256 + v mod 65536 mod 256) = v.
Proof. intros H. mlia. Qed.

Lemma get16_enc a b v r : is_u16 v -> get16 (a :: b :: be16 v ++ r) po_data = Some v.
Proof. intros H. unfold get16. simpl. f_equal. by apply be16_cat. Qed.
Lemma get32_enc a b v r : is_u32 v -> get32 (a :: b :: be32 v ++ r) po_data = Some v.
Proof. intros H. unfold get32, get16. simpl. f_equal. by apply be32_cat. Qed.

Lemma put16_enc a b v w r : is_u16 w -> put16 (a :: b :: be16 v ++ r) po_data w = a :: b :: be16 w ++ r.
Proof.
  intros H. change (a :: b :: u8 (w / 256) :: u8 w :: r = a :: b :: w / 256 :: w mod 256 :: r). repeat f_equal; mlia.
Qed.
Lemma put32_enc a b v w r : is_u32 w -> put32 (a :: b :: be32 v ++ r) po_data w = a :: b :: be32 w ++ r.
Proof.
  intros H. change (a :: b :: u8 (w / 65536 / 256) :: u8 (w / 65536) :: u8 (w / 256) :: u8 w :: r =
    a :: b :: w / 65536 / 256 :: w / 65536 mod 256 :: w mod 65536 / 256 :: w mod 65536 mod 256 :: r). repeat f_equal; mlia.
Qed.

(** What the code keeps in a word of 32 bits stays in it. *)
Definition words (s : p2pcom) : Prop := is_u32 (ppp_cmap (ppp_params s)) /\ is_u32 (ppp_magic s).

Lemma lor_u32 a b : is_u32 a -> is_u32 b -> is_u32 (Z.lor a b).
Proof.
  intros Ha Hb. split; [apply Z.lor_nonneg; split; apply Ha || apply Hb|].
  change 4294967296 with (2 ^ 32). destruct (Z.eq_dec (Z.lor a b) 0) as [->|Hne]; [done|].
  apply Z.log2_lt_pow2; [assert (0 <= Z.lor a b) by (apply Z.lor_nonneg; split; apply Ha || apply Hb); lia|].
  rewrite Z.log2_lor by (apply Ha || apply Hb).
  assert (H : forall x, is_u32 x -> Z.log2 x < 32).
  { intros x Hx. destruct (Z.eq_dec x 0) as [->|]; [done|]. apply Z.log2_lt_pow2; [destruct Hx; lia|apply Hx]. }
  apply Z.max_lub_lt; by apply H.
Qed.

Lemma magic_u32 s n s' : ppp_lcp_magic s = Some (n, s') -> is_u32 n.
Proof. unfold ppp_lcp_magic. destruct (seeds s); intros [= <- <-]; [done|apply u32_range]. Qed.

Lemma right_len_not t n : right_len t n = false ->
  (t =? LCP_MRU) && (n =? 2) = false /\ (t =? LCP_ACCM) && (n =? 4) = false /\ (t =? LCP_MAGIC) && (n =? 4) = false /\
  (t =? LCP_PFC) && (n =? 0) = false /\ (t =? LCP_ACFC) && (n =? 0) = false.
Proof.
  unfold right_len. by destruct (t =? LCP_MRU), (t =? LCP_ACCM), (t =? LCP_MAGIC), (t =? LCP_PFC), (t =? LCP_ACFC),
    (n =? 2), (n =? 4), (n =? 0).
Qed.

(** Decide the comparisons of constants. *)
Ltac zdec :=
  repeat match goal with
  | |- context [Z.eqb ?a ?b] =>
    let v := eval vm_compute in (Z.eqb a b) in
    match v with true => change (Z.eqb a b) with true | false => change (Z.eqb a b) with false end
  end; cbv beta iota; cbn [negb andb orb].

(** The code's verdict on an option is the function's. *)
Lemma lcp_opt_run undef o junk s : wf_lopt o -> words s ->
  ppp_lcp_opt undef (enc o ++ junk) s =
    Some ((verdict_code undef o (spec_opt undef o s).1, enc (verdict_opt o (spec_opt undef o s).1) ++ junk), (spec_opt undef o s).2).
Proof.
  intros Hw [Hc Hm]. unfold ppp_lcp_opt, kbind, knonnull, kget, kret, kmod.
  change (get8 (enc o ++ junk) po_type) with (Some (lopt_type o)).
  change (get8 (enc o ++ junk) po_len) with (Some (2 + zlen (lopt_data o))). cbv beta iota.
  destruct o as [v|v|v| | |t d]; simpl in Hw; cbn [lopt_type lopt_data].
  - change (2 + zlen (be16 v)) with 4. zdec. change (enc (Mru v) ++ junk) with (LCP_MRU :: 4 :: be16 v ++ junk).
    rewrite get16_enc by done. cbn [spec_opt fst snd]. case_match; [|done]. rewrite put16_enc by done. done.
  - change (2 + zlen (be32 v)) with 6. zdec. change (enc (Accm v) ++ junk) with (LCP_ACCM :: 6 :: be32 v ++ junk).
    rewrite get32_enc by done. cbn [spec_opt fst snd]. destruct (Z.ldiff _ _ =? 0); [done|]. cbn [negb].
    rewrite put32_enc by (by apply lor_u32). done.
  - change (2 + zlen (be32 v)) with 6. zdec. change (enc (Magic v) ++ junk) with (LCP_MAGIC :: 6 :: be32 v ++ junk).
    rewrite get32_enc by done. cbn [spec_opt]. destruct ((ppp_magic s =? v) || (v =? 0)); [|done]. cbv zeta.
    destruct (3 <=? ppp_badmagic s); [done|].
    destruct (ppp_lcp_magic _) as [[n s2]|] eqn:E; [|unfold ppp_lcp_magic in E; by case_match].
    rewrite put32_enc by (by eapply magic_u32). done.
  - change (2 + zlen (@nil Z)) with 2. zdec. cbn [spec_opt fst snd].
    destruct (flag_set _ _); [|done]. unfold else_verdict.
    destruct (Z.eqb_spec undef OPT_OK) as [->|?]; [done|]. destruct (Z.eqb_spec undef OPT_REJ) as [->|?]; [done|].
    destruct (Z.eqb_spec undef OPT_NAK) as [->|?]; [done|]. by destruct (Z.eqb_spec undef OPT_FATAL) as [->|?].
  - change (2 + zlen (@nil Z)) with 2. zdec. cbn [spec_opt fst snd].
    destruct (flag_set _ _); [|done]. done.
  - destruct Hw as [_ Hr]. destruct (right_len_not t (zlen d) Hr) as (H1 & H2 & H3 & H4 & H5).
    assert (E : forall k, (2 + zlen d =? 2 + k) = (zlen d =? k)) by (intros k; destruct (Z.eqb_spec (zlen d) k); lia).
    cbn [spec_opt fst snd verdict_code verdict_opt].
    rewrite (E 2 : (2 + zlen d =? 4) = _), (E 4 : (2 + zlen d =? 6) = _), (E 0 : (2 + zlen d =? 2) = _).
    destruct (t =? LCP_MRU); [cbn [andb] in H1; by rewrite H1|]. destruct (t =? LCP_ACCM); [cbn [andb] in H2; by rewrite H2|].
    destruct (t =? LCP_MAGIC); [cbn [andb] in H3; by rewrite H3|]. destruct (t =? LCP_PFC); [cbn [andb] in H4; by rewrite H4|].
    destruct (t =? LCP_ACFC); [cbn [andb] in H5; by rewrite H5|done].
Qed.

(** ** The list of options *)

Lemma spec_opt_keeps undef o s : wf_lopt o -> words s ->
  words (spec_opt undef o s).2 /\ (plenty s -> plenty (spec_opt undef o s).2) /\ wf_lopt (verdict_opt o (spec_opt undef o s).1) /\
  zlen (lopt_data (verdict_opt o (spec_opt undef o s).1)) = zlen (lopt_data o).
Proof.
  intros Hw [Hc Hm]. destruct o as [v|v|v| | |t d]; cbn [spec_opt]; simpl in Hw.
  - destruct (_ <? _); split_and!; try done; vm_compute; intuition congruence.
  - destruct (_ =? 0); split_and!; try done. by apply lor_u32.
  - destruct ((_ =? _) || _); [|done]. cbv zeta. destruct (3 <=? _); [done|].
    unfold ppp_lcp_magic. cbn [seeds set_badmagic]. destruct (seeds s); [done|]. split_and!; try done; [split; [done|]|]; cbn; apply u32_range.
  - destruct (flag_set _ _); [|done]. unfold else_verdict. by repeat case_match.
  - by destruct (flag_set _ _).
  - done.
Qed.

Lemma copy_opt pre o os post buf : wf_lopt o -> (length buf = 34)%nat ->
  let m := pre ++ encs (o :: os) ++ post in
  let l := zlen pre + zlen (encs (o :: os)) in
  exists junk, m_copydata m (zlen pre) (if l <? LCP_OPT_MAXSIZE + zlen pre then l - zlen pre else LCP_OPT_MAXSIZE) buf =
    Some (enc o ++ junk) /\ (length (enc o ++ junk) = 34)%nat.
Proof.
  intros Hw Hb m l. pose proof (enc_len o Hw) as Hl.
  set (ol := if l <? _ then _ else _).
  assert (Hol : zlen (enc o) <= ol <= 34 /\ ol <= zlen (encs (o :: os))).
  { unfold ol, l, encs, LCP_OPT_MAXSIZE. cbn [map concat]. rewrite zlen_app. pose proof (zlen_nonneg (concat (map enc os))).
    destruct (Z.ltb_spec (zlen pre + (zlen (enc o) + zlen (concat (map enc os)))) (34 + zlen pre)); lia. }
  unfold m_copydata, slice, m.
  pose proof (zlen_nonneg pre). pose proof (zlen_nonneg post).
  replace ((0 <=? zlen pre) && (0 <=? ol) && (zlen pre + ol <=? zlen (pre ++ encs (o :: os) ++ post))) with true
    by (symmetry; rewrite !zlen_app; rewrite !andb_true_iff, !Z.leb_le; lia).
  replace (Z.to_nat (zlen pre)) with (length pre) by (unfold zlen; lia).
  rewrite drop_app_length.
  exists (take (Z.to_nat ol - length (enc o)) (encs os ++ post) ++ drop (Z.to_nat ol) buf).
  unfold encs. cbn [map concat]. rewrite <- app_assoc. rewrite take_app. rewrite (take_ge (enc o)) by (unfold zlen in *; lia).
  rewrite <- app_assoc. split; [done|].
  rewrite !length_app, length_drop, length_take, length_app, Hb. unfold zlen, encs in *. cbn [map concat] in *.
  rewrite length_app in Hol. lia.
Qed.

(** The mbuf that holds a list of options. *)
Definition mbuf_of (items : list lopt) : option (list Z) := match items with [] => None | _ => Some (encs items) end.

Lemma encs_app a b : encs (a ++ b) = encs a ++ encs b.
Proof. unfold encs. by rewrite map_app, concat_app. Qed.
Lemma encs_cons o os : encs (o :: os) = enc o ++ encs os.
Proof. done. Qed.
Lemma encs_one o : encs [o] = enc o.
Proof. unfold encs. simpl. by rewrite app_nil_r. Qed.
Lemma mbuf_snoc items o : mbuf_of (items ++ [o]) = Some (encs (items ++ [o])).
Proof. by destruct items. Qed.
Lemma default_mbuf items : default [] (mbuf_of items) = encs items.
Proof. by destruct items. Qed.

Lemma addopt_run items o junk s : plenty s -> zlen (encs items) + zlen (enc o) < 92 -> zlen (enc o) <= 34 ->
  ppp_addopt (mbuf_of items) (enc o ++ junk) s = Some (mbuf_of (items ++ [o]), s).
Proof.
  intros Hp Hl Ho. unfold ppp_addopt. rewrite (bind_nonnull _ _ _ (zlen (enc o))) by (by rewrite zlen_enc).
  rewrite (bind_run _ _ _ (Some (encs items)) s).
  2: { destruct items; [|done]. cbn [mbuf_of]. by rewrite (bind_run _ _ _ _ _ (mget_plenty s Hp)). }
  destruct (Z.leb_spec 108 (zlen (encs items) + zlen (enc o) + 16)); [lia|].
  unfold LCP_OPT_MAXSIZE. destruct (Z.ltb_spec 34 (zlen (enc o))); [lia|].
  rewrite mbuf_snoc, encs_app, encs_one. unfold kret. do 3 f_equal.
  rewrite take_app_le by (unfold zlen; lia). by rewrite take_ge by (unfold zlen; lia).
Qed.

Lemma else_codes undef o s : (spec_opt undef o s).1 = VElse ->
  (undef =? OPT_OK) = false /\ (undef =? OPT_REJ) = false /\ (undef =? OPT_NAK) = false /\ (undef =? OPT_FATAL) = false.
Proof.
  destruct o; cbn [spec_opt]; cbv zeta; try (by repeat case_match). destruct (flag_set _ _); [|done].
  cbn [fst]. unfold else_verdict. by repeat case_match.
Qed.

Section Loop.
Context (undef : Z) (in_control : bool -> Z -> ifaddrs -> ifaddrs).

Definition loop_result (r : option (Z * Z * list lopt)) : option (Z * Z * option (list Z)) :=
  match r with Some (a, b, items) => Some (a, b, mbuf_of items) | None => None end.

(** The loop over the options of a request computes the answer of [spec_opts]; it takes a turn
    for each option. *)
Lemma conf_req_opts_run post : forall os pre n buf reject nak items s,
  Forall wf_lopt os -> words s -> plenty s -> (length buf = 34)%nat -> (length os < n)%nat ->
  zlen (encs items) + zlen (encs os) < 92 ->
  conf_req_opts undef in_control n FSM_LCP (pre ++ encs os ++ post) (zlen pre + zlen (encs os)) (zlen pre) buf reject nak (mbuf_of items) s
  = Some (loop_result (spec_opts undef os reject nak items s).1, (spec_opts undef os reject nak items s).2).
Proof.
  induction os as [|o os IH]; intros pre n buf reject nak items s Hw Hwd Hp Hb Hn Hz.
  { destruct n; [simpl in Hn; lia|]. simpl. change (zlen (encs [])) with 0. rewrite Z.add_0_r, Z.leb_refl. done. }
  apply Forall_cons in Hw as [Ho Hw]. destruct n as [|n]; [lia|]. cbn [conf_req_opts].
  pose proof (enc_len o Ho) as Hlo. rewrite encs_cons, zlen_app in Hz.
  destruct (Z.leb_spec (zlen pre + zlen (encs (o :: os))) (zlen pre)).
  { rewrite encs_cons, zlen_app in *. pose proof (zlen_nonneg (encs os)). lia. }
  destruct (copy_opt pre o os post buf Ho Hb) as (junk & Hcopy & Hj). cbv zeta.
  rewrite (bind_nonnull _ _ _ _ Hcopy), (bind_nonnull _ _ _ (zlen (enc o))) by (by rewrite zlen_enc).
  unfold LCP_OPT_MAXSIZE at 1. destruct (Z.ltb_spec 34 (zlen (enc o))); [lia|]. cbn [ft_opt].
  rewrite (bind_run _ _ _ _ _ (lcp_opt_run undef o junk s Ho Hwd)).
  destruct (spec_opt_keeps undef o s Ho Hwd) as (Hwd' & Hp' & Hwv & Hlv). specialize (Hp' Hp).
  cbn [spec_opts]. destruct (spec_opt undef o s) as [v s'] eqn:Ev. cbn [fst snd] in *.
  pose proof (enc_len _ Hwv) as Hlv'.
  assert (Ezv : zlen (enc (verdict_opt o v)) = zlen (enc o)) by (rewrite !zlen_enc; lia).
  assert (Hbuf : (length (enc (verdict_opt o v) ++ junk) = 34)%nat) by (rewrite length_app in *; unfold zlen in *; lia).
  assert (E1 : pre ++ encs (o :: os) ++ post = (pre ++ enc o) ++ encs os ++ post) by (by rewrite encs_cons, <- !app_assoc).
  assert (E2 : zlen pre + zlen (encs (o :: os)) = zlen (pre ++ enc o) + zlen (encs os)) by (rewrite encs_cons, !zlen_app; lia).
  assert (E3 : zlen pre + zlen (enc o) = zlen (pre ++ enc o)) by (by rewrite zlen_app).
  rewrite E1, E2, E3. pose proof (zlen_nonneg (encs os)).
  assert (Hadd : forall its o', zlen (encs its) <= zlen (encs items) -> zlen (enc o') = zlen (enc o) ->
    ppp_addopt (mbuf_of its) (enc o' ++ junk) s' = Some (mbuf_of (its ++ [o']), s') /\
    zlen (encs (its ++ [o'])) + zlen (encs os) < 92).
  { intros its o' Hi Hz2. rewrite encs_app, zlen_app, encs_one. split; [apply addopt_run; done || lia|lia]. }
  cbn [length] in Hn.
  destruct v as [| |o'| |]; cbn [verdict_code verdict_opt] in *; zdec.
  - apply IH; done || lia.
  - destruct (Hadd (if ztrue nak then [] else items) o) as [Ha Hz']; [destruct (ztrue nak); [apply zlen_nonneg|lia]|done|].
    rewrite (bind_run _ _ _ (mbuf_of ((if ztrue nak then [] else items) ++ [o])) s') by (rewrite <- Ha; by destruct (ztrue nak)).
    apply IH; done || lia.
  - destruct (Hadd items o') as [Ha Hz']; [lia|done|]. rewrite (bind_run _ _ _ _ _ Ha). apply IH; done || lia.
  - done.
  - assert (Hu : (undef =? OPT_OK) = false /\ (undef =? OPT_REJ) = false /\ (undef =? OPT_NAK) = false /\ (undef =? OPT_FATAL) = false).
    { apply (else_codes undef o s). by rewrite Ev. }
    destruct Hu as (-> & -> & -> & ->).
    destruct (Hadd items o) as [Ha Hz']; [lia|done|]. rewrite (bind_run _ _ _ _ _ Ha). apply IH; done || lia.
Qed.
End Loop.

(** ** What the verdicts leave alone *)

(** A state apart from what the other end's options may set. *)
Definition own (s : p2pcom) : p2pcom :=
  set_mtu 0 (set_magic 0 (set_badmagic 0 (set_seeds [] (set_txflags 0 (set_params (with_cmap 0 (ppp_params s)) s))))).

Lemma spec_opt_own undef o s : own (spec_opt undef o s).2 = own s.
Proof.
  destruct o as [v|v|v| | |t d]; cbn [spec_opt].
  - by destruct (_ <? _).
  - by destruct (_ =? 0).
  - destruct ((_ =? _) || _); [|done]. cbv zeta. destruct (3 <=? _); [done|]. unfold ppp_lcp_magic. cbn [seeds set_badmagic]. by destruct (seeds s).
  - by destruct (flag_set _ _).
  - by destruct (flag_set _ _).
  - done.
Qed.

Lemma spec_opts_own undef os : forall r n its s, own (spec_opts undef os r n its s).2 = own s.
Proof.
  induction os as [|o os IH]; intros r n its s; [done|]. cbn [spec_opts]. pose proof (spec_opt_own undef o s) as H.
  destruct (spec_opt undef o s) as [v s']. cbn [snd] in H. destruct v; rewrite ?IH; done.
Qed.

(** A refusal names an option. *)
Lemma spec_opts_some undef os : forall r n its s r' n' its', 0 <= r -> 0 <= n -> (0 < r + n -> its <> []) ->
  (spec_opts undef os r n its s).1 = Some (r', n', its') -> (0 < r' + n' -> its' <> []) /\ 0 <= r' /\ 0 <= n'.
Proof.
  induction os as [|o os IH]; intros r n its s r' n' its' Hr Hn Hne; cbn [spec_opts].
  - intros [= <- <- <-]. done.
  - destruct (spec_opt undef o s) as [v s']. destruct v; [apply IH; done| |apply IH; [done|lia|]|done|apply IH; [done..|]].
    + apply IH; [lia|done|]. intros _. by destruct (if ztrue n then [] else its).
    + intros _. by destruct its.
    + intros _. by destruct its.
Qed.

Lemma spec_opts_len undef os : forall r n its s r' n' its', Forall wf_lopt os -> words s ->
  (spec_opts undef os r n its s).1 = Some (r', n', its') -> zlen (encs its') <= zlen (encs its) + zlen (encs os).
Proof.
  induction os as [|o os IH]; intros r n its s r' n' its' Hw Hwd; cbn [spec_opts].
  - intros [= <- <- <-]. change (zlen (encs [])) with 0. lia.
  - apply Forall_cons in Hw as [Ho Hw]. destruct (spec_opt_keeps undef o s Ho Hwd) as (Hwd' & _ & _ & Hl).
    destruct (spec_opt undef o s) as [v s']. cbn [fst snd] in *. rewrite encs_cons, zlen_app.
    pose proof (zlen_nonneg (encs its)). pose proof (zlen_nonneg (enc o)).
    destruct v; cbn [verdict_opt] in Hl; intros Hr; try done; apply IH in Hr; try done; rewrite ?encs_app, ?zlen_app, ?encs_one in Hr; try lia.
    + destruct (ztrue n); cbn [app] in Hr; [change (zlen (encs [])) with 0 in Hr|]; lia.
    + rewrite !zlen_enc in *. lia.
Qed.
