(* ===== verification/PppNego.v ===== *)
(** * The negotiation of a link

    What a Configure-Request asks, what its answer is, and what each side does with them. *)

From S2P Require Import Prelude Slcomp Ppp PppSpec.
Local Open Scope kern_scope.

(** ** Requests *)

Definition when (b : bool) (o : lopt) : list lopt := if b then [o] else [].

(** What an end asks of the other. *)
Definition req_opts (s : p2pcom) : list lopt :=
  let p := ppp_params s in
  when (not_rejected FSM_LCP LCP_MRU s) (Mru (ppp_mru p)) ++
  when (not_rejected FSM_LCP LCP_ACCM s) (Accm (ppp_cmap p)) ++
  when (not_rejected FSM_LCP LCP_MAGIC s) (Magic (ppp_magic s)) ++
  when (not_rejected FSM_LCP LCP_PFC s && flag_set (ppp_flags p) FLAG_PFC) Pfc ++
  when (not_rejected FSM_LCP LCP_ACFC s && flag_set (ppp_flags p) FLAG_ACFC) Acfc.

Definition creq_frame (s : p2pcom) : list Z := cp_frame PPP_LCP CP_CONF_REQ (fsm_id (ppp_lcp s)) (encs (req_opts s)).

(** The counter of requests. *)
Definition next_id (f : fsm) (s : p2pcom) : p2pcom := set_fs f (with_id (u8 (fsm_id (get_fs f s) + 1)) (get_fs f s)) s.

Lemma zlen_encs_app a b : zlen (encs (a ++ b)) = zlen (encs a) + zlen (encs b).
Proof. by rewrite encs_app, zlen_app. Qed.

(** Options of at most four bytes of data, of which a request has few. *)
Lemma when_len b o : zlen (lopt_data o) <= 4 -> 0 <= zlen (encs (when b o)) <= 6.
Proof.
  intros H. pose proof (zlen_nonneg (lopt_data o)). destruct b; simpl; [rewrite encs_one, zlen_enc; lia|done].
Qed.

Ltac few :=
  rewrite ?zlen_encs_app, ?zlen_enc;
  repeat match goal with
  | |- context [encs (when ?b ?o)] => pose proof (when_len b o ltac:(done)); generalize dependent (zlen (encs (when b o))); intros
  end; try (change (zlen (encs [])) with 0); cbn [lopt_data]; try change (zlen (be16 PPP_VJC ++ [MAX_STATES - 1; 0])) with 4; try change (zlen (be16 _)) with 2; try change (zlen (be32 _)) with 4;
  try change (zlen (@nil Z)) with 0; lia.

Lemma req_len s : zlen (encs (req_opts s)) <= 30.
Proof. unfold req_opts. cbv zeta. few. Qed.

Lemma creq_end f m s : plenty s -> zlen (default [] m) < 100 ->
  kbind (next_cp_id f) (fun id => ppp_cp_prepend m (ft_type f) CP_CONF_REQ id 0) s =
  Some (Some (cp_frame (ft_type f) CP_CONF_REQ (fsm_id (get_fs f (next_id f s))) (default [] m)), next_id f s).
Proof.
  intros Hp Hm. unfold next_cp_id. rewrite (bind_run _ _ s (fsm_id (get_fs f (next_id f s))) (next_id f s)) by (by destruct f).
  apply prepend_run; [by destruct f|lia].
Qed.

(** ** The queue *)

(** A state apart from its queue for priority packets and the counters of output. *)
Definition calm (s : p2pcom) : p2pcom := set_isnd [] (set_obytes 0 (set_drops 0 (set_starts 0 s))).

Definition queued (cnt fr : list Z) (s : p2pcom) : p2pcom :=
  set_starts (if flag_set (if_flags s) IFF_OACTIVE then if_starts s else if_starts s + 1)
    (set_isnd (p2p_isnd s ++ [fr]) (set_obytes (if_obytes s + zlen cnt) s)).

Lemma queue_run cnt fr s : qfull2 s = false -> ppp_queue true cnt fr s = Some (tt, queued cnt fr s).
Proof. intros Hq. unfold ppp_queue. rewrite bind_get, Hq. done. Qed.

(** Whether the queue is full or not. *)
Lemma queue_any cnt fr s : exists s' x, ppp_queue true cnt fr s = Some (tt, s') /\ calm s' = calm s /\ p2p_isnd s' = p2p_isnd s ++ x.
Proof.
  unfold ppp_queue. rewrite bind_get. destruct (qfull2 s).
  - exists (set_drops (if_drops s + 1) s), []. rewrite app_nil_r. done.
  - exists (queued cnt fr s), [fr]. done.
Qed.

(** ** The changes of an answer *)

Definition spec_nak (o : lopt) (s : p2pcom) : p2pcom :=
  match o with
  | Mru v => set_params (with_mru v (ppp_params s)) s
  | Accm v => set_params (with_cmap (Z.lor (ppp_cmap (ppp_params s)) v) (ppp_params s)) s
  | Magic v => if ppp_magic s =? v then match ppp_lcp_magic s with Some (n, s') => set_magic n s' | None => s end else s
  | _ => s
  end.

Definition drop_flag (v : Z) (s : p2pcom) : p2pcom :=
  set_params (with_pflags (Z.ldiff (ppp_flags (ppp_params s)) v) (ppp_params s)) s.

Definition spec_rej (o : lopt) (s : p2pcom) : p2pcom :=
  let s := set_lcp (with_rej (u16 (Z.lor (fsm_rej (ppp_lcp s)) (Z.shiftl 1 (lopt_type o mod 32)))) (ppp_lcp s)) s in
  let t := lopt_type o in
  if t =? LCP_MRU then set_params (with_mru HDLCMTU (ppp_params s)) s
  else if t =? LCP_PFC then drop_flag FLAG_PFC s
  else if t =? LCP_ACFC then drop_flag FLAG_ACFC s
  else s.

Definition known (o : lopt) : Prop := match o with Unknown _ _ => False | _ => True end.

Lemma optnak_run o junk s : wf_lopt o -> known o -> ppp_lcp_optnak (enc o ++ junk) s = Some (tt, spec_nak o s).
Proof.
  intros Hw Hk. unfold ppp_lcp_optnak. rewrite (bind_nonnull _ _ _ (lopt_type o)) by done.
  destruct o as [v|v|v| | |]; [| | |done..]; cbn [lopt_type]; zdec; simpl in Hw.
  - rewrite (bind_nonnull _ _ _ v) by (by apply get16_enc). done.
  - rewrite (bind_nonnull _ _ _ v) by (by apply get32_enc). done.
  - rewrite (bind_nonnull _ _ _ v) by (by apply get32_enc). rewrite bind_get. cbn [spec_nak].
    destruct (ppp_magic s =? v); [|done]. unfold kbind. unfold ppp_lcp_magic. by destruct (seeds s).
Qed.

Lemma optrej_run o junk s : ppp_lcp_optrej (enc o ++ junk) (set_lcp (with_rej (u16 (Z.lor (fsm_rej (ppp_lcp s)) (Z.shiftl 1 (lopt_type o mod 32)))) (ppp_lcp s)) s) = Some (tt, spec_rej o s).
Proof.
  unfold ppp_lcp_optrej. rewrite (bind_nonnull _ _ _ (lopt_type o)) by done. unfold spec_rej. cbv zeta.
  destruct (_ =? LCP_MRU); [done|]. destruct (_ =? LCP_PFC); [done|]. by destruct (_ =? LCP_ACFC).
Qed.

Definition spec_nak_one (rej : bool) (s : p2pcom) (o : lopt) : p2pcom := if rej then spec_rej o s else spec_nak o s.

Section Nego.
Context (undef : Z) (in_control : bool -> Z -> ifaddrs -> ifaddrs) (stack : list Z) (rbuf : rbuffer).

(** ** Packets *)

Lemma cp_in_packet f code id b s : is_u8 code -> is_u8 id -> zlen b < 1000 ->
  negb (fsm_state (get_fs f s) =? CP_INITIAL) && negb (fsm_state (get_fs f s) =? CP_STARTING) = true ->
  cp_in_found undef in_control stack f (cp_packet code id b) s =
  (if code =? CP_CONF_REQ then cp_conf_req undef in_control stack f b (zlen b) id
   else if code =? CP_CONF_ACK then cp_conf_ack stack f id
   else if code =? CP_CONF_NAK then cp_conf_nak in_control stack f false b (zlen b) id
   else if code =? CP_CONF_REJ then cp_conf_nak in_control stack f true b (zlen b) id
   else if code =? CP_TERM_REQ then cp_term_req f b id
   else if code =? CP_TERM_ACK then cp_term_ack stack f
   else if code =? CP_CODE_REJ then kret tt
   else cp_other f (take 4 (cp_packet code id b)) b code id) s.
Proof.
  intros Hc Hi Hb Hst. pose proof (zlen_nonneg b). unfold cp_in_found.
  assert (El : zlen (cp_packet code id b) = 4 + zlen b) by (unfold cp_packet; by rewrite zlen_app).
  rewrite (bind_nonnull _ _ _ (4 + zlen b)) by (unfold get16; simpl; f_equal; mlia). rewrite El, Z.ltb_irrefl.
  rewrite (bind_nonnull _ _ _ (take 4 (cp_packet code id b))).
  2: { unfold slice. rewrite El. destruct (Z.leb_spec (0 + 4) (4 + zlen b)); [done|lia]. }
  unfold fs_state. rewrite bind_gets. destruct (fsm_state (get_fs f s) =? CP_INITIAL); [done|].
  destruct (fsm_state (get_fs f s) =? CP_STARTING); [done|]. cbn [orb].
  rewrite (bind_nonnull _ _ _ code) by done. rewrite (bind_nonnull _ _ _ id) by done. cbv zeta.
  replace (4 + zlen b - 4) with (zlen b) by lia. done.
Qed.

(** A frame of one of the automata comes in. *)
Lemma input_frame f code id b s :
  ppp_input undef in_control stack rbuf (cp_frame (ft_type f) code id b) s =
  cp_in_found undef in_control stack f (cp_packet code id b) (set_ibytes (if_ibytes s + zlen (cp_frame (ft_type f) code id b)) s).
Proof.
  unfold ppp_input. rewrite bind_mod. rewrite (bind_nonnull _ _ _ (ft_type f, cp_packet code id b)) by (by destruct f).
  destruct (Z.leb_spec (zlen (cp_packet code id b)) 0) as [H|_].
  { unfold cp_packet in H. rewrite zlen_app in H. pose proof (zlen_nonneg b). unfold zlen at 1 in H. simpl in H. lia. }
  by destruct f.
Qed.

(** ** Requests of the two protocols *)

Hypothesis stack_len : (length stack = 34)%nat.

Lemma opt_bytes_enc o : opt_bytes stack (lopt_type o) (lopt_data o) = enc o ++ drop (length (enc o)) stack.
Proof. done. Qed.

Lemma add_if_run b items o s : plenty s -> zlen (encs items) + zlen (enc o) < 92 -> zlen (enc o) <= 34 ->
  add_if stack b (mbuf_of items) (lopt_type o) (lopt_data o) s = Some (mbuf_of (items ++ when b o), s).
Proof.
  intros Hp H1 H2. destruct b; simpl; [|by rewrite app_nil_r]. rewrite opt_bytes_enc. by apply addopt_run.
Qed.

Lemma lcp_creq_run s : plenty s ->
  ppp_lcp_creq stack s = Some (Some (creq_frame (next_id FSM_LCP s)), next_id FSM_LCP s).
Proof.
  intros Hp. unfold ppp_lcp_creq. rewrite bind_get. cbv zeta.
  erewrite bind_run by (apply (add_if_run _ [] (Mru _)); [done|few..]).
  erewrite bind_run by (apply (add_if_run _ _ (Accm _)); [done|few..]).
  erewrite bind_run by (apply (add_if_run _ _ (Magic _)); [done|few..]).
  erewrite bind_run by (apply (add_if_run _ _ Pfc); [done|few..]).
  erewrite bind_run by (apply (add_if_run _ _ Acfc); [done|few..]).
  rewrite (creq_end FSM_LCP) by (first [done|rewrite default_mbuf; few]). rewrite default_mbuf, <- !app_assoc. done.
Qed.

Definition ipcp_req_opts (s : p2pcom) : list lopt :=
  when (not_rejected FSM_IPCP IPCP_CPROT s && flag_set (ppp_flags (ppp_params s)) FLAG_TCPC)
    (Unknown IPCP_CPROT (be16 PPP_VJC ++ [MAX_STATES - 1; 0])) ++
  when (not_rejected FSM_IPCP IPCP_ADDR s) (Unknown IPCP_ADDR (be32 (ppp_ipcp_getaddr false s))).

Lemma ipcp_creq_run s : plenty s ->
  ppp_ipcp_creq stack s =
  Some (Some (cp_frame PPP_IPCP CP_CONF_REQ (fsm_id (ppp_ipcp (next_id FSM_IPCP s))) (encs (ipcp_req_opts s))), next_id FSM_IPCP s).
Proof.
  intros Hp. unfold ppp_ipcp_creq. rewrite bind_get.
  erewrite bind_run by (apply (add_if_run _ [] (Unknown IPCP_CPROT (be16 PPP_VJC ++ [MAX_STATES - 1; 0]))); [done|few..]).
  erewrite bind_run by (apply (add_if_run _ _ (Unknown IPCP_ADDR (be32 (ppp_ipcp_getaddr false s)))); [done|few..]).
  rewrite (creq_end FSM_IPCP) by (first [done|rewrite default_mbuf; few]). by rewrite default_mbuf.
Qed.

Definition creq_of (f : fsm) (s : p2pcom) : list Z :=
  match f with
  | FSM_LCP => creq_frame s
  | FSM_IPCP => cp_frame PPP_IPCP CP_CONF_REQ (fsm_id (ppp_ipcp s)) (encs (ipcp_req_opts s))
  end.

Lemma ft_creq_run f s : plenty s -> ft_creq stack f s = Some (Some (creq_of f (next_id f s)), next_id f s).
Proof. destruct f; [apply lcp_creq_run|apply ipcp_creq_run]. Qed.

(** The request is sent and the timer runs. *)
Lemma send_creq_run f s : plenty s -> qfull2 s = false ->
  send_creq stack f s = Some (tt, queued (creq_of f (next_id f s)) (creq_of f (next_id f s)) (set_callouts (callouts s ++ [f]) (next_id f s))).
Proof.
  intros Hp Hq. unfold send_creq. rewrite (bind_run _ _ _ _ _ (ft_creq_run f s Hp)).
  unfold start_timer. rewrite bind_mod. replace (callouts (next_id f s)) with (callouts s) by (by destruct f). cbn [sendout].
  apply queue_run. by destruct f.
Qed.

Lemma send_creq_any f s : plenty s ->
  exists s' x, send_creq stack f s = Some (tt, s') /\ calm s' = calm (set_callouts (callouts s ++ [f]) (next_id f s)) /\ p2p_isnd s' = p2p_isnd s ++ x.
Proof.
  intros Hp. unfold send_creq. rewrite (bind_run _ _ _ _ _ (ft_creq_run f s Hp)).
  unfold start_timer. rewrite bind_mod. replace (callouts (next_id f s)) with (callouts s) by (by destruct f). cbn [sendout].
  destruct (queue_any (creq_of f (next_id f s)) (creq_of f (next_id f s)) (set_callouts (callouts s ++ [f]) (next_id f s)))
    as (s' & x & H1 & H2 & H3). exists s', x. split_and!; [done|done|]. rewrite H3. by destruct f.
Qed.
(** ** What an answer changes *)

Lemma conf_nak_opts_run rej post : forall os pre n buf s,
  Forall wf_lopt os -> (rej = false -> Forall known os) -> (length buf = 34)%nat -> (length os < n)%nat ->
  conf_nak_opts in_control n FSM_LCP rej (pre ++ encs os ++ post) (zlen pre + zlen (encs os)) (zlen pre) buf s
  = Some (tt, fold_left (spec_nak_one rej) os s).
Proof.
  induction os as [|o os IH]; intros pre n buf s Hw Hk Hb Hn.
  { destruct n; [simpl in Hn; lia|]. simpl. change (zlen (encs [])) with 0. rewrite Z.add_0_r, Z.leb_refl. done. }
  apply Forall_cons in Hw as [Ho Hw]. destruct n as [|n]; [lia|]. cbn [conf_nak_opts].
  pose proof (enc_len o Ho) as Hlo. pose proof (zlen_nonneg (encs os)).
  destruct (Z.leb_spec (zlen pre + zlen (encs (o :: os))) (zlen pre)); [rewrite encs_cons, zlen_app in *; lia|].
  destruct (copy_opt pre o os post buf Ho Hb) as (junk & Hcopy & Hj). cbv zeta.
  rewrite (bind_nonnull _ _ _ _ Hcopy), (bind_nonnull _ _ _ (lopt_type o)), (bind_nonnull _ _ _ (zlen (enc o))) by (done || by rewrite zlen_enc).
  assert (E1 : pre ++ encs (o :: os) ++ post = (pre ++ enc o) ++ encs os ++ post) by (by rewrite encs_cons, <- !app_assoc).
  assert (E2 : zlen pre + zlen (encs (o :: os)) = zlen (pre ++ enc o) + zlen (encs os)) by (rewrite encs_cons, !zlen_app; lia).
  assert (E3 : zlen pre + zlen (enc o) = zlen (pre ++ enc o)) by (by rewrite zlen_app).
  rewrite E1, E2, E3. cbn [length] in Hn. cbn [fold_left]. rewrite (bind_run _ _ _ tt (spec_nak_one rej s o)).
  { apply IH; [done| |done|lia]. intros Hr. specialize (Hk Hr). by apply Forall_cons in Hk as [_ Hk]. }
  destruct rej; [|apply optnak_run; [done|by specialize (Hk eq_refl); apply Forall_cons in Hk as [Hk _]]].
  unfold fs_mod. rewrite bind_mod. cbn [ft_optrej get_fs set_fs]. apply optrej_run.
Qed.
End Nego.
