(* ===== verification/PppAgree.v ===== *)
(** * Two ends of a line come to agree

    The requests of one end are carried to the other and the answers back, as the frames the
    drivers take from the queues, until one is acknowledged. *)

From S2P Require Import Prelude Slcomp Ppp PppSpec PppNego.
Local Open Scope kern_scope.

(** ** What an end asks and what the other has *)

Definition wants (t flag : Z) (a : p2pcom) : bool := not_rejected FSM_LCP t a && flag_set (ppp_flags (ppp_params a)) flag.
Definition wants_pfc := wants LCP_PFC FLAG_PFC.
Definition wants_acfc := wants LCP_ACFC FLAG_ACFC.
Definition has_pfc (b : p2pcom) : bool := flag_set (ppp_flags (ppp_params b)) FLAG_PFC.
Definition has_acfc (b : p2pcom) : bool := flag_set (ppp_flags (ppp_params b)) FLAG_ACFC.

(** The unit asked is too small, the map asked leaves out a character of the other's. *)
Definition small_mru (a : p2pcom) : bool := s16 (ppp_mru (ppp_params a)) <? LCP_MIN_RMU.
Definition short_map (a b : p2pcom) : bool := negb (Z.ldiff (ppp_cmap (ppp_params b)) (ppp_cmap (ppp_params a)) =? 0).
Definition no_pfc (a b : p2pcom) : bool := wants_pfc a && negb (has_pfc b).
Definition no_acfc (a b : p2pcom) : bool := wants_acfc a && negb (has_acfc b).

(** How far the two ends are from agreeing. *)
Definition distance (a b : p2pcom) : nat :=
  (if no_pfc a b then 1 else 0) + (if no_acfc a b then 1 else 0) + (if small_mru a || short_map a b then 1 else 0).

Lemma distance_most a b : (distance a b <= 3)%nat.
Proof. unfold distance. destruct (no_pfc a b), (no_acfc a b), (small_mru a || short_map a b); lia. Qed.

Record asker (a : p2pcom) : Prop := {
  as_plenty : plenty a;
  as_words : words a;
  as_mru : is_u16 (ppp_mru (ppp_params a));
  as_id : is_u8 (fsm_id (ppp_lcp a));
  as_state : fsm_state (ppp_lcp a) = CP_REQSENT \/ fsm_state (ppp_lcp a) = CP_ACKSENT;
  as_all : not_rejected FSM_LCP LCP_MRU a = true /\ not_rejected FSM_LCP LCP_ACCM a = true /\ not_rejected FSM_LCP LCP_MAGIC a = true;
  as_snd : if_snd a = [];
  as_max : 4 <= if_maxlen a;
  as_sent : p2p_isnd a = [creq_frame a] }.

Record answerer (b : p2pcom) : Prop := {
  an_plenty : plenty b;
  an_words : words b;
  an_state : fsm_state (ppp_lcp b) = CP_REQSENT \/ fsm_state (ppp_lcp b) = CP_ACKRCVD \/ fsm_state (ppp_lcp b) = CP_ACKSENT;
  an_snd : if_snd b = [];
  an_max : 4 <= if_maxlen b;
  an_sent : p2p_isnd b = [] }.

(** Different numbers at the two ends: the line is not a loop. *)
Definition apart (a b : p2pcom) : Prop := ppp_magic a <> ppp_magic b /\ ppp_magic a <> 0.

Lemma asker_opts a : asker a -> req_opts a =
  [Mru (ppp_mru (ppp_params a)); Accm (ppp_cmap (ppp_params a)); Magic (ppp_magic a)] ++ when (wants_pfc a) Pfc ++ when (wants_acfc a) Acfc.
Proof. intros H. destruct (as_all a H) as (H1 & H2 & H3). unfold req_opts. by rewrite H1, H2, H3. Qed.

Lemma set_lcp_id s : set_lcp (ppp_lcp s) s = s.
Proof. by destruct s. Qed.

Lemma room s : if_snd s = [] -> p2p_isnd s = [] -> 4 <= if_maxlen s -> qfull2 s = false.
Proof. intros H1 H2 H3. unfold qfull2. rewrite H1, H2. apply Z.leb_gt. change (zlen [] + zlen []) with 0. lia. Qed.

(** The end that refuses goes back to [REQSENT], unless its own request has been accepted. *)
Definition refused (s : p2pcom) : p2pcom :=
  set_lcp (if fsm_state (ppp_lcp s) =? CP_ACKRCVD then ppp_lcp s else with_state CP_REQSENT (ppp_lcp s)) s.

Lemma refuse_run code id items s : plenty s -> qfull2 s = false -> items <> [] -> zlen (encs items) < 100 ->
  let fr := cp_frame PPP_LCP code id (encs items) in
  send_refusal FSM_LCP code id (mbuf_of items) s = Some (tt, queued fr fr (refused s)).
Proof.
  intros Hp Hq Hi Hz fr. unfold send_refusal. destruct (mbuf_of items) as [m|] eqn:E; [|by destruct items].
  rewrite (bind_run _ _ _ _ _ (prepend_run (Some m) _ _ _ _ Hp ltac:(by rewrite <- E, default_mbuf; lia))).
  unfold fs_state. rewrite bind_gets. cbn [get_fs]. rewrite <- E, default_mbuf.
  rewrite (bind_run _ _ _ tt (refused s)).
  - apply queue_run. exact Hq.
  - unfold refused. destruct (_ =? CP_ACKRCVD); [by rewrite set_lcp_id|done].
Qed.

Lemma req_wf a : asker a -> Forall wf_lopt (req_opts a).
Proof.
  intros Ha. rewrite (asker_opts a Ha). destruct (as_words a Ha) as [H1 H2]. pose proof (as_mru a Ha).
  by destruct (wants_pfc a), (wants_acfc a); repeat apply Forall_cons_2.
Qed.

Lemma few_turns os : (length os < opt_turns (zlen (encs os)))%nat.
Proof.
  unfold opt_turns. enough (Z.of_nat (length os) <= zlen (encs os)) by lia. induction os as [|o os IH]; [done|].
  rewrite encs_cons, zlen_app, zlen_enc. pose proof (zlen_nonneg (lopt_data o)). cbn [length]. lia.
Qed.

(** A request that comes in from the line. *)
Definition heard (fr : list Z) (s : p2pcom) : p2pcom := set_ibytes (if_ibytes s + zlen fr) s.

(** What is done with the verdicts on a request. *)
Definition answer_with (stack : list Z) (r : option (Z * Z * option (list Z))) (m : list Z) (id : Z) : M unit :=
  match r with
  | None => ppp_cp_close FSM_LCP
  | Some (reject, nak, m0) =>
    if ztrue reject then send_refusal FSM_LCP CP_CONF_REJ id m0
    else if ztrue nak then send_refusal FSM_LCP CP_CONF_NAK id m0
    else send_conf_ack stack FSM_LCP m id
  end.

Section Request.
Context (undef : Z) (in_control : bool -> Z -> ifaddrs -> ifaddrs) (stack : list Z) (rbuf : rbuffer).
Hypothesis stack_len : (length stack = 34)%nat.

Lemma conf_req_in os id b : answerer b -> Forall wf_lopt os -> zlen (encs os) < 92 -> is_u8 id ->
  let fr := cp_frame PPP_LCP CP_CONF_REQ id (encs os) in
  let r := spec_opts undef os 0 0 [] (heard fr b) in
  ppp_input undef in_control stack rbuf fr b = answer_with stack (loop_result r.1) (encs os) id r.2.
Proof.
  intros Hb Hw Hz Hi fr r. unfold fr. rewrite (input_frame _ _ _ _ FSM_LCP). set (b1 := heard fr b) in *. change (set_ibytes _ b) with b1.
  assert (Hst : fsm_state (ppp_lcp b1) = CP_REQSENT \/ fsm_state (ppp_lcp b1) = CP_ACKRCVD \/ fsm_state (ppp_lcp b1) = CP_ACKSENT) by apply Hb.
  rewrite cp_in_packet; [|done|done|lia|cbn [get_fs]; by destruct Hst as [-> | [-> | ->]]].
  cbn [get_fs]. unfold cp_conf_req, fs_state. zdec. rewrite bind_gets. cbn [get_fs].
  assert (Hag : conf_req_again stack FSM_LCP (encs os) (fsm_state (ppp_lcp b1)) b1 = Some (tt, b1))
    by (unfold conf_req_again; by destruct Hst as [-> | [-> | ->]]).
  assert (Hif : (fsm_state (ppp_lcp b1) =? CP_CLOSING) || (fsm_state (ppp_lcp b1) =? CP_STOPPING) = false /\
    (fsm_state (ppp_lcp b1) =? CP_CLOSED) = false) by (by destruct Hst as [-> | [-> | ->]]).
  destruct Hif as (-> & ->). rewrite (bind_run _ _ _ _ _ Hag).
  pose proof (conf_req_opts_run undef in_control [] os [] (opt_turns (zlen (encs os))) stack 0 0 [] b1) as Hrun.
  rewrite app_nil_r in Hrun. change (zlen []) with 0 in Hrun. rewrite !Z.add_0_l in Hrun. cbn [app mbuf_of] in Hrun.
  rewrite (bind_run _ _ _ _ _ (Hrun Hw (an_words b Hb) (an_plenty b Hb) stack_len (few_turns os) ltac:(change (zlen (encs [])) with 0; lia))).
  fold r. unfold answer_with. destruct r.1 as [[[re na] its]|]; done.
Qed.
End Request.

Section Agree.
Context (undef : Z) (in_control : bool -> Z -> ifaddrs -> ifaddrs) (stack : list Z) (rbuf : rbuffer).
Hypothesis stack_len : (length stack = 34)%nat.
Hypothesis undef_harmless : undef <> OPT_REJ /\ undef <> OPT_NAK /\ undef <> OPT_FATAL.

(** ** The verdict on a request *)

(** The compression of protocol numbers, accepted without a verdict. *)
Definition left_over (a b : p2pcom) : list lopt := when (wants_pfc a && has_pfc b && negb (undef =? OPT_OK)) Pfc.
Definition naks (a b : p2pcom) : list lopt :=
  when (small_mru a) (Mru LCP_MIN_RMU) ++ when (short_map a b) (Accm (Z.lor (ppp_cmap (ppp_params a)) (ppp_cmap (ppp_params b)))).

(** The options of the answer. *)
Definition answer (a b : p2pcom) : list lopt :=
  if no_acfc a b then
    if small_mru a || short_map a b then [Acfc] else left_over a b ++ when (no_pfc a b) Pfc ++ [Acfc]
  else if no_pfc a b then [Pfc]
  else naks a b ++ left_over a b.

Lemma else_pfc : else_verdict undef Pfc = if undef =? OPT_OK then VOk else VElse.
Proof.
  unfold else_verdict. destruct undef_harmless as (H1 & H2 & H3). destruct (undef =? OPT_OK); [done|].
  rewrite (proj2 (Z.eqb_neq _ _) H1), (proj2 (Z.eqb_neq _ _) H2), (proj2 (Z.eqb_neq _ _) H3). done.
Qed.

Definition bz (b : bool) : Z := if b then 1 else 0.

(** Where the answering end keeps what it accepted. *)
Definition accept_map (a b : p2pcom) : p2pcom :=
  let b := set_mtu (s16 (ppp_mru (ppp_params a))) b in
  if short_map a b then b else set_params (with_cmap (ppp_cmap (ppp_params a)) (ppp_params b)) b.
Definition accept_flag (c : bool) (v : Z) (b : p2pcom) : p2pcom := if c then set_txflags (Z.lor (ppp_txflags b) v) b else b.
Definition accepted (a b : p2pcom) : p2pcom :=
  accept_flag (wants_acfc a && has_acfc b) FLAG_ACFC (accept_flag (wants_pfc a && has_pfc b) FLAG_PFC (accept_map a b)).

Lemma step_mru a os r n its b :
  spec_opts undef (Mru (ppp_mru (ppp_params a)) :: os) r n its b =
  spec_opts undef os r (n + bz (small_mru a)) (its ++ when (small_mru a) (Mru LCP_MIN_RMU)) (set_mtu (s16 (ppp_mru (ppp_params a))) b).
Proof.
  cbn [spec_opts spec_opt]. unfold small_mru. destruct (_ <? _); cbn [bz when]; [done|by rewrite Z.add_0_r, app_nil_r].
Qed.

Lemma step_accm a os r n its b : let c := ppp_cmap (ppp_params a) in
  spec_opts undef (Accm c :: os) r n its b =
  spec_opts undef os r (n + bz (short_map a b)) (its ++ when (short_map a b) (Accm (Z.lor c (ppp_cmap (ppp_params b)))))
    (if short_map a b then b else set_params (with_cmap c (ppp_params b)) b).
Proof.
  cbv zeta. cbn [spec_opts spec_opt]. unfold short_map.
  destruct (_ =? 0); cbn [bz when negb]; [by rewrite Z.add_0_r, app_nil_r|done].
Qed.

Lemma step_magic a os r n its b : ppp_magic a <> ppp_magic b -> ppp_magic a <> 0 ->
  spec_opts undef (Magic (ppp_magic a) :: os) r n its b = spec_opts undef os r n its b.
Proof.
  intros Hm Hz. cbn [spec_opts spec_opt]. destruct (Z.eqb_spec (ppp_magic b) (ppp_magic a)); [congruence|].
  destruct (Z.eqb_spec (ppp_magic a) 0); [done|]. done.
Qed.

Lemma step_pfc P os r n its b :
  spec_opts undef (when P Pfc ++ os) r n its b =
  spec_opts undef os (r + bz (P && negb (has_pfc b))) n
    (if P && negb (has_pfc b) then (if ztrue n then [] else its) ++ [Pfc] else its ++ when (P && has_pfc b && negb (undef =? OPT_OK)) Pfc)
    (accept_flag (P && has_pfc b) FLAG_PFC b).
Proof.
  destruct P; simpl; [|by rewrite Z.add_0_r, app_nil_r]. fold (has_pfc b).
  destruct (has_pfc b); cbn [negb bz]; [|done]. rewrite else_pfc, Z.add_0_r.
  destruct (undef =? OPT_OK); cbn [negb when]; [by rewrite app_nil_r|done].
Qed.

Lemma step_acfc F r n its b :
  spec_opts undef (when F Acfc) r n its b =
  (Some (r + bz (F && negb (has_acfc b)), n, if F && negb (has_acfc b) then (if ztrue n then [] else its) ++ [Acfc] else its),
   accept_flag (F && has_acfc b) FLAG_ACFC b).
Proof.
  destruct F; simpl; [|by rewrite Z.add_0_r]. fold (has_acfc b).
  destruct (has_acfc b); cbn [negb bz]; [by rewrite Z.add_0_r|done].
Qed.

Lemma verdicts a b : asker a -> apart a b ->
  spec_opts undef (req_opts a) 0 0 [] b =
  (Some (bz (no_pfc a b) + bz (no_acfc a b), bz (small_mru a) + bz (short_map a b), answer a b), accepted a b).
Proof.
  intros Ha [Hm Hz]. rewrite (asker_opts a Ha). cbn [app]. rewrite step_mru, step_accm.
  change (short_map a (set_mtu _ b)) with (short_map a b).
  rewrite step_magic by (try done; by destruct (short_map a b)). rewrite step_pfc, step_acfc.
  unfold accepted, answer, left_over, naks, accept_map, no_pfc, no_acfc. cbv zeta.
  change (short_map a (set_mtu _ b)) with (short_map a b). set (b1 := if short_map a b then _ else _).
  assert (has_pfc b1 = has_pfc b) as -> by (unfold b1; by destruct (short_map a b)).
  assert (has_acfc (accept_flag (wants_pfc a && has_pfc b) FLAG_PFC b1) = has_acfc b) as ->
    by (unfold b1; by destruct (short_map a b), (wants_pfc a && has_pfc b)).
  cbn [ppp_params set_mtu]. destruct (undef =? OPT_OK), (small_mru a), (short_map a b), (wants_pfc a), (wants_acfc a), (has_pfc b), (has_acfc b);
    reflexivity.
Qed.

(** ** The other end answers *)

Lemma tlu_run s : plenty s -> exists s' x, ppp_lcp_tlu stack s = Some (tt, s') /\
  ppp_lcp s' = ppp_lcp s /\ ppp_params s' = ppp_params s /\ if_mtu s' = if_mtu s /\ p2p_isnd s' = p2p_isnd s ++ x.
Proof.
  intros Hp. unfold ppp_lcp_tlu. rewrite !bind_mod. cbv beta. unfold ppp_cp_up, newstate, fs_mod.
  set (s1 := set_ncps _ _).
  set (s2 := set_fs FSM_IPCP (with_state CP_REQSENT (get_fs FSM_IPCP (set_fs FSM_IPCP (with_rej 0 (with_rc (ppp_maxconf (ppp_dflt s1)) (get_fs FSM_IPCP s1))) s1)))
    (set_fs FSM_IPCP (with_rej 0 (with_rc (ppp_maxconf (ppp_dflt s1)) (get_fs FSM_IPCP s1))) s1)).
  destruct (send_creq_any stack stack_len FSM_IPCP s2 Hp) as (s3 & x & H1 & H2 & H3).
  exists (set_flags (Z.lor (if_flags s3) IFF_RUNNING) s3), x.
  split_and!; [|exact (f_equal ppp_lcp H2)|exact (f_equal ppp_params H2)|exact (f_equal if_mtu H2)|exact H3].
  rewrite (bind_run _ _ _ tt s3); [done|]. rewrite !bind_mod. exact H1.
Qed.

Lemma accepted_keeps a b : ppp_lcp (accepted a b) = ppp_lcp b /\ ppp_magic (accepted a b) = ppp_magic b /\
  ppp_flags (ppp_params (accepted a b)) = ppp_flags (ppp_params b) /\ calm (accepted a b) = accepted a (calm b) /\
  ppp_cmap (ppp_params (accepted a b)) = (if short_map a b then ppp_cmap (ppp_params b) else ppp_cmap (ppp_params a)) /\
  if_mtu (accepted a b) = s16 (ppp_mru (ppp_params a)) /\ mb_avail (accepted a b) = mb_avail b /\
  if_snd (accepted a b) = if_snd b /\ if_maxlen (accepted a b) = if_maxlen b /\ p2p_isnd (accepted a b) = p2p_isnd b.
Proof.
  unfold accepted, accept_map. cbv zeta. change (short_map a (set_mtu _ b)) with (short_map a b).
  change (short_map a (set_mtu _ (calm b))) with (short_map a b). change (has_pfc (calm b)) with (has_pfc b). change (has_acfc (calm b)) with (has_acfc b).
  destruct (short_map a b), (wants_acfc a && has_acfc b), (wants_pfc a && has_pfc b); cbn [accept_flag]; split_and!; reflexivity.
Qed.

Lemma answer_len a b : zlen (encs (answer a b)) <= 12.
Proof.
  unfold answer, naks, left_over.
  destruct (no_acfc a b), (no_pfc a b), (small_mru a), (short_map a b), (wants_pfc a && has_pfc b && negb (undef =? OPT_OK)); apply Z.leb_le; reflexivity.
Qed.

Lemma answer_some a b : no_pfc a b || no_acfc a b || (small_mru a || short_map a b) = true -> answer a b <> [].
Proof.
  unfold answer, naks, left_over.
  by destruct (no_acfc a b), (no_pfc a b), (small_mru a), (short_map a b), (wants_pfc a && has_pfc b && negb (undef =? OPT_OK)).
Qed.

Lemma request_in a b : asker a -> answerer b -> apart a b -> let fr := creq_frame a in
  ppp_input undef in_control stack rbuf fr b =
  (let id := fsm_id (ppp_lcp a) in
   if no_pfc a b || no_acfc a b then send_refusal FSM_LCP CP_CONF_REJ id (mbuf_of (answer a b))
   else if small_mru a || short_map a b then send_refusal FSM_LCP CP_CONF_NAK id (mbuf_of (answer a b))
   else send_conf_ack stack FSM_LCP (encs (req_opts a)) id) (accepted a (heard fr b)).
Proof.
  intros Ha Hb Hap fr. pose proof (req_len a) as Hl. unfold fr, creq_frame.
  rewrite (conf_req_in undef in_control stack rbuf stack_len _ _ _ Hb (req_wf a Ha) ltac:(lia) (as_id a Ha)).
  change (cp_frame PPP_LCP CP_CONF_REQ (fsm_id (ppp_lcp a)) (encs (req_opts a))) with (creq_frame a).
  rewrite (verdicts a (heard (creq_frame a) b) Ha Hap). cbn [fst snd loop_result]. cbv zeta. unfold answer_with.
  destruct (no_pfc a b) eqn:E1, (no_acfc a b) eqn:E2, (small_mru a) eqn:E3, (short_map a b) eqn:E4;
    change (no_pfc a (heard _ b)) with (no_pfc a b); change (no_acfc a (heard _ b)) with (no_acfc a b);
    change (short_map a (heard _ b)) with (short_map a b); rewrite E1, E2, E4; reflexivity.
Qed.

(** ** The asking end hears the answer *)

Lemma keeps_one rej o s : let s' := spec_nak_one rej s o in
  mb_avail s' = mb_avail s /\ if_snd s' = if_snd s /\ p2p_isnd s' = p2p_isnd s /\ if_maxlen s' = if_maxlen s /\
  fsm_state (ppp_lcp s') = fsm_state (ppp_lcp s) /\ fsm_id (ppp_lcp s') = fsm_id (ppp_lcp s).
Proof.
  cbv zeta. destruct rej; cbn [spec_nak_one].
  - unfold spec_rej. cbv zeta. by repeat case_match.
  - destruct o; try done. cbn [spec_nak]. destruct (_ =? _); [|done]. unfold ppp_lcp_magic. by destruct (seeds s).
Qed.

Lemma keeps_fold rej items : forall s, let s' := fold_left (spec_nak_one rej) items s in
  mb_avail s' = mb_avail s /\ if_snd s' = if_snd s /\ p2p_isnd s' = p2p_isnd s /\ if_maxlen s' = if_maxlen s /\
  fsm_state (ppp_lcp s') = fsm_state (ppp_lcp s) /\ fsm_id (ppp_lcp s') = fsm_id (ppp_lcp s).
Proof.
  induction items as [|o items IH]; intros s; [done|]. cbn [fold_left]. cbv zeta.
  destruct (IH (spec_nak_one rej s o)) as (H1 & H2 & H3 & H4 & H5 & H6).
  destruct (keeps_one rej o s) as (K1 & K2 & K3 & K4 & K5 & K6).
  rewrite H1, H2, H3, H4, H5, H6. done.
Qed.

(** The end whose request was refused, before the next one. *)
Definition listening (fr : list Z) (a : p2pcom) : p2pcom :=
  let a := heard fr (set_isnd [] a) in
  let a := set_callouts (remove_one FSM_LCP (callouts a)) a in
  set_lcp (with_rc (ppp_maxconf (ppp_dflt a)) (ppp_lcp a)) a.
Definition learned (rej : bool) (items : list lopt) (fr : list Z) (a : p2pcom) : p2pcom :=
  fold_left (spec_nak_one rej) items (listening fr a).
Definition asked_again (a : p2pcom) : p2pcom :=
  queued (creq_frame (next_id FSM_LCP a)) (creq_frame (next_id FSM_LCP a)) (set_callouts (callouts a ++ [FSM_LCP]) (next_id FSM_LCP a)).

Lemma refusal_in (rej : bool) items a : asker a -> Forall wf_lopt items -> (rej = false -> Forall known items) -> zlen (encs items) < 100 ->
  let fr := cp_frame PPP_LCP (if rej then CP_CONF_REJ else CP_CONF_NAK) (fsm_id (ppp_lcp a)) (encs items) in
  ppp_input undef in_control stack rbuf fr (set_isnd [] a) = Some (tt, asked_again (learned rej items fr a)).
Proof.
  intros Ha Hw Hk Hz fr. unfold fr. rewrite (input_frame _ _ _ _ FSM_LCP). set (a1 := heard fr (set_isnd [] a)).
  change (set_ibytes _ (set_isnd [] a)) with a1. pose proof (as_state a Ha) as Hst.
  change (ppp_lcp a) with (ppp_lcp a1) in Hst |- *.
  rewrite cp_in_packet; [|by destruct rej|apply Ha|lia|cbn [get_fs]; by destruct Hst as [-> | ->]].
  assert (Hgo : (cp_conf_nak in_control stack FSM_LCP rej (encs items) (zlen (encs items)) (fsm_id (ppp_lcp a1))) a1 =
    Some (tt, asked_again (learned rej items fr a))).
  2: { destruct rej; exact Hgo. }
  unfold cp_conf_nak. rewrite bind_gets. cbn [get_fs]. rewrite Z.eqb_refl. cbn [negb]. unfold stop_timer. rewrite bind_mod.
  unfold fs_state. rewrite bind_gets. cbn [get_fs]. set (a2 := set_callouts _ a1). cbv zeta.
  assert (H2 : ((fsm_state (ppp_lcp a2) =? CP_CLOSED) || (fsm_state (ppp_lcp a2) =? CP_STOPPED) = false) /\
    (fsm_state (ppp_lcp a2) =? CP_REQSENT) || (fsm_state (ppp_lcp a2) =? CP_ACKSENT) = true)
    by (change (ppp_lcp a2) with (ppp_lcp a1); by destruct Hst as [-> | ->]).
  destruct H2 as [-> ->]. unfold init_rc. rewrite bind_mod. cbn [set_fs get_fs].
  change (set_lcp _ a2) with (listening fr a).
  pose proof (conf_nak_opts_run in_control stack stack_len rej [] items [] (opt_turns (zlen (encs items))) stack (listening fr a) Hw Hk stack_len (few_turns items)) as Hrun.
  rewrite app_nil_r in Hrun. change (zlen []) with 0 in Hrun. rewrite !Z.add_0_l in Hrun. cbn [app] in Hrun.
  rewrite (bind_run _ _ _ _ _ Hrun). destruct (keeps_fold rej items (listening fr a)) as (K1 & K2 & K3 & K4 & _).
  apply (send_creq_run stack stack_len FSM_LCP).
  - unfold plenty. rewrite K1. apply Ha.
  - apply room; [rewrite K2; apply Ha|by rewrite K3|rewrite K4; apply Ha].
Qed.

(** What is asked next: options that were rejected are left out for good. *)
Record asks_next (a a' : p2pcom) (p f : bool) (mru cmap : Z) : Prop := {
  nx_pfc : wants_pfc a' = wants_pfc a && negb p;
  nx_acfc : wants_acfc a' = wants_acfc a && negb f;
  nx_mru : ppp_mru (ppp_params a') = mru;
  nx_cmap : ppp_cmap (ppp_params a') = cmap;
  nx_magic : ppp_magic a' = ppp_magic a;
  nx_all : forall t, t = LCP_MRU \/ t = LCP_ACCM \/ t = LCP_MAGIC -> not_rejected FSM_LCP t a' = not_rejected FSM_LCP t a }.

Lemma rej_bit r k j : 0 <= k < 16 -> 0 <= j < 16 ->
  Z.testbit (u16 (Z.lor r (Z.shiftl 1 k))) j = Z.testbit r j || (j =? k).
Proof.
  intros Hk Hj. unfold u16. change 65536 with (2 ^ 16). rewrite Z.mod_pow2_bits_low by lia. rewrite Z.lor_spec. f_equal.
  rewrite Z.shiftl_spec by lia. destruct (Z.eqb_spec j k) as [->|].
  - by rewrite Z.sub_diag.
  - destruct (Z.lt_ge_cases j k); [by rewrite Z.testbit_neg_r by lia|]. change 1 with (2 ^ 0). rewrite Z.pow2_bits_false by lia. done.
Qed.

Lemma flag_ldiff x v w : Z.land v w = 0 -> flag_set (Z.ldiff x v) w = flag_set x w.
Proof.
  intros H. unfold flag_set. f_equal. apply Z.bits_inj'. intros n Hn. rewrite !Z.land_spec, Z.ldiff_spec.
  assert (Hb : Z.testbit v n && Z.testbit w n = false) by (rewrite <- Z.land_spec, H; apply Z.bits_0).
  destruct (Z.testbit x n), (Z.testbit v n), (Z.testbit w n); done.
Qed.

Lemma rejected_once k s : 0 <= k < 16 -> forall t, 0 <= t < 16 ->
  negb (Z.testbit (u16 (Z.lor (fsm_rej (ppp_lcp s)) (Z.shiftl 1 (k mod 32)))) t) = not_rejected FSM_LCP t s && negb (t =? k).
Proof.
  intros Hk t Ht. rewrite (Z.mod_small k) by lia. rewrite rej_bit by lia. unfold not_rejected. cbn [get_fs]. by rewrite negb_orb.
Qed.

Lemma rej_pfc s : asks_next s (spec_rej Pfc s) true false (ppp_mru (ppp_params s)) (ppp_cmap (ppp_params s)).
Proof.
  assert (H : forall t, 0 <= t < 16 -> not_rejected FSM_LCP t (spec_rej Pfc s) = not_rejected FSM_LCP t s && negb (t =? LCP_PFC))
    by (apply (rejected_once LCP_PFC s); done).
  split; try done; unfold wants_pfc, wants_acfc, wants.
  - rewrite H by done. zdec. by rewrite !andb_false_r.
  - rewrite H by done. zdec. rewrite !andb_true_r. f_equal. by apply flag_ldiff.
  - intros t [-> | [-> | ->]]; rewrite H by done; zdec; by rewrite andb_true_r.
Qed.

Lemma rej_acfc s : asks_next s (spec_rej Acfc s) false true (ppp_mru (ppp_params s)) (ppp_cmap (ppp_params s)).
Proof.
  assert (H : forall t, 0 <= t < 16 -> not_rejected FSM_LCP t (spec_rej Acfc s) = not_rejected FSM_LCP t s && negb (t =? LCP_ACFC))
    by (apply (rejected_once LCP_ACFC s); done).
  split; try done; unfold wants_pfc, wants_acfc, wants.
  - rewrite H by done. zdec. rewrite !andb_true_r. f_equal. by apply flag_ldiff.
  - rewrite H by done. zdec. by rewrite !andb_false_r.
  - intros t [-> | [-> | ->]]; rewrite H by done; zdec; by rewrite andb_true_r.
Qed.

(** The rejected options, as they come. *)
Lemma rej_both p f s : asks_next s (fold_left (spec_nak_one true) (when p Pfc ++ when f Acfc) s) p f (ppp_mru (ppp_params s)) (ppp_cmap (ppp_params s)).
Proof.
  destruct p, f; cbn [when app fold_left spec_nak_one].
  - destruct (rej_pfc s) as [A1 A2 A3 A4 A5 A6], (rej_acfc (spec_rej Pfc s)) as [B1 B2 B3 B4 B5 B6].
    split; [by rewrite B1, A1; cbn [negb]; rewrite andb_true_r|by rewrite B2, A2; cbn [negb]; rewrite andb_true_r|congruence..|].
    intros t Ht. by rewrite B6, A6.
  - apply rej_pfc.
  - apply rej_acfc.
  - split; try done; by rewrite andb_true_r.
Qed.

Lemma answer_rej a b : no_pfc a b || no_acfc a b = true -> exists p f, answer a b = when p Pfc ++ when f Acfc /\
  (p = true -> wants_pfc a = true) /\ (p || f = true) /\ (f = no_acfc a b) /\ (no_acfc a b = false -> p = no_pfc a b).
Proof.
  intros H. unfold answer, left_over, no_pfc, no_acfc in *.
  destruct (wants_pfc a), (wants_acfc a), (has_pfc b), (has_acfc b), (small_mru a), (short_map a b), (undef =? OPT_OK); cbn [andb negb orb] in *; try discriminate H;
    first [by exists true, false|by exists false, true|by exists true, true].
Qed.

(** What is asked after a Configure-Nak. *)
Lemma nak_both a b s : ppp_params s = ppp_params a -> 
  asks_next s (fold_left (spec_nak_one false) (naks a b ++ left_over a b) s) false false
    (if small_mru a then LCP_MIN_RMU else ppp_mru (ppp_params a))
    (if short_map a b then Z.lor (ppp_cmap (ppp_params a)) (Z.lor (ppp_cmap (ppp_params a)) (ppp_cmap (ppp_params b))) else ppp_cmap (ppp_params a)).
Proof.
  intros E. unfold naks, left_over. rewrite <- E.
  destruct (small_mru a), (short_map a b), (wants_pfc a && has_pfc b && negb (undef =? OPT_OK)); cbn [when app fold_left spec_nak_one spec_nak];
    split; try done; by rewrite andb_true_r.
Qed.

(** ** Exchanges *)

(** The driver of one end takes a frame from the queue and the other end gets it. *)
Definition pass (a b : p2pcom) : option (p2pcom * p2pcom) :=
  match p2p_isnd a with
  | fr :: q => match ppp_input undef in_control stack rbuf fr b with Some (_, b') => Some (set_isnd q a, b') | None => None end
  | [] => None
  end.

(** A frame one way and a frame back. *)
Definition exchange (a b : p2pcom) : option (p2pcom * p2pcom) :=
  match pass a b with
  | Some (a, b) => match pass b a with Some (b, a) => Some (a, b) | None => None end
  | None => None
  end.

Fixpoint exchanges (n : nat) (a b : p2pcom) : option (p2pcom * p2pcom) :=
  match n with
  | O => Some (a, b)
  | S n => match exchange a b with Some (a, b) => exchanges n a b | None => None end
  end.

(** The unit the two ends settle on. *)
Definition final_mru (a : p2pcom) : Z := if small_mru a then LCP_MIN_RMU else ppp_mru (ppp_params a).
Definition both_maps (a b : p2pcom) : Z := Z.lor (ppp_cmap (ppp_params a)) (ppp_cmap (ppp_params b)).

Definition learned_next (rej : bool) (items : list lopt) (fr : list Z) (a : p2pcom) := asked_again (learned rej items fr a).

Lemma asker_next rej items fr a p f mru cmap : asker a -> is_u16 mru -> is_u32 cmap ->
  asks_next (listening fr a) (learned rej items fr a) p f mru cmap -> asker (asked_again (learned rej items fr a)).
Proof.
  intros Ha Hm Hc [N1 N2 N3 N4 N5 N6]. destruct (keeps_fold rej items (listening fr a)) as (K1 & K2 & K3 & K4 & K5 & K6).
  fold (learned rej items fr a) in K1, K2, K3, K4, K5, K6. set (l := learned rej items fr a) in *. split.
  - change (mb_avail l = []). rewrite K1. apply Ha.
  - split; [change (is_u32 (ppp_cmap (ppp_params l))); by rewrite N4|]. change (is_u32 (ppp_magic l)). rewrite N5. apply Ha.
  - change (is_u16 (ppp_mru (ppp_params l))). by rewrite N3.
  - apply u8_range.
  - change (fsm_state (ppp_lcp l) = CP_REQSENT \/ fsm_state (ppp_lcp l) = CP_ACKSENT). rewrite K5. apply Ha.
  - change (not_rejected FSM_LCP LCP_MRU l = true /\ not_rejected FSM_LCP LCP_ACCM l = true /\ not_rejected FSM_LCP LCP_MAGIC l = true).
    rewrite !N6 by auto. apply Ha.
  - change (if_snd l = []). rewrite K2. apply Ha.
  - change (4 <= if_maxlen l). rewrite K4. apply Ha.
  - change (p2p_isnd l ++ [creq_frame (asked_again l)] = [creq_frame (asked_again l)]). by rewrite K3.
Qed.

(** The answering end after a refusal, its answer taken away. *)
Definition refusing (fr ans : list Z) (a b : p2pcom) : p2pcom := set_isnd [] (queued ans ans (refused (accepted a (heard fr b)))).

Lemma answerer_next fr ans a b : answerer b -> is_u32 (ppp_cmap (ppp_params a)) ->
  answerer (refusing fr ans a b) /\
  (fsm_state (ppp_lcp (refusing fr ans a b)) = CP_ACKRCVD <-> fsm_state (ppp_lcp b) = CP_ACKRCVD).
Proof.
  intros Hb Hc. destruct (accepted_keeps a (heard fr b)) as (K1 & K2 & K3 & _ & K5 & _ & K7 & K8 & K9 & _).
  assert (Hlcp : ppp_lcp (refusing fr ans a b) = if fsm_state (ppp_lcp b) =? CP_ACKRCVD then ppp_lcp b else with_state CP_REQSENT (ppp_lcp b)).
  { unfold refusing, refused. cbn [ppp_lcp set_isnd queued set_starts set_obytes set_lcp]. by rewrite K1. }
  split.
  - split.
    + change (mb_avail (accepted a (heard fr b)) = []). rewrite K7. apply Hb.
    + split; [change (is_u32 (ppp_cmap (ppp_params (accepted a (heard fr b)))))|change (is_u32 (ppp_magic (accepted a (heard fr b))))].
      * rewrite K5. destruct (short_map _ _); [apply Hb|done].
      * rewrite K2. apply Hb.
    + rewrite Hlcp. destruct (Z.eqb_spec (fsm_state (ppp_lcp b)) CP_ACKRCVD) as [E|E]; [by right; left|by left].
    + change (if_snd (accepted a (heard fr b)) = []). rewrite K8. apply Hb.
    + change (4 <= if_maxlen (accepted a (heard fr b))). rewrite K9. apply Hb.
    + done.
  - rewrite Hlcp. destruct (Z.eqb_spec (fsm_state (ppp_lcp b)) CP_ACKRCVD) as [E|E]; [done|]. cbn. split; [done|by intros ?].
Qed.

Lemma answer_wf a b : asker a -> answerer b -> Forall wf_lopt (answer a b) /\ Forall known (answer a b).
Proof.
  intros Ha Hb. assert (Hc : is_u32 (Z.lor (ppp_cmap (ppp_params a)) (ppp_cmap (ppp_params b)))) by (apply lor_u32; [apply Ha|apply Hb]).
  unfold answer, naks, left_over.
  destruct (no_acfc a b), (no_pfc a b), (small_mru a), (short_map a b), (wants_pfc a && has_pfc b && negb (undef =? OPT_OK)); cbn [orb when app];
    split; repeat apply Forall_cons_2; try apply Forall_nil_2; done.
Qed.

Definition rejects (a b : p2pcom) : bool := no_pfc a b || no_acfc a b.
Definition refusal (a b : p2pcom) : list Z :=
  cp_frame PPP_LCP (if rejects a b then CP_CONF_REJ else CP_CONF_NAK) (fsm_id (ppp_lcp a)) (encs (answer a b)).

Lemma exchange_refused a b : asker a -> answerer b -> apart a b -> rejects a b || (small_mru a || short_map a b) = true ->
  exchange a b = Some (asked_again (learned (rejects a b) (answer a b) (refusal a b) a), refusing (creq_frame a) (refusal a b) a b).
Proof.
  intros Ha Hb Hap Hne. unfold exchange, pass. rewrite (as_sent a Ha), (request_in a b Ha Hb Hap). cbv zeta.
  pose proof (answer_len a b) as Hl. destruct (accepted_keeps a (heard (creq_frame a) b)) as (_ & _ & _ & _ & _ & _ & K7 & K8 & K9 & K10).
  set (b1 := accepted a (heard (creq_frame a) b)) in *.
  assert (Hp : plenty b1) by (unfold plenty; rewrite K7; apply Hb).
  assert (Hq : qfull2 b1 = false) by (apply room; [rewrite K8; apply Hb|rewrite K10; apply Hb|rewrite K9; apply Hb]).
  assert (Hrun : (if no_pfc a b || no_acfc a b then send_refusal FSM_LCP CP_CONF_REJ (fsm_id (ppp_lcp a)) (mbuf_of (answer a b))
     else if small_mru a || short_map a b then send_refusal FSM_LCP CP_CONF_NAK (fsm_id (ppp_lcp a)) (mbuf_of (answer a b))
     else send_conf_ack stack FSM_LCP (encs (req_opts a)) (fsm_id (ppp_lcp a))) b1
     = Some (tt, queued (refusal a b) (refusal a b) (refused b1))).
  { unfold refusal, rejects in *. destruct (no_pfc a b || no_acfc a b) eqn:E1.
    - apply refuse_run; [done|done|by apply answer_some; rewrite E1|lia].
    - cbn [orb] in Hne. rewrite Hne. apply refuse_run; [done|done|by apply answer_some; rewrite E1, Hne|lia]. }
  rewrite Hrun.
  assert (Hs : p2p_isnd (queued (refusal a b) (refusal a b) (refused b1)) = [refusal a b]).
  { change (p2p_isnd b1 ++ [refusal a b] = [refusal a b]). rewrite K10. change (p2p_isnd (heard (creq_frame a) b)) with (p2p_isnd b).
    by rewrite (an_sent b Hb). }
  rewrite Hs. destruct (answer_wf a b Ha Hb) as [Hw Hk].
  unfold refusal at 1. rewrite (refusal_in (rejects a b) (answer a b) a Ha Hw (fun _ => Hk)) by lia. done.
Qed.

Lemma lor_covered a b : negb (Z.ldiff (ppp_cmap (ppp_params b)) (ppp_cmap (ppp_params a)) =? 0) = false -> both_maps a b = ppp_cmap (ppp_params a).
Proof.
  rewrite negb_false_iff, Z.eqb_eq. unfold both_maps. intros H. apply Z.bits_inj'. intros n Hn.
  assert (Hb : Z.testbit (ppp_cmap (ppp_params b)) n && negb (Z.testbit (ppp_cmap (ppp_params a)) n) = false)
    by (rewrite <- Z.ldiff_spec, H; apply Z.bits_0).
  rewrite Z.lor_spec. destruct (Z.testbit (ppp_cmap (ppp_params b)) n), (Z.testbit (ppp_cmap (ppp_params a)) n); done.
Qed.

Lemma ldiff_cover c d : Z.ldiff d (Z.lor c (Z.lor c d)) = 0.
Proof.
  apply Z.bits_inj'. intros n Hn. rewrite Z.ldiff_spec, !Z.lor_spec, Z.bits_0.
  by destruct (Z.testbit d n), (Z.testbit c n).
Qed.

(** The two ends after a refusal, from what the asking end has learned. *)
Lemma step_ends a b l b' p f mru cmap fr : asker a -> asks_next (listening fr a) l p f mru cmap ->
  has_pfc b' = has_pfc b /\ has_acfc b' = has_acfc b -> ppp_magic b' = ppp_magic b -> apart a b ->
  no_pfc (asked_again l) b' = wants_pfc a && negb p && negb (has_pfc b) /\
  no_acfc (asked_again l) b' = wants_acfc a && negb f && negb (has_acfc b) /\
  ppp_mru (ppp_params (asked_again l)) = mru /\ ppp_cmap (ppp_params (asked_again l)) = cmap /\ apart (asked_again l) b'.
Proof.
  intros Ha [N1 N2 N3 N4 N5 N6] [H1 H2] Hm [Hap Hz]. unfold no_pfc, no_acfc. rewrite H1, H2.
  change (wants_pfc (asked_again l)) with (wants_pfc l). change (wants_acfc (asked_again l)) with (wants_acfc l). rewrite N1, N2.
  split_and!; try done. change (ppp_magic l <> ppp_magic b' /\ ppp_magic l <> 0). by rewrite N5, Hm.
Qed.

Lemma closer P F hp hf p f m s s' : p || f = true -> f = F && negb hf -> (F && negb hf = false -> p = P && negb hp) -> (s' = true -> s = true) ->
  ((if P && negb p && negb hp then 1 else 0) + (if F && negb f && negb hf then 1 else 0) + (if m || s' then 1 else 0) <
   (if P && negb hp then 1 else 0) + (if F && negb hf then 1 else 0) + (if m || s then 1 else 0))%nat.
Proof.
  intros Hpf -> Hp Hs. assert (Hms : ((if m || s' then 1 else 0) <= (if m || s then 1 else 0))%nat)
    by (destruct m, s', s; simpl; try lia; by specialize (Hs eq_refl)).
  destruct (F && negb hf) eqn:E.
  - destruct F, hf; try done. destruct P, p, hp; simpl; lia.
  - specialize (Hp eq_refl). rewrite orb_false_r in Hpf. subst p. destruct P, hp; try done. destruct F, hf; simpl; try lia; done.
Qed.

Lemma exchange_more a b : asker a -> answerer b -> apart a b -> distance a b <> 0%nat ->
  exists a' b', exchange a b = Some (a', b') /\ asker a' /\ answerer b' /\ apart a' b' /\ (distance a' b' < distance a b)%nat /\
    fsm_state (ppp_lcp a') = fsm_state (ppp_lcp a) /\
    (fsm_state (ppp_lcp b') = CP_ACKRCVD <-> fsm_state (ppp_lcp b) = CP_ACKRCVD) /\
    both_maps a' b' = both_maps a b /\ final_mru a' = final_mru a.
Proof.
  intros Ha Hb Hap Hd.
  assert (Hne : rejects a b || (small_mru a || short_map a b) = true).
  { unfold distance, rejects in *. by destruct (no_pfc a b), (no_acfc a b), (small_mru a || short_map a b). }
  exists (asked_again (learned (rejects a b) (answer a b) (refusal a b) a)), (refusing (creq_frame a) (refusal a b) a b).
  split; [by apply exchange_refused|].
  destruct (answerer_next (creq_frame a) (refusal a b) a b Hb (proj1 (as_words a Ha))) as [Hb' Hst].
  set (l := learned (rejects a b) (answer a b) (refusal a b) a).
  set (b' := refusing (creq_frame a) (refusal a b) a b) in *.
  destruct (keeps_fold (rejects a b) (answer a b) (listening (refusal a b) a)) as (_ & _ & _ & _ & K5 & _).
  fold (learned (rejects a b) (answer a b) (refusal a b) a) in K5. fold l in K5.
  destruct (accepted_keeps a (heard (creq_frame a) b)) as (_ & B2 & B3 & _ & B5 & _).
  assert (Hpb : has_pfc b' = has_pfc b /\ has_acfc b' = has_acfc b).
  { unfold has_pfc, has_acfc. change (ppp_params b') with (ppp_params (accepted a (heard (creq_frame a) b))). by rewrite B3. }
  assert (Hcb : ppp_cmap (ppp_params b') = if short_map a b then ppp_cmap (ppp_params b) else ppp_cmap (ppp_params a)).
  { exact B5. }
  assert (Hmb : ppp_magic b' = ppp_magic b) by exact B2.
  destruct (rejects a b) eqn:Er.
  - destruct (answer_rej a b Er) as (p & f & Ea & Hp1 & Hpf & Hf & Hp2).
    assert (N : asks_next (listening (refusal a b) a) l p f (ppp_mru (ppp_params a)) (ppp_cmap (ppp_params a)))
      by (unfold l, learned; rewrite Ea; exact (rej_both p f (listening (refusal a b) a))).
    destruct (step_ends a b l b' p f _ _ _ Ha N Hpb Hmb Hap) as (M1 & M2 & M3 & M4 & M5).
    split_and!; [exact (asker_next _ _ _ _ _ _ _ _ Ha (as_mru a Ha) (proj1 (as_words a Ha)) N)|done|done| |exact K5|done| |].
    + unfold distance. rewrite M1, M2. unfold rejects, no_pfc, no_acfc in *.
      replace (small_mru (asked_again l)) with (small_mru a) by (unfold small_mru; by rewrite M3).
      assert (short_map (asked_again l) b' = true -> short_map a b = true).
      { unfold short_map at 1. rewrite M4, Hcb. destruct (short_map a b); [done|]. by rewrite Z.ldiff_diag. }
      by apply closer.
    + unfold both_maps. rewrite M4, Hcb. destruct (short_map a b) eqn:Es; [done|]. rewrite Z.lor_diag. symmetry. by apply lor_covered.
    + unfold final_mru, small_mru. by rewrite M3.
  - assert (N : asks_next (listening (refusal a b) a) l false false (final_mru a)
      (if short_map a b then Z.lor (ppp_cmap (ppp_params a)) (Z.lor (ppp_cmap (ppp_params a)) (ppp_cmap (ppp_params b))) else ppp_cmap (ppp_params a))).
    { unfold l, learned, final_mru. replace (answer a b) with (naks a b ++ left_over a b); [exact (nak_both a b (listening (refusal a b) a) eq_refl)|].
      unfold answer, rejects in *. by destruct (no_pfc a b), (no_acfc a b). }
    destruct (step_ends a b l b' _ _ _ _ _ Ha N Hpb Hmb Hap) as (M1 & M2 & M3 & M4 & M5).
    assert (Hu : is_u32 (Z.lor (ppp_cmap (ppp_params a)) (ppp_cmap (ppp_params b)))) by (apply lor_u32; [apply Ha|apply Hb]).
    split_and!; [refine (asker_next _ _ _ _ _ _ _ _ Ha _ _ N)|done|done| |exact K5|done| |].
    + unfold final_mru. destruct (small_mru a); [done|apply Ha].
    + destruct (short_map a b); [apply lor_u32; [apply Ha|done]|apply Ha].
    + unfold distance. rewrite M1, M2. cbn [negb]. rewrite !andb_true_r.
      assert (small_mru (asked_again l) = false) as ->.
      { unfold small_mru. rewrite M3. unfold final_mru. destruct (small_mru a) eqn:E; [done|exact E]. }
      assert (short_map (asked_again l) b' = false) as ->.
      { unfold short_map. rewrite M4, Hcb. destruct (short_map a b); [|by rewrite Z.ldiff_diag].
        by rewrite ldiff_cover. }
      unfold rejects in *. fold (no_pfc a b) (no_acfc a b). destruct (no_pfc a b), (no_acfc a b); [done..|].
      cbn [orb] in Hne. rewrite Hne. simpl. lia.
    + unfold both_maps. rewrite M4, Hcb. destruct (short_map a b) eqn:Es.
      * by rewrite (Z.lor_assoc _ _ (ppp_cmap (ppp_params b))), Z.lor_diag, <- Z.lor_assoc, Z.lor_diag.
      * rewrite Z.lor_diag. symmetry. by apply lor_covered.
    + unfold final_mru at 1. unfold small_mru. rewrite M3. unfold final_mru. destruct (small_mru a) eqn:E; [done|]. unfold small_mru in E. by rewrite E.
Qed.

(** ** The acknowledgement *)

Definition up_state (st : Z) : Z := if st =? CP_REQSENT then CP_ACKRCVD else CP_OPENED.

Lemma ack_sent (m : list Z) id s : plenty s -> qfull2 s = false -> zlen m < 100 ->
  exists s' x, send_conf_ack stack FSM_LCP m id s = Some (tt, s') /\
    p2p_isnd s' = p2p_isnd s ++ cp_frame PPP_LCP CP_CONF_ACK id m :: x /\
    fsm_state (ppp_lcp s') = (if fsm_state (ppp_lcp s) =? CP_ACKRCVD then CP_OPENED else CP_ACKSENT) /\
    ppp_params s' = ppp_params s /\ if_mtu s' = if_mtu s.
Proof.
  intros Hp Hq Hz. unfold send_conf_ack. rewrite (bind_run _ _ _ _ _ (prepend_run (Some m) _ _ _ _ Hp ltac:(simpl; lia))).
  cbn [default]. set (fr := cp_frame _ _ _ _). rewrite bind_get, Hq. rewrite (bind_run _ _ _ _ _ (queue_run fr fr s Hq)).
  unfold fs_state. rewrite bind_gets. cbn [get_fs]. change (ppp_lcp (queued fr fr s)) with (ppp_lcp s).
  destruct (fsm_state (ppp_lcp s) =? CP_ACKRCVD).
  - unfold newstate, fs_mod. rewrite bind_mod. set (s1 := set_fs _ _ _).
    destruct (tlu_run s1 Hp) as (s' & x & Hrun & H1 & H2 & H3 & H4). exists s', x. rewrite H1, H2, H3, H4.
    split_and!; [exact Hrun| |done..]. change (p2p_isnd s1) with (p2p_isnd s ++ [fr]). by rewrite <- app_assoc.
  - exists (set_fs FSM_LCP (with_state CP_ACKSENT (ppp_lcp (queued fr fr s))) (queued fr fr s)), []. done.
Qed.

Lemma ack_heard a m : asker a -> zlen m < 100 ->
  exists a', ppp_input undef in_control stack rbuf (cp_frame PPP_LCP CP_CONF_ACK (fsm_id (ppp_lcp a)) m) (set_isnd [] a) = Some (tt, a') /\
    fsm_state (ppp_lcp a') = up_state (fsm_state (ppp_lcp a)) /\ ppp_params a' = ppp_params a.
Proof.
  intros Ha Hz. rewrite (input_frame _ _ _ _ FSM_LCP). pose proof (as_state a Ha) as Hst.
  set (a1 := heard (cp_frame PPP_LCP CP_CONF_ACK (fsm_id (ppp_lcp a)) m) (set_isnd [] a)).
  change (set_ibytes _ (set_isnd [] a)) with a1. change (ppp_lcp a) with (ppp_lcp a1) in Hst |- *.
  rewrite cp_in_packet; [|done|apply Ha|lia|cbn [get_fs]; by destruct Hst as [-> | ->]]. zdec.
  unfold cp_conf_ack. rewrite bind_gets. cbn [get_fs]. rewrite Z.eqb_refl. cbn [negb]. unfold stop_timer, fs_state.
  rewrite bind_mod, bind_gets. cbn [get_fs]. set (a2 := set_callouts _ a1). change (ppp_lcp a2) with (ppp_lcp a1).
  unfold newstate, fs_mod, init_rc. destruct Hst as [E | E]; rewrite E; zdec.
  - rewrite bind_mod. eexists. split; [reflexivity|done].
  - rewrite !bind_mod. set (a3 := set_fs _ _ (set_fs _ _ a2)).
    destruct (tlu_run a3 (as_plenty a Ha)) as (a' & x & Hrun & H1 & H2 & _). exists a'. rewrite H1, H2. split; [exact Hrun|done].
Qed.

Lemma exchange_last a b : asker a -> answerer b -> apart a b -> distance a b = 0%nat ->
  exists a' b', exchange a b = Some (a', b') /\
    fsm_state (ppp_lcp a') = up_state (fsm_state (ppp_lcp a)) /\
    fsm_state (ppp_lcp b') = (if fsm_state (ppp_lcp b) =? CP_ACKRCVD then CP_OPENED else CP_ACKSENT) /\
    ppp_params a' = ppp_params a /\ ppp_cmap (ppp_params b') = ppp_cmap (ppp_params a) /\ if_mtu b' = s16 (ppp_mru (ppp_params a)) /\
    small_mru a = false /\ both_maps a b = ppp_cmap (ppp_params a).
Proof.
  intros Ha Hb Hap Hd. unfold distance in Hd.
  destruct (no_pfc a b) eqn:E1, (no_acfc a b) eqn:E2, (small_mru a) eqn:E3, (short_map a b) eqn:E4; try discriminate Hd.
  unfold exchange, pass. rewrite (as_sent a Ha), (request_in a b Ha Hb Hap), E1, E2, E3, E4. cbv zeta. cbn [orb].
  destruct (accepted_keeps a (heard (creq_frame a) b)) as (K1 & _ & _ & _ & K5 & K6 & K7 & K8 & K9 & K10).
  set (b1 := accepted a (heard (creq_frame a) b)) in *. pose proof (req_len a) as Hl.
  destruct (ack_sent (encs (req_opts a)) (fsm_id (ppp_lcp a)) b1) as (b2 & x & Hrun & S1 & S2 & S3 & S4).
  { unfold plenty. rewrite K7. apply Hb. }
  { apply room; [rewrite K8; apply Hb|rewrite K10; apply Hb|rewrite K9; apply Hb]. }
  { lia. }
  rewrite Hrun, S1, K10. change (p2p_isnd (heard (creq_frame a) b)) with (p2p_isnd b). rewrite (an_sent b Hb). cbn [app].
  destruct (ack_heard a (encs (req_opts a)) Ha ltac:(lia)) as (a' & Hrun' & T1 & T2). rewrite Hrun'.
  exists a', (set_isnd x b2). split; [done|]. split; [done|].
  change (ppp_lcp (set_isnd x b2)) with (ppp_lcp b2). change (ppp_params (set_isnd x b2)) with (ppp_params b2).
  change (if_mtu (set_isnd x b2)) with (if_mtu b2). rewrite S2, S3, S4, K1, K5, K6.
  change (short_map a (heard (creq_frame a) b)) with (short_map a b). rewrite E4. split_and!; try done. by apply lor_covered.
Qed.

Lemma exchanges_agree n : forall a b, asker a -> answerer b -> apart a b -> (distance a b <= n)%nat ->
  exists k a' b', (k <= n)%nat /\ exchanges (S k) a b = Some (a', b') /\
    fsm_state (ppp_lcp a') = up_state (fsm_state (ppp_lcp a)) /\
    fsm_state (ppp_lcp b') = (if fsm_state (ppp_lcp b) =? CP_ACKRCVD then CP_OPENED else CP_ACKSENT) /\
    ppp_cmap (ppp_params a') = both_maps a b /\ ppp_cmap (ppp_params b') = both_maps a b /\
    ppp_mru (ppp_params a') = final_mru a /\ if_mtu b' = s16 (final_mru a).
Proof.
  induction n as [|n IH]; intros a b Ha Hb Hap Hd; (destruct (Nat.eq_dec (distance a b) 0) as [E|E]; [|try lia]).
  1, 2: destruct (exchange_last a b Ha Hb Hap E) as (a' & b' & He & H1 & H2 & H3 & H4 & H5 & H6 & H7);
    exists O, a', b'; cbn [exchanges]; rewrite He; unfold final_mru; rewrite H6, H7, H3; split_and!; done || lia.
  destruct (exchange_more a b Ha Hb Hap E) as (a1 & b1 & He & Ha1 & Hb1 & Hap1 & Hd1 & Hs1 & Hs2 & Hm & Hf).
  destruct (IH a1 b1 Ha1 Hb1 Hap1 ltac:(lia)) as (k & a' & b' & Hk & Hrun & H1 & H2 & H3 & H4 & H5 & H6).
  exists (S k), a', b'. split; [lia|]. split.
  { cbn [exchanges] in *. by rewrite He. }
  rewrite H1, H2, H3, H4, H5, H6, Hs1, Hm, Hf. split_and!; try done.
  destruct (Z.eqb_spec (fsm_state (ppp_lcp b1)) CP_ACKRCVD), (Z.eqb_spec (fsm_state (ppp_lcp b)) CP_ACKRCVD); tauto.
Qed.
End Agree.
