(* ===== verification/PppCalls.v ===== *)
(** * What the point-to-point protocol promises

    The answer to every request of the line control protocol, the agreement of the two ends,
    and the datagrams that cross the link. *)

From stdpp Require Import strings.
From S2P Require Import Prelude Slcomp.
From S2P Require Import Ppp PppSpec PppNego PppAgree.
Local Open Scope kern_scope.

(** ** Lines for the witnesses *)

(** An interface [ppp0] that waits for the carrier, with the parameters [d]. *)
Definition new_line (d : ppp_ioctl) (magic : Z) : p2pcom :=
  P2pcom "ppp" IFF_UP 1500 0 0 [] 50 0 0 [] true None d d 0 0 0 (PppFsm CP_STARTING 0 0 0) 0 0 0 0 0
    (PppFsm CP_STARTING 0 0 0) sl_compress_init [] (Some (0x0a000001, Some 0x0a000002)) [] [] [magic] [] 50 0.

Definition no_stack : list Z := replicate 34 0.
Definition no_control (dst : bool) (v : Z) (a : ifaddrs) : ifaddrs := a.

(** The state after a call, or before it when the kernel does not survive. *)
Definition after {A} (m : K p2pcom A) (s : p2pcom) : p2pcom := match m s with Some (_, s') => s' | None => s end.

(** The line when the carrier has come. *)
Definition carrier (d : ppp_ioctl) (magic : Z) : p2pcom := after (ppp_modem no_stack true) (new_line d magic).

Definition dial_up : ppp_ioctl := PppIoctl 0x000a0000 64 0 (Z.lor FLAG_PFC FLAG_ACFC) 10 3 30.
Definition plain : ppp_ioctl := PppIoctl 0x00000001 1500 0 0 10 3 30.

(** C3. The negotiation of a link ends in agreement.  Whatever unit, control character map and
    compressions the one end asks for and the other supports, when the frames of a request and
    of its answer are carried and no mbuf is wanting, the request of that end is acknowledged
    after at most four exchanges; its automaton then counts the acknowledgement and the other's
    counts that it has sent one.  Both ends then hold the map that escapes every character
    either escaped, and the other end sends packets no longer than the unit asked, or than 128
    when less was asked.  The magic numbers must differ, a missing [return] must not leave one
    of the other verdicts. *)
Theorem link_agrees undef in_control stack rbuf a b :
  (length stack = 34)%nat -> undef <> OPT_REJ /\ undef <> OPT_NAK /\ undef <> OPT_FATAL ->
  asker a -> answerer b -> apart a b ->
  exists n a' b', (1 <= n <= 4)%nat /\ exchanges undef in_control stack rbuf n a b = Some (a', b') /\
    fsm_state (ppp_lcp a') = up_state (fsm_state (ppp_lcp a)) /\
    fsm_state (ppp_lcp b') = (if fsm_state (ppp_lcp b) =? CP_ACKRCVD then CP_OPENED else CP_ACKSENT) /\
    ppp_cmap (ppp_params a') = both_maps a b /\ ppp_cmap (ppp_params b') = both_maps a b /\
    ppp_mru (ppp_params a') = final_mru a /\ if_mtu b' = s16 (final_mru a).
Proof.
  intros Hs Hu Ha Hb Hap.
  destruct (exchanges_agree undef in_control stack rbuf Hs Hu 3 a b Ha Hb Hap (distance_most a b)) as (k & a' & b' & Hk & H).
  exists (S k), a', b'. split; [lia|exact H].
Qed.

Lemma link_agrees_witness :
  let a := carrier dial_up 7 in let b := set_isnd [] (carrier plain 9) in
  distance a b = 3%nat /\ exists n a' b', (1 <= n <= 4)%nat /\
    exchanges 5 no_control no_stack (Rbuffer false []) n a b = Some (a', b') /\ ppp_cmap (ppp_params b') = 0x000a0001 /\ if_mtu b' = 128.
Proof.
  intros a b. split; [reflexivity|].
  destruct (link_agrees 5 no_control no_stack (Rbuffer false []) a b eq_refl ltac:(done)) as (n & a' & b' & Hn & Hrun & _ & _ & _ & H2 & _ & H4).
  - split; vm_compute; intuition congruence.
  - split; vm_compute; intuition congruence.
  - split; vm_compute; congruence.
  - exists n, a', b'. split; [exact Hn|]. split; [exact Hrun|]. split; [rewrite H2; reflexivity|rewrite H4; reflexivity].
Defined.

(** ** The answer to a request *)

(** The code of the answer and its options, or [None] when the link is given up. *)
Definition lcp_answer (undef : Z) (os : list lopt) (s : p2pcom) : option (Z * list lopt) :=
  match (spec_opts undef os 0 0 [] s).1 with
  | Some (reject, nak, items) =>
    Some (if ztrue reject then (CP_CONF_REJ, items) else if ztrue nak then (CP_CONF_NAK, items) else (CP_CONF_ACK, os))
  | None => None
  end.

(** The state of the automaton after it. *)
Definition answered_state (code st : Z) : Z :=
  if code =? CP_CONF_ACK then if st =? CP_ACKRCVD then CP_OPENED else CP_ACKSENT
  else if st =? CP_ACKRCVD then CP_ACKRCVD else CP_REQSENT.

Lemma close_run f s : plenty s -> qfull2 s = false ->
  fsm_state (get_fs f s) = CP_REQSENT \/ fsm_state (get_fs f s) = CP_ACKRCVD \/ fsm_state (get_fs f s) = CP_ACKSENT ->
  exists s', ppp_cp_close f s = Some (tt, s') /\ fsm_state (get_fs f s') = CP_CLOSING /\ p2p_isnd s' = p2p_isnd s /\
    if_snd s' = if_snd s ++ [cp_frame (ft_type f) CP_TERM_REQ 0 []].
Proof.
  intros Hp Hq Hst. unfold ppp_cp_close, fs_state. rewrite bind_gets.
  assert (E : (fsm_state (get_fs f s) =? CP_STARTING) = false /\ (fsm_state (get_fs f s) =? CP_STOPPED) = false /\
    (fsm_state (get_fs f s) =? CP_STOPPING) = false /\ (fsm_state (get_fs f s) =? CP_OPENED) = false /\
    (false || (fsm_state (get_fs f s) =? CP_REQSENT) || (fsm_state (get_fs f s) =? CP_ACKRCVD) || (fsm_state (get_fs f s) =? CP_ACKSENT)) = true)
    by (by destruct Hst as [-> | [-> | ->]]).
  destruct E as (-> & -> & -> & -> & ->). rewrite bind_ret, bind_mod. unfold newstate, fs_mod. rewrite bind_mod.
  set (s1 := set_fs f _ (set_fs f _ s)).
  assert (H1 : exists s2, conservative f s1 = Some (tt, s2) /\ plenty s2 /\ qfull2 s2 = false /\ get_fs f s2 = get_fs f s1 /\
    p2p_isnd s2 = p2p_isnd s /\ if_snd s2 = if_snd s) by (destruct f; (eexists; split; [reflexivity|by split_and!; try exact Hq])). 
  destruct H1 as (s2 & Hc & Hp2 & Hq2 & Hf2 & Hi2 & Hs2). rewrite (bind_run _ _ _ _ _ Hc).
  rewrite (bind_run _ _ _ _ _ (prepend_run None (ft_type f) CP_TERM_REQ 0 s2 Hp2 eq_refl)).
  unfold stop_timer, start_timer. rewrite !bind_mod. cbn [default]. rewrite (bind_nonnull _ _ _ _ eq_refl).
  unfold ppp_queue. rewrite bind_get. set (s3 := set_callouts _ (set_callouts _ s2)). change (qfull2 s3) with (qfull2 s2). rewrite Hq2.
  rewrite !bind_mod. eexists. split; [reflexivity|]. split; [|split].
  - assert (E : get_fs f s3 = get_fs f s1) by (by rewrite <- Hf2; destruct f).
    transitivity (fsm_state (get_fs f s3)); [by destruct f|]. rewrite E. by destruct f.
  - exact Hi2.
  - cbn. by rewrite Hs2.
Qed.

Lemma ztrue_pos n : 0 <= n -> ztrue n = true -> 0 < n.
Proof. unfold ztrue. intros H. destruct (Z.eqb_spec n 0); [done|lia]. Qed.

Section Answer.
Context (undef : Z) (in_control : bool -> Z -> ifaddrs -> ifaddrs) (stack : list Z) (rbuf : rbuffer).
Hypothesis stack_len : (length stack = 34)%nat.

Lemma answer_run os id s b : answerer b -> Forall wf_lopt os -> zlen (encs os) < 92 -> own s = own b ->
  exists s' x, answer_with stack (loop_result (spec_opts undef os 0 0 [] b).1) (encs os) id s = Some (tt, s') /\
    match lcp_answer undef os b with
    | Some (code, items) => p2p_isnd s' = cp_frame PPP_LCP code id (encs items) :: x /\
        fsm_state (ppp_lcp s') = answered_state code (fsm_state (ppp_lcp b))
    | None => p2p_isnd s' = [] /\ if_snd s' = [cp_frame PPP_LCP CP_TERM_REQ 0 []] /\ fsm_state (ppp_lcp s') = CP_CLOSING
    end.
Proof.
  intros Hb Hw Hz Ho.
  assert (Hp : plenty s) by (unfold plenty; rewrite <- (an_plenty b Hb); exact (f_equal mb_avail Ho)).
  assert (Hsnd : if_snd s = []) by (rewrite <- (an_snd b Hb); exact (f_equal if_snd Ho)).
  assert (Hisnd : p2p_isnd s = []) by (rewrite <- (an_sent b Hb); exact (f_equal p2p_isnd Ho)).
  assert (Hlcp : ppp_lcp s = ppp_lcp b) by exact (f_equal ppp_lcp Ho).
  assert (Hq : qfull2 s = false) by (apply room; [done|done|]; rewrite (f_equal if_maxlen Ho : if_maxlen s = if_maxlen b); apply Hb).
  unfold lcp_answer, answer_with. destruct (spec_opts undef os 0 0 [] b).1 as [[[r n] its]|] eqn:E; cbn [loop_result].
  - destruct (spec_opts_some undef os 0 0 [] b r n its) as (Hne & Hr & Hn); [lia|lia|lia|done|].
    assert (Hl : zlen (encs its) < 92).
    { pose proof (spec_opts_len undef os 0 0 [] b r n its Hw (an_words b Hb) E) as H. change (zlen (encs [])) with 0 in H. lia. }
    assert (Href : forall code, code = CP_CONF_REJ \/ code = CP_CONF_NAK -> 0 < r + n -> exists s' x,
      send_refusal FSM_LCP code id (mbuf_of its) s = Some (tt, s') /\ p2p_isnd s' = cp_frame PPP_LCP code id (encs its) :: x /\
      fsm_state (ppp_lcp s') = answered_state code (fsm_state (ppp_lcp b))).
    { intros code Hcode Hrn. exists (queued (cp_frame PPP_LCP code id (encs its)) (cp_frame PPP_LCP code id (encs its)) (refused s)), [].
      split; [apply refuse_run; [done|done|by apply Hne|lia]|]. split.
      - change (p2p_isnd s ++ [cp_frame PPP_LCP code id (encs its)] = [cp_frame PPP_LCP code id (encs its)]). by rewrite Hisnd.
      - change (fsm_state (ppp_lcp (refused s)) = answered_state code (fsm_state (ppp_lcp b))). unfold refused, answered_state.
        cbn [ppp_lcp set_lcp]. rewrite Hlcp.
        destruct Hcode as [-> | ->]; zdec; destruct (Z.eqb_spec (fsm_state (ppp_lcp b)) CP_ACKRCVD); done. }
    destruct (ztrue r) eqn:Er; [apply Href; [by left|]; apply ztrue_pos in Er; lia|].
    destruct (ztrue n) eqn:En; [apply Href; [by right|]; apply ztrue_pos in En; lia|].
    destruct (ack_sent stack stack_len (encs os) id s Hp Hq ltac:(lia)) as (s' & x & Hrun & H1 & H2 & _).
    exists s', x. split; [done|]. rewrite H1, Hisnd, H2, Hlcp. done.
  - destruct (close_run FSM_LCP s Hp Hq) as (s' & Hrun & H1 & H2 & H3); [cbn [get_fs]; rewrite Hlcp; apply Hb|].
    exists s', []. split; [exact Hrun|]. by rewrite H2, H3, Hisnd, Hsnd.
Qed.
End Answer.

(** C27. The answer to a Configure-Request of the line control protocol, of well-formed options in
    less than 92 bytes, at an end that has asked but is not open, with empty queues and mbufs, is
    that of [lcp_answer]. Options are collected in their order: a rejected one as it came, a Nak'd
    one with the value the end would take; but a rejected option after a Nak'd one first clears
    what was collected. If any is rejected, a Configure-Reject names what is left in the
    collection - so also an option Nak'd after the last rejected one; if none is but some are
    Nak'd, a Configure-Nak does; and if none is either, the request goes back as it came in a
    Configure-Ack. It is the first frame in the priority queue, it carries the number of the
    request, and the automaton moves with it; or the link is closed, when the line is a loop. What
    a function that ends without [return] leaves, whatever it is, is counted as the verdict it
    stands for. *)
Theorem request_answered undef in_control stack rbuf os id b :
  (length stack = 34)%nat -> answerer b -> Forall wf_lopt os -> zlen (encs os) < 92 -> is_u8 id ->
  let fr := cp_frame PPP_LCP CP_CONF_REQ id (encs os) in
  exists b' x, ppp_input undef in_control stack rbuf fr b = Some (tt, b') /\
    match lcp_answer undef os (heard fr b) with
    | Some (code, items) => p2p_isnd b' = cp_frame PPP_LCP code id (encs items) :: x /\
        fsm_state (ppp_lcp b') = answered_state code (fsm_state (ppp_lcp b))
    | None => p2p_isnd b' = [] /\ if_snd b' = [cp_frame PPP_LCP CP_TERM_REQ 0 []] /\ fsm_state (ppp_lcp b') = CP_CLOSING
    end.
Proof.
  intros Hs Hb Hw Hz Hi fr. unfold fr. rewrite (conf_req_in undef in_control stack rbuf Hs os id b Hb Hw Hz Hi). fold fr.
  apply (answer_run undef stack Hs os id _ (heard fr b)); [by destruct Hb; split|done|done|].
  apply spec_opts_own.
Qed.

Lemma request_answered_witness :
  let b := set_isnd [] (carrier plain 9) in let os := [Mru 64; Unknown 3 [0xc0; 0x23]; Pfc] in
  exists b' x, ppp_input 5 no_control no_stack (Rbuffer false []) (cp_frame PPP_LCP CP_CONF_REQ 77 (encs os)) b = Some (tt, b') /\
    p2p_isnd b' = cp_frame PPP_LCP CP_CONF_REJ 77 (encs [Pfc]) :: x.
Proof.
  intros b os. destruct (request_answered 5 no_control no_stack (Rbuffer false []) os 77 b eq_refl) as (b' & x & H1 & H2).
  - split; vm_compute; intuition congruence.
  - repeat apply Forall_cons_2; try apply Forall_nil_2; vm_compute; intuition congruence.
  - reflexivity.
  - vm_compute; intuition congruence.
  - exists b', x. split; [exact H1|]. exact (proj1 H2).
Defined.

(** ** An option of no length *)

Section Zero.
Context (undef : Z) (in_control : bool -> Z -> ifaddrs -> ifaddrs).

Lemma zero_copy m off l t buf : znth m off = Some t -> znth m (off + 1) = Some 0 -> 0 <= off -> off + 2 <= l <= zlen m ->
  exists d, m_copydata m off (if l <? LCP_OPT_MAXSIZE + off then l - off else LCP_OPT_MAXSIZE) buf = Some (t :: 0 :: d).
Proof.
  intros Ht Hz Ho Hl. set (ol := if l <? _ then _ else _).
  assert (Hol : 2 <= ol /\ off + ol <= zlen m) by (unfold ol, LCP_OPT_MAXSIZE; destruct (Z.ltb_spec l (34 + off)); lia).
  unfold m_copydata, slice.
  destruct (Z.leb_spec 0 off); [|lia]. destruct (Z.leb_spec 0 ol); [|lia]. destruct (Z.leb_spec (off + ol) (zlen m)); [|lia]. cbn [andb].
  unfold znth in Ht, Hz. destruct (Z.leb_spec 0 off); [|lia]. destruct (Z.leb_spec 0 (off + 1)); [|lia].
  rewrite (drop_S _ _ _ Ht). replace (S (Z.to_nat off)) with (Z.to_nat (off + 1)) by lia. rewrite (drop_S _ _ _ Hz).
  destruct (Z.to_nat ol) as [|[|k]] eqn:E; [lia..|]. cbn [take app]. by eexists.
Qed.

Lemma bind_none {S A B} (m : K S A) (k : A -> K S B) s : (forall a s', m s = Some (a, s') -> k a s' = None) -> kbind m k s = None.
Proof. unfold kbind. intros H. destruct (m s) as [[a s']|]; [by apply H|done]. Qed.

(** Such an option is not accepted, nor is the link given up for it. *)
Lemma zero_verdict f t d s v o s' : (f = FSM_IPCP -> undef <> OPT_FATAL) ->
  ft_opt undef in_control f (t :: 0 :: d) s = Some ((v, o), s') -> v <> OPT_FATAL.
Proof.
  intros Hu. destruct f; cbn [ft_opt]; unfold ppp_lcp_opt, ppp_ipcp_opt, ipcp_cprot.
  - rewrite (bind_nonnull _ _ _ t), (bind_nonnull _ _ _ 0), bind_get by done. zdec. cbv zeta.
    repeat (destruct (t =? _); [by intros [= <- <- <-]|]). by intros [= <- <- <-].
  - rewrite (bind_nonnull _ _ _ t), (bind_nonnull _ _ _ 0) by done. zdec.
    repeat (destruct (t =? _); [by intros [= <- <- <-]|]). intros [= <- <- <-]. by apply Hu.
Qed.
End Zero.

(** An option whose length is zero, in a Configure-Request, Nak or Reject of either
    protocol, is never passed: the loop over the options takes it again at each turn, and no
    number of turns is enough.  One such packet from the other end stops the kernel. *)
Theorem zero_option_endless undef in_control f m off l t :
  znth m off = Some t -> znth m (off + 1) = Some 0 -> 0 <= off -> off + 2 <= l <= zlen m -> (f = FSM_IPCP -> undef <> OPT_FATAL) ->
  (forall n buf reject nak m0 s, conf_req_opts undef in_control n f m l off buf reject nak m0 s = None) /\
  (forall n rej buf s, conf_nak_opts in_control n f rej m l off buf s = None).
Proof.
  intros Ht Hz Ho Hl Hu. split.
  - induction n as [|n IH]; intros buf reject nak m0 s; cbn [conf_req_opts]; (destruct (Z.leb_spec l off); [lia|]); [done|].
    destruct (zero_copy m off l t buf Ht Hz Ho Hl) as (d & Hd). rewrite (bind_nonnull _ _ _ _ Hd), (bind_nonnull _ _ _ 0), Z.add_0_r by done.
    change (LCP_OPT_MAXSIZE <? 0) with false. apply bind_none. intros [v o] s' Hv. apply (zero_verdict undef in_control f t d s) in Hv; [|done].
    destruct (v =? OPT_OK); [apply IH|]. destruct (v =? OPT_REJ); [apply bind_none; intros; apply IH|].
    destruct (v =? OPT_NAK); [apply bind_none; intros; apply IH|]. rewrite (proj2 (Z.eqb_neq _ _) Hv). apply bind_none. intros; apply IH.
  - induction n as [|n IH]; intros rej buf s; cbn [conf_nak_opts]; (destruct (Z.leb_spec l off); [lia|]); [done|].
    destruct (zero_copy m off l t buf Ht Hz Ho Hl) as (d & Hd).
    rewrite (bind_nonnull _ _ _ _ Hd), (bind_nonnull _ _ _ t), (bind_nonnull _ _ _ 0), Z.add_0_r by done.
    apply bind_none. intros; apply IH.
Qed.

Lemma zero_option_endless_witness :
  conf_req_opts 5 no_control 1000 FSM_LCP [1; 4; 5; 220; 7; 0] 6 4 no_stack 0 0 None (carrier plain 9) = None /\
  conf_nak_opts no_control 1000 FSM_LCP true [1; 4; 5; 220; 7; 0] 6 4 no_stack (carrier plain 9) = None.
Proof. split; apply (zero_option_endless 5 no_control FSM_LCP [1; 4; 5; 220; 7; 0] 4 6 7); done. Defined.

(** ** Silence *)

Section Silence.
Context (stack : list Z).
Hypothesis stack_len : (length stack = 34)%nat.

(** The timer that has run longest runs out. *)
Definition tick : M unit := fun s =>
  match callouts s with f :: _ => expire stack f s | [] => Some (tt, s) end.
Fixpoint ticks (n : nat) : M unit := match n with O => kret tt | S n => do! ticks n in tick end.

Lemma calm_eq {A} (g : p2pcom -> A) s s' : calm s' = calm s -> (forall s, g (calm s) = g s) -> g s' = g s.
Proof. intros H Hg. by rewrite <- (Hg s'), H, Hg. Qed.

(** Another request. *)
Lemma tick_again s : plenty s -> p2p_ppp_input s = true -> fsm_state (ppp_lcp s) = CP_REQSENT -> callouts s = [FSM_LCP] ->
  fsm_rc (ppp_lcp s) <> 1 ->
  exists s', tick s = Some (tt, s') /\
    calm s' = calm (next_id FSM_LCP (set_lcp (with_rc (if 0 <? fsm_rc (ppp_lcp s) then fsm_rc (ppp_lcp s) - 1 else fsm_rc (ppp_lcp s)) (ppp_lcp s)) s)).
Proof.
  intros Hp Hin Hst Hc Hrc. unfold tick. rewrite Hc. unfold expire, stop_timer. rewrite bind_mod, Hc.
  change (remove_one FSM_LCP [FSM_LCP]) with (@nil fsm). set (s1 := set_callouts [] s).
  unfold ppp_cp_timeout. rewrite bind_get. change (p2p_ppp_input s1) with (p2p_ppp_input s). rewrite Hin. cbn [negb get_fs].
  change (ppp_lcp s1) with (ppp_lcp s). rewrite (proj2 (Z.eqb_neq _ _) Hrc), Hst. zdec.
  set (rc' := if 0 <? fsm_rc (ppp_lcp s) then fsm_rc (ppp_lcp s) - 1 else fsm_rc (ppp_lcp s)).
  set (s2 := set_lcp (with_rc rc' (ppp_lcp s)) s1).
  rewrite (bind_run _ _ _ tt s2).
  2: { unfold s2, rc'. destruct (0 <? fsm_rc (ppp_lcp s)); [done|]. change (ppp_lcp s) with (ppp_lcp s1) at 2.
       assert (E : with_rc (fsm_rc (ppp_lcp s)) (ppp_lcp s1) = ppp_lcp s1) by (change (ppp_lcp s) with (ppp_lcp s1); by destruct (ppp_lcp s1)).
       by rewrite E, set_lcp_id. }
  rewrite bind_ret, (bind_run _ _ _ _ _ (ft_creq_run stack stack_len FSM_LCP s2 Hp)). unfold start_timer. rewrite bind_mod.
  set (s3 := set_callouts _ _). assert (Hc3 : calm s3 = calm (next_id FSM_LCP (set_lcp (with_rc rc' (ppp_lcp s)) s))).
  { unfold s3, s2, s1. change (callouts _) with (@nil fsm). cbn [app]. rewrite <- Hc at 1. by destruct s. }
  rewrite bind_get. destruct (qfull2 s3); [by eexists|]. rewrite (bind_nonnull _ _ _ _ eq_refl).
  destruct (queue_any (creq_of FSM_LCP (next_id FSM_LCP s2)) (creq_of FSM_LCP (next_id FSM_LCP s2)) s3) as (s' & x & H1 & H2 & _).
  exists s'. split; [exact H1|]. by rewrite H2.
Qed.

(** What the line is after giving up. *)
Record given_up (s s' : p2pcom) : Prop := {
  gu_state : fsm_state (ppp_lcp s') = CP_STOPPED;
  gu_timer : callouts s' = [];
  gu_down : flag_set (if_flags s') IFF_RUNNING = false;
  gu_modem : p2p_mdmctl s' = match p2p_mdmctl s with Some l => Some (l ++ [0]) | None => None end }.

Lemma running_cleared x : flag_set (Z.ldiff x IFF_RUNNING) IFF_RUNNING = false.
Proof.
  unfold flag_set. replace (Z.land (Z.ldiff x IFF_RUNNING) IFF_RUNNING) with 0; [done|]. symmetry. apply Z.bits_inj'. intros n Hn.
  rewrite Z.land_spec, Z.ldiff_spec, Z.bits_0. by destruct (Z.testbit x n), (Z.testbit IFF_RUNNING n).
Qed.

Lemma tick_last s : p2p_ppp_input s = true -> fsm_state (ppp_lcp s) = CP_REQSENT -> callouts s = [FSM_LCP] -> fsm_rc (ppp_lcp s) = 1 ->
  exists s', tick s = Some (tt, s') /\ given_up s s'.
Proof.
  intros Hin Hst Hc Hrc. unfold tick. rewrite Hc. unfold expire, stop_timer. rewrite bind_mod, Hc.
  change (remove_one FSM_LCP [FSM_LCP]) with (@nil fsm). set (s1 := set_callouts [] s).
  unfold ppp_cp_timeout. rewrite bind_get. change (p2p_ppp_input s1) with (p2p_ppp_input s). rewrite Hin. cbn [negb get_fs].
  change (ppp_lcp s1) with (ppp_lcp s). rewrite Hrc, Hst. zdec. unfold newstate, fs_mod. rewrite !bind_mod. cbn [get_fs set_fs].
  cbn [ft_tlf]. unfold ppp_lcp_tlf. rewrite bind_mod. eexists. split; [reflexivity|].
  set (s2 := set_flags _ _). change (p2p_mdmctl s2) with (p2p_mdmctl s).
  destruct (p2p_mdmctl s) as [l|] eqn:E; split; try done; try apply running_cleared; try (by rewrite E).
Qed.

Lemma ticks_before n : forall s, plenty s -> p2p_ppp_input s = true -> fsm_state (ppp_lcp s) = CP_REQSENT -> callouts s = [FSM_LCP] ->
  is_u8 (fsm_id (ppp_lcp s)) -> 0 <= fsm_rc (ppp_lcp s) -> fsm_rc (ppp_lcp s) = 0 \/ Z.of_nat n < fsm_rc (ppp_lcp s) ->
  exists s', ticks n s = Some (tt, s') /\ calm s' = calm (set_lcp (PppFsm CP_REQSENT (u8 (fsm_id (ppp_lcp s) + Z.of_nat n)) (fsm_rej (ppp_lcp s))
    (if fsm_rc (ppp_lcp s) =? 0 then 0 else fsm_rc (ppp_lcp s) - Z.of_nat n)) s).
Proof.
  induction n as [|n IH]; intros s Hp Hin Hst Hc Hid Hrc0 Hrc; cbn [ticks].
  { exists s. split; [done|]. destruct (ppp_lcp s) as [st id rj rc] eqn:E. cbn [fsm_state fsm_id fsm_rej fsm_rc] in *.
    rewrite Z.add_0_r, u8_id, Z.sub_0_r by done. assert (Erc : (if rc =? 0 then 0 else rc) = rc) by (destruct (Z.eqb_spec rc 0); done).
    rewrite Erc, <- Hst, <- E, set_lcp_id. done. }
  destruct (IH s Hp Hin Hst Hc Hid Hrc0 ltac:(lia)) as (s1 & Hrun & H1). rewrite (bind_run _ _ _ _ _ Hrun).
  assert (Hl : ppp_lcp s1 = PppFsm CP_REQSENT (u8 (fsm_id (ppp_lcp s) + Z.of_nat n)) (fsm_rej (ppp_lcp s))
    (if fsm_rc (ppp_lcp s) =? 0 then 0 else fsm_rc (ppp_lcp s) - Z.of_nat n)) by exact (f_equal ppp_lcp H1).
  destruct (tick_again s1) as (s2 & Hrun2 & H2).
  - exact (eq_trans (f_equal mb_avail H1) Hp).
  - exact (eq_trans (f_equal p2p_ppp_input H1) Hin).
  - by rewrite Hl.
  - exact (eq_trans (f_equal callouts H1) Hc).
  - rewrite Hl. cbn [fsm_rc]. destruct (Z.eqb_spec (fsm_rc (ppp_lcp s)) 0); lia.
  - exists s2. split; [done|]. rewrite H2.
    assert (Hset : forall x y, calm (set_lcp x s1) = calm (set_lcp y s) <-> x = y).
    { intros x y. split; [intros E; exact (f_equal ppp_lcp E)|intros ->].
      transitivity (set_lcp y (calm s1)); [done|]. rewrite H1. done. }
    change (next_id FSM_LCP (set_lcp ?x s1)) with (set_lcp (with_id (u8 (fsm_id x + 1)) x) s1).
    apply Hset. rewrite Hl. unfold Ppp.with_id, with_rc. cbn [fsm_id fsm_state fsm_rej fsm_rc]. f_equal; [mlia|].
    destruct (Z.eqb_spec (fsm_rc (ppp_lcp s)) 0); [done|]. destruct (Z.ltb_spec 0 (fsm_rc (ppp_lcp s) - Z.of_nat n)); lia.
Qed.
End Silence.

(** When the other end is silent, a line whose parameters say [maxconf] sends its
    Configure-Request [maxconf] times in all, each with the next number, and at the following
    timeout gives up: the automaton stops, no timer is left, the interface is not running any
    more and the modem is told to hang up; with [maxconf] 0 it never does, after any number of
    timeouts another one is set and the link is still asked for.  [s] is the line after the
    first request. *)
Theorem silence_gives_up stack s n :
  (length stack = 34)%nat -> plenty s -> p2p_ppp_input s = true -> fsm_state (ppp_lcp s) = CP_REQSENT -> callouts s = [FSM_LCP] ->
  is_u8 (fsm_id (ppp_lcp s)) -> 0 <= fsm_rc (ppp_lcp s) ->
  exists s', ticks stack n s = Some (tt, s') /\
    if (fsm_rc (ppp_lcp s) =? 0) || (Z.of_nat n <? fsm_rc (ppp_lcp s)) then
      fsm_state (ppp_lcp s') = CP_REQSENT /\ callouts s' = [FSM_LCP] /\ fsm_id (ppp_lcp s') = u8 (fsm_id (ppp_lcp s) + Z.of_nat n)
    else given_up s s'.
Proof.
  intros Hs Hp Hin Hst Hc Hid Hrc. destruct (Z.eqb_spec (fsm_rc (ppp_lcp s)) 0) as [E|E]; cbn [orb].
  { destruct (ticks_before stack Hs n s Hp Hin Hst Hc Hid Hrc ltac:(by left)) as (s' & Hrun & H). exists s'. split; [done|].
    pose proof (f_equal ppp_lcp H) as Hl. cbn in Hl. rewrite Hl. split; [done|]. split; [exact (eq_trans (f_equal callouts H) Hc)|done]. }
  induction n as [|n IH].
  { exists s. split; [done|]. destruct (Z.ltb_spec (Z.of_nat 0) (fsm_rc (ppp_lcp s))); [|lia]. split_and!; try done.
    by rewrite Z.add_0_r, u8_id. }
  cbn [ticks]. destruct (Z.ltb_spec (Z.of_nat (S n)) (fsm_rc (ppp_lcp s))) as [Hlt|Hge].
  { destruct (ticks_before stack Hs (S n) s Hp Hin Hst Hc Hid Hrc ltac:(by right)) as (s' & Hrun & H). exists s'. split; [done|].
    pose proof (f_equal ppp_lcp H) as Hl. cbn in Hl. rewrite Hl. split; [done|]. split; [exact (eq_trans (f_equal callouts H) Hc)|done]. }
  destruct (Z.eq_dec (Z.of_nat (S n)) (fsm_rc (ppp_lcp s))) as [Heq|Hne].
  - destruct (ticks_before stack Hs n s Hp Hin Hst Hc Hid Hrc ltac:(right; lia)) as (s1 & Hrun & H). rewrite (bind_run _ _ _ _ _ Hrun).
    pose proof (f_equal ppp_lcp H) as Hl. cbn in Hl.
    destruct (tick_last stack s1) as (s' & Hrun2 & [G1 G2 G3 G4]).
    + exact (eq_trans (f_equal p2p_ppp_input H) Hin).
    + by rewrite Hl.
    + exact (eq_trans (f_equal callouts H) Hc).
    + rewrite Hl. cbn [fsm_rc]. destruct (Z.eqb_spec (fsm_rc (ppp_lcp s)) 0); lia.
    + exists s'. split; [done|]. split; try done. rewrite G4. by rewrite (f_equal p2p_mdmctl H : p2p_mdmctl s1 = p2p_mdmctl s).
  - destruct IH as (s1 & Hrun & H). destruct (Z.ltb_spec (Z.of_nat n) (fsm_rc (ppp_lcp s))); [lia|].
    rewrite (bind_run _ _ _ _ _ Hrun). exists s1. split; [|done]. unfold tick. by rewrite (gu_timer _ _ H).
Qed.

Lemma silence_gives_up_witness :
  let s := carrier plain 9 in fsm_rc (ppp_lcp s) = 10 /\ exists s', ticks no_stack 10 s = Some (tt, s') /\ given_up s s'.
Proof.
  intros s. split; [reflexivity|].
  exact (silence_gives_up no_stack s 10 eq_refl eq_refl eq_refl eq_refl eq_refl ltac:(vm_compute; intuition congruence) ltac:(vm_compute; congruence)).
Defined.

(** ** The end of a link *)

Lemma remove_one_in f g l : g ∈ remove_one f l -> g ∈ l.
Proof.
  induction l as [|x l IH]; [done|]. cbn [remove_one]. destruct (decide (x = f)); [by intros ?; right|].
  intros [->|H]%elem_of_cons; [by left|right; by apply IH].
Qed.

(** The level above goes down: only the protocol of IP changes. *)
Lemma lcp_tld_run s : exists s' x, ppp_lcp_tld s = Some (tt, s') /\
  s' = set_callouts (remove_one FSM_IPCP (callouts s)) (set_ipcp x s).
Proof.
  unfold ppp_lcp_tld, cp_down, fs_state. rewrite bind_gets. cbn [get_fs]. unfold newstate, fs_mod, stop_timer.
  destruct ((fsm_state (ppp_ipcp s) =? CP_CLOSING) || _).
  - rewrite bind_mod. by do 2 eexists.
  - destruct (fsm_state (ppp_ipcp s) =? CP_OPENED); (rewrite (bind_run _ _ _ tt (set_ipcp (with_state CP_STARTING (ppp_ipcp s)) s)) by done); by do 2 eexists.
Qed.

(** A link that the other end terminates is left hanging.  To a Terminate-Request in the
    opened state the automaton answers and goes to [STOPPING], where it waits for a
    Terminate-Ack to a request it has not sent; no timer runs to end the wait, and every
    Configure-Request of the other end, from then on, is ignored: the automaton, its queue and
    its timers stay as they are. *)
Theorem terminated_link_hangs undef in_control stack rbuf s id b :
  plenty s -> fsm_state (ppp_lcp s) = CP_OPENED -> FSM_LCP ∉ callouts s -> is_u8 id -> zlen b < 1000 ->
  exists s', ppp_input undef in_control stack rbuf (cp_frame PPP_LCP CP_TERM_REQ id b) s = Some (tt, s') /\
    fsm_state (ppp_lcp s') = CP_STOPPING /\ (FSM_LCP ∉ callouts s') /\
    forall id' b', is_u8 id' -> zlen b' < 1000 ->
      ppp_input undef in_control stack rbuf (cp_frame PPP_LCP CP_CONF_REQ id' b') s' =
      Some (tt, heard (cp_frame PPP_LCP CP_CONF_REQ id' b') s').
Proof.
  intros Hp Hst Hc Hi Hb. rewrite (input_frame _ _ _ _ FSM_LCP). set (s1 := heard (cp_frame PPP_LCP CP_TERM_REQ id b) s).
  change (set_ibytes _ s) with s1. rewrite cp_in_packet; [|done|done|done|cbn [get_fs]; change (ppp_lcp s1) with (ppp_lcp s); by rewrite Hst]. zdec.
  unfold cp_term_req, fs_state. rewrite bind_gets. cbn [get_fs]. change (ppp_lcp s1) with (ppp_lcp s). rewrite Hst. zdec.
  unfold fs_mod, newstate. set (s2 := set_fs FSM_LCP (with_rc 1 (get_fs FSM_LCP s1)) s1).
  destruct (lcp_tld_run s2) as (s3 & x & Hrun & E3).
  rewrite (bind_run _ _ s1 tt (set_fs FSM_LCP (with_state CP_STOPPING (get_fs FSM_LCP s3)) s3)).
  2: { rewrite bind_mod. fold s2. cbn [ft_tld]. by rewrite (bind_run _ _ _ _ _ Hrun). }
  cbn [conservative]. rewrite bind_mod. set (s4 := set_txcmap _ _).
  assert (Hp4 : plenty s4) by (unfold s4; rewrite E3; exact Hp).
  rewrite (bind_run _ _ _ _ _ (prepend_run (Some b) _ _ _ s4 Hp4 ltac:(simpl; lia))). cbn [sendout].
  destruct (queue_any (cp_frame (ft_type FSM_LCP) CP_TERM_ACK id b) (cp_frame (ft_type FSM_LCP) CP_TERM_ACK id b) s4) as (s5 & y & Hrun5 & H5 & _).
  assert (Hst5 : fsm_state (ppp_lcp s5) = CP_STOPPING) by (exact (f_equal (fun s => fsm_state (ppp_lcp s)) H5)).
  exists s5. split; [exact Hrun5|]. split; [done|]. split.
  - change (FSM_LCP ∉ callouts (calm s5)). rewrite H5. change (callouts (calm s4)) with (callouts s3). rewrite E3.
    intros Hin. apply Hc. exact (remove_one_in _ _ _ Hin).
  - intros id' b' Hi' Hb'. rewrite (input_frame _ _ _ _ FSM_LCP). set (fr := cp_frame _ _ _ _). fold (heard fr s5). set (s6 := heard fr s5).
    rewrite cp_in_packet; [|done|done|done|cbn [get_fs]; change (ppp_lcp s6) with (ppp_lcp s5); by rewrite Hst5]. zdec.
    unfold cp_conf_req, fs_state. rewrite bind_gets. cbn [get_fs]. change (ppp_lcp s6) with (ppp_lcp s5). rewrite Hst5. done.
Qed.

(** Two lines that have come up: each has had the other's request and acknowledgement. *)
Definition opened : option (p2pcom * p2pcom) :=
  match pass 0 no_control no_stack (Rbuffer false []) (carrier plain 7) (carrier plain 9) with
  | Some (a, b) =>
    match pass 0 no_control no_stack (Rbuffer false []) b a with
    | Some (b, a) =>
      match pass 0 no_control no_stack (Rbuffer false []) b a with
      | Some (b, a) => match pass 0 no_control no_stack (Rbuffer false []) a b with Some (a, b) => Some (a, b) | None => None end
      | None => None
      end
    | None => None
    end
  | None => None
  end.
Definition opened_line : p2pcom := match opened with Some (a, _) => a | None => new_line plain 7 end.

Lemma terminated_link_hangs_witness :
  exists s', ppp_input 0 no_control no_stack (Rbuffer false []) (cp_frame PPP_LCP CP_TERM_REQ 3 []) opened_line = Some (tt, s') /\
    fsm_state (ppp_lcp s') = CP_STOPPING.
Proof.
  destruct (terminated_link_hangs 0 no_control no_stack (Rbuffer false []) opened_line 3 []) as (s' & H1 & H2 & _).
  - reflexivity.
  - reflexivity.
  - vm_compute. intros H. by repeat (apply elem_of_cons in H as [H|H]; [discriminate H|]); apply elem_of_nil in H.
  - vm_compute. intuition congruence.
  - reflexivity.
  - exists s'. split; [exact H1|exact H2].
Defined.
