(* ===== verification/PppData.v ===== *)
(** * Datagrams over the link

    What is sent at one end comes out at the other, with the headers compressed or not; and
    what the priority queue does to the compression. *)

From stdpp Require Import strings.
From S2P Require Import Prelude Slcomp SlcompSpec SlcompTrip SlcompRing SlcompSafety SlcompCalls.
From S2P Require Import Ppp PppSpec PppNego PppAgree PppCalls.
Local Open Scope kern_scope.

(** ** Frames *)

Definition data_type (t : Z) : Prop := t = PPP_IP \/ t = PPP_VJC \/ t = PPP_VJNC.

(** The header of a frame is read as it was written, whatever of it is left out. *)
Lemma strip_header flags t q : data_type t -> q <> [] -> ppp_strip (ppp_frame_header flags t ++ q) = Some (t, q).
Proof.
  intros Ht Hq. destruct q as [|x q]; [done|]. unfold ppp_frame_header.
  destruct Ht as [-> | [-> | ->]]; destruct (flag_set flags FLAG_ACFC), (flag_set flags FLAG_PFC); reflexivity.
Qed.

Lemma header_len flags t : zlen (ppp_frame_header flags t) <= 4.
Proof. unfold ppp_frame_header. destruct (flag_set flags FLAG_ACFC), (flag_set flags FLAG_PFC && _); unfold zlen; simpl; lia. Qed.

(** ** Datagrams *)

(** A datagram that is not of TCP, or one of TCP with sound headers. *)
Definition datagram (p : list Z) : Prop :=
  sound_packet p \/ (20 <= zlen p /\ get8 p IP_P <> Some IPPROTO_TCP).

Lemma get8_some b i : 0 <= i < zlen b -> exists v, get8 b i = Some v.
Proof. intros H. by apply znth_is_some. Qed.
Lemma get16_some b i : 0 <= i -> i + 1 < zlen b -> exists v, get16 b i = Some v.
Proof.
  intros H1 H2. unfold get16. destruct (get8_some b i ltac:(lia)) as [v E], (get8_some b (i + 1) ltac:(lia)) as [w F].
  unfold get8 in E, F. rewrite E, F. by eexists.
Qed.

Lemma datagram_len p : datagram p -> 20 <= zlen p.
Proof.
  intros [(h & d & -> & [[Hw Hp _ _ _ _] _ _])|[H _]]; [|done]. rewrite zlen_app, zlen_bytes by done.
  pose proof (wh_hl _ Hw). pose proof (wh_toff _ Hw). pose proof (zlen_nonneg d). unfold hlen. lia.
Qed.

Lemma interactive_run p s : datagram p -> exists b, ppp_interactive p s = Some b.
Proof.
  intros Hd. pose proof (datagram_len p Hd) as Hl. unfold ppp_interactive.
  destruct (get8_some p 1 ltac:(lia)) as [tos ->], (get8_some p IP_P ltac:(unfold IP_P; lia)) as [pr Ep],
    (get16_some p IP_OFF ltac:(done) ltac:(unfold IP_OFF; lia)) as [off ->].
  rewrite Ep. destruct (ip_hl p) as [hl'|] eqn:Eh.
  2: { unfold ip_hl in Eh. destruct (get8_some p 0 ltac:(lia)) as [v E]. by rewrite E in Eh. }
  destruct (tos =? IPTOS_LOWDELAY); [by eexists|]. destruct (Z.eqb_spec pr IPPROTO_TCP) as [->|]; [|by eexists]. cbn [andb].
  destruct ((off =? 0) && _); [|by eexists].
  destruct Hd as [(h & d & -> & [[Hw _ _ _ _ _] _ _])|[_ Hne]]; [|done].
  rewrite (rd_hl h d) in Eh. injection Eh as <-. rewrite zlen_app, zlen_bytes in Hl by done.
  pose proof (wh_hl _ Hw). pose proof (wh_toff _ Hw). pose proof (zlen_nonneg d).
  destruct (get16_some (bytes h ++ d) (4 * hl h)) as [v1 ->]; [lia|rewrite zlen_app, zlen_bytes by done; unfold hlen in *; lia|].
  destruct (get16_some (bytes h ++ d) (4 * hl h + 2)) as [v2 ->]; [lia|rewrite zlen_app, zlen_bytes by done; unfold hlen in *; lia|].
  by eexists.
Qed.

(** The headers of a datagram of TCP fit an mbuf, or the mbufs of frames have room for them. *)
Definition fits_link (room : bool) (p : list Z) : Prop := get8 p IP_P = Some IPPROTO_TCP -> hdr_fits room p.

(** What becomes of a datagram that is sent: the type and the packet, and the compressor after. *)
Inductive squeezed (p : list Z) (c d : slcompress) (l : list Z) : Z -> list Z -> slcompress -> Prop :=
| sq_whole : squeezed p c d l PPP_IP p c
| sq_tcp t q c' d' l' : get8 p IP_P = Some IPPROTO_TCP -> (t = TYPE_UNCOMPRESSED_TCP \/ t = TYPE_COMPRESSED_TCP) -> by_mbuf q t d p d' -> sync c' d' l' ->
    squeezed p c d l (if t =? TYPE_UNCOMPRESSED_TCP then PPP_VJNC else PPP_VJC) q c'.

Lemma compress_run p s d l : datagram p -> sync (ppp_ctcp s) d l ->
  exists t q c', ppp_compress p s = Some ((t, q), set_ctcp c' s) /\ squeezed p (ppp_ctcp s) d l t q c'.
Proof.
  intros Hd Hs. unfold ppp_compress. rewrite bind_get. pose proof (datagram_len p Hd) as Hl.
  destruct (get8_some p IP_P ltac:(unfold IP_P; lia)) as [pr Ep]. rewrite (bind_nonnull _ _ _ _ Ep).
  assert (Hid : s = set_ctcp (ppp_ctcp s) s) by (by destruct s).
  destruct ((pr =? IPPROTO_TCP) && flag_set (ppp_txflags s) FLAG_TCPC) eqn:E.
  2: { exists PPP_IP, p, (ppp_ctcp s). split; [by rewrite <- Hid|apply sq_whole]. }
  apply andb_true_iff in E as [->%Z.eqb_eq _]. destruct Hd as [(h & dat & -> & Hp)|[_ Hne]]; [|by rewrite Ep in Hne].
  unfold kzoom, kbind. destruct (trip _ d l h dat Hs Hp) as (t & q & c' & -> & Hcase). exists
    (if t =? TYPE_UNCOMPRESSED_TCP then PPP_VJNC else if t =? TYPE_COMPRESSED_TCP then PPP_VJC else PPP_IP), q, c'.
  split; [done|]. destruct Hcase as [(-> & -> & ->)|(_ & d' & l' & _ & Hsy & _ & Ht & Hmb)]; [apply sq_whole|].
  replace (if t =? TYPE_UNCOMPRESSED_TCP then PPP_VJNC else if t =? TYPE_COMPRESSED_TCP then PPP_VJC else PPP_IP)
    with (if t =? TYPE_UNCOMPRESSED_TCP then PPP_VJNC else PPP_VJC) by (by destruct Ht as [-> | ->]).
  by apply (sq_tcp _ _ _ _ t q c' d' l' Ep).
Qed.

(** ** A datagram crosses *)

(** The driver takes the next frame, of the priority queue first. *)
Definition transmit (s : p2pcom) : option (list Z * p2pcom) :=
  match p2p_isnd s with
  | fr :: q => Some (fr, set_isnd q s)
  | [] => match if_snd s with fr :: q => Some (fr, set_snd q s) | [] => None end
  end.

(** The two ends of an open link, from [a] to [b]. *)
Record linked (a b : p2pcom) (l : list Z) : Prop := {
  lk_up : flag_set (if_flags a) IFF_UP = true;
  lk_open : fsm_state (ppp_ipcp a) = CP_OPENED;
  lk_mbufs : plenty a /\ plenty b;
  lk_snd : if_snd a = [];
  lk_isnd : p2p_isnd a = [];
  lk_max : 0 < if_maxlen a;
  lk_sync : sync (ppp_ctcp a) (ppp_ctcp b) l }.

Section Link.
Context (undef : Z) (in_control : bool -> Z -> ifaddrs -> ifaddrs) (stack : list Z) (rbuf : rbuffer).

(** A datagram is sent at [a] and its frame carried to [b]. *)
Definition carry (p : list Z) (a b : p2pcom) : option (p2pcom * p2pcom) :=
  match ppp_output AF_INET p a with
  | Some (_, a) =>
    match transmit a with
    | Some (fr, a) => match ppp_input undef in_control stack rbuf fr b with Some (_, b) => Some (a, b) | None => None end
    | None => None
    end
  | None => None
  end.

Fixpoint carry_all (ps : list (list Z)) (a b : p2pcom) : option (p2pcom * p2pcom) :=
  match ps with
  | [] => Some (a, b)
  | p :: ps => match carry p a b with Some (a, b) => carry_all ps a b | None => None end
  end.

Lemma output_run p a b l : linked a b l -> datagram p ->
  exists fr a1 a2 t q c', ppp_output AF_INET p a = Some (0, a1) /\ transmit a1 = Some (fr, a2) /\
    fr = ppp_frame_header (ppp_txflags a) t ++ q /\ squeezed p (ppp_ctcp a) (ppp_ctcp b) l t q c' /\
    ppp_ctcp a2 = c' /\ if_flags a2 = if_flags a /\ ppp_ipcp a2 = ppp_ipcp a /\ plenty a2 /\ if_snd a2 = [] /\ p2p_isnd a2 = [] /\
    if_maxlen a2 = if_maxlen a.
Proof.
  intros [Hup Ho [Hp _] Hs Hi Hm Hsy] Hd. unfold ppp_output. rewrite bind_get, Hup, Ho. zdec.
  destruct (interactive_run p a Hd) as [fast Hf]. rewrite (bind_nonnull _ _ _ _ Hf).
  destruct (compress_run p a _ l Hd Hsy) as (t & q & c' & Hc & Hq). rewrite (bind_run _ _ _ _ _ Hc).
  rewrite bind_mod, bind_get. cbv zeta. set (a0 := set_idlecnt 1 (set_ctcp c' a)).
  rewrite (bind_run _ _ _ _ _ (mget_plenty a0 Hp)). cbn [negb]. rewrite bind_get.
  change (ppp_txflags a0) with (ppp_txflags a). set (fr := ppp_frame_header (ppp_txflags a) t ++ q).
  assert (Hq0 : qfull2 a0 = false).
  { unfold qfull2. change (if_snd a0) with (if_snd a). change (p2p_isnd a0) with (p2p_isnd a). rewrite Hs, Hi.
    apply Z.leb_gt. exact Hm. }
  rewrite Hq0. unfold start_output.
  exists fr. destruct fast; rewrite !bind_mod; cbv beta.
  - set (a1 := set_obytes _ _). exists a1, (set_isnd [] a1), t, q, c'. split; [reflexivity|]. split.
    { unfold transmit. change (p2p_isnd a1) with (p2p_isnd a ++ [fr]). by rewrite Hi. }
    by split_and!.
  - set (a1 := set_obytes _ _). exists a1, (set_snd [] a1), t, q, c'. split; [reflexivity|]. split.
    { unfold transmit. change (p2p_isnd a1) with (p2p_isnd a). change (if_snd a1) with (if_snd a ++ [fr]). by rewrite Hi, Hs. }
    by split_and!.
Qed.

Lemma input_run fr p b c l t q c' flags : plenty b -> datagram p -> fits_link (rb_room rbuf) p -> squeezed p c (ppp_ctcp b) l t q c' -> fr = ppp_frame_header flags t ++ q ->
  sync c (ppp_ctcp b) l -> zlen (ipintrq b) < ipq_maxlen b ->
  exists b' l', ppp_input undef in_control stack rbuf fr b = Some (tt, b') /\ ipintrq b' = ipintrq b ++ [p] /\ plenty b' /\
    ipq_maxlen b' = ipq_maxlen b /\ sync c' (ppp_ctcp b') l'.
Proof.
  intros Hp Hd Hfit Hq -> Hsy Hroom. unfold ppp_input. rewrite bind_mod. set (b1 := set_ibytes _ b).
  assert (Hqueue : forall m s, ipintrq s = ipintrq b -> ipq_maxlen s = ipq_maxlen b -> queue_ip m s = Some (tt, set_ipintrq (ipintrq s ++ [m]) s)).
  { intros m s E1 E2. unfold queue_ip. rewrite bind_get, E1, E2. destruct (Z.leb_spec (ipq_maxlen b) (zlen (ipintrq b))); [lia|]. by rewrite <- E1. }
  destruct Hq as [|t q c' d' l' Htcp Ht Hmb Hs'].
  - assert (p <> []) by (intros ->; pose proof (datagram_len [] Hd) as Hl; change (zlen []) with 0 in Hl; lia).
    rewrite (bind_nonnull _ _ _ (PPP_IP, p)) by (apply strip_header; [by left|done]).
    destruct (Z.leb_spec (zlen p) 0); [pose proof (datagram_len p Hd); lia|]. zdec. rewrite Hqueue by done.
    by exists (set_ipintrq (ipintrq b1 ++ [p]) b1), l.
  - destruct (Hmb (rb_room rbuf) (rb_slack rbuf) (Hfit Htcp)) as (ms & Hrun & Hms).
    assert (Hne : q <> []).
    { intros ->. destruct (Hmb true [] ltac:(by left)) as (? & Hm & _). by destruct Ht as [-> | ->]. }
    set (ty := if t =? TYPE_UNCOMPRESSED_TCP then PPP_VJNC else PPP_VJC).
    rewrite (bind_nonnull _ _ _ (ty, q)) by (apply strip_header; [destruct Ht as [-> | ->]; [by right; right|by right; left]|done]).
    destruct (Z.leb_spec (zlen q) 0) as [Hz|_]; [destruct q; [done|]; rewrite zlen_cons in Hz; pose proof (zlen_nonneg q); lia|].
    assert (Hun : ppp_uncompress rbuf q t b1 = Some (tt, set_ipintrq (ipintrq b1 ++ [p]) (set_ctcp d' b1))).
    { unfold ppp_uncompress. rewrite (bind_run _ _ _ true b1) by (destruct ((t =? TYPE_COMPRESSED_TCP) && _); [by apply mget_plenty|done]).
      rewrite (bind_run _ _ _ (Some ms) (set_ctcp d' b1)) by (unfold kzoom; change (ppp_ctcp b1) with (ppp_ctcp b); cbn [negb]; by rewrite Hrun).
      rewrite Hms. by rewrite Hqueue. }
    exists (set_ipintrq (ipintrq b1 ++ [p]) (set_ctcp d' b1)), l'. split; [|done].
    destruct Ht as [-> | ->]; exact Hun.
Qed.

Lemma carry_run p a b l : linked a b l -> datagram p -> fits_link (rb_room rbuf) p -> zlen (ipintrq b) < ipq_maxlen b ->
  exists a' b' l', carry p a b = Some (a', b') /\ linked a' b' l' /\ ipintrq b' = ipintrq b ++ [p] /\ ipq_maxlen b' = ipq_maxlen b.
Proof.
  intros Hlk Hd Hfit Hroom. destruct (output_run p a b l Hlk Hd) as (fr & a1 & a2 & t & q & c' & Ho & Htr & Hfr & Hq & K1 & K2 & K3 & K4 & K5 & K6 & K7).
  destruct (input_run fr p b _ l t q c' _ (proj2 (lk_mbufs _ _ _ Hlk)) Hd Hfit Hq Hfr (lk_sync _ _ _ Hlk) Hroom) as (b' & l' & Hi & I1 & I2 & I3 & I4).
  exists a2, b', l'. unfold carry. rewrite Ho, Htr, Hi. split; [done|]. split; [|done].
  destruct Hlk as [L1 L2 L3 L4 L5 L6 L7]. split; [by rewrite K2|by rewrite K3|done|done|done|by rewrite K7|by rewrite K1].
Qed.
End Link.

(** C4. The link carries datagrams unchanged: datagrams of TCP whose headers are sound - the
    lengths and the checksum of the IP header right, the reserved bits clear, an urgent pointer
    just with URG, at most 108 bytes in all, and at most 100 when the mbufs of the receiver have
    no room before a frame - and datagrams of other protocols, of 20 bytes or more. Any number of
    them, sent at one end of an open link, each frame carried to the other end before the next
    datagram is sent, are queued there for the IP input in their order and byte for byte as they
    were, whichever of the compressions of the address, of the protocol number and of TCP headers
    has been negotiated, as long as no end is in want of mbufs, the output queues are empty at
    first and the IP input queue has room for all of them. The ends' tables of headers are in
    step, as they are when the link opens. *)
Theorem link_delivers undef in_control stack rbuf ps a b l :
  Forall datagram ps -> Forall (fits_link (rb_room rbuf)) ps -> linked a b l -> zlen (ipintrq b) + zlen ps <= ipq_maxlen b ->
  exists a' b', carry_all undef in_control stack rbuf ps a b = Some (a', b') /\ ipintrq b' = ipintrq b ++ ps.
Proof.
  intros Hd. revert a b l. induction Hd as [|p ps Hp Hd IH]; intros a b l Hfit Hlk Hroom.
  { exists a, b. by rewrite app_nil_r. }
  rewrite zlen_cons in Hroom. pose proof (zlen_nonneg ps). apply Forall_cons in Hfit as [Hfp Hfit].
  destruct (carry_run undef in_control stack rbuf p a b l Hlk Hp Hfp ltac:(lia)) as (a1 & b1 & l1 & Hc & Hlk1 & Hq1 & Hm1).
  destruct (IH a1 b1 l1 Hfit Hlk1) as (a' & b' & Hrun & Hq); [rewrite Hq1, Hm1, zlen_app; change (zlen [p]) with 1; lia|].
  exists a', b'. cbn [carry_all]. rewrite Hc. split; [done|]. by rewrite Hq, Hq1, <- app_assoc.
Qed.

(** An open link that compresses all it can. *)
Definition data_link : p2pcom * p2pcom :=
  match opened with
  | Some (a, b) => (set_txflags 7 (set_isnd [] (set_ipcp (with_state CP_OPENED (ppp_ipcp a)) a)), set_isnd [] b)
  | None => (new_line plain 7, new_line plain 9)
  end.

Definition udp : list Z := [0x45; 0; 0; 28; 0; 1; 0; 0; 64; 17; 0; 0; 10; 0; 0; 1; 10; 0; 0; 2; 0; 53; 0; 53; 0; 8; 0; 0].

Lemma link_delivers_witness :
  let ps := [bytes (tcp 1 100 200 24 1000 0 3) ++ [1; 2; 3]; udp; bytes (tcp 2 103 200 24 1000 0 2) ++ [4; 5]] in
  exists a' b', carry_all 0 no_control no_stack (Rbuffer false [9; 9]) ps data_link.1 data_link.2 = Some (a', b') /\ ipintrq b' = ps.
Proof.
  intros ps. apply (link_delivers 0 no_control no_stack (Rbuffer false [9; 9]) ps data_link.1 data_link.2 [15; 14; 13; 12; 11; 10; 9; 8; 7; 6; 5; 4; 3; 2; 1; 0]).
  - apply Forall_cons_2; [left|apply Forall_cons_2; [right; split; [vm_compute; congruence|vm_compute; congruence]|apply Forall_cons_2; [left|apply Forall_nil_2]]].
    + apply (tcp_packet 1 100 200 24 1000 0 [1; 2; 3]); try reflexivity; try (vm_compute; intuition congruence); split; vm_compute; intuition congruence.
    + apply (tcp_packet 2 103 200 24 1000 0 [4; 5]); try reflexivity; try (vm_compute; intuition congruence); split; vm_compute; intuition congruence.
  - repeat apply Forall_cons_2; try apply Forall_nil_2; intros Hp; try (vm_compute in Hp; discriminate Hp);
      right; intros hl off H1 H2; vm_compute in H1; injection H1 as <-; vm_compute in H2; injection H2 as <-; vm_compute; discriminate.
  - split; [reflexivity|reflexivity|split; reflexivity|reflexivity|reflexivity|reflexivity|].
    change (sync (ppp_ctcp data_link.1) (ppp_ctcp data_link.2) [15; 14; 13; 12; 11; 10; 9; 8; 7; 6; 5; 4; 3; 2; 1; 0]).
    replace (ppp_ctcp data_link.1) with sl_compress_init by (vm_compute; reflexivity).
    replace (ppp_ctcp data_link.2) with sl_compress_init by (vm_compute; reflexivity). exact init_sync.
  - vm_compute. congruence.
Defined.

(** ** The priority queue and the compression *)

(** A header of a connection with the type of service [tos]. *)
Definition tcp_tos (tos id seq n : Z) : header :=
  sealed (Header 0x45 tos (40 + n) id 0 64 IPPROTO_TCP 0 0x0a000001 0x0a000002 [] 0x04000050 seq 200 0x50 24 1000 0xabcd 0 []).

Definition slow1 : list Z := bytes (tcp_tos 0 1 100 3) ++ [1; 2; 3].
Definition fast2 : list Z := bytes (tcp_tos IPTOS_LOWDELAY 2 103 2) ++ [4; 5].
Definition fast3 : list Z := bytes (tcp_tos IPTOS_LOWDELAY 3 105 2) ++ [6; 7].

(** The next frame of [a] is carried to [b]. *)
Definition carry_next (ab : option (p2pcom * p2pcom)) : option (p2pcom * p2pcom) :=
  match ab with
  | Some (a, b) =>
    match transmit a with
    | Some (fr, a) => match ppp_input 0 no_control no_stack (Rbuffer false []) fr b with Some (_, b) => Some (a, b) | None => None end
    | None => None
    end
  | None => None
  end.
Definition send_next (p : list Z) (ab : option (p2pcom * p2pcom)) : option (p2pcom * p2pcom) :=
  match ab with
  | Some (a, b) => match ppp_output AF_INET p a with Some (_, a) => Some (a, b) | None => None end
  | None => None
  end.

Lemma tos_packet tos id seq dat : let h := tcp_tos tos id seq (zlen dat) in
  wf_header h -> store_sum (bytes (set_sum h 0)) (4 * hl h) = Some (bytes h) -> urg h = false /\ h_urp h = 0 -> 0 <= h_flags h < 64 ->
  h_p h = IPPROTO_TCP -> h_offx h = 0x50 -> hl h = 5 -> h_len h = 40 + zlen dat -> sound_packet (bytes h ++ dat).
Proof.
  intros h Hw Hs [Hu Hv] Hf Hp Ho Hl Hn. exists h, dat. assert (E : hlen h = 40) by (unfold hlen, toff; by rewrite Hl, Ho).
  clearbody h. split; [done|]. split; [|by rewrite E|done]. split; [done|done|by rewrite Ho|done|by rewrite Hu, Hv|by rewrite E].
Qed.

(** The priority queue defeats the compression of headers.  Three packets of one
    connection, sound ones, the second and third with the type of service for low delay: the
    second overtakes the first, which the compressor has seen before it, the third is sent
    when both have crossed, and although no frame is lost or damaged it comes out with the
    type of service and the sequence number of another packet: its headers were compressed
    against the second's, which the first has replaced at the other end. *)
Theorem priority_garbles :
  Forall sound_packet [slow1; fast2; fast3] /\
  exists a b x, carry_next (send_next fast3 (carry_next (carry_next (send_next fast2 (send_next slow1 (Some data_link)))))) = Some (a, b) /\
    ipintrq b = [fast2; slow1; x] /\ get8 x 1 = Some 0 /\ get32 x 24 = Some 103 /\
    get8 fast3 1 = Some IPTOS_LOWDELAY /\ get32 fast3 24 = Some 105.
Proof.
  split.
  - repeat apply Forall_cons_2; try apply Forall_nil_2.
    1: apply (tos_packet 0 1 100 [1; 2; 3]). 9: apply (tos_packet IPTOS_LOWDELAY 2 103 [4; 5]). 17: apply (tos_packet IPTOS_LOWDELAY 3 105 [6; 7]).
    all: try reflexivity; try (vm_compute; intuition congruence); split; vm_compute; intuition congruence.
  - destruct (carry_next _) as [[a b]|] eqn:E; [|vm_compute in E; discriminate E].
    assert (Eb : exists x, ipintrq b = [fast2; slow1; x] /\ get8 x 1 = Some 0 /\ get32 x 24 = Some 103).
    { vm_compute in E. injection E as <- <-. eexists. split; [vm_compute; reflexivity|]. split; reflexivity. }
    destruct Eb as (x & Hx & H1 & H2). exists a, b, x. split_and!; try done; reflexivity.
Qed.
