(* ===== verification/Mbuf.v ===== *)
(** * Memory buffers (sys/kern/uipc_mbuf.c)

    The routines on chains of mbufs and on the clusters that mbufs share.  An mbuf is owned
    by the chain it is in, so that a chain, a [struct mbuf *], is the list of its mbufs and
    the null pointer the empty list; a cluster is known by its number, its bytes and the
    count of its references are in the state.  [m_data] counts from the start of [m_dat] or,
    with M_EXT, of the cluster.  MALLOC and [kmem_malloc] answer what the state says they
    will.  When they do not, the drain routines of the protocols, which may be anything, are
    called. *)

From S2P Require Import Prelude.
Local Open Scope kern_scope.

(** ** Data *)

Definition MLEN := 108.
Definition MHLEN := 100.
Definition MCLBYTES := 1024.
Definition CLBYTES := 4096.
Definition MAX_MBFREE := 32.

Definition M_EXT := 1.
Definition M_PKTHDR := 2.
Definition M_EOR := 4.
Definition M_BCAST := 256.
Definition M_MCAST := 512.
Definition M_COPYFLAGS := Z.lor (Z.lor M_PKTHDR M_EOR) (Z.lor M_BCAST M_MCAST).
Definition M_COPYALL := 1000000000.

Definition MT_FREE := 0.
Definition MT_DATA := 1.
Definition MT_HEADER := 2.
Definition MT_FTABLE := 11.

(** sys/sys/mbuf.h:79-82, [struct pkthdr]. *)
Record pkthdr := Pkthdr { len : Z; rcvif : ptr }.

(** sys/sys/mbuf.h:69-103, [struct mbuf]: without its links; [m_ext] is the number of the cluster,
    valid with M_EXT. *)
Record mbuf := Mbuf {
  m_type : Z; m_flags : Z; m_data : Z; m_len : Z; m_pkthdr : pkthdr; m_ext : Z; m_dat : list Z }.

(** sys/sys/mbuf.h:367-376, [struct mbstat]: the fields the routines change. *)
Record mbstat := Mbstat { m_clusters : Z; m_clfree : Z; m_drain : Z; m_mtypes : gmap Z Z }.

(** The variables of the allocator, the clusters, and the answers of MALLOC (an mbuf with what it
    holds from its last use) and of [kmem_malloc] (a page, by the number of its first cluster and
    its bytes); when the list of answers is empty MALLOC succeeds, [kmem_malloc] does not. *)
Record mbst := Mbst {
  mclrefcnt : gmap Z Z; mcl_buf : gmap Z (list Z); mclfree : Z; mbutl : Z; mbuffree : list mbuf;
  stat : mbstat; MCFail : Z; MPFail : Z; logged : Z; max_protohdr : Z;
  malloc_ans : list (option mbuf); kmem_ans : list (option (Z * list Z)) }.

Definition with_refcnt v s := Mbst v (mcl_buf s) (mclfree s) (mbutl s) (mbuffree s) (stat s) (MCFail s) (MPFail s)
  (logged s) (max_protohdr s) (malloc_ans s) (kmem_ans s).
Definition with_buf v s := Mbst (mclrefcnt s) v (mclfree s) (mbutl s) (mbuffree s) (stat s) (MCFail s) (MPFail s)
  (logged s) (max_protohdr s) (malloc_ans s) (kmem_ans s).
Definition with_mclfree v s := Mbst (mclrefcnt s) (mcl_buf s) v (mbutl s) (mbuffree s) (stat s) (MCFail s) (MPFail s)
  (logged s) (max_protohdr s) (malloc_ans s) (kmem_ans s).
Definition with_mbuffree v s := Mbst (mclrefcnt s) (mcl_buf s) (mclfree s) (mbutl s) v (stat s) (MCFail s) (MPFail s)
  (logged s) (max_protohdr s) (malloc_ans s) (kmem_ans s).
Definition with_stat v s := Mbst (mclrefcnt s) (mcl_buf s) (mclfree s) (mbutl s) (mbuffree s) v (MCFail s) (MPFail s)
  (logged s) (max_protohdr s) (malloc_ans s) (kmem_ans s).
Definition with_mcfail v s := Mbst (mclrefcnt s) (mcl_buf s) (mclfree s) (mbutl s) (mbuffree s) (stat s) v (MPFail s)
  (logged s) (max_protohdr s) (malloc_ans s) (kmem_ans s).
Definition with_mpfail v s := Mbst (mclrefcnt s) (mcl_buf s) (mclfree s) (mbutl s) (mbuffree s) (stat s) (MCFail s) v
  (logged s) (max_protohdr s) (malloc_ans s) (kmem_ans s).
Definition with_logged v s := Mbst (mclrefcnt s) (mcl_buf s) (mclfree s) (mbutl s) (mbuffree s) (stat s) (MCFail s)
  (MPFail s) v (max_protohdr s) (malloc_ans s) (kmem_ans s).
Definition with_malloc v s := Mbst (mclrefcnt s) (mcl_buf s) (mclfree s) (mbutl s) (mbuffree s) (stat s) (MCFail s)
  (MPFail s) (logged s) (max_protohdr s) v (kmem_ans s).
Definition with_kmem v s := Mbst (mclrefcnt s) (mcl_buf s) (mclfree s) (mbutl s) (mbuffree s) (stat s) (MCFail s)
  (MPFail s) (logged s) (max_protohdr s) (malloc_ans s) v.

Definition set_flags v m := Mbuf (m_type m) v (m_data m) (m_len m) (m_pkthdr m) (m_ext m) (m_dat m).
Definition set_data v m := Mbuf (m_type m) (m_flags m) v (m_len m) (m_pkthdr m) (m_ext m) (m_dat m).
Definition set_len v m := Mbuf (m_type m) (m_flags m) (m_data m) v (m_pkthdr m) (m_ext m) (m_dat m).
Definition set_hdr v m := Mbuf (m_type m) (m_flags m) (m_data m) (m_len m) v (m_ext m) (m_dat m).
Definition set_ext v m := Mbuf (m_type m) (m_flags m) (m_data m) (m_len m) (m_pkthdr m) v (m_dat m).
Definition set_dat v m := Mbuf (m_type m) (m_flags m) (m_data m) (m_len m) (m_pkthdr m) (m_ext m) v.
(** [m->m_pkthdr.len = v]. *)
Definition set_plen v m := set_hdr (Pkthdr v (rcvif (m_pkthdr m))) m.

(** What the components that own mbufs have in their state: the variables of the allocator,
    and the routines [pr_drain] of the protocols. *)
Class HasMbufs (S : Type) := { mb_get : S -> mbst; mb_put : mbst -> S -> S }.
Class Drains (S : Type) := pr_drain : K S unit.

Definition mb {S A} `{!HasMbufs S} (m : K mbst A) : K S A := kzoom mb_get mb_put m.

(** ** Bytes *)

Definition is_ext (m : mbuf) : bool := flag_set (m_flags m) M_EXT.
Definition is_hdr (m : mbuf) : bool := flag_set (m_flags m) M_PKTHDR.

(** The bytes [bcopy] reads at [mtod(m) + off]. *)
Definition bytes_at (m : mbuf) (off n : Z) : K mbst (list Z) :=
  if is_ext m then kderef (fun s => match mcl_buf s !! m_ext m with Some b => slice b (m_data m + off) n | None => None end)
  else knonnull (slice (m_dat m) (m_data m + off) n).
(** [bcopy] of [bs] to [mtod(m) + off], in the data area of [m]. *)
Definition put_at (m : mbuf) (off : Z) (bs : list Z) : option mbuf :=
  let p := m_data m + off in
  if (0 <=? p) && (p + zlen bs <=? zlen (m_dat m))
  then Some (set_dat (take (Z.to_nat p) (m_dat m) ++ bs ++ drop (Z.to_nat (p + zlen bs)) (m_dat m)) m) else None.

Definition get_le32 (b : list Z) : option Z :=
  match b with b0 :: b1 :: b2 :: b3 :: _ => Some (b0 + 256 * b1 + 65536 * b2 + 16777216 * b3) | _ => None end.
Definition le32 (x : Z) : list Z := [x mod 256; x / 256 mod 256; x / 65536 mod 256; x / 16777216 mod 256].

(** sys/sys/mbuf.h:65-65, [mtocl]. *)
Definition mtocl (s : mbst) (x : Z) : Z := Z.shiftr (u32 (u32 x - u32 (mbutl s))) 10.
(** sys/sys/mbuf.h:66-66, [cltom]. *)
Definition cltom (s : mbst) (x : Z) : Z := u32 (u32 (mbutl s) + Z.shiftr (u32 x) 10).
(** The address of the cluster [c]. *)
Definition cl_addr (s : mbst) (c : Z) : Z := mbutl s + MCLBYTES * c.

(** [((union mcluster * )p)->mcl_next]. *)
Definition mcl_next (c : Z) : K mbst Z := kderef (fun s => mcl_buf s !! c ≫= get_le32).
Definition set_mcl_next (c v : Z) : K mbst unit :=
  let! b := kderef (fun s => mcl_buf s !! c) in
  if zlen b <? 4 then kpanic else kmod (fun s => with_buf (<[c := le32 v ++ drop 4 b]> (mcl_buf s)) s).

(** [mclrefcnt] is an array of [char]. *)
Definition refcnt (s : mbst) (c : Z) : Z := default 0 (mclrefcnt s !! c).
Definition add_ref (c d : Z) : K mbst unit := kmod (fun s => with_refcnt (<[c := s8 (refcnt s c + d)]> (mclrefcnt s)) s).
Definition mtypes (s : mbst) (t : Z) : Z := default 0 (m_mtypes (stat s) !! t).
Definition count_type (t d : Z) : K mbst unit := kmod (fun s =>
  with_stat (Mbstat (m_clusters (stat s)) (m_clfree (stat s)) (m_drain (stat s)) (<[t := u16 (mtypes s t + d)]> (m_mtypes (stat s)))) s).
Definition add_clfree (d : Z) : K mbst unit := kmod (fun s =>
  with_stat (Mbstat (m_clusters (stat s)) (u32 (m_clfree (stat s) + d)) (m_drain (stat s)) (m_mtypes (stat s))) s).

(** ** Allocation *)

(** An mbuf the pool has never given out. *)
Definition blank : mbuf := Mbuf 0 0 0 0 (Pkthdr 0 None) 0 (replicate 108 0).

(** sys/sys/mbuf.h:159-170, [MBALLOC]. *)
Definition MBALLOC : K mbst (option mbuf) :=
  let! s := kget in
  match mbuffree s with
  | m :: l => do! kmod (with_mbuffree l) in do! count_type MT_FREE (-1) in kret (Some m)
  | [] => match malloc_ans s with
          | a :: l => do! kmod (with_malloc l) in kret a
          | [] => kret (Some blank)
          end
  end.

(** sys/sys/mbuf.h:172-183, [MGET]: without the retry. *)
Definition MGET1 (type : Z) : K mbst (option mbuf) :=
  let! o := MBALLOC in
  match o with
  | Some m => do! count_type type 1 in kret (Some (Mbuf type 0 0 (m_len m) (m_pkthdr m) (m_ext m) (m_dat m)))
  | None => kret None
  end.

(** sys/sys/mbuf.h:185-196, [MGETHDR]: without the retry. *)
Definition MGETHDR1 (type : Z) : K mbst (option mbuf) :=
  let! o := MBALLOC in
  match o with
  | Some m => do! count_type type 1 in kret (Some (Mbuf type M_PKTHDR 8 (m_len m) (m_pkthdr m) (m_ext m) (m_dat m)))
  | None => kret None
  end.

(** sys/sys/mbuf.h:247-253, [MCLFREE]. *)
Definition MCLFREE (c : Z) : K mbst unit :=
  do! add_ref c (-1) in
  let! s := kget in
  if refcnt s c =? 0 then
    do! set_mcl_next c (mclfree s) in
    do! kmod (with_mclfree (cl_addr s c)) in
    add_clfree 1
  else kret tt.

(** sys/sys/mbuf.h:275-291, [MFREE]: the successor is the rest of the chain. *)
Definition MFREE (m : mbuf) : K mbst unit :=
  do! count_type (m_type m) (-1) in
  do! (if is_ext m then MCLFREE (m_ext m) else kret tt) in
  let! s := kget in
  if mtypes s MT_FREE <? MAX_MBFREE then
    do! kmod (with_mbuffree (m :: mbuffree s)) in count_type MT_FREE 1
  else kret tt.

(** sys/kern/uipc_mbuf.c:201-209, [m_free]. *)
Definition m_free (m : list mbuf) : K mbst (list mbuf) :=
  match m with x :: n => do! MFREE x in kret n | [] => kpanic end.

(** sys/kern/uipc_mbuf.c:211-221, [m_freem]. *)
Fixpoint m_freem (m : list mbuf) : K mbst unit :=
  match m with [] => kret tt | x :: n => do! MFREE x in m_freem n end.

(** sys/kern/uipc_mbuf.c:106-111, [m_clalloc]: the loop over the clusters of the page, from
    cluster [c] with the bytes [p]. *)
Fixpoint m_clalloc_loop (n : nat) (c : Z) (p : list Z) : K mbst unit :=
  match n with
  | O => kret tt
  | S n =>
      let! s := kget in
      do! kmod (with_buf (<[c := take 1024 p]> (mcl_buf s))) in
      do! set_mcl_next c (mclfree s) in
      do! kmod (with_mclfree (cl_addr s c)) in
      do! add_clfree 1 in
      m_clalloc_loop n (c + 1) (drop 1024 p)
  end.

Definition kmem_malloc : K mbst (option (Z * list Z)) := fun s =>
  match kmem_ans s with [] => Some (None, s) | a :: l => Some (a, with_kmem l s) end.

Section Drain.
Context {S : Type} `{!HasMbufs S, !Drains S}.

(** sys/kern/uipc_mbuf.c:149-161, [m_reclaim]: the loop over the protocols is [pr_drain]. *)
Definition m_reclaim : K S unit :=
  do! pr_drain in
  mb (kmod (fun s => with_stat (Mbstat (m_clusters (stat s)) (m_clfree (stat s)) (u32 (m_drain (stat s) + 1)) (m_mtypes (stat s))) s)).

(** sys/kern/uipc_mbuf.c:120-131, [m_retry]. *)
Definition m_retry (type : Z) : K S (option mbuf) := do! m_reclaim in mb (MGET1 type).

(** sys/kern/uipc_mbuf.c:136-147, [m_retryhdr]. *)
Definition m_retryhdr (type : Z) : K S (option mbuf) := do! m_reclaim in mb (MGETHDR1 type).

(** sys/sys/mbuf.h:172-183, [MGET]. *)
Definition MGET (type : Z) : K S (option mbuf) :=
  let! o := mb (MGET1 type) in match o with Some m => kret (Some m) | None => m_retry type end.

(** sys/sys/mbuf.h:185-196, [MGETHDR]. *)
Definition MGETHDR (type : Z) : K S (option mbuf) :=
  let! o := mb (MGETHDR1 type) in match o with Some m => kret (Some m) | None => m_retryhdr type end.

Definition chain_of (o : option mbuf) : list mbuf := match o with Some m => [m] | None => [] end.

(** sys/kern/uipc_mbuf.c:168-176, [m_get]. *)
Definition m_get (type : Z) : K S (list mbuf) := let! o := MGET type in kret (chain_of o).

(** sys/kern/uipc_mbuf.c:178-186, [m_gethdr]. *)
Definition m_gethdr (type : Z) : K S (list mbuf) := let! o := MGETHDR type in kret (chain_of o).

(** sys/kern/uipc_mbuf.c:188-199, [m_getclr]. *)
Definition m_getclr (type : Z) : K S (list mbuf) :=
  let! o := MGET type in
  match o with
  | None => kret []
  | Some m => let! m := knonnull (put_at m 0 (replicate 108 0)) in kret [m]
  end.

(** sys/kern/uipc_mbuf.c:84-114, [m_clalloc]: [ncl] pages, of which the callers ask for one; 1
    when there is a free cluster. *)
Definition m_clalloc (ncl : nat) : K S Z :=
  let! p := mb kmem_malloc in
  match p with
  | None =>
      do! mb (kmod (fun s => if logged s =? 0 then with_logged (logged s + 1) s else s)) in
      do! m_reclaim in
      let! s := mb kget in
      kret (if ztrue (mclfree s) then 1 else 0)
  | Some (c, b) =>
      let n := (ncl * 4)%nat in
      do! mb (m_clalloc_loop n c b) in
      do! mb (kmod (fun s => with_stat (Mbstat (u32 (m_clusters (stat s) + Z.of_nat n)) (m_clfree (stat s))
               (m_drain (stat s)) (m_mtypes (stat s))) s)) in
      kret 1
  end.

(** sys/kern/uipc_mbuf.c:60-76, [mbinit]. *)
Definition mbinit : K S unit := let! ok := m_clalloc 1 in if ok =? 0 then kpanic else kret tt.

(** sys/sys/mbuf.h:215-235, [MCLALLOC]: the cluster's number; [None] is a null [p]. *)
Definition MCLALLOC : K S (option Z) :=
  let take_one := mb (
    let! s := kget in
    if mclfree s =? 0 then kret None
    else
      let c := mtocl s (mclfree s) in
      do! add_ref c 1 in
      do! add_clfree (-1) in
      let! n := mcl_next c in
      do! kmod (with_mclfree n) in
      kret (Some c)) in
  let! s := mb kget in
  if mclfree s =? 0 then let! _ := m_clalloc 1 in take_one else take_one.

(** sys/sys/mbuf.h:237-244, [MCLGET]. *)
Definition MCLGET (m : mbuf) : K S mbuf :=
  let! p := MCLALLOC in
  kret (match p with
        | Some c => set_ext c (set_flags (Z.lor (m_flags m) M_EXT) (set_data 0 m))
        | None => m
        end).

(** ** Chains *)

(** sys/sys/mbuf.h:298-302, [M_COPY_PKTHDR]. *)
Definition M_COPY_PKTHDR (to from : mbuf) : mbuf :=
  set_data 8 (set_flags (Z.land (m_flags from) M_COPYFLAGS) (set_hdr (m_pkthdr from) to)).

(** sys/kern/uipc_mbuf.c:232-254, [m_prepend]. *)
Definition m_prepend (m : list mbuf) (plen : Z) : K S (list mbuf) :=
  match m with
  | [] => kpanic
  | x :: r =>
      let! o := MGET (m_type x) in
      match o with
      | None => do! mb (m_freem m) in kret []
      | Some mn =>
          let '(mn, x) := if is_hdr x then (M_COPY_PKTHDR mn x, set_flags (Z.land (m_flags x) (Z.lnot M_PKTHDR)) x) else (mn, x) in
          let mn := if plen <? MHLEN then set_data (m_data mn + Z.land (MHLEN - plen) (Z.lnot 3)) mn else mn in
          kret (set_len plen mn :: x :: r)
      end
  end.

(** sys/sys/mbuf.h:321-325, [M_LEADINGSPACE]. *)
Definition M_LEADINGSPACE (m : mbuf) : Z := if is_ext m then 0 else if is_hdr m then m_data m - 8 else m_data m.

(** sys/sys/mbuf.h:341-349, [M_PREPEND]. *)
Definition M_PREPEND (m : list mbuf) (plen : Z) : K S (list mbuf) :=
  match m with
  | [] => kpanic
  | x :: r =>
      let! m := (if plen <=? M_LEADINGSPACE x
                 then kret (set_len (m_len x + plen) (set_data (m_data x - plen) x) :: r)
                 else m_prepend m plen) in
      kret (match m with
            | x :: r => (if is_hdr x then set_plen (len (m_pkthdr x) + plen) x else x) :: r
            | [] => []
            end)
  end.

(** sys/kern/uipc_mbuf.c:278-285, [m_copym]: go to the byte [off]; the chain from there and what
    is left of [off].  [m_copydata] begins in the same way. *)
Fixpoint m_skip (m : list mbuf) (off : Z) : option (list mbuf * Z) :=
  if 0 <? off then
    match m with
    | [] => None
    | x :: r => if off <? m_len x then Some (m, off) else m_skip r (off - m_len x)
    end
  else Some (m, off).

(** sys/kern/uipc_mbuf.c:298-314, [m_copym]: the copy [n] of the part of [x] from [off]. *)
Definition copy_one (x n : mbuf) (off0 off len0 : Z) (copyhdr : bool) : K mbst mbuf :=
  let n := if copyhdr then
             let n := M_COPY_PKTHDR n x in
             if len0 =? M_COPYALL then set_plen (len (m_pkthdr n) - off0) n else set_plen len0 n
           else n in
  let n := set_len (Z.min len0 (m_len x - off)) n in
  if is_ext x then
    do! add_ref (m_ext x) 1 in
    kret (set_flags (Z.lor (m_flags n) M_EXT) (set_ext (m_ext x) (set_data (m_data x + off) n)))
  else
    let! bs := bytes_at x off (m_len n) in
    knonnull (put_at n 0 bs).

(** sys/kern/uipc_mbuf.c:286-328, [m_copym]: the loop, with the copies made so far in [top]. *)
Fixpoint copy_loop (m : list mbuf) (off0 off len0 : Z) (copyhdr : bool) (top : list mbuf) : K S (list mbuf) :=
  let out := do! (match top with [] => mb (kmod (fun s => with_mcfail (MCFail s + 1) s)) | _ => kret tt end) in kret top in
  if 0 <? len0 then
    match m with
    | [] => if len0 =? M_COPYALL then out else kpanic
    | x :: r =>
        let! o := MGET (m_type x) in
        match o with
        | None => do! mb (m_freem top) in do! mb (kmod (fun s => with_mcfail (MCFail s + 1) s)) in kret []
        | Some n =>
            let! n := mb (copy_one x n off0 off len0 copyhdr) in
            copy_loop r off0 0 (if len0 =? M_COPYALL then len0 else len0 - m_len n) false (top ++ [n])
        end
    end
  else out.

(** sys/kern/uipc_mbuf.c:264-328, [m_copym]. *)
Definition m_copym (m : list mbuf) (off0 len0 : Z) : K S (list mbuf) :=
  if (off0 <? 0) || (len0 <? 0) then kpanic
  else
    let! copyhdr := (if off0 =? 0 then match m with [] => kpanic | x :: _ => kret (is_hdr x) end else kret false) in
    let! (m, off) := knonnull (m_skip m off0) in
    copy_loop m off0 off len0 copyhdr [].
End Drain.

(** sys/kern/uipc_mbuf.c:352-361, [m_copydata]: the loop; the bytes copied. *)
Fixpoint copydata_loop (m : list mbuf) (off len0 : Z) : K mbst (list Z) :=
  if 0 <? len0 then
    match m with
    | [] => kpanic
    | x :: r =>
        let count := Z.min (m_len x - off) len0 in
        let! bs := bytes_at x off count in
        let! rest := copydata_loop r 0 (len0 - count) in
        kret (bs ++ rest)
    end
  else kret [].

(** sys/kern/uipc_mbuf.c:334-362, [m_copydata]. *)
Definition m_copydata (m : list mbuf) (off len0 : Z) : K mbst (list Z) :=
  if (off <? 0) || (len0 <? 0) then kpanic
  else let! (m, off) := knonnull (m_skip m off) in copydata_loop m off len0.

(** sys/kern/uipc_mbuf.c:374-386, [m_cat]: [n] after the last mbuf [m]. *)
Fixpoint cat_last (m : mbuf) (n : list mbuf) : K mbst (list mbuf) :=
  match n with
  | [] => kret [m]
  | y :: r =>
      if is_ext m || (MLEN <=? m_data m + m_len m + m_len y) then kret (m :: n)
      else
        let! bs := bytes_at y 0 (m_len y) in
        let! m := knonnull (put_at m (m_len m) bs) in
        let m := set_len (m_len m + m_len y) m in
        do! MFREE y in
        cat_last m r
  end.

(** sys/kern/uipc_mbuf.c:369-387, [m_cat]: the chain that begins at [m]. *)
Fixpoint m_cat (m n : list mbuf) : K mbst (list mbuf) :=
  match m with
  | [] => kpanic
  | [x] => cat_last x n
  | x :: r => let! r := m_cat r n in kret (x :: r)
  end.

(** sys/kern/uipc_mbuf.c:402-412, [m_adj]: trim [len] bytes from the head; what is left of [len]. *)
Fixpoint adj_head (m : list mbuf) (len : Z) : list mbuf * Z :=
  if 0 <? len then
    match m with
    | [] => ([], len)
    | x :: r =>
        if m_len x <=? len then let '(r, l) := adj_head r (len - m_len x) in (set_len 0 x :: r, l)
        else (set_len (m_len x - len) (set_data (m_data x + len) x) :: r, 0)
    end
  else (m, len).

(** sys/kern/uipc_mbuf.c:425-431, [m_adj]: the length of the chain. *)
Fixpoint m_length (m : list mbuf) : Z := match m with [] => 0 | x :: r => m_len x + m_length r end.

(** sys/kern/uipc_mbuf.c:449-457, [m_adj]: keep [count] bytes; [None] when the chain has fewer. *)
Fixpoint adj_keep (m : list mbuf) (count : Z) : option (list mbuf) :=
  match m with
  | [] => None
  | x :: r =>
      if count <=? m_len x then Some (set_len count x :: map (set_len 0) r)
      else match adj_keep r (count - m_len x) with Some r => Some (x :: r) | None => None end
  end.

(** Apply [f] to the first mbuf when it has a packet header, to the last. *)
Definition on_hdr (f : mbuf -> mbuf) (m : list mbuf) : list mbuf :=
  match m with x :: r => (if is_hdr x then f x else x) :: r | [] => [] end.
Fixpoint on_last (f : mbuf -> mbuf) (m : list mbuf) : list mbuf :=
  match m with [] => [] | [x] => [f x] | x :: r => x :: on_last f r end.

(** sys/kern/uipc_mbuf.c:389-459, [m_adj]. *)
Definition m_adj (mp : list mbuf) (req_len : Z) : option (list mbuf) :=
  match last mp with
  | None => Some mp
  | Some z =>
      if 0 <=? req_len then
        let '(m, l) := adj_head mp req_len in
        Some (on_hdr (fun x => set_plen (len (m_pkthdr x) - (req_len - l)) x) m)
      else
        let l := - req_len in
        if l <=? m_len z then
          Some (on_hdr (fun x => set_plen (len (m_pkthdr x) - l) x) (on_last (fun x => set_len (m_len x - l) x) mp))
        else
          let count := Z.max 0 (m_length mp - l) in
          adj_keep (on_hdr (set_plen count) mp) count
  end.

(** sys/kern/uipc_mbuf.c:505-517, [m_pullup]: the loop that moves bytes from the chain [n] into [m],
    of which [plen] are still wanted and [space] fit.  One turn either empties an mbuf of [n] or
    ends the loop. *)
Fixpoint pullup_loop (fuel : nat) (m : mbuf) (n : list mbuf) (plen space : Z) : K mbst (mbuf * list mbuf * Z) :=
  match fuel, n with
  | S fuel, x :: r =>
      let! mp := kgets max_protohdr in
      let count := s32 (Z.min (Z.min (Z.max (u32 plen) (u32 mp)) (u32 space)) (u32 (m_len x))) in
      let! bs := bytes_at x 0 count in
      let! m := knonnull (put_at m (m_len m) bs) in
      let plen := plen - count in
      let m := set_len (m_len m + count) m in
      let x := set_len (m_len x - count) x in
      let space := space - count in
      let! n := (if ztrue (m_len x) then kret (set_data (m_data x + count) x :: r) else do! MFREE x in kret r) in
      match n with
      | _ :: _ => if 0 <? plen then pullup_loop fuel m n plen space else kret (m, n, plen)
      | [] => kret (m, n, plen)
      end
  | _, _ => kpanic
  end.

(** sys/kern/uipc_mbuf.c:524-527, [m_pullup]: [bad]. *)
Definition pullup_bad (n : list mbuf) : K mbst (list mbuf) :=
  do! m_freem n in do! kmod (fun s => with_mpfail (MPFail s + 1) s) in kret [].

(** sys/kern/uipc_mbuf.c:504-523, [m_pullup]: from the computation of [space]. *)
Definition pullup_into (m : mbuf) (n : list mbuf) (plen : Z) : K mbst (list mbuf) :=
  let space := MLEN - (m_data m + m_len m) in
  let! (m, n, plen) := pullup_loop (length n) m n plen space in
  if 0 <? plen then do! MFREE m in pullup_bad n else kret (m :: n).

(** sys/kern/uipc_mbuf.c:471-528, [m_pullup]. *)
Definition m_pullup {S} `{!HasMbufs S, !Drains S} (n : list mbuf) (plen : Z) : K S (list mbuf) :=
  match n with
  | [] => kpanic
  | x :: r =>
      if negb (is_ext x) && (m_data x + plen <? MLEN) && negb (bool_decide (r = [])) then
        if plen <=? m_len x then kret n else mb (pullup_into x r (plen - m_len x))
      else if MHLEN <? plen then mb (pullup_bad n)
      else
        let! o := MGET (m_type x) in
        match o with
        | None => mb (pullup_bad n)
        | Some m =>
            let m := set_len 0 m in
            let '(m, x) := if is_hdr x then (M_COPY_PKTHDR m x, set_flags (Z.land (m_flags x) (Z.lnot M_PKTHDR)) x) else (m, x) in
            mb (pullup_into m (x :: r) plen)
        end
  end.
