(* ===== verification/MbufSpec.v ===== *)
(** * What mbufs hold, and the pool they come from

    The bytes of a chain; when the free list, the counts of references and the statistics
    account for a list of mbufs in use ([pool]); and how allocation, release and the edits of
    one mbuf change both. *)

From S2P Require Import Prelude Mbuf.
Local Open Scope kern_scope.

(** ** The bytes of a chain *)

Definition mbuffer (s : mbst) (m : mbuf) : list Z := if is_ext m then default [] (mcl_buf s !! m_ext m) else m_dat m.
Definition mbytes (s : mbst) (m : mbuf) : list Z := take (Z.to_nat (m_len m)) (drop (Z.to_nat (m_data m)) (mbuffer s m)).
Definition cbytes (s : mbst) (c : list mbuf) : list Z := mjoin (mbytes s <$> c).

(** The space for data: from byte [m_start] to byte [m_limit] of the buffer. *)
Definition m_start (m : mbuf) : Z := if is_hdr m && negb (is_ext m) then 8 else 0.
Definition m_limit (m : mbuf) : Z := if is_ext m then MCLBYTES else MLEN.

Record mok (m : mbuf) : Prop := {
  mo_type : m_type m <> MT_FREE;
  mo_dat : zlen (m_dat m) = MLEN;
  mo_len : 0 <= m_len m;
  mo_start : m_start m <= m_data m;
  mo_end : m_data m + m_len m <= m_limit m }.

(** ** The references to a cluster, the mbufs of a type *)

Definition ref1 (c : Z) (m : mbuf) : Z := if is_ext m && (m_ext m =? c) then 1 else 0.
Definition typ1 (t : Z) (m : mbuf) : Z := if m_type m =? t then 1 else 0.
Fixpoint total (f : mbuf -> Z) (l : list mbuf) : Z := match l with [] => 0 | m :: l => f m + total f l end.
Definition nrefs (c : Z) (l : list mbuf) : Z := total (ref1 c) l.
Definition ntype (t : Z) (l : list mbuf) : Z := total (typ1 t) l.

Lemma total_app f l1 l2 : total f (l1 ++ l2) = total f l1 + total f l2.
Proof. induction l1; simpl; lia. Qed.

#[export] Instance total_perm f : Proper (Permutation ==> eq) (total f).
Proof. intros l1 l2 H. induction H; simpl; lia. Qed.

Lemma ref1_range c m : 0 <= ref1 c m <= 1.
Proof. unfold ref1. case_match; lia. Qed.
Lemma nrefs_nonneg c l : 0 <= nrefs c l.
Proof. unfold nrefs. induction l as [|m l IH]; simpl; [lia|]. pose proof (ref1_range c m). lia. Qed.
Lemma nrefs_cons c m l : nrefs c (m :: l) = ref1 c m + nrefs c l.
Proof. done. Qed.
Lemma nrefs_app c l1 l2 : nrefs c (l1 ++ l2) = nrefs c l1 + nrefs c l2.
Proof. apply total_app. Qed.
Lemma ntype_app t l1 l2 : ntype t (l1 ++ l2) = ntype t l1 + ntype t l2.
Proof. apply total_app. Qed.
Lemma nrefs_in c m l : m ∈ l -> ref1 c m <= nrefs c l.
Proof.
  induction 1 as [m l|m y l _ IH]; rewrite nrefs_cons; [pose proof (nrefs_nonneg c l)|pose proof (ref1_range c y)]; lia.
Qed.

(** ** The pool *)

(** The free list of clusters, through the first word of each. *)
Fixpoint free_chain (s : mbst) (a : Z) (fl : list Z) : Prop :=
  match fl with
  | [] => a = 0
  | c :: fl => a = cl_addr s c /\ exists n, mcl_buf s !! c ≫= get_le32 = Some n /\ free_chain s n fl
  end.

Definition addr_ok (s : mbst) (c : Z) : Prop := 0 <= c /\ 0 < cl_addr s c < 4294967296.
Definition page (o : option (Z * list Z)) : list Z := match o with Some (c, _) => [c; c + 1; c + 2; c + 3] | None => [] end.

(** The clusters: their counts, the free list, the pages to come. *)
Record clusters (s : mbst) (l : list mbuf) : Prop := {
  cl_refs : forall c, refcnt s c = s8 (nrefs c l);
  cl_known : forall c, 0 < nrefs c l -> is_Some (mcl_buf s !! c);
  cl_size : forall c b, mcl_buf s !! c = Some b -> zlen b = MCLBYTES /\ addr_ok s c;
  cl_base : 0 <= mbutl s;
  cl_free : exists fl, free_chain s (mclfree s) fl /\ NoDup fl /\ (forall c, c ∈ fl -> nrefs c l = 0) /\
    m_clfree (stat s) = u32 (zlen fl);
  cl_kmem : NoDup (mjoin (page <$> kmem_ans s)) /\
    (forall c p, Some (c, p) ∈ kmem_ans s -> zlen p = CLBYTES) /\
    (forall c, c ∈ mjoin (page <$> kmem_ans s) -> addr_ok s c /\ mcl_buf s !! c = None) }.

(** The mbufs: their counts by type, the free ones, those to come. *)
Record mbufs (s : mbst) (l : list mbuf) : Prop := {
  mb_types : forall t, t <> MT_FREE -> mtypes s t = u16 (ntype t l);
  mb_free : mtypes s MT_FREE = zlen (mbuffree s) /\ zlen (mbuffree s) <= MAX_MBFREE /\
    Forall (fun m => zlen (m_dat m) = MLEN) (mbuffree s);
  mb_ans : forall m, Some m ∈ malloc_ans s -> zlen (m_dat m) = MLEN }.

(** The mbufs in use are [l]. *)
Record pool (s : mbst) (l : list mbuf) : Prop := {
  pl_ok : Forall mok l; pl_cl : clusters s l; pl_mb : mbufs s l }.

(** A cluster can be shared by as many as its count, a [char], tells apart. *)
Definition few (l : list mbuf) : Prop := forall c, nrefs c l <= 256.

(** What every routine leaves as it is for the owners of the mbufs [l]. *)
Record keeps (l : list mbuf) (s s' : mbst) : Prop := {
  kp_buf : forall c, 0 < nrefs c l -> mcl_buf s' !! c = mcl_buf s !! c;
  kp_base : mbutl s' = mbutl s;
  kp_proto : max_protohdr s' = max_protohdr s;
  kp_ans : forall a, a ∈ malloc_ans s' -> a ∈ malloc_ans s }.

Lemma keeps_refl l s : keeps l s s.
Proof. by split. Qed.
Lemma keeps_trans l s1 s2 s3 : keeps l s1 s2 -> keeps l s2 s3 -> keeps l s1 s3.
Proof. intros [] []. split; intros; try congruence; [|by auto]. by rewrite <- kp_buf0, kp_buf1 by done. Qed.
Lemma keeps_sub l l' s s' : (forall c, nrefs c l' <= nrefs c l) -> keeps l s s' -> keeps l' s s'.
Proof. intros H []. split; auto. intros c Hc. apply kp_buf0. specialize (H c). lia. Qed.

Lemma keeps_bytes l s s' m : keeps l s s' -> m ∈ l -> mbytes s' m = mbytes s m.
Proof.
  intros Hk Hm. unfold mbytes, mbuffer. destruct (is_ext m) eqn:E; [|done].
  rewrite (kp_buf _ _ _ Hk); [done|]. pose proof (nrefs_in (m_ext m) m l Hm) as H.
  unfold ref1 in H. rewrite E, Z.eqb_refl in H. simpl in H. lia.
Qed.
Lemma keeps_cbytes l s s' c : keeps l s s' -> c ⊆ l -> cbytes s' c = cbytes s c.
Proof.
  intros Hk Hs. unfold cbytes. f_equal. apply list_fmap_ext. intros i m Hm.
  apply (keeps_bytes l); [done|]. apply Hs. by eapply list_elem_of_lookup_2.
Qed.

(** What each part of the pool depends on. *)
Definition cl_view (s : mbst) := (mclrefcnt s, mcl_buf s, mclfree s, mbutl s, m_clfree (stat s), kmem_ans s).
Definition mb_view (s : mbst) := (m_mtypes (stat s), mbuffree s, malloc_ans s).

Lemma free_chain_ext s s' : mcl_buf s' = mcl_buf s -> mbutl s' = mbutl s -> forall fl a, free_chain s a fl -> free_chain s' a fl.
Proof.
  intros Hb Hm. induction fl as [|c fl IH]; intros a; simpl; [done|].
  unfold cl_addr. rewrite Hb, Hm. intros (? & n & ? & ?). eauto.
Qed.

Lemma clusters_ext s s' l l' : cl_view s' = cl_view s -> (forall c, nrefs c l' = nrefs c l) -> clusters s l -> clusters s' l'.
Proof.
  intros [= H1 H2 H3 H4 H5 H6] Hn [Hr Hk Hs Hb Hf Hm]. unfold refcnt, addr_ok, cl_addr in *. split.
  - intros c. unfold refcnt. by rewrite H1, Hn.
  - intros c. rewrite H2, Hn. apply Hk.
  - intros c b. unfold addr_ok, cl_addr. rewrite H2, H4. apply Hs.
  - by rewrite H4.
  - destruct Hf as (fl & ? & ? & Hc & ?). exists fl. rewrite H3, H5. repeat split; try done.
    + by apply (free_chain_ext s).
    + intros c. rewrite Hn. apply Hc.
  - unfold addr_ok, cl_addr. rewrite H2, H4, H6. apply Hm.
Qed.

Lemma mbufs_ext s s' l l' : mb_view s' = mb_view s -> (forall t, ntype t l' = ntype t l) -> mbufs s l -> mbufs s' l'.
Proof.
  intros [= H1 H2 H3] Hn [Ht Hf Ha]. unfold mtypes in *. split.
  - intros t. unfold mtypes. rewrite H1, Hn. apply Ht.
  - unfold mtypes. by rewrite H1, H2.
  - by rewrite H3.
Qed.

#[export] Instance pool_perm s : Proper (Permutation ==> iff) (pool s).
Proof.
  assert (forall l l', l ≡ₚ l' -> pool s l -> pool s l') as H.
  { intros l l' Hp [Ho Hc Hm]. split; [by rewrite <- Hp|..].
    - apply (clusters_ext s s l l'); try done. intros c. unfold nrefs. by rewrite Hp.
    - apply (mbufs_ext s s l l'); try done. intros t. unfold ntype. by rewrite Hp. }
  intros l l' Hp. split; by apply H.
Qed.
#[export] Instance few_perm : Proper (Permutation ==> iff) few.
Proof. intros l l' Hp. unfold few, nrefs. split; intros H c; [rewrite <- Hp|rewrite Hp]; apply H. Qed.

(** ** Release *)

Lemma s8_add a d : s8 (s8 a + d) = s8 (a + d).
Proof. mlia. Qed.
Lemma u16_add a d : u16 (u16 a + d) = u16 (a + d).
Proof. mlia. Qed.
Lemma u32_add a d : u32 (u32 a + d) = u32 (a + d).
Proof. mlia. Qed.

Lemma le32_get x r : 0 <= x < 4294967296 -> get_le32 (le32 x ++ r) = Some x.
Proof. intros H. unfold get_le32, le32. simpl. f_equal. mlia. Qed.

Lemma refcnt_insert s c c' v : default 0 (<[c := v]> (mclrefcnt s) !! c') = if decide (c = c') then v else refcnt s c'.
Proof. unfold refcnt. rewrite lookup_insert. by case_decide. Qed.
Lemma mtypes_insert s t t' v : default 0 (<[t := v]> (m_mtypes (stat s)) !! t') = if decide (t = t') then v else mtypes s t'.
Proof. unfold mtypes. rewrite lookup_insert. by case_decide. Qed.

Lemma free_chain_frame s s' : mbutl s' = mbutl s -> forall fl a, (forall c, c ∈ fl -> mcl_buf s' !! c = mcl_buf s !! c) ->
  free_chain s a fl -> free_chain s' a fl.
Proof.
  intros Hm. induction fl as [|c fl IH]; intros a Hb; simpl; [done|].
  unfold cl_addr. rewrite Hm, (Hb c) by set_solver. intros (? & n & ? & ?). split; [done|]. exists n. split; [done|].
  apply IH; [|done]. intros d Hd. apply Hb. set_solver.
Qed.
Lemma free_chain_addr s a fl : (forall c, c ∈ fl -> addr_ok s c) -> free_chain s a fl -> 0 <= a < 4294967296.
Proof. destruct fl as [|c fl]; simpl; intros H; [lia|]. intros [-> _]. destruct (H c ltac:(set_solver)). lia. Qed.
Lemma free_chain_known s a fl c : free_chain s a fl -> c ∈ fl -> is_Some (mcl_buf s !! c).
Proof.
  revert a. induction fl as [|d fl IH]; intros a; simpl; [set_solver|]. intros (_ & n & Hn & Hf) [->|Hin]%elem_of_cons; [|by eapply IH].
  destruct (mcl_buf s !! d); [eauto|done].
Qed.

(** Put a cluster no one refers to on the free list. *)
Lemma set_next_run s c v b : mcl_buf s !! c = Some b -> 4 <= zlen b ->
  set_mcl_next c v s = Some (tt, with_buf (<[c := le32 v ++ drop 4 b]> (mcl_buf s)) s).
Proof.
  intros Hb Hl. unfold set_mcl_next, kbind, kderef. rewrite Hb. destruct (Z.ltb_spec (zlen b) 4); [lia|done].
Qed.
Lemma zlen_next v (b : list Z) : 4 <= zlen b -> zlen (le32 v ++ drop 4 b) = zlen b.
Proof. intros H. rewrite zlen_app. unfold zlen in *. rewrite length_drop. simpl. lia. Qed.

Definition clfree_stat (d : Z) (s : mbst) : mbst :=
  with_stat (Mbstat (m_clusters (stat s)) (u32 (m_clfree (stat s) + d)) (m_drain (stat s)) (m_mtypes (stat s))) s.
Definition put_free (c : Z) (b : list Z) (s : mbst) : mbst :=
  clfree_stat 1 (with_mclfree (cl_addr s c) (with_buf (<[c := le32 (mclfree s) ++ drop 4 b]> (mcl_buf s)) s)).
Definition free_cmd (c : Z) : K mbst unit :=
  let! s := kget in do! set_mcl_next c (mclfree s) in do! kmod (with_mclfree (cl_addr s c)) in add_clfree 1.

Lemma free_cmd_run c s b : mcl_buf s !! c = Some b -> 4 <= zlen b -> free_cmd c s = Some (tt, put_free c b s).
Proof.
  intros Hb Hl. unfold free_cmd. rewrite bind_get, (bind_run _ _ _ _ _ (set_next_run s c _ b Hb Hl)), bind_mod. done.
Qed.

Lemma put_free_clusters s c b l fl : clusters s l -> mcl_buf s !! c = Some b -> nrefs c l = 0 ->
  free_chain s (mclfree s) fl -> NoDup fl -> (forall c, c ∈ fl -> nrefs c l = 0) -> m_clfree (stat s) = u32 (zlen fl) ->
  c ∉ fl -> clusters (put_free c b s) l.
Proof.
  intros [Hr Hk Hs Hba _ Hm] Hb Hc Hch Hnd Hz Hcf Hin. destruct (Hs _ _ Hb) as [Hl Ha].
  assert (Haddr : forall c, c ∈ fl -> addr_ok s c).
  { intros d Hd. destruct (free_chain_known _ _ _ _ Hch Hd) as [? Hd2]. by destruct (Hs _ _ Hd2). }
  assert (Hlb : 4 <= zlen b) by (rewrite Hl; unfold MCLBYTES; lia).
  assert (Hbuf : mcl_buf (put_free c b s) = <[c := le32 (mclfree s) ++ drop 4 b]> (mcl_buf s)) by done. split.
  - exact Hr.
  - intros d Hd. rewrite Hbuf. destruct (decide (c = d)) as [->|]; [rewrite lookup_insert_eq|rewrite lookup_insert_ne by done]; eauto.
  - intros d b'. rewrite Hbuf, lookup_insert_Some. intros [[<- <-]|[_ Hd]]; [|by apply (Hs d)].
    rewrite zlen_next by done. by apply (Hs c).
  - exact Hba.
  - exists (c :: fl). split_and!.
    + cbn [free_chain]. split; [done|]. exists (mclfree s). rewrite Hbuf, lookup_insert_eq. cbn [mbind option_bind]. split.
      * apply (le32_get (mclfree s) (drop 4 b)). by apply (free_chain_addr s _ fl).
      * apply (free_chain_frame s); [done| |done]. intros d Hd. rewrite Hbuf, lookup_insert_ne by set_solver. done.
    + by constructor.
    + intros d [->|Hd]%elem_of_cons; auto.
    + simpl. rewrite Hcf, zlen_cons, u32_add. f_equal. lia.
  - destruct Hm as (? & ? & Hp). split_and!; try done. intros d Hd. destruct (Hp d Hd) as [? Hn]. split; [done|].
    rewrite Hbuf, lookup_insert_ne; [done|]. intros ->. congruence.
Qed.

Definition dec_ref (c : Z) (s : mbst) : mbst := with_refcnt (<[c := s8 (refcnt s c - 1)]> (mclrefcnt s)) s.

(** Clusters that change are those of no one. *)
Lemma MCLFREE_ok s m l : clusters s (m :: l) -> nrefs (m_ext m) (m :: l) <= 256 -> is_ext m = true ->
  exists s', MCLFREE (m_ext m) s = Some (tt, s') /\ clusters s' l /\ mb_view s' = mb_view s /\ keeps l s s'.
Proof.
  intros Hcl Hf He. pose proof Hcl as [Hr Hk Hs Hb Hfr Hm]. set (c := m_ext m) in *.
  assert (Hn : nrefs c (m :: l) = 1 + nrefs c l) by (rewrite nrefs_cons; unfold ref1, c; by rewrite He, Z.eqb_refl).
  assert (Hne : forall d, d <> c -> nrefs d (m :: l) = nrefs d l).
  { intros d Hd. rewrite nrefs_cons. unfold ref1. rewrite He. fold c. destruct (Z.eqb_spec c d); [congruence|done]. }
  pose proof (nrefs_nonneg c l) as H0. destruct Hfr as (fl & Hch & Hnd & Hz & Hcf).
  assert (Hcin : c ∉ fl) by (intros Hin; apply Hz in Hin; lia).
  assert (Hd : clusters (dec_ref c s) l).
  { split; try done.
    - intros d. unfold dec_ref, refcnt at 1. simpl. rewrite refcnt_insert, Hr. case_decide as Hd.
      + subst d. rewrite Hn. replace (s8 (1 + nrefs c l) - 1) with (s8 (1 + nrefs c l) + -1) by lia.
        rewrite s8_add. f_equal. lia.
      + rewrite Hr. by rewrite Hne.
    - intros d Hd. apply Hk. destruct (decide (d = c)) as [->|]; [lia|]. by rewrite Hne.
    - exists fl. split_and!; [by apply (free_chain_ext s)|done| |done]. intros d Hd. rewrite <- Hne by set_solver. by apply Hz. }
  assert (Hrc : refcnt (dec_ref c s) c = s8 (nrefs c l)) by apply Hd.
  unfold MCLFREE. change (add_ref c (-1)) with (kmod (dec_ref c)). rewrite bind_mod, bind_get, Hrc.
  destruct (Z.eqb_spec (s8 (nrefs c l)) 0) as [H8|H8].
  2:{ exists (dec_ref c s). split_and!; try done. }
  assert (Hz0 : nrefs c l = 0) by (clear - H8 H0 Hf Hn; mlia).
  destruct (Hk c ltac:(lia)) as [b Hbc]. destruct (Hs _ _ Hbc) as [Hl Ha].
  exists (put_free c b (dec_ref c s)). split_and!; try done.
  - apply (free_cmd_run c (dec_ref c s) b); [done|]. rewrite Hl. unfold MCLBYTES. lia.
  - apply (put_free_clusters _ _ _ _ fl); try done; [by apply (free_chain_ext s)|].
    intros d Hd2. rewrite <- Hne by set_solver. by apply Hz.
  - split; try done. intros d Hd'. simpl. apply lookup_insert_ne. intros ->. lia.
Qed.

Definition type_stat (t d : Z) (s : mbst) : mbst :=
  with_stat (Mbstat (m_clusters (stat s)) (m_clfree (stat s)) (m_drain (stat s)) (<[t := u16 (mtypes s t + d)]> (m_mtypes (stat s)))) s.
Lemma count_type_run t d : count_type t d = kmod (type_stat t d).
Proof. done. Qed.

Lemma mtypes_stat t d s t' : mtypes (type_stat t d s) t' = if decide (t = t') then u16 (mtypes s t + d) else mtypes s t'.
Proof. unfold mtypes at 1, type_stat. simpl. apply mtypes_insert. Qed.

Lemma ntype_cons t m l : ntype t (m :: l) = (if m_type m =? t then 1 else 0) + ntype t l.
Proof. done. Qed.

Lemma mbufs_release s m l : mok m -> mbufs s (m :: l) -> mbufs (type_stat (m_type m) (-1) s) l.
Proof.
  intros Hm [Ht Hf Ha]. pose proof (mo_type _ Hm). split.
  - intros t Hne. rewrite mtypes_stat. specialize (Ht t Hne). rewrite ntype_cons in Ht. case_decide as E.
    + subst t. rewrite Ht, Z.eqb_refl, u16_add. f_equal. lia.
    + rewrite Ht. by destruct (Z.eqb_spec (m_type m) t).
  - rewrite mtypes_stat. by rewrite decide_False by done.
  - exact Ha.
Qed.

Lemma mbufs_push s m l : mok m -> mbufs s l -> mtypes s MT_FREE < MAX_MBFREE ->
  mbufs (type_stat MT_FREE 1 (with_mbuffree (m :: mbuffree s) s)) l.
Proof.
  intros Hm [Ht (Hc & Hl & Hd) Ha] Hlt. split.
  - intros t Hne. rewrite mtypes_stat, decide_False by done. by apply Ht.
  - rewrite mtypes_stat, decide_True by done. cbn [mbuffree with_mbuffree with_stat type_stat]. rewrite zlen_cons.
    change (mtypes (with_mbuffree (m :: mbuffree s) s) MT_FREE) with (mtypes s MT_FREE).
    pose proof (zlen_nonneg (mbuffree s)). unfold MAX_MBFREE in *. split_and!; [|lia|].
    + rewrite Hc, u16_id; [lia|]. unfold is_u16. lia.
    + constructor; [|done]. apply Hm.
  - exact Ha.
Qed.

Lemma few_cons m l : few (m :: l) -> few l.
Proof. intros H c. specialize (H c). rewrite nrefs_cons in H. pose proof (ref1_range c m). lia. Qed.

Lemma MFREE_ok s m l : pool s (m :: l) -> few (m :: l) ->
  exists s', MFREE m s = Some (tt, s') /\ pool s' l /\ keeps l s s'.
Proof.
  intros [[Hm Ho]%Forall_cons Hc Hb] Hf. unfold MFREE. rewrite count_type_run, bind_mod.
  pose proof (mbufs_release _ _ _ Hm Hb) as Hb1. set (s1 := type_stat (m_type m) (-1) s) in *.
  assert (Hc1 : clusters s1 (m :: l)) by (by eapply (clusters_ext s)).
  assert (H2 : exists s2, (if is_ext m then MCLFREE (m_ext m) else kret tt) s1 = Some (tt, s2) /\
    clusters s2 l /\ mbufs s2 l /\ keeps l s s2).
  { destruct (is_ext m) eqn:E.
    - destruct (MCLFREE_ok s1 m l Hc1 (Hf _) E) as (s2 & -> & Hc2 & Hv & [Hk1 Hk2 Hk3 Hk4]).
      exists s2. split_and!; try done. apply (mbufs_ext s1 s2 l l Hv); done.
    - exists s1. split_and!; try done. apply (clusters_ext s1 s1 (m :: l)); try done.
      intros c. rewrite nrefs_cons. unfold ref1. by rewrite E. }
  destruct H2 as (s2 & Hrun & Hc2 & Hb2 & Hk). rewrite (bind_run _ _ _ _ _ Hrun), bind_get.
  destruct (Z.ltb_spec (mtypes s2 MT_FREE) MAX_MBFREE) as [Hlt|Hge].
  - exists (type_stat MT_FREE 1 (with_mbuffree (m :: mbuffree s2) s2)). split_and!; [done| |].
    + split; [done| |by apply mbufs_push]. by eapply (clusters_ext s2).
    + destruct Hk. by split.
  - exists s2. split_and!; [done| |done]. by split.
Qed.

Lemma nrefs_tail c m l : nrefs c l <= nrefs c (m :: l).
Proof. rewrite nrefs_cons. pose proof (ref1_range c m). lia. Qed.

Lemma m_freem_ok s m l : pool s (m ++ l) -> few (m ++ l) ->
  exists s', m_freem m s = Some (tt, s') /\ pool s' l /\ keeps l s s'.
Proof.
  revert s. induction m as [|x m IH]; intros s Hp Hf; simpl.
  - exists s. split_and!; [done|done|apply keeps_refl].
  - destruct (MFREE_ok s x (m ++ l) Hp Hf) as (s1 & Hr & Hp1 & Hk1). rewrite (bind_run _ _ _ _ _ Hr).
    destruct (IH s1 Hp1 (few_cons _ _ Hf)) as (s2 & Hr2 & Hp2 & Hk2). exists s2. split_and!; [done|done|].
    apply (keeps_trans _ _ s1); [|done]. apply (keeps_sub (m ++ l)); [|done].
    intros c. rewrite nrefs_app. pose proof (nrefs_nonneg c m). lia.
Qed.

(** ** Allocation *)

(** A new mbuf: its type, flags and start are set, the rest is what its last use left. *)
Definition fresh_mbuf (type flags data : Z) (m : mbuf) : Prop :=
  m_type m = type /\ m_flags m = flags /\ m_data m = data /\ zlen (m_dat m) = MLEN.

Definition known_types (l : list mbuf) : Prop := Forall (fun m => m_type m <> MT_FREE) l.

Lemma MBALLOC_ok s l : clusters s l -> mbufs s l ->
  exists o s', MBALLOC s = Some (o, s') /\ clusters s' l /\ mbufs s' l /\ keeps l s s' /\
    match o with Some m => zlen (m_dat m) = MLEN | None => None ∈ malloc_ans s end.
Proof.
  intros Hc Hb. pose proof Hb as [Ht (Hf & Hl & Hd) Ha]. unfold MBALLOC. rewrite bind_get.
  destruct (mbuffree s) as [|m r] eqn:E.
  - destruct (malloc_ans s) as [|a q] eqn:Ea.
    + exists (Some blank), s. split_and!; try done.
    + exists a, (with_malloc q s). rewrite bind_mod. split_and!; [done|by eapply (clusters_ext s)| | |].
      * split; [done|by simpl; rewrite E|]. intros m Hm. simpl in Hm. apply Ha. set_solver.
      * split; try done. intros x. simpl. rewrite Ea. set_solver.
      * destruct a; [|set_solver]. apply Ha. set_solver.
  - exists (Some m), (type_stat MT_FREE (-1) (with_mbuffree r s)). rewrite bind_mod, count_type_run, bind_mod.
    apply Forall_cons in Hd as [Hm Hr]. rewrite zlen_cons in *. pose proof (zlen_nonneg r).
    split_and!; [done|by eapply (clusters_ext s)| |by split|done]. split.
    + intros t Hne. rewrite mtypes_stat, decide_False by done. by apply Ht.
    + rewrite mtypes_stat, decide_True by done. simpl.
      change (mtypes (with_mbuffree r s) MT_FREE) with (mtypes s MT_FREE). unfold MAX_MBFREE in *.
      split_and!; [|lia|done]. rewrite Hf, u16_id; unfold is_u16; lia.
    + exact Ha.
Qed.

(** [m] has just been allocated, beside the mbufs [l]. *)
Record alloc (s : mbst) (m : mbuf) (l : list mbuf) : Prop := {
  al_ok : Forall mok l; al_cl : clusters s l; al_mb : mbufs s (m :: l) }.

Lemma alloc_pool s m m' l : alloc s m l -> mok m' -> m_type m' = m_type m -> is_ext m' = false -> pool s (m' :: l).
Proof.
  intros [Ho Hc Hb] Hm Ht He. split; [by constructor|..].
  - eapply (clusters_ext s s l); [done| |done]. intros c. rewrite nrefs_cons. unfold ref1. by rewrite He.
  - eapply (mbufs_ext s s (m :: l)); [done| |done]. intros t. by rewrite !ntype_cons, Ht.
Qed.

Lemma alloc_perm s m l l' : l ≡ₚ l' -> alloc s m l -> alloc s m l'.
Proof.
  intros Hp [Ho Hc Hb]. split; [by rewrite <- Hp|..].
  - eapply (clusters_ext s); [done| |done]. intros c. unfold nrefs. by rewrite Hp.
  - eapply (mbufs_ext s); [done| |done]. intros t. unfold ntype. by rewrite Hp.
Qed.

(** Edits of an mbuf that keep its type and cluster. *)
Lemma pool_edit s m m' l : pool s (m :: l) -> mok m' -> m_type m' = m_type m ->
  is_ext m' = is_ext m -> (is_ext m = true -> m_ext m' = m_ext m) -> pool s (m' :: l).
Proof.
  intros [Ho Hc Hb] Hm Ht He Hx. apply Forall_cons in Ho as [_ Ho]. split; [by constructor|..].
  - eapply (clusters_ext s s (m :: l)); [done| |done]. intros c. rewrite !nrefs_cons. unfold ref1. rewrite He.
    destruct (is_ext m); [by rewrite Hx|done].
  - eapply (mbufs_ext s s (m :: l)); [done| |done]. intros t. by rewrite !ntype_cons, Ht.
Qed.

Lemma MGET1_ok s l type : pool s l -> type <> MT_FREE ->
  exists o s', MGET1 type s = Some (o, s') /\ keeps l s s' /\
    match o with Some m => fresh_mbuf type 0 0 m /\ alloc s' m l | None => pool s' l /\ None ∈ malloc_ans s end.
Proof.
  intros [Ho Hc Hb] Ht. unfold MGET1.
  destruct (MBALLOC_ok s l Hc Hb) as (o & s1 & Hr & Hc1 & Hb1 & Hk1 & Hm). rewrite (bind_run _ _ _ _ _ Hr).
  destruct o as [m|].
  - rewrite count_type_run, bind_mod. eexists _, _. split; [done|]. split; [destruct Hk1; by split|]. split; [done|].
    split; [done|by eapply (clusters_ext s1)|]. destruct Hb1 as [Hy Hf Ha]. split.
    + intros t Hne. rewrite mtypes_stat, ntype_cons. simpl. case_decide as E.
      * subst t. rewrite Hy, Z.eqb_refl, u16_add by done. f_equal. lia.
      * rewrite Hy by done. by destruct (Z.eqb_spec type t).
    + rewrite mtypes_stat, decide_False by done. exact Hf.
    + exact Ha.
  - exists None, s1. split_and!; done.
Qed.

Lemma MGETHDR1_MGET1 type s : MGETHDR1 type s =
  match MGET1 type s with
  | Some (o, s') => Some ((fun m => set_data 8 (set_flags M_PKTHDR m)) <$> o, s')
  | None => None
  end.
Proof.
  unfold MGETHDR1, MGET1, kbind. destruct (MBALLOC s) as [[[m|] s']|]; [|done|done].
  by destruct (count_type type 1 s') as [[]|].
Qed.

(** ** The protocols that drain *)

(** The state [s] of the owners: the mbufs they hold, what holds of their own data, and that
    their drain routines release mbufs and nothing else. *)
Class DrainLaws (S : Type) `{!HasMbufs S, !Drains S} := {
  held : S -> list mbuf;
  own_inv : S -> Prop;
  mb_get_put b s : mb_get (mb_put b s) = b;
  mb_put_get s : mb_put (mb_get s) s = s;
  mb_put_put b b' s : mb_put b (mb_put b' s) = mb_put b s;
  held_put b s : held (mb_put b s) = held s;
  own_put b s : own_inv (mb_put b s) <-> own_inv s;
  drain_ok s l : own_inv s -> pool (mb_get s) (held s ++ l) -> few (held s ++ l) ->
    exists s', pr_drain s = Some (tt, s') /\ own_inv s' /\ pool (mb_get s') (held s' ++ l) /\
      keeps (held s' ++ l) (mb_get s) (mb_get s') /\ (forall c, nrefs c (held s') <= nrefs c (held s)) }.

Section Alloc.
Context {S : Type} `{!HasMbufs S, !Drains S, !DrainLaws S}.

(** The owners, whose data is in order, and [l] have all the mbufs in use. *)
Definition inuse (s : S) (l : list mbuf) : Prop := own_inv s /\ pool (mb_get s) (held s ++ l).

(** The owners are as they were, or were asked to drain on the way. *)
Definition aside1 (s s' : S) : Prop := (exists b, s' = mb_put b s) \/ pr_drain s = Some (tt, s').
Definition aside : relation S := rtc aside1.

(** What an allocation leaves as it is. *)
Record kept (l : list mbuf) (s s' : S) : Prop := {
  kt_keeps : keeps (held s' ++ l) (mb_get s) (mb_get s');
  kt_held : forall c, nrefs c (held s') <= nrefs c (held s);
  kt_aside : aside s s' }.

Lemma mb_run {A} (m : K mbst A) s a b : m (mb_get s) = Some (a, b) -> mb m s = Some (a, mb_put b s).
Proof. unfold mb, kzoom. by intros ->. Qed.

Lemma aside_put b s : aside s (mb_put b s).
Proof. apply rtc_once. left. by exists b. Qed.

Lemma kept_put l b s : keeps (held s ++ l) (mb_get s) b -> kept l s (mb_put b s).
Proof. intros H. split; [by rewrite held_put, mb_get_put|intros c; by rewrite held_put|apply aside_put]. Qed.

Lemma kept_trans l s1 s2 s3 : kept l s1 s2 -> kept l s2 s3 -> kept l s1 s3.
Proof.
  intros [K1 H1 A1] [K2 H2 A2]. split.
  - apply (keeps_trans _ _ (mb_get s2)); [|done]. apply (keeps_sub (held s2 ++ l)); [|done].
    intros c. rewrite !nrefs_app. specialize (H2 c). lia.
  - intros c. etrans; [apply H2|apply H1].
  - by etrans.
Qed.

Lemma kept_sub l l' s s' : (forall c, nrefs c l' <= nrefs c l) -> kept l s s' -> kept l' s s'.
Proof.
  intros Hn [K H A]. split; [|done|done]. apply (keeps_sub (held s' ++ l)); [|done].
  intros c. rewrite !nrefs_app. specialize (Hn c). lia.
Qed.

Lemma kept_bytes l s s' m : kept l s s' -> m ∈ l -> mbytes (mb_get s') m = mbytes (mb_get s) m.
Proof. intros [K _ _] Hm. apply (keeps_bytes _ _ _ _ K). set_solver. Qed.
Lemma kept_cbytes l s s' c : kept l s s' -> c ⊆ l -> cbytes (mb_get s') c = cbytes (mb_get s) c.
Proof. intros [K _ _] Hm. apply (keeps_cbytes _ _ _ _ K). set_solver. Qed.
Lemma kept_few l s s' : kept l s s' -> few (held s ++ l) -> few (held s' ++ l).
Proof. intros [_ H _] Hf c. specialize (Hf c). rewrite nrefs_app in *. specialize (H c). lia. Qed.
Lemma kept_ans l s s' a : kept l s s' -> a ∈ malloc_ans (mb_get s') -> a ∈ malloc_ans (mb_get s).
Proof. intros [K _ _]. apply K. Qed.

(** ** MGET, MGETHDR *)

(** The result of a request: an mbuf in addition to those in use, or none. *)
Definition got (type fl da : Z) (l : list mbuf) (s : S) (o : option mbuf) (s' : S) : Prop :=
  own_inv s' /\ kept l s s' /\
  match o with
  | Some m => fresh_mbuf type fl da m /\ alloc (mb_get s') m (held s' ++ l)
  | None => pool (mb_get s') (held s' ++ l) /\ None ∈ malloc_ans (mb_get s)
  end.

Definition gets (get1 : K mbst (option mbuf)) (type fl da : Z) : Prop := forall b l, pool b l ->
  exists o b', get1 b = Some (o, b') /\ keeps l b b' /\
    match o with Some m => fresh_mbuf type fl da m /\ alloc b' m l | None => pool b' l /\ None ∈ malloc_ans b end.

Lemma gets_one get1 type fl da s l : gets get1 type fl da -> inuse s l ->
  exists o s', mb get1 s = Some (o, s') /\ got type fl da l s o s'.
Proof.
  intros Hg [Hi Hp]. destruct (Hg _ _ Hp) as (o & b' & Hr & Hk & Ho). exists o, (mb_put b' s). split; [by apply mb_run|].
  split_and!; [by apply own_put|by apply kept_put|]. by rewrite mb_get_put, held_put.
Qed.

Lemma m_reclaim_ok s l : inuse s l -> few (held s ++ l) -> exists s', m_reclaim s = Some (tt, s') /\ inuse s' l /\ kept l s s'.
Proof.
  intros [Hi Hp] Hf. destruct (drain_ok s l Hi Hp Hf) as (s1 & Hr & Hi1 & Hp1 & Hk & Hh). unfold m_reclaim.
  rewrite (bind_run _ _ _ _ _ Hr). eexists. split; [by apply mb_run|]. split.
  - split; [by apply own_put|]. rewrite mb_get_put, held_put. destruct Hp1 as [Ho Hc Hb]. split; [done|..].
    + by eapply (clusters_ext (mb_get s1)).
    + by eapply (mbufs_ext (mb_get s1)).
  - apply (kept_trans _ _ s1); [|apply kept_put; by split]. split; [done|done|]. apply rtc_once. by right.
Qed.

Lemma gets_retry get1 type fl da s l : gets get1 type fl da -> inuse s l -> few (held s ++ l) ->
  exists o s', (let! o := mb get1 in match o with Some m => kret (Some m) | None => do! m_reclaim in mb get1 end) s = Some (o, s') /\
    got type fl da l s o s'.
Proof.
  intros Hg Hu Hf. destruct (gets_one _ _ _ _ s l Hg Hu) as (o & s1 & Hr & Hi1 & Hk1 & Ho).
  rewrite (bind_run _ _ _ _ _ Hr). destruct o as [m|]; [by exists (Some m), s1|].
  destruct Ho as [Hp1 Hans]. destruct (m_reclaim_ok s1 l (conj Hi1 Hp1) (kept_few _ _ _ Hk1 Hf)) as (s2 & Hr2 & Hu2 & Hk2).
  rewrite (bind_run _ _ _ _ _ Hr2). destruct (gets_one _ _ _ _ s2 l Hg Hu2) as (o & s3 & Hr3 & Hi3 & Hk3 & Ho3).
  exists o, s3. split; [done|]. split; [done|]. split; [by eapply kept_trans, kept_trans|].
  destruct o as [m|]; [done|]. split; [apply Ho3|done].
Qed.

Lemma MGET1_gets type : type <> MT_FREE -> gets (MGET1 type) type 0 0.
Proof. intros Ht b l Hp. by apply MGET1_ok. Qed.

Lemma MGETHDR1_gets type : type <> MT_FREE -> gets (MGETHDR1 type) type M_PKTHDR 8.
Proof.
  intros Ht b l Hp. destruct (MGET1_ok b l type Hp Ht) as (o & b' & Hr & Hk & Ho). rewrite MGETHDR1_MGET1, Hr.
  eexists _, b'. split; [done|]. split; [done|]. destruct o as [m|]; [|done]. simpl.
  destruct Ho as [(? & ? & ? & ?) [Ha Hc Hb]]. split; [done|]. split; [done|done|]. by eapply (mbufs_ext b' b' (m :: _)).
Qed.

Lemma MGET_ok s l type : type <> MT_FREE -> inuse s l -> few (held s ++ l) ->
  exists o s', MGET type s = Some (o, s') /\ got type 0 0 l s o s'.
Proof. intros Ht. apply gets_retry. by apply MGET1_gets. Qed.

Lemma MGETHDR_ok s l type : type <> MT_FREE -> inuse s l -> few (held s ++ l) ->
  exists o s', MGETHDR type s = Some (o, s') /\ got type M_PKTHDR 8 l s o s'.
Proof. intros Ht. apply gets_retry. by apply MGETHDR1_gets. Qed.
End Alloc.
