(* ===== verification/MbufOps.v ===== *)
(** * The routines on chains of mbufs

    What [m_adj], [m_cat], [m_copydata], [m_copym], [m_pullup] and [m_prepend] do to the bytes
    of a chain and to the pool. *)

From S2P Require Import Prelude Mbuf MbufSpec.
Local Open Scope kern_scope.

(** ** Reading and writing one mbuf *)

(** An mbuf whose buffer is there. *)
Record sound (s : mbst) (m : mbuf) : Prop := { sd_ok : mok m; sd_buf : zlen (mbuffer s m) = m_limit m }.

Lemma pool_sound s l m : pool s l -> m ∈ l -> sound s m.
Proof.
  intros [Ho Hc _] Hm. pose proof (proj1 (Forall_forall _ _) Ho m Hm) as Hmo. split; [done|].
  unfold mbuffer, m_limit. destruct (is_ext m) eqn:E; [|apply Hmo].
  pose proof (nrefs_in (m_ext m) m l Hm) as H. unfold ref1 in H. rewrite E, Z.eqb_refl in H. simpl in H.
  destruct (cl_known _ _ Hc (m_ext m) ltac:(lia)) as [b Hb]. rewrite Hb. simpl. by destruct (cl_size _ _ Hc _ _ Hb).
Qed.
Lemma pool_sounds s l c : pool s l -> c ⊆ l -> Forall (sound s) c.
Proof. intros Hp Hc. apply Forall_forall. intros m Hm. apply (pool_sound s l); [done|]. by apply Hc. Qed.

Lemma m_start_nonneg m : 0 <= m_start m.
Proof. unfold m_start. case_match; lia. Qed.

Lemma mbytes_len s m : sound s m -> zlen (mbytes s m) = m_len m.
Proof.
  intros [[] Hb]. pose proof (m_start_nonneg m). unfold mbytes. rewrite zlen_take; [done|]. rewrite zlen_drop; lia.
Qed.

Lemma cbytes_cons s m c : cbytes s (m :: c) = mbytes s m ++ cbytes s c.
Proof. done. Qed.
Lemma cbytes_app s c d : cbytes s (c ++ d) = cbytes s c ++ cbytes s d.
Proof. unfold cbytes. by rewrite fmap_app, join_app. Qed.

Lemma cbytes_len s c : Forall (sound s) c -> zlen (cbytes s c) = m_length c.
Proof. induction 1 as [|m c Hm _ IH]; [done|]. rewrite cbytes_cons, zlen_app, mbytes_len, IH by done. done. Qed.

Lemma m_length_nonneg s c : Forall (sound s) c -> 0 <= m_length c.
Proof. intros H. rewrite <- (cbytes_len s) by done. apply zlen_nonneg. Qed.

Lemma sound_keeps l s s' m : keeps l s s' -> m ∈ l -> sound s m -> sound s' m.
Proof.
  intros Hk Hm [Ho Hb]. split; [done|]. rewrite <- Hb. unfold mbuffer. destruct (is_ext m) eqn:E; [|done].
  rewrite (kp_buf _ _ _ Hk); [done|]. pose proof (nrefs_in (m_ext m) m l Hm) as H. unfold ref1 in H.
  rewrite E, Z.eqb_refl in H. simpl in H. lia.
Qed.
Lemma sounds_keep l s s' c : keeps l s s' -> c ⊆ l -> Forall (sound s) c -> Forall (sound s') c.
Proof. intros Hk Hc. rewrite !Forall_forall. intros H m Hm. by eapply sound_keeps; eauto. Qed.

(** A part of an mbuf is a part of what it holds. *)
Lemma slice_sub (b : list Z) d n off k : 0 <= d -> 0 <= off -> 0 <= k -> off + k <= n -> d + n <= zlen b ->
  slice b (d + off) k = Some (take (Z.to_nat k) (drop (Z.to_nat off) (take (Z.to_nat n) (drop (Z.to_nat d) b)))).
Proof.
  intros. unfold slice. destruct (Z.leb_spec 0 (d + off)); [|lia]. destruct (Z.leb_spec 0 k); [|lia].
  destruct (Z.leb_spec (d + off + k) (zlen b)); [|lia]. simpl. f_equal.
  rewrite skipn_firstn_comm, take_take, drop_drop. f_equal; [lia|]. f_equal. lia.
Qed.

Lemma bytes_at_run s m off n : sound s m -> 0 <= off -> 0 <= n -> off + n <= m_len m ->
  bytes_at m off n s = Some (take (Z.to_nat n) (drop (Z.to_nat off) (mbytes s m)), s).
Proof.
  intros [[] Hb] H1 H2 H3. pose proof (m_start_nonneg m). unfold mbytes, bytes_at, mbuffer in *.
  destruct (is_ext m).
  - unfold kderef. destruct (mcl_buf s !! m_ext m) as [b|] eqn:E; simpl in *.
    + by rewrite (slice_sub b (m_data m) (m_len m) off n) by lia.
    + unfold m_limit, MCLBYTES, MLEN in Hb. by case_match.
  - unfold knonnull. by rewrite (slice_sub (m_dat m) (m_data m) (m_len m) off n) by lia.
Qed.

(** What [bcopy] leaves in the data area, up to the end of the bytes it wrote. *)
Lemma put_at_run s m off bs : is_ext m = false -> zlen (m_dat m) = MLEN -> 0 <= m_data m -> 0 <= off ->
  m_data m + off + zlen bs <= MLEN ->
  exists d, put_at m off bs = Some (set_dat d m) /\ zlen d = MLEN /\
    mbytes s (set_len (off + zlen bs) (set_dat d m)) = take (Z.to_nat off) (drop (Z.to_nat (m_data m)) (m_dat m)) ++ bs.
Proof.
  intros He Hl Hd Ho Hb. pose proof (zlen_nonneg bs). unfold put_at.
  destruct (Z.leb_spec 0 (m_data m + off)); [|lia].
  destruct (Z.leb_spec (m_data m + off + zlen bs) (zlen (m_dat m))); [|lia]. simpl. eexists. split; [done|]. split.
  - rewrite !zlen_app, zlen_take, zlen_drop by lia. lia.
  - unfold mbytes, mbuffer, is_ext in *. simpl. rewrite He. unfold zlen in *.
    rewrite drop_app_le by (rewrite length_take; lia).
    rewrite skipn_firstn_comm. rewrite (app_assoc _ bs). rewrite take_app_length'; [f_equal; f_equal; lia|].
    rewrite length_app, length_take, length_drop. lia.
Qed.

(** ** Edits of a chain in place *)

(** The mbufs keep what the pool knows of them. *)
Definition same1 (x y : mbuf) : Prop := m_type y = m_type x /\ m_flags y = m_flags x /\ m_ext y = m_ext x.
Definition same_chain : relation (list mbuf) := Forall2 same1.

#[export] Instance same1_po : PreOrder same1.
Proof. split; [by split|]. intros x y z (? & ? & ?) (? & ? & ?). split_and!; congruence. Qed.

Lemma same1_ext x y : same1 x y -> is_ext y = is_ext x.
Proof. intros (_ & H & _). unfold is_ext. by rewrite H. Qed.
Lemma same1_refs c x y : same1 x y -> ref1 c y = ref1 c x.
Proof. intros H. unfold ref1. rewrite (same1_ext _ _ H). by destruct H as (_ & _ & ->). Qed.
Lemma same_refs c m m' : same_chain m m' -> nrefs c m' = nrefs c m.
Proof. induction 1; [done|]. rewrite !nrefs_cons. f_equal; [by apply same1_refs|done]. Qed.
Lemma same_types t m m' : same_chain m m' -> ntype t m' = ntype t m.
Proof. induction 1 as [|x y ? ? Hx]; [done|]. rewrite !ntype_cons. by destruct Hx as [-> _]; f_equal. Qed.

Lemma pool_same s m m' l : pool s (m ++ l) -> same_chain m m' -> Forall mok m' -> pool s (m' ++ l).
Proof.
  intros [Ho Hc Hb] Hs Hm. apply Forall_app in Ho as [_ Ho]. split; [by apply Forall_app|..].
  - eapply (clusters_ext s s (m ++ l)); [done| |done]. intros c. by rewrite !nrefs_app, (same_refs c m m').
  - eapply (mbufs_ext s s (m ++ l)); [done| |done]. intros t. by rewrite !ntype_app, (same_types t m m').
Qed.

Lemma sound_same s x y : sound s x -> same1 x y -> m_dat y = m_dat x -> mok y -> sound s y.
Proof.
  intros [Hx Hb] Hs Hd Hy. split; [done|]. unfold mbuffer, m_limit in *. rewrite (same1_ext _ _ Hs).
  destruct Hs as (_ & _ & ->). by rewrite Hd.
Qed.

(** ** m_adj *)

(** An mbuf without its first [k] bytes, and with [k] bytes only. *)
Lemma trim_head s x k : sound s x -> 0 <= k <= m_len x ->
  let y := set_len (m_len x - k) (set_data (m_data x + k) x) in sound s y /\ same1 x y /\ mbytes s y = drop (Z.to_nat k) (mbytes s x).
Proof.
  intros Hs Hk y. assert (H1 : same1 x y) by done. pose proof Hs as [[] Hb]. split_and!; [|done|].
  - apply (sound_same s x); try done. split; try done; unfold m_start, m_limit, is_ext, is_hdr in *; simpl; lia.
  - pose proof (m_start_nonneg x). unfold mbytes, mbuffer, y, is_ext. simpl.
    rewrite skipn_firstn_comm, drop_drop. f_equal; [lia|]. f_equal. lia.
Qed.
Lemma trim_tail s x k : sound s x -> 0 <= k <= m_len x ->
  sound s (set_len k x) /\ same1 x (set_len k x) /\ mbytes s (set_len k x) = take (Z.to_nat k) (mbytes s x).
Proof.
  intros Hs Hk. assert (H1 : same1 x (set_len k x)) by done. pose proof Hs as [[] Hb]. split_and!; [|done|].
  - apply (sound_same s x); try done. split; try done; unfold m_start, m_limit, is_ext, is_hdr in *; simpl; lia.
  - unfold mbytes, mbuffer, is_ext. simpl. rewrite take_take. f_equal. lia.
Qed.
Lemma trim_all s x : sound s x -> sound s (set_len 0 x) /\ same1 x (set_len 0 x) /\ mbytes s (set_len 0 x) = [].
Proof. intros Hs. apply (trim_tail s x 0); [done|]. pose proof (mo_len _ (sd_ok _ _ Hs)). lia. Qed.

(** The length in the packet header is that of the chain. *)
Definition hdr_ok (c : list mbuf) : Prop := match c with x :: _ => is_hdr x = true -> len (m_pkthdr x) = m_length c | [] => True end.

Lemma m_length_app c d : m_length (c ++ d) = m_length c + m_length d.
Proof. induction c; simpl; lia. Qed.

Lemma set_hdr_ok s x h : sound s x -> sound s (set_hdr h x) /\ same1 x (set_hdr h x) /\ mbytes s (set_hdr h x) = mbytes s x.
Proof. intros Hs. split_and!; [|done|done]. apply (sound_same s x); try done. destruct Hs as [[] _]. by split. Qed.

Lemma on_hdr_ok s f c : (forall x, exists h, f x = set_hdr h x) -> Forall (sound s) c ->
  Forall (sound s) (on_hdr f c) /\ same_chain c (on_hdr f c) /\ cbytes s (on_hdr f c) = cbytes s c /\
  m_length (on_hdr f c) = m_length c.
Proof.
  intros Hf Hc. destruct c as [|x r]; [by split_and!; [done|constructor|..]|]. apply Forall_cons in Hc as [Hx Hr]. simpl.
  destruct (is_hdr x); [|by split_and!; [constructor|..]].
  destruct (Hf x) as [h ->]. destruct (set_hdr_ok s x h Hx) as (H1 & H2 & H3).
  split_and!; [by constructor|by constructor|by rewrite !cbytes_cons, H3|done].
Qed.

Lemma adj_head_ok s m k : Forall (sound s) m -> 0 <= k ->
  exists m', adj_head m k = (m', Z.max 0 (k - m_length m)) /\ Forall (sound s) m' /\ same_chain m m' /\
    cbytes s m' = drop (Z.to_nat k) (cbytes s m) /\ m_length m' = Z.max 0 (m_length m - k) /\
    m_pkthdr <$> head m' = m_pkthdr <$> head m.
Proof.
  intros Hm. revert k. induction Hm as [|x m Hx Hm IH]; intros k Hk; simpl.
  - exists []. change (cbytes s []) with (@nil Z). rewrite drop_nil. split_and!; [|apply Forall_nil_2|apply Forall2_nil_2|done|simpl; lia|done].
    destruct (Z.ltb_spec 0 k); f_equal; lia.
  - pose proof (m_length_nonneg _ _ Hm). pose proof (mo_len _ (sd_ok _ _ Hx)). pose proof (mbytes_len _ _ Hx).
    rewrite cbytes_cons. destruct (Z.ltb_spec 0 k); [destruct (Z.leb_spec (m_len x) k)|].
    + destruct (IH (k - m_len x) ltac:(lia)) as (m' & -> & I1 & I2 & I3 & I4 & _).
      destruct (trim_all s x Hx) as (T1 & T2 & T3). eexists. split; [f_equal; lia|].
      split_and!; [by constructor|by constructor| |simpl; lia|done].
      rewrite cbytes_cons, T3, I3, drop_app_Z by lia. simpl. do 2 f_equal. lia.
    + destruct (trim_head s x k Hx ltac:(lia)) as (T1 & T2 & T3). eexists. split; [f_equal; lia|].
      split_and!; [by constructor|by constructor| |simpl; lia|done].
      rewrite cbytes_cons, T3, drop_app_lt by lia. done.
    + eexists. split; [f_equal; lia|]. split_and!; [by constructor|done| |simpl; lia|done]. rewrite drop_none by lia. done.
Qed.

Lemma zero_tail s m : Forall (sound s) m ->
  Forall (sound s) (map (set_len 0) m) /\ same_chain m (map (set_len 0) m) /\ cbytes s (map (set_len 0) m) = [] /\
  m_length (map (set_len 0) m) = 0.
Proof.
  induction 1 as [|x m Hx _ (I1 & I2 & I3 & I4)]; [by split_and!; constructor|]. simpl.
  destruct (trim_all s x Hx) as (T1 & T2 & T3). split_and!; [by constructor|by constructor| |lia].
  by rewrite cbytes_cons, T3, I3.
Qed.

Lemma adj_keep_ok s m k : Forall (sound s) m -> m <> [] -> 0 <= k <= m_length m ->
  exists m', adj_keep m k = Some m' /\ Forall (sound s) m' /\ same_chain m m' /\
    cbytes s m' = take (Z.to_nat k) (cbytes s m) /\ m_length m' = k /\
    m_pkthdr <$> head m' = m_pkthdr <$> head m.
Proof.
  intros Hm. revert k. induction Hm as [|x m Hx Hm IH]; intros k Hne Hk; [done|]. simpl in *.
  pose proof (mo_len _ (sd_ok _ _ Hx)). pose proof (mbytes_len _ _ Hx). rewrite cbytes_cons.
  destruct (Z.leb_spec k (m_len x)).
  - destruct (trim_tail s x k Hx ltac:(lia)) as (T1 & T2 & T3). destruct (zero_tail s m Hm) as (Z1 & Z2 & Z3 & Z4).
    eexists. split; [done|]. split_and!; [by constructor|by constructor| |simpl; lia|done].
    rewrite cbytes_cons, T3, Z3, app_nil_r, take_app_lt by lia. done.
  - destruct m as [|y m']; [simpl in *; lia|].
    destruct (IH (k - m_len x) ltac:(done) ltac:(lia)) as (m2 & -> & I1 & I2 & I3 & I4 & _).
    eexists. split; [done|]. split_and!; [by constructor|by constructor| |simpl; lia|done].
    rewrite cbytes_cons, I3, take_app_Z by lia. do 3 f_equal. lia.
Qed.

Lemma on_last_snoc f c x : on_last f (c ++ [x]) = c ++ [f x].
Proof. induction c as [|y c IH]; [done|]. simpl. rewrite IH. by destruct c. Qed.

Lemma on_last_ok s f c x k : Forall (sound s) (c ++ [x]) -> f x = set_len (m_len x - k) x -> 0 <= k <= m_len x ->
  Forall (sound s) (on_last f (c ++ [x])) /\ same_chain (c ++ [x]) (on_last f (c ++ [x])) /\
  cbytes s (on_last f (c ++ [x])) = take (Z.to_nat (m_length (c ++ [x]) - k)) (cbytes s (c ++ [x])) /\
  m_length (on_last f (c ++ [x])) = m_length (c ++ [x]) - k /\
  m_pkthdr <$> head (on_last f (c ++ [x])) = m_pkthdr <$> head (c ++ [x]).
Proof.
  intros [Hc Hx]%Forall_app Hf Hk. apply Forall_cons in Hx as [Hx _]. rewrite on_last_snoc, Hf.
  destruct (trim_tail s x (m_len x - k) Hx ltac:(lia)) as (T1 & T2 & T3).
  rewrite !m_length_app, !cbytes_app. simpl. split_and!.
  - apply Forall_app. by split; [|constructor].
  - apply Forall2_app; [done|]. by constructor.
  - rewrite take_app_Z by (rewrite cbytes_len by done; lia). rewrite !cbytes_cons, T3, !app_nil_r.
    do 2 f_equal. rewrite cbytes_len by done. lia.
  - lia.
  - by destruct c.
Qed.

(** A new length in the header, when there is one. *)
Lemma hdr_ok_set s f m m' d : Forall (sound s) m' -> hdr_ok m -> same_chain m m' -> m_pkthdr <$> head m' = m_pkthdr <$> head m ->
  (forall x, f x = set_plen (d (len (m_pkthdr x))) x) -> (d (m_length m) = m_length m') -> hdr_ok (on_hdr f m').
Proof.
  intros Hs Hh Hsc Hp Hf Hd. destruct Hsc as [|x y m m' Hxy Hsc]; [done|]. simpl in Hp. injection Hp as Hp. unfold on_hdr.
  destruct Hxy as (_ & Hfl & _). unfold hdr_ok, is_hdr in *. rewrite Hfl.
  destruct (flag_set (m_flags x) M_PKTHDR) eqn:E; [|by rewrite Hfl, E]. intros _.
  rewrite Hf. simpl. rewrite Hp, (Hh eq_refl). exact Hd.
Qed.

Lemma hdr_ok_keep k m m' : same_chain (on_hdr (set_plen k) m) m' ->
  m_pkthdr <$> head m' = m_pkthdr <$> head (on_hdr (set_plen k) m) -> m_length m' = k -> hdr_ok m'.
Proof.
  destruct m as [|x r]; simpl; intros Hs Hp Hl; [by inversion Hs|]. inversion Hs as [|? y ? r' Hxy _]; subst.
  injection Hp as Hp. intros Hy. destruct Hxy as (_ & Hfl & _). unfold is_hdr in *. rewrite Hfl in Hy.
  destruct (flag_set (m_flags x) M_PKTHDR) eqn:E; simpl in *; [by rewrite Hp|]. congruence.
Qed.

(** [m_adj] trims at the head or, with a negative length, at the tail, and keeps the length in the header true. *)
Lemma m_adj_ok s m n : Forall (sound s) m ->
  exists m', m_adj m n = Some m' /\ Forall (sound s) m' /\ same_chain m m' /\
    cbytes s m' = (if 0 <=? n then drop (Z.to_nat n) (cbytes s m) else take (Z.to_nat (m_length m + n)) (cbytes s m)) /\
    m_length m' = (if 0 <=? n then Z.max 0 (m_length m - n) else Z.max 0 (m_length m + n)) /\ (hdr_ok m -> hdr_ok m').
Proof.
  intros Hm. unfold m_adj. destruct (last m) as [z|] eqn:Ez.
  2:{ apply last_None in Ez as ->. exists []. change (cbytes s []) with (@nil Z). rewrite drop_nil, take_nil.
      split_and!; [done|apply Forall_nil_2|apply Forall2_nil_2|by case_match|simpl; case_match; lia|done]. }
  assert (Hset : forall g : mbuf -> Z, forall x, exists h, (fun x => set_plen (g x) x) x = set_hdr h x) by (intros; by eexists).
  destruct (Z.leb_spec 0 n).
  - destruct (adj_head_ok s m n Hm ltac:(lia)) as (m1 & -> & A1 & A2 & A3 & A4 & A5).
    destruct (on_hdr_ok s _ m1 (Hset (fun x => len (m_pkthdr x) - (n - Z.max 0 (n - m_length m)))) A1) as (B1 & B2 & B3 & B4).
    eexists. split; [done|]. split_and!; [done|by etrans|by rewrite B3|lia|].
    pose proof (m_length_nonneg s m Hm).
    intros Hh. apply (hdr_ok_set s _ m m1 (fun l => l - (n - Z.max 0 (n - m_length m)))); try done. cbv beta. lia.
  - apply last_Some in Ez as [c ->]. destruct (Z.leb_spec (- n) (m_len z)) as [Hle|Hgt].
    + destruct (on_last_ok s (fun x => set_len (m_len x - - n) x) c z (- n) Hm eq_refl ltac:(lia)) as (A1 & A2 & A3 & A4 & A5).
      destruct (on_hdr_ok s _ _ (Hset (fun x => len (m_pkthdr x) - - n)) A1) as (B1 & B2 & B3 & B4).
      pose proof (m_length_nonneg s _ A1).
      eexists. split; [done|]. split_and!; [done|by etrans|rewrite B3, A3; do 2 f_equal; lia|lia|].
      intros Hh. by apply (hdr_ok_set s _ (c ++ [z]) _ (fun l => l - - n)).
    + pose proof (m_length_nonneg s _ Hm). set (k := Z.max 0 (m_length (c ++ [z]) - - n)).
      destruct (on_hdr_ok s _ _ (Hset (fun x => k)) Hm) as (B1 & B2 & B3 & B4).
      assert (Hne : on_hdr (set_plen k) (c ++ [z]) <> []) by (by destruct c).
      destruct (adj_keep_ok s _ k B1 Hne ltac:(lia)) as (m' & A0 & A1 & A2 & A3 & A4 & A5).
      exists m'. split; [exact A0|]. split_and!; [done|by etrans| |lia|].
      * rewrite A3, B3. unfold k. destruct (Z.leb_spec 0 (m_length (c ++ [z]) - - n)); [do 2 f_equal; lia|].
        rewrite Z.max_l by lia. by replace (Z.to_nat (m_length (c ++ [z]) + n)) with 0%nat by lia.
      * intros _. by apply (hdr_ok_keep k (c ++ [z])).
Qed.

(** ** m_copydata *)

Lemma m_skip_ok s m off : Forall (sound s) m -> 0 <= off <= m_length m ->
  exists m' off', m_skip m off = Some (m', off') /\ (exists r, m = r ++ m') /\ Forall (sound s) m' /\ 0 <= off' /\
    (off' <= m_length (take 1 m')) /\ drop (Z.to_nat off') (cbytes s m') = drop (Z.to_nat off) (cbytes s m) /\
    m_length m' - off' = m_length m - off.
Proof.
  intros Hm. revert off. induction Hm as [|x m Hx Hm IH]; intros off Ho; simpl in *.
  - exists [], off. replace off with 0 by lia. split_and!; first [done|by exists []|apply Forall_nil_2].
  - pose proof (mo_len _ (sd_ok _ _ Hx)). pose proof (mbytes_len _ _ Hx).
    destruct (Z.ltb_spec 0 off); [destruct (Z.ltb_spec off (m_len x))|].
    + exists (x :: m), off. simpl. split_and!; first [done|by exists []|by constructor|lia].
    + destruct (IH (off - m_len x) ltac:(lia)) as (m' & o' & Hs & (r & Hr) & I1 & I2 & I3 & I4 & I5).
      exists m', o'. split_and!; try done; try lia; [exists (x :: r); by rewrite Hr|].
      rewrite I4, cbytes_cons, drop_app_Z by lia. by rewrite mbytes_len.
    + exists (x :: m), off. simpl. split_and!; first [done|by exists []|by constructor|lia].
Qed.

Lemma copydata_loop_ok s m off n : Forall (sound s) m -> 0 <= off <= m_length (take 1 m) -> 0 <= n <= m_length m - off ->
  copydata_loop m off n s = Some (take (Z.to_nat n) (drop (Z.to_nat off) (cbytes s m)), s).
Proof.
  intros Hm. revert off n. induction Hm as [|x m Hx Hm IH]; intros off n Ho Hn; simpl in *.
  - replace n with 0 by lia. done.
  - pose proof (mo_len _ (sd_ok _ _ Hx)). pose proof (mbytes_len _ _ Hx) as Hl. pose proof (m_length_nonneg _ _ Hm).
    rewrite cbytes_cons. destruct (Z.ltb_spec 0 n).
    2:{ replace n with 0 by lia. done. }
    rewrite (bind_run _ _ _ _ _ (bytes_at_run s x off (Z.min (m_len x - off) n) Hx ltac:(lia) ltac:(lia) ltac:(lia))).
    erewrite bind_run; [|apply IH; [destruct m; simpl; [lia|]; inversion Hm as [|? ? Hy]; pose proof (mo_len _ (sd_ok _ _ Hy)); lia|lia]].
    unfold kret. do 2 f_equal. rewrite (drop_none (cbytes s m) 0) by lia. destruct (Z.le_gt_cases (m_len x - off) n).
    + rewrite Z.min_l, (take_drop_app (mbytes s x)) by lia. rewrite Hl. f_equal. apply take_all. rewrite zlen_drop; lia.
    + rewrite Z.min_r by lia. replace (n - n) with 0 by lia. simpl. rewrite app_nil_r, drop_app_lt by lia.
      by rewrite take_app_lt by (rewrite zlen_drop; lia).
Qed.

Lemma m_copydata_ok s m off n : Forall (sound s) m -> 0 <= off -> 0 <= n -> off + n <= m_length m ->
  m_copydata m off n s = Some (take (Z.to_nat n) (drop (Z.to_nat off) (cbytes s m)), s).
Proof.
  intros Hm H1 H2 H3. unfold m_copydata. destruct (Z.ltb_spec off 0); [lia|]. destruct (Z.ltb_spec n 0); [lia|]. simpl.
  destruct (m_skip_ok s m off Hm ltac:(lia)) as (m' & o' & -> & _ & Hs & Ho & Ho' & Hd & Hl).
  unfold knonnull, kbind. rewrite (copydata_loop_ok s m' o' n) by (done || lia). by rewrite Hd.
Qed.

(** ** m_cat *)

Lemma sublist_in {A} (a b : list A) : a ⊆ a ++ b.
Proof. set_solver. Qed.

(** The first mbuf of a chain keeps its place and its flags. *)
Definition same_front (x y : mbuf) : Prop := same1 x y /\ m_data y = m_data x /\ m_len x <= m_len y /\ m_pkthdr y = m_pkthdr x.
Definition same_head (c d : list mbuf) : Prop := match c, d with x :: _, y :: _ => same_front x y | _, _ => False end.

#[export] Instance same_front_po : PreOrder same_front.
Proof.
  split; [by intros x|]. intros x y z (? & ? & ? & ?) (? & ? & ? & ?).
  split_and!; [by etrans|congruence|lia|congruence].
Qed.

(** The result of [m_cat]: one chain with the bytes of both. *)
Definition joined (s : mbst) (m n l : list mbuf) (m' : list mbuf) (s' : mbst) : Prop :=
  pool s' (m' ++ l) /\ keeps l s s' /\ cbytes s' m' = cbytes s m ++ cbytes s n /\ same_head m m' /\
  (forall c, nrefs c m' <= nrefs c m + nrefs c n).

Lemma cat_last_ok s x n l : pool s (x :: n ++ l) -> few (x :: n ++ l) ->
  exists m' s', cat_last x n s = Some (m', s') /\ joined s [x] n l m' s'.
Proof.
  revert s x. induction n as [|y r IH]; intros s x Hp Hf; simpl.
  - exists [x], s. split; [done|]. split_and!; [done|apply keeps_refl|by rewrite app_nil_r|done|].
    intros c. pose proof (nrefs_nonneg c []). lia.
  - destruct (is_ext x || (MLEN <=? m_data x + m_len x + m_len y)) eqn:E.
    + exists (x :: y :: r), s. split; [done|]. split_and!; [done|apply keeps_refl|apply (cbytes_app s [x])|done|].
      intros c. rewrite !nrefs_cons. change (nrefs c []) with 0. lia.
    + apply orb_false_iff in E as [Ex El]. apply Z.leb_gt in El.
      assert (Hx : sound s x) by (apply (pool_sound s _ x Hp); set_solver).
      assert (Hy : sound s y) by (apply (pool_sound s _ y Hp); set_solver).
      pose proof (mo_len _ (sd_ok _ _ Hy)). pose proof (mo_len _ (sd_ok _ _ Hx)). pose proof (mbytes_len _ _ Hy) as Hly.
      pose proof (m_start_nonneg x). pose proof (mo_start _ (sd_ok _ _ Hx)).
      rewrite (bind_run _ _ _ _ _ (bytes_at_run s y 0 (m_len y) Hy ltac:(lia) ltac:(lia) ltac:(lia))).
      rewrite (drop_none _ 0), take_all by lia.
      destruct (put_at_run s x (m_len x) (mbytes s y) Ex (mo_dat _ (sd_ok _ _ Hx)) ltac:(lia) ltac:(lia) ltac:(lia)) as (d & Hput & Hd & Hb).
      rewrite (bind_nonnull _ _ _ _ Hput). rewrite Hly in Hb.
      set (x' := set_len (m_len x + m_len y) (set_dat d x)) in *. cbn [m_len set_dat]. fold x'.
      assert (Hx' : mok x').
      { destruct (sd_ok _ _ Hx). split; try done; unfold m_start, m_limit, is_ext, is_hdr in *; simpl; [lia|].
        unfold is_ext in Ex. rewrite Ex. lia. }
      assert (Hp' : pool s (y :: x' :: r ++ l)).
      { rewrite Permutation_swap. by apply (pool_edit s x). }
      assert (Hf' : few (y :: x' :: r ++ l)).
      { intros c. specialize (Hf c). change ((y :: r) ++ l) with (y :: r ++ l) in Hf. rewrite !nrefs_cons in *.
        assert (ref1 c x' = ref1 c x) by done. lia. }
      destruct (MFREE_ok s y (x' :: r ++ l) Hp' Hf') as (s1 & Hr & Hp1 & Hk1). rewrite (bind_run _ _ _ _ _ Hr).
      destruct (IH s1 x' Hp1 (few_cons _ _ Hf')) as (m' & s2 & Hr2 & Hp2 & Hk2 & Hb2 & Hh2 & Hn2).
      exists m', s2. split; [done|]. split_and!; [done| | | |].
      * apply (keeps_trans _ _ s1); [|done]. apply (keeps_sub (x' :: r ++ l)); [|done].
        intros c. rewrite nrefs_cons, nrefs_app. pose proof (ref1_range c x'). pose proof (nrefs_nonneg c r). lia.
      * assert (Hxb : mbytes s1 x' = mbytes s x ++ mbytes s y).
        { rewrite (keeps_bytes _ s s1 x' Hk1) by set_solver. rewrite Hb. unfold mbytes at 2, mbuffer. by rewrite Ex. }
        rewrite Hb2, !cbytes_cons, !app_nil_r, Hxb, (keeps_cbytes _ s s1 r Hk1) by set_solver. by rewrite app_assoc.
      * destruct m' as [|z m']; [done|]. simpl in *. etrans; [|done]. by split_and!; [..|simpl; lia|].
      * intros c. specialize (Hn2 c). rewrite !nrefs_cons in *. change (nrefs c []) with 0 in *. pose proof (ref1_range c y).
        unfold ref1, x', is_ext in *. simpl in *. lia.
Qed.

Lemma m_cat_ok s m n l : m <> [] -> pool s (m ++ n ++ l) -> few (m ++ n ++ l) ->
  exists m' s', m_cat m n s = Some (m', s') /\ joined s m n l m' s'.
Proof.
  intros Hne. revert s l. induction m as [|x m IH]; intros s l Hp Hf; [done|]. destruct m as [|y m].
  - by apply cat_last_ok.
  - cbn [m_cat]. assert (Hpm : (x :: y :: m) ++ n ++ l ≡ₚ (y :: m) ++ n ++ x :: l) by (solve_Permutation || (simpl; rewrite (app_assoc (y :: m)), <- Permutation_middle, <- app_assoc; done)).
    rewrite Hpm in Hp, Hf. destruct (IH ltac:(done) s (x :: l) Hp Hf) as (m' & s' & Hr & Hp' & Hk & Hb & Hh & Hn).
    change (m_cat (y :: m) n) with (m_cat (y :: m) n) in Hr. rewrite (bind_run _ _ _ _ _ Hr).
    exists (x :: m'), s'. split; [done|]. split_and!.
    + simpl. by rewrite Permutation_middle.
    + apply (keeps_sub (x :: l)); [|done]. intros c. apply nrefs_tail.
    + rewrite cbytes_cons, Hb, (keeps_bytes _ _ _ x Hk) by set_solver. by rewrite (cbytes_cons s x), app_assoc.
    + done.
    + intros c. specialize (Hn c). rewrite !nrefs_cons in *. lia.
Qed.

(** ** m_copym *)

Lemma flags_copy f : Z.land (Z.land f M_COPYFLAGS) M_EXT = 0.
Proof. rewrite <- Z.land_assoc. apply Z.land_0_r. Qed.
Lemma flags_copy_hdr f : Z.land (Z.land f M_COPYFLAGS) M_PKTHDR = Z.land f M_PKTHDR.
Proof. by rewrite <- Z.land_assoc. Qed.
Lemma flags_ext f : flag_set (Z.lor f M_EXT) M_EXT = true.
Proof.
  unfold flag_set, ztrue. rewrite Z.land_lor_distr_l. destruct (Z.eqb_spec (Z.lor (Z.land f M_EXT) (Z.land M_EXT M_EXT)) 0) as [H|H]; [|done].
  apply Z.lor_eq_0_iff in H as [_ H]. done.
Qed.
Lemma flags_ext_hdr f : Z.land (Z.lor f M_EXT) M_PKTHDR = Z.land f M_PKTHDR.
Proof. rewrite Z.land_lor_distr_l. apply Z.lor_0_r. Qed.

Lemma clusters_addref s n l : clusters s l -> is_ext n = true -> 0 < nrefs (m_ext n) l ->
  clusters (with_refcnt (<[m_ext n := s8 (refcnt s (m_ext n) + 1)]> (mclrefcnt s)) s) (n :: l).
Proof.
  intros [Hr Hk Hs Hb Hf Hm] He Hn. set (c := m_ext n) in *.
  assert (Hc : forall d, nrefs d (n :: l) = if decide (c = d) then nrefs d l + 1 else nrefs d l).
  { intros d. rewrite nrefs_cons. unfold ref1. rewrite He. fold c. case_decide; destruct (Z.eqb_spec c d); simpl; lia || done. }
  split; try done.
  - intros d. unfold refcnt at 1. simpl. rewrite refcnt_insert, Hc. case_decide as E; [|by apply Hr].
    by rewrite <- E, Hr, s8_add.
  - intros d. rewrite Hc. simpl. case_decide as E; [subst; auto|by apply Hk].
  - destruct Hf as (fl & Hch & Hnd & Hz & Hcf). exists fl. split_and!; [by eapply (free_chain_ext s)|done| |done].
    intros d Hd. rewrite Hc. case_decide as E; [|by apply Hz]. subst d. apply Hz in Hd. lia.
Qed.

(** One mbuf of the copy. *)
Record copied (s : mbst) (x : mbuf) (off0 off len0 : Z) (hdr : bool) (n : mbuf) : Prop := {
  cd_ok : mok n;
  cd_type : m_type n = m_type x;
  cd_len : m_len n = Z.min len0 (m_len x - off);
  cd_refs : forall c, ref1 c n <= ref1 c x;
  cd_bytes : mbytes s n = take (Z.to_nat (m_len n)) (drop (Z.to_nat off) (mbytes s x));
  cd_hdr : hdr = false -> is_hdr n = false;
  cd_plen : hdr = true -> is_hdr n = is_hdr x /\ len (m_pkthdr n) = (if len0 =? M_COPYALL then len (m_pkthdr x) - off0 else len0) }.

Lemma copy_one_ok s x n off0 off len0 hdr l : alloc s n l -> fresh_mbuf (m_type x) 0 0 n -> x ∈ l -> sound s x ->
  0 <= off <= m_len x -> 0 <= len0 ->
  (forall c, ref1 c x = 1 -> nrefs c l < 256) -> (hdr = true -> is_hdr x = true) ->
  exists n' s', copy_one x n off0 off len0 hdr s = Some (n', s') /\ pool s' (n' :: l) /\ keeps l s s' /\ copied s' x off0 off len0 hdr n'.
Proof.
  intros Hal (Ft & Ff & Fd & Fz) Hin Hx Ho Hl Hfew Hh. pose proof (mbytes_len _ _ Hx) as Hbl. pose proof (mo_len _ (sd_ok _ _ Hx)).
  pose proof (mo_start _ (sd_ok _ _ Hx)). pose proof (mo_end _ (sd_ok _ _ Hx)). pose proof (m_start_nonneg x).
  unfold copy_one. set (n1 := if hdr then _ else n). set (k := Z.min len0 (m_len x - off)).
  assert (Hn1 : m_dat n1 = m_dat n /\ m_type n1 = m_type x /\ m_data n1 = (if hdr then 8 else 0) /\
    m_flags n1 = (if hdr then Z.land (m_flags x) M_COPYFLAGS else 0) /\
    (hdr = true -> len (m_pkthdr n1) = if len0 =? M_COPYALL then len (m_pkthdr x) - off0 else len0)).
  { unfold n1. destruct hdr; [destruct (len0 =? M_COPYALL); by split_and!|by split_and!]. }
  destruct Hn1 as (Hdat & Hty & Hda & Hfl & Hpl). set (n2 := set_len k n1). cbv zeta.
  assert (Hne : is_ext n2 = false).
  { unfold is_ext, n2, flag_set. simpl. rewrite Hfl. destruct hdr; [by rewrite flags_copy|done]. }
  assert (Hnh : is_hdr n2 = if hdr then is_hdr x else false).
  { unfold is_hdr, n2, flag_set. simpl. rewrite Hfl. destruct hdr; [by rewrite flags_copy_hdr|done]. }
  destruct (is_ext x) eqn:E.
  - set (n3 := set_flags _ _). assert (E3 : is_ext n3 = true) by apply flags_ext.
    assert (Hm3 : mok n3).
    { destruct (sd_ok _ _ Hx). split; [simpl; congruence|simpl; congruence|simpl; unfold k; lia| |].
      - unfold m_start. rewrite E3, andb_false_r. simpl. lia.
      - unfold m_limit in *. rewrite E3. rewrite E in *. simpl. unfold k. lia. }
    assert (Hr3 : forall c, ref1 c n3 = ref1 c x) by (intros c; unfold ref1; by rewrite E3, E).
    eexists n3, _. split; [done|]. split_and!.
    + destruct Hal as [Ha Hc Hb]. split; [by constructor| |].
      * apply (clusters_addref s n3); [done|done|]. pose proof (nrefs_in (m_ext x) x l Hin) as Hi. unfold ref1 in Hi.
        rewrite E, Z.eqb_refl in Hi. simpl in *. lia.
      * eapply (mbufs_ext s _ (n :: l)); [done| |done]. intros t. rewrite !ntype_cons. simpl. by rewrite Hty, Ft.
    + by split.
    + split; try done; [intros c; by rewrite Hr3| | |].
      * unfold mbytes, mbuffer. rewrite E3, E. simpl. rewrite skipn_firstn_comm, take_take, drop_drop. f_equal; [unfold k; lia|].
        f_equal. lia.
      * intros ->. unfold is_hdr, flag_set in *. simpl in *. by rewrite flags_ext_hdr.
      * intros ->. split; [|by apply Hpl]. unfold is_hdr, flag_set in *. simpl in *. by rewrite flags_ext_hdr.
  - rewrite (bind_run _ _ _ _ _ (bytes_at_run s x off k Hx ltac:(lia) ltac:(unfold k; lia) ltac:(unfold k; lia))).
    set (bs := take _ _). assert (Hbs : zlen bs = k) by (unfold bs; rewrite zlen_take; [done|rewrite zlen_drop; unfold k; lia]).
    assert (Hroom : m_data n2 + 0 + zlen bs <= MLEN).
    { rewrite Hbs. simpl. rewrite Hda. unfold m_limit, m_start in *. rewrite E in *. destruct hdr; [|unfold k; lia].
      rewrite Hh in * by done. simpl in *. unfold k. lia. }
    destruct (put_at_run s n2 0 bs Hne ltac:(simpl; congruence) ltac:(simpl; rewrite Hda; destruct hdr; lia) ltac:(lia) Hroom)
      as (d & Hput & Hd & Hb). rewrite Hput. set (n3 := set_dat d n2).
    assert (Hlen : set_len (0 + zlen bs) (set_dat d n2) = n3) by (rewrite Hbs; done). rewrite Hlen in Hb.
    assert (Hm3 : mok n3).
    { destruct (sd_ok _ _ Hx). split; [simpl; congruence|done|simpl; unfold k; lia| |].
      - unfold m_start. change (is_hdr n3) with (is_hdr n2). change (is_ext n3) with (is_ext n2). rewrite Hne, Hnh.
        simpl. rewrite Hda. destruct hdr, (is_hdr x); simpl; lia.
      - unfold m_limit. change (is_ext n3) with (is_ext n2). rewrite Hne. simpl in *. lia. }
    exists n3, s. split; [done|]. split_and!; [|apply keeps_refl|].
    + apply (alloc_pool s n n3 l); [done|done|simpl; congruence|done].
    + split; try done.
      * intros c. assert (ref1 c n3 = 0) as -> by (unfold ref1; change (is_ext n3) with (is_ext n2); by rewrite Hne). apply ref1_range.
      * intros ->. exact Hnh.
      * intros ->. split; [exact Hnh|by apply Hpl].
Qed.
