(* ===== verification/MbufCopy.v ===== *)
(** * The routines on mbufs that allocate

    [m_copym], [m_pullup], [m_prepend] and the cluster of an mbuf: what they return, and what is left
    in use when an allocation fails. *)

From S2P Require Import Prelude Mbuf MbufSpec MbufOps.
Local Open Scope kern_scope.

(** ** m_pullup: the loop *)

(** The bytes of [m] and then of [n], some of them moved into [m]. *)
Record pulled (b : mbst) (m : mbuf) (n l : list mbuf) (plen : Z) (m' : mbuf) (n' : list mbuf) (plen' : Z) (b' : mbst) : Prop := {
  pu_pool : pool b' (m' :: n' ++ l);
  pu_keeps : keeps l b b';
  pu_bytes : mbytes b' m' ++ cbytes b' n' = mbytes b m ++ cbytes b n;
  pu_front : same_front m m';
  pu_len : m_len m' = m_len m + (plen - plen');
  pu_end : plen' <= 0 \/ n' = [];
  pu_refs : forall c, nrefs c n' <= nrefs c n }.

Definition small (x : Z) : Prop := 0 <= x < 2147483648.
Lemma u32_small x : small x -> u32 x = x.
Proof. intros H. apply u32_id. unfold small, is_u32 in *. lia. Qed.

(** Bytes appended to an mbuf that has room. *)
Lemma append_ok b m l bs : pool b (m :: l) -> is_ext m = false -> m_data m + m_len m + zlen bs <= MLEN ->
  exists m', put_at m (m_len m) bs = Some m' /\
    let m2 := set_len (m_len m + zlen bs) m' in
    pool b (m2 :: l) /\ mbytes b m2 = mbytes b m ++ bs /\ same_front m m2 /\ m_len m' = m_len m.
Proof.
  intros Hp He Hl. assert (Hm : sound b m) by (apply (pool_sound b _ m Hp); set_solver).
  pose proof (mo_len _ (sd_ok _ _ Hm)). pose proof (m_start_nonneg m). pose proof (mo_start _ (sd_ok _ _ Hm)). pose proof (zlen_nonneg bs).
  destruct (put_at_run b m (m_len m) bs He (mo_dat _ (sd_ok _ _ Hm)) ltac:(lia) ltac:(lia) ltac:(lia)) as (d & -> & Hd & Hb).
  exists (set_dat d m). split; [done|]. cbv zeta. split_and!; [| |by split_and!; [..|simpl; lia|]|done].
  - apply (pool_edit b m); try done. destruct (sd_ok _ _ Hm). unfold is_ext in He.
    split; try done; unfold m_start, m_limit, is_ext, is_hdr in *; simpl; [lia|]. rewrite He. lia.
  - rewrite Hb. unfold mbytes, mbuffer. by rewrite He.
Qed.

(** The first mbuf of the rest, emptied and freed. *)
Lemma drained_ok b m x r l : pool b (m :: x :: r ++ l) -> few (m :: x :: r ++ l) ->
  exists b', MFREE (set_len 0 x) b = Some (tt, b') /\ pool b' (m :: r ++ l) /\ keeps (m :: r ++ l) b b'.
Proof.
  intros Hp Hf. assert (Hx : sound b x) by (apply (pool_sound b _ x Hp); set_solver).
  destruct (trim_all b x Hx) as ([T1 _] & _ & _).
  assert (Hp2 : pool b (set_len 0 x :: m :: r ++ l)) by (rewrite Permutation_swap in Hp; by apply (pool_edit b x)).
  apply MFREE_ok; [done|]. rewrite Permutation_swap in Hf. intros c. apply (Hf c).
Qed.

Lemma pullup_loop_ok n b m l plen : pool b (m :: n ++ l) -> few (m :: n ++ l) -> is_ext m = false -> n <> [] ->
  0 < plen <= MLEN - (m_data m + m_len m) -> small (max_protohdr b) ->
  exists m' n' plen' b', pullup_loop (length n) m n plen (MLEN - (m_data m + m_len m)) b = Some (m', n', plen', b') /\
    pulled b m n l plen m' n' plen' b'.
Proof.
  revert b m plen. induction n as [|x r IH]; intros b m plen Hp Hf He Hne Hl Hmp; [done|]. clear Hne.
  assert (Hm : sound b m) by (apply (pool_sound b _ m Hp); set_solver).
  assert (Hx : sound b x) by (apply (pool_sound b _ x Hp); set_solver).
  pose proof (mo_len _ (sd_ok _ _ Hx)) as Hxl. pose proof (mo_end _ (sd_ok _ _ Hx)) as Hxe. pose proof (mo_start _ (sd_ok _ _ Hx)).
  pose proof (m_start_nonneg x). pose proof (mo_len _ (sd_ok _ _ Hm)). pose proof (mo_start _ (sd_ok _ _ Hm)). pose proof (m_start_nonneg m).
  set (space := MLEN - (m_data m + m_len m)) in *.
  assert (Hlim : m_limit x <= 1024) by (unfold m_limit, MLEN, MCLBYTES; case_match; lia).
  assert (Hsp : space <= 108) by (unfold space, MLEN; lia).
  cbn [pullup_loop length]. rewrite bind_gets.
  rewrite !u32_small by (unfold small in *; lia).
  set (k := Z.min (Z.min (Z.max plen (max_protohdr b)) space) (m_len x)).
  assert (Hk : 0 <= k <= 108 /\ k <= m_len x /\ k <= space /\ (k < m_len x -> plen <= k)) by (unfold small in *; lia).
  rewrite (s32_id k) by (unfold is_s32; lia).
  rewrite (bind_run _ _ _ _ _ (bytes_at_run b x 0 k Hx ltac:(lia) ltac:(lia) ltac:(lia))). rewrite (drop_none _ 0) by lia.
  pose proof (mbytes_len _ _ Hx) as Hbl. set (bs := take (Z.to_nat k) (mbytes b x)).
  assert (Hbs : zlen bs = k) by (unfold bs; rewrite zlen_take; lia).
  destruct (append_ok b m ((x :: r) ++ l) bs Hp He ltac:(unfold space in *; lia)) as (m1 & Hput & Hp2 & Hb2 & Hfr & Hm1).
  rewrite (bind_nonnull _ _ _ _ Hput), Hm1, Hbs in *. set (m2 := set_len (m_len m + k) m1) in *.
  assert (Hsplit : mbytes b x = bs ++ drop (Z.to_nat k) (mbytes b x)) by (unfold bs; by rewrite take_drop).
  assert (Hf2 : few (m2 :: (x :: r) ++ l)).
  { intros c. specialize (Hf c). rewrite !nrefs_cons in *. by rewrite (same1_refs c m m2) by apply Hfr. }
  assert (Hd2 : m_data m2 = m_data m) by apply Hfr. assert (He2 : is_ext m2 = false) by (by rewrite (same1_ext m m2) by apply Hfr).
  destruct (decide (k = m_len x)) as [Hkx|Hkx].
  - replace (m_len x - k) with 0 by lia. change (ztrue (m_len (set_len 0 x))) with false. cbn iota.
    destruct (drained_ok b m2 x r l Hp2 Hf2) as (b' & Hr & Hp3 & Hk3).
    assert (Hrun : (do! MFREE (set_len 0 x) in kret r) b = Some (r, b')) by (by rewrite (bind_run _ _ _ _ _ Hr)).
    rewrite (bind_run _ _ _ _ _ Hrun).
    assert (Hby : mbytes b' m2 ++ cbytes b' r = mbytes b m ++ cbytes b (x :: r)).
    { rewrite (keeps_bytes _ _ _ m2 Hk3), (keeps_cbytes _ _ _ r Hk3), Hb2, cbytes_cons by set_solver.
      rewrite <- app_assoc. do 2 f_equal. unfold bs. by rewrite take_all by lia. }
    assert (Hkl : keeps l b b').
    { apply (keeps_sub (m2 :: r ++ l)); [|done]. intros c. rewrite nrefs_cons, nrefs_app.
      pose proof (ref1_range c m2). pose proof (nrefs_nonneg c r). lia. }
    assert (Hstop : plen - k <= 0 \/ r = [] -> pulled b m (x :: r) l plen m2 r (plen - k) b').
    { intros Hend. split; try done; [simpl; lia|]. intros c. apply nrefs_tail. }
    destruct r as [|y r']; [eexists _, _, _, _; split; [done|]; apply Hstop; by right|].
    destruct (Z.ltb_spec 0 (plen - k)); [|eexists _, _, _, _; split; [done|]; apply Hstop; left; lia].
    assert (Hf3 : few (m2 :: (y :: r') ++ l)).
    { intros c. specialize (Hf2 c). change ((x :: y :: r') ++ l) with (x :: (y :: r') ++ l) in Hf2.
      rewrite !nrefs_cons in *. pose proof (ref1_range c x). lia. }
    destruct (IH b' m2 (plen - k) Hp3 Hf3 He2 ltac:(done)) as (m' & n' & p' & b'' & Hr'' & [P1 P2 P3 P4 P5 P6 P7]).
    { rewrite Hd2. simpl. unfold space in *. lia. } { by rewrite (kp_proto _ _ _ Hkl). }
    replace (MLEN - (m_data m2 + m_len m2)) with (space - k) in Hr'' by (rewrite Hd2; simpl; unfold space; lia).
    exists m', n', p', b''. split; [done|]. split; [done| | | | |done|].
    + by apply (keeps_trans _ _ b').
    + by rewrite P3.
    + by etrans.
    + rewrite P5. simpl. lia.
    + intros c. specialize (P7 c). rewrite (nrefs_cons c x). pose proof (ref1_range c x). lia.
  - change (m_len (set_len (m_len x - k) x)) with (m_len x - k). unfold ztrue.
    destruct (Z.eqb_spec (m_len x - k) 0); [lia|]. cbn [negb]. rewrite bind_ret.
    destruct (Z.ltb_spec 0 (plen - k)); [lia|].
    destruct (trim_head b x k Hx ltac:(lia)) as (T1 & T2 & T3).
    change (set_data (m_data x + k) (set_len (m_len x - k) x)) with (set_len (m_len x - k) (set_data (m_data x + k) x)).
    set (x' := set_len (m_len x - k) (set_data (m_data x + k) x)) in *.
    eexists _, _, _, _. split; [done|]. split; [|apply keeps_refl| |done|simpl; lia|left; lia|].
    + change (pool b (m2 :: x :: r ++ l)) in Hp2. rewrite Permutation_swap in Hp2.
      assert (Hg : pool b (x' :: m2 :: r ++ l)) by (apply (pool_edit b x); [done|apply T1|done|done|done]).
      rewrite Permutation_swap in Hg. exact Hg.
    + change (mbytes b m2 ++ cbytes b (x' :: r) = mbytes b m ++ cbytes b (x :: r)).
      rewrite Hb2, !cbytes_cons, T3, <- app_assoc. f_equal. rewrite app_assoc, <- Hsplit. done.
    + intros c. change (nrefs c (x' :: r) <= nrefs c (x :: r)). rewrite !nrefs_cons, (same1_refs c x x') by done. lia.
Qed.

Lemma quiet_views f b l : cl_view (f b) = cl_view b -> mb_view (f b) = mb_view b -> max_protohdr (f b) = max_protohdr b ->
  (pool b l -> pool (f b) l) /\ keeps l b (f b).
Proof.
  intros H1 H2 H3. split.
  - intros [Ho Hc Hb]. split; [done|by eapply (clusters_ext b)|by eapply (mbufs_ext b)].
  - injection H1 as ???. injection H2 as ???. split; congruence.
Qed.

Lemma pullup_bad_ok b n l : pool b (n ++ l) -> few (n ++ l) ->
  exists b', pullup_bad n b = Some ([], b') /\ pool b' l /\ keeps l b b'.
Proof.
  intros Hp Hf. destruct (m_freem_ok b n l Hp Hf) as (b1 & Hr & Hp1 & Hk). unfold pullup_bad. rewrite (bind_run _ _ _ _ _ Hr), bind_mod.
  destruct (quiet_views (fun s => with_mpfail (MPFail s + 1) s) b1 l eq_refl eq_refl eq_refl) as [Hq Hkq].
  eexists. split; [done|]. split; [by apply Hq|by eapply keeps_trans].
Qed.

(** A chain with the same bytes whose first [plen] bytes are in its first mbuf. *)
Definition front_has (m : mbuf) (plen : Z) (out : list mbuf) : Prop :=
  match out with y :: _ => same_front m y /\ plen <= m_len y | [] => False end.

Lemma pullup_into_ok n b m l plen : pool b (m :: n ++ l) -> few (m :: n ++ l) -> is_ext m = false -> n <> [] ->
  0 < plen <= MLEN - (m_data m + m_len m) -> small (max_protohdr b) ->
  exists out b', pullup_into m n plen b = Some (out, b') /\ keeps l b b' /\
    (pool b' (out ++ l) /\ cbytes b' out = mbytes b m ++ cbytes b n /\ front_has m (m_len m + plen) out /\
       (forall c, nrefs c out <= ref1 c m + nrefs c n) \/
     out = [] /\ pool b' l /\ m_length n < plen).
Proof.
  intros Hp Hf He Hne Hl Hmp. unfold pullup_into.
  destruct (pullup_loop_ok n b m l plen Hp Hf He Hne Hl Hmp) as (m' & n' & p' & b1 & Hr & [P1 P2 P3 P4 P5 P6 P7]).
  rewrite (bind_run _ _ _ _ _ Hr). destruct (Z.ltb_spec 0 p').
  - destruct P6 as [? | ->]; [lia|].
    assert (Hf1 : few (m' :: [] ++ l)).
    { intros c. specialize (Hf c). change ([] ++ l) with l. rewrite !nrefs_cons, nrefs_app in *.
      rewrite (same1_refs c m m') by apply P4. pose proof (nrefs_nonneg c n). lia. }
    destruct (MFREE_ok b1 m' ([] ++ l) P1 Hf1) as (b2 & Hr2 & Hp2 & Hk2). rewrite (bind_run _ _ _ _ _ Hr2).
    destruct (pullup_bad_ok b2 [] l Hp2 (few_cons _ _ Hf1)) as (b3 & Hr3 & Hp3 & Hk3).
    exists [], b3. split; [done|]. split; [by eapply keeps_trans, keeps_trans|]. right. split_and!; [done|done|].
    assert (Hm' : sound b1 m') by (apply (pool_sound b1 _ m' P1); set_solver).
    assert (Hm : sound b m) by (apply (pool_sound b _ m Hp); set_solver).
    assert (Hn : Forall (sound b) n) by (apply (pool_sounds b _ n Hp); set_solver).
    apply (f_equal zlen) in P3. rewrite !zlen_app, !mbytes_len, (cbytes_len b n) in P3 by done.
    change (zlen (cbytes b1 [])) with 0 in P3. lia.
  - exists (m' :: n'), b1. split; [done|]. split; [done|]. left. split_and!; [done|done| |].
    + split; [done|lia].
    + intros c. rewrite nrefs_cons, (same1_refs c m m') by apply P4. specialize (P7 c). lia.
Qed.

Section Copy.
Context {S : Type} `{!HasMbufs S, !Drains S, !DrainLaws S}.

(** Steps that touch neither the pool nor the bytes. *)
Definition quiet (f : mbst -> mbst) : Prop := forall b, cl_view (f b) = cl_view b /\ mb_view (f b) = mb_view b /\
  max_protohdr (f b) = max_protohdr b.

Lemma quiet_keeps f b l : quiet f -> keeps l b (f b).
Proof. intros Hq. destruct (Hq b) as (? & ? & ?). by apply quiet_views. Qed.
Lemma quiet_pool f b l : quiet f -> pool b l -> pool (f b) l.
Proof. intros Hq. destruct (Hq b) as (? & ? & ?). by apply quiet_views. Qed.

Lemma quiet_run f s l : quiet f -> inuse s l -> exists s', mb (kmod f) s = Some (tt, s') /\ inuse s' l /\ kept l s s'.
Proof.
  intros Hq [Hi Hp]. exists (mb_put (f (mb_get s)) s). split; [by apply mb_run|]. split.
  - split; [by apply own_put|]. rewrite mb_get_put, held_put. by apply quiet_pool.
  - apply kept_put. by apply quiet_keeps.
Qed.

(** A routine on the mbufs alone. *)
Lemma inuse_mb {A} (m : K mbst A) s l l' a b : inuse s l -> m (mb_get s) = Some (a, b) -> pool b (held s ++ l') ->
  mb m s = Some (a, mb_put b s) /\ inuse (mb_put b s) l'.
Proof. intros [Hi _] Hr Hp. split; [by apply mb_run|]. split; [by apply own_put|by rewrite mb_get_put, held_put]. Qed.

Lemma kept_refl l s : kept l s s.
Proof. rewrite <- (mb_put_get s) at 2. apply kept_put, keeps_refl. Qed.

Lemma inuse_perm s l l' : l ≡ₚ l' -> inuse s l -> inuse s l'.
Proof. intros Hp [Hi H]. split; [done|]. by rewrite <- Hp. Qed.

Lemma m_freem_run s m l : inuse s (m ++ l) -> few (held s ++ m ++ l) ->
  exists s', mb (m_freem m) s = Some (tt, s') /\ inuse s' l /\ kept l s s'.
Proof.
  intros [Hi Hp] Hf. rewrite Permutation_app_swap_app in Hp, Hf.
  destruct (m_freem_ok _ m (held s ++ l) Hp Hf) as (b & Hr & Hp1 & Hk).
  exists (mb_put b s). split; [by apply mb_run|]. split; [|by apply kept_put].
  split; [by apply own_put|by rewrite mb_get_put, held_put].
Qed.

(** ** m_copym *)

(** The outcome of a copy: the bytes asked for, or nothing, because an mbuf was not to be had. *)
Definition copy_result (s : S) (l : list mbuf) (bytes : list Z) (out : list mbuf) (s' : S) : Prop :=
  kept l s s' /\
  (inuse s' (out ++ l) /\ cbytes (mb_get s') out = bytes \/
   out = [] /\ inuse s' l /\ None ∈ malloc_ans (mb_get s)).

Definition want (m : list mbuf) (off n : Z) : Z := if n =? M_COPYALL then m_length m - off else n.

Lemma copy_out s top l : inuse s (top ++ l) ->
  exists s', (do! (match top with [] => mb (kmod (fun s => with_mcfail (MCFail s + 1) s)) | _ => kret tt end) in kret top) s = Some (top, s') /\
    inuse s' (top ++ l) /\ kept (top ++ l) s s'.
Proof.
  intros Hu. destruct top as [|x top].
  - assert (Hq : quiet (fun s => with_mcfail (MCFail s + 1) s)) by done.
    destruct (quiet_run _ s ([] ++ l) Hq Hu) as (s' & Hr & Hu' & Hk). rewrite (bind_run _ _ _ _ _ Hr). by exists s'.
  - exists s. split; [done|]. split; [done|apply kept_refl].
Qed.

(** The header of the copy. *)
Definition front_of (hdr : bool) (plen : Z) (new : list mbuf) : Prop :=
  match new with
  | y :: _ => is_hdr y = hdr /\ (hdr = true -> len (m_pkthdr y) = plen)
  | [] => True
  end.

Definition copies (s : S) (top l m : list mbuf) (off n : Z) (hdr : bool) (plen : Z) (out : list mbuf) (s' : S) : Prop :=
  kept l s s' /\
  (inuse s' (out ++ l) /\
     (exists new, out = top ++ new /\ (forall c, nrefs c new <= nrefs c m) /\ front_of hdr plen new) /\
     cbytes (mb_get s') out = cbytes (mb_get s) top ++ take (Z.to_nat (want m off n)) (drop (Z.to_nat off) (cbytes (mb_get s) m)) \/
   out = [] /\ inuse s' l /\ None ∈ malloc_ans (mb_get s)).

Lemma kept_sound l s s' c : kept l s s' -> c ⊆ l -> Forall (sound (mb_get s)) c -> Forall (sound (mb_get s')) c.
Proof. intros [K _ _] Hc. apply (sounds_keep _ _ _ _ K). set_solver. Qed.

Lemma kept_sound1 l s s' x : kept l s s' -> x ∈ l -> sound (mb_get s) x -> sound (mb_get s') x.
Proof. intros [K _ _] Hx. apply (sound_keeps _ _ _ _ K). set_solver. Qed.

Lemma copy_stop m s off n hdr plen top l : inuse s (top ++ l) -> want m off n = 0 ->
  exists out s', (do! (match top with [] => mb (kmod (fun s => with_mcfail (MCFail s + 1) s)) | _ => kret tt end) in kret top) s = Some (out, s') /\
    copies s top l m off n hdr plen out s'.
Proof.
  intros Hu Hw. destruct (copy_out s top l Hu) as (s' & Hr & Hu' & Hk). exists top, s'. split; [done|]. split.
  - apply (kept_sub (top ++ l)); [|done]. intros c. rewrite nrefs_app. pose proof (nrefs_nonneg c top). lia.
  - left. split; [done|]. split.
    + exists []. rewrite app_nil_r. split_and!; [done| |done]. intros c. apply nrefs_nonneg.
    + rewrite Hw, (kept_cbytes _ _ _ _ Hk) by set_solver. simpl. by rewrite app_nil_r.
Qed.

Lemma copy_fail s s1 top l m off n hdr plen : inuse s1 (top ++ l) -> few (held s1 ++ top ++ l) -> kept (top ++ l) s s1 ->
  None ∈ malloc_ans (mb_get s) ->
  exists out s', (do! mb (m_freem top) in do! mb (kmod (fun s => with_mcfail (MCFail s + 1) s)) in kret []) s1 = Some (out, s') /\
    copies s top l m off n hdr plen out s'.
Proof.
  intros Hu Hf Hk Hans. destruct (m_freem_run s1 top l Hu Hf) as (s2 & Hr2 & Hu2 & Hk2). rewrite (bind_run _ _ _ _ _ Hr2).
  assert (Hq : quiet (fun s => with_mcfail (MCFail s + 1) s)) by done.
  destruct (quiet_run _ s2 l Hq Hu2) as (s3 & Hr3 & Hu3 & Hk3). rewrite (bind_run _ _ _ _ _ Hr3).
  exists [], s3. split; [done|]. split; [|by right]. apply (kept_trans _ _ s2); [|done]. apply (kept_trans _ _ s1); [|done].
  apply (kept_sub (top ++ l)); [|done]. intros c. rewrite nrefs_app. pose proof (nrefs_nonneg c top). lia.
Qed.

(** One more mbuf of the copy, and what is left to copy. *)
Lemma copy_more s s1 x r n1 off0 off n hdr top l : fresh_mbuf (m_type x) 0 0 n1 ->
  alloc (mb_get s1) n1 (held s1 ++ top ++ l) -> own_inv s1 -> kept (top ++ l) s s1 -> x ∈ l -> sound (mb_get s) x ->
  0 <= off <= m_len x -> 0 <= n -> (forall c, nrefs c (held s ++ top ++ l) + nrefs c (x :: r) <= 256) ->
  (hdr = true -> is_hdr x = true) ->
  exists n' s2, mb (copy_one x n1 off0 off n hdr) s1 = Some (n', s2) /\ inuse s2 ((top ++ [n']) ++ l) /\ kept (top ++ l) s s2 /\
    copied (mb_get s2) x off0 off n hdr n'.
Proof.
  intros Hfr Hal Hi Hk Hx Hsx Ho Hn Hf Hh.
  assert (Hsx1 : sound (mb_get s1) x).
  { apply (kept_sound1 _ _ _ _ Hk); [set_solver|done]. }
  destruct (copy_one_ok (mb_get s1) x n1 off0 off n hdr _ Hal Hfr ltac:(set_solver) Hsx1 Ho Hn) as (n' & b & Hr & Hp & Hkb & Hc).
  - intros c Hc. specialize (Hf c). rewrite nrefs_cons, Hc in Hf. pose proof (nrefs_nonneg c r). pose proof (kt_held _ _ _ Hk c) as Hh1.
    rewrite nrefs_app in *. lia.
  - done.
  - exists n', (mb_put b s1). split_and!; [by apply mb_run| | |by rewrite mb_get_put].
    + split; [by apply own_put|]. rewrite mb_get_put, held_put.
      assert (held s1 ++ (top ++ [n']) ++ l ≡ₚ n' :: held s1 ++ top ++ l) as -> by solve_Permutation. done.
    + apply (kept_trans _ _ s1); [done|]. by apply kept_put.
Qed.

Lemma want_split x r off n k : k = Z.min n (m_len x - off) -> m_length (x :: r) - off < M_COPYALL -> 0 <= m_length r ->
  k = m_len x - off \/ want r 0 (if n =? M_COPYALL then n else n - k) = 0.
Proof.
  unfold want. simpl. intros Hk Hl Hr. destruct (Z.eqb_spec n M_COPYALL) as [->|]; [left; lia|].
  destruct (Z.le_gt_cases (m_len x - off) n); [left; lia|right]. rewrite Hk, Z.min_l by lia. by rewrite Z.sub_diag.
Qed.

Lemma take_part {A} (a b : list A) off k w : 0 <= off <= zlen a -> 0 <= k <= zlen a - off -> 0 <= w ->
  k = zlen a - off \/ w = 0 ->
  take (Z.to_nat (k + w)) (drop (Z.to_nat off) (a ++ b)) = take (Z.to_nat k) (drop (Z.to_nat off) a) ++ take (Z.to_nat w) b.
Proof.
  intros Ho Hk Hw Hc. destruct (decide (k = zlen a - off)) as [->|Hne].
  - rewrite take_drop_app by lia. rewrite (take_all (drop (Z.to_nat off) a)) by (rewrite zlen_drop; lia). do 3 f_equal. lia.
  - destruct Hc as [? | ->]; [done|]. simpl. rewrite app_nil_r, Z.add_0_r, drop_app_lt by lia.
    by rewrite take_app_lt by (rewrite zlen_drop; lia).
Qed.

Lemma want_more x r off n k : m_length r < M_COPYALL -> 0 <= n -> k = Z.min n (m_len x - off) -> 0 <= off <= m_len x ->
  0 <= want (x :: r) off n <= m_length (x :: r) - off -> m_length (x :: r) - off < M_COPYALL -> 0 <= m_length r ->
  let n' := if n =? M_COPYALL then n else n - k in
  0 <= n' /\ 0 <= want r 0 n' <= m_length r /\ want (x :: r) off n = k + want r 0 n'.
Proof.
  unfold want. simpl. intros. destruct (Z.eqb_spec n M_COPYALL) as [->|Hne].
  - rewrite Z.eqb_refl. unfold M_COPYALL in *. lia.
  - destruct (Z.eqb_spec (n - k) M_COPYALL); lia.
Qed.

Lemma copym_loop_ok m s off0 off n hdr plen top l : inuse s (top ++ l) -> Forall (sound (mb_get s)) m -> m ⊆ l ->
  0 <= off <= m_length (take 1 m) -> 0 <= n -> m_length m - off < M_COPYALL -> 0 <= want m off n <= m_length m - off ->
  (forall c, nrefs c (held s ++ top ++ l) + nrefs c m <= 256) ->
  (hdr = true -> exists x r, m = x :: r /\ is_hdr x = true /\ plen = if n =? M_COPYALL then len (m_pkthdr x) - off0 else n) ->
  exists out s', copy_loop m off0 off n hdr top s = Some (out, s') /\ copies s top l m off n hdr plen out s'.
Proof.
  revert s off n hdr plen top. induction m as [|x r IH]; intros s off n hdr plen top Hu Hs Hin Ho Hn Hall Hw Hf Hh.
  - simpl in Ho, Hall, Hw. cbn [copy_loop]. assert (Hw0 : want [] off n = 0) by (simpl in *; lia).
    destruct (Z.ltb_spec 0 n); [|by apply copy_stop].
    destruct (Z.eqb_spec n M_COPYALL) as [->|Hne]; [by apply copy_stop|]. unfold want in Hw0.
    destruct (Z.eqb_spec n M_COPYALL); lia.
  - apply Forall_cons in Hs as [Hx Hr]. pose proof (m_length_nonneg _ _ Hr). pose proof (mo_len _ (sd_ok _ _ Hx)).
    cbn [copy_loop]. simpl in Ho. destruct (Z.ltb_spec 0 n) as [Hpos|].
    2:{ apply copy_stop; [done|]. unfold want in *. destruct (Z.eqb_spec n M_COPYALL); unfold M_COPYALL in *; lia. }
    assert (Hfew : few (held s ++ top ++ l)).
    { intros c. specialize (Hf c). pose proof (nrefs_nonneg c (x :: r)). lia. }
    destruct (MGET_ok s (top ++ l) (m_type x) (mo_type _ (sd_ok _ _ Hx)) Hu Hfew) as (o & s1 & Hr1 & Hi1 & Hk1 & Ho1).
    rewrite (bind_run _ _ _ _ _ Hr1). destruct o as [n1|].
    2:{ destruct Ho1 as [Hp1 Hans]. apply (copy_fail s); [by split|by eapply kept_few|done|done]. }
    destruct Ho1 as [Hfr Hal]. assert (Hhx : hdr = true -> is_hdr x = true).
    { intros E. destruct (Hh E) as (? & ? & [= <- <-] & ? & _). done. }
    destruct (copy_more s s1 x r n1 off0 off n hdr top l Hfr Hal Hi1 Hk1 ltac:(set_solver) Hx ltac:(lia) Hn Hf Hhx)
      as (n' & s2 & Hr2 & Hu2 & Hk2 & Hc). rewrite (bind_run _ _ _ _ _ Hr2).
    pose proof (cd_len _ _ _ _ _ _ _ Hc) as Hlen. simpl in Hall.
    destruct (want_more x r off n (m_len n') ltac:(lia) Hn Hlen ltac:(lia) Hw ltac:(simpl; lia) ltac:(lia)) as (Hn2 & Hw2 & Hsum).
    set (k := if n =? M_COPYALL then n else n - m_len n') in *.
    assert (Hr' : Forall (sound (mb_get s2)) r) by (apply (kept_sound _ _ _ _ Hk2); [set_solver|done]).
    destruct (IH s2 0 k false 0 (top ++ [n']) Hu2 Hr' ltac:(set_solver)) as (out & s3 & Hr3 & Hk3 & Hres); try done; try lia.
    { split; [done|]. destruct Hr as [|y ? Hy]; [done|]. simpl. pose proof (mo_len _ (sd_ok _ _ Hy)). lia. }
    { intros c. specialize (Hf c). pose proof (kt_held _ _ _ Hk2 c). pose proof (cd_refs _ _ _ _ _ _ _ Hc c).
      rewrite !nrefs_app, !nrefs_cons in *. change (nrefs c []) with 0. lia. }
    exists out, s3. split; [done|]. split; [apply (kept_trans _ _ s2); [|done]; apply (kept_sub (top ++ l)); [|done];
      intros c; rewrite nrefs_app; pose proof (nrefs_nonneg c top); lia|].
    destruct Hres as [(Hu3 & (new & -> & Hnew & _) & Hby)|(-> & Hu3 & Hans)].
    2:{ right. split_and!; [done|done|]. by apply (kept_ans _ _ _ _ Hk2). }
    left. split; [done|]. split.
    + exists (n' :: new). rewrite <- app_assoc. split_and!; [done| |].
      * intros c. rewrite !nrefs_cons. specialize (Hnew c). pose proof (cd_refs _ _ _ _ _ _ _ Hc c). lia.
      * unfold front_of. destruct hdr; [|split; [by apply (cd_hdr _ _ _ _ _ _ _ Hc)|done]].
        destruct (cd_plen _ _ _ _ _ _ _ Hc eq_refl) as [-> ->]. destruct (Hh eq_refl) as (? & ? & [= <- <-] & -> & ->). done.
    + rewrite Hby, cbytes_app, (kept_cbytes _ _ _ top Hk2) by set_solver. rewrite (kept_cbytes _ _ _ r Hk2) by set_solver.
      rewrite <- !app_assoc. f_equal. rewrite cbytes_cons. change (cbytes (mb_get s2) []) with (@nil Z). rewrite app_nil_r, (cbytes_cons _ x).
      rewrite (cd_bytes _ _ _ _ _ _ _ Hc), (kept_bytes _ _ _ x Hk2) by set_solver. pose proof (mbytes_len _ _ Hx) as Hl.
      rewrite Hsum, take_part; [by rewrite (drop_none _ 0) by lia|lia|lia|lia|]. rewrite Hl. by apply want_split.
Qed.

(** Copying part of a chain that is in use: the bytes asked for, the clusters shared. *)
Lemma m_copym_ok s m l off n : inuse s l -> m <> [] -> m ⊆ l -> 0 <= off -> 0 <= n ->
  m_length m < M_COPYALL -> 0 <= want m off n <= m_length m - off ->
  (forall c, nrefs c (held s ++ l) + nrefs c m <= 256) ->
  exists out s', m_copym m off n s = Some (out, s') /\ kept l s s' /\
    (inuse s' (out ++ l) /\ (forall c, nrefs c out <= nrefs c m) /\
     front_of (bool_decide (off = 0) && match m with x :: _ => is_hdr x | [] => false end)
       (match m with x :: _ => if n =? M_COPYALL then len (m_pkthdr x) else n | [] => 0 end) out /\
     cbytes (mb_get s') out = take (Z.to_nat (want m off n)) (drop (Z.to_nat off) (cbytes (mb_get s) m)) \/
     out = [] /\ inuse s' l /\ None ∈ malloc_ans (mb_get s)).
Proof.
  intros Hu Hne Hin Ho Hn Hl Hw Hf. unfold m_copym. destruct (Z.ltb_spec off 0); [lia|]. destruct (Z.ltb_spec n 0); [lia|].
  cbn [orb]. assert (Hs : Forall (sound (mb_get s)) m) by (apply (pool_sounds _ (held s ++ l)); [apply Hu|set_solver]).
  destruct m as [|x r] eqn:Em; [done|]. set (hdr := bool_decide (off = 0) && is_hdr x).
  assert (Hrun : (if off =? 0 then kret (is_hdr x) else kret false) s = Some (hdr, s)).
  { unfold hdr. destruct (Z.eqb_spec off 0); [by rewrite bool_decide_true by done|by rewrite bool_decide_false by done]. }
  rewrite (bind_run _ _ _ _ _ Hrun). rewrite <- Em in *.
  destruct (m_skip_ok (mb_get s) m off Hs ltac:(lia)) as (m' & o' & Hsk & (q & Hq) & Hs' & Ho1 & Ho2 & Hd & Hlen).
  rewrite (bind_nonnull _ _ _ _ Hsk).
  assert (Hwant : want m' o' n = want m off n) by (unfold want; destruct (n =? M_COPYALL); lia).
  assert (Hn' : forall c, nrefs c m' <= nrefs c m).
  { intros c. rewrite Hq, nrefs_app. pose proof (nrefs_nonneg c q). lia. }
  destruct (copym_loop_ok m' s off o' n hdr (if n =? M_COPYALL then len (m_pkthdr x) else n) [] l) as (out & s' & Hr & Hk & Hres); try done.
  - by rewrite Hq in Hin; set_solver.
  - lia.
  - by rewrite Hwant, Hlen.
  - intros c. specialize (Hf c). specialize (Hn' c). change ([] ++ l) with l. lia.
  - unfold hdr. intros [H1%bool_decide_eq_true H2]%andb_true_iff. subst off. exists x, r. split_and!; [|done|by rewrite Z.sub_0_r].
    rewrite <- Em. rewrite Em in Hsk. simpl in Hsk. congruence.
  - exists out, s'. split; [done|]. split; [done|]. destruct Hres as [(Hu' & (new & -> & Hnew & Hfr) & Hb)|Hfail]; [left|by right].
    split_and!; [done| |done|by rewrite Hb, Hwant, Hd].
    intros c. etrans; [apply Hnew|done].
Qed.

(** ** m_pullup *)

Lemma flags_clear_ext f : Z.land (Z.land f (Z.lnot M_PKTHDR)) M_EXT = Z.land f M_EXT.
Proof. by rewrite <- Z.land_assoc. Qed.
Lemma flags_clear_hdr f : Z.land (Z.land f (Z.lnot M_PKTHDR)) M_PKTHDR = 0.
Proof. rewrite <- Z.land_assoc. apply Z.land_0_r. Qed.

(** The packet header of [x] moved to the new mbuf [m]. *)
Definition move_hdr (m x : mbuf) : mbuf * mbuf :=
  if is_hdr x then (M_COPY_PKTHDR m x, set_flags (Z.land (m_flags x) (Z.lnot M_PKTHDR)) x) else (m, x).

Lemma move_hdr_ok b m x l : alloc b m (x :: l) -> fresh_mbuf (m_type x) 0 0 m -> sound b x ->
  let '(m', x') := move_hdr (set_len 0 m) x in
  pool b (m' :: x' :: l) /\ is_ext m' = false /\ is_hdr m' = is_hdr x /\ is_hdr x' = false /\ is_ext x' = is_ext x /\
  (is_hdr x = true -> m_pkthdr m' = m_pkthdr x) /\
  m_len m' = 0 /\ m_data m' = (if is_hdr x then 8 else 0) /\ mbytes b m' = [] /\ mbytes b x' = mbytes b x /\ m_len x' = m_len x /\
  (forall c, ref1 c m' = 0) /\ (forall c, ref1 c x' = ref1 c x) /\ m_type m' = m_type x /\ m_dat m' = m_dat m.
Proof.
  intros Hal (Ft & Ff & Fd & Fz) [Hx Hbx]. unfold move_hdr. pose proof (mo_type _ Hx).
  assert (Hpool : forall m' x', mok m' -> m_type m' = m_type x -> is_ext m' = false -> mok x' -> same1 x x' \/ is_ext x' = is_ext x /\
    m_type x' = m_type x /\ m_ext x' = m_ext x -> pool b (m' :: x' :: l)).
  { intros m' x' Hm' Ht He Hx' Hsame. assert (Hp : pool b (m' :: x :: l)) by (apply (alloc_pool b m m'); congruence || done).
    rewrite Permutation_swap in Hp |- *. destruct Hsame as [Hs|(H1 & H2 & H3)].
    - apply (pool_edit b x); [done|done|apply Hs|by apply same1_ext|intros; apply Hs].
    - by apply (pool_edit b x). }
  destruct (is_hdr x) eqn:E.
  - set (m' := M_COPY_PKTHDR _ _). set (x' := set_flags _ x).
    assert (He : is_ext m' = false) by (unfold is_ext, m', flag_set; simpl; by rewrite flags_copy).
    assert (Hh : is_hdr m' = true) by (unfold is_hdr, m', flag_set; simpl; rewrite flags_copy_hdr; exact E).
    assert (Hxe : is_ext x' = is_ext x) by (unfold is_ext, x', flag_set; simpl; by rewrite flags_clear_ext).
    assert (Hxh : is_hdr x' = false) by (unfold is_hdr, x', flag_set; simpl; by rewrite flags_clear_hdr).
    split_and!; try done.
    + apply Hpool; [|done|done| |by right].
      * split; [simpl; congruence|done|done|unfold m_start; by rewrite Hh, He|unfold m_limit; by rewrite He].
      * destruct Hx. split; try done; [|unfold m_limit in *; by rewrite Hxe].
        unfold m_start in *. rewrite Hxh. simpl. case_match; lia.
    + unfold mbytes, mbuffer. by rewrite Hxe.
    + intros c. unfold ref1. by rewrite He.
    + intros c. unfold ref1. by rewrite Hxe.
  - assert (He : is_ext (set_len 0 m) = false) by (unfold is_ext, flag_set; simpl; by rewrite Ff).
    assert (Hh : is_hdr (set_len 0 m) = false) by (unfold is_hdr, flag_set; simpl; by rewrite Ff).
    split_and!; try done.
    + apply Hpool; [|done|done|done|by left]. split; try done; [simpl; congruence| |].
      * unfold m_start. rewrite Hh. simpl. lia.
      * unfold m_limit. rewrite He. simpl. rewrite Fd. done.
    + intros c. unfold ref1. by rewrite He.
Qed.

(** What [m_pullup] gives: a chain with the bytes of [n], [plen] of them contiguous, or nothing. *)
Definition pullup_result (s : S) (x : mbuf) (r l : list mbuf) (plen : Z) (out : list mbuf) (s' : S) : Prop :=
  kept l s s' /\
  (inuse s' (out ++ l) /\ cbytes (mb_get s') out = cbytes (mb_get s) (x :: r) /\ (forall c, nrefs c out <= nrefs c (x :: r)) /\
     (exists y q, out = y :: q /\ plen <= m_len y /\ is_ext y = false /\ is_hdr y = is_hdr x /\
        (is_hdr x = true -> m_pkthdr y = m_pkthdr x)) \/
   out = [] /\ inuse s' l /\ (None ∈ malloc_ans (mb_get s) \/ m_length (x :: r) < plen \/ MHLEN < plen)).

Lemma pullup_fail s s1 n l : inuse s1 (n ++ l) -> few (held s1 ++ n ++ l) -> kept l s s1 ->
  exists s', mb (pullup_bad n) s1 = Some ([], s') /\ kept l s s' /\ inuse s' l.
Proof.
  intros [Hi Hp] Hf Hk. rewrite Permutation_app_swap_app in Hp, Hf.
  destruct (pullup_bad_ok _ n _ Hp Hf) as (b & Hr & Hp1 & Hk1).
  exists (mb_put b s1). split; [by apply mb_run|]. split; [apply (kept_trans _ _ s1); [done|by apply kept_put]|].
  split; [by apply own_put|by rewrite mb_get_put, held_put].
Qed.

Lemma pullup_go s1 m n l plen : own_inv s1 -> pool (mb_get s1) (m :: n ++ held s1 ++ l) -> few (m :: n ++ held s1 ++ l) ->
  is_ext m = false -> n <> [] -> 0 < plen <= MLEN - (m_data m + m_len m) -> small (max_protohdr (mb_get s1)) ->
  exists out s', mb (pullup_into m n plen) s1 = Some (out, s') /\ kept l s1 s' /\
    (inuse s' (out ++ l) /\ cbytes (mb_get s') out = mbytes (mb_get s1) m ++ cbytes (mb_get s1) n /\
       front_has m (m_len m + plen) out /\ (forall c, nrefs c out <= ref1 c m + nrefs c n) \/
     out = [] /\ inuse s' l /\ m_length n < plen).
Proof.
  intros Hi Hp Hf He Hne Hl Hs.
  destruct (pullup_into_ok n (mb_get s1) m (held s1 ++ l) plen Hp Hf He Hne Hl Hs) as (out & b & Hr & Hk & Hres).
  exists out, (mb_put b s1). split; [by apply mb_run|]. split; [by apply kept_put|]. unfold inuse.
  rewrite mb_get_put, held_put, own_put. destruct Hres as [(Hp' & Hb & Hfr & Hn)|(-> & Hp' & Hlt)]; [left|by right].
  split_and!; try done. by rewrite Permutation_app_swap_app.
Qed.

Lemma m_pullup_ok s x r l plen : inuse s ((x :: r) ++ l) -> few (held s ++ (x :: r) ++ l) -> 0 < plen ->
  small (max_protohdr (mb_get s)) ->
  exists out s', m_pullup (x :: r) plen s = Some (out, s') /\ pullup_result s x r l plen out s'.
Proof.
  intros Hu Hf Hpl Hs. unfold m_pullup.
  assert (Hx : sound (mb_get s) x) by (apply (pool_sound _ _ x (proj2 Hu)); set_solver).
  pose proof (mo_len _ (sd_ok _ _ Hx)). pose proof (mo_start _ (sd_ok _ _ Hx)). pose proof (m_start_nonneg x).
  destruct (negb (is_ext x) && (m_data x + plen <? MLEN) && negb (bool_decide (r = []))) eqn:E.
  - apply andb_prop in E as [[E1 E2]%andb_prop E3]. apply Z.ltb_lt in E2. apply negb_true_iff in E1, E3. apply bool_decide_eq_false in E3.
    destruct (Z.leb_spec plen (m_len x)) as [Hle|Hgt].
    + exists (x :: r), s. split; [done|]. split; [apply kept_refl|]. left. split_and!; try done. by exists x, r.
    + assert (Hpm : held s ++ (x :: r) ++ l ≡ₚ x :: r ++ held s ++ l) by solve_Permutation.
      destruct (pullup_go s x r l (plen - m_len x)) as (out & s' & Hr & Hk & Hres); try done; [apply Hu|by rewrite <- Hpm; apply Hu|by rewrite <- Hpm|lia|].
      exists out, s'. split; [done|]. split; [done|]. destruct Hres as [(Hu' & Hb & Hfr & Hn)|(-> & Hu' & Hlt)].
      * left. split_and!; [done|by rewrite Hb|done|]. destruct out as [|y q]; [done|]. destruct Hfr as [Hsf Hy].
        exists y, q. split_and!; [done|lia| | |].
        -- rewrite (same1_ext x y) by apply Hsf. by destruct (is_ext x).
        -- unfold is_hdr. destruct Hsf as [(_ & -> & _) _]. done.
        -- intros _. apply Hsf.
      * right. split_and!; [done|done|]. right. left. simpl. lia.
  - destruct (Z.ltb_spec MHLEN plen).
    + destruct (pullup_fail s s (x :: r) l Hu Hf (kept_refl l s)) as (s' & Hr & Hk & Hu').
      exists [], s'. split; [done|]. split; [done|]. right. split_and!; [done|done|by right; right].
    + destruct (MGET_ok s ((x :: r) ++ l) (m_type x) (mo_type _ (sd_ok _ _ Hx)) Hu Hf) as (o & s1 & Hr1 & Hi1 & Hk1 & Ho1).
      rewrite (bind_run _ _ _ _ _ Hr1). assert (Hkl : kept l s s1).
      { apply (kept_sub ((x :: r) ++ l)); [|done]. intros c. rewrite nrefs_app. pose proof (nrefs_nonneg c (x :: r)). lia. }
      destruct o as [m|].
      2:{ destruct Ho1 as [Hp1 Hans]. destruct (pullup_fail s s1 (x :: r) l) as (s' & Hr & Hk & Hu'); [by split|by eapply kept_few|done|].
          exists [], s'. split; [done|]. split; [done|]. right. split_and!; [done|done|by left]. }
      destruct Ho1 as [Hfr Hal].
      assert (Hx1 : sound (mb_get s1) x).
      { apply (kept_sound1 _ _ _ _ Hk1); [set_solver|done]. }
      assert (Hal' : alloc (mb_get s1) m (x :: r ++ held s1 ++ l)).
      { apply (alloc_perm _ _ (held s1 ++ (x :: r) ++ l)); [solve_Permutation|done]. }
      pose proof (move_hdr_ok _ _ _ _ Hal' Hfr Hx1) as Hmv. unfold move_hdr in Hmv.
      destruct (if is_hdr x then _ else _) as [m' x'] eqn:Em.
      destruct Hmv as (M1 & M2 & M3 & M4 & M5 & M6 & M7 & M8 & M9 & M10 & M11 & M12 & M13 & _).
      assert (Hf1 : few (held s1 ++ (x :: r) ++ l)) by (by eapply kept_few).
      destruct (pullup_go s1 m' (x' :: r) l plen) as (out & s' & Hr & Hk & Hres); try done.
      { intros c. specialize (Hf1 c). rewrite !nrefs_app, !nrefs_cons in Hf1. rewrite nrefs_cons, !nrefs_app, nrefs_cons, M12, M13. lia. }
      { rewrite M7, M8. unfold MLEN, MHLEN in *. case_match; lia. }
      { rewrite (kp_proto _ _ _ (kt_keeps _ _ _ Hk1)). done. }
      exists out, s'. split; [done|]. split; [by eapply kept_trans|].
      destruct Hres as [(Hu' & Hb & Hfront & Hn)|(-> & Hu' & Hlt)].
      * left. split_and!; [done| | |].
        -- rewrite Hb, M9, !cbytes_cons, M10, (kept_bytes _ _ _ x Hk1), (kept_cbytes _ _ _ r Hk1) by set_solver. done.
        -- intros c. specialize (Hn c). rewrite M12, nrefs_cons, M13 in Hn. rewrite nrefs_cons. lia.
        -- destruct out as [|y q]; [done|]. destruct Hfront as [Hsf Hy]. exists y, q. split_and!; [done|lia| | |].
           ++ by rewrite (same1_ext m' y) by apply Hsf.
           ++ rewrite <- M3. unfold is_hdr. destruct Hsf as [(_ & -> & _) _]. done.
           ++ intros Hh. rewrite <- M6 by done. apply Hsf.
      * right. split_and!; [done|done|]. right. left. simpl in *. lia.
Qed.
End Copy.
