(* ===== verification/MbufClust.v ===== *)
(** * Clusters, and mbufs in front of a chain

    [m_clalloc] and [MCLGET], which give an mbuf a cluster, [m_prepend] and [M_PREPEND], which
    make room before the first byte, and [m_getclr]. *)

From S2P Require Import Prelude Mbuf MbufSpec MbufOps MbufCopy.
Local Open Scope kern_scope.

(** ** The clusters of a page *)

(** [n] clusters from [c] with the bytes [p], which the kernel does not know yet. *)
Record new_page (s : mbst) (n : nat) (c : Z) (p : list Z) : Prop := {
  np_len : zlen p = 1024 * Z.of_nat n;
  np_new : forall i, c <= i < c + Z.of_nat n -> addr_ok s i /\ mcl_buf s !! i = None /\ i ∉ mjoin (page <$> kmem_ans s) }.

Lemma clusters_new s l c b : clusters s l -> zlen b = MCLBYTES -> addr_ok s c -> mcl_buf s !! c = None ->
  c ∉ mjoin (page <$> kmem_ans s) -> clusters (with_buf (<[c := b]> (mcl_buf s)) s) l.
Proof.
  intros [Hr Hk Hs Hb Hf Hm] Hl Ha Hc Hp. assert (Hz : nrefs c l = 0).
  { pose proof (nrefs_nonneg c l). destruct (decide (0 < nrefs c l)) as [H0|]; [|lia]. destruct (Hk c H0). congruence. }
  split; try done.
  - intros d Hd. simpl. rewrite lookup_insert_ne by (intros ->; lia). by apply Hk.
  - intros d b'. simpl. rewrite lookup_insert_Some. intros [[<- <-]|[_ Hd]]; [done|by apply (Hs d)].
  - destruct Hf as (fl & Hch & Hnd & Hn & Hcf). exists fl. split_and!; try done.
    apply (free_chain_frame s); [done| |done]. intros d Hd. simpl. apply lookup_insert_ne. intros ->.
    destruct (free_chain_known _ _ _ _ Hch Hd). congruence.
  - destruct Hm as (? & ? & Hx). split_and!; try done. intros d Hd. destruct (Hx d Hd) as [? ?]. split; [done|].
    simpl. rewrite lookup_insert_ne; [done|]. by intros ->.
Qed.

Lemma m_clalloc_loop_ok n s l c p : clusters s l -> new_page s n c p ->
  exists s', m_clalloc_loop n c p s = Some (tt, s') /\ clusters s' l /\ mb_view s' = mb_view s /\ keeps l s s' /\
    (mclfree s' <> 0 \/ n = O).
Proof.
  revert s c p. induction n as [|n IH]; intros s c p Hcl [Hlen Hnew]; simpl.
  - exists s. split_and!; [done|done|done|apply keeps_refl|by right].
  - destruct (Hnew c ltac:(lia)) as (Ha & Hc & Hp). rewrite bind_get, bind_mod.
    set (b := take 1024 p). assert (Hb : zlen b = MCLBYTES) by (unfold b; apply (zlen_take 1024); lia).
    pose proof (clusters_new s l c b Hcl Hb Ha Hc Hp) as Hcl1. set (s1 := with_buf _ s) in *.
    assert (Hc1 : mcl_buf s1 !! c = Some b) by (simpl; by rewrite lookup_insert_eq).
    assert (Hz : nrefs c l = 0).
    { pose proof (nrefs_nonneg c l). destruct (decide (0 < nrefs c l)) as [H0|]; [|lia]. destruct (cl_known _ _ Hcl c H0). congruence. }
    destruct (cl_free _ _ Hcl) as (fl & Hch & Hnd & Hn & Hcf).
    assert (Hnin : c ∉ fl) by (intros Hin; destruct (free_chain_known _ _ _ _ Hch Hin); congruence).
    assert (Hch1 : free_chain s1 (mclfree s1) fl).
    { apply (free_chain_frame s); [done| |done]. intros d Hd. simpl. apply lookup_insert_ne. by intros ->. }
    pose proof (put_free_clusters s1 c b l fl Hcl1 Hc1 Hz Hch1 Hnd Hn Hcf Hnin) as Hcl2.
    rewrite (bind_run _ _ _ _ _ (set_next_run s1 c (mclfree s) b Hc1 ltac:(rewrite Hb; unfold MCLBYTES; lia))), bind_mod.
    set (s2 := put_free c b s1) in *.
    assert (Hfin : forall k : K mbst unit, kbind (add_clfree 1) (fun _ => k) (with_mclfree (cl_addr s c) (with_buf (<[c := le32 (mclfree s) ++ drop 4 b]> (mcl_buf s1)) s1)) = k s2) by done.
    rewrite Hfin. destruct (IH s2 (c + 1) (drop 1024 p) Hcl2) as (s' & Hr & Hcl' & Hv & Hk & Hne).
    { split; [rewrite (zlen_drop 1024) by lia; lia|]. intros i Hi. destruct (Hnew i ltac:(lia)) as (? & ? & ?). split; [done|].
      split; [|done]. simpl. rewrite !lookup_insert_ne by lia. done. }
    exists s'. split_and!; [done|done|by rewrite Hv| |].
    + apply (keeps_trans _ _ s2); [|done]. split; try done. intros d Hd. simpl. rewrite !lookup_insert_ne by (intros ->; lia). done.
    + left. destruct Hne as [Hne|H0]; [done|]. subst n. simpl in Hr. injection Hr as <-. simpl. destruct Ha as [_ Ha].
      unfold cl_addr in *. simpl. lia.
Qed.

Lemma page_new s l c p r : clusters s l -> kmem_ans s = Some (c, p) :: r -> clusters (with_kmem r s) l /\ new_page (with_kmem r s) 4 c p.
Proof.
  intros [Hr Hk Hs Hb Hf (Hnd & Hlen & Hx)] E. rewrite E in *. simpl in Hnd, Hx. split.
  - split; try done.
    { destruct Hf as (fl & Hch & ? & ? & ?). exists fl. split_and!; try done. by eapply (free_chain_ext s). }
    split_and!.
    + simpl. do 4 apply NoDup_cons_1_2 in Hnd. exact Hnd.
    + intros d q Hd. apply (Hlen d q). simpl in Hd. set_solver.
    + intros d Hd. simpl in Hd. apply Hx. set_solver.
  - split; [rewrite (Hlen c p) by set_solver; done|]. intros i Hi. simpl. destruct (Hx i) as [Ha Hn].
    { assert (i = c \/ i = c + 1 \/ i = c + 2 \/ i = c + 3) as [-> | [-> | [-> | ->]]] by lia; set_solver. }
    split; [done|]. split; [done|]. apply NoDup_cons in Hnd as [H1 Hnd]. apply NoDup_cons in Hnd as [H2 Hnd].
    apply NoDup_cons in Hnd as [H3 Hnd]. apply NoDup_cons in Hnd as [H4 Hnd].
    assert (i = c \/ i = c + 1 \/ i = c + 2 \/ i = c + 3) as [-> | [-> | [-> | ->]]] by lia; set_solver.
Qed.

(** ** Allocation of a cluster *)

(** The first cluster of the free list, now referred to by [m]. *)
Definition take_cl (s : mbst) (c n : Z) : mbst :=
  with_mclfree n (clfree_stat (-1) (with_refcnt (<[c := s8 (refcnt s c + 1)]> (mclrefcnt s)) s)).

Lemma mtocl_addr s c : 0 <= mbutl s -> addr_ok s c -> mtocl s (cl_addr s c) = c.
Proof.
  unfold mtocl, addr_ok, cl_addr, MCLBYTES, u32. intros H [H1 H2].
  rewrite (Z.mod_small (mbutl s + 1024 * c)) by lia. rewrite (Z.mod_small (mbutl s)) by lia.
  rewrite Z.mod_small by lia. rewrite Z.shiftr_div_pow2 by lia. change (2 ^ 10) with 1024. Z.div_mod_to_equations. lia.
Qed.

Lemma take_cl_ok s l : clusters s l -> mclfree s <> 0 -> exists c n,
  mtocl s (mclfree s) = c /\ mcl_next c s = Some (n, s) /\
  nrefs c l = 0 /\ forall m, is_ext m = true -> m_ext m = c -> clusters (take_cl s c n) (m :: l).
Proof.
  intros [Hr Hk Hs Hb Hf Hm] Hne. destruct Hf as (fl & Hch & Hnd & Hz & Hcf). destruct fl as [|c fl]; [done|].
  destruct Hch as (Ha & n & Hn & Hch). apply NoDup_cons in Hnd as [Hc Hnd].
  assert (Hkc : exists b, mcl_buf s !! c = Some b) by (destruct (mcl_buf s !! c); [eauto|done]). destruct Hkc as [b Hbc].
  destruct (Hs _ _ Hbc) as [_ Hac]. exists c, n. split_and!.
  - rewrite Ha. by apply mtocl_addr.
  - unfold mcl_next, kderef. by rewrite Hn.
  - apply Hz. set_solver.
  - intros m He Hm'. assert (Hnr : forall d, nrefs d (m :: l) = if decide (c = d) then nrefs d l + 1 else nrefs d l).
    { intros d. rewrite nrefs_cons. unfold ref1. rewrite He, Hm'. case_decide; destruct (Z.eqb_spec c d); simpl; lia || done. }
    split; try done.
    + intros d. unfold refcnt at 1. simpl. rewrite refcnt_insert, Hnr. case_decide as E; [|by apply Hr]. by rewrite <- E, Hr, s8_add.
    + intros d. rewrite Hnr. simpl. case_decide as E; [subst; eauto|by apply Hk].
    + exists fl. split_and!; [by eapply (free_chain_ext s)|done| |].
      * intros d Hd. rewrite Hnr, decide_False by (intros ->; done). apply Hz. set_solver.
      * simpl. rewrite Hcf, u32_add, zlen_cons. f_equal. lia.
Qed.

Lemma page_none s l r : clusters s l -> kmem_ans s = None :: r -> clusters (with_kmem r s) l.
Proof.
  intros [Hr Hk Hs Hb Hf (Hnd & Hlen & Hx)] E. rewrite E in *. split; try done.
  - destruct Hf as (fl & Hch & ? & ? & ?). exists fl. split_and!; try done. by eapply (free_chain_ext s).
  - split_and!; try done. intros c p Hc. apply (Hlen c p). simpl in Hc. set_solver.
Qed.

Lemma kmem_pop b l : pool b l -> exists a b', kmem_malloc b = Some (a, b') /\ pool b' l /\ keeps l b b' /\
  match a with Some (c, p) => new_page b' 4 c p | None => True end.
Proof.
  intros [Ho Hc Hb]. unfold kmem_malloc. destruct (kmem_ans b) as [|[[c p]|] q] eqn:E; eexists _, _; (split; [done|]).
  - split_and!; [done|apply keeps_refl|done].
  - destruct (page_new b l c p q Hc E) as [Hc' Hn]. split_and!; [split; [done|done|by eapply (mbufs_ext b)]|by split|done].
  - split_and!; [split; [done|by apply page_none|by eapply (mbufs_ext b)]|by split|done].
Qed.

(** ** Room before the first byte *)

Lemma align_range x : 0 <= x -> 0 <= Z.land x (Z.lnot 3) <= x.
Proof.
  intros Hx. change (Z.land x (Z.lnot 3)) with (Z.land x (Z.lnot (Z.ones 2))). rewrite <- Z.ldiff_land, Z.ldiff_ones_r by lia.
  rewrite Z.shiftl_mul_pow2, Z.shiftr_div_pow2 by lia. change (2 ^ 2) with 4. Z.div_mod_to_equations. lia.
Qed.

(** [m] ends with the bytes of [n], after [plen] others. *)
Definition room_before (bytes : list Z) (plen : Z) (b' : mbst) (out : list mbuf) : Prop :=
  drop (Z.to_nat plen) (cbytes b' out) = bytes /\ match out with x :: _ => plen <= m_len x | [] => False end.

Section Clust.
Context {S : Type} `{!HasMbufs S, !Drains S, !DrainLaws S}.

Lemma m_clalloc_none s l : inuse s l -> few (held s ++ l) ->
  exists r s', (do! mb (kmod (fun s => if logged s =? 0 then with_logged (logged s + 1) s else s)) in
      do! m_reclaim in let! s := mb kget in kret (if ztrue (mclfree s) then 1 else 0)) s = Some (r, s') /\
    inuse s' l /\ kept l s s' /\ (ztrue r = true -> mclfree (mb_get s') <> 0).
Proof.
  intros Hu Hf. assert (Hq : quiet (fun s => if logged s =? 0 then with_logged (logged s + 1) s else s)).
  { intros b. by case_match. }
  destruct (quiet_run _ s l Hq Hu) as (s1 & Hr1 & Hu1 & Hk1). rewrite (bind_run _ _ _ _ _ Hr1).
  destruct (m_reclaim_ok s1 l Hu1 (kept_few _ _ _ Hk1 Hf)) as (s2 & Hr2 & Hu2 & Hk2). rewrite (bind_run _ _ _ _ _ Hr2).
  assert (Hg : mb kget s2 = Some (mb_get s2, s2)) by (unfold mb, kzoom, kget; by rewrite mb_put_get).
  rewrite (bind_run _ _ _ _ _ Hg). eexists _, s2. split; [done|]. split; [done|]. split; [by eapply kept_trans|].
  unfold ztrue. destruct (Z.eqb_spec (mclfree (mb_get s2)) 0); done.
Qed.

Lemma m_clalloc_ok s l : inuse s l -> few (held s ++ l) ->
  exists r s', m_clalloc 1 s = Some (r, s') /\ inuse s' l /\ kept l s s' /\ (ztrue r = true -> mclfree (mb_get s') <> 0).
Proof.
  intros Hu Hf. unfold m_clalloc. destruct (kmem_pop _ _ (proj2 Hu)) as (a & b & Hr & Hp & Hk & Ha).
  destruct (inuse_mb kmem_malloc s l l a b Hu Hr Hp) as [Hr1 Hu1]. rewrite (bind_run _ _ _ _ _ Hr1).
  assert (Hk1 : kept l s (mb_put b s)) by (by apply kept_put). destruct a as [[c p]|].
  - destruct Hp as [Ho Hc Hb].
    destruct (m_clalloc_loop_ok (1 * 4) b _ c p Hc Ha) as (b2 & Hr2 & Hc2 & Hv2 & Hk2 & Hne).
    assert (Hp2 : pool b2 (held (mb_put b s) ++ l)) by (rewrite held_put; split; [done|done|by eapply (mbufs_ext b)]).
    destruct (inuse_mb (m_clalloc_loop (1 * 4) c p) (mb_put b s) l l tt b2 Hu1 ltac:(by rewrite mb_get_put) Hp2) as [Hr3 Hu3].
    rewrite (bind_run _ _ _ _ _ Hr3).
    match goal with |- context [mb (kmod ?f)] => set (g := f) end. assert (Hq : quiet g) by done.
    set (s2 := mb_put b2 (mb_put b s)) in *. destruct (quiet_run g s2 l Hq Hu3) as (s3 & Hr4 & Hu4 & Hk4).
    assert (Hs3 : s3 = mb_put (g (mb_get s2)) s2) by (unfold mb, kzoom, kmod in Hr4; congruence).
    rewrite (bind_run _ _ _ _ _ Hr4). exists 1, s3. split; [done|]. split; [done|]. split.
    + apply (kept_trans _ _ s2); [|done]. apply (kept_trans _ _ (mb_put b s)); [done|]. apply kept_put. by rewrite held_put, mb_get_put.
    + intros _. rewrite Hs3, mb_get_put. unfold s2. rewrite mb_get_put. by destruct Hne.
  - destruct (m_clalloc_none _ l Hu1 (kept_few _ _ _ Hk1 Hf)) as (r & s2 & Hr2 & Hu2 & Hk2 & Hz).
    exists r, s2. split; [done|]. split; [done|]. split; [by eapply kept_trans|done].
Qed.

Definition take_one : K mbst (option Z) :=
  let! s := kget in
  if mclfree s =? 0 then kret None
  else
    let c := mtocl s (mclfree s) in
    do! add_ref c 1 in
    do! add_clfree (-1) in
    let! n := mcl_next c in
    do! kmod (with_mclfree n) in
    kret (Some c).

(** The mbuf that [MCLGET] makes of [m]. *)
Definition with_cluster (c : Z) (m : mbuf) : mbuf := set_ext c (set_flags (Z.lor (m_flags m) M_EXT) (set_data 0 m)).

Lemma take_one_ok b m l : pool b (m :: l) -> is_ext m = false -> m_len m = 0 ->
  exists o b', take_one b = Some (o, b') /\ keeps l b b' /\
    match o with
    | Some c => pool b' (with_cluster c m :: l) /\ nrefs c l = 0
    | None => b' = b /\ mclfree b = 0
    end.
Proof.
  intros [Ho Hc Hb] He Hl. apply Forall_cons in Ho as [Hm Ho]. unfold take_one. rewrite bind_get.
  destruct (Z.eqb_spec (mclfree b) 0) as [Hz|Hz]; [exists None, b; split_and!; [done|apply keeps_refl|done|done]|].
  assert (Hc1 : clusters b l).
  { eapply (clusters_ext b b (m :: l)); [done| |done]. intros c. rewrite nrefs_cons. unfold ref1. by rewrite He. }
  destruct (take_cl_ok b l Hc1 Hz) as (c & n & Hmc & Hn & Hnr & Ht). rewrite Hmc.
  exists (Some c), (take_cl b c n). split; [|split; [by split|split; [|done]]].
  - unfold add_ref, add_clfree. rewrite !bind_mod. unfold mcl_next, kderef in *. unfold kbind.
    simpl. destruct (mcl_buf b !! c ≫= get_le32); [|done]. by simplify_eq.
  - assert (Hw : is_ext (with_cluster c m) = true) by apply flags_ext. split; [|by apply Ht|].
    + constructor; [|done]. destruct Hm. split; try done; [|unfold m_limit; rewrite Hw; simpl; rewrite Hl; done].
      unfold m_start. by rewrite Hw, andb_false_r.
    + eapply (mbufs_ext b _ (m :: l)); [done| |done]. intros t. by rewrite !ntype_cons.
Qed.

Lemma mb_kget (s : S) : mb kget s = Some (mb_get s, s).
Proof. unfold mb, kzoom, kget. by rewrite mb_put_get. Qed.

(** The outcome of [MCLGET]: a cluster that no other mbuf has, or the mbuf as it was. *)
Definition clustered (s : S) (m : mbuf) (l : list mbuf) (m' : mbuf) (s' : S) : Prop :=
  inuse s' (m' :: l) /\ kept l s s' /\
  (m' = m \/ exists c, m' = with_cluster c m /\ nrefs c (held s' ++ l) = 0).

Lemma take_one_run s m l : inuse s (m :: l) -> is_ext m = false -> m_len m = 0 ->
  exists m' s', (let! p := mb take_one in kret (match p with Some c => with_cluster c m | None => m end)) s = Some (m', s') /\
    clustered s m l m' s'.
Proof.
  intros [Hi Hp] He Hl. rewrite (Permutation_app_comm (held s)) in Hp. simpl in Hp.
  destruct (take_one_ok _ m (l ++ held s) Hp He Hl) as (o & b & Hr & Hk & Hres).
  rewrite (bind_run _ _ _ _ _ (mb_run _ s _ _ Hr)).
  assert (Hk1 : kept l s (mb_put b s)).
  { apply kept_put. eapply keeps_sub; [|exact Hk]. intros c. rewrite !nrefs_app. lia. }
  destruct o as [c|].
  - destruct Hres as [Hp1 Hz]. eexists _, _. split; [done|]. split; [|split; [done|]].
    + split; [by apply own_put|]. rewrite mb_get_put, held_put. rewrite (Permutation_app_comm (held s)). done.
    + right. exists c. split; [done|]. by rewrite held_put, nrefs_app, Z.add_comm, <- nrefs_app.
  - destruct Hres as [-> _]. eexists _, _. split; [done|]. rewrite mb_put_get. split; [|split; [apply kept_refl|by left]].
    split; [done|]. by rewrite (Permutation_app_comm (held s)).
Qed.

Lemma MCLGET_ok s m l : inuse s (m :: l) -> few (held s ++ m :: l) -> is_ext m = false -> m_len m = 0 ->
  exists m' s', MCLGET m s = Some (m', s') /\ clustered s m l m' s'.
Proof.
  intros Hu Hf He Hl. unfold MCLGET, MCLALLOC. fold take_one. unfold kbind at 1 2. rewrite mb_kget.
  destruct (mclfree (mb_get s) =? 0) eqn:E.
  - destruct (m_clalloc_ok s (m :: l) Hu Hf) as (r & s1 & Hr & Hu1 & Hk1 & _). rewrite (bind_run _ _ _ _ _ Hr).
    destruct (take_one_run s1 m l Hu1 He Hl) as (m' & s2 & Hr2 & Hu2 & Hk2 & Hm'). exists m', s2. split; [exact Hr2|].
    split; [done|]. split; [|done]. apply (kept_trans _ _ s1); [|done]. apply (kept_sub (m :: l)); [|done]. intros c. apply nrefs_tail.
  - apply (take_one_run s m l Hu He Hl).
Qed.

Lemma m_prepend_ok s x r l plen : inuse s ((x :: r) ++ l) -> few (held s ++ (x :: r) ++ l) -> 0 <= plen <= MHLEN ->
  exists out s', m_prepend (x :: r) plen s = Some (out, s') /\ kept l s s' /\
    (inuse s' (out ++ l) /\ (forall c, nrefs c out <= nrefs c (x :: r)) /\
       drop (Z.to_nat plen) (cbytes (mb_get s') out) = cbytes (mb_get s) (x :: r) /\
       (exists y, out = y :: tail out /\ plen = m_len y /\ is_hdr y = is_hdr x /\ (is_hdr x = true -> m_pkthdr y = m_pkthdr x) /\
          m_length out = plen + m_length (x :: r)) \/
     out = [] /\ inuse s' l /\ None ∈ malloc_ans (mb_get s)).
Proof.
  intros Hu Hf Hp. assert (Hx : sound (mb_get s) x) by (apply (pool_sound _ _ x (proj2 Hu)); set_solver).
  unfold m_prepend. destruct (MGET_ok s ((x :: r) ++ l) (m_type x) (mo_type _ (sd_ok _ _ Hx)) Hu Hf) as (o & s1 & Hr1 & Hi1 & Hk1 & Ho1).
  rewrite (bind_run _ _ _ _ _ Hr1). assert (Hkl : kept l s s1).
  { apply (kept_sub ((x :: r) ++ l)); [|done]. intros c. rewrite nrefs_app. pose proof (nrefs_nonneg c (x :: r)). lia. }
  destruct o as [m|].
  2:{ destruct Ho1 as [Hp1 Hans]. destruct (m_freem_run s1 (x :: r) l (conj Hi1 Hp1) (kept_few _ _ _ Hk1 Hf)) as (s2 & Hr2 & Hu2 & Hk2).
      rewrite (bind_run _ _ _ _ _ Hr2). exists [], s2. split; [done|]. split; [by eapply kept_trans|by right]. }
  destruct Ho1 as [Hfr Hal].
  assert (Hx1 : sound (mb_get s1) x).
  { apply (kept_sound1 _ _ _ _ Hk1); [set_solver|done]. }
  assert (Hal' : alloc (mb_get s1) m (x :: r ++ held s1 ++ l)).
  { apply (alloc_perm _ _ (held s1 ++ (x :: r) ++ l)); [solve_Permutation|done]. }
  pose proof (move_hdr_ok _ _ _ _ Hal' Hfr Hx1) as Hmv. pose proof (align_range (MHLEN - plen) ltac:(lia)) as Hal2.
  set (d := Z.land (MHLEN - plen) (Z.lnot 3)) in *.
  destruct (move_hdr (set_len 0 m) x) as [m0 x'] eqn:Em0.
  set (y := set_len plen (if plen <? MHLEN then set_data (m_data m0 + d) m0 else m0)).
  assert (Hrun : (let '(mn, x0) := if is_hdr x then (M_COPY_PKTHDR m x, set_flags (Z.land (m_flags x) (Z.lnot M_PKTHDR)) x) else (m, x) in
    @kret S _ (set_len plen (if plen <? MHLEN then set_data (m_data mn + d) mn else mn) :: x0 :: r)) = kret (y :: x' :: r)).
  { unfold move_hdr in Em0. unfold y. destruct (is_hdr x); injection Em0 as <- <-; by destruct (plen <? MHLEN). }
  change (MGET (m_type x) s = Some (Some m, s1)) in Hr1.
  exists (y :: x' :: r), s1. split; [exact (f_equal (fun k => k s1) Hrun)|]. split; [done|]. left.
  destruct Hmv as (M1 & M2 & M3 & M4 & M5 & M6 & M7 & M8 & M9 & M10 & M11 & M12 & M13 & M14 & M15).
  assert (Hy : m_data y = (if plen <? MHLEN then m_data m0 + d else m_data m0) /\ m_len y = plen /\ is_ext y = is_ext m0 /\
    is_hdr y = is_hdr m0 /\ m_type y = m_type m0 /\ m_dat y = m_dat m0 /\ m_pkthdr y = m_pkthdr m0).
  { unfold y. by destruct (plen <? MHLEN). }
  destruct Hy as (Y1 & Y2 & Y3 & Y4 & Y5 & Y6 & Y7).
  assert (Hm0 : mok m0) by (pose proof (pl_ok _ _ M1) as Hall; by apply Forall_cons in Hall as [? _]).
  assert (Hp1 : pool (mb_get s1) (y :: x' :: r ++ held s1 ++ l)).
  { apply (pool_edit _ m0); [done| |done|done|]. 2:{ rewrite M2. done. }
    destruct Hm0. split; [congruence|congruence|lia| |].
    - unfold m_start in *. rewrite Y3, Y4, Y1. case_match; destruct (plen <? MHLEN); lia.
    - unfold m_limit. rewrite Y3, M2, Y1, Y2, M8. unfold MHLEN, MLEN in *. destruct (Z.ltb_spec plen 100), (is_hdr x); lia. }
  assert (Hsy : sound (mb_get s1) y) by (apply (pool_sound _ _ y Hp1); set_solver).
  split_and!.
  - split; [done|]. assert (Hpm : held s1 ++ (y :: x' :: r) ++ l ≡ₚ y :: x' :: r ++ held s1 ++ l) by solve_Permutation. by rewrite Hpm.
  - intros c. rewrite !nrefs_cons, M13. assert (ref1 c y = 0) as ->; [|lia]. unfold ref1. by rewrite Y3, M2.
  - rewrite cbytes_cons, drop_app_Z by (rewrite mbytes_len by done; lia). rewrite mbytes_len by done.
    rewrite drop_none by lia. rewrite !cbytes_cons, M10, (kept_bytes _ _ _ x Hk1), (kept_cbytes _ _ _ r Hk1) by set_solver. done.
  - exists y. split_and!; [done|done|by rewrite Y4| |simpl; lia]. intros Hh. rewrite Y7. by apply M6.
Qed.

(** More room in the mbuf itself. *)
Lemma grow_head b x k : sound b x -> 0 <= k <= M_LEADINGSPACE x ->
  let y := set_len (m_len x + k) (set_data (m_data x - k) x) in
  sound b y /\ same1 x y /\ drop (Z.to_nat k) (mbytes b y) = mbytes b x.
Proof.
  intros Hs Hk y. assert (H1 : same1 x y) by done. pose proof Hs as [[] Hb]. unfold M_LEADINGSPACE in Hk.
  assert (Hst : k <= m_data x - m_start x).
  { unfold m_start in *. destruct (is_ext x); simpl; [rewrite andb_false_r in *; lia|]. destruct (is_hdr x); simpl in *; lia. }
  pose proof (m_start_nonneg x). split_and!; [|done|].
  - apply (sound_same b x); try done. split; try done; unfold m_start, m_limit, is_ext, is_hdr in *; simpl; lia.
  - unfold mbytes, mbuffer, y, is_ext. simpl. rewrite skipn_firstn_comm, drop_drop. f_equal; [lia|]. f_equal. lia.
Qed.

(** [M_PREPEND]: room for [plen] bytes before those of the chain, or nothing. *)
Lemma M_PREPEND_ok s x r l plen : inuse s ((x :: r) ++ l) -> few (held s ++ (x :: r) ++ l) -> 0 <= plen <= MHLEN ->
  exists out s', M_PREPEND (x :: r) plen s = Some (out, s') /\ kept l s s' /\
    (inuse s' (out ++ l) /\ (forall c, nrefs c out <= nrefs c (x :: r)) /\ room_before (cbytes (mb_get s) (x :: r)) plen (mb_get s') out /\
       m_length out = plen + m_length (x :: r) /\ (hdr_ok (x :: r) -> hdr_ok out) \/
     out = [] /\ inuse s' l /\ None ∈ malloc_ans (mb_get s)).
Proof.
  intros Hu Hf Hp. assert (Hx : sound (mb_get s) x) by (apply (pool_sound _ _ x (proj2 Hu)); set_solver).
  unfold M_PREPEND. set (g := fun x : mbuf => set_plen (len (m_pkthdr x) + plen) x).
  assert (Hfin : forall b y q bytes, Forall (sound b) (y :: q) -> drop (Z.to_nat plen) (cbytes b (y :: q)) = bytes -> plen <= m_len y ->
    let out := (if is_hdr y then g y else y) :: q in
    Forall (sound b) out /\ same_chain (y :: q) out /\ room_before bytes plen b out /\ m_length out = m_length (y :: q)).
  { intros b y q bytes Hs Hd Hl out. destruct (on_hdr_ok b g (y :: q) ltac:(intros; by eexists) Hs) as (G1 & G2 & G3 & G4).
    split_and!; [done|done| |done]. split; [by rewrite <- Hd, <- G3|]. simpl. by destruct (is_hdr y). }
  destruct (Z.leb_spec plen (M_LEADINGSPACE x)) as [Hle|Hgt].
  - destruct (grow_head (mb_get s) x plen Hx ltac:(lia)) as (T1 & T2 & T3). set (y := set_len _ _) in *.
    rewrite bind_ret. assert (Hs : Forall (sound (mb_get s)) (y :: r)).
    { constructor; [done|]. apply (pool_sounds _ _ r (proj2 Hu)). set_solver. }
    pose proof (mo_len _ (sd_ok _ _ Hx)). pose proof (mbytes_len _ _ T1) as Hyl. simpl in Hyl.
    destruct (Hfin (mb_get s) y r (cbytes (mb_get s) (x :: r)) Hs) as (F1 & F2 & F3 & F4).
    { rewrite !cbytes_cons, drop_app_lt by lia. by rewrite T3. } { simpl. lia. }
    eexists _, s. split; [done|]. split; [apply kept_refl|]. left. split_and!; [| |done| |].
    + destruct Hu as [Hi Hpl]. split; [done|]. rewrite Permutation_app_swap_app in Hpl |- *.
      apply (pool_same _ (x :: r)); [done|etrans; [|done]; by constructor|]. apply (Forall_impl _ _ _ F1). by intros ? [].
    + intros c. rewrite (same_refs c (y :: r)) by done. rewrite !nrefs_cons, (same1_refs c x y) by done. lia.
    + etrans; [exact F4|simpl; lia].
    + intros Hh. unfold hdr_ok in *. change (is_hdr y) with (is_hdr x). destruct (is_hdr x) eqn:E.
      * intros _. simpl. rewrite (Hh eq_refl). simpl. lia.
      * change (is_hdr y) with (is_hdr x). by rewrite E.
  - destruct (m_prepend_ok s x r l plen Hu Hf Hp) as (out & s1 & Hr & Hk & Hres). rewrite (bind_run _ _ _ _ _ Hr).
    destruct Hres as [(Hu1 & Hn & Hd & y & Ho & Hy & Hh & Hph & Hlen)|(-> & Hu1 & Hans)].
    2:{ exists [], s1. split; [done|]. split; [done|]. by right. }
    set (q := tail out) in *. clearbody q. subst out.
    assert (Hs : Forall (sound (mb_get s1)) (y :: q)) by (apply (pool_sounds _ _ _ (proj2 Hu1)); set_solver).
    destruct (Hfin (mb_get s1) y q _ Hs Hd ltac:(lia)) as (F1 & F2 & F3 & F4).
    eexists _, s1. split; [done|]. split; [done|]. left. split_and!; [| |done| |].
    + destruct Hu1 as [Hi Hpl]. split; [done|]. rewrite Permutation_app_swap_app in Hpl |- *.
      apply (pool_same _ (y :: q)); [done|done|]. apply (Forall_impl _ _ _ F1). by intros ? [].
    + intros c. rewrite (same_refs c (y :: q)) by done. apply Hn.
    + etrans; [exact F4|done].
    + intros Hok. unfold hdr_ok in *. rewrite Hh. destruct (is_hdr x) eqn:E; [|by rewrite Hh].
      intros _. change (len (m_pkthdr y) + plen = m_length (g y :: q)). rewrite Hph, (Hok eq_refl) by done.
      change (m_length (g y :: q)) with (m_length (y :: q)). lia.
Qed.
End Clust.
