(* ===== verification/MbufCalls.v ===== *)
(** * Calls on mbufs

    The routines as calls on the chains of their users, the byte strings that the chains
    stand for, and the theorems: every call does to the byte strings what it promises and
    leaves the pool in order; a cluster that more than 256 mbufs share is freed in use. *)

From S2P Require Import Prelude Mbuf MbufSpec MbufOps MbufCopy MbufClust.
Local Open Scope kern_scope.

(** ** Calls *)

Inductive mcall : Type :=
| CGet (hdr : bool) (type : Z)
| CCluster (type : Z)
| CCopy (i : nat) (off n : Z)
| CAdj (i : nat) (n : Z)
| CCat (i j : nat)
| CPullup (i : nat) (n : Z)
| CPrepend (i : nat) (n : Z)
| CFree (i : nat).

Section Calls.
Context {S : Type} `{!HasMbufs S, !Drains S}.

(** A call on the chains [chs]: a new chain comes first; a caller of MGET sets
    the lengths.  [CCat i j] appends the chain [j] of the others to the chain [i]. *)
Definition do_call (c : mcall) (chs : list (list mbuf)) : K S (list (list mbuf)) :=
  match c with
  | CGet hdr type =>
      let! m := (if hdr then m_gethdr type else m_get type) in
      kret (((fun x => set_plen 0 (set_len 0 x)) <$> m) :: chs)
  | CCluster type =>
      let! o := MGET type in
      match o with
      | None => kret ([] :: chs)
      | Some m => let! m := MCLGET (set_len 0 m) in kret ([m] :: chs)
      end
  | CCopy i off n => let! m := knonnull (chs !! i) in let! out := m_copym m off n in kret (out :: chs)
  | CAdj i n => let! m := knonnull (chs !! i) in let! m := knonnull (m_adj m n) in kret (<[i := m]> chs)
  | CCat i j =>
      let! m := knonnull (chs !! i) in
      let rest := delete i chs in
      let! n := knonnull (rest !! j) in
      let! m := mb (m_cat m n) in kret (m :: delete j rest)
  | CPullup i n => let! m := knonnull (chs !! i) in let! m := m_pullup m n in kret (<[i := m]> chs)
  | CPrepend i n => let! m := knonnull (chs !! i) in let! m := M_PREPEND m n in kret (<[i := m]> chs)
  | CFree i => let! m := knonnull (chs !! i) in do! mb (m_freem m) in kret (delete i chs)
  end.

(** What the calls promise, on byte strings; [lack] says that memory can run out. *)
Definition a_call (lack : Prop) (c : mcall) (b b' : list (list Z)) : Prop :=
  match c with
  | CGet _ _ | CCluster _ => b' = [] :: b
  | CCopy i off n => exists x, b !! i = Some x /\
      (b' = take (Z.to_nat (if n =? M_COPYALL then zlen x - off else n)) (drop (Z.to_nat off) x) :: b \/ lack /\ b' = [] :: b)
  | CAdj i n => exists x, b !! i = Some x /\
      b' = <[i := if 0 <=? n then drop (Z.to_nat n) x else take (Z.to_nat (zlen x + n)) x]> b
  | CCat i j => exists x y, b !! i = Some x /\ delete i b !! j = Some y /\ b' = (x ++ y) :: delete j (delete i b)
  | CPullup i n => exists x, b !! i = Some x /\ (b' = b \/ (lack \/ zlen x < n \/ MHLEN < n) /\ b' = <[i := []]> b)
  | CPrepend i n => exists x, b !! i = Some x /\
      ((exists pre, zlen pre = n /\ b' = <[i := pre ++ x]> b) \/ lack /\ b' = <[i := []]> b)
  | CFree i => is_Some (b !! i) /\ b' = delete i b
  end.
End Calls.

(** ** Chains among others *)

Lemma split_at {A} (l : list A) i x : l !! i = Some x -> exists l1 l2, l = l1 ++ x :: l2 /\ length l1 = i.
Proof. intros H. exists (take i l), (drop (Datatypes.S i) l). split; [by rewrite take_drop_middle|]. apply lookup_lt_Some in H. rewrite length_take. lia. Qed.

Lemma join_delete {A} (l : list (list A)) i x : l !! i = Some x -> mjoin l ≡ₚ x ++ mjoin (delete i l).
Proof.
  intros H. destruct (split_at l i x H) as (l1 & l2 & -> & <-). rewrite delete_middle, !join_app. simpl. solve_Permutation.
Qed.
Lemma join_insert {A} (l : list (list A)) i x y : l !! i = Some x -> mjoin (<[i := y]> l) ≡ₚ y ++ mjoin (delete i l).
Proof.
  intros H. destruct (split_at l i x H) as (l1 & l2 & -> & <-).
  rewrite insert_app_r_alt, Nat.sub_diag, delete_middle, !join_app by lia. simpl. solve_Permutation.
Qed.
Lemma map_insert_upd {A B} (f g : A -> B) (l : list A) i x y b : l !! i = Some x -> (forall z, z ∈ delete i l -> g z = f z) -> g y = b ->
  g <$> <[i := y]> l = <[i := b]> (f <$> l).
Proof.
  intros H Hg Hb. destruct (split_at l i x H) as (l1 & l2 & -> & <-). rewrite delete_middle in Hg.
  rewrite insert_app_r_alt, Nat.sub_diag by lia. simpl. rewrite !fmap_app, fmap_cons.
  rewrite insert_app_r_alt, length_fmap, Nat.sub_diag by (rewrite length_fmap; lia). simpl.
  apply (f_equal2 app); [|apply (f_equal2 cons); [done|]]; apply list_fmap_ext; intros k z Hz%list_elem_of_lookup_2; apply Hg; set_solver.
Qed.
Lemma map_same {A B} (f g : A -> B) (l : list A) : (forall z, z ∈ l -> g z = f z) -> g <$> l = f <$> l.
Proof. intros H. apply list_fmap_ext. intros k z Hz%list_elem_of_lookup_2. by apply H. Qed.
Lemma fmap_delete {A B} (f : A -> B) (l : list A) i : f <$> delete i l = delete i (f <$> l).
Proof. revert i. induction l as [|x l IH]; intros [|i]; simpl; [done|done|done|]. f_equal. apply IH. Qed.

Lemma in_join {A} (l : list (list A)) x : x ∈ l -> x ⊆ mjoin l.
Proof. intros Hx y Hy. apply list_elem_of_join. eauto. Qed.

(** ** The theorem *)

Section Theorems.
Context {S : Type} `{!HasMbufs S, !Drains S, !DrainLaws S}.

(** The chains of the users are in order, and their headers tell their lengths. *)
Record good (s : S) (chs : list (list mbuf)) : Prop := {
  gd_use : inuse s (mjoin chs);
  gd_hdr : Forall hdr_ok chs;
  gd_proto : small (max_protohdr (mb_get s)) }.

(** No cluster is shared by more mbufs than its count can tell; a copy needs as many again. *)
Definition call_ok (s : S) (chs : list (list mbuf)) (c : mcall) : Prop :=
  few (held s ++ mjoin chs) /\
  match c with
  | CGet _ type | CCluster type => type <> MT_FREE
  | CCopy i off n => exists m, chs !! i = Some m /\ m <> [] /\ 0 <= off /\ 0 <= n /\ m_length m < M_COPYALL /\
      0 <= want m off n <= m_length m - off /\ forall c, nrefs c (held s ++ mjoin chs) + nrefs c m <= 256
  | CAdj i _ | CFree i => is_Some (chs !! i)
  | CCat i j => exists x r, chs !! i = Some (x :: r) /\ is_hdr x = false /\ is_Some (delete i chs !! j)
  | CPullup i n => 0 < n /\ exists x r, chs !! i = Some (x :: r)
  | CPrepend i n => 0 <= n <= MHLEN /\ exists x r, chs !! i = Some (x :: r)
  end.

Definition bytes_of (s : S) (chs : list (list mbuf)) : list (list Z) := cbytes (mb_get s) <$> chs.
Definition lacking (s : S) : Prop := None ∈ malloc_ans (mb_get s).

(** A call that replaces the chain [i]. *)
Lemma replace_ok s s' chs i m out b : good s chs -> chs !! i = Some m -> kept (mjoin (delete i chs)) s s' ->
  inuse s' (out ++ mjoin (delete i chs)) -> hdr_ok out -> cbytes (mb_get s') out = b ->
  good s' (<[i := out]> chs) /\ bytes_of s' (<[i := out]> chs) = <[i := b]> (bytes_of s chs).
Proof.
  intros [Hu Hh Hp] Hi Hk Hu' Ho Hb. split.
  - split; [|by apply Forall_insert|by rewrite (kp_proto _ _ _ (kt_keeps _ _ _ Hk))].
    eapply inuse_perm; [|exact Hu']. by rewrite (join_insert _ _ m).
  - apply (map_insert_upd _ _ _ _ m); [done| |done]. intros z Hz. apply (kept_cbytes _ _ _ _ Hk). by apply in_join.
Qed.

(** A call that adds a chain. *)
Lemma add_ok s s' chs out b : good s chs -> kept (mjoin chs) s s' -> inuse s' (out ++ mjoin chs) -> hdr_ok out ->
  cbytes (mb_get s') out = b -> good s' (out :: chs) /\ bytes_of s' (out :: chs) = b :: bytes_of s chs.
Proof.
  intros [Hu Hh Hp] Hk Hu' Ho Hb. split.
  - split; [done|by constructor|by rewrite (kp_proto _ _ _ (kt_keeps _ _ _ Hk))].
  - unfold bytes_of. simpl. rewrite Hb. f_equal. apply map_same. intros z Hz. apply (kept_cbytes _ _ _ _ Hk). by apply in_join.
Qed.

Definition refines (s : S) (chs : list (list mbuf)) (c : mcall) : Prop := exists chs' s',
  do_call c chs s = Some (chs', s') /\ good s' chs' /\ a_call (lacking s) c (bytes_of s chs) (bytes_of s' chs').

Lemma bytes_at_i s chs i m : chs !! i = Some m -> bytes_of s chs !! i = Some (cbytes (mb_get s) m).
Proof. intros H. unfold bytes_of. by rewrite list_lookup_fmap, H. Qed.

Lemma chain_sound s chs i m : good s chs -> chs !! i = Some m -> Forall (sound (mb_get s)) m.
Proof.
  intros [[_ Hp] _ _] Hi. apply (pool_sounds _ _ m Hp). assert (m ⊆ mjoin chs); [|set_solver]. apply in_join.
  by eapply list_elem_of_lookup_2.
Qed.
Lemma chain_len s chs i m : good s chs -> chs !! i = Some m -> zlen (cbytes (mb_get s) m) = m_length m.
Proof. intros Hg Hi. apply cbytes_len. by eapply chain_sound. Qed.

Lemma chain_front s chs i m : good s chs -> chs !! i = Some m ->
  inuse s (m ++ mjoin (delete i chs)) /\ (few (held s ++ mjoin chs) -> few (held s ++ m ++ mjoin (delete i chs))).
Proof.
  intros [Hu _ _] Hi. split; [eapply inuse_perm; [|exact Hu]; by apply join_delete|]. by rewrite (join_delete chs i m Hi).
Qed.

Lemma get_one s l type (hdr : bool) : inuse s l -> few (held s ++ l) -> type <> MT_FREE ->
  exists out s', (if hdr then m_gethdr type else m_get type) s = Some (out, s') /\ kept l s s' /\
    let out' := (fun x => set_plen 0 (set_len 0 x)) <$> out in
    inuse s' (out' ++ l) /\ hdr_ok out' /\ cbytes (mb_get s') out' = [].
Proof.
  intros Hu Hf Ht. set (fl := if hdr then M_PKTHDR else 0). set (da := if hdr then 8 else 0).
  assert (H : exists o s', (if hdr then MGETHDR type else MGET type) s = Some (o, s') /\ got type fl da l s o s').
  { destruct hdr; [by apply MGETHDR_ok|by apply MGET_ok]. }
  destruct H as (o & s' & Hr & Hi & Hk & Ho). exists (chain_of o), s'. split.
  { destruct hdr; unfold m_gethdr, m_get; by rewrite (bind_run _ _ _ _ _ Hr). }
  split; [done|]. destruct o as [m|]; cbn [chain_of fmap list_fmap]; cbv zeta.
  - destruct Ho as ((F1 & F2 & F3 & F4) & Hal). set (m' := set_plen 0 (set_len 0 m)).
    assert (He : is_ext m' = false) by (unfold is_ext; simpl; rewrite F2; by destruct hdr).
    assert (Hm : mok m').
    { split; [simpl; congruence|done|done|unfold m_start, is_hdr, is_ext; simpl; rewrite F2, F3; by destruct hdr|].
      unfold m_limit. rewrite He. simpl. rewrite F3. by destruct hdr. }
    split_and!; [|done|done].
    split; [done|]. rewrite Permutation_app_swap_app. apply (alloc_pool _ m m'); [|done|done|done]. done.
  - destruct Ho as [Hp _]. split_and!; [by split|done|done].
Qed.

Lemma call_get s chs hdr type : good s chs -> call_ok s chs (CGet hdr type) -> refines s chs (CGet hdr type).
Proof.
  intros Hg [Hf Ht]. destruct (get_one s _ type hdr (gd_use _ _ Hg) Hf Ht) as (out & s' & Hr & Hk & Hu & Ho & Hb).
  destruct (add_ok s s' chs _ _ Hg Hk Hu Ho Hb) as [Hg' Hb'].
  eexists _, s'. split; [cbn [do_call]; by rewrite (bind_run _ _ _ _ _ Hr)|]. by split.
Qed.

Lemma call_cluster s chs type : good s chs -> call_ok s chs (CCluster type) -> refines s chs (CCluster type).
Proof.
  intros Hg [Hf Ht]. destruct (MGET_ok s _ type Ht (gd_use _ _ Hg) Hf) as (o & s1 & Hr & Hi & Hk & Ho).
  unfold refines. cbn [do_call]. rewrite (bind_run _ _ _ _ _ Hr). destruct o as [m|].
  - destruct Ho as ((F1 & F2 & F3 & F4) & Hal).
    assert (He : is_ext (set_len 0 m) = false) by (unfold is_ext; simpl; by rewrite F2).
    assert (Hm : mok (set_len 0 m)).
    { split; [simpl; congruence|done|done|unfold m_start, is_hdr, is_ext; simpl; by rewrite F2, F3|].
      unfold m_limit. rewrite He. simpl. by rewrite F3. }
    assert (Hu1 : inuse s1 (set_len 0 m :: mjoin chs)).
    { split; [done|]. rewrite <- Permutation_middle. by apply (alloc_pool _ m). }
    assert (Hf1 : few (held s1 ++ set_len 0 m :: mjoin chs)).
    { intros c. specialize (kept_few _ _ _ Hk Hf c). rewrite !nrefs_app, nrefs_cons.
      assert (ref1 c (set_len 0 m) = 0) as -> by (unfold ref1; by rewrite He). lia. }
    destruct (MCLGET_ok s1 _ _ Hu1 Hf1 He eq_refl) as (m' & s2 & Hr2 & Hu2 & Hk2 & Hm').
    destruct (add_ok s s2 chs [m'] [] Hg (kept_trans _ _ _ _ Hk Hk2) Hu2) as [Hg' Hb'].
    { destruct Hm' as [->|(c & -> & _)]; intros Hh; exfalso; unfold is_hdr, flag_set in Hh; simpl in Hh; rewrite F2 in Hh; done. }
    { destruct Hm' as [->|(c & -> & _)]; done. }
    eexists _, s2. split; [by rewrite (bind_run _ _ _ _ _ Hr2)|]. by split.
  - destruct Ho as [Hp _]. destruct (add_ok s s1 chs [] [] Hg Hk (conj Hi Hp) I eq_refl) as [Hg' Hb'].
    eexists _, s1. split; [done|]. by split.
Qed.

Lemma call_copy s chs i off n : good s chs -> call_ok s chs (CCopy i off n) -> refines s chs (CCopy i off n).
Proof.
  intros Hg [Hf (m & Hi & Hne & Ho & Hn & Hl & Hw & Hr)]. pose proof (chain_len s chs i m Hg Hi) as Hlen.
  destruct (m_copym_ok s m (mjoin chs) off n (gd_use _ _ Hg) Hne) as (out & s' & Hrun & Hk & Hres); try done.
  { apply in_join. by eapply list_elem_of_lookup_2. }
  unfold refines. cbn [do_call]. rewrite (bind_nonnull _ _ _ _ Hi), (bind_run _ _ _ _ _ Hrun).
  assert (Hs : Forall (sound (mb_get s)) m) by (by eapply chain_sound).
  destruct Hres as [(Hu & Hn' & Hfr & Hb)|(-> & Hu & Hans)].
  - destruct (add_ok s s' chs out (cbytes (mb_get s') out) Hg Hk Hu) as [Hg' Hb']; [|done|].
    + assert (Hol : m_length out = want m off n).
      { rewrite <- (cbytes_len (mb_get s') out) by (apply (pool_sounds _ _ out (proj2 Hu)); set_solver).
        rewrite Hb, zlen_take; [done|]. rewrite zlen_drop, Hlen; [lia|]. lia. }
      destruct out as [|y q]; [done|]. intros Hy. destruct Hfr as [Hyh Hpl]. rewrite Hol. destruct m as [|x r]; [done|].
      assert (Hhdr : bool_decide (off = 0) && is_hdr x = true) by congruence. rewrite (Hpl Hhdr).
      apply andb_true_iff in Hhdr as [->%bool_decide_eq_true Hx]. unfold want. case_match; [|done].
      pose proof (gd_hdr _ _ Hg) as Hall. eapply Forall_lookup_1 in Hall; [|exact Hi]. rewrite (Hall Hx). lia.
    + eexists _, s'. split; [done|]. split; [done|]. exists (cbytes (mb_get s) m). split; [by apply bytes_at_i|]. left.
      rewrite Hb', Hb, Hlen. done.
  - destruct (add_ok s s' chs [] [] Hg Hk Hu I eq_refl) as [Hg' Hb'].
    eexists _, s'. split; [done|]. split; [done|]. exists (cbytes (mb_get s) m). split; [by apply bytes_at_i|]. by right.
Qed.

Lemma call_adj s chs i n : good s chs -> call_ok s chs (CAdj i n) -> refines s chs (CAdj i n).
Proof.
  intros Hg [Hf [m Hi]]. pose proof (chain_len s chs i m Hg Hi) as Hlen. pose proof (chain_sound s chs i m Hg Hi) as Hs.
  destruct (m_adj_ok (mb_get s) m n Hs) as (m' & Hrun & Hs' & Hsc & Hb & Hl & Hh).
  unfold refines. cbn [do_call]. rewrite (bind_nonnull _ _ _ _ Hi), (bind_nonnull _ _ _ _ Hrun).
  destruct (chain_front s chs i m Hg Hi) as [[Hin Hp] _].
  assert (Hu : inuse s (m' ++ mjoin (delete i chs))).
  { split; [done|]. rewrite Permutation_app_swap_app in Hp |- *. apply (pool_same _ m); [done|done|].
    apply (Forall_impl _ _ _ Hs'). by intros ? []. }
  destruct (replace_ok s s chs i m m' (cbytes (mb_get s) m') Hg Hi (kept_refl _ s) Hu) as [Hg' Hb']; [|done|].
  { apply Hh. pose proof (gd_hdr _ _ Hg) as Hall. by eapply Forall_lookup_1 in Hall. }
  eexists _, s. split; [done|]. split; [done|]. exists (cbytes (mb_get s) m). split; [by apply bytes_at_i|].
  rewrite Hb', Hb, Hlen. done.
Qed.

Lemma call_cat s chs i j : good s chs -> call_ok s chs (CCat i j) -> refines s chs (CCat i j).
Proof.
  intros Hg [Hf (x & r & Hi & Hx & [n Hj])]. destruct (chain_front s chs i _ Hg Hi) as [[Hin Hp] Hff].
  specialize (Hff Hf). set (rest := mjoin (delete j (delete i chs))).
  assert (Hpm : held s ++ (x :: r) ++ mjoin (delete i chs) ≡ₚ (x :: r) ++ n ++ held s ++ rest).
  { rewrite (join_delete (delete i chs) j n Hj). unfold rest. solve_Permutation. }
  rewrite Hpm in Hp, Hff.
  destruct (m_cat_ok (mb_get s) (x :: r) n (held s ++ rest) ltac:(done) Hp Hff) as (m' & b & Hrun & Hp' & Hk & Hb & Hh & Hn).
  assert (Hu : inuse (mb_put b s) (mjoin (m' :: delete j (delete i chs)))).
  { split; [by apply own_put|]. rewrite mb_get_put, held_put. simpl. by rewrite Permutation_app_swap_app. }
  exists (m' :: delete j (delete i chs)), (mb_put b s). split; [|split].
  - cbn [do_call]. rewrite (bind_nonnull _ _ _ _ Hi), (bind_nonnull _ _ _ _ Hj). by rewrite (bind_run _ _ _ _ _ (mb_run _ s _ _ Hrun)).
  - split; [done| |rewrite mb_get_put, (kp_proto _ _ _ Hk); apply Hg]. constructor.
    + destruct m' as [|y q]; [done|]. destruct Hh as [(_ & Hfl & _) _]. intros Hy. unfold is_hdr in *. congruence.
    + by apply Forall_delete, Forall_delete, Hg.
  - exists (cbytes (mb_get s) (x :: r)), (cbytes (mb_get s) n). split; [by apply bytes_at_i|].
    unfold bytes_of. rewrite <- !fmap_delete. split; [by rewrite list_lookup_fmap, Hj|].
    rewrite mb_get_put, fmap_cons, Hb. f_equal. apply map_same. intros z Hz. apply (keeps_cbytes _ _ _ z Hk).
    apply in_join in Hz. unfold rest. set_solver.
Qed.

Lemma call_pullup s chs i n : good s chs -> call_ok s chs (CPullup i n) -> refines s chs (CPullup i n).
Proof.
  intros Hg [Hf (Hn & x & r & Hi)]. pose proof (chain_len s chs i _ Hg Hi) as Hlen.
  destruct (chain_front s chs i _ Hg Hi) as [Hu Hff].
  destruct (m_pullup_ok s x r _ n Hu (Hff Hf) Hn (gd_proto _ _ Hg)) as (out & s' & Hrun & Hk & Hres).
  unfold refines. cbn [do_call]. rewrite (bind_nonnull _ _ _ _ Hi), (bind_run _ _ _ _ _ Hrun).
  destruct Hres as [(Hu' & Hb & _ & y & q & -> & Hy & _ & Hyh & Hyp)|(-> & Hu' & Hwhy)].
  - destruct (replace_ok s s' chs i _ (y :: q) (cbytes (mb_get s') (y :: q)) Hg Hi Hk Hu') as [Hg' Hb']; [|done|].
    + intros Hh. rewrite Hyh in Hh. rewrite (Hyp Hh). pose proof (gd_hdr _ _ Hg) as Hall. eapply Forall_lookup_1 in Hall; [|exact Hi].
      rewrite (Hall Hh), <- Hlen, <- Hb. apply cbytes_len, (pool_sounds _ _ _ (proj2 Hu')). set_solver.
    + eexists _, s'. split; [done|]. split; [done|]. exists (cbytes (mb_get s) (x :: r)). split; [by apply bytes_at_i|]. left.
      rewrite Hb', Hb. apply list_insert_id. by apply bytes_at_i.
  - destruct (replace_ok s s' chs i _ [] [] Hg Hi Hk Hu' I eq_refl) as [Hg' Hb'].
    eexists _, s'. split; [done|]. split; [done|]. exists (cbytes (mb_get s) (x :: r)). split; [by apply bytes_at_i|]. right.
    split; [|done]. by rewrite Hlen.
Qed.

Lemma call_prepend s chs i n : good s chs -> call_ok s chs (CPrepend i n) -> refines s chs (CPrepend i n).
Proof.
  intros Hg [Hf (Hn & x & r & Hi)]. destruct (chain_front s chs i _ Hg Hi) as [Hu Hff].
  destruct (M_PREPEND_ok s x r _ n Hu (Hff Hf) Hn) as (out & s' & Hrun & Hk & Hres).
  unfold refines. cbn [do_call]. rewrite (bind_nonnull _ _ _ _ Hi), (bind_run _ _ _ _ _ Hrun).
  destruct Hres as [(Hu' & _ & [Hd Hh] & Hl & Hho)|(-> & Hu' & Hans)].
  - destruct (replace_ok s s' chs i _ out (cbytes (mb_get s') out) Hg Hi Hk Hu') as [Hg' Hb']; [|done|].
    + apply Hho. pose proof (gd_hdr _ _ Hg) as Hall. by eapply Forall_lookup_1 in Hall.
    + eexists _, s'. split; [done|]. split; [done|]. exists (cbytes (mb_get s) (x :: r)). split; [by apply bytes_at_i|]. left.
      exists (take (Z.to_nat n) (cbytes (mb_get s') out)). split; [|by rewrite Hb', <- Hd, take_drop].
      assert (Hs : Forall (sound (mb_get s')) out) by (apply (pool_sounds _ _ out (proj2 Hu')); set_solver).
      apply zlen_take. rewrite (cbytes_len _ _ Hs), Hl. pose proof (m_length_nonneg _ _ (chain_sound _ _ _ _ Hg Hi)). lia.
  - destruct (replace_ok s s' chs i _ [] [] Hg Hi Hk Hu' I eq_refl) as [Hg' Hb'].
    eexists _, s'. split; [done|]. split; [done|]. exists (cbytes (mb_get s) (x :: r)). split; [by apply bytes_at_i|]. by right.
Qed.

Lemma call_free s chs i : good s chs -> call_ok s chs (CFree i) -> refines s chs (CFree i).
Proof.
  intros Hg [Hf [m Hi]]. destruct (chain_front s chs i _ Hg Hi) as [Hu Hff].
  destruct (m_freem_run s m _ Hu (Hff Hf)) as (s' & Hrun & Hu' & Hk).
  exists (delete i chs), s'. split; [|split].
  - cbn [do_call]. by rewrite (bind_nonnull _ _ _ _ Hi), (bind_run _ _ _ _ _ Hrun).
  - split; [done|by apply Forall_delete, Hg|]. rewrite (kp_proto _ _ _ (kt_keeps _ _ _ Hk)). apply Hg.
  - split; [rewrite (bytes_at_i _ _ _ _ Hi); eauto|]. unfold bytes_of. rewrite <- fmap_delete. apply map_same.
    intros z Hz. apply (kept_cbytes _ _ _ _ Hk). by apply in_join.
Qed.

(** C28. Every call on chains of mbufs that keeps to its preconditions returns, and does to the byte
    strings of the chains what it promises: [m_copym] makes a chain of the bytes asked for,
    sharing clusters, [m_adj] trims at either end, [m_cat] joins, [m_pullup] changes nothing,
    M_PREPEND puts bytes in front - or, for those that allocate, nothing is left of the chain, only
    when MALLOC failed or, for [m_pullup], when the chain is shorter or the length more than an mbuf
    holds.  The chains of the other users keep their bytes, the lengths in the headers stay true,
    and the pool stays in order: counts of references and of types account for the mbufs in use,
    failures included, and no cluster in use is free.  [s] is the state of any owner of mbufs, the
    drain routines included, that keeps the laws of [DrainLaws]. *)
Theorem mbuf_call_refines s chs c : good s chs -> call_ok s chs c ->
  exists chs' s', do_call c chs s = Some (chs', s') /\ good s' chs' /\
    a_call (lacking s) c (bytes_of s chs) (bytes_of s' chs').
Proof.
  intros Hg. destruct c;
    [apply call_get|apply call_cluster|apply call_copy|apply call_adj|apply call_cat|apply call_pullup|apply call_prepend|apply call_free];
    done.
Qed.
End Theorems.

(** ** A count of references is a char *)

(** C38. [mclrefcnt] is an array of [char] and nothing stops at 256.  When 257 mbufs share a cluster,
    freeing one of them makes the count 0: the cluster goes on the free list although 256 mbufs
    still use it, and its first word, which is the data of those that start there, is overwritten
    by the link of the list. *)
Theorem mclrefcnt_wraps s m x l : pool s (m :: l) -> is_ext m = true -> nrefs (m_ext m) (m :: l) = 257 ->
  x ∈ l -> is_ext x = true -> m_ext x = m_ext m -> m_data x = 0 -> 4 <= m_len x ->
  exists s', MFREE m s = Some (tt, s') /\ mclfree s' = cl_addr s (m_ext m) /\ nrefs (m_ext m) l = 256 /\
    take 4 (mbytes s' x) = le32 (mclfree s).
Proof.
  intros [Ho Hc Hb] He Hn Hx Hxe Hxc Hxd Hxl. set (c := m_ext m) in *.
  assert (Hr : refcnt s c = 1) by (rewrite (cl_refs _ _ Hc), Hn; done).
  destruct (cl_known _ _ Hc c ltac:(lia)) as [b Hbc]. destruct (cl_size _ _ Hc _ _ Hbc) as [Hl Ha].
  unfold MFREE. rewrite count_type_run, bind_mod. set (s1 := type_stat _ _ _). rewrite He.
  assert (Hfree : MCLFREE c s1 = Some (tt, put_free c b (dec_ref c s1))).
  { unfold MCLFREE. change (add_ref c (-1)) with (kmod (dec_ref c)). rewrite bind_mod, bind_get.
    assert (Hz : refcnt (dec_ref c s1) c = 0).
    { unfold dec_ref, refcnt at 1. simpl. rewrite lookup_insert_eq. simpl. unfold refcnt in *. simpl. by rewrite Hr. }
    rewrite Hz. apply (free_cmd_run c (dec_ref c s1) b); [done|]. rewrite Hl. unfold MCLBYTES. lia. }
  rewrite (bind_run _ _ _ _ _ Hfree), bind_get. set (s2 := put_free c b (dec_ref c s1)).
  assert (Hend : forall s3, mcl_buf s3 = mcl_buf s2 -> mclfree s3 = mclfree s2 ->
    mclfree s3 = cl_addr s c /\ nrefs c l = 256 /\ take 4 (mbytes s3 x) = le32 (mclfree s)).
  { intros s3 H1 H2. split_and!; [by rewrite H2| |].
    - rewrite nrefs_cons in Hn. unfold ref1 in Hn. fold c in Hn. rewrite He, Z.eqb_refl in Hn. simpl in Hn. lia.
    - unfold mbytes, mbuffer. rewrite Hxe, Hxc, H1, Hxd. fold c. simpl. rewrite lookup_insert_eq. simpl.
      rewrite take_take, Nat.min_l by lia. done. }
  destruct (mtypes s2 MT_FREE <? MAX_MBFREE); eexists; (split; [done|by apply Hend]).
Qed.

(** [cltom] shifts to the right: it gives the start of the area, not of the cluster. *)
Lemma cltom_start s c : 0 <= mbutl s < 4294967296 -> 0 < c < 1024 -> cltom s c = mbutl s /\ cltom s c <> cl_addr s c.
Proof.
  intros Hm Hc. assert (H : cltom s c = mbutl s).
  { unfold cltom, u32. rewrite !(Z.mod_small c), Z.shiftr_div_pow2 by lia. change (2 ^ 10) with 1024.
    rewrite (Z.div_small c), Z.add_0_r, !Z.mod_small by (rewrite ?Z.mod_small; lia). done. }
  split; [done|]. rewrite H. unfold cl_addr, MCLBYTES. lia.
Qed.

(** ** Mbufs that share one cluster *)

#[export] Instance mbst_mbufs : HasMbufs mbst := {| mb_get := id; mb_put b _ := b |}.
#[export] Instance mbst_drains : Drains mbst := kret tt.
#[export, refine] Instance mbst_laws : DrainLaws mbst := {| held _ := []; own_inv _ := True |}.
Proof. all: try done. intros s l _ Hp Hf. exists s. split_and!; try done. Defined.

Definition sharer : mbuf := Mbuf MT_DATA M_EXT 0 1024 (Pkthdr 0 None) 0 (replicate 108 0).
Definition sevens : list Z := replicate 1024 7.
Definition shared (n : nat) : mbst :=
  Mbst {[0 := s8 (Z.of_nat n)]} {[0 := sevens]} 0 4096 [] (Mbstat 1 0 0 {[MT_DATA := u16 (Z.of_nat n)]}) 0 0 0 40 [] [].

Lemma total_replicate f n x : total f (replicate n x) = Z.of_nat n * f x.
Proof. induction n as [|n IH]; [done|]. simpl replicate. simpl total. rewrite IH. lia. Qed.

Lemma shared_refs c n : nrefs c (replicate n sharer) = if decide (c = 0) then Z.of_nat n else 0.
Proof.
  unfold nrefs. rewrite total_replicate. change (ref1 c sharer) with (if 0 =? c then 1 else 0).
  destruct (Z.eqb_spec 0 c); case_decide; lia.
Qed.
Lemma shared_types t n : ntype t (replicate n sharer) = if decide (t = MT_DATA) then Z.of_nat n else 0.
Proof.
  unfold ntype. rewrite total_replicate. change (typ1 t sharer) with (if MT_DATA =? t then 1 else 0).
  destruct (Z.eqb_spec MT_DATA t); case_decide; try congruence; lia.
Qed.

Lemma shared_pool n : pool (shared n) (replicate n sharer).
Proof.
  split.
  - apply Forall_replicate. by split.
  - split; try done.
    + intros c. rewrite shared_refs. unfold refcnt, shared. simpl. case_decide as E; [subst; by rewrite lookup_singleton_eq|].
      by rewrite lookup_singleton_ne.
    + intros c. rewrite shared_refs. simpl. case_decide as E; [subst|lia]. rewrite lookup_singleton_eq. eauto.
    + intros c b. simpl. rewrite lookup_singleton_Some. intros [<- <-]. done.
    + exists []. split_and!; [done|constructor|by intros c ?%elem_of_nil|done].
    + cbn [kmem_ans shared]. split_and!; [constructor|by intros c p ?%elem_of_nil|by intros c ?%elem_of_nil].
  - split.
    + intros t Ht. rewrite shared_types. unfold mtypes, shared. simpl. case_decide as E; [subst; by rewrite lookup_singleton_eq|].
      by rewrite lookup_singleton_ne.
    + split_and!; first [done|constructor].
    + by intros m ?%elem_of_nil.
Qed.

Lemma mclrefcnt_wraps_witness : exists s', MFREE sharer (shared 257) = Some (tt, s') /\ mclfree s' = 4096 /\
  nrefs 0 (replicate 256 sharer) = 256 /\ take 4 (mbytes s' sharer) = [0; 0; 0; 0].
Proof.
  apply (mclrefcnt_wraps (shared 257) sharer sharer (replicate 256 sharer)).
  - apply (shared_pool 257).
  - reflexivity.
  - reflexivity.
  - apply elem_of_replicate. split; [reflexivity|lia].
  - reflexivity.
  - reflexivity.
  - reflexivity.
  - vm_compute. discriminate.
Defined.

Lemma mbuf_call_refines_witness : exists chs' s', do_call (CCopy 0 2 3) [[sharer]] (shared 1) = Some (chs', s') /\ good s' chs' /\
  a_call (lacking (shared 1)) (CCopy 0 2 3) (bytes_of (shared 1) [[sharer]]) (bytes_of s' chs').
Proof.
  apply mbuf_call_refines.
  - split; [split; [exact I|apply (shared_pool 1)]|constructor; [intros H; discriminate H|constructor]|vm_compute; split; [discriminate|reflexivity]].
  - assert (Hn : forall c, nrefs c [sharer] <= 1).
    { intros c. pose proof (shared_refs c 1) as H. simpl in H. rewrite H. case_decide; lia. }
    split; [intros c; specialize (Hn c); simpl; lia|].
    exists [sharer]. split; [reflexivity|]. split; [discriminate|]. split; [lia|]. split; [lia|].
    split; [vm_compute; reflexivity|]. split; [vm_compute; split; discriminate|].
    intros c. specialize (Hn c). simpl. lia.
Defined.

(** ** Plain mbufs *)

(** An mbuf with a packet header and the bytes [bs]. *)
Definition plain (bs : list Z) : mbuf :=
  Mbuf MT_DATA M_PKTHDR 8 (zlen bs) (Pkthdr (zlen bs) None) 0 (replicate 8 0 ++ bs ++ replicate (100 - length bs) 0).
Definition plain_mb (n : nat) : mbst := Mbst ∅ ∅ 0 4096 [] (Mbstat 0 0 0 {[MT_DATA := u16 (Z.of_nat n)]}) 0 0 0 40 [] [].

Lemma plain_pool bss : Forall (fun bs => zlen bs <= 100) bss -> pool (plain_mb (length bss)) (plain <$> bss) /\ few (plain <$> bss).
Proof.
  intros Hb. assert (Hr : forall c, nrefs c (plain <$> bss) = 0) by (intros c; clear; induction bss as [|bs bss IH]; [done|by rewrite fmap_cons, nrefs_cons, IH]).
  assert (Ht : forall t, ntype t (plain <$> bss) = if decide (t = MT_DATA) then zlen bss else 0).
  { intros t. clear. unfold ntype, zlen. induction bss as [|bs bss IH]; [simpl; by case_decide|]. rewrite fmap_cons. cbn [total]. rewrite IH. unfold typ1. simpl m_type.
    destruct (Z.eqb_spec MT_DATA t); case_decide; try congruence; simpl length; lia. }
  split; [|intros c; rewrite Hr; lia]. split.
  - apply Forall_fmap, (Forall_impl _ _ _ Hb). intros bs Hbs. unfold zlen in *. split; [done| |simpl; unfold zlen; lia|done|].
    + unfold zlen, MLEN. simpl. rewrite length_app, length_replicate. lia.
    + change (m_limit (plain bs)) with 108. simpl. unfold zlen. lia.
  - split; try done.
    + intros c. by rewrite Hr.
    + intros c. rewrite Hr. lia.
    + exists []. split_and!; [done|constructor|by intros c ?%elem_of_nil|done].
    + cbn [kmem_ans plain_mb]. split_and!; [constructor|by intros c p ?%elem_of_nil|by intros c ?%elem_of_nil].
  - split.
    + intros t _. rewrite Ht. unfold mtypes, plain_mb. simpl. case_decide as E; [subst; by rewrite lookup_singleton_eq|by rewrite lookup_singleton_ne].
    + split_and!; first [done|constructor].
    + by intros m ?%elem_of_nil.
Qed.
