(* ===== verification/Sockbuf.v ===== *)
(** * Socket buffers (sys/kern/uipc_socket2.c, sys/sys/socketvar.h)

    The queue of records of a socket: its data in mbufs, the counts of bytes and of the memory of
    the mbufs, and the limits of both.  The records are a list, each the chain of its mbufs; the
    fields for [select] and for processes that wait are left out.  [ext_size] is that of a
    cluster.  Where the loops go over [m_next] and [m_nextpkt] the lists are followed, and the
    fuel of [sbdrop] and [sbflush] is the number of mbufs and records, plus one. *)

From S2P Require Import Prelude Mbuf.
Local Open Scope kern_scope.

Definition MSIZE := 128.
Definition MT_SONAME := 8.
Definition MT_CONTROL := 14.
Definition MT_OOBDATA := 15.
Definition SB_LOCK := 1.

(** sys/sys/socketvar.h:78-87, [struct sockbuf]: [sb_mb] are the records, which [m_nextpkt] links. *)
Record sockbuf := Sockbuf {
  sb_cc : Z; sb_hiwat : Z; sb_mbcnt : Z; sb_mbmax : Z; sb_lowat : Z; sb_mb : list (list mbuf); sb_flags : Z }.

Definition with_mb (v : list (list mbuf)) sb := Sockbuf (sb_cc sb) (sb_hiwat sb) (sb_mbcnt sb) (sb_mbmax sb) (sb_lowat sb) v (sb_flags sb).
Definition with_cc v sb := Sockbuf v (sb_hiwat sb) (sb_mbcnt sb) (sb_mbmax sb) (sb_lowat sb) (sb_mb sb) (sb_flags sb).
Definition with_mbcnt v sb := Sockbuf (sb_cc sb) (sb_hiwat sb) v (sb_mbmax sb) (sb_lowat sb) (sb_mb sb) (sb_flags sb).
Definition with_limits h m sb := Sockbuf (sb_cc sb) h (sb_mbcnt sb) m (sb_lowat sb) (sb_mb sb) (sb_flags sb).
Definition with_lowat v sb := Sockbuf (sb_cc sb) (sb_hiwat sb) (sb_mbcnt sb) (sb_mbmax sb) v (sb_mb sb) (sb_flags sb).

(** sys/sys/socketvar.h:127-129, [sbspace]. *)
Definition sbspace (sb : sockbuf) : Z := Z.min (s32 (sb_hiwat sb - sb_cc sb)) (s32 (sb_mbmax sb - sb_mbcnt sb)).

(** The memory of an mbuf: itself and its cluster. *)
Definition mspace (m : mbuf) : Z := MSIZE + (if is_ext m then MCLBYTES else 0).

(** sys/sys/socketvar.h:150-155, [sballoc]. *)
Definition sballoc (m : mbuf) (sb : sockbuf) : sockbuf :=
  let sb := with_cc (u32 (sb_cc sb + m_len m)) sb in
  let sb := with_mbcnt (u32 (sb_mbcnt sb + MSIZE)) sb in
  if is_ext m then with_mbcnt (u32 (sb_mbcnt sb + MCLBYTES)) sb else sb.

(** sys/sys/socketvar.h:158-163, [sbfree]. *)
Definition sbfree (m : mbuf) (sb : sockbuf) : sockbuf :=
  let sb := with_cc (u32 (sb_cc sb - m_len m)) sb in
  let sb := with_mbcnt (u32 (sb_mbcnt sb - MSIZE)) sb in
  if is_ext m then with_mbcnt (u32 (sb_mbcnt sb - MCLBYTES)) sb else sb.

Definition is_eor (m : mbuf) : bool := flag_set (m_flags m) M_EOR.
Definition clear_eor (m : mbuf) : mbuf := set_flags (Z.land (m_flags m) (Z.lnot M_EOR)) m.
Definition mark_eor (m : mbuf) : mbuf := set_flags (Z.lor (m_flags m) M_EOR) m.
Definition on_last (f : mbuf -> mbuf) (c : list mbuf) : list mbuf :=
  match last c with Some n => removelast c ++ [f n] | None => [] end.

(** ** Putting in *)

(** sys/kern/uipc_socket2.c:666-669, [sbcompress]: the empty mbuf [x], followed by [r], after the
    chain [c], is not needed. *)
Definition useless (eor : bool) (x : mbuf) (r c : list mbuf) : bool :=
  (m_len x =? 0) &&
  (negb eor || match (match r with o :: _ => Some o | [] => last c end) with Some o => m_type o =? m_type x | None => false end).

(** sys/kern/uipc_socket2.c:673-675, [sbcompress]: the data of [x] has room in [n]. *)
Definition fits (n x : mbuf) : bool :=
  (Z.land (m_flags n) (Z.lor M_EXT M_EOR) =? 0) && (m_data n + m_len n + m_len x <? MLEN) && (m_type n =? m_type x).

(** sys/kern/uipc_socket2.c:664-692, [sbcompress]: the loop; [c] is the chain that ends in [n]. *)
Fixpoint compress_loop (m c : list mbuf) (eor : bool) (sb : sockbuf) : K mbst (list mbuf * bool * sockbuf) :=
  match m with
  | [] => kret (c, eor, sb)
  | x :: r =>
      let eor := eor || is_eor x in
      if useless eor x r c then do! MFREE x in compress_loop r c eor sb
      else
        let link := compress_loop r (c ++ [clear_eor x]) eor (sballoc x sb) in
        match last c with
        | None => link
        | Some n =>
            if fits n x then
              let! w := bytes_at x 0 (m_len x) in
              let! n := knonnull (put_at n (m_len n) w) in
              do! MFREE x in
              compress_loop r (removelast c ++ [set_len (m_len n + m_len x) n]) eor (with_cc (u32 (sb_cc sb + m_len x)) sb)
            else link
        end
  end.

(** sys/kern/uipc_socket2.c:657-699, [sbcompress]: the chain [m] after the chain [c], which is the
    record, empty for none. *)
Definition sbcompress (sb : sockbuf) (m c : list mbuf) : K mbst (list mbuf * sockbuf) :=
  let! (c, eor, sb) := compress_loop m c false sb in
  kret (if eor then on_last mark_eor c else c, sb).

(** sys/kern/uipc_socket2.c:516-527, [sbappendrecord]: the chain [m0] as a record. *)
Definition new_record (sb : sockbuf) (m0 : list mbuf) : K mbst (list mbuf * sockbuf) :=
  match m0 with
  | [] => kpanic
  | x :: r =>
      let sb := sballoc x sb in
      match r with
      | y :: r => if is_eor x then sbcompress sb (mark_eor y :: r) [clear_eor x] else sbcompress sb (y :: r) [x]
      | [] => sbcompress sb [] [x]
      end
  end.

(** sys/kern/uipc_socket2.c:501-528, [sbappendrecord]. *)
Definition sbappendrecord (sb : sockbuf) (m0 : list mbuf) : K mbst sockbuf :=
  match m0 with
  | [] => kret sb
  | _ => let! (c, sb) := new_record sb m0 in kret (with_mb (sb_mb sb ++ [c]) sb)
  end.

(** sys/kern/uipc_socket2.c:453-472, [sbappend]. *)
Definition sbappend (sb : sockbuf) (m : list mbuf) : K mbst sockbuf :=
  match m with
  | [] => kret sb
  | _ =>
      match last (sb_mb sb) with
      | None => let! (c, sb) := sbcompress sb m [] in kret (with_mb (match c with [] => [] | _ => [c] end) sb)
      | Some n =>
          if existsb is_eor n then sbappendrecord sb m
          else let! (c, sb) := sbcompress sb m n in kret (with_mb (removelast (sb_mb sb) ++ [c]) sb)
      end
  end.

(** sys/kern/uipc_socket2.c:544-556, [sbinsertoob]: a record that begins with out-of-band data,
    after control mbufs. *)
Fixpoint is_oob (m : list mbuf) : bool :=
  match m with
  | [] => false
  | x :: r => if m_type x =? MT_OOBDATA then true else if m_type x =? MT_CONTROL then is_oob r else false
  end.
Fixpoint oob_records (rs : list (list mbuf)) : nat :=
  match rs with r :: rs => if is_oob r then S (oob_records rs) else 0%nat | [] => 0%nat end.

(** sys/kern/uipc_socket2.c:535-571, [sbinsertoob]. *)
Definition sbinsertoob (sb : sockbuf) (m0 : list mbuf) : K mbst sockbuf :=
  match m0 with
  | [] => kret sb
  | _ =>
      let k := oob_records (sb_mb sb) in
      let! (c, sb) := new_record sb m0 in kret (with_mb (take k (sb_mb sb) ++ c :: drop k (sb_mb sb)) sb)
  end.

(** sys/kern/uipc_socket2.c:610-611, [sbappendaddr]: the loop; [sbappendcontrol] has the same. *)
Definition sballocs (m : list mbuf) (sb : sockbuf) : sockbuf := foldl (fun sb x => sballoc x sb) sb m.
(** sys/kern/uipc_socket2.c:591-595, [sbappendaddr]: the bytes of a chain are added in an int;
    [sbappendcontrol] has the same loops. *)
Definition lens (m : list mbuf) (space : Z) : Z := foldl (fun space x => s32 (space + m_len x)) space m.

(** sys/kern/uipc_socket2.c:621-650, [sbappendcontrol]: the buffer and the answer. *)
Definition sbappendcontrol (sb : sockbuf) (m0 control : list mbuf) : option (sockbuf * bool) :=
  match control with
  | [] => None
  | _ =>
      if sbspace sb <? lens m0 (lens control 0) then Some (sb, false)
      else let sb := sballocs (control ++ m0) sb in Some (with_mb (sb_mb sb ++ [control ++ m0]) sb, true)
  end.

Section Drain.
Context {S : Type} `{!HasMbufs S, !Drains S}.

(** sys/kern/uipc_socket2.c:579-619, [sbappendaddr]: the address [asa], whose first byte is its length. *)
Definition sbappendaddr (sb : sockbuf) (asa : list Z) (m0 control : list mbuf) : K S (sockbuf * bool) :=
  let! sa_len := knonnull (head asa) in
  let! space := match m0 with
                | [] => kret sa_len
                | x :: _ => if is_hdr x then kret (s32 (sa_len + len (m_pkthdr x))) else kpanic
                end in
  if sbspace sb <? lens control space then kret (sb, false)
  else if MLEN <? sa_len then kret (sb, false)
  else
    let! o := MGET MT_SONAME in
    match o with
    | None => kret (sb, false)
    | Some m =>
        let! w := knonnull (slice asa 0 sa_len) in
        let! m := knonnull (put_at (set_len sa_len m) 0 w) in
        let c := m :: control ++ m0 in
        let sb := sballocs c sb in
        kret (with_mb (sb_mb sb ++ [c]) sb, true)
    end.
End Drain.

(** ** Taking out *)

(** sys/kern/uipc_socket2.c:728-746, [sbdrop]: the first loop; [m] is what is left of the record,
    [next] are the others. *)
Fixpoint drop_loop (fuel : nat) (len : Z) (m : list mbuf) (next : list (list mbuf)) (sb : sockbuf) : K mbst (list mbuf * list (list mbuf) * sockbuf) :=
  match fuel with
  | O => kpanic
  | S fuel =>
      if 0 <? len then
        match m with
        | [] => match next with [] => kpanic | m :: next => drop_loop fuel len m next sb end
        | x :: r =>
            if len <? m_len x then
              kret (set_data (m_data x + len) (set_len (m_len x - len) x) :: r, next, with_cc (u32 (sb_cc sb - len)) sb)
            else do! MFREE x in drop_loop fuel (len - m_len x) r next (sbfree x sb)
        end
      else kret (m, next, sb)
  end.

(** sys/kern/uipc_socket2.c:747-751, [sbdrop]: the empty mbufs that come next. *)
Fixpoint drop_empty (m : list mbuf) (sb : sockbuf) : K mbst (list mbuf * sockbuf) :=
  match m with
  | x :: r => if m_len x =? 0 then do! MFREE x in drop_empty r (sbfree x sb) else kret (m, sb)
  | [] => kret ([], sb)
  end.

(** sys/kern/uipc_socket2.c:720-757, [sbdrop]. *)
Definition sbdrop (sb : sockbuf) (len : Z) : K mbst sockbuf :=
  let '(m, next) := match sb_mb sb with m :: next => (m, next) | [] => ([], []) end in
  let! (m, next, sb) := drop_loop (S (length m + length (mjoin next) + length next)) len m next sb in
  let! (m, sb) := drop_empty m sb in
  kret (with_mb (match m with [] => next | _ => m :: next end) sb).

(** sys/kern/uipc_socket2.c:711-712, [sbflush]: the loop. *)
Fixpoint flush_loop (fuel : nat) (sb : sockbuf) : K mbst sockbuf :=
  match fuel with
  | O => kpanic
  | S fuel => if ztrue (sb_mbcnt sb) then let! sb := sbdrop sb (s32 (sb_cc sb)) in flush_loop fuel sb else kret sb
  end.

(** sys/kern/uipc_socket2.c:705-715, [sbflush]. *)
Definition sbflush (sb : sockbuf) : K mbst sockbuf :=
  if flag_set (sb_flags sb) SB_LOCK then kpanic
  else
    let! sb := flush_loop (S (length (sb_mb sb))) sb in
    if ztrue (sb_cc sb) || match sb_mb sb with [] => false | _ => true end then kpanic else kret sb.

(** sys/kern/uipc_socket2.c:771-774, [sbdroprecord]: the loop. *)
Fixpoint free_record (m : list mbuf) (sb : sockbuf) : K mbst sockbuf :=
  match m with x :: r => do! MFREE x in free_record r (sbfree x sb) | [] => kret sb end.

(** sys/kern/uipc_socket2.c:763-776, [sbdroprecord]. *)
Definition sbdroprecord (sb : sockbuf) : K mbst sockbuf :=
  match sb_mb sb with
  | m :: next => free_record m (with_mb next sb)
  | [] => kret sb
  end.

(** ** Limits *)

Section Max.
Context (sb_max : Z).

(** sys/kern/uipc_socket2.c:397-409, [sbreserve]: the buffer and the answer. *)
Definition sbreserve (sb : sockbuf) (cc : Z) : sockbuf * bool :=
  if u32 (sb_max * MCLBYTES) / (MSIZE + MCLBYTES) <? cc then (sb, false)
  else
    let sb := with_limits cc (Z.min (u32 (cc * 2)) sb_max) sb in
    (if sb_hiwat sb <? u32 (sb_lowat sb) then with_lowat (s32 (sb_hiwat sb)) sb else sb, true).

(** sys/kern/uipc_socket2.c:414-420, [sbrelease]. *)
Definition sbrelease (sb : sockbuf) : K mbst sockbuf := let! sb := sbflush sb in kret (with_limits 0 0 sb).

(** sys/kern/uipc_socket2.c:370-390, [soreserve]: the buffers of a socket and the answer. *)
Definition soreserve (snd rcv : sockbuf) (sndcc rcvcc : Z) : K mbst (sockbuf * sockbuf * bool) :=
  let (snd, ok) := sbreserve snd sndcc in
  if negb ok then kret (snd, rcv, false)
  else
    let (rcv, ok) := sbreserve rcv rcvcc in
    if negb ok then let! snd := sbrelease snd in kret (snd, rcv, false)
    else
      let rcv := if sb_lowat rcv =? 0 then with_lowat 1 rcv else rcv in
      let snd := if sb_lowat snd =? 0 then with_lowat MCLBYTES snd else snd in
      let snd := if sb_hiwat snd <? u32 (sb_lowat snd) then with_lowat (s32 (sb_hiwat snd)) snd else snd in
      kret (snd, rcv, true).
End Max.
