(* ===== verification/SockbufOps.v ===== *)
(** * Socket buffers: the routines on records

    What a record stands for - its bytes, each with the type of its mbuf, and whether it has
    ended - and what [sbcompress] and the loops of [sbdrop] and [sbflush] do to the records, the
    counts and the pool of mbufs. *)

From S2P Require Import Prelude Mbuf MbufSpec MbufOps MbufCopy Sockbuf.
Local Open Scope kern_scope.

(** ** What is in a record *)

Definition tagged (b : mbst) (m : mbuf) : list (Z * Z) := (fun x => (m_type m, x)) <$> mbytes b m.
Definition rbytes (b : mbst) (c : list mbuf) : list (Z * Z) := mjoin (tagged b <$> c).
Definition ended (c : list mbuf) : bool := existsb is_eor c.

Lemma rbytes_cons b m c : rbytes b (m :: c) = tagged b m ++ rbytes b c.
Proof. done. Qed.
Lemma rbytes_app b c d : rbytes b (c ++ d) = rbytes b c ++ rbytes b d.
Proof. unfold rbytes. by rewrite fmap_app, join_app. Qed.
Lemma rbytes_one b m : rbytes b [m] = tagged b m.
Proof. apply app_nil_r. Qed.
Lemma rbytes_untag b c : snd <$> rbytes b c = cbytes b c.
Proof.
  induction c as [|m c IH]; [done|]. rewrite rbytes_cons, cbytes_cons, fmap_app, IH. f_equal. unfold tagged.
  rewrite <- list_fmap_compose. apply list_fmap_id.
Qed.
Lemma tagged_len b m : sound b m -> zlen (tagged b m) = m_len m.
Proof. intros Hm. rewrite <- (mbytes_len b m Hm). unfold tagged, zlen. by rewrite length_fmap. Qed.
Lemma rbytes_len b c : Forall (sound b) c -> zlen (rbytes b c) = m_length c.
Proof. induction 1 as [|m c Hm _ IH]; [done|]. rewrite rbytes_cons, zlen_app, IH, tagged_len by done. done. Qed.
Lemma tagged_keeps l b b' m : keeps l b b' -> m ∈ l -> tagged b' m = tagged b m.
Proof. intros Hk Hm. unfold tagged. by rewrite (keeps_bytes _ _ _ _ Hk). Qed.
Lemma rbytes_keeps l b b' c : keeps l b b' -> c ⊆ l -> rbytes b' c = rbytes b c.
Proof.
  intros Hk Hc. unfold rbytes. f_equal. apply list_fmap_ext. intros i m Hm%list_elem_of_lookup_2. apply (tagged_keeps l); [done|]. by apply Hc.
Qed.
Lemma ended_app c d : ended (c ++ d) = ended c || ended d.
Proof. apply existsb_app. Qed.

(** The same data and type, whatever the flags. *)
Lemma tagged_flags b m f : flag_set f M_EXT = is_ext m -> tagged b (set_flags f m) = tagged b m.
Proof. intros Hf. unfold tagged, mbytes, mbuffer, is_ext in *. simpl. by rewrite Hf. Qed.

Lemma land_ext f : flag_set (Z.land f (Z.lnot M_EOR)) M_EXT = flag_set f M_EXT.
Proof. unfold flag_set. by rewrite <- Z.land_assoc. Qed.
Lemma lor_ext f : flag_set (Z.lor f M_EOR) M_EXT = flag_set f M_EXT.
Proof. unfold flag_set. rewrite Z.land_lor_distr_l. by rewrite Z.lor_0_r. Qed.
Lemma lor_hdr f : flag_set (Z.lor f M_EOR) M_PKTHDR = flag_set f M_PKTHDR.
Proof. unfold flag_set. rewrite Z.land_lor_distr_l. by rewrite Z.lor_0_r. Qed.
Lemma land_hdr f : flag_set (Z.land f (Z.lnot M_EOR)) M_PKTHDR = flag_set f M_PKTHDR.
Proof. unfold flag_set. by rewrite <- Z.land_assoc. Qed.
Lemma clear_eor_not m : is_eor (clear_eor m) = false.
Proof. unfold is_eor, clear_eor, flag_set. simpl. by rewrite <- Z.land_assoc, Z.land_0_r. Qed.
Lemma mark_eor_is m : is_eor (mark_eor m) = true.
Proof.
  unfold is_eor, mark_eor, flag_set, ztrue. simpl. apply negb_true_iff, Z.eqb_neq. rewrite Z.land_lor_distr_l.
  by intros [_ H]%Z.lor_eq_0_iff.
Qed.

(** Flags that leave the place of the data change nothing else. *)
Definition same_place (f : Z) (m : mbuf) : Prop := flag_set f M_EXT = is_ext m /\ flag_set f M_PKTHDR = is_hdr m.

Lemma pool_flags b m f l : pool b (m :: l) -> same_place f m -> pool b (set_flags f m :: l).
Proof.
  intros Hp [He Hh]. apply (pool_edit b m); try done. assert (Hm : mok m) by (destruct Hp as [Ho _ _]; by apply Forall_cons in Ho as [? _]).
  destruct Hm. split; try done; unfold m_start, m_limit, is_ext, is_hdr in *; simpl; by rewrite ?He, ?Hh.
Qed.
Lemma clear_place m : same_place (Z.land (m_flags m) (Z.lnot M_EOR)) m.
Proof. split; [apply land_ext|apply land_hdr]. Qed.
Lemma mark_place m : same_place (Z.lor (m_flags m) M_EOR) m.
Proof. split; [apply lor_ext|apply lor_hdr]. Qed.

(** ** The counts *)

Definition space (c : list mbuf) : Z := total mspace c.
Lemma mspace_pos m : MSIZE <= mspace m.
Proof. unfold mspace, MCLBYTES. destruct (is_ext m); lia. Qed.
Lemma space_grows m c : space c <= space (m :: c).
Proof. change (space (m :: c)) with (mspace m + space c). pose proof (mspace_pos m). unfold MSIZE in *. lia. Qed.
Definition books (sb : sockbuf) (x y : Z) : Prop := sb_cc sb = u32 x /\ sb_mbcnt sb = u32 y.
(** All that is not a count. *)
Definition others (sb : sockbuf) := (sb_hiwat sb, sb_mbmax sb, sb_lowat sb, sb_mb sb, sb_flags sb).

Lemma books_eq sb x y x' y' : books sb x y -> x' = x -> y' = y -> books sb x' y'.
Proof. by intros H -> ->. Qed.
Lemma u32_sub a d : u32 (u32 a - d) = u32 (a - d).
Proof. unfold u32. by rewrite Zminus_mod_idemp_l. Qed.
Lemma sballoc_books m sb x y : books sb x y -> books (sballoc m sb) (x + m_len m) (y + mspace m).
Proof.
  intros [H1 H2]. unfold books, sballoc, mspace. destruct (is_ext m); simpl; rewrite H1, H2, (u32_add x), (u32_add y), ?u32_add; (split; [done|f_equal; lia]).
Qed.
Lemma sbfree_books m sb x y : books sb x y -> books (sbfree m sb) (x - m_len m) (y - mspace m).
Proof.
  intros [H1 H2]. unfold books, sbfree, mspace. destruct (is_ext m); simpl; rewrite H1, H2, (u32_sub x), (u32_sub y), ?u32_sub; (split; [done|f_equal; lia]).
Qed.
Lemma sballoc_others m sb : others (sballoc m sb) = others sb.
Proof. unfold sballoc. by destruct (is_ext m). Qed.
Lemma sbfree_others m sb : others (sbfree m sb) = others sb.
Proof. unfold sbfree. by destruct (is_ext m). Qed.
Lemma space_app c d : space (c ++ d) = space c + space d.
Proof. apply total_app. Qed.
Lemma space_cons m c : space (m :: c) = mspace m + space c.
Proof. done. Qed.
Lemma m_length_perm c d : c ≡ₚ d -> m_length c = m_length d.
Proof. induction 1; simpl; lia. Qed.

(** ** sbcompress *)

Lemma last_snoc_split (c : list mbuf) n : last c = Some n -> exists c0, c = c0 ++ [n] /\ removelast c = c0.
Proof. intros (c0 & ->)%last_Some. exists c0. split; [done|]. apply removelast_last. Qed.

Lemma fits_spec n x : fits n x = true -> is_ext n = false /\ is_eor n = false /\ m_data n + m_len n + m_len x < MLEN /\ m_type n = m_type x.
Proof.
  unfold fits. intros [[H1 H2]%andb_true_iff H3]%andb_true_iff. apply Z.eqb_eq in H1, H3. apply Z.ltb_lt in H2.
  rewrite Z.land_lor_distr_r in H1. apply Z.lor_eq_0_iff in H1 as [H4 H5]. unfold is_ext, is_eor, flag_set. by rewrite H4, H5.
Qed.

(** The chain [c'] has taken up the chain [m] after [c]. *)
Record took (b : mbst) (m c l : list mbuf) (X Y : Z) (sb : sockbuf) (b' : mbst) (c' : list mbuf) (sb' : sockbuf) : Prop := {
  tk_pool : pool b' (c' ++ l);
  tk_keeps : keeps l b b';
  tk_bytes : rbytes b' c' = rbytes b c ++ rbytes b m;
  tk_open : ended c' = false;
  tk_books : books sb' (X + m_length c') (Y + space c');
  tk_others : others sb' = others sb;
  tk_refs : forall x, nrefs x c' <= nrefs x c + nrefs x m }.

(** An mbuf that is not needed is freed. *)
Lemma free_one b x r l : pool b (x :: r ++ l) -> few (x :: r ++ l) ->
  exists b', MFREE x b = Some (tt, b') /\ pool b' (r ++ l) /\ keeps (r ++ l) b b' /\ few (r ++ l).
Proof. intros Hp Hf. destruct (MFREE_ok b x (r ++ l) Hp Hf) as (b' & H1 & H2 & H3). exists b'. split_and!; try done. by apply few_cons in Hf. Qed.

(** The data of [x] goes to the end of [n]. *)
Lemma merge_one b n x l : pool b (n :: x :: l) -> fits n x = true ->
  exists n', bytes_at x 0 (m_len x) b = Some (mbytes b x, b) /\ put_at n (m_len n) (mbytes b x) = Some n' /\
    let n2 := set_len (m_len n + m_len x) n' in
    pool b (x :: n2 :: l) /\ tagged b n2 = tagged b n ++ tagged b x /\ same1 n n2 /\ m_len n' = m_len n.
Proof.
  intros Hp (He & _ & Hl & Ht)%fits_spec. assert (Hx : sound b x) by (apply (pool_sound b _ x Hp); set_solver).
  pose proof (mo_len _ (sd_ok _ _ Hx)). pose proof (mbytes_len b x Hx) as Hlx.
  destruct (append_ok b n (x :: l) (mbytes b x) Hp He ltac:(lia)) as (n' & Hput & Hp2 & Hb & Hsf & Hln). cbv zeta in *. rewrite Hlx in *.
  exists n'. split_and!; [|done|by rewrite Permutation_swap| |apply Hsf|done].
  - rewrite (bytes_at_run b x 0 (m_len x) Hx) by lia. by rewrite (drop_none _ 0), take_all by lia.
  - unfold tagged. rewrite Hb, fmap_app. destruct Hsf as [(Hty & _) _]. simpl in Hty. simpl. by rewrite Hty, Ht.
Qed.

Lemma space_same n n2 : same1 n n2 -> mspace n2 = mspace n.
Proof. intros H. unfold mspace. by rewrite (same1_ext n n2 H). Qed.
Lemma eor_same n n2 : same1 n n2 -> is_eor n2 = is_eor n.
Proof. intros (_ & H & _). unfold is_eor. by rewrite H. Qed.

Lemma link_one b x c r l : pool b (x :: c ++ r ++ l) ->
  pool b (r ++ (c ++ [clear_eor x]) ++ l) /\ tagged b (clear_eor x) = tagged b x /\ same_place (m_flags (clear_eor x)) x.
Proof.
  intros Hp. split_and!; [|by apply tagged_flags, clear_place|apply clear_place].
  apply (pool_flags b x (Z.land (m_flags x) (Z.lnot M_EOR))) in Hp; [|apply clear_place]. change (set_flags _ x) with (clear_eor x) in Hp.
  assert (Hperm : clear_eor x :: c ++ r ++ l ≡ₚ r ++ (c ++ [clear_eor x]) ++ l) by solve_Permutation. by rewrite <- Hperm.
Qed.
Lemma ref_place x y : m_ext y = m_ext x -> is_ext y = is_ext x -> forall k, ref1 k y = ref1 k x.
Proof. intros H1 H2 k. unfold ref1. by rewrite H1, H2. Qed.

(** The empty chain stays empty when nothing is in [m]. *)
Definition vanishes (m c : list mbuf) (eor : bool) : Prop := c = [] /\ m_length m = 0 /\ (eor || ended m = false \/ m = []).

Lemma took_free b b1 x r c l X Y sb b' c' sb' : keeps (c ++ r ++ l) b b1 -> sound b x -> m_len x = 0 ->
  took b1 r c l X Y sb b' c' sb' -> took b (x :: r) c l X Y sb b' c' sb'.
Proof.
  intros Hk Hx Hlen [T1 T2 T3 T4 T5 T6 T7]. split; try done.
  - eapply keeps_trans; [|exact T2]. eapply keeps_sub; [|exact Hk]. intros k. rewrite !nrefs_app. pose proof (nrefs_nonneg k c). pose proof (nrefs_nonneg k r). lia.
  - rewrite T3, (rbytes_keeps _ _ _ c Hk), (rbytes_keeps _ _ _ r Hk) by set_solver. rewrite rbytes_cons.
    assert (Hnil : tagged b x = []) by (apply length_zero_iff_nil; pose proof (tagged_len b x Hx) as H; unfold zlen in H; lia). by rewrite Hnil.
  - intros k. specialize (T7 k). rewrite nrefs_cons. pose proof (ref1_range k x). lia.
Qed.

(** What the loop does to [m], after the chain [c]. *)
Definition compressed (run : K mbst (list mbuf * bool * sockbuf)) (m c l : list mbuf) (b : mbst) (sb : sockbuf) (eor : bool) (X Y : Z) : Prop :=
  exists c' sb' b', run b = Some ((c', eor || ended m, sb'), b') /\ took b m c l X Y sb b' c' sb' /\ (c' = [] <-> vanishes m c eor).
Definition compresses (m : list mbuf) : Prop := forall c l b sb eor X Y, pool b (m ++ c ++ l) -> few (m ++ c ++ l) ->
  books sb (X + m_length c) (Y + space c) -> ended c = false -> compressed (compress_loop m c eor sb) m c l b sb eor X Y.

Section Step.
Context (x : mbuf) (r : list mbuf) (IH : compresses r) (c l : list mbuf) (b : mbst) (sb : sockbuf) (eor : bool) (X Y : Z).
Context (Hp : pool b (x :: r ++ c ++ l)) (Hf : few (x :: r ++ c ++ l)) (Hbk : books sb (X + m_length c) (Y + space c)) (Hop : ended c = false).
Let e := eor || is_eor x.

Lemma step_sound : sound b x /\ 0 <= m_len x /\ 0 <= m_length r.
Proof.
  assert (Hx : sound b x) by (apply (pool_sound b _ x Hp); set_solver). split_and!; [done|apply (sd_ok _ _ Hx)|].
  apply (m_length_nonneg b), (pool_sounds _ _ _ Hp). set_solver.
Qed.
Lemma step_ended : eor || ended (x :: r) = e || ended r.
Proof. apply orb_assoc. Qed.

Lemma compress_free : useless e x r c = true -> compressed (do! MFREE x in compress_loop r c e sb) (x :: r) c l b sb eor X Y.
Proof.
  intros [Hlen0%Z.eqb_eq Hu]%andb_true_iff. destruct step_sound as (Hx & _ & Hr0). destruct (free_one b x r (c ++ l) Hp Hf) as (b1 & Hfree & Hp1 & Hk1 & Hf1).
  unfold compressed. rewrite (bind_run _ _ _ _ _ Hfree), step_ended. destruct (IH c l b1 sb e X Y Hp1 Hf1 Hbk Hop) as (c' & sb' & b' & Hrun & Ht & Hv).
  exists c', sb', b'. split; [done|]. split; [apply (took_free b b1); [|done|done|done]|].
  - eapply keeps_sub; [|exact Hk1]. intros k. rewrite !nrefs_app. lia.
  - rewrite Hv. unfold vanishes. rewrite step_ended. change (m_length (x :: r)) with (m_len x + m_length r). rewrite Hlen0.
    split; intros (-> & H1 & H2); split_and!; try done; try lia; [left; destruct H2 as [H2| ->]; [done|]|by left; destruct H2].
    rewrite orb_false_r. simpl in Hu. by destruct e.
Qed.

Lemma compress_link : useless e x r c = false -> compressed (compress_loop r (c ++ [clear_eor x]) e (sballoc x sb)) (x :: r) c l b sb eor X Y.
Proof.
  intros Hu. destruct step_sound as (Hx & Hx0 & Hr0). pose proof Hp as Hp1. rewrite (Permutation_app_swap_app r) in Hp1.
  destruct (link_one b x c r l Hp1) as (Hp2 & Htag & Hext & _).
  assert (Hrefs : forall k, ref1 k (clear_eor x) = ref1 k x) by (apply ref_place; [done|exact Hext]).
  assert (Hf1 : few (r ++ (c ++ [clear_eor x]) ++ l)).
  { intros k. specialize (Hf k). rewrite nrefs_cons, !nrefs_app in *. change (nrefs k [clear_eor x]) with (ref1 k (clear_eor x) + 0). rewrite Hrefs. lia. }
  destruct (IH (c ++ [clear_eor x]) l b (sballoc x sb) e X Y Hp2 Hf1) as (c' & sb' & b' & Hrun & [T1 T2 T3 T4 T5 T6 T7] & Hv).
  - eapply books_eq; [by apply sballoc_books| |]; [rewrite m_length_app; simpl; lia|].
    rewrite space_app, space_cons. change (space []) with 0. unfold mspace. unfold is_ext at 1. rewrite Hext. lia.
  - rewrite ended_app, Hop. simpl. by rewrite clear_eor_not.
  - exists c', sb', b'. rewrite step_ended. split; [done|]. split; [split; try done|].
    + by rewrite T3, rbytes_app, rbytes_one, Htag, <- app_assoc.
    + by rewrite T6, sballoc_others.
    + intros k. specialize (T7 k). rewrite nrefs_app in T7. change (nrefs k [clear_eor x]) with (ref1 k (clear_eor x) + 0) in T7. rewrite Hrefs in T7. rewrite nrefs_cons. lia.
    + rewrite Hv. unfold vanishes. rewrite step_ended. change (m_length (x :: r)) with (m_len x + m_length r). split; [by intros [? _]; destruct c|].
      intros (-> & H1 & H2). exfalso. revert Hu. unfold useless. replace (m_len x) with 0 by lia. destruct H2 as [[-> _]%orb_false_iff|]; done.
Qed.

Lemma compress_merge n : last c = Some n -> fits n x = true ->
  compressed (let! w := bytes_at x 0 (m_len x) in let! n := knonnull (put_at n (m_len n) w) in do! MFREE x in
    compress_loop r (removelast c ++ [set_len (m_len n + m_len x) n]) e (with_cc (u32 (sb_cc sb + m_len x)) sb)) (x :: r) c l b sb eor X Y.
Proof.
  destruct step_sound as (Hx & Hx0 & Hr0). pose proof step_ended as Hse. intros (c0 & -> & ->)%last_snoc_split Hfit.
  assert (Hperm : x :: r ++ (c0 ++ [n]) ++ l ≡ₚ n :: x :: r ++ c0 ++ l) by solve_Permutation.
  pose proof Hp as Hp1. rewrite Hperm in Hp1. destruct (merge_one b n x _ Hp1 Hfit) as (n' & Hby & Hput & Hp2 & Htag & Hsame & Hln). cbv zeta in *.
  unfold compressed. rewrite (bind_run _ _ _ _ _ Hby), (bind_nonnull _ _ _ _ Hput), Hln. set (n2 := set_len (m_len n + m_len x) n') in *.
  assert (Hperm2 : x :: n2 :: r ++ c0 ++ l ≡ₚ x :: r ++ (c0 ++ [n2]) ++ l) by solve_Permutation. rewrite Hperm2 in Hp2.
  assert (Hf2 : few (x :: r ++ (c0 ++ [n2]) ++ l)).
  { intros k. specialize (Hf k). rewrite nrefs_cons, !nrefs_app in *. change (nrefs k [n2]) with (ref1 k n2 + 0). change (nrefs k [n]) with (ref1 k n + 0) in Hf.
    rewrite (same1_refs k n n2 Hsame). lia. }
  destruct (free_one b x r _ Hp2 Hf2) as (b1 & Hfree & Hp3 & Hk1 & Hf3). rewrite (bind_run _ _ _ _ _ Hfree).
  destruct (IH (c0 ++ [n2]) l b1 (with_cc (u32 (sb_cc sb + m_len x)) sb) e X Y Hp3 Hf3) as (c' & sb' & b' & Hrun & [T1 T2 T3 T4 T5 T6 T7] & Hv).
  - destruct Hbk as [B1 B2]. split; simpl; [rewrite B1, u32_add, !m_length_app; simpl; f_equal; lia|].
    rewrite B2, !space_app, !space_cons. by rewrite (space_same n n2 Hsame).
  - pose proof Hop as Hop1. rewrite ended_app in Hop1 |- *. simpl in Hop1 |- *. by rewrite (eor_same n n2 Hsame).
  - exists c', sb', b'. rewrite Hse. split; [done|]. split; [split; try done|].
    + eapply keeps_trans; [|exact T2]. eapply keeps_sub; [|exact Hk1]. intros k. rewrite !nrefs_app. pose proof (nrefs_nonneg k r). pose proof (nrefs_nonneg k c0). pose proof (nrefs_nonneg k [n2]). lia.
    + rewrite T3, (rbytes_keeps _ _ _ _ Hk1), (rbytes_keeps _ _ _ r Hk1) by set_solver. by rewrite !rbytes_app, !rbytes_one, Htag, rbytes_cons, <- !app_assoc.
    + intros k. specialize (T7 k). rewrite nrefs_cons, !nrefs_app in *. change (nrefs k [n2]) with (ref1 k n2 + 0) in T7. change (nrefs k [n]) with (ref1 k n + 0).
      rewrite (same1_refs k n n2 Hsame) in T7. pose proof (ref1_range k x). lia.
    + rewrite Hv. unfold vanishes. split; intros [? _]; by destruct c0.
Qed.
End Step.

Lemma compress_loop_ok m : compresses m.
Proof.
  induction m as [|x r IH]; intros c l b sb eor X Y Hp Hf Hbk Hop.
  { exists c, sb, b. rewrite orb_false_r. split; [done|]. split; [|unfold vanishes; naive_solver].
    split; try done; [by rewrite app_nil_r|intros k; change (nrefs k []) with 0; lia]. }
  cbn [compress_loop app] in *. destruct (useless (eor || is_eor x) x r c) eqn:Hu; [by apply compress_free|].
  destruct (last c) as [n|] eqn:El; [|by apply compress_link]. destruct (fits n x) eqn:Hfit; [by apply compress_merge|by apply compress_link].
Qed.

(** ** Records *)

(** Only the last mbuf of a record can be marked. *)
Definition neat (c : list mbuf) : Prop := ended (removelast c) = false.

Lemma neat_open c : ended c = false -> neat c.
Proof.
  unfold neat. intros H. destruct (last c) as [n|] eqn:E; [|by apply last_None in E as ->].
  apply last_snoc_split in E as (c0 & -> & ->). rewrite ended_app in H. by apply orb_false_iff in H as [-> _].
Qed.
Lemma neat_suffix p s : s <> [] -> neat (p ++ s) -> neat s /\ ended s = ended (p ++ s).
Proof.
  unfold neat. intros Hs. rewrite removelast_app, !ended_app by done. by intros [-> ->]%orb_false_iff.
Qed.

(** The chain is the record [c'] now, after the mbufs of [m] were put after [c]. *)
Record stored (b : mbst) (m c l : list mbuf) (X Y : Z) (sb : sockbuf) (b' : mbst) (c' : list mbuf) (sb' : sockbuf) : Prop := {
  st_pool : pool b' (c' ++ l);
  st_keeps : keeps l b b';
  st_bytes : rbytes b' c' = rbytes b c ++ rbytes b m;
  st_ended : ended c' = ended (c ++ m);
  st_neat : neat c';
  st_books : books sb' (X + m_length c') (Y + space c');
  st_others : others sb' = others sb;
  st_refs : forall x, nrefs x c' <= nrefs x c + nrefs x m }.

Lemma mark_last_ok b c l : pool b (c ++ l) -> c <> [] -> ended c = false -> let c' := on_last mark_eor c in
  pool b (c' ++ l) /\ rbytes b c' = rbytes b c /\ ended c' = true /\ neat c' /\ m_length c' = m_length c /\ space c' = space c /\
  (forall x, nrefs x c' = nrefs x c) /\ c' <> [].
Proof.
  intros Hp Hne Ho. unfold on_last. destruct (last c) as [n|] eqn:E; [|by apply last_None in E as ->].
  apply last_snoc_split in E as (c0 & -> & ->). rewrite ended_app in Ho. apply orb_false_iff in Ho as [Ho _]. cbv zeta.
  assert (Hperm : forall z, (c0 ++ [z]) ++ l ≡ₚ z :: c0 ++ l) by (intros; solve_Permutation). rewrite Hperm in Hp. rewrite Hperm.
  pose proof (mark_place n) as [Hext Hh]. assert (Hr : forall k, ref1 k (mark_eor n) = ref1 k n) by (apply ref_place; [done|exact Hext]).
  split_and!.
  - by apply (pool_flags b n).
  - rewrite !rbytes_app, !rbytes_one. f_equal. by apply tagged_flags.
  - rewrite ended_app. simpl. by rewrite mark_eor_is, orb_true_r.
  - unfold neat. by rewrite removelast_last.
  - by rewrite !m_length_app.
  - rewrite !space_app, !space_cons. unfold mspace. unfold is_ext at 1. simpl. by rewrite Hext.
  - intros k. rewrite !nrefs_app, !nrefs_cons, Hr. done.
  - by destruct c0.
Qed.

Lemma sbcompress_ok b sb m c l X Y : pool b (m ++ c ++ l) -> few (m ++ c ++ l) -> books sb (X + m_length c) (Y + space c) -> ended c = false ->
  exists c' sb' b', sbcompress sb m c b = Some ((c', sb'), b') /\ stored b m c l X Y sb b' c' sb' /\ (c' = [] <-> vanishes m c false).
Proof.
  intros Hp Hf Hb Ho. destruct (compress_loop_ok m c l b sb false X Y Hp Hf Hb Ho) as (c1 & sb1 & b1 & Hrun & [T1 T2 T3 T4 T5 T6 T7] & Hv).
  unfold sbcompress. rewrite (bind_run _ _ _ _ _ Hrun). simpl. destruct (ended m) eqn:Em.
  - assert (Hne : c1 <> []) by (intros [_ (_ & [?| ->])]%Hv; [by rewrite Em in *|done]).
    destruct (mark_last_ok b1 c1 l T1 Hne T4) as (M1 & M2 & M3 & M4 & M5 & M6 & M7 & M8). eexists _, sb1, b1. split; [done|].
    split; [split; try done|].
    + by rewrite M2.
    + by rewrite M3, ended_app, Ho, Em.
    + by rewrite M5, M6.
    + intros k. by rewrite M7.
    + rewrite <- Hv. split; intros; [by destruct M8|by destruct Hne].
  - exists c1, sb1, b1. split; [done|]. split; [split; try done|done]; [by rewrite ended_app, Ho, Em, T4|by apply neat_open].
Qed.

(** [m0] as a record of its own. *)
Lemma new_record_ok b sb m0 l X Y : pool b (m0 ++ l) -> few (m0 ++ l) -> books sb X Y -> m0 <> [] ->
  exists c' sb' b', new_record sb m0 b = Some ((c', sb'), b') /\ stored b m0 [] l X Y sb b' c' sb' /\ c' <> [].
Proof.
  intros Hp Hf Hb Hne. destruct m0 as [|x r]; [done|]. cbn [new_record]. pose proof (sballoc_books x sb X Y Hb) as Hb1.
  destruct r as [|y r].
  { exists [x], (sballoc x sb), b. split; [done|]. split; [|done]. split; try done; [|by apply sballoc_others].
    eapply books_eq; [done|simpl; lia|]. rewrite space_cons. change (space []) with 0. lia. }
  assert (Hgo : forall x' y', pool b ((y' :: r) ++ [x'] ++ l) -> is_eor x' = false -> m_len x' = m_len x -> mspace x' = mspace x ->
    (forall k, ref1 k x' = ref1 k x /\ ref1 k y' = ref1 k y) -> tagged b x' = tagged b x -> tagged b y' = tagged b y -> is_eor y' = is_eor x || is_eor y ->
    exists c' sb' b', sbcompress (sballoc x sb) (y' :: r) [x'] b = Some ((c', sb'), b') /\ stored b (x :: y :: r) [] l X Y sb b' c' sb' /\ c' <> []).
  { intros x' y' Hp' He Hlen Hsp Href Hx Hy Hor.
    destruct (sbcompress_ok b (sballoc x sb) (y' :: r) [x'] l X Y Hp') as (c' & sb' & b' & Hrun & [S1 S2 S3 S4 S5 S6 S7 S8] & Hv).
    - intros k. specialize (Hf k). destruct (Href k) as [R1 R2]. simpl. rewrite !nrefs_app, !nrefs_cons, ?nrefs_app in *. simpl in *. rewrite ?nrefs_cons in *. lia.
    - eapply books_eq; [exact Hb1|simpl; lia|]. rewrite space_cons, Hsp. change (space []) with 0. lia.
    - simpl. by rewrite He.
    - exists c', sb', b'. split; [done|]. split; [split; try done|].
      + rewrite S3, rbytes_one, Hx, !rbytes_cons, Hy. done.
      + rewrite S4. simpl. by rewrite He, Hor, <- orb_assoc.
      + by rewrite S7, sballoc_others.
      + intros k. specialize (S8 k). destruct (Href k) as [R1 R2]. rewrite !nrefs_cons in *. change (nrefs k []) with 0 in *. lia.
      + intros Hc. by apply Hv in Hc as [? _]. }
  destruct (is_eor x) eqn:Ex.
  - apply Hgo; try done; try (by apply tagged_flags, clear_place); try (by apply tagged_flags, mark_place).
    + apply (pool_flags b x (Z.land (m_flags x) (Z.lnot M_EOR))) in Hp; [|apply clear_place]. change (set_flags _ x) with (clear_eor x) in Hp.
      assert (H1 : clear_eor x :: (y :: r) ++ l ≡ₚ y :: clear_eor x :: r ++ l) by solve_Permutation. rewrite H1 in Hp.
      apply (pool_flags b y (Z.lor (m_flags y) M_EOR)) in Hp; [|apply mark_place]. change (set_flags _ y) with (mark_eor y) in Hp.
      assert (H2 : mark_eor y :: clear_eor x :: r ++ l ≡ₚ (mark_eor y :: r) ++ [clear_eor x] ++ l) by solve_Permutation. by rewrite <- H2.
    + apply clear_eor_not.
    + unfold mspace. unfold is_ext at 1. simpl. by rewrite (proj1 (clear_place x)).
    + intros k. split; apply ref_place; try done; [apply clear_place|apply mark_place].
    + by rewrite mark_eor_is.
  - apply Hgo; try done. assert (H2 : (x :: y :: r) ++ l ≡ₚ (y :: r) ++ [x] ++ l) by solve_Permutation. by rewrite <- H2.
Qed.

(** ** Dropping *)

(** A record as its reader sees it: its bytes and whether it has ended. *)
Definition arec : Type := list (Z * Z) * bool.
Definition rview (b : mbst) (rs : list (list mbuf)) : list arec := (fun r => (rbytes b r, ended r)) <$> rs.
Definition tidy (rs : list (list mbuf)) : Prop := Forall (fun r => r <> [] /\ neat r) rs.

Lemma rview_keeps l b b' rs : keeps l b b' -> mjoin rs ⊆ l -> rview b' rs = rview b rs.
Proof.
  intros Hk Hs. apply list_fmap_ext. intros i r Hr%list_elem_of_lookup_2. f_equal. apply (rbytes_keeps l); [done|].
  intros m Hm. apply Hs, list_elem_of_join. eauto.
Qed.

Fixpoint a_drop (n : Z) (A : list arec) : list arec :=
  match A with
  | [] => []
  | (bs, e) :: A =>
      if n <? zlen bs then (drop (Z.to_nat n) bs, e) :: A
      else if n =? zlen bs then A else a_drop (n - zlen bs) A
  end.

Lemma a_drop_front n x bs e A : zlen x <= n -> a_drop n ((x ++ bs, e) :: A) = a_drop (n - zlen x) ((bs, e) :: A).
Proof.
  intros Hx. cbn [a_drop]. rewrite zlen_app. destruct (Z.ltb_spec n (zlen x + zlen bs)), (Z.ltb_spec (n - zlen x) (zlen bs)); try lia.
  - rewrite drop_app_ge by (unfold zlen in *; lia). do 3 f_equal. unfold zlen in *. lia.
  - destruct (Z.eqb_spec n (zlen x + zlen bs)), (Z.eqb_spec (n - zlen x) (zlen bs)); try lia; [done|]. f_equal. lia.
Qed.
Lemma a_drop_nil n e A : 0 < n -> a_drop n (([], e) :: A) = a_drop n A.
Proof.
  intros Hn. cbn [a_drop]. change (zlen (@nil (Z * Z))) with 0. destruct (Z.ltb_spec n 0); [lia|]. destruct (Z.eqb_spec n 0); [lia|]. f_equal. lia.
Qed.

(** What is left of the first record and the other records. *)
Definition rest_view (b : mbst) (m : list mbuf) (next : list (list mbuf)) : list arec :=
  if m_length m =? 0 then rview b next else (rbytes b m, ended m) :: rview b next.

Record dropped (b : mbst) (l : list mbuf) (sb : sockbuf) (W : Z) (A : list arec) (b' : mbst) (m' : list mbuf) (next' : list (list mbuf)) (sb' : sockbuf) : Prop := {
  dr_pool : pool b' (m' ++ mjoin next' ++ l);
  dr_few : few (m' ++ mjoin next' ++ l);
  dr_keeps : keeps l b b';
  dr_view : rest_view b' m' next' = A;
  dr_neat : neat m';
  dr_tidy : tidy next';
  dr_books : books sb' (m_length (m' ++ mjoin next')) (space (m' ++ mjoin next'));
  dr_others : others sb' = others sb;
  dr_space : space (m' ++ mjoin next') <= W }.

Lemma drop_stop b l sb m next e : pool b (m ++ mjoin next ++ l) -> few (m ++ mjoin next ++ l) -> neat m -> tidy next ->
  books sb (m_length (m ++ mjoin next)) (space (m ++ mjoin next)) -> (m <> [] -> e = ended m) ->
  dropped b l sb (space (m ++ mjoin next)) (a_drop 0 ((rbytes b m, e) :: rview b next)) b m next sb.
Proof.
  intros Hp Hf Hn Ht Hb He. split; try done. assert (Hs : Forall (sound b) m) by (apply (pool_sounds _ _ _ Hp); set_solver).
  unfold rest_view. cbn [a_drop]. rewrite (rbytes_len b m Hs). pose proof (m_length_nonneg b m Hs).
  destruct (Z.ltb_spec 0 (m_length m)), (Z.eqb_spec (m_length m) 0); try lia.
  - rewrite He; [done|]. by intros ->.
  - by destruct (Z.eqb_spec 0 (m_length m)); [|lia].
Qed.

(** Part of the first mbuf goes. *)
Lemma drop_part b l sb x r next len : pool b ((x :: r) ++ mjoin next ++ l) -> few ((x :: r) ++ mjoin next ++ l) -> neat (x :: r) -> tidy next ->
  books sb (m_length ((x :: r) ++ mjoin next)) (space ((x :: r) ++ mjoin next)) -> 0 <= len < m_len x ->
  dropped b l sb (space ((x :: r) ++ mjoin next)) (a_drop len ((rbytes b (x :: r), ended (x :: r)) :: rview b next)) b
    (set_data (m_data x + len) (set_len (m_len x - len) x) :: r) next (with_cc (u32 (sb_cc sb - len)) sb).
Proof.
  intros Hp Hf Hn Ht [B1 B2] Hl. assert (Hs : Forall (sound b) (x :: r)) by (apply (pool_sounds _ _ _ Hp); set_solver).
  pose proof Hs as [Hx Hr]%Forall_cons. destruct (trim_head b x len Hx ltac:(lia)) as (Hy & Hsame & Hb). cbv zeta in *.
  set (y := set_data (m_data x + len) (set_len (m_len x - len) x)). change (set_len (m_len x - len) (set_data (m_data x + len) x)) with y in *.
  assert (Heor : is_eor y = is_eor x) by done. pose proof (m_length_nonneg b r Hr). split; try done.
  - apply (pool_edit b x); [done|apply Hy|done..].
  - unfold rest_view. cbn [a_drop m_length]. rewrite (rbytes_len b _ Hs). cbn [m_length]. change (m_len y) with (m_len x - len).
    destruct (Z.eqb_spec (m_len x - len + m_length r) 0); [lia|]. destruct (Z.ltb_spec len (m_len x + m_length r)); [|lia].
    rewrite !rbytes_cons, drop_app_le by (pose proof (tagged_len b x Hx); unfold zlen in *; lia). do 3 f_equal. unfold tagged. by rewrite Hb, fmap_drop.
  - unfold neat in *. by destruct r.
  - split; [|exact B2]. simpl in *. rewrite B1, u32_sub. f_equal. lia.
Qed.

Lemma dropped_trans b b1 l l1 sb sb1 W W' A A' b' m' next' sb' : keeps l1 b b1 -> (forall c, nrefs c l <= nrefs c l1) -> others sb1 = others sb ->
  W' <= W -> A' = A -> dropped b1 l sb1 W' A' b' m' next' sb' -> dropped b l sb W A b' m' next' sb'.
Proof. intros Hk Hl Ho Hw -> []. split; try done; [|congruence|lia]. eapply keeps_trans; [|done]. by eapply keeps_sub. Qed.

Lemma drop_loop_ok fuel : forall b l sb m next len e, pool b (m ++ mjoin next ++ l) -> few (m ++ mjoin next ++ l) -> neat m -> tidy next ->
  books sb (m_length (m ++ mjoin next)) (space (m ++ mjoin next)) -> (m <> [] -> e = ended m) -> 0 <= len <= m_length (m ++ mjoin next) ->
  (length m + length (mjoin next) + length next < fuel)%nat ->
  exists m' next' sb' b', drop_loop fuel len m next sb b = Some ((m', next', sb'), b') /\
    dropped b l sb (space (m ++ mjoin next)) (a_drop len ((rbytes b m, e) :: rview b next)) b' m' next' sb'.
Proof.
  induction fuel as [|fuel IH]; intros b l sb m next len e Hp Hf Hn Ht Hb He Hlen Hfuel; [lia|]. cbn [drop_loop].
  destruct (Z.ltb_spec 0 len) as [Hpos|Hz].
  2:{ assert (len = 0) as -> by lia. exists m, next, sb, b. split; [done|]. by apply drop_stop. }
  destruct m as [|x r].
  - destruct next as [|m next]; [simpl in Hlen; lia|]. change (rbytes b []) with (@nil (Z * Z)). rewrite a_drop_nil by done.
    apply Forall_cons in Ht as [[Hm1 Hm2] Ht]. change (mjoin (m :: next)) with (m ++ mjoin next) in *. simpl in Hfuel.
    apply (IH b l sb m next len (ended m)); try done; simpl in *; rewrite ?length_app in *; [by rewrite app_assoc..|lia].
  - assert (Hs : Forall (sound b) (x :: r)) by (apply (pool_sounds _ _ _ Hp); set_solver). pose proof Hs as [Hx Hr]%Forall_cons.
    rewrite He by done. destruct (Z.ltb_spec len (m_len x)) as [Hlt|Hge].
    { eexists _, _, _, b. split; [done|]. apply drop_part; try done. lia. }
    cbn [app] in Hp, Hf. destruct (free_one b x r _ Hp Hf) as (b1 & Hrun & Hp1 & Hk1 & Hf1). rewrite (bind_run _ _ _ _ _ Hrun).
    pose proof (tagged_len b x Hx) as Hlx. pose proof (mo_len _ (sd_ok _ _ Hx)).
    destruct (IH b1 l (sbfree x sb) r next (len - m_len x) (ended (x :: r)) Hp1 Hf1) as (m' & next' & sb' & b' & Hrun2 & Hd); try done.
    + destruct r; [done|]. by apply (neat_suffix [x]).
    + eapply books_eq; [by apply sbfree_books| |]; simpl; [lia|rewrite space_cons; lia].
    + intros Hne. symmetry. by apply (neat_suffix [x] r).
    + simpl in Hlen. lia.
    + simpl in Hfuel. lia.
    + exists m', next', sb', b'. split; [done|]. eapply (dropped_trans b b1 l _ sb); [exact Hk1| |apply sbfree_others|apply (space_grows x (r ++ mjoin next))| |exact Hd].
      * intros k. rewrite !nrefs_app. pose proof (nrefs_nonneg k r). pose proof (nrefs_nonneg k (mjoin next)). lia.
      * rewrite rbytes_cons, a_drop_front by lia. rewrite Hlx, (rbytes_keeps _ _ _ r Hk1), (rview_keeps _ _ _ next Hk1) by set_solver. done.
Qed.

(** The empty mbufs in front go. *)
Lemma drop_empty_ok m : forall b l sb next, pool b (m ++ mjoin next ++ l) -> few (m ++ mjoin next ++ l) -> neat m -> tidy next ->
  books sb (m_length (m ++ mjoin next)) (space (m ++ mjoin next)) ->
  exists m' sb' b', drop_empty m sb b = Some ((m', sb'), b') /\ dropped b l sb (space (m ++ mjoin next)) (rest_view b m next) b' m' next sb' /\
    (m' = [] <-> m_length m = 0).
Proof.
  induction m as [|x r IH]; intros b l sb next Hp Hf Hn Ht Hb; [by exists [], sb, b|]. cbn [drop_empty].
  assert (Hs : Forall (sound b) (x :: r)) by (apply (pool_sounds _ _ _ Hp); set_solver). pose proof Hs as [Hx Hr]%Forall_cons.
  pose proof (mo_len _ (sd_ok _ _ Hx)). pose proof (m_length_nonneg b r Hr). pose proof (tagged_len b x Hx) as Hlx.
  destruct (Z.eqb_spec (m_len x) 0) as [E|E].
  2:{ exists (x :: r), sb, b. split; [done|]. split; [by split|]. simpl. split; [done|lia]. }
  cbn [app] in Hp, Hf. destruct (free_one b x r _ Hp Hf) as (b1 & Hrun & Hp1 & Hk1 & Hf1). rewrite (bind_run _ _ _ _ _ Hrun).
  destruct (IH b1 l (sbfree x sb) next Hp1 Hf1) as (m' & sb' & b' & Hrun2 & Hd & Hm'); [..|exists m', sb', b'; split; [done|split]].
  - destruct r; [done|]. by apply (neat_suffix [x]).
  - done.
  - eapply books_eq; [by apply sbfree_books| |]; simpl; [lia|rewrite space_cons; lia].
  - eapply (dropped_trans b b1 l _ sb); [exact Hk1| |apply sbfree_others|apply (space_grows x (r ++ mjoin next))| |exact Hd].
    + intros k. rewrite !nrefs_app. pose proof (nrefs_nonneg k r). pose proof (nrefs_nonneg k (mjoin next)). lia.
    + unfold rest_view. simpl. rewrite E, Z.add_0_l, (rview_keeps _ _ _ next Hk1) by set_solver.
      destruct (Z.eqb_spec (m_length r) 0) as [|Hne]; [done|]. rewrite rbytes_cons, (rbytes_keeps _ _ _ r Hk1) by set_solver.
      assert (tagged b x = []) as -> by (apply length_zero_iff_nil; unfold zlen in Hlx; lia).
      assert (Hr0 : r <> []) by (by intros ->). f_equal. f_equal. by apply (neat_suffix [x] r).
  - rewrite Hm'. simpl. lia.
Qed.
