(* ===== verification/SockbufCalls.v ===== *)
(** * Socket buffers: the calls

    Every routine on a socket buffer does to the records what it promises, keeps the counts exact
    and accounts for every mbuf; a stream comes out of the buffer as it went in; what the
    routines that look at the space put in stays within the limits. *)

From S2P Require Import Prelude Mbuf MbufSpec MbufOps MbufCopy MbufCalls Sockbuf SockbufOps.
Local Open Scope kern_scope.

(** ** Buffers in order *)

Definition mbufs_of (sb : sockbuf) : list mbuf := mjoin (sb_mb sb).
Definition limits (sb : sockbuf) := (sb_hiwat sb, sb_mbmax sb, sb_lowat sb, sb_flags sb).

Record sb_ok (sb : sockbuf) : Prop := {
  ok_books : books sb (m_length (mbufs_of sb)) (space (mbufs_of sb));
  ok_tidy : tidy (sb_mb sb) }.

(** The buffer, which was [sb], is [sb'] and has the records [A]; others have the mbufs [l]. *)
Record does (b : mbst) (l : list mbuf) (sb : sockbuf) (A : list arec) (b' : mbst) (sb' : sockbuf) : Prop := {
  do_pool : pool b' (mbufs_of sb' ++ l);
  do_few : few (mbufs_of sb' ++ l);
  do_keeps : keeps l b b';
  do_ok : sb_ok sb';
  do_view : rview b' (sb_mb sb') = A;
  do_limits : limits sb' = limits sb }.

Lemma rview_app b r1 r2 : rview b (r1 ++ r2) = rview b r1 ++ rview b r2.
Proof. apply fmap_app. Qed.

(** A record that was stored, among the others. *)
Lemma store_at b m c rs1 rs2 l sb0 sb1 b' c' : let rest := mjoin rs1 ++ mjoin rs2 in
  stored b m c (rest ++ l) (m_length rest) (space rest) sb0 b' c' sb1 -> c' <> [] -> tidy rs1 -> tidy rs2 -> few (m ++ c ++ rest ++ l) ->
  does b l sb0 (rview b rs1 ++ (rbytes b c ++ rbytes b m, ended (c ++ m)) :: rview b rs2) b' (with_mb (rs1 ++ c' :: rs2) sb1).
Proof.
  intros rest [S1 S2 S3 S4 S5 S6 S7 S8] Hne Ht1 Ht2 Hf. unfold mbufs_of.
  assert (Hperm : mjoin (rs1 ++ c' :: rs2) ≡ₚ c' ++ rest) by (rewrite join_app; simpl; unfold rest; by rewrite Permutation_app_swap_app).
  split.
  - unfold mbufs_of. simpl. by rewrite Hperm, <- app_assoc.
  - unfold mbufs_of. simpl. rewrite Hperm, <- app_assoc. intros k. specialize (Hf k). specialize (S8 k). rewrite !nrefs_app in *. lia.
  - eapply keeps_sub; [|exact S2]. intros k. rewrite !nrefs_app. pose proof (nrefs_nonneg k rest). lia.
  - split; simpl; [|by apply Forall_app; split; [done|constructor]]. unfold mbufs_of. simpl.
    eapply books_eq; [exact S6| |]; [rewrite (m_length_perm _ _ Hperm), m_length_app|unfold space; rewrite Hperm, total_app]; lia.
  - simpl. rewrite rview_app. unfold rest in S2. f_equal; [apply (rview_keeps _ _ _ _ S2); set_solver|]. unfold rview. cbn [fmap list_fmap]. f_equal; [by rewrite S3, S4|].
    apply (rview_keeps _ _ _ _ S2). set_solver.
  - unfold others in S7. unfold limits. simpl. by injection S7 as -> -> -> _ ->.
Qed.

(** ** Putting in *)

Definition a_append (r : arec) (A : list arec) : list arec :=
  match last A with
  | None => match r with ([], false) => [] | _ => [r] end
  | Some (bs, e) => if e then A ++ [r] else removelast A ++ [(bs ++ r.1, r.2)]
  end.

Lemma sb_sound b l c : pool b (c ++ l) -> Forall (sound b) c.
Proof. intros Hp. apply (pool_sounds _ _ _ Hp). set_solver. Qed.

Lemma record_at b sb rs1 rs2 m l : sb_ok sb -> sb_mb sb = rs1 ++ rs2 -> pool b (m ++ mbufs_of sb ++ l) -> few (m ++ mbufs_of sb ++ l) -> m <> [] ->
  exists c' sb' b', new_record sb m b = Some ((c', sb'), b') /\ sb_mb sb' = sb_mb sb /\
    does b l sb (rview b rs1 ++ (rbytes b m, ended m) :: rview b rs2) b' (with_mb (rs1 ++ c' :: rs2) sb').
Proof.
  intros [Hb Ht] E Hp Hf Hm. unfold mbufs_of in *. rewrite E, join_app in Hb, Hp, Hf. set (rest := mjoin rs1 ++ mjoin rs2) in *.
  destruct (new_record_ok b sb m (rest ++ l) _ _ Hp Hf Hb Hm) as (c' & sb' & b' & Hr & Hst & Hc). exists c', sb', b'. split; [done|].
  split; [pose proof (st_others _ _ _ _ _ _ _ _ _ _ Hst) as Ho; unfold others in Ho; by injection Ho|].
  unfold tidy in *. rewrite E in Ht. apply Forall_app in Ht as [Ht1 Ht2]. exact (store_at b m [] rs1 rs2 l sb sb' b' c' Hst Hc Ht1 Ht2 Hf).
Qed.

Lemma sbappendrecord_ok b sb m l : sb_ok sb -> pool b (m ++ mbufs_of sb ++ l) -> few (m ++ mbufs_of sb ++ l) -> m <> [] ->
  exists sb' b', sbappendrecord sb m b = Some (sb', b') /\ does b l sb (rview b (sb_mb sb) ++ [(rbytes b m, ended m)]) b' sb'.
Proof.
  intros Hok Hp Hf Hm. destruct (record_at b sb (sb_mb sb) [] m l Hok ltac:(by rewrite app_nil_r) Hp Hf Hm) as (c' & sb' & b' & Hr & Hmb & Hd).
  exists (with_mb (sb_mb sb ++ [c']) sb'), b'. split; [|done]. unfold sbappendrecord. destruct m as [|x r]; [done|].
  rewrite (bind_run _ _ _ _ _ Hr). by rewrite Hmb.
Qed.

Lemma sbinsertoob_ok b sb m l : sb_ok sb -> pool b (m ++ mbufs_of sb ++ l) -> few (m ++ mbufs_of sb ++ l) -> m <> [] ->
  let k := oob_records (sb_mb sb) in
  exists sb' b', sbinsertoob sb m b = Some (sb', b') /\
    does b l sb (take k (rview b (sb_mb sb)) ++ (rbytes b m, ended m) :: drop k (rview b (sb_mb sb))) b' sb'.
Proof.
  intros Hok Hp Hf Hm k.
  destruct (record_at b sb (take k (sb_mb sb)) (drop k (sb_mb sb)) m l Hok ltac:(by rewrite take_drop) Hp Hf Hm) as (c' & sb' & b' & Hr & Hmb & Hd).
  exists (with_mb (take k (sb_mb sb) ++ c' :: drop k (sb_mb sb)) sb'), b'. split.
  - unfold sbinsertoob. destruct m as [|x r]; [done|]. rewrite (bind_run _ _ _ _ _ Hr). by rewrite Hmb.
  - unfold rview in *. by rewrite fmap_take, fmap_drop in Hd.
Qed.

Lemma ended_view b rs c : last rs = Some c -> last (rview b rs) = Some (rbytes b c, ended c) /\ rs = removelast rs ++ [c] /\ removelast (rview b rs) = rview b (removelast rs).
Proof.
  intros (rs0 & ->)%last_Some. rewrite removelast_last, rview_app. change (rview b [c]) with [(rbytes b c, ended c)]. split; [by rewrite last_snoc|]. split; [done|]. apply removelast_last.
Qed.

(** The chain [m] goes to the end of the last record. *)
Lemma append_last b sb m c l : sb_ok sb -> last (sb_mb sb) = Some c -> ended c = false -> pool b (m ++ mbufs_of sb ++ l) -> few (m ++ mbufs_of sb ++ l) ->
  exists c' sb' b', sbcompress sb m c b = Some ((c', sb'), b') /\ sb_mb sb' = sb_mb sb /\
    does b l sb (rview b (removelast (sb_mb sb)) ++ [(rbytes b c ++ rbytes b m, ended m)]) b' (with_mb (removelast (sb_mb sb) ++ [c']) sb').
Proof.
  intros [Hb Ht] El Ee Hp Hf. destruct (ended_view b _ c El) as (_ & Hsplit & _). unfold mbufs_of in *. set (rs := removelast (sb_mb sb)) in *.
  rewrite Hsplit, join_app in Hb, Hp, Hf. simpl mjoin in Hb, Hp, Hf. rewrite app_nil_r in Hb, Hp, Hf. set (rest := mjoin rs ++ mjoin []).
  assert (Hrest : rest = mjoin rs) by apply app_nil_r.
  assert (Hperm : m ++ (mjoin rs ++ c) ++ l ≡ₚ m ++ c ++ rest ++ l) by (rewrite Hrest; solve_Permutation). rewrite Hperm in Hp, Hf.
  destruct (sbcompress_ok b sb m c (rest ++ l) (m_length rest) (space rest) Hp Hf) as (c' & sb' & b' & Hr & Hst & Hv); [|done|].
  { rewrite Hrest. eapply books_eq; [exact Hb|by rewrite m_length_app|by rewrite space_app]. }
  exists c', sb', b'. split; [done|]. split; [pose proof (st_others _ _ _ _ _ _ _ _ _ _ Hst) as Ho; unfold others in Ho; by injection Ho|].
  unfold tidy in Ht. rewrite Hsplit in Ht. apply Forall_app in Ht as [Ht1 [[Hc _] _]%Forall_cons].
  assert (Hne : c' <> []) by (intros [-> _]%Hv; done). pose proof (store_at b m c rs [] l sb sb' b' c' Hst Hne Ht1 ltac:(constructor) Hf) as Hd.
  by rewrite ended_app, Ee in Hd.
Qed.

(** The chain [m] is the first record, if it has anything. *)
Lemma append_first b sb m l : sb_ok sb -> sb_mb sb = [] -> pool b (m ++ l) -> few (m ++ l) -> m <> [] ->
  exists c' sb' b', sbcompress sb m [] b = Some ((c', sb'), b') /\
    does b l sb (a_append (rbytes b m, ended m) []) b' (with_mb (match c' with [] => [] | _ => [c'] end) sb').
Proof.
  intros [Hb Ht] El Hp Hf Hm. unfold mbufs_of in *. rewrite El in Hb.
  assert (Hs : Forall (sound b) m) by (by apply (sb_sound b l)). pose proof (rbytes_len b m Hs) as Hlen.
  destruct (sbcompress_ok b sb m [] l 0 0 Hp Hf ltac:(by eapply books_eq) ltac:(done)) as (c' & sb' & b' & Hr & Hst & Hv).
  exists c', sb', b'. split; [done|]. destruct c' as [|y q].
  - destruct (proj1 Hv eq_refl) as (_ & Hl0 & [He|?]); [|done]. simpl in He.
    assert (rbytes b m = []) as -> by (apply length_zero_iff_nil; unfold zlen in Hlen; lia). rewrite He. destruct Hst as [S1 S2 S3 S4 S5 S6 S7 S8].
    change (a_append ([], false) []) with (@nil arec). split; try done; [intros k; specialize (Hf k); rewrite nrefs_app in Hf; pose proof (nrefs_nonneg k m); simpl; lia|split; [exact S6|constructor]|].
    unfold others in S7. unfold limits. simpl. by injection S7 as -> -> -> _ ->.
  - assert (Hmatch : a_append (rbytes b m, ended m) [] = [(rbytes b m, ended m)]).
    { unfold a_append. destruct (rbytes b m) eqn:E1; [|done]. destruct (ended m) eqn:E2; [done|]. exfalso. assert (Hnil : y :: q = []); [|done].
      apply Hv. split_and!; [done| |by left; rewrite E2]. by rewrite <- Hlen. }
    rewrite Hmatch. exact (store_at b m [] [] [] l sb sb' b' (y :: q) Hst ltac:(done) ltac:(constructor) ltac:(constructor) Hf).
Qed.

Lemma sbappend_ok b sb m l : sb_ok sb -> pool b (m ++ mbufs_of sb ++ l) -> few (m ++ mbufs_of sb ++ l) -> m <> [] ->
  exists sb' b', sbappend sb m b = Some (sb', b') /\ does b l sb (a_append (rbytes b m, ended m) (rview b (sb_mb sb))) b' sb'.
Proof.
  intros Hok Hp Hf Hm. assert (Hgo : forall f : list mbuf -> K mbst sockbuf, match m with [] => kret sb | _ => f m end = f m) by (by destruct m).
  unfold sbappend. rewrite (Hgo (fun m => _)). clear Hgo. destruct (last (sb_mb sb)) as [c|] eqn:El.
  - destruct (ended_view b _ c El) as (Hl & _ & Hrl). unfold a_append. rewrite Hl, Hrl. change (existsb is_eor c) with (ended c).
    destruct (ended c) eqn:Ee; [by apply sbappendrecord_ok|]. destruct (append_last b sb m c l Hok El Ee Hp Hf) as (c' & sb' & b' & Hr & Hmb & Hd).
    rewrite (bind_run _ _ _ _ _ Hr), Hmb. by eexists _, b'.
  - apply last_None in El. unfold mbufs_of in Hp, Hf. rewrite El in Hp, Hf. destruct (append_first b sb m l Hok El Hp Hf Hm) as (c' & sb' & b' & Hr & Hd).
    rewrite (bind_run _ _ _ _ _ Hr), El. by eexists _, b'.
Qed.

(** A chain that goes in as it is. *)
Lemma sballocs_ok c sb X Y : books sb X Y -> books (sballocs c sb) (X + m_length c) (Y + space c) /\ others (sballocs c sb) = others sb.
Proof.
  revert sb X Y. induction c as [|x c IH]; intros sb X Y Hb; [split; [|done]; eapply books_eq; [done|simpl; lia|change (space []) with 0; lia]|].
  destruct (IH (sballoc x sb) _ _ (sballoc_books x sb X Y Hb)) as [H1 H2]. split; [|by rewrite <- (sballoc_others x sb)].
  eapply books_eq; [exact H1|simpl; lia|rewrite space_cons; lia].
Qed.

Lemma add_record b sb c l : sb_ok sb -> pool b (c ++ mbufs_of sb ++ l) -> few (c ++ mbufs_of sb ++ l) -> c <> [] -> neat c ->
  does b l sb (rview b (sb_mb sb) ++ [(rbytes b c, ended c)]) b (let sb := sballocs c sb in with_mb (sb_mb sb ++ [c]) sb).
Proof.
  intros [Hb Ht] Hp Hf Hc Hn. destruct (sballocs_ok c sb _ _ Hb) as [Hb1 Ho]. assert (Hmb : sb_mb (sballocs c sb) = sb_mb sb) by (unfold others in Ho; by injection Ho).
  cbv zeta. rewrite Hmb. unfold mbufs_of in *. set (rest := mjoin (sb_mb sb) ++ mjoin []). assert (Hrest : rest = mjoin (sb_mb sb)) by apply app_nil_r.
  rewrite <- Hrest in *. apply (store_at b c [] (sb_mb sb) [] l sb (sballocs c sb) b c); [split; try done|done|done|constructor|done].
Qed.

(** ** Taking out *)

Lemma sbdrop_ok b sb n l : sb_ok sb -> pool b (mbufs_of sb ++ l) -> few (mbufs_of sb ++ l) -> 0 <= n <= m_length (mbufs_of sb) ->
  exists sb' b', sbdrop sb n b = Some (sb', b') /\ does b l sb (a_drop n (rview b (sb_mb sb))) b' sb' /\ space (mbufs_of sb') <= space (mbufs_of sb).
Proof.
  intros [Hb Ht] Hp Hf Hn. unfold sbdrop, mbufs_of in *. set (p := match sb_mb sb with m :: next => (m, next) | [] => ([], []) end).
  assert (Hfirst : exists m next e, p = (m, next) /\ mjoin (sb_mb sb) = m ++ mjoin next /\ neat m /\ tidy next /\ (m <> [] -> e = ended m) /\
    a_drop n (rview b (sb_mb sb)) = a_drop n ((rbytes b m, e) :: rview b next)).
  { unfold p. destruct (sb_mb sb) as [|m next]; [|apply Forall_cons in Ht as [[? ?] ?]; by exists m, next, (ended m)].
    exists [], [], false. split_and!; try done. simpl in Hn. by assert (n = 0) as -> by lia. }
  destruct Hfirst as (m & next & e & -> & Hj & Hm & Hnext & He & Hdrop). rewrite Hj, <- ?app_assoc in *. rewrite Hdrop.
  destruct (drop_loop_ok (S (length m + length (mjoin next) + length next)) b l sb m next n e Hp Hf Hm Hnext Hb He Hn ltac:(lia)) as (m1 & next1 & sb1 & b1 & Hr1 & [D1 D2 D3 D4 D5 D6 D7 D8 D9]).
  rewrite (bind_run _ _ _ _ _ Hr1). destruct (drop_empty_ok m1 b1 l sb1 next1 D1 D2 D5 D6 D7) as (m2 & sb2 & b2 & Hr2 & [E1 E2 E3 E4 E5 E6 E7 E8 E9] & Hm2).
  rewrite (bind_run _ _ _ _ _ Hr2). eexists _, b2. split; [done|].
  assert (Hjoin : mjoin (match m2 with [] => next1 | _ => m2 :: next1 end) = m2 ++ mjoin next1) by (by destruct m2).
  split; [|unfold mbufs_of; cbn [sb_mb with_mb]; rewrite Hjoin; lia]. split; unfold mbufs_of; cbn [sb_mb with_mb]; rewrite ?Hjoin, <- ?app_assoc; try done.
  - by eapply keeps_trans.
  - split; [unfold mbufs_of; simpl; by rewrite Hjoin|]. simpl. destruct m2; [done|]. by constructor.
  - rewrite <- D4, <- E4. unfold rest_view. assert (Hs : Forall (sound b2) m2) by (apply (pool_sounds _ _ _ E1); set_solver).
    destruct m2 as [|y q]; [done|]. destruct (Z.eqb_spec (m_length (y :: q)) 0) as [Hz|]; [|done]. exfalso.
    unfold rest_view in E4. rewrite Hz in E4. simpl in E4. destruct (Z.eqb_spec (m_length m1) 0) as [Hz1|Hnz]; [by apply Hm2 in Hz1|].
    apply (f_equal length) in E4. unfold rview in E4. simpl in E4. rewrite !length_fmap in E4. lia.
  - unfold others in E8, D8. unfold limits. simpl. injection E8 as -> -> -> _ ->. by injection D8 as -> -> -> _ ->.
Qed.

Lemma free_record_ok m : forall b l sb X Y, pool b (m ++ l) -> few (m ++ l) -> books sb (X + m_length m) (Y + space m) ->
  exists sb' b', free_record m sb b = Some (sb', b') /\ pool b' l /\ keeps l b b' /\ books sb' X Y /\ others sb' = others sb.
Proof.
  induction m as [|x r IH]; intros b l sb X Y Hp Hf Hb.
  { exists sb, b. split_and!; try done. eapply books_eq; [exact Hb|simpl; lia|change (space []) with 0; lia]. }
  cbn [free_record]. destruct (free_one b x r l Hp Hf) as (b1 & Hr & Hp1 & Hk1 & Hf1). rewrite (bind_run _ _ _ _ _ Hr).
  destruct (IH b1 l (sbfree x sb) X Y Hp1 Hf1) as (sb' & b' & Hr2 & Hp2 & Hk2 & Hb2 & Ho2).
  { eapply books_eq; [by apply sbfree_books|simpl; lia|rewrite space_cons; lia]. }
  exists sb', b'. split_and!; [done|done| |done|by rewrite Ho2, sbfree_others]. eapply keeps_trans; [|done].
  eapply keeps_sub; [|done]. intros k. rewrite nrefs_app. pose proof (nrefs_nonneg k r). lia.
Qed.

Lemma sbdroprecord_ok b sb l : sb_ok sb -> pool b (mbufs_of sb ++ l) -> few (mbufs_of sb ++ l) ->
  exists sb' b', sbdroprecord sb b = Some (sb', b') /\ does b l sb (tail (rview b (sb_mb sb))) b' sb'.
Proof.
  intros [Hb Ht] Hp Hf. unfold sbdroprecord, mbufs_of in *. destruct (sb_mb sb) as [|m next] eqn:E.
  { exists sb, b. split; [done|]. split; unfold mbufs_of; rewrite ?E; try done. split; unfold mbufs_of; by rewrite E. }
  simpl mjoin in *. rewrite <- app_assoc in Hp, Hf.
  destruct (free_record_ok m b (mjoin next ++ l) (with_mb next sb) (m_length (mjoin next)) (space (mjoin next)) Hp Hf) as (sb' & b' & Hr & Hp1 & Hk & Hb1 & Ho).
  { eapply books_eq; [exact Hb|rewrite m_length_app; lia|rewrite space_app; lia]. }
  unfold others in Ho. simpl in Ho. injection Ho as H1 H2 H3 H4 H5. exists sb', b'. split; [done|]. apply Forall_cons in Ht as [_ Ht].
  split; unfold mbufs_of; rewrite ?H4; try done.
  - intros k. specialize (Hf k). rewrite nrefs_app in Hf. pose proof (nrefs_nonneg k m). lia.
  - eapply keeps_sub; [|exact Hk]. intros k. rewrite nrefs_app. pose proof (nrefs_nonneg k (mjoin next)). lia.
  - split; unfold mbufs_of; by rewrite H4.
  - apply (rview_keeps _ _ _ _ Hk). set_solver.
  - unfold limits. congruence.
Qed.

Definition small_space (sb : sockbuf) : Prop := space (mbufs_of sb) < 2147483648.

Lemma space_pos c : 0 <= space c /\ (space c = 0 -> c = []).
Proof. induction c as [|m c [IH _]]; [done|]. rewrite space_cons. pose proof (mspace_pos m). unfold MSIZE in *. split; [lia|intros; lia]. Qed.
Lemma length_space b c : Forall (sound b) c -> m_length c <= space c.
Proof.
  induction 1 as [|m c [Hm _] _ IH]; [done|]. rewrite space_cons. simpl. destruct Hm. pose proof (m_start_nonneg m).
  assert (m_limit m <= mspace m) by (unfold m_limit, mspace, MLEN, MSIZE, MCLBYTES; destruct (is_ext m); lia). lia.
Qed.

(** The bytes in the records. *)
Fixpoint atotal (A : list arec) : Z := match A with [] => 0 | (bs, _) :: A => zlen bs + atotal A end.
Lemma atotal_nonneg A : 0 <= atotal A.
Proof. induction A as [|[bs e] A IH]; simpl; [lia|]. pose proof (zlen_nonneg bs). lia. Qed.

Lemma a_drop_total A n : A <> [] -> n = atotal A -> (length (a_drop n A) < length A)%nat /\
  atotal (a_drop n A) = 0.
Proof.
  revert n. induction A as [|[bs e] A IH]; intros n Hne Hn; [done|]. cbn [a_drop atotal] in *. pose proof (zlen_nonneg bs). pose proof (atotal_nonneg A).
  destruct (Z.ltb_spec n (zlen bs)); [lia|]. destruct (Z.eqb_spec n (zlen bs)); [split; [simpl; lia|lia]|].
  destruct (IH (n - zlen bs)) as [Hlt Hz]; [intros ->; simpl in *; lia|lia|]. split; [simpl; lia|done].
Qed.

Lemma view_total b rs : Forall (sound b) (mjoin rs) -> atotal (rview b rs) = m_length (mjoin rs).
Proof.
  induction rs as [|r rs IH]; [done|]. change (mjoin (r :: rs)) with (r ++ mjoin rs). intros [Hr Hrs]%Forall_app. simpl.
  by rewrite m_length_app, IH, rbytes_len.
Qed.

Lemma flush_loop_ok fuel : forall b sb l, sb_ok sb -> pool b (mbufs_of sb ++ l) -> few (mbufs_of sb ++ l) -> small_space sb -> (length (sb_mb sb) < fuel)%nat ->
  exists sb' b', flush_loop fuel sb b = Some (sb', b') /\ does b l sb [] b' sb'.
Proof.
  induction fuel as [|fuel IH]; intros b sb l Hok Hp Hf Hsm Hfuel; [lia|]. cbn [flush_loop]. pose proof Hok as [[Hcc Hcnt] Ht].
  destruct (space_pos (mbufs_of sb)) as [Hs0 Hnil]. unfold small_space in Hsm. rewrite Hcnt, u32_small by done.
  destruct (ztrue (space (mbufs_of sb))) eqn:Ez.
  2:{ exists sb, b. split; [done|]. apply negb_false_iff, Z.eqb_eq in Ez. split; try done. assert (Hmb : sb_mb sb = []); [|by rewrite Hmb].
      specialize (Hnil Ez). unfold mbufs_of in Hnil. destruct (sb_mb sb) as [|r rs]; [done|]. apply Forall_cons in Ht as [[Hr _] _]. by destruct r. }
  assert (Hs : Forall (sound b) (mbufs_of sb)) by (by apply (sb_sound b l)). pose proof (length_space b _ Hs). pose proof (m_length_nonneg b _ Hs).
  assert (Hlen : s32 (sb_cc sb) = m_length (mbufs_of sb)) by (rewrite Hcc; mlia). rewrite Hlen.
  destruct (sbdrop_ok b sb (m_length (mbufs_of sb)) l Hok Hp Hf ltac:(lia)) as (sb1 & b1 & Hr & Hd & Hsp). rewrite (bind_run _ _ _ _ _ Hr).
  pose proof Hd as [D1 D2 D3 D4 D5 D6]. assert (Hne : rview b (sb_mb sb) <> []).
  { intros E. apply (f_equal length) in E. unfold rview in E. rewrite length_fmap in E. apply negb_true_iff, Z.eqb_neq in Ez. apply Ez. unfold mbufs_of. by destruct (sb_mb sb). }
  destruct (a_drop_total _ (m_length (mbufs_of sb)) Hne) as [Hlt Hz]; [by rewrite view_total|]. rewrite <- D5 in Hlt, Hz.
  unfold rview in Hlt. rewrite !length_fmap in Hlt.
  destruct (IH b1 sb1 l D4 D1 D2 ltac:(unfold small_space; lia) ltac:(lia)) as (sb2 & b2 & Hr2 & [E1 E2 E3 E4 E5 E6]).
  exists sb2, b2. split; [done|]. split; try done; [by eapply keeps_trans|congruence].
Qed.

Lemma sbflush_ok b sb l : sb_ok sb -> pool b (mbufs_of sb ++ l) -> few (mbufs_of sb ++ l) -> small_space sb -> flag_set (sb_flags sb) SB_LOCK = false ->
  exists sb' b', sbflush sb b = Some (sb', b') /\ does b l sb [] b' sb' /\ sb_cc sb' = 0 /\ sb_mbcnt sb' = 0 /\ sb_mb sb' = [].
Proof.
  intros Hok Hp Hf Hsm Hlock. unfold sbflush. rewrite Hlock.
  destruct (flush_loop_ok (S (length (sb_mb sb))) b sb l Hok Hp Hf Hsm ltac:(lia)) as (sb' & b' & Hr & Hd). rewrite (bind_run _ _ _ _ _ Hr).
  assert (Hmb : sb_mb sb' = []) by (pose proof (do_view _ _ _ _ _ _ Hd) as Hv; unfold rview in Hv; by apply fmap_nil_inv in Hv).
  destruct (ok_books _ (do_ok _ _ _ _ _ _ Hd)) as [Hcc Hcnt]. unfold mbufs_of in Hcc, Hcnt. rewrite Hmb in *. simpl in Hcc, Hcnt.
  rewrite Hcc. simpl. by exists sb', b'.
Qed.

(** ** The calls *)

Inductive scall : Type :=
| SAppend (m : list mbuf)
| SAppendRecord (m : list mbuf)
| SInsertOob (m : list mbuf)
| SAppendAddr (asa : list Z) (m0 control : list mbuf)
| SAppendControl (m0 control : list mbuf)
| SDrop (n : Z)
| SDropRecord
| SFlush.

(** The mbufs that the caller hands over, if the answer is yes. *)
Definition given (c : scall) : list mbuf :=
  match c with
  | SAppend m | SAppendRecord m | SInsertOob m => m
  | SAppendAddr _ m0 control | SAppendControl m0 control => control ++ m0
  | _ => []
  end.

Definition asa_len (asa : list Z) : Z := match asa with n :: _ => n | [] => 0 end.

(** What the call does to the records; [k] records begin with out-of-band data. *)
Definition a_scall (b : mbst) (k : nat) (c : scall) (A : list arec) : list arec :=
  match c with
  | SAppend [] | SAppendRecord [] | SInsertOob [] => A
  | SAppend m => a_append (rbytes b m, ended m) A
  | SAppendRecord m => A ++ [(rbytes b m, ended m)]
  | SInsertOob m => take k A ++ (rbytes b m, ended m) :: drop k A
  | SAppendAddr asa m0 control =>
      A ++ [(((fun x => (MT_SONAME, x)) <$> take (Z.to_nat (asa_len asa)) asa) ++ rbytes b (control ++ m0), ended (control ++ m0))]
  | SAppendControl m0 control => A ++ [(rbytes b (control ++ m0), ended (control ++ m0))]
  | SDrop n => a_drop n A
  | SDropRecord => tail A
  | SFlush => []
  end.

(** The bytes for which the call wants space. *)
Definition wants (c : scall) : option Z :=
  match c with
  | SAppendAddr asa m0 control => Some (asa_len asa + m_length (control ++ m0))
  | SAppendControl m0 control => Some (m_length (control ++ m0))
  | _ => None
  end.

Lemma lens_run c a : Forall (fun m => 0 <= m_len m) c -> 0 <= a -> a + m_length c < 2147483648 -> lens c a = a + m_length c.
Proof.
  revert a. induction c as [|x c IH]; intros a Hc Ha Hl; [unfold lens; simpl; lia|]. apply Forall_cons in Hc as [Hx Hc]. cbn [lens foldl m_length] in *.
  assert (Hc0 : 0 <= m_length c) by (clear -Hc; induction Hc; simpl; lia). unfold lens in *. cbn [foldl]. replace (s32 (a + m_len x)) with (a + m_len x) by mlia.
  rewrite IH; [lia|done|lia|lia].
Qed.

Section Calls.
Context {S : Type} `{!HasMbufs S, !Drains S, !DrainLaws S}.

Definition do_scall (c : scall) (sb : sockbuf) : K S (sockbuf * bool) :=
  match c with
  | SAppend m => let! sb := mb (sbappend sb m) in kret (sb, true)
  | SAppendRecord m => let! sb := mb (sbappendrecord sb m) in kret (sb, true)
  | SInsertOob m => let! sb := mb (sbinsertoob sb m) in kret (sb, true)
  | SAppendAddr asa m0 control => sbappendaddr sb asa m0 control
  | SAppendControl m0 control => knonnull (sbappendcontrol sb m0 control)
  | SDrop n => let! sb := mb (sbdrop sb n) in kret (sb, true)
  | SDropRecord => let! sb := mb (sbdroprecord sb) in kret (sb, true)
  | SFlush => let! sb := mb (sbflush sb) in kret (sb, true)
  end.

(** The buffer [sb] in the state [s], while others have the mbufs [l]. *)
Record holds (s : S) (sb : sockbuf) (l : list mbuf) : Prop := {
  hl_inuse : inuse s (mbufs_of sb ++ l);
  hl_few : few (held s ++ mbufs_of sb ++ l);
  hl_ok : sb_ok sb }.

(** What the caller of [c] sees to: packets have headers with their lengths, addresses theirs. *)
Definition scall_ok (sb : sockbuf) (c : scall) : Prop :=
  match c with
  | SAppend _ | SAppendRecord _ | SInsertOob _ | SDropRecord => True
  | SAppendAddr asa m0 control => 0 <= asa_len asa <= zlen asa /\ asa <> [] /\ neat (control ++ m0) /\
      (match m0 with x :: _ => is_hdr x = true /\ len (m_pkthdr x) = m_length m0 | [] => True end) /\ asa_len asa + m_length (control ++ m0) < 2147483648
  | SAppendControl m0 control => control <> [] /\ neat (control ++ m0) /\ m_length (control ++ m0) < 2147483648
  | SDrop n => 0 <= n <= m_length (mbufs_of sb)
  | SFlush => flag_set (sb_flags sb) SB_LOCK = false /\ small_space sb
  end.

(** The call has the answer [ok] and leaves [sb'] with the records [A]. *)
Record done_call (s : S) (c : scall) (l : list mbuf) (sb : sockbuf) (ok : bool) (A : list arec) (s' : S) (sb' : sockbuf) : Prop := {
  dc_holds : holds s' sb' ((if ok then [] else given c) ++ l);
  dc_kept : kept l s s';
  dc_view : rview (mb_get s') (sb_mb sb') = A;
  dc_limits : limits sb' = limits sb }.

Lemma does_done s c l sb A b' sb' : does (mb_get s) (held s ++ l) sb A b' sb' -> own_inv s -> done_call s c l sb true A (mb_put b' s) sb'.
Proof.
  intros [D1 D2 D3 D4 D5 D6] Hi. split; [split; [| |done]| | |done].
  - split; [by apply own_put|]. rewrite mb_get_put, held_put, Permutation_app_swap_app. done.
  - by rewrite held_put, Permutation_app_swap_app.
  - by apply kept_put.
  - by rewrite mb_get_put.
Qed.

Lemma held_out s m sb l : holds s sb (m ++ l) ->
  own_inv s /\ pool (mb_get s) (m ++ mbufs_of sb ++ held s ++ l) /\ few (m ++ mbufs_of sb ++ held s ++ l) /\ sb_ok sb.
Proof.
  intros [[Hi Hp] Hf Hok]. assert (Hperm : held s ++ mbufs_of sb ++ m ++ l ≡ₚ m ++ mbufs_of sb ++ held s ++ l) by solve_Permutation.
  rewrite Hperm in Hp, Hf. done.
Qed.

(** Calls that only work on the pool. *)
Lemma pool_call s c sb l (m : K mbst sockbuf) A : holds s sb (given c ++ l) -> do_scall c sb = (let! sb := mb m in kret (sb, true)) ->
  (exists sb' b', m (mb_get s) = Some (sb', b') /\ does (mb_get s) (held s ++ l) sb A b' sb') ->
  exists sb' s', do_scall c sb s = Some ((sb', true), s') /\ done_call s c l sb true A s' sb'.
Proof.
  intros Hh -> (sb' & b' & Hr & Hd). exists sb', (mb_put b' s). rewrite (bind_run _ _ _ _ _ (mb_run _ _ _ _ Hr)). split; [done|].
  apply does_done; [done|]. apply (hl_inuse _ _ _ Hh).
Qed.

Lemma nothing_done s c l sb (ok : bool) : holds s sb ((if ok then [] else given c) ++ l) -> done_call s c l sb ok (rview (mb_get s) (sb_mb sb)) s sb.
Proof. intros Hh. by split. Qed.

Lemma control_call s sb m0 control l : let c := SAppendControl m0 control in holds s sb (given c ++ l) -> scall_ok sb c ->
  exists sb' ok s', do_scall c sb s = Some ((sb', ok), s') /\
    done_call s c l sb ok (if ok then a_scall (mb_get s) 0 c (rview (mb_get s) (sb_mb sb)) else rview (mb_get s) (sb_mb sb)) s' sb' /\
    (ok = true <-> m_length (control ++ m0) <= sbspace sb).
Proof.
  intros c Hh (Hne & Hneat & Hsmall). destruct (held_out s _ sb l Hh) as (Hi & Hp & Hf & Hok). simpl given in *.
  assert (Hs : Forall (fun m => 0 <= m_len m) (control ++ m0)).
  { apply (Forall_impl (sound (mb_get s))); [by eapply sb_sound|]. intros x [Hx _]. apply Hx. }
  unfold do_scall, c, sbappendcontrol. assert (Hgo : forall o : option (sockbuf * bool), match control with [] => None | _ => o end = o) by (by destruct control). rewrite Hgo. clear Hgo.
  apply Forall_app in Hs as [Hs1 Hs2]. rewrite m_length_app in *.
  assert (Hl1 : 0 <= m_length control) by (clear -Hs1; induction Hs1; simpl; lia). assert (Hl2 : 0 <= m_length m0) by (clear -Hs2; induction Hs2; simpl; lia).
  rewrite (lens_run control 0), (lens_run m0) by (done || lia). rewrite Z.add_0_l. destruct (Z.ltb_spec (sbspace sb) (m_length control + m_length m0)) as [Hlt|Hge].
  - exists sb, false, s. split; [done|]. split; [by apply (nothing_done s c)|]. split; [done|lia].
  - pose proof (add_record _ sb (control ++ m0) (held s ++ l) Hok Hp Hf ltac:(by destruct control) Hneat) as Hd. cbv zeta in Hd.
    eexists _, true, s. split; [done|]. split; [|split; [lia|done]]. pose proof (does_done s c l sb _ _ _ Hd Hi) as Hdone. by rewrite mb_put_get in Hdone.
Qed.

(** The address as an mbuf. *)
Lemma name_mbuf s m n w l : fresh_mbuf MT_SONAME 0 0 m -> alloc (mb_get s) m l -> zlen w = n -> 0 <= n <= MLEN ->
  exists m', put_at (set_len n m) 0 w = Some m' /\ pool (mb_get s) (m' :: l) /\ tagged (mb_get s) m' = (fun x => (MT_SONAME, x)) <$> w /\
    is_eor m' = false /\ m_len m' = n /\ is_ext m' = false.
Proof.
  intros (Ft & Ff & Fd & Fz) Ha Hw Hn. assert (He : is_ext (set_len n m) = false) by (unfold is_ext, flag_set; simpl; by rewrite Ff).
  destruct (put_at_run (mb_get s) (set_len n m) 0 w He Fz) as (d & Hput & Hd & Hb); [simpl; lia|lia|simpl; lia|].
  exists (set_dat d (set_len n m)). split; [done|]. rewrite Hw in Hb. split_and!; [| |unfold is_eor, flag_set; simpl; by rewrite Ff|done|done].
  - apply (alloc_pool _ m); [done| |done|done]. split; simpl; [by rewrite Ft|done|lia|unfold m_start, is_hdr, flag_set; simpl; rewrite Ff, Fd; simpl; lia|].
    unfold m_limit, is_ext, flag_set. simpl. rewrite Ff, Fd. simpl. lia.
  - unfold tagged. simpl. rewrite Ft. f_equal. exact Hb.
Qed.

Definition lack (s : S) : Prop := None ∈ malloc_ans (mb_get s).

Lemma addr_go s sb asa m0 control l : let c := SAppendAddr asa m0 control in holds s sb (given c ++ l) -> scall_ok sb c -> asa_len asa <= MLEN ->
  exists sb' ok s', (let! o := MGET MT_SONAME in
     match o with
     | None => kret (sb, false)
     | Some m => let! w := knonnull (slice asa 0 (asa_len asa)) in let! m := knonnull (put_at (set_len (asa_len asa) m) 0 w) in
                 let c := m :: control ++ m0 in let sb := sballocs c sb in kret (with_mb (sb_mb sb ++ [c]) sb, true)
     end) s = Some ((sb', ok), s') /\
    done_call s c l sb ok (if ok then a_scall (mb_get s) 0 c (rview (mb_get s) (sb_mb sb)) else rview (mb_get s) (sb_mb sb)) s' sb' /\
    (ok = false -> lack s).
Proof.
  intros c Hh (Hasa & Hne & Hneat & Hhdr & Hsmall) Hmlen. destruct Hh as [Hu Hf Hok]. simpl given in *. set (all := mbufs_of sb ++ (control ++ m0) ++ l) in *.
  destruct (MGET_ok s all MT_SONAME ltac:(done) Hu Hf) as (o & s1 & Hget & Hi1 & Hk1 & Ho). rewrite (bind_run _ _ _ _ _ Hget).
  assert (Hkl : kept l s s1) by (eapply kept_sub; [|exact Hk1]; intros k; unfold all; rewrite !nrefs_app; pose proof (nrefs_nonneg k (mbufs_of sb)); pose proof (nrefs_nonneg k control); pose proof (nrefs_nonneg k m0); lia).
  assert (Hf1 : few (held s1 ++ all)) by (by apply (kept_few _ s)).
  assert (Hview : rview (mb_get s1) (sb_mb sb) = rview (mb_get s) (sb_mb sb)) by (apply (rview_keeps _ _ _ _ (kt_keeps _ _ _ Hk1)); unfold all, mbufs_of; set_solver).
  destruct o as [m|].
  2:{ destruct Ho as [Hp1 Hans]. exists sb, false, s1. split; [done|]. split; [|done]. split; try done. }
  destruct Ho as [Hfr Hal]. set (n := asa_len asa) in *.
  assert (Hsl : slice asa 0 n = Some (take (Z.to_nat n) asa)).
  { unfold slice. destruct (Z.leb_spec 0 0); [|lia]. destruct (Z.leb_spec 0 n); [|lia]. destruct (Z.leb_spec (0 + n) (zlen asa)); [|lia]. done. }
  rewrite (bind_nonnull _ _ _ _ Hsl). assert (Hzl : zlen (take (Z.to_nat n) asa) = n) by (rewrite zlen_take; lia).
  destruct (name_mbuf s1 m n _ _ Hfr Hal Hzl ltac:(lia)) as (m' & Hput & Hp1 & Htag & Heor & Hlen & Hext). rewrite (bind_nonnull _ _ _ _ Hput).
  assert (Hperm : m' :: held s1 ++ all ≡ₚ (m' :: control ++ m0) ++ mbufs_of sb ++ held s1 ++ l) by (unfold all; solve_Permutation).
  assert (Hf2 : few (m' :: held s1 ++ all)) by (intros k; specialize (Hf1 k); rewrite nrefs_cons; unfold ref1; rewrite Hext; simpl; lia).
  rewrite Hperm in Hp1, Hf2. assert (Hneat' : neat (m' :: control ++ m0)).
  { clear -Hneat Heor. unfold neat in *. destruct (control ++ m0) as [|z zs]; [done|].
    change (is_eor m' || ended (removelast (z :: zs)) = false). by rewrite Heor. }
  pose proof (add_record _ sb (m' :: control ++ m0) (held s1 ++ l) Hok Hp1 Hf2 ltac:(done) Hneat') as Hd. cbv zeta in Hd.
  pose proof (does_done s1 c l sb _ _ _ Hd Hi1) as Hdone. rewrite mb_put_get in Hdone. destruct Hdone as [H1 H2 H3 H4].
  cbv zeta. eexists _, true, s1. split; [reflexivity|]. split; [|done]. split; [done|done| |done]. rewrite H3, Hview, rbytes_cons, Htag. unfold c. simpl a_scall.
  rewrite (rbytes_keeps _ _ _ (control ++ m0) (kt_keeps _ _ _ Hk1)) by (unfold all; set_solver). simpl. by rewrite Heor.
Qed.

Lemma addr_call s sb asa m0 control l : let c := SAppendAddr asa m0 control in holds s sb (given c ++ l) -> scall_ok sb c ->
  exists sb' ok s', do_scall c sb s = Some ((sb', ok), s') /\
    done_call s c l sb ok (if ok then a_scall (mb_get s) 0 c (rview (mb_get s) (sb_mb sb)) else rview (mb_get s) (sb_mb sb)) s' sb' /\
    (ok = true -> asa_len asa + m_length (control ++ m0) <= sbspace sb) /\
    (ok = false -> sbspace sb < asa_len asa + m_length (control ++ m0) \/ MLEN < asa_len asa \/ lack s).
Proof.
  intros c Hh Hok. pose proof Hok as (Hasa & Hne & _ & Hhdr & Hsmall). destruct (held_out s _ sb l Hh) as (_ & Hp & _ & _). simpl given in Hp.
  assert (Hs : Forall (fun m => 0 <= m_len m) (control ++ m0)).
  { apply (Forall_impl (sound (mb_get s))); [by eapply sb_sound|]. intros x [Hx _]. apply Hx. }
  apply Forall_app in Hs as [Hs1 Hs2]. rewrite m_length_app in *.
  assert (Hl1 : 0 <= m_length control) by (clear -Hs1; induction Hs1; simpl; lia). assert (Hl2 : 0 <= m_length m0) by (clear -Hs2; induction Hs2; simpl; lia).
  unfold do_scall, c, sbappendaddr. rewrite (bind_nonnull _ _ _ (asa_len asa)) by (by destruct asa). set (n := asa_len asa) in *.
  assert (Hspace : forall f : Z -> K S (sockbuf * bool), kbind (match m0 with [] => kret n | x :: _ => if is_hdr x then kret (s32 (n + len (m_pkthdr x))) else kpanic end) f s
    = f (n + m_length m0) s).
  { intros f. destruct m0 as [|x q]; [simpl; by rewrite Z.add_0_r|]. destruct Hhdr as [-> ->]. unfold kbind, kret. by replace (s32 (n + m_length (x :: q))) with (n + m_length (x :: q)) by mlia. }
  rewrite Hspace. clear Hspace. rewrite lens_run by (done || lia). replace (n + m_length m0 + m_length control) with (n + (m_length control + m_length m0)) by lia.
  destruct (Z.ltb_spec (sbspace sb) (n + (m_length control + m_length m0))) as [Hlt|Hge].
  { exists sb, false, s. split; [done|]. split; [by apply (nothing_done s c)|]. split; [done|]. intros _. by left. }
  destruct (Z.ltb_spec MLEN n) as [Hlt2|Hle].
  { exists sb, false, s. split; [done|]. split; [by apply (nothing_done s c)|]. split; [done|]. intros _. right. by left. }
  destruct (addr_go s sb asa m0 control l Hh Hok Hle) as (sb' & ok & s' & Hr & Hd & Hlack). exists sb', ok, s'. split; [exact Hr|]. split; [exact Hd|].
  split; [done|]. intros Ho. right. right. by apply Hlack.
Qed.

(** The answer of a call: no for want of space, or of an mbuf for the address, and not else. *)
Definition answered (s : S) (sb : sockbuf) (c : scall) (ok : bool) : Prop :=
  match wants c with
  | None => ok = true
  | Some n => (ok = true -> n <= sbspace sb) /\
      (ok = false -> sbspace sb < n \/ match c with SAppendAddr asa _ _ => MLEN < asa_len asa \/ lack s | _ => False end)
  end.

Lemma empty_call s c sb l : holds s sb (given c ++ l) -> given c = [] -> do_scall c sb = (let! sb := mb (kret sb) in kret (sb, true)) ->
  exists sb' s', do_scall c sb s = Some ((sb', true), s') /\ done_call s c l sb true (rview (mb_get s) (sb_mb sb)) s' sb'.
Proof.
  intros Hh Hg ->. exists sb, s. assert (Hr : mb (kret sb) s = Some (sb, s)) by (rewrite (mb_run _ s sb (mb_get s)) by done; by rewrite mb_put_get).
  rewrite (bind_run _ _ _ _ _ Hr). split; [done|]. apply nothing_done. by rewrite Hg in Hh.
Qed.

Lemma call_run s sb c l : holds s sb (given c ++ l) -> scall_ok sb c -> exists sb' ok s', do_scall c sb s = Some ((sb', ok), s') /\
  done_call s c l sb ok (if ok then a_scall (mb_get s) (oob_records (sb_mb sb)) c (rview (mb_get s) (sb_mb sb)) else rview (mb_get s) (sb_mb sb)) s' sb' /\
  answered s sb c ok.
Proof.
  intros Hh Hc. destruct (held_out s _ sb l Hh) as (Hi & Hp & Hf & Hok).
  assert (Hyes : wants c = None -> (exists sb' s', do_scall c sb s = Some ((sb', true), s') /\
      done_call s c l sb true (a_scall (mb_get s) (oob_records (sb_mb sb)) c (rview (mb_get s) (sb_mb sb))) s' sb') -> exists sb' ok s', do_scall c sb s = Some ((sb', ok), s') /\
    done_call s c l sb ok (if ok then a_scall (mb_get s) (oob_records (sb_mb sb)) c (rview (mb_get s) (sb_mb sb)) else rview (mb_get s) (sb_mb sb)) s' sb' /\
    answered s sb c ok).
  { intros Hw (sb' & s' & Hr & Hd). exists sb', true, s'. split_and!; [done|done|]. unfold answered. by rewrite Hw. }
  destruct c as [m|m|m|asa m0 control|m0 control|n| |].
  - apply Hyes; [done|]. destruct m; [exact (empty_call s (SAppend []) sb l Hh eq_refl eq_refl)|]. by eapply pool_call; [| |apply sbappend_ok].
  - apply Hyes; [done|]. destruct m; [exact (empty_call s (SAppendRecord []) sb l Hh eq_refl eq_refl)|]. by eapply pool_call; [| |apply sbappendrecord_ok].
  - apply Hyes; [done|]. destruct m; [exact (empty_call s (SInsertOob []) sb l Hh eq_refl eq_refl)|]. by eapply pool_call; [| |apply sbinsertoob_ok].
  - destruct (addr_call s sb asa m0 control l Hh Hc) as (sb' & ok & s' & Hr & Hd & H1 & H2). by exists sb', ok, s'.
  - destruct (control_call s sb m0 control l Hh Hc) as (sb' & ok & s' & Hr & Hd & Hiff). exists sb', ok, s'. split_and!; [done|done|].
    unfold answered, wants. split; [apply Hiff|]. intros ->. left. destruct (Z.ltb_spec (sbspace sb) (m_length (control ++ m0))); [done|]. by apply Hiff in H.
  - apply Hyes; [done|]. eapply pool_call; [done|done|]. destruct (sbdrop_ok _ sb n _ Hok Hp Hf Hc) as (sb' & b' & Hr & Hd & _). by exists sb', b'.
  - apply Hyes; [done|]. by eapply pool_call; [| |apply sbdroprecord_ok].
  - apply Hyes; [done|]. eapply pool_call; [done|done|]. destruct Hc as [Hc1 Hc2]. destruct (sbflush_ok _ sb _ Hok Hp Hf Hc2 Hc1) as (sb' & b' & Hr & Hd & _). by exists sb', b'.
Qed.

(** C21. A call on a socket buffer, whose caller does what the source panics or relies on -
    takes off no more than is there, flushes only a buffer that is not locked, gives lengths
    and packet headers that are true and less than 2^31 bytes - never fails and does to its
    records what it promises: sbappend puts the bytes of the chain at the end of the last
    record, or into a new one after one that has ended, whatever mbufs are copied together
    or freed as empty; sbdrop takes bytes off the front, with the records that they empty;
    and so the others. The counts of bytes and of memory stay exact, the data of others as
    it was, and every mbuf is in the buffer, with the caller or free. Only the calls that
    look at the space refuse, and for a reason. *)
Theorem sockbuf_call_refines s sb c l : holds s sb (given c ++ l) -> scall_ok sb c -> exists sb' ok s', do_scall c sb s = Some ((sb', ok), s') /\
  done_call s c l sb ok (if ok then a_scall (mb_get s) (oob_records (sb_mb sb)) c (rview (mb_get s) (sb_mb sb)) else rview (mb_get s) (sb_mb sb)) s' sb' /\
  answered s sb c ok.
Proof. intros Hh Hc. destruct (call_run s sb c l Hh Hc) as (sb' & ok & s' & Hr & Hd & Ha). by exists sb', ok, s'. Qed.
End Calls.

(** ** A stream *)

Definition content (A : list arec) : list Z := mjoin ((fun r => snd <$> r.1) <$> A).

Lemma content_bytes b rs : content (rview b rs) = cbytes b (mjoin rs).
Proof.
  induction rs as [|r rs IH]; [done|]. change (mjoin (r :: rs)) with (r ++ mjoin rs). rewrite cbytes_app, <- IH, <- rbytes_untag. done.
Qed.
Lemma content_total A : zlen (content A) = atotal A.
Proof.
  induction A as [|[bs e] A IH]; [done|]. change (content ((bs, e) :: A)) with ((snd <$> bs) ++ content A). rewrite zlen_app, IH. unfold zlen. by rewrite length_fmap.
Qed.

(** One record at most, which has not ended. *)
Definition flowing (A : list arec) : Prop := A = [] \/ exists bs, A = [(bs, false)].

Lemma append_flowing bs A : flowing A -> flowing (a_append (bs, false) A) /\ content (a_append (bs, false) A) = content A ++ (snd <$> bs).
Proof.
  intros [->|[bs0 ->]].
  - unfold a_append. simpl. destruct bs as [|x bs]; [by split; [left|]|]. split; [right; by eexists|]. apply app_nil_r.
  - change (a_append (bs, false) [(bs0, false)]) with [(bs0 ++ bs, false)]. split; [right; by eexists|].
    unfold content. simpl. by rewrite !app_nil_r, fmap_app.
Qed.
Lemma drop_flowing n A : flowing A -> 0 <= n <= zlen (content A) -> flowing (a_drop n A) /\ content (a_drop n A) = drop (Z.to_nat n) (content A).
Proof.
  rewrite content_total. intros [->|[bs ->]] Hn; cbn [a_drop atotal] in *; [split; [by left|]; change (content []) with (@nil Z); by rewrite drop_nil|].
  unfold content. simpl. rewrite app_nil_r. destruct (Z.ltb_spec n (zlen bs)) as [Hlt|Hge].
  - split; [right; by eexists|]. simpl. by rewrite app_nil_r, fmap_drop.
  - destruct (Z.eqb_spec n (zlen bs)) as [->|]; [|lia]. split; [by left|]. simpl. symmetry. apply drop_ge. rewrite length_fmap. unfold zlen. lia.
Qed.

Section Streams.
Context {S : Type} `{!HasMbufs S, !Drains S, !DrainLaws S}.

(** A buffer that was empty in [s], and since then was given the bytes [w] and has lost the first
    [r] of them; in between the others allocate, fill and free mbufs, all but those of the buffer. *)
Inductive streams (s : S) (sb : sockbuf) (l : list mbuf) : list Z -> Z -> S -> sockbuf -> list mbuf -> Prop :=
| sm_start : sb_mb sb = [] -> holds s sb l -> streams s sb l [] 0 s sb l
| sm_write w r s1 sb1 m l1 ok s2 sb2 : streams s sb l w r s1 sb1 (m ++ l1) -> ended m = false -> do_scall (SAppend m) sb1 s1 = Some ((sb2, ok), s2) ->
    streams s sb l (w ++ cbytes (mb_get s1) m) r s2 sb2 l1
| sm_read w r s1 sb1 l1 n ok s2 sb2 : streams s sb l w r s1 sb1 l1 -> 0 <= n <= m_length (mbufs_of sb1) -> do_scall (SDrop n) sb1 s1 = Some ((sb2, ok), s2) ->
    streams s sb l w (r + n) s2 sb2 l1
| sm_rest w r s1 sb1 l1 b l2 : streams s sb l w r s1 sb1 l1 -> keeps (held s1 ++ mbufs_of sb1) (mb_get s1) b -> holds (mb_put b s1) sb1 l2 ->
    streams s sb l w r (mb_put b s1) sb1 l2.

Record flow (w : list Z) (r : Z) (s : S) (sb : sockbuf) (l : list mbuf) : Prop := {
  fl_holds : holds s sb l;
  fl_one : flowing (rview (mb_get s) (sb_mb sb));
  fl_read : 0 <= r <= zlen w;
  fl_bytes : cbytes (mb_get s) (mbufs_of sb) = drop (Z.to_nat r) w }.

Lemma holds_sound s sb l : holds s sb l -> Forall (sound (mb_get s)) (mbufs_of sb).
Proof. intros [[_ Hp] _ _]. apply (pool_sounds _ _ _ Hp). set_solver. Qed.

Lemma streams_flow s sb l w r s' sb' l' : streams s sb l w r s' sb' l' -> flow w r s' sb' l'.
Proof.
  induction 1 as [Hnil Hh|w r s1 sb1 m l1 ok s2 sb2 _ [F1 F2 F3 F4] Hm Hr|w r s1 sb1 l1 n ok s2 sb2 _ [F1 F2 F3 F4] Hn Hr|w r s1 sb1 l1 b l2 _ [F1 F2 F3 F4] Hk Hh].
  - split; [done| |by change (zlen (@nil Z)) with 0|]; unfold mbufs_of; rewrite Hnil; [by left|done].
  - destruct (call_run s1 sb1 (SAppend m) l1 F1 I) as (sb' & ok' & s' & Hr' & [D1 D2 D3 D4] & Ha). rewrite Hr in Hr'. injection Hr' as <- <- <-.
    unfold answered in Ha. simpl in Ha. subst ok. simpl in D1, D3. assert (Ha : a_scall (mb_get s1) (oob_records (sb_mb sb1)) (SAppend m) (rview (mb_get s1) (sb_mb sb1)) =
      if decide (m = []) then rview (mb_get s1) (sb_mb sb1) else a_append (rbytes (mb_get s1) m, false) (rview (mb_get s1) (sb_mb sb1))).
    { case_decide as E; [by subst|]. rewrite <- Hm. by destruct m. }
    simpl in Ha. rewrite Ha in D3. destruct (append_flowing (rbytes (mb_get s1) m) _ F2) as [A1 A2].
    assert (Hcont : flowing (rview (mb_get s2) (sb_mb sb2)) /\ content (rview (mb_get s2) (sb_mb sb2)) = content (rview (mb_get s1) (sb_mb sb1)) ++ cbytes (mb_get s1) m).
    { rewrite D3, <- rbytes_untag. case_decide as E; [subst; split; [done|]; symmetry; apply app_nil_r|done]. }
    destruct Hcont as [C1 C2]. rewrite !content_bytes in C2. unfold mbufs_of in *. split; [done|done|rewrite zlen_app; pose proof (zlen_nonneg (cbytes (mb_get s1) m)); lia|].
    unfold mbufs_of. rewrite C2, F4. rewrite drop_app_le by (unfold zlen in F3; lia). done.
  - destruct (call_run s1 sb1 (SDrop n) l1 F1 Hn) as (sb' & ok' & s' & Hr' & [D1 D2 D3 D4] & Ha). rewrite Hr in Hr'. injection Hr' as <- <- <-.
    unfold answered in Ha. simpl in Ha. subst ok. simpl in D1, D3. pose proof (holds_sound _ _ _ F1) as Hs.
    assert (Hlen : zlen (content (rview (mb_get s1) (sb_mb sb1))) = m_length (mbufs_of sb1)) by (rewrite content_bytes; by apply cbytes_len).
    destruct (drop_flowing n _ F2 ltac:(lia)) as [A1 A2]. rewrite <- D3 in A1, A2. rewrite !content_bytes in A2. unfold mbufs_of in *.
    assert (Hn2 : n <= zlen w - r) by (rewrite <- (cbytes_len _ _ Hs), F4 in Hn; unfold zlen in *; rewrite length_drop in Hn; lia).
    split; [done|done|lia|]. unfold mbufs_of. rewrite A2, F4, drop_drop. f_equal. lia.
  - assert (Hv : rview b (sb_mb sb1) = rview (mb_get s1) (sb_mb sb1)) by (apply (rview_keeps _ _ _ _ Hk); unfold mbufs_of; set_solver).
    split; rewrite ?mb_get_put; [done|by rewrite Hv|done|]. by rewrite (keeps_cbytes _ _ _ _ Hk) by set_solver.
Qed.

(** C22. The send buffer of a stream has just the bytes that were put in and not yet
    dropped, in order, whatever mbufs they came in and however they were copied together;
    its count is their number, in 32 bits; and a copy that the protocol takes of it with
    m_copym to send or to send again has the bytes of the stream from that place (within the
    stream, with at most 256 references to a cluster), unless mbufs are wanting. *)
Theorem stream_kept s sb l w r s' sb' l' off n : streams s sb l w r s' sb' l' ->
  cbytes (mb_get s') (mbufs_of sb') = drop (Z.to_nat r) w /\ sb_cc sb' = u32 (zlen w - r) /\ sb_mbcnt sb' = u32 (space (mbufs_of sb')) /\
  (0 <= off -> 0 < n -> off + n <= zlen w - r < M_COPYALL -> (forall x, nrefs x (held s' ++ mbufs_of sb' ++ l') + nrefs x (mbufs_of sb') <= 256) ->
    exists d s2, m_copym (mbufs_of sb') off n s' = Some (d, s2) /\ inuse s2 (d ++ mbufs_of sb' ++ l') /\
      (cbytes (mb_get s2) d = take (Z.to_nat n) (drop (Z.to_nat (r + off)) w) \/ d = [] /\ lack s')).
Proof.
  intros [F1 F2 F3 F4]%streams_flow. pose proof (holds_sound _ _ _ F1) as Hs. destruct F1 as [Hu Hf [[Hcc Hcnt] Ht]].
  assert (Hlen : m_length (mbufs_of sb') = zlen w - r) by (rewrite <- (cbytes_len _ _ Hs), F4; unfold zlen in *; rewrite length_drop; lia).
  split_and!; [done|by rewrite Hcc, Hlen|done|]. intros Ho Hn Hend Href.
  assert (Hw : want (mbufs_of sb') off n = n) by (unfold want; destruct (Z.eqb_spec n M_COPYALL); lia).
  destruct (m_copym_ok s' (mbufs_of sb') (mbufs_of sb' ++ l') off n Hu) as (d & s2 & Hr & Hk & Hd); try done; [|set_solver|lia|lia|lia|].
  { intros E. rewrite E in Hlen. simpl in Hlen. lia. }
  exists d, s2. split; [done|]. rewrite Hw in Hd. destruct Hd as [(Hu2 & _ & _ & Hb)|(-> & Hu2 & Hans)]; [split; [done|left]|split; [done|by right]].
  rewrite Hb, F4, drop_drop. f_equal. f_equal. lia.
Qed.
End Streams.

(** ** Limits *)

Section Limits.
Context {S : Type} `{!HasMbufs S, !Drains S, !DrainLaws S}.

(** Calls that add to the data without a look at the space. *)
Definition unchecked (c : scall) : bool := match c with SAppend _ | SAppendRecord _ | SInsertOob _ => true | _ => false end.

Lemma a_drop_less n A : 0 <= n <= atotal A -> atotal (a_drop n A) = atotal A - n.
Proof.
  revert n. induction A as [|[bs e] A IH]; intros n Hn; cbn [a_drop atotal] in *; [lia|]. pose proof (zlen_nonneg bs).
  destruct (Z.ltb_spec n (zlen bs)); [cbn [atotal]; rewrite zlen_drop; lia|]. destruct (Z.eqb_spec n (zlen bs)); [lia|]. rewrite IH; lia.
Qed.
Lemma atotal_app A B : atotal (A ++ B) = atotal A + atotal B.
Proof. induction A as [|[bs e] A IH]; simpl; [done|]. lia. Qed.
Lemma atotal_tail A : 0 <= atotal (tail A) <= atotal A.
Proof. destruct A as [|[bs e] A]; simpl; [lia|]. pose proof (zlen_nonneg bs). pose proof (atotal_nonneg A). lia. Qed.

(** The bytes in the buffer after the call. *)
Lemma call_total s sb c l : holds s sb (given c ++ l) -> scall_ok sb c -> unchecked c = false ->
  let A := rview (mb_get s) (sb_mb sb) in let A' := a_scall (mb_get s) (oob_records (sb_mb sb)) c A in
  match wants c with Some n => atotal A' = atotal A + n | None => 0 <= atotal A' <= atotal A end.
Proof.
  intros Hh Hc Hu A A'. destruct (held_out s _ sb l Hh) as (_ & Hp & _ & _). pose proof (atotal_nonneg A).
  assert (Hg : Forall (sound (mb_get s)) (given c)) by (by eapply sb_sound).
  assert (HA : atotal A = m_length (mbufs_of sb)) by (unfold A; apply view_total, (pool_sounds _ _ _ Hp); unfold mbufs_of; set_solver).
  destruct c as [m|m|m|asa m0 control|m0 control|n| |]; try done; unfold A'; simpl a_scall; simpl wants; simpl given in Hg.
  - destruct Hc as (Hasa & _). rewrite atotal_app. cbn [atotal]. rewrite zlen_app, (rbytes_len _ _ Hg). unfold zlen at 1. rewrite length_fmap, length_take. unfold zlen in Hasa. lia.
  - rewrite atotal_app. cbn [atotal]. rewrite (rbytes_len _ _ Hg). lia.
  - simpl in Hc. rewrite a_drop_less by lia. lia.
  - apply atotal_tail.
Qed.

(** C23. No call that looks at the space, and none that takes data out, leaves more in the buffer than
    its high-water mark when there was not more before; what is let in is counted to the byte. *)
Theorem within_limits s sb c l : holds s sb (given c ++ l) -> scall_ok sb c -> unchecked c = false -> small_space sb ->
  0 <= sb_hiwat sb < 2147483648 -> sb_cc sb <= sb_hiwat sb ->
  exists sb' ok s', do_scall c sb s = Some ((sb', ok), s') /\ sb_hiwat sb' = sb_hiwat sb /\ sb_cc sb' <= sb_hiwat sb' /\
    (ok = true -> forall n, wants c = Some n -> sb_cc sb' = sb_cc sb + n).
Proof.
  intros Hh Hc Hu Hsm Hhi Hcc. destruct (call_run s sb c l Hh Hc) as (sb' & ok & s' & Hr & [D1 D2 D3 D4] & Ha). exists sb', ok, s'. split; [done|].
  unfold limits in D4. injection D4 as -> _ _ _. split; [done|].
  pose proof (call_total s sb c l Hh Hc Hu) as Ht. cbv zeta in Ht. set (A := rview (mb_get s) (sb_mb sb)) in *. set (A' := a_scall _ _ c A) in *.
  assert (HA : sb_cc sb = u32 (atotal A)) by (unfold A; rewrite view_total by (by apply (holds_sound _ _ (given c ++ l))); apply Hh).
  assert (HA' : sb_cc sb' = u32 (atotal (if ok then A' else A))) by (rewrite <- D3; rewrite view_total by (by apply (holds_sound _ _ ((if ok then [] else given c) ++ l))); apply D1).
  assert (Hsmall : 0 <= atotal A < 2147483648).
  { split; [apply atotal_nonneg|]. unfold A. pose proof (holds_sound _ _ _ Hh) as Hs. rewrite view_total by done. pose proof (length_space _ _ Hs). unfold small_space, mbufs_of in *. lia. }
  rewrite u32_small in HA by done. unfold answered in Ha. destruct (wants c) as [n|].
  - destruct ok; [|rewrite u32_small in HA' by done; split; [lia|done]]. destruct Ha as [Hfit _]. specialize (Hfit eq_refl). unfold sbspace in Hfit.
    assert (Hs32 : s32 (sb_hiwat sb - sb_cc sb) = sb_hiwat sb - sb_cc sb) by mlia. pose proof (atotal_nonneg A').
    assert (Hbound : atotal A' <= sb_hiwat sb) by lia. rewrite u32_small in HA' by (unfold small; lia). split; [lia|]. intros _ n' [= <-]. lia.
  - subst ok. rewrite u32_small in HA' by (unfold small; lia). split; [lia|done].
Qed.
End Limits.

Section Reserve.
Context (sb_max : Z) (Hmax : 0 <= sb_max < 4194304).
Definition most : Z := sb_max * MCLBYTES / (MSIZE + MCLBYTES).

Lemma most_less : 0 <= most <= sb_max.
Proof. unfold most, MCLBYTES, MSIZE. Z.div_mod_to_equations. lia. Qed.

Lemma sbreserve_run sb cc : 0 <= cc -> is_s32 (sb_lowat sb) -> let (sb', ok) := sbreserve sb_max sb cc in
  if ok then cc <= most /\ sb_cc sb' = sb_cc sb /\ sb_mbcnt sb' = sb_mbcnt sb /\ sb_mb sb' = sb_mb sb /\ sb_flags sb' = sb_flags sb /\ sb_hiwat sb' = cc /\
    sb_mbmax sb' = Z.min (2 * cc) sb_max /\ is_s32 (sb_lowat sb') /\ 0 <= sb_lowat sb' <= cc
  else most < cc /\ sb' = sb.
Proof.
  intros Hcc Hlow. unfold sbreserve. pose proof most_less as Hm. assert (Hu : u32 (sb_max * MCLBYTES) = sb_max * MCLBYTES) by (unfold MCLBYTES; mlia).
  rewrite Hu. fold most. destruct (Z.ltb_spec most cc) as [Hlt|Hle]; [done|]. simpl. assert (Hc2 : u32 (cc * 2) = 2 * cc) by mlia. rewrite Hc2.
  destruct (Z.ltb_spec cc (u32 (sb_lowat sb))) as [H1|H1]; simpl; split_and!; try done; try mlia.
Qed.

(** [soreserve] gives a socket its two limits just when both are within what sb_max allows, and
    else leaves the send buffer empty and closed or nothing changed; when it has succeeded a
    writer who waits for the low-water mark of an empty send buffer does not wait: there is
    space for all that was asked. *)
Theorem soreserve_limits b snd rcv sndcc rcvcc l : 0 <= sndcc -> 0 <= rcvcc -> is_s32 (sb_lowat snd) -> is_s32 (sb_lowat rcv) ->
  sb_ok snd -> pool b (mbufs_of snd ++ l) -> few (mbufs_of snd ++ l) -> small_space snd -> flag_set (sb_flags snd) SB_LOCK = false ->
  exists snd' rcv' ok b', soreserve sb_max snd rcv sndcc rcvcc b = Some ((snd', rcv', ok), b') /\ pool b' (mbufs_of snd' ++ l) /\ keeps l b b' /\
    (ok = true <-> sndcc <= most /\ rcvcc <= most) /\
    (ok = true -> sb_mb snd' = sb_mb snd /\ sb_mb rcv' = sb_mb rcv /\ sb_hiwat snd' = sndcc /\ sb_hiwat rcv' = rcvcc /\
      (sb_cc snd = 0 -> sb_mbcnt snd = 0 -> 0 <= sb_lowat snd' <= sbspace snd' /\ sbspace snd' = sndcc)) /\
    (ok = false -> snd' = snd \/ sb_mb snd' = [] /\ sb_hiwat snd' = 0).
Proof.
  intros Hsnd Hrcv Hl1 Hl2 Hok Hp Hf Hsm Hlock. unfold soreserve. pose proof (sbreserve_run snd sndcc Hsnd Hl1) as H1. pose proof most_less as Hm.
  destruct (sbreserve sb_max snd sndcc) as [snd1 ok1]; destruct ok1; cbn [negb].
  2:{ destruct H1 as [H1 ->]. exists snd, rcv, false, b. split_and!; try done; [split; [done|lia]|by left]. }
  destruct H1 as (A1 & A2 & A3 & A4 & A5 & A6 & A7 & A8 & A9). pose proof (sbreserve_run rcv rcvcc Hrcv Hl2) as H2.
  destruct (sbreserve sb_max rcv rcvcc) as [rcv1 ok2]; destruct ok2; cbn [negb].
  - destruct H2 as (B1 & B2 & B3 & B4 & B5 & B6 & B7 & B8 & B9). eexists _, _, true, b. split; [done|].
    set (snd2 := if sb_lowat snd1 =? 0 then with_lowat MCLBYTES snd1 else snd1).
    assert (S2 : sb_mb snd2 = sb_mb snd /\ sb_hiwat snd2 = sndcc /\ sb_cc snd2 = sb_cc snd /\ sb_mbcnt snd2 = sb_mbcnt snd /\ sb_mbmax snd2 = Z.min (2 * sndcc) sb_max /\ 0 <= sb_lowat snd2 < 2147483648).
    { unfold snd2, MCLBYTES. destruct (Z.eqb_spec (sb_lowat snd1) 0); simpl; split_and!; try done; unfold is_s32 in A8; lia. }
    destruct S2 as (C1 & C2 & C3 & C4 & C5 & C6). set (snd3 := if sb_hiwat snd2 <? u32 (sb_lowat snd2) then with_lowat (s32 (sb_hiwat snd2)) snd2 else snd2).
    assert (S3 : sb_mb snd3 = sb_mb snd /\ sb_hiwat snd3 = sndcc /\ sb_cc snd3 = sb_cc snd /\ sb_mbcnt snd3 = sb_mbcnt snd /\ sb_mbmax snd3 = Z.min (2 * sndcc) sb_max /\ 0 <= sb_lowat snd3 <= sndcc).
    { unfold snd3. rewrite C2. destruct (Z.ltb_spec sndcc (u32 (sb_lowat snd2))); simpl; split_and!; try done; try mlia. }
    destruct S3 as (E1 & E2 & E3 & E4 & E5 & E6). split_and!; try done.
    + unfold mbufs_of. by rewrite E1.
    + intros _. split_and!; [done|by destruct (sb_lowat rcv1 =? 0)|done|by destruct (sb_lowat rcv1 =? 0)|]. intros Z1 Z2.
      assert (Hsp : sbspace snd3 = sndcc) by (unfold sbspace; rewrite E2, E3, E4, E5, Z1, Z2; mlia). rewrite Hsp. done.
  - destruct H2 as [H2 ->]. assert (Hok1 : sb_ok snd1) by (destruct Hok as [[O1 O2] O3]; split; unfold books, mbufs_of, tidy in *; rewrite ?A2, ?A3, ?A4; done).
    assert (Hmb : mbufs_of snd1 = mbufs_of snd) by (unfold mbufs_of; by rewrite A4).
    destruct (sbflush_ok b snd1 l Hok1) as (snd2 & b2 & Hr & [D1 D2 D3 D4 D5 D6] & _ & _ & Hnil); [by rewrite Hmb..|unfold small_space; by rewrite Hmb|by rewrite A5|].
    assert (Hrel : sbrelease snd1 b = Some (with_limits 0 0 snd2, b2)) by (unfold sbrelease; by rewrite (bind_run _ _ _ _ _ Hr)).
    rewrite (bind_run _ _ _ _ _ Hrel). eexists _, _, false, b2. split; [done|]. split_and!; try done; [split; [done|lia]|]. intros _. by right.
Qed.
End Reserve.

(** The limit of memory is one of bytes too: a chain of small mbufs goes over it. *)
Lemma mbmax_exceeded : exists sb sb' m0 control, sbappendcontrol sb m0 control = Some (sb', true) /\ sb_mbcnt sb = 0 /\ sb_mbmax sb = 200 /\ sb_mbcnt sb' = 256.
Proof. exists (Sockbuf 0 100 0 200 1 [] 0), (Sockbuf 2 100 256 200 1 [[plain [1]; plain [2]]] 0), [plain [2]], [plain [1]]. done. Qed.

(** ** The theorems applied *)

Definition empty_sb : sockbuf := Sockbuf 0 100 0 300 1 [] 0.
Definition two : list mbuf := [plain [1; 2; 3]; plain [4]].

Lemma two_held : holds (plain_mb 2) empty_sb two.
Proof.
  destruct (plain_pool [[1; 2; 3]; [4]]) as [Hp Hf]; [repeat constructor; by vm_compute|]. split; [by split|done|]. by repeat constructor.
Qed.

Lemma sockbuf_call_refines_witness : exists sb' s', do_scall (SAppend [plain [1; 2; 3]]) empty_sb (plain_mb 2) = Some ((sb', true), s') /\
  rview (mb_get s') (sb_mb sb') = [([(1, 1); (1, 2); (1, 3)], false)].
Proof.
  destruct (sockbuf_call_refines (plain_mb 2) empty_sb (SAppend [plain [1; 2; 3]]) [plain [4]] two_held I) as (sb' & ok & s' & Hr & Hd & Ha).
  unfold answered in Ha. simpl in Ha. subst ok. exists sb', s'. split; [exact Hr|]. exact (dc_view _ _ _ _ _ _ _ _ Hd).
Defined.

Definition written : sockbuf * mbst :=
  match do_scall (SAppend [plain [1; 2; 3]]) empty_sb (plain_mb 2) with Some ((sb, _), s) => (sb, s) | None => (empty_sb, plain_mb 2) end.

Lemma written_streams : streams (plain_mb 2) empty_sb two [1; 2; 3] 0 written.2 written.1 [plain [4]].
Proof.
  apply (sm_write _ _ _ [] 0 (plain_mb 2) empty_sb [plain [1; 2; 3]] [plain [4]] true).
  - apply sm_start; [reflexivity|apply two_held].
  - reflexivity.
  - vm_compute. reflexivity.
Qed.

Lemma stream_kept_witness : exists d s2, m_copym (mbufs_of written.1) 1 2 written.2 = Some (d, s2) /\
  (cbytes (mb_get s2) d = [2; 3] \/ d = [] /\ lack written.2).
Proof.
  destruct (stream_kept (plain_mb 2) empty_sb two [1; 2; 3] 0 written.2 written.1 [plain [4]] 1 2 written_streams) as (_ & _ & _ & H).
  destruct H as (d & s2 & Hr & _ & Hb).
  - lia.
  - lia.
  - vm_compute. split; [discriminate|reflexivity].
  - intros x. vm_compute. discriminate.
  - exists d, s2. split; [exact Hr|exact Hb].
Defined.

Lemma within_limits_witness : exists sb' ok s', do_scall (SAppendControl [plain [4]] [plain [1; 2; 3]]) empty_sb (plain_mb 2) = Some ((sb', ok), s') /\
  sb_hiwat sb' = 100 /\ sb_cc sb' <= sb_hiwat sb' /\ (ok = true -> forall n, Some 4 = Some n -> sb_cc sb' = 0 + n).
Proof.
  apply (within_limits (plain_mb 2) empty_sb (SAppendControl [plain [4]] [plain [1; 2; 3]]) []).
  - apply two_held.
  - split; [discriminate|]. split; vm_compute; reflexivity.
  - reflexivity.
  - vm_compute. reflexivity.
  - vm_compute. split; [discriminate|reflexivity].
  - vm_compute. discriminate.
Defined.

Lemma soreserve_limits_witness : exists snd' rcv' ok b', soreserve 65536 empty_sb empty_sb 4096 8192 (plain_mb 2) = Some ((snd', rcv', ok), b') /\
  (ok = true <-> 4096 <= 58254 /\ 8192 <= 58254).
Proof.
  destruct (soreserve_limits 65536 ltac:(lia) (plain_mb 2) empty_sb empty_sb 4096 8192 two) as (snd' & rcv' & ok & b' & Hr & _ & _ & Hiff & _).
  - lia.
  - lia.
  - unfold is_s32. simpl. lia.
  - unfold is_s32. simpl. lia.
  - apply two_held.
  - apply two_held.
  - apply two_held.
  - vm_compute. reflexivity.
  - reflexivity.
  - exists snd', rcv', ok, b'. split; [exact Hr|exact Hiff].
Defined.
