(* ===== verification/Cksum.v ===== *)
(** * The internet checksum (sys/i386/i386/in_cksum.c)

    The sum of the 16-bit words of a packet in an mbuf chain, with the carries added in, as the
    i386 computes it: 32 bits at a time with add-with-carry once the address is a multiple of
    four; buffers that begin at an odd address or at an odd byte of the packet are summed with
    their bytes exchanged.  The buffer of an mbuf begins at a multiple of four, so that
    [m_data] says how [mtod] is aligned. *)

From S2P Require Import Prelude Mbuf.
Local Open Scope kern_scope.

(** [*(u_short * )w] and [*(u_long * )w]. *)
Definition le (bs : list Z) : Z := foldr (fun b v => b + 256 * v) 0 bs.

(** sys/i386/i386/in_cksum.c:60-60, [ADD]: [adcl], the sum and the carry. *)
Definition adcl (x : Z) (sc : Z * Z) : Z * Z := let v := fst sc + x + snd sc in (v mod 4294967296, v / 4294967296).

(** sys/i386/i386/in_cksum.c:93-100, [in_cksumbuf]: [n] times ADD. *)
Fixpoint adds (n : nat) (w : list Z) (sc : Z * Z) : Z * Z :=
  match n with O => sc | S n => adds n (drop 4 w) (adcl (le (take 4 w)) sc) end.

(** sys/i386/i386/in_cksum.c:92-102, [in_cksumbuf]: CLC, [n] times ADD, and twice MOP. *)
Definition add_block (n : nat) (w : list Z) (sum : Z) : Z := fst (adcl 0 (adcl 0 (adds n w (sum, 0)))).

(** sys/i386/i386/in_cksum.c:91-113, [in_cksumbuf]: the loops over blocks of [4 * n] bytes. *)
Fixpoint blocks (fuel : nat) (n : nat) (w : list Z) (sum : Z) : list Z * Z :=
  match fuel with
  | O => (w, sum)
  | S fuel => if zlen w <? 4 * Z.of_nat n then (w, sum) else blocks fuel n (drop (4 * n) w) (add_block n w sum)
  end.

(** sys/i386/i386/in_cksum.c:116-122, [in_cksumbuf]: the words that are left, and the byte. *)
Fixpoint words (w : list Z) (sum : Z) : Z :=
  match w with
  | b0 :: b1 :: w => words w (u32 (sum + le [b0; b1]))
  | [b] => u32 (sum + b)
  | [] => sum
  end.

(** [sum = ((u_short) sum) + (sum >> 16)]. *)
Definition half (sum : Z) : Z := u16 sum + Z.shiftr sum 16.

(** sys/i386/i386/in_cksum.c:126-128, [in_cksumbuf]: until it has 16 bits. *)
Fixpoint fold (fuel : nat) (sum : Z) : option Z :=
  match fuel with
  | O => None
  | S fuel => let sum := half sum in if Z.shiftr sum 16 =? 0 then Some sum else fold fuel sum
  end.

(** sys/i386/i386/in_cksum.c:63-131, [in_cksumbuf]: the bytes [w], at the address [addr]. *)
Definition in_cksumbuf (addr : Z) (w : list Z) : option Z :=
  let '(jog, w, sum, addr) := match w with
    | b :: r => if Z.odd addr then (true, r, Z.shiftl b 8, addr + 1) else (false, w, 0, addr)
    | [] => (false, w, 0, addr)
    end in
  let '(w, sum) := match w with
    | b0 :: b1 :: r => if Z.testbit addr 1 then (r, sum + le [b0; b1]) else (w, sum)
    | _ => (w, sum)
    end in
  let '(w, sum) := blocks (length w) 32 w sum in
  let '(w, sum) := blocks (length w) 4 w sum in
  let sum := words w (half sum) in
  fold 4 (if jog : bool then u32 (Z.shiftl sum 8) else sum).

(** sys/i386/i386/in_cksum.c:153-167, [in_cksum]: the loop; the sum, and what is left of [len]. *)
Fixpoint cksum_loop (m : list mbuf) (len sum : Z) (odd : bool) : K mbst (Z * Z) :=
  match m with
  | [] => kret (sum, len)
  | x :: r =>
      if len =? 0 then kret (sum, len)
      else
        let mlen := Z.min (m_len x) len in
        if mlen =? 0 then cksum_loop r len sum odd
        else
          let! w := bytes_at x 0 mlen in
          let! msum := knonnull (in_cksumbuf (m_data x) w) in
          let msum := half msum in
          let msum := if odd then u32 (Z.shiftl msum 8) else msum in
          cksum_loop r (len - mlen) (u32 (sum + msum)) (xorb odd (Z.odd mlen))
  end.

(** sys/i386/i386/in_cksum.c:133-208, [in_cksum]: without CKSUMDEBUG; the checksum, and whether the chain was too short. *)
Definition in_cksum (m : list mbuf) (len : Z) : K mbst (Z * bool) :=
  let! (sum, rest) := cksum_loop m len 0 false in
  let! sum := knonnull (fold 4 sum) in
  kret (Z.lxor sum 65535, negb (rest =? 0)).
