(* ===== verification/CksumSum.v ===== *)
(** * The internet checksum is the sum of the words

    The reference is the sum of all 16-bit words of the packet, the last filled up with 0, in
    ones' complement.  [in_cksum] gives it whatever the alignment and the lengths of the mbufs,
    and a packet that carries its checksum sums to 0. *)

From S2P Require Import Prelude Mbuf MbufSpec MbufOps Cksum.
Local Open Scope kern_scope.

(** ** The reference *)

Fixpoint wordsum (w : list Z) : Z :=
  match w with b0 :: b1 :: w => b0 + 256 * b1 + wordsum w | [b] => b | [] => 0 end.

(** The ones' complement sum: 0 only when there is nothing to sum. *)
Definition ones (x : Z) : Z := if x =? 0 then 0 else 1 + (x - 1) mod 65535.
Definition checksum (w : list Z) : Z := 65535 - ones (wordsum w).

Definition is_byte (b : Z) : Prop := 0 <= b < 256.

Lemma bytes_check w : forallb (fun b => (0 <=? b) && (b <? 256)) w = true -> Forall is_byte w.
Proof. rewrite forallb_forall, Forall_forall. intros H b Hb%list_elem_of_In%H. unfold is_byte. lia. Qed.

(** ** Sums that agree *)

(** [x] and [y] are the same sum: they differ by carries, and only zero is zero. *)
Record eqv (x y : Z) : Prop := { ev_x : 0 <= x; ev_y : 0 <= y; ev_mod : exists k, x = y + 65535 * k; ev_zero : x = 0 <-> y = 0 }.

Lemma eqv_refl x : 0 <= x -> eqv x x.
Proof. intros H. split; [done|done| |done]. exists 0. lia. Qed.
Lemma eqv_sym x y : eqv x y -> eqv y x.
Proof. intros [H1 H2 [k Hk] Hz]. split; [done|done| |tauto]. exists (- k). lia. Qed.
Lemma eqv_trans x y z : eqv x y -> eqv y z -> eqv x z.
Proof. intros [H1 H2 [k Hk] Hz] [H3 H4 [j Hj] Hz']. split; [done|done| |tauto]. exists (k + j). lia. Qed.
Lemma eqv_add x y x' y' : eqv x x' -> eqv y y' -> eqv (x + y) (x' + y').
Proof. intros [H1 H2 [k Hk] Hz] [H3 H4 [j Hj] Hz']. split; [lia|lia| |lia]. exists (k + j). lia. Qed.
Lemma eqv_mul x y : eqv x y -> eqv (256 * x) (256 * y).
Proof. intros [H1 H2 [k Hk] Hz]. split; [lia|lia| |lia]. exists (256 * k). lia. Qed.
Lemma eqv_swap x : 0 <= x -> eqv (65536 * x) x.
Proof. intros H. split; [lia|lia| |lia]. exists x. lia. Qed.

Lemma eqv_ones x y : eqv x y -> x < 65536 -> x = ones y.
Proof.
  intros [H1 H2 [k Hk] Hz] Hx. unfold ones. destruct (Z.eqb_spec y 0) as [->|Hy]; [tauto|].
  assert (x <> 0) by tauto. subst x. Z.div_mod_to_equations. lia.
Qed.

Lemma half_eqv x : 0 <= x < 4294967296 -> eqv (half x) x /\ half x <= 65535 + x / 65536.
Proof.
  intros Hx. unfold half, u16. rewrite Z.shiftr_div_pow2 by lia. change (2 ^ 16) with 65536.
  pose proof (Z.div_mod x 65536 ltac:(lia)). pose proof (Z.mod_pos_bound x 65536 ltac:(lia)).
  assert (0 <= x / 65536) by (apply Z.div_pos; lia). split; [split; [lia|lia| |lia]; exists (- (x / 65536)); lia|lia].
Qed.

Lemma fold_ok fuel x : 0 <= x < 4294967296 -> (3 <= fuel)%nat -> exists y, fold fuel x = Some y /\ y < 65536 /\ eqv y x.
Proof.
  intros Hx Hf. destruct fuel as [|[|[|fuel]]]; try lia.
  destruct (half_eqv x Hx) as [E1 B1]. set (x1 := half x) in *. assert (B1' : x1 <= 131070) by (Z.div_mod_to_equations; lia).
  pose proof (ev_x _ _ E1). destruct (half_eqv x1 ltac:(lia)) as [E2 B2]. set (x2 := half x1) in *. assert (B2' : x2 <= 65536) by (Z.div_mod_to_equations; lia).
  pose proof (ev_x _ _ E2). destruct (half_eqv x2 ltac:(lia)) as [E3 B3]. set (x3 := half x2) in *. pose proof (ev_x _ _ E3).
  assert (B3' : x3 < 65536).
  { unfold x3, half, u16. rewrite Z.shiftr_div_pow2 by lia. change (2 ^ 16) with 65536. Z.div_mod_to_equations. lia. }
  assert (Hlow : forall y, 0 <= y -> (Z.shiftr y 16 =? 0) = true <-> y < 65536).
  { intros y Hy. rewrite Z.shiftr_div_pow2 by lia. change (2 ^ 16) with 65536. rewrite Z.eqb_eq. Z.div_mod_to_equations. lia. }
  cbn [fold]. fold x1. destruct (Z.shiftr x1 16 =? 0) eqn:C1.
  - exists x1. split; [done|]. split; [by apply Hlow|done].
  - fold x2. destruct (Z.shiftr x2 16 =? 0) eqn:C2.
    + exists x2. split; [done|]. split; [by apply Hlow|by apply (eqv_trans _ x1)].
    + fold x3. rewrite (proj2 (Hlow x3 ltac:(lia)) B3'). exists x3. split; [done|]. split; [done|]. apply (eqv_trans _ x2); [done|by apply (eqv_trans _ x1)].
Qed.

(** ** Words *)

Lemma wordsum_nonneg w : Forall is_byte w -> 0 <= wordsum w.
Proof.
  revert w. fix IH 1. intros [|b0 [|b1 w]] H; cbn [wordsum]; [lia| |]; inversion H as [|? ? H0 H1]; subst; [apply H0|].
  inversion H1 as [|? ? H2 H3]; subst. pose proof (IH w H3). unfold is_byte in *. lia.
Qed.

Lemma pair_ind {A} (P : list A -> Prop) : P [] -> (forall a, P [a]) -> (forall a b l, P l -> P (a :: b :: l)) -> forall l, P l.
Proof. intros H0 H1 H2. fix IH 1. intros [|a [|b l]]; [done|done|]. apply H2, IH. Qed.

Lemma wordsum_cons b w : wordsum (b :: w) = b + wordsum (0 :: w).
Proof. destruct w; simpl; lia. Qed.
Lemma wordsum_even a b : Z.odd (zlen a) = false -> wordsum (a ++ b) = wordsum a + wordsum b.
Proof.
  induction a as [|x|x y a IH] using pair_ind; [done|done|]. intros H. cbn [app wordsum]. rewrite IH; [lia|].
  unfold zlen in *. simpl length in H. rewrite !Nat2Z.inj_succ, Z.odd_succ, Z.even_succ in H. done.
Qed.
Lemma wordsum_odd a b : Z.odd (zlen a) = true -> wordsum (a ++ b) = wordsum a + wordsum (0 :: b).
Proof.
  induction a as [|x|x y a IH] using pair_ind; [done| |].
  - intros _. cbn [app]. by rewrite wordsum_cons.
  - intros H. cbn [app wordsum]. rewrite IH; [simpl; lia|]. unfold zlen in *. simpl length in H. by rewrite !Nat2Z.inj_succ, Z.odd_succ, Z.even_succ in H.
Qed.

(** Exchanging the bytes of all words. *)
Lemma wordsum_shift w : Forall is_byte w -> eqv (256 * wordsum w) (wordsum (0 :: w)).
Proof.
  induction w as [|x|x y w IH] using pair_ind; intros Hw.
  - by apply eqv_refl.
  - apply Forall_cons in Hw as [Hx _]. unfold is_byte in Hx. cbn [wordsum]. rewrite Z.add_0_l, Z.add_0_r. apply eqv_refl. lia.
  - apply Forall_cons in Hw as [Hx Hw], Hw as [Hy Hw]. unfold is_byte in Hx, Hy. specialize (IH Hw).
    change (wordsum (0 :: x :: y :: w)) with (0 + 256 * x + wordsum (y :: w)). rewrite (wordsum_cons y). cbn [wordsum].
    replace (256 * (x + 256 * y + wordsum w)) with (256 * x + (65536 * y + 256 * wordsum w)) by lia.
    apply eqv_add; [apply eqv_refl; lia|]. apply eqv_add; [apply eqv_swap; lia|done].
Qed.

(** ** The words are added *)

Lemma byte_split (n : nat) w : Forall is_byte w -> Forall is_byte (take n w) /\ Forall is_byte (drop n w).
Proof. intros H. split; [by apply Forall_take|by apply Forall_drop]. Qed.

Lemma le4_ok w : Forall is_byte w -> 4 <= zlen w -> eqv (le (take 4 w)) (wordsum (take 4 w)) /\ le (take 4 w) < 4294967296.
Proof.
  intros H Hl. destruct w as [|b0 [|b1 [|b2 [|b3 w]]]]; unfold zlen in Hl; simpl in Hl; try lia.
  do 4 (apply Forall_cons in H as [? H]). unfold is_byte in *. unfold le. simpl. split; [|lia].
  split; [lia|lia| |lia]. exists (b2 + 256 * b3). lia.
Qed.

Definition sum_ok (sc : Z * Z) : Prop := 0 <= sc.1 < 4294967296 /\ 0 <= sc.2 <= 1.

Lemma adcl_ok x sc : sum_ok sc -> 0 <= x < 4294967296 -> sum_ok (adcl x sc) /\ eqv ((adcl x sc).1 + (adcl x sc).2) (sc.1 + sc.2 + x).
Proof.
  destruct sc as [s c]. unfold sum_ok, adcl. simpl. intros [Hs Hc] Hx. set (v := s + x + c).
  pose proof (Z.div_mod v 4294967296 ltac:(lia)). pose proof (Z.mod_pos_bound v 4294967296 ltac:(lia)).
  assert (Hq : 0 <= v / 4294967296 <= 1) by (Z.div_mod_to_equations; lia). split; [lia|].
  split; [lia|lia| |lia]. exists (- (65537 * (v / 4294967296))). lia.
Qed.

Lemma zlen_drop_max {A} n (w : list A) : zlen (drop n w) = Z.max 0 (zlen w - Z.of_nat n).
Proof. unfold zlen. rewrite length_drop. lia. Qed.

Lemma adds_ok n w sc : Forall is_byte w -> 4 * Z.of_nat n <= zlen w -> sum_ok sc ->
  sum_ok (adds n w sc) /\ eqv ((adds n w sc).1 + (adds n w sc).2) (sc.1 + sc.2 + wordsum (take (4 * n) w)).
Proof.
  revert w sc. induction n as [|n IH]; intros w sc Hw Hl Hs.
  - split; [done|]. simpl. destruct Hs. rewrite Z.add_0_r. apply eqv_refl. lia.
  - cbn [adds]. destruct (le4_ok w Hw ltac:(lia)) as [Hle Hlt]. destruct (adcl_ok (le (take 4 w)) sc Hs ltac:(pose proof (ev_x _ _ Hle); lia)) as [A1 A2].
    destruct (IH (drop 4 w) _ (proj2 (byte_split 4 w Hw)) ltac:(rewrite zlen_drop_max; lia) A1) as [I1 I2]. split; [done|].
    assert (Htake : take (4 * S n) w = take 4 w ++ take (4 * n) (drop 4 w)).
    { replace (4 * S n)%nat with (4 + 4 * n)%nat by lia. by rewrite take_take_drop. }
    rewrite Htake, wordsum_even by (unfold zlen in *; rewrite length_take, Nat.min_l by lia; done).
    eapply eqv_trans; [exact I2|]. rewrite Z.add_assoc. apply eqv_add.
    + eapply eqv_trans; [exact A2|]. apply eqv_add; [|done]. destruct Hs. apply eqv_refl. lia.
    + apply eqv_refl, wordsum_nonneg, Forall_take, Forall_drop, Hw.
Qed.

Lemma add_block_ok n w sum : Forall is_byte w -> 4 * Z.of_nat n <= zlen w -> 0 <= sum < 4294967296 ->
  0 <= add_block n w sum < 4294967296 /\ eqv (add_block n w sum) (sum + wordsum (take (4 * n) w)).
Proof.
  intros Hw Hl Hs. destruct (adds_ok n w (sum, 0) Hw Hl ltac:(by split)) as [A1 A2]. unfold add_block. set (sc := adds n w (sum, 0)) in *.
  destruct (adcl_ok 0 sc A1 ltac:(lia)) as [B1 B2]. destruct (adcl_ok 0 _ B1 ltac:(lia)) as [C1 C2].
  assert (Hc : (adcl 0 (adcl 0 sc)).2 = 0).
  { destruct sc as [s c], A1 as [D1 D2]. unfold adcl. simpl in *. Z.div_mod_to_equations. lia. }
  rewrite Hc, Z.add_0_r in C2. split; [apply C1|]. eapply eqv_trans; [exact C2|]. rewrite Z.add_0_r. eapply eqv_trans; [exact B2|].
  rewrite Z.add_0_r. simpl in A2. by rewrite Z.add_0_r in A2.
Qed.

Lemma blocks_ok fuel n w sum : (0 < n)%nat -> Forall is_byte w -> 0 <= sum < 4294967296 -> (length w < 4 * n + 4 * n * fuel)%nat ->
  exists w' sum', blocks fuel n w sum = (w', sum') /\ Forall is_byte w' /\ zlen w' < 4 * Z.of_nat n /\ 0 <= sum' < 4294967296 /\
    eqv (sum' + wordsum w') (sum + wordsum w).
Proof.
  intros Hn. revert w sum. induction fuel as [|fuel IH]; intros w sum Hw Hs Hf.
  - exists w, sum. split_and!; try done; [unfold zlen; lia|lia|lia|]. pose proof (wordsum_nonneg w Hw). apply eqv_refl. lia.
  - cbn [blocks]. destruct (Z.ltb_spec (zlen w) (4 * Z.of_nat n)) as [Hl|Hl].
    + exists w, sum. split_and!; try done; try lia. pose proof (wordsum_nonneg w Hw). apply eqv_refl. lia.
    + destruct (add_block_ok n w sum Hw Hl Hs) as [B1 B2].
      destruct (IH (drop (4 * n) w) (add_block n w sum) (proj2 (byte_split _ w Hw)) B1) as (w' & s' & H1 & H2 & H3 & H4 & H5).
      { rewrite length_drop. lia. }
      exists w', s'. split_and!; try done; try lia. eapply eqv_trans; [exact H5|].
      pose proof (wordsum_even (take (4 * n) w) (drop (4 * n) w)) as He. rewrite take_drop in He. rewrite He.
      * rewrite Z.add_assoc. apply eqv_add; [done|]. by apply eqv_refl, wordsum_nonneg, Forall_drop.
      * unfold zlen in *. rewrite length_take, Nat.min_l, Nat2Z.inj_mul by lia. by rewrite Z.odd_mul.
Qed.

Lemma words_ok w sum : Forall is_byte w -> 0 <= sum -> sum + 65535 * zlen w < 4294967296 -> words w sum = sum + wordsum w.
Proof.
  revert sum. induction w as [|x|x y w IH] using pair_ind; intros sum Hw Hs Hl.
  - simpl. lia.
  - apply Forall_cons in Hw as [Hx _]. unfold is_byte, zlen in *. simpl in *. unfold u32. rewrite Z.mod_small; lia.
  - apply Forall_cons in Hw as [Hx Hw], Hw as [Hy Hw]. unfold is_byte, zlen in *. simpl length in Hl. cbn [words wordsum]. unfold le, u32. simpl.
    rewrite Z.mod_small by lia. rewrite IH; [lia|done|lia|lia].
Qed.

(** ** One buffer *)

Lemma short_ok addr w sum : Forall is_byte w -> 0 <= sum ->
  exists w' sum', (match w with b0 :: b1 :: r => if Z.testbit addr 1 then (r, sum + le [b0; b1]) else (w, sum) | _ => (w, sum) end) = (w', sum') /\
    Forall is_byte w' /\ 0 <= sum' <= sum + 65535 /\ sum' + wordsum w' = sum + wordsum w.
Proof.
  intros Hw Hs. destruct w as [|b0 [|b1 r]]; [by exists [], sum; split_and!; (done || lia)|by exists [b0], sum; split_and!; (done || lia)|].
  destruct (Z.testbit addr 1); [|by exists (b0 :: b1 :: r), sum; split_and!; (done || lia)].
  apply Forall_cons in Hw as [H0 Hw], Hw as [H1 Hw]. unfold is_byte in *. exists r, (sum + le [b0; b1]). unfold le. cbn [foldr wordsum]. split_and!; (done || lia).
Qed.

Lemma tail_ok w sum : Forall is_byte w -> 0 <= sum < 4294967296 ->
  exists w1 s1 w2 s2, blocks (length w) 32 w sum = (w1, s1) /\ blocks (length w1) 4 w1 s1 = (w2, s2) /\
    0 <= words w2 (half s2) < 16777216 /\ eqv (words w2 (half s2)) (sum + wordsum w).
Proof.
  intros Hw Hs. destruct (blocks_ok (length w) 32 w sum ltac:(lia) Hw Hs ltac:(lia)) as (w1 & s1 & B1 & W1 & L1 & S1 & E1).
  destruct (blocks_ok (length w1) 4 w1 s1 ltac:(lia) W1 S1 ltac:(lia)) as (w2 & s2 & B2 & W2 & L2 & S2 & E2).
  exists w1, s1, w2, s2. split; [done|]. split; [done|]. destruct (half_eqv s2 S2) as [Eh Bh].
  assert (Hh : half s2 <= 131070) by (Z.div_mod_to_equations; lia). pose proof (ev_x _ _ Eh). pose proof (wordsum_nonneg w2 W2).
  assert (Hlt : wordsum w2 <= 65535 * zlen w2).
  { clear -W2. induction w2 as [|x|x y w IH] using pair_ind; [done| |].
    - apply Forall_cons in W2 as [Hx _]. unfold is_byte, zlen in *. simpl. lia.
    - apply Forall_cons in W2 as [Hx W2], W2 as [Hy W2]. unfold is_byte, zlen in *. cbn [wordsum length]. specialize (IH W2). lia. }
  rewrite words_ok by (done || lia). split; [lia|].
  eapply eqv_trans; [|eapply eqv_trans; [exact E2|exact E1]]. apply eqv_add; [done|by apply eqv_refl].
Qed.

Lemma in_cksumbuf_ok addr w : Forall is_byte w -> exists v, in_cksumbuf addr w = Some v /\ v < 65536 /\ eqv v (wordsum w).
Proof.
  intros Hw. assert (Hjog : forall w sum addr, Forall is_byte w -> 0 <= sum <= 65535 -> exists w1 s1 w2 s2 w3 s3,
    (match w with b0 :: b1 :: r => if Z.testbit addr 1 then (r, sum + le [b0; b1]) else (w, sum) | _ => (w, sum) end) = (w1, s1) /\
    blocks (length w1) 32 w1 s1 = (w2, s2) /\ blocks (length w2) 4 w2 s2 = (w3, s3) /\
    0 <= words w3 (half s3) < 16777216 /\ eqv (words w3 (half s3)) (sum + wordsum w)).
  { clear. intros w sum addr Hw Hs. destruct (short_ok addr w sum Hw ltac:(lia)) as (w1 & s1 & E1 & W1 & S1 & R1).
    destruct (tail_ok w1 s1 W1 ltac:(lia)) as (w2 & s2 & w3 & s3 & B1 & B2 & L & R). exists w1, s1, w2, s2, w3, s3. split_and!; try done; try lia. by rewrite <- R1. }
  unfold in_cksumbuf. destruct w as [|b r].
  - exists 0. split; [done|]. split; [lia|by apply eqv_refl].
  - destruct (Z.odd addr).
    + apply Forall_cons in Hw as [Hb Hr]. unfold is_byte in Hb.
      assert (Hsh : Z.shiftl b 8 = 256 * b) by (rewrite Z.shiftl_mul_pow2; lia).
      destruct (Hjog r (Z.shiftl b 8) (addr + 1) Hr ltac:(lia)) as (w1 & s1 & w2 & s2 & w3 & s3 & -> & -> & -> & L & R).
      set (s := words w3 (half s3)) in *. assert (Hu : u32 (Z.shiftl s 8) = 256 * s) by (rewrite Z.shiftl_mul_pow2 by lia; unfold u32; rewrite Z.mod_small; lia).
      rewrite Hu. destruct (fold_ok 4 (256 * s) ltac:(lia) ltac:(lia)) as (v & Hf & Hv & He). exists v. split; [done|]. split; [done|].
      eapply eqv_trans; [exact He|]. eapply eqv_trans; [apply eqv_mul, R|]. rewrite Hsh, wordsum_cons.
      replace (256 * (256 * b + wordsum r)) with (65536 * b + 256 * wordsum r) by lia. apply eqv_add; [apply eqv_swap; lia|by apply wordsum_shift].
    + destruct (Hjog (b :: r) 0 addr Hw ltac:(lia)) as (w1 & s1 & w2 & s2 & w3 & s3 & -> & -> & -> & L & R).
      destruct (fold_ok 4 (words w3 (half s3)) ltac:(lia) ltac:(lia)) as (v & Hf & Hv & He). exists v. split; [done|]. split; [done|by eapply eqv_trans].
Qed.

(** ** A chain *)

(** The buffer [x] continues a packet of which [odd] says whether an odd number of bytes went before. *)
Lemma buffer_ok x (odd : bool) w : Forall is_byte w ->
  exists v, in_cksumbuf x w = Some v /\ let v := half v in let v := if odd then u32 (Z.shiftl v 8) else v in
    v < 16777216 /\ eqv v (if odd then wordsum (0 :: w) else wordsum w).
Proof.
  intros Hw. destruct (in_cksumbuf_ok x w Hw) as (v & Hv & Hlt & He). pose proof (ev_x _ _ He). exists v. split; [done|].
  assert (Hh : half v = v).
  { unfold half, u16. rewrite Z.shiftr_div_pow2 by lia. change (2 ^ 16) with 65536. rewrite Z.mod_small, Z.div_small; lia. }
  cbv zeta. rewrite Hh. destruct odd; [|split; [lia|done]].
  assert (Hu : u32 (Z.shiftl v 8) = 256 * v) by (rewrite Z.shiftl_mul_pow2 by lia; unfold u32; rewrite Z.mod_small; lia).
  rewrite Hu. split; [lia|]. eapply eqv_trans; [by apply eqv_mul|by apply wordsum_shift].
Qed.

Lemma bytes_min b x r len : sound b x -> 0 <= len -> take (Z.to_nat len) (mbytes b x ++ cbytes b r) =
  take (Z.to_nat (Z.min (m_len x) len)) (mbytes b x) ++ take (Z.to_nat (len - Z.min (m_len x) len)) (cbytes b r).
Proof.
  intros Hs Hl. pose proof (mbytes_len b x Hs) as Hb. unfold zlen in Hb. rewrite take_app. f_equal.
  - destruct (Z.leb_spec len (m_len x)); [by rewrite Z.min_r by lia|]. rewrite Z.min_l by lia. rewrite !take_ge by lia. done.
  - f_equal. lia.
Qed.

Lemma cksum_loop_ok b m len sum odd : Forall (sound b) m -> Forall is_byte (cbytes b m) -> 0 <= len <= m_length m ->
  0 <= sum -> sum + 16777215 * zlen m < 4294967296 ->
  exists v, cksum_loop m len sum odd b = Some (v, 0, b) /\ v < 4294967296 /\
    let w := take (Z.to_nat len) (cbytes b m) in eqv v (sum + (if odd then wordsum (0 :: w) else wordsum w)).
Proof.
  revert len sum odd. induction m as [|x m IH]; intros len sum odd Hs Hw Hl Hsum Hb.
  - simpl in Hl. assert (len = 0) as -> by lia. exists sum. split; [done|]. split; [unfold zlen in Hb; simpl in Hb; lia|].
    simpl. destruct odd; simpl; rewrite Z.add_0_r; by apply eqv_refl.
  - apply Forall_cons in Hs as [Hx Hm]. cbn [cksum_loop]. rewrite cbytes_cons in *. apply Forall_app in Hw as [Hwx Hwm].
    pose proof (mo_len _ (sd_ok _ _ Hx)). pose proof (m_length_nonneg b m Hm). simpl m_length in Hl.
    assert (Hz : zlen (x :: m) = 1 + zlen m) by (unfold zlen; simpl; lia). pose proof (zlen_nonneg m).
    destruct (Z.eqb_spec len 0) as [->|Hl0].
    + exists sum. split; [done|]. split; [lia|]. simpl. destruct odd; simpl; rewrite Z.add_0_r; by apply eqv_refl.
    + set (mlen := Z.min (m_len x) len). pose proof (bytes_min b x m len Hx ltac:(lia)) as Hsplit. fold mlen in Hsplit.
      cbv zeta. rewrite Hsplit. destruct (Z.eqb_spec mlen 0) as [E|Hml].
      * destruct (IH len sum odd Hm Hwm ltac:(lia) Hsum ltac:(lia)) as (v & Hr & Hv & He). rewrite Hr. exists v. split; [done|]. split; [done|].
        rewrite E. simpl take at 1 3. rewrite Z.sub_0_r. exact He.
      * set (w := take (Z.to_nat mlen) (mbytes b x)). assert (Hwl : zlen w = mlen).
        { pose proof (mbytes_len b x Hx). unfold w, zlen in *. rewrite length_take. lia. }
        assert (Hww : Forall is_byte w) by (by apply Forall_take).
        destruct (buffer_ok (m_data x) odd w Hww) as (v1 & Hv1 & Hlt & He).
        rewrite (bind_run _ _ b w b) by (rewrite (bytes_at_run b x 0 mlen Hx) by lia; done).
        rewrite (bind_nonnull _ _ _ v1 Hv1). cbv zeta in *. set (v2 := if odd then _ else half v1) in *. pose proof (ev_x _ _ He).
        assert (Hu : u32 (sum + v2) = sum + v2) by (unfold u32; rewrite Z.mod_small; lia). rewrite Hu.
        destruct (IH (len - mlen) (sum + v2) (xorb odd (Z.odd mlen)) Hm Hwm ltac:(lia) ltac:(lia) ltac:(lia)) as (v & Hr & Hv & He2).
        rewrite Hr. exists v. split; [done|]. split; [done|]. eapply eqv_trans; [exact He2|].
        rewrite <- Z.add_assoc. apply eqv_add; [by apply eqv_refl|]. set (w2 := take _ (cbytes b m)) in *.
        assert (Hcat : (if odd then wordsum (0 :: w ++ w2) else wordsum (w ++ w2)) =
          (if odd then wordsum (0 :: w) else wordsum w) + (if xorb odd (Z.odd mlen) then wordsum (0 :: w2) else wordsum w2)).
        { rewrite <- Hwl. destruct odd; simpl xorb.
          - assert (Ho : Z.odd (zlen (0 :: w)) = negb (Z.odd (zlen w))) by (unfold zlen; simpl length; by rewrite Nat2Z.inj_succ, Z.odd_succ, <- Z.negb_odd).
            change (0 :: w ++ w2) with ((0 :: w) ++ w2). destruct (Z.odd (zlen w)); [by apply wordsum_even|by apply wordsum_odd].
          - destruct (Z.odd (zlen w)) eqn:E; [by apply wordsum_odd|by apply wordsum_even]. }
        rewrite Hcat. apply eqv_add; [done|]. apply eqv_refl.
        assert (Forall is_byte w2) by (by apply Forall_take). destruct (xorb _ _); apply wordsum_nonneg; [|done]. constructor; [by unfold is_byte|done].
Qed.

(** ** The theorems *)

Lemma flip16 v : 0 <= v < 65536 -> Z.lxor v 65535 = 65535 - v.
Proof.
  intros Hv. change 65535 with (Z.ones 16). assert (Hd : Z.ldiff v (Z.ones 16) = 0).
  { rewrite Z.ldiff_ones_r by lia. by rewrite Z.shiftr_div_pow2, Z.div_small by lia. }
  rewrite Z.sub_nocarry_ldiff by done. apply Z.bits_inj'. intros n Hn. rewrite Z.lxor_spec, Z.ldiff_spec.
  apply (f_equal (fun x => Z.testbit x n)) in Hd. rewrite Z.ldiff_spec, Z.bits_0 in Hd.
  destruct (Z.testbit v n), (Z.testbit (Z.ones 16) n); done.
Qed.

(** C19. [in_cksum] is the reference: for chains of up to 256 mbufs, whatever their lengths -
    empty and odd ones too - and the alignment of their data, it returns the complement of the
    ones' complement sum of the words of the first [len] bytes, and changes nothing. *)
Theorem in_cksum_sums s m len : Forall (sound s) m -> Forall is_byte (cbytes s m) -> 0 <= len <= m_length m -> zlen m <= 256 ->
  in_cksum m len s = Some (checksum (take (Z.to_nat len) (cbytes s m)), false, s).
Proof.
  intros Hs Hw Hl Hm. destruct (cksum_loop_ok s m len 0 false Hs Hw Hl ltac:(lia) ltac:(lia)) as (v & Hr & Hv & He).
  unfold in_cksum. rewrite (bind_run _ _ s (v, 0) s) by exact Hr. pose proof (ev_x _ _ He).
  destruct (fold_ok 4 v ltac:(lia) ltac:(lia)) as (y & Hf & Hy & Hey). rewrite (bind_nonnull _ _ _ y Hf).
  pose proof (eqv_trans _ _ _ Hey He) as Hyw. pose proof (ev_x _ _ Hyw). unfold kret, checksum. rewrite flip16 by lia.
  by rewrite (eqv_ones y _ Hyw Hy).
Qed.

Lemma checksum_range w : Forall is_byte w -> 0 <= checksum w <= 65535.
Proof.
  intros Hw. pose proof (wordsum_nonneg w Hw). unfold checksum, ones. destruct (Z.eqb_spec (wordsum w) 0); [lia|].
  pose proof (Z.mod_pos_bound (wordsum w - 1) 65535 ltac:(lia)). lia.
Qed.

(** With the checksum in its place the packet sums to 0. *)
Lemma checksum_filled w1 w2 : Forall is_byte w1 -> Forall is_byte w2 -> Z.odd (zlen w1) = false ->
  let c := checksum (w1 ++ [0; 0] ++ w2) in checksum (w1 ++ [c mod 256; c / 256] ++ w2) = 0.
Proof.
  intros H1 H2 Ho c. assert (Hr : 0 <= c <= 65535) by (apply checksum_range; rewrite !Forall_app; split_and!; [done|by apply bytes_check|done]).
  pose proof (wordsum_nonneg w1 H1) as N1. pose proof (wordsum_nonneg w2 H2) as N2.
  assert (Hsum : forall a b, wordsum (w1 ++ [a; b] ++ w2) = wordsum w1 + (a + 256 * b + wordsum w2)) by (intros a b; by rewrite wordsum_even).
  set (S := wordsum w1 + (0 + 256 * 0 + wordsum w2)). assert (Hc : c = 65535 - ones S) by (unfold c, checksum; by rewrite Hsum).
  clearbody c. unfold checksum. rewrite Hsum.
  assert (He : wordsum w1 + (c mod 256 + 256 * (c / 256) + wordsum w2) = S + c) by (pose proof (Z.div_mod c 256 ltac:(lia)); lia).
  rewrite He. assert (HS : 0 <= S) by lia. clearbody S. clear - Hr HS Hc. unfold ones in *.
  destruct (Z.eqb_spec S 0) as [E|E]; [subst c S; reflexivity|]. destruct (Z.eqb_spec (S + c) 0); [lia|].
  Z.div_mod_to_equations. lia.
Qed.

(** C20. A packet that was sent with its checksum in the header checks at its receiver: with the
    two bytes that [in_cksum] gave in the place where they were 0, at an even offset, it gives 0,
    whatever the mbufs in which each of the two hosts has the packet, up to 256 of them at each.
    *)
Theorem in_cksum_checks s m s' m' w1 w2 c : Forall (sound s) m -> Forall (sound s') m' -> zlen m <= 256 -> zlen m' <= 256 ->
  Forall is_byte (w1 ++ w2) -> Z.odd (zlen w1) = false ->
  cbytes s m = w1 ++ [0; 0] ++ w2 -> in_cksum m (m_length m) s = Some (c, false, s) ->
  cbytes s' m' = w1 ++ [c mod 256; c / 256] ++ w2 -> in_cksum m' (m_length m') s' = Some (0, false, s').
Proof.
  intros Hs Hs' Hm Hm' [H1 H2]%Forall_app Ho Hb Hc Hb'.
  assert (Hb0 : Forall is_byte (w1 ++ [0; 0] ++ w2)) by (rewrite !Forall_app; split_and!; [done|by apply bytes_check|done]).
  pose proof (checksum_range _ Hb0) as Hr.
  rewrite in_cksum_sums in Hc; [|done|by rewrite Hb|split; [by apply (m_length_nonneg s)|done]|done].
  rewrite <- (cbytes_len s m Hs) in Hc. unfold zlen in Hc. rewrite Nat2Z.id, firstn_all, Hb in Hc.
  assert (c = checksum (w1 ++ [0; 0] ++ w2)) as -> by congruence. clear Hc.
  rewrite in_cksum_sums; [|done| |split; [by apply (m_length_nonneg s')|done]|done].
  - rewrite <- (cbytes_len s' m' Hs'). unfold zlen. rewrite Nat2Z.id, firstn_all, Hb'. by rewrite checksum_filled.
  - rewrite Hb', !Forall_app. split_and!; [done| |done]. set (c := checksum (w1 ++ [0; 0] ++ w2)) in *. clearbody c. apply bytes_check. simpl.
    rewrite !andb_true_iff, !Z.leb_le, !Z.ltb_lt. clear - Hr. Z.div_mod_to_equations. lia.
Qed.

(** ** Examples *)

Definition loose (da : Z) (bs : list Z) : mbuf :=
  Mbuf MT_DATA 0 da (zlen bs) (Pkthdr 0 None) 0 (replicate (Z.to_nat da) 0 ++ bs ++ replicate (108 - Z.to_nat da - length bs) 0).
Definition no_mbufs : mbst := Mbst ∅ ∅ 0 4096 [] (Mbstat 0 0 0 ∅) 0 0 0 40 [] [].

(** A header in three mbufs, the second at an odd address and with an odd number of bytes. *)
Definition ex_header (c : list Z) : list Z := [69; 0; 0; 40; 0; 7; 0; 0; 64; 6] ++ c ++ [10; 0; 0; 1; 10; 0; 0; 2].
Definition ex_sent : list mbuf := [loose 2 (take 5 (ex_header [0; 0])); loose 9 (take 4 (drop 5 (ex_header [0; 0]))); loose 4 (drop 9 (ex_header [0; 0]))].
Definition ex_sum : Z := checksum (ex_header [0; 0]).
Definition ex_got : list mbuf := [loose 8 (ex_header [ex_sum mod 256; ex_sum / 256])].

Lemma loose_sound da bs : 0 <= da -> da + zlen bs <= 108 -> sound no_mbufs (loose da bs).
Proof.
  intros Hd Hl. assert (Hdat : zlen (m_dat (loose da bs)) = MLEN) by (unfold zlen, MLEN in *; simpl; rewrite !length_app, !length_replicate; lia).
  split; [|done]. split; [done|done|apply zlen_nonneg|exact Hd|]. change (m_limit (loose da bs)) with 108. exact Hl.
Qed.

Lemma in_cksum_sums_witness : in_cksum ex_sent 20 no_mbufs = Some (ex_sum, false, no_mbufs) /\ ex_sum = checksum (cbytes no_mbufs ex_sent).
Proof.
  split; [|reflexivity]. apply (in_cksum_sums no_mbufs ex_sent 20).
  - repeat constructor; apply loose_sound; vm_compute; discriminate.
  - apply bytes_check. reflexivity.
  - vm_compute. split; discriminate.
  - vm_compute. discriminate.
Defined.

Lemma in_cksum_checks_witness : in_cksum ex_got 20 no_mbufs = Some (0, false, no_mbufs).
Proof.
  apply (in_cksum_checks no_mbufs ex_sent no_mbufs ex_got [69; 0; 0; 40; 0; 7; 0; 0; 64; 6] [10; 0; 0; 1; 10; 0; 0; 2] ex_sum).
  - repeat constructor; apply loose_sound; vm_compute; discriminate.
  - repeat constructor; apply loose_sound; vm_compute; discriminate.
  - vm_compute. discriminate.
  - vm_compute. discriminate.
  - apply bytes_check. reflexivity.
  - reflexivity.
  - reflexivity.
  - vm_compute. reflexivity.
  - reflexivity.
Defined.

(** With more mbufs the sum of their sums can have more than 32 bits: a carry is lost, and the
    packet is summed wrong. *)
Definition long_chain : list mbuf := loose 0 [1] :: replicate 257 (loose 0 [255; 255]).

Lemma long_chain_wrong : exists c, in_cksum long_chain 515 no_mbufs = Some (c, false, no_mbufs) /\ c <> checksum (cbytes no_mbufs long_chain).
Proof. eexists. split; [vm_compute; reflexivity|vm_compute; discriminate]. Qed.
