(* ===== verification/Ring.v ===== *)
(** * Doubly linked rings

    The queues of the kernel that [insque] and [remque] edit, and those of the reassembly of
    fragments: a node points to the next and to the previous one, the last and the first to the
    head.  The nodes, of type [N], and where their links are kept are given by [rlink]. *)

From S2P Require Import Prelude.
Local Open Scope kern_scope.

(** The links of a node: [r_next] and [r_prev] read them, [None] when the node is no object or
    the link no node; [r_put_next], [r_put_prev] and [r_zap_prev] store a node or a null pointer
    into a node that is an object. *)
Record rlink (S N : Type) := RLink {
  r_node : N -> S -> bool;
  r_next : N -> S -> option N;
  r_prev : N -> S -> option N;
  r_put_next : N -> N -> S -> S;
  r_put_prev : N -> N -> S -> S;
  r_zap_prev : N -> S -> S }.
Arguments r_node {S N}. Arguments r_next {S N}. Arguments r_prev {S N}.
Arguments r_put_next {S N}. Arguments r_put_prev {S N}. Arguments r_zap_prev {S N}.

Class RingLaws {S N} `{!EqDecision N} (L : rlink S N) := {
  rl_next_put a v s b : r_node L a s = true -> r_next L b (r_put_next L a v s) = if decide (b = a) then Some v else r_next L b s;
  rl_prev_put a v s b : r_node L a s = true -> r_prev L b (r_put_prev L a v s) = if decide (b = a) then Some v else r_prev L b s;
  rl_prev_zap a s b : r_node L a s = true -> r_prev L b (r_zap_prev L a s) = if decide (b = a) then None else r_prev L b s;
  rl_next_other a v s b : r_next L b (r_put_prev L a v s) = r_next L b s;
  rl_next_zap a s b : r_next L b (r_zap_prev L a s) = r_next L b s;
  rl_prev_other a v s b : r_prev L b (r_put_next L a v s) = r_prev L b s;
  rl_node_next a v s b : r_node L b (r_put_next L a v s) = r_node L b s;
  rl_node_prev a v s b : r_node L b (r_put_prev L a v s) = r_node L b s;
  rl_node_zap a s b : r_node L b (r_zap_prev L a s) = r_node L b s }.

(** ** The operations *)

Section Ops.
Context {S N : Type} (L : rlink S N).

Definition get_next (a : N) : K S N := kderef (r_next L a).
Definition get_prev (a : N) : K S N := kderef (r_prev L a).
Definition put (a : N) (f : S -> S) : K S unit := fun s => if r_node L a s then Some (tt, f s) else None.
Definition put_next (a v : N) : K S unit := put a (r_put_next L a v).
Definition put_prev (a v : N) : K S unit := put a (r_put_prev L a v).
Definition zap_prev (a : N) : K S unit := put a (r_zap_prev L a).

(** sys/i386/i386/machdep.c:1282-1289, [_insque]. *)
Definition r_insque (element head : N) : K S unit :=
  let! n := get_next head in
  do! put_next element n in
  do! put_next head element in
  do! put_prev element head in
  let! n := get_next element in
  put_prev n element.

(** sys/i386/i386/machdep.c:1295-1302, [_remque]. *)
Definition r_remque (element : N) : K S unit :=
  let! n := get_next element in
  let! p := get_prev element in
  do! put_prev n p in
  let! p := get_prev element in
  let! n := get_next element in
  do! put_next p n in
  zap_prev element.

(** sys/netinet/ip_input.c:568-576, [ip_enq]. *)
Definition r_enq (p prev : N) : K S unit :=
  do! put_prev p prev in
  let! n := get_next prev in
  do! put_next p n in
  let! n := get_next prev in
  do! put_prev n p in
  put_next prev p.

(** sys/netinet/ip_input.c:581-587, [ip_deq]. *)
Definition r_deq (p : N) : K S unit :=
  let! prev := get_prev p in
  let! next := get_next p in
  do! put_next prev next in
  let! next := get_next p in
  let! prev := get_prev p in
  put_prev next prev.
End Ops.

Section Ring.
Context {S N : Type} `{!EqDecision N} (L : rlink S N) `{!RingLaws L}.

(** The nodes [l] lie between [a] and [z]. *)
Fixpoint seg (s : S) (a : N) (l : list N) (z : N) : Prop :=
  match l with
  | [] => r_next L a s = Some z /\ r_prev L z s = Some a
  | x :: l => r_next L a s = Some x /\ r_prev L x s = Some a /\ seg s x l z
  end.

(** The ring with the head [h]; its nodes are objects. *)
Record ring (s : S) (h : N) (l : list N) : Prop := {
  rg_seg : seg s h l h;
  rg_nodup : NoDup (h :: l);
  rg_node : forall x, x ∈ h :: l -> r_node L x s = true }.

Lemma nseg_app s a l1 x l2 z : seg s a (l1 ++ x :: l2) z <-> seg s a l1 x /\ seg s x l2 z.
Proof. revert a. induction l1 as [|y l1 IH]; intros a; simpl; [tauto|]. rewrite IH. tauto. Qed.

Lemma seg_frame s s' a l z : (forall x, x ∈ a :: l -> r_next L x s' = r_next L x s) ->
  (forall x, x ∈ l ++ [z] -> r_prev L x s' = r_prev L x s) -> seg s a l z -> seg s' a l z.
Proof.
  revert a. induction l as [|x l IH]; intros a Hn Hp; simpl.
  - rewrite Hn, Hp by set_solver. done.
  - rewrite (Hn a), (Hp x) by set_solver. intros (? & ? & Hs). split_and!; [done|done|]. apply IH; [| |done].
    + intros y Hy. apply Hn. set_solver.
    + intros y Hy. apply Hp. set_solver.
Qed.

Lemma ring_frame s s' h l : (forall x, x ∈ h :: l -> r_next L x s' = r_next L x s) ->
  (forall x, x ∈ h :: l -> r_prev L x s' = r_prev L x s) -> (forall x, x ∈ h :: l -> r_node L x s = true -> r_node L x s' = true) ->
  ring s h l -> ring s' h l.
Proof.
  intros Hn Hp Hnode [Hs Hd Ho]. split; [|done|auto]. apply (seg_frame s); [done| |done].
  intros x Hx. apply Hp. rewrite elem_of_app, !elem_of_cons, elem_of_nil in *. tauto.
Qed.

(** The node after a part of the ring, and the node at its end. *)
Definition first (l : list N) (z : N) : N := match l with x :: _ => x | [] => z end.
Definition final (a : N) (l : list N) : N := default a (last l).

Lemma final_snoc a l x : final a (l ++ [x]) = x.
Proof. unfold final. by rewrite last_snoc. Qed.
Lemma final_cons a x l : final a (x :: l) = final x l.
Proof. unfold final. rewrite last_cons. by destruct (last l). Qed.
Lemma final_in a l : final a l ∈ a :: l.
Proof. revert a. induction l as [|x l IH]; intros a; [set_solver|]. rewrite final_cons. specialize (IH x). set_solver. Qed.
Lemma first_in l z : first l z ∈ z :: l.
Proof. destruct l; set_solver. Qed.

Lemma seg_first s a l z : seg s a l z -> r_next L a s = Some (first l z).
Proof. destruct l; [by intros [? _]|by intros (? & _)]. Qed.
Lemma seg_final s a l z : seg s a l z -> r_prev L z s = Some (final a l).
Proof. revert a. induction l as [|x l IH]; intros a; simpl; [by intros [_ ?]|]. intros (_ & _ & H). rewrite final_cons. by apply IH. Qed.

Lemma ring_next s h l1 l2 : ring s h (l1 ++ l2) -> r_next L (final h l1) s = Some (first l2 h).
Proof.
  intros [Hs _ _]. destruct l1 as [|y l1] using rev_ind; [by apply (seg_first _ _ _ h)|].
  rewrite final_snoc. rewrite <- app_assoc in Hs. apply nseg_app in Hs as [_ Hs]. by apply seg_first in Hs.
Qed.
Lemma ring_prev s h l1 l2 : ring s h (l1 ++ l2) -> r_prev L (first l2 h) s = Some (final h l1).
Proof.
  intros [Hs _ _]. destruct l2 as [|y l2]; simpl.
  - rewrite app_nil_r in Hs. by apply seg_final in Hs.
  - apply nseg_app in Hs as [Hs _]. by apply seg_final in Hs.
Qed.

(** Nodes that differ, in a list without repetition. *)
Lemma nodup_apart (l1 l2 : list N) x y : NoDup (l1 ++ l2) -> x ∈ l1 -> y ∈ l2 -> x <> y.
Proof. intros (_ & H & _)%NoDup_app Hx Hy ->. by apply (H y). Qed.
Lemma nodup_final (h : N) l1 a l2 y : NoDup (h :: (l1 ++ [a]) ++ l2) -> y ∈ h :: l1 -> y <> a.
Proof. intros Hd Hy. rewrite <- app_assoc in Hd. apply (nodup_apart (h :: l1) (a :: l2)); [done|done|left]. Qed.
Lemma nodup_first (h : N) l1 l2 y : NoDup (h :: l1 ++ l2) -> y ∈ l1 -> y <> first l2 h.
Proof.
  intros Hd Hy. destruct l2 as [|b l2]; simpl.
  - rewrite app_nil_r in Hd. intros ->. by apply NoDup_cons in Hd as [? _].
  - apply (nodup_apart (h :: l1) (b :: l2)); [done|by right|left].
Qed.
Lemma nodup_after (h : N) l1 b l2 y : NoDup (h :: l1 ++ b :: l2) -> y ∈ b :: l2 -> y <> final h l1.
Proof. intros Hd Hy Heq. apply (nodup_apart (h :: l1) (b :: l2) (final h l1) y); [done|apply final_in|done|done]. Qed.
Lemma nodup_second (h : N) l1 b l2 y : NoDup (h :: l1 ++ b :: l2) -> y ∈ l2 ++ [h] -> y <> b.
Proof.
  intros Hd [Hy|Hy%list_elem_of_singleton]%elem_of_app ->.
  - apply NoDup_cons in Hd as [_ (_ & _ & [Hd _]%NoDup_cons)%NoDup_app]. done.
  - subst. apply NoDup_cons in Hd as [Hd _]. apply Hd, elem_of_app. right. left.
Qed.
Lemma nodup_without (h : N) l1 x l2 : NoDup (h :: l1 ++ x :: l2) <-> (x ∉ h :: l1 ++ l2) /\ NoDup (h :: l1 ++ l2).
Proof. rewrite <- Permutation_middle, Permutation_swap. apply NoDup_cons. Qed.

(** ** Insertion *)

(** [x] goes between two neighbours of the ring. *)
Lemma ring_insert s s' h l1 l2 x : ring s h (l1 ++ l2) -> x ∉ h :: l1 ++ l2 -> r_node L x s = true ->
  (forall y, r_next L y s' = if decide (y = final h l1) then Some x else if decide (y = x) then Some (first l2 h) else r_next L y s) ->
  (forall y, r_prev L y s' = if decide (y = first l2 h) then Some x else if decide (y = x) then Some (final h l1) else r_prev L y s) ->
  (forall y, r_node L y s = true -> r_node L y s' = true) -> ring s' h (l1 ++ x :: l2).
Proof.
  intros [Hs Hd Ho] Hx Hnx Hn Hp Hnode.
  assert (Hap : forall y, y ∈ h :: l1 ++ l2 -> y <> x) by (by intros y Hy ->).
  assert (Hfi : final h l1 <> x) by (apply Hap; pose proof (final_in h l1) as [->|H]%elem_of_cons; [left|right; apply elem_of_app; by left]).
  assert (Hfo : first l2 h <> x) by (apply Hap; pose proof (first_in l2 h) as [->|H]%elem_of_cons; [left|right; apply elem_of_app; by right]).
  assert (Hxn : r_next L x s' = Some (first l2 h)) by (by rewrite Hn, decide_False, decide_True by congruence).
  assert (Hxp : r_prev L x s' = Some (final h l1)) by (by rewrite Hp, decide_False, decide_True by congruence).
  assert (Han : r_next L (final h l1) s' = Some x) by (by rewrite Hn, decide_True).
  assert (Hbp : r_prev L (first l2 h) s' = Some x) by (by rewrite Hp, decide_True).
  split.
  - apply nseg_app. split.
    + destruct l1 as [|a l1 _] using rev_ind; [by split|]. rewrite final_snoc in *.
      rewrite <- app_assoc in Hs. apply nseg_app in Hs as [Hs _]. apply nseg_app. split; [|by split].
      apply (seg_frame s); [| |done].
      * intros y Hy. rewrite Hn, !decide_False; [done| |by apply (nodup_final h l1 a l2)].
        apply Hap. rewrite !elem_of_cons, !elem_of_app in *. tauto.
      * intros y Hy. rewrite Hp, !decide_False; [done| |by apply (nodup_first h (l1 ++ [a]))].
        apply Hap. rewrite !elem_of_cons, !elem_of_app in *. tauto.
    + destruct l2 as [|b l2]; [by split|]. change (first (b :: l2) h) with b in *. split_and!; [done|done|].
      apply nseg_app in Hs as [_ Hs]. apply (seg_frame s); [| |done].
      * intros y Hy. rewrite Hn, !decide_False; [done| |by apply (nodup_after h l1 b l2)].
        apply Hap. rewrite !elem_of_cons, !elem_of_app, !elem_of_cons in *. tauto.
      * intros y Hy. rewrite Hp, !decide_False; [done| |by apply (nodup_second h l1 b l2)].
        apply Hap. rewrite !elem_of_cons, !elem_of_app, !elem_of_cons in *. rewrite elem_of_nil in Hy. tauto.
  - by apply nodup_without.
  - intros y Hy. apply Hnode. destruct (decide (y = x)) as [->|]; [done|]. apply Ho.
    rewrite !elem_of_cons, !elem_of_app, !elem_of_cons in *. tauto.
Qed.

(** ** Removal *)

Lemma ring_take_out s s' h l1 x l2 : ring s h (l1 ++ x :: l2) ->
  (forall y, y <> x -> r_next L y s' = if decide (y = final h l1) then Some (first l2 h) else r_next L y s) ->
  (forall y, y <> x -> r_prev L y s' = if decide (y = first l2 h) then Some (final h l1) else r_prev L y s) ->
  (forall y, y <> x -> r_node L y s = true -> r_node L y s' = true) -> ring s' h (l1 ++ l2).
Proof.
  intros [Hs Hd Ho] Hn Hp Hnode. apply nseg_app in Hs as [Hs1 Hs2]. apply nodup_without in Hd as [Hx Hnd].
  assert (Hap : forall y, y ∈ h :: l1 ++ l2 -> y <> x) by (by intros y Hy ->).
  assert (Hfi : final h l1 <> x) by (apply Hap; pose proof (final_in h l1) as [->|H]%elem_of_cons; [left|right; apply elem_of_app; by left]).
  assert (Hfo : first l2 h <> x) by (apply Hap; pose proof (first_in l2 h) as [->|H]%elem_of_cons; [left|right; apply elem_of_app; by right]).
  assert (Han : r_next L (final h l1) s' = Some (first l2 h)) by (by rewrite Hn, decide_True).
  assert (Hbp : r_prev L (first l2 h) s' = Some (final h l1)) by (by rewrite Hp, decide_True).
  split; [|done|intros y Hy; apply Hnode; [by apply Hap|apply Ho; rewrite !elem_of_cons, !elem_of_app, !elem_of_cons in *; tauto]].
  assert (H1 : seg s' h l1 (first l2 h)).
  { destruct l1 as [|a l1 _] using rev_ind; [by split|]. rewrite final_snoc in *.
    apply nseg_app in Hs1 as [Hs1 _]. apply nseg_app. split; [|by split]. apply (seg_frame s); [| |done].
    - intros y Hy. rewrite Hn, decide_False; [done|by apply (nodup_final h l1 a l2)|].
      apply Hap. rewrite !elem_of_cons, !elem_of_app in *. tauto.
    - intros y Hy. rewrite Hp, decide_False; [done|by apply (nodup_first h (l1 ++ [a]))|].
      apply Hap. rewrite !elem_of_cons, !elem_of_app in *. tauto. }
  destruct l2 as [|b l2]; [by rewrite app_nil_r|]. apply nseg_app. split; [done|].
  change (first (b :: l2) h) with b in *. destruct Hs2 as (_ & _ & Hs2). apply (seg_frame s); [| |done].
  - intros y Hy. rewrite Hn, decide_False; [done|by apply (nodup_after h l1 b l2)|].
    apply Hap. rewrite !elem_of_cons, !elem_of_app, !elem_of_cons in *. tauto.
  - intros y Hy. rewrite Hp, decide_False; [done|by apply (nodup_second h l1 b l2)|].
    apply Hap. rewrite !elem_of_cons, !elem_of_app, !elem_of_cons in *. rewrite elem_of_nil in Hy. tauto.
Qed.

(** ** What the operations do *)

Lemma put_run a f s : r_node L a s = true -> put L a f s = Some (tt, f s).
Proof. unfold put. by intros ->. Qed.
Lemma get_next_run a n s : r_next L a s = Some n -> get_next L a s = Some (n, s).
Proof. unfold get_next, kderef. by intros ->. Qed.
Lemma get_prev_run a n s : r_prev L a s = Some n -> get_prev L a s = Some (n, s).
Proof. unfold get_prev, kderef. by intros ->. Qed.

Definition enqueued (x a b : N) (s : S) : S := r_put_next L a x (r_put_prev L b x (r_put_next L x b (r_put_prev L x a s))).
Definition dequeued (x a b : N) (s : S) : S := r_put_prev L b a (r_put_next L a b s).
Definition insqued (x a b : N) (s : S) : S := r_put_prev L b x (r_put_prev L x a (r_put_next L a x (r_put_next L x b s))).
Definition remqued (x a b : N) (s : S) : S := r_zap_prev L x (r_put_next L a b (r_put_prev L b a s)).

Ltac ring_simpl :=
  repeat first [rewrite rl_node_next | rewrite rl_node_prev | rewrite rl_node_zap | rewrite rl_next_other | rewrite rl_next_zap
    | rewrite rl_prev_other | rewrite rl_next_put by (ring_simpl; done) | rewrite rl_prev_put by (ring_simpl; done)
    | rewrite rl_prev_zap by (ring_simpl; done)].

Section At.
Context (s : S) (h : N) (l1 l2 : list N).
Let a := final h l1.
Let b := first l2 h.

Lemma ends_in : a ∈ h :: l1 ++ l2 /\ b ∈ h :: l1 ++ l2.
Proof.
  split; [pose proof (final_in h l1) as H|pose proof (first_in l2 h) as H]; unfold a, b;
    rewrite !elem_of_cons, ?elem_of_app in *; tauto.
Qed.

Lemma enq_run x : ring s h (l1 ++ l2) -> x ∉ h :: l1 ++ l2 -> r_node L x s = true ->
  r_enq L x a s = Some (tt, enqueued x a b s) /\ ring (enqueued x a b s) h (l1 ++ x :: l2).
Proof.
  intros Hr Hx Hxn. destruct ends_in as [Ha Hb].
  assert (Han : r_node L a s = true) by (apply (rg_node _ _ _ Hr); done).
  assert (Hbn : r_node L b s = true) by (apply (rg_node _ _ _ Hr); done).
  assert (Hax : a <> x) by (by intros ->). assert (Hbx : b <> x) by (by intros ->).
  pose proof (ring_next s h l1 l2 Hr) as Hn. fold a b in Hn. split.
  - unfold r_enq, put_prev, put_next.
    rewrite (bind_run _ _ _ _ _ (put_run x _ s Hxn)).
    erewrite bind_run; [|apply get_next_run; ring_simpl; exact Hn].
    erewrite bind_run; [|apply put_run; ring_simpl; exact Hxn].
    erewrite bind_run; [|apply get_next_run; ring_simpl; rewrite decide_False by done; exact Hn].
    erewrite bind_run; [|apply put_run; ring_simpl; exact Hbn].
    rewrite put_run; [done|by ring_simpl].
  - apply (ring_insert s); try done; fold a b; intros y; unfold enqueued; ring_simpl; try done;
      repeat case_decide; congruence.
Qed.

Lemma ring_insque_run x : ring s h (l1 ++ l2) -> x ∉ h :: l1 ++ l2 -> r_node L x s = true ->
  r_insque L x a s = Some (tt, insqued x a b s) /\ ring (insqued x a b s) h (l1 ++ x :: l2).
Proof.
  intros Hr Hx Hxn. destruct ends_in as [Ha Hb].
  assert (Han : r_node L a s = true) by (apply (rg_node _ _ _ Hr); done).
  assert (Hbn : r_node L b s = true) by (apply (rg_node _ _ _ Hr); done).
  assert (Hax : a <> x) by (by intros ->). assert (Hbx : b <> x) by (by intros ->).
  pose proof (ring_next s h l1 l2 Hr) as Hn. fold a b in Hn. split.
  - unfold r_insque, put_prev, put_next.
    rewrite (bind_run _ _ _ _ _ (get_next_run _ _ _ Hn)), (bind_run _ _ _ _ _ (put_run x _ s Hxn)).
    erewrite bind_run; [|apply put_run; ring_simpl; exact Han].
    erewrite bind_run; [|apply put_run; ring_simpl; exact Hxn].
    erewrite bind_run; [|apply get_next_run; ring_simpl; rewrite decide_False, decide_True by done; done].
    rewrite put_run; [done|by ring_simpl].
  - apply (ring_insert s); try done; fold a b; intros y; unfold insqued; ring_simpl; try done;
      repeat case_decide; congruence.
Qed.

(** A node in the middle, and its neighbours. *)
Lemma ring_middle x : ring s h (l1 ++ x :: l2) -> r_prev L x s = Some a /\ r_next L x s = Some b /\
  (x ∉ h :: l1 ++ l2) /\ a <> x /\ b <> x /\ r_node L a s = true /\ r_node L b s = true /\ r_node L x s = true.
Proof.
  intros Hr. pose proof Hr as [Hs Hd Hn]. apply nseg_app in Hs as [H1 H2]. apply nodup_without in Hd as [Hx _].
  destruct ends_in as [Ha Hb]. apply seg_final in H1. apply seg_first in H2.
  assert (Hin : forall y, y ∈ h :: l1 ++ l2 -> r_node L y s = true).
  { intros y Hy. apply Hn. rewrite !elem_of_cons, !elem_of_app, ?elem_of_cons in *. tauto. }
  split_and!; [done|done|done|by intros <-|by intros <-|auto|auto|]. apply Hn. right. apply elem_of_app. right. left.
Qed.

Lemma deq_run x : ring s h (l1 ++ x :: l2) ->
  r_deq L x s = Some (tt, dequeued x a b s) /\ ring (dequeued x a b s) h (l1 ++ l2).
Proof.
  intros Hr. destruct (ring_middle x Hr) as (Hp & Hn & Hx & Hax & Hbx & Han & Hbn & Hxn). split.
  - unfold r_deq, put_prev, put_next.
    rewrite (bind_run _ _ _ _ _ (get_prev_run _ _ _ Hp)), (bind_run _ _ _ _ _ (get_next_run _ _ _ Hn)).
    rewrite (bind_run _ _ _ _ _ (put_run a _ s Han)).
    erewrite bind_run; [|apply get_next_run; ring_simpl; rewrite decide_False by congruence; exact Hn].
    erewrite bind_run; [|apply get_prev_run; ring_simpl; exact Hp].
    rewrite put_run; [done|by ring_simpl].
  - apply (ring_take_out s _ h l1 x l2); [done|..]; fold a b; intros y Hy; unfold dequeued; ring_simpl; done.
Qed.

Lemma ring_remque_run x : ring s h (l1 ++ x :: l2) ->
  r_remque L x s = Some (tt, remqued x a b s) /\ ring (remqued x a b s) h (l1 ++ l2).
Proof.
  intros Hr. destruct (ring_middle x Hr) as (Hp & Hn & Hx & Hax & Hbx & Han & Hbn & Hxn). split.
  - unfold r_remque, put_prev, put_next, zap_prev.
    rewrite (bind_run _ _ _ _ _ (get_next_run _ _ _ Hn)), (bind_run _ _ _ _ _ (get_prev_run _ _ _ Hp)).
    rewrite (bind_run _ _ _ _ _ (put_run b _ s Hbn)).
    erewrite bind_run; [|apply get_prev_run; ring_simpl; rewrite decide_False by congruence; exact Hp].
    erewrite bind_run; [|apply get_next_run; ring_simpl; exact Hn].
    erewrite bind_run; [|apply put_run; ring_simpl; exact Han].
    rewrite put_run; [done|by ring_simpl].
  - apply (ring_take_out s _ h l1 x l2); [done|..]; fold a b; intros y Hy; unfold remqued; ring_simpl; try done.
    by rewrite decide_False.
Qed.
End At.
End Ring.
