(* ===== verification/IpFrag.v ===== *)
(** * Reassembly of IP fragments (sys/netinet/ip_input.c)

    The queues of fragments and what [ipintr] does with a packet for this host.  A packet is
    known by the address of its header: the structure, where in the first mbuf it lies, and the
    chain of mbufs that holds it.  The links of a fragment lie over the addresses of its header,
    as in the code.  A freed object keeps its contents and has no mbufs. *)

From S2P Require Import Prelude Mbuf Ring.
Local Open Scope kern_scope.

(** ** Data *)

Definition IP_DF := 16384.
Definition IP_MF := 8192.
Definition IPFRAGTTL := 60.
Definition IP_HDR := 20.

(** A [struct ipasfrag *]: a fragment, or the queue that is the head of the ring. *)
Inductive fnode : Type :=
| FQ (f : loc)
| FF (l : loc).
(** A [struct ipq *]: a queue, or the variable [ipq]. *)
Inductive qnode : Type :=
| QStatic
| QQ (f : loc).

#[export] Instance fnode_eq_dec : EqDecision fnode.
Proof. solve_decision. Defined.
#[export] Instance qnode_eq_dec : EqDecision qnode.
Proof. solve_decision. Defined.

(** Four bytes of a header that hold an address of a host or a link. *)
Inductive word : Type :=
| Addr (a : Z)
| Link (n : fnode).

(** sys/netinet/ip.h:49-68, [struct ip]: overlaid by [struct ipasfrag] (sys/netinet/ip_var.h:71-89),
    whose [ipf_mff] is [ip_tos] and whose links are the addresses. *)
Record ip := Ip {
  ip_hl : Z; ip_tos : Z; ip_len : Z; ip_id : Z; ip_off : Z; ip_ttl : Z; ip_p : Z; ip_sum : Z;
  ip_src : word; ip_dst : word }.

Definition set_tos v x := Ip (ip_hl x) v (ip_len x) (ip_id x) (ip_off x) (ip_ttl x) (ip_p x) (ip_sum x) (ip_src x) (ip_dst x).
Definition set_iplen v x := Ip (ip_hl x) (ip_tos x) v (ip_id x) (ip_off x) (ip_ttl x) (ip_p x) (ip_sum x) (ip_src x) (ip_dst x).
Definition set_off v x := Ip (ip_hl x) (ip_tos x) (ip_len x) (ip_id x) v (ip_ttl x) (ip_p x) (ip_sum x) (ip_src x) (ip_dst x).
Definition set_src v x := Ip (ip_hl x) (ip_tos x) (ip_len x) (ip_id x) (ip_off x) (ip_ttl x) (ip_p x) (ip_sum x) v (ip_dst x).
Definition set_dst v x := Ip (ip_hl x) (ip_tos x) (ip_len x) (ip_id x) (ip_off x) (ip_ttl x) (ip_p x) (ip_sum x) (ip_src x) v.

(** [p_at] is the place of the header in the buffer of the first mbuf, so that [mtod(m)] is the
    header when [m_data] is [p_at]; [p_m] is the chain, empty once it is freed or joined to another. *)
Record packet := Packet { p_ip : ip; p_at : Z; p_m : list mbuf }.
Definition set_ip v x := Packet v (p_at x) (p_m x).
Definition set_m v x := Packet (p_ip x) (p_at x) v.

(** sys/netinet/ip_var.h:56-64, [struct ipq]: with the mbuf it is in, none once freed. *)
Record ipq := Ipq {
  ipq_fwd : option qnode; ipq_bwd : option qnode; ipq_ttl : Z; ipq_p : Z; ipq_id : Z;
  ipq_next : option fnode; ipq_prev : option fnode; ipq_src : Z; ipq_dst : Z; ipq_m : list mbuf }.

(** sys/netinet/ip_var.h:116-137, [struct ipstat]: the fields that change here, and their values. *)
Inductive ipstat : Type :=
| ips_total | ips_badsum | ips_tooshort | ips_toosmall | ips_badhlen | ips_badlen | ips_fragments | ips_fragdropped
| ips_fragtimeout | ips_delivered | ips_reassembled | ips_fragmented | ips_ofragments.
#[export] Instance ipstat_eq_dec : EqDecision ipstat.
Proof. solve_decision. Defined.

(** The queues, the packets, [ipq] - whose links are null before [ip_init] - and the mbufs. *)
Record ipst := Ipst {
  ip_mb : mbst; pkts : gmap loc packet; queues : gmap loc ipq; ipq_static : option qnode * option qnode; ips : ipstat -> Z }.

Definition with_mb v s := Ipst v (pkts s) (queues s) (ipq_static s) (ips s).
Definition with_pkts v s := Ipst (ip_mb s) v (queues s) (ipq_static s) (ips s).
Definition with_queues v s := Ipst (ip_mb s) (pkts s) v (ipq_static s) (ips s).
Definition with_static v s := Ipst (ip_mb s) (pkts s) (queues s) v (ips s).
Definition with_ips v s := Ipst (ip_mb s) (pkts s) (queues s) (ipq_static s) v.

#[export] Instance ipst_mbufs : HasMbufs ipst := {| mb_get := ip_mb; mb_put := with_mb |}.

(** [ipstat.f++]. *)
Definition bump (f : ipstat) (x : ipstat -> Z) : ipstat -> Z := fun g => if decide (g = f) then u32 (x g + 1) else x g.
Definition count (f : ipstat) : K ipst unit := kmod (fun s => with_ips (bump f (ips s)) s).

(** ** Objects and links *)

Definition pkt (l : loc) : K ipst packet := kderef (fun s => pkts s !! l).
Definition upd_pkt (l : loc) (f : packet -> packet) : K ipst unit :=
  let! x := pkt l in kmod (fun s => with_pkts (<[l := f x]> (pkts s)) s).
Definition upd_ip (l : loc) (f : ip -> ip) : K ipst unit := upd_pkt l (fun x => set_ip (f (p_ip x)) x).
Definition queue (f : loc) : K ipst ipq := kderef (fun s => queues s !! f).

Definition set_qlinks n p x := Ipq n p (ipq_ttl x) (ipq_p x) (ipq_id x) (ipq_next x) (ipq_prev x) (ipq_src x) (ipq_dst x) (ipq_m x).
Definition set_flinks n p x := Ipq (ipq_fwd x) (ipq_bwd x) (ipq_ttl x) (ipq_p x) (ipq_id x) n p (ipq_src x) (ipq_dst x) (ipq_m x).
Definition set_qttl v x := Ipq (ipq_fwd x) (ipq_bwd x) v (ipq_p x) (ipq_id x) (ipq_next x) (ipq_prev x) (ipq_src x) (ipq_dst x) (ipq_m x).
Definition set_qm v x := Ipq (ipq_fwd x) (ipq_bwd x) (ipq_ttl x) (ipq_p x) (ipq_id x) (ipq_next x) (ipq_prev x) (ipq_src x) (ipq_dst x) v.
Definition upd_queue (f : loc) (g : ipq -> ipq) : K ipst unit :=
  let! x := queue f in kmod (fun s => with_queues (<[f := g x]> (queues s)) s).

Definition link_of (w : word) : option fnode := match w with Link n => Some n | Addr _ => None end.
Definition alter_pkt (l : loc) (f : ip -> ip) (s : ipst) : ipst := with_pkts (alter (fun x => set_ip (f (p_ip x)) x) l (pkts s)) s.
Definition alter_queue (f : loc) (g : ipq -> ipq) (s : ipst) : ipst := with_queues (alter g f (queues s)) s.

(** [ipf_next] and [ipf_prev], at the offsets of [ipq_next] and [ipq_prev]. *)
Definition frag_link : rlink ipst fnode := {|
  r_node a s := match a with FQ f => bool_decide (is_Some (queues s !! f)) | FF l => bool_decide (is_Some (pkts s !! l)) end;
  r_next a s := match a with FQ f => queues s !! f ≫= ipq_next | FF l => pkts s !! l ≫= (fun x => link_of (ip_src (p_ip x))) end;
  r_prev a s := match a with FQ f => queues s !! f ≫= ipq_prev | FF l => pkts s !! l ≫= (fun x => link_of (ip_dst (p_ip x))) end;
  r_put_next a v := match a with
    | FQ f => alter_queue f (fun x => set_flinks (Some v) (ipq_prev x) x)
    | FF l => alter_pkt l (set_src (Link v)) end;
  r_put_prev a v := match a with
    | FQ f => alter_queue f (fun x => set_flinks (ipq_next x) (Some v) x)
    | FF l => alter_pkt l (set_dst (Link v)) end;
  r_zap_prev a := match a with
    | FQ f => alter_queue f (fun x => set_flinks (ipq_next x) None x)
    | FF l => alter_pkt l (set_dst (Addr 0)) end |}.

(** [next] and [prev] of a [struct ipq]. *)
Definition queue_link : rlink ipst qnode := {|
  r_node a s := match a with QStatic => true | QQ f => bool_decide (is_Some (queues s !! f)) end;
  r_next a s := match a with QStatic => fst (ipq_static s) | QQ f => queues s !! f ≫= ipq_fwd end;
  r_prev a s := match a with QStatic => snd (ipq_static s) | QQ f => queues s !! f ≫= ipq_bwd end;
  r_put_next a v s := match a with
    | QStatic => with_static (Some v, snd (ipq_static s)) s
    | QQ f => alter_queue f (fun x => set_qlinks (Some v) (ipq_bwd x) x) s end;
  r_put_prev a v s := match a with
    | QStatic => with_static (fst (ipq_static s), Some v) s
    | QQ f => alter_queue f (fun x => set_qlinks (ipq_fwd x) (Some v) x) s end;
  r_zap_prev a s := match a with
    | QStatic => with_static (fst (ipq_static s), None) s
    | QQ f => alter_queue f (fun x => set_qlinks (ipq_fwd x) None x) s end |}.

(** sys/netinet/ip_input.c:568-576, [ip_enq]: like insque, but pointers in the middle of the structure. *)
Definition ip_enq (p prev : fnode) : K ipst unit := r_enq frag_link p prev.
(** sys/netinet/ip_input.c:581-587, [ip_deq]. *)
Definition ip_deq (p : fnode) : K ipst unit := r_deq frag_link p.
Definition insque (element head : qnode) : K ipst unit := r_insque queue_link element head.
Definition remque (element : qnode) : K ipst unit := r_remque queue_link element.

(** A fragment where the code has a [struct ipasfrag *] that is not the head. *)
Definition frag_of (n : fnode) : option loc := match n with FF l => Some l | FQ _ => None end.
Definition queue_of (n : qnode) : option loc := match n with QQ f => Some f | QStatic => None end.
Definition fnext (n : fnode) : K ipst fnode := get_next frag_link n.
Definition fprev (n : fnode) : K ipst fnode := get_prev frag_link n.

(** [m_freem(dtom(q))] and [m_free(dtom(fp))]. *)
Definition free_pkt (l : loc) : K ipst unit := let! x := pkt l in do! mb (m_freem (p_m x)) in upd_pkt l (set_m []).
Definition free_queue (f : loc) : K ipst unit := let! x := queue f in do! mb (m_freem (ipq_m x)) in upd_queue f (set_qm []).

(** ** Freeing a queue *)

(** The loops run over rings of objects: [fuel] is their number. *)
Definition all_frags (s : ipst) : nat := S (size (pkts s)).
Definition all_queues (s : ipst) : nat := S (size (queues s)).

(** sys/netinet/ip_input.c:555-559, [ip_freef]: the loop. *)
Fixpoint freef_loop (fuel : nat) (fp : loc) (q : fnode) : K ipst unit :=
  match fuel with
  | O => kpanic
  | S fuel =>
      if decide (q = FQ fp) then kret tt
      else
        let! p := fnext q in
        do! ip_deq q in
        let! l := knonnull (frag_of q) in
        do! free_pkt l in
        freef_loop fuel fp p
  end.

(** sys/netinet/ip_input.c:550-562, [ip_freef]. *)
Definition ip_freef (fp : loc) : K ipst unit :=
  let! fuel := kgets all_frags in
  let! q := fnext (FQ fp) in
  do! freef_loop fuel fp q in
  do! remque (QQ fp) in
  free_queue fp.

(** sys/netinet/ip_input.c:621-624, [ip_drain]: the loop. *)
Fixpoint drain_loop (fuel : nat) : K ipst unit :=
  match fuel with
  | O => kpanic
  | S fuel =>
      let! n := get_next queue_link QStatic in
      match n with
      | QStatic => kret tt
      | QQ _ =>
          do! count ips_fragdropped in
          let! n := get_next queue_link QStatic in
          let! fp := knonnull (queue_of n) in
          do! ip_freef fp in
          drain_loop fuel
      end
  end.

(** sys/netinet/ip_input.c:618-625, [ip_drain]. *)
Definition ip_drain : K ipst unit := let! fuel := kgets all_queues in drain_loop fuel.

(** Of the protocols of the kernel only IP holds mbufs it can do without. *)
#[export] Instance ipst_drains : Drains ipst := ip_drain.

(** sys/netinet/ip_input.c:604-611, [ip_slowtimo]: the loop. *)
Fixpoint slowtimo_loop (fuel : nat) (fp : qnode) : K ipst unit :=
  match fuel with
  | O => kpanic
  | S fuel =>
      match fp with
      | QStatic => kret tt
      | QQ f =>
          do! upd_queue f (fun x => set_qttl (u8 (ipq_ttl x - 1)) x) in
          let! fp := get_next queue_link fp in
          let! p := get_prev queue_link fp in
          let! p := knonnull (queue_of p) in
          let! x := queue p in
          do! (if ipq_ttl x =? 0 then
                 do! count ips_fragtimeout in
                 let! p := get_prev queue_link fp in
                 let! p := knonnull (queue_of p) in
                 ip_freef p
               else kret tt) in
          slowtimo_loop fuel fp
      end
  end.

(** sys/netinet/ip_input.c:594-613, [ip_slowtimo]. *)
Definition ip_slowtimo : K ipst unit :=
  let! fuel := kgets all_queues in
  let! fp := kgets (fun s => fst (ipq_static s)) in
  match fp with None => kret tt | Some fp => slowtimo_loop fuel fp end.

(** sys/netinet/ip_input.c:118-118, [ip_init]: the queue. *)
Definition ip_init : K ipst unit := kmod (with_static (Some QStatic, Some QStatic)).

(** ** Reassembly *)

(** sys/netinet/ip_input.c:540-543, [ip_reass]: [dropfrag]. *)
Definition dropfrag (l : loc) : K ipst ptr := do! count ips_fragdropped in do! free_pkt l in kret None.

(** sys/netinet/ip_input.c:425-426, [ip_reass]: hide the header. *)
Definition hide (l : loc) (hlen : Z) : K ipst unit :=
  let! x := pkt l in
  match p_m x with
  | [] => kpanic
  | m :: r => upd_pkt l (set_m (set_len (m_len m - hlen) (set_data (m_data m + hlen) m) :: r))
  end.

(** sys/netinet/ip_input.c:432-442, [ip_reass]: a new queue, in the mbuf [t], for the fragment [l].
    The length of [t], which no one sets or reads while it is a queue, is 0 here. *)
Definition new_queue (t : mbuf) (l : loc) : K ipst loc :=
  let! s := kget in
  let f := fresh (dom (queues s)) in
  do! kmod (with_queues (<[f := Ipq None None 0 0 0 None None 0 0 [set_len 0 t]]> (queues s))) in
  do! insque (QQ f) QStatic in
  let! x := pkt l in
  match ip_src (p_ip x), ip_dst (p_ip x) with
  | Addr src, Addr dst =>
      do! upd_queue f (fun q => Ipq (ipq_fwd q) (ipq_bwd q) IPFRAGTTL (ip_p (p_ip x)) (ip_id (p_ip x)) (Some (FQ f)) (Some (FQ f))
                                    src dst (ipq_m q)) in
      kret f
  | _, _ => kpanic
  end.

(** sys/netinet/ip_input.c:449-451, [ip_reass]: find a segment which begins after this one does. *)
Fixpoint find_after (fuel : nat) (fp : loc) (off : Z) (q : fnode) : K ipst fnode :=
  match fuel with
  | O => kpanic
  | S fuel =>
      match q with
      | FQ f => if decide (f = fp) then kret q else kpanic
      | FF l =>
          let! x := pkt l in
          if off <? ip_off (p_ip x) then kret q else let! n := fnext q in find_after fuel fp off n
      end
  end.

(** sys/netinet/ip_input.c:463-465, [ip_reass]: [m_adj(dtom(q), i)], and [q] without its first [i]
    bytes; in the loop below the fields change first. *)
Definition trim (l : loc) (i : Z) : K ipst unit :=
  let! x := pkt l in
  let! m := knonnull (m_adj (p_m x) i) in
  upd_pkt l (fun x => Packet (set_iplen (s16 (ip_len (p_ip x) - i)) (set_off (s16 (ip_off (p_ip x) + i)) (p_ip x))) (p_at x) m).

(** sys/netinet/ip_input.c:458-467, [ip_reass]: take from [l] what the preceding segment has; true
    when that is everything. *)
Definition trim_front (l : loc) (fp : loc) (q : fnode) : K ipst bool :=
  let! p := fprev q in
  match p with
  | FQ f => if decide (f = fp) then kret false else kpanic
  | FF pl =>
      let! y := pkt pl in
      let! x := pkt l in
      let i := ip_off (p_ip y) + ip_len (p_ip y) - ip_off (p_ip x) in
      if 0 <? i then
        if ip_len (p_ip x) <=? i then kret true else do! trim l i in kret false
      else kret false
  end.

(** sys/netinet/ip_input.c:473-484, [ip_reass]: trim succeeding segments or, if they are completely
    covered, dequeue them - freed before they are taken from the ring. *)
Fixpoint trim_back (fuel : nat) (l : loc) (fp : loc) (q : fnode) : K ipst fnode :=
  match fuel with
  | O => kpanic
  | S fuel =>
      match q with
      | FQ f => if decide (f = fp) then kret q else kpanic
      | FF ql =>
          let! x := pkt l in
          let! y := pkt ql in
          let e := ip_off (p_ip x) + ip_len (p_ip x) in
          if ip_off (p_ip y) <? e then
            let i := e - ip_off (p_ip y) in
            if i <? ip_len (p_ip y) then do! trim ql i in kret q
            else
              let! q := fnext q in
              let! p := fprev q in
              let! pl := knonnull (frag_of p) in
              do! free_pkt pl in
              let! p := fprev q in
              do! ip_deq p in
              trim_back fuel l fp q
          else kret q
      end
  end.

(** sys/netinet/ip_input.c:492-497, [ip_reass]: is the ring complete from [next] on. *)
Fixpoint reass_check (fuel : nat) (fp : loc) (q : fnode) (next : Z) : K ipst (option Z) :=
  match fuel with
  | O => kpanic
  | S fuel =>
      match q with
      | FQ f => if decide (f = fp) then kret (Some next) else kpanic
      | FF l =>
          let! x := pkt l in
          if ip_off (p_ip x) =? next then
            let! n := fnext q in reass_check fuel fp n (next + ip_len (p_ip x))
          else kret None
      end
  end.

(** sys/netinet/ip_input.c:510-514, [ip_reass]: append the other fragments to the first, [l]. *)
Fixpoint reass_cat (fuel : nat) (l fp : loc) (q : fnode) : K ipst unit :=
  match fuel with
  | O => kpanic
  | S fuel =>
      match q with
      | FQ f => if decide (f = fp) then kret tt else kpanic
      | FF ql =>
          let! t := pkt ql in
          let! n := fnext q in
          let! x := pkt l in
          let! m := mb (m_cat (p_m x) (p_m t)) in
          do! upd_pkt ql (set_m []) in
          do! upd_pkt l (set_m m) in
          reass_cat fuel l fp n
      end
  end.

(** sys/netinet/ip_input.c:528-537, [ip_reass]: make the header visible; the length of the packet. *)
Definition unhide (l : loc) : K ipst unit :=
  let! x := pkt l in
  let h := Z.shiftl (ip_hl (p_ip x)) 2 in
  match p_m x with
  | [] => kpanic
  | m :: r =>
      let c := set_len (m_len m + h) (set_data (m_data m - h) m) :: r in
      upd_pkt l (set_m (on_hdr (set_plen (m_length c)) c))
  end.

(** sys/netinet/ip_input.c:504-538, [ip_reass]: concatenate the fragments, modify the header of the
    first and discard the queue. *)
Definition reass_finish (fp : loc) (next : Z) : K ipst ptr :=
  let! fuel := kgets all_frags in
  let! q := fnext (FQ fp) in
  let! l := knonnull (frag_of q) in
  let! x := pkt l in
  match p_m x with
  | [] => kpanic
  | m :: t =>
      let! c := mb (m_cat [m] t) in
      do! upd_pkt l (set_m c) in
      let! q := fnext q in
      do! reass_cat fuel l fp q in
      let! ipf := fnext (FQ fp) in
      let! l := knonnull (frag_of ipf) in
      let! f := queue fp in
      do! upd_ip l (fun h => set_dst (Addr (ipq_dst f)) (set_src (Addr (ipq_src f)) (set_iplen (s16 next) h))) in
      do! remque (QQ fp) in
      do! free_queue fp in
      do! unhide l in
      kret (Some l)
  end.

(** sys/netinet/ip_input.c:491-538, [ip_reass]: from [insert]. *)
Definition reass_insert (l fp : loc) (q : fnode) : K ipst ptr :=
  let! p := fprev q in
  do! ip_enq (FF l) p in
  let! fuel := kgets all_frags in
  let! q := fnext (FQ fp) in
  let! r := reass_check fuel fp q 0 in
  match r with
  | None => kret None
  | Some next =>
      let! p := fprev (FQ fp) in
      let! z := knonnull (frag_of p) in
      let! z := pkt z in
      if ztrue (ip_tos (p_ip z)) then kret None else reass_finish fp next
  end.

(** sys/netinet/ip_input.c:410-544, [ip_reass]: the address of the header of the whole datagram, or null. *)
Definition ip_reass (l : loc) (fp : ptr) : K ipst ptr :=
  let! x := pkt l in
  do! hide l (Z.shiftl (ip_hl (p_ip x)) 2) in
  match fp with
  | None =>
      let! t := m_get MT_FTABLE in
      match t with
      | [] => dropfrag l
      | t :: _ => let! f := new_queue t l in reass_insert l f (FQ f)
      end
  | Some fp =>
      let! fuel := kgets all_frags in
      let! q := fnext (FQ fp) in
      let! q := find_after fuel fp (ip_off (p_ip x)) q in
      let! drop := trim_front l fp q in
      if drop then dropfrag l
      else let! q := trim_back fuel l fp q in reass_insert l fp q
  end.

(** ** ipintr: a packet for this host *)

(** What becomes of the packet: nothing more to do, or it goes to the input routine of its protocol
    with this length of the header. *)
Inductive outcome : Type :=
| Gone
| Deliver (l : loc) (hlen : Z).

(** sys/netinet/ip_input.c:354-360, [ipintr]: look for the queue of fragments of this datagram. *)
Fixpoint find_queue (fuel : nat) (h : ip) (fp : qnode) : K ipst ptr :=
  match fuel with
  | O => kpanic
  | S fuel =>
      match fp with
      | QStatic => kret None
      | QQ f =>
          let! x := queue f in
          match ip_src h, ip_dst h with
          | Addr src, Addr dst =>
              if (ip_id h =? ipq_id x) && (src =? ipq_src x) && (dst =? ipq_dst x) && (ip_p h =? ipq_p x) then kret (Some f)
              else let! n := get_next queue_link fp in find_queue fuel h n
          | _, _ => kpanic
          end
      end
  end.

(** sys/netinet/ip_input.c:343-349, [ipintr]: a packet in a cluster gets its header into an mbuf;
    false when that fails. *)
Definition pull_header (l : loc) : K ipst bool :=
  let! x := pkt l in
  match p_m x with
  | [] => kpanic
  | m :: _ =>
      if is_ext m then
        do! upd_pkt l (set_m []) in
        let! c := m_pullup (p_m x) IP_HDR in
        match c with
        | [] => do! count ips_toosmall in kret false
        | m :: _ => do! upd_pkt l (fun x => Packet (p_ip x) (m_data m) c) in kret true
        end
      else kret true
  end.

(** sys/netinet/ip_input.c:368-372, [ipintr]: the length without the header, whether more fragments
    are expected, the offset in bytes. *)
Definition frag_fields (hlen : Z) (h : ip) : ip :=
  let h := set_iplen (s16 (ip_len h - hlen)) h in
  let h := set_tos (if flag_set (ip_off h) IP_MF then 1 else 0) h in
  set_off (s16 (Z.shiftl (ip_off h) 3)) h.

(** sys/netinet/ip_input.c:396-397, [ipintr]: switch out to the protocol's input routine. *)
Definition deliver (l : loc) (hlen : Z) : K ipst outcome := do! count ips_delivered in kret (Deliver l hlen).

(** sys/netinet/ip_input.c:342-397, [ipintr]: from [ours], for the packet [l], whose header has
    been found good and its fields converted, and is [hlen] bytes long. *)
Definition ip_ours (l : loc) (hlen : Z) : K ipst outcome :=
  let! x := pkt l in
  if ztrue (Z.land (ip_off (p_ip x)) (Z.lnot IP_DF)) then
    let! ok := pull_header l in
    if negb ok then kret Gone
    else
      let! x := pkt l in
      let! fuel := kgets all_queues in
      let! n := get_next queue_link QStatic in
      let! fp := find_queue fuel (p_ip x) n in
      do! upd_ip l (frag_fields hlen) in
      let! x := pkt l in
      if ztrue (ip_tos (p_ip x)) || ztrue (ip_off (p_ip x)) then
        do! count ips_fragments in
        let! r := ip_reass l fp in
        match r with
        | None => kret Gone
        | Some l => do! count ips_reassembled in deliver l hlen
        end
      else
        do! (match fp with Some f => ip_freef f | None => kret tt end) in
        deliver l hlen
  else
    do! upd_ip l (fun h => set_iplen (s16 (ip_len h - hlen)) h) in
    deliver l hlen.
