(* ===== verification/IpRing.v ===== *)
(** * The rings of fragments

    What is linked: the ring of the queues and a ring of fragments for each; the mbufs that they
    hold; how a queue is freed, by hand, by the timer or when mbufs are wanting. *)

From S2P Require Import Prelude Mbuf MbufSpec MbufOps MbufCopy Ring IpFrag.
Local Open Scope kern_scope.

(** ** The links are links *)

Lemma lookup_alter_if {A} (m : gmap loc A) f i j : alter f i m !! j = if decide (j = i) then f <$> m !! i else m !! j.
Proof. case_decide as H; [subst; by rewrite lookup_alter_eq|by rewrite lookup_alter_ne]. Qed.
Lemma alter_some {A} (m : gmap loc A) f i j : is_Some (alter f i m !! j) <-> is_Some (m !! j).
Proof. rewrite lookup_alter_if. case_decide; [subst|done]. by rewrite fmap_is_Some. Qed.

(** The cases of a law of links, by the kind of the two nodes. *)
Ltac law :=
  simpl in *; rewrite ?lookup_alter_if; repeat case_decide; simplify_eq; try done;
  repeat match goal with H : bool_decide _ = true |- _ => apply bool_decide_eq_true in H as [? H]; rewrite H end;
  try done; try (match goal with |- context [?m !! ?i] => destruct (m !! i) end; done);
  try (apply bool_decide_ext; by rewrite alter_some).

#[export] Instance frag_laws : RingLaws frag_link.
Proof. split; intros; repeat match goal with x : fnode |- _ => destruct x end; law. Qed.
#[export] Instance queue_laws : RingLaws queue_link.
Proof. split; intros; repeat match goal with x : qnode |- _ => destruct x end; law. Qed.

(** ** What links leave alone *)

(** A packet without the words that the links lie over, a queue without its links. *)
Definition pcore (x : packet) : packet := set_ip (set_src (Addr 0) (set_dst (Addr 0) (p_ip x))) x.
Definition qcore (x : ipq) : ipq := set_qlinks None None (set_flinks None None x).

Record links_only (s s' : ipst) : Prop := {
  lo_pkts : pcore <$> pkts s' = pcore <$> pkts s;
  lo_queues : qcore <$> queues s' = qcore <$> queues s;
  lo_mb : ip_mb s' = ip_mb s;
  lo_ips : ips s' = ips s }.

#[export] Instance links_only_po : PreOrder links_only.
Proof. split; [by split|]. intros s1 s2 s3 [] []. split; congruence. Qed.

Lemma fmap_alter_id {A B} (g : A -> B) f i (m : gmap loc A) : (forall x, g (f x) = g x) -> g <$> alter f i m = g <$> m.
Proof.
  intros H. apply map_eq. intros j. rewrite !lookup_fmap, lookup_alter_if. case_decide; [subst|done].
  destruct (m !! i); simpl; [by rewrite H|done].
Qed.

Lemma alter_pkt_links l f s : (forall h, pcore (set_ip (f (p_ip h)) h) = pcore h) -> links_only s (alter_pkt l f s).
Proof. intros H. split; try done. simpl. by apply fmap_alter_id. Qed.
Lemma alter_queue_links f g s : (forall x, qcore (g x) = qcore x) -> links_only s (alter_queue f g s).
Proof. intros H. split; try done. simpl. by apply fmap_alter_id. Qed.

Lemma frag_put_links s a v : links_only s (r_put_next frag_link a v s) /\ links_only s (r_put_prev frag_link a v s).
Proof. destruct a; split; simpl; (by apply alter_queue_links) || (by apply alter_pkt_links). Qed.
Lemma queue_put_links s a v : links_only s (r_put_next queue_link a v s) /\ links_only s (r_put_prev queue_link a v s) /\
  links_only s (r_zap_prev queue_link a s).
Proof. destruct a; split_and!; simpl; (by split) || (by apply alter_queue_links). Qed.

(** An edit of one ring leaves the others. *)
Lemma queue_ring_frag s a v y :
  (r_next queue_link y (r_put_next frag_link a v s) = r_next queue_link y s /\
   r_prev queue_link y (r_put_next frag_link a v s) = r_prev queue_link y s /\
   r_node queue_link y (r_put_next frag_link a v s) = r_node queue_link y s) /\
  (r_next queue_link y (r_put_prev frag_link a v s) = r_next queue_link y s /\
   r_prev queue_link y (r_put_prev frag_link a v s) = r_prev queue_link y s /\
   r_node queue_link y (r_put_prev frag_link a v s) = r_node queue_link y s).
Proof. destruct a, y; split_and!; law. Qed.

(** The rings of fragments are as they were. *)
Definition same_frags (s s' : ipst) : Prop := forall y, r_next frag_link y s' = r_next frag_link y s /\
  r_prev frag_link y s' = r_prev frag_link y s /\ r_node frag_link y s' = r_node frag_link y s.

#[export] Instance same_frags_po : PreOrder same_frags.
Proof. split; [done|]. intros s1 s2 s3 H1 H2 y. destruct (H1 y) as (? & ? & ?), (H2 y) as (? & ? & ?). split_and!; congruence. Qed.

Lemma queue_put_frags s a v : same_frags s (r_put_next queue_link a v s) /\ same_frags s (r_put_prev queue_link a v s) /\
  same_frags s (r_zap_prev queue_link a s).
Proof. split_and!; intros y; destruct a, y; split_and!; law. Qed.

Lemma ring_same_frags s s' h l : same_frags s s' -> ring frag_link s h l -> ring frag_link s' h l.
Proof. intros He. apply (ring_frame _ s); intros y _; destruct (He y) as (H1 & H2 & H3); [done|done|by rewrite H3]. Qed.

(** ** Changes of links and of data *)

(** Only the links of the fragments [X] change, and those of no queue to its neighbours. *)
Record edits (X : list fnode) (s s' : ipst) : Prop := {
  ed_next : forall y, y ∉ X -> r_next frag_link y s' = r_next frag_link y s;
  ed_prev : forall y, y ∉ X -> r_prev frag_link y s' = r_prev frag_link y s;
  ed_node : forall y, r_node frag_link y s' = r_node frag_link y s;
  ed_qnext : forall y, r_next queue_link y s' = r_next queue_link y s;
  ed_qprev : forall y, r_prev queue_link y s' = r_prev queue_link y s;
  ed_qnode : forall y, r_node queue_link y s' = r_node queue_link y s }.

#[export] Instance edits_po X : PreOrder (edits X).
Proof. split; [by split|]. intros s1 s2 s3 H1 H2. split; intros; (etrans; [by apply H2|by apply H1]). Qed.

Lemma edits_sub X Y s s' : X ⊆ Y -> edits X s s' -> edits Y s s'.
Proof. intros H []. split; auto. Qed.

Lemma edits_next X s a v : a ∈ X -> r_node frag_link a s = true -> edits X s (r_put_next frag_link a v s).
Proof.
  intros Ha Hn. split; intros y; try (destruct (queue_ring_frag s a v y) as [(? & ? & ?) _]; done).
  - intros Hy. rewrite rl_next_put by done. rewrite decide_False; [done|]. by intros ->.
  - intros _. by rewrite rl_prev_other.
  - by rewrite rl_node_next.
Qed.
Lemma edits_prev X s a v : a ∈ X -> r_node frag_link a s = true -> edits X s (r_put_prev frag_link a v s).
Proof.
  intros Ha Hn. split; intros y; try (destruct (queue_ring_frag s a v y) as [_ (? & ? & ?)]; done).
  - intros _. by rewrite rl_next_other.
  - intros Hy. rewrite rl_prev_put by done. rewrite decide_False; [done|]. by intros ->.
  - by rewrite rl_node_prev.
Qed.

Lemma edits_deq X s x a b : a ∈ X -> b ∈ X -> r_node frag_link a s = true -> r_node frag_link b s = true ->
  edits X s (dequeued frag_link x a b s) /\ links_only s (dequeued frag_link x a b s).
Proof.
  intros Ha Hb Hna Hnb. split.
  - etrans; [by apply (edits_next _ _ a b)|]. apply edits_prev; [done|]. by rewrite rl_node_next.
  - etrans; [apply (proj1 (frag_put_links s a b))|]. apply frag_put_links.
Qed.
Lemma edits_enq X s x a b : a ∈ X -> b ∈ X -> x ∈ X -> r_node frag_link a s = true -> r_node frag_link b s = true ->
  r_node frag_link x s = true ->
  edits X s (enqueued frag_link x a b s) /\ links_only s (enqueued frag_link x a b s).
Proof.
  intros Ha Hb Hx Hna Hnb Hnx. split.
  - etrans; [by apply (edits_prev _ _ x a)|]. etrans; [apply (edits_next _ _ x b); [done|by rewrite rl_node_prev]|].
    etrans; [apply (edits_prev _ _ b x); [done|by rewrite rl_node_next, rl_node_prev]|].
    apply edits_next; [done|]. by rewrite rl_node_prev, rl_node_next, rl_node_prev.
  - etrans; [apply (proj2 (frag_put_links s x a))|]. etrans; [apply (proj1 (frag_put_links _ x b))|].
    etrans; [apply (proj2 (frag_put_links _ b x))|]. apply frag_put_links.
Qed.

Lemma ring_edits X s s' h l : edits X s s' -> (forall y, y ∈ h :: l -> y ∉ X) -> ring frag_link s h l -> ring frag_link s' h l.
Proof. intros He Hd. apply (ring_frame _ s); intros y Hy; [apply He; auto|apply He; auto|by rewrite (ed_node _ _ _ He)]. Qed.
Lemma qring_edits X s s' h l : edits X s s' -> ring queue_link s h l -> ring queue_link s' h l.
Proof. intros He. apply (ring_frame _ s); intros y Hy; [apply He|apply He|by rewrite (ed_qnode _ _ _ He)]. Qed.

(** ** The shape of the queues *)

(** The queues in order, each with its fragments in order. *)
Record shape (s : ipst) (qs : list (loc * list loc)) : Prop := {
  sh_ring : ring queue_link s QStatic (QQ <$> qs.*1);
  sh_frags : Forall (fun q => ring frag_link s (FQ q.1) (FF <$> q.2)) qs;
  sh_nodup : NoDup (mjoin qs.*2) }.

Lemma shape_same s s' qs : edits [] s s' -> shape s qs -> shape s' qs.
Proof.
  intros He [H1 H2 H3]. split; [by eapply qring_edits| |done]. apply (Forall_impl _ _ _ H2). intros [f ls].
  apply (ring_edits []); [done|]. intros y _. apply not_elem_of_nil.
Qed.

(** The nodes of the ring of a queue. *)
Definition nodes (f : loc) (ls : list loc) : list fnode := FQ f :: (FF <$> ls).

Lemma nodes_apart f ls g ls' y : f <> g -> (forall l, l ∈ ls -> l ∉ ls') -> y ∈ nodes f ls -> y ∉ nodes g ls'.
Proof.
  intros Hfg Hd [->|(l & -> & Hl)%list_elem_of_fmap]%elem_of_cons [Heq|(l' & Heq & Hl')%list_elem_of_fmap]%elem_of_cons;
    simplify_eq. by apply (Hd l').
Qed.

Section Middle.
Context (qs1 qs2 : list (loc * list loc)) (f : loc).

Lemma shape_names s ls : shape s (qs1 ++ (f, ls) :: qs2) -> NoDup (f :: qs1.*1 ++ qs2.*1).
Proof.
  intros [[_ Hnd _] _ _]. apply NoDup_cons in Hnd as [_ Hnd].
  rewrite fmap_app in Hnd. apply NoDup_fmap_1 in Hnd. rewrite fmap_cons in Hnd. by rewrite <- Permutation_middle in Hnd.
Qed.
Lemma shape_ring s ls : shape s (qs1 ++ (f, ls) :: qs2) -> ring frag_link s (FQ f) (FF <$> ls).
Proof. intros [_ H _]. by apply Forall_app in H as [_ [H _]%Forall_cons]. Qed.

(** Another ring is apart from this one. *)
Lemma shape_apart s ls g ls' : shape s (qs1 ++ (f, ls) :: qs2) -> (g, ls') ∈ qs1 ++ qs2 ->
  forall y, y ∈ nodes g ls' -> y ∉ nodes f ls.
Proof.
  intros Hs Hin y. pose proof (shape_names _ _ Hs) as [Hf _]%NoDup_cons. destruct Hs as [_ _ Hnd]. apply nodes_apart.
  - intros ->. apply Hf. rewrite <- fmap_app. by apply (list_elem_of_fmap_2 fst _ (f, ls')).
  - rewrite fmap_app, fmap_cons, join_app in Hnd. simpl in Hnd. rewrite Permutation_app_swap_app in Hnd.
    apply NoDup_app in Hnd as (_ & Hnd & _). intros l Hl Hl'. apply (Hnd l Hl'). rewrite <- join_app, <- fmap_app.
    apply list_elem_of_join. exists ls'. split; [done|]. by apply (list_elem_of_fmap_2 snd _ (g, ls')).
Qed.

(** Edits within the ring of one queue and a fragment on its own, that make it a ring of [ls']. *)
Lemma shape_edits s s' ls ls' l : shape s (qs1 ++ (f, ls) :: qs2) -> edits (FF l :: nodes f ls) s s' ->
  (l ∉ mjoin (qs1 ++ qs2).*2) -> ring frag_link s' (FQ f) (FF <$> ls') -> ls' ⊆ l :: ls ->
  shape s' (qs1 ++ (f, ls') :: qs2).
Proof.
  intros Hs He Hl Hr Hsub. pose proof (fun g k => shape_apart s ls g k Hs) as Hap. destruct Hs as [H1 H2 H3].
  rewrite Forall_app, Forall_cons in H2. destruct H2 as (Ha & _ & Hb).
  assert (Hothers : forall q, q ∈ qs1 ++ qs2 -> ring frag_link s (FQ q.1) (FF <$> q.2) -> ring frag_link s' (FQ q.1) (FF <$> q.2)).
  { intros [g k] Hin. apply (ring_edits _ _ _ _ _ He). intros y Hy [->|Hy']%elem_of_cons; [|by apply (Hap g k Hin y)].
    apply Hl, list_elem_of_join. exists k. split; [|by apply (list_elem_of_fmap_2 snd _ (g, k))].
    apply elem_of_cons in Hy as [?|(? & [= <-] & ?)%list_elem_of_fmap]; done. }
  split.
  - rewrite fmap_app, fmap_cons in *. by eapply qring_edits.
  - rewrite Forall_app, Forall_cons. rewrite Forall_forall in Ha, Hb |- *. rewrite Forall_forall.
    split_and!; [|done|]; intros q Hq; (apply Hothers; [set_solver|auto]).
  - rewrite fmap_app, fmap_cons, join_app in *. simpl in *. rewrite Permutation_app_swap_app in *.
    apply NoDup_app in H3 as (_ & H3 & H4). apply NoDup_app. split_and!; [|intros k Hk Hk'|done].
    + destruct Hr as [_ [_ Hn]%NoDup_cons _]. by apply NoDup_fmap_1 in Hn.
    + rewrite ?fmap_app, ?join_app in Hl. specialize (Hsub k Hk). apply elem_of_cons in Hsub as [->|Hin]; [by apply Hl|by apply (H3 k)].
Qed.
End Middle.

Lemma remqued_frags s x a b : same_frags s (remqued queue_link x a b s) /\ links_only s (remqued queue_link x a b s).
Proof.
  split.
  - etrans; [apply (proj1 (proj2 (queue_put_frags s b a)))|]. etrans; [apply (proj1 (queue_put_frags _ a b))|].
    apply (queue_put_frags _ x x).
  - etrans; [apply (proj1 (proj2 (queue_put_links s b a)))|]. etrans; [apply (proj1 (queue_put_links _ a b))|].
    apply (queue_put_links _ x x).
Qed.
Lemma insqued_frags s x a b : same_frags s (insqued queue_link x a b s) /\ links_only s (insqued queue_link x a b s).
Proof.
  split.
  - etrans; [apply (proj1 (queue_put_frags s x b))|]. etrans; [apply (proj1 (queue_put_frags _ a x))|].
    etrans; [apply (proj1 (proj2 (queue_put_frags _ x a)))|]. apply (queue_put_frags _ b x).
  - etrans; [apply (proj1 (queue_put_links s x b))|]. etrans; [apply (proj1 (queue_put_links _ a x))|].
    etrans; [apply (proj1 (proj2 (queue_put_links _ x a)))|]. apply (queue_put_links _ b x).
Qed.

(** A queue leaves the ring of the queues, whatever its own ring is. *)
Lemma qring_remque s qs1 f qs2 : ring queue_link s QStatic (QQ <$> (qs1.*1 ++ f :: qs2.*1)) ->
  Forall (fun q => ring frag_link s (FQ q.1) (FF <$> q.2)) (qs1 ++ qs2) -> NoDup (mjoin (qs1 ++ qs2).*2) ->
  let s' := remqued queue_link (QQ f) (final QStatic (QQ <$> qs1.*1)) (first (QQ <$> qs2.*1) QStatic) s in
  remque (QQ f) s = Some (tt, s') /\ shape s' (qs1 ++ qs2) /\ links_only s s' /\ same_frags s s'.
Proof.
  intros H1 H2 H3 s'. rewrite fmap_app, fmap_cons in H1. destruct (ring_remque_run queue_link _ _ _ _ _ H1) as [Hr Hring].
  destruct (remqued_frags s (QQ f) (final QStatic (QQ <$> qs1.*1)) (first (QQ <$> qs2.*1) QStatic)) as [Hf Hl].
  split_and!; [done| |done|done]. split; [by rewrite !fmap_app| |done].
  apply (Forall_impl _ _ _ H2). intros q. by apply ring_same_frags.
Qed.

Lemma shape_parts s qs1 f ls qs2 : shape s (qs1 ++ (f, ls) :: qs2) -> ring queue_link s QStatic (QQ <$> (qs1.*1 ++ f :: qs2.*1)) /\
  Forall (fun q => ring frag_link s (FQ q.1) (FF <$> q.2)) (qs1 ++ qs2) /\ NoDup (mjoin (qs1 ++ qs2).*2).
Proof.
  intros [H1 H2 H3]. split_and!; [by rewrite fmap_app, fmap_cons in H1|..].
  - rewrite Forall_app, Forall_cons in H2. apply Forall_app. tauto.
  - rewrite fmap_app, fmap_cons, join_app in H3. simpl in H3. rewrite Permutation_app_swap_app in H3.
    apply NoDup_app in H3 as (_ & _ & H3). by rewrite fmap_app, join_app.
Qed.

Lemma shape_remque s qs1 f ls qs2 : shape s (qs1 ++ (f, ls) :: qs2) ->
  let s' := remqued queue_link (QQ f) (final QStatic (QQ <$> qs1.*1)) (first (QQ <$> qs2.*1) QStatic) s in
  remque (QQ f) s = Some (tt, s') /\ shape s' (qs1 ++ qs2) /\ links_only s s' /\ same_frags s s'.
Proof. intros (H1 & H2 & H3)%shape_parts. by apply qring_remque. Qed.

(** ** The mbufs of the packets and queues *)

Section Owned.
Context {A : Type} (g : A -> list mbuf).

Definition owned (m : gmap loc A) : list mbuf := mjoin (g <$> (map_to_list m).*2).

Lemma owned_new m i x : m !! i = None -> owned (<[i := x]> m) ≡ₚ g x ++ owned m.
Proof. intros H. unfold owned. by rewrite map_to_list_insert. Qed.
Lemma owned_at m i x : m !! i = Some x -> owned m ≡ₚ g x ++ owned (delete i m).
Proof. intros H. rewrite <- (insert_id m i x H) at 1. rewrite <- insert_delete_eq. by rewrite owned_new by apply lookup_delete_eq. Qed.
Lemma owned_set m i x y : m !! i = Some x -> g x ++ owned (<[i := y]> m) ≡ₚ g y ++ owned m.
Proof.
  intros H. rewrite (owned_at (<[i := y]> m) i y) by apply lookup_insert_eq. rewrite (owned_at m i x) by done.
  rewrite delete_insert_eq. apply Permutation_app_swap_app.
Qed.
Lemma owned_ext {B} (c : A -> B) m m' : (forall x y, c x = c y -> g x = g y) -> c <$> m' = c <$> m -> owned m' ≡ₚ owned m.
Proof.
  intros Hc. revert m'. induction m as [|i x m Hi IH] using map_ind; intros m' He.
  - rewrite fmap_empty in He. by apply fmap_empty_inv in He as ->.
  - rewrite fmap_insert in He. assert (Hx : c <$> m' !! i = Some (c x)) by (by rewrite <- lookup_fmap, He, lookup_insert_eq).
    apply fmap_Some in Hx as (y & Hy & Hcy). rewrite (owned_at m' i y), (owned_new m i x) by done.
    rewrite (Hc x y) by done. f_equiv. apply IH. rewrite fmap_delete, He, delete_insert_id; [done|]. by rewrite lookup_fmap, Hi.
Qed.
End Owned.

Definition ip_held (s : ipst) : list mbuf := owned p_m (pkts s) ++ owned ipq_m (queues s).

Lemma held_links s s' : links_only s s' -> ip_held s' ≡ₚ ip_held s.
Proof.
  intros [H1 H2 _ _]. unfold ip_held. f_equiv; [apply (owned_ext _ pcore); [|done]|apply (owned_ext _ qcore); [|done]].
  - intros [] []. unfold pcore, set_ip. simpl. congruence.
  - intros [] []. unfold qcore, set_qlinks, set_flinks. simpl. congruence.
Qed.

(** ** What is freed *)

(** The queues [fs] and the packets [ls] lose their mbufs [cs]; the rest is as it was, but for the
    links of queues. *)
Record emptied (fs ls : list loc) (cs : list mbuf) (s s' : ipst) : Prop := {
  em_pkts : forall l, l ∉ ls -> pkts s' !! l = pkts s !! l;
  em_pdom : forall l, is_Some (pkts s' !! l) <-> is_Some (pkts s !! l);
  em_queues : forall f, f ∉ fs -> qcore <$> queues s' !! f = qcore <$> queues s !! f;
  em_qdom : forall f, is_Some (queues s' !! f) <-> is_Some (queues s !! f);
  em_held : ip_held s ≡ₚ cs ++ ip_held s' }.

Lemma emptied_trans fs1 ls1 cs1 fs2 ls2 cs2 s1 s2 s3 : emptied fs1 ls1 cs1 s1 s2 -> emptied fs2 ls2 cs2 s2 s3 ->
  emptied (fs1 ++ fs2) (ls1 ++ ls2) (cs1 ++ cs2) s1 s3.
Proof.
  intros H1 H2. split.
  - intros l [? ?]%not_elem_of_app. etrans; [by apply H2|by apply H1].
  - intros l. etrans; [apply H2|apply H1].
  - intros f [? ?]%not_elem_of_app. etrans; [by apply H2|by apply H1].
  - intros f. etrans; [apply H2|apply H1].
  - rewrite (em_held _ _ _ _ _ H1), (em_held _ _ _ _ _ H2). by rewrite app_assoc.
Qed.

Lemma emptied_sub fs ls fs' ls' cs s s' : fs ⊆ fs' -> ls ⊆ ls' -> emptied fs ls cs s s' -> emptied fs' ls' cs s s'.
Proof. intros Hf Hl [H1 H2 H3 H4 H5]. split; auto. Qed.

Lemma fmap_dom {A B} (c : A -> B) (m m' : gmap loc A) i : c <$> m' = c <$> m -> is_Some (m' !! i) <-> is_Some (m !! i).
Proof. intros H. rewrite <- !(fmap_is_Some c), <- !lookup_fmap, H. done. Qed.
Lemma links_node s s' a : links_only s s' -> r_node frag_link a s' = r_node frag_link a s.
Proof. intros [H1 H2 _ _]. destruct a; apply bool_decide_ext; [by apply (fmap_dom qcore)|by apply (fmap_dom pcore)]. Qed.

Lemma emptied_links ls s s' : links_only s s' -> (forall l, l ∉ ls -> pkts s' !! l = pkts s !! l) -> emptied [] ls [] s s'.
Proof.
  intros Hl H. split; [done|..].
  - intros l. apply (fmap_dom pcore), Hl.
  - intros f _. by rewrite <- !lookup_fmap, (lo_queues _ _ Hl).
  - intros f. apply (fmap_dom qcore), Hl.
  - simpl. by rewrite (held_links s s').
Qed.

Lemma frag_put_pkts s a v l : FF l <> a -> pkts (r_put_next frag_link a v s) !! l = pkts s !! l /\
  pkts (r_put_prev frag_link a v s) !! l = pkts s !! l.
Proof. destruct a as [f|k]; [done|]. intros H. simpl. by rewrite !lookup_alter_ne by congruence. Qed.

(** A packet, a queue, without its mbufs. *)
Definition put_pkt (l : loc) (x : packet) (s : ipst) : ipst := with_pkts (<[l := x]> (pkts s)) s.
Definition put_queue (f : loc) (x : ipq) (s : ipst) : ipst := with_queues (<[f := x]> (queues s)) s.

Lemma put_pkt_edits s l x y : pkts s !! l = Some x -> ip_src (p_ip y) = ip_src (p_ip x) -> ip_dst (p_ip y) = ip_dst (p_ip x) ->
  edits [] s (put_pkt l y s).
Proof.
  intros Hx Hs Hd. split; intros []; intros; simpl; rewrite ?lookup_insert; repeat case_decide; subst;
    rewrite ?Hx; simpl; rewrite ?Hs, ?Hd; done.
Qed.
Lemma put_queue_edits s f x y : queues s !! f = Some x -> ipq_next y = ipq_next x -> ipq_prev y = ipq_prev x ->
  ipq_fwd y = ipq_fwd x -> ipq_bwd y = ipq_bwd x -> edits [] s (put_queue f y s).
Proof.
  intros Hx Hn Hp Hf Hb. split; intros []; intros; simpl; rewrite ?lookup_insert; repeat case_decide; subst;
    rewrite ?Hx; simpl; rewrite ?Hn, ?Hp, ?Hf, ?Hb; done.
Qed.

Lemma put_pkt_emptied s l x y : pkts s !! l = Some x -> p_m y = [] -> emptied [] [l] (p_m x) s (put_pkt l y s).
Proof.
  intros Hx Hy. split; try done.
  - intros k Hk. simpl. rewrite lookup_insert_ne; [done|]. set_solver.
  - intros k. simpl. destruct (decide (k = l)) as [->|]; [by rewrite lookup_insert_eq, Hx|by rewrite lookup_insert_ne].
  - unfold ip_held. simpl. rewrite app_assoc, (owned_set p_m _ _ x) by done. by rewrite Hy.
Qed.
Lemma put_queue_emptied s f x y : queues s !! f = Some x -> ipq_m y = [] -> emptied [f] [] (ipq_m x) s (put_queue f y s).
Proof.
  intros Hx Hy. split; try done.
  - intros k Hk. simpl. rewrite lookup_insert_ne; [done|]. set_solver.
  - intros k. simpl. destruct (decide (k = f)) as [->|]; [by rewrite lookup_insert_eq, Hx|by rewrite lookup_insert_ne].
  - unfold ip_held. simpl. rewrite Permutation_app_swap_app. by rewrite (owned_set ipq_m _ _ x), Hy.
Qed.

(** ** Freeing a queue *)

(** The result of a run that frees the chain [cs] and is in [s1] but for the mbufs. *)
Definition freeing (cs : list mbuf) (s1 s : ipst) : option (unit * ipst) :=
  match m_freem cs (ip_mb s) with Some (_, b) => Some (tt, with_mb b s1) | None => None end.

Lemma m_freem_app a b s : m_freem (a ++ b) s = match m_freem a s with Some (_, s1) => m_freem b s1 | None => None end.
Proof.
  revert s. induction a as [|x a IH]; intros s; [done|]. simpl. unfold kbind. destruct (MFREE x s) as [[? s1]|]; [apply IH|done].
Qed.

Lemma free_pkt_run s l x : pkts s !! l = Some x -> free_pkt l s = freeing (p_m x) (put_pkt l (set_m [] x) s) s.
Proof.
  intros Hx. unfold free_pkt, upd_pkt, pkt, freeing, mb, kzoom, kbind, kderef, kmod. rewrite Hx. simpl.
  destruct (m_freem (p_m x) (ip_mb s)) as [[[] b]|]; simpl; [by rewrite Hx|done].
Qed.
Lemma free_queue_run s f x : queues s !! f = Some x -> free_queue f s = freeing (ipq_m x) (put_queue f (set_qm [] x) s) s.
Proof.
  intros Hx. unfold free_queue, upd_queue, queue, freeing, mb, kzoom, kbind, kderef, kmod. rewrite Hx. simpl.
  destruct (m_freem (ipq_m x) (ip_mb s)) as [[[] b]|]; simpl; [by rewrite Hx|done].
Qed.

(** One run after the other: the second does not depend on the mbufs. *)
Lemma freeing_then {m1 m2 : K ipst unit} {c1 c2 s1 s2 s} : m1 s = freeing c1 s1 s -> (forall b, m2 (with_mb b s1) = freeing c2 s2 (with_mb b s1)) ->
  kbind m1 (fun _ => m2) s = freeing (c1 ++ c2) s2 s.
Proof.
  intros H1 H2. unfold kbind. rewrite H1. unfold freeing. rewrite m_freem_app.
  destruct (m_freem c1 (ip_mb s)) as [[? b]|]; [|done]. rewrite H2. done.
Qed.
Lemma freeing_after {A} (m1 : K ipst A) (m2 : A -> K ipst unit) a c s2 s1 s : m1 s = Some (a, s1) -> ip_mb s1 = ip_mb s ->
  m2 a s1 = freeing c s2 s1 -> kbind m1 m2 s = freeing c s2 s.
Proof. intros H1 Hb H2. rewrite (bind_run _ _ _ _ _ H1), H2. unfold freeing. by rewrite Hb. Qed.

(** What does not depend on the mbufs. *)
Lemma shape_mb b s qs : shape (with_mb b s) qs <-> shape s qs.
Proof. split; apply shape_same; by split. Qed.
Lemma emptied_mb fs ls cs b s s' : emptied fs ls cs (with_mb b s) s' <-> emptied fs ls cs s s'.
Proof. split; intros [H1 H2 H3 H4 H5]; by split. Qed.

Lemma dequeued_mb x a z b s : dequeued frag_link x a z (with_mb b s) = with_mb b (dequeued frag_link x a z s).
Proof. by destruct a, z. Qed.
Lemma remqued_mb x a z b s : remqued queue_link x a z (with_mb b s) = with_mb b (remqued queue_link x a z s).
Proof. by destruct x, a, z. Qed.
Lemma remqued_pkts x a z s : pkts (remqued queue_link x a z s) = pkts s.
Proof. by destruct x, a, z. Qed.
Lemma shape_deq s qs1 f l1 l l2 qs2 : shape s (qs1 ++ (f, l1 ++ l :: l2) :: qs2) ->
  exists s', ip_deq (FF l) s = Some (tt, s') /\ shape s' (qs1 ++ (f, l1 ++ l2) :: qs2) /\ emptied [] (l1 ++ l2) [] s s' /\ links_only s s' /\
    forall b, ip_deq (FF l) (with_mb b s) = Some (tt, with_mb b s').
Proof.
  intros Hs. pose proof (shape_ring _ _ _ _ _ Hs) as Hr. rewrite fmap_app, fmap_cons in Hr.
  destruct (deq_run frag_link _ _ _ _ _ Hr) as [Hrun Hring].
  destruct (ring_middle frag_link _ _ _ _ _ Hr) as (_ & _ & Hx & Ha & Hb & Hna & Hnb & Hnx).
  destruct (ends_in frag_link (FQ f) (FF <$> l1) (FF <$> l2)) as [Ha1 Hz1]. set (a := final _ _) in *. set (z := first _ _) in *.
  assert (Hsub : forall y, y ∈ FQ f :: (FF <$> l1) ++ (FF <$> l2) -> y ∈ nodes f (l1 ++ l :: l2)).
  { unfold nodes. intros y. rewrite fmap_app, fmap_cons, !elem_of_cons, !elem_of_app, elem_of_cons. tauto. }
  destruct (edits_deq (FF l :: nodes f (l1 ++ l :: l2)) s (FF l) a z) as [He Hl]; try done; [right; auto|right; auto|].
  exists (dequeued frag_link (FF l) a z s). split_and!; [done| | |done|].
  - apply (shape_edits qs1 qs2 f s _ (l1 ++ l :: l2) (l1 ++ l2) l); [done|done| |by rewrite fmap_app|set_solver].
    destruct Hs as [_ _ Hnd]. rewrite fmap_app, fmap_cons, join_app in Hnd. cbn [mjoin list_join snd] in Hnd.
    rewrite <- app_assoc, <- app_comm_cons, (app_assoc (mjoin _)), <- Permutation_middle in Hnd.
    apply NoDup_cons in Hnd as [Hl' _]. intros Hin. apply Hl'. rewrite fmap_app, join_app in Hin. set_solver.
  - apply emptied_links; [done|]. intros k Hk. unfold dequeued.
    assert (Hne : forall y, y ∈ FQ f :: (FF <$> l1) ++ (FF <$> l2) -> FF k <> y).
    { intros y. rewrite <- fmap_app. intros [->|(? & -> & ?)%list_elem_of_fmap]%elem_of_cons ?; simplify_eq; by apply Hk. }
    rewrite (proj2 (frag_put_pkts _ z a k (Hne z Hz1))). apply (frag_put_pkts s a z k (Hne a Ha1)).
  - intros b. assert (Hrb : ring frag_link (with_mb b s) (FQ f) ((FF <$> l1) ++ FF l :: (FF <$> l2))) by (by apply (ring_frame _ s)).
    destruct (deq_run frag_link _ _ _ _ _ Hrb) as [Hrun' _]. etrans; [exact Hrun'|]. by rewrite dequeued_mb.
Qed.

Definition chain_of_pkt (s : ipst) (l : loc) : list mbuf := match pkts s !! l with Some x => p_m x | None => [] end.
Definition chain_of_queue (s : ipst) (f : loc) : list mbuf := match queues s !! f with Some x => ipq_m x | None => [] end.

Lemma chain_links s s' l : links_only s s' -> chain_of_pkt s' l = chain_of_pkt s l.
Proof.
  intros [H _ _ _]. unfold chain_of_pkt. apply (f_equal (lookup l)) in H. rewrite !lookup_fmap in H.
  destruct (pkts s' !! l) as [[]|], (pkts s !! l) as [[]|]; simplify_eq/=; done.
Qed.

Lemma freef_loop_run qs1 f qs2 ls fuel s : shape s (qs1 ++ (f, ls) :: qs2) -> (length ls < fuel)%nat ->
  exists s1, shape s1 (qs1 ++ (f, []) :: qs2) /\ emptied [] ls (mjoin (chain_of_pkt s <$> ls)) s s1 /\
    forall b, freef_loop fuel f (first (FF <$> ls) (FQ f)) (with_mb b s) = freeing (mjoin (chain_of_pkt s <$> ls)) s1 (with_mb b s).
Proof.
  revert s fuel. induction ls as [|l ls IH]; intros s [|fuel] Hs Hfuel; simpl in Hfuel; try lia.
  - exists s. split_and!; [done|by apply emptied_links|]. intros b. simpl. by rewrite decide_True.
  - pose proof (shape_ring _ _ _ _ _ Hs) as Hr. pose proof (ring_middle frag_link _ _ [] _ _ Hr) as (_ & Hn & _ & _ & _ & _ & _ & Hnl).
    destruct (shape_deq _ _ _ [] _ _ _ Hs) as (s2 & _ & Hs2 & He2 & Hl2 & Hd2). cbn [app] in Hs2, He2.
    apply bool_decide_eq_true in Hnl as [x Hx].
    assert (Hp2 : pkts s2 !! l = Some x).
    { rewrite (em_pkts _ _ _ _ _ He2); [done|]. destruct Hr as [_ [_ Hnd]%NoDup_cons _].
      apply NoDup_cons in Hnd as [Hnd _]. intros Hin. apply Hnd. by apply list_elem_of_fmap_2. } set (s3 := put_pkt l (set_m [] x) s2).
    assert (Hs3 : shape s3 (qs1 ++ (f, ls) :: qs2)) by (eapply shape_same; [|exact Hs2]; by eapply put_pkt_edits).
    destruct (IH s3 fuel Hs3 ltac:(lia)) as (s1 & Hs1 & He1 & Hrun).
    assert (Hcs : chain_of_pkt s3 <$> ls = chain_of_pkt s <$> ls).
    { apply list_fmap_ext. intros i k Hk%list_elem_of_lookup_2. rewrite <- (chain_links s s2) by done.
      unfold chain_of_pkt, s3. simpl. rewrite lookup_insert_ne; [done|]. intros <-.
      destruct Hr as [_ [_ Hnd]%NoDup_cons _]. apply NoDup_cons in Hnd as [Hnd _]. apply Hnd. by apply list_elem_of_fmap_2. }
    rewrite Hcs in *. exists s1. split_and!; [done| |].
    + rewrite fmap_cons. simpl. unfold chain_of_pkt at 1. rewrite Hx.
      apply (emptied_sub [] (ls ++ [l] ++ ls) [] _ (([] ++ p_m x) ++ _)); [done|set_solver|].
      rewrite <- (app_nil_l (p_m x ++ _)). apply (emptied_trans [] _ [] [] _ _ _ _ _ He2).
      apply (emptied_trans [] [l] (p_m x) [] ls _ s2 s3 s1); [by apply put_pkt_emptied|done].
    + intros b. rewrite !fmap_cons. cbn [first mjoin list_join freef_loop]. rewrite decide_False by done.
      unfold chain_of_pkt at 1. rewrite Hx.
      unfold fnext. rewrite (bind_run _ _ _ (first (FF <$> ls) (FQ f)) (with_mb b s)) by (by apply get_next_run).
      apply (freeing_after _ _ tt _ _ (with_mb b s2)); [apply Hd2|done|].
      rewrite bind_nonnull with (a := l) by done. eapply freeing_then; [by apply free_pkt_run|]. exact Hrun.
Qed.

(** The mbufs of a queue and its fragments. *)
Definition chains (s : ipst) (q : loc * list loc) : list mbuf := mjoin (chain_of_pkt s <$> q.2) ++ chain_of_queue s q.1.

Lemma shape_queue s qs1 f ls qs2 : shape s (qs1 ++ (f, ls) :: qs2) -> is_Some (queues s !! f).
Proof. intros [_ H _]. apply Forall_app in H as [_ [[_ _ H] _]%Forall_cons]. specialize (H (FQ f) ltac:(left)). by apply bool_decide_eq_true in H. Qed.

Lemma shape_pkts s qs1 f ls qs2 l : shape s (qs1 ++ (f, ls) :: qs2) -> l ∈ ls -> is_Some (pkts s !! l).
Proof.
  intros [_ H _] Hl. apply Forall_app in H as [_ [[_ _ H] _]%Forall_cons]. simpl in H.
  specialize (H (FF l) ltac:(right; by apply list_elem_of_fmap_2)). by apply bool_decide_eq_true in H.
Qed.

Lemma shape_fuel s qs1 f ls qs2 : shape s (qs1 ++ (f, ls) :: qs2) -> (length ls < all_frags s)%nat.
Proof.
  intros Hs. unfold all_frags. apply Nat.lt_succ_r, NoDup_keys_size.
  - apply shape_ring in Hs as [_ [_ H]%NoDup_cons _]. by apply NoDup_fmap_1 in H.
  - intros l. by apply (shape_pkts s qs1 f ls qs2).
Qed.

Lemma ip_freef_run qs1 f ls qs2 s : shape s (qs1 ++ (f, ls) :: qs2) ->
  exists s1, shape s1 (qs1 ++ qs2) /\ emptied [f] ls (chains s (f, ls)) s s1 /\
    forall b, ip_freef f (with_mb b s) = freeing (chains s (f, ls)) s1 (with_mb b s).
Proof.
  intros Hs. destruct (freef_loop_run qs1 f qs2 ls (all_frags s) s Hs (shape_fuel _ _ _ _ _ Hs)) as (s2 & Hs2 & He2 & Hrun2).
  destruct (shape_remque s2 qs1 f [] qs2 Hs2) as (_ & Hs3 & Hl3 & _). set (s3 := remqued _ _ _ _ s2) in *.
  destruct (shape_queue _ _ _ _ _ Hs) as [q Hq].
  assert (Hc : chain_of_queue s f = ipq_m q) by (unfold chain_of_queue; by rewrite Hq).
  assert (Hq3 : exists q3, queues s3 !! f = Some q3 /\ ipq_m q3 = ipq_m q).
  { pose proof (em_queues _ _ _ _ _ He2 f ltac:(set_solver)) as H2. pose proof (lo_queues _ _ Hl3) as H3.
    apply (f_equal (lookup f)) in H3. rewrite !lookup_fmap, H2, Hq in H3. apply fmap_Some in H3 as (q3 & H3 & Hq3).
    exists q3. split; [done|]. by destruct q, q3; injection Hq3. }
  destruct Hq3 as (q3 & Hq3 & Hm). exists (put_queue f (set_qm [] q3) s3). split_and!.
  - eapply shape_same; [by eapply put_queue_edits|done].
  - unfold chains. simpl. rewrite Hc, <- Hm. apply (emptied_sub ([] ++ [f]) (ls ++ []) [f] ls); [done|by rewrite app_nil_r|].
    apply (emptied_trans _ _ _ _ _ _ _ s3); [|by apply put_queue_emptied].
    rewrite <- (app_nil_r (mjoin _)). rewrite <- (app_nil_r ls) at 1. apply (emptied_trans [] ls _ [] [] [] s s2 s3); [done|].
    apply emptied_links; [done|]. intros l _. unfold s3. by rewrite remqued_pkts.
  - intros b. unfold ip_freef. rewrite bind_gets. change (all_frags (with_mb b s)) with (all_frags s).
    pose proof (ring_next frag_link _ _ [] _ (shape_ring _ _ _ _ _ Hs)) as Hn.
    unfold fnext. rewrite (bind_run _ _ _ (first (FF <$> ls) (FQ f)) (with_mb b s)) by (by apply get_next_run).
    eapply freeing_then; [apply Hrun2|]. intros b2.
    eapply freeing_after; [apply (proj1 (shape_remque (with_mb b2 s2) qs1 f [] qs2 (proj2 (shape_mb _ _ _) Hs2)))|by rewrite remqued_mb|].
    rewrite remqued_mb. fold s3. rewrite free_queue_run with (x := q3) by done. cbn [fst]. by rewrite Hc, Hm.
Qed.

Lemma chains_emptied fs ls cs s s' q : emptied fs ls cs s s' -> q.1 ∉ fs -> (forall l, l ∈ q.2 -> l ∉ ls) -> chains s' q = chains s q.
Proof.
  intros He Hf Hl. unfold chains. f_equal.
  - f_equal. apply list_fmap_ext. intros i l Hi%list_elem_of_lookup_2. unfold chain_of_pkt. rewrite (em_pkts _ _ _ _ _ He); [done|auto].
  - pose proof (em_queues _ _ _ _ _ He q.1 Hf) as H. unfold chain_of_queue.
    destruct (queues s' !! q.1) as [[]|], (queues s !! q.1) as [[]|]; simplify_eq/=; done.
Qed.

(** The queues after one are other queues, with other fragments. *)
Lemma shape_others s qs1 f ls qs2 q : shape s (qs1 ++ (f, ls) :: qs2) -> q ∈ qs1 ++ qs2 -> (q.1 ∉ [f]) /\ forall l, l ∈ q.2 -> l ∉ ls.
Proof.
  intros Hs Hq. destruct q as [g k]. pose proof (shape_apart _ _ _ _ _ _ _ Hs Hq) as Hap. simpl. split.
  - intros ->%list_elem_of_singleton. apply (Hap (FQ f)); left.
  - intros l Hl Hin. apply (Hap (FF l)); right; by apply list_elem_of_fmap_2.
Qed.

Lemma qring_first s qs : shape s qs -> r_next queue_link QStatic s = Some (first (QQ <$> qs.*1) QStatic).
Proof. intros [H _ _]. by apply (ring_next queue_link _ _ []) in H. Qed.

Lemma drain_loop_run qs fuel s : shape s qs -> (length qs < fuel)%nat ->
  exists s1, shape s1 [] /\ emptied qs.*1 (mjoin qs.*2) (mjoin (chains s <$> qs)) s s1 /\
    forall b, drain_loop fuel (with_mb b s) = freeing (mjoin (chains s <$> qs)) s1 (with_mb b s).
Proof.
  revert s fuel. induction qs as [|[f ls] qs IH]; intros s [|fuel] Hs Hf; simpl in Hf; try lia.
  - exists s. split_and!; [done|by apply emptied_links|]. intros b. cbn [drain_loop].
    rewrite (bind_run _ _ _ QStatic (with_mb b s)); [done|]. apply get_next_run. by apply qring_first in Hs.
  - pose proof (qring_first _ _ Hs) as Hn. set (s0 := with_ips (bump ips_fragdropped (ips s)) s).
    destruct (ip_freef_run [] f ls qs s0) as (s2 & Hs2 & He2 & Hrun2); [by apply (shape_same s)|].
    destruct (IH s2 fuel Hs2 ltac:(lia)) as (s1 & Hs1 & He1 & Hrun1).
    assert (Hcs : chains s2 <$> qs = chains s <$> qs).
    { apply list_fmap_ext. intros i q Hq%list_elem_of_lookup_2. destruct (shape_others _ [] _ _ _ _ Hs Hq) as [H1 H2].
      by apply (chains_emptied _ _ _ s0 s2 q He2). }
    rewrite Hcs in *. exists s1. split_and!; [done| |].
    + eapply (emptied_trans [f] _ _ _ _ _ s s2 s1); [|done]. destruct He2. by split.
    + intros b. rewrite fmap_cons. cbn [drain_loop].
      assert (Hg : get_next queue_link QStatic (with_mb b s) = Some (QQ f, with_mb b s)) by (by apply get_next_run).
      assert (Hg0 : get_next queue_link QStatic (with_mb b s0) = Some (QQ f, with_mb b s0)) by (by apply get_next_run).
      rewrite (bind_run _ _ _ _ _ Hg). unfold count. rewrite bind_mod. change (with_ips _ _) with (with_mb b s0).
      rewrite (bind_run _ _ _ _ _ Hg0), (bind_nonnull _ _ _ f) by done.
      etrans; [eapply freeing_then; [by apply Hrun2|exact Hrun1]|done].
Qed.

Lemma queues_fuel s qs : shape s qs -> (length qs < all_queues s)%nat.
Proof.
  intros Hs. unfold all_queues. apply Nat.lt_succ_r. rewrite <- (length_fmap fst). apply NoDup_keys_size.
  - destruct Hs as [[_ H _] _ _]. apply NoDup_cons in H as [_ H]. by apply NoDup_fmap_1 in H.
  - intros f ([g ls] & -> & Hq)%list_elem_of_fmap. apply list_elem_of_split in Hq as (qs1 & qs2 & ->). by eapply shape_queue.
Qed.

Lemma ip_drain_run qs s : shape s qs ->
  exists s1, shape s1 [] /\ emptied qs.*1 (mjoin qs.*2) (mjoin (chains s <$> qs)) s s1 /\
    forall b, ip_drain (with_mb b s) = freeing (mjoin (chains s <$> qs)) s1 (with_mb b s).
Proof. intros Hs. apply (drain_loop_run qs (all_queues s) s Hs). by apply queues_fuel. Qed.

(** ** The drain routine keeps its promise *)

Lemma held_refs fs ls cs s s' c : emptied fs ls cs s s' -> nrefs c (ip_held s') <= nrefs c (ip_held s).
Proof.
  intros He. assert (Hn : nrefs c (ip_held s) = nrefs c (cs ++ ip_held s')) by (unfold nrefs; by rewrite (em_held _ _ _ _ _ He)).
  rewrite Hn, nrefs_app. pose proof (nrefs_nonneg c cs). lia.
Qed.

Lemma with_own_mb s : with_mb (ip_mb s) s = s.
Proof. by destruct s. Qed.

#[export] Program Instance ipst_laws : DrainLaws ipst := {| held := ip_held; own_inv s := exists qs, shape s qs |}.
Next Obligation. done. Qed.
Next Obligation. by intros []. Qed.
Next Obligation. done. Qed.
Next Obligation. done. Qed.
Next Obligation. intros b s. cbn. f_equiv. intros qs. apply shape_mb. Qed.
Next Obligation.
  intros s l [qs Hs] Hp Hf. destruct (ip_drain_run qs s Hs) as (s1 & Hs1 & He & Hrun).
  set (cs := mjoin (chains s <$> qs)) in *. pose proof (em_held _ _ _ _ _ He) as Hh.
  assert (Hp' : pool (ip_mb s) (cs ++ ip_held s1 ++ l)) by (by rewrite app_assoc, <- Hh).
  assert (Hf' : few (cs ++ ip_held s1 ++ l)) by (by rewrite app_assoc, <- Hh).
  destruct (m_freem_ok _ _ _ Hp' Hf') as (b & Hr & Hp1 & Hk). exists (with_mb b s1). split_and!.
  - specialize (Hrun (ip_mb s)). rewrite with_own_mb in Hrun. etrans; [exact Hrun|]. unfold freeing. by rewrite Hr.
  - exists []. by apply shape_mb.
  - done.
  - done.
  - intros c. by apply (held_refs _ _ _ _ _ c He).
Qed.
