(* ===== verification/IpSpec.v ===== *)
(** * What reassembly promises

    A queue of fragments as a list, and the functions that [ip_reass] and [ipintr] compute on
    such lists; then what becomes of the fragments of a datagram: in whatever order they come,
    repeated or overlapping, the list covers the bytes that have arrived and no others, and is
    whole when they are all there. *)

From S2P Require Import Prelude Mbuf Ring IpFrag.
Local Open Scope kern_scope.

(** ** Fragments *)

(** A header without the words where the links go. *)
Definition clear (h : ip) : ip := set_src (Addr 0) (set_dst (Addr 0) h).

(** The header of a fragment; whether bytes have been taken from its front; its bytes. *)
Record frag := Frag { f_hd : ip; f_cut : bool; f_bytes : list Z }.
Definition f_off (f : frag) : Z := ip_off (f_hd f).
Definition f_len (f : frag) : Z := ip_len (f_hd f).
Definition f_more (f : frag) : Z := ip_tos (f_hd f).
Definition f_end (f : frag) : Z := f_off f + f_len f.

Definition trim_hd (i : Z) (h : ip) : ip := set_iplen (s16 (ip_len h - i)) (set_off (s16 (ip_off h + i)) h).
Definition f_trim (i : Z) (f : frag) : frag := Frag (trim_hd i (f_hd f)) true (drop (Z.to_nat i) (f_bytes f)).

(** The fragments that begin no later than [off], and the others. *)
Fixpoint a_after (off : Z) (l : list frag) : list frag * list frag :=
  match l with
  | [] => ([], [])
  | q :: r => if off <? f_off q then ([], l) else let '(a, b) := a_after off r in (q :: a, b)
  end.

(** [x] without what the fragment before it has; nothing when that is all. *)
Definition a_front (a : list frag) (x : frag) : option frag :=
  match last a with
  | None => Some x
  | Some p =>
      let i := f_end p - f_off x in
      if 0 <? i then if f_len x <=? i then None else Some (f_trim i x) else Some x
  end.

(** The fragments after [x] without what [x] has. *)
Fixpoint a_back (x : frag) (l : list frag) : list frag :=
  match l with
  | [] => []
  | q :: r =>
      if f_off q <? f_end x then
        let i := f_end x - f_off q in
        if i <? f_len q then f_trim i q :: r else a_back x r
      else l
  end.

Definition a_insert (x : frag) (l : list frag) : option (list frag) :=
  let '(a, b) := a_after (f_off x) l in
  match a_front a x with Some x => Some (a ++ x :: a_back x b) | None => None end.

Fixpoint a_check (l : list frag) (next : Z) : option Z :=
  match l with [] => Some next | f :: r => if f_off f =? next then a_check r (next + f_len f) else None end.

(** The length of the datagram when it is all there. *)
Definition a_whole (l : list frag) : option Z :=
  match a_check l 0, last l with Some next, Some z => if ztrue (f_more z) then None else Some next | _, _ => None end.

(** ** Queues *)

Record key := Key { k_id : Z; k_src : Z; k_dst : Z; k_p : Z }.
#[export] Instance key_eq_dec : EqDecision key.
Proof. solve_decision. Defined.

Record aqueue := AQueue { a_key : key; a_ttl : Z; a_frags : list frag }.

Definition key_of (h : ip) : option key :=
  match ip_src h, ip_dst h with Addr s, Addr d => Some (Key (ip_id h) s d (ip_p h)) | _, _ => None end.

(** The header of the datagram: that of its first fragment, with the addresses back in place. *)
Definition a_header (k : key) (next : Z) (f : frag) : ip :=
  set_dst (Addr (k_dst k)) (set_src (Addr (k_src k)) (set_iplen (s16 next) (f_hd f))).

(** What goes to a protocol: header and data, and whether the header is not where the data begin. *)
Record dgram := Dgram { d_hd : ip; d_data : list Z; d_cut : bool }.

(** The datagram that the fragments [l] make, or the fragments still. *)
Definition a_done (k : key) (l : list frag) : option dgram * option (list frag) :=
  match a_whole l, l with
  | Some next, f :: _ => (Some (Dgram (a_header k next f) (mjoin (f_bytes <$> l)) (f_cut f)), None)
  | _, _ => (None, Some l)
  end.

(** [x] comes to the fragments [l]: the datagram that this completes, the queue that is left. *)
Definition a_reass (k : key) (x : frag) (l : list frag) : option dgram * option (list frag) :=
  match a_insert x l with None => (None, Some l) | Some l => a_done k l end.

(** The queue with the key [k], and those before and after it. *)
Fixpoint a_find (k : key) (A : list aqueue) : option (list aqueue * aqueue * list aqueue) :=
  match A with
  | [] => None
  | a :: A => if decide (a_key a = k) then Some ([], a, A)
              else match a_find k A with Some (A1, b, A2) => Some (a :: A1, b, A2) | None => None end
  end.

Definition is_frag (h : ip) : bool := ztrue (Z.land (ip_off h) (Z.lnot IP_DF)).

(** A packet for this host with the header [h], of [hlen] bytes, and the bytes [data] comes: what
    is delivered, and the queues. *)
Definition a_ours (h : ip) (hlen : Z) (data : list Z) (A : list aqueue) : option dgram * list aqueue :=
  if is_frag h then
    let h' := frag_fields hlen h in
    match key_of h with
    | None => (None, A)
    | Some k =>
        let more := ztrue (ip_tos h') || ztrue (ip_off h') in
        let x := Frag (clear h') false data in
        match a_find k A with
        | Some (A1, a, A2) =>
            if more then
              match a_reass k x (a_frags a) with
              | (out, Some l) => (out, A1 ++ AQueue (a_key a) (a_ttl a) l :: A2)
              | (out, None) => (out, A1 ++ A2)
              end
            else (Some (Dgram h' data false), A1 ++ A2)
        | None =>
            if more then
              match a_reass k x [] with
              | (out, Some l) => (out, AQueue k IPFRAGTTL l :: A)
              | (out, None) => (out, A)
              end
            else (Some (Dgram h' data false), A)
        end
    end
  else (Some (Dgram (set_iplen (s16 (ip_len h - hlen)) h) data false), A).

(** A timeout. *)
Definition a_tick (a : aqueue) : option aqueue :=
  let t := u8 (a_ttl a - 1) in if t =? 0 then None else Some (AQueue (a_key a) t (a_frags a)).
Definition a_slowtimo (A : list aqueue) : list aqueue := omap a_tick A.

(** ** The order of a list of fragments *)

(** In order and apart, from [lo] on. *)
Fixpoint apart (lo : Z) (l : list frag) : Prop :=
  match l with [] => True | f :: r => lo <= f_off f /\ 0 <= f_len f /\ apart (f_end f) r end.
Definition top (lo : Z) (l : list frag) : Z := match last l with Some f => f_end f | None => lo end.

Lemma top_cons lo f l : top lo (f :: l) = top (f_end f) l.
Proof. unfold top. rewrite last_cons. by destruct (last l). Qed.
Lemma apart_join lo a b : apart lo (a ++ b) <-> apart lo a /\ apart (top lo a) b.
Proof. revert lo. induction a as [|f a IH]; intros lo; cbn [app apart]; [tauto|]. rewrite IH, top_cons. tauto. Qed.
Lemma apart_low lo lo' l : lo' <= lo -> apart lo l -> apart lo' l.
Proof. destruct l; simpl; [done|]. intros H (? & ? & ?). split_and!; [lia|done|done]. Qed.
Lemma apart_top lo l : apart lo l -> lo <= top lo l.
Proof. revert lo. induction l as [|f l IH]; intros lo; [done|]. rewrite top_cons. intros (? & ? & H%IH). unfold f_end in *. lia. Qed.
Lemma apart_ends lo l f : apart lo l -> f ∈ l -> lo <= f_off f /\ f_end f <= top lo l.
Proof.
  revert lo. induction l as [|g l IH]; intros lo Ha Hf; [by apply elem_of_nil in Hf|]. destruct Ha as (H1 & H2 & H3). rewrite top_cons.
  apply elem_of_cons in Hf as [->|Hf]; [split; [done|by apply apart_top]|]. destruct (IH _ H3 Hf). unfold f_end in *. lia.
Qed.

(** The byte [i] has arrived. *)
Definition has (l : list frag) (i : Z) : Prop := exists f, f ∈ l /\ f_off f <= i < f_end f.

Lemma has_nil i : ~ has [] i.
Proof. intros (f & Hf & _). by apply elem_of_nil in Hf. Qed.
Lemma has_cons f l i : has (f :: l) i <-> f_off f <= i < f_end f \/ has l i.
Proof. unfold has. split; [intros (g & [->|?]%elem_of_cons & ?); eauto|]. intros [?|(g & ? & ?)]; eexists; (split; [|done]); by constructor. Qed.
Lemma has_app a b i : has (a ++ b) i <-> has a i \/ has b i.
Proof. induction a as [|f a IH]; simpl; [|rewrite !has_cons, IH]; pose proof (has_nil i); tauto. Qed.

Lemma a_after_app off l a b : a_after off l = (a, b) -> l = a ++ b.
Proof.
  revert a b. induction l as [|q l IH]; intros a b; simpl; [by intros [= <- <-]|].
  case_match; [by intros [= <- <-]|]. destruct (a_after off l) as [a' b']. intros [= <- <-]. simpl. by rewrite (IH a' b').
Qed.
Lemma a_after_split off l lo a b : apart lo l -> a_after off l = (a, b) ->
  Forall (fun f => f_off f <= off) a /\ Forall (fun f => off < f_off f) b.
Proof.
  revert lo a b. induction l as [|q l IH]; intros lo a b; simpl; [by intros _ [= <- <-]|]. intros (H1 & H2 & H3).
  destruct (Z.ltb_spec off (f_off q)).
  - intros [= <- <-]. split; [done|]. constructor; [done|]. apply Forall_forall. intros f Hf.
    destruct (apart_ends _ _ _ H3 Hf). unfold f_end in *. lia.
  - destruct (a_after off l) as [a' b'] eqn:E. intros [= <- <-]. destruct (IH _ _ _ H3 eq_refl). split; [by constructor|done].
Qed.

(** ** The fragments of a datagram *)

Lemma s16_id x : is_s16 x -> s16 x = x.
Proof. intros H. mlia. Qed.

Section Datagram.
Context (D : list Z) (Hpos : 0 < zlen D) (Hlen : zlen D < 32768).

(** The part of the datagram from [off] to [off + n]. *)
Definition part (off n : Z) : list Z := take (Z.to_nat n) (drop (Z.to_nat off) D).

(** A fragment of [D]: the last one, and no other, says that no more fragments follow. *)
Record piece (f : frag) : Prop := {
  pc_off : 0 <= f_off f;
  pc_len : 0 <= f_len f;
  pc_end : f_end f <= zlen D;
  pc_bytes : f_bytes f = part (f_off f) (f_len f);
  pc_more : f_more f = 0 <-> f_end f = zlen D;
  pc_cut : f_cut f = true -> 0 < f_off f }.

Lemma part_drop off n i : 0 <= off -> 0 <= i <= n -> drop (Z.to_nat i) (part off n) = part (off + i) (n - i).
Proof.
  intros Ho Hi. unfold part. rewrite skipn_firstn_comm, drop_drop. f_equal; [lia|]. f_equal. lia.
Qed.
Lemma part_app off n m : 0 <= off -> 0 <= n -> 0 <= m -> part off (n + m) = part off n ++ part (off + n) m.
Proof.
  intros Ho Hn Hm. unfold part. replace (Z.to_nat (n + m)) with (Z.to_nat n + Z.to_nat m)%nat by lia.
  rewrite <- take_take_drop. f_equal. rewrite drop_drop. do 2 f_equal. lia.
Qed.

Lemma trim_piece f i : piece f -> 0 < i <= f_len f ->
  piece (f_trim i f) /\ f_off (f_trim i f) = f_off f + i /\ f_end (f_trim i f) = f_end f.
Proof.
  intros [H1 H2 H3 H4 H5 H6] Hi. unfold f_end in *.
  assert (Ho : f_off (f_trim i f) = f_off f + i) by (unfold f_off in *; simpl; apply s16_id; unfold is_s16; lia).
  assert (Hl : f_len (f_trim i f) = f_len f - i) by (unfold f_len, f_off in *; simpl; apply s16_id; unfold is_s16; lia).
  assert (Hm : f_more (f_trim i f) = f_more f) by done. split_and!; [|done|rewrite Ho, Hl; lia].
  split; unfold f_end; rewrite ?Ho, ?Hl, ?Hm; [lia|lia|lia| |rewrite H5; lia|lia].
  simpl. rewrite H4. apply part_drop; lia.
Qed.

Lemma front_ok lo a x : apart lo a -> Forall piece a -> Forall (fun f => f_off f <= f_off x) a -> piece x ->
  match a_front a x with
  | Some x' => piece x' /\ f_off x' = Z.max (f_off x) (top 0 a) /\ f_end x' = f_end x /\
      forall i, f_off x <= i < f_off x' -> has a i
  | None => forall i, f_off x <= i < f_end x -> has a i
  end.
Proof.
  intros Ha Hp Hle Hx. unfold a_front, top. pose proof (pc_off _ Hx).
  destruct (last a) as [p|] eqn:E; [|split_and!; [done|lia|done|intros; lia]].
  assert (Hin : p ∈ a) by (apply last_Some in E as [a' ->]; set_solver).
  rewrite Forall_forall in Hp, Hle. specialize (Hp p Hin). specialize (Hle p Hin).
  assert (Hhas : forall i, f_off x <= i < f_end p -> has a i) by (intros i Hi; exists p; split; [done|lia]).
  pose proof (pc_len _ Hx). destruct (Z.ltb_spec 0 (f_end p - f_off x)) as [Hi|Hi].
  - destruct (Z.leb_spec (f_len x) (f_end p - f_off x)) as [Hc|Hc].
    + intros i Hi'. apply Hhas. unfold f_end in *. lia.
    + destruct (trim_piece x (f_end p - f_off x) Hx ltac:(lia)) as (T1 & T2 & T3). rewrite T2, T3.
      split_and!; [done|lia|done|]. intros i Hi'. apply Hhas. lia.
  - split_and!; [done|lia|done|]. intros; lia.
Qed.

Lemma back_ok lo x b : apart lo b -> Forall piece b -> Forall (fun q => f_off x <= f_off q) b -> piece x ->
  apart (f_end x) (a_back x b) /\ Forall piece (a_back x b) /\ forall i, has (x :: a_back x b) i <-> has (x :: b) i.
Proof.
  intros Ha Hp Hle Hx. revert lo Ha. induction b as [|q b IH]; intros lo Ha; [done|]. cbn [a_back].
  apply Forall_cons in Hp as [Hq Hp], Hle as [Hlq Hle]. destruct Ha as (A1 & A2 & A3). unfold f_end in *.
  destruct (Z.ltb_spec (f_off q) (f_off x + f_len x)) as [Hov|Hno]; [|by split_and!; [|constructor|]].
  destruct (Z.ltb_spec (f_off x + f_len x - f_off q) (f_len q)) as [Hpart|Hall].
  - destruct (trim_piece q (f_off x + f_len x - f_off q) Hq ltac:(lia)) as (T1 & T2 & T3). unfold f_end in *. split_and!.
    + cbn [apart]. pose proof (pc_len _ T1). unfold f_end. rewrite T3. split_and!; [lia|lia|done].
    + by constructor.
    + intros i. rewrite !has_cons. unfold f_end. rewrite T3, T2. split.
      * intros [?|[?|?]]; [by left|right; left; lia|by right; right].
      * intros [?|[?|?]]; [by left| |by right; right]. destruct (Z.lt_ge_cases i (f_off x + f_len x)); [left|right; left]; lia.
  - destruct (IH Hp Hle _ A3) as (I1 & I2 & I3). split_and!; [done|done|]. intros i. rewrite I3, !has_cons. unfold f_end.
    split; [tauto|]. intros [?|[?|?]]; try tauto. left. lia.
Qed.

(** A fragment adds the bytes it has, and only those. *)
Lemma insert_ok x l : apart 0 l -> Forall piece l -> piece x ->
  match a_insert x l with
  | Some l' => apart 0 l' /\ Forall piece l' /\ l' <> [] /\ forall i, has l' i <-> has (x :: l) i
  | None => forall i, has l i <-> has (x :: l) i
  end.
Proof.
  intros Ha Hp Hx. unfold a_insert. destruct (a_after (f_off x) l) as [a b] eqn:E.
  destruct (a_after_split _ _ _ _ _ Ha E) as [Hla Hlb]. apply a_after_app in E as ->.
  apply apart_join in Ha as [Ha Hb]. apply Forall_app in Hp as [Hpa Hpb]. pose proof (front_ok 0 a x Ha Hpa Hla Hx) as Hfr.
  destruct (a_front a x) as [x'|].
  2:{ intros i. rewrite has_cons, has_app. split; [tauto|]. intros [Hi|?]; [left; by apply Hfr|done]. }
  destruct Hfr as (F1 & F2 & F3 & F4).
  assert (Hlb' : Forall (fun q => f_off x' <= f_off q) b).
  { apply Forall_forall. intros q Hq. rewrite Forall_forall in Hlb. specialize (Hlb q Hq).
    destruct (apart_ends _ _ _ Hb Hq). lia. }
  destruct (back_ok _ x' b Hb Hpb Hlb' F1) as (B1 & B2 & B3). split_and!.
  - apply apart_join. split; [done|]. simpl. split_and!; [lia|apply F1|done].
  - apply Forall_app. by split; [|constructor].
  - by destruct a.
  - intros i. rewrite has_app, B3, !has_cons, has_app, F3. split.
    + intros [?|[?|?]]; try tauto. left. lia.
    + intros [?|[?|?]]; try tauto. destruct (Z.lt_ge_cases i (f_off x')); [left; apply F4; lia|right; left; lia].
Qed.

(** Fragments that have lost nothing from their front are those that came. *)
Lemma back_uncut x b f : f ∈ a_back x b -> f_cut f = false -> f ∈ b.
Proof.
  induction b as [|q b IH]; cbn [a_back]; [done|]. repeat case_match; intros Hf Hc; [|right; by apply IH|done].
  apply elem_of_cons in Hf as [->|?]; [done|by right].
Qed.
Lemma insert_uncut x l l' f : a_insert x l = Some l' -> f ∈ l' -> f_cut f = false -> f ∈ x :: l.
Proof.
  unfold a_insert. destruct (a_after (f_off x) l) as [a b] eqn:E. apply a_after_app in E as ->.
  destruct (a_front a x) as [x'|] eqn:Ex; [|done]. intros [= <-] Hf Hc. rewrite elem_of_cons, elem_of_app.
  apply elem_of_app in Hf as [?|[->|Hf]%elem_of_cons]; [tauto| |right; right; by apply (back_uncut x')].
  left. unfold a_front in Ex. repeat case_match; simplify_eq; done.
Qed.

(** ** The datagram is complete *)

Lemma check_full l n m : apart n l -> Forall piece l -> 0 <= n -> a_check l n = Some m ->
  m = top n l /\ mjoin (f_bytes <$> l) = part n (m - n) /\ forall i, n <= i < m -> has l i.
Proof.
  revert n. induction l as [|f l IH]; intros n Ha Hp Hn Hc; simpl in Hc.
  - injection Hc as <-. split_and!; [done| |intros; lia]. unfold part. by rewrite Z.sub_diag.
  - destruct (Z.eqb_spec (f_off f) n) as [<-|]; [|done]. destruct Ha as (_ & Hl & Ha). apply Forall_cons in Hp as [Hf Hp].
    destruct (IH (f_end f) Ha Hp ltac:(unfold f_end; lia) Hc) as (I1 & I2 & I3). pose proof (apart_top _ _ Ha). rewrite top_cons.
    unfold f_end in *. split_and!; [done| |].
    + change (mjoin (f_bytes <$> f :: l)) with (f_bytes f ++ mjoin (f_bytes <$> l)). rewrite I2, (pc_bytes _ Hf). replace (m - f_off f) with (f_len f + (m - (f_off f + f_len f))) by lia.
      by rewrite part_app by lia.
    + intros i Hi. rewrite has_cons. unfold f_end. destruct (Z.lt_ge_cases i (f_off f + f_len f)); [left; lia|right; apply I3; lia].
Qed.

Lemma full_check l n : apart n l -> (forall i, n <= i < top n l -> has l i) -> a_check l n = Some (top n l).
Proof.
  revert n. induction l as [|f l IH]; intros n Ha Hc; [done|]. cbn [a_check]. rewrite top_cons in *. pose proof Ha as (H1 & H2 & H3).
  pose proof (apart_top _ _ H3) as Ht. unfold f_end in *.
  destruct (Z.eqb_spec (f_off f) n) as [<-|Hne].
  - apply IH; [done|]. intros i Hi. assert (Hi' : has (f :: l) i) by (apply Hc; lia).
    apply has_cons in Hi' as [?|?]; [unfold f_end in *; lia|done].
  - destruct (Hc n ltac:(lia)) as (g & [->|Hg]%elem_of_cons & Hin); [unfold f_end in *; lia|].
    destruct (apart_ends _ _ _ H3 Hg). lia.
Qed.

Definition complete (l : list frag) : Prop := forall i, 0 <= i < zlen D -> has l i.

Lemma whole_complete l next : apart 0 l -> Forall piece l -> a_whole l = Some next ->
  next = zlen D /\ complete l /\ mjoin (f_bytes <$> l) = D.
Proof.
  intros Ha Hp. unfold a_whole. destruct (a_check l 0) as [m|] eqn:Hc; [|done]. destruct (last l) as [z|] eqn:Ez; [|done].
  destruct (ztrue (f_more z)) eqn:Hz; [done|]. intros [= <-].
  destruct (check_full _ _ _ Ha Hp ltac:(lia) Hc) as (Hm & Hb & Hh).
  assert (Hin : z ∈ l) by (apply last_Some in Ez as [? ->]; set_solver). rewrite Forall_forall in Hp. specialize (Hp z Hin).
  assert (Hend : m = zlen D).
  { unfold top in Hm. rewrite Ez in Hm. rewrite Hm. apply (pc_more _ Hp). unfold ztrue in Hz. apply negb_false_iff, Z.eqb_eq in Hz. done. }
  rewrite Hend in *. split_and!; [done|done|]. rewrite Hb. unfold part. simpl. rewrite Z.sub_0_r. apply take_all. lia.
Qed.

Lemma complete_whole l : apart 0 l -> Forall piece l -> complete l -> a_whole l = Some (zlen D).
Proof.
  intros Ha Hp Hc. destruct (Hc (zlen D - 1) ltac:(lia)) as (g & Hg & Hi).
  assert (Htop : top 0 l = zlen D).
  { destruct (apart_ends _ _ _ Ha Hg) as [_ Hle]. unfold top in *. destruct (last l) as [z|] eqn:Ez; [|lia].
    assert (Hz : z ∈ l) by (apply last_Some in Ez as [? ->]; set_solver). rewrite Forall_forall in Hp.
    pose proof (pc_end _ (Hp z Hz)). lia. }
  unfold a_whole. rewrite (full_check l 0 Ha); [|rewrite Htop; exact Hc]. rewrite Htop in *. unfold top in Htop.
  destruct (last l) as [z|] eqn:Ez; [|lia].
  assert (Hz : z ∈ l) by (apply last_Some in Ez as [? ->]; set_solver). rewrite Forall_forall in Hp.
  by rewrite (proj2 (pc_more _ (Hp z Hz)) Htop).
Qed.

(** What is known of a queue of fragments of the datagram. *)
Record waiting (l : list frag) : Prop := { wt_apart : apart 0 l; wt_pieces : Forall piece l; wt_not : ~ complete l }.

Lemma complete_has l l' : (forall i, has l i <-> has l' i) -> complete l <-> complete l'.
Proof. intros H. split; intros Hc i Hi; apply H; auto. Qed.

(** One more fragment: still waiting, with all that has arrived, or the datagram. *)
Lemma reass_step k x l : waiting l -> piece x ->
  (exists l', a_reass k x l = (None, Some l') /\ waiting l' /\ (forall i, has l' i <-> has (x :: l) i) /\
     forall f, f ∈ l' -> f_cut f = false -> f ∈ x :: l) \/
  (exists f, a_reass k x l = (Some (Dgram (a_header k (zlen D) f) D false), None) /\ complete (x :: l) /\ f ∈ x :: l /\ f_off f = 0 /\ f_cut f = false).
Proof.
  intros [Ha Hp Hn] Hx. pose proof (insert_ok x l Ha Hp Hx) as Hi. unfold a_reass, a_done. destruct (a_insert x l) as [l'|] eqn:E.
  2:{ left. exists l. split_and!; [done|done|done|]. intros f Hf _. by right. }
  destruct Hi as (A1 & A2 & A3 & A4). pose proof (fun f => insert_uncut x l l' f E) as Hu.
  destruct (a_whole l') as [next|] eqn:Ew.
  - destruct (whole_complete _ _ A1 A2 Ew) as (-> & W2 & W3). right. destruct l' as [|f l']; [done|]. exists f.
    assert (H0 : f_off f = 0).
    { unfold a_whole in Ew. cbn [a_check] in Ew. destruct (Z.eqb_spec (f_off f) 0); [done|done]. }
    assert (Hc : f_cut f = false).
    { apply Forall_cons in A2 as [Hf _]. pose proof (pc_cut _ Hf). destruct (f_cut f); [lia|done]. }
    split_and!; [by rewrite W3, Hc|by apply (complete_has _ _ A4)|apply Hu; [left|done]|done|done].
  - left. exists l'. split_and!; [done| |done|done]. split; [done|done|]. intros Hc. by rewrite (complete_whole l' A1 A2 Hc) in Ew.
Qed.
End Datagram.
