(* ===== verification/IpView.v ===== *)
(** * Fragments in memory

    What the packets of the queues are as fragments, and what each step of the reassembly does
    to them: a fragment is trimmed, freed, or its mbufs are appended to those of another. *)

From S2P Require Import Prelude Mbuf MbufSpec MbufOps MbufCopy MbufClust Ring IpFrag IpRing IpSpec.
Local Open Scope kern_scope.

(** ** A packet as a fragment *)

Definition hdr_len (h : ip) : Z := Z.shiftl (ip_hl h) 2.

(** The packet [x], its header hidden, is the fragment [f]. *)
Record shows (b : mbst) (x : packet) (f : frag) : Prop := {
  sw_hd : clear (p_ip x) = f_hd f;
  sw_bytes : cbytes b (p_m x) = f_bytes f;
  sw_front : match p_m x with
    | m :: _ => is_ext m = false /\ 0 <= hdr_len (f_hd f) /\ m_start m + hdr_len (f_hd f) <= m_data m /\
        (f_cut f = false -> m_data m = p_at x + hdr_len (f_hd f))
    | [] => False
    end }.

Definition queue_key (q : ipq) : key := Key (ipq_id q) (ipq_src q) (ipq_dst q) (ipq_p q).

(** What MALLOC may answer. *)
Class Answers := answers : list (option mbuf).

Section Memory.
Context {mem : Answers}.

(** The packets [F] are fragments, the queues [Q] have keys and times to live, and the mbufs in
    use are those of the packets and queues, and [L]. *)
Record view (s : ipst) (F : gmap loc frag) (Q : gmap loc (key * Z)) (L : list mbuf) : Prop := {
  vw_frag : forall l f, F !! l = Some f -> exists x, pkts s !! l = Some x /\ shows (ip_mb s) x f;
  vw_queue : forall g k, Q !! g = Some k -> exists q, queues s !! g = Some q /\ queue_key q = k.1 /\ ipq_ttl q = k.2;
  vw_pool : pool (ip_mb s) (ip_held s ++ L);
  vw_few : few (ip_held s ++ L);
  vw_proto : small (max_protohdr (ip_mb s));
  vw_ans : forall a, a ∈ malloc_ans (ip_mb s) -> a ∈ answers }.

Lemma shows_core b b' x x' f : pcore x' = pcore x -> cbytes b' (p_m x) = cbytes b (p_m x) -> shows b x f -> shows b' x' f.
Proof.
  intros Hc Hb [H1 H2 H3]. destruct x as [h at0 m], x' as [h' at' m']. injection Hc as E1 E2 E3 E4 E5 E6 E7 E8 E9 E10. simpl in *. subst.
  split; simpl; [|by rewrite Hb|done]. rewrite <- H1. unfold clear, set_src, set_dst. simpl. congruence.
Qed.

Lemma pkts_held s l x : pkts s !! l = Some x -> p_m x ⊆ ip_held s.
Proof. intros H. unfold ip_held. intros m Hm. rewrite (owned_at _ _ l x H). rewrite !elem_of_app. by left; left. Qed.

Lemma core_at s s' l x : pcore <$> pkts s' !! l = pcore <$> pkts s !! l -> pkts s !! l = Some x ->
  exists x', pkts s' !! l = Some x' /\ pcore x' = pcore x.
Proof. intros H Hx. rewrite Hx in H. apply fmap_Some in H as (x' & ? & ?). eauto. Qed.

Lemma qcore_at s s' g q : qcore <$> queues s' !! g = qcore <$> queues s !! g -> queues s !! g = Some q ->
  exists q', queues s' !! g = Some q' /\ queue_key q' = queue_key q /\ ipq_ttl q' = ipq_ttl q.
Proof.
  intros H Hq. rewrite Hq in H. apply fmap_Some in H as (q' & ? & Hc). exists q'. split; [done|].
  destruct q, q'. injection Hc. unfold queue_key. simpl. intros. subst. done.
Qed.

(** The same packets, but for what [s'] has dropped. *)
Lemma view_sub s s' F F' Q Q' L L' :
  (forall l f, F' !! l = Some f -> F !! l = Some f /\ pcore <$> pkts s' !! l = pcore <$> pkts s !! l) ->
  (forall g k, Q' !! g = Some k -> Q !! g = Some k /\ qcore <$> queues s' !! g = qcore <$> queues s !! g) ->
  keeps (ip_held s') (ip_mb s) (ip_mb s') -> pool (ip_mb s') (ip_held s' ++ L') -> few (ip_held s' ++ L') ->
  view s F Q L -> view s' F' Q' L'.
Proof.
  intros HF HQ Hk Hp Hf [H1 H2 _ _ H5 H6]. split; [| |done|done|by rewrite (kp_proto _ _ _ Hk)|intros a Ha; by apply H6, (kp_ans _ _ _ Hk)].
  - intros l f Hl. destruct (HF l f Hl) as [Hl0 Hc]. destruct (H1 l f Hl0) as (x & Hx & Hs).
    destruct (core_at _ _ _ _ Hc Hx) as (x' & Hx' & Hpc). exists x'. split; [done|]. apply (shows_core (ip_mb s) _ x); [done| |done].
    apply (keeps_cbytes _ _ _ _ Hk). intros m Hm. apply (pkts_held s' l x'); [done|].
    destruct x, x'. injection Hpc. simpl in *. congruence.
  - intros g k Hg. destruct (HQ g k Hg) as [Hg0 Hc]. destruct (H2 g k Hg0) as (q & Hq & Hkey & Ht).
    destruct (qcore_at _ _ _ _ Hc Hq) as (q' & ? & ? & ?). exists q'. split_and!; congruence.
Qed.

Lemma view_links s s' F Q L : links_only s s' -> view s F Q L -> view s' F Q L.
Proof.
  intros Hl Hv. pose proof (held_links _ _ Hl) as Hh. pose proof Hl as [E1 E2 E3 _]. apply (view_sub s s' F F Q Q L); [| | | | |done].
  - intros l f Hf. split; [done|]. by rewrite <- !lookup_fmap, E1.
  - intros g k Hg. split; [done|]. by rewrite <- !lookup_fmap, E2.
  - rewrite E3. apply keeps_refl.
  - rewrite E3, Hh. apply Hv.
  - rewrite Hh. apply Hv.
Qed.

Lemma nrefs_left c l1 l2 : nrefs c l2 <= nrefs c (l1 ++ l2).
Proof. rewrite nrefs_app. pose proof (nrefs_nonneg c l1). lia. Qed.
Lemma nrefs_right c l1 l2 : nrefs c l1 <= nrefs c (l1 ++ l2).
Proof. rewrite nrefs_app. pose proof (nrefs_nonneg c l2). lia. Qed.
Lemma few_right l1 l2 : few (l1 ++ l2) -> few l2.
Proof. intros H c. specialize (H c). pose proof (nrefs_left c l1 l2). lia. Qed.

(** Packets and queues are freed. *)
Lemma view_freeing fs ls cs s s1 F F' Q Q' L : view s F Q L -> emptied fs ls cs s s1 ->
  F' ⊆ F -> Q' ⊆ Q -> (forall l, l ∈ ls -> F' !! l = None) -> (forall g, g ∈ fs -> Q' !! g = None) ->
  exists b, freeing cs s1 s = Some (tt, with_mb b s1) /\ view (with_mb b s1) F' Q' L /\ keeps (ip_held s1 ++ L) (ip_mb s) b.
Proof.
  intros Hv He HF HQ Hls Hfs. pose proof (em_held _ _ _ _ _ He) as Hh.
  assert (Hp : pool (ip_mb s) (cs ++ ip_held s1 ++ L)) by (rewrite app_assoc, <- Hh; apply Hv).
  assert (Hf : few (cs ++ ip_held s1 ++ L)) by (rewrite app_assoc, <- Hh; apply Hv).
  destruct (m_freem_ok _ _ _ Hp Hf) as (b & Hr & Hp1 & Hk). exists b. split; [unfold freeing; by rewrite Hr|]. split; [|done].
  apply (view_sub s _ F F' Q Q' L); try done.
  - intros l f Hl. split; [by eapply lookup_weaken|]. simpl. rewrite (em_pkts _ _ _ _ _ He); [done|]. intros Hin. apply Hls in Hin. congruence.
  - intros g k Hg. split; [by eapply lookup_weaken|]. simpl. apply He. intros Hin. apply Hfs in Hin. congruence.
  - apply (keeps_sub (ip_held s1 ++ L)); [|done]. intros c. apply nrefs_right.
  - by apply few_right in Hf.
Qed.

(** The other chains in use beside that of a packet. *)
Definition beside (s : ipst) (l : loc) : list mbuf := owned p_m (delete l (pkts s)) ++ owned ipq_m (queues s).

Lemma held_at s l x : pkts s !! l = Some x -> ip_held s ≡ₚ p_m x ++ beside s l.
Proof. intros H. unfold ip_held, beside. by rewrite (owned_at _ _ l x H), app_assoc. Qed.
Lemma held_put_pkt s l y : ip_held (put_pkt l y s) ≡ₚ p_m y ++ beside s l.
Proof.
  unfold ip_held, beside. simpl. rewrite (owned_at _ (<[l := y]> (pkts s)) l y) by apply lookup_insert_eq.
  by rewrite delete_insert_eq, app_assoc.
Qed.
Lemma beside_in s l k x : pkts s !! k = Some x -> k <> l -> p_m x ⊆ beside s l.
Proof.
  intros H Hne m Hm. unfold beside. rewrite (owned_at p_m (delete l (pkts s)) k x) by (by rewrite lookup_delete_ne).
  rewrite !elem_of_app. by left; left.
Qed.

(** A packet gets other mbufs, and may become a fragment, or another. *)
Lemma view_put s F F' Q L L' l y b : view s F Q L ->
  (forall k f, k <> l -> F' !! k = Some f -> F !! k = Some f) -> (forall f, F' !! l = Some f -> shows b y f) ->
  pool b (p_m y ++ beside s l ++ L') -> few (p_m y ++ beside s l ++ L') -> keeps (beside s l) (ip_mb s) b ->
  view (with_mb b (put_pkt l y s)) F' Q L'.
Proof.
  intros [H1 H2 _ _ H5 H6] Ho Hy Hp Hf Hk. split; [| | | |by simpl; rewrite (kp_proto _ _ _ Hk)|intros a Ha; by apply H6, (kp_ans _ _ _ Hk)].
  - intros k f Hkf. destruct (decide (k = l)) as [->|Hne].
    + exists y. split; [by apply lookup_insert_eq|]. by apply Hy.
    + destruct (H1 k f (Ho k f Hne Hkf)) as (x & Hx & Hs). exists x. split; [simpl; by rewrite lookup_insert_ne|].
      apply (shows_core (ip_mb s) _ x); [done| |done]. apply (keeps_cbytes _ _ _ _ Hk). by apply (beside_in s l k x).
  - done.
  - simpl. assert (Hh := held_put_pkt s l y). change (ip_held (with_mb b (put_pkt l y s))) with (ip_held (put_pkt l y s)).
    by rewrite Hh, <- app_assoc.
  - assert (Hh := held_put_pkt s l y). change (ip_held (with_mb b (put_pkt l y s))) with (ip_held (put_pkt l y s)).
    by rewrite Hh, <- app_assoc.
Qed.

(** ** One step *)

Section Steps.
Context (s : ipst) (F : gmap loc frag) (Q : gmap loc (key * Z)) (L : list mbuf).

Lemma view_chain l x : view s F Q L -> pkts s !! l = Some x ->
  Forall (sound (ip_mb s)) (p_m x) /\ pool (ip_mb s) (p_m x ++ beside s l ++ L) /\ few (p_m x ++ beside s l ++ L).
Proof.
  intros [_ _ Hp Hf _ _] Hx. pose proof (held_at s l x Hx) as Hh. rewrite Hh, <- app_assoc in Hp, Hf. split_and!; [|done|done].
  apply (pool_sounds _ _ _ Hp). set_solver.
Qed.

(** The mbufs of a packet are taken from it. *)
Lemma view_take l x : view s F Q L -> pkts s !! l = Some x -> view (put_pkt l (set_m [] x) s) (delete l F) Q (p_m x ++ L).
Proof.
  intros Hv Hx. destruct (view_chain l x Hv Hx) as (_ & Hp & Hf). rewrite <- (with_own_mb (put_pkt _ _ _)).
  apply (view_put s F _ Q L); [done| | | | |apply keeps_refl].
  - intros k f Hk Hkf. by rewrite lookup_delete_ne in Hkf.
  - intros f Hl. by rewrite lookup_delete_eq in Hl.
  - by rewrite Permutation_app_swap_app in Hp.
  - by rewrite Permutation_app_swap_app in Hf.
Qed.

Lemma free_pkt_ok l x : view s F Q L -> pkts s !! l = Some x ->
  exists b, free_pkt l s = Some (tt, with_mb b (put_pkt l (set_m [] x) s)) /\ view (with_mb b (put_pkt l (set_m [] x) s)) (delete l F) Q L.
Proof.
  intros Hv Hx. destruct (view_freeing [] [l] (p_m x) s (put_pkt l (set_m [] x) s) F (delete l F) Q Q L) as (b & Hr & Hv' & _); try done.
  - by apply put_pkt_emptied.
  - apply delete_subseteq.
  - intros k ->%list_elem_of_singleton. apply lookup_delete_eq.
  - intros g Hg. by apply elem_of_nil in Hg.
  - exists b. split; [|done]. by rewrite (free_pkt_run s l x Hx).
Qed.

Lemma free_queue_ok f q : view s F Q L -> queues s !! f = Some q ->
  exists b, free_queue f s = Some (tt, with_mb b (put_queue f (set_qm [] q) s)) /\
    view (with_mb b (put_queue f (set_qm [] q) s)) F (delete f Q) L.
Proof.
  intros Hv Hq. destruct (view_freeing [f] [] (ipq_m q) s (put_queue f (set_qm [] q) s) F F Q (delete f Q) L) as (b & Hr & Hv' & _); try done.
  - by apply put_queue_emptied.
  - apply delete_subseteq.
  - intros g Hg. by apply elem_of_nil in Hg.
  - intros k ->%list_elem_of_singleton. apply lookup_delete_eq.
  - exists b. split; [|done]. by rewrite (free_queue_run s f q Hq).
Qed.
End Steps.

(** The first mbuf moves forward only. *)
Lemma adj_forward x r n m : 0 <= n -> 0 <= m_len x -> m_adj (x :: r) n = Some m ->
  exists y q, m = y :: q /\ same1 x y /\ m_data x <= m_data y.
Proof.
  intros Hn Hl. unfold m_adj. destruct (last (x :: r)) as [z|] eqn:E; [|by apply last_None in E].
  destruct (Z.leb_spec 0 n); [|lia]. cbn [adj_head]. intros Hm.
  assert (Hhd : forall m' l', (m', l') = (if 0 <? n then if m_len x <=? n then let '(q, l) := adj_head r (n - m_len x) in (set_len 0 x :: q, l)
     else (set_len (m_len x - n) (set_data (m_data x + n) x) :: r, 0) else (x :: r, n)) ->
     exists y q, m' = y :: q /\ same1 x y /\ m_data x <= m_data y).
  { intros m' l'. destruct (Z.ltb_spec 0 n); [destruct (Z.leb_spec (m_len x) n); [destruct (adj_head r (n - m_len x))|]|]; intros [= -> ->].
    - exists (set_len 0 x), l. split_and!; [done..|simpl; lia].
    - exists (set_len (m_len x - n) (set_data (m_data x + n) x)), r. split_and!; [done..|simpl; lia].
    - exists x, r. split_and!; [done..|lia]. }
  destruct (if 0 <? n then _ else _) as [m' l']. destruct (Hhd m' l' eq_refl) as (y & q & -> & Hs & Hd). injection Hm as <-.
  simpl. eexists _, _. split; [done|]. by destruct (is_hdr y).
Qed.

Lemma pkt_run s l x : pkts s !! l = Some x -> pkt l s = Some (x, s).
Proof. intros Hx. unfold pkt, kderef. by rewrite Hx. Qed.
Lemma upd_pkt_run s l x g : pkts s !! l = Some x -> upd_pkt l g s = Some (tt, put_pkt l (g x) s).
Proof. intros Hx. unfold upd_pkt. by rewrite (bind_run _ _ _ _ _ (pkt_run _ _ _ Hx)). Qed.
Lemma ipq_run s f q : queues s !! f = Some q -> queue f s = Some (q, s).
Proof. intros Hq. unfold queue, kderef. by rewrite Hq. Qed.
Lemma upd_queue_run s f q g : queues s !! f = Some q -> upd_queue f g s = Some (tt, put_queue f (g q) s).
Proof. intros Hq. unfold upd_queue. by rewrite (bind_run _ _ _ _ _ (ipq_run _ _ _ Hq)). Qed.

Definition fit (f : frag) : Prop := f_len f = zlen (f_bytes f) /\ f_len f < 32768.

Lemma trim_fit i f : 0 < i < f_len f -> fit f -> fit (f_trim i f) /\ f_len (f_trim i f) = f_len f - i.
Proof.
  intros Hi [Hf Hl]. assert (Hl' : f_len (f_trim i f) = f_len f - i) by (unfold f_len in *; simpl; apply s16_id; unfold is_s16; lia).
  split; [|done]. split; [|lia]. rewrite Hl'. simpl. rewrite zlen_drop; lia.
Qed.

Lemma trim_ok s F Q L l f i : view s F Q L -> F !! l = Some f -> fit f -> 0 < i < f_len f ->
  exists s', trim l i s = Some (tt, s') /\ edits [] s s' /\ view s' (<[l := f_trim i f]> F) Q L.
Proof.
  intros Hv Hf Hfit Hi. destruct (vw_frag _ _ _ _ Hv l f Hf) as (x & Hx & [S1 S2 S3]).
  destruct (view_chain s F Q L l x Hv Hx) as (Hs & Hp & Hfew).
  destruct (m_adj_ok (ip_mb s) (p_m x) i Hs) as (m & Hm & Hms & Hsc & Hb & Hml & _).
  destruct (Z.leb_spec 0 i) as [_|]; [|lia].
  set (y := Packet (trim_hd i (p_ip x)) (p_at x) m). exists (put_pkt l y s). split_and!.
  - unfold trim. rewrite (bind_run _ _ _ _ _ (pkt_run _ _ _ Hx)), (bind_nonnull _ _ _ m Hm). by rewrite (upd_pkt_run _ _ x).
  - by eapply put_pkt_edits.
  - rewrite <- (with_own_mb (put_pkt _ _ _)). apply (view_put s F _ Q L); [done| | | | |apply keeps_refl].
    + intros k g Hk. by rewrite lookup_insert_ne.
    + intros g. rewrite lookup_insert_eq. intros [= <-]. split.
      * simpl. rewrite <- S1. done.
      * simpl. by rewrite Hb, S2.
      * simpl. destruct (p_m x) as [|m0 r]; [done|]. destruct S3 as (E1 & E2 & E3 & _). apply Forall_cons in Hs as [Hm0 _].
        destruct (adj_forward m0 r i m ltac:(lia) (mo_len _ (sd_ok _ _ Hm0)) Hm) as (y0 & q & -> & Hsame & Hd).
        unfold m_start, is_hdr. rewrite (same1_ext _ _ Hsame). destruct Hsame as (_ & -> & _). unfold m_start, is_hdr in E3.
        split_and!; [done|done|unfold hdr_len in *; simpl in *; lia|done].
    + apply (pool_same _ (p_m x)); [done|done|]. apply (Forall_impl _ _ _ Hms). by intros ? [].
    + intros c. specialize (Hfew c). rewrite !nrefs_app in *. by rewrite (same_refs c (p_m x)).
Qed.
End Memory.
