(* ===== verification/IpHistory.v ===== *)
(** * The queues over time

    What happens to the queues, as events: packets for this host come, and timeouts pass.  What
    the events have made of the queue of one datagram: it has the fragments that have come, none
    is lost before the sixtieth timeout; and no queue outlives sixty timeouts. *)

From S2P Require Import Prelude Mbuf Ring IpFrag IpSpec IpView.
Local Open Scope kern_scope.

(** ** Events *)

Inductive event : Type :=
| Came (h : ip) (data : list Z)
| Tick.

Definition a_event (e : event) (A : list aqueue) : list aqueue :=
  match e with Came h data => (a_ours h (hdr_len h) data A).2 | Tick => a_slowtimo A end.
Definition a_run (es : list event) (A : list aqueue) : list aqueue := foldl (fun A e => a_event e A) A es.

Fixpoint ticks (es : list event) : Z := match es with [] => 0 | Tick :: es => ticks es + 1 | Came _ _ :: es => ticks es end.

(** What comes as a fragment. *)
Definition piece_of (h : ip) (data : list Z) : frag := Frag (clear (frag_fields (hdr_len h) h)) false data.
Definition really_frag (h : ip) : bool := ztrue (ip_tos (frag_fields (hdr_len h) h)) || ztrue (ip_off (frag_fields (hdr_len h) h)).

(** The fragments of the datagram with the key [k], as they came. *)
Definition pieces (k : key) : list event -> list frag :=
  omap (fun e => match e with Came h data => if decide (key_of h = Some k) then Some (piece_of h data) else None | Tick => None end).

Lemma a_run_snoc es e A : a_run (es ++ [e]) A = a_event e (a_run es A).
Proof. unfold a_run. by rewrite foldl_app. Qed.
Lemma ticks_app es1 es2 : ticks (es1 ++ es2) = ticks es1 + ticks es2.
Proof. induction es1 as [|[] es1 IH]; simpl; [done|done|lia]. Qed.
Lemma ticks_nonneg es : 0 <= ticks es.
Proof. induction es as [|[] es IH]; simpl; lia. Qed.

(** ** The queues of a datagram *)

Definition of_key (k : key) : list aqueue -> list aqueue := filter (fun a => a_key a = k).

Lemma a_find_of_key k A : match a_find k A with
  | Some (A1, a, A2) => A = A1 ++ a :: A2 /\ a_key a = k /\ of_key k A1 = []
  | None => of_key k A = [] end.
Proof.
  unfold of_key. induction A as [|a A IH]; [done|]. simpl. case_decide as E; [done|]. destruct (a_find k A) as [[[A1 b] A2]|]; [|by rewrite filter_cons_False].
  destruct IH as (-> & H1 & H2). by rewrite filter_cons_False.
Qed.

Lemma really_is_frag h : really_frag h = true -> is_frag h = true.
Proof.
  unfold really_frag, is_frag. simpl. intros H. destruct (ztrue (Z.land (ip_off h) (Z.lnot IP_DF))) eqn:E; [done|exfalso].
  unfold ztrue in E. apply negb_false_iff, Z.eqb_eq in E.
  assert (Hoff : ip_off h = Z.land (ip_off h) IP_DF) by (rewrite <- (Z.lor_ldiff_and (ip_off h) IP_DF) at 1; by rewrite Z.ldiff_land, E).
  assert (Hlow : ip_off h mod 16384 = 0) by (change 16384 with (2 ^ 14); rewrite <- Z.land_ones by lia; by rewrite Hoff, <- Z.land_assoc, Z.land_0_r).
  assert (Hhigh : ip_off h = ip_off h mod 32768) by (change 32768 with (2 ^ 15); rewrite <- Z.land_ones by lia; by rewrite Hoff, <- Z.land_assoc).
  assert (Hcase : ip_off h = 0 \/ ip_off h = 16384) by (Z.div_mod_to_equations; lia). by destruct Hcase as [Ho|Ho]; rewrite Ho in H.
Qed.

(** Packets of other datagrams do not touch the queue. *)
Lemma ours_other h data k k' A : key_of h = Some k' -> k' <> k -> of_key k (a_ours h (hdr_len h) data A).2 = of_key k A.
Proof.
  intros Hk Hne. unfold a_ours. rewrite Hk. destruct (is_frag h); [|done]. pose proof (a_find_of_key k' A) as Hf. unfold of_key in *.
  destruct (a_find k' A) as [[[A1 a] A2]|].
  - destruct Hf as (-> & Ha & _). assert (Hna : a_key a <> k) by congruence.
    destruct (_ || _); [destruct (a_reass _ _ _) as [out [l|]]|]; simpl; rewrite !filter_app, ?filter_cons_False by done; done.
  - destruct (_ || _); [destruct (a_reass _ _ _) as [out [l|]]|]; simpl; rewrite ?filter_cons_False by done; done.
Qed.

(** A fragment of this one is added to its queue, or to a new one. *)
Lemma ours_piece h data k A t l : key_of h = Some k -> really_frag h = true ->
  of_key k A = [AQueue k t l] \/ of_key k A = [] /\ t = IPFRAGTTL /\ l = [] ->
  let r := a_reass k (piece_of h data) l in
  (a_ours h (hdr_len h) data A).1 = r.1 /\
  of_key k (a_ours h (hdr_len h) data A).2 = match r.2 with Some l => [AQueue k t l] | None => [] end.
Proof.
  intros Hk Hr Hq r. unfold a_ours. rewrite Hk, (really_is_frag h Hr). unfold really_frag in Hr. rewrite Hr. subst r. unfold piece_of.
  pose proof (a_find_of_key k A) as Hf. unfold of_key in *. destruct (a_find k A) as [[[A1 a] A2]|].
  - destruct Hf as (-> & Ha & H1). rewrite filter_app, H1, filter_cons_True in Hq by done. destruct Hq as [[= -> Hq]|[? _]]; [|done]. simpl.
    destruct (a_reass _ _ _) as [out [l'|]]; simpl; (split; [done|]); rewrite filter_app, H1, ?filter_cons_True by done; by rewrite Hq.
  - rewrite Hf in Hq. destruct Hq as [|(_ & -> & ->)]; [done|]. destruct (a_reass _ _ _) as [out [l'|]]; simpl; (split; [done|]); [|done].
    by rewrite filter_cons_True, Hf.
Qed.

Lemma slowtimo_of_key k A : of_key k (a_slowtimo A) = a_slowtimo (of_key k A).
Proof.
  unfold of_key, a_slowtimo. induction A as [|a A IH]; [done|].
  assert (Ht : forall b, a_tick a = Some b -> a_key b = a_key a) by (unfold a_tick; intros b; case_match; [done|by intros [= <-]]).
  destruct (decide (a_key a = k)) as [E|E].
  - rewrite filter_cons_True by done. cbn [omap list_omap]. destruct (a_tick a) as [b|] eqn:Eb; [|done].
    rewrite filter_cons_True; [by rewrite IH|]. rewrite <- E. by apply Ht.
  - rewrite (filter_cons_False _ a A) by done. cbn [omap list_omap]. destruct (a_tick a) as [b|] eqn:Eb; [|done].
    rewrite filter_cons_False; [done|]. rewrite (Ht b eq_refl). done.
Qed.

Lemma tick_queue k t l : 1 < t <= IPFRAGTTL -> a_slowtimo [AQueue k t l] = [AQueue k (t - 1) l].
Proof.
  intros [H1 H2]. unfold IPFRAGTTL in H2. unfold a_slowtimo, a_tick. simpl. replace (u8 (t - 1)) with (t - 1) by mlia.
  destruct (Z.eqb_spec (t - 1) 0); [lia|done].
Qed.

(** ** The queue of a datagram over time *)

Section Run.
Context (k : key) (ok : frag -> Prop) (P : list frag -> list frag -> Prop).
Context (Hnil : P [] []) (Hstep : forall fs l x, P fs l -> ok x -> P (fs ++ [x]) (default [] (a_reass k x l).2)).

(** What comes for the datagram are fragments of it. *)
Definition of_datagram (e : event) : Prop :=
  match e with Came h data => key_of h = Some k -> really_frag h = true /\ ok (piece_of h data) | Tick => True end.

(** The one queue of the datagram after the events [es]. *)
Definition one_queue (es : list event) (Q : list aqueue) (t : Z) (l : list frag) : Prop :=
  (Q = [AQueue k t l] \/ Q = [] /\ t = IPFRAGTTL /\ l = []) /\ IPFRAGTTL - ticks es <= t <= IPFRAGTTL /\ P (pieces k es) l.

Lemma run_queue es A : of_key k A = [] -> Forall of_datagram es -> ticks es < IPFRAGTTL ->
  exists t l, one_queue es (of_key k (a_run es A)) t l.
Proof.
  intros HA. induction es as [|e es IH] using rev_ind; intros Hes Ht.
  - exists IPFRAGTTL, []. split; [right; done|]. split; [unfold IPFRAGTTL; simpl; lia|done].
  - apply Forall_app in Hes as [Hes [He _]%Forall_cons]. rewrite ticks_app in Ht. pose proof (ticks_nonneg [e]).
    destruct (IH Hes ltac:(lia)) as (t & l & HQ & Hl & HP). rewrite a_run_snoc. unfold one_queue, pieces in *. rewrite ticks_app, omap_app.
    destruct e as [h data|]; cbn [a_event ticks omap list_omap] in *.
    + destruct (decide (key_of h = Some k)) as [Hk|Hk].
      * destruct (He Hk) as [Hr Hok]. destruct (ours_piece h data k _ t l Hk Hr HQ) as [_ ->]. specialize (Hstep _ l _ HP Hok).
        destruct (a_reass k (piece_of h data) l).2 as [l'|]; simpl in Hstep; [exists t, l'|exists IPFRAGTTL, []]; split_and!; try done; try lia; tauto.
      * rewrite app_nil_r. exists t, l. destruct (key_of h) as [k'|] eqn:Ek.
        -- rewrite (ours_other _ _ _ _ _ Ek) by congruence. split_and!; [done|lia|lia|done].
        -- unfold a_ours. rewrite Ek. destruct (is_frag h); split_and!; (done || lia).
    + rewrite slowtimo_of_key, app_nil_r. destruct HQ as [->|(-> & -> & ->)]; [|exists IPFRAGTTL, []; split_and!; (tauto || lia || done)].
      exists (t - 1), l. rewrite tick_queue by lia. split_and!; [by left|lia|lia|done].
Qed.
End Run.

(** The fragments of a datagram that is not complete: they wait. *)
Lemma history D k es A : 0 < zlen D -> zlen D < 32768 -> of_key k A = [] -> Forall (of_datagram k (piece D)) es -> ticks es < IPFRAGTTL ->
  ~ complete D (pieces k es) ->
  exists t l, (of_key k (a_run es A) = [AQueue k t l] \/ of_key k (a_run es A) = [] /\ t = IPFRAGTTL /\ l = []) /\
    waiting D l /\ (forall i, has l i <-> has (pieces k es) i) /\ forall f, f ∈ l -> f_cut f = false -> f ∈ pieces k es.
Proof.
  intros Hpos Hlen HA Hes Ht Hn.
  set (P := fun fs l => ~ complete D fs -> waiting D l /\ (forall i, has l i <-> has fs i) /\ forall f, f ∈ l -> f_cut f = false -> f ∈ fs).
  destruct (run_queue k (piece D) P) with (es := es) (A := A) as (t & l & HQ & _ & HP); try done.
  - intros fs l x HP Hx Hc.
    assert (Hc' : ~ complete D fs) by (intros Hc'; apply Hc; intros i Hi; apply has_app; left; by apply Hc').
    destruct (HP Hc') as (Hw & Hh & Hu).
    assert (Hadd : forall i, has (x :: l) i <-> has (fs ++ [x]) i) by (intros i; rewrite has_cons, has_app, has_cons, Hh; pose proof (has_nil i); tauto).
    destruct (reass_step D Hpos Hlen k x l Hw Hx) as [(l' & -> & W1 & W2 & W3)|(f & -> & C1 & _)]; simpl.
    + split_and!; [done|intros i; by rewrite W2|]. intros f Hf Hcut. apply elem_of_app.
      destruct (proj1 (elem_of_cons _ _ _) (W3 f Hf Hcut)) as [->|Hl]; [right; by left|left; by apply Hu].
    + destruct Hc. by apply (complete_has D _ _ Hadd).
  - exists t, l. split; [done|]. by apply HP.
Qed.

(** ** Fragments far from the start *)

(** A fragment that begins at 32768 or later gets a negative offset, and is before all others. *)
Definition far (f : frag) : Prop := f_off f < 0.
Definition behind (l : list frag) : Prop := match l with f :: _ => far f | [] => False end.

Lemma far_off h data : 4096 <= ip_off h mod 8192 -> far (piece_of h data).
Proof.
  intros H. unfold far, piece_of, f_off. simpl. rewrite Z.shiftl_mul_pow2 by lia. unfold s16. Z.div_mod_to_equations. lia.
Qed.

Lemma insert_far x l : far x \/ behind l -> behind (default l (a_insert x l)).
Proof.
  unfold a_insert, far. intros Hor. destruct (a_after (f_off x) l) as [a b] eqn:E. pose proof (a_after_app _ _ _ _ E) as ->.
  destruct a as [|p a].
  - simpl. unfold far. destruct Hor as [|Hb]; [done|]. destruct b as [|q b]; [done|]. simpl in *. unfold far in *.
    destruct (Z.ltb_spec (f_off x) (f_off q)); [lia|]. by destruct (a_after (f_off x) b).
  - assert (Hp : f_off p < 0).
    { destruct Hor as [Hx|Hp]; [|exact Hp]. simpl in E. destruct (Z.ltb_spec (f_off x) (f_off p)); [done|lia]. }
    by destruct (a_front (p :: a) x).
Qed.

Lemma behind_not_whole l : behind l -> a_whole l = None.
Proof. destruct l as [|f l]; [done|]. unfold behind, far, a_whole. simpl. intros H. destruct (Z.eqb_spec (f_off f) 0); [lia|done]. Qed.

Lemma reass_far k x l : far x \/ behind l -> exists l', a_reass k x l = (None, Some l') /\ behind l'.
Proof.
  intros H%insert_far. unfold a_reass, a_done. destruct (a_insert x l) as [l'|]; simpl in H; [|by exists l].
  rewrite (behind_not_whole l' H). by exists l'.
Qed.

(** After such a fragment the datagram is never complete. *)
Lemma history_far k es A : of_key k A = [] -> Forall (of_datagram k (fun _ => True)) es -> ticks es < IPFRAGTTL -> Exists far (pieces k es) ->
  exists t l, of_key k (a_run es A) = [AQueue k t l] /\ behind l.
Proof.
  intros HA Hes Ht Hfar.
  destruct (run_queue k (fun _ => True) (fun fs l => Exists far fs -> behind l)) with (es := es) (A := A) as (t & l & HQ & _ & HP); try done.
  - by intros H%Exists_nil.
  - intros fs l x HP _ [Hb%HP|[Hx|[]%Exists_nil]%Exists_cons]%Exists_app.
    + destruct (reass_far k x l (or_intror Hb)) as (l' & -> & ?). done.
    + destruct (reass_far k x l (or_introl Hx)) as (l' & -> & ?). done.
  - exists t, l. specialize (HP Hfar). split; [|done]. by destruct HQ as [?|(_ & _ & ->)].
Qed.

(** ** Old age *)

Definition aged (n : Z) (A : list aqueue) : Prop := Forall (fun a => 1 <= a_ttl a <= n) A.

Lemma slowtimo_aged n A : aged n A -> n <= IPFRAGTTL -> aged (n - 1) (a_slowtimo A).
Proof.
  intros HA Hn. unfold IPFRAGTTL in Hn. unfold aged, a_slowtimo. induction HA as [|a A [H1 H2] _ IH]; [constructor|].
  cbn [omap list_omap]. unfold a_tick at 1. replace (u8 (a_ttl a - 1)) with (a_ttl a - 1) by mlia.
  destruct (Z.eqb_spec (a_ttl a - 1) 0); [done|]. constructor; [|done]. simpl. lia.
Qed.
Lemma aged_mono n m A : aged n A -> n <= m -> aged m A.
Proof. intros HA Hn. apply (Forall_impl _ _ _ HA). intros a. lia. Qed.

Lemma ours_aged h data A : aged IPFRAGTTL A -> aged IPFRAGTTL (a_ours h (hdr_len h) data A).2.
Proof.
  unfold a_ours, aged. intros HA. destruct (is_frag h); [|done]. destruct (key_of h) as [k|]; [|done]. pose proof (a_find_of_key k A) as Hf.
  destruct (a_find k A) as [[[A1 a] A2]|].
  - destruct Hf as (-> & _). apply Forall_app in HA as [H1 [Ha H2]%Forall_cons].
    destruct (_ || _); [destruct (a_reass _ _ _) as [out [l|]]|]; simpl; apply Forall_app; split; try done. by constructor.
  - destruct (_ || _); [destruct (a_reass _ _ _) as [out [l|]]|]; simpl; try done. constructor; [|done]. unfold IPFRAGTTL. simpl. lia.
Qed.

Lemma slowtimo_iter_aged n A : aged (Z.of_nat n) A -> Z.of_nat n <= IPFRAGTTL -> Nat.iter n a_slowtimo A = [].
Proof.
  revert A. induction n as [|n IH]; intros A HA Hn.
  - destruct HA as [|a A [H1 H2] _]; [done|lia].
  - rewrite Nat.iter_succ_r. apply IH; [|lia]. replace (Z.of_nat n) with (Z.of_nat (S n) - 1) by lia. by apply slowtimo_aged.
Qed.
