(* ===== verification/IpHeader.v ===== *)
(** * The header of a packet (sys/netinet/ip_input.c)

    The bytes of [struct ip] on a machine that has the low byte first, the order of the bytes on
    the network, and what [ipintr] does with a packet before it looks at its options and its
    destination: the header is brought together, checked and converted, and the mbufs are
    trimmed to the length the header tells. *)

From S2P Require Import Prelude Mbuf Cksum Ring IpFrag IpView.
Local Open Scope kern_scope.

(** ** Bytes *)

(** The [n] bytes of [x]. *)
Fixpoint to_le (n : nat) (x : Z) : list Z := match n with O => [] | S n => x mod 256 :: to_le n (x / 256) end.

(** sys/i386/include/inline.h:77-83, [ntohs]: and [htons], line 85. *)
Definition ntohs (x : Z) : Z := 256 * (x mod 256) + x / 256 mod 256.
(** [NTOHS(v)], and [v = htons((u_short)v)], for a short [v]. *)
Definition swap_short (v : Z) : Z := s16 (ntohs (u16 v)).

(** A [struct ip] with its version in memory: its bytes. *)
Definition ip_put (v : Z) (h : ip) : option (list Z) :=
  match ip_src h, ip_dst h with
  | Addr src, Addr dst =>
      Some ([ip_hl h + 16 * v; ip_tos h] ++ to_le 2 (u16 (ip_len h)) ++ to_le 2 (ip_id h) ++ to_le 2 (u16 (ip_off h)) ++
            [ip_ttl h; ip_p h] ++ to_le 2 (ip_sum h) ++ to_le 4 src ++ to_le 4 dst)
  | _, _ => None
  end.
(** The version and the header that the bytes [w] are. *)
Definition ip_get (w : list Z) : option (Z * ip) :=
  match w with
  | vh :: tos :: l0 :: l1 :: i0 :: i1 :: o0 :: o1 :: ttl :: p :: s0 :: s1 :: a0 :: a1 :: a2 :: a3 :: d0 :: d1 :: d2 :: d3 :: _ =>
      Some (vh / 16, Ip (vh mod 16) tos (s16 (le [l0; l1])) (le [i0; i1]) (s16 (le [o0; o1])) ttl p (le [s0; s1])
                        (Addr (le [a0; a1; a2; a3])) (Addr (le [d0; d1; d2; d3])))
  | _ => None
  end.

Definition IPVERSION := 4.
Definition set_sum v x := Ip (ip_hl x) (ip_tos x) (ip_len x) (ip_id x) (ip_off x) (ip_ttl x) (ip_p x) v (ip_src x) (ip_dst x).
Definition set_id v x := Ip (ip_hl x) (ip_tos x) (ip_len x) v (ip_off x) (ip_ttl x) (ip_p x) (ip_sum x) (ip_src x) (ip_dst x).
Definition set_hl v x := Ip v (ip_tos x) (ip_len x) (ip_id x) (ip_off x) (ip_ttl x) (ip_p x) (ip_sum x) (ip_src x) (ip_dst x).

(** ** ipintr: the checks of the header *)

(** sys/netinet/ip_input.c:399-401, [ipintr]: [bad]; with the statistic [f] counted before. *)
Definition bad (f : option ipstat) (c : list mbuf) : K ipst (option (ip * list mbuf)) :=
  do! (match f with Some f => count f | None => kret tt end) in
  do! mb (m_freem c) in kret None.

(** sys/netinet/ip_input.c:211-221, [ipintr]: drop the packet if it is shorter than the header says,
    trim the mbufs if it is longer. *)
Definition check_length (h : ip) (c : list mbuf) : K ipst (option (ip * list mbuf)) :=
  match c with
  | [] => kpanic
  | m :: r =>
      if len (m_pkthdr m) <? ip_len h then bad (Some ips_tooshort) c
      else if ip_len h <? len (m_pkthdr m) then
        if m_len m =? len (m_pkthdr m) then kret (Some (h, set_plen (ip_len h) (set_len (ip_len h) m) :: r))
        else let! c := knonnull (m_adj c (ip_len h - len (m_pkthdr m))) in kret (Some (h, c))
      else kret (Some (h, c))
  end.

(** sys/netinet/ip_input.c:189-221, [ipintr]: the checksum, the byte order and the length of a packet
    with [hlen] bytes of header in its first mbuf. *)
Definition check_sum (h : ip) (hlen : Z) (c : list mbuf) : K ipst (option (ip * list mbuf)) :=
  let! (sum, _) := mb (in_cksum c hlen) in
  if ztrue sum then bad (Some ips_badsum) c
  else
    let h := set_iplen (swap_short (ip_len h)) (set_sum sum h) in
    if ip_len h <? hlen then bad (Some ips_badlen) c
    else check_length (set_off (swap_short (ip_off h)) (set_id (ntohs (ip_id h)) h)) c.

(** sys/netinet/ip_input.c:172-188, [ipintr]: the version and the length of the header. *)
Definition check_hlen (c : list mbuf) : K ipst (option (ip * list mbuf)) :=
  match c with
  | [] => kpanic
  | m :: _ =>
      let! w := mb (bytes_at m 0 IP_HDR) in
      let! (v, h) := knonnull (ip_get w) in
      let hlen := hdr_len h in
      if negb (v =? IPVERSION) then bad None c
      else if hlen <? IP_HDR then bad (Some ips_badhlen) c
      else if m_len m <? hlen then
        let! c := m_pullup c hlen in
        match c with [] => do! count ips_badhlen in kret None | _ => check_sum h hlen c end
      else check_sum h hlen c
  end.

(** sys/netinet/ip_input.c:164-221, [ipintr]: the packet [c] from the queue of the interfaces; its
    header and its mbufs when it is a good one.  The host has an address ([in_ifaddr]). *)
Definition ip_check (c : list mbuf) : K ipst (option (ip * list mbuf)) :=
  match c with
  | [] => kpanic
  | m :: _ =>
      do! count ips_total in
      if m_len m <? IP_HDR then
        let! c := m_pullup c IP_HDR in
        match c with [] => do! count ips_toosmall in kret None | _ => check_hlen c end
      else check_hlen c
  end.
