(* ===== verification/IpLoops.v ===== *)
(** * The loops of ip_reass

    Each loop over the ring of a queue computes what the functions on lists say: the place of a
    new fragment, what is trimmed before and after it, whether the datagram is whole, its bytes. *)

From S2P Require Import Prelude Mbuf MbufSpec MbufOps MbufCopy MbufClust Ring IpFrag IpRing IpSpec IpView.
Local Open Scope kern_scope.

(** The packets [ls] are the fragments [fs]. *)
Definition frs (F : gmap loc frag) (ls : list loc) (fs : list frag) : Prop := Forall2 (fun l f => F !! l = Some f) ls fs.

Lemma frs_change F F' ls fs : (forall l, l ∈ ls -> F' !! l = F !! l) -> frs F ls fs -> frs F' ls fs.
Proof.
  intros H Hf. induction Hf as [|l f ls fs Hl _ IH]; [constructor|]. constructor; [rewrite H; [done|left]|].
  apply IH. intros k Hk. apply H. by right.
Qed.
Lemma frs_last F ls fs : frs F ls fs -> match last ls, last fs with Some l, Some f => F !! l = Some f /\ l ∈ ls | None, None => True | _, _ => False end.
Proof.
  intros H. destruct ls as [|l ls _] using rev_ind; [by inversion H|]. apply Forall2_app_inv_l in H as (f1 & f2 & _ & H & ->).
  inversion H as [|? f ? ? Hl Hn]; subst. inversion Hn; subst. rewrite !last_snoc. split; [done|]. set_solver.
Qed.

(** ** Reading the ring *)

Section Read.
Context (s : ipst) (f : loc).

Lemma final_ff l1 : final (FQ f) (FF <$> l1) = match last l1 with Some l => FF l | None => FQ f end.
Proof. unfold final. rewrite fmap_last. by destruct (last l1). Qed.

Lemma fnext_at l1 l l2 : ring frag_link s (FQ f) (FF <$> (l1 ++ l :: l2)) -> fnext (FF l) s = Some (first (FF <$> l2) (FQ f), s).
Proof. rewrite fmap_app, fmap_cons. intros Hr. apply get_next_run. by apply (ring_middle frag_link) in Hr as (_ & ? & _). Qed.
Lemma fprev_at l1 l2 : ring frag_link s (FQ f) (FF <$> (l1 ++ l2)) ->
  fprev (first (FF <$> l2) (FQ f)) s = Some (final (FQ f) (FF <$> l1), s).
Proof. rewrite fmap_app. intros Hr. apply get_prev_run. by apply (ring_prev frag_link). Qed.
Lemma fnext_head l : ring frag_link s (FQ f) (FF <$> l) -> fnext (FQ f) s = Some (first (FF <$> l) (FQ f), s).
Proof. intros Hr. apply get_next_run. by apply (ring_next frag_link _ _ []) in Hr. Qed.
Lemma fprev_head l : ring frag_link s (FQ f) (FF <$> l) -> fprev (FQ f) s = Some (final (FQ f) (FF <$> l), s).
Proof. intros Hr. apply get_prev_run. rewrite <- (app_nil_r (FF <$> l)) in Hr. by apply (ring_prev frag_link) in Hr. Qed.
End Read.

Section Loops.
Context {mem : Answers} (Q : gmap loc (key * Z)) (L : list mbuf).

(** The header of a packet that is a fragment. *)
Lemma frag_pkt s F l x : view s F Q L -> F !! l = Some x -> exists y, pkts s !! l = Some y /\ pkt l s = Some (y, s) /\
  ip_off (p_ip y) = f_off x /\ ip_len (p_ip y) = f_len x /\ ip_tos (p_ip y) = f_more x.
Proof.
  intros Hv Hx. destruct (vw_frag _ _ _ _ Hv l x Hx) as (y & Hy & [H1 _ _]). exists y.
  unfold f_off, f_len, f_more. rewrite <- H1. split_and!; [done|by apply pkt_run|done..].
Qed.

Lemma find_after_run s F f off l1 l2 fs2 fuel : view s F Q L -> ring frag_link s (FQ f) (FF <$> (l1 ++ l2)) -> frs F l2 fs2 ->
  (length l2 < fuel)%nat -> exists l3 l4, l2 = l3 ++ l4 /\ frs F l3 (a_after off fs2).1 /\ frs F l4 (a_after off fs2).2 /\
    find_after fuel f off (first (FF <$> l2) (FQ f)) s = Some (first (FF <$> l4) (FQ f), s).
Proof.
  intros Hv. revert fs2 l1 fuel. induction l2 as [|l l2 IH]; intros fs2 l1 [|fuel] Hr Hf Hfuel; simpl in Hfuel; try lia.
  - inversion Hf; subst. exists [], []. split_and!; [done|constructor|constructor|]. cbn. by rewrite decide_True.
  - inversion Hf as [|? x ? fs Hl Hfs]; subst. destruct (frag_pkt s F l x Hv Hl) as (y & _ & Hp & Hoff & _).
    cbn [a_after fmap list_fmap first find_after]. rewrite (bind_run _ _ _ _ _ Hp), Hoff.
    destruct (off <? f_off x) eqn:E.
    + exists [], (l :: l2). split_and!; [done|constructor|done|done].
    + pose proof Hr as Hr'. rewrite cons_middle, app_assoc in Hr'.
      destruct (IH fs (l1 ++ [l]) fuel Hr' Hfs ltac:(lia)) as (l3 & l4 & -> & H3 & H4 & Hrun).
      rewrite (bind_run _ _ _ _ _ (fnext_at s f l1 l _ Hr)). destruct (a_after off fs) as [a b]. exists (l :: l3), l4.
      split_and!; [done|by constructor|done|done].
Qed.

Lemma trim_front_run s F f l x l1 l2 a : view s F Q L -> ring frag_link s (FQ f) (FF <$> (l1 ++ l2)) -> frs F l1 a ->
  F !! l = Some x -> fit x ->
  match a_front a x with
  | None => trim_front l f (first (FF <$> l2) (FQ f)) s = Some (true, s)
  | Some x' => exists s', trim_front l f (first (FF <$> l2) (FQ f)) s = Some (false, s') /\ edits [] s s' /\
      view s' (<[l := x']> F) Q L /\ fit x'
  end.
Proof.
  intros Hv Hr Ha Hx Hfit. unfold trim_front, a_front. rewrite (bind_run _ _ _ _ _ (fprev_at s f l1 l2 Hr)), final_ff.
  pose proof (frs_last F l1 a Ha) as Hlast. destruct (last l1) as [pl|], (last a) as [p|]; try done.
  2:{ exists s. rewrite decide_True by done. split_and!; [done|by split|by rewrite insert_id|done]. }
  destruct Hlast as [Hpl _]. destruct (frag_pkt s F pl p Hv Hpl) as (y & _ & Hp & Ho & Hl & _).
  destruct (frag_pkt s F l x Hv Hx) as (z & _ & Hp' & Ho' & Hl' & _).
  rewrite (bind_run _ _ _ _ _ Hp), (bind_run _ _ _ _ _ Hp'), Ho, Hl, Ho', Hl'. fold (f_end p).
  destruct (Z.ltb_spec 0 (f_end p - f_off x)); [|exists s; split_and!; [done|by split|by rewrite insert_id|done]].
  destruct (Z.leb_spec (f_len x) (f_end p - f_off x)); [done|].
  destruct (trim_ok s F Q L l x (f_end p - f_off x) Hv Hx Hfit ltac:(lia)) as (s' & Hrun & He & Hv').
  exists s'. split_and!; [by rewrite (bind_run _ _ _ _ _ Hrun)|done|done|]. apply trim_fit; [lia|done].
Qed.

Lemma check_run s F f l1 l2 fs2 next fuel : view s F Q L -> ring frag_link s (FQ f) (FF <$> (l1 ++ l2)) -> frs F l2 fs2 ->
  (length l2 < fuel)%nat -> reass_check fuel f (first (FF <$> l2) (FQ f)) next s = Some (a_check fs2 next, s).
Proof.
  intros Hv. revert fs2 l1 fuel next. induction l2 as [|l l2 IH]; intros fs2 l1 [|fuel] next Hr Hf Hfuel; simpl in Hfuel; try lia.
  - inversion Hf; subst. cbn. by rewrite decide_True.
  - inversion Hf as [|? x ? fs Hl Hfs]; subst. destruct (frag_pkt s F l x Hv Hl) as (y & _ & Hp & Hoff & Hlen & _).
    cbn [a_check fmap list_fmap first reass_check]. rewrite (bind_run _ _ _ _ _ Hp), Hoff, Hlen.
    destruct (f_off x =? next); [|done]. rewrite (bind_run _ _ _ _ _ (fnext_at s f l1 l _ Hr)).
    apply (IH fs (l1 ++ [l])); [by rewrite <- app_assoc|done|lia].
Qed.

(** A step that frees a packet and takes it out of the ring. *)
Lemma drop_frag_run s F qs1 f l1 l l2 qs2 : view s F Q L -> shape s (qs1 ++ (f, l1 ++ l :: l2) :: qs2) ->
  exists s1 s2, free_pkt l s = Some (tt, s1) /\ edits [] s s1 /\ ip_deq (FF l) s1 = Some (tt, s2) /\
    shape s2 (qs1 ++ (f, l1 ++ l2) :: qs2) /\ view s2 (delete l F) Q L /\ forall y, r_node frag_link y s2 = r_node frag_link y s.
Proof.
  intros Hv Hs. destruct (shape_pkts _ _ _ _ _ l Hs ltac:(set_solver)) as [x Hx].
  destruct (free_pkt_ok s F Q L l x Hv Hx) as (b & Hr & Hv1). set (s1 := with_mb b _) in *.
  assert (He : edits [] s s1) by (etrans; [by apply (put_pkt_edits s l x (set_m [] x))|by split]).
  destruct (shape_deq s1 qs1 f l1 l l2 qs2) as (s2 & Hd & Hs2 & _ & Hl & _); [by eapply shape_same|].
  exists s1, s2. split_and!; [done|done|done|done|by eapply view_links|].
  intros y. by rewrite (links_node _ _ y Hl), (ed_node _ _ _ He).
Qed.

Lemma trim_back_run qs1 f l1 qs2 l x b s F l2 fuel : view s F Q L -> shape s (qs1 ++ (f, l1 ++ l2) :: qs2) -> frs F l2 b ->
  F !! l = Some x -> l ∉ l1 ++ l2 -> Forall fit b -> (length l2 < fuel)%nat ->
  exists l2' s' F', trim_back fuel l f (first (FF <$> l2) (FQ f)) s = Some (first (FF <$> l2') (FQ f), s') /\
    shape s' (qs1 ++ (f, l1 ++ l2') :: qs2) /\ view s' F' Q L /\ frs F' l2' (a_back x b) /\ Forall fit (a_back x b) /\ l2' ⊆ l2 /\
    (forall k, k ∉ l2 -> F' !! k = F !! k) /\ forall y, r_node frag_link y s' = r_node frag_link y s.
Proof.
  revert b s F fuel. induction l2 as [|k l2 IH]; intros b s F [|fuel] Hv Hs Hb Hx Hl Hfit Hfuel; simpl in Hfuel; try lia.
  - inversion Hb; subst. exists [], s, F. split_and!; [cbn; by rewrite decide_True|done..].
  - inversion Hb as [|? q ? bs Hk Hbs]; subst. apply Forall_cons in Hfit as [Hq Hfit].
    destruct (frag_pkt s F l x Hv Hx) as (y & _ & Hp & Ho & Hn & _). destruct (frag_pkt s F k q Hv Hk) as (z & _ & Hp' & Ho' & Hn' & _).
    cbn [a_back fmap list_fmap first trim_back]. rewrite (bind_run _ _ _ _ _ Hp), (bind_run _ _ _ _ _ Hp'), Ho, Hn, Ho', Hn'. fold (f_end x).
    destruct (Z.ltb_spec (f_off q) (f_end x)) as [Hov|Hno].
    2:{ exists (k :: l2), s, F. split_and!; try done. by constructor. }
    pose proof (shape_ring _ _ _ _ _ Hs) as Hr. assert (Hkl : k <> l) by set_solver.
    assert (Hnd : k ∉ l2).
    { destruct Hr as [_ [_ Hnd]%NoDup_cons _]. apply NoDup_fmap_1, NoDup_app in Hnd as (_ & _ & [Hnd _]%NoDup_cons). done. }
    destruct (Z.ltb_spec (f_end x - f_off q) (f_len q)) as [Hpart|Hall].
    + destruct (trim_ok s F Q L k q (f_end x - f_off q) Hv Hk Hq ltac:(lia)) as (s' & Hrun & He & Hv').
      rewrite (bind_run _ _ _ _ _ Hrun). eexists (k :: l2), s', _.
      split_and!; [done|by eapply shape_same|exact Hv'| | |done| |by apply He].
      * constructor; [apply lookup_insert_eq|]. eapply frs_change; [|exact Hbs]. intros j Hj. rewrite lookup_insert_ne; [done|by intros ->].
      * constructor; [|done]. apply trim_fit; [lia|done].
      * intros j Hj. rewrite lookup_insert_ne; [done|set_solver].
    + destruct (drop_frag_run s F qs1 f l1 k l2 qs2 Hv Hs) as (s1 & s2 & Hf1 & He1 & Hd2 & Hs2 & Hv2 & Hn2).
      assert (Hr1 : ring frag_link s1 (FQ f) (FF <$> ((l1 ++ [k]) ++ l2))).
      { rewrite <- app_assoc. eapply ring_edits; [exact He1| |exact Hr]. intros ? _. apply not_elem_of_nil. }
      assert (Hpv : forall t, ring frag_link t (FQ f) (FF <$> ((l1 ++ [k]) ++ l2)) -> fprev (first (FF <$> l2) (FQ f)) t = Some (FF k, t)).
      { intros t Ht. rewrite (fprev_at t f (l1 ++ [k]) l2 Ht), final_ff, last_snoc. done. }
      destruct (IH bs s2 (delete k F) fuel Hv2 Hs2) as (l2' & s' & F' & Hrun & I1 & I2 & I3 & I4 & I5 & I6 & I7); try done.
      { eapply frs_change; [|exact Hbs]. intros j Hj. rewrite lookup_delete_ne; [done|by intros ->]. }
      { by rewrite lookup_delete_ne. } { set_solver. } { lia. }
      exists l2', s', F'. split_and!; try done.
      * rewrite (bind_run _ _ _ _ _ (fnext_at s f l1 k l2 Hr)).
        rewrite (bind_run _ _ _ _ _ (Hpv s ltac:(by rewrite <- app_assoc))), (bind_nonnull _ _ _ k) by done.
        rewrite (bind_run _ _ _ _ _ Hf1), (bind_run _ _ _ _ _ (Hpv s1 Hr1)), (bind_run _ _ _ _ _ Hd2). exact Hrun.
      * set_solver.
      * intros j Hj. rewrite I6 by set_solver. rewrite lookup_delete_ne; [done|set_solver].
      * intros y'. by rewrite I7, Hn2.
Qed.
End Loops.
