(* ===== verification/IpJoin.v ===== *)
(** * Hiding headers and joining fragments

    A packet that shows its header, as it comes and as it goes to a protocol; hiding the header;
    joining the mbufs of all fragments of a queue into one packet. *)

From S2P Require Import Prelude Mbuf MbufSpec MbufOps MbufCopy MbufClust Ring IpFrag IpRing IpSpec IpView IpLoops.
Local Open Scope kern_scope.

(** ** A packet with its header *)

(** The packet [z] has the header [h] and then the bytes [data]; the first mbuf begins with the
    header itself unless [cut]. *)
Record visible (b : mbst) (z : packet) (h : ip) (data : list Z) (cut : bool) : Prop := {
  vs_ip : p_ip z = h;
  vs_hlen : 0 <= hdr_len h;
  vs_bytes : drop (Z.to_nat (hdr_len h)) (cbytes b (p_m z)) = data;
  vs_len : m_length (p_m z) = hdr_len h + zlen data;
  vs_front : match p_m z with m :: _ => hdr_len h <= m_len m /\ (cut = false -> m_data m = p_at z) | [] => False end;
  vs_hdr : hdr_ok (p_m z) }.

Section Memory.
Context {mem : Answers}.

Section Join.
Context (Q : gmap loc (key * Z)).

(** Hide the header: the packet is a fragment. *)
Lemma hide_ok s F L l z h data : view s F Q L -> F !! l = None -> pkts s !! l = Some z -> visible (ip_mb s) z h data false ->
  match p_m z with m :: _ => is_ext m = false | [] => False end ->
  exists s', hide l (hdr_len h) s = Some (tt, s') /\ edits [] s s' /\ view s' (<[l := Frag (clear h) false data]> F) Q L /\
    exists z', pkts s' !! l = Some z' /\ p_ip z' = h.
Proof.
  intros Hv HF Hz [V1 V2 V3 V4 V5 V6] Hext. destruct (view_chain s F Q L l z Hv Hz) as (Hs & Hp & Hf).
  unfold hide. rewrite (bind_run _ _ _ _ _ (pkt_run _ _ _ Hz)). destruct (p_m z) as [|m r] eqn:Em; [done|].
  rewrite (upd_pkt_run _ _ z) by done. destruct V5 as [V5 V7]. apply Forall_cons in Hs as [Hm Hr].
  destruct (trim_head (ip_mb s) m (hdr_len h) Hm ltac:(lia)) as (T1 & T2 & T3). set (m' := set_len _ _) in *.
  eexists. split; [done|]. split_and!.
  - by eapply put_pkt_edits.
  - rewrite <- (with_own_mb (put_pkt _ _ _)). apply (view_put s F _ Q L); [done| | | | |apply keeps_refl].
    + intros k g Hk. by rewrite lookup_insert_ne.
    + intros g. rewrite lookup_insert_eq. intros [= <-]. split; simpl; [by rewrite V1| |].
      * rewrite cbytes_cons, T3, <- V3, cbytes_cons, drop_app_lt; [done|]. rewrite mbytes_len by done. lia.
      * split_and!; [done|done| |by intros _; rewrite V7].
        pose proof (mo_start _ (sd_ok _ _ Hm)). unfold m_start, m', is_hdr, is_ext, hdr_len in *. simpl in *. lia.
    + apply (pool_edit _ m); try done. apply T1.
    + intros c. apply Hf.
  - eexists. split; [apply lookup_insert_eq|done].
Qed.

(** ** Joining *)

Definition join_frag (x t : frag) : frag := Frag (f_hd x) (f_cut x) (f_bytes x ++ f_bytes t).

(** The first of the mbufs of a packet takes what it has room for from the others. *)
Lemma squeeze_ok s F L l x y m t : view s F Q L -> F !! l = Some x -> pkts s !! l = Some y -> p_m y = m :: t ->
  exists c b, mb (m_cat [m] t) s = Some (c, with_mb b s) /\ let s' := with_mb b (put_pkt l (set_m c y) s) in
    edits [] s s' /\ view s' F Q L.
Proof.
  intros Hv Hx Hy Hm. destruct (view_chain s F Q L l y Hv Hy) as (_ & Hp & Hf). rewrite Hm in Hp, Hf.
  destruct (m_cat_ok (ip_mb s) [m] t (beside s l ++ L) ltac:(done) Hp Hf) as (c & b & Hr & J1 & J2 & J3 & J4 & J5).
  exists c, b. split; [exact (mb_run _ s _ _ Hr)|]. split; [etrans; [by apply (put_pkt_edits s l y (set_m c y))|by split]|].
  destruct (vw_frag _ _ _ _ Hv l x Hx) as (y' & Hy' & [S1 S2 S3]). rewrite Hy in Hy'. injection Hy' as <-. rewrite Hm in S2, S3.
  apply (view_put s F _ Q L); [done|done| |done| |].
  - intros g Hg. rewrite Hx in Hg. injection Hg as <-. split; [done| |].
    + simpl. rewrite J3, <- S2, <- cbytes_app. done.
    + simpl. destruct c as [|m' c]; [done|]. destruct J4 as (Hsame & Hd & _ & _). rewrite (same1_ext _ _ Hsame), Hd.
      unfold m_start, is_hdr. rewrite (same1_ext _ _ Hsame). destruct Hsame as (_ & -> & _). exact S3.
  - intros d. specialize (J5 d). specialize (Hf d). rewrite !nrefs_app in *. change (m :: t) with ([m] ++ t) in Hf. rewrite nrefs_app in Hf. simpl. lia.
  - apply (keeps_sub (beside s l ++ L)); [|done]. intros d. rewrite nrefs_app. pose proof (nrefs_nonneg d L). lia.
Qed.

(** The mbufs of the packet [k] go to the end of those of [l]. *)
Lemma append_ok_pkt s F L l k x t y z : view s F Q L -> l <> k -> F !! l = Some x -> F !! k = Some t ->
  pkts s !! l = Some y -> pkts s !! k = Some z ->
  exists m b, mb (m_cat (p_m y) (p_m z)) s = Some (m, with_mb b s) /\
    let s' := with_mb b (put_pkt l (set_m m y) (put_pkt k (set_m [] z) s)) in
    edits [] s s' /\ view s' (<[l := join_frag x t]> (delete k F)) Q L.
Proof.
  intros Hv Hlk Hx Ht Hy Hz. pose proof (view_take s F Q L k z Hv Hz) as Hv1. set (s1 := put_pkt k (set_m [] z) s) in *.
  assert (Hy1 : pkts s1 !! l = Some y) by (simpl; by rewrite lookup_insert_ne).
  destruct (view_chain s1 _ Q _ l y Hv1 Hy1) as (_ & Hp & Hf).
  destruct (vw_frag _ _ _ _ Hv l x Hx) as (y' & Hy' & [S1 S2 S3]). rewrite Hy in Hy'. injection Hy' as <-.
  destruct (vw_frag _ _ _ _ Hv k t Ht) as (z' & Hz' & [T1 T2 T3]). rewrite Hz in Hz'. injection Hz' as <-.
  assert (Hpm : p_m y ++ beside s1 l ++ p_m z ++ L ≡ₚ p_m y ++ p_m z ++ beside s1 l ++ L) by (f_equiv; apply Permutation_app_swap_app).
  rewrite Hpm in Hp, Hf.
  destruct (m_cat_ok (ip_mb s) (p_m y) (p_m z) (beside s1 l ++ L) ltac:(by intros E; rewrite E in S3) Hp Hf) as (c & b & Hr & J1 & J2 & J3 & J4 & J5).
  exists c, b. split; [exact (mb_run _ s _ _ Hr)|]. split.
  - etrans; [by apply (put_pkt_edits s k z (set_m [] z))|]. fold s1. etrans; [by apply (put_pkt_edits s1 l y (set_m c y))|by split].
  - apply (view_put s1 (delete k F) _ Q (p_m z ++ L)); [done| | |done| |].
    + intros j g Hj. by rewrite lookup_insert_ne.
    + intros g. rewrite lookup_insert_eq. intros [= <-]. split; [done|simpl; by rewrite J3, S2, T2|].
      simpl. destruct (p_m y) as [|m r]; [done|]. destruct c as [|m' c]; [done|]. destruct J4 as (Hsame & Hd & _ & _).
      rewrite (same1_ext _ _ Hsame), Hd. unfold m_start, is_hdr. rewrite (same1_ext _ _ Hsame). destruct Hsame as (_ & -> & _). exact S3.
    + intros d. specialize (J5 d). specialize (Hf d). rewrite !nrefs_app in *. simpl. lia.
    + apply (keeps_sub (beside s1 l ++ L)); [|done]. intros d. rewrite nrefs_app. pose proof (nrefs_nonneg d L). lia.
Qed.

Definition join_frags (x : frag) (fs : list frag) : frag := Frag (f_hd x) (f_cut x) (f_bytes x ++ mjoin (f_bytes <$> fs)).

Lemma cat_loop_run f L l l1 l2 fs x s F fuel : view s F Q L -> ring frag_link s (FQ f) (FF <$> (l1 ++ l2)) -> frs F l2 fs ->
  F !! l = Some x -> l ∉ l2 -> (length l2 < fuel)%nat ->
  exists s' F', reass_cat fuel l f (first (FF <$> l2) (FQ f)) s = Some (tt, s') /\ edits [] s s' /\ view s' F' Q L /\
    F' !! l = Some (join_frags x fs) /\ forall k, k <> l -> k ∉ l2 -> F' !! k = F !! k.
Proof.
  revert fs l1 x s F fuel. induction l2 as [|k l2 IH]; intros fs l1 x s F [|fuel] Hv Hr Hfs Hx Hl Hfuel; simpl in Hfuel; try lia.
  - inversion Hfs; subst. exists s, F. split_and!; [cbn; by rewrite decide_True|by split|done| |done].
    rewrite Hx. unfold join_frags. simpl. rewrite app_nil_r. by destruct x.
  - inversion Hfs as [|? t ? ts Hk Hts]; subst. apply not_elem_of_cons in Hl as [Hlk Hl].
    destruct (vw_frag _ _ _ _ Hv l x Hx) as (y & Hy & _). destruct (vw_frag _ _ _ _ Hv k t Hk) as (z & Hz & _).
    destruct (append_ok_pkt s F L l k x t y z Hv Hlk Hx Hk Hy Hz) as (m & b & Hcat & He & Hv').
    set (s1 := with_mb b (put_pkt l _ _)) in *. set (F1 := <[l := join_frag x t]> (delete k F)) in *.
    assert (Hnd : k ∉ l2).
    { destruct Hr as [_ [_ Hnd]%NoDup_cons _]. apply NoDup_fmap_1, NoDup_app in Hnd as (_ & _ & [Hnd _]%NoDup_cons). done. }
    assert (Hr1 : ring frag_link s1 (FQ f) (FF <$> ((l1 ++ [k]) ++ l2))).
    { rewrite <- app_assoc. eapply ring_edits; [exact He| |exact Hr]. intros ? _. apply not_elem_of_nil. }
    destruct (IH ts (l1 ++ [k]) (join_frag x t) s1 F1 fuel Hv' Hr1) as (s' & F' & Hrun & I1 & I2 & I3 & I4).
    { eapply frs_change; [|exact Hts]. intros j Hj. unfold F1. rewrite lookup_insert_ne, lookup_delete_ne; [done|by intros ->|by intros ->]. }
    { apply lookup_insert_eq. } { done. } { lia. }
    exists s', F'. split_and!; [|by etrans|done| |].
    + cbn [fmap list_fmap first reass_cat]. rewrite (bind_run _ _ _ _ _ (pkt_run _ _ _ Hz)).
      rewrite (bind_run _ _ _ _ _ (fnext_at s f l1 k l2 Hr)), (bind_run _ _ _ _ _ (pkt_run _ _ _ Hy)), (bind_run _ _ _ _ _ Hcat).
      rewrite (bind_run _ _ _ _ _ (upd_pkt_run (with_mb b s) k z _ Hz)).
      erewrite bind_run; [|apply (upd_pkt_run _ _ y); simpl; by rewrite lookup_insert_ne]. exact Hrun.
    + rewrite I3. unfold join_frags, join_frag. simpl. by rewrite <- app_assoc.
    + intros j Hj [Hjk Hjl]%not_elem_of_cons. rewrite I4 by done. unfold F1. by rewrite lookup_insert_ne, lookup_delete_ne.
Qed.
(** The header shows again. *)
Lemma unhide_ok s F L l x y : view s F Q L -> F !! l = Some x -> pkts s !! l = Some y ->
  exists s' z, unhide l s = Some (tt, s') /\ edits [] s s' /\ view s' (delete l F) Q L /\ pkts s' !! l = Some z /\
    visible (ip_mb s') z (p_ip y) (f_bytes x) (f_cut x).
Proof.
  intros Hv Hx Hy. destruct (vw_frag _ _ _ _ Hv l x Hx) as (y' & Hy' & [S1 S2 S3]). rewrite Hy in Hy'. injection Hy' as <-.
  destruct (view_chain s F Q L l y Hv Hy) as (Hs & Hp & Hf). unfold unhide. rewrite (bind_run _ _ _ _ _ (pkt_run _ _ _ Hy)).
  destruct (p_m y) as [|m r] eqn:Em; [done|]. destruct S3 as (E1 & E2 & E3 & E4).
  assert (Hh : hdr_len (f_hd x) = hdr_len (p_ip y)) by (by rewrite <- S1). rewrite Hh in *. set (h := hdr_len (p_ip y)) in *.
  change (Z.shiftl (ip_hl (p_ip y)) 2) with h. inversion Hs as [|? ? Hm Hr]; subst.
  destruct (grow_head (ip_mb s) m h Hm) as (G1 & G2 & G3).
  { unfold M_LEADINGSPACE. unfold m_start in E3. rewrite E1 in *. destruct (is_hdr m); simpl in *; lia. }
  set (m' := set_len (m_len m + h) (set_data (m_data m - h) m)) in *. pose proof (mo_len _ (sd_ok _ _ Hm)).
  destruct (on_hdr_ok (ip_mb s) (set_plen (m_length (m' :: r))) (m' :: r) ltac:(intros; by eexists) ltac:(by constructor)) as (O1 & O2 & O3 & O4).
  set (c := on_hdr _ _) in *. rewrite (upd_pkt_run _ _ y) by done. eexists _, (set_m c y). split; [done|]. split_and!.
  - by eapply put_pkt_edits.
  - rewrite <- (with_own_mb (put_pkt _ _ _)). apply (view_put s F _ Q L); [done| | | | |apply keeps_refl].
    + intros k g Hk. by rewrite lookup_delete_ne.
    + intros g. by rewrite lookup_delete_eq.
    + apply (pool_same _ (m :: r)); [done|etrans; [|done]; by constructor|]. apply (Forall_impl _ _ _ O1). by intros ? [].
    + intros d. specialize (Hf d). rewrite nrefs_app in *. simpl. by rewrite (same_refs d (m' :: r) c O2), !nrefs_cons in *.
  - apply lookup_insert_eq.
  - split; [done|done| | | |].
    + change (drop (Z.to_nat h) (cbytes (ip_mb s) c) = f_bytes x). rewrite O3, <- S2, !cbytes_cons, drop_app_lt by (rewrite mbytes_len by done; simpl; lia). by rewrite G3.
    + change (m_length c = h + zlen (f_bytes x)). rewrite O4, <- S2, cbytes_len by done. simpl. lia.
    + fold h. simpl. unfold c. simpl. change (is_hdr m') with (is_hdr m). split; [destruct (is_hdr m); simpl; lia|].
      intros Hc. specialize (E4 Hc). destruct (is_hdr m); simpl; lia.
    + unfold c, hdr_ok. simpl. change (is_hdr m') with (is_hdr m). destruct (is_hdr m) eqn:E; [done|].
      change (is_hdr m') with (is_hdr m). by rewrite E.
Qed.

(** The addresses and the length go into the header. *)
Lemma header_ok s F L l x y k next : view s F Q L -> F !! l = Some x -> pkts s !! l = Some y ->
  let h := a_header k next x in let y' := set_ip (set_dst (Addr (k_dst k)) (set_src (Addr (k_src k)) (set_iplen (s16 next) (p_ip y)))) y in
  p_ip y' = h /\ view (put_pkt l y' s) (<[l := Frag (clear h) (f_cut x) (f_bytes x)]> F) Q L.
Proof.
  intros Hv Hx Hy h y'. destruct (vw_frag _ _ _ _ Hv l x Hx) as (z & Hz & [S1 S2 S3]). rewrite Hy in Hz. injection Hz as <-.
  destruct (view_chain s F Q L l y Hv Hy) as (_ & Hp & Hf).
  assert (Hip : p_ip y' = h) by (unfold y', h, a_header; rewrite <- S1; done). split; [done|].
  rewrite <- (with_own_mb (put_pkt _ _ _)). apply (view_put s F _ Q L); [done| | |done|done|apply keeps_refl].
  - intros j g Hj. by rewrite lookup_insert_ne.
  - intros g. rewrite lookup_insert_eq. intros [= <-]. split; [by rewrite Hip|done|]. exact S3.
Qed.
End Join.

(** ** The end of ip_reass *)

(** Other rings do not see what becomes of a packet. *)
Lemma put_pkt_ring s l x y h ls : pkts s !! l = Some x -> FF l ∉ h :: ls -> ring frag_link s h ls -> ring frag_link (put_pkt l y s) h ls.
Proof.
  intros Hx Hl Hr. apply (ring_frame _ s); [..|exact Hr]; intros [g|k] Hk; try done; assert (k <> l) by (by intros ->);
    simpl; by rewrite lookup_insert_ne.
Qed.

(** The queue is unlinked and freed, whatever has become of its ring. *)
Lemma unlink_queue_run s F Q L qs1 f qs2 k : view s F Q L -> Q !! f = Some k -> ring queue_link s QStatic (QQ <$> (qs1.*1 ++ f :: qs2.*1)) ->
  Forall (fun q => ring frag_link s (FQ q.1) (FF <$> q.2)) (qs1 ++ qs2) -> NoDup (mjoin (qs1 ++ qs2).*2) ->
  exists s1 s2, remque (QQ f) s = Some (tt, s1) /\ free_queue f s1 = Some (tt, s2) /\ shape s2 (qs1 ++ qs2) /\ view s2 F (delete f Q) L /\
    pkts s2 = pkts s.
Proof.
  intros Hv HQ H1 H2 H3. destruct (qring_remque s qs1 f qs2 H1 H2 H3) as (Hr & Hs & Hl & _). set (s1 := remqued _ _ _ _ s) in *.
  pose proof (view_links _ _ _ _ _ Hl Hv) as Hv1. destruct (vw_queue _ _ _ _ Hv1 f _ HQ) as (q & Hq & _).
  destruct (free_queue_ok s1 F Q L f q Hv1 Hq) as (b & Hfree & Hv2). eexists s1, _. split_and!; [done|done| |done|].
  - eapply shape_same; [|exact Hs]. etrans; [by apply (put_queue_edits s1 f q (set_qm [] q))|by split].
  - apply remqued_pkts.
Qed.

Lemma finish_run s F Q L qs1 f l ls qs2 x fs k ttl next : shape s (qs1 ++ (f, l :: ls) :: qs2) -> view s F Q L ->
  frs F (l :: ls) (x :: fs) -> Q !! f = Some (k, ttl) ->
  exists s' z F', reass_finish f next s = Some (Some l, s') /\ shape s' (qs1 ++ qs2) /\ view s' F' (delete f Q) L /\
    F' !! l = None /\ (forall j, j ∉ l :: ls -> F' !! j = F !! j) /\ pkts s' !! l = Some z /\
    visible (ip_mb s') z (a_header k next x) (f_bytes x ++ mjoin (f_bytes <$> fs)) (f_cut x).
Proof.
  intros Hs Hv Hfs HQ. inversion Hfs as [|? ? ? ? Hx Hrest]; subst. pose proof (shape_ring _ _ _ _ _ Hs) as Hr.
  assert (Hl : l ∉ ls) by (destruct Hr as [_ [_ Hnd]%NoDup_cons _]; by apply NoDup_fmap_1, NoDup_cons in Hnd as [? _]).
  destruct (vw_frag _ _ _ _ Hv l x Hx) as (y & Hy & Hsh). destruct (p_m y) as [|m t] eqn:Em; [by destruct Hsh as [_ _ Hsh]; rewrite Em in Hsh|].
  destruct (squeeze_ok Q s F L l x y m t Hv Hx Hy Em) as (c & b & Hcat & He1 & Hv1). set (s1 := with_mb b (put_pkt l _ s)) in *.
  assert (Hr1 : ring frag_link s1 (FQ f) (FF <$> ([l] ++ ls))) by (eapply ring_edits; [exact He1| |exact Hr]; intros ? _; apply not_elem_of_nil).
  destruct (cat_loop_run Q f L l [l] ls fs x s1 F (all_frags s) Hv1 Hr1 Hrest Hx Hl) as (s2 & F2 & Hloop & He2 & Hv2 & Hx2 & Ho2).
  { pose proof (shape_fuel _ _ _ _ _ Hs) as Hfu. simpl in Hfu. lia. }
  assert (Hs2 : shape s2 (qs1 ++ (f, l :: ls) :: qs2)) by (eapply shape_same; [|exact Hs]; by etrans).
  pose proof (shape_ring _ _ _ _ _ Hs2) as Hr2.
  destruct (vw_frag _ _ _ _ Hv2 l _ Hx2) as (y2 & Hy2 & _). destruct (vw_queue _ _ _ _ Hv2 f _ HQ) as (q & Hq & Hk & _). simpl in Hk.
  destruct (header_ok Q s2 F2 L l _ y2 k next Hv2 Hx2 Hy2) as [Hip Hv3]. set (y3 := set_ip _ y2) in *. set (s3 := put_pkt l y3 s2) in *.
  destruct (shape_parts _ _ _ _ _ Hs2) as (P1 & P2 & P3).
  assert (P2' : Forall (fun q => ring frag_link s3 (FQ q.1) (FF <$> q.2)) (qs1 ++ qs2)).
  { rewrite Forall_forall in P2 |- *. intros [g gs] Hin. apply (put_pkt_ring s2 l y2); [done| |by apply P2].
    intros Hin'. apply (shape_apart qs1 qs2 f s2 _ g gs Hs2 Hin _ Hin'). right. left. }
  destruct (unlink_queue_run s3 _ Q L qs1 f qs2 _ Hv3 HQ) as (s4 & s5 & Hrem & Hfree & Hs5 & Hv5 & Hp5); [|done|done|].
  { eapply (ring_frame _ s2); [..|exact P1]; by intros []. }
  assert (Hy5 : pkts s5 !! l = Some y3) by (rewrite Hp5; apply lookup_insert_eq).
  destruct (unhide_ok (delete f Q) s5 _ L l _ y3 Hv5 (lookup_insert_eq _ _ _) Hy5) as (s6 & z & Hun & He6 & Hv6 & Hz & Hvis).
  rewrite Hip in Hvis. eexists s6, z, _. split_and!; [|by eapply shape_same|exact Hv6|apply lookup_delete_eq| |done|exact Hvis].
  - unfold reass_finish. rewrite bind_gets, (bind_run _ _ _ _ _ (fnext_head s f _ Hr)), (bind_nonnull _ _ _ l) by done.
    rewrite (bind_run _ _ _ _ _ (pkt_run _ _ _ Hy)), Em, (bind_run _ _ _ _ _ Hcat).
    rewrite (bind_run _ _ _ _ _ (upd_pkt_run (with_mb b s) l y _ Hy)). change (put_pkt l _ (with_mb b s)) with s1.
    rewrite (bind_run _ _ _ _ _ (fnext_at s1 f [] l ls Hr1)), (bind_run _ _ _ _ _ Hloop).
    rewrite (bind_run _ _ _ _ _ (fnext_head s2 f _ Hr2)), (bind_nonnull _ _ _ l), (bind_run _ _ _ _ _ (ipq_run _ _ _ Hq)) by done.
    assert (Hset : upd_ip l (fun h => set_dst (Addr (ipq_dst q)) (set_src (Addr (ipq_src q)) (set_iplen (s16 next) h))) s2 = Some (tt, s3)).
    { unfold upd_ip. rewrite (upd_pkt_run _ _ _ _ Hy2). unfold s3, y3. by rewrite <- Hk. }
    rewrite (bind_run _ _ _ _ _ Hset), (bind_run _ _ _ _ _ Hrem), (bind_run _ _ _ _ _ Hfree), (bind_run _ _ _ _ _ Hun). done.
  - intros j [Hj1 Hj2]%not_elem_of_cons. rewrite lookup_delete_ne, lookup_insert_ne by done. by apply Ho2.
Qed.
End Memory.
