(* ===== verification/IpInput.v ===== *)
(** * One fragment, one packet

    What [ip_reass] does with a fragment, with a queue for its datagram or without one, and what
    [ipintr] does with a packet for this host. *)

From S2P Require Import Prelude Mbuf MbufSpec MbufOps MbufCopy MbufClust Ring IpFrag IpRing IpSpec IpView IpLoops IpJoin.
Local Open Scope kern_scope.

(** ** The fragment goes in *)

Lemma shape_enq s qs1 f l1 l l2 qs2 : shape s (qs1 ++ (f, l1 ++ l2) :: qs2) -> is_Some (pkts s !! l) ->
  l ∉ l1 ++ l2 -> l ∉ mjoin (qs1 ++ qs2).*2 ->
  exists s', ip_enq (FF l) (final (FQ f) (FF <$> l1)) s = Some (tt, s') /\ shape s' (qs1 ++ (f, l1 ++ l :: l2) :: qs2) /\ links_only s s'.
Proof.
  intros Hs Hl Hin Hout. pose proof (shape_ring _ _ _ _ _ Hs) as Hr. rewrite fmap_app in Hr.
  assert (Hnin : FF l ∉ FQ f :: (FF <$> l1) ++ (FF <$> l2)).
  { rewrite <- fmap_app. intros [?|(? & [= <-] & ?)%list_elem_of_fmap]%elem_of_cons; done. }
  assert (Hnode : r_node frag_link (FF l) s = true) by (by apply bool_decide_eq_true).
  destruct (enq_run frag_link s (FQ f) (FF <$> l1) (FF <$> l2) (FF l) Hr Hnin Hnode) as [Hrun Hring].
  destruct (ends_in frag_link (FQ f) (FF <$> l1) (FF <$> l2)) as [Ha Hb].
  destruct (edits_enq (FF l :: nodes f (l1 ++ l2)) s (FF l) (final (FQ f) (FF <$> l1)) (first (FF <$> l2) (FQ f))) as [He Hlo];
    [right; unfold nodes; by rewrite fmap_app|right; unfold nodes; by rewrite fmap_app|left|by apply Hr|by apply Hr|done|].
  eexists. split_and!; [exact Hrun| |done].
  apply (shape_edits qs1 qs2 f s _ (l1 ++ l2) (l1 ++ l :: l2) l); [done|done|done|by rewrite fmap_app, fmap_cons|].
  intros k. rewrite !elem_of_cons, !elem_of_app, elem_of_cons. tauto.
Qed.

(** What is delivered is a packet with its header. *)
Definition gives (s : ipst) (out : option dgram) (r : ptr) (F : gmap loc frag) : Prop :=
  match out, r with
  | None, None => True
  | Some d, Some l => F !! l = None /\ exists z, pkts s !! l = Some z /\ visible (ip_mb s) z (d_hd d) (d_data d) (d_cut d)
  | _, _ => False
  end.

(** The queue [f] of [qs1 ++ f :: qs2] is left with the fragments [rest], or is no more. *)
Definition left_with (s : ipst) (qs1 : list (loc * list loc)) (f : loc) (qs2 : list (loc * list loc)) (F : gmap loc frag)
    (Q Q' : gmap loc (key * Z)) (rest : option (list frag)) (X : list loc) : Prop :=
  match rest with
  | Some fs => Q' = Q /\ Forall fit fs /\ exists ls, shape s (qs1 ++ (f, ls) :: qs2) /\ frs F ls fs /\ ls ⊆ X
  | None => Q' = delete f Q /\ shape s (qs1 ++ qs2)
  end.

Section Memory.
Context {mem : Answers}.

Section Insert.
Context (L : list mbuf) (qs1 qs2 : list (loc * list loc)) (f : loc) (k : key) (ttl : Z).

Lemma whole_run s F Q ls fs : shape s (qs1 ++ (f, ls) :: qs2) -> view s F Q L -> frs F ls fs -> Q !! f = Some (k, ttl) -> ls <> [] ->
  Forall fit fs ->
  exists r s' F' Q',
    (let! fuel := kgets all_frags in
     let! q := fnext (FQ f) in
     let! r := reass_check fuel f q 0 in
     match r with
     | None => kret None
     | Some next =>
         let! p := fprev (FQ f) in
         let! z := knonnull (frag_of p) in
         let! z := pkt z in
         if ztrue (ip_tos (p_ip z)) then kret None else reass_finish f next
     end) s = Some (r, s') /\ view s' F' Q' L /\ (forall j, j ∉ ls -> F' !! j = F !! j) /\
    gives s' (a_done k fs).1 r F' /\ left_with s' qs1 f qs2 F' Q Q' (a_done k fs).2 ls.
Proof.
  intros Hs Hv Hfs HQ Hne Hfit. pose proof (shape_ring _ _ _ _ _ Hs) as Hr. unfold a_done, a_whole.
  assert (Hstop : exists r s' F' Q', @kret ipst _ (@None loc) s = Some (r, s') /\ view s' F' Q' L /\ (forall j, j ∉ ls -> F' !! j = F !! j) /\
    gives s' None r F' /\ left_with s' qs1 f qs2 F' Q Q' (Some fs) ls).
  { exists None, s, F, Q. split_and!; try done. split; [done|]. split; [done|]. by exists ls. }
  rewrite bind_gets, (bind_run _ _ _ _ _ (fnext_head s f _ Hr)).
  rewrite (bind_run _ _ _ _ _ (check_run Q L s F f [] ls fs 0 (all_frags s) Hv Hr Hfs (shape_fuel _ _ _ _ _ Hs))).
  destruct (a_check fs 0) as [next|]; [|exact Hstop].
  rewrite (bind_run _ _ _ _ _ (fprev_head s f _ Hr)), final_ff. pose proof (frs_last F ls fs Hfs) as Hlast.
  destruct (last ls) as [zl|] eqn:Ezl; [|by apply last_None in Ezl]. destruct (last fs) as [z|]; [|done]. destruct Hlast as [Hz _].
  destruct (frag_pkt Q L s F zl z Hv Hz) as (y & _ & Hp & _ & _ & Htos).
  rewrite (bind_nonnull _ _ _ zl), (bind_run _ _ _ _ _ Hp), Htos by done. destruct (ztrue (f_more z)); [exact Hstop|].
  destruct Hfs as [|l x ls fs Hx Hfs]; [done|].
  destruct (finish_run s F Q L qs1 f l ls qs2 x fs k ttl next Hs Hv ltac:(by constructor) HQ) as (s' & y' & F' & Hrun & I1 & I2 & I3 & I4 & I5 & I6).
  exists (Some l), s', F', (delete f Q). split_and!; try done. simpl. eauto.
Qed.

Lemma reass_insert_run s F Q l1 l x l2 a b : shape s (qs1 ++ (f, l1 ++ l2) :: qs2) -> view s F Q L ->
  frs F l1 a -> frs F l2 b -> F !! l = Some x -> Q !! f = Some (k, ttl) -> l ∉ l1 ++ l2 -> l ∉ mjoin (qs1 ++ qs2).*2 ->
  Forall fit (a ++ x :: b) ->
  exists r s' F' Q', reass_insert l f (first (FF <$> l2) (FQ f)) s = Some (r, s') /\ view s' F' Q' L /\
    (forall j, j ∉ l1 ++ l :: l2 -> F' !! j = F !! j) /\ gives s' (a_done k (a ++ x :: b)).1 r F' /\
    left_with s' qs1 f qs2 F' Q Q' (a_done k (a ++ x :: b)).2 (l1 ++ l :: l2).
Proof.
  intros Hs Hv Ha Hb Hx HQ Hin Hout Hfit. destruct (vw_frag _ _ _ _ Hv l x Hx) as (y & Hy & _).
  destruct (shape_enq s qs1 f l1 l l2 qs2 Hs ltac:(eauto) Hin Hout) as (s1 & Hrun & Hs1 & Hl1).
  unfold reass_insert. rewrite (bind_run _ _ _ _ _ (fprev_at s f l1 l2 (shape_ring _ _ _ _ _ Hs))), (bind_run _ _ _ _ _ Hrun).
  apply whole_run; [done|by eapply view_links|by apply Forall2_app; [|constructor]|done|by destruct l1|done].
Qed.
End Insert.

(** ** A fragment of a datagram that has a queue *)

Lemma left_mono s qs1 f qs2 F Q Q' rest X Y : X ⊆ Y -> left_with s qs1 f qs2 F Q Q' rest X -> left_with s qs1 f qs2 F Q Q' rest Y.
Proof. destruct rest; [|done]. intros H (? & ? & ls & ? & ? & ?). split; [done|]. split; [done|]. exists ls. split_and!; [done|done|]. by etrans. Qed.

Lemma after_fit off fs : Forall fit fs -> Forall fit (a_after off fs).1 /\ Forall fit (a_after off fs).2.
Proof.
  intros H. destruct (a_after off fs) as [a b] eqn:E. apply a_after_app in E as ->. by apply Forall_app in H.
Qed.

(** The packet [l] has come, with its header. *)
Record arrived (s : ipst) (qs : list (loc * list loc)) (F : gmap loc frag) (l : loc) (h : ip) (data : list Z) : Prop := {
  ar_out : l ∉ mjoin qs.*2;
  ar_frag : F !! l = None;
  ar_pkt : exists z, pkts s !! l = Some z /\ visible (ip_mb s) z h data false /\
    match p_m z with m :: _ => is_ext m = false | [] => False end }.

Lemma view_ips v s F Q L : view s F Q L -> view (with_ips v s) F Q L.
Proof. intros [H1 H2 H3 H4 H5 H6]. by split. Qed.

Lemma dropfrag_run L s F Q l x : view s F Q L -> F !! l = Some x ->
  exists s', dropfrag l s = Some (None, s') /\ edits [] s s' /\ view s' (delete l F) Q L.
Proof.
  intros Hv Hx. destruct (vw_frag _ _ _ _ Hv l x Hx) as (z & Hz & _). unfold dropfrag, count. rewrite bind_mod.
  set (s1 := with_ips _ s). destruct (free_pkt_ok s1 F Q L l z (view_ips _ _ _ _ _ Hv) Hz) as (b & Hfree & Hv1).
  rewrite (bind_run _ _ _ _ _ Hfree). eexists. split_and!; [done| |exact Hv1].
  etrans; [|etrans; [by apply (put_pkt_edits s1 l z (set_m [] z))|]]; by split.
Qed.

Section Reass.
Context (L : list mbuf) (k : key) (l : loc) (h : ip) (data : list Z).
Let x := Frag (clear h) false data.

Lemma reass_some s F Q qs1 f ls fs qs2 ttl : shape s (qs1 ++ (f, ls) :: qs2) -> view s F Q L -> frs F ls fs -> Forall fit fs ->
  Q !! f = Some (k, ttl) -> arrived s (qs1 ++ (f, ls) :: qs2) F l h data -> fit x ->
  exists r s' F' Q', ip_reass l (Some f) s = Some (r, s') /\ view s' F' Q' L /\ (forall j, j ∉ l :: ls -> F' !! j = F !! j) /\
    gives s' (a_reass k x fs).1 r F' /\ left_with s' qs1 f qs2 F' Q Q' (a_reass k x fs).2 (l :: ls).
Proof.
  intros Hs Hv Hfs Hfit HQ [Hout HF (z & Hz & Hvis & Hext)] Hx.
  assert (Hl : (l ∉ ls) /\ l ∉ mjoin (qs1 ++ qs2).*2).
  { rewrite fmap_app, fmap_cons, join_app in Hout. rewrite fmap_app, join_app. simpl in Hout. set_solver. }
  destruct Hl as [Hl Hout'].
  destruct (hide_ok Q s F L l z h data Hv HF Hz Hvis Hext) as (s1 & Hhide & He1 & Hv1 & _). fold x in Hv1.
  assert (Hs1 : shape s1 (qs1 ++ (f, ls) :: qs2)) by (by eapply shape_same).
  assert (Hfs1 : frs (<[l := x]> F) ls fs).
  { eapply frs_change; [|exact Hfs]. intros j Hj. rewrite lookup_insert_ne; [done|by intros ->]. }
  unfold ip_reass. rewrite (bind_run _ _ _ _ _ (pkt_run _ _ _ Hz)), (vs_ip _ _ _ _ _ Hvis). fold (hdr_len h).
  rewrite (bind_run _ _ _ _ _ Hhide), bind_gets, (bind_run _ _ _ _ _ (fnext_head s1 f _ (shape_ring _ _ _ _ _ Hs1))).
  destruct (find_after_run Q L s1 _ f (ip_off h) [] ls fs (all_frags s1) Hv1 (shape_ring _ _ _ _ _ Hs1) Hfs1 (shape_fuel _ _ _ _ _ Hs1))
    as (l1 & l2 & -> & Ha & Hb & Hfind). rewrite (bind_run _ _ _ _ _ Hfind).
  unfold a_reass, a_insert. change (f_off x) with (ip_off h). destruct (after_fit (ip_off h) fs Hfit) as [Hfa Hfb].
  pose proof (fun a b => a_after_app (ip_off h) fs a b) as Hsplit. destruct (a_after (ip_off h) fs) as [a b]. simpl in *.
  pose proof (trim_front_run Q L s1 _ f l x l1 l2 a Hv1 (shape_ring _ _ _ _ _ Hs1) Ha (lookup_insert_eq _ _ _) Hx) as Htf.
  destruct (a_front a x) as [x'|].
  2:{ rewrite (bind_run _ _ _ _ _ Htf). destruct (dropfrag_run L s1 _ Q l x Hv1 (lookup_insert_eq _ _ _)) as (s2 & Hdrop & He2 & Hv2).
      rewrite delete_insert_id in Hv2 by done. exists None, s2, F, Q. split_and!; try done. split; [done|]. split; [done|].
      exists (l1 ++ l2). split_and!; [by eapply shape_same|done|set_solver]. }
  destruct Htf as (s2 & Htf & He2 & Hv2 & Hx'). rewrite (bind_run _ _ _ _ _ Htf). rewrite insert_insert_eq in Hv2.
  assert (Hch : forall ks gs, ks ⊆ l1 ++ l2 -> frs (<[l := x]> F) ks gs -> frs (<[l := x']> F) ks gs).
  { intros ks gs Hk Hg. eapply frs_change; [|exact Hg]. intros j Hj. rewrite !lookup_insert_ne; [done|intros ->; by apply Hl, Hk..]. }
  assert (Hs2 : shape s2 (qs1 ++ (f, l1 ++ l2) :: qs2)) by (by eapply shape_same).
  assert (Hfuel : (length l2 < all_frags s1)%nat) by (pose proof (shape_fuel _ _ _ _ _ Hs1) as Hf; rewrite length_app in Hf; lia).
  destruct (trim_back_run Q L qs1 f l1 qs2 l x' b s2 _ l2 (all_frags s1) Hv2 Hs2 (Hch l2 b ltac:(set_solver) Hb) (lookup_insert_eq _ _ _) Hl Hfb Hfuel)
    as (l2' & s3 & F3 & Htb & Hs3 & Hv3 & Hb3 & Hfb3 & Hsub & Ho3 & Hn3). rewrite (bind_run _ _ _ _ _ Htb).
  assert (Hnd : forall j, j ∈ l1 -> j ∉ l2).
  { intros j Hj1 Hj2. pose proof (shape_ring _ _ _ _ _ Hs2) as [_ [_ Hnd]%NoDup_cons _].
    apply NoDup_fmap_1, NoDup_app in Hnd as (_ & Hnd & _). by apply (Hnd j). }
  assert (Hl2 : l ∉ l2) by set_solver. assert (Hl12 : l ∉ l1 ++ l2') by set_solver.
  destruct (reass_insert_run L qs1 qs2 f k ttl s3 F3 Q l1 l x' l2' a (a_back x' b) Hs3 Hv3) as (r & s' & F' & Q' & Hrun & I1 & I2 & I3 & I4); try done.
  { eapply frs_change; [|apply (Hch l1 a); [set_solver|exact Ha]]. intros j Hj. apply Ho3. by apply Hnd. }
  { rewrite Ho3 by done. apply lookup_insert_eq. }
  { apply Forall_app. split; [done|]. by constructor. }
  exists r, s', F', Q'. split_and!; [done|done| |done|].
  - intros j [Hjl Hj]%not_elem_of_cons. apply not_elem_of_app in Hj as [Hj1 Hj2].
    rewrite I2 by set_solver. rewrite Ho3 by done. by rewrite lookup_insert_ne.
  - eapply left_mono; [|exact I4]. set_solver.
Qed.
End Reass.

(** ** A new queue *)

Lemma owned_queue s f q : queues s !! f = None -> ip_held (put_queue f q s) ≡ₚ ipq_m q ++ ip_held s.
Proof. intros H. unfold ip_held. simpl. by rewrite owned_new, Permutation_app_swap_app. Qed.

(** The ring of the queues does not see a new object, nor the rings of fragments. *)
Lemma put_new_qring s f q ls : queues s !! f = None -> ring queue_link s QStatic (QQ <$> ls) -> f ∉ ls ->
  ring queue_link (put_queue f q s) QStatic (QQ <$> ls).
Proof.
  intros Hf Hr Hn. apply (ring_frame _ s); [..|exact Hr]; intros [|g] Hg; try done.
  all: assert (g <> f) by (intros ->; apply elem_of_cons in Hg as [?|(? & [= <-] & ?)%list_elem_of_fmap]; done).
  all: simpl; by rewrite lookup_insert_ne.
Qed.
Lemma put_other_ring s f q g ls : g <> f -> ring frag_link s (FQ g) (FF <$> ls) -> ring frag_link (put_queue f q s) (FQ g) (FF <$> ls).
Proof.
  intros Hg Hr. apply (ring_frame _ s); [..|exact Hr]; intros [j|j] Hj; try done.
  all: assert (j <> f) by (intros ->; apply elem_of_cons in Hj as [[= ?]|(? & [=] & ?)%list_elem_of_fmap]; done).
  all: simpl; by rewrite lookup_insert_ne.
Qed.

Lemma shape_known s qs f : queues s !! f = None -> shape s qs -> f ∉ qs.*1.
Proof. intros Hf [[_ _ Hn] _ _] Hin. specialize (Hn (QQ f) ltac:(right; by apply list_elem_of_fmap_2)). apply bool_decide_eq_true in Hn as [? ?]. congruence. Qed.

Lemma view_new_queue s F Q L f q m : view s F Q (m :: L) -> queues s !! f = None -> ipq_m q = [m] -> view (put_queue f q s) F Q L.
Proof.
  intros [H1 H2 H3 H4 H5 H6] Hf Hm. assert (Hh := owned_queue s f q Hf). rewrite Hm in Hh.
  assert (Hp : ip_held (put_queue f q s) ++ L ≡ₚ ip_held s ++ m :: L) by (rewrite Hh; simpl; by rewrite Permutation_middle).
  split; [done| |by rewrite Hp|by rewrite Hp|done|done].
  intros g k Hg. destruct (H2 g k Hg) as (p & Hp' & ?). exists p. split; [|done]. simpl. rewrite lookup_insert_ne; [done|]. intros ->. congruence.
Qed.

(** The fields of the queue [q] are set. *)
Lemma view_fill_queue s F Q L f q q' k : view s F Q L -> queues s !! f = Some q -> ipq_m q' = ipq_m q -> queue_key q' = k.1 -> ipq_ttl q' = k.2 ->
  view (put_queue f q' s) F (<[f := k]> Q) L.
Proof.
  intros [H1 H2 H3 H4 H5 H6] Hf Hm Hk Ht.
  assert (Hp : ip_held (put_queue f q' s) ≡ₚ ip_held s).
  { unfold ip_held. simpl. f_equiv. apply (Permutation_app_inv_l (ipq_m q)). rewrite (owned_set ipq_m _ f q q' Hf). by rewrite Hm. }
  split; [done| |by rewrite Hp|by rewrite Hp|done|done]. intros g j Hg. simpl. destruct (decide (g = f)) as [->|Hne].
  - rewrite lookup_insert_eq in Hg. injection Hg as <-. exists q'. split; [apply lookup_insert_eq|done].
  - rewrite !lookup_insert_ne in * by done. by apply H2.
Qed.

Lemma new_queue_run s F Q L qs t l z h k : shape s qs -> view s F Q (set_len 0 t :: L) -> pkts s !! l = Some z -> p_ip z = h -> key_of h = Some k ->
  exists f s', new_queue t l s = Some (f, s') /\ shape s' ((f, []) :: qs) /\ view s' F (<[f := (k, IPFRAGTTL)]> Q) L /\
    pkts s' = pkts s /\ ip_mb s' = ip_mb s /\ f ∉ qs.*1.
Proof.
  intros Hs Hv Hz Hip Hk. unfold new_queue. rewrite bind_get. set (f := fresh (dom (queues s))).
  assert (Hf : queues s !! f = None) by (apply not_elem_of_dom, is_fresh). pose proof (shape_known s qs f Hf Hs) as Hfq.
  rewrite bind_mod. set (q0 := Ipq _ _ _ _ _ _ _ _ _ _). change (with_queues _ s) with (put_queue f q0 s). set (s1 := put_queue f q0 s).
  assert (Hv1 : view s1 F Q L) by (by eapply view_new_queue). destruct Hs as [H1 H2 H3].
  assert (Hr1 : ring queue_link s1 QStatic (QQ <$> qs.*1)) by (by apply put_new_qring).
  assert (Hn1 : QQ f ∉ QStatic :: (QQ <$> qs.*1)) by (intros [?|(? & [= <-] & ?)%list_elem_of_fmap]%elem_of_cons; done).
  assert (Hn2 : r_node queue_link (QQ f) s1 = true) by (apply bool_decide_eq_true; simpl; rewrite lookup_insert_eq; eauto).
  destruct (ring_insque_run queue_link s1 QStatic [] (QQ <$> qs.*1) (QQ f) Hr1 Hn1 Hn2) as [Hins Hr2].
  unfold insque. rewrite (bind_run _ _ _ _ _ Hins). set (s2 := insqued _ _ _ _ s1) in *.
  destruct (insqued_frags s1 (QQ f) (final QStatic []) (first (QQ <$> qs.*1) QStatic)) as [Hf2 Hl2]. fold s2 in Hf2, Hl2.
  pose proof (view_links _ _ _ _ _ Hl2 Hv1) as Hv2. assert (Hp2 : pkts s2 = pkts s) by (unfold s2, insqued; by destruct (first _ _)).
  rewrite (bind_run _ _ _ _ _ (pkt_run s2 l z ltac:(by rewrite Hp2))), Hip. unfold key_of in Hk.
  destruct (ip_src h) as [src|]; [|done]. destruct (ip_dst h) as [dst|]; [|done]. injection Hk as <-.
  pose proof (rg_node _ _ _ _ Hr2 (QQ f) ltac:(right; left)) as Hq2. apply bool_decide_eq_true in Hq2 as [q2 Hq2].
  unfold kbind at 1. rewrite (upd_queue_run _ _ _ _ Hq2). set (q3 := Ipq _ _ _ _ _ _ _ _ _ _).
  assert (Hm2 : ipq_m q2 = ipq_m q0 /\ True).
  { split; [|done]. pose proof (lo_queues _ _ Hl2) as Hc. apply (f_equal (lookup f)) in Hc. rewrite !lookup_fmap, Hq2 in Hc. simpl in Hc.
    rewrite lookup_insert_eq in Hc. destruct q2. by injection Hc. }
  exists f, (put_queue f q3 s2). split_and!; [done| |by eapply view_fill_queue|exact Hp2|exact (lo_mb _ _ Hl2)|done].
  split; [| |done].
  - apply (ring_frame _ s2); [..|exact Hr2]; intros [|g] Hg; try done; simpl; (destruct (decide (g = f)) as [->|];
      [rewrite lookup_insert_eq, ?Hq2; eauto|by rewrite lookup_insert_ne]).
  - constructor.
    + split; [|apply NoDup_singleton|]; simpl; rewrite ?lookup_insert_eq; [done|]. intros y ->%list_elem_of_singleton.
      simpl. rewrite lookup_insert_eq. by apply bool_decide_eq_true.
    + rewrite Forall_forall in H2 |- *. intros [g gs] Hin. assert (g <> f) by (intros ->; apply Hfq; by apply (list_elem_of_fmap_2 fst _ (f, gs))).
      apply put_other_ring; [done|]. apply (ring_same_frags s1); [done|]. apply put_other_ring; [done|]. by apply H2.
Qed.
End Memory.
