(* ===== verification/IpArrive.v ===== *)
(** * What ipintr does with a packet

    When mbufs are wanting the queues may be drained on the way; the queue of the datagram is
    looked for; the packet goes to reassembly or to its protocol.  The theorem of this file is
    that [ipintr] computes [a_ours] on the queues that are in memory. *)

From S2P Require Import Prelude Mbuf MbufSpec MbufOps MbufCopy MbufClust Ring IpFrag IpRing IpSpec IpView IpLoops IpJoin IpInput.
Local Open Scope kern_scope.

(** ** An allocation that asks for nothing *)

Section Plenty.
Context {S : Type} `{!HasMbufs S, !Drains S, !DrainLaws S}.

Lemma MGET_plenty type s l : type <> MT_FREE -> inuse s l -> None ∉ malloc_ans (mb_get s) ->
  exists m b, MGET type s = Some (Some m, mb_put b s).
Proof.
  intros Ht Hu Hn. destruct (proj2 Hu) as [H1 H2 H3].
  destruct (MGET1_ok (mb_get s) (held s ++ l) type (proj2 Hu) Ht) as (o & b & Hr & _ & Ho).
  destruct o as [m|]; [|by destruct Ho]. exists m, b. unfold MGET. by rewrite (bind_run _ _ _ _ _ (mb_run _ _ _ _ Hr)).
Qed.

Lemma mb_only {A} (m : K mbst A) s a s' : mb m s = Some (a, s') -> exists b, s' = mb_put b s.
Proof. unfold mb, kzoom. destruct (m (mb_get s)) as [[? b]|]; [|done]. intros [= _ <-]. by exists b. Qed.

Lemma m_pullup_plenty s x r l plen out s' : inuse s ((x :: r) ++ l) -> None ∉ malloc_ans (mb_get s) ->
  m_pullup (x :: r) plen s = Some (out, s') -> exists b, s' = mb_put b s.
Proof.
  intros Hu Hn. assert (Hx : mok x) by (apply (sd_ok (mb_get s)), (pool_sound _ _ x (proj2 Hu)); set_solver).
  destruct (MGET_plenty (m_type x) s _ (mo_type _ Hx) Hu Hn) as (m & b & Hr). unfold m_pullup.
  case_match; [case_match; [intros [= _ <-]; exists (mb_get s); by rewrite mb_put_get|apply mb_only]|].
  case_match; [apply mb_only|]. rewrite (bind_run _ _ _ _ _ Hr). case_match. intros [b' ->]%mb_only. exists b'. by rewrite mb_put_put.
Qed.
End Plenty.

(** ** The queues may be drained *)

Lemma aside_cases s s' qs : shape s qs -> aside s s' ->
  (exists b, s' = with_mb b s) \/ (shape s' [] /\ forall l, l ∉ mjoin qs.*2 -> pkts s' !! l = pkts s !! l).
Proof.
  intros Hs Ha. revert qs Hs. induction Ha as [s|s s1 s' Hstep _ IH]; intros qs Hs; [left; exists (ip_mb s); by rewrite with_own_mb|].
  destruct Hstep as [[b ->]|Hd].
  - destruct (IH qs) as [[b' ->]|[H1 H2]]; [by apply shape_mb|left; by exists b'|by right].
  - destruct (ip_drain_run qs s Hs) as (s2 & Hs2 & He & Hrun). specialize (Hrun (ip_mb s)). rewrite with_own_mb in Hrun.
    change (pr_drain s) with (ip_drain s) in Hd. rewrite Hrun in Hd. unfold freeing in Hd.
    destruct (m_freem _ _) as [[? b]|]; [|done]. injection Hd as <-. right.
    destruct (IH []) as [[b' ->]|[H1 H2]]; [by apply shape_mb|..].
    + split; [by do 2 apply shape_mb|]. intros l Hl. by apply He.
    + split; [done|]. intros l Hl. rewrite H2 by apply not_elem_of_nil. by apply He.
Qed.

Section Memory.
Context {mem : Answers}.

(** The queues [qs] are the queues [A]. *)
Definition queue_is (F : gmap loc frag) (Q : gmap loc (key * Z)) (q : loc * list loc) (a : aqueue) : Prop :=
  Q !! q.1 = Some (a_key a, a_ttl a) /\ frs F q.2 (a_frags a) /\ Forall fit (a_frags a).
Definition queues_are F Q : list (loc * list loc) -> list aqueue -> Prop := Forall2 (queue_is F Q).

Lemma queues_change F F' Q Q' qs A : (forall l, l ∈ mjoin qs.*2 -> F' !! l = F !! l) -> (forall g, g ∈ qs.*1 -> Q' !! g = Q !! g) ->
  queues_are F Q qs A -> queues_are F' Q' qs A.
Proof.
  intros HF HQ Hq. induction Hq as [|[g gs] a qs A (H1 & H2 & H3) _ IH]; [constructor|]. simpl in *. constructor.
  - split_and!; [rewrite HQ; [done|left]|eapply frs_change; [|done]; intros l Hl; apply HF|done]. simpl. set_solver.
  - apply IH; intros ? ?; [apply HF|apply HQ]; set_solver.
Qed.

(** What an allocation may have done to the queues: nothing, or away with them. *)
Definition survive (qs : list (loc * list loc)) (F : gmap loc frag) (Q : gmap loc (key * Z)) (s s' : ipst)
    (qs' : list (loc * list loc)) (F' : gmap loc frag) (Q' : gmap loc (key * Z)) : Prop :=
  shape s' qs' /\ (forall l, l ∉ mjoin qs.*2 -> pkts s' !! l = pkts s !! l /\ F' !! l = F !! l) /\
  (qs' = qs /\ F' = F /\ Q' = Q \/ qs' = [] /\ None ∈ answers).

Lemma survive_id qs F Q s b : shape s qs -> survive qs F Q s (with_mb b s) qs F Q.
Proof. intros Hs. split; [by apply shape_mb|]. split; [done|by left]. Qed.

Lemma kept_view s s' F Q L Lk L' qs : shape s qs -> view s F Q L -> kept Lk s s' -> pool (ip_mb s') (ip_held s' ++ L') -> few (ip_held s' ++ L') ->
  (None ∉ malloc_ans (ip_mb s) -> exists b, s' = with_mb b s) ->
  exists qs' F' Q', view s' F' Q' L' /\ survive qs F Q s s' qs' F' Q'.
Proof.
  intros Hs Hv [Hk _ Ha] Hp Hf Hpl. assert (Hk' : keeps (ip_held s') (ip_mb s) (ip_mb s')).
  { apply (keeps_sub (ip_held s' ++ Lk)); [intros c; apply nrefs_right|done]. }
  assert (Hsame : (exists b, s' = with_mb b s) -> exists qs' F' Q', view s' F' Q' L' /\ survive qs F Q s s' qs' F' Q').
  { intros [b ->]. exists qs, F, Q. split; [|by apply survive_id]. apply (view_sub s _ F F Q Q L); done. }
  destruct (decide (Exists (fun a => a = None) (malloc_ans (ip_mb s)))) as [Hx|Hx].
  2:{ apply Hsame, Hpl. intros Hin. apply Hx, Exists_exists. eauto. }
  destruct (aside_cases s s' qs Hs Ha) as [He|[Hs' Hpk]]; [by apply Hsame|].
  exists [], (filter (fun lf => lf.1 ∉ mjoin qs.*2) F), ∅. split.
  - apply (view_sub s _ F _ Q _ L); try done. intros l f [Hl Hn]%map_lookup_filter_Some. split; [done|]. by rewrite Hpk.
  - split; [done|]. split.
    + intros l Hl. split; [by apply Hpk|]. apply option_eq. intros f. rewrite map_lookup_filter_Some. tauto.
    + right. split; [done|]. apply Exists_exists in Hx as (a & Ha' & ->). by apply (vw_ans _ _ _ _ Hv).
Qed.

(** An mbuf for a new queue. *)
Lemma table_mbuf_run s F Q L qs : shape s qs -> view s F Q L ->
  exists t s' qs' F' Q', m_get MT_FTABLE s = Some (t, s') /\ survive qs F Q s s' qs' F' Q' /\
    match t with
    | [] => view s' F' Q' L /\ None ∈ answers
    | m :: _ => view s' F' Q' (set_len 0 m :: L)
    end.
Proof.
  intros Hs Hv. assert (Hu : inuse s L) by (split; [by exists qs|apply Hv]).
  destruct (MGET_ok s L MT_FTABLE ltac:(done) Hu (vw_few _ _ _ _ Hv)) as (o & s' & Hr & _ & Hk & Ho).
  assert (Hpl : None ∉ malloc_ans (ip_mb s) -> exists b, s' = with_mb b s).
  { intros Hn. destruct (MGET_plenty MT_FTABLE s L ltac:(done) Hu Hn) as (m & b & Hr'). rewrite Hr in Hr'. injection Hr' as _ ->. by exists b. }
  exists (chain_of o), s'. unfold m_get. rewrite (bind_run _ _ _ _ _ Hr). destruct o as [m|]; simpl.
  - destruct Ho as [(Ft & Ff & Fd & Fz) Hal]. assert (Hp : pool (ip_mb s') (set_len 0 m :: ip_held s' ++ L)).
    { apply (alloc_pool _ m); [done| |done|unfold is_ext, flag_set; simpl; by rewrite Ff].
      split; simpl; [by rewrite Ft|done|done|unfold m_start, is_hdr, flag_set; simpl; by rewrite Ff, Fd|].
      unfold m_limit, is_ext, flag_set. simpl. by rewrite Ff, Fd. }
    rewrite Permutation_middle in Hp.
    assert (Hf : few (ip_held s' ++ set_len 0 m :: L)).
    { rewrite <- Permutation_middle. intros c. rewrite nrefs_cons. unfold ref1, is_ext, flag_set. simpl. rewrite Ff. simpl.
      pose proof (kept_few _ _ _ Hk (vw_few _ _ _ _ Hv) c). simpl in *. lia. }
    destruct (kept_view s s' F Q L L _ qs Hs Hv Hk Hp Hf Hpl) as (qs' & F' & Q' & Hv' & Hsv). by exists qs', F', Q'.
  - destruct Ho as [Hp Hans]. destruct (kept_view s s' F Q L L L qs Hs Hv Hk Hp (kept_few _ _ _ Hk (vw_few _ _ _ _ Hv)) Hpl)
      as (qs' & F' & Q' & Hv' & Hsv). exists qs', F', Q'. split_and!; [done|done|done|]. by apply (vw_ans _ _ _ _ Hv).
Qed.

(** What a packet with the key [k] and the fragment [x] does to the queues [A] that have none for it. *)
Definition a_new (k : key) (x : frag) (A : list aqueue) : option dgram * list aqueue :=
  match a_reass k x [] with (out, Some l) => (out, AQueue k IPFRAGTTL l :: A) | (out, None) => (out, A) end.

(** With or without a draining, or for want of memory dropped. *)
Definition as_said {B} (f : list aqueue -> option B * list aqueue) (A : list aqueue) (out : option B) (A' : list aqueue) : Prop :=
  (out, A') = f A \/ None ∈ answers /\ ((out, A') = f [] \/ out = None /\ (A' = A \/ A' = [])).

Lemma survive_queues qs F Q s s' qs' F' Q' A : survive qs F Q s s' qs' F' Q' -> queues_are F Q qs A ->
  exists A', queues_are F' Q' qs' A' /\ (A' = A \/ A' = [] /\ None ∈ answers).
Proof. intros (_ & _ & [(-> & -> & ->)|[-> Hn]]) Hq; [exists A; by split; [|left]|exists []; split; [constructor|by right]]. Qed.

(** ** A fragment of a datagram that has no queue *)

Lemma reass_new_run L k l h data s F Q qs A t z : let x := Frag (clear h) false data in
  shape s qs -> view s F Q (set_len 0 t :: L) -> queues_are F Q qs A -> F !! l = Some x -> pkts s !! l = Some z -> p_ip z = h ->
  key_of h = Some k -> fit x -> l ∉ mjoin qs.*2 ->
  exists r s' qs' F' Q', (let! f := new_queue t l in reass_insert l f (FQ f)) s = Some (r, s') /\ shape s' qs' /\ view s' F' Q' L /\
    gives s' (a_new k x A).1 r F' /\ queues_are F' Q' qs' (a_new k x A).2.
Proof.
  intros x Hs Hv HA Hx Hz Hip Hk Hfit Hl.
  destruct (new_queue_run s F Q L qs t l z h k Hs Hv Hz Hip Hk) as (f & s1 & Hrun & Hs1 & Hv1 & _ & _ & Hf). rewrite (bind_run _ _ _ _ _ Hrun).
  destruct (reass_insert_run L [] qs f k IPFRAGTTL s1 F _ [] l x [] [] [] Hs1 Hv1) as (r & s' & F' & Q' & Hins & Hv' & Ho & Hg & Hleft);
    try done; [constructor|constructor|apply lookup_insert_eq|apply not_elem_of_nil|by constructor|].
  cbn [app] in *. assert (HA' : forall Q2, (forall g, g ∈ qs.*1 -> Q2 !! g = Q !! g) -> queues_are F' Q2 qs A).
  { intros Q2 HQ2. eapply queues_change; [|exact HQ2|exact HA]. intros j Hj. apply Ho. intros ->%list_elem_of_singleton. done. }
  assert (Hne : forall g, g ∈ qs.*1 -> g <> f) by (by intros g Hg' ->).
  unfold a_new. change (a_reass k x []) with (a_done k [x]). destruct (a_done k [x]) as [out [fs|]]; simpl in *.
  - destruct Hleft as (-> & Hfs & ls & Hs' & Hls & _). exists r, s', ((f, ls) :: qs), F', (<[f := (k, IPFRAGTTL)]> Q).
    split_and!; try done. constructor; [split_and!; [apply lookup_insert_eq|done|done]|]. apply HA'. intros g Hg'.
    by rewrite lookup_insert_ne by (by apply not_eq_sym, Hne).
  - destruct Hleft as [-> Hs']. exists r, s', qs, F', (delete f (<[f := (k, IPFRAGTTL)]> Q)).
    split_and!; try done. apply HA'. intros g Hg'. assert (f <> g) by (by apply not_eq_sym, Hne). by rewrite lookup_delete_ne, lookup_insert_ne.
Qed.

Lemma reass_none L k l h data s F Q qs A : let x := Frag (clear h) false data in
  shape s qs -> view s F Q L -> queues_are F Q qs A -> arrived s qs F l h data -> fit x -> key_of h = Some k ->
  exists r s' qs' F' Q' out A', ip_reass l None s = Some (r, s') /\ shape s' qs' /\ view s' F' Q' L /\ queues_are F' Q' qs' A' /\
    gives s' out r F' /\ as_said (a_new k x) A out A'.
Proof.
  intros x Hs Hv HA [Hout HF (z & Hz & Hvis & Hext)] Hfit Hk.
  destruct (hide_ok Q s F L l z h data Hv HF Hz Hvis Hext) as (s1 & Hhide & He1 & Hv1 & z1 & Hz1 & Hip1). fold x in Hv1.
  assert (Hs1 : shape s1 qs) by (by eapply shape_same).
  assert (HA1 : queues_are (<[l := x]> F) Q qs A).
  { eapply queues_change; [|done|exact HA]. intros j Hj. rewrite lookup_insert_ne; [done|by intros ->]. }
  unfold ip_reass. rewrite (bind_run _ _ _ _ _ (pkt_run _ _ _ Hz)), (vs_ip _ _ _ _ _ Hvis). fold (hdr_len h).
  rewrite (bind_run _ _ _ _ _ Hhide). destruct (table_mbuf_run s1 _ Q L qs Hs1 Hv1) as (t & s2 & qs2 & F2 & Q2 & Hget & Hsv & Ht).
  rewrite (bind_run _ _ _ _ _ Hget). pose proof Hsv as (Hs2 & Hsame & _). destruct (Hsame l Hout) as [Hz2 Hx2].
  rewrite lookup_insert_eq in Hx2. rewrite Hz1 in Hz2. destruct (survive_queues _ _ _ _ _ _ _ _ _ Hsv HA1) as (A2 & HA2 & HA2').
  destruct t as [|t rest].
  - destruct Ht as [Hv2 Hlack]. destruct (dropfrag_run L s2 F2 Q2 l x Hv2 Hx2) as (s3 & Hdrop & He3 & Hv3).
    assert (Hl2 : l ∉ mjoin qs2.*2) by (destruct Hsv as (_ & _ & [(-> & _)|[-> _]]); [done|apply not_elem_of_nil]).
    exists None, s3, qs2, (delete l F2), Q2, None, A2. split_and!; [done|by eapply shape_same|done| |done|].
    + eapply queues_change; [|done|exact HA2]. intros j Hj. rewrite lookup_delete_ne; [done|by intros ->].
    + right. split; [done|]. right. split; [done|]. destruct HA2' as [->|[-> _]]; [by left|by right].
  - assert (Hl2 : l ∉ mjoin qs2.*2) by (destruct Hsv as (_ & _ & [(-> & _)|[-> _]]); [done|apply not_elem_of_nil]).
    destruct (reass_new_run L k l h data s2 F2 Q2 qs2 A2 t z1 Hs2 Ht HA2 Hx2 Hz2 Hip1 Hk Hfit Hl2) as (r & s' & qs' & F' & Q' & Hrun & I1 & I2 & I3 & I4).
    eexists r, s', qs', F', Q', _, _. split_and!; [exact Hrun|done|done|exact I4|exact I3|]. fold x. unfold as_said. rewrite <- surjective_pairing.
    destruct HA2' as [->|[-> Hn]]; [by left|by right; split; [|left]].
Qed.

(** ** The queue of a datagram *)

Lemma qnext_at s qs1 f ls qs2 : shape s (qs1 ++ (f, ls) :: qs2) -> get_next queue_link (QQ f) s = Some (first (QQ <$> qs2.*1) QStatic, s).
Proof.
  intros [Hr _ _]. rewrite !fmap_app, !fmap_cons in Hr. apply get_next_run. by apply (ring_middle queue_link) in Hr as (_ & ? & _).
Qed.

(** The place of the queue with the key [k]. *)
Definition found F Q (k : key) (qs : list (loc * list loc)) (A : list aqueue) (r : ptr) : Prop :=
  match a_find k A with
  | Some (A1, a, A2) => exists qs1 f ls qs2, qs = qs1 ++ (f, ls) :: qs2 /\ r = Some f /\ queues_are F Q qs1 A1 /\
      queue_is F Q (f, ls) a /\ queues_are F Q qs2 A2 /\ a_key a = k /\ A = A1 ++ a :: A2
  | None => r = None
  end.

Lemma find_queue_run L h k s F Q qs1 qs2 A fuel : shape s (qs1 ++ qs2) -> view s F Q L -> queues_are F Q qs2 A -> key_of h = Some k ->
  (length qs2 < fuel)%nat -> exists r, find_queue fuel h (first (QQ <$> qs2.*1) QStatic) s = Some (r, s) /\ found F Q k qs2 A r.
Proof.
  intros Hs Hv. revert qs1 A fuel Hs. induction qs2 as [|[f ls] qs2 IH]; intros qs1 A [|fuel] Hs HA Hk Hfuel; simpl in Hfuel; try lia.
  - inversion HA; subst. by exists None.
  - inversion HA as [|? a ? A' Ha HA']; subst. pose proof Ha as (HQ & _). simpl in HQ.
    destruct (vw_queue _ _ _ _ Hv f _ HQ) as (q & Hq & Hkey & _). simpl in Hkey.
    cbn [fmap list_fmap first find_queue fst]. rewrite (bind_run _ _ _ _ _ (ipq_run _ _ _ Hq)). unfold found. cbn [a_find].
    assert (Htest : forall src dst, Key (ip_id h) src dst (ip_p h) = k ->
      (ip_id h =? ipq_id q) && (src =? ipq_src q) && (dst =? ipq_dst q) && (ip_p h =? ipq_p q) = bool_decide (a_key a = k)).
    { intros src dst <-. rewrite <- Hkey. unfold queue_key. apply eq_true_iff_eq. rewrite bool_decide_eq_true, !andb_true_iff, !Z.eqb_eq.
      split; [by intros [[[-> ->] ->] ->]|by intros [= -> -> -> ->]]. }
    pose proof Hk as Hk0. unfold key_of in Hk. destruct (ip_src h) as [src|]; [|done]. destruct (ip_dst h) as [dst|]; [|done].
    injection Hk as Hk. rewrite (Htest src dst Hk). destruct (decide (a_key a = k)) as [Hak|Hne].
    + rewrite bool_decide_eq_true_2 by done. exists (Some f). split; [done|]. exists [], f, ls, qs2. split_and!; try done. constructor.
    + rewrite bool_decide_eq_false_2 by done. rewrite (bind_run _ _ _ _ _ (qnext_at s qs1 f ls qs2 Hs)).
      rewrite cons_middle, app_assoc in Hs. destruct (IH (qs1 ++ [(f, ls)]) A' fuel Hs HA' Hk0 ltac:(lia)) as (r & Hrun & Hf).
      exists r. split; [done|]. unfold found in Hf. destruct (a_find k A') as [[[A1 b] A2]|]; [|done].
      destruct Hf as (qs3 & g & gs & qs4 & -> & -> & H1 & H2 & H3 & H4 & ->). exists ((f, ls) :: qs3), g, gs, qs4.
      split_and!; try done. by constructor.
Qed.

(** ** A packet in a cluster *)

(** The packet [l] has come; a fragment in a cluster has no options. *)
Record incoming (s : ipst) (qs : list (loc * list loc)) (F : gmap loc frag) (l : loc) (h : ip) (data : list Z) : Prop := {
  ic_out : l ∉ mjoin qs.*2;
  ic_frag : F !! l = None;
  ic_pkt : exists z, pkts s !! l = Some z /\ visible (ip_mb s) z h data false /\
    match p_m z with m :: _ => is_ext m = true -> is_frag h = true -> hdr_len h = IP_HDR | [] => False end }.

Lemma pullup_kept plen s F Q L x r qs : 0 < plen -> shape s qs -> view s F Q ((x :: r) ++ L) ->
  exists out s' qs' F' Q', m_pullup (x :: r) plen s = Some (out, s') /\ survive qs F Q s s' qs' F' Q' /\ view s' F' Q' (out ++ L) /\
    pullup_result s x r L plen out s'.
Proof.
  intros Hplen Hs Hv. assert (Hu : inuse s ((x :: r) ++ L)) by (split; [by exists qs|apply Hv]).
  destruct (m_pullup_ok s x r L plen Hu (vw_few _ _ _ _ Hv) Hplen (vw_proto _ _ _ _ Hv)) as (out & s' & Hr & Hres).
  exists out, s'. pose proof Hres as [Hk Hcase].
  assert (Hpl : None ∉ malloc_ans (ip_mb s) -> exists b, s' = with_mb b s) by (intros Hn; exact (m_pullup_plenty s x r L _ out s' Hu Hn Hr)).
  assert (Hu' : inuse s' (out ++ L)) by (destruct Hcase as [(? & _)|(-> & ? & _)]; done).
  assert (Hf : few (ip_held s' ++ out ++ L)).
  { assert (Hn : forall c, nrefs c out <= nrefs c (x :: r)).
    { destruct Hcase as [(_ & _ & ? & _)|(-> & _)]; [done|]. intros c. apply nrefs_nonneg. }
    intros c. specialize (Hn c). pose proof (vw_few _ _ _ _ Hv c) as Hc. pose proof (kt_held _ _ _ Hk c) as Hh. simpl in Hh.
    rewrite !nrefs_app in *. lia. }
  destruct (kept_view s s' F Q ((x :: r) ++ L) L (out ++ L) qs Hs Hv Hk (proj2 Hu') Hf Hpl) as (qs' & F' & Q' & Hv' & Hsv).
  by exists qs', F', Q'.
Qed.

(** The mbufs [out] go to the packet [l], which has none. *)
Lemma give_mbufs s F Q L l x y out : view s F Q (out ++ L) -> F !! l = None -> pkts s !! l = Some x -> p_m x = [] -> p_m y = out ->
  view (put_pkt l y s) F Q L.
Proof.
  intros Hv HF Hx Hxm Hym. destruct (view_chain s F Q (out ++ L) l x Hv Hx) as (_ & Hp & Hf). rewrite Hxm in Hp, Hf.
  rewrite <- (with_own_mb (put_pkt _ _ _)). apply (view_put s F _ Q (out ++ L)); [done|done| | | |apply keeps_refl].
  - intros f Hl. congruence.
  - rewrite Hym. by rewrite Permutation_app_swap_app.
  - rewrite Hym. by rewrite Permutation_app_swap_app.
Qed.

Lemma pull_header_run L l h data s F Q qs A : shape s qs -> view s F Q L -> queues_are F Q qs A -> incoming s qs F l h data -> is_frag h = true ->
  exists ok s' qs' F' Q' A', pull_header l s = Some (ok, s') /\ shape s' qs' /\ view s' F' Q' L /\ queues_are F' Q' qs' A' /\
    (A' = A \/ A' = [] /\ None ∈ answers) /\ if ok then arrived s' qs' F' l h data else None ∈ answers.
Proof.
  intros Hs Hv HA [Hout HF (z & Hz & Hvis & Hext)] Hfrag. unfold pull_header. rewrite (bind_run _ _ _ _ _ (pkt_run _ _ _ Hz)).
  destruct (p_m z) as [|m r] eqn:Em; [done|]. destruct (is_ext m) eqn:Ex.
  2:{ exists true, s, qs, F, Q, A. split_and!; try done; [by left|]. split; [done|done|]. exists z. by rewrite Em. }
  specialize (Hext eq_refl Hfrag). rewrite (bind_run _ _ _ _ _ (upd_pkt_run s l z _ Hz)). set (s1 := put_pkt l (set_m [] z) s).
  pose proof (view_take s F Q L l z Hv Hz) as Hv1. rewrite (delete_id F), Em in Hv1 by done. fold s1 in Hv1.
  assert (Hs1 : shape s1 qs) by (eapply shape_same; [|exact Hs]; by eapply put_pkt_edits).
  destruct (pullup_kept IP_HDR s1 F Q L m r qs ltac:(done) Hs1 Hv1) as (out & s2 & qs2 & F2 & Q2 & Hrun & Hsv & Hv2 & _ & Hres).
  rewrite (bind_run _ _ _ _ _ Hrun). pose proof Hsv as (Hs2 & Hsame & _). destruct (Hsame l Hout) as [Hz2 HF2]. rewrite HF in HF2.
  change (pkts s1 !! l) with (<[l := set_m [] z]> (pkts s) !! l) in Hz2. rewrite lookup_insert_eq in Hz2.
  destruct (survive_queues _ _ _ _ _ _ _ _ _ Hsv HA) as (A2 & HA2 & HA2').
  destruct Hvis as [V1 V2 V3 V4 V5 V6]. rewrite Em in V3, V4, V5, V6.
  destruct Hres as [(Hu & Hb & _ & y & q & -> & Hy1 & Hy2 & Hy3 & Hy4)|(-> & _ & Hwhy)].
  2:{ unfold count. rewrite bind_mod. eexists false, _, qs2, F2, Q2, A2.
      split_and!; [done|by eapply shape_same; [|exact Hs2]|by apply view_ips|done|done|].
      destruct Hwhy as [Hn|[Hlt|Hlt]]; [by apply (vw_ans _ _ _ _ Hv)| |done]. rewrite Hext in V4. pose proof (zlen_nonneg data). lia. }
  change (cbytes (ip_mb s2) (y :: q) = cbytes (ip_mb s) (m :: r)) in Hb.
  rewrite (bind_run _ _ _ _ _ (upd_pkt_run s2 l _ _ Hz2)). set (z' := Packet _ _ _).
  exists true, (put_pkt l z' s2), qs2, F2, Q2, A2. pose proof (give_mbufs s2 F2 Q2 L l _ z' (y :: q) Hv2 HF2 Hz2 eq_refl eq_refl) as Hv3.
  assert (Hlen : m_length (y :: q) = m_length (m :: r)).
  { destruct (view_chain _ _ _ _ l z' Hv3 (lookup_insert_eq _ _ _)) as (Hs3 & _). destruct (view_chain s F Q L l z Hv Hz) as (Hs0 & _).
    rewrite Em in Hs0. change (ip_mb (put_pkt l z' s2)) with (ip_mb s2) in Hs3. change (p_m z') with (y :: q) in Hs3.
    rewrite <- (cbytes_len _ _ Hs3), <- (cbytes_len _ _ Hs0). by rewrite Hb. }
  split_and!; [done| |done|done|done|].
  - eapply shape_same; [|exact Hs2]. by eapply put_pkt_edits.
  - split; [|done|exists z'; split_and!; [apply lookup_insert_eq| |done]].
    + destruct Hsv as (_ & _ & [(-> & _)|[-> _]]); [done|apply not_elem_of_nil].
    + split; [done|done|by change (ip_mb (put_pkt l z' s2)) with (ip_mb s2); rewrite <- V3; simpl; rewrite Hb|by simpl in *; lia| |].
      * simpl. split; [by rewrite Hext|done].
      * unfold hdr_ok in *. simpl. rewrite Hy3. intros Hm. rewrite (Hy4 Hm), (V6 Hm). simpl in *. lia.
Qed.

(** ** The packet goes to reassembly or to its protocol *)

(** The queues beside one that changes. *)
Lemma others_apart s qs1 f ls qs2 : shape s (qs1 ++ (f, ls) :: qs2) ->
  (f ∉ (qs1 ++ qs2).*1) /\ forall j, j ∈ mjoin (qs1 ++ qs2).*2 -> j ∉ ls.
Proof.
  intros Hs. split.
  - intros (q & -> & Hin)%list_elem_of_fmap. destruct (shape_others _ _ _ _ _ _ Hs Hin) as [Hf _]. set_solver.
  - intros j (gs & Hj & (q & -> & Hin)%list_elem_of_fmap)%list_elem_of_join. by apply (shape_others _ _ _ _ _ _ Hs Hin).
Qed.
Lemma queues_beside s F F' Q Q' qs1 f ls qs2 A1 A2 : shape s (qs1 ++ (f, ls) :: qs2) ->
  (forall j, j ∈ mjoin (qs1 ++ qs2).*2 -> F' !! j = F !! j) -> (forall g, g <> f -> Q' !! g = Q !! g) ->
  queues_are F Q qs1 A1 -> queues_are F Q qs2 A2 -> queues_are F' Q' qs1 A1 /\ queues_are F' Q' qs2 A2.
Proof.
  intros Hs HF HQ H1 H2. pose proof (others_apart _ _ _ _ _ Hs) as [Hf _]. rewrite fmap_app in Hf. rewrite fmap_app, join_app in HF.
  split; (eapply queues_change; [| |done]; intros j Hj; [apply HF|apply HQ; intros ->; apply Hf]; apply elem_of_app); [by left|by left|by right|by right].
Qed.

Definition queue_rest (a : aqueue) (rest : option (list frag)) : list aqueue :=
  match rest with Some fs => [AQueue (a_key a) (a_ttl a) fs] | None => [] end.

Lemma left_queues s s' F F' Q Q' qs1 f ls qs2 A1 a A2 l rest X : shape s (qs1 ++ (f, ls) :: qs2) -> l ∉ mjoin (qs1 ++ (f, ls) :: qs2).*2 ->
  (forall j, j ∉ l :: ls -> F' !! j = F !! j) -> queues_are F Q qs1 A1 -> queues_are F Q qs2 A2 -> queue_is F Q (f, ls) a ->
  left_with s' qs1 f qs2 F' Q Q' rest X -> exists qs', shape s' qs' /\ queues_are F' Q' qs' (A1 ++ queue_rest a rest ++ A2).
Proof.
  intros Hs Hl HF H1 H2 (HQ & _) Hleft.
  assert (HQ' : forall g, g <> f -> Q' !! g = Q !! g).
  { destruct rest as [fs|]; [by destruct Hleft as [-> _]|]. destruct Hleft as [-> _]. intros g Hg. by rewrite lookup_delete_ne. }
  assert (HF' : forall j, j ∈ mjoin (qs1 ++ qs2).*2 -> F' !! j = F !! j).
  { intros j Hj. apply HF. pose proof (proj2 (others_apart _ _ _ _ _ Hs) j Hj). apply not_elem_of_cons. split; [|done].
    intros ->. apply Hl. rewrite !fmap_app, fmap_cons, !join_app in *. simpl. set_solver. }
  destruct (queues_beside s F F' Q Q' qs1 f ls qs2 A1 A2 Hs HF' HQ' H1 H2) as [B1 B2]. destruct rest as [fs|]; simpl in *.
  - destruct Hleft as (-> & Hfit & ks & Hs' & Hks & _). exists (qs1 ++ (f, ks) :: qs2). split; [done|].
    apply Forall2_app; [done|]. by constructor.
  - destruct Hleft as [_ Hs']. exists (qs1 ++ qs2). split; [done|]. by apply Forall2_app.
Qed.

(** ** The packet goes to reassembly or to its protocol *)

(** The fields of the header tell the length of the packet. *)
Definition proper (h : ip) (data : list Z) : Prop := ip_len h = hdr_len h + zlen data /\ ip_len h < 32768.

(** What the code does with the packet is what is said of it. *)
Definition hands (s : ipst) (out : option dgram) (o : outcome) (hlen : Z) (F : gmap loc frag) : Prop :=
  match out, o with
  | None, Gone => True
  | Some d, Deliver l n => n = hlen /\ F !! l = None /\ exists z, pkts s !! l = Some z /\ visible (ip_mb s) z (d_hd d) (d_data d) (d_cut d)
  | _, _ => False
  end.

(** The packet gets another header of the same size. *)
Lemma set_header L s qs F Q l z h h' f data cut : shape s qs -> view s F Q L -> F !! l = None -> pkts s !! l = Some z ->
  visible (ip_mb s) z h data cut -> f h = h' -> ip_hl h' = ip_hl h -> ip_src h' = ip_src h -> ip_dst h' = ip_dst h ->
  exists s', upd_ip l f s = Some (tt, s') /\ shape s' qs /\ view s' F Q L /\ pkts s' !! l = Some (set_ip h' z) /\
    visible (ip_mb s') (set_ip h' z) h' data cut.
Proof.
  intros Hs Hv HF Hz [V1 V2 V3 V4 V5 V6] Hf Hhl Hsrc Hdst.
  assert (Hh : hdr_len h' = hdr_len h) by (unfold hdr_len; by rewrite Hhl).
  destruct (view_chain s F Q L l z Hv Hz) as (_ & Hp & Hfew). exists (put_pkt l (set_ip h' z) s). split_and!.
  - unfold upd_ip. rewrite (upd_pkt_run _ _ _ _ Hz). by rewrite V1, Hf.
  - eapply shape_same; [|exact Hs]. apply (put_pkt_edits s l z); simpl; by rewrite ?V1.
  - rewrite <- (with_own_mb (put_pkt _ _ _)). apply (view_put s F _ Q L); try done. intros g Hg. congruence.
  - apply lookup_insert_eq.
  - split; [done|by rewrite Hh..|done].
Qed.

Lemma deliver_run L s qs F Q l hlen : shape s qs -> view s F Q L -> exists s', deliver l hlen s = Some (Deliver l hlen, s') /\ shape s' qs /\
  view s' F Q L /\ pkts s' = pkts s /\ ip_mb s' = ip_mb s.
Proof.
  intros Hs Hv. eexists. split; [done|]. split_and!; [by eapply shape_same; [|exact Hs]|by apply view_ips|done|done].
Qed.

(** A queue is freed: the others, and the packets in no queue, are as they were. *)
Lemma freef_queues L s qs1 f ls qs2 F Q A1 A2 : shape s (qs1 ++ (f, ls) :: qs2) -> view s F Q L ->
  queues_are F Q qs1 A1 -> queues_are F Q qs2 A2 ->
  exists s' F' Q', ip_freef f s = Some (tt, s') /\ shape s' (qs1 ++ qs2) /\ view s' F' Q' L /\ queues_are F' Q' qs1 A1 /\ queues_are F' Q' qs2 A2 /\
    (forall l, F !! l = None -> F' !! l = None) /\ forall l z, l ∉ ls -> pkts s !! l = Some z ->
      pkts s' !! l = Some z /\ cbytes (ip_mb s') (p_m z) = cbytes (ip_mb s) (p_m z).
Proof.
  intros Hs Hv H1 H2. destruct (ip_freef_run qs1 f ls qs2 s Hs) as (s1 & Hs1 & He & Hrun). set (F' := filter (fun lf => lf.1 ∉ ls) F).
  destruct (view_freeing [f] ls _ s s1 F F' Q (delete f Q) L Hv He) as (b & Hfr & Hv1 & Hk).
  { apply map_filter_subseteq. } { apply delete_subseteq. }
  { intros j Hj. apply map_lookup_filter_None. right. intros ? _ Hn. by apply Hn. }
  { intros j ->%list_elem_of_singleton. apply lookup_delete_eq. }
  specialize (Hrun (ip_mb s)). rewrite with_own_mb, Hfr in Hrun.
  destruct (queues_beside s F F' Q (delete f Q) qs1 f ls qs2 A1 A2 Hs) as [B1 B2]; [| |done|done|].
  { intros j Hj. pose proof (proj2 (others_apart _ _ _ _ _ Hs) j Hj). apply option_eq. intros g. unfold F'. rewrite map_lookup_filter_Some. simpl. tauto. }
  { intros g Hg. by rewrite lookup_delete_ne. }
  exists (with_mb b s1), F', (delete f Q). split_and!; [done|by apply shape_mb|done|done|done| |].
  - intros l Hl. apply map_lookup_filter_None. by left.
  - intros l z Hl Hz. assert (Hz1 : pkts s1 !! l = Some z) by (by rewrite (em_pkts _ _ _ _ _ He)). split; [done|].
    change (ip_mb (with_mb b s1)) with b. apply (keeps_cbytes _ _ _ _ Hk). intros m Hm. apply elem_of_app. left. by apply (pkts_held s1 l z).
Qed.

(** A fragment, its header adjusted, with or without a queue for its datagram. *)
Lemma reass_run L k l h data s F Q qs A r : let x := Frag (clear h) false data in
  shape s qs -> view s F Q L -> queues_are F Q qs A -> arrived s qs F l h data -> fit x -> key_of h = Some k -> found F Q k qs A r ->
  exists r' s' qs' F' Q' out A', ip_reass l r s = Some (r', s') /\ shape s' qs' /\ view s' F' Q' L /\ queues_are F' Q' qs' A' /\
    gives s' out r' F' /\ as_said (fun A => match a_find k A with
      | Some (A1, a, A2) => let '(out, rest) := a_reass k x (a_frags a) in (out, A1 ++ queue_rest a rest ++ A2)
      | None => a_new k x A end) A out A'.
Proof.
  intros x Hs Hv HA Har Hfit Hk Hfound. unfold found in Hfound. destruct (a_find k A) as [[[A1 a] A2]|] eqn:Ef.
  - destruct Hfound as (qs1 & f & ls & qs2 & -> & -> & H1 & Ha & H2 & Hak & _). pose proof Ha as (HQ & Hfs & Hfits). simpl in HQ, Hfs. rewrite Hak in HQ.
    destruct (reass_some L k l h data s F Q qs1 f ls (a_frags a) qs2 (a_ttl a) Hs Hv Hfs Hfits HQ Har Hfit)
      as (r' & s' & F' & Q' & Hrun & Hv' & Ho & Hg & Hleft).
    destruct (left_queues s s' F F' Q Q' qs1 f ls qs2 A1 a A2 l _ _ Hs (ar_out _ _ _ _ _ _ Har) Ho H1 H2 Ha Hleft) as (qs' & Hs' & HA').
    fold x in Hg, HA'. exists r', s', qs', F', Q', (a_reass k x (a_frags a)).1, (A1 ++ queue_rest a (a_reass k x (a_frags a)).2 ++ A2).
    split_and!; try done. left. rewrite Ef. by destruct (a_reass k x (a_frags a)).
  - subst r. destruct (reass_none L k l h data s F Q qs A Hs Hv HA Har Hfit Hk) as (r' & s' & qs' & F' & Q' & out & A' & Hrun & I1 & I2 & I3 & I4 & I5).
    exists r', s', qs', F', Q', out, A'. split_and!; try done. fold x in I5. unfold as_said in *. by rewrite Ef.
Qed.

Lemma a_ours_frag h data k : is_frag h = true -> key_of h = Some k -> let h' := frag_fields (hdr_len h) h in
  (forall A, a_ours h (hdr_len h) data A = if ztrue (ip_tos h') || ztrue (ip_off h') then
    match a_find k A with
    | Some (A1, a, A2) => let '(out, rest) := a_reass k (Frag (clear h') false data) (a_frags a) in (out, A1 ++ queue_rest a rest ++ A2)
    | None => a_new k (Frag (clear h') false data) A
    end else match a_find k A with Some (A1, a, A2) => (Some (Dgram h' data false), A1 ++ A2) | None => (Some (Dgram h' data false), A) end).
Proof.
  intros Hf Hk h' A. unfold a_ours. rewrite Hf, Hk. fold h'. destruct (a_find k A) as [[[A1 a] A2]|]; [|by destruct (_ || _)].
  destruct (_ || _); [|done]. by destruct (a_reass _ _ _) as [out [fs|]].
Qed.

(** What [as_said] of the queues left by a draining says of the queues before it. *)
Lemma said_drained {B} (f : list aqueue -> option B * list aqueue) A A1 out A' : A1 = A \/ A1 = [] /\ None ∈ answers ->
  as_said f A1 out A' -> as_said f A out A'.
Proof. intros [->|[-> Hn]]; [done|]. intros [H|(_ & [H|[H1 H2]])]; right; (split; [done|]); [by left|by left|right; tauto]. Qed.

Lemma frag_proper h data : proper h data -> 0 <= hdr_len h -> fit (Frag (clear (frag_fields (hdr_len h) h)) false data).
Proof.
  intros [Hp Hl] Hh. pose proof (zlen_nonneg data). unfold fit, f_len. simpl. rewrite s16_id by (unfold is_s16; lia). lia.
Qed.

(** A packet that is not a fragment. *)
Lemma whole_packet_run L l h data s F Q qs A : shape s qs -> view s F Q L -> queues_are F Q qs A -> incoming s qs F l h data -> is_frag h = false ->
  exists o s' qs' F' Q', ip_ours l (hdr_len h) s = Some (o, s') /\ shape s' qs' /\ view s' F' Q' L /\
    queues_are F' Q' qs' (a_ours h (hdr_len h) data A).2 /\ hands s' (a_ours h (hdr_len h) data A).1 o (hdr_len h) F'.
Proof.
  intros Hs Hv HA [Hout HF (z & Hz & Hvis & _)] Hf. unfold ip_ours, a_ours. rewrite Hf, (bind_run _ _ _ _ _ (pkt_run _ _ _ Hz)), (vs_ip _ _ _ _ _ Hvis).
  unfold is_frag in Hf. rewrite Hf.
  destruct (set_header L s qs F Q l z h _ (fun h' => set_iplen (s16 (ip_len h' - hdr_len h)) h') data false Hs Hv HF Hz Hvis eq_refl eq_refl eq_refl eq_refl)
    as (s1 & Hup & Hs1 & Hv1 & Hz1 & Hvis1). rewrite (bind_run _ _ _ _ _ Hup).
  destruct (deliver_run L s1 qs F Q l (hdr_len h) Hs1 Hv1) as (s2 & Hd & Hs2 & Hv2 & Hp2 & Hb2).
  eexists _, s2, qs, F, Q. split_and!; [exact Hd|done|done|done|]. simpl. split_and!; [done|done|]. rewrite Hp2, Hb2. eauto.
Qed.

(** From the search for the queue of a fragment, whose header is in an mbuf of its own. *)
Definition frag_tail (l : loc) (hlen : Z) : K ipst outcome :=
  let! x := pkt l in
  let! fuel := kgets all_queues in
  let! n := get_next queue_link QStatic in
  let! fp := find_queue fuel (p_ip x) n in
  do! upd_ip l (frag_fields hlen) in
  let! x := pkt l in
  if ztrue (ip_tos (p_ip x)) || ztrue (ip_off (p_ip x)) then
    do! count ips_fragments in
    let! r := ip_reass l fp in
    match r with
    | None => kret Gone
    | Some l => do! count ips_reassembled in deliver l hlen
    end
  else
    do! (match fp with Some f => ip_freef f | None => kret tt end) in
    deliver l hlen.

Lemma reassembled_run L s qs F Q r out hlen : shape s qs -> view s F Q L -> gives s out r F ->
  exists o s', (match r with None => kret Gone | Some l => do! count ips_reassembled in deliver l hlen end) s = Some (o, s') /\ shape s' qs /\
    view s' F Q L /\ hands s' out o hlen F.
Proof.
  intros Hs Hv Hg. destruct out as [d|], r as [l|]; try done; [|by exists Gone, s].
  destruct Hg as (HF & z & Hz & Hvis). unfold count. rewrite bind_mod. set (s1 := with_ips _ s).
  destruct (deliver_run L s1 qs F Q l hlen) as (s2 & Hd & Hs2 & Hv2 & Hp2 & Hb2); [by eapply shape_same; [|exact Hs]|by apply view_ips|].
  exists (Deliver l hlen), s2. split_and!; [done|done|done|]. simpl. split_and!; [done|done|]. rewrite Hp2, Hb2. eauto.
Qed.

Lemma frag_tail_run L l h data k s F Q qs A : shape s qs -> view s F Q L -> queues_are F Q qs A -> arrived s qs F l h data ->
  is_frag h = true -> proper h data -> key_of h = Some k ->
  exists o s' qs' F' Q' out A', frag_tail l (hdr_len h) s = Some (o, s') /\ shape s' qs' /\ view s' F' Q' L /\ queues_are F' Q' qs' A' /\
    hands s' out o (hdr_len h) F' /\ as_said (a_ours h (hdr_len h) data) A out A'.
Proof.
  intros Hs Hv HA [Hout HF (z & Hz & Hvis & Hext)] Hfrag Hprop Hk. set (h' := frag_fields (hdr_len h) h).
  pose proof (a_ours_frag h data k Hfrag Hk) as Hours. fold h' in Hours. cbv zeta in Hours.
  destruct (find_queue_run L h k s F Q [] qs A (all_queues s) Hs Hv HA Hk (queues_fuel _ _ Hs)) as (fp & Hfind & Hfound).
  destruct (set_header L s qs F Q l z h h' (frag_fields (hdr_len h)) data false Hs Hv HF Hz Hvis eq_refl eq_refl eq_refl eq_refl)
    as (s1 & Hup & Hs1 & Hv1 & Hz1 & Hvis1).
  unfold frag_tail. rewrite (bind_run _ _ _ _ _ (pkt_run _ _ _ Hz)), bind_gets, (vs_ip _ _ _ _ _ Hvis).
  rewrite (bind_run _ _ _ _ _ (get_next_run _ _ _ _ (qring_first s qs Hs))), (bind_run _ _ _ _ _ Hfind), (bind_run _ _ _ _ _ Hup).
  rewrite (bind_run _ _ _ _ _ (pkt_run _ _ _ Hz1)). cbn [p_ip set_ip].
  destruct (ztrue (ip_tos h') || ztrue (ip_off h')) eqn:Emore.
  - unfold count. rewrite bind_mod. set (s2 := with_ips _ s1).
    assert (Har : arrived s2 qs F l h' data) by (split; [done|done|]; exists (set_ip h' z); by split_and!).
    destruct (reass_run L k l h' data s2 F Q qs A fp) as (r & s3 & qs3 & F3 & Q3 & out & A' & Hrun & Hs3 & Hv3 & HA3 & Hg3 & Hsaid);
      [by eapply shape_same; [|exact Hs1]|by apply view_ips|done|done|by apply frag_proper, (vs_hlen _ _ _ _ _ Hvis)|done|done|].
    rewrite (bind_run _ _ _ _ _ Hrun). destruct (reassembled_run L s3 qs3 F3 Q3 r out (hdr_len h) Hs3 Hv3 Hg3) as (o & s4 & Hend & Hs4 & Hv4 & Hh4).
    exists o, s4, qs3, F3, Q3, out, A'. split_and!; try done. unfold as_said in *. by rewrite !Hours.
  - assert (Hfree : exists s2 qs2 F2 Q2 A2, (match fp with Some f => ip_freef f | None => kret tt end) s1 = Some (tt, s2) /\ shape s2 qs2 /\
      view s2 F2 Q2 L /\ queues_are F2 Q2 qs2 A2 /\ F2 !! l = None /\ pkts s2 !! l = Some (set_ip h' z) /\
      visible (ip_mb s2) (set_ip h' z) h' data false /\ (Some (Dgram h' data false), A2) = a_ours h (hdr_len h) data A).
    { unfold found in Hfound. rewrite Hours. destruct (a_find k A) as [[[A1 a] A2]|].
      - destruct Hfound as (qs1 & f & ls & qs2 & -> & -> & H1 & Ha & H2 & _ & _).
        destruct (freef_queues L s1 qs1 f ls qs2 F Q A1 A2 Hs1 Hv1 H1 H2) as (s2 & F2 & Q2 & Hrun & J1 & J2 & J3 & J4 & J5 & J6).
        assert (Hll : l ∉ ls) by (rewrite fmap_app, fmap_cons, join_app in Hout; simpl in Hout; set_solver).
        destruct (J6 l _ Hll Hz1) as [J7 J8]. destruct Hvis1. rewrite <- J8 in *.
        exists s2, (qs1 ++ qs2), F2, Q2, (A1 ++ A2). split_and!; [done|done|done|by apply Forall2_app|by apply J5|done|by split|done].
      - subst fp. exists s1, qs, F, Q, A. by split_and!. }
    destruct Hfree as (s2 & qs2 & F2 & Q2 & A2 & Hrun & Hs2 & Hv2 & HA2 & HF2 & Hz2 & Hvis2 & Hsaid). rewrite (bind_run _ _ _ _ _ Hrun).
    destruct (deliver_run L s2 qs2 F2 Q2 l (hdr_len h) Hs2 Hv2) as (s3 & Hd & Hs3 & Hv3 & Hp3 & Hb3).
    exists (Deliver l (hdr_len h)), s3, qs2, F2, Q2, (Some (Dgram h' data false)), A2. split_and!; try done; [|by left].
    simpl. split_and!; [done|done|]. rewrite Hp3, Hb3. eauto.
Qed.

Lemma ip_ours_run L l h data k s F Q qs A : shape s qs -> view s F Q L -> queues_are F Q qs A -> incoming s qs F l h data ->
  proper h data -> key_of h = Some k ->
  exists o s' qs' F' Q' out A', ip_ours l (hdr_len h) s = Some (o, s') /\ shape s' qs' /\ view s' F' Q' L /\ queues_are F' Q' qs' A' /\
    hands s' out o (hdr_len h) F' /\ as_said (a_ours h (hdr_len h) data) A out A'.
Proof.
  intros Hs Hv HA Hin Hprop Hk. destruct (is_frag h) eqn:Hfrag.
  2:{ destruct (whole_packet_run L l h data s F Q qs A Hs Hv HA Hin Hfrag) as (o & s' & qs' & F' & Q' & Hrun & I1 & I2 & I3 & I4).
      eexists o, s', qs', F', Q', _, _. split_and!; [done|done|done|exact I3|exact I4|]. left. by rewrite <- surjective_pairing. }
  destruct (ic_pkt _ _ _ _ _ _ Hin) as (z & Hz & Hvis & _).
  destruct (pull_header_run L l h data s F Q qs A Hs Hv HA Hin Hfrag) as (ok & s1 & qs1 & F1 & Q1 & A1 & Hpull & Hs1 & Hv1 & HA1 & HA1' & Hok).
  assert (Hours : ip_ours l (hdr_len h) s = (if negb ok then kret Gone else frag_tail l (hdr_len h)) s1).
  { unfold ip_ours. rewrite (bind_run _ _ _ _ _ (pkt_run _ _ _ Hz)), (vs_ip _ _ _ _ _ Hvis). unfold is_frag in Hfrag. rewrite Hfrag.
    by rewrite (bind_run _ _ _ _ _ Hpull). }
  rewrite Hours. destruct ok; simpl in *.
  - destruct (frag_tail_run L l h data k s1 F1 Q1 qs1 A1 Hs1 Hv1 HA1 Hok Hfrag Hprop Hk) as (o & s' & qs' & F' & Q' & out & A' & Hrun & J1 & J2 & J3 & J4 & J5).
    exists o, s', qs', F', Q', out, A'. split_and!; try done. by apply (said_drained _ A A1).
  - exists Gone, s1, qs1, F1, Q1, None, A1. split_and!; try done. right. split; [done|]. right. split; [done|]. destruct HA1' as [->|[-> _]]; [by left|by right].
Qed.

End Memory.
