(* ===== verification/IpCalls.v ===== *)
(** * Datagrams

    A packet from its arrival to its protocol, and the theorems: [ipintr] refines [a_ours];
    the fragments of a datagram, in whatever order they come, repeated or overlapping and among
    packets of other datagrams, make the datagram, and it is delivered by the fragment that
    completes it and not before; the timer ends what is not completed. *)

From S2P Require Import Prelude Mbuf MbufSpec MbufOps MbufCopy MbufClust Ring IpFrag IpRing IpSpec IpView IpHistory IpLoops IpJoin IpInput IpArrive.
Local Open Scope kern_scope.

Section Memory.
Context {mem : Answers}.

Lemma qprev_at s qs1 f ls qs2 : shape s (qs1 ++ (f, ls) :: qs2) ->
  get_prev queue_link (first (QQ <$> qs2.*1) QStatic) s = Some (QQ f, s).
Proof.
  intros [Hr _ _]. rewrite cons_middle, app_assoc, fmap_app, (fmap_app QQ) in Hr. apply (ring_prev queue_link) in Hr. apply get_prev_run.
  rewrite Hr. rewrite fmap_app, fmap_app. cbn [fmap list_fmap fst]. by rewrite final_snoc.
Qed.

(** The time to live of a queue changes. *)
Lemma set_ttl_run L s qs1 f ls qs2 F Q q k t A1 A2 v : shape s (qs1 ++ (f, ls) :: qs2) -> view s F Q L -> Q !! f = Some (k, t) ->
  queues s !! f = Some q -> queues_are F Q qs1 A1 -> queues_are F Q qs2 A2 ->
  let s1 := put_queue f (set_qttl v q) s in let Q1 := <[f := (k, v)]> Q in
  shape s1 (qs1 ++ (f, ls) :: qs2) /\ view s1 F Q1 L /\ queues_are F Q1 qs1 A1 /\ queues_are F Q1 qs2 A2.
Proof.
  intros Hs Hv HQ Hq H1 H2 s1 Q1. destruct (vw_queue _ _ _ _ Hv f _ HQ) as (q' & Hq' & Hk & _). rewrite Hq in Hq'. injection Hq' as <-. simpl in Hk.
  destruct (queues_beside s F F Q Q1 qs1 f ls qs2 A1 A2 Hs) as [B1 B2]; [done| |done|done|].
  { intros g Hg. unfold Q1. by rewrite lookup_insert_ne. }
  split_and!; [eapply shape_same; [|exact Hs]; by eapply put_queue_edits|by eapply view_fill_queue|done|done].
Qed.

Lemma slowtimo_loop_run L s F Q qs1 qs2 A1 A2 fuel : shape s (qs1 ++ qs2) -> view s F Q L -> queues_are F Q qs1 A1 -> queues_are F Q qs2 A2 ->
  (length qs2 < fuel)%nat ->
  exists s' qs' F' Q', slowtimo_loop fuel (first (QQ <$> qs2.*1) QStatic) s = Some (tt, s') /\ shape s' qs' /\ view s' F' Q' L /\
    queues_are F' Q' qs' (A1 ++ a_slowtimo A2).
Proof.
  revert s F Q qs1 A1 A2 fuel. induction qs2 as [|[f ls] qs2 IH]; intros s F Q qs1 A1 A2 [|fuel] Hs Hv H1 H2 Hfuel; simpl in Hfuel; try lia.
  - inversion H2; subst. rewrite app_nil_r in Hs. exists s, qs1, F, Q. simpl. by rewrite app_nil_r.
  - inversion H2 as [|? a ? A3 (HQ & Hfs & Hfit) H3]; subst. simpl in HQ, Hfs.
    destruct (vw_queue _ _ _ _ Hv f _ HQ) as (q & Hq & Hk & Ht). simpl in Ht. set (t := u8 (a_ttl a - 1)).
    destruct (set_ttl_run L s qs1 f ls qs2 F Q q _ _ A1 A3 t Hs Hv HQ Hq H1 H3) as (Hs1 & Hv1 & H1' & H3'). set (s1 := put_queue f (set_qttl t q) s) in *.
    assert (Hq1 : queues s1 !! f = Some (set_qttl t q)) by apply lookup_insert_eq.
    assert (Hup : upd_queue f (fun x => set_qttl (u8 (ipq_ttl x - 1)) x) s = Some (tt, s1)) by (rewrite (upd_queue_run _ _ q); [by rewrite Ht|done]).
    cbn [fmap list_fmap first slowtimo_loop fst]. rewrite (bind_run _ _ _ _ _ Hup), (bind_run _ _ _ _ _ (qnext_at s1 qs1 f ls qs2 Hs1)), (bind_run _ _ _ _ _ (qprev_at s1 qs1 f ls qs2 Hs1)).
    rewrite (bind_nonnull _ _ _ f), (bind_run _ _ _ _ _ (ipq_run _ _ _ Hq1)) by done. cbn [ipq_ttl set_qttl].
    unfold a_slowtimo. cbn [omap list_omap]. unfold a_tick at 1. fold t. destruct (t =? 0).
    + set (s2 := with_ips (bump ips_fragtimeout (ips s1)) s1).
      assert (Hs2 : shape s2 (qs1 ++ (f, ls) :: qs2)) by (by eapply shape_same; [|exact Hs1]).
      destruct (freef_queues L s2 qs1 f ls qs2 F _ A1 A3 Hs2 (view_ips _ _ _ _ _ Hv1) H1' H3') as (s3 & F3 & Q3 & Hfree & Hs3 & Hv3 & B1 & B3 & _).
      destruct (IH s3 F3 Q3 qs1 A1 A3 fuel Hs3 Hv3 B1 B3 ltac:(lia)) as (s' & qs' & F' & Q' & Hrun & R). exists s', qs', F', Q'. split; [|exact R].
      rewrite <- Hrun. rewrite (bind_run _ _ _ tt s3); [done|]. unfold count. rewrite bind_mod. change (with_ips _ s1) with s2.
      rewrite (bind_run _ _ _ _ _ (qprev_at s2 qs1 f ls qs2 Hs2)), (bind_nonnull _ _ _ f) by done. exact Hfree.
    + rewrite bind_ret. rewrite cons_middle, app_assoc in Hs1.
      destruct (IH s1 F _ (qs1 ++ [(f, ls)]) (A1 ++ [AQueue (a_key a) t (a_frags a)]) A3 fuel Hs1 Hv1) as (s' & qs' & F' & Q' & Hrun & R1 & R2 & R3); [|done|lia|].
      { apply Forall2_app; [done|]. constructor; [|constructor]. split_and!; [apply lookup_insert_eq|done|done]. }
      exists s', qs', F', Q'. split_and!; [done|done|done|]. by rewrite <- app_assoc in R3.
Qed.

Lemma slowtimo_run L s F Q qs A : shape s qs -> view s F Q L -> queues_are F Q qs A ->
  exists s' qs' F' Q', ip_slowtimo s = Some (tt, s') /\ shape s' qs' /\ view s' F' Q' L /\ queues_are F' Q' qs' (a_slowtimo A).
Proof.
  intros Hs Hv HA. unfold ip_slowtimo. rewrite !bind_gets. pose proof (qring_first s qs Hs) as Hfirst. simpl in Hfirst. rewrite Hfirst.
  apply (slowtimo_loop_run L s F Q [] qs [] A); [done|done|constructor|done|by apply queues_fuel].
Qed.
End Memory.

(** ** Arrivals *)

(** sys/netinet/ip_input.c:342-398, [ipintr]: a packet with the header [h] comes in the chain [c];
    what goes to the input routine of its protocol, which then has the mbufs. *)
Definition arrive (h : ip) (c : list mbuf) : K ipst (option (packet * Z)) :=
  let! s := kget in
  let l := fresh (dom (pkts s)) in
  let! m := knonnull (head c) in
  do! kmod (with_pkts (<[l := Packet h (m_data m) c]> (pkts s))) in
  let! o := ip_ours l (hdr_len h) in
  match o with
  | Gone => kret None
  | Deliver l n => let! z := pkt l in do! upd_pkt l (set_m []) in kret (Some (z, n))
  end.

Section Memory.
Context {mem : Answers}.

(** The queues in memory are [A]; [L] are the mbufs that others have. *)
Definition good (s : ipst) (A : list aqueue) (L : list mbuf) : Prop :=
  exists qs F Q, shape s qs /\ view s F Q L /\ queues_are F Q qs A.

(** A packet in the chain [c], with the header [h] and then [data], its fields in order. *)
Record comes (b : mbst) (h : ip) (c : list mbuf) (data : list Z) : Prop := {
  cm_proper : proper h data;
  cm_hlen : 0 <= hdr_len h;
  cm_bytes : drop (Z.to_nat (hdr_len h)) (cbytes b c) = data;
  cm_len : m_length c = hdr_len h + zlen data;
  cm_front : match c with m :: _ => hdr_len h <= m_len m /\ (is_ext m = true -> is_frag h = true -> hdr_len h = IP_HDR) | [] => False end;
  cm_hdr : hdr_ok c;
  cm_key : is_Some (key_of h) }.

(** The packet that is delivered is the one that the specification says, and the mbufs are its own. *)
Definition delivers (s : ipst) (out : option dgram) (r : option (packet * Z)) (hlen : Z) (A : list aqueue) (L : list mbuf) : Prop :=
  match out, r with
  | None, None => good s A L
  | Some d, Some (z, n) => n = hlen /\ visible (ip_mb s) z (d_hd d) (d_data d) (d_cut d) /\ good s A (p_m z ++ L)
  | _, _ => False
  end.

(** A new packet beside those that are there. *)
Lemma new_packet s qs F Q L l x : pkts s !! l = None -> shape s qs -> view s F Q (p_m x ++ L) ->
  shape (put_pkt l x s) qs /\ view (put_pkt l x s) F Q L /\ F !! l = None /\ l ∉ mjoin qs.*2.
Proof.
  intros Hl Hs Hv. set (s1 := put_pkt l x s).
  assert (HF : F !! l = None).
  { destruct (F !! l) as [f|] eqn:E; [|done]. destruct (vw_frag _ _ _ _ Hv l f E) as (y & Hy & _). congruence. }
  assert (Hheld : ip_held s1 ≡ₚ p_m x ++ ip_held s) by (unfold ip_held; simpl; by rewrite owned_new, app_assoc).
  assert (Hpm : ip_held s1 ++ L ≡ₚ ip_held s ++ p_m x ++ L) by (by rewrite Hheld, <- app_assoc, Permutation_app_swap_app).
  assert (Hlq : l ∉ mjoin qs.*2).
  { intros (gs & Hin & ([g gs'] & -> & Hq)%list_elem_of_fmap)%list_elem_of_join. apply list_elem_of_split in Hq as (q1 & q2 & ->).
    destruct (shape_pkts _ _ _ _ _ l Hs Hin). congruence. }
  split_and!; [| |done|done].
  - destruct Hs as [S1 S2 S3]. split; [by eapply (ring_frame _ s); [..|exact S1]; intros []| |done].
    rewrite Forall_forall in S2 |- *. intros [g gs] Hin. apply (ring_frame _ s); [..|by apply S2]; intros [j|j] Hj; try done;
      (assert (j <> l); [intros ->; apply Hlq, list_elem_of_join; exists gs; split;
        [by apply elem_of_cons in Hj as [?|(? & [= <-] & ?)%list_elem_of_fmap]|by apply (list_elem_of_fmap_2 snd _ (g, gs))]|]);
      simpl; by rewrite lookup_insert_ne.
  - destruct Hv as [V1 V2 V3 V4 V5 V6]. split; [|done|by rewrite Hpm|by rewrite Hpm|done|done].
    intros j f Hj. destruct (V1 j f Hj) as (y & Hy & Hsh). exists y. split; [|done]. simpl. rewrite lookup_insert_ne; [done|]. intros <-. congruence.
Qed.

Lemma arrive_run s A h c data L : good s A (c ++ L) -> comes (ip_mb s) h c data ->
  exists r s' out A', arrive h c s = Some (r, s') /\ as_said (a_ours h (hdr_len h) data) A out A' /\ delivers s' out r (hdr_len h) A' L.
Proof.
  intros (qs & F & Q & Hs & Hv & HA) [C1 C2 C3 C4 C5 C6 [k Hk]]. destruct c as [|m r0]; [done|].
  unfold arrive. rewrite bind_get. set (l := fresh _). assert (Hl : pkts s !! l = None) by (apply not_elem_of_dom, is_fresh).
  rewrite (bind_nonnull _ _ _ m), bind_mod by done. set (x := Packet h (m_data m) (m :: r0)).
  destruct (new_packet s qs F Q L l x Hl Hs Hv) as (Hs1 & Hv1 & HF & Hlq).
  change (with_pkts (<[l := x]> (pkts s)) s) with (put_pkt l x s). set (s1 := put_pkt l x s) in *.
  assert (Hin : incoming s1 qs F l h data).
  { split; [done|done|]. exists x. split; [apply lookup_insert_eq|]. destruct C5 as [C5 C7]. split; [by split|exact C7]. }
  destruct (ip_ours_run L l h data k s1 F Q qs A Hs1 Hv1 HA Hin C1 Hk) as (o & s2 & qs2 & F2 & Q2 & out & A2 & Hrun & Hs2 & Hv2 & HA2 & Hh & Hsaid).
  rewrite (bind_run _ _ _ _ _ Hrun). destruct out as [d|], o as [|l' n]; try done.
  - destruct Hh as (-> & HF2 & z & Hz & Hvis). rewrite (bind_run _ _ _ _ _ (pkt_run _ _ _ Hz)), (bind_run _ _ _ _ _ (upd_pkt_run _ _ _ _ Hz)).
    exists (Some (z, hdr_len h)), (put_pkt l' (set_m [] z) s2), (Some d), A2. split_and!; [done|done|]. split_and!; [done|done|].
    exists qs2, F2, Q2. split_and!; [by eapply shape_same; [|exact Hs2]; by eapply put_pkt_edits| |done].
    rewrite <- (delete_id F2 l') by done. by apply view_take.
  - exists None, s2, None, A2. split_and!; [done|done|]. by exists qs2, F2, Q2.
Qed.

(** C9. A packet for this host, of less than 32768 bytes and with its whole header in its first
    mbuf: unless it is a fragment with options whose first mbuf is a cluster, [ipintr] does not
    fail, whatever offset and length the packet has and however it overlaps others, accounts for
    every mbuf, and computes [a_ours] - what is delivered, with its bytes, and the fragments that
    are kept - on the queues; only when mbufs are wanting may it drain the queues first or drop
    the packet. *)
Theorem packet_refines s A h c data L : good s A (c ++ L) -> comes (ip_mb s) h c data ->
  exists r s' out A', arrive h c s = Some (r, s') /\ delivers s' out r (hdr_len h) A' L /\
    ((out, A') = a_ours h (hdr_len h) data A \/
     None ∈ answers /\ ((out, A') = a_ours h (hdr_len h) data [] \/ out = None /\ (A' = A \/ A' = []))).
Proof.
  intros Hg Hc. destruct (arrive_run s A h c data L Hg Hc) as (r & s' & out & A' & Hr & Hsaid & Hd). by exists r, s', out, A'.
Qed.

(** ** The timer *)

Fixpoint timeouts (n : nat) : K ipst unit := match n with O => kret tt | S n => do! ip_slowtimo in timeouts n end.

Lemma slowtimo_good s A L : good s A L -> exists s', ip_slowtimo s = Some (tt, s') /\ good s' (a_slowtimo A) L.
Proof.
  intros (qs & F & Q & Hs & Hv & HA). destruct (slowtimo_run L s F Q qs A Hs Hv HA) as (s' & qs' & F' & Q' & Hr & R).
  exists s'. split; [done|]. by exists qs', F', Q'.
Qed.
Lemma timeouts_good n s A L : good s A L -> exists s', timeouts n s = Some (tt, s') /\ good s' (Nat.iter n a_slowtimo A) L.
Proof.
  revert s A. induction n as [|n IH]; intros s A Hg; [by exists s|]. destruct (slowtimo_good s A L Hg) as (s1 & Hr & Hg1).
  destruct (IH s1 _ Hg1) as (s2 & Hr2 & Hg2). exists s2. cbn [timeouts]. rewrite (bind_run _ _ _ _ _ Hr). by rewrite Nat.iter_succ_r.
Qed.

(** ** Histories *)

(** The events [es] take the state [s], while others have the mbufs [L], to the state [s'] and the
    mbufs [L']: packets come and timeouts pass, and between them the rest of the kernel
    allocates, fills and frees mbufs - those that are not held here. *)
Inductive passes : ipst -> list mbuf -> list event -> ipst -> list mbuf -> Prop :=
| ps_nil s L : passes s L [] s L
| ps_came s L es s1 h c data L1 r s2 : passes s L es s1 (c ++ L1) -> comes (ip_mb s1) h c data -> arrive h c s1 = Some (r, s2) ->
    passes s L (es ++ [Came h data]) s2 (match r with Some (z, _) => p_m z ++ L1 | None => L1 end)
| ps_tick s L es s1 L1 s2 : passes s L es s1 L1 -> ip_slowtimo s1 = Some (tt, s2) -> passes s L (es ++ [Tick]) s2 L1
| ps_rest s L es s1 L1 b L2 : passes s L es s1 L1 -> keeps (ip_held s1) (ip_mb s1) b -> pool b (ip_held s1 ++ L2) -> few (ip_held s1 ++ L2) ->
    passes s L es (with_mb b s1) L2.

Lemma good_rest s A L L' b : good s A L -> keeps (ip_held s) (ip_mb s) b -> pool b (ip_held s ++ L') -> few (ip_held s ++ L') -> good (with_mb b s) A L'.
Proof.
  intros (qs & F & Q & Hs & Hv & HA) Hk Hp Hf. exists qs, F, Q. split_and!; [by apply shape_mb| |done].
  by apply (view_sub s _ F F Q Q L).
Qed.

Lemma delivers_good s out r hlen A L : delivers s out r hlen A L -> good s A (match r with Some (z, _) => p_m z ++ L | None => L end).
Proof. by destruct out, r as [[]|]; try done; intros (_ & _ & ?). Qed.

(** When there is memory the queues are those of the specification. *)
Lemma passes_run s A L es s' L' : None ∉ answers -> good s A L -> passes s L es s' L' -> good s' (a_run es A) L'.
Proof.
  intros Hn Hg Hp. induction Hp as [| s L es s1 h c data L1 r s2 _ IH Hc Hr|s L es s1 L1 s2 _ IH Hr|s L es s1 L1 b L2 _ IH Hk Hp Hf]; [done|..];
    specialize (IH Hg); rewrite ?a_run_snoc.
  - destruct (arrive_run s1 _ h c data L1 IH Hc) as (r' & s2' & out & A' & Hr' & Hsaid & Hd). rewrite Hr in Hr'. injection Hr' as <- <-.
    destruct Hsaid as [Hsaid|[? _]]; [|done]. cbn [a_event]. rewrite <- Hsaid. by apply (delivers_good _ out _ (hdr_len h)).
  - destruct (slowtimo_good s1 _ L1 IH) as (s2' & Hr' & Hg'). rewrite Hr in Hr'. by injection Hr' as <-.
  - by apply (good_rest s1 _ L1).
Qed.

(** Whatever the memory, no queue is older than its time to live. *)
Lemma passes_aged s A L es s' L' : good s A L -> aged IPFRAGTTL A -> passes s L es s' L' -> exists A', good s' A' L' /\ aged IPFRAGTTL A'.
Proof.
  intros Hg Ha Hp. induction Hp as [| s L es s1 h c data L1 r s2 _ IH Hc Hr|s L es s1 L1 s2 _ IH Hr|s L es s1 L1 b L2 _ IH Hk Hp Hf]; [by exists A|..];
    destruct (IH Hg) as (A1 & Hg1 & Ha1).
  - destruct (arrive_run s1 _ h c data L1 Hg1 Hc) as (r' & s2' & out & A' & Hr' & Hsaid & Hd). rewrite Hr in Hr'. injection Hr' as <- <-.
    exists A'. split; [by apply (delivers_good _ out _ (hdr_len h))|].
    destruct Hsaid as [Hs|[_ [Hs|[_ [->| ->]]]]]; [..|done|constructor]; apply (f_equal snd) in Hs; simpl in Hs; subst A'; apply ours_aged; [done|constructor].
  - destruct (slowtimo_good s1 _ L1 Hg1) as (s2' & Hr' & Hg'). rewrite Hr in Hr'. injection Hr' as <-. exists (a_slowtimo A1). split; [done|].
    apply (aged_mono (IPFRAGTTL - 1)); [by apply slowtimo_aged|unfold IPFRAGTTL; lia].
  - exists A1. split; [|done]. by apply (good_rest s1 _ L1).
Qed.

(** The fragment [data] comes after the events [es]. *)
Lemma last_piece D k A es s1 h c data L1 :
  None ∉ answers -> 0 < zlen D < 32768 -> good s1 (a_run es A) (c ++ L1) -> of_key k A = [] -> ticks es < IPFRAGTTL ->
  comes (ip_mb s1) h c data -> key_of h = Some k -> Forall (of_datagram k (piece D)) (es ++ [Came h data]) -> ~ complete D (pieces k es) ->
  exists r s2, arrive h c s1 = Some (r, s2) /\ let fs := pieces k (es ++ [Came h data]) in
    (~ complete D fs /\ r = None \/
     complete D fs /\ exists z f, r = Some (z, hdr_len h) /\ f ∈ fs /\ f_off f = 0 /\ visible (ip_mb s2) z (a_header k (zlen D) f) D false).
Proof.
  intros Hn [Hpos Hlen] Hg HA Ht Hc Hk [Hes [Hx _]%Forall_cons]%Forall_app Hnc. destruct (Hx Hk) as [Hr Hpc]. clear Hx.
  destruct (history D k es A Hpos Hlen HA Hes Ht Hnc) as (t & l & HQ & Hw & Hh & Hu).
  destruct (arrive_run s1 _ h c data L1 Hg Hc) as (r & s2 & out & A' & Hrun & Hsaid & Hd).
  destruct Hsaid as [Hsaid|[? _]]; [|done]. destruct (ours_piece h data k _ t l Hk Hr HQ) as [Hout _].
  rewrite <- Hsaid in Hout. simpl in Hout. exists r, s2. split; [done|]. cbv zeta.
  assert (Hfs : pieces k (es ++ [Came h data]) = pieces k es ++ [piece_of h data]) by (unfold pieces; rewrite omap_app; simpl; by rewrite decide_True).
  assert (Hadd : forall i, has (piece_of h data :: l) i <-> has (pieces k es ++ [piece_of h data]) i)
    by (intros i; rewrite has_cons, has_app, has_cons, Hh; pose proof (has_nil i); tauto).
  rewrite Hfs. destruct (reass_step D Hpos Hlen k _ l Hw Hpc) as [(l' & E & W1 & W2 & _)|(f & E & C1 & C2 & C3 & C4)]; rewrite E in Hout; simpl in Hout; subst out.
  - left. destruct r; [done|]. split; [|done]. intros Hcomp. apply (wt_not _ _ W1). apply (complete_has D _ _ (fun i => iff_trans (W2 i) (Hadd i))), Hcomp.
  - right. destruct r as [[z n]|]; [|done]. destruct Hd as (-> & Hvis & _). simpl in Hvis. split; [by apply (complete_has D _ _ Hadd)|].
    exists z, f. split_and!; [done| |done|done]. apply elem_of_app. apply elem_of_cons in C2 as [->|C2]; [right; by left|left; by apply Hu].
Qed.

(** C6. The fragments of a datagram [D] of 1 to 32767 bytes come in any order, repeated,
    overlapping, cut anew on the way, mixed with packets and fragments under other
    identifications and with fewer than sixty timeouts, to a host that is not in want of
    mbufs and has no queue for the datagram at first - each packet with its whole header in
    its first mbuf, and no fragment with options there in a cluster: as long as bytes are
    missing nothing is delivered, and the fragment with which the last bytes come delivers
    the whole of [D], under the header of a fragment with offset 0. *)
Theorem datagram_delivered D k s A L es s1 h c data L1 :
  None ∉ answers -> 0 < zlen D < 32768 -> good s A L -> of_key k A = [] ->
  passes s L es s1 (c ++ L1) -> ticks es < IPFRAGTTL -> comes (ip_mb s1) h c data -> key_of h = Some k ->
  Forall (of_datagram k (piece D)) (es ++ [Came h data]) -> ~ complete D (pieces k es) ->
  exists r s2, arrive h c s1 = Some (r, s2) /\ let fs := pieces k (es ++ [Came h data]) in
    (~ complete D fs /\ r = None \/
     complete D fs /\ exists z f, r = Some (z, hdr_len h) /\ f ∈ fs /\ f_off f = 0 /\ visible (ip_mb s2) z (a_header k (zlen D) f) D false).
Proof.
  intros Hn Hlen Hg HA Hp Ht Hc Hk Hes Hnc.
  by apply (last_piece D k A es s1 h c data L1 Hn Hlen (passes_run _ _ _ _ _ _ Hn Hg Hp)).
Qed.

(** C39. A queue of fragments ends: whatever packets (but fragments with options in a
    cluster), timeouts and draining have gone before, with mbufs or in want of them, sixty
    runs of [ip_slowtimo] in a row succeed and leave no queue. *)
Theorem fragments_expire s L es s1 L1 : good s [] L -> passes s L es s1 L1 -> exists s2, timeouts 60 s1 = Some (tt, s2) /\ good s2 [] L1.
Proof.
  intros Hg Hp. destruct (passes_aged s [] L es s1 L1 Hg ltac:(constructor) Hp) as (A & Hg1 & Ha).
  destruct (timeouts_good 60 s1 A L1 Hg1) as (s2 & Hr & Hg2). exists s2. split; [done|]. by rewrite (slowtimo_iter_aged 60 A Ha) in Hg2.
Qed.

(** C40. The offset of a fragment is kept in a short: when one fragment begins 32768 bytes
    or more from the start of its datagram - the header has room for offsets up to 65528 -
    its offset is negative, and, mbufs not being in want, no fragment that comes after it,
    within the sixty timeouts and with only fragments coming under that identification,
    completes the datagram. *)
Theorem far_fragment_stalls k s A L es s1 h c data L1 h0 data0 :
  None ∉ answers -> good s A L -> of_key k A = [] -> passes s L es s1 (c ++ L1) -> ticks es < IPFRAGTTL ->
  Forall (of_datagram k (fun _ => True)) (es ++ [Came h data]) ->
  Came h0 data0 ∈ es -> key_of h0 = Some k -> 4096 <= ip_off h0 mod 8192 ->
  comes (ip_mb s1) h c data -> key_of h = Some k -> exists s2, arrive h c s1 = Some (None, s2).
Proof.
  intros Hn Hg HA Hp Ht [Hes [Hx _]%Forall_cons]%Forall_app Hin Hk0 Hfar Hc Hk. destruct (Hx Hk) as [Hr _]. clear Hx.
  assert (Hex : Exists far (pieces k es)).
  { apply Exists_exists. exists (piece_of h0 data0). split; [|by apply far_off]. apply list_elem_of_omap. exists (Came h0 data0). by rewrite decide_True. }
  destruct (history_far k es A HA Hes Ht Hex) as (t & l & HQ & Hb).
  destruct (arrive_run s1 _ h c data L1 (passes_run _ _ _ _ _ _ Hn Hg Hp) Hc) as (r & s2 & out & A' & Hrun & Hsaid & Hd).
  destruct Hsaid as [Hsaid|[? _]]; [|done]. destruct (ours_piece h data k _ t l Hk Hr (or_introl HQ)) as [Hout _].
  destruct (reass_far k (piece_of h data) l (or_intror Hb)) as (l' & E & _). rewrite <- Hsaid, E in Hout. simpl in Hout. subst out.
  destruct r; [done|]. by exists s2.
Qed.
End Memory.
