(* ===== verification/IpOut.v ===== *)
(** * Sending a packet (sys/netinet/ip_output.c)

    From [sendit] on: a packet that has its route goes to the interface whole when it is small
    enough, and else in fragments.  What the output routine of the interface answers is an
    argument; the packets it gets are its own from then on. *)

From S2P Require Import Prelude Mbuf Cksum Ring IpFrag IpView IpHeader.
Local Open Scope kern_scope.

Definition EMSGSIZE := 40.
Definition ENOBUFS := 55.
Definition IPOPT_EOL := 0.
Definition IPOPT_NOP := 1.

(** sys/netinet/ip_output.c:437-452, [ip_optcopy]: the loop; an option of length 0 makes it endless,
    which is fuel used up. *)
Fixpoint optcopy_loop (fuel : nat) (cp : list Z) (cnt : Z) (dp : list Z) : option (list Z) :=
  match fuel with
  | O => None
  | S fuel =>
      if cnt <=? 0 then Some dp
      else
        match cp with
        | [] => None
        | opt :: rest =>
            if opt =? IPOPT_EOL then Some dp
            else
              match (if opt =? IPOPT_NOP then Some 1 else head rest) with
              | None => None
              | Some optlen =>
                  let optlen := if cnt <? optlen then cnt else optlen in
                  optcopy_loop fuel (drop (Z.to_nat optlen) cp) (cnt - optlen)
                    (if ztrue (Z.land opt 128) then dp ++ take (Z.to_nat optlen) cp else dp)
              end
        end
  end.

(** sys/netinet/ip_output.c:428-456, [ip_optcopy]: [cp] are the bytes after the header, [cnt] of them options. *)
Definition ip_optcopy (cp : list Z) (cnt : Z) : option (list Z) :=
  match optcopy_loop (S (Z.to_nat cnt)) cp cnt [] with
  | Some dp => Some (dp ++ replicate (Z.to_nat ((- zlen dp) mod 4)) IPOPT_EOL)
  | None => None
  end.

(** The header [h] is stored at [mtod] of the first mbuf. *)
Definition store_hdr (h : ip) (c : list mbuf) : K mbst (list mbuf) :=
  match c with
  | [] => kpanic
  | m :: r =>
      let! w := knonnull (ip_put IPVERSION h) in
      if is_ext m then
        let! b := kderef (fun s => mcl_buf s !! m_ext m) in
        if (0 <=? m_data m) && (m_data m + zlen w <=? zlen b) then
          do! kmod (fun s => with_buf (<[m_ext m := take (Z.to_nat (m_data m)) b ++ w ++ drop (Z.to_nat (m_data m + zlen w)) b]> (mcl_buf s)) s) in
          kret c
        else kpanic
      else let! m := knonnull (put_at m 0 w) in kret (m :: r)
  end.

(** sys/netinet/ip_output.c:343-344, [ip_output]: the checksum of a header of [hlen] bytes. *)
Definition seal (h : ip) (hlen : Z) (c : list mbuf) : K mbst (list mbuf) :=
  let! c := store_hdr (set_sum 0 h) c in
  let! (sum, _) := in_cksum c hlen in
  store_hdr (set_sum sum h) c.

Section Linkhdr.
(** The room to leave for the headers of interfaces. *)
Context (max_linkhdr : Z).

(** sys/netinet/ip_output.c:319-326, [ip_output]: the place for the header of a fragment in the mbuf
    [m], with the options that are copied; its length. *)
Definition frag_place (c : list mbuf) (hlen : Z) (m : mbuf) : K mbst (mbuf * Z) :=
  let m := set_data (m_data m + max_linkhdr) m in
  if IP_HDR <? hlen then
    match c with
    | [] => kpanic
    | x :: _ =>
        let! w := bytes_at x IP_HDR (m_len x - IP_HDR) in
        let! opts := knonnull (ip_optcopy w (hlen - IP_HDR)) in
        let! m := knonnull (put_at m IP_HDR opts) in
        let mhlen := zlen opts + IP_HDR in
        kret (set_len mhlen m, mhlen)
    end
  else kret (set_len IP_HDR m, IP_HDR).

(** sys/netinet/ip_output.c:321-334, [ip_output]: the header of the fragment of [n] bytes from [off],
    the last one or not, in the order of the network. *)
Definition frag_hdr (h : ip) (hlen mhlen off n : Z) (last : bool) : ip :=
  let x := s16 (Z.shiftr (off - hlen) 3 + Z.land (ip_off h) (Z.lnot IP_MF)) in
  let x := if flag_set (ip_off h) IP_MF then Z.lor x IP_MF else x in
  let x := if last then x else Z.lor x IP_MF in
  let h := if IP_HDR <? hlen then set_hl (Z.shiftr mhlen 2) h else h in
  set_off (swap_short x) (set_iplen (s16 (ntohs (u16 (n + mhlen)))) h).

(** sys/netinet/ip_output.c:312-345, [ip_output]: the fragment of [len] bytes, or fewer if it is the
    last, from [off]: its mbufs and length, or those that are there when memory is wanting. *)
Definition frag_one (h : ip) (c : list mbuf) (hlen len off : Z) : K ipst (list mbuf * option Z) :=
  let total := u16 (ip_len h) in
  let! o := MGETHDR MT_HEADER in
  match o with
  | None => kret ([], None)
  | Some m =>
      let! (m, mhlen) := mb (frag_place c hlen m) in
      let last := total <=? off + len in
      let n := if last then total - off else len in
      let! d := m_copym c off n in
      match d with
      | [] => kret ([m], None)
      | _ =>
          let! f := mb (seal (frag_hdr h hlen mhlen off n last) mhlen (set_hdr (Pkthdr (mhlen + n) None) m :: d)) in
          do! count ips_ofragments in
          kret (f, Some n)
      end
  end.

(** sys/netinet/ip_output.c:311-346, [ip_output]: the loop; the fragments [fs] so far, the error. *)
Fixpoint frag_loop (fuel : nat) (h : ip) (c : list mbuf) (hlen len off : Z) (fs : list (list mbuf)) : K ipst (list (list mbuf) * Z) :=
  match fuel with
  | O => kpanic
  | S fuel =>
      if off <? u16 (ip_len h) then
        let! (f, n) := frag_one h c hlen len off in
        match n with
        | None => kret (fs ++ match f with [] => [] | _ => [f] end, ENOBUFS)
        | Some n => frag_loop fuel h c hlen n (off + n) (fs ++ [f])
        end
      else kret (fs, 0)
  end.

(** sys/netinet/ip_output.c:359-367, [ip_output]: [sendorfree]; the packets that the interface got, the error. *)
Fixpoint send_loop (if_output : list mbuf -> Z) (ms : list (list mbuf)) (error : Z) : K ipst (list (list mbuf) * Z) :=
  match ms with
  | [] => kret ([], error)
  | m :: ms =>
      if error =? 0 then
        let! (out, e) := send_loop if_output ms (if_output m) in kret (m :: out, e)
      else do! mb (m_freem m) in send_loop if_output ms error
  end.

(** sys/netinet/ip_output.c:277-376, [ip_output]: from [sendit], for an interface with the [mtu].  What is
    freed at [bad] is [m0], the packet as it was given to [ip_output]: the mbufs of [c] after the first
    [before], those that [ip_insertoptions] has put before it. *)
Definition ip_sendit (if_output : list mbuf -> Z) (mtu : Z) (before : nat) (h : ip) (c : list mbuf) : K ipst (list (list mbuf) * Z) :=
  let hlen := hdr_len h in
  let total := u16 (ip_len h) in
  if total <=? mtu then
    let! c := mb (seal (set_off (swap_short (ip_off h)) (set_iplen (swap_short (ip_len h)) h)) hlen c) in
    kret ([c], if_output c)
  else
    do! count ips_fragmented in
    let len := Z.land (mtu - hlen) (Z.lnot 7) in
    if ztrue (Z.land (ip_off h) IP_DF) then do! mb (m_freem (drop before c)) in kret ([], EMSGSIZE)
    else if len <? 8 then do! mb (m_freem (drop before c)) in kret ([], EMSGSIZE)
    else
      let! (fs, error) := frag_loop (S (Z.to_nat total)) h c hlen len (hlen + len) [] in
      if error =? 0 then
        let! c := knonnull (m_adj c (hlen + len - total)) in
        match c with
        | [] => kpanic
        | m :: r =>
            let! c := mb (seal (set_off (swap_short (Z.lor (ip_off h) IP_MF)) (set_iplen (s16 (ntohs (u16 (hlen + len)))) h)) hlen
                               (set_plen (hlen + len) m :: r)) in
            send_loop if_output (c :: fs) 0
        end
      else send_loop if_output (c :: fs) error.
End Linkhdr.
