(* ===== verification/IpWire.v ===== *)
(** * The checks of a packet that comes in, and headers on the wire

    What [ipintr] accepts, as a function of the bytes of the packet, and the theorem that its
    checks compute it on mbuf chains of any form, without losing an mbuf; the bytes of a header
    and the header that a receiver reads from them: a packet that was sent with its checksum is
    accepted with the fields that its sender meant. *)

From S2P Require Import Prelude Mbuf MbufSpec MbufOps MbufCopy Cksum CksumSum Ring IpFrag IpRing IpSpec IpView IpHeader IpInput IpArrive IpCalls.
Local Open Scope kern_scope.

(** ** What is accepted *)

(** The header in the order of the host. *)
Definition to_host (h : ip) : ip :=
  set_off (swap_short (ip_off h)) (set_id (ntohs (ip_id h)) (set_iplen (swap_short (ip_len h)) (set_sum 0 h))).

(** The header of the packet [w] and its data, when it is a good packet. *)
Definition a_check (w : list Z) : option (ip * list Z) :=
  match ip_get w with
  | None => None
  | Some (v, h) =>
      let hlen := hdr_len h in
      let n := swap_short (ip_len h) in
      if negb (v =? IPVERSION) || (hlen <? IP_HDR) || (zlen w <? hlen) || ztrue (checksum (take (Z.to_nat hlen) w)) ||
         (n <? hlen) || (zlen w <? n)
      then None
      else Some (to_host h, drop (Z.to_nat hlen) (take (Z.to_nat n) w))
  end.

Lemma ip_get_take w : ip_get (take 20 w) = ip_get w.
Proof. do 20 (destruct w as [|? w]; [done|]). done. Qed.
Lemma ip_get_short w : zlen w < 20 -> ip_get w = None.
Proof. intros H. do 20 (destruct w as [|? w]; [done|]). unfold zlen in H. simpl in H. lia. Qed.
Lemma ip_get_long w : 20 <= zlen w -> exists v h, ip_get w = Some (v, h) /\ is_Some (key_of (to_host h)).
Proof.
  intros H. do 20 (destruct w as [|? w]; [unfold zlen in H; simpl in H; lia|]). eexists _, _. split; [done|]. by eexists.
Qed.
Lemma ip_get_hlen w v h : ip_get w = Some (v, h) -> 0 <= hdr_len h <= 60.
Proof.
  do 20 (destruct w as [|? w]; [done|]). intros [= _ <-]. unfold hdr_len. simpl. rewrite Z.shiftl_mul_pow2 by lia.
  pose proof (Z.mod_pos_bound z 16 ltac:(lia)). lia.
Qed.

Section Memory.
Context {mem : Answers}.

(** ** Chains beside the queues *)

Lemma good_sound s A c L : good s A (c ++ L) -> Forall (sound (ip_mb s)) c.
Proof. intros (qs & F & Q & _ & Hv & _). apply (pool_sounds _ _ _ (vw_pool _ _ _ _ Hv)). set_solver. Qed.

Lemma good_count f s A L : good s A L -> good (with_ips (bump f (ips s)) s) A L.
Proof. intros (qs & F & Q & Hs & Hv & HA). exists qs, F, Q. split_and!; [by eapply shape_same; [|exact Hs]|by apply view_ips|done]. Qed.

Lemma good_free s A c L : good s A (c ++ L) -> exists s', mb (m_freem c) s = Some (tt, s') /\ good s' A L.
Proof.
  intros (qs & F & Q & Hs & Hv & HA).
  assert (Hp : pool (ip_mb s) (c ++ ip_held s ++ L)) by (rewrite Permutation_app_swap_app; apply Hv).
  assert (Hf : few (c ++ ip_held s ++ L)) by (rewrite Permutation_app_swap_app; apply Hv).
  destruct (m_freem_ok _ _ _ Hp Hf) as (b & Hr & Hp1 & Hk). exists (with_mb b s). split; [exact (mb_run _ s _ _ Hr)|].
  exists qs, F, Q. split_and!; [by apply shape_mb| |done]. apply (view_sub s _ F F Q Q (c ++ L)); try done.
  - apply (keeps_sub (ip_held s ++ L)); [|done]. intros x. apply nrefs_right.
  - by apply few_right in Hf.
Qed.

Lemma good_chain s A c c' L : good s A (c ++ L) -> same_chain c c' -> Forall (sound (ip_mb s)) c' -> good s A (c' ++ L).
Proof.
  intros (qs & F & Q & Hs & Hv & HA) Hsame Hc. exists qs, F, Q. split_and!; [done| |done]. apply (view_sub s _ F F Q Q (c ++ L)); try done.
  - rewrite Permutation_app_swap_app. apply (pool_same _ c); [|done|by apply (Forall_impl _ _ _ Hc); intros ? []].
    rewrite Permutation_app_swap_app. apply Hv.
  - intros x. pose proof (vw_few _ _ _ _ Hv x). rewrite !nrefs_app in *. by rewrite (same_refs x c c' Hsame).
Qed.

(** The packet [w] in the chain [c]. *)
Record packet_of (s : ipst) (A : list aqueue) (L : list mbuf) (c : list mbuf) (w : list Z) : Prop := {
  po_good : good s A (c ++ L);
  po_bytes : cbytes (ip_mb s) c = w;
  po_range : Forall is_byte w;
  po_hdr : match c with m :: _ => is_hdr m = true /\ len (m_pkthdr m) = zlen w | [] => False end }.

Lemma po_len s A L c w : packet_of s A L c w -> m_length c = zlen w.
Proof. intros [Hg Hb _ _]. rewrite <- Hb. symmetry. apply cbytes_len. by apply (good_sound _ A _ L). Qed.

Lemma po_count f s A L c w : packet_of s A L c w -> packet_of (with_ips (bump f (ips s)) s) A L c w.
Proof. intros [H1 H2 H3 H4]. split; [by apply good_count|done|done|done]. Qed.

Definition lacking_memory (A A' : list aqueue) : Prop := None ∈ answers /\ (A' = A \/ A' = []).

Lemma pull_in plen s A L c w : packet_of s A L c w -> 0 < plen <= MHLEN ->
  exists out s' A', m_pullup c plen s = Some (out, s') /\ (A' = A \/ lacking_memory A A') /\
    match out with
    | m :: _ => packet_of s' A' L out w /\ plen <= m_len m /\ is_ext m = false
    | [] => good s' A' L /\ (None ∈ answers \/ zlen w < plen)
    end.
Proof.
  intros Hpo Hplen. pose proof (po_len _ _ _ _ _ Hpo) as Hlen. destruct Hpo as [(qs & F & Q & Hs & Hv & HA) Hb Hw Hh]. destruct c as [|x r]; [done|].
  destruct (pullup_kept plen s F Q L x r qs ltac:(lia) Hs Hv) as (out & s' & qs' & F' & Q' & Hrun & Hsv & Hv' & _ & Hres).
  destruct (survive_queues _ _ _ _ _ _ _ _ _ Hsv HA) as (A' & HA' & Hor). pose proof Hsv as (Hs' & _). exists out, s', A'. split; [done|].
  split; [destruct Hor as [->|[-> Hn]]; [by left|right; split; [done|by right]]|].
  assert (Hg : good s' A' (out ++ L)) by (by exists qs', F', Q').
  destruct Hres as [(_ & Hb' & _ & y & q & -> & Hy1 & Hy2 & Hy3 & Hy4)|(-> & _ & Hwhy)].
  - destruct Hh as [Hh1 Hh2]. split; [|by split]. split; [done|by rewrite <- Hb; exact Hb'|done|]. rewrite Hy3. split; [done|]. by rewrite Hy4.
  - split; [done|]. destruct Hwhy as [Hn|[Hlt|?]]; [left; by apply (vw_ans _ _ _ _ Hv)|right; lia|lia].
Qed.

(** ** The outcome *)

(** The chain [c] has a packet with the header [h] and then [data]: as long as the header tells, the
    header in the first mbuf. *)
Record lies (b : mbst) (h : ip) (c : list mbuf) (data : list Z) : Prop := {
  li_proper : proper h data;
  li_bytes : drop (Z.to_nat (hdr_len h)) (cbytes b c) = data;
  li_len : m_length c = hdr_len h + zlen data;
  li_front : match c with m :: _ => IP_HDR <= hdr_len h <= m_len m | [] => False end;
  li_hdr : hdr_ok c }.

(** The packet, with its header, as the specification has it. *)
Definition accepted (s : ipst) (A : list aqueue) (L : list mbuf) (spec : option (ip * list Z)) (r : option (ip * list mbuf)) : Prop :=
  match r with
  | Some (h, c) => good s A (c ++ L) /\ exists data, spec = Some (h, data) /\ lies (ip_mb s) h c data /\ (hdr_len h = IP_HDR -> comes (ip_mb s) h c data)
  | None => good s A L /\ (spec = None \/ None ∈ answers)
  end.

Lemma bad_ok f s A L c w : packet_of s A L c w -> exists s', bad f c s = Some (None, s') /\ good s' A L.
Proof.
  intros Hpo. assert (Hf : exists s1, (match f with Some f => count f | None => kret tt end) s = Some (tt, s1) /\ packet_of s1 A L c w).
  { destruct f as [f|]; [|by exists s]. eexists. split; [done|]. by apply po_count. }
  destruct Hf as (s1 & H1 & Hpo1). destruct (good_free s1 A c L (po_good _ _ _ _ _ Hpo1)) as (s' & Hr & Hg).
  exists s'. unfold bad. rewrite (bind_run _ _ _ _ _ H1), (bind_run _ _ _ _ _ Hr). by split.
Qed.

(** ** Trimming *)

Lemma on_hdr_same b c f : (forall x, exists h, f x = set_hdr h x) -> m_length (on_hdr f c) = m_length c /\
  match c with m :: r => exists y, on_hdr f c = y :: r /\ m_len y = m_len m | [] => on_hdr f c = [] end /\ (Forall (sound b) c -> Forall (sound b) (on_hdr f c)).
Proof.
  intros Hf. destruct c as [|m r]; [done|]. simpl. destruct (Hf m) as [h Hh].
  destruct (is_hdr m); [rewrite Hh|]; (split; [done|split; [by eexists|]]); [|done].
  intros [Hm Hr]%Forall_cons. constructor; [by apply set_hdr_ok|done].
Qed.

(** What is cut off at the end does not reach the first [k] bytes, which are in the first mbuf. *)
Lemma adj_first b x r n m' k : Forall (sound b) (x :: r) -> n < 0 -> m_adj (x :: r) n = Some m' -> k <= m_len x -> k <= m_length (x :: r) + n ->
  match m' with y :: _ => k <= m_len y | [] => False end.
Proof.
  intros Hs Hn Hadj Hk Hk2. pose proof (m_length_nonneg b r (proj2 (proj1 (Forall_cons _ _ _) Hs))) as Hr. revert Hadj. unfold m_adj.
  destruct (last (x :: r)) as [z|] eqn:Ez; [|by apply last_None in Ez]. destruct (Z.leb_spec 0 n); [lia|].
  assert (Hset : forall g : mbuf -> Z, forall x, exists h, (fun x => set_plen (g x) x) x = set_hdr h x) by (intros; by eexists).
  destruct (Z.leb_spec (- n) (m_len z)).
  - intros [= <-]. destruct r as [|y r].
    + injection Ez as ->. destruct (on_hdr_same b [set_len (m_len z - - n) z] _ (Hset (fun x => len (m_pkthdr x) - - n))) as (_ & (w & Hw & Hwl) & _).
      cbn [on_last]. rewrite Hw, Hwl. simpl in *. lia.
    + change (on_last (fun x => set_len (m_len x - - n) x) (x :: y :: r)) with (x :: on_last (fun x => set_len (m_len x - - n) x) (y :: r)).
      destruct (on_hdr_same b (x :: on_last (fun x => set_len (m_len x - - n) x) (y :: r)) _ (Hset (fun x => len (m_pkthdr x) - - n))) as (_ & (w & Hw & Hwl) & _).
      rewrite Hw, Hwl. done.
  - set (count := Z.max 0 (m_length (x :: r) - - n)). destruct (on_hdr_same b (x :: r) (set_plen count) (fun x => ex_intro _ _ eq_refl)) as (_ & (w & Hw & Hwl) & _).
    rewrite Hw. cbn [adj_keep]. rewrite Hwl. destruct (Z.leb_spec count (m_len x)); [intros [= <-]; simpl in *; lia|].
    destruct (adj_keep r _); [|done]. intros [= <-]. lia.
Qed.

(** A packet longer than [n] bytes is cut down to them. *)
Lemma trim_packet s A L m r w k n : packet_of s A L (m :: r) w -> 0 <= k <= n -> n < zlen w -> k <= m_len m ->
  exists c, (if m_len m =? len (m_pkthdr m) then kret (set_plen n (set_len n m) :: r) else knonnull (m_adj (m :: r) (n - len (m_pkthdr m)))) s = Some (c, s) /\
    good s A (c ++ L) /\ cbytes (ip_mb s) c = take (Z.to_nat n) w /\ m_length c = n /\ hdr_ok c /\
    match c with y :: _ => k <= m_len y | [] => False end.
Proof.
  intros Hpo Hk Hn Hkm. pose proof (po_len _ _ _ _ _ Hpo) as Hlen. destruct Hpo as [Hg Hb Hw [Hh1 Hh2]].
  pose proof (good_sound _ _ _ _ Hg) as Hs. rewrite Hh2. destruct (Z.eqb_spec (m_len m) (zlen w)) as [E|E].
  - pose proof Hs as [Hm Hr]%Forall_cons. destruct (trim_tail (ip_mb s) m n Hm ltac:(lia)) as (T1 & T2 & T3).
    destruct (set_hdr_ok (ip_mb s) (set_len n m) (Pkthdr n (rcvif (m_pkthdr m))) T1) as (U1 & U2 & U3).
    change (set_hdr (Pkthdr n (rcvif (m_pkthdr m))) (set_len n m)) with (set_plen n (set_len n m)) in *.
    assert (Hr0 : cbytes (ip_mb s) r = []).
    { simpl in Hlen. apply nil_length_inv. pose proof (cbytes_len (ip_mb s) r Hr) as Hl. unfold zlen in *. lia. }
    exists (set_plen n (set_len n m) :: r). split; [done|]. split_and!.
    + apply (good_chain s A (m :: r)); [done| |by constructor]. constructor; [by etrans|done].
    + rewrite cbytes_cons in *. rewrite U3, T3, Hr0, app_nil_r, <- Hb, Hr0. by rewrite app_nil_r.
    + simpl in *. lia.
    + intros _. simpl in *. lia.
    + simpl. lia.
  - destruct (m_adj_ok (ip_mb s) (m :: r) (n - zlen w) Hs) as (c & Hc & Hcs & Hsame & Hcb & Hcl & Hch).
    destruct (Z.leb_spec 0 (n - zlen w)); [lia|]. rewrite Hc. exists c. split; [done|]. split_and!.
    + by apply (good_chain s A (m :: r)).
    + rewrite Hcb, Hb, Hlen. f_equal. lia.
    + lia.
    + apply Hch. intros _. lia.
    + apply (adj_first (ip_mb s) m r (n - zlen w) c k); try done; lia.
Qed.

Lemma check_length_ok s A L m r w h hlen : packet_of s A L (m :: r) w -> hlen = hdr_len h -> IP_HDR <= hlen <= ip_len h -> ip_len h < 32768 ->
  hlen <= m_len m -> is_Some (key_of h) ->
  exists out s', check_length h (m :: r) s = Some (out, s') /\
    accepted s' A L (if zlen w <? ip_len h then None else Some (h, drop (Z.to_nat hlen) (take (Z.to_nat (ip_len h)) w))) out.
Proof.
  intros Hpo -> Hh Hmax Hm Hkey. pose proof (po_len _ _ _ _ _ Hpo) as Hlen. assert (20 <= hdr_len h) by (unfold IP_HDR in Hh; lia). pose proof Hpo as [Hg Hb Hw [Hh1 Hh2]]. unfold check_length. rewrite Hh2.
  destruct (Z.ltb_spec (zlen w) (ip_len h)) as [Hlt|Hge].
  { destruct (bad_ok (Some ips_tooshort) s A L (m :: r) w Hpo) as (s' & Hr & Hg'). exists None, s'. by repeat split; [| |left]. }
  assert (Hdata : zlen (drop (Z.to_nat (hdr_len h)) (take (Z.to_nat (ip_len h)) w)) = ip_len h - hdr_len h).
  { unfold zlen in *. rewrite length_drop, length_take. lia. }
  assert (Hcome : forall b c, cbytes b c = take (Z.to_nat (ip_len h)) w -> m_length c = ip_len h -> hdr_ok c ->
    match c with y :: _ => hdr_len h <= m_len y | [] => False end ->
    let data := drop (Z.to_nat (hdr_len h)) (take (Z.to_nat (ip_len h)) w) in
    lies b h c data /\ (hdr_len h = IP_HDR -> comes b h c data)).
  { intros b c C1 C2 C3 C4 data. unfold IP_HDR in *. split.
    - split; [split; unfold data; lia|by rewrite C1|unfold data; lia|by destruct c|done].
    - intros C5. split; [split; unfold data; lia|lia|by rewrite C1|unfold data; lia| |done|done]. destruct c; [done|]. by split. }
  destruct (Z.ltb_spec (ip_len h) (zlen w)) as [Hlt|Hle].
  - destruct (trim_packet s A L m r w (hdr_len h) (ip_len h) Hpo ltac:(lia) Hlt Hm) as (c & Hrun & Hgc & Hcb & Hcl & Hco & Hcf).
    exists (Some (h, c)), s. split; [|split; [done|]].
    + rewrite Hh2 in Hrun. destruct (m_len m =? zlen w); [by injection Hrun as <-|]. by rewrite (bind_run _ _ _ _ _ Hrun).
    + eexists. split; [done|]. by apply Hcome.
  - assert (E : ip_len h = zlen w) by lia. exists (Some (h, m :: r)), s. split; [done|]. split; [done|]. eexists. split; [done|]. apply Hcome; [|lia| |done].
    + rewrite Hb, E. unfold zlen. by rewrite Nat2Z.id, firstn_all.
    + intros _. lia.
Qed.

(** ** The checksum and the header *)

Lemma mb_same {B} (m : K mbst B) s a : m (ip_mb s) = Some (a, ip_mb s) -> mb m s = Some (a, s).
Proof. intros H. unfold mb, kzoom. change (mb_get s) with (ip_mb s). rewrite H. do 2 f_equal. apply with_own_mb. Qed.

Lemma in_cksum_front b m r len : Forall (sound b) (m :: r) -> Forall is_byte (mbytes b m) -> 0 < len <= m_len m ->
  in_cksum (m :: r) len b = Some (checksum (take (Z.to_nat len) (mbytes b m)), false, b).
Proof.
  intros Hs Hw Hl. apply Forall_cons in Hs as [Hm _].
  assert (Hone : in_cksum [m] len b = Some (checksum (take (Z.to_nat len) (cbytes b [m])), false, b)).
  { apply in_cksum_sums; [by constructor|by rewrite cbytes_cons, app_nil_r|simpl; lia|done]. }
  rewrite cbytes_cons, app_nil_r in Hone. rewrite <- Hone. unfold in_cksum. cbn [cksum_loop]. rewrite Z.min_r by lia.
  destruct (Z.eqb_spec len 0); [lia|]. unfold kbind, knonnull. rewrite (bytes_at_run b m 0 len Hm) by lia.
  destruct (in_cksumbuf _ _) as [v|]; [|done]. rewrite Z.sub_diag. by destruct r.
Qed.

Lemma swap_short_max v : swap_short v < 32768.
Proof. unfold swap_short, s16. Z.div_mod_to_equations. lia. Qed.

Lemma check_sum_ok s A L m r w v h : packet_of s A L (m :: r) w -> ip_get w = Some (v, h) -> IP_HDR <= hdr_len h <= m_len m ->
  let hlen := hdr_len h in let n := swap_short (ip_len h) in
  exists out s', check_sum h hlen (m :: r) s = Some (out, s') /\
    accepted s' A L (if ztrue (checksum (take (Z.to_nat hlen) w)) || (n <? hlen) || (zlen w <? n) then None
                     else Some (to_host h, drop (Z.to_nat hlen) (take (Z.to_nat n) w))) out.
Proof.
  intros Hpo Hget Hh hlen n. pose proof Hpo as [Hg Hb Hw Hhdr]. pose proof (good_sound _ _ _ _ Hg) as Hs. pose proof Hs as [Hm Hr]%Forall_cons.
  pose proof Hb as Hb0. rewrite cbytes_cons in Hb. assert (Hfront : take (Z.to_nat hlen) (mbytes (ip_mb s) m) = take (Z.to_nat hlen) w).
  { pose proof (mbytes_len _ _ Hm) as Hml. rewrite <- Hb, take_app_le; [done|]. unfold zlen, hlen in *. lia. }
  unfold check_sum. unfold IP_HDR in *. assert (Hmw : Forall is_byte (mbytes (ip_mb s) m)) by (rewrite <- Hb in Hw; by apply Forall_app in Hw as [? _]).
  assert (Hck : mb (in_cksum (m :: r) hlen) s = Some (checksum (take (Z.to_nat hlen) w), false, s)).
  { apply mb_same. by rewrite (in_cksum_front (ip_mb s) m r hlen Hs Hmw), Hfront by (unfold hlen; lia). }
  rewrite (bind_run _ _ _ _ _ Hck). assert (Hlong : 20 <= zlen w).
  { pose proof (po_len _ _ _ _ _ Hpo) as Hl. pose proof (m_length_nonneg _ _ Hr). simpl in Hl. lia. }
  destruct (ip_get_long w Hlong) as (v' & h' & Hget' & Hkey). rewrite Hget in Hget'. injection Hget' as <- <-.
  destruct (ztrue (checksum (take (Z.to_nat hlen) w))) eqn:Esum; cbn [orb].
  { destruct (bad_ok (Some ips_badsum) s A L (m :: r) w Hpo) as (s' & Hrun & Hg'). exists None, s'. by repeat split; [| |left]. }
  assert (E0 : checksum (take (Z.to_nat hlen) w) = 0) by (unfold ztrue in Esum; by apply negb_false_iff, Z.eqb_eq in Esum). rewrite E0.
  change (ip_len (set_iplen (swap_short (ip_len h)) (set_sum 0 h))) with n. destruct (Z.ltb_spec n hlen) as [Hlt|Hge]; cbn [orb].
  { destruct (bad_ok (Some ips_badlen) s A L (m :: r) w Hpo) as (s' & Hrun & Hg'). exists None, s'. by repeat split; [| |left]. }
  change (set_off _ (set_id _ _)) with (to_host h).
  apply (check_length_ok s A L m r w (to_host h) hlen Hpo eq_refl); [change (ip_len (to_host h)) with n; unfold IP_HDR, hlen in *; lia|apply swap_short_max|unfold hlen; lia|done].
Qed.

Lemma check_hlen_ok s A L m r w : packet_of s A L (m :: r) w -> IP_HDR <= m_len m ->
  exists out s' A', check_hlen (m :: r) s = Some (out, s') /\ accepted s' A' L (a_check w) out /\ (A' = A \/ lacking_memory A A').
Proof.
  intros Hpo Hm. pose proof Hpo as [Hg Hb Hw Hhdr]. pose proof (good_sound _ _ _ _ Hg) as Hs. pose proof Hs as [Hm1 Hr]%Forall_cons.
  rewrite cbytes_cons in Hb. pose proof (mbytes_len _ _ Hm1) as Hml. unfold IP_HDR in *.
  assert (Hfront : take 20 (mbytes (ip_mb s) m) = take 20 w) by (rewrite <- Hb, take_app_le; [done|]; unfold zlen in *; lia).
  assert (Hlong : 20 <= zlen w) by (rewrite <- Hb, zlen_app; pose proof (zlen_nonneg (cbytes (ip_mb s) r)); lia).
  assert (Hbytes : mb (bytes_at m 0 IP_HDR) s = Some (take 20 w, s)).
  { apply mb_same. rewrite (bytes_at_run (ip_mb s) m 0 IP_HDR Hm1) by (done || unfold IP_HDR; lia). do 2 f_equal. exact Hfront. }
  destruct (ip_get_long w Hlong) as (v & h & Hget & _). unfold check_hlen. rewrite (bind_run _ _ _ _ _ Hbytes), (bind_nonnull _ _ _ (v, h)) by (by rewrite ip_get_take).
  pose proof (ip_get_hlen w v h Hget) as Hh60. unfold a_check. rewrite Hget. unfold IP_HDR.
  assert (Hbad : forall f, exists out s' A', bad f (m :: r) s = Some (out, s') /\ accepted s' A' L None out /\ (A' = A \/ lacking_memory A A')).
  { intros f. destruct (bad_ok f s A L (m :: r) w Hpo) as (s' & Hrun & Hg'). exists None, s', A. split; [done|]. split; [split; [done|by left]|by left]. }
  destruct (negb (v =? IPVERSION)); cbn [orb]; [apply Hbad|]. destruct (Z.ltb_spec (hdr_len h) 20); cbn [orb]; [apply Hbad|].
  destruct (Z.ltb_spec (m_len m) (hdr_len h)) as [Hlt|Hge].
  - destruct (pull_in (hdr_len h) s A L (m :: r) w Hpo ltac:(unfold MHLEN; lia)) as (out & s1 & A1 & Hrun & Hor & Hout). rewrite (bind_run _ _ _ _ _ Hrun).
    destruct out as [|y q].
    + destruct Hout as [Hg1 Hwhy]. eexists None, _, A1. split; [done|]. split; [|done]. split; [by apply good_count|].
      destruct Hwhy as [Hn|Hlt1]; [by right|left]. destruct (Z.ltb_spec (zlen w) (hdr_len h)); [done|lia].
    + destruct Hout as (Hpo1 & Hy & _). destruct (check_sum_ok s1 A1 L y q w v h Hpo1 Hget ltac:(unfold IP_HDR; lia)) as (out & s2 & Hrun2 & Hacc).
      exists out, s2, A1. split; [done|]. split; [|done]. pose proof (po_len _ _ _ _ _ Hpo1) as Hl.
      pose proof (good_sound _ _ _ _ (po_good _ _ _ _ _ Hpo1)) as [_ Hq]%Forall_cons. pose proof (m_length_nonneg _ _ Hq). simpl in Hl.
      destruct (Z.ltb_spec (zlen w) (hdr_len h)); [lia|]. exact Hacc.
  - destruct (check_sum_ok s A L m r w v h Hpo Hget ltac:(unfold IP_HDR; lia)) as (out & s2 & Hrun2 & Hacc).
    exists out, s2, A. split; [done|]. split; [|by left]. pose proof (po_len _ _ _ _ _ Hpo) as Hl. pose proof (m_length_nonneg _ _ Hr). simpl in Hl.
    destruct (Z.ltb_spec (zlen w) (hdr_len h)); [lia|]. exact Hacc.
Qed.

Lemma header_run s A L c w : packet_of s A L c w -> exists out s' A', ip_check c s = Some (out, s') /\
  accepted s' A' L (a_check w) out /\ (A' = A \/ None ∈ answers /\ (A' = A \/ A' = [])).
Proof.
  intros Hpo. destruct c as [|m r]; [by destruct Hpo|]. unfold ip_check. unfold count at 1. rewrite bind_mod.
  apply (po_count ips_total) in Hpo. set (s0 := with_ips _ s) in *. destruct (Z.ltb_spec (m_len m) IP_HDR) as [Hlt|Hge]; [|by apply (check_hlen_ok s0 A L m r w)].
  destruct (pull_in IP_HDR s0 A L (m :: r) w Hpo ltac:(done)) as (out & s1 & A1 & Hrun & Hor & Hout). rewrite (bind_run _ _ _ _ _ Hrun).
  destruct out as [|y q].
  - destruct Hout as [Hg1 Hwhy]. eexists None, _, A1. split; [done|]. split; [|done]. split; [by apply good_count|].
    destruct Hwhy as [Hn|Hlt1]; [by right|left]. unfold a_check. by rewrite ip_get_short.
  - destruct Hout as (Hpo1 & Hy & _). destruct (check_hlen_ok s1 A1 L y q w Hpo1 Hy) as (out & s2 & A2 & Hrun2 & Hacc & Hor2).
    exists out, s2, A2. split; [done|]. split; [done|]. unfold lacking_memory in *.
    destruct Hor as [->|[Hn [->| ->]]], Hor2 as [->|[Hn' [->| ->]]]; tauto.
Qed.

(** C11. The checks of [ipintr] on a packet that comes in, in mbufs of any number, length and kind:
    they never fail; a packet is accepted only when its bytes are a good one - version, lengths,
    checksum - and then has the header in the order of the host and, after the header and its
    options, the data that the header tells and no more.  A good packet is always accepted,
    unless MALLOC refuses an mbuf to bring the header together: then it may be dropped, and the
    queues of fragments drained.  What is not accepted is freed.  A packet without options is in
    order for reassembly. *)
Theorem check_refines s A L c w : packet_of s A L c w -> exists out s' A', ip_check c s = Some (out, s') /\
  accepted s' A' L (a_check w) out /\ (A' = A \/ None ∈ answers /\ (A' = A \/ A' = [])).
Proof. intros Hpo. destruct (header_run s A L c w Hpo) as (out & s' & A' & Hr & Hacc & Hor). by exists out, s', A'. Qed.
End Memory.

(** ** Bytes and numbers *)

Lemma to_le_length n x : length (to_le n x) = n.
Proof. revert x. induction n as [|n IH]; intros x; simpl; [done|]. by rewrite IH. Qed.
Lemma to_le_bytes n x : Forall is_byte (to_le n x).
Proof. revert x. induction n as [|n IH]; intros x; constructor; [apply Z.mod_pos_bound; lia|apply IH]. Qed.
Lemma le_to_le n x : 0 <= x < 256 ^ Z.of_nat n -> le (to_le n x) = x.
Proof.
  revert x. induction n as [|n IH]; intros x Hx; [simpl in *; lia|]. change (le (to_le (S n) x)) with (x mod 256 + 256 * le (to_le n (x / 256))).
  rewrite Nat2Z.inj_succ, Z.pow_succ_r in Hx by lia. rewrite IH; [pose proof (Z.div_mod x 256 ltac:(lia)); lia|].
  split; [apply Z.div_pos; lia|]. apply Z.div_lt_upper_bound; lia.
Qed.

Lemma s16_u16 x : is_s16 x -> s16 (u16 x) = x.
Proof. unfold is_s16. intros H. mlia. Qed.

(** A header whose fields fit their places. *)
Record sized (h : ip) : Prop := {
  sz_hl : 0 <= ip_hl h < 16; sz_tos : is_byte (ip_tos h); sz_len : is_s16 (ip_len h); sz_id : 0 <= ip_id h < 65536; sz_off : is_s16 (ip_off h);
  sz_ttl : is_byte (ip_ttl h); sz_p : is_byte (ip_p h); sz_sum : 0 <= ip_sum h < 65536;
  sz_src : exists a, ip_src h = Addr a /\ 0 <= a < 4294967296; sz_dst : exists a, ip_dst h = Addr a /\ 0 <= a < 4294967296 }.

Definition hdr_bytes (h : ip) : list Z := match ip_put IPVERSION h with Some w => w | None => [] end.

Lemma ip_put_bytes h : sized h -> ip_put IPVERSION h = Some (hdr_bytes h) /\ zlen (hdr_bytes h) = 20 /\ Forall is_byte (hdr_bytes h).
Proof.
  intros [? ? ? ? ? ? ? ? (a & Ha & _) (d & Hd & _)]. unfold hdr_bytes, ip_put. rewrite Ha, Hd. split; [done|]. split; [done|].
  rewrite !Forall_app. split_and!; try apply to_le_bytes.
  - constructor; [unfold is_byte, IPVERSION; lia|by constructor].
  - constructor; [done|by constructor].
Qed.

Lemma s16_small x : -32768 <= x < 32768 -> s16 x = x.
Proof. intros H. mlia. Qed.
Lemma u16_small x : 0 <= x < 65536 -> u16 x = x.
Proof. intros H. unfold u16. by rewrite Z.mod_small. Qed.

Lemma two_bytes x : 0 <= x < 65536 -> le [x mod 256; x / 256 mod 256] = x.
Proof. intros H. exact (le_to_le 2 x H). Qed.
Lemma four_bytes x : 0 <= x < 4294967296 -> le [x mod 256; x / 256 mod 256; x / 256 / 256 mod 256; x / 256 / 256 / 256 mod 256] = x.
Proof. intros H. exact (le_to_le 4 x H). Qed.

Lemma ip_get_put h rest : sized h -> ip_get (hdr_bytes h ++ rest) = Some (IPVERSION, h).
Proof.
  intros [H1 H2 H3 H4 H5 H6 H7 H8 (a & Ha & Hra) (d & Hd & Hrd)]. unfold hdr_bytes, ip_put. rewrite Ha, Hd. cbn [app to_le ip_get].
  assert (Hu : forall x, 0 <= u16 x < 65536) by (intros x; apply Z.mod_pos_bound; lia).
  rewrite !two_bytes, !four_bytes, !s16_u16 by (done || apply Hu). unfold IPVERSION.
  replace ((ip_hl h + 16 * 4) / 16) with 4 by (Z.div_mod_to_equations; lia). replace ((ip_hl h + 16 * 4) mod 16) with (ip_hl h) by (Z.div_mod_to_equations; lia).
  do 2 f_equal. destruct h. simpl in *. by subst.
Qed.

(** ** The order of bytes *)

Lemma ntohs_range x : 0 <= ntohs x < 65536.
Proof. unfold ntohs. Z.div_mod_to_equations. lia. Qed.
Lemma ntohs_ntohs x : 0 <= x < 65536 -> ntohs (ntohs x) = x.
Proof. unfold ntohs. intros H. Z.div_mod_to_equations. lia. Qed.
Lemma u16_s16 x : 0 <= x < 65536 -> u16 (s16 x) = x.
Proof. intros H. mlia. Qed.
Lemma s16_range x : is_s16 (s16 x).
Proof. unfold is_s16. mlia. Qed.

Lemma swap_net x : 0 <= x < 65536 -> swap_short (s16 (ntohs x)) = s16 x.
Proof. intros H. unfold swap_short. rewrite u16_s16 by apply ntohs_range. by rewrite ntohs_ntohs. Qed.
Lemma swap_twice x : is_s16 x -> swap_short (swap_short x) = x.
Proof.
  intros H. assert (Hu : 0 <= u16 x < 65536) by (apply Z.mod_pos_bound; lia). unfold swap_short at 2. rewrite swap_net by done. by apply s16_u16.
Qed.

(** ** A packet as it is sent *)

(** The packet with the header [h], all but its checksum, and [data]. *)
Definition sealed (h : ip) : ip := set_sum (checksum (hdr_bytes (set_sum 0 h))) h.
Definition wire (h : ip) (data : list Z) : list Z := hdr_bytes (sealed h) ++ data.

Lemma sized_sum h v : sized h -> 0 <= v < 65536 -> sized (set_sum v h).
Proof. intros []. by split. Qed.

Lemma sealed_sized h : sized h -> sized (sealed h).
Proof.
  intros Hs. apply sized_sum; [done|]. destruct (ip_put_bytes (set_sum 0 h) (sized_sum h 0 Hs ltac:(lia))) as (_ & _ & Hb).
  pose proof (checksum_range _ Hb). lia.
Qed.

(** The checksum is in its place. *)
Lemma sealed_checks h : sized h -> checksum (hdr_bytes (sealed h)) = 0.
Proof.
  intros Hs. pose proof (sealed_sized h Hs) as Hss. destruct (ip_put_bytes (set_sum 0 h) (sized_sum h 0 Hs ltac:(lia))) as (_ & _ & Hb).
  pose proof (checksum_range _ Hb) as Hr. destruct Hs as [_ _ _ _ _ _ _ _ (a & Ha & _) (d & Hd & _)].
  set (w1 := [ip_hl h + 16 * 4; ip_tos h] ++ to_le 2 (u16 (ip_len h)) ++ to_le 2 (ip_id h) ++ to_le 2 (u16 (ip_off h)) ++ [ip_ttl h; ip_p h]).
  set (w2 := to_le 4 a ++ to_le 4 d).
  assert (Hput : forall v, hdr_bytes (set_sum v h) = w1 ++ to_le 2 v ++ w2).
  { intros v. unfold hdr_bytes, ip_put, w1, w2. simpl. by rewrite Ha, Hd. }
  rewrite Hput in Hb, Hr. unfold sealed. rewrite !Hput. set (c := checksum (w1 ++ to_le 2 0 ++ w2)) in *.
  apply Forall_app in Hb as [B1 [_ B2]%Forall_app].
  assert (Hc : to_le 2 c = [c mod 256; c / 256]) by (simpl; rewrite (Z.mod_small (c / 256)); [done|Z.div_mod_to_equations; lia]).
  rewrite Hc. by apply checksum_filled.
Qed.

(** The header [h] in the order of the network: as a receiver has it in its own order. *)
Lemma wire_accepted h data : sized h -> hdr_len h = IP_HDR -> swap_short (ip_len h) = IP_HDR + zlen data ->
  a_check (wire h data) = Some (to_host h, data).
Proof.
  intros Hs Hl Hn. pose proof (sealed_sized h Hs) as Hss. destruct (ip_put_bytes _ Hss) as (_ & Hz & _).
  pose proof (zlen_nonneg data) as Hd0. unfold a_check, wire. rewrite ip_get_put by done.
  change (hdr_len (sealed h)) with (hdr_len h). change (ip_len (sealed h)) with (ip_len h). rewrite Hl, Hn, zlen_app, Hz. unfold IP_HDR in *.
  assert (Htake : take (Z.to_nat 20) (hdr_bytes (sealed h) ++ data) = hdr_bytes (sealed h)).
  { rewrite take_app_le by (unfold zlen in Hz; lia). apply take_ge. unfold zlen in Hz. lia. }
  rewrite Htake, sealed_checks by done.
  replace (20 + zlen data <? 20) with false by (symmetry; apply Z.ltb_ge; lia). rewrite Z.ltb_irrefl. change (negb (IPVERSION =? IPVERSION)) with false.
  cbn [orb negb Z.eqb ztrue]. rewrite Z.ltb_irrefl. do 2 f_equal. unfold zlen in *. rewrite take_ge by (rewrite length_app; lia).
  by rewrite drop_app_ge, (ltac:(lia) : (Z.to_nat 20 - length (hdr_bytes (sealed h)))%nat = 0%nat) by lia.
Qed.
