(* ===== verification/IpSplit.v ===== *)
(** * The fragments of a packet

    The fragments that [ip_output] makes, as headers and data: each is a fragment of the datagram
    that the packet is - or, when the packet is itself a fragment, is a part of - and together
    they have the bytes of the packet and no others. *)

From S2P Require Import Prelude Mbuf MbufSpec MbufOps Cksum CksumSum Ring IpFrag IpSpec IpView IpHistory IpHeader IpOut IpWire.
Local Open Scope kern_scope.

(** ** What is sent *)

(** The fragments of [D], which is the data of the packet with the header [h], from the byte [off] of the packet. *)
Fixpoint a_frags (fuel : nat) (h : ip) (D : list Z) (len off : Z) : list (ip * list Z) :=
  match fuel with
  | O => []
  | S fuel =>
      let total := u16 (ip_len h) in
      if off <? total then
        let last := total <=? off + len in
        let n := if last then total - off else len in
        (frag_hdr h IP_HDR IP_HDR off n last, take (Z.to_nat n) (drop (Z.to_nat (off - IP_HDR)) D)) :: a_frags fuel h D n (off + n)
      else []
  end.

Definition frag_room (mtu : Z) : Z := Z.land (mtu - IP_HDR) (Z.lnot 7).
Definition first_hdr (h : ip) (len : Z) : ip :=
  set_off (swap_short (Z.lor (ip_off h) IP_MF)) (set_iplen (s16 (ntohs (u16 (IP_HDR + len)))) h).
Definition a_split (h : ip) (D : list Z) (mtu : Z) : list (ip * list Z) :=
  let len := frag_room mtu in
  (first_hdr h len, take (Z.to_nat len) D) :: a_frags (S (Z.to_nat (u16 (ip_len h)))) h D len (IP_HDR + len).

(** ** Offsets *)

(** The offset field of a packet: a place, and whether more fragments follow. *)
Definition off_field (o : Z) (mf : bool) : Z := o + (if mf then IP_MF else 0).

Lemma bit13 o : 0 <= o < 8192 -> Z.testbit o 13 = false.
Proof. intros Ho. change 8192 with (2 ^ 13) in Ho. rewrite <- (Z.mod_small o (2 ^ 13)) by done. by rewrite Z.mod_pow2_bits_high by lia. Qed.
Lemma no_bit13 o : 0 <= o < 8192 -> Z.land o IP_MF = 0.
Proof.
  intros Ho. apply Z.bits_inj'. intros n Hn. change IP_MF with (2 ^ 13). rewrite Z.land_spec, Z.pow2_bits_eqb, Z.bits_0 by lia.
  destruct (Z.eqb_spec 13 n) as [<-|]; [by rewrite bit13|by rewrite andb_false_r].
Qed.
Lemma with_mf o : 0 <= o < 8192 -> o + IP_MF = Z.lor o IP_MF.
Proof. intros Ho. rewrite Z.add_nocarry_lxor by (by apply no_bit13). by apply Z.lxor_lor, no_bit13. Qed.

Lemma high_bit o b : 0 <= o < 8192 -> Z.lor (off_field o b) IP_MF = off_field o true.
Proof. intros Ho. unfold off_field. destruct b; [by rewrite with_mf, <- Z.lor_assoc, Z.lor_diag|by rewrite Z.add_0_r, with_mf]. Qed.
Lemma low_bits o b : 0 <= o < 8192 -> Z.land (off_field o b) (Z.lnot IP_MF) = o.
Proof.
  intros Ho. assert (Hl : Z.land o (Z.lnot IP_MF) = o) by (rewrite <- Z.ldiff_land; rewrite <- (Z.lor_ldiff_and o IP_MF) at 2; by rewrite no_bit13, Z.lor_0_r).
  unfold off_field. destruct b; [|by rewrite Z.add_0_r]. rewrite with_mf by done. by rewrite Z.land_lor_distr_l, Hl, Z.land_lnot_diag, Z.lor_0_r.
Qed.
Lemma more_bit o b : 0 <= o < 8192 -> flag_set (off_field o b) IP_MF = b.
Proof.
  intros Ho. unfold flag_set, off_field. destruct b; [|by rewrite Z.add_0_r, no_bit13].
  rewrite with_mf by done. by rewrite Z.land_lor_distr_l, no_bit13, Z.land_diag by done.
Qed.
Lemma shift_off o b : 0 <= o < 4096 -> s16 (Z.shiftl (off_field o b) 3) = 8 * o.
Proof. intros Ho. unfold off_field, IP_MF. rewrite Z.shiftl_mul_pow2 by lia. unfold s16. destruct b; Z.div_mod_to_equations; lia. Qed.

(** ** The headers of fragments *)

(** A packet to send with the header [h], its [ip_id] in the order of the network already, and the data [P]. *)
Record sending (h : ip) (P : list Z) (o : Z) (mf : bool) : Prop := {
  sn_sized : sized h; sn_hl : ip_hl h = 5; sn_len : ip_len h = IP_HDR + zlen P; sn_off : ip_off h = off_field o mf;
  sn_o : 0 <= o; sn_end : 8 * o + zlen P < 32768 }.

(** The header as the hosts have it, and that of a part of it. *)
Definition host_hdr (h : ip) : ip := set_id (ntohs (ip_id h)) h.
Definition part_hdr (h : ip) (o : Z) (b : bool) (n : Z) : ip :=
  set_off (swap_short (off_field o b)) (set_iplen (s16 (ntohs (u16 (n + IP_HDR)))) h).

Lemma off_field_short o b : 0 <= o < 8192 -> is_s16 (off_field o b).
Proof. unfold is_s16, off_field, IP_MF. destruct b; lia. Qed.

Lemma piece_fields h data : f_off (piece_of h data) = s16 (Z.shiftl (ip_off h) 3) /\ f_len (piece_of h data) = s16 (ip_len h - hdr_len h) /\
  f_more (piece_of h data) = (if flag_set (ip_off h) IP_MF then 1 else 0).
Proof. done. Qed.

Section Sending.
Context (h : ip) (P : list Z) (o : Z) (mf : bool) (Hsend : sending h P o mf).

Lemma total_len : u16 (ip_len h) = IP_HDR + zlen P.
Proof. destruct Hsend as [[] ? Hl ? ? ?]. unfold is_s16 in *. rewrite Hl in *. pose proof (zlen_nonneg P). unfold IP_HDR in *. apply u16_small. lia. Qed.

Lemma first_hdr_is len : first_hdr h len = part_hdr h o true len.
Proof.
  destruct Hsend as [_ _ _ Ho H0 H1]. pose proof (zlen_nonneg P). unfold first_hdr, part_hdr. rewrite Ho, high_bit by lia. by rewrite (Z.add_comm IP_HDR).
Qed.
Lemma frag_hdr_is r n last : 0 <= r < zlen P -> r mod 8 = 0 ->
  frag_hdr h IP_HDR IP_HDR (IP_HDR + r) n last = part_hdr h (o + r / 8) (mf || negb last) n.
Proof.
  intros Hr H8. destruct Hsend as [_ _ _ Ho H0 H1]. assert (Hb : 0 <= o + r / 8 < 4096) by (Z.div_mod_to_equations; lia).
  unfold frag_hdr, part_hdr. rewrite Z.add_simpl_l, Z.shiftr_div_pow2, Ho, low_bits, more_bit by lia. change (2 ^ 3) with 8. rewrite Z.ltb_irrefl.
  rewrite (Z.add_comm (r / 8)), (s16_small (o + r / 8)) by lia.
  assert (Hx : (let x := if mf then Z.lor (o + r / 8) IP_MF else o + r / 8 in if last then x else Z.lor x IP_MF) = off_field (o + r / 8) (mf || negb last)).
  { assert (Hor : Z.lor (o + r / 8) IP_MF = off_field (o + r / 8) true) by (rewrite <- (high_bit _ false) by lia; unfold off_field; by rewrite Z.add_0_r).
    destruct mf, last; cbv zeta; rewrite ?Hor, ?high_bit by lia; try done. symmetry. apply Z.add_0_r. }
  cbv zeta in Hx. by rewrite Hx.
Qed.

Lemma part_hdr_ok o' b n data : 0 <= o' < 4096 -> 0 <= n -> n + IP_HDR < 32768 -> zlen data = n ->
  let nh := part_hdr h o' b n in let hh := to_host nh in
  sized nh /\ hdr_len nh = IP_HDR /\ swap_short (ip_len nh) = IP_HDR + zlen data /\ key_of hh = key_of (host_hdr h) /\
  f_off (piece_of hh data) = 8 * o' /\ f_len (piece_of hh data) = n /\ f_more (piece_of hh data) = (if b then 1 else 0) /\
  (really_frag hh = true <-> b = true \/ o' <> 0).
Proof.
  intros Ho Hn Hmax Hd nh hh. destruct Hsend as [Hs Hhl _ _ _ _]. unfold IP_HDR in *. pose proof Hs as [S1 S2 S3 S4 S5 S6 S7 S8 S9 S10].
  assert (Hlen : swap_short (ip_len nh) = 20 + n).
  { change (ip_len nh) with (s16 (ntohs (u16 (n + 20)))). rewrite swap_net by (unfold u16; Z.div_mod_to_equations; lia).
    rewrite (u16_small (n + 20)) by lia. rewrite s16_small by lia. lia. }
  assert (Hoff : ip_off hh = off_field o' b).
  { change (ip_off hh) with (swap_short (swap_short (off_field o' b))). apply swap_twice, off_field_short. lia. }
  assert (Hh : hdr_len hh = 20) by (unfold hdr_len; change (ip_hl hh) with (ip_hl h); by rewrite Hhl).
  destruct (piece_fields hh data) as (Hfo & Hfl & Hfm). rewrite Hoff, shift_off in Hfo by lia. rewrite Hoff, more_bit in Hfm by lia.
  split_and!; try done.
  - split; try done; [apply s16_range|apply s16_range].
  - by rewrite Hd.
  - rewrite Hfl, Hh. change (ip_len hh) with (swap_short (ip_len nh)). rewrite Hlen, s16_small by lia. lia.
  - assert (Hr : really_frag hh = ztrue (f_more (piece_of hh data)) || ztrue (f_off (piece_of hh data))) by done.
    rewrite Hr, Hfm, Hfo, orb_true_iff. unfold ztrue. rewrite !negb_true_iff, !Z.eqb_neq. destruct b; split; intros [?|?]; (by left) || (right; lia) || done.
Qed.

(** ** The fragments *)

Context (D : list Z) (Hpiece : piece D (piece_of (host_hdr h) P)) (Hlen : zlen D < 32768).

Lemma whole_fields : f_off (piece_of (host_hdr h) P) = 8 * o /\ f_len (piece_of (host_hdr h) P) = zlen P /\
  f_more (piece_of (host_hdr h) P) = (if mf then 1 else 0).
Proof.
  destruct Hsend as [[] Hhl Hl Ho H0 H1]. pose proof (zlen_nonneg P). unfold is_s16 in *. destruct (piece_fields (host_hdr h) P) as (-> & -> & ->).
  change (ip_len (host_hdr h)) with (ip_len h). change (ip_off (host_hdr h)) with (ip_off h).
  assert (Hh : hdr_len (host_hdr h) = 20) by (unfold hdr_len; change (ip_hl (host_hdr h)) with (ip_hl h); by rewrite Hhl).
  rewrite Hh, Ho, Hl, shift_off, more_bit by lia. unfold IP_HDR in *. split_and!; [done|rewrite s16_small; lia|by destruct mf].
Qed.

(** A part of the packet is a piece of the datagram. *)
Lemma part_piece r n b : 0 <= r -> r mod 8 = 0 -> 0 < n -> r + n <= zlen P -> (b = false <-> mf = false /\ r + n = zlen P) -> r + n < zlen P \/ 0 < r ->
  let nh := part_hdr h (o + r / 8) b n in let data := take (Z.to_nat n) (drop (Z.to_nat r) P) in let hh := to_host nh in
  zlen data = n /\ sized nh /\ hdr_len nh = IP_HDR /\ swap_short (ip_len nh) = IP_HDR + zlen data /\ key_of hh = key_of (host_hdr h) /\
  really_frag hh = true /\ piece D (piece_of hh data) /\ f_off (piece_of hh data) = 8 * o + r /\ f_end (piece_of hh data) = 8 * o + r + n.
Proof.
  intros Hr H8 Hn Hend Hb Hfrag nh data hh. destruct whole_fields as (W1 & W2 & W3). destruct Hpiece as [P1 P2 P3 P4 P5 P6]. unfold f_end in *. rewrite W1, W2 in *.
  assert (Hzd : zlen data = n) by (unfold data, zlen in *; rewrite length_take, length_drop; lia).
  destruct Hsend as [Hs Hhl Hl Ho H0 H1]. assert (Hs16 : is_s16 (ip_len h)) by apply Hs. unfold is_s16 in Hs16. rewrite Hl in Hs16. unfold IP_HDR in *.
  destruct (part_hdr_ok (o + r / 8) b n data ltac:(Z.div_mod_to_equations; lia) ltac:(lia) ltac:(unfold IP_HDR; lia) Hzd) as (Q1 & Q2 & Q3 & Q4 & Q5 & Q6 & Q7 & Q8).
  fold nh hh in Q1, Q2, Q3, Q4, Q5, Q6, Q7, Q8. assert (Hoff : f_off (piece_of hh data) = 8 * o + r) by (rewrite Q5; Z.div_mod_to_equations; lia).
  assert (Hbytes : data = part D (8 * o + r) n).
  { unfold data. change (f_bytes (piece_of (host_hdr h) P)) with P in P4. rewrite P4, part_drop by lia. unfold part. rewrite take_take. f_equal. lia. }
  split_and!; try done; try lia.
  - apply Q8. destruct b; [by left|right]. destruct Hfrag; [destruct (proj1 Hb eq_refl); lia|]. Z.div_mod_to_equations; lia.
  - split; unfold f_end; rewrite ?Hoff, ?Q6, ?Q7; try lia; try done.
    destruct mf, b; rewrite W3 in P5; simpl in *; (split; [|intros; lia]); intros; try lia; try (destruct (proj1 Hb eq_refl); lia).
    all: first [lia | exfalso; assert (true = false) by (apply Hb; split; [done|lia]); done].
Qed.

(** What is sent is accepted as a fragment of [D]. *)
Record sent_ok (f : ip * list Z) : Prop := {
  so_sized : sized f.1; so_hl : hdr_len f.1 = IP_HDR; so_len : swap_short (ip_len f.1) = IP_HDR + zlen f.2;
  so_key : key_of (to_host f.1) = key_of (host_hdr h); so_frag : really_frag (to_host f.1) = true;
  so_piece : piece D (piece_of (to_host f.1) f.2) }.
Definition got (f : ip * list Z) : frag := piece_of (to_host f.1) f.2.

Lemma part_sent r n b : 0 <= r -> r mod 8 = 0 -> 0 < n -> r + n <= zlen P -> (b = false <-> mf = false /\ r + n = zlen P) -> r + n < zlen P \/ 0 < r ->
  let f := (part_hdr h (o + r / 8) b n, take (Z.to_nat n) (drop (Z.to_nat r) P)) in
  sent_ok f /\ f_off (got f) = 8 * o + r /\ f_end (got f) = 8 * o + r + n.
Proof.
  intros H1 H2 H3 H4 H5 H6 f. destruct (part_piece r n b H1 H2 H3 H4 H5 H6) as (_ & Q1 & Q2 & Q3 & Q4 & Q5 & Q6 & Q7 & Q8). by split.
Qed.

(** Each has bytes that no other has. *)
Definition own_byte (fs : list (ip * list Z)) (f : ip * list Z) : Prop :=
  exists i, f_off (got f) <= i < f_end (got f) /\ forall g, g ∈ fs -> f_off (got g) <= i < f_end (got g) -> g = f.

Lemma own_byte_cons x fs : f_off (got x) < f_end (got x) -> (forall i, has (got <$> fs) i -> f_end (got x) <= i) ->
  (forall f, f ∈ fs -> own_byte fs f) -> forall f, f ∈ x :: fs -> own_byte (x :: fs) f.
Proof.
  intros Hx Hfs Hown f [->|Hf]%elem_of_cons.
  - exists (f_off (got x)). split; [lia|]. intros g [->|Hg]%elem_of_cons Hi; [done|]. specialize (Hfs (f_off (got x))).
    assert (has (got <$> fs) (f_off (got x))) by (exists (got g); split; [by apply list_elem_of_fmap_2|done]). intuition lia.
  - destruct (Hown f Hf) as (i & Hi & Hu). exists i. split; [done|]. intros g [->|Hg]%elem_of_cons Hgi; [|by apply Hu].
    assert (f_end (got x) <= i) by (apply Hfs; exists (got f); split; [by apply list_elem_of_fmap_2|done]). lia.
Qed.

Lemma frags_ok fuel r len : 0 < r -> r mod 8 = 0 -> len mod 8 = 0 -> 0 < len -> (Z.to_nat (zlen P - r) < fuel)%nat ->
  let fs := a_frags fuel h P len (IP_HDR + r) in
  Forall sent_ok fs /\ (forall i, has (got <$> fs) i <-> 8 * o + r <= i < 8 * o + zlen P) /\ forall f, f ∈ fs -> own_byte fs f.
Proof.
  revert r. induction fuel as [|fuel IH]; intros r Hr H8 Hl8 Hl Hf; [lia|]. cbn [a_frags]. rewrite total_len.
  assert (Hend : forall l r', zlen P <= r' -> a_frags fuel h P l (IP_HDR + r') = []).
  { intros l r' Hr'. destruct fuel; [done|]. cbn [a_frags]. rewrite total_len. destruct (Z.ltb_spec (IP_HDR + r') (IP_HDR + zlen P)); [lia|done]. }
  destruct (Z.ltb_spec (IP_HDR + r) (IP_HDR + zlen P)) as [Hlt|Hge].
  2:{ split; [constructor|]. split; [|by intros f ?%elem_of_nil]. intros i. split; [by intros ?%has_nil|lia]. }
  set (last := IP_HDR + zlen P <=? IP_HDR + r + len). set (n := if last then IP_HDR + zlen P - (IP_HDR + r) else len).
  assert (Hlast : last = true /\ n = zlen P - r \/ last = false /\ n = len /\ r + len < zlen P) by (unfold n, last; destruct (Z.leb_spec (IP_HDR + zlen P) (IP_HDR + r + len)); [left|right]; lia).
  rewrite Z.add_simpl_l, frag_hdr_is by lia.
  destruct (part_sent r n (mf || negb last)) as (S1 & S2 & S3); [lia|done|lia|lia| |lia|].
  { rewrite orb_false_iff, negb_false_iff. destruct Hlast as [[-> ->]|(-> & -> & ?)]; split; intros [? ?]; (done || split; (done || lia)). }
  assert (Hrest : Forall sent_ok (a_frags fuel h P n (IP_HDR + r + n)) /\
    (forall i, has (got <$> a_frags fuel h P n (IP_HDR + r + n)) i <-> 8 * o + r + n <= i < 8 * o + zlen P) /\
    forall f, f ∈ a_frags fuel h P n (IP_HDR + r + n) -> own_byte (a_frags fuel h P n (IP_HDR + r + n)) f).
  { rewrite <- Z.add_assoc. destruct Hlast as [[_ ->]|(_ & -> & ?)].
    - rewrite Hend by lia. split; [constructor|]. split; [|by intros f ?%elem_of_nil]. intros i. split; [by intros ?%has_nil|lia].
    - rewrite <- (Z.add_assoc (8 * o)). apply IH; [lia| |done|done|lia]. rewrite Z.add_mod, H8, Hl8 by lia. done. }
  destruct Hrest as (R1 & R2 & R3). split; [by constructor|]. split; [intros i; rewrite fmap_cons, has_cons, R2, S2, S3; lia|].
  apply own_byte_cons; [lia| |done]. intros i Hi%R2. lia.
Qed.

Lemma frag_room_mult mtu : frag_room mtu mod 8 = 0 /\ frag_room mtu <= mtu - IP_HDR.
Proof.
  unfold frag_room. change 7 with (Z.ones 3). rewrite <- Z.ldiff_land, Z.ldiff_ones_r, Z.shiftr_div_pow2, Z.shiftl_mul_pow2 by lia.
  change (2 ^ 3) with 8. split; [by apply Z.mod_mul|]. Z.div_mod_to_equations. lia.
Qed.

(** Together they have the packet. *)
Lemma split_ok mtu : mtu < IP_HDR + zlen P -> 8 <= frag_room mtu ->
  Forall sent_ok (a_split h P mtu) /\ (forall i, has (got <$> a_split h P mtu) i <-> 8 * o <= i < 8 * o + zlen P) /\
  forall f, f ∈ a_split h P mtu -> own_byte (a_split h P mtu) f.
Proof.
  intros Hm Hroom. destruct (frag_room_mult mtu) as [R1 R2]. unfold a_split. cbv zeta. set (len := frag_room mtu) in *.
  destruct (part_sent 0 len true) as (S1 & S2 & S3); [done|done|lia|lia|split; [done|lia]|lia|]. rewrite Z.div_0_l, Z.add_0_r in * by done.
  rewrite first_hdr_is. change (drop (Z.to_nat 0) P) with P in *. rewrite total_len.
  destruct (frags_ok (S (Z.to_nat (IP_HDR + zlen P))) len len ltac:(lia) R1 R1 ltac:(lia) ltac:(unfold IP_HDR; lia)) as (F1 & F2 & F3).
  split; [by constructor|]. split; [intros i; rewrite fmap_cons, has_cons, F2, S2, S3; lia|].
  apply own_byte_cons; [lia| |done]. intros i Hi%F2. lia.
Qed.
End Sending.
