(* ===== verification/IpOutput.v ===== *)
(** * The output of packets

    What [ip_output] makes of the mbufs of a packet: each fragment has its header in an mbuf of
    its own and a copy of its part of the data, or shares the clusters that hold it; and the
    theorem that from [sendit] on it sends the packet itself, or its fragments, or nothing and
    an error. *)

From S2P Require Import Prelude Mbuf MbufSpec MbufOps MbufCopy Cksum CksumSum Ring IpFrag IpRing IpSpec IpView IpHeader IpOut IpWire IpSplit.
Local Open Scope kern_scope.

(** ** Storing a header *)

Lemma put_front b m w : sound b m -> is_ext m = false -> zlen w <= m_len m ->
  exists d, put_at m 0 w = Some (set_dat d m) /\ sound b (set_dat d m) /\ same1 m (set_dat d m) /\
    mbytes b (set_dat d m) = w ++ drop (length w) (mbytes b m).
Proof.
  intros Hs He Hl. pose proof (sd_ok _ _ Hs) as [M1 M2 M3 M4 M5]. pose proof (m_start_nonneg m). pose proof (zlen_nonneg w).
  assert (Hlim : m_limit m = MLEN) by (unfold m_limit; by rewrite He). rewrite Hlim in M5.
  unfold put_at. rewrite Z.add_0_r. destruct (Z.leb_spec 0 (m_data m)); [|lia]. destruct (Z.leb_spec (m_data m + zlen w) (zlen (m_dat m))); [|lia].
  cbn [andb]. set (d := take _ _ ++ w ++ drop _ _). exists d.
  assert (Hd : zlen d = MLEN) by (unfold d; rewrite !zlen_app, zlen_take, zlen_drop by lia; lia).
  split; [done|]. split_and!; [|done|].
  - assert (Hlim' : m_limit (set_dat d m) = MLEN) by exact Hlim.
    split; [split; try done; by rewrite Hlim'|]. rewrite Hlim'. unfold mbuffer, is_ext in *. simpl. by rewrite He.
  - unfold mbytes, mbuffer, is_ext in *. simpl. rewrite He. unfold d, zlen in *. rewrite drop_app_ge by (rewrite length_take; lia).
    rewrite length_take, Nat.min_l, Nat.sub_diag, drop_0, take_app_ge by lia. f_equal.
    rewrite skipn_firstn_comm, drop_drop. f_equal. f_equal. lia.
Qed.

Lemma store_hdr_ok b m r h : sound b m -> is_ext m = false -> IP_HDR <= m_len m -> sized h ->
  exists d, store_hdr h (m :: r) b = Some (set_dat d m :: r, b) /\ sound b (set_dat d m) /\ same1 m (set_dat d m) /\
    mbytes b (set_dat d m) = hdr_bytes h ++ drop 20 (mbytes b m).
Proof.
  intros Hs He Hl Hh. destruct (ip_put_bytes h Hh) as (Hput & Hz & _). unfold IP_HDR in *.
  destruct (put_front b m (hdr_bytes h) Hs He ltac:(lia)) as (d & Hd & Hsd & Hsame & Hb). exists d. split_and!; [|done|done|].
  - unfold store_hdr. rewrite (bind_nonnull _ _ _ _ Hput), He. by rewrite (bind_nonnull _ _ _ _ Hd).
  - rewrite Hb. f_equal. f_equal. unfold zlen in Hz. lia.
Qed.

Lemma seal_ok b m r h : Forall (sound b) (m :: r) -> is_ext m = false -> IP_HDR <= m_len m -> sized h -> Forall is_byte (drop 20 (mbytes b m)) ->
  exists d, seal h IP_HDR (m :: r) b = Some (set_dat d m :: r, b) /\ sound b (set_dat d m) /\ same1 m (set_dat d m) /\
    mbytes b (set_dat d m) = hdr_bytes (sealed h) ++ drop 20 (mbytes b m).
Proof.
  intros [Hs Hr]%Forall_cons He Hl Hh Hby. assert (Hh0 : sized (set_sum 0 h)) by (apply sized_sum; [done|lia]).
  destruct (store_hdr_ok b m r _ Hs He Hl Hh0) as (d & Hrun & Hsd & Hsame & Hb). destruct (ip_put_bytes _ Hh0) as (_ & Hz & Hhb).
  unfold seal. rewrite (bind_run _ _ _ _ _ Hrun). assert (Hck : in_cksum (set_dat d m :: r) IP_HDR b = Some (checksum (hdr_bytes (set_sum 0 h)), false, b)).
  { rewrite in_cksum_front; [|by constructor|by rewrite Hb, Forall_app|unfold IP_HDR in *; simpl; lia]. rewrite Hb. do 4 f_equal.
    unfold zlen in Hz. rewrite take_app_le by (unfold IP_HDR; lia). apply take_ge. unfold IP_HDR. lia. }
  rewrite (bind_run _ _ _ _ _ Hck). pose proof (sealed_sized h Hh) as Hss.
  destruct (store_hdr_ok b (set_dat d m) r (sealed h) Hsd He Hl Hss) as (d2 & Hrun2 & Hsd2 & Hsame2 & Hb2).
  exists d2. split_and!; [exact Hrun2|done|done|]. change (set_dat d2 (set_dat d m)) with (set_dat d2 m) in Hb2. rewrite Hb2, Hb.
  f_equal. unfold zlen in Hz. rewrite drop_app_ge by lia. by replace (20 - length (hdr_bytes (set_sum 0 h)))%nat with 0%nat by lia.
Qed.

(** ** What is left alone *)

(** The owners of the mbufs [l] find them as they were; what reassembly holds may have been drained. *)
Record spared (l : list mbuf) (s s' : ipst) : Prop := {
  sp_keeps : keeps (ip_held s' ++ l) (ip_mb s) (ip_mb s');
  sp_held : forall c, nrefs c (ip_held s') <= nrefs c (ip_held s) }.

Lemma kept_spared l s s' : kept l s s' -> spared l s s'.
Proof. intros [H1 H2 _]. by split. Qed.
Lemma spared_ips l s v : spared l s (with_ips v s).
Proof. split; [apply keeps_refl|done]. Qed.
Lemma spared_refl l s : spared l s s.
Proof. split; [apply keeps_refl|done]. Qed.
Lemma spared_trans l s1 s2 s3 : spared l s1 s2 -> spared l s2 s3 -> spared l s1 s3.
Proof.
  intros [K1 H1] [K2 H2]. split; [|intros c; etrans; [apply H2|apply H1]].
  apply (keeps_trans _ _ (ip_mb s2)); [|done]. apply (keeps_sub (ip_held s2 ++ l)); [|done].
  intros c. rewrite !nrefs_app. specialize (H2 c). lia.
Qed.
Lemma spared_sub l l' s s' : (forall c, nrefs c l' <= nrefs c l) -> spared l s s' -> spared l' s s'.
Proof.
  intros Hn [K H]. split; [|done]. apply (keeps_sub (ip_held s' ++ l)); [|done]. intros c. rewrite !nrefs_app. specialize (Hn c). lia.
Qed.
Lemma spared_bytes l s s' c : spared l s s' -> c ⊆ l -> cbytes (ip_mb s') c = cbytes (ip_mb s) c.
Proof. intros [K _] Hc. apply (keeps_cbytes _ _ _ _ K). set_solver. Qed.
Lemma spared_ans l s s' : spared l s s' -> None ∈ malloc_ans (ip_mb s') -> None ∈ malloc_ans (ip_mb s).
Proof. intros [K _]. apply K. Qed.
Lemma inuse_ips s l v : inuse s l -> inuse (with_ips v s) l.
Proof. intros [[qs Hs] Hp]. split; [exists qs; by eapply shape_same; [|exact Hs]|done]. Qed.

(** The clusters of [c] can be shared [k] times more. *)
Definition room (k : Z) (s : ipst) (c l : list mbuf) : Prop := forall x, nrefs x (ip_held s ++ l) + k * nrefs x c <= 256.

Lemma room_few k s c l : 0 <= k -> room k s c l -> few (ip_held s ++ l).
Proof. intros Hk Hr x. specialize (Hr x). pose proof (nrefs_nonneg x c). nia. Qed.
Lemma room_spared k s s' c l l' : spared l s s' -> room k s c l' -> room k s' c l'.
Proof. intros [_ H] Hr x. specialize (Hr x). specialize (H x). rewrite !nrefs_app in *. lia. Qed.

(** ** One fragment *)

Section Send.
Context (max_linkhdr : Z) (Hlink : 0 <= max_linkhdr <= 80).

(** The packet in [c] has the header [h] and the data [P]. *)
Record to_send (s : ipst) (h : ip) (c : list mbuf) (P : list Z) : Prop := {
  ts_hl : hdr_len h = IP_HDR;
  ts_len : u16 (ip_len h) = IP_HDR + zlen P;
  ts_short : IP_HDR + zlen P < 32768;
  ts_bytes : drop 20 (cbytes (ip_mb s) c) = P;
  ts_range : Forall is_byte P;
  ts_m : m_length c = IP_HDR + zlen P;
  ts_ne : c <> [] }.

Lemma to_send_spared l s s' h c P : spared l s s' -> c ⊆ l -> to_send s h c P -> to_send s' h c P.
Proof. intros Hs Hc [H1 H2 H3 H4 H5 H6 H7]. split; try done. by rewrite (spared_bytes _ _ _ _ Hs Hc). Qed.

(** The mbuf for the header of a fragment. *)
Lemma header_mbuf s l m : own_inv s -> fresh_mbuf MT_HEADER M_PKTHDR 8 m -> alloc (ip_mb s) m (ip_held s ++ l) ->
  let m1 := set_len IP_HDR (set_data (m_data m + max_linkhdr) m) in
  inuse s (m1 :: l) /\ is_ext m1 = false /\ is_hdr m1 = true /\ forall x, nrefs x (m1 :: l) = nrefs x l.
Proof.
  intros Hi (Ft & Ff & Fd & Fz) Ha m1. assert (He : is_ext m1 = false) by (unfold is_ext, flag_set; simpl; by rewrite Ff).
  assert (Hh : is_hdr m1 = true) by (unfold is_hdr, flag_set; simpl; by rewrite Ff).
  split_and!; [|done|done|intros x; rewrite nrefs_cons; unfold ref1; by rewrite He].
  split; [done|]. change (mb_get s) with (ip_mb s). change (held s) with (ip_held s). rewrite <- Permutation_middle.
  apply (alloc_pool _ m); [done| |done|done]. split; simpl; [by rewrite Ft|done|done| |]; rewrite Fd.
  - unfold m_start. rewrite Hh, He. simpl. lia.
  - unfold m_limit. rewrite He. unfold IP_HDR, MLEN. lia.
Qed.

Lemma frag_one_ok s h c l P len r : inuse s (c ++ l) -> room 1 s c (c ++ l) -> to_send s h c P -> 0 <= r < zlen P -> 0 < len ->
  let last := IP_HDR + zlen P <=? IP_HDR + r + len in let n := if last then IP_HDR + zlen P - (IP_HDR + r) else len in
  let nh := frag_hdr h IP_HDR IP_HDR (IP_HDR + r) n last in sized nh ->
  exists f out s', frag_one max_linkhdr h c IP_HDR len (IP_HDR + r) s = Some ((f, out), s') /\ spared (c ++ l) s s' /\
    inuse s' (f ++ c ++ l) /\ (forall x, nrefs x f <= nrefs x c) /\
    (out = Some n /\ cbytes (ip_mb s') f = wire nh (take (Z.to_nat n) (drop (Z.to_nat r) P)) \/
     out = None /\ None ∈ malloc_ans (ip_mb s)).
Proof.
  intros Hu Hroom [T1 T2 T3 T4 T5 T6 T7] Hr Hlen last n nh Hsz. pose proof (zlen_nonneg P). unfold frag_one. rewrite T2. fold last.
  assert (Hn : 0 < n /\ r + n <= zlen P) by (unfold n, last; destruct (Z.leb_spec (IP_HDR + zlen P) (IP_HDR + r + len)); lia).
  destruct (MGETHDR_ok s (c ++ l) MT_HEADER ltac:(done) Hu (room_few 1 s c _ ltac:(lia) Hroom)) as (o & s1 & Hget & Hi1 & Hk1 & Ho).
  rewrite (bind_run _ _ _ _ _ Hget). pose proof (kept_spared _ _ _ Hk1) as Hsp1. destruct o as [m|].
  2:{ destruct Ho as [Hp1 Hans]. exists [], None, s1. split_and!; [done|done|by split|intros x; apply nrefs_nonneg|by right]. }
  destruct Ho as [Hfr Hal]. destruct (header_mbuf s1 (c ++ l) m Hi1 Hfr Hal) as (Hu1 & He1 & Hh1 & Hn1). cbv zeta in Hu1, He1, Hh1, Hn1.
  unfold frag_place. rewrite Z.ltb_irrefl. rewrite (bind_run _ _ s1 (set_len IP_HDR (set_data (m_data m + max_linkhdr) m), IP_HDR) s1) by (by apply mb_same).
  set (m1 := set_len IP_HDR (set_data (m_data m + max_linkhdr) m)) in *. fold n.
  destruct (m_copym_ok s1 c (m1 :: c ++ l) (IP_HDR + r) n Hu1 T7) as (d & s2 & Hcopy & Hk2 & Hd).
  { set_solver. } { unfold IP_HDR. lia. } { lia. } { rewrite T6. unfold IP_HDR, M_COPYALL in *. lia. }
  { unfold want. rewrite T6. destruct (Z.eqb_spec n M_COPYALL); unfold IP_HDR, M_COPYALL in *; lia. }
  { intros x. pose proof (room_spared 1 s s1 c _ (c ++ l) Hsp1 Hroom x) as Hx. rewrite nrefs_app in Hx. rewrite nrefs_app, Hn1. change (held s1) with (ip_held s1). lia. }
  rewrite (bind_run _ _ _ _ _ Hcopy). pose proof (kept_spared _ _ _ Hk2) as Hsp2.
  assert (Hsp2' : spared (c ++ l) s1 s2) by (apply (spared_sub (m1 :: c ++ l)); [intros x; by rewrite Hn1|done]).
  assert (Hsp : spared (c ++ l) s s2) by (by eapply spared_trans).
  assert (Hwant : want c (IP_HDR + r) n = n) by (unfold want; destruct (Z.eqb_spec n M_COPYALL); unfold IP_HDR, M_COPYALL in *; lia). rewrite Hwant in Hd.
  assert (Hpart : take (Z.to_nat n) (drop (Z.to_nat (IP_HDR + r)) (cbytes (ip_mb s1) c)) = take (Z.to_nat n) (drop (Z.to_nat r) P)).
  { rewrite <- T4, drop_drop, (spared_bytes _ _ _ c Hsp1) by set_solver. do 2 f_equal. unfold IP_HDR. lia. }
  destruct Hd as [(Hu2 & Hdn & _ & Hdb)|(-> & Hu2 & Hans)].
  2:{ exists [m1], None, s2. split_and!; [done|done|exact Hu2| |right; split; [done|by apply (spared_ans _ _ _ Hsp1)]].
      intros x. specialize (Hn1 x). rewrite nrefs_cons in *. pose proof (nrefs_nonneg x c). change (nrefs x []) with 0. lia. }
  change (mb_get s2) with (ip_mb s2) in Hdb. change (mb_get s1) with (ip_mb s1) in Hdb. rewrite Hpart in Hdb.
  assert (Hpl : pool (ip_mb s2) (m1 :: d ++ ip_held s2 ++ c ++ l)).
  { assert (Hp : m1 :: d ++ ip_held s2 ++ c ++ l ≡ₚ ip_held s2 ++ d ++ m1 :: c ++ l) by solve_Permutation. rewrite Hp. apply Hu2. }
  assert (Hsound : Forall (sound (ip_mb s2)) (m1 :: d)) by (apply (pool_sounds _ _ _ Hpl); set_solver).
  set (m2 := set_hdr (Pkthdr (IP_HDR + n) None) m1). apply Forall_cons in Hsound as [Hs1 Hsd].
  destruct (set_hdr_ok _ _ (Pkthdr (IP_HDR + n) None) Hs1) as (Hs2 & Hsame2 & Hb2). fold m2 in Hs2, Hsame2, Hb2.
  assert (Hm2 : drop 20 (mbytes (ip_mb s2) m2) = []) by (apply drop_ge; pose proof (mbytes_len _ _ Hs2) as Hl; unfold zlen in Hl; simpl in Hl; unfold IP_HDR in Hl; lia).
  destruct (seal_ok (ip_mb s2) m2 d nh ltac:(by constructor) He1 ltac:(done) Hsz ltac:(by rewrite Hm2)) as (dd & Hseal & Hs3 & Hsame3 & Hb3).
  destruct d as [|d0 dr].
  { exfalso. change (cbytes (ip_mb s2) []) with (@nil Z) in Hdb. apply (f_equal length) in Hdb. rewrite length_take, length_drop in Hdb. unfold zlen in *. simpl in Hdb. lia. }
  rewrite (bind_run _ _ _ _ _ (mb_same _ s2 _ Hseal)). set (m3 := set_dat dd m2) in *.
  unfold count. rewrite bind_mod. exists (m3 :: d0 :: dr), (Some n), (with_ips (bump ips_ofragments (ips s2)) s2). split; [done|].
  split_and!; [by eapply spared_trans; [|apply spared_ips]| | |left].
  - apply inuse_ips. split; [apply Hu2|]. change (mb_get s2) with (ip_mb s2). change (held s2) with (ip_held s2).
    assert (Hp : ip_held s2 ++ (m3 :: d0 :: dr) ++ c ++ l ≡ₚ [m3] ++ (d0 :: dr) ++ ip_held s2 ++ c ++ l) by solve_Permutation. rewrite Hp.
    apply (pool_same _ [m1]); [done|constructor; [by etrans|constructor]|constructor; [apply Hs3|constructor]].
  - intros x. rewrite nrefs_cons, (same1_refs x m1 m3) by (by etrans). specialize (Hn1 x). rewrite nrefs_cons in Hn1. specialize (Hdn x). lia.
  - split; [done|]. change (ip_mb (with_ips _ s2)) with (ip_mb s2). rewrite cbytes_cons, Hb3, Hm2, app_nil_r, Hdb. done.
Qed.

Lemma frag_hdr_sized h off n last : sized h -> sized (frag_hdr h IP_HDR IP_HDR off n last).
Proof. intros []. unfold frag_hdr. rewrite Z.ltb_irrefl. split; try done; apply s16_range. Qed.

(** ** All fragments *)

(** The bytes of the packets [fs], and the packets [ps] as they are sent. *)
Definition sent (s : ipst) (fs : list (list mbuf)) (ps : list (ip * list Z)) : Prop :=
  cbytes (ip_mb s) <$> fs = (fun p => wire p.1 p.2) <$> ps.

Lemma sent_spared l s s' fs ps : spared l s s' -> mjoin fs ⊆ l -> sent s fs ps -> sent s' fs ps.
Proof.
  intros Hs Hl. unfold sent. intros <-. apply list_fmap_ext. intros i c Hc. apply (spared_bytes l); [done|].
  intros m Hm. apply Hl. apply list_elem_of_join. exists c. split; [done|]. by eapply list_elem_of_lookup_2.
Qed.

Lemma nrefs_perm x a b : a ≡ₚ b -> nrefs x a = nrefs x b.
Proof. unfold nrefs. by intros ->. Qed.
Lemma join_app_one {A} (fs : list (list A)) f : mjoin (fs ++ [f]) = mjoin fs ++ f.
Proof. rewrite join_app. simpl. by rewrite app_nil_r. Qed.

Lemma frag_loop_ok h P fuel s c l fs len r :
  sized h -> to_send s h c P -> 0 <= r -> 0 < len -> (Z.to_nat (zlen P - r) < fuel)%nat -> inuse s (c ++ mjoin fs ++ l) ->
  let ps := a_frags fuel h P len (IP_HDR + r) in room (zlen ps) s c (c ++ mjoin fs ++ l) ->
  exists fs' err s', frag_loop max_linkhdr fuel h c IP_HDR len (IP_HDR + r) fs s = Some ((fs ++ fs', err), s') /\
    spared (c ++ mjoin fs ++ l) s s' /\ inuse s' (c ++ mjoin (fs ++ fs') ++ l) /\ few (ip_held s' ++ c ++ mjoin (fs ++ fs') ++ l) /\
    (err = 0 /\ sent s' fs' ps \/ err = ENOBUFS /\ None ∈ malloc_ans (ip_mb s)).
Proof.
  revert s fs len r. induction fuel as [|fuel IH]; intros s fs len r Hsz Hts Hr Hlen Hfuel Hu ps Hroom; [lia|].
  assert (Hfew : few (ip_held s ++ c ++ mjoin fs ++ l)) by (apply (room_few _ _ c _ (zlen_nonneg ps)), Hroom).
  cbn [frag_loop a_frags] in *. unfold ps in *. clear ps. pose proof (ts_len _ _ _ _ Hts) as Htot. rewrite Htot in *.
  destruct (Z.ltb_spec (IP_HDR + r) (IP_HDR + zlen P)) as [Hlt|Hge].
  2:{ exists [], 0, s. rewrite app_nil_r. split_and!; [done|apply spared_refl|done|done|by left]. }
  set (last := IP_HDR + zlen P <=? IP_HDR + r + len) in *. set (n := if last then IP_HDR + zlen P - (IP_HDR + r) else len) in *.
  assert (Hn : 0 < n) by (unfold n, last; destruct (Z.leb_spec (IP_HDR + zlen P) (IP_HDR + r + len)); lia).
  rewrite <- Z.add_assoc in *. set (ps := a_frags fuel h P n (IP_HDR + (r + n))) in *. pose proof (zlen_nonneg ps) as Hps0.
  assert (Hroom' : forall x, nrefs x (ip_held s ++ c ++ mjoin fs ++ l) + (1 + zlen ps) * nrefs x c <= 256) by (intros x; specialize (Hroom x); by rewrite zlen_cons in Hroom).
  destruct (frag_one_ok s h c (mjoin fs ++ l) P len r Hu) as (f & out & s1 & Hone & Hsp1 & Hu1 & Hf & Hout);
    [intros x; specialize (Hroom' x); pose proof (nrefs_nonneg x c); nia|done|lia|done|by apply frag_hdr_sized|].
  fold last in Hout. fold n in Hout.
  assert (Hperm : f ++ c ++ mjoin fs ++ l ≡ₚ c ++ mjoin (fs ++ [f]) ++ l) by (rewrite join_app_one; solve_Permutation).
  assert (Hroom1 : room (zlen ps) s1 c (c ++ mjoin (fs ++ [f]) ++ l)).
  { intros x. specialize (Hroom' x). specialize (Hf x). pose proof (sp_held _ _ _ Hsp1 x). rewrite nrefs_app in *. rewrite <- (nrefs_perm _ _ _ Hperm), nrefs_app. lia. }
  apply (inuse_perm _ _ _ Hperm) in Hu1. rewrite (bind_run _ _ _ _ _ Hone). destruct Hout as [(-> & Hb)|(-> & Hans)].
  2:{ assert (Hj : mjoin (fs ++ match f with [] => [] | _ => [f] end) = mjoin (fs ++ [f])) by (rewrite join_app_one; destruct f; [by rewrite !app_nil_r|apply join_app_one]).
      exists (match f with [] => [] | _ => [f] end), ENOBUFS, s1. rewrite Hj. split_and!; [done|done|done|by apply (room_few (zlen ps) _ c)|by right]. }
  assert (Hts1 : to_send s1 h c P) by (eapply to_send_spared; [exact Hsp1|set_solver|done]).
  destruct (IH s1 (fs ++ [f]) n (r + n) Hsz Hts1 ltac:(lia) Hn ltac:(lia) Hu1 Hroom1) as (fs' & err & s2 & Hrun & Hsp2 & Hu2 & Hfew2 & Hout).
  exists (f :: fs'), err, s2. rewrite <- app_assoc in *. split_and!; [by rewrite <- Z.add_assoc| |done|done|].
  - eapply spared_trans; [exact Hsp1|]. eapply spared_sub; [|exact Hsp2]. intros x. rewrite <- (nrefs_perm _ _ _ Hperm), !nrefs_app. pose proof (nrefs_nonneg x f). lia.
  - destruct Hout as [[-> Hsent]|[-> Hans]]; [left|right; split; [done|by apply (spared_ans _ _ _ Hsp1)]]. split; [done|].
    unfold sent in *. rewrite !fmap_cons, Hsent. f_equal. rewrite (spared_bytes _ _ _ f Hsp2); [|rewrite <- Hperm; set_solver].
    rewrite Hb. unfold frag_hdr. by rewrite Z.add_simpl_l.
Qed.

(** ** Sending *)

Lemma send_free if_output ms l e s : e <> 0 -> inuse s (mjoin ms ++ l) -> few (ip_held s ++ mjoin ms ++ l) ->
  exists s', send_loop if_output ms e s = Some (([], e), s') /\ spared l s s' /\ inuse s' l.
Proof.
  intros He. revert s. induction ms as [|m ms IH]; intros s Hu Hf; [by exists s; split_and!; [|apply spared_refl|]|].
  cbn [send_loop]. destruct (Z.eqb_spec e 0); [done|]. change (mjoin (m :: ms)) with (m ++ mjoin ms) in *. rewrite <- app_assoc in *.
  destruct (m_freem_run s m (mjoin ms ++ l) Hu Hf) as (s1 & Hr & Hu1 & Hk1%kept_spared). rewrite (bind_run _ _ _ _ _ Hr).
  destruct (IH s1 Hu1) as (s2 & Hr2 & Hsp2 & Hu2).
  { intros x. specialize (Hf x). pose proof (sp_held _ _ _ Hk1 x). rewrite !nrefs_app in *. pose proof (nrefs_nonneg x m). lia. }
  exists s2. split_and!; [done| |done]. eapply spared_trans; [|done]. eapply spared_sub; [|done].
  intros x. rewrite nrefs_app. pose proof (nrefs_nonneg x (mjoin ms)). lia.
Qed.

(** All packets went out, or the interface refused the last of those that it got. *)
Definition went (if_output : list mbuf -> Z) (ms out : list (list mbuf)) (e : Z) : Prop :=
  e = 0 /\ out = ms \/ e <> 0 /\ out `prefix_of` ms /\ if_output <$> last out = Some e.

Lemma send_loop_ok if_output ms l s : inuse s (mjoin ms ++ l) -> few (ip_held s ++ mjoin ms ++ l) ->
  exists out e s', send_loop if_output ms 0 s = Some ((out, e), s') /\ spared (mjoin out ++ l) s s' /\ inuse s' (mjoin out ++ l) /\ went if_output ms out e.
Proof.
  revert l. induction ms as [|m ms IH]; intros l Hu Hf; [exists [], 0, s; split_and!; [done|apply spared_refl|done|by left]|].
  cbn [send_loop]. rewrite Z.eqb_refl. change (mjoin (m :: ms)) with (m ++ mjoin ms) in *. rewrite <- app_assoc, Permutation_app_swap_app in Hf.
  apply (inuse_perm _ _ (mjoin ms ++ m ++ l)) in Hu; [|solve_Permutation]. rewrite <- (Permutation_app_swap_app (mjoin ms)) in Hf.
  assert (Hf' : few (ip_held s ++ mjoin ms ++ m ++ l)) by (intros x; specialize (Hf x); rewrite !nrefs_app in *; lia).
  assert (Hback : forall out s', inuse s' (mjoin out ++ m ++ l) -> inuse s' (mjoin (m :: out) ++ l)) by (intros out s'; apply inuse_perm; simpl; solve_Permutation).
  assert (Hsub : forall out s', spared (mjoin out ++ m ++ l) s s' -> spared (mjoin (m :: out) ++ l) s s').
  { intros out s'. apply spared_sub. intros x. simpl. rewrite !nrefs_app. lia. }
  destruct (Z.eqb_spec (if_output m) 0) as [E|E].
  - rewrite E. destruct (IH _ Hu Hf') as (out & e & s' & Hr & Hsp & Hu' & Hw). rewrite (bind_run _ _ _ _ _ Hr).
    exists (m :: out), e, s'. split_and!; [done|by apply Hsub|by apply Hback|]. destruct Hw as [[-> ->]|(He & Hp & Hl)]; [by left|right].
    split_and!; [done|by apply prefix_cons|]. rewrite last_cons. by destruct (last out).
  - destruct (send_free if_output ms _ _ s E Hu Hf') as (s' & Hr & Hsp & Hu'). rewrite (bind_run _ _ _ _ _ Hr).
    exists [m], (if_output m), s'. split_and!; [done|by apply (Hsub [])|by apply (Hback [])|]. right. split_and!; [done| |done].
    apply prefix_cons, prefix_nil.
Qed.
End Send.

(** ** What is sent *)

(** The header of a packet that goes whole. *)
Definition whole_hdr (h : ip) : ip := set_off (swap_short (ip_off h)) (set_iplen (swap_short (ip_len h)) h).

(** The packets that are sent for the packet with the header [h] and the data [P], or the error. *)
Definition a_send (h : ip) (P : list Z) (mtu : Z) : list (ip * list Z) + Z :=
  if IP_HDR + zlen P <=? mtu then inl [(whole_hdr h, P)]
  else if ztrue (Z.land (ip_off h) IP_DF) then inr EMSGSIZE
  else if frag_room mtu <? 8 then inr EMSGSIZE
  else inl (a_split h P mtu).

(** The first mbuf of a chain has the header in itself. *)
Definition own_header (c : list mbuf) : Prop := match c with m :: _ => is_ext m = false /\ IP_HDR <= m_len m | [] => False end.

Section Send.
Context (max_linkhdr : Z) (Hlink : 0 <= max_linkhdr <= 80) (if_output : list mbuf -> Z).

(** The interface got all the packets, or the first of them up to one that it refused. *)
Definition delivered (s : ipst) (out : list (list mbuf)) (e : Z) (ps : list (ip * list Z)) : Prop :=
  exists ps', ps' `prefix_of` ps /\ sent s out ps' /\ (e = 0 /\ ps' = ps \/ e <> 0 /\ if_output <$> last out = Some e).

Lemma prefix_sent s out fs ps : out `prefix_of` fs -> sent s fs ps -> exists ps', ps' `prefix_of` ps /\ sent s out ps'.
Proof.
  unfold sent. intros [k ->] Hs. exists (take (length out) ps). split; [exists (drop (length out) ps); by rewrite take_drop|].
  rewrite fmap_take, <- Hs, fmap_app, take_app_le by (by rewrite length_fmap). by rewrite take_ge by (by rewrite length_fmap).
Qed.

Lemma went_delivered s fs out e ps : sent s fs ps -> went if_output fs out e -> delivered s out e ps.
Proof.
  intros Hs [[-> ->]|(He & Hp & Hl)]; [exists ps; split_and!; [done|done|by left]|].
  destruct (prefix_sent s out fs ps Hp Hs) as (ps' & H1 & H2). exists ps'. split_and!; [done|done|by right].
Qed.

(** The header [h'] is stored in a packet with the data [P]. *)
Lemma seal_packet s c l h' P : inuse s (c ++ l) -> own_header c -> sized h' -> Forall is_byte P -> drop 20 (cbytes (ip_mb s) c) = P ->
  exists c', mb (seal h' IP_HDR c) s = Some (c', s) /\ same_chain c c' /\ inuse s (c' ++ l) /\ cbytes (ip_mb s) c' = wire h' P.
Proof.
  intros [Hi Hp] Hown Hsz HP Hb. destruct c as [|m r]; [done|]. destruct Hown as [He Hl].
  change (mb_get s) with (ip_mb s) in Hp. change (held s) with (ip_held s) in Hp. rewrite Permutation_app_swap_app in Hp.
  assert (Hs : Forall (sound (ip_mb s)) (m :: r)) by (apply (pool_sounds _ _ _ Hp); set_solver).
  assert (Hml : 20 <= zlen (mbytes (ip_mb s) m)) by (apply Forall_cons in Hs as [Hm _]; rewrite mbytes_len; done).
  rewrite cbytes_cons, drop_app_le in Hb by (unfold zlen in Hml; lia).
  destruct (seal_ok (ip_mb s) m r h' Hs He Hl Hsz) as (d & Hseal & Hsd & Hsame & Hbytes); [by rewrite <- Hb, Forall_app in HP; destruct HP|].
  exists (set_dat d m :: r). assert (Hch : same_chain (m :: r) (set_dat d m :: r)) by (constructor; [done|reflexivity]). split_and!; [by apply mb_same|done| |].
  - split; [done|]. change (mb_get s) with (ip_mb s). change (held s) with (ip_held s). rewrite Permutation_app_swap_app.
    apply (pool_same _ (m :: r)); [done|done|]. apply Forall_cons in Hs as [_ Hr]. constructor; [by destruct Hsd|by apply (Forall_impl _ _ _ Hr); intros ? []].
  - rewrite cbytes_cons, Hbytes, <- app_assoc, Hb. done.
Qed.

Lemma same_chain_refs x c c' : same_chain c c' -> nrefs x c' = nrefs x c.
Proof. apply same_refs. Qed.

(** The first fragment is what [m_adj] leaves of the packet. *)
Lemma first_ok s c l h P len : inuse s (c ++ l) -> own_header c -> to_send s h c P -> sized h -> 0 <= len < zlen P ->
  exists m r c', m_adj c (IP_HDR + len - u16 (ip_len h)) = Some (m :: r) /\
    mb (seal (first_hdr h len) IP_HDR (set_plen (IP_HDR + len) m :: r)) s = Some (c', s) /\ same_chain c c' /\ inuse s (c' ++ l) /\
    cbytes (ip_mb s) c' = wire (first_hdr h len) (take (Z.to_nat len) P).
Proof.
  intros [Hi Hp] Hown [T1 T2 T3 T4 T5 T6 T7] Hsz Hlen. rewrite T2. set (n := IP_HDR + len - _). assert (Hn : n = len - zlen P) by (unfold n; lia).
  change (mb_get s) with (ip_mb s) in Hp. change (held s) with (ip_held s) in Hp. rewrite Permutation_app_swap_app in Hp.
  assert (Hs : Forall (sound (ip_mb s)) c) by (apply (pool_sounds _ _ _ Hp); set_solver).
  destruct (m_adj_ok _ c n Hs) as (c1 & Hadj & Hs1 & Hsame & Hb & _). destruct (Z.leb_spec 0 n); [lia|].
  destruct c as [|x q]; [done|]. destruct Hown as [He Hx].
  pose proof (adj_first (ip_mb s) x q n c1 IP_HDR Hs ltac:(lia) Hadj Hx ltac:(lia)) as Hfront.
  destruct c1 as [|m r]; [done|]. pose proof Hs1 as [Hm Hr]%Forall_cons.
  destruct (set_hdr_ok _ m (Pkthdr (IP_HDR + len) (rcvif (m_pkthdr m))) Hm) as (Hm2 & Hsame2 & Hb2).
  set (m2 := set_plen (IP_HDR + len) m). change (set_hdr _ m) with m2 in Hm2, Hsame2, Hb2.
  assert (Hch : same_chain (x :: q) (m2 :: r)) by (apply Forall2_cons in Hsame as [H1 H2]; constructor; [by etrans|done]).
  assert (Hu2 : inuse s ((m2 :: r) ++ l)).
  { split; [done|]. change (mb_get s) with (ip_mb s). change (held s) with (ip_held s). rewrite Permutation_app_swap_app.
    apply (pool_same _ (x :: q)); [done|done|]. constructor; [by destruct Hm2|by apply (Forall_impl _ _ _ Hr); intros ? []]. }
  assert (Hown2 : own_header (m2 :: r)) by (apply Forall2_cons in Hch as [H1 _]; split; [by rewrite (same1_ext x m2)|exact Hfront]).
  assert (Hb3 : drop 20 (cbytes (ip_mb s) (m2 :: r)) = take (Z.to_nat len) P).
  { rewrite cbytes_cons, Hb2, <- cbytes_cons, Hb, T6. rewrite skipn_firstn_comm, T4. f_equal. unfold IP_HDR in *. lia. }
  assert (Hsz1 : sized (first_hdr h len)) by (destruct Hsz; split; try done; apply s16_range).
  destruct (seal_packet s (m2 :: r) l (first_hdr h len) _ Hu2 Hown2 Hsz1 (Forall_take _ _ _ T5) Hb3) as (c' & Hseal & Hsame3 & Hu3 & Hb4).
  exists m, r, c'. split_and!; [done|done| |done|done]. unfold same_chain in *. by transitivity (m2 :: r).
Qed.

Lemma few_refs s l l' : (forall x, nrefs x l' = nrefs x l) -> few (ip_held s ++ l) -> few (ip_held s ++ l').
Proof. intros H Hf x. specialize (Hf x). rewrite nrefs_app in *. by rewrite H. Qed.

(** What came of a packet that was to be sent as [ps], or to fail. *)
Definition outcome (s : ipst) (l : list mbuf) (ps : list (ip * list Z) + Z) (r : option (list (list mbuf) * Z * ipst)) : Prop :=
  exists out e s', r = Some ((out, e), s') /\ inuse s' (mjoin out ++ l) /\ spared l s s' /\
    match ps with
    | inl ps => delivered s' out e ps \/ (out = [] /\ e = ENOBUFS /\ None ∈ malloc_ans (ip_mb s))
    | inr err => out = [] /\ e = err
    end.

Lemma send_whole s h c P l : inuse s (c ++ l) -> own_header c -> to_send s h c P -> sized h ->
  outcome s l (inl [(whole_hdr h, P)]) ((let! c := mb (seal (whole_hdr h) IP_HDR c) in kret ([c], if_output c)) s).
Proof.
  intros Hu Hown [T1 T2 T3 T4 T5 T6 T7] Hsz. assert (Hsz1 : sized (whole_hdr h)) by (destruct Hsz; split; try done; apply s16_range).
  destruct (seal_packet s c l (whole_hdr h) P Hu Hown Hsz1 T5 T4) as (c' & Hseal & Hsame & Hu1 & Hb). rewrite (bind_run _ _ _ _ _ Hseal).
  exists [c'], (if_output c'), s. split_and!; [done|by simpl; rewrite app_nil_r|apply spared_refl|left].
  exists [(whole_hdr h, P)]. split_and!; [done|unfold sent; simpl; by rewrite Hb|]. destruct (Z.eq_dec (if_output c') 0) as [E|E]; [by left|by right].
Qed.

Lemma send_bad s c l e : inuse s (c ++ l) -> few (ip_held s ++ c ++ l) -> outcome s l (inr e) ((do! mb (m_freem c) in kret ([], e)) s).
Proof.
  intros Hu Hf. destruct (m_freem_run s c l Hu Hf) as (s1 & Hr & Hu1 & Hk1%kept_spared). exists [], e, s1. by rewrite (bind_run _ _ _ _ _ Hr).
Qed.

(** The fragments are there: the first is made and all are sent. *)
Lemma send_first s h c P l len fs ps : inuse s (c ++ mjoin fs ++ l) -> few (ip_held s ++ c ++ mjoin fs ++ l) ->
  own_header c -> to_send s h c P -> sized h -> 0 <= len < zlen P -> sent s fs ps ->
  exists out e s', (let! c := knonnull (m_adj c (IP_HDR + len - u16 (ip_len h))) in
       match c with
       | [] => kpanic
       | m :: r => let! c := mb (seal (first_hdr h len) IP_HDR (set_plen (IP_HDR + len) m :: r)) in send_loop if_output (c :: fs) 0
       end) s = Some ((out, e), s') /\
    inuse s' (mjoin out ++ l) /\ spared l s s' /\ delivered s' out e ((first_hdr h len, take (Z.to_nat len) P) :: ps).
Proof.
  intros Hu Hf Hown Hts Hsz Hlen Hsent.
  destruct (first_ok s c (mjoin fs ++ l) h P len Hu Hown Hts Hsz Hlen) as (m & r & c' & Hadj & Hseal & Hsame & Hu2 & Hb).
  rewrite (bind_nonnull _ _ _ _ Hadj), (bind_run _ _ _ _ _ Hseal).
  destruct (send_loop_ok if_output (c' :: fs) l s) as (out & e & s2 & Hrun & Hsp2 & Hu3 & Hwent).
  - simpl. by rewrite <- app_assoc.
  - apply (few_refs s (c ++ mjoin fs ++ l)); [|done]. intros x. simpl. rewrite !nrefs_app. rewrite (same_chain_refs x c c' Hsame). lia.
  - exists out, e, s2. split_and!; [done|done| |].
    + eapply spared_sub; [|exact Hsp2]. intros x. rewrite nrefs_app. pose proof (nrefs_nonneg x (mjoin out)). lia.
    + assert (Hd : delivered s out e ((first_hdr h len, take (Z.to_nat len) P) :: ps)).
      { apply (went_delivered s (c' :: fs)); [|done]. unfold sent in *. by rewrite !fmap_cons, Hb, Hsent. }
      destruct Hd as (ps' & H1 & H2 & H3). exists ps'. split_and!; [done| |done]. eapply sent_spared; [exact Hsp2|set_solver|done].
Qed.

Lemma send_split s h c P l mtu : inuse s (c ++ l) -> own_header c -> to_send s h c P -> sized h ->
  room (zlen (a_split h P mtu)) s c (c ++ l) -> mtu < IP_HDR + zlen P -> 8 <= frag_room mtu ->
  let len := frag_room mtu in
  outcome s l (inl (a_split h P mtu))
    ((let! (fs, error) := frag_loop max_linkhdr (S (Z.to_nat (u16 (ip_len h)))) h c IP_HDR len (IP_HDR + len) [] in
      if error =? 0 then
        let! c := knonnull (m_adj c (IP_HDR + len - u16 (ip_len h))) in
        match c with
        | [] => kpanic
        | m :: r => let! c := mb (seal (first_hdr h len) IP_HDR (set_plen (IP_HDR + len) m :: r)) in send_loop if_output (c :: fs) 0
        end
      else send_loop if_output (c :: fs) error) s).
Proof.
  intros Hu Hown Hts Hsz Hroom Hgt H8 len. destruct (frag_room_mult mtu) as [_ Hmult]. fold len in Hmult, H8. pose proof (ts_len _ _ _ _ Hts) as T2.
  unfold a_split in *. cbv zeta in *. fold len in Hroom |- *. set (fuel := S _) in *. set (ps := a_frags fuel h P len (IP_HDR + len)) in *.
  destruct (frag_loop_ok max_linkhdr Hlink h P fuel s c l [] len len Hsz Hts ltac:(lia) ltac:(lia) ltac:(unfold fuel, IP_HDR in *; lia) Hu) as (fs & err & s1 & Hloop & Hsp1 & Hu1 & Hf1 & Hout).
  { intros x. specialize (Hroom x). rewrite zlen_cons in Hroom. fold ps. pose proof (nrefs_nonneg x c). simpl. nia. }
  rewrite (bind_run _ _ _ _ _ Hloop). cbn [app mjoin list_join] in *.
  assert (Hsp : spared l s s1) by (eapply spared_sub; [|exact Hsp1]; intros x; rewrite nrefs_app; pose proof (nrefs_nonneg x c); lia).
  destruct Hout as [[-> Hsent]|[-> Hans]].
  - assert (Hts1 : to_send s1 h c P) by (eapply to_send_spared; [exact Hsp1|set_solver|done]).
    destruct (send_first s1 h c P l len fs ps Hu1 Hf1 Hown Hts1 Hsz ltac:(lia) Hsent) as (out & e & s2 & Hrun & Hu2 & Hsp2 & Hd).
    exists out, e, s2. split_and!; [exact Hrun|done|by eapply spared_trans|by left].
  - destruct (send_free if_output (c :: fs) l ENOBUFS s1) as (s2 & Hrun & Hsp2 & Hu2); [done|simpl; by rewrite <- app_assoc..|].
    exists [], ENOBUFS, s2. split_and!; [done|done|by eapply spared_trans|right; by split_and!].
Qed.

Lemma sendit_run s h c P l mtu : inuse s (c ++ l) -> own_header c -> to_send s h c P -> sized h ->
  room (zlen (a_split h P mtu)) s c (c ++ l) -> outcome s l (a_send h P mtu) (ip_sendit max_linkhdr if_output mtu O h c s).
Proof.
  intros Hu Hown Hts Hsz Hroom. pose proof Hts as [T1 T2 T3 T4 T5 T6 T7].
  unfold ip_sendit, a_send. rewrite T1, T2. destruct (Z.leb_spec (IP_HDR + zlen P) mtu) as [Hle|Hgt]; [by apply send_whole|].
  unfold count. rewrite bind_mod. set (s0 := with_ips _ s).
  assert (Hu0 : inuse s0 (c ++ l)) by (by apply inuse_ips). assert (Hf0 : few (ip_held s0 ++ c ++ l)) by (apply (room_few _ _ c _ (zlen_nonneg (a_split h P mtu))), Hroom).
  assert (Hback : forall ps r, outcome s0 l ps r -> outcome s l ps r).
  { intros ps r (out & e & s' & H1 & H2 & H3 & H4). exists out, e, s'. split_and!; [done|done|eapply spared_trans; [apply spared_ips|exact H3]|exact H4]. }
  apply Hback. destruct (ztrue (Z.land (ip_off h) IP_DF)); [by apply send_bad|]. change (Z.land (mtu - IP_HDR) (Z.lnot 7)) with (frag_room mtu).
  destruct (Z.ltb_spec (frag_room mtu) 8) as [Hlt|H8]; [by apply send_bad|].
  pose proof (send_split s0 h c P l mtu Hu0 Hown ltac:(by split) Hsz Hroom Hgt H8) as Hs. cbv zeta in Hs. rewrite T2 in Hs. exact Hs.
Qed.

(** C10. From [sendit] on, for a packet without options (so that none have been inserted before
    it) of less than 32768 bytes, whose header is in an mbuf that is not a cluster, and whose
    clusters can be shared by the fragments: [ip_output] sends what [a_send] says of the packet
    with the header [h] and the data [P]: the packet whole, or its fragments in order, each with
    its header and checksum, up to the first that the interface refuses; or nothing and EMSGSIZE;
    or, but only when mbufs are wanting, nothing and ENOBUFS. The mbufs of what was sent are the
    interface's, all others are freed, and the data that is shared with others is as it was. *)
Theorem sendit_refines s h c P l mtu : inuse s (c ++ l) -> own_header c -> to_send s h c P -> sized h ->
  room (zlen (a_split h P mtu)) s c (c ++ l) -> outcome s l (a_send h P mtu) (ip_sendit max_linkhdr if_output mtu O h c s).
Proof. intros Hu Hown Hts Hsz Hroom. destruct (sendit_run s h c P l mtu Hu Hown Hts Hsz Hroom) as (out & e & s' & H). by exists out, e, s'. Qed.
End Send.
