(* ===== verification/IpCross.v ===== *)
(** * From host to host

    The two halves together: what [ip_output] sends of a packet that is too large for the
    interface, and what [ipintr] makes of it at another host, when the fragments come in any
    order, repeated, and among other packets. *)

From S2P Require Import Prelude Mbuf MbufSpec MbufOps MbufCopy Cksum CksumSum Ring IpFrag IpRing IpSpec IpView IpLoops IpJoin IpInput IpArrive IpHistory IpHeader IpCalls IpOut IpWire IpSplit IpOutput.
Local Open Scope kern_scope.

(** ** Receiving *)

(** A packet without options and for this host, from its arrival to its protocol. *)
Definition receive (c : list mbuf) : K ipst (option (packet * Z)) :=
  let! o := ip_check c in
  match o with
  | Some (h, c) => arrive h c
  | None => kret None
  end.

Record chain_of (b : mbst) (c : list mbuf) (w : list Z) : Prop := {
  ch_bytes : cbytes b c = w;
  ch_range : Forall is_byte w;
  ch_hdr : match c with m :: _ => is_hdr m = true /\ len (m_pkthdr m) = zlen w | [] => False end }.

Definition no_options (w : list Z) : Prop := forall h data, a_check w = Some (h, data) -> hdr_len h = IP_HDR.

Inductive rx : Type :=
| Rx (w : list Z)
| Timeout.

Definition event_of (x : rx) : list event :=
  match x with
  | Rx w => match a_check w with Some (h, data) => [Came h data] | None => [] end
  | Timeout => [Tick]
  end.
Definition events (xs : list rx) : list event := mjoin (event_of <$> xs).

Lemma events_snoc xs x : events (xs ++ [x]) = events xs ++ event_of x.
Proof. unfold events. rewrite fmap_app, join_app. simpl. by rewrite app_nil_r. Qed.
Lemma events_in e xs : e ∈ events xs <-> exists x, x ∈ xs /\ e ∈ event_of x.
Proof.
  unfold events. rewrite list_elem_of_join. split.
  - intros (l & Hl & (x & -> & Hx)%list_elem_of_fmap). by exists x.
  - intros (x & Hx & He). exists (event_of x). split; [done|]. by apply list_elem_of_fmap_2.
Qed.

Section Memory.
Context {mem : Answers} (Hmem : None ∉ answers).

(** The packets and timeouts [xs] take the state [s], while others have the mbufs [L], to [s'] and [L']. *)
Inductive heard : ipst -> list mbuf -> list rx -> ipst -> list mbuf -> Prop :=
| hd_nil s L : heard s L [] s L
| hd_came s L xs s1 c w L1 r s2 : heard s L xs s1 (c ++ L1) -> chain_of (ip_mb s1) c w -> no_options w -> receive c s1 = Some (r, s2) ->
    heard s L (xs ++ [Rx w]) s2 (match r with Some (z, _) => p_m z ++ L1 | None => L1 end)
| hd_tick s L xs s1 L1 s2 : heard s L xs s1 L1 -> ip_slowtimo s1 = Some (tt, s2) -> heard s L (xs ++ [Timeout]) s2 L1
| hd_rest s L xs s1 L1 b L2 : heard s L xs s1 L1 -> keeps (ip_held s1) (ip_mb s1) b -> pool b (ip_held s1 ++ L2) -> few (ip_held s1 ++ L2) ->
    heard s L xs (with_mb b s1) L2.

Lemma receive_ok s A c w L : good s A (c ++ L) -> chain_of (ip_mb s) c w -> no_options w ->
  match a_check w with
  | None => exists s', receive c s = Some (None, s') /\ good s' A L
  | Some (h, data) => exists c' s', receive c s = arrive h c' s' /\ good s' A (c' ++ L) /\ comes (ip_mb s') h c' data
  end.
Proof.
  intros Hg [H1 H2 H3] Hno. destruct (header_run s A L c w ltac:(by split)) as (out & s' & A' & Hrun & Hacc & Hor).
  destruct Hor as [->|[? _]]; [|done]. unfold receive. destruct out as [[h c']|].
  - destruct Hacc as (Hg' & data & Ha & Hc). rewrite Ha. exists c', s'. split_and!; [by rewrite (bind_run _ _ _ _ _ Hrun)|done|]. by apply Hc, (Hno _ data).
  - destruct Hacc as [Hg' [Ha|?]]; [|done]. rewrite Ha. exists s'. split; [by rewrite (bind_run _ _ _ _ _ Hrun)|done].
Qed.

Lemma heard_run s A L xs s' L' : good s A L -> heard s L xs s' L' -> good s' (a_run (events xs) A) L'.
Proof.
  intros Hg Hp. induction Hp as [| s L xs s1 c w L1 r s2 _ IH Hc Hno Hr|s L xs s1 L1 s2 _ IH Hr|s L xs s1 L1 b L2 _ IH Hk Hp Hf]; [done|..];
    specialize (IH Hg); rewrite ?events_snoc.
  - pose proof (receive_ok s1 _ c w L1 IH Hc Hno) as Hrec. cbn [event_of]. destruct (a_check w) as [[h data]|].
    + destruct Hrec as (c' & s1' & Hrun & Hg1 & Hcm). rewrite a_run_snoc. rewrite Hrun in Hr.
      destruct (arrive_run s1' _ h c' data L1 Hg1 Hcm) as (r' & s2' & out & A' & Hr' & Hsaid & Hd). rewrite Hr in Hr'. injection Hr' as <- <-.
      destruct Hsaid as [Hsaid|[? _]]; [|done]. cbn [a_event]. rewrite <- Hsaid. by apply (delivers_good _ out _ (hdr_len h)).
    + destruct Hrec as (s2' & Hrun & Hg2). rewrite Hrun in Hr. injection Hr as <- <-. by rewrite app_nil_r.
  - cbn [event_of]. rewrite a_run_snoc. destruct (slowtimo_good s1 _ L1 IH) as (s2' & Hr' & Hg'). rewrite Hr in Hr'. by injection Hr' as <-.
  - by apply (good_rest s1 _ L1).
Qed.
End Memory.

(** ** The fragments at their destination *)

(** The packet [w] is for the datagram with the key [k]. *)
Definition is_for (k : key) (w : list Z) : Prop := exists h data, a_check w = Some (h, data) /\ key_of h = Some k.

Section Sent.
Context (h : ip) (P : list Z) (Hsend : sending h P 0 false) (mtu : Z) (Hm : mtu < IP_HDR + zlen P) (Hroom : 8 <= frag_room mtu).
Context (k : key) (Hk : key_of (host_hdr h) = Some k).

Definition wires : list (list Z) := (fun p => wire p.1 p.2) <$> a_split h P mtu.
Definition only (xs : list rx) : Prop := forall w, Rx w ∈ xs -> is_for k w -> w ∈ wires.

Lemma whole_piece : piece P (piece_of (host_hdr h) P).
Proof.
  destruct (whole_fields h P 0 false Hsend) as (W1 & W2 & W3). pose proof (zlen_nonneg P).
  split; unfold f_end; rewrite ?W1, ?W2, ?W3; try lia; try done. symmetry. change (take (Z.to_nat (zlen P)) P = P). apply take_ge. unfold zlen. lia.
Qed.

Lemma split_facts : Forall (sent_ok h P) (a_split h P mtu) /\ (forall i, has (got <$> a_split h P mtu) i <-> 0 <= i < zlen P) /\
  forall f, f ∈ a_split h P mtu -> own_byte (a_split h P mtu) f.
Proof. pose proof (sn_end _ _ _ _ Hsend). exact (split_ok h P 0 false Hsend P whole_piece ltac:(lia) mtu Hm Hroom). Qed.

Lemma sent_check f : sent_ok h P f -> a_check (wire f.1 f.2) = Some (to_host f.1, f.2).
Proof. intros []. by apply wire_accepted. Qed.

Lemma for_events xs e : only xs -> e ∈ events xs -> (exists h data, e = Came h data /\ key_of h = Some k) ->
  exists f, f ∈ a_split h P mtu /\ Rx (wire f.1 f.2) ∈ xs /\ e = Came (to_host f.1) f.2.
Proof.
  intros Ho (x & Hx & He)%events_in (h' & data & -> & Hk'). destruct x as [w|]; [|by apply list_elem_of_singleton in He].
  cbn [event_of] in He. destruct (a_check w) as [[h1 d1]|] eqn:E; [|by apply elem_of_nil in He]. apply list_elem_of_singleton in He as [= <- <-].
  assert (Hw : w ∈ wires) by (apply Ho; [done|by exists h', data]). apply list_elem_of_fmap in Hw as (f & -> & Hf). exists f. split_and!; [done|done|].
  destruct split_facts as (Hok & _). rewrite Forall_forall in Hok. rewrite (sent_check f (Hok f Hf)) in E. by injection E as <- <-.
Qed.

Lemma pieces_got xs g : only xs -> g ∈ pieces k (events xs) <-> exists f, f ∈ a_split h P mtu /\ Rx (wire f.1 f.2) ∈ xs /\ g = got f.
Proof.
  intros Ho. unfold pieces. rewrite list_elem_of_omap. split.
  - intros (e & He & Hg). destruct e as [h' data|]; [|done]. case_decide as Hk'; [|done]. injection Hg as <-.
    destruct (for_events xs _ Ho He) as (f & Hf & Hx & [= -> ->]); [by exists h', data|]. by exists f.
  - intros (f & Hf & Hx & ->). destruct split_facts as (Hok & _). rewrite Forall_forall in Hok. specialize (Hok f Hf).
    exists (Came (to_host f.1) f.2). split; [|by rewrite decide_True by (rewrite <- Hk; apply Hok)].
    apply events_in. exists (Rx (wire f.1 f.2)). split; [done|]. cbn [event_of]. rewrite (sent_check f Hok). by apply list_elem_of_singleton.
Qed.

Lemma events_of_datagram xs : only xs -> Forall (of_datagram k (piece P)) (events xs).
Proof.
  intros Ho. apply Forall_forall. intros [h' data|] He; [|done]. intros Hk'.
  destruct (for_events xs _ Ho He) as (f & Hf & Hx & [= -> ->]); [by exists h', data|].
  destruct split_facts as (Hok & _). rewrite Forall_forall in Hok. by destruct (Hok f Hf).
Qed.

Lemma complete_all xs : only xs -> complete P (pieces k (events xs)) <-> forall w, w ∈ wires -> Rx w ∈ xs.
Proof.
  intros Ho. destruct split_facts as (Hok & Hhas & Hown). split.
  - intros Hc w (f & -> & Hf)%list_elem_of_fmap. destruct (Hown f Hf) as (i & Hi & Hu).
    destruct (Hc i) as (g & Hg & Hgi); [apply Hhas; exists (got f); split; [by apply list_elem_of_fmap_2|done]|].
    apply pieces_got in Hg as (f' & Hf' & Hx & ->); [|done]. by rewrite <- (Hu f' Hf' Hgi).
  - intros Hall i (g & (f & -> & Hf)%list_elem_of_fmap & Hgi)%Hhas. exists (got f). split; [|done].
    apply pieces_got; [done|]. exists f. split_and!; [done| |done]. apply Hall. by apply (list_elem_of_fmap_2 (fun p => wire p.1 p.2)).
Qed.
End Sent.

(** ** The two halves *)

(** A packet for [ip_output], too large for the interface: its header [h], its data [P], its mbufs [c]. *)
Record ready (s : ipst) (h : ip) (c : list mbuf) (P : list Z) (l : list mbuf) (mtu : Z) : Prop := {
  rd_sending : sending h P 0 false;
  rd_large : mtu < IP_HDR + zlen P;
  rd_inuse : inuse s (c ++ l);
  rd_own : own_header c;
  rd_send : to_send s h c P;
  rd_room : room (zlen (a_split h P mtu)) s c (c ++ l) }.

Lemma sent_wires max_linkhdr if_output s h c P l mtu out s' : 0 <= max_linkhdr <= 80 -> ready s h c P l mtu ->
  ip_sendit max_linkhdr if_output mtu O h c s = Some ((out, 0), s') -> 8 <= frag_room mtu /\ cbytes (ip_mb s') <$> out = wires h P mtu.
Proof.
  intros Hlink [R1 R2 R3 R4 R5 R6] Hrun. destruct (sendit_run max_linkhdr Hlink if_output s h c P l mtu R3 R4 R5 (sn_sized _ _ _ _ R1) R6) as (out' & e & s2 & Hr & _ & _ & Hout).
  rewrite Hrun in Hr. injection Hr as <- <- <-. unfold a_send in Hout. destruct (Z.leb_spec (IP_HDR + zlen P) mtu); [lia|].
  destruct (ztrue _); [by destruct Hout|]. destruct (Z.ltb_spec (frag_room mtu) 8); [by destruct Hout|]. split; [done|].
  destruct Hout as [(ps & _ & Hs & Hor)|(_ & ? & _)]; [|done]. by destruct Hor as [[_ ->]|[? _]].
Qed.

(** C5. A packet that is too large for the interface crosses the net, when it has no options
    and less than 32768 bytes and is no fragment itself, its header is in an ordinary mbuf,
    its clusters can be shared by the fragments (at most 256 references to each), and the
    receiver is not in want of mbufs: [ip_output] has sent its fragments without an error;
    they come to another host, which has no queue for the packet yet, in any order,
    repeated, in mbufs of any form, among packets without options and not under its
    identification, and with fewer than sixty timeouts in between. [ipintr] then delivers
    the data of the packet, whole and in order, when the last of the fragments comes, and
    delivers nothing before. *)
Theorem datagram_crosses (mem : Answers) max_linkhdr if_output sh h c P l mtu out ss k A s L xs s1 cw w L1 :
  0 <= max_linkhdr <= 80 -> ready sh h c P l mtu -> ip_sendit max_linkhdr if_output mtu O h c sh = Some ((out, 0), ss) ->
  let ws := cbytes (ip_mb ss) <$> out in
  key_of (host_hdr h) = Some k -> None ∉ answers -> good s A L -> of_key k A = [] ->
  heard s L xs s1 (cw ++ L1) -> ticks (events xs) < IPFRAGTTL -> chain_of (ip_mb s1) cw w -> w ∈ ws ->
  (forall w, Rx w ∈ xs -> is_for k w -> w ∈ ws) -> ~ (forall w, w ∈ ws -> Rx w ∈ xs) ->
  exists r s2, receive cw s1 = Some (r, s2) /\
    ((forall w', w' ∈ ws -> Rx w' ∈ xs ++ [Rx w]) /\
       (exists z f, r = Some (z, IP_HDR) /\ visible (ip_mb s2) z (a_header k (zlen P) f) P false) \/
     ~ (forall w', w' ∈ ws -> Rx w' ∈ xs ++ [Rx w]) /\ r = None).
Proof.
  intros Hlink Hready Hrun ws Hk Hn Hg HA Hheard Ht Hc Hw Honly Hnot.
  destruct (sent_wires _ _ _ _ _ _ _ _ _ _ Hlink Hready Hrun) as [Hroom Hws]. unfold ws in *. clear ws Hrun. rewrite Hws in *. clear Hws.
  destruct Hready as [Hsend Hm _ _ _ _]. pose proof (frag_room_mult mtu) as [_ Hr].
  destruct (split_facts h P Hsend mtu Hm Hroom) as (Hok & _). rewrite Forall_forall in Hok.
  pose proof Hw as (f & Ef & Hf)%list_elem_of_fmap. specialize (Hok f Hf). pose proof (sent_check h P f Hok) as Hck. rewrite <- Ef in Hck.
  assert (Hno : no_options w) by (intros h' d'; rewrite Hck; intros [= <- <-]; apply Hok).
  assert (Honly2 : only h P mtu k (xs ++ [Rx w])) by (intros w' [Hx|[= ->]%list_elem_of_singleton]%elem_of_app Hfor; [by apply Honly|done]).
  pose proof (heard_run Hn _ _ _ _ _ _ Hg Hheard) as Hg1. pose proof (receive_ok Hn s1 _ cw w L1 Hg1 Hc Hno) as Hrec. rewrite Hck in Hrec.
  destruct Hrec as (c' & s1' & Hrun & Hg2 & Hcm). rewrite Hrun.
  assert (Hev : events (xs ++ [Rx w]) = events xs ++ [Came (to_host f.1) f.2]) by (rewrite events_snoc; cbn [event_of]; by rewrite Hck).
  pose proof (events_of_datagram h P Hsend mtu Hm Hroom k _ Honly2) as Hes. rewrite Hev in Hes.
  pose proof (sn_end _ _ _ _ Hsend). assert (Hkf : key_of (to_host f.1) = Some k) by (rewrite <- Hk; apply Hok).
  destruct (last_piece P k A (events xs) s1' (to_host f.1) c' f.2 L1 Hn ltac:(lia) Hg2 HA Ht Hcm Hkf Hes) as (r & s2 & Hr2 & Hres).
  { rewrite (complete_all h P Hsend mtu Hm Hroom k Hk xs Honly). exact Hnot. }
  exists r, s2. split; [done|]. rewrite <- Hev in Hres. cbv zeta in Hres. rewrite (complete_all h P Hsend mtu Hm Hroom k Hk _ Honly2) in Hres.
  destruct Hres as [[H1 H2]|(H1 & z & g & -> & _ & _ & Hvis)]; [by right|left]. split; [done|]. exists z, g.
  change (hdr_len (to_host f.1)) with (hdr_len f.1) in *. by rewrite (so_hl _ _ _ Hok).
Qed.
