(* ===== verification/IpExample.v ===== *)
(** * A datagram in two fragments

    Concrete packets, with which the theorems on datagrams are applied: twelve bytes in two
    fragments, of which the second comes first, and one that is too far away; and the same bytes
    sent over an interface that takes eight at a time, and received at another host. *)

From S2P Require Import Prelude Mbuf MbufSpec MbufOps MbufCopy MbufCalls Cksum CksumSum Ring IpFrag IpRing IpSpec IpView IpLoops IpJoin IpInput IpArrive IpHistory IpHeader IpCalls IpOut IpWire IpSplit IpOutput IpCross.
Local Open Scope kern_scope.

Definition plain_ip (n : nat) : ipst := Ipst (plain_mb n) ∅ ∅ (Some QStatic, Some QStatic) (fun _ => 0).

#[export] Instance plenty : Answers := [].

Lemma plain_good bss : Forall (fun bs => zlen bs <= 100) bss -> good (plain_ip (length bss)) [] (plain <$> bss).
Proof.
  intros [Hp Hf]%plain_pool. exists [], ∅, ∅. split_and!; [|split; try done; by split|constructor].
  split; [|constructor|constructor]. split; [by split|apply NoDup_singleton|by intros x ->%list_elem_of_singleton].
Qed.

(** ** Twelve bytes in two fragments *)

Definition data12 : list Z := [1; 2; 3; 4; 5; 6; 7; 8; 9; 10; 11; 12].
Definition key12 : key := Key 7 1 2 17.
Definition hdr (n off : Z) : ip := Ip 5 0 n 7 off 9 17 0 (Addr 1) (Addr 2).
Definition bytes (data : list Z) : list Z := replicate 20 69 ++ data.
Definition packet_in (data : list Z) : list mbuf := [plain (bytes data)].

Lemma plain_bytes b bs : zlen bs <= 100 -> mbytes b (plain bs) = bs.
Proof.
  intros H. change (mbytes b (plain bs)) with (take (Z.to_nat (zlen bs)) (bs ++ replicate (100 - length bs) 0)).
  unfold zlen. rewrite Nat2Z.id. apply take_app_length.
Qed.

Lemma comes_plain b off data : zlen data <= 80 -> comes b (hdr (20 + zlen data) off) (packet_in data) data.
Proof.
  intros Hd. pose proof (zlen_nonneg data). assert (Hl : zlen (bytes data) = 20 + zlen data) by (unfold bytes; rewrite zlen_app; done).
  assert (Hb : cbytes b (packet_in data) = bytes data) by (unfold packet_in; rewrite cbytes_cons, plain_bytes by lia; apply app_nil_r).
  split.
  - split; [done|simpl; lia].
  - by vm_compute.
  - by rewrite Hb.
  - simpl. rewrite Hl. change (hdr_len (hdr (20 + zlen data) off)) with 20. lia.
  - simpl. split; [rewrite Hl; change (hdr_len (hdr (20 + zlen data) off)) with 20; lia|done].
  - intros _. simpl. lia.
  - by eexists.
Qed.

Definition head8 : list Z := take 8 data12.
Definition tail4 : list Z := drop 8 data12.
Definition start : ipst := plain_ip 2.
Definition both : list mbuf := packet_in tail4 ++ packet_in head8.

Lemma start_good : good start [] both.
Proof. apply (plain_good [bytes tail4; bytes head8]). repeat constructor; by vm_compute. Qed.

(** The packet [data] with the offset field [off] comes; the state then. *)
Definition next (off : Z) (data : list Z) (s : ipst) : ipst :=
  match arrive (hdr (20 + zlen data) off) (packet_in data) s with Some (_, s) => s | None => s end.
Definition after_tail : ipst := next 1 tail4 start.
Definition after_far : ipst := next 4096 tail4 start.

Lemma tail_passes off : off = 1 \/ off = 4096 -> passes start both [Came (hdr 24 off) tail4] (next off tail4 start) (packet_in head8 ++ []).
Proof.
  intros Hoff. change [Came (hdr 24 off) tail4] with ([] ++ [Came (hdr 24 off) tail4]). rewrite app_nil_r.
  apply (ps_came start both [] start (hdr 24 off) (packet_in tail4) tail4 (packet_in head8) None); [apply (ps_nil start both)|by apply (comes_plain _ off tail4)|].
  unfold next. destruct Hoff as [-> | ->]; vm_compute; reflexivity.
Qed.

Lemma head_piece : piece data12 (piece_of (hdr 28 8192) head8).
Proof. split; vm_compute; try done; try (split; discriminate). Qed.
Lemma tail_piece : piece data12 (piece_of (hdr 24 1) tail4).
Proof. split; vm_compute; try done; try (split; discriminate). Qed.

(** ** The theorems applied *)

Lemma packet_refines_witness : exists r s' out A', arrive (hdr 24 1) (packet_in tail4) start = Some (r, s') /\
  delivers s' out r 20 A' (packet_in head8) /\
  ((out, A') = a_ours (hdr 24 1) 20 tail4 [] \/
   @None mbuf ∈ [] /\ ((out, A') = a_ours (hdr 24 1) 20 tail4 [] \/ out = None /\ (A' = [] \/ A' = []))).
Proof.
  apply (packet_refines start [] (hdr 24 1) (packet_in tail4) tail4 (packet_in head8)).
  - apply start_good.
  - apply (comes_plain (ip_mb start) 1 tail4). vm_compute. discriminate.
Defined.

Lemma datagram_delivered_witness : exists z s2 f, arrive (hdr 28 8192) (packet_in head8) after_tail = Some (Some (z, 20), s2) /\
  visible (ip_mb s2) z (a_header key12 12 f) data12 false.
Proof.
  destruct (datagram_delivered data12 key12 start [] both [Came (hdr 24 1) tail4] after_tail (hdr 28 8192) (packet_in head8) head8 [])
    as (r & s2 & Hr & H).
  - apply not_elem_of_nil.
  - vm_compute. split; reflexivity.
  - apply start_good.
  - reflexivity.
  - apply tail_passes. left. reflexivity.
  - reflexivity.
  - apply (comes_plain _ 8192 head8). vm_compute. discriminate.
  - reflexivity.
  - apply Forall_cons. split; [intros _; split; [reflexivity|apply tail_piece]|].
    apply Forall_singleton. intros _. split; [reflexivity|apply head_piece].
  - intros Hc. destruct (Hc 0) as (f & Hf & Hin); [vm_compute; split; [discriminate|reflexivity]|].
    apply list_elem_of_singleton in Hf. subst f. vm_compute in Hin. destruct Hin as [Hin _]. apply Hin. reflexivity.
  - destruct H as [[_ ->]|(_ & z & f & -> & _ & _ & Hv)].
    + apply (f_equal (fun o => fst <$> o)) in Hr. vm_compute in Hr. discriminate Hr.
    + exists z, s2, f. split; [exact Hr|exact Hv].
Defined.

Lemma fragments_expire_witness : exists s2, timeouts 60 after_tail = Some (tt, s2) /\ good s2 [] (packet_in head8).
Proof.
  apply (fragments_expire start both [Came (hdr 24 1) tail4]); [apply start_good|].
  apply (tail_passes 1). left. reflexivity.
Defined.

Lemma far_fragment_stalls_witness : exists s2, arrive (hdr 28 8192) (packet_in head8) after_far = Some (None, s2).
Proof.
  apply (far_fragment_stalls key12 start [] both [Came (hdr 24 4096) tail4] after_far (hdr 28 8192) (packet_in head8) head8 [] (hdr 24 4096) tail4).
  - apply not_elem_of_nil.
  - apply start_good.
  - reflexivity.
  - apply tail_passes. right. reflexivity.
  - reflexivity.
  - repeat constructor.
  - apply list_elem_of_singleton. reflexivity.
  - reflexivity.
  - vm_compute. discriminate.
  - apply (comes_plain _ 8192 head8). vm_compute. discriminate.
  - reflexivity.
Defined.

(** ** The sender *)

Definition h32 : ip := Ip 5 0 32 7 0 9 17 0 (Addr 1) (Addr 2).
Definition sender : ipst := plain_ip 1.
Definition taken : list mbuf -> Z := fun _ => 0.

(** The packets that the interface got, the error and the state. *)
Definition sent12 : list (list mbuf) * Z * ipst :=
  match ip_sendit 16 taken 28 O h32 (packet_in data12) sender with Some r => r | None => ([], 1, sender) end.
Definition wires12 : list (list Z) := cbytes (ip_mb sent12.2) <$> sent12.1.1.
Definition wire1 : list Z := nth 0 wires12 [].
Definition wire2 : list Z := nth 1 wires12 [].

Lemma wires12_are : wires12 = [wire1; wire2].
Proof. by vm_compute. Qed.

Lemma sent12_run : ip_sendit 16 taken 28 O h32 (packet_in data12) sender = Some ((sent12.1.1, 0), sent12.2).
Proof.
  assert (Hr : (fun r => snd (fst r)) <$> ip_sendit 16 taken 28 O h32 (packet_in data12) sender = Some 0) by (by vm_compute). unfold sent12.
  destruct (ip_sendit 16 taken 28 O h32 (packet_in data12) sender) as [[[out e] s]|]; [|done]. simpl in *. by injection Hr as ->.
Qed.

Lemma plain_refs x bss : nrefs x (plain <$> bss) = 0.
Proof. induction bss as [|bs bss IH]; [done|by rewrite fmap_cons, nrefs_cons, IH]. Qed.

Lemma good_inuse s A L : good s A L -> inuse s L.
Proof. intros (qs & F & Q & Hs & Hv & _). split; [exists qs; exact Hs|exact (vw_pool _ _ _ _ Hv)]. Qed.

Lemma h32_sized : sized h32.
Proof. split; [..|exists 1; split; [done|lia]|exists 2; split; [done|lia]]; unfold is_byte, is_s16; simpl; lia. Qed.

Lemma ready12 : ready sender h32 (packet_in data12) data12 [] 28.
Proof.
  split.
  - split; try (by vm_compute). apply h32_sized.
  - by vm_compute.
  - rewrite app_nil_r. apply (good_inuse _ []). apply (plain_good [bytes data12]). by repeat constructor.
  - by vm_compute.
  - split; [by vm_compute..| |by vm_compute|by vm_compute]. repeat constructor; by vm_compute.
  - intros x. rewrite app_nil_r. change (ip_held sender ++ packet_in data12) with (plain <$> [bytes data12]). change (packet_in data12) with (plain <$> [bytes data12]).
    rewrite !plain_refs. lia.
Qed.

Lemma sendit_refines_witness : outcome taken sender [] (a_send h32 data12 28) (ip_sendit 16 taken 28 O h32 (packet_in data12) sender) /\
  a_send h32 data12 28 = inl (a_split h32 data12 28).
Proof.
  split; [|vm_compute; reflexivity]. destruct ready12 as [R1 R2 R3 R4 R5 R6]. apply (sendit_refines 16 ltac:(split; vm_compute; discriminate) taken); assumption || apply h32_sized.
Defined.

(** ** The receiver *)

Definition receiver : ipst := plain_ip 2.
Definition packets12 : list mbuf := [plain wire2; plain wire1].
Definition key32 : key := Key 1792 1 2 17.

Lemma receiver_good : good receiver [] packets12.
Proof. apply (plain_good [wire2; wire1]). repeat constructor; by vm_compute. Qed.

Lemma chain_plain b w : zlen w <= 100 -> Forall is_byte w -> chain_of b [plain w] w.
Proof. intros Hw Hb. split; [rewrite cbytes_cons, plain_bytes by done; apply app_nil_r|done|done]. Qed.

Lemma wire_bytes : Forall is_byte wire1 /\ Forall is_byte wire2.
Proof. split; vm_compute; repeat constructor; discriminate. Qed.

Lemma Rx_inj a b : Rx a = Rx b -> a = b.
Proof. by injection 1. Qed.

Definition after2 : ipst := match receive [plain wire2] receiver with Some (_, s) => s | None => receiver end.

Lemma heard2 : heard receiver packets12 [Rx wire2] after2 ([plain wire1] ++ []).
Proof.
  change [Rx wire2] with ([] ++ [Rx wire2]). apply (hd_came receiver packets12 [] receiver [plain wire2] wire2 [plain wire1] None).
  - apply hd_nil.
  - apply chain_plain; [by vm_compute|exact (proj2 wire_bytes)].
  - intros h d Hc. assert (Hl : (fun p => hdr_len p.1) <$> a_check wire2 = Some 20) by (by vm_compute). rewrite Hc in Hl. by injection Hl.
  - assert (Hr : fst <$> receive [plain wire2] receiver = Some None) by (by vm_compute). unfold after2.
    destruct (receive [plain wire2] receiver) as [[r s]|]; [|done]. by injection Hr as ->.
Qed.

Lemma check_refines_witness : exists out s' A', ip_check [plain wire2] receiver = Some (out, s') /\
  accepted s' A' [plain wire1] (a_check wire2) out /\ (A' = [] \/ @None mbuf ∈ [] /\ (A' = [] \/ A' = [])).
Proof.
  apply (check_refines receiver [] [plain wire1] [plain wire2] wire2). split.
  - apply receiver_good.
  - apply (chain_plain (ip_mb receiver) wire2); [by vm_compute|exact (proj2 wire_bytes)].
  - exact (proj2 wire_bytes).
  - split; reflexivity.
Defined.

Lemma datagram_crosses_witness : exists z s2 f, receive [plain wire1] after2 = Some (Some (z, 20), s2) /\
  visible (ip_mb s2) z (a_header key32 12 f) data12 false.
Proof.
  destruct (datagram_crosses [] 16 taken sender h32 (packet_in data12) data12 [] 28 sent12.1.1 sent12.2 key32 [] receiver packets12 [Rx wire2] after2 [plain wire1] wire1 [])
    as (r & s2 & Hr & H).
  - split; vm_compute; discriminate.
  - apply ready12.
  - apply sent12_run.
  - vm_compute. reflexivity.
  - apply not_elem_of_nil.
  - apply receiver_good.
  - reflexivity.
  - apply heard2.
  - vm_compute. reflexivity.
  - apply chain_plain; [vm_compute; discriminate|exact (proj1 wire_bytes)].
  - change (cbytes (ip_mb sent12.2) <$> sent12.1.1) with wires12. rewrite wires12_are. apply list_elem_of_here.
  - intros w Hw _. apply list_elem_of_singleton in Hw. apply Rx_inj in Hw. rewrite Hw.
    change (cbytes (ip_mb sent12.2) <$> sent12.1.1) with wires12. rewrite wires12_are. right. apply list_elem_of_here.
  - change (cbytes (ip_mb sent12.2) <$> sent12.1.1) with wires12. rewrite wires12_are. intros Hall.
    specialize (Hall wire1 (list_elem_of_here _ _)). apply list_elem_of_singleton in Hall. vm_compute in Hall. discriminate Hall.
  - destruct H as [(_ & z & f & -> & Hv)|[Hnot _]]; [exists z, s2, f; split; [exact Hr|exact Hv]|].
    exfalso. apply Hnot. change (cbytes (ip_mb sent12.2) <$> sent12.1.1) with wires12. rewrite wires12_are. intros w Hw.
    apply elem_of_cons in Hw as [->|Hw]; [right; apply list_elem_of_here|]. apply list_elem_of_singleton in Hw as ->. apply list_elem_of_here.
Defined.
